(* ===== verification/_CoqProject ===== *)
-Q . S2P
Prelude.v
Errno.v
Fifo.v
FileLock.v
Memory.v
Cow.v
User.v
Space.v
Tlb.v
Modrm.v
Float80.v
Cpu.v
HostFloat.v
Fpu.v
Vec.v
Mmx.v
Task.v
Signal.v
Group.v
Exit.v
Fork.v
Vfs.v
Path.v
Fd.v
Generic.v
Tmpfs.v
Tty.v
Futex.v
Poll.v
Creds.v
Exec.v
Files.v
Dirs.v
Adhoc.v
Timers.v
Clocks.v
Ptrace.v
Sock.v
