(* ===== verification/Prelude.v ===== *)
(** * iSH64: a verification library

    iSH64 runs 32-bit x86 Linux programs on a host: an interpreter executes the guest's instructions and a kernel in user
    space serves its system calls.  This library models the core of that program, translated from the C sources under
    src/, and proves what makes it correct.  Arithmetic is kept at the width of the C types: a w-bit integer is a [Z] in
    its range, and wherever the code can overflow the wrap-around is written out ([u32], [s64], ...).

    ** The parts and the files

    - This file: machine integers, blocks of memory, lists, and the tactics and hints the others use.
    - [Errno] (kernel/errno.c, kernel/errno.h): translation of host error numbers.
    - [Fifo] (util/fifo.c, kernel/log.c): the byte ring buffer, and the kernel log that is built on it.
    - [FileLock] (fs/lock.c): POSIX record locks: splitting, merging and conflicts of byte ranges, F_GETLK and F_SETLK.
    - [Memory], [Cow] (kernel/memory.c, kernel/memory.h): page tables, reference-counted data, mapping, unmapping,
      finding holes, copy-on-write, growing the stack, and the translation of guest addresses.  [Memory] has the
      definitions and the properties of mapping, [Cow] those of copy-on-write and translation.
    - [User] (kernel/user.c): the kernel's access to guest memory, byte ranges and strings.
    - [Tlb] (emu/tlb.c, emu/tlb.h): the software TLB in front of the page tables, with the accesses that cross a page.
    - [Float80] (emu/float80.c, emu/float80.h): 80-bit software floating point.
    - [Cpu] (emu/cpu.h): the processor's bit fields and the lazily evaluated flags.
    - [HostFloat]: the C types float and double of the host, on bit patterns; the class [Host] has the choices C leaves open.
    - [Fpu] (emu/fpu.c), [Vec] (emu/vec.c), [Mmx] (emu/mmx.c): the x87, SSE and MMX helpers the interpreter calls.  [Vec] and
      [Mmx] run on a store of registers, so that a helper whose operands are the same register is modelled as it is.
    - [Task] (kernel/task.c, kernel/task.h): tasks, thread groups, the pid table, and the monad of the process model: an
      operation returns, or stops the emulator (a failed assertion, a null pointer, an index out of bounds), or blocks
      on a lock it holds, or ends the task.
    - [Signal] (kernel/signal.c, kernel/signal.h, util/sync.c): sending, queueing, blocking and delivering signals, frames and
      returning from handlers, sigaction, sigprocmask, sigaltstack, the waiting calls, and kill.
    - [Group] (kernel/group.c, util/list.h): process groups and sessions.
    - [Exit] (kernel/exit.c): exit, exit_group, reparenting, zombies and the wait calls.
    - [Fork] (kernel/fork.c): clone, fork and vfork.
    - [Vfs] (kernel/fs.h, fs/fd.h, fs/inode.h, fs/stat.h): the state of the file layer, its monad, permissions, and the tables of operations
      a file system and an open file give, as records.
    - [Path] (fs/path.c, fs/path.h): path resolution with symbolic links and mounts.
    - [Fd] (fs/fd.c, fs/inode.c, util/bits.h): open files, descriptor tables, dup, close, exec and fcntl; in-core inodes.
    - [Generic] (fs/generic.c, fs/stat.c, fs/mount.c, fs/dev.c): operations on paths, mounts, and devices by number.
    - [Tmpfs] (fs/tmp.c, util/refcount.h): the memory file system, an instance of the operations of [Vfs].
    - [Tty] (fs/tty.c, fs/tty.h, fs/pty.c): terminals, the line discipline, pseudo-terminals and devpts.
    - [Futex] (kernel/futex.c): futexes by address, with waits that other threads end or move.
    - [Poll] (fs/poll.c, kernel/poll.c, kernel/epoll.c): polls and their entries, select, poll and epoll.
    - [Creds] (kernel/getset.c, kernel/resource.c): ids, groups and resource limits.
    - [Modrm] (emu/modrm.h): the operands of instructions, decoded from guest memory over any source of bytes ([CodeOK]), of which the TLB is one.
    - [Space] (kernel/memory.c, kernel/user.c as their callers see them): the interface of an address space, and that guest memory satisfies it.
    - [Exec] (kernel/exec.c, kernel/elf.h): loading programs and scripts, the first stack, and execve.
    - [Files] (kernel/fs.c): the system calls on files and paths, over guest memory and the file layer.
    - [Dirs] (fs/dir.c): getdents, over any directory that keeps the laws of [Stream]; those of tmpfs do.
    - [Adhoc] (fs/adhoc.c, kernel/eventfd.c, fs/pipe.c): files without a name, event counters and pipes.
    - [Timers] (util/timer.c, util/timer.h): timers, their threads and their owners as a step relation.
    - [Clocks] (kernel/time.c): the calls on clocks and timers, and timer files.
    - [Ptrace] (kernel/ptrace.c): tracing, over the state of [Task] and an address space for each task.
    - [Sock] (fs/sock.c, fs/sock.h): sockets over those of the host, names of the local domain, and passing descriptors.

    Components meet at interfaces: the TLB is proved against the class [Mmu] that the page tables implement; the float
    helpers against [Host]; signal frames are stored through [FrameMem]; and the signal code assumes of the exit code only
    [Noreturn], which [Exit] discharges, so that the theorems of [Signal] hold for the composed system
    ([Exit.fatal_signal_exits], [Exit.kill_and_collect_status]).  Path resolution and the calls on paths are proved over any table
    of file system operations, of which [Tmpfs] is one, and over the laws of mounts and descriptor tables they need; canonical
    input over any driver that is [Quiet], which the drivers of the host and the slave side of a pseudo-terminal are.

    ** What the theorems show

    - Memory: mapping, unmapping and copying address spaces do to every page what they should; reference counts are exact,
      nothing leaks and nothing is freed early; a write after a fork is seen by one side only, through the kernel's
      accessors as well, as long as the host has memory; what [mem_ptr] and [pt_map] do without it is stated too.  A TLB that is
      refreshed is transparent, for accesses that cross pages too, when changes of mappings are counted; the one exit that
      does not count them is that of a failed mprotect in [pt_set_flags].
    - Locks: acquiring a lock gives exactly the byte-wise union and difference of ranges and keeps locks disjoint and sorted by owner.
    - Arithmetic: multiplication and conversions of the 80-bit type round correctly in every mode; the x87 stack, comparisons,
      loads and stores refine a stack of values; the SSE and MMX helpers compute what the instructions are documented to compute.
    - Processes: the pending set and the signal queue agree through sending, delivering and returning from signals (but not
      through sigtimedwait: [Signal.sigtimedwait_loses_signals]); delivery is in order and complete, and ends; a handler is
      entered and left as it should be; frames are placed within bounds; fork, exit, wait, setsid and setpgid keep the
      family tree and the lists of process groups and sessions in order, and a status is collected exactly once.
    - Files: path resolution refines a walk over an abstract tree and ends; the reference counts of open files are exact through
      dup, close, fork and exec; operations on paths that open no file balance the references of mounts; a tmpfs refines an abstract tree of files by path.
    - Terminals: canonical input refines a line editor, for any driver that echoes it; reading takes from that editor; input of
      any length stays inside the buffer; a line written to one side of a pseudo-terminal is read from the other.
    - Futexes: whatever the threads do, in any order, the futexes refine a queue of threads for each address, up to a requeue to
      the same address, which spins, and a futex without memory, which crashes.
    - Polls: the lists of entries stay well formed and refine a list of items for each poll, through operations and waits in any order, up to a
      one-shot entry that reports; an epoll wait reports what is ready; entries outlive the events of the host, unless the host refuses a file.
    - Credentials: calls of an unprivileged task gain no ids and raise no limits; supplementary groups are for everybody to set.
    - Operands: the decoder takes exactly the byte strings the table of the instruction set has.
    - Exec: the first stack has the layout of the System V convention, over any address space that keeps its laws; a segment is in memory as
      the file has it; arguments and script lines are read as they were written.
    - Files: what is written from guest memory is read back into it; a vector is one write; positions are kept; access decides by the real
      ids; a directory is listed completely whatever the buffer.
    - Timers: whatever the interleaving, a timer refines the promise to call back when it is due and is not used after it was freed; the
      interval timer is read back as it was set; an event counter is a number, and a thread that waits on it is notified and goes on.
    - Tracing: only stopped children are touched; words and registers that are stored are read back.
    - Sockets: descriptors that are passed are queued in order and with a reference each; abstract names that are bound are found.
    - Where the code does not do what it means to, a theorem states what it does instead; its comment says what was meant.

    ** Fuel and bounds

    Loops without a structural measure take fuel.  Each has a theorem or lemma that a bound suffices: the number of pages
    for the loops over pages, MAX_PID for the search of a pid, the length of the queue for delivery, the count of bits for
    the loops of the float code.  Loops that wait for other threads take fuel for the number of wake-ups, with what the other
    threads do as a parameter; a result [None] is a loop that has not ended, and the theorems say when it does not occur.

    ** Not modelled

    - The interpreter (emu/decode.h, asbestos/): instruction decoding and dispatch are macros over gadgets that are generated or
      in assembly; the helpers they call are modelled.
    - Concurrency of the kernel's own threads: an operation is atomic, as it is under the locks it takes; locks appear where a thread
      takes one it holds.  Futexes, timers and waits on event counters are interleaved with other threads.
    - Drivers and host facilities: real and fake file systems (fs/real.c, fs/fake*.c), terminals of the host,
      and everything that is calls to the host's library.
    - What the host answers - memory, its page size, its poll object, the time - is a parameter: [PageSize], [HostAlloc], [HostMemory] and the like
      are classes, and theorems that need more of the host than that it answers say so.
    - Third-party code (emu/tinyemu, deps), the application (app), tools and copies kept beside the sources (*.bak*). *)

From stdpp Require Export base tactics list numbers.
From Stdlib Require Export ZArith Lia.

#[global] Open Scope Z_scope.

(** ** Machine integers

    A [w]-bit unsigned C integer is a [Z] in [0, 2^w); arithmetic that may
    wrap is written with [wrap] at the place where the C code wraps.  A signed
    integer is a [Z] in [-2^(w-1), 2^(w-1)), obtained by [swrap]. *)

Definition wrap (w x : Z) : Z := x mod 2 ^ w.

Definition swrap (w x : Z) : Z :=
  let y := x mod 2 ^ w in
  if y <? 2 ^ (w - 1) then y else y - 2 ^ w.

Declare Scope cint_scope.
Delimit Scope cint_scope with cint.
Abbreviation u8 := (wrap 8).
Abbreviation u16 := (wrap 16).
Abbreviation u32 := (wrap 32).
Abbreviation u64 := (wrap 64).
Abbreviation u128 := (wrap 128).
Abbreviation s8 := (swrap 8).
Abbreviation s16 := (swrap 16).
Abbreviation s32 := (swrap 32).
Abbreviation s64 := (swrap 64).

(** The values of a [w]-bit unsigned type. *)
Definition in_u (w x : Z) : Prop := 0 <= x < 2 ^ w.
(** The values of a [w]-bit signed type. *)
Definition in_s (w x : Z) : Prop := - 2 ^ (w - 1) <= x < 2 ^ (w - 1).

#[global] Instance in_u_dec w x : Decision (in_u w x).
Proof. unfold in_u. apply _. Defined.
#[global] Instance in_s_dec w x : Decision (in_s w x).
Proof. unfold in_s. apply _. Defined.

(** C's truth value of an expression used as a condition. *)
Definition ctrue (x : Z) : bool := negb (x =? 0).
(** C's value of a comparison. *)
Definition cbool (b : bool) : Z := if b then 1 else 0.

(** ** Automation *)

Create HintDb cint.

(** Turn boolean comparisons of the model into propositions. *)
Ltac zbool :=
  repeat match goal with
  | H : context [Z.ltb ?a ?b] |- _ => destruct (Z.ltb_spec a b)
  | H : context [Z.leb ?a ?b] |- _ => destruct (Z.leb_spec a b)
  | H : context [Z.gtb ?a ?b] |- _ => rewrite (Z.gtb_ltb a b) in H
  | H : context [Z.geb ?a ?b] |- _ => rewrite (Z.geb_leb a b) in H
  | H : context [Z.eqb ?a ?b] |- _ => destruct (Z.eqb_spec a b)
  | |- context [Z.gtb ?a ?b] => rewrite (Z.gtb_ltb a b)
  | |- context [Z.geb ?a ?b] => rewrite (Z.geb_leb a b)
  | |- context [Z.ltb ?a ?b] => destruct (Z.ltb_spec a b)
  | |- context [Z.leb ?a ?b] => destruct (Z.leb_spec a b)
  | |- context [Z.eqb ?a ?b] => destruct (Z.eqb_spec a b)
  end; simpl in *.

(** Evaluate the comparisons that the context decides. *)
Ltac zdec :=
  rewrite ?Z.gtb_ltb, ?Z.geb_leb;
  repeat match goal with
  | |- context [Z.ltb ?a ?b] =>
      first [rewrite (proj2 (Z.ltb_lt a b)) by lia | rewrite (proj2 (Z.ltb_ge a b)) by lia]
  | |- context [Z.leb ?a ?b] =>
      first [rewrite (proj2 (Z.leb_le a b)) by lia | rewrite (proj2 (Z.leb_gt a b)) by lia]
  | |- context [Z.eqb ?a ?b] =>
      first [rewrite (proj2 (Z.eqb_eq a b)) by lia | rewrite (proj2 (Z.eqb_neq a b)) by lia]
  end; simpl.

(** ** Facts on machine integers *)

Lemma pow2_pos w : 0 <= w -> 0 < 2 ^ w.
Proof. intros; apply Z.pow_pos_nonneg; lia. Qed.
#[export] Hint Resolve pow2_pos : cint.

Lemma wrap_small w x : in_u w x -> wrap w x = x.
Proof. intros [? ?]. apply Z.mod_small; lia. Qed.

Lemma wrap_range w x : 0 <= w -> in_u w (wrap w x).
Proof. intros. apply Z.mod_pos_bound, pow2_pos; lia. Qed.
#[export] Hint Resolve wrap_range : cint.

Lemma wrap_wrap w x : wrap w (wrap w x) = wrap w x.
Proof. unfold wrap. apply Zmod_mod. Qed.

Lemma swrap_range w x : 0 < w -> in_s w (swrap w x).
Proof.
  intros Hw. unfold swrap, in_s.
  assert (2 ^ w = 2 * 2 ^ (w - 1)).
  { rewrite <- Z.pow_succ_r by lia. f_equal; lia. }
  pose proof (Z.mod_pos_bound x (2 ^ w) (pow2_pos w ltac:(lia))).
  zbool; lia.
Qed.
#[export] Hint Resolve swrap_range : cint.

Lemma swrap_small w x : 0 < w -> in_s w x -> swrap w x = x.
Proof.
  intros Hw [Hl Hh]. unfold swrap.
  assert (Hp : 2 ^ w = 2 * 2 ^ (w - 1)).
  { rewrite <- Z.pow_succ_r by lia. f_equal; lia. }
  destruct (Z.le_gt_cases 0 x).
  - rewrite Z.mod_small by lia. zbool; lia.
  - replace (x mod 2 ^ w) with (x + 2 ^ w).
    + zbool; lia.
    + rewrite <- (Z.mod_small (x + 2 ^ w) (2 ^ w)) by lia.
      rewrite <- (Z_mod_plus_full x 1 (2 ^ w)). f_equal; lia.
Qed.

(** ** Memory blocks

    A C buffer is the list of its bytes.  [block_read] and [block_write] are
    [memcpy] out of and into a buffer; both give [None] when the access leaves
    the buffer, so that a theorem saying that an operation returns [Some] also
    says that its accesses are in bounds. *)

Definition block_read {A} (b : list A) (off n : Z) : option (list A) :=
  if (0 <=? off) && (0 <=? n) && (off + n <=? Z.of_nat (length b))
  then Some (take (Z.to_nat n) (drop (Z.to_nat off) b)) else None.

Definition block_write {A} (b : list A) (off : Z) (d : list A) : option (list A) :=
  if (0 <=? off) && (off + Z.of_nat (length d) <=? Z.of_nat (length b))
  then Some (take (Z.to_nat off) b ++ d ++
             drop (Z.to_nat off + length d) b) else None.

Lemma block_read_Some {A} (b : list A) off n :
  0 <= off -> 0 <= n -> off + n <= Z.of_nat (length b) ->
  block_read b off n = Some (take (Z.to_nat n) (drop (Z.to_nat off) b)).
Proof. intros. unfold block_read. zbool; try lia. done. Qed.

Lemma block_write_Some {A} (b : list A) off (d : list A) :
  0 <= off -> off + Z.of_nat (length d) <= Z.of_nat (length b) ->
  block_write b off d = Some (take (Z.to_nat off) b ++ d ++
                              drop (Z.to_nat off + length d) b).
Proof. intros. unfold block_write. zbool; try lia. done. Qed.

Lemma block_read_length {A} (b d : list A) off n :
  block_read b off n = Some d -> length d = Z.to_nat n.
Proof.
  unfold block_read.
  destruct (Z.leb_spec 0 off), (Z.leb_spec 0 n), (Z.leb_spec (off + n) (Z.of_nat (length b)));
    simpl; try done.
  injection 1 as <-. rewrite length_take, length_drop. lia.
Qed.

Lemma block_write_length {A} (b b' : list A) off d :
  block_write b off d = Some b' -> length b' = length b.
Proof.
  unfold block_write. intros H. zbool; simplify_eq.
  rewrite !length_app, length_take, length_drop. lia.
Qed.

(** Reading a written block byte by byte. *)
Lemma block_write_lookup {A} (b b' : list A) off d i :
  block_write b off d = Some b' ->
  b' !! i = if decide (Z.to_nat off <= i < Z.to_nat off + length d)%nat
            then d !! (i - Z.to_nat off)%nat else b !! i.
Proof.
  unfold block_write. intros H. zbool; simplify_eq.
  assert (Hl : length (take (Z.to_nat off) b) = Z.to_nat off)
    by (rewrite length_take; lia).
  case_decide.
  - rewrite lookup_app_r by lia. rewrite Hl. by rewrite lookup_app_l by lia.
  - destruct (decide (i < Z.to_nat off)%nat).
    + rewrite lookup_app_l by lia. by rewrite lookup_take_lt by lia.
    + rewrite lookup_app_r by lia. rewrite Hl. rewrite lookup_app_r by lia.
      rewrite lookup_drop. f_equal; lia.
Qed.

(** ** Ordered pairs of a list *)

Lemma FOP_app {A} (R : A -> A -> Prop) (l1 l2 : list A) :
  ForallOrdPairs R (l1 ++ l2) <->
  ForallOrdPairs R l1 /\ ForallOrdPairs R l2 /\ (forall x y, x ∈ l1 -> y ∈ l2 -> R x y).
Proof.
  induction l1 as [|a l1 IH]; simpl.
  - split; [intros H; split_and!; [constructor|done|]|tauto]. intros x y Hx. by apply not_elem_of_nil in Hx.
  - split.
    + intros H. inversion H as [|? ? Ha Hr]; subst. apply IH in Hr as (H1 & H2 & H3).
      apply Forall_app in Ha as [Ha1 Ha2]. split_and!; [by constructor|done|].
      intros x y [->|Hx]%elem_of_cons Hy; [|by apply H3].
      rewrite List.Forall_forall in Ha2. by apply Ha2, list_elem_of_In.
    + intros (H1 & H2 & H3). inversion H1 as [|? ? Ha Hr]; subst. constructor.
      * apply Forall_app; split; [done|]. apply List.Forall_forall. intros y Hy.
        apply H3; [apply list_elem_of_here|by apply list_elem_of_In].
      * apply IH. split_and!; try done. intros x y Hx Hy. apply H3; [by apply list_elem_of_further|done].
Qed.

Lemma FOP_impl {A} (P Q : A -> A -> Prop) (l : list A) :
  (forall x y, x ∈ l -> y ∈ l -> P x y -> Q x y) -> ForallOrdPairs P l -> ForallOrdPairs Q l.
Proof.
  intros HPQ H. induction H as [|a l Ha Hl IH]; constructor.
  - apply List.Forall_forall. intros y Hy%list_elem_of_In. apply HPQ;
      [apply list_elem_of_here|by apply list_elem_of_further|].
    rewrite List.Forall_forall in Ha. by apply Ha, list_elem_of_In.
  - apply IH. intros; apply HPQ; try by apply list_elem_of_further. done.
Qed.

Lemma Forall_elem {A} (P : A -> Prop) (l : list A) :
  Forall P l <-> forall x, x ∈ l -> P x.
Proof. rewrite List.Forall_forall. by setoid_rewrite list_elem_of_In. Qed.

Lemma filter_all {A} (P : A -> Prop) `{!forall x, Decision (P x)} (l : list A) : (forall x, x ∈ l -> P x) -> filter P l = l.
Proof.
  induction l as [|x l IH]; [done|]. intros Hl. rewrite filter_cons_True by (apply Hl, elem_of_cons; by left).
  f_equal. apply IH. intros y Hy. apply Hl, elem_of_cons. by right.
Qed.

Lemma Forall_filter {A} (P Q : A -> Prop) `{!forall x, Decision (Q x)} (l : list A) :
  Forall P l -> Forall P (filter Q l).
Proof. rewrite !Forall_elem. intros HP x [_ Hx]%list_elem_of_filter. auto. Qed.

(** ** Counting

    Changing a predicate at one point of a duplicate-free list changes the count
    by what happens at that point. *)

Definition ind (P : Prop) `{!Decision P} : nat := if decide P then 1 else 0.

Lemma count_point {A} (P Q : A -> Prop) `{!forall x, Decision (P x), !forall x, Decision (Q x)}
    (l : list A) (x : A) :
  NoDup l -> x ∈ l -> (forall y, y <> x -> (P y <-> Q y)) ->
  (length (filter Q l) + ind (P x) = length (filter P l) + ind (Q x))%nat.
Proof.
  intros Hnd Hx HPQ. unfold ind.
  assert (Hout : forall l', x ∉ l' -> length (filter Q l') = length (filter P l')).
  { induction l' as [|y l' IH]; intros Hni; [done|].
    rewrite not_elem_of_cons in Hni. destruct Hni as [Hne Hni].
    rewrite !filter_cons. specialize (IH Hni). specialize (HPQ y ltac:(congruence)).
    repeat case_decide; simpl; try lia; tauto. }
  induction Hnd as [|y l Hni Hnd IH]; [by apply not_elem_of_nil in Hx|].
  rewrite !filter_cons. apply elem_of_cons in Hx as [->|Hx].
  - specialize (Hout l Hni). repeat case_decide; simpl; lia.
  - specialize (IH Hx). specialize (HPQ y ltac:(congruence)).
    repeat case_decide; simpl in *; try lia; tauto.
Qed.
