(* ===== verification/Errno.v ===== *)
(** * Error numbers (kernel/errno.h, kernel/errno.c)

    The guest sees Linux error numbers, negated; the host has its own.  The
    host's numbering is a parameter of the model (it comes from the host's
    <errno.h>): [HostErrno] gives the number of each name, and [HostErrnoOK]
    says what the C [switch] of [err_map] needs of it. *)

From S2P Require Import Prelude.

(** The guest's codes, as kernel/errno.h defines them. *)

Definition _EPERM : Z := -1.
Definition _ENOENT : Z := -2.
Definition _ESRCH : Z := -3.
Definition _EINTR : Z := -4.
Definition _EIO : Z := -5.
Definition _ENXIO : Z := -6.
Definition _E2BIG : Z := -7.
Definition _ENOEXEC : Z := -8.
Definition _EBADF : Z := -9.
Definition _ECHILD : Z := -10.
Definition _EAGAIN : Z := -11.
Definition _ENOMEM : Z := -12.
Definition _EACCES : Z := -13.
Definition _EFAULT : Z := -14.
Definition _ENOTBLK : Z := -15.
Definition _EBUSY : Z := -16.
Definition _EEXIST : Z := -17.
Definition _EXDEV : Z := -18.
Definition _ENODEV : Z := -19.
Definition _ENOTDIR : Z := -20.
Definition _EISDIR : Z := -21.
Definition _EINVAL : Z := -22.
Definition _ENFILE : Z := -23.
Definition _EMFILE : Z := -24.
Definition _ENOTTY : Z := -25.
Definition _ETXTBSY : Z := -26.
Definition _EFBIG : Z := -27.
Definition _ENOSPC : Z := -28.
Definition _ESPIPE : Z := -29.
Definition _EROFS : Z := -30.
Definition _EMLINK : Z := -31.
Definition _EPIPE : Z := -32.
Definition _EDOM : Z := -33.
Definition _ERANGE : Z := -34.
Definition _EDEADLK : Z := -35.
Definition _ENAMETOOLONG : Z := -36.
Definition _ENOLCK : Z := -37.
Definition _ENOSYS : Z := -38.
Definition _ENOTEMPTY : Z := -39.
Definition _ELOOP : Z := -40.
Definition _EBFONT : Z := -59.
Definition _ENOSTR : Z := -60.
Definition _ENODATA : Z := -61.
Definition _ETIME : Z := -62.
Definition _ENOSR : Z := -63.
Definition _ENONET : Z := -64.
Definition _ENOPKG : Z := -65.
Definition _EREMOTE : Z := -66.
Definition _ENOLINK : Z := -67.
Definition _EADV : Z := -68.
Definition _ESRMNT : Z := -69.
Definition _ECOMM : Z := -70.
Definition _EPROTO : Z := -71.
Definition _EMULTIHOP : Z := -72.
Definition _EDOTDOT : Z := -73.
Definition _EBADMSG : Z := -74.
Definition _EOVERFLOW : Z := -75.
Definition _ENOTUNIQ : Z := -76.
Definition _EBADFD : Z := -77.
Definition _EREMCHG : Z := -78.
Definition _ELIBACC : Z := -79.
Definition _ELIBBAD : Z := -80.
Definition _ELIBSCN : Z := -81.
Definition _ELIBMAX : Z := -82.
Definition _ELIBEXEC : Z := -83.
Definition _EILSEQ : Z := -84.
Definition _ERESTART : Z := -85.
Definition _ESTRPIPE : Z := -86.
Definition _EUSERS : Z := -87.
Definition _ENOTSOCK : Z := -88.
Definition _EDESTADDRREQ : Z := -89.
Definition _EMSGSIZE : Z := -90.
Definition _EPROTOTYPE : Z := -91.
Definition _ENOPROTOOPT : Z := -92.
Definition _EPROTONOSUPPORT : Z := -93.
Definition _ESOCKTNOSUPPORT : Z := -94.
Definition _EOPNOTSUPP : Z := -95.
Definition _ENOTSUP : Z := _EOPNOTSUPP.
Definition _EPFNOSUPPORT : Z := -96.
Definition _EAFNOSUPPORT : Z := -97.
Definition _EADDRINUSE : Z := -98.
Definition _EADDRNOTAVAIL : Z := -99.
Definition _ENETDOWN : Z := -100.
Definition _ENETUNREACH : Z := -101.
Definition _ENETRESET : Z := -102.
Definition _ECONNABORTED : Z := -103.
Definition _ECONNRESET : Z := -104.
Definition _ENOBUFS : Z := -105.
Definition _EISCONN : Z := -106.
Definition _ENOTCONN : Z := -107.
Definition _ESHUTDOWN : Z := -108.
Definition _ETOOMANYREFS : Z := -109.
Definition _ETIMEDOUT : Z := -110.
Definition _ECONNREFUSED : Z := -111.
Definition _EHOSTDOWN : Z := -112.
Definition _EHOSTUNREACH : Z := -113.
Definition _EALREADY : Z := -114.
Definition _EINPROGRESS : Z := -115.
Definition _ESTALE : Z := -116.
Definition _EUCLEAN : Z := -117.
Definition _ENOTNAM : Z := -118.
Definition _ENAVAIL : Z := -119.
Definition _EISNAM : Z := -120.
Definition _EREMOTEIO : Z := -121.
Definition _EDQUOT : Z := -122.
Definition _ECANCELED : Z := -125.

Module Errno.

(** The names [err_map] has a case for, in the order of the [switch]. *)
Inductive host_err :=
  | EPERM | ENOENT | ESRCH | EINTR | EIO | ENXIO
  | E2BIG | ENOEXEC | EBADF | ECHILD | EAGAIN | ENOMEM
  | EACCES | EFAULT | ENOTBLK | EBUSY | EEXIST | EXDEV
  | ENODEV | ENOTDIR | EISDIR | EINVAL | ENFILE | EMFILE
  | ENOTTY | ETXTBSY | EFBIG | ENOSPC | ESPIPE | EROFS
  | EMLINK | EPIPE | EDOM | ERANGE | EDEADLK | ENAMETOOLONG
  | ENOLCK | ENOSYS | ENOTEMPTY | ELOOP | ENOSTR | ENODATA
  | ETIME | ENOSR | EREMOTE | ENOLINK | EPROTO | EMULTIHOP
  | EBADMSG | EOVERFLOW | EILSEQ | EUSERS | ENOTSOCK | EDESTADDRREQ
  | EMSGSIZE | EPROTOTYPE | ENOPROTOOPT | EPROTONOSUPPORT | ESOCKTNOSUPPORT | EOPNOTSUPP
  | ENOTSUP | EPFNOSUPPORT | EAFNOSUPPORT | EADDRINUSE | EADDRNOTAVAIL | ENETDOWN
  | ENETUNREACH | ENETRESET | ECONNABORTED | ECONNRESET | ENOBUFS | EISCONN
  | ENOTCONN | ESHUTDOWN | ETOOMANYREFS | ETIMEDOUT | ECONNREFUSED | EHOSTDOWN
  | EHOSTUNREACH | EALREADY | EINPROGRESS | ESTALE | EDQUOT.

#[global] Instance host_err_eq_dec : EqDecision host_err.
Proof. solve_decision. Defined.

Definition err_cases : list host_err :=
  [EPERM; ENOENT; ESRCH; EINTR; EIO; ENXIO; E2BIG; ENOEXEC;
   EBADF; ECHILD; EAGAIN; ENOMEM; EACCES; EFAULT; ENOTBLK; EBUSY;
   EEXIST; EXDEV; ENODEV; ENOTDIR; EISDIR; EINVAL; ENFILE; EMFILE;
   ENOTTY; ETXTBSY; EFBIG; ENOSPC; ESPIPE; EROFS; EMLINK; EPIPE;
   EDOM; ERANGE; EDEADLK; ENAMETOOLONG; ENOLCK; ENOSYS; ENOTEMPTY; ELOOP;
   ENOSTR; ENODATA; ETIME; ENOSR; EREMOTE; ENOLINK; EPROTO; EMULTIHOP;
   EBADMSG; EOVERFLOW; EILSEQ; EUSERS; ENOTSOCK; EDESTADDRREQ; EMSGSIZE; EPROTOTYPE;
   ENOPROTOOPT; EPROTONOSUPPORT; ESOCKTNOSUPPORT; EOPNOTSUPP; ENOTSUP; EPFNOSUPPORT; EAFNOSUPPORT; EADDRINUSE;
   EADDRNOTAVAIL; ENETDOWN; ENETUNREACH; ENETRESET; ECONNABORTED; ECONNRESET; ENOBUFS; EISCONN;
   ENOTCONN; ESHUTDOWN; ETOOMANYREFS; ETIMEDOUT; ECONNREFUSED; EHOSTDOWN; EHOSTUNREACH; EALREADY;
   EINPROGRESS; ESTALE; EDQUOT].

(** [_##err] of the macro [ERRCASE]. *)
Definition guest_errno (e : host_err) : Z :=
  match e with
  | EPERM => _EPERM | ENOENT => _ENOENT | ESRCH => _ESRCH
  | EINTR => _EINTR | EIO => _EIO | ENXIO => _ENXIO
  | E2BIG => _E2BIG | ENOEXEC => _ENOEXEC | EBADF => _EBADF
  | ECHILD => _ECHILD | EAGAIN => _EAGAIN | ENOMEM => _ENOMEM
  | EACCES => _EACCES | EFAULT => _EFAULT | ENOTBLK => _ENOTBLK
  | EBUSY => _EBUSY | EEXIST => _EEXIST | EXDEV => _EXDEV
  | ENODEV => _ENODEV | ENOTDIR => _ENOTDIR | EISDIR => _EISDIR
  | EINVAL => _EINVAL | ENFILE => _ENFILE | EMFILE => _EMFILE
  | ENOTTY => _ENOTTY | ETXTBSY => _ETXTBSY | EFBIG => _EFBIG
  | ENOSPC => _ENOSPC | ESPIPE => _ESPIPE | EROFS => _EROFS
  | EMLINK => _EMLINK | EPIPE => _EPIPE | EDOM => _EDOM
  | ERANGE => _ERANGE | EDEADLK => _EDEADLK | ENAMETOOLONG => _ENAMETOOLONG
  | ENOLCK => _ENOLCK | ENOSYS => _ENOSYS | ENOTEMPTY => _ENOTEMPTY
  | ELOOP => _ELOOP | ENOSTR => _ENOSTR | ENODATA => _ENODATA
  | ETIME => _ETIME | ENOSR => _ENOSR | EREMOTE => _EREMOTE
  | ENOLINK => _ENOLINK | EPROTO => _EPROTO | EMULTIHOP => _EMULTIHOP
  | EBADMSG => _EBADMSG | EOVERFLOW => _EOVERFLOW | EILSEQ => _EILSEQ
  | EUSERS => _EUSERS | ENOTSOCK => _ENOTSOCK | EDESTADDRREQ => _EDESTADDRREQ
  | EMSGSIZE => _EMSGSIZE | EPROTOTYPE => _EPROTOTYPE | ENOPROTOOPT => _ENOPROTOOPT
  | EPROTONOSUPPORT => _EPROTONOSUPPORT | ESOCKTNOSUPPORT => _ESOCKTNOSUPPORT | EOPNOTSUPP => _EOPNOTSUPP
  | ENOTSUP => _ENOTSUP | EPFNOSUPPORT => _EPFNOSUPPORT | EAFNOSUPPORT => _EAFNOSUPPORT
  | EADDRINUSE => _EADDRINUSE | EADDRNOTAVAIL => _EADDRNOTAVAIL | ENETDOWN => _ENETDOWN
  | ENETUNREACH => _ENETUNREACH | ENETRESET => _ENETRESET | ECONNABORTED => _ECONNABORTED
  | ECONNRESET => _ECONNRESET | ENOBUFS => _ENOBUFS | EISCONN => _EISCONN
  | ENOTCONN => _ENOTCONN | ESHUTDOWN => _ESHUTDOWN | ETOOMANYREFS => _ETOOMANYREFS
  | ETIMEDOUT => _ETIMEDOUT | ECONNREFUSED => _ECONNREFUSED | EHOSTDOWN => _EHOSTDOWN
  | EHOSTUNREACH => _EHOSTUNREACH | EALREADY => _EALREADY | EINPROGRESS => _EINPROGRESS
  | ESTALE => _ESTALE | EDQUOT => _EDQUOT
  end.

(** The host's numbering. *)
Class HostErrno := host_number : host_err -> Z.

Definition same_case (a b : host_err) : Prop :=
  a = b \/ (a = EOPNOTSUPP /\ b = ENOTSUP) \/ (a = ENOTSUP /\ b = EOPNOTSUPP).

(** Case labels are distinct (the one exception has its own [#if]) and are
    positive [int]s below the 0x1000 bit that marks unknown errors. *)
Class HostErrnoOK `{HostErrno} := {
  host_distinct : forall a b, host_number a = host_number b -> same_case a b;
  host_range : forall a, 0 < host_number a < 0x1000;
}.

Definition err_map `{HostErrno} (err : Z) : Z :=
  match list_find (fun e => host_number e = err) err_cases with
  | Some (_, e) => guest_errno e
  | None => - Z.lor err 0x1000
  end.

(** [errno_map]: the code, and whether SIGPIPE is sent to the current task. *)
Definition errno_map `{HostErrno} (errno : Z) : Z * bool :=
  (err_map errno, errno =? host_number EPIPE).

(** The numbers errno.c falls back to where the host does not define a name
    (they are Linux's); names it has no fallback for get the guest's number. *)
Definition fallback_errno (e : host_err) : Z :=
  match e with
  | EPERM => 1 | ENOENT => 2 | ESRCH => 3 | EINTR => 4
  | EIO => 5 | ENXIO => 6 | E2BIG => 7 | ENOEXEC => 8
  | EBADF => 9 | ECHILD => 10 | EAGAIN => 11 | ENOMEM => 12
  | EACCES => 13 | EFAULT => 14 | ENOTBLK => 15 | EBUSY => 16
  | EEXIST => 17 | EXDEV => 18 | ENODEV => 19 | ENOTDIR => 20
  | EISDIR => 21 | EINVAL => 22 | ENFILE => 23 | EMFILE => 24
  | ENOTTY => 25 | ETXTBSY => 26 | EFBIG => 27 | ENOSPC => 28
  | ESPIPE => 29 | EROFS => 30 | EMLINK => 31 | EPIPE => 32
  | EDOM => 33 | ERANGE => 34 | EDEADLK => 35 | ENAMETOOLONG => 36
  | ENOLCK => 37 | ENOSYS => 38 | ENOTEMPTY => 39 | ELOOP => 40
  | ENOSTR => 60 | ENODATA => 61 | ETIME => 62 | ENOSR => 63
  | EREMOTE => 66 | ENOLINK => 67 | EPROTO => 71 | EMULTIHOP => 72
  | EBADMSG => 74 | EOVERFLOW => 75 | EILSEQ => 84 | EUSERS => 87
  | ENOTSOCK => 88 | EDESTADDRREQ => 89 | EMSGSIZE => 90 | EPROTOTYPE => 91
  | ENOPROTOOPT => 92 | EPROTONOSUPPORT => 93 | ESOCKTNOSUPPORT => 94 | EOPNOTSUPP => 95
  | ENOTSUP => 95 | EPFNOSUPPORT => 96 | EAFNOSUPPORT => 97 | EADDRINUSE => 98
  | EADDRNOTAVAIL => 99 | ENETDOWN => 100 | ENETUNREACH => 101 | ENETRESET => 102
  | ECONNABORTED => 103 | ECONNRESET => 104 | ENOBUFS => 105 | EISCONN => 106
  | ENOTCONN => 107 | ESHUTDOWN => 108 | ETOOMANYREFS => 109 | ETIMEDOUT => 110
  | ECONNREFUSED => 111 | EHOSTDOWN => 112 | EHOSTUNREACH => 113 | EALREADY => 114
  | EINPROGRESS => 115 | ESTALE => 116 | EDQUOT => 122
  end.

(** ** Lemmas *)

Lemma err_cases_complete e : e ∈ err_cases.
Proof. destruct e; cbv [err_cases]; repeat (apply list_elem_of_here || apply list_elem_of_further). Qed.

Lemma guest_errno_range e : -125 <= guest_errno e <= -1.
Proof. destruct e; cbv; split; discriminate. Qed.

#[global] Instance same_case_dec a b : Decision (same_case a b).
Proof. unfold same_case. apply _. Defined.

(** A numbering whose collisions are all allowed, by evaluation over the table. *)
Definition distinct_table (num : host_err -> Z) : bool :=
  forallb (fun a => forallb (fun b =>
    negb (num a =? num b) || bool_decide (same_case a b)) err_cases) err_cases.

Lemma distinct_table_ok num a b :
  distinct_table num = true -> num a = num b -> same_case a b.
Proof.
  unfold distinct_table. rewrite forallb_forall. intros H Hab.
  specialize (H a (proj1 (list_elem_of_In _ _) (err_cases_complete a))).
  rewrite forallb_forall in H.
  specialize (H b (proj1 (list_elem_of_In _ _) (err_cases_complete b))).
  rewrite Hab, Z.eqb_refl in H. simpl in H. by apply bool_decide_eq_true_1 in H.
Qed.

Lemma guest_errno_inj a b : guest_errno a = guest_errno b -> same_case a b.
Proof. apply distinct_table_ok. vm_compute. reflexivity. Qed.

Lemma guest_errno_same a b : same_case a b -> guest_errno a = guest_errno b.
Proof. by intros [->|[[-> ->]|[-> ->]]]. Qed.

Lemma fallback_errno_ok : @HostErrnoOK fallback_errno.
Proof.
  split.
  - intros a b. apply (distinct_table_ok fallback_errno). vm_compute. reflexivity.
  - intros a. destruct a; vm_compute; split; reflexivity.
Qed.

Section WithHost.
Context `{HostErrnoOK}.

Lemma list_find_case err e :
  list_find (fun e => host_number e = err) err_cases = Some e -> host_number e.2 = err.
Proof. destruct e as [i e]. intros Hf. apply list_find_Some in Hf. tauto. Qed.

Lemma err_map_case e : err_map (host_number e) = guest_errno e.
Proof.
  unfold err_map. destruct (list_find _ _) as [[i e']|] eqn:E.
  - apply list_find_case in E. simpl in E. by apply guest_errno_same, host_distinct.
  - exfalso. apply list_find_None in E. rewrite Forall_forall in E.
    by apply (E e (proj1 (list_elem_of_In _ _) (err_cases_complete e))).
Qed.

(** [errno_map] translates every host error [err_map] has a case for to the
    guest's code of the same name, whatever numbering the host uses, and raises
    SIGPIPE for a broken pipe and for nothing else. *)
Theorem errno_map_known e :
  errno_map (host_number e) = (guest_errno e, bool_decide (e = EPIPE)).
Proof.
  unfold errno_map. rewrite err_map_case. f_equal.
  destruct (Z.eqb_spec (host_number e) (host_number EPIPE)) as [Heq|Hne].
  - apply host_distinct in Heq as [->|[[? ?]|[? ?]]]; done.
  - rewrite bool_decide_eq_false_2; [done|]. by intros ->.
Qed.

(** an error without a case is reported outside the range of the known
    codes, so it cannot be mistaken for one; and every result is an error. *)
Theorem err_map_unknown err :
  0 < err -> Forall (fun e => host_number e <> err) err_cases ->
  err_map err <= -0x1000 /\ forall e, guest_errno e <> err_map err.
Proof.
  intros Herr Hno. unfold err_map. rewrite (proj2 (list_find_None _ _) Hno).
  assert (0x1000 <= Z.lor err 0x1000) as Hle.
  { assert (Hp : 0 <= Z.lor err 0x1000) by (apply Z.lor_nonneg; lia).
    apply (Z.log2_le_pow2 _ 12); [|rewrite Z.log2_lor by lia; change (Z.log2 0x1000) with 12; lia].
    destruct (Z.eq_dec (Z.lor err 0x1000) 0) as [Hz|]; [|lia].
    apply Z.lor_eq_0_iff in Hz. lia. }
  split; [lia|]. intros e. pose proof (guest_errno_range e). lia.
Qed.

End WithHost.

Lemma errno_map_known_witness :
  @errno_map fallback_errno 32 = (_EPIPE, true).
Proof. exact (@errno_map_known fallback_errno fallback_errno_ok EPIPE). Defined.

Lemma err_map_unknown_witness :
  @err_map fallback_errno 5000 <= -0x1000 /\
  forall e, guest_errno e <> @err_map fallback_errno 5000.
Proof.
  apply (@err_map_unknown fallback_errno 5000); [lia|].
  repeat constructor; vm_compute; discriminate.
Defined.

End Errno.
