(* ===== verification/Fifo.v ===== *)
(** * The byte ring buffer (util/fifo.c) and the kernel log built on it
    (kernel/log.c)

    [fifo] is [struct fifo]; its four fields are kept as they are in C, with
    [size_t] arithmetic wrapped at 64 bits, and every [memcpy] is a
    bounds-checked [block_read]/[block_write] of the buffer.  The abstraction
    is [contents]: the queued bytes, oldest first. *)

From S2P Require Import Prelude Errno.

Module Fifo.

Record fifo := mk_fifo {
  buf : list Z;
  capacity : Z;
  size : Z;
  start : Z;
}.

Definition FIFO_OVERWRITE : Z := 1.
Definition FIFO_PEEK : Z := 1.
Definition FIFO_LAST : Z := 2.

Definition has_flag (flags f : Z) : bool := ctrue (Z.land flags f).

(** [fifo_init]; [mem] is the block [malloc] returns, of arbitrary content. *)
Definition fifo_init (mem : list Z) (cap : Z) : fifo :=
  {| buf := mem; capacity := cap; size := 0; start := 0 |}.

Definition fifo_capacity (f : fifo) : Z := capacity f.
Definition fifo_size (f : fifo) : Z := size f.
Definition fifo_remaining (f : fifo) : Z := u64 (capacity f - size f).

(** The copying half of [fifo_write], after the room has been made. *)
Definition fifo_append (f : fifo) (data : list Z) : option (Z * fifo) :=
  let n := Z.of_nat (length data) in
  let tail := u64 (start f + size f) mod capacity f in
  let first_copy_size := u64 (capacity f - tail) in
  let first_copy_size := if first_copy_size >? n then n else first_copy_size in
  b1 ← block_write (buf f) tail (take (Z.to_nat first_copy_size) data);
  b2 ← block_write b1 0 (drop (Z.to_nat first_copy_size) data);
  Some (0, {| buf := b2; capacity := capacity f;
              size := u64 (size f + n); start := start f |}).

Definition fifo_write (f : fifo) (data : list Z) (flags : Z) : option (Z * fifo) :=
  let n := Z.of_nat (length data) in
  if n >? fifo_remaining f then
    if negb (has_flag flags FIFO_OVERWRITE) then Some (1, f)
    else
      let excess := u64 (n - fifo_remaining f) in
      fifo_append {| buf := buf f; capacity := capacity f;
                     size := u64 (size f - excess);
                     start := u64 (start f + excess) mod capacity f |} data
  else fifo_append f data.

(** [fifo_read] gives the return code, the bytes stored into the caller's
    buffer ([] when it is left untouched), and the new state. *)
Definition fifo_read (f : fifo) (n flags : Z) : option (Z * list Z * fifo) :=
  if n >? fifo_size f then Some (1, [], f)
  else
    let start' :=
      if has_flag flags FIFO_LAST
      then u64 (start f + (size f - n)) mod capacity f else start f in
    let first_copy_size := u64 (capacity f - start f) in
    let first_copy_size := if first_copy_size >? n then n else first_copy_size in
    a ← block_read (buf f) start' first_copy_size;
    b ← block_read (buf f) 0 (n - first_copy_size);
    Some (0, a ++ b,
      if negb (has_flag flags FIFO_PEEK)
      then {| buf := buf f; capacity := capacity f;
              size := u64 (size f - n); start := u64 (start' + n) mod capacity f |}
      else f).

Definition fifo_flush (f : fifo) : fifo :=
  {| buf := buf f; capacity := capacity f; size := 0; start := start f |}.

(** ** Invariant and abstraction *)

(** A buffer the code can be handed: its block has the recorded capacity, which
    is nonzero and small enough that the index sums do not wrap a [size_t]. *)
Record wf (f : fifo) : Prop := mk_wf {
  wf_buf : Z.of_nat (length (buf f)) = capacity f;
  wf_cap : 0 < capacity f < 2 ^ 63;
  wf_size : 0 <= size f <= capacity f;
  wf_start : 0 <= start f < capacity f;
}.

(** The position of the [i]-th queued byte. *)
Definition slot (f : fifo) (i : nat) : nat :=
  Z.to_nat ((start f + Z.of_nat i) mod capacity f).

Definition contents (f : fifo) : list Z :=
  (fun i => buf f !!! slot f i) <$> seq 0 (Z.to_nat (size f)).

Lemma contents_length f : length (contents f) = Z.to_nat (size f).
Proof. unfold contents. by rewrite length_fmap, length_seq. Qed.

Lemma slot_lt f i : wf f -> (slot f i < length (buf f))%nat.
Proof.
  intros [Hb Hc _ _]. unfold slot.
  pose proof (Z.mod_pos_bound (start f + Z.of_nat i) (capacity f)). lia.
Qed.

Lemma contents_lookup f i :
  wf f -> (i < Z.to_nat (size f))%nat -> contents f !! i = buf f !! slot f i.
Proof.
  intros Hwf Hi. unfold contents. rewrite list_lookup_fmap, lookup_seq_lt by lia.
  simpl. symmetry. apply list_lookup_lookup_total_lt, slot_lt; done.
Qed.

Lemma slot_nowrap f i :
  start f + Z.of_nat i < capacity f -> 0 <= start f ->
  slot f i = Z.to_nat (start f + Z.of_nat i).
Proof. intros. unfold slot. by rewrite Z.mod_small by lia. Qed.

Lemma slot_wrap f i :
  wf f -> capacity f <= start f + Z.of_nat i -> Z.of_nat i <= capacity f ->
  slot f i = Z.to_nat (start f + Z.of_nat i - capacity f).
Proof.
  intros [_ Hc _ Hs] ? ?. unfold slot. f_equal.
  rewrite <- (Z.mod_small (start f + Z.of_nat i - capacity f) (capacity f)) by lia.
  rewrite <- (Z_mod_plus_full (start f + Z.of_nat i - capacity f) 1 (capacity f)).
  f_equal. lia.
Qed.

(** Reduce a wrapped [size_t] sum modulo the capacity. *)
Lemma index_sum cap a b :
  0 < cap < 2 ^ 63 -> 0 <= a <= cap -> 0 <= b <= cap ->
  u64 (a + b) mod cap =
    if a + b <? cap then a + b
    else if a + b <? 2 * cap then a + b - cap else 0.
Proof.
  intros. rewrite wrap_small by (unfold in_u; lia). zbool.
  - apply Z.mod_small; lia.
  - rewrite <- (Z.mod_small (a + b - cap) cap) by lia.
    rewrite <- (Z_mod_plus_full (a + b - cap) 1 cap). f_equal. lia.
  - replace (a + b) with (2 * cap) by lia. apply Z_mod_mult.
Qed.

Lemma fifo_init_wf mem cap :
  Z.of_nat (length mem) = cap -> 0 < cap < 2 ^ 63 -> wf (fifo_init mem cap).
Proof. intros; split; simpl; lia. Qed.

Lemma fifo_flush_wf f : wf f -> wf (fifo_flush f) /\ contents (fifo_flush f) = [].
Proof. intros [? ? ? ?]; split; [split; simpl; lia | done]. Qed.

(** ** Writing *)

(** The two [memcpy]s of [fifo_write] write [data] around the ring from [tail]. *)
Definition ring_write (b : list Z) (cap tail : Z) (data : list Z) : option (list Z) :=
  let n := Z.of_nat (length data) in
  let first_copy_size := Z.min n (cap - tail) in
  b1 ← block_write b tail (take (Z.to_nat first_copy_size) data);
  block_write b1 0 (drop (Z.to_nat first_copy_size) data).

(** Position [p] holds the byte at distance [p - tail] around the ring. *)
Lemma ring_write_ok b cap tail data :
  Z.of_nat (length b) = cap -> 0 <= tail < cap -> Z.of_nat (length data) <= cap ->
  exists b', ring_write b cap tail data = Some b' /\ length b' = length b /\
    forall p, 0 <= p < cap ->
      b' !! Z.to_nat p =
        if (p - tail) mod cap <? Z.of_nat (length data)
        then data !! Z.to_nat ((p - tail) mod cap) else b !! Z.to_nat p.
Proof.
  intros Hb Ht Hn. unfold ring_write.
  set (n := Z.of_nat (length data)) in *. set (fcs := Z.min n (cap - tail)).
  assert (Hl1 : length (take (Z.to_nat fcs) data) = Z.to_nat fcs)
    by (rewrite length_take; lia).
  assert (Hl2 : length (drop (Z.to_nat fcs) data) = Z.to_nat (n - fcs))
    by (rewrite length_drop; lia).
  destruct (block_write b tail (take (Z.to_nat fcs) data)) as [b1|] eqn:E1;
    [|rewrite block_write_Some in E1; [done|lia|rewrite Hl1; lia]].
  pose proof (block_write_length _ _ _ _ E1) as Hb1. simpl.
  destruct (block_write b1 0 (drop (Z.to_nat fcs) data)) as [b2|] eqn:E2;
    [|rewrite block_write_Some in E2; [done|lia|rewrite Hl2; lia]].
  pose proof (block_write_length _ _ _ _ E2) as Hb2.
  exists b2. split; [done|]. split; [lia|]. intros p Hp.
  rewrite (block_write_lookup _ _ _ _ _ E2), (block_write_lookup _ _ _ _ _ E1), Hl1, Hl2.
  assert (Hd : (p - tail) mod cap = if p <? tail then p - tail + cap else p - tail).
  { destruct (Z.ltb_spec p tail); [|apply Z.mod_small; lia].
    rewrite <- (Z.mod_small (p - tail + cap) cap) by lia.
    rewrite <- (Z_mod_plus_full (p - tail) 1 cap). f_equal; lia. }
  rewrite Hd. clear Hd E1 E2. subst fcs.
  destruct (Z.ltb_spec p tail);
    [destruct (Z.ltb_spec (p - tail + cap) n)|destruct (Z.ltb_spec (p - tail) n)];
    repeat case_decide; try lia; try done;
    rewrite ?lookup_drop, ?lookup_take_lt by lia; f_equal; lia.
Qed.

Lemma fifo_append_eq f data :
  wf f -> Z.of_nat (length data) <= capacity f ->
  fifo_append f data =
    (b ← ring_write (buf f) (capacity f) ((start f + size f) mod capacity f) data;
     Some (0, {| buf := b; capacity := capacity f;
                 size := u64 (size f + Z.of_nat (length data)); start := start f |})).
Proof.
  intros [Hb Hc Hsz Hst] Hn. unfold fifo_append, ring_write.
  pose proof (Z.mod_pos_bound (start f + size f) (capacity f)).
  rewrite !(wrap_small 64 (start f + size f)) by (unfold in_u; lia).
  rewrite !(wrap_small 64 (capacity f - _)) by (unfold in_u; lia).
  match goal with |- context [if ?x >? ?y then ?y else ?x] =>
    replace (if x >? y then y else x) with (Z.min y x)
      by (rewrite Z.gtb_ltb; destruct (Z.ltb_spec y x); lia) end.
  by destruct (block_write _ _ _); simpl; [destruct (block_write _ _ _)|].
Qed.

(** Appending into the free part of the ring: nothing already queued is
    overwritten. *)
Lemma fifo_append_ok f data :
  wf f -> size f + Z.of_nat (length data) <= capacity f ->
  exists f', fifo_append f data = Some (0, f') /\ wf f' /\
    capacity f' = capacity f /\ contents f' = contents f ++ data.
Proof.
  intros Hwf Hroom. pose proof Hwf as [Hb Hc Hsz Hst].
  rewrite fifo_append_eq by (done || lia).
  set (tail := (start f + size f) mod capacity f).
  assert (Ht : 0 <= tail < capacity f) by (apply Z.mod_pos_bound; lia).
  destruct (ring_write_ok (buf f) (capacity f) tail data) as (b & -> & Hlb & Hlk);
    [lia..|]. simpl.
  eexists; split; [done|]. set (f' := mk_fifo _ _ _ _).
  assert (Hs' : size f' = size f + Z.of_nat (length data))
    by (apply wrap_small; unfold in_u; lia).
  assert (Hwf' : wf f') by (split; rewrite ?Hs'; simpl; lia).
  split; [done|]. split; [done|]. apply list_eq. intros i.
  destruct (decide (i < Z.to_nat (size f'))%nat) as [Hi|Hi];
    [|rewrite !lookup_ge_None_2; rewrite ?length_app, ?contents_length; done || lia].
  rewrite contents_lookup by done. change (slot f' i) with (slot f i). unfold slot at 1.
  pose proof (Z.mod_pos_bound (start f + Z.of_nat i) (capacity f)) as Hp.
  simpl. rewrite Hlk by lia.
  replace (((start f + Z.of_nat i) mod capacity f - tail) mod capacity f)
    with ((Z.of_nat i - size f) mod capacity f)
    by (unfold tail; rewrite <- Zminus_mod; f_equal; lia).
  destruct (decide (i < Z.to_nat (size f))%nat) as [Hold|Hnew].
  - rewrite lookup_app_l, contents_lookup by (rewrite ?contents_length; done || lia).
    rewrite <- (Z_mod_plus_full _ 1), Z.mod_small by lia.
    destruct (Z.ltb_spec (Z.of_nat i - size f + 1 * capacity f) (Z.of_nat (length data)));
      [lia|done].
  - rewrite lookup_app_r by (rewrite contents_length; lia).
    rewrite contents_length, Z.mod_small by lia.
    destruct (Z.ltb_spec (Z.of_nat i - size f) (Z.of_nat (length data))); [|lia].
    f_equal; lia.
Qed.

(** Making room: discarding the [k] oldest bytes. *)
Definition discard (f : fifo) (k : Z) : fifo :=
  {| buf := buf f; capacity := capacity f; size := size f - k;
     start := (start f + k) mod capacity f |}.

Lemma discard_ok f k :
  wf f -> 0 <= k <= size f ->
  wf (discard f k) /\ contents (discard f k) = drop (Z.to_nat k) (contents f).
Proof.
  intros Hwf Hk. pose proof Hwf as [Hb Hc Hsz Hst].
  assert (Hwf' : wf (discard f k)).
  { split; simpl; try lia. apply Z.mod_pos_bound; lia. }
  split; [done|]. apply list_eq. intros i. rewrite lookup_drop.
  destruct (decide (i < Z.to_nat (size f - k))%nat) as [Hi|Hi].
  - rewrite !contents_lookup by (simpl; done || lia). f_equal. unfold slot; simpl.
    rewrite Zplus_mod_idemp_l. do 2 f_equal. lia.
  - rewrite !lookup_ge_None_2; rewrite ?contents_length; simpl; done || lia.
Qed.

(** ** The abstract queue and the refinement *)

(** A bounded byte queue, as the header promises it: a write is refused when it
    does not fit, unless it may push out the oldest bytes. *)
Definition spec_write (cap : Z) (q data : list Z) (overwrite : bool) : option (list Z) :=
  let excess := Z.of_nat (length q) + Z.of_nat (length data) - cap in
  if excess <=? 0 then Some (q ++ data)
  else if overwrite then Some (drop (Z.to_nat excess) (q ++ data))
  else None.

Definition spec_read (q : list Z) (n : Z) (peek : bool) : option (list Z * list Z) :=
  if Z.of_nat (length q) <? n then None
  else Some (take (Z.to_nat n) q, if peek then q else drop (Z.to_nat n) q).

(** The newest [n] bytes, which stay. *)
Definition spec_peek_last (q : list Z) (n : Z) : option (list Z * list Z) :=
  if Z.of_nat (length q) <? n then None else Some (drop (length q - Z.to_nat n) q, q).

(** What a return code and a new state mean for the abstract queue. *)
Definition write_result (f : fifo) (r : option (Z * fifo)) (q : option (list Z)) : Prop :=
  match q with
  | Some q => exists f', r = Some (0, f') /\ wf f' /\ capacity f' = capacity f /\ contents f' = q
  | None => r = Some (1, f)
  end.

(** [fifo_write] refines the bounded queue on every branch: for any
    well-formed ring and any data no longer than the ring, it appends the data
    (dropping exactly the oldest bytes when overwriting), refuses with 1 and no
    state change otherwise, and never writes outside the buffer. *)
Lemma fifo_write_sim f data flags :
  wf f -> Z.of_nat (length data) <= capacity f ->
  write_result f (fifo_write f data flags)
    (spec_write (capacity f) (contents f) data (has_flag flags FIFO_OVERWRITE)).
Proof.
  intros Hwf Hn. pose proof Hwf as [Hb Hc Hsz Hst].
  unfold fifo_write, spec_write, fifo_remaining. rewrite contents_length.
  rewrite !(wrap_small 64 (capacity f - size f)) by (unfold in_u; lia).
  rewrite Z.gtb_ltb. destruct (Z.ltb_spec (capacity f - size f) (Z.of_nat (length data)));
    destruct (Z.leb_spec (Z.of_nat (Z.to_nat (size f)) + Z.of_nat (length data) - capacity f) 0);
    try lia.
  - destruct (has_flag flags FIFO_OVERWRITE); [|done]. simpl.
    set (k := Z.of_nat (length data) - (capacity f - size f)).
    rewrite !(wrap_small 64 k), (wrap_small 64 (size f - k)),
      (wrap_small 64 (start f + k)) by (unfold in_u; lia).
    destruct (discard_ok f k Hwf ltac:(lia)) as [Hwf' Hcont].
    destruct (fifo_append_ok (discard f k) data Hwf') as (f' & ? & ? & ? & Hc');
      [simpl; lia|].
    exists f'. split_and!; try done. rewrite Hc', Hcont.
    rewrite drop_app_le by (rewrite contents_length; lia). do 2 f_equal. lia.
  - destruct (fifo_append_ok f data Hwf ltac:(lia)) as (f' & ? & ? & ? & ?). by exists f'.
Qed.

(** Reading [n] bytes around the ring from a position. *)
Lemma ring_read_ok f n :
  wf f -> 0 <= n <= size f ->
  (a ← block_read (buf f) (start f) (Z.min n (capacity f - start f));
   b ← block_read (buf f) 0 (n - Z.min n (capacity f - start f));
   Some (a ++ b)) = Some (take (Z.to_nat n) (contents f)).
Proof.
  intros Hwf Hn. pose proof Hwf as [Hb Hc Hsz Hst].
  rewrite !block_read_Some by lia. simpl. f_equal. apply list_eq. intros i.
  destruct (decide (i < Z.to_nat n)%nat) as [Hi|Hi];
    [|rewrite !lookup_ge_None_2; rewrite ?length_app, ?length_take, ?length_drop; done || lia].
  rewrite (lookup_take_lt (contents f)), contents_lookup by (done || lia).
  destruct (Z.lt_ge_cases (start f + Z.of_nat i) (capacity f)).
  - rewrite slot_nowrap, lookup_app_l, lookup_take_lt, lookup_drop
      by (rewrite ?length_take, ?length_drop; lia). f_equal; lia.
  - rewrite slot_wrap, lookup_app_r, lookup_take_lt, lookup_drop
      by (rewrite ?length_take, ?length_drop; done || lia).
    rewrite length_take, length_drop. f_equal; lia.
Qed.

(** The first [memcpy] of [fifo_read] copies up to the end of the block. *)
Lemma first_copy f n :
  wf f -> 0 <= n ->
  (if u64 (capacity f - start f) >? n then n else u64 (capacity f - start f))
  = Z.min n (capacity f - start f).
Proof.
  intros [? ? ? ?] ?. rewrite wrap_small by (unfold in_u; lia). zbool; lia.
Qed.

Definition read_result (f : fifo) (r : option (Z * list Z * fifo))
    (q : option (list Z * list Z)) : Prop :=
  match q with
  | Some (out, q') => exists f', r = Some (0, out, f') /\ wf f' /\
                        capacity f' = capacity f /\ contents f' = q'
  | None => r = Some (1, [], f)
  end.

(** Without [FIFO_LAST], [fifo_read] refines the queue: it returns the
    oldest [n] bytes in order and removes them (or keeps them with
    [FIFO_PEEK]), refuses with 1 when fewer are queued, and reads in bounds. *)
Lemma fifo_read_sim f n flags :
  wf f -> 0 <= n -> has_flag flags FIFO_LAST = false ->
  read_result f (fifo_read f n flags)
    (spec_read (contents f) n (has_flag flags FIFO_PEEK)).
Proof.
  intros Hwf Hn Hl. pose proof Hwf as [Hb Hc Hsz Hst].
  unfold fifo_read, spec_read, fifo_size. rewrite contents_length, Z2Nat.id, Z.gtb_ltb, Hl by lia.
  destruct (Z.ltb_spec (size f) n); [done|].
  rewrite first_copy by done. pose proof (ring_read_ok f n Hwf ltac:(lia)) as Hr.
  destruct (block_read (buf f) (start f) _) as [a|]; [simpl in *|done].
  destruct (block_read (buf f) 0 _) as [b|]; [simpl in *|done].
  injection Hr as ->. destruct (has_flag flags FIFO_PEEK); [by exists f|]. simpl.
  rewrite (wrap_small 64 (size f - n)), (wrap_small 64 (start f + n)) by (unfold in_u; lia).
  destruct (discard_ok f n Hwf ltac:(lia)). by exists (discard f n).
Qed.

(** Peeking at the newest bytes ([FIFO_LAST|FIFO_PEEK]) is right as long as
    the queued bytes do not wrap around the end of the block. *)
Lemma last_nowrap f n flags :
  wf f -> 0 <= n <= size f -> start f + size f <= capacity f -> has_flag flags FIFO_LAST = true -> has_flag flags FIFO_PEEK = true ->
  fifo_read f n flags =
    Some (0, drop (Z.to_nat (size f - n)) (contents f), f).
Proof.
  intros Hwf Hn Hw Hl Hk. pose proof Hwf as [Hb Hc Hsz Hst].
  unfold fifo_read, fifo_size. rewrite Z.gtb_ltb, Hl, Hk. destruct (Z.ltb_spec (size f) n); [lia|].
  rewrite first_copy by (done || lia). simpl.
  replace (Z.min n (capacity f - start f)) with n by lia. rewrite Z.sub_diag.
  rewrite wrap_small by (unfold in_u; lia).
  destruct (Z.eq_dec n 0) as [->|Hn0].
  { pose proof (Z.mod_pos_bound (start f + (size f - 0)) (capacity f)).
    rewrite !block_read_Some by lia. simpl.
    rewrite (drop_ge (contents f)) by (rewrite contents_length; lia). done. }
  rewrite Z.mod_small, !block_read_Some by lia. simpl. rewrite app_nil_r. do 2 f_equal.
  rewrite <- (take_ge (contents f) (Z.to_nat (size f))) by (rewrite contents_length; lia).
  pose proof (ring_read_ok f (size f) Hwf ltac:(lia)) as Hr.
  rewrite Z.min_l, Z.sub_diag, !block_read_Some in Hr by lia. injection Hr as <-.
  change (Z.to_nat 0) with 0%nat. rewrite take_0, app_nil_r, skipn_firstn_comm, drop_drop.
  do 2 f_equal; [lia|f_equal; lia].
Qed.

(** *** Sequences of operations *)

Inductive op :=
  | Write (data : list Z) (flags : Z)
  | Read (n flags : Z)
  | Flush.

(** One operation of the code: return code, bytes read, next state. *)
Definition exec (f : fifo) (o : op) : option (Z * list Z * fifo) :=
  match o with
  | Write data flags => r ← fifo_write f data flags; Some (r.1, [], r.2)
  | Read n flags => fifo_read f n flags
  | Flush => Some (0, [], fifo_flush f)
  end.

Definition spec_exec (cap : Z) (q : list Z) (o : op) : Z * list Z * list Z :=
  match o with
  | Write data flags =>
      match spec_write cap q data (has_flag flags FIFO_OVERWRITE) with
      | Some q' => (0, [], q')
      | None => (1, [], q)
      end
  | Read n flags =>
      match (if has_flag flags FIFO_LAST then spec_peek_last q n else spec_read q n (has_flag flags FIFO_PEEK)) with
      | Some (out, q') => (0, out, q')
      | None => (1, [], q)
      end
  | Flush => (0, [], [])
  end.

Fixpoint run (f : fifo) (ops : list op) : option (list (Z * list Z) * fifo) :=
  match ops with
  | [] => Some ([], f)
  | o :: ops => '(code, out, f') ← exec f o; '(rest, f') ← run f' ops; Some ((code, out) :: rest, f')
  end.

Fixpoint spec_run (cap : Z) (q : list Z) (ops : list op) : list (Z * list Z) * list Z :=
  match ops with
  | [] => ([], q)
  | o :: ops =>
      let '(code, out, q') := spec_exec cap q o in
      let '(rest, q') := spec_run cap q' ops in ((code, out) :: rest, q')
  end.

(** The operations the code handles in a state: data that fits in the ring; reads from the front; and, with [FIFO_LAST], peeking while the bytes
    do not wrap around the end of the block. *)
Definition fits (f : fifo) (o : op) : Prop :=
  match o with
  | Write data _ => Z.of_nat (length data) <= capacity f
  | Read n flags => 0 <= n /\ (has_flag flags FIFO_LAST = true -> has_flag flags FIFO_PEEK = true /\ start f + size f <= capacity f)
  | Flush => True
  end.
#[export] Instance fits_dec f o : Decision (fits f o).
Proof. destruct o; simpl; apply _. Defined.

Lemma exec_sim f o :
  wf f -> fits f o ->
  exists f', exec f o = Some ((spec_exec (capacity f) (contents f) o).1, f') /\
    wf f' /\ capacity f' = capacity f /\
    contents f' = (spec_exec (capacity f) (contents f) o).2.
Proof.
  intros Hwf Ho. destruct o as [data flags|n flags|]; simpl in Ho |- *.
  - pose proof (fifo_write_sim f data flags Hwf Ho) as Hs. unfold write_result in Hs.
    destruct (spec_write _ _ _ _) as [q|].
    + destruct Hs as (f' & -> & ? & ? & ?). by exists f'.
    + rewrite Hs. by exists f.
  - destruct Ho as [Hn Hl]. destruct (has_flag flags FIFO_LAST) eqn:El.
    + destruct (Hl eq_refl) as [Hk Hw]. pose proof Hwf as [_ _ Hsz _]. unfold spec_peek_last. rewrite contents_length, Z2Nat.id by lia.
      destruct (Z.ltb_spec (size f) n).
      * exists f. unfold fifo_read, fifo_size. rewrite Z.gtb_ltb. destruct (Z.ltb_spec (size f) n); [done|lia].
      * exists f. rewrite last_nowrap by (done || lia). split; [|done]. simpl. do 4 f_equal. lia.
    + pose proof (fifo_read_sim f n flags Hwf Hn El) as Hs.
      unfold read_result in Hs. destruct (spec_read _ _ _) as [[out q]|].
      * destruct Hs as (f' & -> & ? & ? & ?). by exists f'.
      * rewrite Hs. by exists f.
  - destruct (fifo_flush_wf f Hwf). by exists (fifo_flush f).
Qed.

(** C21: the ring buffer refines the bounded byte queue: for any sequence of
    writes (with or without overwriting), reads and peeks at either end, and flushes on a
    well-formed ring, every return code and every byte returned is the abstract
    queue's, and no access leaves the buffer, up to the first operation, if there is one, that writes more than the
    whole capacity, or reads at the end ([FIFO_LAST]) without peeking or while the bytes wrap around the end of the block. *)
Theorem fifo_refines_queue ops : forall f, wf f ->
  let done_as ops f' := run f ops = Some ((spec_run (capacity f) (contents f) ops).1, f') /\ wf f' /\ capacity f' = capacity f /\ contents f' = (spec_run (capacity f) (contents f) ops).2 in
  (exists f', done_as ops f') \/
  (exists before o after f', ops = before ++ o :: after /\ done_as before f' /\ ~ fits f' o).
Proof.
  induction ops as [|o ops IH]; intros f Hwf done_as; [left; by exists f|].
  destruct (decide (fits f o)) as [Ho|Ho]; [|right; by exists [], o, ops, f].
  destruct (exec_sim f o Hwf Ho) as (f' & He & Hwf' & Hcap & Hc).
  assert (forall ops f2, run f' ops = Some ((spec_run (capacity f') (contents f') ops).1, f2) /\ wf f2 /\ capacity f2 = capacity f' /\ contents f2 = (spec_run (capacity f') (contents f') ops).2 -> done_as (o :: ops) f2) as K.
  { intros ops' f2 (E & W & C & Q). unfold done_as. cbn [run spec_run]. rewrite He. rewrite Hcap, Hc in E, Q. destruct (spec_exec _ _ o) as [[code out] q]. cbn [mbind option_bind fst snd] in *.
    rewrite E. destruct (spec_run _ q ops') as [rest q']. cbn [fst snd mbind option_bind] in *. split_and!; [done..|congruence|done]. }
  destruct (IH f' Hwf') as [(f2 & H)|(before & o' & after & f2 & -> & H & Hn)].
  - left. exists f2. by apply K.
  - right. exists (o :: before), o', after, f2. split; [done|]. split; [by apply K|done].
Qed.

Definition demo_fifo : fifo := fifo_init [0; 0; 0; 0] 4.

Definition demo_ops : list op :=
  [Write [1; 2; 3] 0; Read 2 (Z.lor FIFO_LAST FIFO_PEEK); Read 2 0; Write [4; 5; 6] 0; Read 4 FIFO_PEEK; Write [7; 8] 0; Write [7; 8] FIFO_OVERWRITE; Read 4 0].
Lemma fifo_refines_queue_witness : exists f',
  run demo_fifo demo_ops = Some ([(0, []); (0, [2; 3]); (0, [1; 2]); (0, []); (0, [3; 4; 5; 6]); (1, []); (0, []); (0, [5; 6; 7; 8])], f') /\ wf f'.
Proof.
  destruct (fifo_refines_queue demo_ops demo_fifo) as [(f' & E & W & _)|(before & o & after & f' & E & (R & _) & N)].
  - apply fifo_init_wf; simpl; lia.
  - exists f'. split; [exact E|exact W].
  - exfalso. apply N. clear N. assert (o = nth (length before) demo_ops Flush) as -> by (rewrite E; by rewrite nth_middle).
    assert (before = take (length before) demo_ops) as Hb by (rewrite E; by rewrite take_app_length). rewrite Hb in R. assert (length before < 8)%nat as Hl by (change 8%nat with (length demo_ops); rewrite E, length_app; cbn; lia).
    revert Hl R. generalize (length before) as k. intros k Hl R. do 8 (destruct k as [|k]; [vm_compute in R; injection R as <-; apply (bool_decide_unpack _); vm_compute; exact I|]). lia.
Defined.

(** peeking at the newest bytes is right as long as the queued bytes do not wrap around the end of the block. *)
Theorem fifo_read_last_nowrap f n :
  wf f -> 0 <= n <= size f -> start f + size f <= capacity f ->
  fifo_read f n (Z.lor FIFO_LAST FIFO_PEEK) =
    Some (0, drop (Z.to_nat (size f - n)) (contents f), f).
Proof. intros. by apply last_nowrap. Qed.

Lemma fifo_read_last_nowrap_witness :
  fifo_read {| buf := [1; 2; 3; 4]; capacity := 4; size := 3; start := 1 |} 2
    (Z.lor FIFO_LAST FIFO_PEEK)
  = Some (0, [3; 4], {| buf := [1; 2; 3; 4]; capacity := 4; size := 3; start := 1 |}).
Proof.
  rewrite fifo_read_last_nowrap.
  - reflexivity.
  - split; simpl; lia.
  - simpl; lia.
  - simpl; lia.
Defined.

(** once the ring has wrapped, the same call reads past the end of the
    block: [first_copy_size] is computed from the old [start], not from the
    position the copy starts at. *)
Theorem fifo_read_last_out_of_bounds :
  exists f, wf f /\ 1 <= size f /\
    fifo_read f 1 (Z.lor FIFO_LAST FIFO_PEEK) <> None /\
    fifo_read f 2 (Z.lor FIFO_LAST FIFO_PEEK) = None.
Proof.
  exists {| buf := [4; 1; 2; 3]; capacity := 4; size := 4; start := 1 |}.
  split; [split; simpl; lia|]. vm_compute. split_and!; done.
Qed.

End Fifo.

(** * The kernel log *)

Module Log.
Import Fifo.

Definition LOG_BUF_SHIFT : Z := 20.
Definition LOG_BUF_SIZE : Z := Z.shiftl 1 LOG_BUF_SHIFT.

(** The two statics of kernel/log.c. *)
Record log := mk_log { log_buf : fifo; log_max_since_clear : Z }.

(** A static array starts out zeroed. *)
Definition log_init : log :=
  {| log_buf := fifo_init (replicate (Z.to_nat LOG_BUF_SIZE) 0) LOG_BUF_SIZE;
     log_max_since_clear := 0 |}.

(** [log_buf_append] on the bytes of [msg] (without its terminating NUL). *)
Definition log_buf_append (l : log) (msg : list Z) : option log :=
  r ← fifo_write (log_buf l) msg FIFO_OVERWRITE;
  let f := r.2 in
  let m := u64 (log_max_since_clear l + Z.of_nat (length msg)) in
  Some {| log_buf := f;
          log_max_since_clear := if m >? fifo_capacity f then fifo_capacity f else m |}.

Definition NEWLINE : Z := 10.

(** [output_line] stores the line and a newline; printing is left out. *)
Definition output_line (l : log) (line : list Z) : option log :=
  l1 ← log_buf_append l line;
  log_buf_append l1 [NEWLINE].

(** [syslog_read]; [junk] is the content of the [malloc]ed buffer before
    [fifo_read] fills it, [user_write] whether the copy to the guest fails.
    The result is the return value, the bytes handed to the guest, the state. *)
Definition syslog_read (user_write : list Z -> bool) (junk : list Z)
    (l : log) (len flags : Z) : option (Z * list Z * log) :=
  if len <? 0 then Some (_EINVAL, [], l)
  else
    let len :=
      if has_flag flags FIFO_LAST
      then (if len >? log_max_since_clear l then s32 (log_max_since_clear l) else len)
      else (if len >? fifo_capacity (log_buf l) then s32 (fifo_capacity (log_buf l)) else len) in
    r ← fifo_read (log_buf l) len flags;
    let '(code, got, f) := r in
    let out := if code =? 0 then got else take (Z.to_nat len) junk in
    let l' := {| log_buf := f; log_max_since_clear := log_max_since_clear l |} in
    Some (if user_write out then _EFAULT else len, out, l').

Inductive syslog_action :=
  | SYSLOG_ACTION_READ | SYSLOG_ACTION_READ_ALL | SYSLOG_ACTION_READ_CLEAR
  | SYSLOG_ACTION_CLEAR | SYSLOG_ACTION_SIZE_UNREAD | SYSLOG_ACTION_SIZE_BUFFER
  | SYSLOG_ACTION_NOP | SYSLOG_ACTION_BAD.

(** The [switch] labels of [do_syslog]; the five actions without effect share
    a constructor. *)
Definition action_of (type : Z) : syslog_action :=
  if type =? 2 then SYSLOG_ACTION_READ
  else if type =? 3 then SYSLOG_ACTION_READ_ALL
  else if type =? 4 then SYSLOG_ACTION_READ_CLEAR
  else if type =? 5 then SYSLOG_ACTION_CLEAR
  else if type =? 9 then SYSLOG_ACTION_SIZE_UNREAD
  else if type =? 10 then SYSLOG_ACTION_SIZE_BUFFER
  else if (type =? 0) || (type =? 1) || (type =? 6) || (type =? 7) || (type =? 8)
  then SYSLOG_ACTION_NOP
  else SYSLOG_ACTION_BAD.

Definition clear (l : log) : log := {| log_buf := log_buf l; log_max_since_clear := 0 |}.

Definition do_syslog (user_write : list Z -> bool) (junk : list Z)
    (l : log) (type len : Z) : option (Z * list Z * log) :=
  match action_of type with
  | SYSLOG_ACTION_READ => syslog_read user_write junk l len 0
  | SYSLOG_ACTION_READ_ALL =>
      syslog_read user_write junk l len (Z.lor FIFO_LAST FIFO_PEEK)
  | SYSLOG_ACTION_READ_CLEAR =>
      r ← syslog_read user_write junk l len (Z.lor FIFO_LAST FIFO_PEEK);
      let '(res, out, l') := r in
      if res <? 0 then Some (res, out, l') else Some (0, out, clear l')
  | SYSLOG_ACTION_CLEAR => Some (0, [], clear l)
  | SYSLOG_ACTION_SIZE_UNREAD => Some (s32 (fifo_size (log_buf l)), [], l)
  | SYSLOG_ACTION_SIZE_BUFFER => Some (s32 (fifo_capacity (log_buf l)), [], l)
  | SYSLOG_ACTION_NOP => Some (0, [], l)
  | SYSLOG_ACTION_BAD => Some (_EINVAL, [], l)
  end.

(** ** Invariant *)

Record log_wf (l : log) : Prop := mk_log_wf {
  log_wf_fifo : wf (log_buf l);
  log_wf_cap : capacity (log_buf l) = LOG_BUF_SIZE;
  log_wf_max : 0 <= log_max_since_clear l <= LOG_BUF_SIZE;
}.

Lemma log_init_wf : log_wf log_init.
Proof.
  assert (HL : LOG_BUF_SIZE = 1048576) by reflexivity.
  split; [apply fifo_init_wf; rewrite ?length_replicate; lia|done|].
  unfold log_init; cbn [log_max_since_clear]; lia.
Qed.

(** Keeping the most recent [n] bytes. *)
Definition lastn (n : Z) (bytes : list Z) : list Z :=
  drop (Z.to_nat (Z.of_nat (length bytes) - n)) bytes.

Lemma lastn_app n a b :
  0 <= n -> lastn n (lastn n a ++ b) = lastn n (a ++ b).
Proof.
  intros Hn. unfold lastn. rewrite !length_app, length_drop.
  destruct (Z.le_gt_cases (Z.of_nat (length a)) n).
  - rewrite (Z2Nat.nonpos (Z.of_nat (length a) - n)) by lia.
    rewrite drop_0, Nat.sub_0_r. done.
  - rewrite <- (drop_app_le a) by lia. rewrite drop_drop. f_equal. lia.
Qed.

Lemma log_buf_append_ok l msg :
  log_wf l -> Z.of_nat (length msg) <= LOG_BUF_SIZE ->
  exists l', log_buf_append l msg = Some l' /\ log_wf l' /\
    contents (log_buf l') = lastn LOG_BUF_SIZE (contents (log_buf l) ++ msg) /\
    log_max_since_clear l' =
      Z.min LOG_BUF_SIZE (log_max_since_clear l + Z.of_nat (length msg)).
Proof.
  intros [Hwf Hcap Hmax] Hlen. assert (HL : LOG_BUF_SIZE = 1048576) by reflexivity.
  pose proof (wf_size _ Hwf) as Hs.
  assert (Hw : exists f', fifo_write (log_buf l) msg FIFO_OVERWRITE = Some (0, f') /\
    wf f' /\ capacity f' = capacity (log_buf l) /\
    contents f' = lastn LOG_BUF_SIZE (contents (log_buf l) ++ msg)).
  { pose proof (fifo_write_sim (log_buf l) msg FIFO_OVERWRITE Hwf ltac:(lia)) as H.
    unfold spec_write in H. simpl in H. unfold lastn. rewrite length_app.
    destruct (Z.leb_spec (Z.of_nat (length (contents (log_buf l)))
                          + Z.of_nat (length msg) - capacity (log_buf l)) 0).
    - rewrite (Z2Nat.nonpos (_ - LOG_BUF_SIZE)) by lia. exact H.
    - replace (Z.of_nat (_ + _) - LOG_BUF_SIZE) with
        (Z.of_nat (length (contents (log_buf l))) + Z.of_nat (length msg)
         - capacity (log_buf l)) by lia. exact H. }
  destruct Hw as (f' & Hw & Hwf' & Hc' & Hcont). unfold log_buf_append. rewrite Hw. simpl.
  rewrite wrap_small by (unfold in_u; lia). eexists; split; [done|]. unfold fifo_capacity.
  split_and!; [split; simpl; try done; try lia; zbool; lia|done|zbool; lia].
Qed.

(** *** What the log holds *)

Fixpoint append_all (l : log) (msgs : list (list Z)) : option log :=
  match msgs with
  | [] => Some l
  | m :: msgs => l' ← log_buf_append l m; append_all l' msgs
  end.

(** after any sequence of messages, each no longer than the log, the kernel
    log holds exactly the last 2^20 bytes of everything logged, and
    [log_max_since_clear] is the number of bytes logged, capped at 2^20. *)
Theorem log_holds_suffix msgs :
  Forall (fun m => Z.of_nat (length m) <= LOG_BUF_SIZE) msgs ->
  exists l, append_all log_init msgs = Some l /\ log_wf l /\
    contents (log_buf l) = lastn LOG_BUF_SIZE (concat msgs) /\
    log_max_since_clear l = Z.min LOG_BUF_SIZE (Z.of_nat (length (concat msgs))).
Proof.
  intros Hm. enough (forall l done, log_wf l ->
    contents (log_buf l) = lastn LOG_BUF_SIZE done ->
    log_max_since_clear l = Z.min LOG_BUF_SIZE (Z.of_nat (length done)) ->
    exists l', append_all l msgs = Some l' /\ log_wf l' /\
      contents (log_buf l') = lastn LOG_BUF_SIZE (done ++ concat msgs) /\
      log_max_since_clear l' = Z.min LOG_BUF_SIZE (Z.of_nat (length (done ++ concat msgs)))) as H.
  { apply (H log_init []); [apply log_init_wf|done|done]. }
  induction Hm as [|m msgs Hlen _ IH]; intros l done Hl Hc Hx; simpl.
  - exists l. rewrite app_nil_r. done.
  - destruct (log_buf_append_ok l m Hl Hlen) as (l' & -> & Hl' & Hc' & Hx'). simpl.
    destruct (IH l' (done ++ m)) as (l2 & ? & ? & ? & ?); [done| | |].
    + rewrite Hc', Hc. by apply lastn_app.
    + rewrite Hx', Hx, length_app. lia.
    + exists l2. by rewrite app_assoc.
Qed.

Lemma log_holds_suffix_witness :
  exists l, append_all log_init [[104; 105]; [NEWLINE]] = Some l /\ log_wf l /\
    contents (log_buf l) = [104; 105; NEWLINE] /\ log_max_since_clear l = 3.
Proof. apply (log_holds_suffix [[104; 105]; [NEWLINE]]). repeat constructor; vm_compute; done. Defined.

(** [SYSLOG_ACTION_READ] ignores the return code of [fifo_read]: asked for
    more bytes than are queued, it reads nothing and still hands the guest [len]
    bytes of the uninitialised buffer, reporting success. *)
Theorem syslog_read_leaks junk l len :
  log_wf l -> size (log_buf l) < len <= LOG_BUF_SIZE -> len <= Z.of_nat (length junk) ->
  do_syslog (fun _ => false) junk l 2 len = Some (len, take (Z.to_nat len) junk, l).
Proof.
  intros [Hwf Hcap Hmax] Hlen Hj. unfold do_syslog. simpl. unfold syslog_read, fifo_capacity.
  pose proof (wf_size _ Hwf). rewrite Hcap. unfold fifo_read, fifo_size.
  change (has_flag 0 FIFO_LAST) with false. cbv iota. zdec. by destruct l.
Qed.

Lemma syslog_read_leaks_witness :
  do_syslog (fun _ => false) [77; 78; 79] log_init 2 3 = Some (3, [77; 78; 79], log_init).
Proof.
  apply (syslog_read_leaks [77; 78; 79] log_init 3); [exact log_init_wf|split; vm_compute; done|].
  simpl; lia.
Defined.

End Log.
