(* ===== verification/FileLock.v ===== *)
(** * POSIX record locks (fs/lock.c, with the data of fs/inode.h)

    An inode keeps the list [posix_locks].  [file_lock_acquire] places or
    removes a range by merging, trimming, splitting and deleting the caller's
    locks in one pass over that list, relying on the locks of an owner being
    contiguous in it.  The abstraction is [Held]: who holds what at an offset. *)

From S2P Require Import Prelude Errno.

Module FileLock.

Definition F_RDLCK_ : Z := 0.
Definition F_WRLCK_ : Z := 1.
Definition F_UNLCK_ : Z := 2.

(** [struct file_lock] without its list links; pointers ([owner]) are [Z]. *)
Record file_lock := mk_lock {
  start : Z;
  end_ : Z;
  type : Z;
  pid : Z;
  owner : Z;
}.

#[global] Instance file_lock_eq_dec : EqDecision file_lock.
Proof. solve_decision. Defined.

Definition set_start (l : file_lock) (s : Z) : file_lock :=
  mk_lock s (end_ l) (type l) (pid l) (owner l).
Definition set_end (l : file_lock) (e : Z) : file_lock :=
  mk_lock (start l) e (type l) (pid l) (owner l).

Definition file_locks_overlap (a b : file_lock) : bool :=
  (end_ a >=? start b) && (end_ b >=? start a).

Definition file_locks_conflict (a b : file_lock) : bool :=
  if owner a =? owner b then false
  else if negb (file_locks_overlap a b) then false
  else if (type a =? F_WRLCK_) || (type b =? F_WRLCK_) then true
  else false.

Definition file_locks_adjacent (a b : file_lock) : bool :=
  (end_ a =? s64 (start b - 1)) || (end_ b =? s64 (start a - 1)).

Fixpoint file_lock_test (locks : list file_lock) (request : file_lock) : option file_lock :=
  match locks with
  | [] => None
  | lock :: locks =>
      if file_locks_conflict lock request then Some lock else file_lock_test locks request
  end.

(** The body of the second loop of [file_lock_acquire] for one of our own
    locks: what replaces it in the list, the updated request, and whether
    waiters are notified. *)
Definition acquire_step (request lock : file_lock) : list file_lock * file_lock * bool :=
  if type request =? type lock then
    if negb (file_locks_overlap lock request) && negb (file_locks_adjacent request lock)
    then ([lock], request, false)
    else
      let r1 := if start lock <? start request then set_start request (start lock) else request in
      let r2 := if end_ lock >? end_ r1 then set_end r1 (end_ lock) else r1 in
      ([], r2, false)
  else if negb (file_locks_overlap lock request) then ([lock], request, false)
  else if (start request >? start lock) && (end_ request <? end_ lock) then
    ([set_end lock (s64 (start request - 1)); set_start lock (s64 (end_ request + 1))],
     request, true)
  else if (start request <=? start lock) && (end_ request >=? end_ lock) then
    ([], request, true)
  else if start lock <? start request then
    ([set_end lock (s64 (start request - 1))], request, true)
  else if end_ lock >? end_ request then
    ([set_start lock (s64 (end_ request + 1))], request, true)
  else ([lock], request, true).

(** The second loop: [found] is [found_our_locks].  The result splits the new
    list at the place where the loop stopped, which is where the new lock is
    inserted: before the lock that broke the loop, or at the end. *)
Fixpoint acquire_loop (found : bool) (request : file_lock) (locks : list file_lock)
    : list file_lock * list file_lock * file_lock * bool :=
  match locks with
  | [] => ([], [], request, false)
  | lock :: rest =>
      if owner lock =? owner request then
        let '(kept, request, n1) := acquire_step request lock in
        let '(before, after, request, n2) := acquire_loop true request rest in
        (kept ++ before, after, request, n1 || n2)
      else if found then ([], locks, request, false)
      else
        let '(before, after, request, n) := acquire_loop false request rest in
        (lock :: before, after, request, n)
  end.

(** [file_lock_acquire]: return code, new list, whether [posix_unlock] was
    notified. *)
Definition file_lock_acquire (locks : list file_lock) (request : file_lock)
    : Z * list file_lock * bool :=
  if negb (type request =? F_UNLCK_) &&
     match file_lock_test locks request with Some _ => true | None => false end
  then (_EAGAIN, locks, false)
  else
    let '(before, after, request, notified) := acquire_loop false request locks in
    if negb (type request =? F_UNLCK_)
    then (0, before ++ request :: after, notified)
    else (0, before ++ after, notified).

Definition OFF_T_MAX : Z := 2 ^ 63 - 1.

(** ** Abstraction and invariant *)

Definition covers (l : file_lock) (p : Z) : Prop := start l <= p <= end_ l.

#[global] Instance covers_dec l p : Decision (covers l p).
Proof. unfold covers. apply _. Defined.

(** Owner [o] holds a lock of type [t] on offset [p]. *)
Definition Held (locks : list file_lock) (o p t : Z) : Prop :=
  exists l, l ∈ locks /\ owner l = o /\ covers l p /\ type l = t.

Definition lock_wf (l : file_lock) : Prop :=
  0 <= start l <= end_ l /\ end_ l <= OFF_T_MAX /\ (type l = F_RDLCK_ \/ type l = F_WRLCK_).

Definition request_wf (r : file_lock) : Prop :=
  0 <= start r <= end_ r /\ end_ r <= OFF_T_MAX /\
  (type r = F_RDLCK_ \/ type r = F_WRLCK_ \/ type r = F_UNLCK_).

(** Two locks of one owner neither overlap nor, with the same type, touch. *)
Definition sep (a b : file_lock) : Prop :=
  (end_ a < start b \/ end_ b < start a) /\
  (type a = type b -> end_ a + 1 <> start b /\ end_ b + 1 <> start a).

(** Contiguity of an owner's locks in the list. *)
Definition absent (o : Z) (locks : list file_lock) : Prop :=
  Forall (fun l => owner l <> o) locks.

Fixpoint block (o : Z) (locks : list file_lock) : Prop :=
  match locks with
  | [] => True
  | l :: rest => if owner l =? o then block o rest else absent o rest
  end.

Fixpoint contiguous (o : Z) (locks : list file_lock) : Prop :=
  match locks with
  | [] => True
  | l :: rest => if owner l =? o then block o rest else contiguous o rest
  end.

Record lock_inv (locks : list file_lock) : Prop := mk_inv {
  inv_wf : Forall lock_wf locks;
  inv_contiguous : forall o, contiguous o locks;
  inv_sep : ForallOrdPairs (fun a b => owner a = owner b -> sep a b) locks;
  inv_compat : forall a b, a ∈ locks -> b ∈ locks -> file_locks_conflict a b = false;
}.

(** ** Contiguity *)

Lemma absent_block o ls : absent o ls -> block o ls.
Proof. intros H. destruct H; simpl; [done|]. zbool; done. Qed.

Lemma absent_contiguous o ls : absent o ls -> contiguous o ls.
Proof. induction 1; simpl; [done|]. zbool; done. Qed.

Lemma block_app o a b : absent o b -> block o a -> block o (a ++ b).
Proof.
  intros Hb. induction a as [|l a IH]; simpl; [intros _; by apply absent_block|].
  destruct (owner l =? o); [done|]. intros. by apply Forall_app.
Qed.

Lemma contiguous_app_absent o a b : absent o b -> contiguous o a -> contiguous o (a ++ b).
Proof.
  intros Hb. induction a as [|l a IH]; simpl; [intros _; by apply absent_contiguous|].
  destruct (owner l =? o); [by apply block_app|done].
Qed.

Lemma absent_app_contiguous o a b : absent o a -> contiguous o b -> contiguous o (a ++ b).
Proof. induction 1; simpl; [done|]. intros. zbool; [done|auto]. Qed.

Lemma block_app_inv o a b : block o (a ++ b) -> block o a /\ (block o b).
Proof.
  induction a as [|l a IH]; simpl; [done|]. destruct (owner l =? o); [done|].
  intros [? ?]%Forall_app. eauto using absent_block.
Qed.

Lemma block_contiguous o a : block o a -> contiguous o a.
Proof.
  destruct a as [|l a]; simpl; [done|]. destruct (owner l =? o); [done|].
  apply absent_contiguous.
Qed.

Lemma contiguous_app_inv o a b : contiguous o (a ++ b) -> contiguous o a /\ contiguous o b.
Proof.
  induction a as [|l a IH]; simpl; [done|]. destruct (owner l =? o); [|done].
  intros [? ?]%block_app_inv. eauto using block_contiguous.
Qed.

(** An owner whose locks are contiguous is on one side of a foreign lock. *)
Lemma block_split o a m b : owner m <> o -> block o (a ++ m :: b) -> absent o b.
Proof.
  intros Hm. induction a as [|l a IH]; simpl.
  - zbool; done.
  - destruct (owner l =? o); [done|]. by intros [_ [_ ?]%Forall_cons_1]%Forall_app.
Qed.

Lemma contiguous_split o a m b :
  owner m <> o -> contiguous o (a ++ m :: b) -> absent o a \/ absent o b.
Proof.
  intros Hm. induction a as [|l a IH]; simpl; [left; constructor|].
  destruct (Z.eqb_spec (owner l) o) as [Ho|].
  - intros H%block_split; auto.
  - intros [?|?]%IH; [left; by constructor|by right].
Qed.

(** The list seen by an owner: its locks form one block. *)
Lemma owner_split o ls :
  contiguous o ls ->
  exists pre own post, ls = pre ++ own ++ post /\ absent o pre /\
    Forall (fun l => owner l = o) own /\ absent o post /\ (own = [] -> post = []).
Proof.
  induction ls as [|l ls IH]; simpl; intros Hc.
  - exists [], [], []. split_and!; try done; constructor.
  - destruct (Z.eqb_spec (owner l) o) as [Ho|Ho].
    + clear IH. assert (H : exists own post, ls = own ++ post /\
        Forall (fun l => owner l = o) own /\ absent o post).
      { induction ls as [|m ls IH]; simpl in Hc.
        - exists [], []. split_and!; try done; constructor.
        - destruct (Z.eqb_spec (owner m) o) as [Hmo|Hmo].
          + destruct (IH Hc) as (own & post & -> & ? & ?).
            exists (m :: own), post. split_and!; try done. by constructor.
          + exists [], (m :: ls). split_and!; try done; by constructor. }
      destruct H as (own & post & -> & ? & ?).
      exists [], (l :: own), post. split_and!; try done; by constructor.
    + destruct (IH Hc) as (pre & own & post & -> & ? & ? & ? & ?).
      exists (l :: pre), own, post. split_and!; try done. by constructor.
Qed.

(** Replacing an owner's block by another block of that owner keeps the other
    owners contiguous, provided it is put where the old block was, or at the end. *)
Lemma contiguous_replace o ro pre own own' post :
  contiguous o (pre ++ own ++ post) ->
  absent ro pre -> absent ro post ->
  Forall (fun l => owner l = ro) own -> Forall (fun l => owner l = ro) own' ->
  (own = [] -> post = []) -> contiguous o (pre ++ own' ++ post).
Proof.
  intros Hc Hpre Hpost Hown Hown' Hend. destruct (Z.eq_dec o ro) as [->|Hne].
  - apply absent_app_contiguous; [done|]. apply contiguous_app_absent; [done|].
    clear -Hown'. destruct Hown' as [|l own' Hl Hown']; [done|]. simpl. rewrite Hl, Z.eqb_refl.
    induction Hown' as [|l' own' Hl' ? IH]; simpl; [done|]. by rewrite Hl', Z.eqb_refl.
  - assert (Hab : absent o own').
    { eapply Forall_impl; [|exact Hown']. simpl. intros; subst. congruence. }
    destruct Hown as [|m own Hm Hown].
    + rewrite Hend, !app_nil_r in * by done. by apply contiguous_app_absent.
    + simpl in Hc. destruct (contiguous_split o pre m (own ++ post)) as [H|H];
        [congruence|done| |].
      * apply contiguous_app_inv in Hc as [_ Hc].
        change (m :: own ++ post) with ((m :: own) ++ post) in Hc.
        apply contiguous_app_inv in Hc as [_ Hc].
        do 2 (apply absent_app_contiguous; [done|]). done.
      * apply contiguous_app_inv in Hc as [Hc _]. apply Forall_app in H as [_ H].
        apply contiguous_app_absent; [|done]. by apply Forall_app.
Qed.

(** ** One step of the loop *)

(** What the loop body does to one of the requester's locks. *)
Record step_spec (r l : file_lock) (kept : list file_lock) (r' : file_lock) : Prop := {
  sp_same : type r' = type r /\ owner r' = owner r /\ pid r' = pid r;
  sp_range : 0 <= start r' <= end_ r' /\ end_ r' <= OFF_T_MAX;
  sp_grow : forall p, covers r p -> covers r' p;
  sp_from : forall p, covers r' p -> covers r p \/ (covers l p /\ type l = type r);
  sp_kept : Forall (fun k => lock_wf k /\ owner k = owner l /\ type k = type l /\
                             (forall p, covers k p -> covers l p) /\ sep k r') kept;
  sp_kept_sep : ForallOrdPairs sep kept;
  sp_cover : forall p, covers l p -> covers r' p \/ exists k, k ∈ kept /\ covers k p;
}.

(** Discharge [step_spec] for concrete ranges: everything but the coverage is
    linear, and the coverage follows once the offset is placed around the request. *)
Ltac in_kept :=
  first [left; lia
        | right; eexists; split; [apply list_elem_of_here|simpl; lia]
        | right; eexists; split;
          [apply list_elem_of_further, list_elem_of_here|simpl; lia]].
Ltac step_crush rs re :=
  split; simpl;
  [ done | lia
  | intros p; unfold covers; simpl; lia
  | intros p; unfold covers; simpl; lia
  | repeat (apply Forall_nil_2 || apply Forall_cons_2);
    unfold lock_wf, sep, covers; simpl; intros; split_and!; intros; lia || done
  | repeat (apply FOP_nil || apply FOP_cons || apply Forall_nil_2 || apply Forall_cons_2);
    unfold sep; simpl; lia
  | intros p; unfold covers; simpl; intros;
    destruct (Z.lt_ge_cases p rs), (Z.lt_ge_cases re p); in_kept ].

Lemma acquire_step_ok r l :
  request_wf r -> lock_wf l -> step_spec r l (acquire_step r l).1.1 (acquire_step r l).1.2.
Proof.
  intros (Hr & Hrm & Ht) (Hl & Hlm & Htl).
  assert (HM : OFF_T_MAX = 9223372036854775807) by reflexivity.
  unfold acquire_step, file_locks_overlap, file_locks_adjacent, set_start, set_end.
  rewrite !Z.geb_leb, !Z.gtb_ltb.
  rewrite !(swrap_small 64 (_ - 1)) by (unfold in_s; lia).
  destruct r as [rs re rt rp ro], l as [ls le lt lp lo]; simpl in *.
  destruct (Z.eqb_spec rt lt) as [<-|Hty].
  - destruct (Z.leb_spec rs le), (Z.leb_spec ls re), (Z.eqb_spec re (ls - 1)),
      (Z.eqb_spec le (rs - 1)); simpl; try lia; try solve [step_crush rs re];
    destruct (Z.ltb_spec ls rs); simpl; destruct (Z.ltb_spec re le); simpl;
    step_crush rs re.
  - destruct (Z.leb_spec rs le), (Z.leb_spec ls re); simpl; try solve [step_crush rs re].
    destruct (Z.ltb_spec ls rs), (Z.ltb_spec re le), (Z.leb_spec rs ls), (Z.leb_spec le re);
      simpl; try lia; rewrite ?(swrap_small 64 (re + 1)) by (unfold in_s; lia);
      step_crush rs re.
Qed.

(** ** The whole pass over the requester's locks *)

Fixpoint process (request : file_lock) (own : list file_lock) : list file_lock * file_lock * bool :=
  match own with
  | [] => ([], request, false)
  | lock :: own =>
      let '(kept, request, n1) := acquire_step request lock in
      let '(kept', request, n2) := process request own in
      (kept ++ kept', request, n1 || n2)
  end.

(** [acquire_step] keeps the owner of the request. *)
Lemma acquire_step_owner r l :
  owner (acquire_step r l).1.2 = owner r /\ type (acquire_step r l).1.2 = type r.
Proof. unfold acquire_step. repeat case_match; done. Qed.

(** The loop is [process] on the requester's block, wherever the block is. *)
Lemma acquire_loop_true r own post :
  Forall (fun l => owner l = owner r) own -> absent (owner r) post ->
  acquire_loop true r (own ++ post) =
    let '(kept, r', n) := process r own in (kept, post, r', n).
Proof.
  intros Hown Hpost. revert r Hown Hpost. induction own as [|l own IH]; intros r Hown Hpost; simpl.
  - destruct Hpost as [|m post Hm _]; simpl; [done|].
    destruct (Z.eqb_spec (owner m) (owner r)); done.
  - apply Forall_cons_1 in Hown as [Hl Hown]. rewrite Hl, Z.eqb_refl.
    destruct (acquire_step_owner r l) as [Ho _].
    destruct (acquire_step r l) as [[kept r1] n1]. simpl in Ho. rewrite IH by (rewrite Ho; done).
    by destruct (process r1 own) as [[kept' r2] n2].
Qed.

Lemma acquire_loop_eq r pre own post :
  absent (owner r) pre -> Forall (fun l => owner l = owner r) own ->
  absent (owner r) post -> (own = [] -> post = []) ->
  acquire_loop false r (pre ++ own ++ post) =
    let '(kept, r', n) := process r own in (pre ++ kept, post, r', n).
Proof.
  intros Hpre Hown Hpost Hend. induction Hpre as [|l pre Hl _ IH]; simpl.
  - destruct own as [|l own]; [by rewrite Hend|]. apply Forall_cons_1 in Hown as [Hl Hown].
    simpl. rewrite Hl, Z.eqb_refl. destruct (acquire_step_owner r l) as [Ho _].
    destruct (acquire_step r l) as [[kept r1] n1]. simpl in Ho.
    rewrite acquire_loop_true by (rewrite Ho; done).
    by destruct (process r1 own) as [[kept' r2] n2].
  - destruct (Z.eqb_spec (owner l) (owner r)); [done|]. rewrite IH.
    by destruct (process r own) as [[kept' r2] n2].
Qed.

Record process_spec (r : file_lock) (own kept : list file_lock) (r' : file_lock) : Prop := {
  ps_same : type r' = type r /\ owner r' = owner r /\ pid r' = pid r;
  ps_range : 0 <= start r' <= end_ r' /\ end_ r' <= OFF_T_MAX;
  ps_grow : forall p, covers r p -> covers r' p;
  ps_from : forall p, covers r' p ->
    covers r p \/ exists l, l ∈ own /\ covers l p /\ type l = type r;
  ps_kept : forall k, k ∈ kept -> lock_wf k /\ owner k = owner r /\ sep k r' /\
    exists l, l ∈ own /\ type k = type l /\ forall p, covers k p -> covers l p;
  ps_kept_sep : ForallOrdPairs sep kept;
  ps_cover : forall l p, l ∈ own -> covers l p ->
    covers r' p \/ exists k, k ∈ kept /\ covers k p /\ type k = type l;
}.

(** Shrinking one of two separate locks, or growing it by a separate one, keeps
    them separate. *)
Lemma sep_sub k l m :
  0 <= start k <= end_ k -> type k = type l ->
  (forall p, covers k p -> covers l p) -> sep l m -> 0 <= start m <= end_ m -> sep k m.
Proof.
  intros Hk Ht Hsub [Hd Ha] Hm. unfold covers in Hsub.
  pose proof (Hsub (start k) ltac:(lia)). pose proof (Hsub (end_ k) ltac:(lia)).
  split; [lia|]. rewrite Ht. intros Htt. specialize (Ha Htt). lia.
Qed.

Lemma sep_sym a b : sep a b -> sep b a.
Proof. unfold sep. intros [? H]. split; [lia|]. intros E. symmetry in E. specialize (H E). lia. Qed.

(** A lock separate from everything a request is made of is separate from it. *)
Lemma sep_union k r :
  0 <= start k <= end_ k -> 0 <= start r <= end_ r ->
  (forall q, covers r q -> exists m, covers m q /\ type m = type r /\ sep k m) -> sep k r.
Proof.
  intros Hk Hr Hu.
  assert (Hpt : forall q, covers r q -> ~ covers k q /\
            (type k = type r -> q <> end_ k + 1 /\ q <> start k - 1)).
  { intros q Hq. destruct (Hu q Hq) as (m & Hm & Ht & [Hd Ha]). unfold covers in *.
    split; [lia|]. intros Hkr. specialize (Ha (eq_trans Hkr (eq_sym Ht))). lia. }
  unfold covers in Hpt.
  pose proof (Hpt (Z.max (start r) (Z.min (end_ r) (start k)))) as H1.
  pose proof (Hpt (start r)) as H2. pose proof (Hpt (end_ r)) as H3.
  split; [lia|]. intros Ht. destruct H2 as [_ H2]; [lia|]. destruct H3 as [_ H3]; [lia|].
  specialize (H2 Ht). specialize (H3 Ht). lia.
Qed.

Lemma process_ok own : forall r,
  request_wf r -> Forall lock_wf own -> Forall (fun l => owner l = owner r) own ->
  ForallOrdPairs sep own ->
  process_spec r own (process r own).1.1 (process r own).1.2.
Proof.
  induction own as [|l own IH]; intros r Hr Hwf Ho Hsep; simpl.
  { destruct Hr as (? & ? & ?). split; simpl; [done|done|done|by left| |constructor|].
    all: intros *; by intros ?%not_elem_of_nil. }
  apply Forall_cons_1 in Hwf as [Hl Hwf], Ho as [Hlo Ho].
  inversion Hsep as [|? ? Hlsep Hsep']; subst. rewrite Forall_elem in Hlsep.
  pose proof (acquire_step_ok r l Hr Hl) as S1.
  destruct (acquire_step r l) as [[kept1 r1] n1]. simpl in S1.
  destruct (sp_same _ _ _ _ S1) as (Ht1 & Ho1 & Hp1).
  assert (Hr1 : request_wf r1).
  { destruct (sp_range _ _ _ _ S1), Hr as (_ & _ & ?). unfold request_wf. by rewrite Ht1. }
  specialize (IH r1 Hr1 Hwf ltac:(by rewrite Ho1) Hsep').
  destruct (process r1 own) as [[kept2 r2] n2]. simpl in *.
  destruct S1 as [_ _ Sgrow Sfrom Skept Skeptsep Scover].
  destruct IH as [(Ht2 & Ho2 & Hp2) Irange Igrow Ifrom Ikept Ikeptsep Icover].
  rewrite Forall_elem in Skept, Hwf.
  assert (Hcross : forall k m, k ∈ kept1 -> m ∈ own -> sep k m).
  { intros k m Hk Hm. destruct (Skept k Hk) as ((? & ? & ?) & ? & ? & ? & ?).
    destruct (Hwf m Hm). by apply (sep_sub k l m); auto. }
  split.
  - split_and!; congruence.
  - done.
  - eauto.
  - intros p Hp. destruct (Ifrom p Hp) as [H|(m & ? & ? & ?)].
    + destruct (Sfrom p H) as [?|[? ?]]; [by left|]. right. exists l. split_and!; try done.
      apply list_elem_of_here.
    + right. exists m. split_and!; [by apply list_elem_of_further|done|congruence].
  - intros k [Hk|Hk]%elem_of_app.
    + destruct (Skept k Hk) as (Hkw & Hko & Hkt & Hks & Hkr). split_and!; [done|congruence| |].
      * destruct Hkw as (? & _), Irange as (? & _). apply sep_union; [done..|].
        intros q Hq. destruct (Ifrom q Hq) as [?|(m & ? & ? & ?)].
        { exists r1. split_and!; [done|congruence|done]. }
        { exists m. split_and!; [done|congruence|by apply Hcross]. }
      * exists l. split_and!; [apply list_elem_of_here|done|done].
    + destruct (Ikept k Hk) as (? & ? & ? & m & ? & ? & ?). split_and!; [done|congruence|done|].
      exists m. split_and!; [by apply list_elem_of_further|done|done].
  - apply FOP_app. split_and!; [done|done|]. intros k k2 Hk Hk2.
    destruct (Ikept k2 Hk2) as ((? & _) & _ & _ & m & Hm & ? & ?).
    destruct (Skept k Hk) as ((? & _) & _).
    apply sep_sym, (sep_sub k2 m k); try done. apply sep_sym. by apply Hcross.
  - intros m p [->|Hm]%elem_of_cons Hp.
    + destruct (Scover p Hp) as [?|(k & ? & ?)]; [left; by apply Igrow|]. right.
      exists k. destruct (Skept k) as (_ & _ & ? & _); [done|]. split_and!; try done.
      apply elem_of_app; by left.
    + destruct (Icover m p Hm Hp) as [?|(k & ? & ? & ?)]; [by left|]. right.
      exists k. split_and!; try done. apply elem_of_app; by right.
Qed.

(** ** [file_lock_acquire] as a whole *)

Lemma file_lock_test_Some ls r l :
  file_lock_test ls r = Some l -> l ∈ ls /\ file_locks_conflict l r = true.
Proof.
  induction ls as [|m ls IH]; simpl; [done|].
  destruct (file_locks_conflict m r) eqn:E; [intros [= ->]; split; [apply list_elem_of_here|done]|].
  intros [? ?]%IH. split; [by apply list_elem_of_further|done].
Qed.

Lemma file_lock_test_None ls r :
  file_lock_test ls r = None <-> forall l, l ∈ ls -> file_locks_conflict l r = false.
Proof.
  induction ls as [|m ls IH]; simpl.
  - split; [|done]. by intros _ l ?%not_elem_of_nil.
  - destruct (file_locks_conflict m r) eqn:E.
    + split; [done|]. intros H. rewrite H in E; [done|apply list_elem_of_here].
    + rewrite IH. split.
      * intros H l [->|?]%elem_of_cons; auto.
      * intros H l ?. apply H. by apply list_elem_of_further.
Qed.

Lemma conflict_true a b :
  file_locks_conflict a b = true <->
  owner a <> owner b /\ start b <= end_ a /\ start a <= end_ b /\
  (type a = F_WRLCK_ \/ type b = F_WRLCK_).
Proof.
  unfold file_locks_conflict, file_locks_overlap. rewrite !Z.geb_leb.
  destruct (Z.eqb_spec (owner a) (owner b)), (Z.leb_spec (start b) (end_ a)),
    (Z.leb_spec (start a) (end_ b)), (Z.eqb_spec (type a) F_WRLCK_),
    (Z.eqb_spec (type b) F_WRLCK_); simpl; split; intros; try done; try tauto; lia.
Qed.

(** Whether the first loop refuses the request. *)
Definition refused (ls : list file_lock) (r : file_lock) : bool :=
  negb (type r =? F_UNLCK_) &&
  match file_lock_test ls r with Some _ => true | None => false end.

(** The shape of the list after a request was placed. *)
Inductive placed (ls : list file_lock) (r : file_lock) (ls' : list file_lock) : Prop :=
  mk_placed pre own post kept r' :
    ls = pre ++ own ++ post ->
    absent (owner r) pre -> absent (owner r) post ->
    Forall (fun l => owner l = owner r) own -> (own = [] -> post = []) ->
    process_spec r own kept r' ->
    ls' = pre ++ (kept ++ if type r =? F_UNLCK_ then [] else [r']) ++ post ->
    placed ls r ls'.

Lemma acquire_placed ls r :
  lock_inv ls -> request_wf r -> refused ls r = false ->
  exists n ls', file_lock_acquire ls r = (0, ls', n) /\ placed ls r ls'.
Proof.
  intros [Hwf Hc Hsep _] Hr Href. unfold file_lock_acquire. unfold refused in Href. rewrite Href.
  destruct (owner_split (owner r) ls (Hc (owner r)))
    as (pre & own & post & -> & Hpre & Hown & Hpost & Hend).
  rewrite acquire_loop_eq by done.
  apply Forall_app in Hwf as [_ [Hwf _]%Forall_app].
  apply FOP_app in Hsep as (_ & Hsep & _). apply FOP_app in Hsep as (Hsep & _ & _).
  assert (Hps : process_spec r own (process r own).1.1 (process r own).1.2).
  { apply process_ok; try done. revert Hsep. apply FOP_impl. intros x y Hx Hy H.
    rewrite Forall_elem in Hown. apply H. by rewrite (Hown x Hx), (Hown y Hy). }
  destruct (process r own) as [[kept r'] n]. simpl in Hps.
  destruct (ps_same _ _ _ _ Hps) as (Ht & _). rewrite Ht.
  exists n, (pre ++ (kept ++ if type r =? F_UNLCK_ then [] else [r']) ++ post). split.
  - destruct (type r =? F_UNLCK_); simpl; by rewrite ?app_nil_r, <- ?app_assoc.
  - by apply (mk_placed _ _ _ pre own post kept r').
Qed.

(** Membership in the new list, by owner. *)
Lemma placed_elem ls r ls' l :
  placed ls r ls' -> owner l <> owner r -> (l ∈ ls' <-> l ∈ ls).
Proof.
  intros [pre own post kept r' -> _ _ Hown _ [(_ & Ho & _) _ _ _ Hk _ _] ->] Hl.
  rewrite Forall_elem in Hown. rewrite !elem_of_app.
  assert (l ∉ own) by (intros ?%Hown; done).
  assert (l ∉ kept) by (intros (_ & ? & _)%Hk; congruence).
  assert (l ∉ (if type r =? F_UNLCK_ then [] else [r'])).
  { destruct (type r =? F_UNLCK_); [apply not_elem_of_nil|].
    intros ->%list_elem_of_singleton. congruence. }
  tauto.
Qed.

Lemma placed_own ls r ls' l :
  placed ls r ls' -> owner l = owner r -> l ∈ ls' ->
  lock_wf l \/ (type l = type r /\ type r <> F_UNLCK_ /\ 0 <= start l <= end_ l /\ end_ l <= OFF_T_MAX).
Proof.
  intros [pre own post kept r' -> Hpre Hpost Hown _ [(Ht & Ho & _) Hr' _ _ Hk _ _] ->] Hl.
  unfold absent in *. rewrite Forall_elem in Hpre, Hpost.
  rewrite !elem_of_app. intros [H|[[H|H]|H]].
  - by apply Hpre in H.
  - left. by apply Hk in H as [? _].
  - right. destruct (Z.eqb_spec (type r) F_UNLCK_); [by apply not_elem_of_nil in H|].
    apply list_elem_of_singleton in H as ->. done.
  - by apply Hpost in H.
Qed.

(** Every lock of the requester after the request comes from one it held, or is
    made of the request and locks it held with the same type. *)
Lemma placed_origin ls r ls' l p :
  placed ls r ls' -> l ∈ ls' -> owner l = owner r -> covers l p ->
  (type l = type r /\ covers r p) \/
  exists m, m ∈ ls /\ owner m = owner r /\ covers m p /\ type m = type l.
Proof.
  intros [pre own post kept r' -> Hpre Hpost Hown _ [(Ht & Ho & _) Hr' _ Hf Hk _ _] ->] Hin Hl Hp.
  unfold absent in *. rewrite Forall_elem in Hpre, Hpost, Hown.
  rewrite !elem_of_app in Hin. destruct Hin as [H|[[H|H]|H]].
  - by apply Hpre in H.
  - right. destruct (Hk l H) as (_ & _ & _ & m & Hm & Htm & Hsub). exists m.
    rewrite !elem_of_app. split_and!; auto.
  - destruct (type r =? F_UNLCK_); [by apply not_elem_of_nil in H|].
    apply list_elem_of_singleton in H as ->. destruct (Hf p Hp) as [?|(m & ? & ? & ?)];
      [by left|]. right. exists m. rewrite !elem_of_app. split_and!; auto. congruence.
  - by apply Hpost in H.
Qed.

Lemma lock_inv_sep ls a b :
  lock_inv ls -> a ∈ ls -> b ∈ ls -> owner a = owner b -> a = b \/ sep a b.
Proof.
  intros [_ _ Hs _] Ha Hb Ho. apply list_elem_of_lookup in Ha as [i Hi], Hb as [j Hj].
  revert i j Hi Hj. induction Hs as [|x l Hx Hl IH]; intros i j Hi Hj; [done|].
  rewrite Forall_elem in Hx.
  destruct i as [|i], j as [|j]; simpl in *; simplify_eq; [by left| | |by eauto].
  - right. apply Hx; [by apply list_elem_of_lookup; eauto|done].
  - right. apply sep_sym, Hx; [by apply list_elem_of_lookup; eauto|done].
Qed.

Lemma elem_own ls r pre own post m :
  ls = pre ++ own ++ post -> absent (owner r) pre -> absent (owner r) post ->
  m ∈ ls -> owner m = owner r -> m ∈ own.
Proof.
  intros -> Hpre Hpost Hm Ho. unfold absent in *. rewrite Forall_elem in Hpre, Hpost.
  rewrite !elem_of_app in Hm. destruct Hm as [?%Hpre|[?|?%Hpost]]; done.
Qed.

(** What the requester holds afterwards. *)
Lemma placed_held_own ls r ls' p t :
  lock_inv ls -> request_wf r -> placed ls r ls' ->
  Held ls' (owner r) p t <->
  (covers r p /\ t = type r /\ t <> F_UNLCK_) \/ (~ covers r p /\ Held ls (owner r) p t).
Proof.
  intros Hinv Hr Hpl. pose proof Hpl as [pre own post kept r' Hls Hpre Hpost Hown _ Hps Hls'].
  destruct Hps as [(Ht & Ho & _) Hr' Hg Hf Hk _ Hc]. split.
  - intros (l & Hl & Hlo & Hlp & <-). rewrite Hls', !elem_of_app in Hl.
    unfold absent in *. rewrite Forall_elem in Hpre, Hpost, Hown.
    destruct Hl as [H|[[H|H]|H]]; [by apply Hpre in H| | |by apply Hpost in H].
    + right. destruct (Hk l H) as (_ & _ & [Hd _] & m & Hm & Htm & Hsub). split.
      * intros Hrp%Hg. unfold covers in *. lia.
      * exists m. rewrite Hls, !elem_of_app. split_and!; auto.
    + destruct (Z.eqb_spec (type r) F_UNLCK_); [by apply not_elem_of_nil in H|].
      apply list_elem_of_singleton in H as ->.
      destruct (decide (covers r p)); [left; rewrite Ht; done|].
      right. split; [done|]. destruct (Hf p Hlp) as [?|(m & ? & ? & ?)]; [done|].
      exists m. rewrite Hls, !elem_of_app. split_and!; auto. congruence.
  - intros [(Hp & -> & Hu)|(Hp & m & Hm & Hmo & Hmp & <-)].
    + exists r'. rewrite Hls', !elem_of_app. destruct (Z.eqb_spec (type r) F_UNLCK_); [done|].
      split_and!; auto. right; left; right. by apply list_elem_of_singleton.
    + assert (Hmo' : m ∈ own) by by eapply elem_own.
      destruct (Hc m p Hmo' Hmp) as [Hrp|(k & Hkk & ? & ?)].
      * destruct (Hf p Hrp) as [?|(l & Hl & Hlp & Hlt)]; [done|].
        assert (l = m) as ->.
        { rewrite Forall_elem in Hown. destruct (lock_inv_sep ls l m) as [?|[Hd _]]; try done.
          - rewrite Hls, !elem_of_app. auto.
          - by rewrite (Hown l Hl).
          - unfold covers in *. lia. }
        pose proof (inv_wf _ Hinv) as Hwf. rewrite Forall_elem in Hwf.
        destruct (Hwf m Hm) as (_ & _ & Htm).
        exists r'. rewrite Hls', !elem_of_app. destruct (Z.eqb_spec (type r) F_UNLCK_) as [E|].
        { rewrite Hlt, E in Htm. destruct Htm; done. }
        split_and!; try congruence || done. right; left; right. by apply list_elem_of_singleton.
      * exists k. rewrite Hls', !elem_of_app. destruct (Hk k Hkk) as (_ & ? & _). split_and!; auto.
Qed.

Lemma placed_held ls r ls' o p t :
  lock_inv ls -> request_wf r -> placed ls r ls' ->
  Held ls' o p t <->
  if decide (o = owner r /\ covers r p) then t = type r /\ t <> F_UNLCK_ else Held ls o p t.
Proof.
  intros Hinv Hr Hpl. destruct (Z.eq_dec o (owner r)) as [->|Ho].
  - rewrite (placed_held_own ls r ls') by done. case_decide; tauto.
  - rewrite decide_False by tauto. unfold Held.
    split; intros (l & ? & ? & ?); exists l; split_and!; try tauto;
      (eapply (placed_elem ls r ls'); [done|congruence|done]).
Qed.

Lemma conflict_sym a b : file_locks_conflict a b = file_locks_conflict b a.
Proof.
  destruct (file_locks_conflict b a) eqn:E.
  - apply conflict_true in E. apply conflict_true. split_and!; lia.
  - destruct (file_locks_conflict a b) eqn:E'; [|done]. apply conflict_true in E'.
    rewrite <- E. symmetry. apply conflict_true. split_and!; lia.
Qed.

Lemma placed_wf ls r ls' :
  lock_inv ls -> request_wf r -> placed ls r ls' -> Forall lock_wf ls'.
Proof.
  intros Hinv (_ & _ & Hrt) Hpl. rewrite Forall_elem. intros l Hl.
  destruct (Z.eq_dec (owner l) (owner r)) as [Ho|Ho].
  - destruct (placed_own ls r ls' l) as [?|(? & ? & ? & ?)]; try done.
    unfold lock_wf. split_and!; try tauto. destruct Hrt as [?|[?|?]]; [left|right|]; congruence.
  - pose proof (inv_wf _ Hinv) as Hwf. rewrite Forall_elem in Hwf.
    by apply Hwf, (placed_elem ls r ls').
Qed.

(** A new lock of the requester conflicts with nobody. *)
Lemma placed_compat_own ls r ls' a b :
  lock_inv ls -> request_wf r -> refused ls r = false -> placed ls r ls' ->
  a ∈ ls' -> b ∈ ls' -> owner a = owner r -> file_locks_conflict a b = false.
Proof.
  intros Hinv Hr Href Hpl Ha Hb Hao.
  destruct (file_locks_conflict a b) eqn:E; [exfalso|done].
  apply conflict_true in E as (Hne & H1 & H2 & Hw).
  pose proof (placed_wf _ _ _ Hinv Hr Hpl) as Hwf. rewrite Forall_elem in Hwf.
  destruct (Hwf a Ha) as (? & _ & Hat). destruct (Hwf b Hb) as (? & _).
  apply (placed_elem ls r ls') in Hb; [|done|congruence].
  destruct (placed_origin ls r ls' a (Z.max (start a) (start b)) Hpl Ha Hao)
    as [(Ht & Hcov)|(m & Hm & Hmo & Hcov & Ht)]; unfold covers in *; [lia| |].
  - unfold refused in Href. apply andb_false_iff in Href as [Href|Href].
    + destruct (Z.eqb_spec (type r) F_UNLCK_) as [E|]; [|done].
      rewrite Ht, E in Hat. destruct Hat; done.
    + destruct (file_lock_test ls r) eqn:Et; [done|]. rewrite file_lock_test_None in Et.
      specialize (Et b Hb). rewrite (proj2 (conflict_true b r)) in Et; [done|].
      rewrite <- Ht. split_and!; lia.
  - pose proof (inv_compat _ Hinv m b Hm Hb) as Hc.
    rewrite (proj2 (conflict_true m b)) in Hc; [done|]. split_and!; lia.
Qed.

Lemma placed_sep ls r ls' :
  lock_inv ls -> placed ls r ls' ->
  ForallOrdPairs (fun a b => owner a = owner b -> sep a b) ls'.
Proof.
  intros Hinv [pre own post kept r' -> Hpre Hpost Hown _ Hps ->].
  pose proof (inv_sep _ Hinv) as Hsep. unfold absent in *. rewrite Forall_elem in Hpre, Hpost.
  apply FOP_app in Hsep as (S1 & S2 & Sx). apply FOP_app in S2 as (_ & S3 & _).
  destruct Hps as [(Ht & Ho & _) _ _ _ Hk Hks _].
  assert (Hmid : forall l, l ∈ kept ++ (if type r =? F_UNLCK_ then [] else [r']) ->
                   owner l = owner r).
  { intros l [(_ & ? & _)%Hk|Hl]%elem_of_app; [done|].
    destruct (type r =? F_UNLCK_); [by apply not_elem_of_nil in Hl|].
    by apply list_elem_of_singleton in Hl as ->. }
  apply FOP_app. split_and!; [done| |].
  - apply FOP_app. split_and!; [|done|].
    + apply FOP_app. split_and!.
      * revert Hks. apply FOP_impl. auto.
      * destruct (type r =? F_UNLCK_); repeat constructor.
      * intros x y Hx Hy _. destruct (type r =? F_UNLCK_); [by apply not_elem_of_nil in Hy|].
        apply list_elem_of_singleton in Hy as ->. by apply Hk in Hx as (_ & _ & ? & _).
    + intros x y Hx%Hmid Hy%Hpost. congruence.
  - intros x y Hx [Hy%Hmid|Hy]%elem_of_app; [apply Hpre in Hx; congruence|].
    apply Sx; [done|]. rewrite elem_of_app. auto.
Qed.

Lemma placed_inv ls r ls' :
  lock_inv ls -> request_wf r -> refused ls r = false -> placed ls r ls' -> lock_inv ls'.
Proof.
  intros Hinv Hr Href Hpl. split.
  - by eapply placed_wf.
  - intros o. pose proof (inv_contiguous _ Hinv o) as Hc.
    destruct Hpl as [pre own post kept r' -> ? ? ? ? [(_ & Ho & _) _ _ _ Hk _ _] ->].
    eapply contiguous_replace; try done. rewrite Forall_elem.
    intros l [(_ & ? & _)%Hk|Hl]%elem_of_app; [done|].
    destruct (type r =? F_UNLCK_); [by apply not_elem_of_nil in Hl|].
    by apply list_elem_of_singleton in Hl as ->.
  - by eapply placed_sep.
  - intros a b Ha Hb. destruct (Z.eq_dec (owner a) (owner r)) as [|Hao].
    { by eapply placed_compat_own. }
    destruct (Z.eq_dec (owner b) (owner r)) as [|Hbo].
    { rewrite conflict_sym. by eapply (placed_compat_own ls r ls' b a). }
    apply (inv_compat _ Hinv); by apply (placed_elem ls r ls').
Qed.

(** ** The syscall layer *)

Definition LSEEK_SET : Z := 0.
Definition LSEEK_CUR : Z := 1.
Definition LSEEK_END : Z := 2.

(** [struct flock_]. *)
Record flock := mk_flock {
  fl_type : Z; fl_whence : Z; fl_start : Z; fl_len : Z; fl_pid : Z;
}.

(** What [file_lock_from_flock] reads of the descriptor and of [current]: the
    result of [lseek(fd, 0, LSEEK_CUR)] ([None] when the fd has no [lseek]), the
    result of [fstat] (an error or the size), the fd table and the pid. *)
Record lock_env := mk_env {
  env_lseek : option Z;
  env_fstat : Z + Z;
  env_files : Z;
  env_pid : Z;
  env_flags : Z;
}.

Definition flock_offset (env : lock_env) (whence : Z) : Z + Z :=
  if whence =? LSEEK_SET then inr 0
  else if whence =? LSEEK_CUR then
    match env_lseek env with
    | None => inr 0
    | Some off => if off <? 0 then inl off else inr off
    end
  else if whence =? LSEEK_END then
    match env_fstat env with
    | inl err => inl err
    | inr size => inr size
    end
  else inl _EINVAL.

Definition file_lock_from_flock (env : lock_env) (fl : flock) : Z + file_lock :=
  match flock_offset env (fl_whence fl) with
  | inl err => inl err
  | inr offset =>
      let start := s64 (fl_start fl + offset) in
      let '(start, end_) :=
        if fl_len fl >? 0 then (start, s64 (start + fl_len fl - 1))
        else if fl_len fl <? 0 then
          let end_ := s64 (start - 1) in (s64 (end_ + fl_len fl + 1), end_)
        else (start, OFF_T_MAX) in
      inr (mk_lock start end_ (fl_type fl) (env_pid env) (env_files env))
  end.

Definition flock_from_file_lock (l : file_lock) : flock :=
  mk_flock (type l) LSEEK_SET (start l)
    (if negb (end_ l =? OFF_T_MAX) then s64 (end_ l - start l + 1) else 0) (pid l).

(** [fcntl_getlk]: the return code and the caller's struct afterwards. *)
Definition fcntl_getlk (env : lock_env) (locks : list file_lock) (fl : flock) : Z * flock :=
  if negb (fl_type fl =? F_RDLCK_) && negb (fl_type fl =? F_WRLCK_) then (_EINVAL, fl)
  else match file_lock_from_flock env fl with
  | inl err => (err, fl)
  | inr request =>
      match file_lock_test locks request with
      | Some l => (0, flock_from_file_lock l)
      | None => (0, mk_flock F_UNLCK_ (fl_whence fl) (fl_start fl) (fl_len fl) (fl_pid fl))
      end
  end.

Definition O_ACCMODE_ : Z := 3.
Definition O_RDONLY_ : Z := 0.
Definition O_WRONLY_ : Z := 1.

(** The wait loop of [fcntl_setlk].  Each element of [wakeups] is one return of
    [wait_for]: its code and the lock list other tasks left meanwhile.  [None]
    means the caller is still waiting after the given wakeups. *)
Fixpoint setlk_loop (request : file_lock) (blocking : bool)
    (wakeups : list (Z * list file_lock)) (locks : list file_lock)
    : option (Z * list file_lock * bool) :=
  let '(err, locks', notified) := file_lock_acquire locks request in
  if negb (err =? _EAGAIN) then Some (err, locks', notified)
  else if negb blocking then Some (err, locks', notified)
  else match wakeups with
  | [] => None
  | (err, locks) :: wakeups =>
      if err <? 0 then Some (err, locks, false)
      else setlk_loop request blocking wakeups locks
  end.

Definition fcntl_setlk (env : lock_env) (fl : flock) (blocking : bool)
    (wakeups : list (Z * list file_lock)) (locks : list file_lock)
    : option (Z * list file_lock * bool) :=
  let fd_mode := Z.land (env_flags env) O_ACCMODE_ in
  if negb (fl_type fl =? F_RDLCK_) && negb (fl_type fl =? F_WRLCK_)
     && negb (fl_type fl =? F_UNLCK_) then Some (_EINVAL, locks, false)
  else if (fl_type fl =? F_RDLCK_) && (fd_mode =? O_WRONLY_) then Some (_EBADF, locks, false)
  else if (fl_type fl =? F_WRLCK_) && (fd_mode =? O_RDONLY_) then Some (_EBADF, locks, false)
  else match file_lock_from_flock env fl with
  | inl err => Some (err, locks, false)
  | inr request => setlk_loop request blocking wakeups locks
  end.

Definition file_lock_remove_owned_by (locks : list file_lock) (o : Z) : list file_lock :=
  filter (fun l => owner l <> o) locks.

(** ** The theorems *)

(** C3: [file_lock_acquire] implements byte-range locking.  A request that
    conflicts with another owner's lock gets [_EAGAIN] and changes nothing; any
    other request succeeds, and afterwards its owner holds exactly the requested
    type on the requested range (nothing for an unlock) while every other owner
    and every other offset keep what they had, through all the merging,
    trimming and splitting. *)
Theorem file_lock_acquire_spec ls r :
  lock_inv ls -> request_wf r ->
  let '(code, ls', _) := file_lock_acquire ls r in
  if bool_decide (type r <> F_UNLCK_) && existsb (fun l => file_locks_conflict l r) ls
  then code = _EAGAIN /\ ls' = ls
  else code = 0 /\ forall o p t, Held ls' o p t <->
         if decide (o = owner r /\ covers r p) then t = type r /\ t <> F_UNLCK_ else Held ls o p t.
Proof.
  intros Hinv Hr.
  assert (Heq : bool_decide (type r <> F_UNLCK_) && existsb (fun l => file_locks_conflict l r) ls
                = refused ls r).
  { unfold refused. f_equal.
    - destruct (Z.eqb_spec (type r) F_UNLCK_); simpl;
        [by apply bool_decide_eq_false_2; intros ?|by apply bool_decide_eq_true_2].
    - clear. induction ls as [|l ls IH]; simpl; [done|].
      by destruct (file_locks_conflict l r). }
  rewrite Heq. destruct (refused ls r) eqn:E.
  - unfold file_lock_acquire. unfold refused in E. by rewrite E.
  - destruct (acquire_placed ls r Hinv Hr E) as (n & ls' & -> & Hpl).
    split; [done|]. intros o p t. by apply placed_held.
Qed.

(** C4: [file_lock_acquire] preserves the invariant of the lock list: all
    ranges are valid, an owner's locks are contiguous in the list, disjoint and
    fully merged, and no two owners hold conflicting locks. *)
Theorem file_lock_acquire_inv ls r :
  lock_inv ls -> request_wf r -> lock_inv (file_lock_acquire ls r).1.2.
Proof.
  intros Hinv Hr. destruct (refused ls r) eqn:E.
  - unfold file_lock_acquire. unfold refused in E. by rewrite E.
  - destruct (acquire_placed ls r Hinv Hr E) as (n & ls' & -> & Hpl). simpl.
    by eapply placed_inv.
Qed.

Definition demo_locks : list file_lock :=
  [mk_lock 0 9 F_RDLCK_ 1 100; mk_lock 20 29 F_WRLCK_ 1 100; mk_lock 5 7 F_RDLCK_ 2 200].

Lemma demo_locks_inv : lock_inv demo_locks.
Proof.
  split.
  - repeat (apply Forall_nil_2 || apply Forall_cons_2); unfold lock_wf; simpl;
      split_and!; try (vm_compute; discriminate); auto.
  - intros o. unfold demo_locks, absent. cbn [contiguous block owner].
    destruct (Z.eqb_spec 100 o), (Z.eqb_spec 200 o); try done; try lia; apply Forall_nil_2.
  - repeat (apply FOP_nil || apply FOP_cons || apply Forall_nil_2 || apply Forall_cons_2);
      unfold sep; simpl; intros; try discriminate; split; [lia|intros]; lia.
  - assert (H : Forall (fun a => Forall (fun b => file_locks_conflict a b = false) demo_locks)
                  demo_locks) by (repeat constructor).
    intros a b Ha Hb. rewrite Forall_elem in H. specialize (H a Ha).
    rewrite Forall_elem in H. by apply H.
Qed.

(** Unlocking the middle of the first lock splits it. *)
Definition demo_unlock : file_lock := mk_lock 3 4 F_UNLCK_ 1 100.

Lemma file_lock_acquire_spec_witness :
  file_lock_acquire demo_locks demo_unlock =
    (0, [mk_lock 0 2 F_RDLCK_ 1 100; mk_lock 5 9 F_RDLCK_ 1 100;
         mk_lock 20 29 F_WRLCK_ 1 100; mk_lock 5 7 F_RDLCK_ 2 200], true) /\
  (let '(code, ls', _) := file_lock_acquire demo_locks demo_unlock in
   code = 0 /\ forall o p t, Held ls' o p t <->
     if decide (o = owner demo_unlock /\ covers demo_unlock p)
     then t = type demo_unlock /\ t <> F_UNLCK_ else Held demo_locks o p t).
Proof.
  split; [reflexivity|].
  apply (file_lock_acquire_spec demo_locks demo_unlock demo_locks_inv).
  unfold request_wf; simpl; split_and!; try (vm_compute; discriminate); auto.
Defined.

Lemma file_lock_acquire_inv_witness :
  lock_inv [mk_lock 0 2 F_RDLCK_ 1 100; mk_lock 5 9 F_RDLCK_ 1 100;
            mk_lock 20 29 F_WRLCK_ 1 100; mk_lock 5 7 F_RDLCK_ 2 200].
Proof.
  apply (file_lock_acquire_inv demo_locks demo_unlock demo_locks_inv).
  unfold request_wf; simpl; split_and!; try (vm_compute; discriminate); auto.
Defined.

(** a blocking [fcntl_setlk] loop stays blocked only while every list it
    woke up to conflicts, and when it returns after interruption-free wakeups it
    returns 0, having placed the request on a list it woke up to; the invariant
    is preserved. *)
Theorem setlk_loop_blocking r wakeups : forall ls,
  request_wf r -> lock_inv ls -> Forall (fun w => 0 <= w.1 /\ lock_inv w.2) wakeups ->
  match setlk_loop r true wakeups ls with
  | None => Forall (fun l => refused l r = true) (ls :: map snd wakeups)
  | Some (code, ls', n) => code = 0 /\ lock_inv ls' /\
      exists ls0, ls0 ∈ ls :: map snd wakeups /\ refused ls0 r = false /\
        file_lock_acquire ls0 r = (0, ls', n)
  end.
Proof.
  induction wakeups as [|[err l] wakeups IH]; intros ls Hr Hinv Hw;
    (destruct (refused ls r) eqn:E;
     [assert (Ha : file_lock_acquire ls r = (_EAGAIN, ls, false))
        by (unfold file_lock_acquire; unfold refused in E; by rewrite E)
     |destruct (acquire_placed ls r Hinv Hr E) as (n & ls' & Ha & Hpl)]);
    simpl; rewrite Ha; simpl.
  - by apply Forall_cons_2.
  - split; [done|]. split; [by eapply placed_inv|]. exists ls. split_and!; try done.
    apply list_elem_of_here.
  - apply Forall_cons_1 in Hw as [[Hz Hl] Hw]. simpl in Hz, Hl. zdec.
    specialize (IH l Hr Hl Hw). destruct (setlk_loop r true wakeups l) as [[[code ls'] n]|].
    + destruct IH as (? & ? & ls0 & ? & ?). split_and!; try done. exists ls0.
      split; [by apply list_elem_of_further|done].
    + by apply Forall_cons_2.
  - split; [done|]. split; [by eapply placed_inv|]. exists ls. split_and!; try done.
    apply list_elem_of_here.
Qed.

Definition demo_want : file_lock := mk_lock 6 6 F_WRLCK_ 1 100.
Definition demo_freed : list file_lock := file_lock_remove_owned_by demo_locks 200.

(** Filtering by owner. *)
Lemma remove_owned_elem ls o l :
  l ∈ file_lock_remove_owned_by ls o <-> owner l <> o /\ l ∈ ls.
Proof. unfold file_lock_remove_owned_by. by rewrite list_elem_of_filter. Qed.

Lemma block_filter o o' ls : o <> o' -> block o ls -> block o (file_lock_remove_owned_by ls o').
Proof.
  intros Hne. induction ls as [|l ls IH]; simpl; [done|]. unfold file_lock_remove_owned_by in *.
  destruct (Z.eqb_spec (owner l) o) as [Ho|Ho]; intros Hb.
  - rewrite filter_cons_True by congruence. simpl. rewrite Ho, Z.eqb_refl. auto.
  - destruct (decide (owner l <> o')).
    + rewrite filter_cons_True by done. simpl. zdec. destruct (Z.eqb_spec (owner l) o); [done|].
      unfold absent in *. by apply Forall_filter.
    + rewrite filter_cons_False by done. apply absent_block. by apply Forall_filter.
Qed.

Lemma contiguous_filter o o' ls :
  contiguous o ls -> contiguous o (file_lock_remove_owned_by ls o').
Proof.
  intros Hc. destruct (Z.eq_dec o o') as [->|Hne].
  { apply absent_contiguous. unfold absent. rewrite Forall_elem.
    intros l Hl%remove_owned_elem. tauto. }
  induction ls as [|l ls IH]; simpl in *; [done|].
  pose proof (block_filter o o' ls Hne) as Hbf. unfold file_lock_remove_owned_by in *.
  destruct (Z.eqb_spec (owner l) o) as [Ho|Ho].
  - rewrite filter_cons_True by congruence. simpl. rewrite Ho, Z.eqb_refl. auto.
  - destruct (decide (owner l <> o')).
    + rewrite filter_cons_True by done. simpl. destruct (Z.eqb_spec (owner l) o); [done|]. auto.
    + rewrite filter_cons_False by done. auto.
Qed.

Lemma remove_owned_inv ls o : lock_inv ls -> lock_inv (file_lock_remove_owned_by ls o).
Proof.
  intros [Hwf Hc Hs Hx]. split.
  - by apply Forall_filter.
  - intros o'. by apply contiguous_filter.
  - clear -Hs. unfold file_lock_remove_owned_by. induction Hs as [|l ls Hl Hls IH]; [constructor|].
    rewrite filter_cons. case_decide; [|done]. constructor; [|done]. by apply Forall_filter.
  - intros a b [_ ?]%remove_owned_elem [_ ?]%remove_owned_elem. auto.
Qed.

(** closing a descriptor ([file_lock_remove_owned_by]) drops all locks of
    its owner and no others, and preserves the invariant. *)
Theorem file_lock_remove_owned_by_spec ls o :
  lock_inv ls ->
  lock_inv (file_lock_remove_owned_by ls o) /\
  forall o' p t, Held (file_lock_remove_owned_by ls o) o' p t <-> o' <> o /\ Held ls o' p t.
Proof.
  intros Hinv. split; [by apply remove_owned_inv|]. intros o' p t. unfold Held. split.
  - intros (l & [? ?]%remove_owned_elem & <- & ? & ?). split; [done|]. by exists l.
  - intros (? & l & ? & <- & ? & ?). exists l. rewrite remove_owned_elem. done.
Qed.

Lemma file_lock_remove_owned_by_spec_witness :
  lock_inv demo_freed /\
  forall o' p t, Held demo_freed o' p t <-> o' <> 200 /\ Held demo_locks o' p t.
Proof. apply (file_lock_remove_owned_by_spec demo_locks 200 demo_locks_inv). Defined.

Definition demo_relocked : list file_lock :=
  [mk_lock 0 5 F_RDLCK_ 1 100; mk_lock 7 9 F_RDLCK_ 1 100;
   mk_lock 20 29 F_WRLCK_ 1 100; demo_want].

Lemma setlk_loop_blocking_witness :
  setlk_loop demo_want true [(0, demo_locks)] demo_locks = None /\
  setlk_loop demo_want true [(0, demo_freed)] demo_locks = Some (0, demo_relocked, true) /\
  lock_inv demo_relocked.
Proof.
  split; [reflexivity|].
  assert (E : setlk_loop demo_want true [(0, demo_freed)] demo_locks
              = Some (0, demo_relocked, true)) by reflexivity.
  split; [exact E|].
  pose proof (setlk_loop_blocking demo_want [(0, demo_freed)] demo_locks) as H.
  rewrite E in H. apply H; [|exact demo_locks_inv|].
  - unfold request_wf; simpl; split_and!; try (vm_compute; discriminate); auto.
  - apply Forall_cons_2; [|apply Forall_nil_2].
    split; [simpl; lia|]. apply remove_owned_inv, demo_locks_inv.
Defined.

(** [F_GETLK] answers whether [F_SETLK] would succeed: it reports
    [F_UNLCK_] exactly when the same request would not be refused. *)
Theorem getlk_agrees_setlk env ls fl fl' request :
  fl_type fl = F_RDLCK_ \/ fl_type fl = F_WRLCK_ ->
  Forall lock_wf ls ->
  file_lock_from_flock env fl = inr request ->
  fcntl_getlk env ls fl = (0, fl') ->
  (fl_type fl' = F_UNLCK_ <-> refused ls request = false).
Proof.
  intros Hty Hwf Hreq. unfold fcntl_getlk. rewrite Hreq.
  assert (Ht : type request = fl_type fl).
  { unfold file_lock_from_flock in Hreq. repeat case_match; by simplify_eq. }
  replace (negb (fl_type fl =? F_RDLCK_) && negb (fl_type fl =? F_WRLCK_)) with false
    by (destruct Hty as [-> | ->]; done).
  unfold refused. replace (type request =? F_UNLCK_) with false
    by (rewrite Ht; destruct Hty as [-> | ->]; done). simpl.
  destruct (file_lock_test ls request) as [l|] eqn:E; intros [= <-]; simpl; [|done].
  apply file_lock_test_Some in E as [Hl _]. rewrite Forall_elem in Hwf.
  destruct (Hwf l Hl) as (_ & _ & [-> | ->]); done.
Qed.

Definition demo_env : lock_env := mk_env (Some 0) (inr 64) 300 3 O_ACCMODE_.

Lemma getlk_agrees_setlk_witness :
  let fl := mk_flock F_WRLCK_ LSEEK_SET 6 1 0 in
  (fl_type (mk_flock F_RDLCK_ LSEEK_SET 0 10 1) = F_UNLCK_ <->
   refused demo_locks (mk_lock 6 6 F_WRLCK_ 3 300) = false).
Proof.
  apply (getlk_agrees_setlk demo_env demo_locks (mk_flock F_WRLCK_ LSEEK_SET 6 1 0)).
  - by right.
  - exact (inv_wf _ demo_locks_inv).
  - reflexivity.
  - reflexivity.
Defined.

(** translating a [struct flock] with an in-range, absolute range to the
    internal form gives a valid request, and translating back gives the same
    range (a range reaching the largest offset comes back as length 0, "to the
    end"). *)
Theorem flock_round_trip env fl :
  fl_whence fl = LSEEK_SET -> 0 <= fl_start fl -> 0 <= fl_len fl ->
  fl_start fl + fl_len fl <= 2 ^ 63 - 1 ->
  fl_type fl = F_RDLCK_ \/ fl_type fl = F_WRLCK_ \/ fl_type fl = F_UNLCK_ ->
  exists r, file_lock_from_flock env fl = inr r /\ request_wf r /\
    flock_from_file_lock r =
      mk_flock (fl_type fl) LSEEK_SET (fl_start fl) (fl_len fl) (env_pid env).
Proof.
  intros Hw Hs Hl Hb Ht. assert (HM : OFF_T_MAX = 9223372036854775807) by reflexivity.
  unfold file_lock_from_flock, flock_offset. rewrite Hw. simpl.
  rewrite Z.add_0_r, (swrap_small 64 (fl_start fl)) by (unfold in_s; lia).
  destruct (Z.eq_dec (fl_len fl) 0) as [H0|H0].
  - rewrite H0. simpl. eexists; split; [done|]. split.
    + unfold request_wf; simpl. lia.
    + reflexivity.
  - rewrite (swrap_small 64 (_ - 1)) by (unfold in_s; lia). zdec.
    eexists; split; [done|]. split; [unfold request_wf; simpl; lia|].
    unfold flock_from_file_lock; simpl. zdec.
    rewrite swrap_small by (unfold in_s; lia). f_equal. lia.
Qed.

Lemma flock_round_trip_witness :
  exists r, file_lock_from_flock demo_env (mk_flock F_WRLCK_ LSEEK_SET 10 5 0) = inr r /\
    request_wf r /\ flock_from_file_lock r = mk_flock F_WRLCK_ LSEEK_SET 10 5 3.
Proof.
  apply (flock_round_trip demo_env (mk_flock F_WRLCK_ LSEEK_SET 10 5 0));
    simpl; try lia; auto.
Defined.

(** a range that overflows [off_t] is not rejected: [fcntl_setlk] reports
    success and stores a lock that ends before it starts, breaking the
    invariant. *)
Theorem setlk_overflow_accepted :
  exists env fl ls', fcntl_setlk env fl false [] [] = Some (0, ls', false) /\ ~ lock_inv ls'.
Proof.
  exists (mk_env None (inr 0) 1 1 2), (mk_flock F_WRLCK_ LSEEK_SET (2 ^ 63 - 1) 2 0).
  eexists. split; [vm_compute; reflexivity|].
  intros [Hwf _ _ _]. apply Forall_cons_1 in Hwf as [(? & _) _]. simpl in *. lia.
Qed.

End FileLock.
