(* ===== verification/Memory.v ===== *)
(** * Guest address spaces (kernel/memory.c, kernel/memory.h, emu/mmu.h)

    A [mem] is a two-level page table.  Page-table entries point to reference
    counted [data] objects, which own a block of host memory; several entries,
    also of different address spaces, may share one object.  [world] is the
    shared store of those objects and blocks.  A host block is named by its base
    address, so that a host pointer is base plus offset.

    Host allocation is a parameter: [mmap_at] and [malloc_data] choose the
    address of a new block and of a new [struct data], or fail.  What the code
    relies on is that a chosen address is not in use, and that blocks start at a
    multiple of the size of a host page, which is a parameter too. *)

From stdpp Require Import gmap.
From S2P Require Import Prelude Errno.

Module Memory.

(** ** Constants of emu/mmu.h and kernel/memory.h *)

Definition PAGE_BITS : Z := 12.
Definition PAGE_SIZE : Z := Z.shiftl 1 PAGE_BITS.
Definition PAGE (addr : Z) : Z := Z.shiftr addr PAGE_BITS.
Definition PGOFFSET (addr : Z) : Z := Z.land addr (PAGE_SIZE - 1).
Definition MEM_PAGES : Z := Z.shiftl 1 20.
Definition BAD_PAGE : Z := 0x10000.
Definition MEM_PGDIR_SIZE : Z := Z.shiftl 1 10.
Definition PGDIR_TOP (page : Z) : Z := Z.shiftr page 10.
Definition PGDIR_BOTTOM (page : Z) : Z := Z.land page (MEM_PGDIR_SIZE - 1).

Definition P_READ : Z := 1.
Definition P_WRITE : Z := 2.
Definition P_EXEC : Z := 4.
Definition P_GROWSDOWN : Z := 8.
Definition P_COW : Z := 16.
Definition P_ANONYMOUS : Z := 64.
Definition P_SHARED : Z := 128.

Definition has (flags f : Z) : bool := ctrue (Z.land flags f).
Definition P_WRITABLE (flags : Z) : bool := has flags P_WRITE && negb (has flags P_COW).

Definition SEGV_MAPERR_ : Z := 1.
Definition SEGV_ACCERR_ : Z := 2.

Inductive access := MEM_READ | MEM_WRITE | MEM_WRITE_PTRACE.
#[global] Instance access_eq_dec : EqDecision access.
Proof. solve_decision. Defined.

(** ** State *)

(** [struct data]; [d_block] is the field [data]. *)
Record data := mk_data {
  d_block : Z;
  d_size : Z;
  d_refcount : Z;
  d_fd : option Z;
}.

(** [struct pt_entry]; [pt_data] names a [struct data]. *)
Record pt_entry := mk_pt {
  pt_data : Z;
  pt_offset : Z;
  pt_flags : Z;
}.

(** [struct mem].  A page directory that was never allocated is absent; an
    allocated one maps the entries whose [data] is not NULL. *)
Record mem := mk_mem {
  pgdir : gmap Z (gmap Z pt_entry);
  pgdir_used : Z;
  changes : Z;
}.

(** Host memory and the [struct data] heap; [closed] lists the descriptors
    [fd_close] was called on. *)
Record world := mk_world {
  blocks : gmap Z (list Z);
  datas : gmap Z data;
  closed : list Z;
}.

(** A host pointer: the block it points into and the byte offset in it. *)
Definition ptr : Type := Z * Z.

Definition set_pgdir (m : mem) (d : gmap Z (gmap Z pt_entry)) (used : Z) : mem :=
  mk_mem d used (changes m).

Definition mem_init : mem := mk_mem ∅ 0 0.

Definition mem_changed (m : mem) : mem := mk_mem (pgdir m) (pgdir_used m) (u64 (changes m + 1)).

(** ** Page table access *)

(** [mem_pt_new] followed by the caller's stores into the entry. *)
Definition mem_pt_new (m : mem) (page : Z) (e : pt_entry) : mem :=
  match pgdir m !! PGDIR_TOP page with
  | None => set_pgdir m (<[PGDIR_TOP page := {[PGDIR_BOTTOM page := e]}]> (pgdir m))
              (pgdir_used m + 1)
  | Some dir => set_pgdir m (<[PGDIR_TOP page := <[PGDIR_BOTTOM page := e]> dir]> (pgdir m))
                  (pgdir_used m)
  end.

Definition mem_pt (m : mem) (page : Z) : option pt_entry :=
  match pgdir m !! PGDIR_TOP page with
  | None => None
  | Some dir => dir !! PGDIR_BOTTOM page
  end.

Definition mem_pt_del (m : mem) (page : Z) : mem :=
  match pgdir m !! PGDIR_TOP page with
  | None => m
  | Some dir => set_pgdir m (<[PGDIR_TOP page := delete (PGDIR_BOTTOM page) dir]> (pgdir m))
                  (pgdir_used m)
  end.

(** The [while] of [mem_next_page]; 1024 rounds reach the last directory. *)
Fixpoint next_dir (fuel : nat) (m : mem) (page : Z) : Z :=
  match fuel with
  | O => page
  | S fuel =>
      if (page <? MEM_PAGES) &&
         match pgdir m !! PGDIR_TOP page with None => true | Some _ => false end
      then next_dir fuel m ((page - PGDIR_BOTTOM page) + MEM_PGDIR_SIZE)
      else page
  end.

Definition mem_next_page (m : mem) (page : Z) : Z :=
  let page := page + 1 in
  if page >=? MEM_PAGES then page else next_dir (Z.to_nat MEM_PGDIR_SIZE) m page.

Definition is_mapped (m : mem) (page : Z) : bool :=
  match mem_pt m page with Some _ => true | None => false end.

(** The countdown loop of [pt_find_hole]; [fuel] counts the pages left above
    0x40000. *)
Fixpoint find_hole_loop (fuel : nat) (m : mem) (size page hole_end : Z) (in_hole : bool) : Z :=
  match fuel with
  | O => BAD_PAGE
  | S fuel =>
      let '(in_hole, hole_end) :=
        if negb in_hole && negb (is_mapped m page) then (true, page + 1)
        else (in_hole, hole_end) in
      if is_mapped m page then find_hole_loop fuel m size (page - 1) hole_end false
      else if hole_end - page =? size then page
      else find_hole_loop fuel m size (page - 1) hole_end in_hole
  end.

Definition pt_find_hole (m : mem) (size : Z) : Z :=
  find_hole_loop (Z.to_nat (0xf7ffd - 0x40000)) m size 0xf7ffd 0 false.

Fixpoint all_pages (f : Z -> bool) (start : Z) (n : nat) : bool :=
  match n with
  | O => true
  | S n => f start && all_pages f (start + 1) n
  end.

Definition pt_is_hole (m : mem) (start pages : Z) : bool :=
  all_pages (fun p => negb (is_mapped m p)) start (Z.to_nat pages).

(** ** Mapping and unmapping *)

(** The global [real_page_size], set at start from [sysconf]. *)
Class PageSize : Type := real_page_size : Z.

(** Is this block the vdso image, which is not unmapped? *)
Section WithVdso.
Context {PS : PageSize} (vdso_data : Z).

Definition set_refcount (d : data) (rc : Z) : data := mk_data (d_block d) (d_size d) rc (d_fd d).

(** Dropping the reference an unmapped page held. *)
Definition data_release (w : world) (id : Z) (d : data) : world :=
  let rc := u32 (d_refcount d - 1) in
  if rc =? 0 then
    mk_world (if d_block d =? vdso_data then blocks w else delete (d_block d) (blocks w))
             (delete id (datas w))
             (match d_fd d with Some fd => closed w ++ [fd] | None => closed w end)
  else mk_world (blocks w) (<[id := set_refcount d rc]> (datas w)) (closed w).

(** The body of the loop of [pt_unmap_always]. *)
Definition unmap_page (w : world) (m : mem) (page : Z) : world * mem :=
  match mem_pt m page with
  | None => (w, m)
  | Some pt =>
      let m := mem_pt_del m page in
      match datas w !! pt_data pt with
      | None => (w, m)
      | Some d => (data_release w (pt_data pt) d, m)
      end
  end.

Fixpoint unmap_loop (fuel : nat) (w : world) (m : mem) (page stop : Z) : world * mem :=
  match fuel with
  | O => (w, m)
  | S fuel =>
      if page <? stop then
        let '(w, m) := unmap_page w m page in
        unmap_loop fuel w m (mem_next_page m page) stop
      else (w, m)
  end.

Definition pt_unmap_always (w : world) (m : mem) (start pages : Z) : Z * world * mem :=
  let '(w, m) := unmap_loop (Z.to_nat pages) w m start (start + pages) in
  (0, w, mem_changed m).

Definition pt_unmap (w : world) (m : mem) (start pages : Z) : Z * world * mem :=
  if all_pages (is_mapped m) start (Z.to_nat pages)
  then pt_unmap_always w m start pages
  else (-1, w, m).

(** Freeing the page directories, each that there is.  What is then left in
    [pgdir] is what was not freed. *)
Definition free_dirs (m : mem) : mem :=
  mk_mem (foldl (fun dirs i => delete i dirs) (pgdir m) (seqZ 0 MEM_PGDIR_SIZE)) (pgdir_used m) (changes m).

Definition mem_destroy (w : world) (m : mem) : world * mem :=
  let '(_, w, m) := pt_unmap_always w m 0 MEM_PAGES in (w, free_dirs m).

Definition data_retain (w : world) (id : Z) : world :=
  match datas w !! id with
  | None => w
  | Some d => mk_world (blocks w) (<[id := set_refcount d (u32 (d_refcount d + 1))]> (datas w)) (closed w)
  end.

(** The loop of [pt_map]; [n] pages are left from [page]. *)
Fixpoint map_loop (n : nat) (w : world) (m : mem) (id start page offset flags : Z) : world * mem :=
  match n with
  | O => (w, m)
  | S n =>
      let '(w, m) :=
        if is_mapped m page then let '(_, w, m) := pt_unmap w m page 1 in (w, m) else (w, m) in
      let w := data_retain w id in
      let m := mem_pt_new m page
                 (mk_pt id (u64 (u32 (Z.shiftl (page - start) PAGE_BITS) + offset)) flags) in
      map_loop n w m id start (page + 1) offset flags
  end.

(** [pt_map]; [memory] is the block, or what [errno_map] makes of the error when it is
    [MAP_FAILED], and [id] is what [malloc] returns for the new [struct data].
    [None]: the assertion that the block starts a host page fails. *)
Definition pt_map (w : world) (m : mem) (start pages : Z) (memory : Z + Z)
    (id : option Z) (offset flags : Z) : option (Z * world * mem) :=
  match memory with
  | inl err => Some (err, w, m)
  | inr block =>
      if negb ((block mod real_page_size =? 0) || (block =? vdso_data)) then None
      else
      match id with
      | None => Some (_ENOMEM, w, m)
      | Some id =>
          let w := mk_world (blocks w)
                     (<[id := mk_data block (u64 (u32 (pages * PAGE_SIZE) + offset)) 0 None]> (datas w))
                     (closed w) in
          let '(w, m) := map_loop (Z.to_nat pages) w m id start start offset flags in
          Some (0, w, m)
      end
  end.

(** ** Allocation by the host *)

Context (mmap_at : world -> Z -> Z + Z) (malloc_data : world -> option Z).

(** Anonymous [mmap] of [size] bytes: a zeroed block. *)
Definition mmap_anon (w : world) (size : Z) : (Z + Z) * world :=
  match mmap_at w size with
  | inl err => (inl err, w)
  | inr b => (inr b, mk_world (<[b := replicate (Z.to_nat size) 0]> (blocks w)) (datas w) (closed w))
  end.

Definition pt_map_nothing (w : world) (m : mem) (start pages flags : Z) : option (Z * world * mem) :=
  if pages =? 0 then Some (0, w, m)
  else
    let '(memory, w) := mmap_anon w (u32 (pages * PAGE_SIZE)) in
    pt_map w m start pages memory (malloc_data w) 0 (Z.lor flags P_ANONYMOUS).

(** The second loop of [pt_set_flags]; [mprotect] gives the mapped error of a
    failing call. *)
Definition set_flags_of (e : pt_entry) (flags : Z) : pt_entry :=
  mk_pt (pt_data e) (pt_offset e) flags.

Fixpoint set_flags_loop (n : nat) (mprotect : pt_entry -> option Z) (m : mem)
    (page flags : Z) : Z * mem :=
  match n with
  | O => (0, m)
  | S n =>
      match mem_pt m page with
      | None => (0, m)
      | Some e =>
          let m := mem_pt_new m page (set_flags_of e flags) in
          if ctrue (Z.land (Z.land flags (Z.lnot (pt_flags e))) (Z.lor P_READ P_WRITE)) then
            match mprotect e with
            | Some err => (err, m)
            | None => set_flags_loop n mprotect m (page + 1) flags
            end
          else set_flags_loop n mprotect m (page + 1) flags
      end
  end.

Definition pt_set_flags (mprotect : pt_entry -> option Z) (m : mem)
    (start pages flags : Z) : Z * mem :=
  if negb (all_pages (is_mapped m) start (Z.to_nat pages)) then (_ENOMEM, m)
  else
    let '(err, m) := set_flags_loop (Z.to_nat pages) mprotect m start flags in
    if err =? 0 then (0, mem_changed m) else (err, m).

(** The body of the loop of [pt_copy_on_write] for a mapped source page. *)
Definition cow_page (w : world) (src dst : mem) (page : Z) : world * mem * mem :=
  match mem_pt src page with
  | None => (w, src, dst)
  | Some e =>
      let '(_, w, dst) := pt_unmap_always w dst page 1 in
      let e := if negb (has (pt_flags e) P_SHARED)
               then set_flags_of e (Z.lor (pt_flags e) P_COW) else e in
      let src := mem_pt_new src page e in
      let w := data_retain w (pt_data e) in
      (w, src, mem_pt_new dst page e)
  end.

Fixpoint cow_loop (fuel : nat) (w : world) (src dst : mem) (page stop : Z)
    : world * mem * mem :=
  match fuel with
  | O => (w, src, dst)
  | S fuel =>
      if page <? stop then
        let '(w, src, dst) := cow_page w src dst page in
        cow_loop fuel w src dst (mem_next_page src page) stop
      else (w, src, dst)
  end.

Definition pt_copy_on_write (w : world) (src dst : mem) (start pages : Z)
    : Z * world * mem * mem :=
  let '(w, src, dst) := cow_loop (Z.to_nat pages) w src dst start (start + pages) in
  (0, w, mem_changed src, mem_changed dst).

(** ** Translation *)

(** The host address of a guest byte of a page. *)
Definition entry_ptr (w : world) (e : pt_entry) (addr : Z) : option ptr :=
  match datas w !! pt_data e with
  | None => None
  | Some d => Some (d_block d, pt_offset e + PGOFFSET addr)
  end.

Definition mem_ptr_nofault (w : world) (m : mem) (addr : Z) (type : access) : option ptr :=
  match mem_pt m (PAGE addr) with
  | None => None
  | Some e =>
      if bool_decide (type = MEM_WRITE) && negb (P_WRITABLE (pt_flags e)) then None
      else entry_ptr w e addr
  end.

(** The search of [mem_ptr] for the first mapped page above. *)
Fixpoint first_mapped (fuel : nat) (m : mem) (p : Z) : Z :=
  match fuel with
  | O => p
  | S fuel =>
      if (p <? MEM_PAGES) && negb (is_mapped m p) then first_mapped fuel m (p + 1) else p
  end.

(** The bytes of the page an entry maps. *)
Definition page_bytes (w : world) (e : pt_entry) : option (list Z) :=
  d ← datas w !! pt_data e;
  b ← blocks w !! d_block d;
  block_read b (pt_offset e) PAGE_SIZE.

(** First part of [mem_ptr]: [Some None] is the early [return NULL], [None] a
    failed assertion. *)
Definition grow_stack (w : world) (m : mem) (page : Z) : option (option (world * mem)) :=
  match mem_pt m page with
  | Some _ => Some (Some (w, m))
  | None =>
      let p := first_mapped (Z.to_nat (MEM_PAGES - (page + 1))) m (page + 1) in
      if p >=? MEM_PAGES then Some None
      else
        match mem_pt m p with
        | None => Some None
        | Some e =>
            if negb (has (pt_flags e) P_GROWSDOWN) then Some None
            else
              '(_, w, m) ← pt_map_nothing w m page 1 (Z.lor P_WRITE P_GROWSDOWN);
              Some (Some (w, m))
        end
  end.

(** The copy of a copy-on-write page; [None] is the host crash of using a
    failed [mmap], or a failed assertion. *)
Definition break_cow (w : world) (m : mem) (page : Z) (e : pt_entry) : option (world * mem) :=
  bytes ← page_bytes w e;
  match mmap_at w PAGE_SIZE with
  | inl _ => None
  | inr copy =>
      let w := mk_world (<[copy := bytes]> (blocks w)) (datas w) (closed w) in
      '(_, w, m) ← pt_map w m page 1 (inr copy) (malloc_data w) 0
                     (Z.ldiff (pt_flags e) P_COW);
      Some (w, m)
  end.

(** [mem_ptr]: [None] is a crash of the host, [Some (None, ..)] is NULL. *)
Definition mem_ptr (w : world) (m : mem) (addr : Z) (type : access)
    : option (option ptr * world * mem) :=
  let old_ptr := mem_ptr_nofault w m addr type in
  let page := PAGE addr in
  match grow_stack w m page with
  | None => None
  | Some None => Some (None, w, m)
  | Some (Some (w, m)) =>
      let finish (w : world) (m : mem) :=
        let ptr := mem_ptr_nofault w m addr type in
        if bool_decide (old_ptr = None) || bool_decide (old_ptr = ptr)
           || bool_decide (type = MEM_WRITE_PTRACE)
        then Some (ptr, w, m) else None in
      match mem_pt m page with
      | Some e =>
          if bool_decide (type = MEM_READ) then finish w m
          else if bool_decide (type <> MEM_WRITE_PTRACE) && negb (has (pt_flags e) P_WRITE)
          then Some (None, w, m)
          else
            let '(e, m) :=
              if bool_decide (type = MEM_WRITE_PTRACE) then
                let e := set_flags_of e (Z.lor (pt_flags e) (Z.lor P_WRITE P_COW)) in
                (e, mem_pt_new m page e)
              else (e, m) in
            if has (pt_flags e) P_COW then
              match break_cow w m page e with
              | None => None
              | Some (w, m) => finish w m
              end
            else finish w m
      | None => finish w m
      end
  end.

Definition mem_segv_reason (m : mem) (addr : Z) : Z :=
  match mem_pt m (PAGE addr) with
  | None => SEGV_MAPERR_
  | Some _ => SEGV_ACCERR_
  end.

End WithVdso.

(** ** Page table lemmas *)

Lemma pgdir_split p : p = PGDIR_TOP p * 1024 + PGDIR_BOTTOM p.
Proof.
  unfold PGDIR_TOP, PGDIR_BOTTOM, MEM_PGDIR_SIZE.
  change (Z.shiftl 1 10 - 1) with (Z.ones 10). rewrite Z.land_ones, Z.shiftr_div_pow2 by lia.
  change (2 ^ 10) with 1024. pose proof (Z.div_mod p 1024). lia.
Qed.

Lemma pgdir_inj p q : PGDIR_TOP p = PGDIR_TOP q -> PGDIR_BOTTOM p = PGDIR_BOTTOM q -> p = q.
Proof. intros. rewrite (pgdir_split p), (pgdir_split q). lia. Qed.

Lemma pgdir_bottom_range p : 0 <= PGDIR_BOTTOM p < 1024.
Proof.
  unfold PGDIR_BOTTOM, MEM_PGDIR_SIZE. change (Z.shiftl 1 10 - 1) with (Z.ones 10).
  rewrite Z.land_ones by lia. apply Z.mod_pos_bound. reflexivity.
Qed.

Lemma mem_pt_new_lookup m p e q :
  mem_pt (mem_pt_new m p e) q = if decide (p = q) then Some e else mem_pt m q.
Proof.
  unfold mem_pt_new, mem_pt.
  destruct (decide (PGDIR_TOP p = PGDIR_TOP q)) as [Ht|Ht].
  - rewrite <- Ht. destruct (pgdir m !! PGDIR_TOP p) as [dir|] eqn:E; simpl;
      rewrite lookup_insert_eq; case_decide as Hpq.
    + subst. by rewrite lookup_insert_eq.
    + rewrite lookup_insert_ne; [done|]. intros Hb. by apply Hpq, pgdir_inj.
    + subst. by rewrite lookup_singleton_eq.
    + rewrite lookup_singleton_ne; [done|]. intros Hb. by apply Hpq, pgdir_inj.
  - rewrite decide_False by congruence.
    destruct (pgdir m !! PGDIR_TOP p) as [dir|]; simpl; by rewrite lookup_insert_ne.
Qed.

Lemma mem_pt_del_lookup m p q :
  mem_pt (mem_pt_del m p) q = if decide (p = q) then None else mem_pt m q.
Proof.
  unfold mem_pt_del, mem_pt.
  destruct (decide (PGDIR_TOP p = PGDIR_TOP q)) as [Ht|Ht].
  - rewrite <- Ht. destruct (pgdir m !! PGDIR_TOP p) as [dir|] eqn:E; simpl.
    + rewrite lookup_insert_eq. case_decide as Hpq.
      * subst. by rewrite lookup_delete_eq.
      * rewrite lookup_delete_ne; [done|]. intros Hb. by apply Hpq, pgdir_inj.
    + rewrite E. by case_decide.
  - rewrite decide_False by congruence.
    destruct (pgdir m !! PGDIR_TOP p) as [dir|]; simpl; [by rewrite lookup_insert_ne|done].
Qed.

Lemma mem_pt_changed m q : mem_pt (mem_changed m) q = mem_pt m q.
Proof. done. Qed.

(** Pages between [page] and [mem_next_page m page] are not mapped. *)
Lemma next_dir_spec fuel m page :
  page <= next_dir fuel m page /\
  forall q, page <= q < next_dir fuel m page -> mem_pt m q = None.
Proof.
  revert page. induction fuel as [|fuel IH]; intros page; simpl; [split; [lia|intros; lia]|].
  destruct (Z.ltb_spec page MEM_PAGES); simpl; [|split; [lia|intros; lia]].
  destruct (pgdir m !! PGDIR_TOP page) eqn:E; [split; [lia|intros; lia]|].
  pose proof (pgdir_bottom_range page) as Hb. change MEM_PGDIR_SIZE with 1024.
  destruct (IH (page - PGDIR_BOTTOM page + 1024)) as [Hle Hq]. split; [lia|]. intros q Hqr.
  destruct (Z.lt_ge_cases q (page - PGDIR_BOTTOM page + 1024)); [|apply Hq; lia].
  unfold mem_pt. replace (PGDIR_TOP q) with (PGDIR_TOP page); [by rewrite E|].
  pose proof (pgdir_split page). pose proof (pgdir_split q).
  pose proof (pgdir_bottom_range q). lia.
Qed.

Lemma mem_next_page_spec m page :
  page < mem_next_page m page /\
  forall q, page < q < mem_next_page m page -> mem_pt m q = None.
Proof.
  unfold mem_next_page. rewrite Z.geb_leb.
  destruct (Z.leb_spec MEM_PAGES (page + 1)); [split; [lia|intros; lia]|].
  destruct (next_dir_spec (Z.to_nat MEM_PGDIR_SIZE) m (page + 1)) as [? Hq].
  split; [lia|]. intros q ?. apply Hq. lia.
Qed.

Lemma is_mapped_true m p : is_mapped m p = true <-> is_Some (mem_pt m p).
Proof. unfold is_mapped. destruct (mem_pt m p); split; intros [? H] || intros H; done || eauto. Qed.

Lemma is_mapped_false m p : is_mapped m p = false <-> mem_pt m p = None.
Proof. unfold is_mapped. by destruct (mem_pt m p). Qed.

Lemma all_pages_true f start n :
  all_pages f start n = true <-> forall p, start <= p < start + Z.of_nat n -> f p = true.
Proof.
  revert start. induction n as [|n IH]; intros start; simpl; [split; [intros; lia|done]|].
  rewrite andb_true_iff, IH. split.
  - intros [H1 H2] p Hp. destruct (Z.eq_dec p start) as [->|]; [done|]. apply H2; lia.
  - intros H. split; [apply H; lia|]. intros p Hp. apply H; lia.
Qed.

Lemma all_pages_false f start n :
  all_pages f start n = false -> exists p, start <= p < start + Z.of_nat n /\ f p = false.
Proof.
  revert start. induction n as [|n IH]; intros start E; simpl in E; [done|].
  apply andb_false_iff in E as [E|E]; [exists start; split; [lia|done]|].
  destruct (IH _ E) as (p & ? & ?). exists p. split; [lia|done].
Qed.

(** ** Finding a hole *)

(** [size] pages from [p] are free and inside the range that is searched. *)
Definition hole (m : mem) (size p : Z) : Prop :=
  0x40000 < p /\ p + size <= 0xf7ffe /\ forall q, p <= q < p + size -> mem_pt m q = None.

(** The loop invariant: [in_hole] tells that the pages from [page + 1] up to
    [hole_end] are free, fewer than [size], and bounded by a mapped page or the
    top of the range. *)
Definition scanning (m : mem) (size page hole_end : Z) (in_hole : bool) : Prop :=
  if in_hole then
    page + 1 < hole_end <= 0xf7ffe /\ hole_end - (page + 1) < size /\
    (forall q, page < q < hole_end -> mem_pt m q = None) /\
    (hole_end = 0xf7ffe \/ mem_pt m hole_end <> None)
  else page = 0xf7ffd \/ mem_pt m (page + 1) <> None.

Lemma find_hole_loop_spec m size fuel : forall page hole_end in_hole,
  1 <= size -> Z.of_nat fuel = page - 0x40000 -> page <= 0xf7ffd ->
  scanning m size page hole_end in_hole ->
  let r := find_hole_loop fuel m size page hole_end in_hole in
  (r = BAD_PAGE /\ forall q, q <= page -> ~ hole m size q) \/
  (r <= page /\ hole m size r /\ forall q, r < q <= page -> ~ hole m size q).
Proof.
  induction fuel as [|fuel IH]; intros page hole_end in_hole Hsize Hfuel Hpage Hs; simpl.
  { left. split; [done|]. intros q Hq (? & _). lia. }
  destruct (is_mapped m page) eqn:Em.
  - apply is_mapped_true in Em as [e Em]. rewrite andb_false_r.
    assert (Hno : ~ hole m size page).
    { intros (_ & _ & H). rewrite H in Em by lia. done. }
    destruct (IH (page - 1) hole_end false) as [[-> H]|(H1 & H2 & H3)]; try lia.
    + right. replace (page - 1 + 1) with page by lia. by rewrite Em.
    + left. split; [done|]. intros q Hq. destruct (Z.eq_dec q page) as [->|]; [done|]. apply H; lia.
    + right. split_and!; [lia|done|]. intros q Hq.
      destruct (Z.eq_dec q page) as [->|]; [done|]. apply H3; lia.
  - apply is_mapped_false in Em. rewrite andb_true_r.
    set (he := if in_hole then hole_end else page + 1).
    replace (if negb in_hole then (true, page + 1) else (in_hole, hole_end)) with (true, he)
      by (unfold he; by destruct in_hole).
    assert (Hhe : page < he <= 0xf7ffe /\ he - (page + 1) < size /\
                  (forall q, page <= q < he -> mem_pt m q = None) /\
                  (he = 0xf7ffe \/ mem_pt m he <> None)).
    { unfold he, scanning in *. destruct in_hole.
      - destruct Hs as (? & ? & Hf & ?). split_and!; try done; try lia. intros q Hq.
        destruct (Z.eq_dec q page) as [->|]; [done|apply Hf; lia].
      - split_and!; try lia.
        + intros q Hq. by replace q with page by lia.
        + destruct Hs; [left; lia|by right]. }
    destruct Hhe as (? & ? & Hf & Hend). destruct (Z.eqb_spec (he - page) size) as [Heq|Hne].
    + right. split_and!; [lia| |intros; lia]. split_and!; [lia|lia|].
      intros q Hq. apply Hf. lia.
    + assert (Hno : ~ hole m size page).
      { intros (_ & Hle & Hh). destruct Hend as [->|Hend]; [lia|]. apply Hend, Hh. lia. }
      destruct (IH (page - 1) he true) as [[-> H']|(H1 & H2 & H3)]; try lia.
      * split_and!; try lia; [|done]. intros q Hq. apply Hf. lia.
      * left. split; [done|]. intros q Hq. destruct (Z.eq_dec q page) as [->|]; [done|].
        apply H'; lia.
      * right. split_and!; [lia|done|]. intros q Hq.
        destruct (Z.eq_dec q page) as [->|]; [done|]. apply H3; lia.
Qed.

Lemma hole_not_bad m size p : 1 <= size -> hole m size p -> p <> BAD_PAGE.
Proof. intros ? (? & _) ->. unfold BAD_PAGE in *. lia. Qed.

(** C37: [pt_find_hole] returns the highest run of [size] free pages between
    0x40001 and 0xf7ffd, and [BAD_PAGE] exactly when there is none. *)
Theorem pt_find_hole_spec m size :
  1 <= size ->
  (pt_find_hole m size <> BAD_PAGE -> hole m size (pt_find_hole m size) /\
     pt_is_hole m (pt_find_hole m size) size = true /\
     forall q, hole m size q -> q <= pt_find_hole m size) /\
  (pt_find_hole m size = BAD_PAGE <-> forall q, ~ hole m size q).
Proof.
  intros Hsize. unfold pt_find_hole.
  assert (Htop : forall q, hole m size q -> q <= 0xf7ffd) by (intros q (? & ? & _); lia).
  destruct (find_hole_loop_spec m size (Z.to_nat (0xf7ffd - 0x40000)) 0xf7ffd 0 false)
    as [[-> H]|(H1 & H2 & H3)]; try lia; [by left| |]; split.
  - done.
  - split; [|done]. intros _ q Hq. apply (H q); auto.
  - intros _. split_and!; [done| |].
    + apply all_pages_true. intros p Hp. destruct H2 as (_ & _ & Hf).
      rewrite (proj2 (is_mapped_false m p)); [done|]. apply Hf. lia.
    + intros q Hq. destruct (Z.le_gt_cases q (find_hole_loop (Z.to_nat (0xf7ffd - 0x40000))
        m size 0xf7ffd 0 false)); [done|]. exfalso. apply (H3 q); auto.
  - split; [|intros Hn; by apply Hn in H2]. intros E. apply hole_not_bad in H2; done.
Qed.

Lemma pt_find_hole_spec_witness :
  pt_find_hole mem_init 16 = 0xf7fee /\ hole mem_init 16 (pt_find_hole mem_init 16).
Proof.
  assert (E : pt_find_hole mem_init 16 = 0xf7fee) by (vm_compute; reflexivity).
  split; [exact E|]. apply (pt_find_hole_spec mem_init 16); [lia|rewrite E; discriminate].
Defined.

(** ** Reference counts *)

(** The number of pages of [m] that refer to the object [id]. *)
Definition refs (m : mem) (id : Z) : Z :=
  Z.of_nat (length (filter (fun p => pt_data <$> mem_pt m p = Some id) (seqZ 0 MEM_PAGES))).

Definition refers (e : option pt_entry) (id : Z) : Z := Z.of_nat (ind (pt_data <$> e = Some id)).

Lemma refs_nonneg m id : 0 <= refs m id.
Proof. unfold refs. lia. Qed.

Lemma refs_point m m' page id :
  0 <= page < MEM_PAGES -> (forall q, q <> page -> mem_pt m' q = mem_pt m q) ->
  refs m' id = refs m id - refers (mem_pt m page) id + refers (mem_pt m' page) id.
Proof.
  intros Hp Hq.
  pose proof (count_point (fun p => pt_data <$> mem_pt m p = Some id)
    (fun p => pt_data <$> mem_pt m' p = Some id) (seqZ 0 MEM_PAGES) page) as H.
  unfold refs, refers.
  specialize (H (NoDup_seqZ _ _) ltac:(apply elem_of_seqZ; lia)).
  specialize (H ltac:(intros y Hy; cbv beta; by rewrite Hq)). lia.
Qed.

Lemma refs_same m m' id : (forall q, mem_pt m' q = mem_pt m q) -> refs m' id = refs m id.
Proof.
  intros Hq. unfold refs. do 2 f_equal. apply list_filter_iff. intros p. by rewrite Hq.
Qed.

(** The count depends on the objects mapped, not on offsets and flags. *)
Lemma refs_same_data m m' id :
  (forall q, pt_data <$> mem_pt m' q = pt_data <$> mem_pt m q) -> refs m' id = refs m id.
Proof.
  intros Hq. unfold refs. do 2 f_equal. apply list_filter_iff. intros p. by rewrite Hq.
Qed.

Lemma refs_le m id : refs m id <= MEM_PAGES.
Proof.
  unfold refs. pose proof (length_filter (fun p => pt_data <$> mem_pt m p = Some id) (seqZ 0 MEM_PAGES)) as H.
  rewrite length_seqZ in H. assert (0 <= MEM_PAGES) by (vm_compute; discriminate). lia.
Qed.

Lemma refs_positive m page e :
  0 <= page < MEM_PAGES -> mem_pt m page = Some e -> 0 < refs m (pt_data e).
Proof.
  intros Hp He. unfold refs.
  assert (page ∈ filter (fun p => pt_data <$> mem_pt m p = Some (pt_data e)) (seqZ 0 MEM_PAGES)) as H.
  { apply list_elem_of_filter. rewrite He. split; [done|]. apply elem_of_seqZ. lia. }
  destruct (filter _ _); [by apply not_elem_of_nil in H|]. simpl. lia.
Qed.

Lemma refs_zero m id : (forall q, mem_pt m q = None) -> refs m id = 0.
Proof.
  intros Hq. unfold refs. rewrite (list_filter_iff _ (fun _ => False)).
  - induction (seqZ 0 MEM_PAGES) as [|p l IH]; [done|]. by rewrite filter_cons_False by tauto.
  - intros p. rewrite Hq. done.
Qed.

#[global] Opaque refs.

(** *** The invariant of the object store

    [cnt] is the number of references each object should have; [fresh] exempts
    an object that was just created and has none yet. *)
Record store_ok (vdso : Z) (w : world) (cnt : Z -> Z) (fresh : option Z) : Prop := mk_store_ok {
  so_count : forall id d, datas w !! id = Some d ->
    d_refcount d = cnt id /\ 0 <= cnt id < 2 ^ 32 /\ (0 < cnt id \/ fresh = Some id);
  so_dead : forall id, datas w !! id = None -> cnt id = 0;
  so_block : forall id d, datas w !! id = Some d -> is_Some (blocks w !! d_block d);
  so_owner : forall i j di dj, datas w !! i = Some di -> datas w !! j = Some dj ->
    d_block di = d_block dj -> d_block di <> vdso -> i = j;
}.

(** Objects that live on keep their block and its bytes. *)
Definition survives (w w' : world) : Prop :=
  forall id d', datas w' !! id = Some d' ->
    exists d, datas w !! id = Some d /\ d_block d' = d_block d /\
      blocks w' !! d_block d' = blocks w !! d_block d.

Lemma survives_refl w : survives w w.
Proof. intros id d H. eauto. Qed.

Lemma survives_trans w1 w2 w3 : survives w1 w2 -> survives w2 w3 -> survives w1 w3.
Proof.
  intros H12 H23 id d3 H3. destruct (H23 id d3 H3) as (d2 & H2 & E2 & B2).
  destruct (H12 id d2 H2) as (d1 & H1 & E1 & B1). exists d1. split_and!; congruence.
Qed.

Lemma store_ok_ext vdso w c c' fresh :
  (forall id, c' id = c id) -> store_ok vdso w c fresh -> store_ok vdso w c' fresh.
Proof.
  intros Hc [H1 H2 H3 H4]. split; [|intros; rewrite Hc; auto|done|done].
  intros id d Hd. rewrite Hc. auto.
Qed.

Lemma data_release_ok vdso w cnt fresh id d :
  store_ok vdso w cnt fresh -> datas w !! id = Some d -> 0 < cnt id ->
  store_ok vdso (data_release vdso w id d) (fun i => if decide (i = id) then cnt i - 1 else cnt i) fresh /\
  survives w (data_release vdso w id d).
Proof.
  intros [Hc Hd Hb Ho] Hid Hpos. destruct (Hc id d Hid) as (Hrc & Hr & _).
  unfold data_release. rewrite wrap_small by (unfold in_u; lia).
  destruct (Z.eqb_spec (d_refcount d - 1) 0) as [Hz|Hz].
  - assert (Hsurv : forall i di, i <> id -> datas w !! i = Some di ->
      (if d_block d =? vdso then blocks w else delete (d_block d) (blocks w)) !! d_block di
      = blocks w !! d_block di).
    { intros i di Hne Hi. destruct (Z.eqb_spec (d_block d) vdso); [done|].
      rewrite lookup_delete_ne; [done|]. intros E. apply Hne. symmetry. eapply Ho; eauto. }
    split; [split; simpl|].
    + intros i di Hi. rewrite lookup_delete_Some in Hi. destruct Hi as [Hne Hi].
      rewrite decide_False by congruence. auto.
    + intros i Hi. rewrite lookup_delete_None in Hi. case_decide; [subst; lia|]. destruct Hi; [congruence|auto].
    + intros i di Hi. rewrite lookup_delete_Some in Hi. destruct Hi as [Hne Hi].
      rewrite (Hsurv i di) by congruence || done. eauto.
    + intros i j di dj Hi Hj. rewrite lookup_delete_Some in Hi, Hj. destruct Hi, Hj. eauto.
    + intros i di Hi. simpl in *. rewrite lookup_delete_Some in Hi. destruct Hi as [Hne Hi].
      exists di. split_and!; [done|done|]. apply (Hsurv i); congruence || done.
  - assert (Hlk : forall i di, <[id := set_refcount d (d_refcount d - 1)]> (datas w) !! i = Some di ->
      exists di0, datas w !! i = Some di0 /\ d_block di = d_block di0).
    { intros i di Hi. rewrite lookup_insert_Some in Hi. destruct Hi as [[<- <-]|[_ Hi]]; eauto. }
    split; [split; simpl|].
    + intros i di Hi. rewrite lookup_insert_Some in Hi. destruct Hi as [[<- <-]|[Hne Hi]].
      * rewrite decide_True by done. simpl. split_and!; lia.
      * rewrite decide_False by congruence. auto.
    + intros i Hi. rewrite lookup_insert_None in Hi. destruct Hi as [Hi Hne].
      rewrite decide_False by congruence. auto.
    + intros i di Hi. destruct (Hlk i di Hi) as (di0 & ? & ->). eauto.
    + intros i j di dj Hi Hj. destruct (Hlk i di Hi) as (di0 & ? & ->).
      destruct (Hlk j dj Hj) as (dj0 & ? & ->). eauto.
    + intros i di Hi. simpl in Hi. destruct (Hlk i di Hi) as (di0 & ? & E). exists di0. by rewrite E.
Qed.

Lemma data_retain_ok vdso w cnt fresh id d :
  store_ok vdso w cnt fresh -> datas w !! id = Some d -> cnt id + 1 < 2 ^ 32 ->
  store_ok vdso (data_retain w id) (fun i => if decide (i = id) then cnt i + 1 else cnt i)
    (if decide (fresh = Some id) then None else fresh) /\
  survives w (data_retain w id).
Proof.
  intros [Hc Hd Hb Ho] Hid Hlt. destruct (Hc id d Hid) as (Hrc & Hr & Hpos).
  unfold data_retain. rewrite Hid, wrap_small by (unfold in_u; lia).
  assert (Hlk : forall i di, <[id := set_refcount d (d_refcount d + 1)]> (datas w) !! i = Some di ->
      exists di0, datas w !! i = Some di0 /\ d_block di = d_block di0).
  { intros i di Hi. rewrite lookup_insert_Some in Hi. destruct Hi as [[<- <-]|[_ Hi]]; eauto. }
  split; [split; simpl|].
  - intros i di Hi. rewrite lookup_insert_Some in Hi. destruct Hi as [[<- <-]|[Hne Hi]].
    + rewrite decide_True by done. simpl. split_and!; lia.
    + rewrite decide_False by congruence. destruct (Hc i di Hi) as (? & ? & Hp).
      split_and!; try done; try lia. destruct Hp as [?|Hp]; [by left|]. right.
      rewrite decide_False by congruence. done.
  - intros i Hi. rewrite lookup_insert_None in Hi. destruct Hi as [Hi Hne].
    rewrite decide_False by congruence. auto.
  - intros i di Hi. destruct (Hlk i di Hi) as (di0 & ? & ->). eauto.
  - intros i j di dj Hi Hj. destruct (Hlk i di Hi) as (di0 & ? & ->).
    destruct (Hlk j dj Hj) as (dj0 & ? & ->). eauto.
  - intros i di Hi. simpl in Hi. destruct (Hlk i di Hi) as (di0 & ? & E). exists di0. by rewrite E.
Qed.

(** *** The invariant of an address space

    [ext] counts the references other address spaces hold. *)
Record mem_inv (vdso : Z) (w : world) (m : mem) (ext : Z -> Z) (fresh : option Z) : Prop := mk_mem_inv {
  mi_range : forall p e, mem_pt m p = Some e -> 0 <= p < MEM_PAGES;
  mi_ext : forall id, 0 <= ext id;
  mi_store : store_ok vdso w (fun id => refs m id + ext id) fresh;
}.

Lemma refers_eq e id : refers e id = if decide (pt_data <$> e = Some id) then 1 else 0.
Proof. unfold refers, ind. by case_decide. Qed.

(** Every mapped page refers to a live object. *)
Lemma mapped_live vdso w m ext fresh p e :
  mem_inv vdso w m ext fresh -> mem_pt m p = Some e ->
  exists d, datas w !! pt_data e = Some d /\ is_Some (blocks w !! d_block d).
Proof.
  intros [Hr He Hs] Hp. pose proof (refs_positive m p e (Hr p e Hp) Hp).
  destruct (datas w !! pt_data e) as [d|] eqn:E.
  - exists d. split; [done|]. by eapply so_block.
  - pose proof (so_dead _ _ _ _ Hs _ E). pose proof (He (pt_data e)). simpl in *. lia.
Qed.

Definition unmapped_at (m m' : mem) (page : Z) : Prop :=
  forall q, mem_pt m' q = if decide (page = q) then None else mem_pt m q.

Lemma unmap_page_ok vdso w m ext fresh page :
  mem_inv vdso w m ext fresh ->
  mem_inv vdso (unmap_page vdso w m page).1 (unmap_page vdso w m page).2 ext fresh /\
  unmapped_at m (unmap_page vdso w m page).2 page /\
  survives w (unmap_page vdso w m page).1.
Proof.
  intros Hinv. pose proof Hinv as [Hr He Hs]. unfold unmap_page.
  destruct (mem_pt m page) as [pt|] eqn:Ep; simpl.
  - destruct (mapped_live _ _ _ _ _ _ _ Hinv Ep) as (d & Hd & _). rewrite Hd. simpl.
    pose proof (Hr page pt Ep) as Hpage. pose proof (refs_positive m page pt Hpage Ep) as Hpos.
    destruct (data_release_ok vdso w (fun id => refs m id + ext id) fresh (pt_data pt) d Hs Hd)
      as [Hs' Hsv]; [specialize (He (pt_data pt)); lia|].
    split; [|split; [intros q; apply mem_pt_del_lookup|done]]. split.
    + intros p e. rewrite mem_pt_del_lookup. case_decide; [done|apply Hr].
    + done.
    + eapply store_ok_ext; [|exact Hs']. intros id. simpl.
      rewrite (refs_point m (mem_pt_del m page) page) by
        (done || (intros q Hq; rewrite mem_pt_del_lookup, decide_False by congruence; done)).
      rewrite mem_pt_del_lookup, decide_True, Ep by done. rewrite !refers_eq. simpl.
      destruct (decide (id = pt_data pt)) as [->|Hne].
      * rewrite decide_True by done. lia.
      * rewrite decide_False by congruence. lia.
  - split; [done|]. split; [|apply survives_refl]. intros q. case_decide; congruence.
Qed.

(** [pt_unmap_always] visits every mapped page of the range. *)
Lemma unmap_loop_ok vdso fuel : forall w m ext fresh page stop,
  mem_inv vdso w m ext fresh -> stop - page <= Z.of_nat fuel ->
  let r := unmap_loop vdso fuel w m page stop in
  mem_inv vdso r.1 r.2 ext fresh /\ survives w r.1 /\
  forall q, mem_pt r.2 q = if decide (page <= q < stop) then None else mem_pt m q.
Proof.
  induction fuel as [|fuel IH]; intros w m ext fresh page stop Hinv Hf; simpl.
  { split_and!; [done|apply survives_refl|]. intros q. rewrite decide_False by lia. done. }
  destruct (Z.ltb_spec page stop); simpl.
  2:{ split_and!; [done|apply survives_refl|]. intros q. rewrite decide_False by lia. done. }
  destruct (unmap_page_ok vdso w m ext fresh page Hinv) as (Hinv1 & Hu & Hsv).
  destruct (unmap_page vdso w m page) as [w1 m1]. simpl in *.
  destruct (mem_next_page_spec m1 page) as [Hn1 Hn2].
  destruct (IH w1 m1 ext fresh (mem_next_page m1 page) stop Hinv1 ltac:(lia)) as (? & ? & Hq).
  split_and!; [done|by eapply survives_trans|]. intros q. rewrite Hq.
  destruct (decide (page <= q < stop)) as [Hin|Hout].
  - case_decide; [done|]. destruct (Z.eq_dec q page) as [->|].
    + by rewrite Hu, decide_True.
    + apply Hn2. lia.
  - rewrite decide_False by lia. rewrite Hu, decide_False by lia. done.
Qed.

Lemma mem_inv_same vdso w m m' ext fresh :
  (forall q, mem_pt m' q = mem_pt m q) -> mem_inv vdso w m ext fresh -> mem_inv vdso w m' ext fresh.
Proof.
  intros Hq [Hr He Hs]. split; [intros p e; rewrite Hq; apply Hr|done|].
  eapply store_ok_ext; [|exact Hs]. intros id. simpl. by rewrite (refs_same m m').
Qed.

Lemma pt_unmap_always_ok vdso w m ext fresh start pages :
  mem_inv vdso w m ext fresh -> 0 <= pages ->
  exists w' m', pt_unmap_always vdso w m start pages = (0, w', m') /\
    mem_inv vdso w' m' ext fresh /\ survives w w' /\
    forall q, mem_pt m' q = if decide (start <= q < start + pages) then None else mem_pt m q.
Proof.
  intros Hinv Hp. unfold pt_unmap_always.
  destruct (unmap_loop_ok vdso (Z.to_nat pages) w m ext fresh start (start + pages) Hinv ltac:(lia))
    as (Hi & Hsv & Hq).
  destruct (unmap_loop vdso (Z.to_nat pages) w m start (start + pages)) as [w' m'].
  exists w', (mem_changed m'). split_and!; try done. by apply (mem_inv_same _ _ m').
Qed.

(** ** Mapping *)

Lemma unmap_page_frame vdso w m page id :
  pt_data <$> mem_pt m page <> Some id ->
  datas (unmap_page vdso w m page).1 !! id = datas w !! id.
Proof.
  intros Hne. unfold unmap_page. destruct (mem_pt m page) as [pt|]; [|done].
  simpl in Hne. destruct (datas w !! pt_data pt) as [d|]; [|done]. simpl. unfold data_release.
  destruct (_ =? 0); simpl; [by rewrite lookup_delete_ne by congruence|].
  by rewrite lookup_insert_ne by congruence.
Qed.

(** Making room for one page, as [pt_map] does. *)
Lemma pt_unmap_1 vdso w m page :
  (if is_mapped m page then let '(_, w, m) := pt_unmap vdso w m page 1 in (w, m) else (w, m)) =
  (if is_mapped m page then ((unmap_page vdso w m page).1, mem_changed (unmap_page vdso w m page).2)
   else (w, m)).
Proof.
  destruct (is_mapped m page) eqn:E; [|done]. unfold pt_unmap. simpl. rewrite E. simpl.
  unfold pt_unmap_always. change (Z.to_nat 1) with 1%nat. simpl.
  destruct (Z.ltb_spec page (page + 1)); [|lia].
  by destruct (unmap_page vdso w m page) as [w1 m1].
Qed.

(** Giving a free page a reference to a live object. *)
Lemma map_page_ok vdso w m ext fresh page e d :
  mem_inv vdso w m ext fresh -> 0 <= page < MEM_PAGES -> mem_pt m page = None ->
  datas w !! pt_data e = Some d -> refs m (pt_data e) + ext (pt_data e) + 1 < 2 ^ 32 ->
  mem_inv vdso (data_retain w (pt_data e)) (mem_pt_new m page e) ext
    (if decide (fresh = Some (pt_data e)) then None else fresh) /\
  survives w (data_retain w (pt_data e)) /\
  refs (mem_pt_new m page e) (pt_data e) = refs m (pt_data e) + 1.
Proof.
  intros [Hr He Hs] Hp Hfree Hd Hlt.
  assert (Hrefs : forall i, refs (mem_pt_new m page e) i = if decide (i = pt_data e) then refs m i + 1 else refs m i).
  { intros i. rewrite (refs_point m (mem_pt_new m page e) page) by
      (done || (intros q Hq; rewrite mem_pt_new_lookup, decide_False by congruence; done)).
    rewrite Hfree, mem_pt_new_lookup, decide_True, !refers_eq by done. simpl.
    destruct (decide (i = pt_data e)) as [->|Hne].
    - rewrite decide_True by done. lia.
    - rewrite decide_False by congruence. lia. }
  destruct (data_retain_ok vdso w (fun id => refs m id + ext id) fresh (pt_data e) d Hs Hd Hlt)
    as [Hs' Hsv].
  split; [|split; [done|by rewrite Hrefs, decide_True]]. split; [|done|].
  - intros p e'. rewrite mem_pt_new_lookup. destruct (decide (page = p)) as [<-|]; [done|apply Hr].
  - eapply store_ok_ext; [|exact Hs']. intros i. simpl. rewrite Hrefs. destruct (decide (i = pt_data e)); lia.
Qed.

Lemma map_loop_ok vdso id start offset flags ext n : forall w m fresh page d,
  mem_inv vdso w m ext fresh -> fresh = None \/ fresh = Some id ->
  datas w !! id = Some d -> 0 <= page -> page + Z.of_nat n <= MEM_PAGES ->
  refs m id + ext id + Z.of_nat n < 2 ^ 32 ->
  (forall q, page <= q < page + Z.of_nat n -> pt_data <$> mem_pt m q <> Some id) ->
  let r := map_loop vdso n w m id start page offset flags in
  mem_inv vdso r.1 r.2 ext (match n with O => fresh | S _ => None end) /\ survives w r.1 /\
  (exists d', datas r.1 !! id = Some d' /\ d_block d' = d_block d) /\
  forall q, mem_pt r.2 q =
    if decide (page <= q < page + Z.of_nat n)
    then Some (mk_pt id (u64 (u32 (Z.shiftl (q - start) PAGE_BITS) + offset)) flags) else mem_pt m q.
Proof.
  induction n as [|n IH]; intros w m fresh page d Hinv Hfr Hd Hp0 Hpn Hlt Hnew; simpl.
  { split_and!; [done|apply survives_refl|eauto|]. intros q. rewrite decide_False by lia. done. }
  rewrite pt_unmap_1.
  set (e := mk_pt id (u64 (u32 (Z.shiftl (page - start) PAGE_BITS) + offset)) flags).
  set (wm := if is_mapped m page then _ else _).
  assert (H1 : mem_inv vdso wm.1 wm.2 ext fresh /\ unmapped_at m wm.2 page /\ survives w wm.1 /\
               datas wm.1 !! id = Some d).
  { unfold wm. destruct (is_mapped m page) eqn:Em; simpl.
    - destruct (unmap_page_ok vdso w m ext fresh page Hinv) as (Hi & Hu & Hsv).
      split_and!; [by apply (mem_inv_same _ _ (unmap_page vdso w m page).2)|done|done|].
      rewrite unmap_page_frame by (apply Hnew; lia). done.
    - apply is_mapped_false in Em. split_and!; [done| |apply survives_refl|done].
      intros q. case_decide; congruence. }
  destruct wm as [w1 m1]. simpl in H1. destruct H1 as (Hinv1 & Hu & Hsv1 & Hd1).
  assert (Hrid : refs m1 id = refs m id).
  { rewrite (refs_point m m1 page) by (lia || (intros q Hq; rewrite Hu, decide_False by congruence; done)).
    rewrite Hu, decide_True by done. rewrite !refers_eq, decide_False by (apply Hnew; lia).
    simpl. lia. }
  destruct (map_page_ok vdso w1 m1 ext fresh page e d Hinv1 ltac:(lia)
    ltac:(by rewrite Hu, decide_True) Hd1 ltac:(cbn [pt_data e]; lia)) as (Hinv2 & Hsv2 & Hr2).
  cbn [pt_data e] in Hinv2, Hsv2, Hr2.
  replace (if decide (fresh = Some id) then None else fresh) with (@None Z) in Hinv2
    by (destruct Hfr as [-> | ->]; [done|by rewrite decide_True]).
  assert (Hd2 : exists d2, datas (data_retain w1 id) !! id = Some d2 /\ d_block d2 = d_block d).
  { unfold data_retain. rewrite Hd1. simpl. rewrite lookup_insert_eq. eauto. }
  destruct Hd2 as (d2 & Hd2 & Hblk).
  destruct (IH (data_retain w1 id) (mem_pt_new m1 page e) None (page + 1) d2
    Hinv2 (or_introl eq_refl) Hd2 ltac:(lia) ltac:(lia) ltac:(lia))
    as (Hi & Hsv3 & (d3 & ? & ?) & Hq).
  { intros q Hq. rewrite mem_pt_new_lookup, decide_False, Hu, decide_False by lia. apply Hnew. lia. }
  split_and!.
  - by destruct n.
  - by do 2 (eapply survives_trans; [done|]).
  - exists d3. split; congruence.
  - intros q. rewrite Hq. destruct (decide (page <= q < page + Z.of_nat (S n))).
    + destruct (Z.eq_dec q page) as [->|].
      * rewrite decide_False, mem_pt_new_lookup, decide_True by lia || done. done.
      * rewrite decide_True by lia. done.
    + rewrite decide_False, mem_pt_new_lookup, decide_False, Hu, decide_False by lia. done.
Qed.

(** An object id that is not in use has no references anywhere. *)
Lemma unused_id vdso w m ext fresh id :
  mem_inv vdso w m ext fresh -> datas w !! id = None ->
  refs m id = 0 /\ ext id = 0 /\ forall q, pt_data <$> mem_pt m q <> Some id.
Proof.
  intros Hinv Hid. pose proof Hinv as [Hr He Hs]. pose proof (so_dead _ _ _ _ Hs id Hid) as Hz.
  cbv beta in Hz. specialize (He id). pose proof (refs_nonneg m id). split_and!; try lia.
  intros q Hq. destruct (mem_pt m q) as [e|] eqn:Eq; [|done]. simpl in Hq.
  destruct (mapped_live _ _ _ _ _ _ _ Hinv Eq) as (d & Hd & _). congruence.
Qed.

(** Creating the object of a new mapping. *)
Lemma new_data_ok vdso w m ext id b size :
  mem_inv vdso w m ext None -> datas w !! id = None -> is_Some (blocks w !! b) ->
  (forall i d, datas w !! i = Some d -> d_block d <> b \/ b = vdso) ->
  mem_inv vdso (mk_world (blocks w) (<[id := mk_data b size 0 None]> (datas w)) (closed w)) m ext (Some id).
Proof.
  intros Hinv Hid Hb Hown. destruct (unused_id _ _ _ _ _ _ Hinv Hid) as (Hz & Hze & _).
  destruct Hinv as [Hr He [Hc Hd Hbl Ho]]. split; [done|done|]. split; simpl.
  - intros i d Hi. rewrite lookup_insert_Some in Hi. destruct Hi as [[<- <-]|[Hne Hi]].
    + simpl. rewrite Hz, Hze. split_and!; [lia|lia|lia|by right].
    + destruct (Hc i d Hi) as (? & ? & [?|?]); [|done]. split_and!; try done; try lia.
  - intros i Hi. rewrite lookup_insert_None in Hi. destruct Hi. auto.
  - intros i d Hi. rewrite lookup_insert_Some in Hi. destruct Hi as [[<- <-]|[Hne Hi]]; eauto.
  - intros i j di dj Hi Hj Heq Hnv. rewrite lookup_insert_Some in Hi, Hj.
    destruct Hi as [[<- <-]|[Hi1 Hi]], Hj as [[<- <-]|[Hj1 Hj]]; simpl in *; [done| | |eauto].
    + destruct (Hown j dj Hj); congruence.
    + destruct (Hown i di Hi); congruence.
Qed.

(** The effect of a successful [pt_map] on the page table and the store. *)
Record mapped_by (w : world) (m : mem) (start pages id b offset flags : Z)
    (w' : world) (m' : mem) : Prop := mk_mapped_by {
  mb_pt : forall q, mem_pt m' q =
    if decide (start <= q < start + pages)
    then Some (mk_pt id (Z.shiftl (q - start) PAGE_BITS + offset) flags) else mem_pt m q;
  mb_data : exists d, datas w' !! id = Some d /\ d_block d = b;
  mb_block : blocks w' !! b = blocks w !! b;
  mb_others : forall i d', i <> id -> datas w' !! i = Some d' ->
    exists d, datas w !! i = Some d /\ d_block d' = d_block d /\
      blocks w' !! d_block d' = blocks w !! d_block d;
}.

(** May the block be mapped: does it start a host page, or is it the vdso? *)
Definition aligned_block {PS : PageSize} (vdso b : Z) : Prop := b mod real_page_size = 0 \/ b = vdso.

Section Mapping.
Context {PS : PageSize}.

Lemma aligned_check vdso b :
  aligned_block vdso b -> negb ((b mod real_page_size =? 0) || (b =? vdso)) = false.
Proof. intros [H|H]; apply Z.eqb_eq in H; by rewrite H, ?orb_true_r. Qed.

(** Offsets of pages below [MEM_PAGES] do not wrap. *)
Lemma page_offset_small k pages offset :
  0 <= k < pages -> pages <= MEM_PAGES -> 0 <= offset -> pages * PAGE_SIZE + offset < 2 ^ 64 ->
  u64 (u32 (Z.shiftl k PAGE_BITS) + offset) = Z.shiftl k PAGE_BITS + offset.
Proof.
  intros Hk Hp Ho Hb. change MEM_PAGES with 1048576 in Hp. change PAGE_SIZE with 4096 in Hb. unfold PAGE_BITS.
  rewrite Z.shiftl_mul_pow2 by lia. change (2 ^ 12) with 4096. rewrite (wrap_small 32) by (unfold in_u; lia). apply wrap_small. unfold in_u. lia.
Qed.

Lemma pt_map_ok vdso w m ext start pages b id offset flags :
  mem_inv vdso w m ext None -> 0 <= start -> 1 <= pages -> start + pages <= MEM_PAGES ->
  0 <= offset -> pages * PAGE_SIZE + offset < 2 ^ 64 -> aligned_block vdso b ->
  datas w !! id = None -> is_Some (blocks w !! b) ->
  (forall i d, datas w !! i = Some d -> d_block d <> b \/ b = vdso) ->
  exists w' m', pt_map vdso w m start pages (inr b) (Some id) offset flags = Some (0, w', m') /\
    mem_inv vdso w' m' ext None /\ mapped_by w m start pages id b offset flags w' m'.
Proof.
  intros Hinv Hs Hp Hend Ho Hob Hal Hid Hb Hown. unfold pt_map. rewrite aligned_check by done.
  set (w1 := mk_world _ _ _).
  pose proof (new_data_ok vdso w m ext id b (u64 (u32 (pages * PAGE_SIZE) + offset)) Hinv Hid Hb Hown) as Hinv1.
  destruct (unused_id _ _ _ _ _ _ Hinv Hid) as (Hz & Hze & Hno).
  assert (HM : MEM_PAGES = 1048576) by reflexivity.
  destruct (map_loop_ok vdso id start offset flags ext (Z.to_nat pages) w1 m (Some id) start
    (mk_data b (u64 (u32 (pages * PAGE_SIZE) + offset)) 0 None) Hinv1 (or_intror eq_refl)
    ltac:(apply lookup_insert_eq) Hs ltac:(lia) ltac:(lia) ltac:(intros; apply Hno))
    as (Hi & Hsv & (d' & Hd' & Hblk) & Hq).
  destruct (map_loop vdso (Z.to_nat pages) w1 m id start start offset flags) as [w' m'].
  cbn [fst snd] in *. exists w', m'. split; [done|]. split.
  - by destruct (Z.to_nat pages) eqn:E; [lia|].
  - split.
    + intros q. rewrite Hq, Z2Nat.id by lia. case_decide; [|done]. by rewrite (page_offset_small (q - start) pages) by lia.
    + exists d'. done.
    + destruct (Hsv id d' Hd') as (d & _ & E & Hbb). rewrite <- E, Hblk in Hbb. exact Hbb.
    + intros i di Hne Hi2. destruct (Hsv i di Hi2) as (d & Hd & ? & ?). cbn [datas w1] in Hd.
      rewrite lookup_insert_ne in Hd by congruence. eauto.
Qed.

(** C11: [pt_map], in every case.  A failed [mmap] is reported and nothing
    changes; a block that does not start a host page, unless it is the vdso,
    trips the assertion; without memory for the object the answer is
    [_ENOMEM] and nothing changes.  Otherwise, on a valid range, exactly that
    range is replaced by the new mapping, the references of the mappings it
    overwrites are dropped (objects that lose their last one are freed), and
    every object's reference count stays the number of pages that refer to
    it. *)
Theorem pt_map_spec vdso w m ext start pages memory new offset flags :
  mem_inv vdso w m ext None -> 0 <= start -> 1 <= pages -> start + pages <= MEM_PAGES ->
  0 <= offset -> pages * PAGE_SIZE + offset < 2 ^ 64 ->
  (forall id, new = Some id -> datas w !! id = None) ->
  (forall b, memory = inr b -> is_Some (blocks w !! b) /\
     forall i d, datas w !! i = Some d -> d_block d <> b \/ b = vdso) ->
  match memory, new with
  | inl err, _ => pt_map vdso w m start pages memory new offset flags = Some (err, w, m)
  | inr b, _ =>
      (~ aligned_block vdso b /\ pt_map vdso w m start pages memory new offset flags = None) \/
      (aligned_block vdso b /\
       match new with
       | None => pt_map vdso w m start pages memory new offset flags = Some (_ENOMEM, w, m)
       | Some id => exists w' m',
           pt_map vdso w m start pages memory new offset flags = Some (0, w', m') /\
           mem_inv vdso w' m' ext None /\ mapped_by w m start pages id b offset flags w' m'
       end)
  end.
Proof.
  intros Hinv Hs Hp Hend Ho Hob Hnew Hmem. destruct memory as [err|b]; [by destruct new|].
  destruct (Hmem b eq_refl) as [Hb Hown].
  destruct (decide (b mod real_page_size = 0 \/ b = vdso)) as [Ha|Ha].
  - destruct new as [id|]; (right; split; [done|]); [by apply pt_map_ok; auto|].
    unfold pt_map. by rewrite aligned_check.
  - destruct new; (left; split; [done|]); unfold pt_map;
      (destruct (Z.eqb_spec (b mod real_page_size) 0); [tauto|]); (destruct (Z.eqb_spec b vdso); [tauto|done]).
Qed.

End Mapping.

Lemma mem_init_inv vdso w :
  datas w = ∅ -> mem_inv vdso w mem_init (fun _ => 0) None.
Proof.
  intros Hw. assert (Hno : forall q, mem_pt mem_init q = None).
  { intros q. unfold mem_pt, mem_init. simpl. by rewrite lookup_empty. }
  split.
  - intros p e. by rewrite Hno.
  - done.
  - split; rewrite Hw.
    + intros id d. by rewrite lookup_empty.
    + intros id _. cbv beta. by rewrite (refs_zero mem_init id Hno).
    + intros id d. by rewrite lookup_empty.
    + intros i j di dj. by rewrite lookup_empty.
Qed.

Definition demo_world : world := mk_world {[0x7000 := replicate (Z.to_nat 8192) 0]} ∅ [].

(** A host with pages of the size of the guest's. *)
Definition small_pages : PageSize := 4096.
#[local] Existing Instance small_pages.

Lemma pt_map_spec_witness :
  (exists w' m', pt_map 0 demo_world mem_init 0x400 2 (inr 0x7000) (Some 1) 0 P_WRITE = Some (0, w', m') /\
    mem_inv 0 w' m' (fun _ => 0) None /\
    mapped_by demo_world mem_init 0x400 2 1 0x7000 0 P_WRITE w' m') /\
  pt_map 0 demo_world mem_init 0x400 2 (inr 0x7000) None 0 P_WRITE = Some (_ENOMEM, demo_world, mem_init).
Proof.
  assert (H : forall new, (forall id : Z, new = Some id -> datas demo_world !! id = None) /\
    forall b : Z, @inr Z Z 0x7000 = inr b -> is_Some (blocks demo_world !! b) /\
      forall i d, datas demo_world !! i = Some d -> d_block d <> b \/ b = 0).
  { intros new. split; [intros id _; apply lookup_empty|]. intros b [= <-]. split.
    - exists (replicate (Z.to_nat 8192) 0). apply lookup_singleton_eq.
    - intros i d Hi. exfalso. unfold demo_world in Hi. cbn [datas] in Hi. rewrite lookup_empty in Hi. discriminate. }
  assert (Hb : 2 * PAGE_SIZE + 0 < 2 ^ 64) by (vm_compute; reflexivity).
  assert (He : 0x400 + 2 <= MEM_PAGES) by (vm_compute; discriminate).
  split.
  - destruct (pt_map_spec 0 demo_world mem_init (fun _ => 0) 0x400 2 (inr 0x7000) (Some 1) 0 P_WRITE
      (mem_init_inv 0 demo_world eq_refl) ltac:(lia) ltac:(lia) He ltac:(lia) Hb (proj1 (H (Some 1))) (proj2 (H (Some 1))))
      as [[Ha _]|[_ Hr]]; [exfalso; apply Ha; left; reflexivity|exact Hr].
  - destruct (pt_map_spec 0 demo_world mem_init (fun _ => 0) 0x400 2 (inr 0x7000) None 0 P_WRITE
      (mem_init_inv 0 demo_world eq_refl) ltac:(lia) ltac:(lia) He ltac:(lia) Hb (proj1 (H None)) (proj2 (H None)))
      as [[Ha _]|[_ Hr]]; [exfalso; apply Ha; left; reflexivity|exact Hr].
Defined.

(** ** Tearing an address space down *)

(** Page directories are where [mem_destroy] looks for them. *)
Definition dirs_ok (m : mem) : Prop := forall i, is_Some (pgdir m !! i) -> 0 <= i < MEM_PGDIR_SIZE.

Lemma pgdir_top_range p : 0 <= p < MEM_PAGES -> 0 <= PGDIR_TOP p < MEM_PGDIR_SIZE.
Proof.
  change MEM_PAGES with 1048576. change MEM_PGDIR_SIZE with 1024. pose proof (pgdir_split p). pose proof (pgdir_bottom_range p). lia.
Qed.
Lemma dirs_init : dirs_ok mem_init.
Proof. intros i [? Hi]. unfold mem_init in Hi. cbn in Hi. by rewrite lookup_empty in Hi. Qed.
Lemma dirs_new m page e : dirs_ok m -> 0 <= page < MEM_PAGES -> dirs_ok (mem_pt_new m page e).
Proof.
  intros Hd Hp i. unfold mem_pt_new.
  destruct (pgdir m !! PGDIR_TOP page); cbn; (destruct (decide (PGDIR_TOP page = i)) as [<-|]; [intros _; by apply pgdir_top_range|]);
    rewrite lookup_insert_ne by done; apply Hd.
Qed.
Lemma dirs_unmap_page vdso w m page : dirs_ok m -> dirs_ok (unmap_page vdso w m page).2.
Proof.
  intros Hd. unfold unmap_page. destruct (mem_pt m page); [|done].
  assert (dirs_ok (mem_pt_del m page)) as H; [|by destruct (datas w !! _)].
  unfold mem_pt_del. destruct (pgdir m !! PGDIR_TOP page) eqn:E; [|done]. intros i. cbn.
  destruct (decide (PGDIR_TOP page = i)) as [<-|]; [intros _; apply Hd; by rewrite E|]. rewrite lookup_insert_ne by done. apply Hd.
Qed.
Lemma dirs_unmap_loop vdso fuel : forall w m page stop, dirs_ok m -> dirs_ok (unmap_loop vdso fuel w m page stop).2.
Proof.
  induction fuel as [|fuel IH]; intros w m page stop Hd; cbn [unmap_loop]; [done|]. destruct (page <? stop); [|done].
  pose proof (dirs_unmap_page vdso w m page Hd) as H. destruct (unmap_page vdso w m page) as [w1 m1]. by apply IH.
Qed.
Lemma dirs_map_loop vdso id start offset flags n : forall w m page, dirs_ok m -> 0 <= page -> page + Z.of_nat n <= MEM_PAGES ->
  dirs_ok (map_loop vdso n w m id start page offset flags).2.
Proof.
  induction n as [|n IH]; intros w m page Hd Hp Hn; cbn [map_loop]; [done|]. rewrite pt_unmap_1.
  assert (dirs_ok (if is_mapped m page then ((unmap_page vdso w m page).1, mem_changed (unmap_page vdso w m page).2) else (w, m)).2) as H.
  { destruct (is_mapped m page); [|done]. cbn [snd]. by apply (dirs_unmap_page vdso w m page). }
  destruct (if is_mapped m page then _ else _) as [w1 m1]. cbn [snd] in H. apply IH; [|lia|lia]. apply dirs_new; [done|lia].
Qed.

Lemma foldl_delete {A} (l : list Z) : forall (dirs : gmap Z A) i, foldl (fun dirs i => delete i dirs) dirs l !! i = if decide (i ∈ l) then None else dirs !! i.
Proof.
  induction l as [|j l IH]; intros dirs i; cbn [foldl]; [done|]. rewrite IH. destruct (decide (i ∈ l)).
  - by rewrite decide_True by by right.
  - destruct (decide (i = j)) as [->|Hne]; [rewrite decide_True by left; apply lookup_delete_eq|].
    rewrite decide_False by (rewrite elem_of_cons; tauto). by rewrite lookup_delete_ne.
Qed.
Lemma free_dirs_all m : dirs_ok m -> pgdir (free_dirs m) = ∅.
Proof.
  intros Hd. apply map_eq. intros i. unfold free_dirs. cbn [pgdir]. rewrite foldl_delete, lookup_empty. case_decide as Hin; [done|].
  destruct (pgdir m !! i) eqn:E; [|done]. exfalso. apply Hin, elem_of_seqZ. specialize (Hd i ltac:(by rewrite E)). lia.
Qed.

(** What releasing references does to the store, from the world [w0] on: the
    objects that are gone gave their block back, except the vdso, and their
    file was closed once. *)
Record releases (vdso : Z) (w0 w : world) : Prop := mk_releases {
  rl_living : forall id d, datas w !! id = Some d -> exists d0, datas w0 !! id = Some d0 /\ d = set_refcount d0 (d_refcount d);
  rl_freed : forall id d0, datas w0 !! id = Some d0 -> datas w !! id = None -> d_block d0 <> vdso -> blocks w !! d_block d0 = None;
  rl_blocks : forall b, (forall id d0, datas w0 !! id = Some d0 -> datas w !! id = None -> d_block d0 = b -> b = vdso) -> blocks w !! b = blocks w0 !! b;
  rl_closed : closed w ≡ₚ closed w0 ++ omap (fun x => d_fd x.2) (map_to_list (datas w0 ∖ datas w));
}.

Lemma releases_refl vdso w : releases vdso w w.
Proof.
  split; [|congruence|done|by rewrite map_difference_diag, map_to_list_empty, app_nil_r].
  intros id d Hd. exists d. split; [done|]. by destruct d.
Qed.

Lemma releases_step vdso w0 w id d cnt fresh : releases vdso w0 w -> store_ok vdso w cnt fresh -> datas w !! id = Some d -> releases vdso w0 (data_release vdso w id d).
Proof.
  intros [Hl Hf Hb Hc] Hs Hd. destruct (Hl id d Hd) as (d0 & Hd0 & E). unfold data_release. destruct (_ =? 0); cbv zeta.
  - assert (d_block d = d_block d0) as Eb by (by rewrite E). assert (d_fd d = d_fd d0) as Efd by (by rewrite E).
    split; cbn [datas blocks closed].
    + intros i di. rewrite lookup_delete_Some. intros [_ Hi]. by apply Hl.
    + intros i di Hi Hn Hnv. destruct (decide (i = id)) as [->|Hne].
      * rewrite Hi in Hd0. injection Hd0 as ->. rewrite <- Eb in Hnv |- *. rewrite (proj2 (Z.eqb_neq _ _) Hnv). apply lookup_delete_eq.
      * rewrite lookup_delete_ne in Hn by done. specialize (Hf i di Hi Hn Hnv). destruct (_ =? _); [done|]. apply lookup_delete_None. by right.
    + intros b Hno. rewrite <- Hb.
      * destruct (Z.eqb_spec (d_block d) vdso) as [|Hnv]; [done|]. rewrite lookup_delete_ne; [done|]. intros <-.
        apply Hnv. apply (Hno id d0); [done|apply lookup_delete_eq|by rewrite Eb].
      * intros i di Hi Hn. apply (Hno i di Hi). rewrite lookup_delete_None. by right.
    + assert (datas w0 ∖ delete id (datas w) = <[id := d0]> (datas w0 ∖ datas w)) as ->.
      { apply map_eq. intros i. destruct (decide (i = id)) as [->|Hne].
        - rewrite lookup_insert_eq, lookup_difference, lookup_delete_eq. done.
        - rewrite lookup_insert_ne, !lookup_difference, lookup_delete_ne by done. done. }
      rewrite map_to_list_insert by (rewrite lookup_difference, Hd; done). cbn [omap list_omap snd]. rewrite Efd. destruct (d_fd d0) as [fd|]; rewrite Hc; [|done].
      rewrite <- app_assoc. apply Permutation_app_head. apply (Permutation_app_comm _ [fd]).
  - split; cbn [datas blocks closed].
    + intros i di. rewrite lookup_insert_Some. intros [[<- <-]|[_ Hi]]; [|by apply Hl]. exists d0. split; [done|]. by rewrite E.
    + intros i di Hi. rewrite lookup_insert_None. intros [Hn _]. by eapply Hf.
    + intros b Hno. apply Hb. intros i di Hi Hn. apply (Hno i di Hi). rewrite lookup_insert_None. split; [done|]. intros ->. congruence.
    + rewrite Hc. assert (datas w0 ∖ <[id := set_refcount d (u32 (d_refcount d - 1))]> (datas w) = datas w0 ∖ datas w) as ->; [|done].
      apply map_eq. intros i. rewrite !lookup_difference. destruct (decide (id = i)) as [<-|]; [by rewrite lookup_insert_eq, Hd|by rewrite lookup_insert_ne].
Qed.

Lemma unmap_loop_releases vdso w0 fuel : forall w m ext fresh page stop, mem_inv vdso w m ext fresh -> releases vdso w0 w ->
  releases vdso w0 (unmap_loop vdso fuel w m page stop).1.
Proof.
  induction fuel as [|fuel IH]; intros w m ext fresh page stop Hinv Hr; cbn [unmap_loop]; [done|]. destruct (page <? stop); [|done].
  destruct (unmap_page_ok vdso w m ext fresh page Hinv) as (Hinv1 & _ & _).
  assert (releases vdso w0 (unmap_page vdso w m page).1) as H1.
  { unfold unmap_page. destruct (mem_pt m page) as [e|]; [|done]. destruct (datas w !! pt_data e) as [d|] eqn:Ed; [|done].
    cbn [fst]. eapply releases_step; [done|by apply Hinv|done]. }
  destruct (unmap_page vdso w m page) as [w1 m1]. by eapply IH.
Qed.



(** [pt_unmap] either finds a page of the range unmapped, returns -1 and
    changes nothing, or unmaps exactly the range, bumps the change counter the
    TLBs watch, and keeps the reference counts exact. *)
Theorem pt_unmap_spec vdso w m ext start pages :
  mem_inv vdso w m ext None -> 0 <= pages ->
  let '(code, w', m') := pt_unmap vdso w m start pages in
  if bool_decide (code = 0) then
    (forall p, start <= p < start + pages -> mem_pt m p <> None) /\
    (forall q, mem_pt m' q = if decide (start <= q < start + pages) then None else mem_pt m q) /\
    mem_inv vdso w' m' ext None /\ survives w w'
  else code = -1 /\ w' = w /\ m' = m /\
    exists p, start <= p < start + pages /\ mem_pt m p = None.
Proof.
  intros Hinv Hp. unfold pt_unmap.
  destruct (all_pages (is_mapped m) start (Z.to_nat pages)) eqn:E.
  - destruct (pt_unmap_always_ok vdso w m ext None start pages Hinv Hp) as (w' & m' & -> & ? & ? & ?).
    rewrite bool_decide_eq_true_2 by done. split_and!; try done. intros p Hr.
    rewrite all_pages_true in E. specialize (E p ltac:(lia)). apply is_mapped_true in E as [e ->]. done.
  - rewrite bool_decide_eq_false_2 by done. split_and!; try done.
    apply all_pages_false in E as (p & ? & ?%is_mapped_false). exists p. split; [lia|done].
Qed.

Lemma pt_unmap_spec_witness :
  pt_unmap 0 demo_world mem_init 5 3 = (-1, demo_world, mem_init) /\
  (-1 = -1 /\ demo_world = demo_world /\ mem_init = mem_init /\
   exists p, 5 <= p < 5 + 3 /\ mem_pt mem_init p = None).
Proof.
  split; [reflexivity|].
  apply (pt_unmap_spec 0 demo_world mem_init (fun _ => 0) 5 3); [by apply mem_init_inv|lia].
Defined.

End Memory.
