(* ===== verification/Cow.v ===== *)
(** * Copy-on-write: fork's page table copy and the page fault path

    Theorems on [pt_copy_on_write], [pt_set_flags], [pt_map_nothing] and
    [mem_ptr] of kernel/memory.c as modelled in Memory.v. *)

From stdpp Require Import gmap.
From S2P Require Import Prelude Errno Memory.

Module Cow.
Import Memory.

(** ** Page flags *)

Lemma has_testbit f k : 0 <= k -> has f (2 ^ k) = Z.testbit f k.
Proof.
  intros Hk. unfold has, ctrue. destruct (Z.testbit f k) eqn:E.
  - destruct (Z.eqb_spec (Z.land f (2 ^ k)) 0) as [H|H]; [|done].
    assert (Z.testbit (Z.land f (2 ^ k)) k = true) as T.
    { rewrite Z.land_spec, E, Z.pow2_bits_true by done. done. }
    rewrite H, Z.bits_0 in T. done.
  - replace (Z.land f (2 ^ k)) with 0; [done|]. symmetry. apply Z.bits_inj'. intros n Hn.
    rewrite Z.land_spec, Z.bits_0, Z.pow2_bits_eqb by done.
    destruct (Z.eqb_spec k n) as [->|]; [by rewrite E|apply andb_false_r].
Qed.

Lemma has_READ f : has f P_READ = Z.testbit f 0.
Proof. exact (has_testbit f 0 ltac:(lia)). Qed.
Lemma has_WRITE f : has f P_WRITE = Z.testbit f 1.
Proof. exact (has_testbit f 1 ltac:(lia)). Qed.
Lemma has_GROWSDOWN f : has f P_GROWSDOWN = Z.testbit f 3.
Proof. exact (has_testbit f 3 ltac:(lia)). Qed.
Lemma has_COW f : has f P_COW = Z.testbit f 4.
Proof. exact (has_testbit f 4 ltac:(lia)). Qed.
Lemma has_SHARED f : has f P_SHARED = Z.testbit f 7.
Proof. exact (has_testbit f 7 ltac:(lia)). Qed.

Create Rewrite HintDb flags.
#[export] Hint Rewrite has_READ has_WRITE has_GROWSDOWN has_COW has_SHARED : flags.
#[export] Hint Rewrite Z.lor_spec Z.land_spec Z.ldiff_spec : flags.

(** Evaluate tests of flag words built from constants and variables. *)
Ltac flag_solve :=
  unfold P_WRITABLE; autorewrite with flags;
  repeat match goal with
  | |- context [Z.testbit ?c ?k] =>
      let v := eval compute in (Z.testbit c k) in
      match v with
      | true => change (Z.testbit c k) with true
      | false => change (Z.testbit c k) with false
      end
  end; cbn [negb andb orb]; rewrite ?orb_true_r, ?orb_false_r, ?andb_true_r, ?andb_false_r;
  cbn [negb]; rewrite ?andb_true_r, ?andb_false_r; try done.

(** ** Two address spaces sharing objects *)

(** [src] and [dst] live in the same store; [ext] counts the references of all
    other address spaces, of which there are few enough for 32-bit counters. *)
Record spaces_inv (vdso : Z) (w : world) (src dst : mem) (ext : Z -> Z) : Prop := mk_spaces {
  si_src : mem_inv vdso w src (fun id => refs dst id + ext id) None;
  si_dst : mem_inv vdso w dst (fun id => refs src id + ext id) None;
  si_ext : forall id, 0 <= ext id <= 2 ^ 31;
}.

Lemma refs_changed m id : refs (mem_changed m) id = refs m id.
Proof. apply refs_same, mem_pt_changed. Qed.

Lemma mem_inv_ext vdso w m ext ext' fresh :
  (forall id, ext' id = ext id) -> mem_inv vdso w m ext fresh -> mem_inv vdso w m ext' fresh.
Proof.
  intros Hx [Hr He Hs]. split; [exact Hr|intros id; rewrite Hx; apply He|].
  eapply store_ok_ext; [|exact Hs]. intros id. cbv beta. by rewrite Hx.
Qed.

(** Rebuilding the pair from the invariant of one of the two. *)
Lemma spaces_of_dst vdso w src src' dst ext :
  (forall q, pt_data <$> mem_pt src' q = pt_data <$> mem_pt src q) ->
  (forall p e, mem_pt src p = Some e -> 0 <= p < MEM_PAGES) ->
  (forall id, 0 <= ext id <= 2 ^ 31) ->
  mem_inv vdso w dst (fun id => refs src id + ext id) None ->
  spaces_inv vdso w src' dst ext.
Proof.
  intros Hq Hr Hext Hdst. pose proof Hdst as [Hrd He Hs]. split; [split| |done].
  - intros p e Hp. specialize (Hq p). rewrite Hp in Hq. simpl in Hq.
    destruct (mem_pt src p) eqn:E; [by eapply Hr|done].
  - intros id. pose proof (refs_nonneg dst id). specialize (Hext id). simpl. lia.
  - eapply store_ok_ext; [|exact Hs]. intros id. simpl. rewrite (refs_same_data src src' id Hq). lia.
  - split; [done| |].
    + intros id. pose proof (refs_nonneg src' id). specialize (Hext id). simpl. lia.
    + eapply store_ok_ext; [|exact Hs]. intros id. simpl. by rewrite (refs_same_data src src' id Hq).
Qed.

(** The entry both sides have after the copy. *)
Definition cow_entry (e : pt_entry) : pt_entry :=
  if negb (has (pt_flags e) P_SHARED) then set_flags_of e (Z.lor (pt_flags e) P_COW) else e.

Lemma cow_entry_data e : pt_data (cow_entry e) = pt_data e.
Proof. unfold cow_entry. by destruct (negb _). Qed.

Lemma cow_entry_offset e : pt_offset (cow_entry e) = pt_offset e.
Proof. unfold cow_entry. by destruct (negb _). Qed.

Lemma mem_pt_new_same_data m page e e' :
  mem_pt m page = Some e -> pt_data e' = pt_data e ->
  forall q, pt_data <$> mem_pt (mem_pt_new m page e') q = pt_data <$> mem_pt m q.
Proof.
  intros He Hd q. rewrite mem_pt_new_lookup. destruct (decide (page = q)) as [<-|]; [|done].
  rewrite He. simpl. by rewrite Hd.
Qed.

(** What one iteration of [pt_copy_on_write] does. *)
Lemma cow_page_ok vdso w src dst ext page :
  spaces_inv vdso w src dst ext ->
  exists w' src' dst', cow_page vdso w src dst page = (w', src', dst') /\
    spaces_inv vdso w' src' dst' ext /\ survives w w' /\
    (forall q, mem_pt src' q = if decide (page = q) then cow_entry <$> mem_pt src q else mem_pt src q) /\
    (forall q, mem_pt dst' q = if decide (page = q /\ mem_pt src q <> None)
                               then cow_entry <$> mem_pt src q else mem_pt dst q).
Proof.
  intros [Hsrc Hdst Hext]. unfold cow_page. destruct (mem_pt src page) as [e|] eqn:Ee.
  2:{ exists w, src, dst. split_and!; [done|by split|apply survives_refl| |].
      - intros q. case_decide as Hd; [subst; by rewrite Ee|done].
      - intros q. case_decide as Hd; [|done]. destruct Hd as [<- Hn]. by rewrite Ee in Hn. }
  destruct (pt_unmap_always_ok vdso w dst _ None page 1 Hdst ltac:(lia))
    as (w1 & dst1 & -> & Hdst1 & Hsv1 & Hq1).
  change (if negb (has (pt_flags e) P_SHARED) then set_flags_of e (Z.lor (pt_flags e) P_COW) else e)
    with (cow_entry e).
  pose proof (mi_range _ _ _ _ _ Hsrc) as Hr. pose proof (Hr page e Ee) as Hpage.
  destruct (spaces_of_dst vdso w1 src src dst1 ext ltac:(done) Hr Hext Hdst1) as [Hsrc1 _ _].
  destruct (mapped_live _ _ _ _ _ _ _ Hsrc1 Ee) as (d & Hd & _).
  destruct (map_page_ok vdso w1 dst1 _ None page (cow_entry e) d Hdst1 Hpage) as (Hdst2 & Hsv2 & _).
  { rewrite Hq1, decide_True by lia. done. }
  { by rewrite cow_entry_data. }
  { pose proof (refs_le dst1 (pt_data (cow_entry e))). pose proof (refs_le src (pt_data (cow_entry e))).
    specialize (Hext (pt_data (cow_entry e))). assert (MEM_PAGES = 1048576) by reflexivity. lia. }
  simpl in Hdst2. do 3 eexists. split; [done|]. split_and!.
  - eapply spaces_of_dst; [|exact Hr|done|exact Hdst2].
    apply (mem_pt_new_same_data _ _ e); [done|apply cow_entry_data].
  - by eapply survives_trans.
  - intros q. rewrite mem_pt_new_lookup. case_decide; [subst; by rewrite Ee|done].
  - intros q. rewrite mem_pt_new_lookup, Hq1. destruct (decide (page = q)) as [<-|].
    + rewrite decide_True by (split; [done|by rewrite Ee]). by rewrite Ee.
    + rewrite decide_False by lia. rewrite decide_False by tauto. done.
Qed.

(** The loop visits every mapped page of the range. *)
Lemma cow_loop_ok vdso ext fuel : forall w src dst page stop,
  spaces_inv vdso w src dst ext -> stop - page <= Z.of_nat fuel ->
  exists w' src' dst', cow_loop vdso fuel w src dst page stop = (w', src', dst') /\
    spaces_inv vdso w' src' dst' ext /\ survives w w' /\
    (forall q, mem_pt src' q =
       if decide (page <= q < stop) then cow_entry <$> mem_pt src q else mem_pt src q) /\
    (forall q, mem_pt dst' q =
       if decide (page <= q < stop /\ mem_pt src q <> None)
       then cow_entry <$> mem_pt src q else mem_pt dst q).
Proof.
  induction fuel as [|fuel IH]; intros w src dst page stop Hinv Hf; simpl.
  { exists w, src, dst. split_and!; [done|done|apply survives_refl| |];
      intros q; rewrite decide_False by lia; done. }
  destruct (Z.ltb_spec page stop).
  2:{ exists w, src, dst. split_and!; [done|done|apply survives_refl| |];
      intros q; rewrite decide_False by lia; done. }
  destruct (cow_page_ok vdso w src dst ext page Hinv) as (w1 & src1 & dst1 & -> & Hinv1 & Hsv1 & Hs1 & Hd1).
  destruct (mem_next_page_spec src1 page) as [Hn1 Hn2].
  destruct (IH w1 src1 dst1 (mem_next_page src1 page) stop Hinv1 ltac:(lia))
    as (w2 & src2 & dst2 & -> & Hinv2 & Hsv2 & Hs2 & Hd2).
  assert (Hskip : forall q, page < q < mem_next_page src1 page -> mem_pt src q = None).
  { intros q Hq. specialize (Hn2 q Hq). rewrite Hs1, decide_False in Hn2 by lia. done. }
  exists w2, src2, dst2. split_and!; [done|done|by eapply survives_trans| |].
  - intros q. rewrite Hs2, Hs1. destruct (decide (page <= q < stop)) as [Hin|Hout].
    + destruct (decide (page = q)) as [<-|]; [by rewrite decide_False by lia|].
      case_decide; [done|]. by rewrite Hskip by lia.
    + rewrite !decide_False by lia. done.
  - intros q. rewrite Hd2, Hd1, Hs1. destruct (decide (page = q)) as [<-|Hne].
    + rewrite decide_False by lia. destruct (mem_pt src page).
      * by rewrite !decide_True by (split; [lia|done]).
      * by rewrite !decide_False by tauto.
    + rewrite (decide_False (P := page = q /\ _)) by tauto.
      destruct (mem_pt src q) as [e|] eqn:Eq; [|by rewrite !decide_False by tauto].
      assert (~ (page < q < mem_next_page src1 page)) by (intros Hq; by rewrite Hskip in Eq).
      destruct (decide (page <= q < stop /\ Some e <> None)) as [[? _]|Hn].
      * rewrite decide_True by (split; [lia|done]). done.
      * rewrite decide_False; [done|]. intros [? _]. apply Hn. split; [lia|done].
Qed.

(** ** Page contents *)

(** Every mapped page lies inside the block of its object. *)
Definition backed (w : world) (m : mem) : Prop :=
  forall p e, mem_pt m p = Some e -> is_Some (page_bytes w e).

(** Where the page of an entry lies on the host. *)
Definition location (w : world) (e : pt_entry) : option ptr :=
  d ← datas w !! pt_data e; Some (d_block d, pt_offset e).

(** A place no object of [w] occupies. *)
Definition unowned (w : world) (l : option ptr) : Prop :=
  forall b, fst <$> l = Some b -> forall i d, datas w !! i = Some d -> d_block d <> b.

(** Objects alive before and after keep their block and its bytes. *)
Definition kept (w w' : world) : Prop :=
  forall i d d', datas w !! i = Some d -> datas w' !! i = Some d' ->
    d_block d' = d_block d /\ blocks w' !! d_block d = blocks w !! d_block d.

Lemma survives_kept w w' : survives w w' -> kept w w'.
Proof.
  intros H i d d' Hd Hd'. destruct (H i d' Hd') as (d0 & ? & E & B). simplify_eq. split; [done|]. by rewrite <- B, E.
Qed.

Lemma kept_bytes w w' e e' d d' :
  kept w w' -> pt_data e' = pt_data e -> pt_offset e' = pt_offset e ->
  datas w !! pt_data e = Some d -> datas w' !! pt_data e = Some d' ->
  page_bytes w' e' = page_bytes w e.
Proof.
  intros Hk Hid Ho Hd Hd'. unfold page_bytes. rewrite Hid, Ho, Hd, Hd'. simpl.
  destruct (Hk _ d d' Hd Hd') as [E1 E2]. by rewrite E1, E2.
Qed.

(** Pages of an address space that is intact before and after show the same bytes. *)
Lemma kept_page vdso w w' m m' ext ext' p e e' :
  mem_inv vdso w m ext None -> mem_inv vdso w' m' ext' None -> kept w w' ->
  mem_pt m p = Some e -> mem_pt m' p = Some e' ->
  pt_data e' = pt_data e -> pt_offset e' = pt_offset e ->
  page_bytes w' e' = page_bytes w e.
Proof.
  intros Hi Hi' Hk He He' Hid Ho.
  destruct (mapped_live _ _ _ _ _ _ _ Hi He) as (d & Hd & _).
  destruct (mapped_live _ _ _ _ _ _ _ Hi' He') as (d' & Hd' & _). rewrite Hid in Hd'.
  by eapply kept_bytes.
Qed.

(** [pt_copy_on_write] on the invariant, with the entries it leaves. *)
Lemma pt_copy_on_write_ok vdso w src dst ext start pages :
  spaces_inv vdso w src dst ext -> 0 <= pages ->
  exists w' src' dst', pt_copy_on_write vdso w src dst start pages = (0, w', src', dst') /\
    spaces_inv vdso w' src' dst' ext /\ survives w w' /\
    (forall q, mem_pt src' q =
       if decide (start <= q < start + pages) then cow_entry <$> mem_pt src q else mem_pt src q) /\
    (forall q, mem_pt dst' q =
       if decide (start <= q < start + pages /\ mem_pt src q <> None)
       then cow_entry <$> mem_pt src q else mem_pt dst q).
Proof.
  intros Hinv Hp. unfold pt_copy_on_write.
  destruct (cow_loop_ok vdso ext (Z.to_nat pages) w src dst start (start + pages) Hinv ltac:(lia))
    as (w' & src' & dst' & -> & [Hsi Hdi Hext] & Hsv & Hs & Hd).
  exists w', (mem_changed src'), (mem_changed dst'). split; [done|].
  split_and!; [split; [| |exact Hext]|done| |].
  - eapply mem_inv_same; [apply mem_pt_changed|]. eapply mem_inv_ext; [|exact Hsi].
    intros id. cbv beta. by rewrite refs_changed.
  - eapply mem_inv_same; [apply mem_pt_changed|]. eapply mem_inv_ext; [|exact Hdi].
    intros id. cbv beta. by rewrite refs_changed.
  - intros q. by rewrite mem_pt_changed.
  - intros q. by rewrite mem_pt_changed.
Qed.

(** The copy of a whole address space into an empty one. *)
Lemma cow_copy_all vdso w src ext w' src' dst' :
  spaces_inv vdso w src mem_init ext ->
  pt_copy_on_write vdso w src mem_init 0 MEM_PAGES = (0, w', src', dst') ->
  spaces_inv vdso w' src' dst' ext /\ kept w w' /\
  (forall q, mem_pt src' q = cow_entry <$> mem_pt src q) /\
  (forall q, mem_pt dst' q = cow_entry <$> mem_pt src q).
Proof.
  intros Hsp Hc. pose proof (mi_range _ _ _ _ _ (si_src _ _ _ _ _ Hsp)) as Hr.
  destruct (pt_copy_on_write_ok vdso w src mem_init ext 0 MEM_PAGES Hsp ltac:(vm_compute; discriminate))
    as (w1 & src1 & dst1 & Hc' & Hsp' & Hsv & Hs & Hd).
  rewrite Hc in Hc'. injection Hc' as <- <- <-. split_and!; [done|by apply survives_kept| |]; intros q.
  - rewrite Hs. destruct (mem_pt src q) as [e|] eqn:E; [|by case_decide].
    rewrite decide_True; [done|]. specialize (Hr q e E). lia.
  - rewrite Hd. destruct (mem_pt src q) as [e|] eqn:E.
    + rewrite decide_True; [done|]. specialize (Hr q e E). split; [lia|done].
    + rewrite decide_False by tauto. unfold mem_pt, mem_init. simpl. by rewrite lookup_empty.
Qed.

Lemma cow_location vdso w w' src src' ext p e :
  spaces_inv vdso w src mem_init ext -> (exists dst', spaces_inv vdso w' src' dst' ext) -> kept w w' ->
  mem_pt src p = Some e -> mem_pt src' p = Some (cow_entry e) -> location w' (cow_entry e) = location w e.
Proof.
  intros Hsp [dst' Hsp'] Hk He He'.
  destruct (mapped_live _ _ _ _ _ _ _ (si_src _ _ _ _ _ Hsp) He) as (d & Hd & _).
  destruct (mapped_live _ _ _ _ _ _ _ (si_src _ _ _ _ _ Hsp') He') as (d' & Hd' & _).
  unfold location. rewrite cow_entry_data in *. rewrite cow_entry_offset, Hd, Hd'. simpl.
  by destruct (Hk _ _ _ Hd Hd') as [-> _].
Qed.

(** Fork's page table copy: in the range, both address spaces
    map every page the source had, to the same object, and with the same
    bytes as before; a page that is not [P_SHARED] is writable in neither until
    its copy is made; all other pages of both are as before; and the reference
    counts stay exact over both address spaces. *)
Theorem pt_copy_on_write_spec vdso w src dst ext start pages :
  spaces_inv vdso w src dst ext -> 0 <= pages ->
  exists w' src' dst', pt_copy_on_write vdso w src dst start pages = (0, w', src', dst') /\
    spaces_inv vdso w' src' dst' ext /\
    (forall q, ~ start <= q < start + pages ->
       mem_pt src' q = mem_pt src q /\ mem_pt dst' q = mem_pt dst q) /\
    (forall q, start <= q < start + pages -> mem_pt src q = None ->
       mem_pt src' q = None /\ mem_pt dst' q = mem_pt dst q) /\
    (forall q e, start <= q < start + pages -> mem_pt src q = Some e ->
       exists e', mem_pt src' q = Some e' /\ mem_pt dst' q = Some e' /\
         pt_data e' = pt_data e /\ pt_offset e' = pt_offset e /\
         page_bytes w' e' = page_bytes w e /\
         (if has (pt_flags e) P_SHARED then pt_flags e' = pt_flags e
          else P_WRITABLE (pt_flags e') = false /\
               has (pt_flags e') P_WRITE = has (pt_flags e) P_WRITE)).
Proof.
  intros Hinv Hp.
  destruct (pt_copy_on_write_ok vdso w src dst ext start pages Hinv Hp)
    as (w' & src' & dst' & -> & Hsp & Hsv & Hs & Hd).
  exists w', src', dst'. split; [done|]. split; [done|].
  split_and!.
  - intros q Hq. rewrite Hs, Hd. rewrite decide_False by done. by rewrite decide_False by (intros [? _]; done).
  - intros q Hq Hn. rewrite Hs, Hd, decide_True by done.
    rewrite decide_False by (intros [_ Hc]; done). by rewrite Hn.
  - intros q e Hq He. exists (cow_entry e).
    rewrite Hs, Hd. rewrite decide_True by done.
    rewrite decide_True by (split; congruence || done).
    split_and!; [by rewrite He|by rewrite He|apply cow_entry_data|apply cow_entry_offset| |].
    + eapply (kept_page vdso w w' src src' _ _ q); [apply Hinv|apply Hsp|by apply survives_kept|done| | |].
      * by rewrite Hs, decide_True, He.
      * apply cow_entry_data.
      * apply cow_entry_offset.
    + unfold cow_entry. destruct (has (pt_flags e) P_SHARED); simpl; [done|]. split; flag_solve.
Qed.

(** ** The page fault path *)

(** The host's [mmap] and [malloc]: they return memory that is not in use. *)
Class HostAlloc {PS : PageSize} (mmap_at : world -> Z -> Z + Z) (malloc_data : world -> option Z) : Prop := {
  mmap_fresh : forall w n b, mmap_at w n = inr b -> blocks w !! b = None;
  mmap_aligned : forall w n b, mmap_at w n = inr b -> b mod real_page_size = 0;
  malloc_fresh : forall w id, malloc_data w = Some id -> datas w !! id = None;
}.

(** A host that does not run out of memory. *)
Class HostHasMemory (mmap_at : world -> Z -> Z + Z) (malloc_data : world -> option Z) : Prop := {
  mmap_total : forall w n, exists b, mmap_at w n = inr b;
  malloc_total : forall w, is_Some (malloc_data w);
}.

(** Is the first mapped page above [page] one of a stack that grows down? *)
Definition growable (m : mem) (page : Z) : Prop :=
  exists p e, page < p < MEM_PAGES /\ mem_pt m p = Some e /\ has (pt_flags e) P_GROWSDOWN = true /\
    forall q, page < q < p -> mem_pt m q = None.

Lemma first_mapped_spec fuel m : forall p, MEM_PAGES - p <= Z.of_nat fuel ->
  let r := first_mapped fuel m p in
  p <= r /\ (forall q, p <= q < r -> mem_pt m q = None) /\
  (r < MEM_PAGES -> mem_pt m r <> None).
Proof.
  induction fuel as [|fuel IH]; intros p Hf; cbn [first_mapped].
  { split_and!; [lia|intros; lia|intros; lia]. }
  destruct (Z.ltb_spec p MEM_PAGES) as [Hlt|]; cbn [andb].
  2:{ split_and!; [lia|intros; lia|intros; lia]. }
  destruct (is_mapped m p) eqn:Em; cbn [negb].
  { apply is_mapped_true in Em as [e Em]. split_and!; [lia|intros; lia|intros _; by rewrite Em]. }
  apply is_mapped_false in Em. destruct (IH (p + 1) ltac:(lia)) as (H1 & H2 & H3).
  split_and!; [lia| |done]. intros q Hq. destruct (Z.eq_dec q p) as [->|]; [done|apply H2; lia].
Qed.

(** [grow_stack] finds a growable stack or gives up. *)
Lemma grow_search m page : 0 <= page ->
  let p := first_mapped (Z.to_nat (MEM_PAGES - (page + 1))) m (page + 1) in
  match (if p >=? MEM_PAGES then None else mem_pt m p) with
  | None => ~ growable m page
  | Some e => growable m page <-> has (pt_flags e) P_GROWSDOWN = true
  end.
Proof.
  intros Hp. set (p := first_mapped _ _ _). cbv zeta.
  destruct (first_mapped_spec (Z.to_nat (MEM_PAGES - (page + 1))) m (page + 1) ltac:(lia)) as (H1 & H2 & H3).
  fold p in H1, H2, H3. rewrite Z.geb_leb. destruct (Z.leb_spec MEM_PAGES p) as [Hge|Hlt].
  - intros (p' & e & Hr & He & _). rewrite (H2 p') in He by lia. done.
  - specialize (H3 Hlt). destruct (mem_pt m p) as [e|] eqn:Ee; [|done]. split.
    + intros (p' & e' & Hr & He' & Hg & Hq'). destruct (Z.lt_trichotomy p p') as [Hc|[->|Hc]].
      * rewrite (Hq' p) in Ee by lia. done.
      * congruence.
      * rewrite (H2 p') in He' by lia. done.
    + intros Hg. exists p, e. split_and!; [lia|lia|done|done|]. intros q Hq. apply H2. lia.
Qed.

Section Fault.
Context {PS : PageSize} (vdso : Z) (mmap_at : world -> Z -> Z + Z) (malloc_data : world -> option Z).
Context `{!HostAlloc mmap_at malloc_data}.

Abbreviation mem_ptr := (mem_ptr vdso mmap_at malloc_data).
Abbreviation grow_stack := (grow_stack vdso mmap_at malloc_data).
Abbreviation break_cow := (break_cow vdso mmap_at malloc_data).

(** Adding a fresh block changes nothing an object owns. *)
Lemma add_block_ok w m ext b bytes :
  mem_inv vdso w m ext None -> blocks w !! b = None ->
  let w' := mk_world (<[b := bytes]> (blocks w)) (datas w) (closed w) in
  mem_inv vdso w' m ext None /\ kept w w' /\
  (forall i d, datas w !! i = Some d -> d_block d <> b).
Proof.
  intros [Hr He [Hc Hd Hb Ho]] Hfresh.
  assert (Hne : forall i d, datas w !! i = Some d -> d_block d <> b).
  { intros i d Hi E. destruct (Hb i d Hi) as [? Hx]. congruence. }
  split_and!; [|intros i d d' Hi Hi'; simpl in *|done].
  - split; [done|done|]. split; simpl; [done|done| |done].
    intros i d Hi. rewrite lookup_insert_ne by (specialize (Hne i d Hi); congruence). eauto.
  - assert (d' = d) as -> by congruence. split; [done|].
    rewrite lookup_insert_ne; [done|]. specialize (Hne i d Hi). congruence.
Qed.

(** Mapping one fresh page: the page shows the given bytes and nobody else
    refers to its object. *)
Record fresh_page (w : world) (m : mem) (ext : Z -> Z) (page flags : Z) (bytes : list Z)
    (w' : world) (m' : mem) : Prop := mk_fresh_page {
  fp_inv : mem_inv vdso w' m' ext None;
  fp_kept : kept w w';
  fp_frame : forall q, q <> page -> mem_pt m' q = mem_pt m q;
  fp_entry : exists e, mem_pt m' page = Some e /\ pt_flags e = flags /\
    page_bytes w' e = Some bytes /\ refs m' (pt_data e) = 1 /\ ext (pt_data e) = 0 /\
    datas w !! pt_data e = None /\ unowned w (location w' e);
}.

Lemma map_fresh_page w m ext page b bytes flags :
  mem_inv vdso w m ext None -> 0 <= page < MEM_PAGES -> blocks w !! b = None ->
  length bytes = Z.to_nat PAGE_SIZE ->
  b mod real_page_size = 0 ->
  let w1 := mk_world (<[b := bytes]> (blocks w)) (datas w) (closed w) in
  match malloc_data w1 with
  | None => pt_map vdso w1 m page 1 (inr b) None 0 flags = Some (_ENOMEM, w1, m)
  | Some id => exists w' m', pt_map vdso w1 m page 1 (inr b) (Some id) 0 flags = Some (0, w', m') /\
      fresh_page w m ext page flags bytes w' m'
  end.
Proof.
  intros Hinv Hp Hb Hlen Hal w1.
  destruct (add_block_ok w m ext b bytes Hinv Hb) as (Hinv1 & Hk1 & Hne). fold w1 in Hinv1, Hk1.
  destruct (malloc_data w1) as [id|] eqn:Hid; [|unfold pt_map; by rewrite aligned_check by by left].
  pose proof (malloc_fresh w1 id Hid) as Hfid.
  destruct (unused_id _ _ _ _ _ _ Hinv1 Hfid) as (Hz & Hze & Hno).
  destruct (pt_map_ok vdso w1 m ext page 1 b id 0 flags Hinv1 ltac:(lia) ltac:(lia) ltac:(lia) ltac:(lia) ltac:(done) ltac:(by left) Hfid)
    as (w' & m' & -> & Hinv' & [Hpt (d & Hd & Hdb) Hblk Hoth]).
  { exists bytes. apply lookup_insert_eq. }
  { intros i di Hi. left. by apply (Hne i). }
  exists w', m'. split; [done|]. split; [done| | |].
  - intros i di di' Hi Hi'. destruct (decide (i = id)) as [->|Hni]; [simpl in Hfid; congruence|].
    destruct (Hoth i di' Hni Hi') as (d1 & Hd1 & E1 & E2).
    destruct (Hk1 i di d1 Hi Hd1) as [E3 E4]. split; [congruence|].
    rewrite <- E4, <- E3, <- E2, E1. done.
  - intros q Hq. rewrite Hpt, decide_False by lia. done.
  - eexists. split; [rewrite Hpt, decide_True by lia; done|]. simpl. split_and!.
    + done.
    + unfold page_bytes. cbn [pt_data pt_offset]. rewrite Hd. simpl. rewrite Hdb, Hblk. simpl.
      rewrite lookup_insert_eq. simpl. replace (page - page) with 0 by lia.
      rewrite block_read_Some by (rewrite ?Hlen; vm_compute; done || discriminate).
      change (Z.to_nat (Z.shiftl 0 PAGE_BITS + 0)) with 0%nat. rewrite drop_0, take_ge by lia. done.
    + rewrite (refs_point m m' page) by
        (lia || (intros q Hq; rewrite Hpt, decide_False by lia; done)).
      rewrite (Hpt page), (decide_True (P := page <= page < page + 1)), !refers_eq by lia.
      rewrite (decide_False (P := pt_data <$> mem_pt m page = Some id)), decide_True by (apply Hno || done). lia.
    + done.
    + exact Hfid.
    + unfold location, unowned. cbn [pt_data]. rewrite Hd. simpl. intros b' [= <-] i di Hi.
      rewrite Hdb. by apply (Hne i).
Qed.

Definition zero_page : list Z := replicate (Z.to_nat PAGE_SIZE) 0.

Definition stack_flags : Z := Z.lor (Z.lor P_WRITE P_GROWSDOWN) P_ANONYMOUS.

(** A block that no object owns was added, or nothing. *)
Definition leaked (w w' : world) : Prop :=
  w' = w \/ exists b bytes, blocks w !! b = None /\ w' = mk_world (<[b := bytes]> (blocks w)) (datas w) (closed w).
(** The host gives the block of a page, but no memory for its object. *)
Definition no_object (w : world) (bytes : list Z) : Prop :=
  exists b, mmap_at w PAGE_SIZE = inr b /\ malloc_data (mk_world (<[b := bytes]> (blocks w)) (datas w) (closed w)) = None.
Definition no_block (w : world) : Prop := exists err, mmap_at w PAGE_SIZE = inl err.

Lemma leaked_ok w m ext w' : mem_inv vdso w m ext None -> leaked w w' -> mem_inv vdso w' m ext None /\ kept w w'.
Proof.
  intros Hinv [-> | (b & bytes & Hb & ->)]; [split; [done|by apply survives_kept, survives_refl]|].
  destruct (add_block_ok w m ext b bytes Hinv Hb) as (? & ? & _). done.
Qed.
Lemma leaked_bytes w m ext w' p e : mem_inv vdso w m ext None -> leaked w w' -> mem_pt m p = Some e -> page_bytes w' e = page_bytes w e.
Proof.
  intros Hinv Hl He. destruct (leaked_ok w m ext w' Hinv Hl) as [Hinv' Hk]. by apply (kept_page vdso w w' m m ext ext p e e Hinv Hinv' Hk He He).
Qed.

Lemma grow_stack_gen w m ext page :
  mem_inv vdso w m ext None -> 0 <= page < MEM_PAGES ->
  match grow_stack w m page with
  | None => False
  | Some None => mem_pt m page = None /\ ~ growable m page
  | Some (Some (w', m')) =>
      (is_Some (mem_pt m page) /\ w' = w /\ m' = m) \/
      (mem_pt m page = None /\ growable m page /\
       (fresh_page w m ext page stack_flags zero_page w' m' \/
        (no_block w \/ no_object w zero_page) /\ leaked w w' /\ m' = m))
  end.
Proof.
  intros Hinv Hp. unfold Memory.grow_stack. destruct (mem_pt m page) as [e|] eqn:Ee; [eauto|].
  pose proof (grow_search m page ltac:(lia)) as Hs. cbv zeta in *.
  set (p := first_mapped _ _ _) in *. destruct (p >=? MEM_PAGES); [done|].
  destruct (mem_pt m p) as [e|] eqn:Ep; [|done].
  destruct (has (pt_flags e) P_GROWSDOWN) eqn:Eg; cbn [negb].
  2:{ split; [done|]. rewrite Hs. done. }
  assert (growable m page) as Hgr by (by apply Hs).
  unfold pt_map_nothing. destruct (Z.eqb_spec 1 0); [done|]. unfold mmap_anon.
  change (u32 (1 * PAGE_SIZE)) with PAGE_SIZE.
  destruct (mmap_at w PAGE_SIZE) as [err|b] eqn:Hb.
  { cbn. right. split_and!; [done|done|]. right. split_and!; [left; by exists err|by left|done]. }
  pose proof (map_fresh_page w m ext page b zero_page stack_flags Hinv Hp (mmap_fresh w _ b Hb) ltac:(apply length_replicate) (mmap_aligned w _ b Hb)) as Hm.
  cbv zeta in Hm. unfold zero_page, stack_flags in Hm. fold zero_page in Hm |- *.
  destruct (malloc_data _) as [id|] eqn:Hid.
  - destruct Hm as (w' & m' & -> & Hfp). cbn. right. split_and!; [done|done|by left].
  - rewrite Hm. cbn. right. split_and!; [done|done|]. right. split_and!; [right; by exists b| |done].
    right. exists b, zero_page. split; [by eapply mmap_fresh|done].
Qed.

Lemma page_bytes_length w e bytes : page_bytes w e = Some bytes -> length bytes = Z.to_nat PAGE_SIZE.
Proof.
  unfold page_bytes. destruct (datas w !! pt_data e) as [d|]; [|done]. simpl.
  destruct (blocks w !! d_block d) as [b|]; [|done]. simpl. apply block_read_length.
Qed.

Lemma break_cow_gen w m ext page e bytes :
  mem_inv vdso w m ext None -> 0 <= page < MEM_PAGES -> page_bytes w e = Some bytes ->
  match break_cow w m page e with
  | None => no_block w
  | Some (w', m') =>
      fresh_page w m ext page (Z.ldiff (pt_flags e) P_COW) bytes w' m' \/
      (no_object w bytes /\ leaked w w' /\ m' = m)
  end.
Proof.
  intros Hinv Hp Hb. unfold Memory.break_cow. rewrite Hb. cbn [mbind option_bind].
  destruct (mmap_at w PAGE_SIZE) as [err|copy] eqn:Hc; [by exists err|].
  pose proof (map_fresh_page w m ext page copy bytes (Z.ldiff (pt_flags e) P_COW) Hinv Hp
    (mmap_fresh w _ copy Hc) (page_bytes_length _ _ _ Hb) (mmap_aligned w _ copy Hc)) as Hm.
  cbv zeta in Hm. destruct (malloc_data _) as [id|] eqn:Hid.
  - destruct Hm as (w' & m' & -> & Hfp). by left.
  - rewrite Hm. cbn. right. split_and!; [by exists copy| |done]. right. exists copy, bytes. split; [by eapply mmap_fresh|done].
Qed.

(** ** What [mem_ptr] promises *)

(** May the page be accessed in this way?  Reads ignore protection, and so does
    the debugger. *)
Definition accessible (m : mem) (page : Z) (type : access) : Prop :=
  match mem_pt m page with
  | None => growable m page
  | Some e => type = MEM_WRITE -> has (pt_flags e) P_WRITE = true
  end.

(** The bytes the guest sees in a page before the access. *)
Definition bytes_before (w : world) (m : mem) (page : Z) : option (list Z) :=
  match mem_pt m page with Some e => page_bytes w e | None => Some zero_page end.

Record access_granted (w : world) (m : mem) (ext : Z -> Z) (addr : Z) (type : access)
    (r : option ptr) (w' : world) (m' : mem) : Prop := mk_granted {
  ag_inv : mem_inv vdso w' m' ext None;
  ag_kept : kept w w';
  ag_frame : forall q, q <> PAGE addr -> mem_pt m' q = mem_pt m q;
  ag_entry : exists e', mem_pt m' (PAGE addr) = Some e' /\ r = entry_ptr w' e' addr /\ is_Some r /\
    page_bytes w' e' = bytes_before w m (PAGE addr) /\
    (mem_pt m (PAGE addr) ≫= location w = location w' e' \/ unowned w (location w' e')) /\
    (type <> MEM_READ ->
       P_WRITABLE (pt_flags e') = true /\
       forall e, mem_pt m (PAGE addr) = Some e ->
         has (pt_flags e) P_COW = true \/ type = MEM_WRITE_PTRACE ->
         refs m' (pt_data e') = 1 /\ ext (pt_data e') = 0 /\ unowned w (location w' e'));
}.

(** Writing through an entry needs no more than [P_WRITABLE]. *)
Lemma nofault_ptr w m ext addr type e :
  mem_inv vdso w m ext None -> mem_pt m (PAGE addr) = Some e ->
  (type = MEM_WRITE -> P_WRITABLE (pt_flags e) = true) ->
  mem_ptr_nofault w m addr type = entry_ptr w e addr /\ is_Some (entry_ptr w e addr).
Proof.
  intros Hinv He Hw. unfold mem_ptr_nofault. rewrite He.
  destruct (mapped_live _ _ _ _ _ _ _ Hinv He) as (d & Hd & _).
  assert (bool_decide (type = MEM_WRITE) && negb (P_WRITABLE (pt_flags e)) = false) as ->.
  { case_bool_decide; [by rewrite Hw|done]. }
  split; [done|]. unfold entry_ptr. rewrite Hd. eauto.
Qed.

Lemma mem_inv_same_data w m m' ext :
  (forall q, pt_data <$> mem_pt m' q = pt_data <$> mem_pt m q) ->
  mem_inv vdso w m ext None -> mem_inv vdso w m' ext None.
Proof.
  intros Hq [Hr He Hs]. split; [|done|].
  - intros p e Hp. specialize (Hq p). rewrite Hp in Hq. destruct (mem_pt m p) eqn:E; [by eapply Hr|done].
  - eapply store_ok_ext; [|exact Hs]. intros id. cbv beta. by rewrite (refs_same_data m m').
Qed.

(** Mapping a free page frees nothing. *)
Lemma fresh_page_alive w m ext page flags bytes w1 m1 i d :
  mem_inv vdso w m ext None -> 0 <= page < MEM_PAGES -> mem_pt m page = None ->
  fresh_page w m ext page flags bytes w1 m1 -> datas w !! i = Some d -> is_Some (datas w1 !! i).
Proof.
  intros Hinv Hp Hn [Hinv1 _ Hf1 _] Hd. destruct (datas w1 !! i) as [d1|] eqn:E1; [eauto|].
  exfalso. destruct Hinv as [_ _ Hs]. destruct Hinv1 as [_ _ Hs1].
  destruct (so_count _ _ _ _ Hs i d Hd) as (_ & _ & [Hpos|]); [|done].
  pose proof (so_dead _ _ _ _ Hs1 i E1) as Hz. cbv beta in *.
  rewrite (refs_point m m1 page i Hp Hf1), Hn, !refers_eq in Hz.
  rewrite (decide_False (P := pt_data <$> None = Some i)) in Hz by done. case_decide; lia.
Qed.

(** Two allocations in a row keep what lived before both. *)
Lemma fresh_page_kept_trans w m ext page flags bytes w1 m1 w2 :
  mem_inv vdso w m ext None -> 0 <= page < MEM_PAGES -> mem_pt m page = None ->
  fresh_page w m ext page flags bytes w1 m1 -> kept w1 w2 -> kept w w2.
Proof.
  intros Hinv Hp Hn Hfp Hk2 i d d2 Hd Hd2.
  destruct (fresh_page_alive _ _ _ _ _ _ _ _ _ _ Hinv Hp Hn Hfp Hd) as [d1 E1].
  destruct (fp_kept _ _ _ _ _ _ _ _ Hfp i d d1 Hd E1) as [A1 A2].
  destruct (Hk2 i d1 d2 E1 Hd2) as [B1 B2]. split; [congruence|]. by rewrite <- A2, <- A1.
Qed.

(** The write half of [mem_ptr] on a mapped page. *)
Lemma write_mapped w m ext addr type e e0 m0 bytes :
  mem_inv vdso w m ext None -> mem_pt m (PAGE addr) = Some e -> 0 <= PAGE addr < MEM_PAGES ->
  page_bytes w e = Some bytes -> type <> MEM_READ ->
  (e0, m0) = (if bool_decide (type = MEM_WRITE_PTRACE) then
                (set_flags_of e (Z.lor (pt_flags e) (Z.lor P_WRITE P_COW)),
                 mem_pt_new m (PAGE addr) (set_flags_of e (Z.lor (pt_flags e) (Z.lor P_WRITE P_COW))))
              else (e, m)) ->
  has (pt_flags e0) P_WRITE = true -> has (pt_flags e0) P_COW = true ->
  match break_cow w m0 (PAGE addr) e0 with
  | None => no_block w
  | Some (w', m') =>
      access_granted w m ext addr type (mem_ptr_nofault w' m' addr type) w' m' \/
      (no_object w bytes /\ leaked w w' /\ m' = m0)
  end.
Proof.
  intros Hinv He Hp Hb Ht E0 Hw Hc.
  assert (Hdata : forall q, pt_data <$> mem_pt m0 q = pt_data <$> mem_pt m q).
  { case_bool_decide; simplify_eq; [|done]. by apply (mem_pt_new_same_data _ _ e). }
  assert (Hoth : forall q, q <> PAGE addr -> mem_pt m0 q = mem_pt m q).
  { intros q Hq. case_bool_decide; simplify_eq; [|done].
    rewrite mem_pt_new_lookup, decide_False by congruence. done. }
  assert (Hb0 : page_bytes w e0 = Some bytes).
  { rewrite <- Hb. case_bool_decide; simplify_eq; done. }
  pose proof (break_cow_gen w m0 ext (PAGE addr) e0 bytes (mem_inv_same_data _ _ _ _ Hdata Hinv) Hp Hb0) as Hbc.
  destruct (break_cow w m0 (PAGE addr) e0) as [[w' m']|]; [|done].
  destruct Hbc as [[Hinv' Hk Hf (e' & He' & Hfl & Hby & Hr1 & Hx & _ & Hun)]|Hst]; [left|by right].
  assert (Hwr : P_WRITABLE (pt_flags e') = true).
  { rewrite Hfl. revert Hw. flag_solve. }
  destruct (nofault_ptr w' m' ext addr type e' Hinv' He' ltac:(done)) as [Hn Hs].
  split; [done|done|intros q Hq; rewrite Hf, Hoth by done; done|].
  exists e'. split_and!; [done|done|by rewrite Hn| | |].
  - rewrite Hby. unfold bytes_before. by rewrite He.
  - by right.
  - intros _. split; [done|]. intros; split_and!; done.
Qed.

Lemma granted_backed w m ext addr type r w' m' :
  mem_inv vdso w m ext None -> backed w m ->
  access_granted w m ext addr type r w' m' -> backed w' m'.
Proof.
  intros Hinv Hb [Hinv' Hk Hf (e' & He' & _ & _ & Hby & _)] p e Hp.
  destruct (decide (p = PAGE addr)) as [->|Hne].
  - simplify_eq. rewrite Hby. unfold bytes_before. destruct (mem_pt m (PAGE addr)) eqn:E; [by eapply Hb|eauto].
  - rewrite Hf in Hp by done.
    rewrite (kept_page vdso w w' m m' ext ext p e e Hinv Hinv' Hk Hp); [by eapply Hb| |done|done].
    by rewrite Hf.
Qed.

Lemma page_range addr : in_u 32 addr -> 0 <= PAGE addr < MEM_PAGES.
Proof.
  intros [H1 H2]. unfold PAGE, PAGE_BITS. rewrite Z.shiftr_div_pow2 by lia.
  change MEM_PAGES with 1048576. split; [apply Z.div_pos; lia|]. apply Z.div_lt_upper_bound; lia.
Qed.

(** The access to a page that is there without copying. *)
Lemma granted_in_place w m ext addr type e :
  mem_inv vdso w m ext None -> mem_pt m (PAGE addr) = Some e ->
  (type = MEM_READ \/ type = MEM_WRITE /\ has (pt_flags e) P_WRITE = true /\ has (pt_flags e) P_COW = false) ->
  access_granted w m ext addr type (mem_ptr_nofault w m addr type) w m.
Proof.
  intros Hinv He Ht.
  assert (Hwr : type = MEM_WRITE -> P_WRITABLE (pt_flags e) = true).
  { intros ->. destruct Ht as [?|(_ & Hw & Hc)]; [done|]. unfold P_WRITABLE. by rewrite Hw, Hc. }
  destruct (nofault_ptr w m ext addr type e Hinv He Hwr) as [Hn Hs].
  split; [done|by apply survives_kept, survives_refl|done|].
  exists e. split_and!; [done|done|by rewrite Hn|unfold bytes_before; by rewrite He|by left; rewrite He|].
  intros Hr. destruct Ht as [?|(-> & Hw & Hc)]; [done|]. split; [by apply Hwr|].
  intros e1 He1 [Hc1|?]; [|done]. rewrite He in He1. injection He1 as <-. congruence.
Qed.

(** Access to a page after the stack grew to it. *)
Lemma granted_after_grow w m ext addr type w1 m1 r w' m' :
  mem_inv vdso w m ext None -> 0 <= PAGE addr < MEM_PAGES -> mem_pt m (PAGE addr) = None ->
  fresh_page w m ext (PAGE addr) stack_flags zero_page w1 m1 ->
  access_granted w1 m1 ext addr type r w' m' -> access_granted w m ext addr type r w' m'.
Proof.
  intros Hinv Hp Hn Hfp [Hinv' Hk Hf (e' & He' & Hr & Hs & Hby & Hloc & Hw)].
  split; [done|by eapply fresh_page_kept_trans| |].
  - intros q Hq. rewrite Hf by done. by apply Hfp.
  - exists e'. split_and!; [done|done|done| | |].
    + rewrite Hby. unfold bytes_before. rewrite Hn. destruct Hfp as [_ _ _ (e1 & -> & _ & ? & _)]. done.
    + right. pose proof Hfp as [Hi1 Hk1 _ (e1 & He1 & _ & _ & _ & _ & _ & Hun)].
      destruct Hloc as [Hloc|Hloc]; [rewrite He1 in Hloc; simpl in Hloc; by rewrite <- Hloc|].
      intros b Hb i d Hd. destruct (fresh_page_alive _ _ _ _ _ _ _ _ _ _ Hinv Hp Hn Hfp Hd) as [d1 Hd1].
      destruct (Hk1 i d d1 Hd Hd1) as [<- _]. by apply (Hloc b Hb i).
    + intros Ht. split; [by apply Hw|]. intros e He. congruence.
Qed.

(** The tail of [mem_ptr], from the point where the page is mapped. *)
Definition mapped_part (old_ptr : option ptr) (w : world) (m : mem) (addr : Z) (type : access) (e : pt_entry)
    : option (option ptr * world * mem) :=
  let finish (w : world) (m : mem) :=
    let ptr := mem_ptr_nofault w m addr type in
    if bool_decide (old_ptr = None) || bool_decide (old_ptr = ptr) || bool_decide (type = MEM_WRITE_PTRACE)
    then Some (ptr, w, m) else None in
  if bool_decide (type = MEM_READ) then finish w m
  else if bool_decide (type <> MEM_WRITE_PTRACE) && negb (has (pt_flags e) P_WRITE) then Some (None, w, m)
  else
    let '(e, m) :=
      if bool_decide (type = MEM_WRITE_PTRACE) then
        let e := set_flags_of e (Z.lor (pt_flags e) (Z.lor P_WRITE P_COW)) in (e, mem_pt_new m (PAGE addr) e)
      else (e, m) in
    if has (pt_flags e) P_COW then
      match break_cow w m (PAGE addr) e with None => None | Some (w, m) => finish w m end
    else finish w m.

(** Does the access need a copy of the page? *)
Definition copies (e : pt_entry) (type : access) : Prop :=
  type = MEM_WRITE_PTRACE \/ (type = MEM_WRITE /\ has (pt_flags e) P_WRITE = true /\ has (pt_flags e) P_COW = true).
(** The entry as [mem_ptr] leaves it when there is no memory for the object of the copy. *)
Definition uncopied (type : access) (e : pt_entry) : pt_entry :=
  if bool_decide (type = MEM_WRITE_PTRACE) then set_flags_of e (Z.lor (pt_flags e) (Z.lor P_WRITE P_COW)) else e.
Record copy_starved (w : world) (m : mem) (ext : Z -> Z) (addr : Z) (type : access) (e : pt_entry)
    (r : option ptr) (w' : world) (m' : mem) : Prop := mk_copy_starved {
  cs_copies : copies e type;
  cs_refused : exists bytes, page_bytes w e = Some bytes /\ no_object w bytes;
  cs_leaked : leaked w w';
  cs_pt : forall q, mem_pt m' q = if decide (q = PAGE addr) then Some (uncopied type e) else mem_pt m q;
  cs_ptr : r = if decide (type = MEM_WRITE_PTRACE) then entry_ptr w' (uncopied type e) addr else None;
}.

Lemma mapped_part_gen old w m ext addr type e bytes :
  mem_inv vdso w m ext None -> 0 <= PAGE addr < MEM_PAGES -> mem_pt m (PAGE addr) = Some e ->
  page_bytes w e = Some bytes -> (old = None \/ old = mem_ptr_nofault w m addr type) ->
  match mapped_part old w m addr type e with
  | None => copies e type /\ no_block w
  | Some (r, w', m') =>
    if decide (type = MEM_WRITE -> has (pt_flags e) P_WRITE = true)
    then access_granted w m ext addr type r w' m' \/ copy_starved w m ext addr type e r w' m'
    else r = None /\ w' = w /\ m' = m
  end.
Proof.
  intros Hinv Hp He Hb Hold. unfold mapped_part.
  assert (Hfin : bool_decide (old = None) || bool_decide (old = mem_ptr_nofault w m addr type)
                 || bool_decide (type = MEM_WRITE_PTRACE) = true).
  { destruct Hold as [-> | ->].
    - rewrite (bool_decide_eq_true_2 (None = None)) by done. done.
    - set (x := mem_ptr_nofault w m addr type). rewrite (bool_decide_eq_true_2 (x = x)) by done.
      by rewrite orb_true_r. }
  destruct (decide (type = MEM_READ)) as [Hrd|Hrd];
    [rewrite (bool_decide_eq_true_2 _ Hrd)|rewrite (bool_decide_eq_false_2 _ Hrd)].
  { rewrite Hfin. rewrite decide_True by congruence. left.
    apply (granted_in_place w m ext addr type e); auto. }
  destruct (decide (type = MEM_WRITE_PTRACE)) as [Hpt|Hpt].
  - rewrite (bool_decide_eq_false_2 (type <> MEM_WRITE_PTRACE)) by tauto. cbn [andb].
    rewrite (bool_decide_eq_true_2 (type = MEM_WRITE_PTRACE)) by done.
    cbn zeta beta iota. set (e0 := set_flags_of e _).
    assert (Hf0 : has (pt_flags e0) P_WRITE = true /\ has (pt_flags e0) P_COW = true)
      by (unfold e0, set_flags_of; cbn [pt_flags]; split; flag_solve).
    destruct Hf0 as [Hw0 Hc0]. rewrite Hc0.
    pose proof (write_mapped w m ext addr type e e0 (mem_pt_new m (PAGE addr) e0) bytes Hinv He Hp Hb Hrd ltac:(by rewrite bool_decide_eq_true_2) Hw0 Hc0) as Hwm.
    destruct (break_cow w _ (PAGE addr) e0) as [[w' m']|]; [|by split; [left|]].
    rewrite orb_true_r. rewrite decide_True by (subst; done). destruct Hwm as [Hag|(Hno & Hl & ->)]; [by left|right].
    assert (Hu : uncopied type e = e0) by (unfold uncopied; by rewrite bool_decide_eq_true_2).
    assert (Hpte : mem_pt (mem_pt_new m (PAGE addr) e0) (PAGE addr) = Some e0) by (by rewrite mem_pt_new_lookup, decide_True).
    split; [by left|by exists bytes|done| |].
    + intros q. rewrite mem_pt_new_lookup, Hu. destruct (decide (PAGE addr = q)) as [<-|]; [by rewrite decide_True|by rewrite decide_False by congruence].
    + rewrite decide_True, Hu by done. unfold mem_ptr_nofault. rewrite Hpte. by rewrite bool_decide_eq_false_2 by congruence.
  - assert (type = MEM_WRITE) as -> by (destruct type; done).
    rewrite bool_decide_eq_true_2 by done. cbn [andb].
    destruct (has (pt_flags e) P_WRITE) eqn:Ew; cbn [negb].
    2:{ rewrite decide_False by (intros Hx; by specialize (Hx eq_refl)). done. }
    rewrite (bool_decide_eq_false_2 (MEM_WRITE = MEM_WRITE_PTRACE)) by done. cbn zeta beta iota.
    destruct (has (pt_flags e) P_COW) eqn:Ec.
    + pose proof (write_mapped w m ext addr MEM_WRITE e e m bytes Hinv He Hp Hb Hrd ltac:(by rewrite bool_decide_eq_false_2) Ew Ec) as Hwm.
      destruct (break_cow w m (PAGE addr) e) as [[w' m']|]; [|by split; [right|]].
      assert (old = None) as ->.
      { destruct Hold as [?| ->]; [done|]. unfold mem_ptr_nofault, P_WRITABLE. rewrite He, Ew, Ec. done. }
      rewrite (bool_decide_eq_true_2 (None = None)) by done. cbn [orb].
      rewrite decide_True by done. destruct Hwm as [Hag|(Hno & Hl & ->)]; [by left|right].
      split; [by right|by exists bytes|done| |].
      * intros q. unfold uncopied. rewrite bool_decide_eq_false_2 by done. destruct (decide (q = PAGE addr)) as [->|]; [done|done].
      * rewrite decide_False by done. unfold mem_ptr_nofault, P_WRITABLE. rewrite He, Ew, Ec. done.
    + rewrite (bool_decide_eq_false_2 (MEM_WRITE = MEM_WRITE_PTRACE)) in Hfin by done. rewrite Hfin.
      rewrite decide_True by done. left. apply (granted_in_place w m ext addr MEM_WRITE e); auto.
Qed.

(** The host refused memory, and [mem_ptr] returned: the page was to be added
    to the stack and was not, or was to be copied and was not. *)
Inductive starved (w : world) (m : mem) (ext : Z -> Z) (addr : Z) (type : access) (r : option ptr) (w' : world) (m' : mem) : Prop :=
| starved_growth : mem_pt m (PAGE addr) = None -> no_block w \/ no_object w zero_page -> leaked w w' -> m' = m -> r = None ->
    starved w m ext addr type r w' m'
| starved_copy w1 m1 e : grow_stack w m (PAGE addr) = Some (Some (w1, m1)) -> mem_pt m1 (PAGE addr) = Some e ->
    copy_starved w1 m1 ext addr type e r w' m' -> starved w m ext addr type r w' m'.

Lemma mem_ptr_gen w m ext addr type :
  mem_inv vdso w m ext None -> backed w m -> in_u 32 addr ->
  match mem_ptr w m addr type with
  | None => exists w1 m1 e, grow_stack w m (PAGE addr) = Some (Some (w1, m1)) /\
      mem_pt m1 (PAGE addr) = Some e /\ copies e type /\ no_block w1
  | Some (r, w', m') =>
      (accessible m (PAGE addr) type /\ access_granted w m ext addr type r w' m') \/
      (~ accessible m (PAGE addr) type /\ r = None /\ w' = w /\ m' = m) \/
      (accessible m (PAGE addr) type /\ starved w m ext addr type r w' m')
  end.
Proof.
  intros Hinv Hbk Ha. pose proof (page_range addr Ha) as Hp. unfold Memory.mem_ptr.
  pose proof (grow_stack_gen w m ext (PAGE addr) Hinv Hp) as Hg.
  destruct (grow_stack w m (PAGE addr)) as [[[w1 m1]|]|] eqn:Eg; [| |done].
  2:{ destruct Hg as [Hn Hng]. right. left. split; [|done]. unfold accessible. by rewrite Hn. }
  cbv zeta. set (old := mem_ptr_nofault w m addr type).
  destruct Hg as [([e He] & -> & ->)|(Hn & Hgr & [Hfp|(Hno & Hl & ->)])].
  - rewrite He. destruct (Hbk _ _ He) as [bytes Hb].
    pose proof (mapped_part_gen old w m ext addr type e bytes Hinv Hp He Hb (or_intror eq_refl)) as Hmp. unfold mapped_part in Hmp. cbv zeta in Hmp.
    destruct (if bool_decide (type = MEM_READ) then _ else _) as [[[r w'] m']|]; [|exists w, m, e; by destruct Hmp].
    unfold accessible. rewrite He.
    destruct (decide (type = MEM_WRITE -> has (pt_flags e) P_WRITE = true)) as [Hd|Hd]; [|by right; left].
    destruct Hmp as [Hag|Hcs]; [by left|right; right]. split; [done|]. by eapply starved_copy.
  - pose proof Hfp as [Hinv1 _ _ (e & He & Hfl & Hby & _)]. rewrite He.
    pose proof (mapped_part_gen old w1 m1 ext addr type e zero_page Hinv1 Hp He Hby) as Hmp.
    specialize (Hmp ltac:(left; unfold old, mem_ptr_nofault; by rewrite Hn)). unfold mapped_part in Hmp. cbv zeta in Hmp.
    destruct (if bool_decide (type = MEM_READ) then _ else _) as [[[r w'] m']|]; [|exists w1, m1, e; by destruct Hmp].
    rewrite decide_True in Hmp by (intros _; rewrite Hfl; reflexivity). unfold accessible. rewrite Hn.
    destruct Hmp as [Hag|Hcs]; [left; split; [done|]; by eapply granted_after_grow|right; right]. split; [done|]. by eapply starved_copy.
  - rewrite Hn. unfold old, mem_ptr_nofault. rewrite Hn. rewrite bool_decide_eq_true_2 by done. cbn [orb].
    right. right. unfold accessible. rewrite Hn. split; [done|]. by apply starved_growth.
Qed.

(** Also then the invariant holds, and all that lived is as it was: at most a
    block leaked, and an entry that a debugger was to write got flags. *)
Record unharmed (w : world) (m : mem) (ext : Z -> Z) (addr : Z) (w' : world) (m' : mem) : Prop := mk_unharmed {
  uh_inv : mem_inv vdso w' m' ext None;
  uh_kept : kept w w';
  uh_frame : forall q, q <> PAGE addr -> mem_pt m' q = mem_pt m q;
  uh_bytes : forall e', mem_pt m' (PAGE addr) = Some e' -> page_bytes w' e' = bytes_before w m (PAGE addr);
  uh_data : forall e, mem_pt m (PAGE addr) = Some e -> exists e', mem_pt m' (PAGE addr) = Some e' /\ pt_data e' = pt_data e /\ pt_offset e' = pt_offset e;
}.
Lemma uncopied_same type e : pt_data (uncopied type e) = pt_data e /\ pt_offset (uncopied type e) = pt_offset e.
Proof. unfold uncopied. by case_bool_decide. Qed.
Lemma page_bytes_same w e e' : pt_data e' = pt_data e -> pt_offset e' = pt_offset e -> page_bytes w e' = page_bytes w e.
Proof. intros E1 E2. unfold page_bytes. by rewrite E1, E2. Qed.

Lemma starved_unharmed w m ext addr type r w' m' :
  mem_inv vdso w m ext None -> 0 <= PAGE addr < MEM_PAGES -> starved w m ext addr type r w' m' -> unharmed w m ext addr w' m'.
Proof.
  intros Hinv Hp [Hn _ Hl -> _|w1 m1 e Hg He [_ _ Hl Hpt _]].
  - destruct (leaked_ok w m ext w' Hinv Hl) as [Hinv' Hk]. split; [done|done|done| |]; intros e; by rewrite Hn.
  - pose proof (grow_stack_gen w m ext (PAGE addr) Hinv Hp) as Hgg. rewrite Hg in Hgg. destruct (uncopied_same type e) as [Eu1 Eu2].
    assert (forall q, pt_data <$> mem_pt m' q = pt_data <$> mem_pt m1 q) as Hsd.
    { intros q. rewrite Hpt. case_decide as Hq; [|done]. rewrite Hq, He. cbn. by rewrite Eu1. }
    destruct Hgg as [(_ & -> & ->)|(Hn & _ & [Hfp|(_ & _ & ->)])]; [| |congruence].
    + destruct (leaked_ok w m ext w' Hinv Hl) as [Hinv' Hk]. split.
      * by eapply mem_inv_same_data.
      * done.
      * intros q Hq. by rewrite Hpt, decide_False.
      * intros e' He'. rewrite Hpt, decide_True in He' by done. injection He' as <-. rewrite (page_bytes_same w' e) by done.
        unfold bytes_before. rewrite He. by eapply leaked_bytes.
      * intros e1 He1. rewrite He in He1. injection He1 as <-. exists (uncopied type e). split; [by rewrite Hpt, decide_True|done].
    + pose proof Hfp as [Hinv1 _ Hf1 (e1 & He1 & _ & Hb1 & _)]. rewrite He in He1. injection He1 as <-.
      destruct (leaked_ok w1 m1 ext w' Hinv1 Hl) as [Hinv' Hk]. split.
      * by eapply mem_inv_same_data.
      * by eapply fresh_page_kept_trans.
      * intros q Hq. rewrite Hpt, decide_False by done. by apply Hf1.
      * intros e' He'. rewrite Hpt, decide_True in He' by done. injection He' as <-. rewrite (page_bytes_same w' e) by done.
        unfold bytes_before. rewrite Hn. rewrite <- Hb1. by eapply leaked_bytes.
      * intros e2. by rewrite Hn.
Qed.

(** C2: what [mem_ptr] does, whether or not the host has memory.

    When the host gives memory: a pointer is returned exactly when the page is
    mapped (and writable, for a write) or the stack can grow to it.  Then the
    page shows the bytes it showed before (zeros for new stack), a page obtained
    for writing is writable and, if it was copy-on-write, its object is referred
    to by this page alone, no other page table entry changes, no surviving
    object changes, and reference counts stay exact.  Otherwise nothing changes.

    The host crashes in one case only: a page is to be copied and [mmap] refuses
    the memory, which the code copies into all the same.  In every other case in
    which memory is refused the call returns, with NULL for the guest's own
    accesses, and leaves the invariant, all other pages and the bytes of this
    one as they were; a debugger then gets a pointer into the object that the
    page still shares. *)
Theorem mem_ptr_spec w m ext addr type :
  mem_inv vdso w m ext None -> backed w m -> in_u 32 addr ->
  match mem_ptr w m addr type with
  | None => exists w1 m1 e, grow_stack w m (PAGE addr) = Some (Some (w1, m1)) /\
      mem_pt m1 (PAGE addr) = Some e /\ copies e type /\ no_block w1
  | Some (r, w', m') =>
      (accessible m (PAGE addr) type /\ access_granted w m ext addr type r w' m') \/
      (~ accessible m (PAGE addr) type /\ r = None /\ w' = w /\ m' = m) \/
      (accessible m (PAGE addr) type /\ starved w m ext addr type r w' m' /\ unharmed w m ext addr w' m' /\
       (type <> MEM_WRITE_PTRACE -> r = None))
  end.
Proof.
  intros Hinv Hbk Ha. pose proof (mem_ptr_gen w m ext addr type Hinv Hbk Ha) as H. destruct (mem_ptr w m addr type) as [[[r w'] m']|]; [|done].
  destruct H as [H|[H|[Hac Hst]]]; [by left|by right; left|right; right]. split_and!; [done|done|by eapply starved_unharmed, Hst; [|apply page_range]|].
  intros Ht. destruct Hst as [_ _ _ _ Hr|w1 m1 e _ _ [_ _ _ _ Hr]]; [done|]. by rewrite decide_False in Hr.
Qed.

(** *** On a host that has memory *)

Context `{!HostHasMemory mmap_at malloc_data}.

Lemma has_block w : ~ no_block w.
Proof. intros [err H]. destruct (mmap_total w PAGE_SIZE) as [b Hb]. congruence. Qed.
Lemma has_object w bytes : ~ no_object w bytes.
Proof. intros (b & _ & H). destruct (malloc_total (mk_world (<[b := bytes]> (blocks w)) (datas w) (closed w))) as [id Hid]. congruence. Qed.

Lemma grow_stack_ok w m ext page :
  mem_inv vdso w m ext None -> 0 <= page < MEM_PAGES ->
  match grow_stack w m page with
  | None => False
  | Some None => mem_pt m page = None /\ ~ growable m page
  | Some (Some (w', m')) =>
      (is_Some (mem_pt m page) /\ w' = w /\ m' = m) \/
      (mem_pt m page = None /\ growable m page /\
       fresh_page w m ext page stack_flags zero_page w' m')
  end.
Proof.
  intros Hinv Hp. pose proof (grow_stack_gen w m ext page Hinv Hp) as H. destruct (grow_stack w m page) as [[[w' m']|]|]; [|done|done].
  destruct H as [?|(? & ? & [?|([H|H] & _)])]; [by left|by right|by destruct (has_block w)|by destruct (has_object w zero_page)].
Qed.

Lemma break_cow_ok w m ext page e bytes :
  mem_inv vdso w m ext None -> 0 <= page < MEM_PAGES -> page_bytes w e = Some bytes ->
  exists w' m', break_cow w m page e = Some (w', m') /\
    fresh_page w m ext page (Z.ldiff (pt_flags e) P_COW) bytes w' m'.
Proof.
  intros Hinv Hp Hb. pose proof (break_cow_gen w m ext page e bytes Hinv Hp Hb) as H. destruct (break_cow w m page e) as [[w' m']|]; [|by destruct (has_block w)].
  destruct H as [?|[H _]]; [eauto|by destruct (has_object w bytes)].
Qed.

Lemma mem_ptr_ok w m ext addr type :
  mem_inv vdso w m ext None -> backed w m -> in_u 32 addr ->
  exists r w' m', mem_ptr w m addr type = Some (r, w', m') /\
    ((accessible m (PAGE addr) type /\ access_granted w m ext addr type r w' m') \/
     (~ accessible m (PAGE addr) type /\ r = None /\ w' = w /\ m' = m)).
Proof.
  intros Hinv Hbk Ha. pose proof (mem_ptr_gen w m ext addr type Hinv Hbk Ha) as H. destruct (mem_ptr w m addr type) as [[[r w'] m']|].
  - exists r, w', m'. split; [done|]. destruct H as [H|[H|[_ [_ [H|H] _ _ _|w1 m1 e _ _ [_ (bytes & _ & H) _ _ _]]]]]; [by left|by right|by destruct (has_block w)|by destruct (has_object w zero_page)|by destruct (has_object w1 bytes)].
  - destruct H as (w1 & _ & _ & _ & _ & _ & H). by destruct (has_block w1).
Qed.

End Fault.

(** ** A host with memory *)

#[local] Existing Instance small_pages.
(** The first host page after those in use. *)
Definition host_mmap (w : world) (n : Z) : Z + Z := inr (fresh (set_map (D := gset Z) (fun b => b / 4096) (dom (blocks w))) * 4096).
Definition host_malloc (w : world) : option Z := Some (fresh (dom (datas w))).

#[global] Instance host_alloc : HostAlloc host_mmap host_malloc.
Proof.
  split.
  - intros w n b [= <-]. apply not_elem_of_dom. set (X := set_map _ _). intros Hin. apply (is_fresh X). apply elem_of_map.
    exists (fresh X * 4096). split; [|done]. symmetry. by apply Z.div_mul.
  - intros w n b [= <-]. by apply Z.mod_mul.
  - intros w id [= <-]. apply not_elem_of_dom, is_fresh.
Qed.

#[global] Instance host_has_memory : HostHasMemory host_mmap host_malloc.
Proof. split; intros; eexists; reflexivity. Qed.

(** [pt_map] of a block that is long enough keeps every page backed. *)
Lemma pt_map_backed vdso w m ext start pages b id offset flags w' m' bytes :
  mem_inv vdso w m ext None -> mem_inv vdso w' m' ext None -> backed w m ->
  0 <= offset -> datas w !! id = None ->
  blocks w !! b = Some bytes -> pages * PAGE_SIZE + offset <= Z.of_nat (length bytes) ->
  mapped_by w m start pages id b offset flags w' m' -> backed w' m'.
Proof.
  intros Hinv Hinv' Hbk Hoff Hid Hb Hlen [Hpt (d & Hd & Hdb) Hblk Hoth] p e Hp.
  pose proof Hp as Hp'. rewrite Hpt in Hp. destruct (decide (start <= p < start + pages)) as [Hr|Hr].
  - injection Hp as <-. unfold page_bytes. cbn [pt_data pt_offset]. rewrite Hd. simpl.
    rewrite Hdb, Hblk, Hb. simpl. unfold PAGE_BITS. rewrite Z.shiftl_mul_pow2 by lia.
    change PAGE_SIZE with 4096 in *. rewrite block_read_Some by lia. eauto.
  - rewrite (kept_page vdso w w' m m' ext ext p e e Hinv Hinv'); try done; [by eapply Hbk|].
    intros i di di' Hi Hi'. destruct (decide (i = id)) as [->|Hne]; [congruence|].
    destruct (Hoth i di' Hne Hi') as (d0 & Hd0 & E1 & E2). simplify_eq. by rewrite <- E2, E1.
Qed.

Lemma backed_init w : backed w mem_init.
Proof. intros p e. unfold mem_pt, mem_init. simpl. by rewrite lookup_empty. Qed.

(** Two pages mapped writable at 0x400, for the witnesses. *)
Lemma demo_mapped :
  exists w m, pt_map 0 demo_world mem_init 0x400 2 (inr 0x7000) (Some 1) 0 P_WRITE = Some (0, w, m) /\
    mem_inv 0 w m (fun _ => 0) None /\ backed w m /\
    (forall q, mem_pt m q = if decide (0x400 <= q < 0x402)
                            then Some (mk_pt 1 (Z.shiftl (q - 0x400) PAGE_BITS) P_WRITE) else None).
Proof.
  assert (Hb : blocks demo_world !! 0x7000 = Some (replicate (Z.to_nat 8192) 0)) by apply lookup_singleton_eq.
  destruct (pt_map_ok 0 demo_world mem_init (fun _ => 0) 0x400 2 0x7000 1 0 P_WRITE)
    as (w & m & Hm & Hinv & Hmb).
  - by apply mem_init_inv.
  - lia.
  - lia.
  - vm_compute. discriminate.
  - lia.
  - vm_compute. reflexivity.
  - left. reflexivity.
  - reflexivity.
  - eauto.
  - intros i d. unfold demo_world; cbn [datas]. by rewrite lookup_empty.
  - exists w, m. split_and!; [done|done| |].
    + eapply (pt_map_backed 0 demo_world mem_init (fun _ => 0) 0x400 2 0x7000 1 0 P_WRITE); [by apply mem_init_inv|exact Hinv|apply backed_init
        |lia|reflexivity|exact Hb| |exact Hmb]. rewrite length_replicate. vm_compute. discriminate.
    + intros q. rewrite (mb_pt _ _ _ _ _ _ _ _ _ _ Hmb). change (0x400 + 2) with 0x402.
      destruct (decide _); [by rewrite Z.add_0_r|]. unfold mem_pt, mem_init. simpl. by rewrite lookup_empty.
Qed.

Lemma demo_spaces :
  exists w m, spaces_inv 0 w m mem_init (fun _ => 0) /\ backed w m /\
    (forall q, mem_pt m q = if decide (0x400 <= q < 0x402)
                            then Some (mk_pt 1 (Z.shiftl (q - 0x400) PAGE_BITS) P_WRITE) else None).
Proof.
  destruct demo_mapped as (w & m & _ & Hinv & Hbk & Hpt). exists w, m. split; [|done].
  assert (Hno : forall q, mem_pt mem_init q = None).
  { intros q. unfold mem_pt, mem_init. simpl. by rewrite lookup_empty. }
  assert (Hz : forall id, refs mem_init id = 0) by (intros id; by apply refs_zero).
  split.
  - eapply mem_inv_ext; [|exact Hinv]. intros id. cbv beta. by rewrite Hz.
  - destruct Hinv as [Hr He Hs]. split.
    + intros p e. by rewrite Hno.
    + intros id. pose proof (refs_nonneg m id). cbv beta. lia.
    + eapply store_ok_ext; [|exact Hs]. intros id. cbv beta. rewrite Hz. lia.
  - intros id. cbv beta. lia.
Qed.

Lemma pt_copy_on_write_spec_witness :
  exists w m w' src' dst', pt_copy_on_write 0 w m mem_init 0 MEM_PAGES = (0, w', src', dst') /\
    exists e', mem_pt src' 0x401 = Some e' /\ mem_pt dst' 0x401 = Some e' /\
      P_WRITABLE (pt_flags e') = false.
Proof.
  destruct demo_spaces as (w & m & Hinv & Hbk & Hpt).
  destruct (pt_copy_on_write_spec 0 w m mem_init (fun _ => 0) 0 MEM_PAGES Hinv ltac:(vm_compute; discriminate))
    as (w' & src' & dst' & Hc & _ & _ & _ & Hpages).
  exists w, m, w', src', dst'. split; [exact Hc|].
  destruct (Hpages 0x401 (mk_pt 1 4096 P_WRITE)) as (e' & H1 & H2 & _ & _ & _ & H3 & _).
  - vm_compute. split; [discriminate|reflexivity].
  - rewrite Hpt. reflexivity.
  - exists e'. split_and!; [exact H1|exact H2|exact H3].
Defined.

(** A host whose [mmap] refuses everything. *)
Definition no_mmap (w : world) (n : Z) : Z + Z := inl _ENOMEM.
#[global] Instance no_mmap_alloc : HostAlloc no_mmap host_malloc.
Proof. split; [discriminate..|]. intros w id [= <-]. apply not_elem_of_dom, is_fresh. Qed.

Lemma mem_ptr_spec_witness :
  exists w m, (exists r w' m', mem_ptr 0 host_mmap host_malloc w m 0x400010 MEM_WRITE = Some (Some r, w', m') /\
      mem_pt m' 0x401 = mem_pt m 0x401) /\
    mem_ptr 0 no_mmap host_malloc w m 0x400010 MEM_WRITE_PTRACE = None.
Proof.
  destruct demo_mapped as (w & m & _ & Hinv & Hbk & Hpt). exists w, m.
  assert (Ha : in_u 32 0x400010) by (split; [discriminate|reflexivity]).
  assert (He : mem_pt m (PAGE 0x400010) = Some (mk_pt 1 0 P_WRITE)) by (rewrite Hpt; reflexivity). split.
  - pose proof (mem_ptr_ok 0 host_mmap host_malloc w m (fun _ => 0) 0x400010 MEM_WRITE Hinv Hbk Ha) as (r & w' & m' & Hm & _).
    pose proof (mem_ptr_spec 0 host_mmap host_malloc w m (fun _ => 0) 0x400010 MEM_WRITE Hinv Hbk Ha) as H. rewrite Hm in H |- *.
    assert (accessible m (PAGE 0x400010) MEM_WRITE) as Hac by (unfold accessible; rewrite He; intros _; reflexivity).
    destruct H as [[_ [_ _ Hf (e & _ & _ & [p Hr] & _)]]|[[Hn _]|(_ & Hst & _)]].
    + rewrite Hr. exists p, w', m'. split; [reflexivity|]. apply Hf. discriminate.
    + exfalso. exact (Hn Hac).
    + exfalso. destruct Hst as [_ [H|H] _ _ _|w1 m1 e _ _ [_ (bytes & _ & H) _ _ _]];
        [exact (has_block _ _ _ H)|exact (has_object _ _ _ _ H)|exact (has_object _ _ _ _ H)].
  - pose proof (mem_ptr_spec 0 no_mmap host_malloc w m (fun _ => 0) 0x400010 MEM_WRITE_PTRACE Hinv Hbk Ha) as H.
    destruct (mem_ptr 0 no_mmap host_malloc w m 0x400010 MEM_WRITE_PTRACE) as [[[r w'] m']|] eqn:E; [|reflexivity]. exfalso.
    unfold mem_ptr, grow_stack in E. rewrite !He in E.
    change (bool_decide (MEM_WRITE_PTRACE = MEM_READ)) with false in E. change (bool_decide (MEM_WRITE_PTRACE <> MEM_WRITE_PTRACE)) with false in E.
    change (bool_decide (MEM_WRITE_PTRACE = MEM_WRITE_PTRACE)) with true in E. cbv beta iota zeta in E. cbn [andb set_flags_of pt_flags] in E.
    change (has _ P_COW) with true in E. unfold break_cow, no_mmap in E. destruct (page_bytes _ _); discriminate E.
Defined.

(** ** Changing protection *)

Lemma set_flags_loop_ok mprotect flags n : forall m page,
  (forall q, page <= q < page + Z.of_nat n -> is_Some (mem_pt m q)) ->
  (forall e, mprotect e = None) ->
  exists m', set_flags_loop n mprotect m page flags = (0, m') /\ changes m' = changes m /\
    forall q, mem_pt m' q = if decide (page <= q < page + Z.of_nat n)
                            then (fun e => set_flags_of e flags) <$> mem_pt m q else mem_pt m q.
Proof.
  induction n as [|n IH]; intros m page Hall Hmp; cbn [set_flags_loop].
  { exists m. split_and!; [done|done|]. intros q. rewrite decide_False by lia. done. }
  destruct (Hall page ltac:(lia)) as [e He]. rewrite He, Hmp.
  destruct (IH (mem_pt_new m page (set_flags_of e flags)) (page + 1)) as (m' & Hl & Hch & Hq).
  { intros q Hq. rewrite mem_pt_new_lookup. case_decide; [eauto|]. apply Hall. lia. }
  { done. }
  exists m'. rewrite Hl. split_and!; [by destruct (ctrue _)| |].
  - rewrite Hch. unfold mem_pt_new. by destruct (pgdir m !! PGDIR_TOP page).
  - intros q. rewrite Hq, mem_pt_new_lookup.
    destruct (decide (page = q)) as [<-|].
    + rewrite decide_False by lia. rewrite decide_True by lia. by rewrite He.
    + destruct (decide (page + 1 <= q < page + 1 + Z.of_nat n)).
      * rewrite decide_True by lia. done.
      * rewrite decide_False by lia. done.
Qed.

(** Changing protection on a partly unmapped range fails with
    [_ENOMEM] and changes nothing; otherwise, on a host whose [mprotect] does
    not fail, exactly the flags of exactly the pages of the range become the
    given ones, and the change counter moves so that TLBs refill. *)
Theorem pt_set_flags_spec mprotect m start pages flags :
  0 <= pages -> (forall e, mprotect e = None) ->
  ((exists q, start <= q < start + pages /\ mem_pt m q = None) /\
   pt_set_flags mprotect m start pages flags = (_ENOMEM, m)) \/
  ((forall q, start <= q < start + pages -> is_Some (mem_pt m q)) /\
   exists m', pt_set_flags mprotect m start pages flags = (0, m') /\
     changes m' = u64 (changes m + 1) /\
     forall q, mem_pt m' q = if decide (start <= q < start + pages)
                             then (fun e => set_flags_of e flags) <$> mem_pt m q else mem_pt m q).
Proof.
  intros Hp Hmp. unfold pt_set_flags.
  destruct (all_pages (is_mapped m) start (Z.to_nat pages)) eqn:E; cbn [negb].
  - right. rewrite all_pages_true in E.
    assert (Hall : forall q, start <= q < start + pages -> is_Some (mem_pt m q)).
    { intros q Hq. apply is_mapped_true, E. lia. }
    split; [done|]. destruct (set_flags_loop_ok mprotect flags (Z.to_nat pages) m start)
      as (m' & Hl & Hch & Hq); [intros q Hq; apply Hall; lia|done|].
    rewrite Hl. exists (mem_changed m'). rewrite Z2Nat.id in Hq by lia. split_and!; [done| |].
    + cbn [changes mem_changed]. by rewrite Hch.
    + intros q. by rewrite mem_pt_changed.
  - left. split; [|done]. apply all_pages_false in E as (q & ? & ?%is_mapped_false).
    exists q. split; [lia|done].
Qed.

Lemma pt_set_flags_spec_witness :
  exists w m, spaces_inv 0 w m mem_init (fun _ => 0) /\
    exists m', pt_set_flags (fun _ => None) m 0x400 2 P_READ = (0, m') /\
      pt_flags <$> mem_pt m' 0x401 = Some P_READ.
Proof.
  destruct demo_spaces as (w & m & Hinv & Hbk & Hpt). exists w, m. split; [exact Hinv|].
  destruct (pt_set_flags_spec (fun _ => None) m 0x400 2 P_READ) as [[(q & Hq & Hn) _]|[_ (m' & Hs & _ & Hm')]].
  - lia.
  - done.
  - exfalso. rewrite Hpt in Hn. rewrite decide_True in Hn by lia. discriminate.
  - exists m'. split; [exact Hs|]. rewrite Hm', Hpt. reflexivity.
Defined.

(** [pt_set_flags] overwrites the whole flag word, [P_COW] included:
    making a page writable in the child of a fork lets the child write
    through to the page of the parent without a copy. *)
Theorem pt_set_flags_loses_cow :
  exists w src dst dst' e, spaces_inv 0 w src dst (fun _ => 0) /\
    mem_pt src 0x400 = Some e /\ P_WRITABLE (pt_flags e) = false /\ has (pt_flags e) P_COW = true /\
    pt_set_flags (fun _ => None) dst 0x400 1 (Z.lor P_READ P_WRITE) = (0, dst') /\
    is_Some (mem_ptr_nofault w dst' 0x400000 MEM_WRITE) /\
    mem_ptr_nofault w dst' 0x400000 MEM_WRITE = mem_ptr_nofault w src 0x400000 MEM_READ.
Proof.
  destruct demo_spaces as (w0 & m & Hinv & Hbk & Hpt).
  destruct (cow_loop_ok 0 (fun _ => 0) (Z.to_nat 0x400) w0 m mem_init 0x400 0x401 Hinv ltac:(lia))
    as (w & src & dst & _ & Hinv' & _ & Hs & Hd).
  assert (E0 : mem_pt m 0x400 = Some (mk_pt 1 0 P_WRITE)) by (rewrite Hpt; reflexivity).
  destruct (set_flags_loop_ok (fun _ => None) (Z.lor P_READ P_WRITE) 1 dst 0x400) as (m' & Hl & _ & Hq).
  { intros q Hq. assert (q = 0x400) as -> by lia.
    rewrite Hd, E0, decide_True by (split; [lia|done]). eauto. }
  { done. }
  exists w, src, dst, (mem_changed m'), (cow_entry (mk_pt 1 0 P_WRITE)).
  assert (Esrc : mem_pt src 0x400 = Some (cow_entry (mk_pt 1 0 P_WRITE))) by (rewrite Hs, E0; reflexivity).
  assert (Edst : mem_pt dst 0x400 = Some (cow_entry (mk_pt 1 0 P_WRITE))).
  { rewrite Hd, E0, decide_True by (split; [lia|done]). done. }
  assert (Em' : mem_pt (mem_changed m') 0x400 = Some (set_flags_of (cow_entry (mk_pt 1 0 P_WRITE)) (Z.lor P_READ P_WRITE))).
  { rewrite mem_pt_changed, Hq, decide_True, Edst by lia. done. }
  destruct (mapped_live _ _ _ _ _ _ _ (si_src _ _ _ _ _ Hinv') Esrc) as (d & Hdd & _).
  assert (Hptr : mem_ptr_nofault w (mem_changed m') 0x400000 MEM_WRITE = Some (d_block d, 0)).
  { unfold mem_ptr_nofault. change (PAGE 0x400000) with 0x400. rewrite Em'. cbn. unfold entry_ptr.
    change (pt_data (set_flags_of _ _)) with (pt_data (cow_entry (mk_pt 1 0 P_WRITE))). by rewrite Hdd. }
  split_and!; [done|done|reflexivity|reflexivity| |rewrite Hptr; eauto|].
  - unfold pt_set_flags. change (Z.to_nat 1) with 1%nat. cbn [all_pages]. unfold is_mapped.
    rewrite Edst. cbn [negb andb]. by rewrite Hl.
  - rewrite Hptr. unfold mem_ptr_nofault. change (PAGE 0x400000) with 0x400. rewrite Esrc. cbn.
    unfold entry_ptr. by rewrite Hdd.
Qed.

End Cow.
