(* ===== verification/User.v ===== *)
(** * Kernel access to guest memory (kernel/user.c)

    [__user_read_task] and [__user_write_task] copy page by page through
    [mem_ptr]; the other functions of the file call them.  A [None] result is a
    crash of the host (a [memcpy] outside a buffer, a failed assertion). *)

From stdpp Require Import gmap.
From S2P Require Import Prelude Errno Memory Cow.

Module User.
Import Memory Cow.

(** [memcpy] from and to a host pointer. *)
Definition memcpy_from (w : world) (p : ptr) (n : Z) : option (list Z) :=
  b ← blocks w !! p.1; block_read b p.2 n.

Definition memcpy_to (w : world) (p : ptr) (bytes : list Z) : option world :=
  b ← blocks w !! p.1;
  b' ← block_write b p.2 bytes;
  Some (mk_world (<[p.1 := b']> (blocks w)) (datas w) (closed w)).

(** The end of the part of the range that lies in the page of [p]; [addr_t] has
    32 bits and the comparison is done at 64. *)
Definition chunk_end (p addr count : Z) : Z :=
  let ce := u32 (Z.shiftl (PAGE p + 1) PAGE_BITS) in
  if ce >? u64 (addr + count) then u32 (addr + count) else ce.

Section WithHost.
Context {PS : PageSize} (vdso : Z) (mmap_at : world -> Z -> Z + Z) (malloc_data : world -> option Z).
Abbreviation mem_ptr := (Memory.mem_ptr vdso mmap_at malloc_data).

(** The loop of [__user_read_task]: the result code, the buffer, the state.
    Running out of fuel is [None]. *)
Fixpoint read_loop (fuel : nat) (w : world) (m : mem) (addr count : Z) (buf : list Z) (p : Z)
    : option (Z * list Z * world * mem) :=
  if p <? u64 (addr + count) then
    match fuel with
    | O => None
    | S fuel =>
        let ce := chunk_end p addr count in
        match mem_ptr w m p MEM_READ with
        | None => None
        | Some (None, w, m) => Some (1, buf, w, m)
        | Some (Some q, w, m) =>
            bytes ← memcpy_from w q (u32 (ce - p));
            buf ← block_write buf (u32 (p - addr)) bytes;
            read_loop fuel w m addr count buf ce
        end
    end
  else Some (0, buf, w, m).

(** Each turn copies at least one byte, so [count] turns are enough. *)
Definition user_read_task (w : world) (m : mem) (addr : Z) (buf : list Z) (count : Z)
    : option (Z * list Z * world * mem) :=
  read_loop (Z.to_nat count) w m addr count buf addr.

Fixpoint write_loop (fuel : nat) (w : world) (m : mem) (addr count : Z) (buf : list Z)
    (ptrace : bool) (p : Z) : option (Z * world * mem) :=
  if p <? u64 (addr + count) then
    match fuel with
    | O => None
    | S fuel =>
        let ce := chunk_end p addr count in
        match mem_ptr w m p (if ptrace then MEM_WRITE_PTRACE else MEM_WRITE) with
        | None => None
        | Some (None, w, m) => Some (1, w, m)
        | Some (Some q, w, m) =>
            bytes ← block_read buf (u32 (p - addr)) (u32 (ce - p));
            w ← memcpy_to w q bytes;
            write_loop fuel w m addr count buf ptrace ce
        end
    end
  else Some (0, w, m).

Definition user_write_task_gen (w : world) (m : mem) (addr : Z) (buf : list Z) (count : Z)
    (ptrace : bool) : option (Z * world * mem) :=
  write_loop (Z.to_nat count) w m addr count buf ptrace addr.

Definition user_write_task (w : world) (m : mem) (addr : Z) (buf : list Z) (count : Z) :=
  user_write_task_gen w m addr buf count false.
Definition user_write_task_ptrace (w : world) (m : mem) (addr : Z) (buf : list Z) (count : Z) :=
  user_write_task_gen w m addr buf count true.

(** [user_read_string]: [i] bytes of [buf] are filled, [n] may still be. *)
Fixpoint read_string_loop (n : nat) (w : world) (m : mem) (addr : Z) (buf : list Z) (i : Z)
    : option (Z * list Z * world * mem) :=
  match n with
  | O => Some (0, buf, w, m)
  | S n =>
      c ← block_read buf i 1;
      r ← user_read_task w m (u32 (addr + i)) c 1;
      let '(res, c, w, m) := r in
      buf ← block_write buf i c;
      if ctrue res then Some (1, buf, w, m)
      else match c with
           | [0] => Some (0, buf, w, m)
           | _ => read_string_loop n w m addr buf (i + 1)
           end
  end.

Definition user_read_string (w : world) (m : mem) (addr : Z) (buf : list Z) (max : Z)
    : option (Z * list Z * world * mem) :=
  if addr =? 0 then Some (1, buf, w, m)
  else read_string_loop (Z.to_nat max) w m addr buf 0.

(** [user_write_string]: the rest of the string, its NUL included. *)
Fixpoint write_string_loop (w : world) (m : mem) (addr : Z) (rest : list Z) (i : Z)
    : option (Z * world * mem) :=
  match rest with
  | [] => None
  | c :: rest =>
      r ← user_write_task w m (u32 (addr + i)) [c] 1;
      let '(res, w, m) := r in
      if ctrue res then Some (1, w, m)
      else if c =? 0 then Some (0, w, m)
      else write_string_loop w m addr rest (i + 1)
  end.

Definition user_write_string (w : world) (m : mem) (addr : Z) (buf : list Z)
    : option (Z * world * mem) :=
  if addr =? 0 then Some (1, w, m) else write_string_loop w m addr buf 0.

End WithHost.

(** ** Pages and offsets *)

Lemma PAGE_div a : PAGE a = a / 4096.
Proof. unfold PAGE, PAGE_BITS. by rewrite Z.shiftr_div_pow2 by lia. Qed.

Lemma PGOFFSET_mod a : PGOFFSET a = a mod 4096.
Proof. unfold PGOFFSET. change (PAGE_SIZE - 1) with (Z.ones 12). by rewrite Z.land_ones by lia. Qed.

Lemma PAGE_split a : a = PAGE a * 4096 + PGOFFSET a /\ 0 <= PGOFFSET a < 4096.
Proof.
  rewrite PAGE_div, PGOFFSET_mod. pose proof (Z.div_mod a 4096). pose proof (Z.mod_pos_bound a 4096). lia.
Qed.

(** The addresses of one page. *)
Lemma same_page a k : PGOFFSET a + k < 4096 -> 0 <= k -> PAGE (a + k) = PAGE a /\ PGOFFSET (a + k) = PGOFFSET a + k.
Proof.
  intros. pose proof (PAGE_split a). pose proof (PAGE_split (a + k)). lia.
Qed.

(** The first address of the last page of the address space. *)
Definition LAST_PAGE : Z := 0xfffff000.

(** Below the last page no 32-bit computation wraps. *)
Lemma chunk_end_ok p addr count :
  0 <= addr -> addr <= p < addr + count -> addr + count <= LAST_PAGE ->
  chunk_end p addr count = Z.min ((PAGE p + 1) * 4096) (addr + count) /\
  p < chunk_end p addr count <= addr + count.
Proof.
  intros H0 Hp Hend. unfold LAST_PAGE in *. pose proof (PAGE_split p). unfold chunk_end, PAGE_BITS.
  rewrite Z.shiftl_mul_pow2 by lia. change (2 ^ 12) with 4096.
  rewrite (wrap_small 32), (wrap_small 64), (wrap_small 32) by (unfold in_u; lia).
  rewrite Z.gtb_ltb. destruct (Z.ltb_spec (addr + count) ((PAGE p + 1) * 4096)); lia.
Qed.

(** ** The guest's view of its memory *)

Definition guest_byte (w : world) (m : mem) (a : Z) : option Z :=
  e ← mem_pt m (PAGE a); bs ← page_bytes w e; bs !! Z.to_nat (PGOFFSET a).

(** Different pages of an address space lie in different places. *)
Definition unaliased (w : world) (m : mem) : Prop :=
  forall p q ep eq b op oq, p <> q -> mem_pt m p = Some ep -> mem_pt m q = Some eq ->
    location w ep = Some (b, op) -> location w eq = Some (b, oq) ->
    op + PAGE_SIZE <= oq \/ oq + PAGE_SIZE <= op.

Record space_ok (vdso : Z) (w : world) (m : mem) (ext : Z -> Z) : Prop := mk_space_ok {
  sp_inv : mem_inv vdso w m ext None;
  sp_backed : backed w m;
  sp_unaliased : unaliased w m;
}.

(** Bytes that were mapped before read the same after. *)
Definition unchanged (w : world) (m : mem) (w' : world) (m' : mem) : Prop :=
  forall a, is_Some (guest_byte w m a) -> guest_byte w' m' a = guest_byte w m a.

Lemma unchanged_refl w m : unchanged w m w m.
Proof. by intros a _. Qed.

Lemma unchanged_trans w m w1 m1 w2 m2 :
  unchanged w m w1 m1 -> unchanged w1 m1 w2 m2 -> unchanged w m w2 m2.
Proof. intros H1 H2 a Ha. rewrite <- (H1 a Ha). apply H2. by rewrite (H1 a Ha). Qed.

(** The block, offset and content of a backed entry. *)
Lemma page_bytes_block w e bs :
  page_bytes w e = Some bs ->
  exists d b, datas w !! pt_data e = Some d /\ blocks w !! d_block d = Some b /\
    location w e = Some (d_block d, pt_offset e) /\
    0 <= pt_offset e /\ pt_offset e + 4096 <= Z.of_nat (length b) /\
    bs = take 4096 (drop (Z.to_nat (pt_offset e)) b).
Proof.
  unfold page_bytes, location. destruct (datas w !! pt_data e) as [d|]; [|done]. simpl.
  destruct (blocks w !! d_block d) as [b|] eqn:Eb; [|done]. simpl. unfold block_read.
  change PAGE_SIZE with 4096. change (0 <=? 4096) with true. change (Z.to_nat 4096) with 4096%nat.
  destruct (Z.leb_spec 0 (pt_offset e)); [|done].
  destruct (Z.leb_spec (pt_offset e + 4096) (Z.of_nat (length b))); [|done].
  injection 1 as <-. exists d, b. done.
Qed.

Lemma guest_byte_Some w m a :
  is_Some (guest_byte w m a) <-> exists e, mem_pt m (PAGE a) = Some e /\ is_Some (page_bytes w e).
Proof.
  unfold guest_byte. destruct (mem_pt m (PAGE a)) as [e|] eqn:E; simpl.
  2:{ split; [intros [? ?]; done|intros (e & ? & _); done]. }
  destruct (page_bytes w e) as [bs|] eqn:Eb; simpl.
  2:{ split; [intros [? ?]; done|intros (e' & ? & [? ?]); congruence]. }
  split; [eauto|]. intros _. apply lookup_lt_is_Some. rewrite (page_bytes_length _ _ _ Eb).
  pose proof (PAGE_split a). change PAGE_SIZE with 4096. lia.
Qed.

(** Reading a chunk of one page. *)
Lemma read_chunk w m e a q n :
  mem_pt m (PAGE a) = Some e -> is_Some (page_bytes w e) -> entry_ptr w e a = Some q ->
  0 <= n -> PGOFFSET a + n <= 4096 ->
  exists bytes, memcpy_from w q n = Some bytes /\ length bytes = Z.to_nat n /\
    forall k, (k < Z.to_nat n)%nat -> bytes !! k = guest_byte w m (a + Z.of_nat k).
Proof.
  intros He [bs Hbs] Hq Hn Hoff. pose proof (PAGE_split a).
  destruct (page_bytes_block w e bs Hbs) as (d & b & Hd & Hb & _ & Ho & Hl & ->).
  unfold entry_ptr in Hq. rewrite Hd in Hq. injection Hq as <-. unfold memcpy_from. simpl. rewrite Hb. simpl.
  rewrite block_read_Some by lia. eexists. split; [done|]. split.
  { rewrite length_take, length_drop. lia. }
  intros k Hk. destruct (same_page a (Z.of_nat k) ltac:(lia) ltac:(lia)) as [E1 E2].
  unfold guest_byte. rewrite E1, He. simpl. rewrite Hbs. simpl. rewrite E2.
  rewrite !lookup_take_lt by lia. rewrite !lookup_drop. f_equal. lia.
Qed.

(** A guest byte is a byte of the block of its page. *)
Lemma guest_byte_block w m a e d b :
  mem_pt m (PAGE a) = Some e -> is_Some (page_bytes w e) ->
  datas w !! pt_data e = Some d -> blocks w !! d_block d = Some b ->
  0 <= pt_offset e /\ pt_offset e + 4096 <= Z.of_nat (length b) /\
  guest_byte w m a = b !! Z.to_nat (pt_offset e + PGOFFSET a).
Proof.
  intros He [bs Hbs] Hd Hb. destruct (page_bytes_block w e bs Hbs) as (d' & b' & Hd' & Hb' & _ & Ho & Hl & E).
  simplify_eq. pose proof (PAGE_split a). split_and!; [done|done|].
  unfold guest_byte. rewrite He. simpl. rewrite Hbs. simpl.
  rewrite lookup_take_lt, lookup_drop by lia. f_equal. lia.
Qed.

(** A [memcpy] into a block keeps sizes, owners and counts. *)
Lemma memcpy_to_inv vdso w m ext q bytes w' :
  mem_inv vdso w m ext None -> memcpy_to w q bytes = Some w' ->
  mem_inv vdso w' m ext None /\ datas w' = datas w /\
  (forall b, b <> q.1 -> blocks w' !! b = blocks w !! b) /\
  (forall b, length <$> blocks w' !! b = length <$> blocks w !! b).
Proof.
  intros [Hr He [Hc Hd Hb Ho]] Hm. unfold memcpy_to in Hm.
  destruct (blocks w !! q.1) as [b0|] eqn:E0; [|done]. simpl in Hm.
  destruct (block_write b0 q.2 bytes) as [b1|] eqn:E1; [|done]. simpl in Hm. simplify_eq.
  cbn [datas blocks]. split_and!; [|done|intros; by rewrite lookup_insert_ne|].
  - split; [done|done|]. split; cbn [datas blocks]; [done|done| |done].
    intros i d Hi. destruct (decide (q.1 = d_block d)) as [E|E].
    + rewrite E, lookup_insert_eq. eauto.
    + rewrite lookup_insert_ne by done. eauto.
  - intros b. destruct (decide (q.1 = b)) as [<-|]; [|by rewrite lookup_insert_ne].
    rewrite lookup_insert_eq, E0. simpl. f_equal. by eapply block_write_length.
Qed.

Lemma same_lengths_bytes w w' e :
  datas w' = datas w -> (forall b, length <$> blocks w' !! b = length <$> blocks w !! b) ->
  is_Some (page_bytes w e) -> is_Some (page_bytes w' e).
Proof.
  intros Hd Hl [bs Hbs]. destruct (page_bytes_block _ _ _ Hbs) as (d & b & E1 & E2 & _ & Ho & Hlen & _).
  unfold page_bytes. rewrite Hd, E1. simpl. specialize (Hl (d_block d)). rewrite E2 in Hl.
  destruct (blocks w' !! d_block d) as [b'|]; [|done]. simpl in *. injection Hl as Hl.
  change PAGE_SIZE with 4096. rewrite block_read_Some by lia. eauto.
Qed.

(** Writing a chunk of one page changes exactly those bytes of the view. *)
Lemma write_chunk vdso w m ext e a q bytes :
  space_ok vdso w m ext -> mem_pt m (PAGE a) = Some e -> entry_ptr w e a = Some q ->
  PGOFFSET a + Z.of_nat (length bytes) <= 4096 ->
  exists w', memcpy_to w q bytes = Some w' /\ space_ok vdso w' m ext /\ datas w' = datas w /\
    (forall b, location w e <> Some (b, pt_offset e) -> blocks w' !! b = blocks w !! b) /\
    forall x, guest_byte w' m x =
      if decide (a <= x < a + Z.of_nat (length bytes)) then bytes !! Z.to_nat (x - a)
      else guest_byte w m x.
Proof.
  intros [Hinv Hbk Hal] He Hq Hoff. pose proof (PAGE_split a) as [Ha Ha'].
  destruct (Hbk _ _ He) as [bs Hbs].
  destruct (page_bytes_block w e bs Hbs) as (d & b & Hd & Hb & Hloc & Ho & Hl & _).
  unfold entry_ptr in Hq. rewrite Hd in Hq. injection Hq as <-.
  destruct (memcpy_to w (d_block d, pt_offset e + PGOFFSET a) bytes) as [w'|] eqn:Em.
  2:{ exfalso. unfold memcpy_to in Em. simpl in Em. rewrite Hb in Em. simpl in Em.
      rewrite block_write_Some in Em by lia. done. }
  destruct (memcpy_to_inv _ _ _ _ _ _ _ Hinv Em) as (Hinv' & Hds & Hoth & Hlens).
  exists w'. split; [done|]. assert (Hbk' : backed w' m).
  { intros p e' Hp. eapply same_lengths_bytes; [exact Hds|exact Hlens|by eapply Hbk]. }
  assert (Hlocs : forall e', location w' e' = location w e').
  { intros e'. unfold location. by rewrite Hds. }
  split_and!; [split; [done|done|]|done| |].
  - intros p q ep eq b0 op oq. rewrite !Hlocs. apply Hal.
  - intros b0 Hb0. apply Hoth. simpl. congruence.
  - intros x. unfold memcpy_to in Em. simpl in Em. rewrite Hb in Em. simpl in Em.
    destruct (block_write b (pt_offset e + PGOFFSET a) bytes) as [b'|] eqn:Ew; [|done].
    simpl in Em. injection Em as <-.
    pose proof (block_write_lookup _ _ _ _ (Z.to_nat (pt_offset e + PGOFFSET x)) Ew) as Hlk.
    destruct (decide (PAGE x = PAGE a)) as [Ex|Ex].
    + pose proof (PAGE_split x).
      destruct (guest_byte_block w m x e d b ltac:(congruence) ltac:(eauto) Hd Hb) as (_ & _ & ->).
      destruct (guest_byte_block (mk_world (<[d_block d := b']> (blocks w)) (datas w) (closed w)) m x e d b')
        as (_ & _ & ->); [congruence|by eapply Hbk'|done|apply lookup_insert_eq|].
      rewrite Hlk. destruct (decide (a <= x < a + Z.of_nat (length bytes))).
      * rewrite decide_True by lia. f_equal. lia.
      * rewrite decide_False by lia. done.
    + rewrite decide_False.
      2:{ intros Hx. apply Ex. destruct (same_page a (x - a)) as [E _]; [lia|lia|].
          replace (a + (x - a)) with x in E by lia. done. }
      destruct (mem_pt m (PAGE x)) as [ex|] eqn:Eex; [|unfold guest_byte; by rewrite Eex].
      destruct (Hbk _ _ Eex) as [bx Hbx].
      destruct (page_bytes_block _ _ _ Hbx) as (dx & b2 & Hdx & Hb2 & Hlx & Hox & Hlx2 & _).
      destruct (guest_byte_block w m x ex dx b2 Eex ltac:(eauto) Hdx Hb2) as (_ & _ & ->).
      pose proof (PAGE_split x). destruct (decide (d_block dx = d_block d)) as [Eb|Eb].
      * destruct (guest_byte_block (mk_world (<[d_block d := b']> (blocks w)) (datas w) (closed w)) m x ex dx b')
          as (_ & _ & ->); [done|by eapply Hbk'|done|cbn [blocks]; rewrite Eb; apply lookup_insert_eq|].
        rewrite (block_write_lookup _ _ _ _ _ Ew). rewrite Eb in Hb2, Hlx. simplify_eq.
        pose proof (Hal _ _ _ _ _ _ _ Ex Eex He Hlx Hloc). change PAGE_SIZE with 4096 in *.
        rewrite decide_False by lia. done.
      * destruct (guest_byte_block (mk_world (<[d_block d := b']> (blocks w)) (datas w) (closed w)) m x ex dx b2)
          as (_ & _ & ->); [done|by eapply Hbk'|done|cbn [blocks]; by rewrite lookup_insert_ne|done].
Qed.

(** ** [mem_ptr] keeps the view *)

Section Access.
Context {PS : PageSize} (vdso : Z) (mmap_at : world -> Z -> Z + Z) (malloc_data : world -> option Z).
Context `{!HostAlloc mmap_at malloc_data, !HostHasMemory mmap_at malloc_data}.
Abbreviation mem_ptr := (Memory.mem_ptr vdso mmap_at malloc_data).

(** Pages other than the accessed one stay where they were. *)
Lemma kept_location w w' m m' ext p e :
  mem_inv vdso w m ext None -> mem_inv vdso w' m' ext None -> kept w w' ->
  mem_pt m p = Some e -> mem_pt m' p = Some e -> location w' e = location w e.
Proof.
  intros Hi Hi' Hk He He'.
  destruct (mapped_live _ _ _ _ _ _ _ Hi He) as (d & Hd & _).
  destruct (mapped_live _ _ _ _ _ _ _ Hi' He') as (d' & Hd' & _).
  unfold location. rewrite Hd, Hd'. simpl. by destruct (Hk _ _ _ Hd Hd') as [-> _].
Qed.

Lemma granted_unaliased w m ext addr type r w' m' :
  space_ok vdso w m ext -> access_granted vdso w m ext addr type r w' m' -> unaliased w' m'.
Proof.
  intros [Hinv Hbk Hal] [Hinv' Hk Hf (e' & He' & _ & _ & _ & Hloc & _)].
  assert (Hone : forall q eq b op oq, q <> PAGE addr -> mem_pt m' q = Some eq ->
    location w' e' = Some (b, op) -> location w' eq = Some (b, oq) ->
    op + PAGE_SIZE <= oq \/ oq + PAGE_SIZE <= op).
  { intros q eq b op oq Hq Heq Hl1 Hl2. pose proof Heq as Heq'. rewrite Hf in Heq by done.
    rewrite (kept_location w w' m m' ext q eq) in Hl2 by done. destruct Hloc as [Hs|Hu].
    - destruct (mem_pt m (PAGE addr)) as [e|] eqn:Ee; simpl in Hs; [|congruence].
      rewrite Hl1 in Hs. apply (Hal (PAGE addr) q e eq b); congruence.
    - exfalso. unfold location in Hl2. destruct (datas w !! pt_data eq) as [d|] eqn:Ed; [|done].
      simpl in Hl2. injection Hl2 as <- _. apply (Hu (d_block d) ltac:(by rewrite Hl1) _ _ Ed). done. }
  intros p q ep eq b op oq Hpq Hp Hq Hlp Hlq.
  destruct (decide (p = PAGE addr)) as [->|Hp']; [|destruct (decide (q = PAGE addr)) as [->|Hq']].
  - simplify_eq. eapply (Hone q); done.
  - simplify_eq. apply or_comm. eapply (Hone p); done.
  - pose proof Hp as Hp2. pose proof Hq as Hq2. rewrite Hf in Hp, Hq by done.
    rewrite (kept_location w w' m m' ext p ep) in Hlp by done.
    rewrite (kept_location w w' m m' ext q eq) in Hlq by done. by eapply (Hal p q).
Qed.

(** What an access does to the view, in one statement. *)
Record view_access (w : world) (m : mem) (ext : Z -> Z) (addr : Z) (type : access)
    (q : ptr) (w' : world) (m' : mem) : Prop := mk_view_access {
  va_ok : space_ok vdso w' m' ext;
  va_same : unchanged w m w' m';
  va_granted : access_granted vdso w m ext addr type (Some q) w' m';
  va_entry : exists e, mem_pt m' (PAGE addr) = Some e /\ entry_ptr w' e addr = Some q;
}.

Lemma granted_unchanged w m ext addr type r w' m' :
  space_ok vdso w m ext -> access_granted vdso w m ext addr type r w' m' -> unchanged w m w' m'.
Proof.
  intros [Hinv Hbk Hal] [Hinv' Hk Hf (e' & He' & _ & _ & Hby & _)] a Ha.
  apply guest_byte_Some in Ha as (e & He & _). unfold guest_byte.
  destruct (decide (PAGE a = PAGE addr)) as [E|E].
  - rewrite E in *. rewrite He, He'. simpl. rewrite Hby. unfold bytes_before. by rewrite He.
  - rewrite (Hf (PAGE a) E), He. simpl.
    rewrite (kept_page vdso w w' m m' ext ext (PAGE a) e e Hinv Hinv' Hk He); [done| |done|done].
    by rewrite Hf.
Qed.

Lemma mem_ptr_view w m ext addr type :
  space_ok vdso w m ext -> in_u 32 addr ->
  (exists q w' m', mem_ptr w m addr type = Some (Some q, w', m') /\
     accessible m (PAGE addr) type /\ view_access w m ext addr type q w' m') \/
  (mem_ptr w m addr type = Some (None, w, m) /\ ~ accessible m (PAGE addr) type).
Proof.
  intros Hok Ha. pose proof Hok as [Hinv Hbk Hal].
  destruct (mem_ptr_ok vdso mmap_at malloc_data w m ext addr type Hinv Hbk Ha)
    as (r & w' & m' & Hm & [[Hacc Hg]|(Hn & -> & -> & ->)]).
  - left. pose proof Hg as [Hinv' _ _ (e & He & Hr & [q Hq] & _)]. subst r. rewrite Hq in Hm, Hg.
    exists q, w', m'. split_and!; [done|done|]. split.
    + split; [done|eapply granted_backed; [exact Hinv|exact Hbk|exact Hg]|].
      eapply granted_unaliased; [exact Hok|exact Hg].
    + eapply granted_unchanged; [exact Hok|exact Hg].
    + done.
    + eauto.
  - right. done.
Qed.

(** ** Reading *)

(** The state of the read loop at [p]: the bytes before [p] are in the buffer. *)
Lemma read_loop_ok ext addr count fuel : forall w m buf p,
  space_ok vdso w m ext -> 0 <= addr -> addr <= p <= addr + count -> addr + count <= LAST_PAGE ->
  addr + count - p <= Z.of_nat fuel -> Z.of_nat (length buf) = count ->
  (forall k, (k < Z.to_nat (p - addr))%nat -> is_Some (buf !! k) /\ buf !! k = guest_byte w m (addr + Z.of_nat k)) ->
  exists res buf' w' m', read_loop vdso mmap_at malloc_data fuel w m addr count buf p = Some (res, buf', w', m') /\
    space_ok vdso w' m' ext /\ unchanged w m w' m' /\ length buf' = length buf /\
    ((res = 0 /\ forall k, (k < Z.to_nat count)%nat ->
        is_Some (buf' !! k) /\ buf' !! k = guest_byte w' m' (addr + Z.of_nat k)) \/
     (res = 1 /\ exists a, addr <= a < addr + count /\ ~ accessible m' (PAGE a) MEM_READ)).
Proof.
  induction fuel as [|fuel IH]; intros w m buf p Hok H0 Hp Hend Hf Hlen Hpre.
  all: cbn [read_loop]; rewrite (wrap_small 64) by (unfold in_u, LAST_PAGE in *; lia);
       destruct (Z.ltb_spec p (addr + count)) as [Hlt|Hge]; [try lia|].
  all: try (exists 0, buf, w, m; split_and!; [done|done|apply unchanged_refl|done|]; left; split; [done|];
       intros k Hk; apply Hpre; lia).
  destruct (chunk_end_ok p addr count H0 ltac:(lia) Hend) as [Ece Hce].
  set (ce := chunk_end p addr count) in *. pose proof (PAGE_split p) as [Hsp Hoff]. unfold LAST_PAGE in Hend.
  destruct (mem_ptr_view w m ext p MEM_READ Hok) as [(q & w1 & m1 & -> & Hacc & Hva)|[-> Hna]].
  { unfold in_u. lia. }
  2:{ exists 1, buf, w, m. split_and!; [done|done|apply unchanged_refl|done|]. right. split; [done|].
      exists p. split; [lia|done]. }
  destruct Hva as [Hok1 Hun _ (e & He & Hq)].
  rewrite !(wrap_small 32) by (unfold in_u; lia).
  destruct (read_chunk w1 m1 e p q (ce - p) He (sp_backed _ _ _ _ Hok1 _ _ He) Hq ltac:(lia) ltac:(lia))
    as (bytes & -> & Hbl & Hbytes).
  cbn [mbind option_bind]. rewrite block_write_Some by lia.
  set (buf1 := take _ _ ++ _). cbn [mbind option_bind].
  assert (Hw1 : block_write buf (p - addr) bytes = Some buf1) by (by rewrite block_write_Some by lia).
  pose proof (block_write_length _ _ _ _ Hw1) as Hl1.
  destruct (IH w1 m1 buf1 ce Hok1 H0 ltac:(lia) Hend ltac:(lia) ltac:(lia)) as (res & buf' & w' & m' & Hl & ? & Hun' & Hlen' & Hres).
  { intros k Hk. rewrite (block_write_lookup _ _ _ _ k Hw1). case_decide as Hin.
    - split; [apply lookup_lt_is_Some; lia|]. rewrite Hbytes by lia. f_equal. lia.
    - destruct (Hpre k ltac:(lia)) as [Hs Hk']. split; [done|]. rewrite Hk'. symmetry. apply Hun. by rewrite <- Hk'. }
  exists res, buf', w', m'. split_and!; [done|done|by eapply unchanged_trans|lia|done].
Qed.

(** Reading guest memory below the last page always finishes without
    a wild access.  It succeeds with the bytes the guest sees, or reports a
    fault at an address of the range that is not accessible; either way no
    byte the guest could see before has changed. *)
Theorem user_read_task_spec w m ext addr buf count :
  space_ok vdso w m ext -> 0 <= addr -> 0 <= count -> addr + count <= LAST_PAGE ->
  Z.of_nat (length buf) = count ->
  exists res buf' w' m', user_read_task vdso mmap_at malloc_data w m addr buf count = Some (res, buf', w', m') /\
    space_ok vdso w' m' ext /\ unchanged w m w' m' /\ length buf' = length buf /\
    ((res = 0 /\ forall k, (k < Z.to_nat count)%nat ->
        is_Some (buf' !! k) /\ buf' !! k = guest_byte w' m' (addr + Z.of_nat k)) \/
     (res = 1 /\ exists a, addr <= a < addr + count /\ ~ accessible m' (PAGE a) MEM_READ)).
Proof. intros. apply read_loop_ok; try done; lia. Qed.

(** ** Writing *)

(** A mapped page that may be written. *)
Definition can_write (m : mem) (pg : Z) : Prop :=
  exists e, mem_pt m pg = Some e /\ has (pt_flags e) P_WRITE = true.

Lemma can_write_accessible m pg type : can_write m pg -> accessible m pg type.
Proof. intros (e & He & Hw). unfold accessible. by rewrite He. Qed.

Section WriteLoop.
Context (ext : Z -> Z) (addr count : Z) (buf : list Z) (ptrace : bool).
Context (Haddr : 0 <= addr) (Hend : addr + count <= LAST_PAGE) (Hlen : Z.of_nat (length buf) = count).
Let type : access := if ptrace then MEM_WRITE_PTRACE else MEM_WRITE.

(** Rule for the loop: [I p] is kept when the chunk at [p] is written. *)
Lemma write_loop_ind (I : Z -> world -> mem -> Prop) :
  (forall w m p q w1 m1 bytes w2,
     addr <= p < addr + count -> I p w m -> space_ok vdso w m ext ->
     view_access w m ext p type q w1 m1 ->
     bytes = take (Z.to_nat (chunk_end p addr count - p)) (drop (Z.to_nat (p - addr)) buf) ->
     PGOFFSET p + Z.of_nat (length bytes) <= 4096 -> Z.of_nat (length bytes) = chunk_end p addr count - p ->
     memcpy_to w1 q bytes = Some w2 -> space_ok vdso w2 m1 ext -> I (chunk_end p addr count) w2 m1) ->
  forall fuel w m p, space_ok vdso w m ext -> addr <= p <= addr + count -> addr + count - p <= Z.of_nat fuel ->
  I p w m ->
  exists res w' m', write_loop vdso mmap_at malloc_data fuel w m addr count buf ptrace p = Some (res, w', m') /\
    space_ok vdso w' m' ext /\
    ((res = 0 /\ I (addr + count) w' m') \/
     (res = 1 /\ exists a, p <= a < addr + count /\ ~ accessible m' (PAGE a) type /\ I a w' m')).
Proof.
  intros Hstep. induction fuel as [|fuel IH]; intros w m p Hok Hp Hf HI.
  all: cbn [write_loop]; rewrite (wrap_small 64) by (unfold in_u, LAST_PAGE in *; lia);
       destruct (Z.ltb_spec p (addr + count)) as [Hlt|Hge]; [try lia|].
  all: try (exists 0, w, m; split_and!; [done|done|]; left; split; [done|];
            replace (addr + count) with p by lia; done).
  destruct (chunk_end_ok p addr count Haddr ltac:(lia) Hend) as [Ece Hce]. unfold LAST_PAGE in *.
  pose proof (PAGE_split p) as [Hsp Hoff]. change (if ptrace then MEM_WRITE_PTRACE else MEM_WRITE) with type.
  destruct (mem_ptr_view w m ext p type Hok) as [(q & w1 & m1 & -> & Hacc & Hva)|[-> Hna]].
  { unfold in_u. lia. }
  2:{ exists 1, w, m. split_and!; [done|done|]. right. split; [done|]. exists p. split; [lia|done]. }
  rewrite !(wrap_small 32) by (unfold in_u; lia). rewrite block_read_Some by lia. cbn [mbind option_bind].
  set (bytes := take _ _). pose proof Hva as [Hok1 _ _ (e & He & Hq)].
  assert (Hbl : Z.of_nat (length bytes) = chunk_end p addr count - p).
  { unfold bytes. rewrite length_take, length_drop. lia. }
  destruct (write_chunk vdso w1 m1 ext e p q bytes Hok1 He Hq ltac:(lia)) as (w2 & Hm2 & Hok2 & _ & _ & _).
  rewrite Hm2. cbn [mbind option_bind].
  specialize (Hstep w m p q w1 m1 bytes w2 ltac:(lia) HI Hok Hva eq_refl ltac:(lia) Hbl Hm2 Hok2).
  destruct (IH w2 m1 (chunk_end p addr count) Hok2 ltac:(lia) ltac:(lia) Hstep) as (res & w' & m' & Hl & Hok' & Hres).
  exists res, w', m'. split_and!; [done|done|]. destruct Hres as [?|(? & a & ? & ?)]; [by left|].
  right. split; [done|]. exists a. split; [lia|done].
Qed.

(** The view while the loop is at [p]; pages that could be written still can. *)
Definition written (w0 : world) (m0 : mem) (p : Z) (w : world) (m : mem) : Prop :=
  (forall x, addr <= x < p -> guest_byte w m x = buf !! Z.to_nat (x - addr)) /\
  (forall x, ~ addr <= x < p -> is_Some (guest_byte w0 m0 x) -> guest_byte w m x = guest_byte w0 m0 x) /\
  (forall pg, can_write m0 pg -> can_write m pg).

Lemma granted_can_write w m p q w' m' pg :
  access_granted vdso w m ext p type (Some q) w' m' -> can_write m pg -> can_write m' pg.
Proof.
  intros [_ _ Hf (e' & He' & _ & _ & _ & _ & Hw)] (e & He & Hwr).
  destruct (decide (pg = PAGE p)) as [->|Hne].
  - exists e'. split; [done|]. destruct (Hw ltac:(unfold type; by destruct ptrace)) as [Hwr' _].
    unfold P_WRITABLE in Hwr'. by apply andb_true_iff in Hwr' as [? _].
  - exists e. by rewrite Hf.
Qed.

Lemma written_step w0 m0 w m p q w1 m1 bytes w2 :
  addr <= p < addr + count -> written w0 m0 p w m -> view_access w m ext p type q w1 m1 ->
  bytes = take (Z.to_nat (chunk_end p addr count - p)) (drop (Z.to_nat (p - addr)) buf) ->
  PGOFFSET p + Z.of_nat (length bytes) <= 4096 -> Z.of_nat (length bytes) = chunk_end p addr count - p ->
  memcpy_to w1 q bytes = Some w2 -> written w0 m0 (chunk_end p addr count) w2 m1.
Proof.
  intros Hp (HW1 & HW2 & HW3) [Hok1 Hun Hg (e & He & Hq)] Hby Hoff Hbl Hm2.
  destruct (chunk_end_ok p addr count Haddr Hp Hend) as [Ece Hce].
  destruct (write_chunk vdso w1 m1 ext e p q bytes Hok1 He Hq Hoff) as (w2' & Hm2' & _ & _ & _ & Hview).
  assert (w2' = w2) as -> by congruence. rewrite Hbl in Hview.
  split_and!; [intros x Hx|intros x Hx|intros pg Hpg; eapply granted_can_write; [exact Hg|auto]].
  - rewrite Hview. case_decide as Hin.
    + rewrite Hby. rewrite lookup_take_lt by lia. rewrite lookup_drop. f_equal. lia.
    + assert (is_Some (buf !! Z.to_nat (x - addr))) by (apply lookup_lt_is_Some; lia).
      rewrite <- HW1 in * by lia. by apply Hun.
  - intros Hs. rewrite Hview, decide_False by lia. rewrite <- HW2 in Hs |- * by (lia || done). by apply Hun.
Qed.
End WriteLoop.

Lemma user_write_task_gen_ok w m ext addr buf count ptrace :
  space_ok vdso w m ext -> 0 <= addr -> 0 <= count -> addr + count <= LAST_PAGE ->
  Z.of_nat (length buf) = count ->
  exists res w' m', user_write_task_gen vdso mmap_at malloc_data w m addr buf count ptrace = Some (res, w', m') /\
    space_ok vdso w' m' ext /\
    ((res = 0 /\ written addr buf w m (addr + count) w' m') \/
     (res = 1 /\ exists a, addr <= a < addr + count /\ written addr buf w m a w' m' /\
        ~ accessible m' (PAGE a) (if ptrace then MEM_WRITE_PTRACE else MEM_WRITE))).
Proof.
  intros Hok H0 Hc Hend Hlen.
  destruct (write_loop_ind ext addr count buf ptrace H0 Hend Hlen (written addr buf w m)) with
    (fuel := Z.to_nat count) (w := w) (m := m) (p := addr) as (res & w' & m' & Hl & Hok' & Hres); try done; try lia.
  - intros w1 m1 p q w2 m2 bytes w3 Hp HI _ Hva Hby Hoff Hbl Hm _. by eapply written_step.
  - split_and!; [intros x Hx; lia|done|done].
  - exists res, w', m'. split_and!; [done|done|]. destruct Hres as [?|(? & a & ? & ? & ?)]; [by left|].
    right. split; [done|]. exists a. done.
Qed.

(** Writing guest memory below the last page always finishes without
    a wild access.  On success exactly the bytes of the range have the written
    values and every other visible byte is as before; on a fault the bytes
    before some inaccessible address of the range have been written, and no
    others changed.  A range of mapped pages that may be written does not fault. *)
Theorem user_write_task_spec w m ext addr buf count :
  space_ok vdso w m ext -> 0 <= addr -> 0 <= count -> addr + count <= LAST_PAGE ->
  Z.of_nat (length buf) = count ->
  exists res w' m', user_write_task vdso mmap_at malloc_data w m addr buf count = Some (res, w', m') /\
    space_ok vdso w' m' ext /\
    ((res = 0 /\ written addr buf w m (addr + count) w' m') \/
     (res = 1 /\ exists a, addr <= a < addr + count /\ written addr buf w m a w' m' /\
        ~ accessible m' (PAGE a) MEM_WRITE)) /\
    ((forall a, addr <= a < addr + count -> can_write m (PAGE a)) -> res = 0).
Proof.
  intros Hok H0 Hc Hend Hlen.
  destruct (user_write_task_gen_ok w m ext addr buf count false Hok H0 Hc Hend Hlen)
    as (res & w' & m' & Hw & Hok' & Hres).
  exists res, w', m'. split_and!; [done|done|done|]. intros Hall.
  destruct Hres as [[? _]|(_ & a & Ha & (_ & _ & Hcw) & Hna)]; [done|]. exfalso.
  by apply Hna, can_write_accessible, Hcw, Hall.
Qed.

(** What a successful write stored reads back with success from the state
    it leaves. *)
Theorem user_write_read_round_trip w m ext addr data buf w1 m1 :
  space_ok vdso w m ext -> 0 <= addr -> addr + Z.of_nat (length data) <= LAST_PAGE ->
  length buf = length data ->
  user_write_task vdso mmap_at malloc_data w m addr data (Z.of_nat (length data)) = Some (0, w1, m1) ->
  exists w2 m2, user_read_task vdso mmap_at malloc_data w1 m1 addr buf (Z.of_nat (length data))
                = Some (0, data, w2, m2).
Proof.
  intros Hok H0 Hend Hbuf Hw.
  destruct (user_write_task_gen_ok w m ext addr data (Z.of_nat (length data)) false Hok H0 ltac:(lia) Hend eq_refl)
    as (res & w1' & m1' & Hw' & Hok1 & Hres).
  unfold user_write_task in Hw. rewrite Hw' in Hw. simplify_eq.
  destruct Hres as [[_ (HW & _)]|[? _]]; [|done].
  assert (Hsome : forall a, addr <= a < addr + Z.of_nat (length data) -> is_Some (guest_byte w1 m1 a)).
  { intros a Ha. rewrite HW by done. apply lookup_lt_is_Some. lia. }
  destruct (read_loop_ok ext addr (Z.of_nat (length data)) (Z.to_nat (Z.of_nat (length data))) w1 m1 buf addr
    Hok1 H0 ltac:(lia) Hend ltac:(lia) ltac:(lia)) as (res & buf' & w2 & m2 & Hr & _ & Hun & Hl & Hres).
  { intros k Hk. lia. }
  destruct Hres as [[-> Hb]|(-> & a & Ha & Hna)].
  - exists w2, m2. unfold user_read_task. rewrite Hr. do 4 f_equal. apply list_eq. intros k.
    destruct (decide (k < length data)%nat) as [Hk|Hk].
    + destruct (Hb k ltac:(lia)) as [_ ->]. rewrite (Hun (addr + Z.of_nat k)) by (apply Hsome; lia). rewrite HW by lia. f_equal. lia.
    + rewrite !lookup_ge_None_2 by lia. done.
  - exfalso. apply Hna. pose proof (Hsome a Ha) as Hs. rewrite <- (Hun a Hs) in Hs.
    apply guest_byte_Some in Hs as (e & He & _). unfold accessible. by rewrite He.
Qed.

End Access.

Lemma demo_unaliased w m :
  (forall q, mem_pt m q = if decide (0x400 <= q < 0x402)
                          then Some (mk_pt 1 (Z.shiftl (q - 0x400) PAGE_BITS) P_WRITE) else None) ->
  unaliased w m.
Proof.
  intros Hpt p q ep eq b op oq Hpq Hp Hq Hlp Hlq.
  rewrite Hpt in Hp, Hq. destruct (decide (0x400 <= p < 0x402)); [|done].
  destruct (decide (0x400 <= q < 0x402)); [|done]. injection Hp as <-. injection Hq as <-.
  unfold location in *. cbn [pt_data pt_offset] in *.
  destruct (datas w !! 1) as [d|]; [|done]. simpl in Hlp, Hlq.
  injection Hlp as _ <-. injection Hlq as _ <-. unfold PAGE_BITS. rewrite !Z.shiftl_mul_pow2 by lia.
  change PAGE_SIZE with 4096. lia.
Qed.

Lemma demo_space :
  exists w m, space_ok 0 w m (fun _ => 0) /\
    (forall q, mem_pt m q = if decide (0x400 <= q < 0x402)
                            then Some (mk_pt 1 (Z.shiftl (q - 0x400) PAGE_BITS) P_WRITE) else None).
Proof.
  destruct demo_mapped as (w & m & _ & Hinv & Hbk & Hpt). exists w, m. split; [|exact Hpt].
  split; [exact Hinv|exact Hbk|by apply demo_unaliased].
Qed.

#[local] Existing Instance small_pages.

Lemma demo_can_write (m : mem) a :
  (forall q, mem_pt m q = if decide (0x400 <= q < 0x402)
                          then Some (mk_pt 1 (Z.shiftl (q - 0x400) PAGE_BITS) P_WRITE) else None) ->
  0x400ffe <= a < 0x401002 -> can_write m (PAGE a).
Proof.
  intros Hpt Ha. pose proof (PAGE_split a). eexists. rewrite Hpt, decide_True by lia. done.
Qed.

Lemma user_read_task_spec_witness :
  exists w m res buf' w' m', space_ok 0 w m (fun _ => 0) /\
    user_read_task 0 host_mmap host_malloc w m 0x400ffe [1; 2; 3; 4] 4 = Some (res, buf', w', m') /\
    unchanged w m w' m'.
Proof.
  destruct demo_space as (w & m & Hok & Hpt). exists w, m.
  destruct (user_read_task_spec 0 host_mmap host_malloc w m (fun _ => 0) 0x400ffe [1; 2; 3; 4] 4 Hok
    ltac:(lia) ltac:(lia) ltac:(unfold LAST_PAGE; lia) eq_refl) as (res & buf' & w' & m' & Hr & _ & Hun & _ & _).
  exists res, buf', w', m'. split_and!; [exact Hok|exact Hr|exact Hun].
Defined.

Lemma user_write_task_spec_witness :
  exists w m w' m', space_ok 0 w m (fun _ => 0) /\
    user_write_task 0 host_mmap host_malloc w m 0x400ffe [1; 2; 3; 4] 4 = Some (0, w', m') /\
    guest_byte w' m' 0x401001 = Some 4.
Proof.
  destruct demo_space as (w & m & Hok & Hpt). exists w, m.
  destruct (user_write_task_spec 0 host_mmap host_malloc w m (fun _ => 0) 0x400ffe [1; 2; 3; 4] 4 Hok
    ltac:(lia) ltac:(lia) ltac:(unfold LAST_PAGE; lia) eq_refl) as (res & w' & m' & Hr & _ & Hres & Hz).
  rewrite Hz in * by (intros a Ha; apply demo_can_write; [exact Hpt|lia]).
  exists w', m'. split_and!; [exact Hok|exact Hr|].
  destruct Hres as [[_ (HW & _)]|[? _]]; [|discriminate]. apply HW. lia.
Defined.

Lemma user_write_read_round_trip_witness :
  exists w1 m1 w2 m2, user_read_task 0 host_mmap host_malloc w1 m1 0x400ffe [0; 0; 0; 0] 4
                      = Some (0, [1; 2; 3; 4], w2, m2).
Proof.
  destruct demo_space as (w & m & Hok & Hpt).
  destruct (user_write_task_gen_ok 0 host_mmap host_malloc w m (fun _ => 0) 0x400ffe [1; 2; 3; 4] 4 false Hok
    ltac:(lia) ltac:(lia) ltac:(unfold LAST_PAGE; lia) eq_refl) as (res & w1 & m1 & Hw & Hok1 & Hres).
  exists w1, m1. apply (user_write_read_round_trip 0 host_mmap host_malloc w m (fun _ => 0) 0x400ffe [1; 2; 3; 4]
    [0; 0; 0; 0] w1 m1 Hok ltac:(lia) ltac:(unfold LAST_PAGE; simpl; lia) eq_refl).
  destruct Hres as [[-> _]|(_ & a & Ha & (_ & _ & Hcw) & Hna)]; [exact Hw|].
  exfalso. apply Hna, can_write_accessible, Hcw, demo_can_write; [exact Hpt|lia].
Defined.

(** ** Isolation of parent and child after fork *)

(** No page of [src] lies in the block of this place. *)
Definition apart (w : world) (src : mem) (l : option ptr) : Prop :=
  forall p e b o, mem_pt src p = Some e -> location w e = Some (b, o) -> fst <$> l <> Some b.

(** A page of [dst] that is copied before it is written, or is not shared with [src]. *)
Definition private_page (w : world) (src : mem) (e : pt_entry) : Prop :=
  has (pt_flags e) P_COW = true \/ apart w src (location w e).

Section Isolation.
Context {PS : PageSize} (vdso : Z) (mmap_at : world -> Z -> Z + Z) (malloc_data : world -> option Z).
Context `{!HostAlloc mmap_at malloc_data, !HostHasMemory mmap_at malloc_data}.
Context (src : mem) (ext : Z -> Z) (w0 : world) (addr count : Z).

Let ext' : Z -> Z := fun id => refs src id + ext id.

(** What holds of the other address space while the write loop runs in [m]. *)
Record isolated (p : Z) (w : world) (m : mem) : Prop := mk_isolated {
  is_spaces : spaces_inv vdso w src m ext;
  is_backed : backed w src;
  is_bytes : forall x, guest_byte w src x = guest_byte w0 src x;
  is_private : forall x e, addr <= x < addr + count -> mem_pt m (PAGE x) = Some e -> private_page w src e;
}.

Lemma unowned_apart w m l : mem_inv vdso w src m None -> unowned w l -> apart w src l.
Proof.
  intros Hinv Hu p e b o He Hl Hf. unfold location in Hl.
  destruct (datas w !! pt_data e) as [d|] eqn:Ed; [|done]. simpl in Hl. injection Hl as <- _.
  by apply (Hu _ Hf _ _ Ed).
Qed.

(** The page a write was granted lies apart from the other address space. *)
Lemma granted_apart w m a type q w1 m1 e1 :
  type <> MEM_READ -> isolated a w m -> addr <= a < addr + count ->
  access_granted vdso w m ext' a type (Some q) w1 m1 -> mem_pt m1 (PAGE a) = Some e1 ->
  apart w src (location w1 e1).
Proof.
  intros Ht [[Hsrc Hdst _] _ _ Hpr] Ha [Hinv1 _ _ (e & He & _ & _ & _ & Hloc & Hw)] He1. simplify_eq.
  destruct (Hw Ht) as [_ Hcow]. destruct Hloc as [Hl|Hu]; [|by eapply unowned_apart].
  destruct (mem_pt m (PAGE a)) as [e0|] eqn:E0; simpl in Hl.
  - destruct (Hpr a e0 Ha E0) as [Hc|Hap].
    + destruct (Hcow e0 eq_refl (or_introl Hc)) as (_ & _ & Hu). by eapply unowned_apart.
    + by rewrite <- Hl.
  - intros ? ? ? ? _ _. by rewrite <- Hl.
Qed.

(** Bytes of [src] survive the access and the copy that follows. *)
Lemma isolated_step (ptrace : bool) p q w m w1 m1 bytes w2 :
  let type := if ptrace then MEM_WRITE_PTRACE else MEM_WRITE in
  isolated p w m -> addr <= p < addr + count ->
  view_access vdso w m ext' p type q w1 m1 -> memcpy_to w1 q bytes = Some w2 ->
  mem_inv vdso w2 m1 ext' None -> forall p', isolated p' w2 m1.
Proof.
  intros type His Hp [Hok1 _ Hg (e1 & He1 & Hq)] Hm Hinv2 p'.
  pose proof (granted_apart w m p type q w1 m1 e1 ltac:(unfold type; by destruct ptrace) His Hp Hg He1) as Hap.
  destruct His as [[Hsrc Hdst Hext] Hbk Hby Hpr]. destruct Hg as [Hinv1 Hk Hf _].
  pose proof (mi_range _ _ _ _ _ Hsrc) as Hr.
  pose proof (spaces_of_dst vdso w1 src src m1 ext ltac:(done) Hr Hext Hinv1) as [Hsrc1 _ _].
  pose proof (spaces_of_dst vdso w2 src src m1 ext ltac:(done) Hr Hext Hinv2) as Hsp2.
  destruct (memcpy_to_inv _ _ _ _ _ _ _ Hinv1 Hm) as (_ & Hds & Hoth & _).
  assert (Hl2 : forall e, location w2 e = location w1 e) by (intros; unfold location; by rewrite Hds).
  assert (Hlsrc : forall x e, mem_pt src x = Some e -> location w1 e = location w e).
  { intros x e He. destruct (mapped_live _ _ _ _ _ _ _ Hsrc He) as (d & Hd & _).
    destruct (mapped_live _ _ _ _ _ _ _ Hsrc1 He) as (d1 & Hd1 & _).
    unfold location. rewrite Hd, Hd1. simpl. by destruct (Hk _ _ _ Hd Hd1) as [-> _]. }
  assert (Hpb : forall x e, mem_pt src x = Some e -> page_bytes w2 e = page_bytes w e).
  { intros x e He. rewrite <- (kept_page vdso w w1 src src _ _ x e e Hsrc Hsrc1 Hk He He eq_refl eq_refl).
    unfold page_bytes. rewrite Hds. destruct (datas w1 !! pt_data e) as [d|] eqn:Ed; [|done]. simpl.
    rewrite Hoth; [done|]. intros E. apply (Hap x e (d_block d) (pt_offset e) He).
    - rewrite <- (Hlsrc x e He). unfold location. by rewrite Ed.
    - unfold entry_ptr in Hq. destruct (datas w1 !! pt_data e1) as [de|] eqn:Ede; [|done].
      injection Hq as <-. unfold location. rewrite Ede. simpl. by rewrite E. }
  assert (Hap2 : forall l, apart w src l -> apart w2 src l).
  { intros l Ha x e b o He Hl. rewrite Hl2, (Hlsrc x e He) in Hl. by eapply Ha. }
  split; [done| | |].
  - intros x e He. rewrite (Hpb x e He). by eapply Hbk.
  - intros x. rewrite <- Hby. unfold guest_byte. destruct (mem_pt src (PAGE x)) as [e|] eqn:Ex; [|done].
    simpl. by rewrite (Hpb _ e Ex).
  - intros x e Hx He. destruct (decide (PAGE x = PAGE p)) as [E|E].
    + rewrite E in He. simplify_eq. right. rewrite Hl2. by apply Hap2.
    + pose proof He as He'. rewrite Hf in He by done. destruct (Hpr x e Hx He) as [?|Ha]; [by left|].
      right. rewrite Hl2. apply Hap2. by rewrite (kept_location vdso w w1 m m1 ext' _ e Hdst Hinv1 Hk He He').
Qed.

Lemma user_write_isolated m buf ptrace :
  isolated addr w0 m -> space_ok vdso w0 m ext' -> 0 <= addr -> 0 <= count -> addr + count <= LAST_PAGE ->
  Z.of_nat (length buf) = count ->
  exists res w' m', user_write_task_gen vdso mmap_at malloc_data w0 m addr buf count ptrace = Some (res, w', m') /\
    forall x, guest_byte w' src x = guest_byte w0 src x.
Proof.
  intros His Hok H0 Hc Hend Hlen.
  destruct (write_loop_ind vdso mmap_at malloc_data ext' addr count buf ptrace H0 Hend Hlen isolated) with
    (fuel := Z.to_nat count) (w := w0) (m := m) (p := addr) as (res & w' & m' & Hl & _ & Hres); try done; try lia.
  - intros w1 m1 p q w2 m2 bytes w3 Hp HI _ Hva _ _ _ Hm Hok3.
    eapply (isolated_step ptrace p q w1 m1); [exact HI|exact Hp|exact Hva|exact Hm|apply Hok3].
  - exists res, w', m'. split; [done|]. destruct Hres as [[_ HI]|(_ & a & _ & _ & HI)]; apply HI.
Qed.

End Isolation.



(** ** Strings *)

(** The first [k] bytes are those of a guest string that has not ended yet. *)
Definition string_part (w : world) (m : mem) (addr : Z) (buf : list Z) (k : nat) : Prop :=
  forall j, (j < k)%nat -> exists c, buf !! j = Some c /\ c <> 0 /\ guest_byte w m (addr + Z.of_nat j) = Some c.

Section Strings.
Context {PS : PageSize} (vdso : Z) (mmap_at : world -> Z -> Z + Z) (malloc_data : world -> option Z).
Context `{!HostAlloc mmap_at malloc_data, !HostHasMemory mmap_at malloc_data}.

(** One byte through [user_read_task]. *)
Lemma user_read_byte w m ext a c0 :
  space_ok vdso w m ext -> 0 <= a < LAST_PAGE ->
  exists res c w' m', user_read_task vdso mmap_at malloc_data w m a [c0] 1 = Some (res, [c], w', m') /\
    space_ok vdso w' m' ext /\ unchanged w m w' m' /\
    ((res = 0 /\ guest_byte w' m' a = Some c) \/ (res = 1 /\ ~ accessible m' (PAGE a) MEM_READ)).
Proof.
  intros Hok Ha.
  destruct (read_loop_ok vdso mmap_at malloc_data ext a 1 1 w m [c0] a Hok ltac:(lia) ltac:(lia) ltac:(lia)
    ltac:(lia) eq_refl) as (res & buf & w' & m' & Hr & Hok' & Hun & Hl & Hres).
  { intros k Hk. lia. }
  destruct buf as [|c [|? ?]]; [done| |done].
  exists res, c, w', m'. split_and!; [done|done|done|].
  destruct Hres as [[-> Hb]|(-> & x & Hx & Hna)].
  - left. split; [done|]. destruct (Hb 0%nat ltac:(lia)) as [_ H]. simpl in H. by rewrite Z.add_0_r in H.
  - right. split; [done|]. by replace a with x by lia.
Qed.

Lemma string_part_unchanged w m w' m' addr buf k :
  unchanged w m w' m' -> string_part w m addr buf k -> string_part w' m' addr buf k.
Proof.
  intros Hun Hs j Hj. destruct (Hs j Hj) as (c & ? & ? & Hg). exists c. split_and!; [done|done|].
  rewrite Hun; [done|by rewrite Hg].
Qed.

Lemma read_string_loop_ok ext addr n : forall w m buf i,
  space_ok vdso w m ext -> 0 < addr -> addr + Z.of_nat (length buf) <= LAST_PAGE ->
  (i + n = length buf)%nat -> string_part w m addr buf i ->
  exists res buf' w' m',
    read_string_loop vdso mmap_at malloc_data n w m addr buf (Z.of_nat i) = Some (res, buf', w', m') /\
    space_ok vdso w' m' ext /\ unchanged w m w' m' /\ length buf' = length buf /\
    ((res = 0 /\ exists k, string_part w' m' addr buf' k /\
        (k = length buf \/ buf' !! k = Some 0 /\ guest_byte w' m' (addr + Z.of_nat k) = Some 0)) \/
     (res = 1 /\ exists k, (k < length buf)%nat /\ ~ accessible m' (PAGE (addr + Z.of_nat k)) MEM_READ)).
Proof.
  induction n as [|n IH]; intros w m buf i Hok H0 Hend Hi Hs; cbn [read_string_loop].
  { exists 0, buf, w, m. split_and!; [done|done|apply unchanged_refl|done|]. left. split; [done|].
    exists i. split; [done|]. left. lia. }
  rewrite block_read_Some by lia. cbn [mbind option_bind]. unfold LAST_PAGE in Hend.
  rewrite (wrap_small 32) by (unfold in_u; lia).
  destruct (take (Z.to_nat 1) (drop (Z.to_nat (Z.of_nat i)) buf)) as [|c0 [|? ?]] eqn:Et.
  1,3: (apply (f_equal length) in Et; rewrite length_take, length_drop in Et; cbn [length] in Et; lia).
  destruct (user_read_byte w m ext (addr + Z.of_nat i) c0 Hok) as (res & c & w1 & m1 & -> & Hok1 & Hun1 & Hres).
  { unfold LAST_PAGE. lia. }
  cbn [mbind option_bind]. rewrite block_write_Some by (simpl; lia). set (buf1 := take _ _ ++ _).
  assert (Hw1 : block_write buf (Z.of_nat i) [c] = Some buf1) by (by rewrite block_write_Some by (simpl; lia)).
  cbn [mbind option_bind]. pose proof (block_write_length _ _ _ _ Hw1) as Hl1.
  assert (Hlk : forall k, buf1 !! k = if decide (k = i) then Some c else buf !! k).
  { intros k. rewrite (block_write_lookup _ _ _ _ k Hw1). cbn [length].
    destruct (decide (k = i)) as [->|]; [rewrite decide_True by lia; by rewrite Nat2Z.id, Nat.sub_diag|].
    by rewrite decide_False by lia. }
  assert (Hs1 : string_part w1 m1 addr buf1 i).
  { intros j Hj. destruct (string_part_unchanged _ _ _ _ _ _ _ Hun1 Hs j Hj) as (cj & Hcj & ? & ?).
    exists cj. rewrite Hlk, decide_False by lia. done. }
  destruct Hres as [[-> Hg]|[-> Hna]]; cbn [ctrue Z.eqb negb].
  2:{ exists 1, buf1, w1, m1. split_and!; [done|done|done|done|]. right. split; [done|]. exists i. split; [lia|done]. }
  destruct (Z.eq_dec c 0) as [->|Hc].
  { exists 0, buf1, w1, m1. split_and!; [done|done|done|done|]. left. split; [done|].
    exists i. split; [done|]. right. rewrite Hlk, decide_True by done. done. }
  destruct (IH w1 m1 buf1 (S i) Hok1 H0 ltac:(unfold LAST_PAGE; lia) ltac:(lia)) as (res & buf' & w' & m' & Hr & Hok' & Hun' & Hl' & Hres).
  { intros j Hj. destruct (decide (j = i)) as [->|]; [|apply Hs1; lia].
    exists c. rewrite Hlk, decide_True by done. done. }
  exists res, buf', w', m'. replace (Z.of_nat (S i)) with (Z.of_nat i + 1) in Hr by lia. rewrite Hr, Hl1 in *.
  split_and!; [by destruct c|done|by eapply unchanged_trans|done|done].
Qed.

(** Reading a string stops at the guest's NUL or when the buffer is
    full (then without a terminator), with the guest's bytes copied; or it
    reports a fault for an inaccessible byte.  Address 0 is refused. *)
Theorem user_read_string_spec w m ext addr buf :
  space_ok vdso w m ext -> 0 <= addr -> addr + Z.of_nat (length buf) <= LAST_PAGE ->
  exists res buf' w' m',
    user_read_string vdso mmap_at malloc_data w m addr buf (Z.of_nat (length buf)) = Some (res, buf', w', m') /\
    space_ok vdso w' m' ext /\ unchanged w m w' m' /\ length buf' = length buf /\
    ((res = 0 /\ exists k, string_part w' m' addr buf' k /\
        (k = length buf \/ buf' !! k = Some 0 /\ guest_byte w' m' (addr + Z.of_nat k) = Some 0)) \/
     (res = 1 /\ (addr = 0 \/
        exists k, (k < length buf)%nat /\ ~ accessible m' (PAGE (addr + Z.of_nat k)) MEM_READ))).
Proof.
  intros Hok H0 Hend. unfold user_read_string. destruct (Z.eqb_spec addr 0) as [->|Hne].
  { exists 1, buf, w, m. split_and!; [done|done|apply unchanged_refl|done|]. right. auto. }
  rewrite Nat2Z.id.
  destruct (read_string_loop_ok ext addr (length buf) w m buf 0 Hok ltac:(lia) Hend ltac:(lia))
    as (res & buf' & w' & m' & Hr & ? & ? & ? & Hres).
  { intros j Hj. lia. }
  exists res, buf', w', m'. split_and!; [done|done|done|done|]. destruct Hres as [?|[? ?]]; [by left|right; auto].
Qed.

End Strings.

Lemma user_read_string_spec_witness :
  exists w m res buf' w' m', space_ok 0 w m (fun _ => 0) /\
    user_read_string 0 host_mmap host_malloc w m 0x400ffe [1; 2; 3; 4] 4 = Some (res, buf', w', m') /\
    length buf' = 4%nat.
Proof.
  destruct demo_space as (w & m & Hok & Hpt). exists w, m.
  destruct (user_read_string_spec 0 host_mmap host_malloc w m (fun _ => 0) 0x400ffe [1; 2; 3; 4] Hok
    ltac:(lia) ltac:(unfold LAST_PAGE; simpl; lia)) as (res & buf' & w' & m' & Hr & _ & _ & Hl & _).
  exists res, buf', w', m'. split_and!; [exact Hok|exact Hr|exact Hl].
Defined.

(** ** The last page *)

Lemma last_page_chunk addr count :
  LAST_PAGE <= addr -> 0 < count -> addr + count < 2 ^ 32 -> chunk_end addr addr count = 0.
Proof.
  intros Ha Hc Hend. unfold LAST_PAGE in Ha. unfold chunk_end.
  pose proof (PAGE_split addr). assert (PAGE addr = 0xfffff) as -> by lia.
  change (u32 (Z.shiftl (0xfffff + 1) PAGE_BITS)) with 0. rewrite (wrap_small 64) by (unfold in_u; lia).
  rewrite Z.gtb_ltb. by rewrite (proj2 (Z.ltb_ge _ _)) by lia.
Qed.

(** The end of the last page wraps to 0, so the clamp to the end of
    the range is skipped: reading any [count] bytes there copies up to the end
    of the page, out of bounds of the [count] byte buffer. *)
Theorem user_read_last_page_overflow {PS : PageSize} vdso mmap_at malloc_data
    `{!HostAlloc mmap_at malloc_data, !HostHasMemory mmap_at malloc_data} w m ext addr buf e :
  space_ok vdso w m ext -> mem_pt m 0xfffff = Some e ->
  LAST_PAGE <= addr -> (0 < length buf)%nat -> addr + Z.of_nat (length buf) < 2 ^ 32 ->
  user_read_task vdso mmap_at malloc_data w m addr buf (Z.of_nat (length buf)) = None.
Proof.
  intros Hok He Ha Hl Hend. unfold user_read_task. rewrite Nat2Z.id.
  destruct (length buf) as [|n] eqn:El; [lia|]. cbn [read_loop]. unfold LAST_PAGE in Ha.
  rewrite (wrap_small 64) by (unfold in_u; lia). rewrite (proj2 (Z.ltb_lt _ _)) by lia.
  rewrite last_page_chunk by (unfold LAST_PAGE; lia). pose proof (PAGE_split addr) as [Hsp Hoff].
  assert (Hpg : PAGE addr = 0xfffff) by lia.
  destruct (mem_ptr_view vdso mmap_at malloc_data w m ext addr MEM_READ Hok)
    as [(q & w1 & m1 & -> & _ & [Hok1 _ _ (e1 & He1 & Hq)])|[_ Hna]].
  - unfold in_u. lia.
  - assert (u32 (0 - addr) = 2 ^ 32 - addr) as ->.
    { unfold wrap. replace (0 - addr) with (2 ^ 32 - addr + (-1) * 2 ^ 32) by lia.
      rewrite Z_mod_plus_full. apply Z.mod_small. lia. }
    rewrite Z.sub_diag. change (u32 0) with 0.
    destruct (read_chunk w1 m1 e1 addr q (2 ^ 32 - addr) He1 (sp_backed _ _ _ _ Hok1 _ _ He1) Hq ltac:(lia) ltac:(lia))
      as (bytes & -> & Hbl & _).
    cbn [mbind option_bind]. unfold block_write.
    destruct (Z.leb_spec (0 + Z.of_nat (length bytes)) (Z.of_nat (length buf))); [lia|].
    by rewrite andb_false_r.
  - exfalso. apply Hna. unfold accessible. by rewrite Hpg, He.
Qed.

(** One page mapped at the top of the address space. *)
Lemma demo_last_page :
  exists w m e, space_ok 0 w m (fun _ => 0) /\ mem_pt m 0xfffff = Some e.
Proof.
  assert (Hb : blocks demo_world !! 0x7000 = Some (replicate (Z.to_nat 8192) 0)) by apply lookup_singleton_eq.
  destruct (pt_map_ok 0 demo_world mem_init (fun _ => 0) 0xfffff 1 0x7000 1 0 P_WRITE)
    as (w & m & Hm & Hinv & Hmb).
  - by apply mem_init_inv.
  - lia.
  - lia.
  - vm_compute. discriminate.
  - lia.
  - vm_compute. reflexivity.
  - left. reflexivity.
  - reflexivity.
  - eauto.
  - intros i d. unfold demo_world; cbn [datas]. by rewrite lookup_empty.
  - pose proof (mb_pt _ _ _ _ _ _ _ _ _ _ Hmb) as Hpt. change (0xfffff + 1) with 0x100000 in Hpt.
    assert (Hi : forall q, mem_pt mem_init q = None).
    { intros q. unfold mem_pt, mem_init. simpl. by rewrite lookup_empty. }
    exists w, m, (mk_pt 1 0 P_WRITE). split; [split; [done| |]|rewrite Hpt; reflexivity].
    + eapply (pt_map_backed 0 demo_world mem_init (fun _ => 0) 0xfffff 1 0x7000 1 0 P_WRITE);
        [by apply mem_init_inv|exact Hinv|apply backed_init|lia|reflexivity|exact Hb| |exact Hmb].
      rewrite length_replicate. vm_compute. discriminate.
    + intros p q ep eq b op oq Hpq Hp Hq. exfalso. rewrite Hpt, Hi in Hp, Hq.
      destruct (decide (0xfffff <= p < 0x100000)), (decide (0xfffff <= q < 0x100000)); try done. lia.
Qed.

Lemma user_read_last_page_overflow_witness :
  exists w m, user_read_task 0 host_mmap host_malloc w m 0xfffff010 [0; 0] 2 = None.
Proof.
  destruct demo_last_page as (w & m & e & Hok & He). exists w, m.
  apply (user_read_last_page_overflow 0 host_mmap host_malloc w m (fun _ => 0) 0xfffff010 [0; 0] e Hok He);
    [unfold LAST_PAGE; lia|simpl; lia|simpl; lia].
Defined.

End User.
