(* ===== verification/Space.v ===== *)
(** * Address spaces (the interface between kernel/exec.c and kernel/memory.c, kernel/user.c)

    What a client that builds an address space asks of it, as the operations [Space] and the laws [SpaceLaws], and that the model of guest memory satisfies them. *)

From stdpp Require Import gmap.
From S2P Require Import Prelude Memory Cow User.

Module Space.

(** What can be done with an address space.  [None] is a crash of the host; a number is what the function returns.  [fresh_space] releases the address space and makes an empty one;
    [tag_file] stores the file in the data of the page and crashes when the page is not mapped. *)
Class Space (U : Type) := {
  fresh_space : U -> U;
  user_read : U -> Z -> list Z -> option (Z * list Z * U);
  user_write : U -> Z -> list Z -> option (Z * U);
  user_read_string : U -> Z -> list Z -> option (Z * list Z * U);
  user_write_string : U -> Z -> list Z -> option (Z * U);
  map_nothing : U -> Z -> Z -> Z -> option (Z * U);
  map_vdso : U -> Z -> Z -> option (Z * U);
  find_hole : U -> Z -> Z;
  is_mapped : U -> Z -> bool;
  tag_file : U -> Z -> Z -> option U;
}.

(** ** What an address space promises *)

(** Memory as a function: [bs] is stored at [a]. *)
Definition store (f : Z -> Z) (a : Z) (bs : list Z) (x : Z) : Z :=
  if decide (a <= x < a + Z.of_nat (length bs)) then nth (Z.to_nat (x - a)) bs 0 else f x.
Definition bytes_at (f : Z -> Z) (a : Z) (bs : list Z) : Prop := forall i b, bs !! i = Some b -> f (a + Z.of_nat i) = b.

(** [seen] is what the guest finds at an address, 0 where nothing is mapped yet; [present] says that there is a page, and [writable] that a write succeeds, on a page that is
    there or on one that the stack grows to. *)
Class SpaceLaws (U : Type) {SP : Space U} := {
  ok : U -> Prop;
  seen : U -> Z -> Z;
  present : U -> Z -> Prop;
  writable : U -> Z -> Prop;
  absent_zero : forall u x, ok u -> ~ present u x -> seen u x = 0;
  write_law : forall u a bs, ok u -> 0 <= a -> a + Z.of_nat (length bs) <= User.LAST_PAGE ->
    (forall x, a <= x < a + Z.of_nat (length bs) -> writable u x) ->
    exists u', user_write u a bs = Some (0, u') /\ ok u' /\ (forall x, writable u x -> writable u' x) /\ (forall x, present u x -> present u' x) /\
      forall x, seen u' x = store (seen u) a bs x;
  write_refused : forall u a b bs, ok u -> 0 <= a -> a + Z.of_nat (length (b :: bs)) <= User.LAST_PAGE -> ~ writable u a -> user_write u a (b :: bs) = Some (1, u);
  write_string_law : forall u a s r, ok u -> 0 < a -> a + Z.of_nat (length s) + 1 <= User.LAST_PAGE -> Forall (fun c => c <> 0) s ->
    (forall x, a <= x < a + Z.of_nat (length s) + 1 -> writable u x) ->
    exists u', user_write_string u a (s ++ 0 :: r) = Some (0, u') /\ ok u' /\ (forall x, writable u x -> writable u' x) /\ (forall x, present u x -> present u' x) /\
      forall x, seen u' x = store (seen u) a (s ++ [0]) x;
  read_law : forall u a buf, ok u -> 0 <= a -> a + Z.of_nat (length buf) <= User.LAST_PAGE ->
    (forall x, a <= x < a + Z.of_nat (length buf) -> present u x \/ writable u x) ->
    exists bs u', user_read u a buf = Some (0, bs, u') /\ ok u' /\ (forall x, writable u x -> writable u' x) /\ (forall x, present u x -> present u' x) /\
      (forall x, seen u' x = seen u x) /\ length bs = length buf /\ bytes_at (seen u) a bs;
  map_law : forall u start pages flags, ok u -> 0 <= start -> 0 <= pages -> start + pages < Memory.MEM_PAGES ->
    exists u', map_nothing u start pages flags = Some (0, u') /\ ok u' /\
      (forall x, 0 <= x -> seen u' x = if decide (start <= Memory.PAGE x < start + pages) then 0 else seen u x) /\
      (forall x, present u x -> present u' x) /\ (forall x, start <= Memory.PAGE x < start + pages -> present u' x) /\
      (Memory.has flags Memory.P_WRITE = true -> forall x, start <= Memory.PAGE x < start + pages -> writable u' x) /\
      (Memory.has flags Memory.P_WRITE = true -> Memory.has flags Memory.P_GROWSDOWN = true -> 0 < pages ->
         forall lo, (forall x, lo <= x < start * 4096 -> ~ present u x) -> forall x, 0 <= lo <= x -> x < start * 4096 -> writable u' x);
  tag_law : forall u page f, ok u -> present u (page * 4096) ->
    exists u', tag_file u page f = Some u' /\ ok u' /\ (forall x, writable u x <-> writable u' x) /\ (forall x, present u x -> present u' x) /\
      forall x, seen u' x = seen u x;
  tag_absent : forall u page f, ~ present u (page * 4096) -> tag_file u page f = None;
}.

(** *** Facts on memory as a function *)

Lemma store_in f a bs x i b : bs !! i = Some b -> x = a + Z.of_nat i -> store f a bs x = b.
Proof.
  intros Hi ->. unfold store. pose proof (lookup_lt_Some _ _ _ Hi). rewrite decide_True by lia.
  replace (Z.to_nat (a + Z.of_nat i - a)) with i by lia. by apply nth_lookup_Some.
Qed.
Lemma store_out f a bs x : ~ a <= x < a + Z.of_nat (length bs) -> store f a bs x = f x.
Proof. intros H. unfold store. by rewrite decide_False. Qed.
Lemma store_app f a b1 b2 x : store (store f a b1) (a + Z.of_nat (length b1)) b2 x = store f a (b1 ++ b2) x.
Proof.
  unfold store. rewrite length_app. repeat case_decide; try lia; try done.
  - rewrite app_nth2 by lia. f_equal. lia.
  - rewrite app_nth1 by lia. done.
Qed.
Lemma store_ext f g a bs x : f x = g x -> store f a bs x = store g a bs x.
Proof. intros H. unfold store. by case_decide. Qed.
Lemma bytes_at_ext f g a bs : (forall x, a <= x < a + Z.of_nat (length bs) -> g x = f x) -> bytes_at f a bs -> bytes_at g a bs.
Proof. intros He H i b Hi. rewrite He; [by apply H|]. apply lookup_lt_Some in Hi. lia. Qed.
Lemma bytes_at_app f a b1 b2 : bytes_at f a (b1 ++ b2) <-> bytes_at f a b1 /\ bytes_at f (a + Z.of_nat (length b1)) b2.
Proof.
  split.
  - intros H. split; intros i b Hi.
    + apply H. by apply lookup_app_l_Some.
    + replace (a + Z.of_nat (length b1) + Z.of_nat i) with (a + Z.of_nat (length b1 + i)) by lia. apply H.
      rewrite lookup_app_r by lia. by replace (length b1 + i - length b1)%nat with i by lia.
  - intros [H1 H2] i b Hi. apply lookup_app_Some in Hi as [Hi|[Hl Hi]]; [by apply H1|].
    replace (a + Z.of_nat i) with (a + Z.of_nat (length b1) + Z.of_nat (i - length b1)) by lia. by apply H2.
Qed.
Lemma bytes_at_store f a bs : bytes_at (store f a bs) a bs.
Proof. intros i b Hi. by eapply store_in. Qed.
Lemma bytes_at_apart f a bs b cs : bytes_at f b cs -> b + Z.of_nat (length cs) <= a \/ a + Z.of_nat (length bs) <= b -> bytes_at (store f a bs) b cs.
Proof. intros H Hd. eapply bytes_at_ext; [|exact H]. intros x Hx. apply store_out. lia. Qed.
Lemma bytes_at_zero f a n : (forall x, a <= x < a + Z.of_nat n -> f x = 0) -> bytes_at f a (replicate n 0).
Proof. intros H i b Hi. apply lookup_replicate in Hi as [-> Hi]. apply H. lia. Qed.


(** ** Guest memory is an address space *)

Section GuestMemory.
Context {PS : Memory.PageSize} (vdso : Z) (mmap_at : Memory.world -> Z -> Z + Z) (malloc_data : Memory.world -> option Z).
Abbreviation guest := (Memory.world * Memory.mem)%type.

Definition read_result (r : option (Z * list Z * Memory.world * Memory.mem)) : option (Z * list Z * guest) :=
  '(z, b, w, m) ← r; Some (z, b, (w, m)).
Definition write_result (r : option (Z * Memory.world * Memory.mem)) : option (Z * guest) := '(z, w, m) ← r; Some (z, (w, m)).

(** The file of a mapping is stored in the object of the page. *)
Definition store_file (u : guest) (page f : Z) : option guest :=
  e ← Memory.mem_pt u.2 page;
  d ← Memory.datas u.1 !! Memory.pt_data e;
  Some (Memory.mk_world (Memory.blocks u.1) (<[Memory.pt_data e := Memory.mk_data (Memory.d_block d) (Memory.d_size d) (Memory.d_refcount d) (Some f)]> (Memory.datas u.1)) (Memory.closed u.1), u.2).

(** The address space of a task that shares it with no other. *)
#[global] Instance guest_space : Space guest := {|
  fresh_space u := ((Memory.mem_destroy vdso u.1 u.2).1, Memory.mem_init);
  user_read u a buf := read_result (User.user_read_task vdso mmap_at malloc_data u.1 u.2 a buf (Z.of_nat (length buf)));
  user_write u a bs := write_result (User.user_write_task vdso mmap_at malloc_data u.1 u.2 a bs (Z.of_nat (length bs)));
  user_read_string u a buf := read_result (User.user_read_string vdso mmap_at malloc_data u.1 u.2 a buf (Z.of_nat (length buf)));
  user_write_string u a b := write_result (User.user_write_string vdso mmap_at malloc_data u.1 u.2 a b);
  map_nothing u start pages flags := write_result (Memory.pt_map_nothing vdso mmap_at malloc_data u.1 u.2 start pages flags);
  map_vdso u start pages := write_result (Memory.pt_map vdso u.1 u.2 start pages (inr vdso) (malloc_data u.1) 0 0);
  find_hole u n := Memory.pt_find_hole u.2 n;
  is_mapped u page := Memory.is_mapped u.2 page;
  tag_file := store_file |}.

Context {HA : Cow.HostAlloc mmap_at malloc_data} {HM : Cow.HostHasMemory mmap_at malloc_data} (ext : Z -> Z).
Import Memory Cow User.

Definition guest_seen (u : guest) (x : Z) : Z := default 0 (guest_byte u.1 u.2 x).
Definition guest_present (u : guest) (x : Z) : Prop := is_Some (mem_pt u.2 (PAGE x)).
Definition guest_writable (u : guest) (x : Z) : Prop := accessible u.2 (PAGE x) MEM_WRITE.
Definition guest_ok (u : guest) : Prop := space_ok vdso u.1 u.2 ext.

(** Nothing becomes inaccessible. *)
Definition grows (u u' : guest) : Prop :=
  (forall x, guest_writable u x -> guest_writable u' x) /\ (forall x, guest_present u x -> guest_present u' x).

Lemma seen_bytes w m x e bs : mem_pt m (PAGE x) = Some e -> page_bytes w e = Some bs -> guest_seen (w, m) x = nth (Z.to_nat (PGOFFSET x)) bs 0.
Proof.
  intros He Hb. unfold guest_seen, guest_byte. cbn [fst snd]. rewrite He. cbn. rewrite Hb. cbn.
  destruct (bs !! Z.to_nat (PGOFFSET x)) as [b|] eqn:Eb; cbn; [symmetry; by apply nth_lookup_Some|].
  symmetry. apply nth_overflow. by apply lookup_ge_None.
Qed.
Lemma seen_absent w m x : mem_pt m (PAGE x) = None -> guest_seen (w, m) x = 0.
Proof. intros He. unfold guest_seen, guest_byte. cbn [fst snd]. by rewrite He. Qed.

Lemma nth_replicate_zero n k : nth k (replicate n 0) 0 = 0.
Proof. revert k. induction n as [|n IH]; intros [|k]; cbn; auto. Qed.

(** An access changes nothing of what is seen. *)
Lemma granted_seen w m a type r w' m' x : guest_ok (w, m) -> access_granted vdso w m ext a type r w' m' -> guest_seen (w', m') x = guest_seen (w, m) x.
Proof.
  intros Hok Hg. pose proof (granted_unchanged vdso _ _ _ _ _ _ _ _ Hok Hg x) as Hun. destruct Hg as [_ _ Hf (e' & He' & _ & _ & Hby & _)].
  destruct (guest_byte w m x) as [b|] eqn:Eb.
  { unfold guest_seen. cbn [fst snd] in *. by rewrite Hun by eauto. }
  assert (mem_pt m (PAGE x) = None) as Hn.
  { destruct (mem_pt m (PAGE x)) as [e|] eqn:Ee; [|done]. exfalso. apply (sp_backed _ _ _ _ Hok) in Ee as Hbk. cbn [fst snd] in Hbk.
    assert (is_Some (guest_byte w m x)) as [? ?] by (apply guest_byte_Some; eauto). congruence. }
  rewrite (seen_absent w m x Hn). destruct (decide (PAGE x = PAGE a)) as [E|E].
  - rewrite <- E in He'. unfold bytes_before in Hby. rewrite <- E, Hn in Hby. rewrite (seen_bytes _ _ _ _ _ He' Hby).
    unfold zero_page. apply nth_replicate_zero.
  - apply seen_absent. by rewrite Hf.
Qed.

(** *** What becomes of the pages *)

(** Only this page changes: it stays mapped with its rights, or it is a new page of the stack. *)
Definition page_step (pg : Z) (m m' : mem) : Prop :=
  (forall k, k <> pg -> mem_pt m' k = mem_pt m k) /\
  match mem_pt m pg with
  | Some e => exists e', mem_pt m' pg = Some e' /\ (has (pt_flags e) P_WRITE = true -> has (pt_flags e') P_WRITE = true) /\
                         has (pt_flags e') P_GROWSDOWN = has (pt_flags e) P_GROWSDOWN
  | None => mem_pt m' pg = None \/ exists e', mem_pt m' pg = Some e' /\ has (pt_flags e') P_WRITE = true /\ has (pt_flags e') P_GROWSDOWN = true
  end.
Lemma page_step_refl pg m : page_step pg m m.
Proof. split; [done|]. destruct (mem_pt m pg) as [e|]; [by exists e|by left]. Qed.
Lemma page_step_trans pg m m1 m2 : page_step pg m m1 -> page_step pg m1 m2 -> page_step pg m m2.
Proof.
  intros [F1 H1] [F2 H2]. split; [intros k Hk; by rewrite F2, F1|]. destruct (mem_pt m pg) as [e|].
  - destruct H1 as (e1 & E1 & W1 & G1). rewrite E1 in H2. destruct H2 as (e2 & -> & W2 & G2). exists e2. split_and!; [done|auto|congruence].
  - destruct H1 as [E1|(e1 & E1 & W1 & G1)]; rewrite E1 in H2; [done|]. destruct H2 as (e2 & -> & W2 & G2). right. exists e2.
    split_and!; [done|auto|congruence].
Qed.

Lemma page_step_growable pg m m' q : page_step pg m m' -> growable m q -> mem_pt m' q = None -> growable m' q.
Proof.
  intros [F H] (p & e & Hp & He & Hg & Hno) Hq.
  destruct (decide (q < pg < p)) as [Hin|Hout].
  - rewrite (Hno pg) in H by lia. destruct H as [Hn|(e' & He' & _ & Hg')].
    + exists p, e. split_and!; [lia|lia|by rewrite F by lia|done|]. intros k Hk. destruct (decide (k = pg)) as [->|]; [done|]. rewrite F by done. by apply Hno.
    + exists pg, e'. split_and!; [lia|lia|done|done|]. intros k Hk. rewrite F by lia. apply Hno. lia.
  - destruct (decide (p = pg)) as [->|Hne].
    + rewrite He in H. destruct H as (e' & He' & _ & Hg'). exists pg, e'. split_and!; [lia|lia|done|congruence|].
      intros k Hk. rewrite F by lia. by apply Hno.
    + exists p, e. split_and!; [lia|lia|by rewrite F|done|]. intros k Hk. rewrite F by lia. by apply Hno.
Qed.

Lemma page_step_grows pg w m w' m' : page_step pg m m' -> grows (w, m) (w', m').
Proof.
  intros Hst. pose proof Hst as [F H]. split; intros x; cbn [fst snd].
  - unfold guest_writable, accessible. cbn [snd]. intros Hw. destruct (mem_pt m' (PAGE x)) as [e'|] eqn:E'.
    + intros _. destruct (decide (PAGE x = pg)) as [<-|Hne].
      * destruct (mem_pt m (PAGE x)) as [e|]; [destruct H as (e1 & E1 & W & _)|destruct H as [?|(e1 & E1 & W & _)]; [congruence|]]; simplify_eq; auto.
      * rewrite F in E' by done. rewrite E' in Hw. auto.
    + assert (mem_pt m (PAGE x) = None) as Hn.
      { destruct (decide (PAGE x = pg)) as [<-|Hne]; [|by rewrite <- F]. destruct (mem_pt m (PAGE x)) as [e|]; [|done].
        destruct H as (e1 & E1 & _). congruence. }
      rewrite Hn in Hw. by eapply page_step_growable.
  - unfold guest_present. cbn [snd]. intros [e He]. destruct (decide (PAGE x = pg)) as [<-|Hne]; [|by rewrite F, He].
    rewrite He in H. destruct H as (e' & -> & _). eauto.
Qed.

Lemma mapped_part_step old w m a type e r w' m' : mem_inv vdso w m ext None -> backed w m -> 0 <= PAGE a < MEM_PAGES -> mem_pt m (PAGE a) = Some e ->
  type <> MEM_WRITE_PTRACE -> mapped_part vdso mmap_at malloc_data old w m a type e = Some (r, w', m') -> page_step (PAGE a) m m'.
Proof.
  intros Hinv Hbk Hp He Ht. unfold mapped_part. rewrite (bool_decide_eq_false_2 (type = MEM_WRITE_PTRACE)), (bool_decide_eq_true_2 (type <> MEM_WRITE_PTRACE)) by done.
  cbn [andb]. cbv zeta beta iota. destruct (Hbk _ _ He) as [bytes Hb]. destruct (break_cow_ok vdso mmap_at malloc_data w m ext (PAGE a) e bytes Hinv Hp Hb) as (w1 & m1 & -> & Hf).
  assert (page_step (PAGE a) m m1) as Hst.
  { destruct Hf as [_ _ F (e' & He' & Hfl & _)]. split; [exact F|]. rewrite He. exists e'. rewrite Hfl. split_and!; [done| |]; flag_solve. }
  repeat case_match; intros; simplify_eq; try done; try apply page_step_refl.
Qed.

Lemma mem_ptr_step w m a type r w' m' : guest_ok (w, m) -> in_u 32 a -> type <> MEM_WRITE_PTRACE ->
  mem_ptr vdso mmap_at malloc_data w m a type = Some (r, w', m') -> page_step (PAGE a) m m'.
Proof.
  intros [Hinv Hbk _] Ha Ht. cbn [fst snd] in *. pose proof (page_range a Ha) as Hp. unfold mem_ptr.
  pose proof (grow_stack_ok vdso mmap_at malloc_data w m ext (PAGE a) Hinv Hp) as Hg.
  destruct (grow_stack vdso mmap_at malloc_data w m (PAGE a)) as [[[w1 m1]|]|]; [|intros [= <- <- <-]; apply page_step_refl|done].
  cbv zeta. destruct Hg as [([e He] & -> & ->)|(Hn & Hgr & Hfp)].
  - rewrite He. intros Hm. exact (mapped_part_step _ w m a type e r w' m' Hinv Hbk Hp He Ht Hm).
  - pose proof Hfp as [Hinv1 Hk F (e & He & Hfl & Hby & _)]. rewrite He. intros Hm. eapply page_step_trans.
    + split; [exact F|]. rewrite Hn. right. exists e. rewrite Hfl. done.
    + refine (mapped_part_step _ w1 m1 a type e r w' m' Hinv1 _ Hp He Ht Hm).
      intros k e1 Hk1. destruct (decide (k = PAGE a)) as [->|Hne]; [rewrite He in Hk1; simplify_eq; by rewrite Hby|].
      rewrite (kept_page vdso w w1 m m1 ext ext k e1 e1 Hinv Hinv1 Hk); [|by rewrite <- F|done|done|done]. apply (Hbk k). by rewrite <- F.
Qed.

Lemma grows_refl u : grows u u.
Proof. by split. Qed.
Lemma grows_trans u u1 u2 : grows u u1 -> grows u1 u2 -> grows u u2.
Proof. intros [? ?] [? ?]. split; auto. Qed.

(** *** The laws *)

Section Writing.
Context (addr : Z) (buf : list Z).
Context (Haddr : 0 <= addr) (Hend : addr + Z.of_nat (length buf) <= LAST_PAGE).
Let count : Z := Z.of_nat (length buf).

Lemma write_loop_law fuel : forall w m p, guest_ok (w, m) -> addr <= p <= addr + count -> addr + count - p <= Z.of_nat fuel ->
  (forall x, p <= x < addr + count -> guest_writable (w, m) x) ->
  exists w' m', write_loop vdso mmap_at malloc_data fuel w m addr count buf false p = Some (0, w', m') /\ guest_ok (w', m') /\ grows (w, m) (w', m') /\
    forall x, guest_seen (w', m') x = store (guest_seen (w, m)) p (drop (Z.to_nat (p - addr)) buf) x.
Proof.
  unfold count. induction fuel as [|fuel IH]; intros w m p Hok Hp Hf Hw; cbn [write_loop];
    rewrite (wrap_small 64) by (unfold in_u, LAST_PAGE in *; lia); destruct (Z.ltb_spec p (addr + Z.of_nat (length buf))) as [Hlt|Hge]; try lia.
  1,3: exists w, m; split_and!; [done|done|apply grows_refl|]; intros x; rewrite store_out; [done|]; rewrite length_drop; lia.
  destruct (chunk_end_ok p addr (Z.of_nat (length buf)) Haddr ltac:(lia) Hend) as [Ece Hce]. unfold LAST_PAGE in *.
  pose proof (PAGE_split p) as [Hsp Hoff].
  destruct (mem_ptr_view vdso mmap_at malloc_data w m ext p MEM_WRITE Hok) as [(q & w1 & m1 & Hmp & Hacc & Hva)|[_ Hna]];
    [unfold in_u; lia| |by destruct Hna; apply (Hw p); lia].
  rewrite Hmp. rewrite !(wrap_small 32) by (unfold in_u; lia). rewrite block_read_Some by lia. cbn [mbind option_bind].
  set (bytes := take _ _). destruct Hva as [Hok1 _ Hg (e & He & Hq)].
  assert (Hbl : Z.of_nat (length bytes) = chunk_end p addr (Z.of_nat (length buf)) - p).
  { unfold bytes. rewrite length_take, length_drop. lia. }
  destruct (write_chunk vdso w1 m1 ext e p q bytes Hok1 He Hq ltac:(lia)) as (w2 & Hm2 & Hok2 & _ & _ & Hview).
  rewrite Hm2. cbn [mbind option_bind].
  assert (grows (w, m) (w2, m1)) as Hgr by (eapply page_step_grows, (mem_ptr_step w m p MEM_WRITE); [done|unfold in_u; lia|done|exact Hmp]).
  destruct (IH w2 m1 (chunk_end p addr (Z.of_nat (length buf))) Hok2 ltac:(lia) ltac:(lia)) as (w' & m' & Hl & Hok' & Hgr' & Hseen).
  { intros x Hx. apply (proj1 Hgr), Hw. lia. }
  exists w', m'. split_and!; [done|done|by eapply grows_trans|]. intros x. rewrite Hseen.
  replace (drop (Z.to_nat (p - addr)) buf) with (bytes ++ drop (Z.to_nat (chunk_end p addr (Z.of_nat (length buf)) - addr)) buf).
  2:{ unfold bytes. rewrite <- (take_drop (Z.to_nat (chunk_end p addr (Z.of_nat (length buf)) - p)) (drop (Z.to_nat (p - addr)) buf)) at 2. f_equal.
      rewrite drop_drop. f_equal. lia. }
  rewrite <- store_app. replace (p + Z.of_nat (length bytes)) with (chunk_end p addr (Z.of_nat (length buf))) by lia. apply store_ext.
  unfold guest_seen. cbn [fst snd]. rewrite Hview. unfold store. case_decide as Hin.
  - destruct (bytes !! Z.to_nat (x - p)) as [b|] eqn:Eb; cbn; [symmetry; by apply nth_lookup_Some|]. apply lookup_ge_None in Eb. lia.
  - exact (granted_seen w m p MEM_WRITE (Some q) w1 m1 x Hok Hg).
Qed.
End Writing.

Lemma write_task_law u a bs : guest_ok u -> 0 <= a -> a + Z.of_nat (length bs) <= LAST_PAGE -> (forall x, a <= x < a + Z.of_nat (length bs) -> guest_writable u x) ->
  exists w' m', User.user_write_task vdso mmap_at malloc_data u.1 u.2 a bs (Z.of_nat (length bs)) = Some (0, w', m') /\ guest_ok (w', m') /\ grows u (w', m') /\
    forall x, guest_seen (w', m') x = store (guest_seen u) a bs x.
Proof.
  intros Hok Ha Hend Hw. destruct u as [w m]. destruct (write_loop_law a bs Ha Hend (Z.to_nat (Z.of_nat (length bs))) w m a Hok) as (w' & m' & Hl & ? & ? & Hs); [lia|lia|done|].
  exists w', m'. split_and!; [exact Hl|done|done|]. intros x. rewrite Hs. by rewrite Z.sub_diag.
Qed.

Lemma write_string_loop_law s r : forall w m a i, guest_ok (w, m) -> 0 <= i -> 0 <= a -> a + i + Z.of_nat (length s) + 1 <= LAST_PAGE -> Forall (fun c => c <> 0) s ->
  (forall x, a + i <= x < a + i + Z.of_nat (length s) + 1 -> guest_writable (w, m) x) ->
  exists w' m', write_string_loop vdso mmap_at malloc_data w m a (s ++ 0 :: r) i = Some (0, w', m') /\ guest_ok (w', m') /\ grows (w, m) (w', m') /\
    forall x, guest_seen (w', m') x = store (guest_seen (w, m)) (a + i) (s ++ [0]) x.
Proof.
  induction s as [|c s IH]; intros w m a i Hok Hi Ha Hend Hs Hw; cbn [write_string_loop app]; unfold LAST_PAGE in Hend; cbn [length] in Hend, Hw;
    rewrite (wrap_small 32) by (unfold in_u; lia).
  - destruct (write_task_law (w, m) (a + i) [0] Hok ltac:(lia)) as (w1 & m1 & Hl & Hok1 & Hg & Hsn); [unfold LAST_PAGE; cbn [length]; lia|intros; apply Hw; cbn [length] in *; lia|].
    cbn [fst snd length] in Hl. change (Z.of_nat 1) with 1 in Hl. rewrite Hl. cbn. eauto 6.
  - apply Forall_cons_1 in Hs as [Hc Hs].
    destruct (write_task_law (w, m) (a + i) [c] Hok ltac:(lia)) as (w1 & m1 & Hl & Hok1 & Hg & Hsn); [unfold LAST_PAGE; cbn [length]; lia|intros; apply Hw; cbn [length] in *; lia|].
    cbn [fst snd length] in Hl. change (Z.of_nat 1) with 1 in Hl. rewrite Hl. cbn [mbind option_bind ctrue Z.eqb negb]. rewrite (proj2 (Z.eqb_neq c 0)) by done.
    destruct (IH w1 m1 a (i + 1) Hok1 ltac:(lia) Ha) as (w' & m' & Hl' & Hok' & Hg' & Hsn'); [unfold LAST_PAGE; lia|done|intros x Hx; apply (proj1 Hg), Hw; lia|].
    exists w', m'. split_and!; [done|done|by eapply grows_trans|]. intros x. rewrite Hsn'. change (c :: s ++ [0]) with ([c] ++ (s ++ [0])). rewrite <- (store_app _ _ [c]).
    cbn [length]. replace (a + i + Z.of_nat 1) with (a + (i + 1)) by lia. apply store_ext. apply Hsn.
Qed.

Lemma read_loop_grows addr count fuel : forall w m buf p res buf' w' m', guest_ok (w, m) -> 0 <= addr -> addr <= p <= addr + count -> addr + count <= LAST_PAGE ->
  read_loop vdso mmap_at malloc_data fuel w m addr count buf p = Some (res, buf', w', m') -> grows (w, m) (w', m') /\ forall x, guest_seen (w', m') x = guest_seen (w, m) x.
Proof.
  induction fuel as [|fuel IH]; intros w m buf p res buf' w' m' Hok Ha Hp Hend; cbn [read_loop]; unfold LAST_PAGE in *;
    rewrite (wrap_small 64) by (unfold in_u; lia); destruct (Z.ltb_spec p (addr + count)) as [Hlt|Hge]; try done.
  1,3: intros [= <- <- <- <-]; split; [apply grows_refl|done].
  destruct (chunk_end_ok p addr count Ha ltac:(lia) ltac:(unfold LAST_PAGE; lia)) as [_ Hce].
  destruct (mem_ptr_view vdso mmap_at malloc_data w m ext p MEM_READ Hok) as [(q & w1 & m1 & Hmp & Hacc & Hva)|[Hmp Hna]];
    [unfold in_u; lia| |rewrite Hmp; intros [= <- <- <- <-]; split; [apply grows_refl|done]].
  rewrite Hmp. destruct (memcpy_from w1 q _) as [bytes|]; cbn [mbind option_bind]; [|done]. destruct (block_write buf _ bytes) as [buf1|]; cbn [mbind option_bind]; [|done].
  intros Hl. destruct Hva as [Hok1 _ Hg _]. destruct (IH w1 m1 buf1 (chunk_end p addr count) res buf' w' m' Hok1 Ha ltac:(lia) ltac:(lia) Hl) as [Hgr Hsn]. split.
  - eapply grows_trans; [|exact Hgr]. eapply page_step_grows, (mem_ptr_step w m p MEM_READ); [done|unfold in_u; lia|done|exact Hmp].
  - intros x. rewrite Hsn. by eapply granted_seen.
Qed.

(** Fresh pages lie where no page was. *)
Lemma mapped_unaliased w m start pages id b flags w' m' : unaliased w m -> (forall q, pt_data <$> mem_pt m q <> Some id) ->
  (forall i d, datas w !! i = Some d -> d_block d <> b) -> mapped_by w m start pages id b 0 flags w' m' -> unaliased w' m'.
Proof.
  intros Hal Hno Hfree [Hpt (d & Hd & Hdb) _ Hoth] p q ep eq bk op oq Hpq Hp Hq Hlp Hlq.
  assert (forall k e o, mem_pt m' k = Some e -> location w' e = Some (bk, o) ->
    (start <= k < start + pages /\ bk = b /\ o = (k - start) * 4096) \/ (~ start <= k < start + pages /\ mem_pt m k = Some e /\ bk <> b /\ location w e = Some (bk, o))) as Hloc.
  { intros k e o He Hl. rewrite Hpt in He. unfold location in Hl. case_decide as Hin.
    - injection He as <-. cbn [pt_data pt_offset] in Hl. rewrite Hd in Hl. cbn in Hl. injection Hl as <- <-. left. unfold PAGE_BITS.
      rewrite Z.shiftl_mul_pow2 by lia. split_and!; [lia|lia|done|lia].
    - destruct (datas w' !! pt_data e) as [d'|] eqn:Ed'; [|done]. cbn in Hl. injection Hl as <- <-. right.
      destruct (Hoth (pt_data e) d') as (d0 & Hd0 & E & _); [|done|]; [intros E; apply (Hno k); by rewrite He, <- E|].
      split_and!; [done|done|rewrite E; by eapply Hfree|]. unfold location. rewrite Hd0. cbn. by rewrite E. }
  destruct (Hloc _ _ _ Hp Hlp) as [(? & ? & ->)|(? & Hp' & ? & Hlp')], (Hloc _ _ _ Hq Hlq) as [(? & ? & ->)|(? & Hq' & ? & Hlq')]; try congruence.
  - change PAGE_SIZE with 4096. lia.
  - by eapply (Hal p q).
Qed.

Lemma map_nothing_pages w m start pages flags : guest_ok (w, m) -> 0 <= start -> 1 <= pages -> start + pages < MEM_PAGES ->
  exists w' m', pt_map_nothing vdso mmap_at malloc_data w m start pages flags = Some (0, w', m') /\ guest_ok (w', m') /\
    (forall q, ~ start <= q < start + pages -> mem_pt m' q = mem_pt m q) /\
    (forall q, start <= q < start + pages -> exists e, mem_pt m' q = Some e /\ pt_flags e = Z.lor flags P_ANONYMOUS /\ page_bytes w' e = Some zero_page) /\
    (forall q e, ~ start <= q < start + pages -> mem_pt m q = Some e -> page_bytes w' e = page_bytes w e).
Proof.
  intros [Hinv Hbk Hal] Hs Hp Hend. cbn [fst snd] in *. assert (MEM_PAGES = 1048576) as EM by done. unfold pt_map_nothing.
  rewrite (proj2 (Z.eqb_neq pages 0)) by lia. unfold mmap_anon. destruct (mmap_total w (u32 (pages * PAGE_SIZE))) as [b Hb]. rewrite Hb.
  change PAGE_SIZE with 4096 in *. rewrite (wrap_small 32) in * by (unfold in_u; lia). set (zeros := replicate (Z.to_nat (pages * 4096)) 0).
  pose proof (mmap_fresh w _ b Hb) as Hfb. destruct (add_block_ok vdso w m ext b zeros Hinv Hfb) as (Hinv1 & Hk1 & Hne). set (w1 := mk_world _ _ _) in *.
  destruct (malloc_total w1) as [id Hid]. rewrite Hid. pose proof (malloc_fresh w1 id Hid) as Hfid. destruct (unused_id _ _ _ _ _ _ Hinv1 Hfid) as (_ & _ & Hno).
  destruct (pt_map_ok vdso w1 m ext start pages b id 0 (Z.lor flags P_ANONYMOUS) Hinv1 Hs Hp ltac:(lia) ltac:(lia) ltac:(change PAGE_SIZE with 4096; lia) ltac:(left; by eapply mmap_aligned) Hfid) as (w' & m' & -> & Hinv' & Hmb).
  { exists zeros. apply lookup_insert_eq. } { intros i di Hi. left. by apply (Hne i). }
  assert (blocks w1 !! b = Some zeros) as Hbz by apply lookup_insert_eq.
  assert (backed w1 m) as Hbk1.
  { intros k e Hk. rewrite (kept_page vdso w w1 m m ext ext k e e Hinv Hinv1 Hk1 Hk Hk); [by eapply Hbk|done|done]. }
  assert (kept w1 w') as Hk2.
  { intros i di di' Hi Hi'. destruct (decide (i = id)) as [->|Hni]; [congruence|]. destruct (mb_others _ _ _ _ _ _ _ _ _ _ Hmb i di' Hni Hi') as (d0 & Hd0 & E1 & E2).
    simplify_eq. by rewrite <- E2, E1. }
  assert (backed w' m') as Hbk'.
  { eapply (pt_map_backed vdso w1 m ext start pages b id 0); [done|done|done|lia|done|exact Hbz| |exact Hmb]. unfold zeros. rewrite length_replicate.
    change PAGE_SIZE with 4096. lia. }
  exists w', m'. split_and!; [done| | | |].
  - split; cbn [fst snd]; [done|done|]. eapply (mapped_unaliased w1 m); [|exact Hno| |exact Hmb]; [exact Hal|exact Hne].
  - intros q Hq. rewrite (mb_pt _ _ _ _ _ _ _ _ _ _ Hmb), decide_False by done. done.
  - intros q Hq. eexists. split; [rewrite (mb_pt _ _ _ _ _ _ _ _ _ _ Hmb), decide_True by done; done|]. split; [done|].
    destruct (mb_data _ _ _ _ _ _ _ _ _ _ Hmb) as (d & Hd & Hdb). unfold page_bytes. cbn [pt_data pt_offset]. rewrite Hd. cbn.
    rewrite Hdb, (mb_block _ _ _ _ _ _ _ _ _ _ Hmb), Hbz. cbn. unfold PAGE_BITS. rewrite Z.shiftl_mul_pow2 by lia. change PAGE_SIZE with 4096.
    unfold zeros. rewrite block_read_Some by (rewrite ?length_replicate; lia). f_equal. rewrite drop_replicate, take_replicate. unfold zero_page. f_equal.
    change PAGE_SIZE with 4096. lia.
  - intros q e Hq He. assert (mem_pt m' q = Some e) as He' by (by rewrite (mb_pt _ _ _ _ _ _ _ _ _ _ Hmb), decide_False).
    rewrite (kept_page vdso w1 w' m m' ext ext q e e Hinv1 Hinv' Hk2 He He') by done. by apply (kept_page vdso w w1 m m ext ext q e e Hinv Hinv1 Hk1).
Qed.

(** Storing the file of an object changes neither where it lies nor who refers to it. *)
Lemma store_file_ok w m e d f : guest_ok (w, m) -> datas w !! pt_data e = Some d ->
  let w' := mk_world (blocks w) (<[pt_data e := mk_data (d_block d) (d_size d) (d_refcount d) (Some f)]> (datas w)) (closed w) in
  guest_ok (w', m) /\ forall x, guest_seen (w', m) x = guest_seen (w, m) x.
Proof.
  intros [[Hr He [Hc Hd Hb Ho]] Hbk Hal] Hdt w'. cbn [fst snd] in *.
  assert (forall i, (fun d => (d_block d, d_refcount d)) <$> datas w' !! i = (fun d => (d_block d, d_refcount d)) <$> datas w !! i) as Hsame.
  { intros i. unfold w'. cbn [datas]. destruct (decide (pt_data e = i)) as [<-|]; [by rewrite lookup_insert_eq, Hdt|by rewrite lookup_insert_ne]. }
  assert (forall i di', datas w' !! i = Some di' -> exists di, datas w !! i = Some di /\ d_block di' = d_block di /\ d_refcount di' = d_refcount di) as Hget.
  { intros i di' Hi. specialize (Hsame i). rewrite Hi in Hsame. destruct (datas w !! i) as [di|]; [|done]. injection Hsame as ? ?. eauto. }
  assert (forall e1, page_bytes w' e1 = page_bytes w e1) as Hpb.
  { intros e1. unfold page_bytes. specialize (Hsame (pt_data e1)). destruct (datas w' !! pt_data e1), (datas w !! pt_data e1); try done. cbn in *. injection Hsame as E _. by rewrite E. }
  assert (forall e1, location w' e1 = location w e1) as Hlc.
  { intros e1. unfold location. specialize (Hsame (pt_data e1)). destruct (datas w' !! pt_data e1), (datas w !! pt_data e1); try done. cbn in *. injection Hsame as E _. by rewrite E. }
  split.
  - split; cbn [fst snd].
    + split; [done|done|]. split.
      * intros i di' Hi. destruct (Hget _ _ Hi) as (di & Hi0 & E1 & E2). rewrite E2. by apply Hc.
      * intros i Hi. apply Hd. specialize (Hsame i). rewrite Hi in Hsame. by destruct (datas w !! i).
      * intros i di' Hi. destruct (Hget _ _ Hi) as (di & Hi0 & E1 & E2). rewrite E1. by apply (Hb i).
      * intros i j di dj Hi Hj. destruct (Hget _ _ Hi) as (di0 & Hi0 & Ei & _), (Hget _ _ Hj) as (dj0 & Hj0 & Ej & _). rewrite Ei, Ej. by apply Ho.
    + intros k e1 Hk. rewrite Hpb. by eapply Hbk.
    + intros p q ep eq bk op oq. rewrite !Hlc. apply Hal.
  - intros x. unfold guest_seen, guest_byte. cbn [fst snd]. destruct (mem_pt m (PAGE x)) as [e1|]; [|done]. cbn. by rewrite Hpb.
Qed.
Lemma PAGE_of_page page : PAGE (page * 4096) = page.
Proof. rewrite PAGE_div. by apply Z.div_mul. Qed.

#[global] Instance guest_laws : @SpaceLaws guest guest_space.
Proof.
  refine {| ok := guest_ok; seen := guest_seen; present := guest_present; writable := guest_writable |}.
  - intros [w m] x _ Hn. apply seen_absent. cbn [snd] in *. unfold guest_present in Hn. cbn [snd] in Hn. destruct (mem_pt m (PAGE x)); [|done]. destruct Hn. eauto.
  - intros u a bs Hok Ha Hend Hw. destruct (write_task_law u a bs Hok Ha Hend Hw) as (w' & m' & Hl & ? & [? ?] & ?). exists (w', m'). cbn. rewrite Hl. done.
  - intros [w m] a b bs Hok Ha Hend Hw. unfold LAST_PAGE in Hend. cbn [length] in Hend. destruct (mem_ptr_view vdso mmap_at malloc_data w m ext a MEM_WRITE Hok) as [(q & w1 & m1 & _ & Hacc & _)|[Hmp _]];
      [unfold in_u; lia|by destruct Hw|]. cbn [user_write guest_space fst snd]. unfold User.user_write_task, User.user_write_task_gen. rewrite Nat2Z.id. cbn [length]. cbn [User.write_loop].
    rewrite (wrap_small 64) by (unfold in_u; lia). rewrite (proj2 (Z.ltb_lt a _)) by lia. rewrite Hmp. done.
  - intros [w m] a s r Hok Ha Hend Hs Hw. destruct (write_string_loop_law s r w m a 0 Hok ltac:(lia) ltac:(lia) ltac:(lia) Hs) as (w' & m' & Hl & ? & [? ?] & Hsn);
      [intros; apply Hw; lia|]. rewrite Z.add_0_r in Hsn. exists (w', m'). cbn. unfold User.user_write_string. rewrite (proj2 (Z.eqb_neq a 0)) by lia. rewrite Hl. done.
  - intros [w m] a buf Hok Ha Hend Hr. destruct (read_loop_ok vdso mmap_at malloc_data ext a (Z.of_nat (length buf)) (Z.to_nat (Z.of_nat (length buf))) w m buf a Hok Ha)
      as (res & bs & w' & m' & Hl & Hok' & _ & Hlen & Hres); [lia|done|lia|done|intros; lia|].
    destruct (read_loop_grows a (Z.of_nat (length buf)) (Z.to_nat (Z.of_nat (length buf))) w m buf a res bs w' m' Hok Ha ltac:(lia) Hend Hl) as [[Hg1 Hg2] Hsn].
    assert (res = 0 /\ forall k, (k < length buf)%nat -> is_Some (bs !! k) /\ bs !! k = guest_byte w' m' (a + Z.of_nat k)) as [-> Hb].
    { destruct Hres as [[-> Hb]|(-> & x & Hx & Hna)]; [split; [done|intros; apply Hb; lia]|]. exfalso. apply Hna. destruct (Hr x Hx) as [Hp|Hw].
      - apply Hg2 in Hp as [e He]. cbn [snd] in He. unfold accessible. by rewrite He.
      - apply Hg1 in Hw. unfold guest_writable, accessible in *. cbn [snd] in Hw. by destruct (mem_pt m' (PAGE x)). }
    exists bs, (w', m'). cbn. unfold user_read_task. rewrite Hl. split_and!; [done|done|done|done|done|done|]. intros i b Hi.
    pose proof (lookup_lt_Some _ _ _ Hi). destruct (Hb i ltac:(lia)) as [_ E]. rewrite <- Hsn. unfold guest_seen. cbn [fst snd]. by rewrite <- E, Hi.
  - intros [w m] start pages flags Hok Hs Hp Hend. destruct (decide (pages = 0)) as [->|Hne].
    { exists (w, m). cbn. split_and!; [done|done| |done|intros; lia|intros; lia|intros; lia]. intros x _. by rewrite decide_False by lia. }
    destruct (map_nothing_pages w m start pages flags Hok Hs ltac:(lia) Hend) as (w' & m' & Hm & Hok' & Hout & Hin & Hby). exists (w', m').
    assert (forall x, start <= PAGE x < start + pages -> has flags P_WRITE = true -> guest_writable (w', m') x) as Hwr.
    { intros x Hx Hf. destruct (Hin _ Hx) as (e & He & Hfl & _). unfold guest_writable, accessible. cbn [snd]. rewrite He, Hfl. intros _. revert Hf. flag_solve. }
    cbn. rewrite Hm. split_and!; [done|done| | | |auto|].
    + intros x Hx. case_decide as Hd.
      * destruct (Hin _ Hd) as (e & He & _ & Hb). rewrite (seen_bytes _ _ _ _ _ He Hb). apply nth_replicate_zero.
      * unfold guest_seen, guest_byte. cbn [fst snd]. rewrite Hout by done. destruct (mem_pt m (PAGE x)) as [e|] eqn:Ee; [|done]. cbn. by rewrite (Hby _ _ Hd Ee).
    + intros x [e He]. unfold guest_present in *. cbn [snd] in *. destruct (decide (start <= PAGE x < start + pages)) as [Hd|Hd]; [destruct (Hin _ Hd) as (e' & -> & _); eauto|].
      by rewrite Hout, He.
    + intros x Hx. destruct (Hin _ Hx) as (e & He & _). unfold guest_present. cbn [snd]. eauto.
    + intros Hf Hg Hpos lo Hlo x Hx Hx'. destruct (PAGE_split x) as [Esp Hoff]. assert (PAGE x < start) as Hlt by lia.
      assert (forall q, PAGE x <= q < start -> mem_pt m' q = None) as Hnone.
      { intros q Hq. rewrite Hout by lia. destruct (mem_pt m q) as [e|] eqn:Eq; [|done]. exfalso.
        pose (y := Z.max x (q * 4096)). assert (PAGE y = q) as Ey by (rewrite PAGE_div; unfold y; symmetry; apply (Z.div_unique _ _ _ (y - q * 4096)); unfold y; lia).
        apply (Hlo y); [unfold y; lia|]. unfold guest_present. cbn [snd]. rewrite Ey. eauto. }
      unfold guest_writable, accessible. cbn [snd]. rewrite Hnone by lia. destruct (Hin start) as (e & He & Hfl & _); [lia|]. exists start, e.
      assert (MEM_PAGES = 1048576) by done. split_and!; [lia|lia|done| |intros; apply Hnone; lia]. rewrite Hfl. revert Hg. flag_solve.
  - intros [w m] page f Hok Hp. unfold guest_present in Hp. cbn [snd] in Hp. rewrite PAGE_of_page in Hp. destruct Hp as [e He].
    destruct (mapped_live _ _ _ _ _ _ _ (sp_inv _ _ _ _ Hok) He) as (d & Hd & _). cbn [fst snd] in Hd.
    destruct (store_file_ok w m e d f Hok Hd) as [Hok' Hsn]. eexists. split; [cbn; unfold store_file; cbn [fst snd]; rewrite He; cbn; rewrite Hd; done|].
    split_and!; [exact Hok'|done|done|exact Hsn].
  - intros [w m] page f Hp. unfold guest_present in Hp. cbn [snd] in Hp. rewrite PAGE_of_page in Hp. cbn. unfold store_file. cbn [snd].
    destruct (mem_pt m page) as [e|]; [|done]. destruct Hp. eauto.
Defined.

End GuestMemory.
End Space.
