(* ===== verification/Tlb.v ===== *)
(** * The software TLB (emu/tlb.c, emu/tlb.h) over the MMU interface (emu/mmu.h)

    [struct mmu] is an interface: a change counter and [ops->translate].  It is
    the class [Mmu]; the TLB is modelled and proved against it, and the page
    table of kernel/memory.c is its instance. *)

From stdpp Require Import gmap.
From S2P Require Import Prelude Errno Memory Cow User.

Module Tlb.
Import Memory Cow.

(** ** The interface *)

Class Mmu (M : Type) := {
  mmu_changes : M -> Z;
  mmu_translate : M -> Z -> access -> option ptr;
}.

Definition ptr_add (p : ptr) (k : Z) : ptr := (p.1, p.2 + k).

(** ** Constants and state *)

Definition TLB_BITS : Z := 10.
Definition TLB_SIZE : Z := Z.shiftl 1 TLB_BITS.
Definition TLB_INDEX (addr : Z) : Z :=
  Z.lxor (Z.land (Z.shiftr addr PAGE_BITS) (TLB_SIZE - 1)) (Z.shiftr addr (PAGE_BITS + TLB_BITS)).
Definition TLB_PAGE (addr : Z) : Z := Z.land addr 0xfffff000.
Definition TLB_PAGE_EMPTY : Z := 1.

(** [data_minus_addr] is a host address as an integer; here the block it points
    into and the difference within it. *)
Record tlb_entry := mk_entry {
  page : Z;
  page_if_writable : Z;
  data_minus_addr : ptr;
}.

(** [mmu] names the [struct mmu] the TLB caches; [mem_changes] has 32 bits. *)
Record tlb := mk_tlb {
  t_mmu : Z;
  dirty_page : Z;
  mem_changes : Z;
  segfault_addr : Z;
  entries : list tlb_entry;
}.

Definition empty_entry : tlb_entry := mk_entry 1 1 (0, 0).

Section Ops.
Context {M : Type} `{Mmu M}.

(** The MMU each name stands for. *)
Context (mmus : Z -> M).

Definition tlb_flush (t : tlb) : tlb :=
  mk_tlb (t_mmu t) (dirty_page t) (u32 (mmu_changes (mmus (t_mmu t)))) (segfault_addr t)
    (replicate (Z.to_nat TLB_SIZE) empty_entry).

Definition tlb_refresh (t : tlb) (mmu : Z) : tlb :=
  if (t_mmu t =? mmu) && (mem_changes t =? mmu_changes (mmus mmu)) then t
  else tlb_flush (mk_tlb mmu TLB_PAGE_EMPTY (u32 (mmu_changes (mmus mmu))) (segfault_addr t) (entries t)).

(** [tlb_handle_miss]; a [None] in front is an access outside [entries]. *)
Definition tlb_handle_miss (t : tlb) (addr : Z) (type : access) : option (option ptr * tlb) :=
  let p := mmu_translate (mmus (t_mmu t)) (TLB_PAGE addr) type in
  let t := if negb (mmu_changes (mmus (t_mmu t)) =? mem_changes t) then tlb_flush t else t in
  match p with
  | None => Some (None, mk_tlb (t_mmu t) (dirty_page t) (mem_changes t) addr (entries t))
  | Some q =>
      let ix := Z.to_nat (TLB_INDEX addr) in
      _ ← entries t !! ix;
      let dma := ptr_add q (- TLB_PAGE addr) in
      let ent := mk_entry (TLB_PAGE addr)
                   (match type with MEM_WRITE => TLB_PAGE addr | _ => TLB_PAGE_EMPTY end) dma in
      Some (Some (ptr_add dma addr),
            mk_tlb (t_mmu t) (TLB_PAGE addr) (mem_changes t) (segfault_addr t) (<[ix := ent]> (entries t)))
  end.

Definition __tlb_read_ptr (t : tlb) (addr : Z) : option (option ptr * tlb) :=
  entry ← entries t !! Z.to_nat (TLB_INDEX addr);
  if page entry =? TLB_PAGE addr then Some (Some (ptr_add (data_minus_addr entry) addr), t)
  else tlb_handle_miss t addr MEM_READ.

Definition __tlb_write_ptr (t : tlb) (addr : Z) : option (option ptr * tlb) :=
  entry ← entries t !! Z.to_nat (TLB_INDEX addr);
  if page_if_writable entry =? TLB_PAGE addr then
    Some (Some (ptr_add (data_minus_addr entry) addr),
          mk_tlb (t_mmu t) (TLB_PAGE addr) (mem_changes t) (segfault_addr t) (entries t))
  else tlb_handle_miss t addr MEM_WRITE.

(** [PAGE_SIZE - size] is computed in [unsigned]. *)
Definition crosses (addr size : Z) : bool := PGOFFSET addr >? u32 (PAGE_SIZE - size).

Definition second_page (addr : Z) : Z := u32 (Z.shiftl (PAGE addr + 1) PAGE_BITS).

(** [__tlb_read_cross_page]: the bytes read, or [None] for a fault. *)
Definition __tlb_read_cross_page (w : world) (t : tlb) (addr size : Z)
    : option (option (list Z) * tlb) :=
  r1 ← __tlb_read_ptr t addr;
  match r1 with
  | (None, t) => Some (None, t)
  | (Some ptr1, t) =>
      r2 ← __tlb_read_ptr t (second_page addr);
      match r2 with
      | (None, t) => Some (None, t)
      | (Some ptr2, t) =>
          let part1 := PAGE_SIZE - PGOFFSET addr in
          if part1 <? size then
            b1 ← User.memcpy_from w ptr1 part1;
            b2 ← User.memcpy_from w ptr2 (size - part1);
            Some (Some (b1 ++ b2), t)
          else None
      end
  end.

Definition tlb_read (w : world) (t : tlb) (addr size : Z) : option (option (list Z) * tlb) :=
  if crosses addr size then __tlb_read_cross_page w t addr size
  else
    r ← __tlb_read_ptr t addr;
    match r with
    | (None, t) => Some (None, t)
    | (Some p, t) => b ← User.memcpy_from w p size; Some (Some b, t)
    end.

(** [__tlb_write_cross_page]: whether it succeeded, with host memory after. *)
Definition __tlb_write_cross_page (w : world) (t : tlb) (addr : Z) (value : list Z)
    : option (bool * world * tlb) :=
  let size := Z.of_nat (length value) in
  r1 ← __tlb_write_ptr t addr;
  match r1 with
  | (None, t) => Some (false, w, t)
  | (Some ptr1, t) =>
      r2 ← __tlb_write_ptr t (second_page addr);
      match r2 with
      | (None, t) => Some (false, w, t)
      | (Some ptr2, t) =>
          let part1 := PAGE_SIZE - PGOFFSET addr in
          if part1 <? size then
            w ← User.memcpy_to w ptr1 (take (Z.to_nat part1) value);
            w ← User.memcpy_to w ptr2 (drop (Z.to_nat part1) value);
            Some (true, w, t)
          else None
      end
  end.

Definition tlb_write (w : world) (t : tlb) (addr : Z) (value : list Z) : option (bool * world * tlb) :=
  if crosses addr (Z.of_nat (length value)) then __tlb_write_cross_page w t addr value
  else
    r ← __tlb_write_ptr t addr;
    match r with
    | (None, t) => Some (false, w, t)
    | (Some p, t) => w ← User.memcpy_to w p value; Some (true, w, t)
    end.

End Ops.

(** ** Index and page arithmetic *)

Lemma lxor_bound n a b : 0 <= n -> 0 <= a < 2 ^ n -> 0 <= b < 2 ^ n -> 0 <= Z.lxor a b < 2 ^ n.
Proof.
  intros Hn Ha Hb. assert (0 <= Z.lxor a b) by (apply Z.lxor_nonneg; lia). split; [done|].
  apply Z.bounded_iff_bits_nonneg; [done|done|]. intros l Hl. rewrite Z.lxor_spec.
  rewrite (proj1 (Z.bounded_iff_bits_nonneg n a Hn ltac:(lia)) ltac:(lia) l Hl).
  by rewrite (proj1 (Z.bounded_iff_bits_nonneg n b Hn ltac:(lia)) ltac:(lia) l Hl).
Qed.

Lemma TLB_INDEX_bound addr : in_u 32 addr -> 0 <= TLB_INDEX addr < 1024.
Proof.
  intros [H0 H1]. unfold TLB_INDEX. apply (lxor_bound 10); [lia| |].
  - change (TLB_SIZE - 1) with (Z.ones 10). rewrite Z.land_ones by lia. apply Z.mod_pos_bound. lia.
  - change (PAGE_BITS + TLB_BITS) with 22. rewrite Z.shiftr_div_pow2 by lia.
    split; [apply Z.div_pos; lia|]. apply Z.div_lt_upper_bound; lia.
Qed.

Lemma TLB_PAGE_eq addr : in_u 32 addr -> TLB_PAGE addr = PAGE addr * 4096.
Proof.
  intros [H0 H1]. unfold TLB_PAGE. change 0xfffff000 with (Z.ldiff (Z.ones 32) (Z.ones 12)).
  replace (Z.land addr (Z.ldiff (Z.ones 32) (Z.ones 12))) with (Z.ldiff (Z.land addr (Z.ones 32)) (Z.ones 12)).
  - rewrite Z.land_ones, Z.mod_small, Z.ldiff_ones_r by lia. rewrite Z.shiftl_mul_pow2 by lia. done.
  - apply Z.bits_inj'. intros n Hn. by rewrite !Z.ldiff_spec, !Z.land_spec, Z.ldiff_spec, andb_assoc.
Qed.

Lemma TLB_PAGE_facts addr : in_u 32 addr ->
  in_u 32 (TLB_PAGE addr) /\ PAGE (TLB_PAGE addr) = PAGE addr /\ PGOFFSET (TLB_PAGE addr) = 0 /\
  TLB_PAGE addr <> 1 /\ addr - TLB_PAGE addr = PGOFFSET addr.
Proof.
  intros Ha. rewrite TLB_PAGE_eq by done. destruct Ha as [H0 H1].
  pose proof (User.PAGE_split addr). pose proof (User.PAGE_split (PAGE addr * 4096)). unfold in_u. lia.
Qed.

(** ** Coherence *)

(** What the TLB needs of an MMU: a page is contiguous on the host, and a page
    that can be written can be read at the same place. *)
Class MmuOK (M : Type) `{Mmu M} : Prop := {
  changes_nonneg : forall m, 0 <= mmu_changes m;
  translate_page : forall m addr type, in_u 32 addr ->
    mmu_translate m addr type =
    (fun p => ptr_add p (PGOFFSET addr)) <$> mmu_translate m (TLB_PAGE addr) type;
  translate_write : forall m addr p,
    mmu_translate m addr MEM_WRITE = Some p -> mmu_translate m addr MEM_READ = Some p;
}.

Section Coherence.
Context {M : Type} `{MmuOK M}.

(** An entry is empty or agrees with the MMU. *)
Definition entry_ok (m : M) (e : tlb_entry) : Prop :=
  (page e = TLB_PAGE_EMPTY \/
   exists q, mmu_translate m (page e) MEM_READ = Some q /\ data_minus_addr e = ptr_add q (- page e)) /\
  (page_if_writable e = TLB_PAGE_EMPTY \/
   exists q, mmu_translate m (page_if_writable e) MEM_WRITE = Some q /\
     data_minus_addr e = ptr_add q (- page_if_writable e)).

Record coherent (m : M) (t : tlb) : Prop := mk_coherent {
  co_size : length (entries t) = Z.to_nat TLB_SIZE;
  co_entries : Forall (entry_ok m) (entries t);
}.

Context (mmus : Z -> M).

Lemma entry_lookup m t addr :
  coherent m t -> in_u 32 addr ->
  exists e, entries t !! Z.to_nat (TLB_INDEX addr) = Some e /\ entry_ok m e.
Proof.
  intros [Hs He] Ha. pose proof (TLB_INDEX_bound addr Ha) as Hb.
  destruct (lookup_lt_is_Some_2 (entries t) (Z.to_nat (TLB_INDEX addr))) as [e Hlk].
  { rewrite Hs. change (Z.to_nat TLB_SIZE) with (Z.to_nat 1024). lia. }
  exists e. split; [done|]. rewrite Forall_elem in He. apply He. by eapply list_elem_of_lookup_2.
Qed.

Lemma flush_coherent t m : coherent m (tlb_flush mmus t).
Proof.
  split; cbn [tlb_flush entries]; [apply length_replicate|]. apply Forall_elem. intros e He.
  apply elem_of_replicate in He as [-> _]. by split; left.
Qed.

(** A hit computes the pointer the MMU would give. *)
Lemma hit_ptr m addr type q :
  in_u 32 addr -> mmu_translate m (TLB_PAGE addr) type = Some q ->
  Some (ptr_add (ptr_add q (- TLB_PAGE addr)) addr) = mmu_translate m addr type.
Proof.
  intros Ha Hq. rewrite translate_page, Hq by done. simpl. f_equal. unfold ptr_add. simpl.
  destruct (TLB_PAGE_facts addr Ha) as (_ & _ & _ & _ & E). f_equal. lia.
Qed.

(** What an access through the TLB must do. *)
Definition access_result (m : M) (t : tlb) (addr : Z) (type : access) (r : option (option ptr * tlb)) : Prop :=
  exists t', r = Some (mmu_translate m addr type, t') /\ coherent m t' /\ t_mmu t' = t_mmu t /\
    (mem_changes t' = mem_changes t \/ mem_changes t' = u32 (mmu_changes m)) /\
    match mmu_translate m addr type with
    | None => segfault_addr t' = addr
    | Some _ => type = MEM_WRITE -> dirty_page t' = TLB_PAGE addr
    end.

Lemma tlb_handle_miss_ok t addr type :
  coherent (mmus (t_mmu t)) t -> in_u 32 addr -> type <> MEM_WRITE_PTRACE ->
  access_result (mmus (t_mmu t)) t addr type (tlb_handle_miss mmus t addr type).
Proof.
  intros Hco Ha Ht. unfold tlb_handle_miss. set (m := mmus (t_mmu t)) in *.
  set (t1 := if negb (mmu_changes m =? mem_changes t) then tlb_flush mmus t else t).
  assert (Hco1 : coherent m t1 /\ t_mmu t1 = t_mmu t /\
                 (mem_changes t1 = mem_changes t \/ mem_changes t1 = u32 (mmu_changes m))).
  { unfold t1. destruct (negb _); split_and!; auto using flush_coherent. }
  destruct Hco1 as (Hco1 & Ht1 & Hch1).
  destruct (mmu_translate m (TLB_PAGE addr) type) as [q|] eqn:Eq.
  - destruct (entry_lookup m t1 addr Hco1 Ha) as (e & Hlk & _). rewrite Hlk. cbn [mbind option_bind].
    eexists. rewrite (hit_ptr m addr type q Ha Eq). split; [done|]. cbn [t_mmu mem_changes dirty_page].
    split_and!; [|done|done|].
    + destruct Hco1 as [Hs He]. split; cbn [entries]; [by rewrite length_insert|].
      apply Forall_insert; [done|].
      assert (Hr : mmu_translate m (TLB_PAGE addr) MEM_READ = Some q).
      { destruct type; [done| |done]. by apply translate_write. }
      split; cbn [page page_if_writable data_minus_addr]; [right; eauto|].
      destruct type; [by left|right; eauto|done].
    + by rewrite <- (hit_ptr m addr type q Ha Eq).
  - exists (mk_tlb (t_mmu t1) (dirty_page t1) (mem_changes t1) addr (entries t1)).
    rewrite translate_page, Eq by done. simpl. split_and!; [done| |done|done|done].
    destruct Hco1. by split.
Qed.

Lemma tlb_read_ptr_ok t addr :
  coherent (mmus (t_mmu t)) t -> in_u 32 addr ->
  access_result (mmus (t_mmu t)) t addr MEM_READ (__tlb_read_ptr mmus t addr).
Proof.
  intros Hco Ha. unfold __tlb_read_ptr. destruct (entry_lookup _ t addr Hco Ha) as (e & -> & [He _]).
  cbn [mbind option_bind]. destruct (Z.eqb_spec (page e) (TLB_PAGE addr)) as [E|E].
  - destruct He as [He|(q & Hq & Hd)].
    { destruct (TLB_PAGE_facts addr Ha) as (_ & _ & _ & Hn & _). unfold TLB_PAGE_EMPTY in He. congruence. }
    rewrite E in *. exists t. rewrite Hd, (hit_ptr _ addr MEM_READ q Ha Hq).
    split_and!; [done|done|done|by left|]. by rewrite <- (hit_ptr _ addr MEM_READ q Ha Hq).
  - by apply tlb_handle_miss_ok.
Qed.

Lemma tlb_write_ptr_ok t addr :
  coherent (mmus (t_mmu t)) t -> in_u 32 addr ->
  access_result (mmus (t_mmu t)) t addr MEM_WRITE (__tlb_write_ptr mmus t addr).
Proof.
  intros Hco Ha. unfold __tlb_write_ptr. destruct (entry_lookup _ t addr Hco Ha) as (e & -> & [_ He]).
  cbn [mbind option_bind]. destruct (Z.eqb_spec (page_if_writable e) (TLB_PAGE addr)) as [E|E].
  - destruct He as [He|(q & Hq & Hd)].
    { destruct (TLB_PAGE_facts addr Ha) as (_ & _ & _ & Hn & _). unfold TLB_PAGE_EMPTY in He. congruence. }
    rewrite E in *. eexists. rewrite Hd, (hit_ptr _ addr MEM_WRITE q Ha Hq).
    split; [done|]. split_and!; [by destruct Hco|done|by left|]. by rewrite <- (hit_ptr _ addr MEM_WRITE q Ha Hq).
  - by apply tlb_handle_miss_ok.
Qed.

(** ** Staleness *)

(** How an MMU may change between accesses: translations that were there stay,
    or the counter moves. *)
Definition evolves (m m' : M) : Prop :=
  (mmu_changes m' = mmu_changes m /\
   forall a type q, mmu_translate m a type = Some q -> mmu_translate m' a type = Some q) \/
  mmu_changes m < mmu_changes m'.

Lemma coherent_extends m m' t :
  (forall a type q, mmu_translate m a type = Some q -> mmu_translate m' a type = Some q) ->
  coherent m t -> coherent m' t.
Proof.
  intros Hx [Hs He]. split; [done|]. rewrite Forall_elem in *. intros e Hin.
  destruct (He e Hin) as [[?|(q & Hq & ?)] [?|(q' & Hq' & ?)]]; split; eauto.
Qed.

End Coherence.

Section Trace.
Context {M : Type} `{MmuOK M}.

(** What holds of a TLB at any time: it is coherent unless its counter is behind. *)
Record tlb_inv (mmus : Z -> M) (t : tlb) : Prop := mk_tlb_inv {
  ti_behind : mem_changes t <= mmu_changes (mmus (t_mmu t));
  ti_coherent : mem_changes t = mmu_changes (mmus (t_mmu t)) -> coherent (mmus (t_mmu t)) t;
}.

Lemma u32_le x : 0 <= x -> u32 x <= x.
Proof. intros. apply Z.mod_le; lia. Qed.

Lemma tlb_flush_inv mmus t : tlb_inv mmus (tlb_flush mmus t).
Proof.
  split; cbn [tlb_flush mem_changes t_mmu]; [apply u32_le, changes_nonneg|intros _; apply flush_coherent].
Qed.

Lemma tlb_refresh_ok mmus t i :
  tlb_inv mmus t ->
  coherent (mmus i) (tlb_refresh mmus t i) /\ t_mmu (tlb_refresh mmus t i) = i /\
  mem_changes (tlb_refresh mmus t i) <= mmu_changes (mmus i).
Proof.
  intros [Hb Hc]. unfold tlb_refresh.
  destruct (Z.eqb_spec (t_mmu t) i) as [<-|Hi]; cbn [andb].
  - destruct (Z.eqb_spec (mem_changes t) (mmu_changes (mmus (t_mmu t)))) as [E|E].
    + split_and!; auto.
    + split_and!; [apply flush_coherent|done|apply u32_le, changes_nonneg].
  - split_and!; [apply flush_coherent|done|apply u32_le, changes_nonneg].
Qed.

Definition upd (mmus : Z -> M) (i : Z) (m : M) : Z -> M := fun j => if decide (j = i) then m else mmus j.

(** Address spaces change, and CPUs access memory after [tlb_refresh].  The
    label of an access is the TLB's answer and the MMU's at that moment. *)
Inductive step : (Z -> M) * tlb -> option (option ptr * option ptr) -> (Z -> M) * tlb -> Prop :=
| step_mmu mmus t i m' : evolves (mmus i) m' -> step (mmus, t) None (upd mmus i m', t)
| step_read mmus t i addr r t' :
    in_u 32 addr -> __tlb_read_ptr mmus (tlb_refresh mmus t i) addr = Some (r, t') ->
    step (mmus, t) (Some (r, mmu_translate (mmus i) addr MEM_READ)) (mmus, t')
| step_write mmus t i addr r t' :
    in_u 32 addr -> __tlb_write_ptr mmus (tlb_refresh mmus t i) addr = Some (r, t') ->
    step (mmus, t) (Some (r, mmu_translate (mmus i) addr MEM_WRITE)) (mmus, t').

Inductive steps : (Z -> M) * tlb -> list (option (option ptr * option ptr)) -> (Z -> M) * tlb -> Prop :=
| steps_nil s : steps s [] s
| steps_cons s1 l s2 ls s3 : step s1 l s2 -> steps s2 ls s3 -> steps s1 (l :: ls) s3.

Lemma access_inv mmus t i addr type r :
  tlb_inv mmus t -> access_result (mmus i) (tlb_refresh mmus t i) addr type r ->
  exists t', r = Some (mmu_translate (mmus i) addr type, t') /\ tlb_inv mmus t'.
Proof.
  intros Hinv (t' & -> & Hco & Hm & Hch & _). destruct (tlb_refresh_ok mmus t i Hinv) as (_ & Ei & Hle).
  exists t'. split; [done|]. rewrite Ei in Hm. split; rewrite Hm; [|done].
  destruct Hch as [->| ->]; [done|apply u32_le, changes_nonneg].
Qed.

(** Accesses through the TLB always return. *)
Lemma access_progress mmus t i addr :
  tlb_inv mmus t -> in_u 32 addr ->
  (exists t', __tlb_read_ptr mmus (tlb_refresh mmus t i) addr = Some (mmu_translate (mmus i) addr MEM_READ, t') /\ tlb_inv mmus t') /\
  (exists t', __tlb_write_ptr mmus (tlb_refresh mmus t i) addr = Some (mmu_translate (mmus i) addr MEM_WRITE, t') /\ tlb_inv mmus t').
Proof.
  intros Hinv Ha. destruct (tlb_refresh_ok mmus t i Hinv) as (Hco & Ei & _).
  pose proof (tlb_read_ptr_ok mmus (tlb_refresh mmus t i) addr) as Hr.
  pose proof (tlb_write_ptr_ok mmus (tlb_refresh mmus t i) addr) as Hw.
  rewrite Ei in Hr, Hw. split; eapply access_inv; eauto.
Qed.

Lemma step_inv s l s' :
  step s l s' -> tlb_inv s.1 s.2 -> tlb_inv s'.1 s'.2 /\ (forall r x, l = Some (r, x) -> r = x).
Proof.
  intros Hstep Hinv. destruct Hstep as [mmus t i m' Hev|mmus t i addr r t' Ha Hr|mmus t i addr r t' Ha Hr]; simpl in *.
  - split; [|done]. destruct Hinv as [Hb Hc]. unfold upd. destruct (decide (t_mmu t = i)) as [Ei|Ei].
    + subst i. destruct Hev as [[Hch Hx]|Hlt].
      * split; rewrite !decide_True by done; [lia|]. rewrite Hch. intros E. by apply (coherent_extends (mmus (t_mmu t))), Hc.
      * split; rewrite !decide_True by done; [lia|]. intros E. lia.
    + split; rewrite !decide_False by done; done.
  - destruct (access_progress mmus t i addr Hinv Ha) as [(t2 & Hr2 & Hi2) _]. rewrite Hr in Hr2. simplify_eq.
    split; [done|]. by intros ? ? [= <- <-].
  - destruct (access_progress mmus t i addr Hinv Ha) as [_ (t2 & Hr2 & Hi2)]. rewrite Hr in Hr2. simplify_eq.
    split; [done|]. by intros ? ? [= <- <-].
Qed.


End Trace.

(** ** The page table as an MMU *)

(** [mem_mmu_ops] *)
#[global] Instance mem_mmu : Mmu (world * mem) := {
  mmu_changes s := u64 (changes s.2);
  mmu_translate s := mem_ptr_nofault s.1 s.2;
}.

#[global] Instance mem_mmu_ok : MmuOK (world * mem).
Proof.
  split.
  - intros [w m]. apply wrap_range. lia.
  - intros [w m] addr type Ha. destruct (TLB_PAGE_facts addr Ha) as (_ & E1 & E2 & _).
    simpl. unfold mem_ptr_nofault. rewrite E1. destruct (mem_pt m (PAGE addr)) as [e|]; [|done].
    destruct (_ && _); [done|]. unfold entry_ptr. destruct (datas w !! pt_data e); [|done].
    simpl. unfold ptr_add. simpl. rewrite E2. do 2 f_equal. lia.
  - intros [w m] addr p. simpl. unfold mem_ptr_nofault. destruct (mem_pt m (PAGE addr)) as [e|]; [|done].
    rewrite (bool_decide_eq_true_2 (MEM_WRITE = MEM_WRITE)) by done.
    rewrite (bool_decide_eq_false_2 (MEM_READ = MEM_WRITE)) by done. simpl.
    by destruct (negb _).
Qed.

(** Address spaces whose pages stay in place only gain translations. *)
Lemma evolves_kept vdso w m w' m' ext ext' :
  mem_inv vdso w m ext None -> mem_inv vdso w' m' ext' None -> Cow.kept w w' -> changes m' = changes m ->
  (forall p e, mem_pt m p = Some e -> mem_pt m' p = Some e) ->
  evolves (w, m) (w', m').
Proof.
  intros Hi Hi' Hk Hc Hp. left. simpl. split; [by rewrite Hc|]. intros a type q. unfold mem_ptr_nofault.
  destruct (mem_pt m (PAGE a)) as [e|] eqn:E; [|done]. rewrite (Hp _ _ E). destruct (_ && _); [done|].
  destruct (mapped_live _ _ _ _ _ _ _ Hi E) as (d & Hd & _).
  destruct (mapped_live _ _ _ _ _ _ _ Hi' (Hp _ _ E)) as (d' & Hd' & _).
  unfold entry_ptr. rewrite Hd, Hd'. by destruct (Hk _ _ _ Hd Hd') as [-> _].
Qed.

Lemma evolves_bumped w m w' m' :
  0 <= changes m -> changes m < changes m' < 2 ^ 64 -> evolves (w, m) (w', m').
Proof. intros H0 H1. right. simpl. rewrite !wrap_small by (unfold in_u; lia). lia. Qed.

Lemma mem_pt_new_changes m page e : changes (mem_pt_new m page e) = changes m.
Proof. unfold mem_pt_new. by destruct (pgdir m !! PGDIR_TOP page). Qed.

Lemma unmap_page_changes vdso w m page : changes (unmap_page vdso w m page).2 = changes m.
Proof.
  unfold unmap_page. destruct (mem_pt m page) as [pt|]; [|done].
  assert (changes (mem_pt_del m page) = changes m).
  { unfold mem_pt_del. by destruct (pgdir m !! PGDIR_TOP page). }
  by destruct (datas w !! pt_data pt).
Qed.

Lemma unmap_loop_changes vdso fuel : forall w m page stop,
  changes (unmap_loop vdso fuel w m page stop).2 = changes m.
Proof.
  induction fuel as [|fuel IH]; intros w m page stop; simpl; [done|]. destruct (page <? stop); [|done].
  pose proof (unmap_page_changes vdso w m page) as Hc. destruct (unmap_page vdso w m page) as [w1 m1].
  rewrite IH. done.
Qed.

(** Mapping over a mapped page moves the counter. *)
Lemma map_loop_changes vdso id start offset flags n : forall w m page,
  0 <= changes m -> changes m + Z.of_nat n < 2 ^ 64 ->
  let m' := (map_loop vdso n w m id start page offset flags).2 in
  (changes m' = changes m /\ forall q, page <= q < page + Z.of_nat n -> mem_pt m q = None) \/
  changes m < changes m' <= changes m + Z.of_nat n.
Proof.
  induction n as [|n IH]; intros w m page H0 Hlt; cbn [map_loop snd].
  { left. split; [done|]. intros; lia. }
  rewrite pt_unmap_1. destruct (is_mapped m page) eqn:Em.
  - set (m1 := mem_changed _). assert (Hc1 : changes m1 = changes m + 1).
    { unfold m1, mem_changed. cbn [changes]. rewrite unmap_page_changes. apply wrap_small. unfold in_u. lia. }
    set (e := mk_pt _ _ _). pose proof (mem_pt_new_changes m1 page e) as Hc2.
    destruct (IH (data_retain (unmap_page vdso w m page).1 id) (mem_pt_new m1 page e) (page + 1)) as [[Hc _]|Hc]; try lia.
  - apply is_mapped_false in Em. set (e := mk_pt _ _ _). pose proof (mem_pt_new_changes m page e) as Hc2.
    destruct (IH (data_retain w id) (mem_pt_new m page e) (page + 1)) as [[Hc Hq]|Hc]; try lia.
    left. split; [lia|]. intros q Hr. destruct (Z.eq_dec q page) as [->|]; [done|].
    specialize (Hq q ltac:(lia)). by rewrite mem_pt_new_lookup, decide_False in Hq by lia.
Qed.

Lemma cow_loop_changes vdso fuel : forall w src dst page stop,
  0 <= changes dst -> changes dst + Z.of_nat fuel < 2 ^ 64 ->
  let '(_, src', dst') := cow_loop vdso fuel w src dst page stop in
  changes src' = changes src /\ changes dst <= changes dst' <= changes dst + Z.of_nat fuel.
Proof.
  induction fuel as [|fuel IH]; intros w src dst page stop H0 Hlt; cbn [cow_loop]; [split; lia|].
  destruct (page <? stop); [|split; lia]. unfold cow_page.
  destruct (mem_pt src page) as [e|].
  2:{ specialize (IH w src dst (mem_next_page src page) stop H0 ltac:(lia)).
      destruct (cow_loop _ _ _ _ _ _ _) as [[w' src'] dst']. lia. }
  unfold pt_unmap_always. pose proof (unmap_loop_changes vdso (Z.to_nat 1) w dst page (page + 1)) as Hc.
  destruct (unmap_loop vdso (Z.to_nat 1) w dst page (page + 1)) as [w1 dst1]. cbn [snd] in Hc.
  set (e' := if negb _ then _ else _). set (src1 := mem_pt_new src page e').
  set (dst2 := mem_pt_new (mem_changed dst1) page e').
  assert (Hs1 : changes src1 = changes src) by apply mem_pt_new_changes.
  assert (Hd2 : changes dst2 = changes dst + 1).
  { unfold dst2. rewrite mem_pt_new_changes. cbn [mem_changed changes]. rewrite Hc. apply wrap_small. unfold in_u. lia. }
  specialize (IH (data_retain w1 (pt_data e')) src1 dst2 (mem_next_page src1 page) stop ltac:(lia) ltac:(lia)).
  destruct (cow_loop _ _ _ _ _ _ _) as [[w' src'] dst']. lia.
Qed.

Lemma cow_evolves vdso w src dst start pages :
  0 <= pages -> 0 <= changes src -> changes src + 1 < 2 ^ 64 ->
  0 <= changes dst -> changes dst + pages + 1 < 2 ^ 64 ->
  let '(_, w', src', dst') := pt_copy_on_write vdso w src dst start pages in
  evolves (w, src) (w', src') /\ evolves (w, dst) (w', dst').
Proof.
  intros Hp H1 H2 H3 H4. unfold pt_copy_on_write.
  pose proof (cow_loop_changes vdso (Z.to_nat pages) w src dst start (start + pages) H3 ltac:(lia)) as Hc.
  destruct (cow_loop _ _ _ _ _ _ _) as [[w' src'] dst']. destruct Hc as [Hs Hd].
  split; apply evolves_bumped; try done; cbn [mem_changed changes]; rewrite wrap_small by (unfold in_u; lia); lia.
Qed.

(** Every operation on an address space lets the TLBs of all CPUs
    notice: unmapping, mapping and both sides of the fork copy either move the
    change counter of the address space or leave its translations as they were. *)
Theorem memory_operations_evolve {PS : PageSize} vdso w m dst ext start pages b id offset flags :
  mem_inv vdso w m ext None -> 0 <= start -> 1 <= pages -> start + pages <= MEM_PAGES ->
  0 <= changes m -> changes m + pages < 2 ^ 64 -> 0 <= changes dst -> changes dst + pages + 1 < 2 ^ 64 ->
  0 <= offset -> pages * PAGE_SIZE + offset < 2 ^ 64 -> aligned_block vdso b ->
  datas w !! id = None -> is_Some (blocks w !! b) ->
  (forall i d, datas w !! i = Some d -> d_block d <> b \/ b = vdso) ->
  (let '(_, w', m') := pt_unmap_always vdso w m start pages in evolves (w, m) (w', m')) /\
  (exists w' m', pt_map vdso w m start pages (inr b) (Some id) offset flags = Some (0, w', m') /\ evolves (w, m) (w', m')) /\
  (let '(_, w', m', dst') := pt_copy_on_write vdso w m dst start pages in
   evolves (w, m) (w', m') /\ evolves (w, dst) (w', dst')).
Proof.
  intros Hinv Hs Hp Hend H0 Hlt Hd0 Hdlt Ho Hob Hal Hid Hb Hown. split_and!; [| |apply cow_evolves; lia].
  - unfold pt_unmap_always. pose proof (unmap_loop_changes vdso (Z.to_nat pages) w m start (start + pages)) as Hc.
    destruct (unmap_loop vdso (Z.to_nat pages) w m start (start + pages)) as [w' m']. simpl in Hc.
    apply evolves_bumped; [done|]. cbn [mem_changed changes]. rewrite Hc, wrap_small by (unfold in_u; lia). lia.
  - destruct (pt_map_ok vdso w m ext start pages b id offset flags Hinv Hs Hp Hend Ho Hob Hal Hid Hb Hown)
      as (w' & m' & Hm & Hinv' & [Hpt _ _ Hoth]). exists w', m'. split; [done|].
    unfold pt_map in Hm. rewrite aligned_check in Hm by done. set (w1 := mk_world _ _ _) in Hm.
    destruct (map_loop_changes vdso id start offset flags (Z.to_nat pages) w1 m start H0 ltac:(lia)) as [[Hc Hfree]|Hc].
    all: destruct (map_loop vdso (Z.to_nat pages) w1 m id start start offset flags) as [w2 m2]; simplify_eq; simpl in Hc.
    + eapply evolves_kept; [exact Hinv|exact Hinv'| |done|].
      * intros i d d' Hd Hd'. destruct (decide (i = id)) as [->|Hne]; [congruence|].
        destruct (Hoth i d' Hne Hd') as (d0 & Hdd & E1 & E2). simplify_eq. by rewrite <- E2, E1.
      * intros p e He. rewrite Hpt. case_decide as Hr; [|done]. rewrite Hfree in He by lia. done.
    + apply evolves_bumped; lia.
Qed.

#[local] Existing Instance small_pages.

Lemma memory_operations_evolve_witness :
  exists w' m', pt_map 0 demo_world mem_init 0x400 2 (inr 0x7000) (Some 1) 0 P_WRITE = Some (0, w', m') /\
    evolves (demo_world, mem_init) (w', m').
Proof.
  destruct Cow.demo_mapped as (w' & m' & Hm & _). exists w', m'. split; [exact Hm|].
  destruct (memory_operations_evolve 0 demo_world mem_init mem_init (fun _ => 0) 0x400 2 0x7000 1 0 P_WRITE)
    as (_ & He & _).
  - by apply mem_init_inv.
  - lia.
  - lia.
  - vm_compute. discriminate.
  - simpl. lia.
  - simpl. lia.
  - simpl. lia.
  - simpl. lia.
  - lia.
  - vm_compute. reflexivity.
  - left. reflexivity.
  - reflexivity.
  - exists (replicate (Z.to_nat 8192) 0). apply lookup_singleton_eq.
  - intros i d. unfold demo_world; cbn [datas]. by rewrite lookup_empty.
  - destruct He as (w2 & m2 & Hm2 & He). rewrite Hm in Hm2. injection Hm2 as -> ->. exact He.
Defined.

(** ** Page faults and the TLB *)

Section Fault.
Context {PS : PageSize} (vdso : Z) (mmap_at : world -> Z -> Z + Z) (malloc_data : world -> option Z).
Context `{!Cow.HostAlloc mmap_at malloc_data, !Cow.HostHasMemory mmap_at malloc_data}.

Lemma pt_map_1_changes w m page b id offset flags code w' m' :
  pt_map vdso w m page 1 (inr b) (Some id) offset flags = Some (code, w', m') ->
  changes m' = if is_mapped m page then u64 (changes m + 1) else changes m.
Proof.
  unfold pt_map. destruct (negb _); [done|]. set (w1 := mk_world _ _ _). change (Z.to_nat 1) with 1%nat. cbn [map_loop]. rewrite pt_unmap_1.
  destruct (is_mapped m page); intros [= <- <- <-]; rewrite mem_pt_new_changes; [|done].
  cbn [mem_changed changes]. by rewrite unmap_page_changes.
Qed.

Lemma break_cow_changes w m page e w' m' :
  break_cow vdso mmap_at malloc_data w m page e = Some (w', m') ->
  changes m' = if is_mapped m page then u64 (changes m + 1) else changes m.
Proof.
  unfold break_cow. destruct (page_bytes w e) as [bytes|]; [|done]. cbn [mbind option_bind].
  destruct (mmap_at w PAGE_SIZE) as [|copy]; [done|]. set (w1 := mk_world _ _ _).
  destruct (Cow.malloc_total w1) as [id Hid]. rewrite Hid.
  destruct (pt_map vdso w1 m page 1 (inr copy) (Some id) 0 (Z.ldiff (pt_flags e) P_COW)) as [[[code w2] m2]|] eqn:E; [|done]. cbn [mbind option_bind].
  intros [= <- <-]. by apply pt_map_1_changes in E.
Qed.

Lemma grow_stack_changes w m page w' m' :
  grow_stack vdso mmap_at malloc_data w m page = Some (Some (w', m')) -> changes m' = changes m.
Proof.
  unfold grow_stack. destruct (mem_pt m page) as [e|] eqn:Ep; [by intros [= <- <-]|].
  cbv zeta. set (p := first_mapped _ _ _). destruct (p >=? MEM_PAGES); [discriminate|].
  destruct (mem_pt m p) as [e|]; [|discriminate]. destruct (negb (has (pt_flags e) P_GROWSDOWN)); [discriminate|].
  unfold pt_map_nothing. change (1 =? 0) with false. unfold mmap_anon.
  destruct (Cow.mmap_total w (u32 (1 * PAGE_SIZE))) as [b Hb]. rewrite Hb. set (w1 := mk_world _ _ _).
  destruct (Cow.malloc_total w1) as [id Hid]. rewrite Hid.
  destruct (pt_map vdso w1 m page 1 (inr b) (Some id) 0 _) as [[[code w2] m2]|] eqn:E; [|done]. cbn [mbind option_bind].
  intros [= <- <-]. apply pt_map_1_changes in E. unfold is_mapped in E. by rewrite Ep in E.
Qed.

(** [mem_ptr] moves the counter exactly when it replaces a page. *)
Lemma mem_ptr_changes w m addr type r w' m' :
  mem_ptr vdso mmap_at malloc_data w m addr type = Some (r, w', m') ->
  (changes m' = changes m /\ forall e, mem_pt m (PAGE addr) = Some e -> w' = w /\ m' = m) \/
  changes m' = u64 (changes m + 1).
Proof.
  unfold mem_ptr. destruct (grow_stack _ _ _ w m (PAGE addr)) as [[[w1 m1]|]|] eqn:Eg; [|intros [= <- <- <-]; left; by split|done].
  pose proof (grow_stack_changes _ _ _ _ _ Eg) as Hc1.
  assert (Hm1 : forall e, mem_pt m (PAGE addr) = Some e -> w1 = w /\ m1 = m).
  { intros e He. unfold grow_stack in Eg. rewrite He in Eg. by simplify_eq. }
  cbv zeta. destruct (mem_pt m1 (PAGE addr)) as [e|] eqn:Ee.
  2:{ destruct (_ || _); [|done]. intros [= <- <- <-]. left. split; [done|]. exact Hm1. }
  destruct (bool_decide (type = MEM_READ)).
  { destruct (_ || _); [|done]. intros [= <- <- <-]. left. split; [done|]. exact Hm1. }
  destruct (_ && _); [intros [= <- <- <-]; left; split; [done|exact Hm1]|].
  destruct (bool_decide (type = MEM_WRITE_PTRACE)) eqn:Ept.
  - cbn zeta beta iota. set (e0 := set_flags_of _ _).
    replace (has (pt_flags e0) P_COW) with true
      by (unfold e0, set_flags_of; cbn [pt_flags]; symmetry; flag_solve).
    destruct (break_cow _ _ _ w1 _ _ e0) as [[w2 m2]|] eqn:Eb; [|done].
    destruct (_ || _); [|done]. intros [= <- <- <-]. right. rewrite (break_cow_changes _ _ _ _ _ _ Eb).
    unfold is_mapped. rewrite mem_pt_new_lookup, decide_True by done. by rewrite mem_pt_new_changes, Hc1.
  - cbn zeta beta iota. destruct (has (pt_flags e) P_COW).
    + destruct (break_cow _ _ _ w1 _ _ e) as [[w2 m2]|] eqn:Eb; [|done].
      destruct (_ || _); [|done]. intros [= <- <- <-]. right. rewrite (break_cow_changes _ _ _ _ _ _ Eb).
      unfold is_mapped. rewrite Ee. by rewrite Hc1.
    + destruct (_ || _); [|done]. intros [= <- <- <-]. left. split; [done|]. exact Hm1.
Qed.

(** Handling a page fault keeps the TLBs right: in the faulting
    address space [mem_ptr] moves the change counter whenever it replaces a
    page, and an address space sharing objects with it keeps all its
    translations. *)
Theorem mem_ptr_evolves w m other ext addr type r w' m' :
  Cow.spaces_inv vdso w other m ext -> Cow.backed w m -> in_u 32 addr ->
  0 <= changes m -> changes m + 1 < 2 ^ 64 ->
  mem_ptr vdso mmap_at malloc_data w m addr type = Some (r, w', m') ->
  evolves (w, m) (w', m') /\ evolves (w, other) (w', other).
Proof.
  intros Hsp Hbk Ha Hpos Hlt Hm. pose proof Hsp as [Hoth Hinv Hext].
  destruct (Cow.mem_ptr_ok vdso mmap_at malloc_data w m _ addr type Hinv Hbk Ha)
    as (r2 & w2 & m2 & Hm2 & Hres). rewrite Hm in Hm2. simplify_eq.
  destruct Hres as [[_ [Hinv' Hk Hf (e' & He' & _)]]|(_ & -> & -> & ->)].
  2:{ split; left; by split. }
  pose proof (mi_range _ _ _ _ _ Hoth) as Hr.
  pose proof (Cow.spaces_of_dst vdso w2 other other m2 ext ltac:(done) Hr Hext Hinv') as [Hoth' _ _].
  split.
  - destruct (mem_ptr_changes _ _ _ _ _ _ _ Hm) as [[Hc Hsame]|Hc].
    + eapply evolves_kept; [exact Hinv|exact Hinv'|exact Hk|exact Hc|]. intros p e He.
      destruct (decide (p = PAGE addr)) as [->|Hne]; [|by rewrite Hf].
      by destruct (Hsame e He) as [_ ->].
    + apply evolves_bumped; [done|]. rewrite Hc, wrap_small by (unfold in_u; lia). lia.
  - by eapply evolves_kept.
Qed.

End Fault.

Lemma mem_ptr_evolves_witness :
  exists w m r w' m', mem_ptr 0 host_mmap host_malloc w m 0x400010 MEM_WRITE = Some (r, w', m') /\
    evolves (w, m) (w', m').
Proof.
  destruct demo_mapped as (w & m & Hpm & Hinv & Hbk & Hpt). exists w, m.
  destruct (mem_ptr_ok 0 host_mmap host_malloc w m (fun _ => 0) 0x400010 MEM_WRITE Hinv Hbk)
    as (r & w' & m' & Hm & _); [split; [discriminate|reflexivity]|].
  exists r, w', m'. split; [exact Hm|].
  assert (Hz : forall id, refs mem_init id = 0).
  { intros id. apply refs_zero. intros q. unfold mem_pt, mem_init. simpl. by rewrite lookup_empty. }
  assert (Hc : 0 <= changes m /\ changes m <= 2).
  { unfold pt_map in Hpm. change (negb _) with false in Hpm. cbv iota in Hpm. set (w1 := mk_world _ _ _) in Hpm.
    pose proof (map_loop_changes 0 1 0x400 0 P_WRITE 2 w1 mem_init 0x400 ltac:(simpl; lia) ltac:(simpl; lia)) as Hc.
    change (Z.to_nat 2) with 2%nat in Hpm.
    destruct (map_loop 0 2 w1 mem_init 1 0x400 0x400 0 P_WRITE) as [w2 m2]. injection Hpm as <- <-.
    cbn [snd] in Hc. change (changes mem_init) with 0 in Hc. lia. }
  apply (mem_ptr_evolves 0 host_mmap host_malloc w m mem_init (fun _ => 0) 0x400010 MEM_WRITE r w' m').
  - eapply spaces_of_dst; [reflexivity| |intros id; cbv beta; lia|].
    + intros p e. unfold mem_pt, mem_init. simpl. by rewrite lookup_empty.
    + eapply mem_inv_ext; [|exact Hinv]. intros id. cbv beta. by rewrite Hz.
  - exact Hbk.
  - split; [discriminate|reflexivity].
  - lia.
  - lia.
  - exact Hm.
Defined.

(** Two address spaces: one with two pages, one empty. *)
Definition demo_tlb : tlb := mk_tlb 0 TLB_PAGE_EMPTY 0 0 (replicate (Z.to_nat TLB_SIZE) empty_entry).


(** ** Reads and writes through the TLB *)

Section Bytes.
Context (mmus : Z -> world * mem) (w : world) (m : mem).
Import User.

Lemma nofault_entry addr type q :
  mem_ptr_nofault w m addr type = Some q ->
  exists e, mem_pt m (PAGE addr) = Some e /\ entry_ptr w e addr = Some q.
Proof.
  unfold mem_ptr_nofault. destruct (mem_pt m (PAGE addr)) as [e|]; [|done].
  destruct (_ && _); [done|]. eauto.
Qed.

Lemma crosses_spec addr size :
  in_u 32 addr -> 1 <= size <= 4096 -> crosses addr size = (PGOFFSET addr + size >? 4096).
Proof.
  intros Ha Hs. unfold crosses. change PAGE_SIZE with 4096. pose proof (PAGE_split addr).
  rewrite wrap_small by (unfold in_u; lia). rewrite !Z.gtb_ltb.
  destruct (Z.ltb_spec (4096 - size) (PGOFFSET addr)), (Z.ltb_spec 4096 (PGOFFSET addr + size)); lia || done.
Qed.

(** The second page of an access, which wraps at the top of the address space. *)
Lemma second_page_spec addr :
  in_u 32 addr -> in_u 32 (second_page addr) /\ PGOFFSET (second_page addr) = 0 /\
  (forall k, 4096 - PGOFFSET addr <= k <= 8192 - PGOFFSET addr ->
     u32 (addr + k) = u32 (second_page addr + (k - (4096 - PGOFFSET addr)))).
Proof.
  intros [H0 H1]. pose proof (PAGE_split addr) as [Hs Ho]. unfold second_page, PAGE_BITS.
  rewrite Z.shiftl_mul_pow2 by lia. change (2 ^ 12) with 4096.
  assert (Hin : in_u 32 (u32 ((PAGE addr + 1) * 4096))) by (apply wrap_range; lia).
  split_and!; [done| |].
  - rewrite PGOFFSET_mod. unfold wrap. change (2 ^ 32) with (1048576 * 4096).
    rewrite Z.mul_mod_distr_r by lia. apply Z.mod_mul. lia.
  - intros k Hk. unfold wrap. rewrite Zplus_mod_idemp_l. f_equal. lia.
Qed.

(** Within the first page nothing wraps. *)
Lemma first_page_addr addr k : in_u 32 addr -> 0 <= k -> PGOFFSET addr + k < 4096 -> u32 (addr + k) = addr + k.
Proof.
  intros [H0 H1] Hk Ho. pose proof (PAGE_split addr). apply wrap_small. unfold in_u.
  assert (addr / 4096 < 1048576) by (apply Z.div_lt_upper_bound; lia). rewrite <- PAGE_div in *. lia.
Qed.

(** The guest's bytes from [addr] on, with addresses wrapping at 32 bits. *)
Definition guest_bytes (addr : Z) (bytes : list Z) : Prop :=
  forall k, (k < length bytes)%nat -> bytes !! k = guest_byte w m (u32 (addr + Z.of_nat k)).

Lemma read_in_page e addr q n :
  backed w m -> in_u 32 addr -> mem_pt m (PAGE addr) = Some e -> entry_ptr w e addr = Some q ->
  0 <= n -> PGOFFSET addr + n <= 4096 ->
  exists bytes, memcpy_from w q n = Some bytes /\ length bytes = Z.to_nat n /\ guest_bytes addr bytes.
Proof.
  intros Hbk Ha He Hq Hn Ho.
  destruct (read_chunk w m e addr q n He (Hbk _ _ He) Hq Hn Ho) as (bytes & Hm & Hl & Hb).
  exists bytes. split_and!; [done|done|]. intros k Hk. rewrite Hb by lia. by rewrite first_page_addr by lia || done.
Qed.

Lemma tlb_read_run t addr size :
  mmus (t_mmu t) = (w, m) -> coherent (w, m) t -> backed w m -> in_u 32 addr -> 1 <= size <= 4096 ->
  exists r t', tlb_read mmus w t addr size = Some (r, t') /\ coherent (w, m) t' /\ t_mmu t' = t_mmu t /\
    match r with
    | Some bytes => length bytes = Z.to_nat size /\ guest_bytes addr bytes
    | None => exists a, (a = addr \/ a = second_page addr /\ 4096 < PGOFFSET addr + size) /\ mem_pt m (PAGE a) = None /\ segfault_addr t' = a
    end.
Proof.
  intros Hmm Hco Hbk Ha Hs. pose proof (PAGE_split addr) as [_ Ho].
  assert (Hnone : forall a, mem_ptr_nofault w m a MEM_READ = None -> mem_pt m (PAGE a) = None).
  { intros a. unfold mem_ptr_nofault. destruct (mem_pt m (PAGE a)) as [e|] eqn:E; [|done].
    destruct (Hbk _ _ E) as [bs Hbs]. destruct (page_bytes_block _ _ _ Hbs) as (d & _ & Hd & _).
    unfold entry_ptr. rewrite Hd. done. }
  pose proof (tlb_read_ptr_ok mmus t addr) as Hr1. rewrite Hmm in Hr1.
  destruct (Hr1 Hco Ha) as (t1 & E1 & Hco1 & Hm1 & _ & Hf1).
  unfold tlb_read. rewrite crosses_spec by done. rewrite Z.gtb_ltb.
  destruct (Z.ltb_spec 4096 (PGOFFSET addr + size)) as [Hx|Hx]; [unfold __tlb_read_cross_page|]; rewrite E1;
    cbn [mbind option_bind mmu_translate mem_mmu fst snd] in *.
  - destruct (mem_ptr_nofault w m addr MEM_READ) as [q1|] eqn:Eq1.
    2:{ exists None, t1. split_and!; [done|done|done|]. exists addr. auto. }
    destruct (second_page_spec addr Ha) as (Ha2 & Ho2 & Hw).
    pose proof (tlb_read_ptr_ok mmus t1 (second_page addr)) as Hr2. rewrite Hm1, Hmm in Hr2.
    destruct (Hr2 Hco1 Ha2) as (t2 & E2 & Hco2 & Hm2 & _ & Hf2). rewrite E2.
    cbn [mbind option_bind mmu_translate mem_mmu fst snd] in *.
    destruct (mem_ptr_nofault w m (second_page addr) MEM_READ) as [q2|] eqn:Eq2.
    2:{ exists None, t2. split_and!; [done|done|congruence|]. exists (second_page addr). auto. }
    change PAGE_SIZE with 4096. rewrite (proj2 (Z.ltb_lt _ _)) by lia.
    destruct (nofault_entry _ _ _ Eq1) as (e1 & He1 & Hq1). destruct (nofault_entry _ _ _ Eq2) as (e2 & He2 & Hq2).
    destruct (read_in_page e1 addr q1 (4096 - PGOFFSET addr) Hbk Ha He1 Hq1 ltac:(lia) ltac:(lia)) as (b1 & -> & Hl1 & Hb1).
    cbn [mbind option_bind].
    destruct (read_in_page e2 (second_page addr) q2 (size - (4096 - PGOFFSET addr)) Hbk Ha2 He2 Hq2 ltac:(lia) ltac:(lia))
      as (b2 & -> & Hl2 & Hb2).
    cbn [mbind option_bind]. exists (Some (b1 ++ b2)), t2. split_and!; [done|done|congruence|rewrite length_app; lia|].
    intros k Hk. rewrite length_app in Hk. destruct (decide (k < length b1)%nat).
    + rewrite lookup_app_l by done. by apply Hb1.
    + rewrite lookup_app_r by lia. rewrite Hb2 by lia. rewrite (Hw (Z.of_nat k)) by lia. do 2 f_equal. lia.
  - destruct (mem_ptr_nofault w m addr MEM_READ) as [q1|] eqn:Eq1.
    2:{ exists None, t1. split_and!; [done|done|done|]. exists addr. auto. }
    destruct (nofault_entry _ _ _ Eq1) as (e1 & He1 & Hq1).
    destruct (read_in_page e1 addr q1 size Hbk Ha He1 Hq1 ltac:(lia) ltac:(lia)) as (b1 & -> & Hl1 & Hb1).
    cbn [mbind option_bind]. exists (Some b1), t1. done.
Qed.

(** The read path: through the TLB, over a page boundary or not, a
    load returns exactly the guest's bytes (addresses wrapping at 4 GB), or
    reports a fault because one of the pages is not mapped. *)
Theorem tlb_read_spec t addr size :
  mmus (t_mmu t) = (w, m) -> coherent (w, m) t -> backed w m -> in_u 32 addr -> 1 <= size <= 4096 ->
  exists r t', tlb_read mmus w t addr size = Some (r, t') /\ coherent (w, m) t' /\
    match r with
    | Some bytes => length bytes = Z.to_nat size /\ guest_bytes addr bytes
    | None => exists a, (a = addr \/ a = second_page addr) /\ mem_pt m (PAGE a) = None /\ segfault_addr t' = a
    end.
Proof.
  intros Hmm Hco Hbk Ha Hs. destruct (tlb_read_run t addr size Hmm Hco Hbk Ha Hs) as (r & t' & E & Hco' & _ & Hr). exists r, t'. split_and!; [done..|].
  destruct r; [done|]. destruct Hr as (a & Hor & H1 & H2). exists a. naive_solver.
Qed.

End Bytes.

Section Stores.
Context (mmus : Z -> world * mem) (m : mem).
Import User.

(** [value] was stored from [addr] on, and nothing else changed. *)
Definition stored (w w' : world) (addr : Z) (value : list Z) : Prop :=
  (forall k, (k < length value)%nat -> guest_byte w' m (u32 (addr + Z.of_nat k)) = value !! k) /\
  (forall x, in_u 32 x -> (forall k, (k < length value)%nat -> x <> u32 (addr + Z.of_nat k)) ->
     guest_byte w' m x = guest_byte w m x).

Lemma store_in_page vdso ext w e addr q value :
  space_ok vdso w m ext -> in_u 32 addr -> mem_pt m (PAGE addr) = Some e -> entry_ptr w e addr = Some q ->
  PGOFFSET addr + Z.of_nat (length value) <= 4096 ->
  exists w', memcpy_to w q value = Some w' /\ space_ok vdso w' m ext /\ datas w' = datas w /\ stored w w' addr value.
Proof.
  intros Hok Ha He Hq Ho.
  destruct (write_chunk vdso w m ext e addr q value Hok He Hq Ho) as (w' & Hm & Hok' & Hd & _ & Hv).
  exists w'. split_and!; [done|done|done|]. pose proof (PAGE_split addr). split.
  - intros k Hk. rewrite first_page_addr, Hv, decide_True by (lia || done). f_equal. lia.
  - intros x Hx Hne. rewrite Hv. case_decide as Hin; [|done]. exfalso.
    apply (Hne (Z.to_nat (x - addr)) ltac:(lia)). rewrite first_page_addr by (lia || done). lia.
Qed.

(** A store in two parts. *)
Lemma stored_app w w1 w2 addr addr2 v1 v2 :
  in_u 32 addr -> in_u 32 addr2 -> Z.of_nat (length v1 + length v2) <= 8192 ->
  (forall k, (k < length v2)%nat -> u32 (addr + Z.of_nat (length v1 + k)) = u32 (addr2 + Z.of_nat k)) ->
  stored w w1 addr v1 -> stored w1 w2 addr2 v2 -> stored w w2 addr (v1 ++ v2).
Proof.
  intros Ha Ha2 Hl Hw [A1 A2] [B1 B2]. split.
  - intros k Hk. rewrite length_app in Hk. destruct (decide (k < length v1)%nat) as [Hk1|Hk1].
    + rewrite lookup_app_l by done. rewrite B2; [by apply A1|apply wrap_range; lia|].
      intros j Hj E. rewrite <- Hw in E by done.
      assert (Z.of_nat k mod 2 ^ 32 = Z.of_nat (length v1 + j) mod 2 ^ 32) as E'.
      { unfold wrap in E. replace (Z.of_nat k) with (addr + Z.of_nat k - addr) by lia.
        replace (Z.of_nat (length v1 + j)) with (addr + Z.of_nat (length v1 + j) - addr) by lia.
        rewrite Zminus_mod, E, <- Zminus_mod. done. }
      rewrite !Z.mod_small in E' by lia. lia.
    + rewrite lookup_app_r by lia.
      replace (u32 (addr + Z.of_nat k)) with (u32 (addr2 + Z.of_nat (k - length v1))) by
        (rewrite <- Hw by lia; do 2 f_equal; lia).
      apply B1. lia.
  - intros x Hx Hne. rewrite B2, A2; [done|done| |done|].
    + intros k Hk. apply Hne. rewrite length_app. lia.
    + intros k Hk. rewrite <- Hw by done. apply Hne. rewrite length_app. lia.
Qed.

Lemma nofault_same_datas w w' a type :
  datas w' = datas w -> mem_ptr_nofault w' m a type = mem_ptr_nofault w m a type.
Proof. intros Hd. unfold mem_ptr_nofault, entry_ptr. by rewrite Hd. Qed.

Lemma coherent_same_datas w w' t : datas w' = datas w -> coherent (w, m) t -> coherent (w', m) t.
Proof.
  intros Hd. apply coherent_extends. intros a type q. simpl. by rewrite (nofault_same_datas w w').
Qed.

(** The write path: through the TLB, over a page boundary or not, a
    store changes exactly the addressed bytes of the guest's memory (addresses
    wrapping at 4 GB), or reports a fault and changes nothing; the TLB stays
    coherent. *)
Theorem tlb_write_spec vdso ext w t addr value :
  mmus (t_mmu t) = (w, m) -> coherent (w, m) t -> space_ok vdso w m ext -> in_u 32 addr ->
  (1 <= length value)%nat -> Z.of_nat (length value) <= 4096 ->
  exists ok w' t', tlb_write mmus w t addr value = Some (ok, w', t') /\ coherent (w', m) t' /\
    space_ok vdso w' m ext /\
    (if ok : bool then stored w w' addr value
     else w' = w /\ exists a, (a = addr \/ a = second_page addr) /\
       mem_ptr_nofault w m a MEM_WRITE = None /\ segfault_addr t' = a).
Proof.
  intros Hmm Hco Hok Ha Hl1 Hl2. pose proof (PAGE_split addr) as [_ Ho].
  pose proof (tlb_write_ptr_ok mmus t addr) as Hr1. rewrite Hmm in Hr1.
  destruct (Hr1 Hco Ha) as (t1 & E1 & Hco1 & Hm1 & _ & Hf1).
  unfold tlb_write. rewrite crosses_spec by (done || lia). rewrite Z.gtb_ltb.
  destruct (Z.ltb_spec 4096 (PGOFFSET addr + Z.of_nat (length value))) as [Hx|Hx];
    [unfold __tlb_write_cross_page|]; rewrite E1; cbn [mbind option_bind mmu_translate mem_mmu fst snd] in *.
  - destruct (mem_ptr_nofault w m addr MEM_WRITE) as [q1|] eqn:Eq1.
    2:{ exists false, w, t1. split_and!; [done|done|done|done|]. exists addr. auto. }
    destruct (second_page_spec addr Ha) as (Ha2 & Ho2 & Hw).
    pose proof (tlb_write_ptr_ok mmus t1 (second_page addr)) as Hr2. rewrite Hm1, Hmm in Hr2.
    destruct (Hr2 Hco1 Ha2) as (t2 & E2 & Hco2 & _ & _ & Hf2). rewrite E2.
    cbn [mbind option_bind mmu_translate mem_mmu fst snd] in *.
    destruct (mem_ptr_nofault w m (second_page addr) MEM_WRITE) as [q2|] eqn:Eq2.
    2:{ exists false, w, t2. split_and!; [done|done|done|done|]. exists (second_page addr). auto. }
    change PAGE_SIZE with 4096. rewrite (proj2 (Z.ltb_lt _ _)) by lia.
    set (v1 := take _ value). set (v2 := drop _ value).
    assert (Hlv : length v1 = Z.to_nat (4096 - PGOFFSET addr) /\ (length v1 + length v2 = length value)%nat).
    { unfold v1, v2. rewrite length_take, length_drop. lia. }
    destruct (nofault_entry w m _ _ _ Eq1) as (e1 & He1 & Hq1). destruct (nofault_entry w m _ _ _ Eq2) as (e2 & He2 & Hq2).
    destruct (store_in_page vdso ext w e1 addr q1 v1 Hok Ha He1 Hq1 ltac:(lia)) as (w1 & -> & Hok1 & Hd1 & Hs1).
    cbn [mbind option_bind]. assert (Hq2' : entry_ptr w1 e2 (second_page addr) = Some q2) by (unfold entry_ptr; by rewrite Hd1).
    destruct (store_in_page vdso ext w1 e2 (second_page addr) q2 v2 Hok1 Ha2 He2 Hq2' ltac:(lia)) as (w2 & -> & Hok2 & Hd2 & Hs2).
    cbn [mbind option_bind]. exists true, w2, t2.
    split_and!; [done|apply (coherent_same_datas w); [congruence|done]|done|].
    replace value with (v1 ++ v2) by apply take_drop.
    eapply stored_app; [done|exact Ha2|lia| |exact Hs1|exact Hs2].
    intros k Hk. rewrite Hw by lia. do 2 f_equal. lia.
  - destruct (mem_ptr_nofault w m addr MEM_WRITE) as [q1|] eqn:Eq1.
    2:{ exists false, w, t1. split_and!; [done|done|done|done|]. exists addr. auto. }
    destruct (nofault_entry w m _ _ _ Eq1) as (e1 & He1 & Hq1).
    destruct (store_in_page vdso ext w e1 addr q1 value Hok Ha He1 Hq1 ltac:(lia)) as (w1 & -> & Hok1 & Hd1 & Hs1).
    cbn [mbind option_bind]. exists true, w1, t1.
    split_and!; [done|by apply (coherent_same_datas w)|done|done].
Qed.

End Stores.

Lemma demo_coherent w m : coherent (M := world * mem) (w, m) demo_tlb.
Proof.
  split; [reflexivity|]. apply Forall_elem. intros e He. apply elem_of_replicate in He as [-> _]. by split; left.
Qed.

Lemma tlb_read_spec_witness :
  exists w m r t', tlb_read (fun _ => (w, m)) w demo_tlb 0x400ffe 4 = Some (r, t') /\ coherent (w, m) t'.
Proof.
  destruct User.demo_space as (w & m & Hok & Hpt). exists w, m.
  destruct (tlb_read_spec (fun _ => (w, m)) w m demo_tlb 0x400ffe 4 eq_refl (demo_coherent w m))
    as (r & t' & Hr & Hco & _); [apply Hok|split; [discriminate|reflexivity]|lia|].
  exists r, t'. split; [exact Hr|exact Hco].
Defined.

Lemma tlb_write_spec_witness :
  exists w m w' t', tlb_write (fun _ => (w, m)) w demo_tlb 0x400ffe [1; 2; 3; 4] = Some (true, w', t') /\
    User.guest_byte w' m 0x401001 = Some 4.
Proof.
  destruct User.demo_space as (w & m & Hok & Hpt). exists w, m.
  destruct (tlb_write_spec (fun _ => (w, m)) m 0 (fun _ => 0) w demo_tlb 0x400ffe [1; 2; 3; 4] eq_refl (demo_coherent w m) Hok)
    as (ok & w' & t' & Hr & Hco & _ & Hres); [split; [discriminate|reflexivity]|simpl; lia|simpl; lia|].
  destruct ok.
  - exists w', t'. split; [exact Hr|]. apply (proj1 Hres 3%nat). simpl. lia.
  - exfalso. destruct Hres as (_ & a & Ha & Hn & _).
    assert (Hpg : 0x400 <= PAGE a < 0x402) by (destruct Ha as [->| ->]; vm_compute; split; (reflexivity || discriminate)).
    unfold mem_ptr_nofault in Hn. rewrite Hpt, decide_True in Hn by exact Hpg. simpl in Hn.
    destruct (User.sp_backed _ _ _ _ Hok _ _ (eq_trans (Hpt (PAGE a)) (decide_True _ _ Hpg))) as [bs Hbs].
    destruct (User.page_bytes_block _ _ _ Hbs) as (d & _ & Hd & _).
    unfold entry_ptr in Hn. rewrite Hd in Hn. discriminate.
Defined.

End Tlb.
