(* ===== verification/Modrm.v ===== *)
(** * Operands of instructions (emu/modrm.h)

    [modrm_decode32] reads the byte that says what the operands of an instruction are, and the scale-index-base byte and the displacement that may follow.  The
    relation [encodes] is the table of the instruction set: which bytes stand for which operands.  The decoder takes every byte
    string the table has and no other, and fails only where memory cannot be read. *)

From stdpp Require Import gmap.
From S2P Require Import Prelude Memory Cow User Tlb.

Module Modrm.
Import Memory.

(** ** Registers and operands *)

(** [enum reg32]. *)
Definition reg_eax : Z := 0.
Definition reg_ecx : Z := 1.
Definition reg_edx : Z := 2.
Definition reg_ebx : Z := 3.
Definition reg_esp : Z := 4.
Definition reg_ebp : Z := 5.
Definition reg_esi : Z := 6.
Definition reg_edi : Z := 7.
Definition reg_none : Z := 8.

Inductive modrm_type := modrm_reg | modrm_mem | modrm_mem_si.
#[export] Instance modrm_type_eq_dec : EqDecision modrm_type.
Proof. solve_decision. Defined.

(** [struct modrm]: [reg] is also the second part of an operation code, [base] also [rm_opcode].  [shift] is 3 for a scale of 8, for which the
    enumeration has no name. *)
Record modrm := mk_modrm {
  reg : Z;
  type : modrm_type;
  base : Z;
  offset : Z;
  index : Z;
  shift : Z }.
Definition set_base (v : Z) (x : modrm) : modrm := mk_modrm (reg x) (type x) v (offset x) (index x) (shift x).
Definition set_type (v : modrm_type) (x : modrm) : modrm := mk_modrm (reg x) v (base x) (offset x) (index x) (shift x).
Definition set_offset (v : Z) (x : modrm) : modrm := mk_modrm (reg x) (type x) (base x) v (index x) (shift x).
Definition set_index (v : Z) (x : modrm) : modrm := mk_modrm (reg x) (type x) (base x) (offset x) v (shift x).
Definition set_shift (v : Z) (x : modrm) : modrm := mk_modrm (reg x) (type x) (base x) (offset x) (index x) v.

Definition rm_sib : Z := reg_esp.
Definition rm_none : Z := reg_esp.
Definition rm_disp32 : Z := reg_ebp.
Definition MOD (byte : Z) : Z := Z.shiftr (Z.land byte 192) 6.
Definition REG (byte : Z) : Z := Z.shiftr (Z.land byte 56) 3.
Definition RM (byte : Z) : Z := Z.shiftr (Z.land byte 7) 0.

Inductive mode := mode_disp0 | mode_disp8 | mode_disp32 | mode_reg.
#[export] Instance mode_eq_dec : EqDecision mode.
Proof. solve_decision. Defined.
Definition mode_of (z : Z) : mode := if z =? 0 then mode_disp0 else if z =? 1 then mode_disp8 else if z =? 2 then mode_disp32 else mode_reg.

(** ** Where the bytes come from

    Reading a number of bytes at an address: [None] is an access outside of an object of the host, [Some (None, s)] an address that cannot be read.  [serves] says what
    bytes there are. *)

Class Code (S : Type) := { fetch : S -> Z -> Z -> option (option (list Z) * S) }.
Class CodeOK (S : Type) `{Code S} := {
  good : S -> Prop;
  byte_at : S -> Z -> option Z;
  fetch_ok : forall s addr n, good s -> in_u 32 addr -> 1 <= n <= 4 ->
    exists r s', fetch s addr n = Some (r, s') /\ good s' /\ (forall a, byte_at s' a = byte_at s a) /\
      match r with
      | Some bytes => length bytes = Z.to_nat n /\ forall k, (k < length bytes)%nat -> bytes !! k = byte_at s (u32 (addr + Z.of_nat k))
      | None => exists k, 0 <= k < n /\ byte_at s (u32 (addr + k)) = None
      end;
  byte_range : forall s a b, good s -> byte_at s a = Some b -> in_u 8 b }.

(** Bytes, least significant first. *)
Fixpoint le (l : list Z) : Z := match l with [] => 0 | b :: l => b + 256 * le l end.

Section Decode.
Context {S : Type} `{Code S}.

(** [READ]: the instruction pointer moves before the bytes are read. *)
Definition READ (n : Z) (ip : Z) (s : S) : option (option (list Z) * Z * S) :=
  let ip := u32 (ip + n) in
  r ← fetch s (u32 (ip - n)) n;
  let '(bytes, s) := r in Some (bytes, ip, s).

(** The last part: the displacement. *)
Definition decode_offset (md : mode) (m : modrm) (ip : Z) (s : S) : option (bool * modrm * Z * S) :=
  match md with
  | mode_disp0 => Some (true, set_offset 0 m, ip, s)
  | mode_disp8 =>
      r ← READ 1 ip s;
      match r with
      | (None, ip, s) => Some (false, m, ip, s)
      | (Some bytes, ip, s) => Some (true, set_offset (swrap 8 (le bytes)) m, ip, s)
      end
  | mode_disp32 =>
      r ← READ 4 ip s;
      match r with
      | (None, ip, s) => Some (false, m, ip, s)
      | (Some bytes, ip, s) => Some (true, set_offset (swrap 32 (le bytes)) m, ip, s)
      end
  | mode_reg => Some (true, m, ip, s)
  end.

(** The part for the scale-index-base byte: the mode may change.  The comparison is with [rm_opcode], which is [base]. *)
Definition decode_sib (md : mode) (m : modrm) (sib_byte : Z) : mode * modrm :=
  let m := set_base (RM sib_byte) m in
  let '(md, m) :=
    if base m =? rm_disp32 then
      if decide (md = mode_disp0) then (mode_disp32, set_base reg_none m) else (md, set_base reg_ebp m)
    else (md, m) in
  let m := set_shift (MOD sib_byte) (set_index (REG sib_byte) m) in
  (md, if index m =? rm_none then m else set_type modrm_mem_si m).

(** [m] is what the structure held before.  The result: whether everything could be read, the structure, and the instruction pointer. *)
Definition modrm_decode32 (ip : Z) (s : S) (m : modrm) : option (bool * modrm * Z * S) :=
  r ← READ 1 ip s;
  match r with
  | (None, ip, s) => Some (false, m, ip, s)
  | (Some bytes, ip, s) =>
      let modrm_byte := le bytes in
      let md := mode_of (MOD modrm_byte) in
      let m := mk_modrm (REG modrm_byte) modrm_mem (RM modrm_byte) (offset m) (index m) (shift m) in
      if decide (md = mode_reg) then decode_offset md (set_type modrm_reg m) ip s
      else if (base m =? rm_disp32) && bool_decide (md = mode_disp0) then decode_offset mode_disp32 (set_base reg_none m) ip s
      else if base m =? rm_sib then
        r ← READ 1 ip s;
        match r with
        | (None, ip, s) => Some (false, m, ip, s)
        | (Some bytes, ip, s) => let '(md, m) := decode_sib md m (le bytes) in decode_offset md m ip s
        end
      else decode_offset md m ip s
  end.

End Decode.

(** ** The table of the instruction set *)

(** What an operand is: a register, or an address that is the sum of a base register, an index register times 1, 2, 4 or 8, and a displacement. *)
Inductive operand :=
| Register (r : Z)
| Address (base : option Z) (index : option (Z * Z)) (disp : Z).

Definition operand_of (m : modrm) : operand :=
  match type m with
  | modrm_reg => Register (base m)
  | modrm_mem => Address (if base m =? reg_none then None else Some (base m)) None (offset m)
  | modrm_mem_si => Address (if base m =? reg_none then None else Some (base m)) (Some (index m, shift m)) (offset m)
  end.

(** A byte of three fields. *)
Definition fields (m r b : Z) : Z := 64 * m + 8 * r + b.
Definition is_reg (r : Z) : Prop := 0 <= r < 8.
Definition is_byte (b : Z) : Prop := 0 <= b < 256.

(** The displacement after the fields [m] of the first byte. *)
Inductive displacement : Z -> list Z -> Z -> Prop :=
| disp_none : displacement 0 [] 0
| disp_8 b : is_byte b -> displacement 1 [b] (if b <? 128 then b else b - 256)
| disp_32 b0 b1 b2 b3 : is_byte b0 -> is_byte b1 -> is_byte b2 -> is_byte b3 ->
    displacement 2 [b0; b1; b2; b3] (let d := b0 + 256 * b1 + 65536 * b2 + 16777216 * b3 in if b3 <? 128 then d else d - 4294967296).

(** [encodes bytes r o]: the bytes stand for register (or operation) [r] and operand [o].  An index of 4 means that there is no index; a base of 5 without
    a displacement means that there is no base and a displacement of 32 bits; a base of 4 means that a second byte follows. *)
Inductive encodes : list Z -> Z -> operand -> Prop :=
| enc_register r b : is_reg r -> is_reg b -> encodes [fields 3 r b] r (Register b)
| enc_absolute r ds d : is_reg r -> displacement 2 ds d -> encodes (fields 0 r 5 :: ds) r (Address None None d)
| enc_base m r b ds d : is_reg r -> is_reg b -> b <> 4 -> (b <> 5 \/ m <> 0) -> displacement m ds d -> encodes (fields m r b :: ds) r (Address (Some b) None d)
| enc_sib m r sc i b ds d : is_reg r -> is_reg i -> is_reg b -> 0 <= sc < 4 -> (b <> 5 \/ m <> 0) -> displacement m ds d ->
    encodes (fields m r 4 :: fields sc i b :: ds) r (Address (Some b) (if i =? 4 then None else Some (i, sc)) d)
| enc_sib_no_base r sc i ds d : is_reg r -> is_reg i -> 0 <= sc < 4 -> displacement 2 ds d ->
    encodes (fields 0 r 4 :: fields sc i 5 :: ds) r (Address None (if i =? 4 then None else Some (i, sc)) d).

(** ** Bytes and their fields *)

Lemma byte_fields b : is_byte b -> b = fields (MOD b) (REG b) (RM b) /\ 0 <= MOD b < 4 /\ is_reg (REG b) /\ is_reg (RM b).
Proof.
  intros Hb. unfold MOD, REG, RM, fields, is_reg. rewrite Z.shiftr_0_r.
  assert (Forall (fun b => b = 64 * Z.shiftr (Z.land b 192) 6 + 8 * Z.shiftr (Z.land b 56) 3 + Z.land b 7 /\ 0 <= Z.shiftr (Z.land b 192) 6 < 4 /\ 0 <= Z.shiftr (Z.land b 56) 3 < 8 /\ 0 <= Z.land b 7 < 8) (seqZ 0 256)) as H.
  { apply (bool_decide_unpack _). vm_compute. exact I. }
  rewrite Forall_elem in H. apply H, elem_of_seqZ. unfold is_byte in Hb. lia.
Qed.
Lemma fields_back m r b : 0 <= m < 4 -> is_reg r -> is_reg b -> MOD (fields m r b) = m /\ REG (fields m r b) = r /\ RM (fields m r b) = b.
Proof.
  unfold is_reg. intros Hm Hr Hb. destruct (byte_fields (fields m r b)) as (E & H1 & H2 & H3); [unfold is_byte, fields; lia|]. unfold is_reg in *.
  revert E H1 H2 H3. generalize (MOD (fields m r b)) (REG (fields m r b)) (RM (fields m r b)). unfold fields. lia.
Qed.
Lemma fields_byte m r b : 0 <= m < 4 -> is_reg r -> is_reg b -> is_byte (fields m r b).
Proof. unfold is_reg, is_byte, fields. lia. Qed.
Lemma displacement_mode m ds d : displacement m ds d -> 0 <= m < 3.
Proof. destruct 1; lia. Qed.

(** The table by the fields of the bytes: where there is no base, the displacement has 32 bits. *)
Definition disp_mode (m b : Z) : Z := if (b =? 5) && (m =? 0) then 2 else m.
Definition disp_base (m b : Z) : option Z := if (b =? 5) && (m =? 0) then None else Some b.
Definition shaped (h : Z) (tl : list Z) (o : operand) : Prop :=
  if MOD h =? 3 then tl = [] /\ o = Register (RM h)
  else if RM h =? 4 then exists sb ds d, tl = sb :: ds /\ is_byte sb /\ displacement (disp_mode (MOD h) (RM sb)) ds d /\
    o = Address (disp_base (MOD h) (RM sb)) (if REG sb =? 4 then None else Some (REG sb, MOD sb)) d
  else exists d, displacement (disp_mode (MOD h) (RM h)) tl d /\ o = Address (disp_base (MOD h) (RM h)) None d.

Lemma disp_usual m b : b <> 5 \/ m <> 0 -> disp_mode m b = m /\ disp_base m b = Some b.
Proof. unfold disp_mode, disp_base. intros H. destruct (Z.eqb_spec b 5), (Z.eqb_spec m 0); naive_solver. Qed.

Lemma encodes_shaped bytes r o : encodes bytes r o -> exists h tl, bytes = h :: tl /\ is_byte h /\ REG h = r /\ shaped h tl o.
Proof.
  unfold shaped. destruct 1 as [r b Hr Hb|r ds d Hr Hd|m r b ds d Hr Hb H4 H5 Hd|m r sc i b ds d Hr Hi Hb Hs H5 Hd|r sc i ds d Hr Hi Hs Hd]; eexists _, _; (split; [reflexivity|]);
    try pose proof (displacement_mode _ _ _ Hd).
  - destruct (fields_back 3 r b) as (-> & -> & ->); [lia|done..|]. split_and!; [by apply fields_byte|done|done].
  - destruct (fields_back 0 r 5) as (-> & -> & ->); [lia|done..|]. split_and!; [by apply fields_byte|done|]. cbn. by exists d.
  - destruct (fields_back m r b) as (-> & -> & ->); [lia|done..|]. split_and!; [apply fields_byte; done || lia|done|]. destruct (Z.eqb_spec m 3); [lia|]. destruct (Z.eqb_spec b 4); [done|].
    destruct (disp_usual m b H5) as [-> ->]. by exists d.
  - destruct (fields_back m r 4) as (-> & -> & ->); [lia|done..|]. split_and!; [apply fields_byte; done || lia|done|]. destruct (Z.eqb_spec m 3); [lia|]. cbn [Z.eqb Pos.eqb].
    exists (fields sc i b), ds, d. destruct (fields_back sc i b) as (-> & -> & ->); [done..|]. destruct (disp_usual m b H5) as [-> ->]. split_and!; try done. by apply fields_byte.
  - destruct (fields_back 0 r 4) as (-> & -> & ->); [lia|done..|]. split_and!; [by apply fields_byte|done|]. cbn [Z.eqb Pos.eqb].
    exists (fields sc i 5), ds, d. destruct (fields_back sc i 5) as (-> & -> & ->); [done..|]. split_and!; try done. by apply fields_byte.
Qed.

Lemma shaped_encodes h tl o : is_byte h -> shaped h tl o -> encodes (h :: tl) (REG h) o.
Proof.
  intros Hh. destruct (byte_fields h Hh) as (E & Hm & Hr & Hb). unfold shaped. destruct (Z.eqb_spec (MOD h) 3) as [E3|E3].
  - intros [-> ->]. rewrite E, E3 at 1. by constructor.
  - destruct (Z.eqb_spec (RM h) 4) as [E4|E4].
    + intros (sb & ds & d & -> & Hsb & Hd & ->). destruct (byte_fields sb Hsb) as (Es & Hs & Hi & Hsbb). rewrite E, Es, E4 at 1. destruct (decide (RM sb = 5 /\ MOD h = 0)) as [[E5 E0]|H5].
      * rewrite E5, E0 in *. by apply enc_sib_no_base.
      * destruct (disp_usual (MOD h) (RM sb)) as [Hdm ->]; [destruct (decide (RM sb = 5)); naive_solver|]. rewrite Hdm in Hd. apply enc_sib; try done. destruct (decide (RM sb = 5)); naive_solver.
    + intros (d & Hd & ->). rewrite E at 1. destruct (decide (RM h = 5 /\ MOD h = 0)) as [[E5 E0]|H5].
      * rewrite E5, E0 in *. by apply enc_absolute.
      * destruct (disp_usual (MOD h) (RM h)) as [Hdm ->]; [destruct (decide (RM h = 5)); naive_solver|]. rewrite Hdm in Hd. apply enc_base; try done. destruct (decide (RM h = 5)); naive_solver.
Qed.

(** ** The decoder and the table *)

Section Correct.
Context {S : Type} `{CodeOK S}.

(** The bytes are there. *)
Definition there (s : S) (ip : Z) (bytes : list Z) : Prop := forall k b, bytes !! k = Some b -> byte_at s (u32 (ip + Z.of_nat k)) = Some b.

Lemma there_cons s ip b l : there s ip (b :: l) <-> byte_at s (u32 ip) = Some b /\ there s (u32 (ip + 1)) l.
Proof.
  unfold there. split.
  - intros Ht. split; [rewrite <- (Ht 0%nat b eq_refl); do 2 f_equal; lia|]. intros k c Hk. rewrite <- (Ht (Datatypes.S k) c Hk). unfold wrap. rewrite Zplus_mod_idemp_l. do 2 f_equal. lia.
  - intros [Hb Hl] [|k] c Hk; [injection Hk as <-; rewrite <- Hb; do 2 f_equal; lia|]. rewrite <- (Hl k c Hk). unfold wrap. rewrite Zplus_mod_idemp_l. do 2 f_equal. lia.
Qed.
Lemma there_same s s' ip l : (forall a, byte_at s' a = byte_at s a) -> there s' ip l <-> there s ip l.
Proof. intros E. unfold there. by setoid_rewrite E. Qed.

Lemma READ_run n ip s : good s -> in_u 32 ip -> 1 <= n <= 4 ->
  exists r s', READ n ip s = Some (r, u32 (ip + n), s') /\ good s' /\ (forall a, byte_at s' a = byte_at s a) /\
    match r with
    | Some bytes => length bytes = Z.to_nat n /\ there s ip bytes /\ Forall is_byte bytes
    | None => forall bytes, length bytes = Z.to_nat n -> ~ there s ip bytes
    end.
Proof.
  intros Hg Hip Hn. unfold READ. assert (u32 (u32 (ip + n) - n) = ip) as ->.
  { unfold wrap. rewrite Zminus_mod_idemp_l. replace (ip + n - n) with ip by lia. by apply wrap_small. }
  destruct (fetch_ok s ip n Hg Hip Hn) as (r & s' & -> & Hg' & Hs & Hr). exists r, s'. cbn. split_and!; [done..|]. destruct r as [bytes|].
  - destruct Hr as [Hl Hb]. split_and!; [done| |].
    + intros k b Hk. rewrite <- Hb; [done|]. by eapply lookup_lt_Some.
    + apply Forall_lookup. intros k b Hk. assert (k < length bytes)%nat as Hlt by by eapply lookup_lt_Some. rewrite Hb in Hk by done. apply (byte_range _ _ _ Hg) in Hk. unfold is_byte. unfold in_u in Hk. lia.
  - destruct Hr as (k & Hk & E). intros bytes Hl Ht. destruct (lookup_lt_is_Some_2 bytes (Z.to_nat k)) as [b Hb]; [lia|]. specialize (Ht _ _ Hb). rewrite Z2Nat.id in Ht by lia. congruence.
Qed.

Lemma one_byte (l : list Z) : length l = 1%nat -> exists b, l = [b].
Proof. destruct l as [|b [|]]; [done|eauto|done]. Qed.

Lemma offset_run m ip s z : z <> 3 -> 0 <= z < 4 -> good s -> in_u 32 ip ->
  exists ok m' ip' s', decode_offset (mode_of z) m ip s = Some (ok, m', ip', s') /\ good s' /\ (forall a, byte_at s' a = byte_at s a) /\
    if ok then exists ds d, displacement z ds d /\ there s ip ds /\ m' = set_offset d m /\ ip' = u32 (ip + Z.of_nat (length ds))
    else forall ds d, displacement z ds d -> ~ there s ip ds.
Proof.
  intros Hz Hr Hg Hip. assert (z = 0 \/ z = 1 \/ z = 2) as [-> | [-> | ->]] by lia; cbn [mode_of Z.eqb Pos.eqb decode_offset].
  - eexists _, _, _, _. split; [reflexivity|]. split_and!; [done..|]. exists [], 0. split_and!; [constructor|by intros k b ?|done|]. cbn. rewrite Z.add_0_r. by rewrite wrap_small.
  - destruct (READ_run 1 ip s Hg Hip ltac:(lia)) as (r & s' & -> & Hg' & Hs & Hr'). cbn [mbind option_bind]. destruct r as [bytes|]; eexists _, _, _, _; (split; [reflexivity|]); split_and!; try done.
    + destruct Hr' as (Hl & Ht & Hb). destruct (one_byte bytes Hl) as [b ->]. apply Forall_cons_1 in Hb as [Hb _]. eexists [b], _. split_and!; [by constructor|done| |done]. f_equal. cbn [le]. unfold swrap. unfold is_byte in Hb.
      rewrite Z.mul_0_r, Z.add_0_r. rewrite (Z.mod_small b (2 ^ 8)) by lia. done.
    + intros ds d Hd. apply Hr'. by inversion Hd.
  - destruct (READ_run 4 ip s Hg Hip ltac:(lia)) as (r & s' & -> & Hg' & Hs & Hr'). cbn [mbind option_bind]. destruct r as [bytes|]; eexists _, _, _, _; (split; [reflexivity|]); split_and!; try done.
    + destruct Hr' as (Hl & Ht & Hb). destruct bytes as [|b0 [|b1 [|b2 [|b3 [|]]]]]; try done. apply Forall_cons_1 in Hb as [B0 [B1 [B2 [B3 _]%Forall_cons_1]%Forall_cons_1]%Forall_cons_1]. eexists [b0; b1; b2; b3], _.
      split_and!; [by constructor|done| |done]. f_equal. cbn [le]. unfold swrap. unfold is_byte in *. cbv zeta. rewrite (Z.mod_small _ (2 ^ 32)) by lia.
      replace (b0 + 256 * (b1 + 256 * (b2 + 256 * (b3 + 256 * 0)))) with (b0 + 256 * b1 + 65536 * b2 + 16777216 * b3) by lia.
      change (2 ^ (32 - 1)) with 2147483648. change (2 ^ 32) with 4294967296. destruct (Z.ltb_spec b3 128), (Z.ltb_spec (b0 + 256 * b1 + 65536 * b2 + 16777216 * b3) 2147483648); lia.
    + intros ds d Hd. apply Hr'. by inversion Hd.
Qed.

Lemma no_head s ip r o : (forall bytes, length bytes = 1%nat -> ~ there s ip bytes) -> forall bytes, encodes bytes r o -> ~ there s ip bytes.
Proof.
  intros Hn bytes (h & tl & -> & _)%encodes_shaped [Hh _]%there_cons. apply (Hn [h] eq_refl). apply there_cons. split; [done|]. by intros k b Hk.
Qed.
Lemma advance ip a b : u32 (u32 (ip + a) + b) = u32 (ip + (a + b)).
Proof. unfold wrap. rewrite Zplus_mod_idemp_l. f_equal. lia. Qed.
Lemma u32_in x : in_u 32 (u32 x).
Proof. apply wrap_range. lia. Qed.

Lemma mode_of_reg z : 0 <= z < 4 -> mode_of z = mode_reg <-> z = 3.
Proof. intros Hz. assert (z = 0 \/ z = 1 \/ z = 2 \/ z = 3) as [-> | [-> | [-> | ->]]] by lia; done. Qed.
Lemma mode_of_disp0 z : 0 <= z < 4 -> mode_of z = mode_disp0 <-> z = 0.
Proof. intros Hz. assert (z = 0 \/ z = 1 \/ z = 2 \/ z = 3) as [-> | [-> | [-> | ->]]] by lia; done. Qed.
Lemma disp_mode_range m b : 0 <= m < 4 -> m <> 3 -> disp_mode m b <> 3 /\ 0 <= disp_mode m b < 4.
Proof. unfold disp_mode. intros. destruct (_ && _); lia. Qed.

(** What the second byte makes of the structure. *)
Lemma sib_run m sb z : is_byte sb -> 0 <= z < 4 -> z <> 3 -> type m = modrm_mem ->
  exists m', decode_sib (mode_of z) m sb = (mode_of (disp_mode z (RM sb)), m') /\ reg m' = reg m /\
    forall d, operand_of (set_offset d m') = Address (disp_base z (RM sb)) (if REG sb =? 4 then None else Some (REG sb, MOD sb)) d.
Proof.
  intros Hsb Hz H3 Ht. destruct (byte_fields sb Hsb) as (_ & _ & _ & Hb). unfold is_reg in Hb. unfold decode_sib, disp_mode, disp_base. cbn [base set_base].
  change rm_disp32 with 5. change rm_none with 4. destruct (Z.eqb_spec (RM sb) 5) as [E5|E5]; cbn [andb].
  - destruct (decide (mode_of z = mode_disp0)) as [E0|E0]; [rewrite (mode_of_disp0 z Hz) in E0; subst z|rewrite (mode_of_disp0 z Hz) in E0].
    + cbn. eexists. split; [reflexivity|]. destruct (Z.eqb_spec (REG sb) 4); cbn; (split; [done|]); intros d; unfold operand_of; cbn; by rewrite ?Ht.
    + rewrite (proj2 (Z.eqb_neq z 0) E0). eexists. split; [reflexivity|]. cbn. rewrite E5. destruct (Z.eqb_spec (REG sb) 4); cbn; (split; [done|]); intros d; unfold operand_of; cbn; by rewrite ?Ht.
  - eexists. split; [reflexivity|]. cbn. assert (RM sb =? reg_none = false) as Hn by (apply Z.eqb_neq; unfold reg_none; lia).
    destruct (Z.eqb_spec (REG sb) 4); cbn; (split; [done|]); intros d; unfold operand_of; cbn; by rewrite ?Ht, Hn.
Qed.

(** What the decoder finds is what the table has for the bytes that are there; when it fails, no bytes of the table are there. *)
Lemma decode_run m ip s : good s -> in_u 32 ip ->
  exists ok m' ip' s', modrm_decode32 ip s m = Some (ok, m', ip', s') /\ good s' /\ (forall a, byte_at s' a = byte_at s a) /\
    if ok then exists bytes, encodes bytes (reg m') (operand_of m') /\ there s ip bytes /\ ip' = u32 (ip + Z.of_nat (length bytes))
    else forall bytes r o, encodes bytes r o -> ~ there s ip bytes.
Proof.
  intros Hg Hip. unfold modrm_decode32. destruct (READ_run 1 ip s Hg Hip ltac:(lia)) as (r & s1 & -> & Hg1 & Hs1 & Hr). cbn [mbind option_bind]. destruct r as [bytes|].
  2: { eexists _, _, _, _. split; [reflexivity|]. split_and!; [done..|]. intros bytes r o. by apply no_head. }
  destruct Hr as (Hl & Ht & Hb). destruct (one_byte bytes Hl) as [h ->]. apply Forall_cons_1 in Hb as [Hh _]. cbn [le]. rewrite Z.mul_0_r, Z.add_0_r.
  apply there_cons in Ht as [Hat _]. destruct (byte_fields h Hh) as (_ & Hm & _ & Hrm). cbn [base]. cbv zeta.
  assert (forall bytes r o, encodes bytes r o -> there s ip bytes -> exists tl, bytes = h :: tl /\ shaped h tl o /\ there s1 (u32 (ip + 1)) tl) as Hinv.
  { intros bytes r o (h' & tl & -> & _ & _ & Hsh)%encodes_shaped [Hat' Ht]%there_cons. assert (h' = h) as -> by congruence. exists tl. by rewrite (there_same s s1). }
  assert (forall m2 tl ip2, reg m2 = REG h -> shaped h tl (operand_of m2) -> there s1 (u32 (ip + 1)) tl -> ip2 = u32 (u32 (ip + 1) + Z.of_nat (length tl)) ->
    exists bytes, encodes bytes (reg m2) (operand_of m2) /\ there s ip bytes /\ ip2 = u32 (ip + Z.of_nat (length bytes))) as Hfin.
  { intros m2 tl ip2 Hr2 Hsh Ht ->. exists (h :: tl). rewrite Hr2. split_and!; [by apply shaped_encodes|by apply there_cons; rewrite <- (there_same s s1)|]. rewrite advance. do 2 f_equal. cbn. lia. }
  unfold shaped in Hinv, Hfin. destruct (decide (mode_of (MOD h) = mode_reg)) as [E3|E3]; rewrite (mode_of_reg _ Hm) in E3.
  { rewrite E3 in *. cbn [mode_of Z.eqb Pos.eqb decode_offset] in *. eexists _, _, _, _. split; [reflexivity|]. split_and!; [done..|]. eapply (Hfin _ []); [done..|by intros k b Hk|]. cbn [length Z.of_nat]. rewrite Z.add_0_r. symmetry. apply wrap_small, u32_in. }
  rewrite (proj2 (Z.eqb_neq _ _) E3) in Hinv, Hfin. change rm_disp32 with 5. change rm_sib with 4.
  set (m1 := mk_modrm (REG h) modrm_mem (RM h) (offset m) (index m) (shift m)). assert (is_reg (RM h)) as Hrm' by done. unfold is_reg in Hrm'.
  destruct (Z.eqb_spec (RM h) 4) as [E4|E4].
  - rewrite E4. cbn [Z.eqb Pos.eqb andb]. destruct (READ_run 1 (u32 (ip + 1)) s1 Hg1 (u32_in _) ltac:(lia)) as (r & s2 & -> & Hg2 & Hs2 & Hr). cbn [mbind option_bind]. destruct r as [bytes|].
    2: { eexists _, _, _, _. split; [reflexivity|]. split_and!; [done|congruence|]. intros bytes r o He Ht. destruct (Hinv _ _ _ He Ht) as (tl & -> & (sb & ds & d & -> & _) & Ht1).
         apply there_cons in Ht1 as [Hsb _]. apply (Hr [sb] eq_refl). apply there_cons. split; [done|]. by intros k b Hk. }
    destruct Hr as (Hl2 & Ht2 & Hb2). destruct (one_byte bytes Hl2) as [sb ->]. apply Forall_cons_1 in Hb2 as [Hsb _]. cbn [le]. rewrite Z.mul_0_r, Z.add_0_r. apply there_cons in Ht2 as [Hat2 _].
    destruct (sib_run m1 sb (MOD h) Hsb Hm E3 eq_refl) as (m2 & -> & Hr2 & Ho2). cbn iota beta.
    destruct (disp_mode_range (MOD h) (RM sb) Hm E3) as [Hd1 Hd2].
    destruct (offset_run m2 (u32 (u32 (ip + 1) + 1)) s2 _ Hd1 Hd2 Hg2 (u32_in _)) as (ok & m3 & ip3 & s3 & -> & Hg3 & Hs3 & H3). eexists _, _, _, _. split; [reflexivity|]. split_and!; [done|congruence|]. destruct ok.
    + destruct H3 as (ds & d & Hd & Ht3 & -> & ->). rewrite (there_same s1 s2) in Ht3 by done. eapply (Hfin _ (sb :: ds)).
      * cbn. exact Hr2.
      * exists sb, ds, d. by split_and!.
      * by apply there_cons.
      * rewrite !advance. f_equal. cbn [length]. lia.
    + intros bytes r o He Ht. destruct (Hinv _ _ _ He Ht) as (tl & -> & (sb' & ds & d & -> & _ & Hd & _) & [Hsb' Ht1]%there_cons). assert (sb' = sb) as -> by congruence.
      apply (H3 ds d Hd). by rewrite (there_same s1 s2).
  - assert (exists m2, (if (RM h =? 5) && bool_decide (mode_of (MOD h) = mode_disp0) then decode_offset mode_disp32 (set_base reg_none m1) (u32 (ip + 1)) s1 else decode_offset (mode_of (MOD h)) m1 (u32 (ip + 1)) s1) =
      decode_offset (mode_of (disp_mode (MOD h) (RM h))) m2 (u32 (ip + 1)) s1 /\ reg m2 = REG h /\ forall d, operand_of (set_offset d m2) = Address (disp_base (MOD h) (RM h)) None d) as (m2 & -> & Hr2 & Ho2).
    { rewrite (bool_decide_ext _ _ (mode_of_disp0 _ Hm)). unfold disp_mode, disp_base. destruct (Z.eqb_spec (RM h) 5) as [E5|E5]; cbn [andb]; [destruct (Z.eqb_spec (MOD h) 0) as [E0|E0]|].
      - rewrite bool_decide_eq_true_2 by done. by exists (set_base reg_none m1).
      - rewrite bool_decide_eq_false_2 by done. exists m1. split_and!; try done. intros d. unfold operand_of. cbn. by rewrite E5.
      - exists m1. split_and!; try done. intros d. unfold operand_of. cbn. assert (RM h =? reg_none = false) as -> by (apply Z.eqb_neq; unfold reg_none; lia). done. }
    destruct (disp_mode_range (MOD h) (RM h) Hm E3) as [Hd1 Hd2].
    destruct (offset_run m2 (u32 (ip + 1)) s1 _ Hd1 Hd2 Hg1 (u32_in _)) as (ok & m3 & ip3 & s3 & -> & Hg3 & Hs3 & H3). eexists _, _, _, _. split; [reflexivity|]. split_and!; [done|congruence|]. destruct ok.
    + destruct H3 as (ds & d & Hd & Ht3 & -> & ->). eapply (Hfin _ ds); [exact Hr2| |done|done]. exists d. split; [done|]. apply Ho2.
    + intros bytes r o He Ht. destruct (Hinv _ _ _ He Ht) as (tl & -> & (d & Hd & _) & Ht1). by apply (H3 tl d Hd).
Qed.

(** The table is unambiguous: at most one of its entries is at an address. *)
Lemma displacement_unique s ip m ds ds' d d' : displacement m ds d -> displacement m ds' d' -> there s ip ds -> there s ip ds' -> ds = ds' /\ d = d'.
Proof.
  assert (forall l l', length l = length l' -> there s ip l -> there s ip l' -> l = l') as U.
  { intros l l' Hl Ht Ht'. apply list_eq_same_length with (length l); [done..|]. intros i x y _ Hx Hy. apply Ht in Hx. apply Ht' in Hy. congruence. }
  intros Hd Hd' Ht Ht'. assert (ds = ds') as -> by (apply U; [by inversion Hd; inversion Hd'; subst|done..]). split; [done|]. inversion Hd; inversion Hd'; subst; simplify_eq; done.
Qed.
Lemma encodes_unique s ip b1 b2 r1 r2 o1 o2 : encodes b1 r1 o1 -> encodes b2 r2 o2 -> there s ip b1 -> there s ip b2 -> b1 = b2 /\ r1 = r2 /\ o1 = o2.
Proof.
  intros (h & t1 & -> & _ & <- & S1)%encodes_shaped (h' & t2 & -> & _ & <- & S2)%encodes_shaped [H1 T1]%there_cons [H2 T2]%there_cons. assert (h' = h) as -> by congruence.
  unfold shaped in *. destruct (MOD h =? 3); [naive_solver|]. destruct (RM h =? 4).
  - destruct S1 as (sb & ds & d & -> & _ & D1 & ->), S2 as (sb' & ds' & d' & -> & _ & D2 & ->). apply there_cons in T1 as [B1 T1], T2 as [B2 T2]. assert (sb' = sb) as -> by congruence.
    by destruct (displacement_unique _ _ _ _ _ _ _ D1 D2 T1 T2) as [-> ->].
  - destruct S1 as (d & D1 & ->), S2 as (d' & D2 & ->). by destruct (displacement_unique _ _ _ _ _ _ _ D1 D2 T1 T2) as [-> ->].
Qed.

End Correct.

(** ** Decoding from guest memory

    The translation buffer serves the bytes of the guest's memory. *)

Section Over_memory.
Context (mmus : Z -> world * mem) (w : world) (m : mem).

#[export] Instance tlb_code : Code Tlb.tlb := {| fetch t addr n := Tlb.tlb_read mmus w t addr n |}.

(** Memory holds bytes. *)
Definition byte_memory : Prop := forall a b, User.guest_byte w m a = Some b -> in_u 8 b.
Context (Hb : Cow.backed w m) (Hbytes : byte_memory).

Lemma tlb_serves t addr n : mmus (Tlb.t_mmu t) = (w, m) /\ Tlb.coherent (w, m) t -> in_u 32 addr -> 1 <= n <= 4 ->
  exists r t', fetch t addr n = Some (r, t') /\ (mmus (Tlb.t_mmu t') = (w, m) /\ Tlb.coherent (w, m) t') /\ (forall a, User.guest_byte w m a = User.guest_byte w m a) /\
    match r with
    | Some bytes => length bytes = Z.to_nat n /\ forall k, (k < length bytes)%nat -> bytes !! k = User.guest_byte w m (u32 (addr + Z.of_nat k))
    | None => exists k, 0 <= k < n /\ User.guest_byte w m (u32 (addr + k)) = None
    end.
Proof.
  intros [Hm Hco] Ha Hn. destruct (Tlb.tlb_read_run mmus w m t addr n Hm Hco Hb Ha ltac:(lia)) as (r & t' & E & Hco' & Hm' & Hr). exists r, t'. split_and!; [done|by rewrite Hm'|done|done|].
  destruct r as [bytes|]; [exact Hr|]. destruct Hr as (a & Hor & Hnone & _). assert (User.guest_byte w m a = None) as Hg by (unfold User.guest_byte; by rewrite Hnone).
  destruct Hor as [-> | [-> Hx]].
  - exists 0. split; [lia|]. by rewrite Z.add_0_r, wrap_small.
  - destruct (Tlb.second_page_spec addr Ha) as (Hin & _ & Hw). pose proof (User.PAGE_split addr). exists (4096 - PGOFFSET addr). split; [lia|]. rewrite Hw by lia.
    replace (Tlb.second_page addr + (4096 - PGOFFSET addr - (4096 - PGOFFSET addr))) with (Tlb.second_page addr) by lia. by rewrite wrap_small.
Qed.

#[export] Instance tlb_code_ok : CodeOK Tlb.tlb := {|
  good t := mmus (Tlb.t_mmu t) = (w, m) /\ Tlb.coherent (w, m) t;
  byte_at _ a := User.guest_byte w m a;
  fetch_ok := tlb_serves;
  byte_range _ a b _ := Hbytes a b |}.

End Over_memory.

(** ** Properties *)

Section Claims.
Context {S : Type} `{CodeOK S}.

(** C14: the decoder takes every byte string the table of the instruction set has: it returns the register and the operand the bytes stand for, whatever the structure held, and moves
    the instruction pointer to the byte after them. *)
Theorem modrm_decodes_table m ip s bytes r o : good s -> in_u 32 ip -> encodes bytes r o -> there s ip bytes ->
  exists m' s', modrm_decode32 ip s m = Some (true, m', u32 (ip + Z.of_nat (length bytes)), s') /\ reg m' = r /\ operand_of m' = o.
Proof.
  intros Hg Hip He Ht. destruct (decode_run m ip s Hg Hip) as (ok & m' & ip' & s' & E & _ & _ & Hok). exists m', s'. destruct ok; [|by destruct (Hok bytes r o He)].
  destruct Hok as (bytes' & He' & Ht' & ->). destruct (encodes_unique s ip _ _ _ _ _ _ He He' Ht Ht') as (-> & <- & <-). done.
Qed.

End Claims.

(** over guest memory the decoder always returns: with what the table has for the bytes at the instruction pointer, or with failure when no bytes of the table can be read there. *)
Theorem modrm_decodes_memory mmus w m t ip x : Cow.backed w m -> byte_memory w m -> mmus (Tlb.t_mmu t) = (w, m) -> Tlb.coherent (w, m) t -> in_u 32 ip ->
  let at_ip bytes := forall k b, bytes !! k = Some b -> User.guest_byte w m (u32 (ip + Z.of_nat k)) = Some b in
  exists ok x' ip' t', modrm_decode32 (H := tlb_code mmus w) ip t x = Some (ok, x', ip', t') /\ Tlb.coherent (w, m) t' /\
    if ok then exists bytes, encodes bytes (reg x') (operand_of x') /\ at_ip bytes /\ ip' = u32 (ip + Z.of_nat (length bytes))
    else forall bytes r o, encodes bytes r o -> ~ at_ip bytes.
Proof.
  intros Hb Hbytes Hm Hco Hip at_ip. destruct (decode_run (H0 := tlb_code_ok mmus w m Hb Hbytes) x ip t (conj Hm Hco) Hip) as (ok & x' & ip' & t' & E & [_ Hco'] & _ & Hok).
  exists ok, x', ip', t'. done.
Qed.

(** ** The properties at work *)

Module Demo.

(** Code at address 0. *)
#[local] Instance list_code : Code (list Z) := {| fetch s addr n := Some (mapM (fun k => s !! Z.to_nat (u32 (addr + k))) (seqZ 0 n), s) |}.
Lemma list_serves (s : list Z) addr n : Forall (in_u 8) s -> in_u 32 addr -> 1 <= n <= 4 ->
  exists r s', fetch s addr n = Some (r, s') /\ Forall (in_u 8) s' /\ (forall a, s' !! Z.to_nat a = s !! Z.to_nat a) /\
    match r with
    | Some bytes => length bytes = Z.to_nat n /\ forall k, (k < length bytes)%nat -> bytes !! k = s !! Z.to_nat (u32 (addr + Z.of_nat k))
    | None => exists k, 0 <= k < n /\ s !! Z.to_nat (u32 (addr + k)) = None
    end.
Proof.
  intros Hs Ha Hn. eexists _, s. split; [reflexivity|]. split_and!; [done..|]. destruct (mapM _ _) as [bytes|] eqn:E.
  - apply mapM_Some in E as E2. pose proof (Forall2_length E2) as Hl. rewrite length_seqZ in Hl. split; [done|]. intros k Hk. destruct (lookup_lt_is_Some_2 bytes k Hk) as [b Hbk].
    destruct (Forall2_lookup_r _ _ _ _ _ E2 Hbk) as (j & Hj & Hjb). apply lookup_seqZ in Hj as [-> _]. by rewrite Hbk, <- Hjb.
  - apply mapM_None in E. apply Exists_exists in E as (k & Hk%list_elem_of_In%elem_of_seqZ & E). exists k. split; [lia|done].
Qed.
#[local] Instance list_code_ok : CodeOK (list Z).
Proof.
  refine {| good := Forall (in_u 8); byte_at s a := s !! Z.to_nat a; fetch_ok := list_serves |}. intros s a b Hs Hb. rewrite Forall_lookup in Hs. by eapply Hs.
Defined.
(** [mov eax, [ecx + edx * 8 - 2]]: the bytes after the operation code. *)
Lemma modrm_decodes_table_witness : exists m' s', modrm_decode32 0 [68; 209; 254] (mk_modrm 9 modrm_reg 9 9 9 9) = Some (true, m', 3, s') /\ reg m' = reg_eax /\ operand_of m' = Address (Some reg_ecx) (Some (reg_edx, 3)) (-2).
Proof.
  apply (modrm_decodes_table (mk_modrm 9 modrm_reg 9 9 9 9) 0 [68; 209; 254] [68; 209; 254] 0 (Address (Some reg_ecx) (Some (reg_edx, 3)) (-2))).
  - repeat constructor; lia.
  - split; lia.
  - apply (enc_sib 1 0 3 2 1 [254] (-2)); try (split; reflexivity || (vm_compute; discriminate)); [left; vm_compute; discriminate|]. apply (disp_8 254). split; lia.
  - intros k b Hk. destruct k as [|[|[|k]]]; exact Hk || discriminate Hk.
Defined.

(** Memory of zeros. *)
Lemma zero_bytes n w m : blocks w = {[0x7000 := replicate n 0]} -> byte_memory w m.
Proof.
  intros Hbl a b Hab. unfold User.guest_byte in Hab. apply bind_Some in Hab as (e & _ & Hab). apply bind_Some in Hab as (bs & Hbs & Hb). unfold page_bytes in Hbs.
  apply bind_Some in Hbs as (d & _ & Hbs). apply bind_Some in Hbs as (bl & Hbl' & Hbs). rewrite Hbl in Hbl'. apply lookup_singleton_Some in Hbl' as [_ <-].
  unfold block_read in Hbs. destruct (_ && _); [|done]. injection Hbs as <-. apply lookup_take_Some in Hb as [Hb _]. rewrite lookup_drop in Hb. apply lookup_replicate in Hb as [-> _]. split; lia.
Qed.
Lemma modrm_decodes_memory_witness : exists w m ok x' ip' t', modrm_decode32 (H := tlb_code (fun _ => (w, m)) w) 0x400ffd Tlb.demo_tlb (mk_modrm 0 modrm_reg 0 0 0 0) = Some (ok, x', ip', t') /\ Tlb.coherent (w, m) t'.
Proof.
  destruct Cow.demo_mapped as (w & m & E & _ & Hbk & _). exists w, m.
  assert (blocks w = {[0x7000 := replicate (Z.to_nat 8192) 0]}) as Hbl by (apply (f_equal (fun r => match r with Some (_, w, _) => blocks w | None => ∅ end)) in E; rewrite <- E; vm_compute; reflexivity).
  destruct (modrm_decodes_memory (fun _ => (w, m)) w m Tlb.demo_tlb 0x400ffd (mk_modrm 0 modrm_reg 0 0 0 0) Hbk (zero_bytes _ w m Hbl) eq_refl (Tlb.demo_coherent w m) ltac:(split; lia))
    as (ok & x' & ip' & t' & Ed & Hco & _). exists ok, x', ip', t'. exact (conj Ed Hco).
Defined.

End Demo.
End Modrm.
