(* ===== verification/Float80.v ===== *)
(** * 80-bit floating point (emu/float80.c, emu/float80.h)

    A [float80] is its bit fields: a 64-bit significand with explicit integer
    bit, a 15-bit biased exponent, a sign bit.  128-bit intermediate results are
    [Z] in range, wrapped where the C code can lose bits.  The thread-local
    [f80_rounding_mode] is the first argument of the functions that read it; a
    [double] is its 64-bit pattern; [None] is a failed assertion. *)

From S2P Require Import Prelude.

Module Float80.

Definition BIAS80 : Z := 0x3fff.
Definition EXP_MAX : Z := 0x7ffe.
Definition EXP_MIN : Z := 0x0001.
Definition EXP_SPECIAL : Z := 0x7fff.
Definition EXP_DENORMAL : Z := 0.

Inductive f80_rounding_mode := round_to_nearest | round_down | round_up | round_chop.
#[global] Instance f80_rounding_mode_eq_dec : EqDecision f80_rounding_mode.
Proof. solve_decision. Defined.

Record float80 := mk_f80 { signif : Z; exp : Z; sign : Z }.

Definition set_signif (f : float80) (s : Z) : float80 := mk_f80 s (exp f) (sign f).
Definition set_exp (f : float80) (e : Z) : float80 := mk_f80 (signif f) (wrap 15 e) (sign f).
Definition set_sign (f : float80) (s : Z) : float80 := mk_f80 (signif f) (exp f) s.

Definition F80_NAN : float80 := mk_f80 0xc000000000000000 0x7fff 0.
Definition F80_INF : float80 := mk_f80 0x8000000000000000 0x7fff 0.
Definition F80_ZERO : float80 := mk_f80 0 0 0.

Definition bias (e : Z) : Z := u32 (e + BIAS80).
Definition unbias (e : Z) : Z := s32 (e - BIAS80).
Definition unbias_denormal (e : Z) : Z := if e =? EXP_DENORMAL then unbias EXP_MIN else unbias e.

Definition CURSED_BIT : Z := Z.shiftl 1 63.

(** [__builtin_clzl] and [__builtin_ctzl] on a nonzero argument. *)
Definition clzl (x : Z) : Z := 63 - Z.log2 x.
Definition ctzl (x : Z) : Z := Z.log2 (Z.land x (- x)).

Definition round_away_from_zero (md : f80_rounding_mode) (sgn : Z) : bool :=
  (bool_decide (md = round_up) && negb (ctrue sgn)) || (bool_decide (md = round_down) && ctrue sgn).

Definition u128_shift_right_round (md : f80_rounding_mode) (i shift sgn : Z) : Z :=
  if shift =? 0 then i
  else if shift >? 127 then
    (if round_away_from_zero md sgn && ctrue i then 1 else 0)
  else
    let guard := Z.land (Z.shiftr i (shift - 1)) 1 in
    (* the mask keeps the bits below the guard bit; [rest] has only 64 bits *)
    let rest := u64 (Z.land i (u128 (Z.lnot (u128 (Z.shiftl (-1) (shift - 1)))))) in
    let i := Z.shiftr i shift in
    if (guard =? 0) && (rest =? 0) then i
    else if round_away_from_zero md sgn then u128 (i + 1)
    else if bool_decide (md = round_to_nearest) && ctrue guard then
      (if ctrue rest then u128 (i + 1)
       else if ctrue (Z.land i 1) then u128 (i + 1)
       else i)
    else i.

Definition f80_shift_left (f : float80) (shift : Z) : float80 :=
  mk_f80 (u64 (Z.shiftl (signif f) shift)) (wrap 15 (exp f - shift)) (sign f).

Definition f80_shift_right (md : f80_rounding_mode) (f : float80) (shift : Z) : float80 :=
  mk_f80 (u64 (u128_shift_right_round md (signif f) shift (sign f))) (wrap 15 (exp f + shift)) (sign f).

Definition f80_is_supported (f : float80) : bool :=
  if exp f =? EXP_DENORMAL then Z.shiftr (signif f) 63 =? 0 else Z.shiftr (signif f) 63 =? 1.

Definition low63 (f : float80) : Z := Z.land (signif f) (2 ^ 63 - 1).

Definition f80_isnan (f : float80) : bool := (exp f =? EXP_SPECIAL) && negb (low63 f =? 0).
Definition f80_isinf (f : float80) : bool := (exp f =? EXP_SPECIAL) && (low63 f =? 0).
Definition f80_iszero (f : float80) : bool := (exp f =? EXP_DENORMAL) && (signif f =? 0).
Definition f80_isdenormal (f : float80) : bool := (exp f =? EXP_DENORMAL) && negb (signif f =? 0).

Definition f80_normalize (f : float80) : option float80 :=
  if ((exp f =? EXP_DENORMAL) || (exp f =? EXP_SPECIAL)) && negb (f80_is_supported f) then None
  else if exp f =? EXP_DENORMAL then Some f
  else
    let shift := if negb (signif f =? 0) then clzl (signif f) else 64 in
    if exp f - shift <? EXP_MIN
    then Some (set_exp (f80_shift_left f (exp f - EXP_MIN)) EXP_DENORMAL)
    else Some (f80_shift_left f shift).

Definition u128_clz (x : Z) : Z :=
  if negb (Z.shiftr x 64 =? 0) then clzl (u64 (Z.shiftr x 64))
  else if negb (x =? 0) then 64 + clzl (u64 x)
  else 128.

(** The last part of [u128_normalize_round]: keep the top 64 bits, and move
    one place up when rounding carries out of them. *)
Definition round_significand (md : f80_rounding_mode) (sg e sgn : Z) : float80 :=
  let fexp := wrap 15 (bias e) in
  let sg := u128_shift_right_round md sg 64 sgn in
  if negb (Z.shiftr sg 64 =? 0) then mk_f80 (u64 (Z.shiftr sg 1)) (wrap 15 (fexp + 1)) sgn
  else mk_f80 (u64 sg) fexp sgn.

Definition too_big (md : f80_rounding_mode) (sg sgn : Z) : float80 :=
  let f :=
    if sg =? Z.shiftl 1 127 then F80_INF
    else if (bool_decide (md = round_up) && ctrue sgn) || (bool_decide (md = round_down) && negb (ctrue sgn))
            || bool_decide (md = round_chop)
    then mk_f80 (2 ^ 64 - 1) EXP_MAX 0
    else F80_INF in
  set_sign f sgn.

Definition u128_normalize_round (md : f80_rounding_mode) (sg e sgn : Z) : float80 :=
  let shift := u128_clz sg in
  if e - shift <? unbias EXP_MIN then
    let sg :=
      if e >? unbias EXP_MIN then u128 (Z.shiftl sg (e - unbias EXP_MIN))
      else u128_shift_right_round md sg (unbias EXP_MIN - e) sgn in
    round_significand md sg (unbias EXP_DENORMAL) sgn
  else if e - shift >? unbias EXP_MAX then too_big md sg sgn
  else round_significand md (u128 (Z.shiftl sg shift)) (e - shift) sgn.

(** ** Conversions *)

Definition f80_from_int (i : Z) : option float80 :=
  let f := mk_f80 (u64 i) (wrap 15 (bias 63)) 0 in
  let f := if i =? 0 then set_exp f 0 else f in
  let f := if i <? 0 then mk_f80 (u64 (- (u64 i))) (exp f) 1 else f in
  f80_normalize f.

Definition INT64_MIN : Z := - 2 ^ 63.

Definition f80_to_int (md : f80_rounding_mode) (f : float80) : Z :=
  if negb (f80_is_supported f) then INT64_MIN
  else if exp f >? bias 63 then INT64_MIN
  else
    let f := f80_shift_right md f (bias 63 - exp f) in
    if negb (ctrue (sign f)) then s64 (signif f) else s64 (- signif f).

(** [struct double_bits] *)
Definition db_signif (d : Z) : Z := Z.land d (2 ^ 52 - 1).
Definition db_exp (d : Z) : Z := Z.land (Z.shiftr d 52) (2 ^ 11 - 1).
Definition db_sign (d : Z) : Z := Z.shiftr d 63.
Definition mk_double (s e m : Z) : Z :=
  Z.lor (wrap 52 m) (Z.lor (Z.shiftl (wrap 11 e) 52) (Z.shiftl (wrap 1 s) 63)).

Definition EXP64_MAX : Z := 0x7fe.
Definition EXP64_SPECIAL : Z := 0x7ff.
Definition EXP64_DENORMAL : Z := 0.
Definition double_NAN : Z := 0x7ff8000000000000.
Definition double_INFINITY : Z := 0x7ff0000000000000.

Definition f80_from_double (d : Z) : option float80 :=
  let fexp :=
    if db_exp d =? EXP64_SPECIAL then EXP_SPECIAL
    else if db_exp d =? EXP64_DENORMAL then (if db_signif d =? 0 then 0 else wrap 15 (bias (1 - 0x3ff)))
    else wrap 15 (bias (db_exp d - 0x3ff)) in
  let sg := u64 (Z.shiftl (db_signif d) 11) in
  let sg := if negb (db_exp d =? EXP64_DENORMAL) then Z.lor sg CURSED_BIT else sg in
  f80_normalize (mk_f80 sg fexp (db_sign d)).

(** [f80_to_double] once the exponent is known to fit. *)
Definition to_double_fits (md : f80_rounding_mode) (f : float80) (new_exp : Z) : Z :=
  let '(f, new_exp) :=
    if new_exp <=? 0 then
      let f := f80_shift_right md (set_signif f (Z.shiftr (signif f) 1)) (- new_exp) in
      (f, unbias (exp f) + 0x3ff)
    else (f, new_exp) in
  let dexp := wrap 11 new_exp in
  let dsg := u64 (u128_shift_right_round md (signif f) 11 (sign f)) in
  if ctrue (Z.land dsg (Z.shiftl 1 53))
  then mk_double (sign f) (dexp + 1) (Z.shiftr dsg 1)
  else mk_double (sign f) dexp dsg.

Definition f80_to_double (md : f80_rounding_mode) (f : float80) : Z :=
  if negb (f80_is_supported f) then double_NAN
  else
    let new_exp := unbias (exp f) + 0x3ff in
    if exp f =? EXP_SPECIAL then to_double_fits md f EXP64_SPECIAL
    else if new_exp >? EXP64_MAX then
      (if negb (ctrue (sign f)) then double_INFINITY else Z.lor double_INFINITY (Z.shiftl 1 63))
    else to_double_fits md f new_exp.

Definition f80_round (md : f80_rounding_mode) (f : float80) : option float80 :=
  if negb (f80_is_supported f) then Some F80_NAN
  else
    let bits_to_clear := 63 - unbias (exp f) in
    if bits_to_clear <=? 0 then Some f
    else
      let f := f80_shift_right md f bits_to_clear in
      if signif f =? 0 then Some (set_exp f EXP_DENORMAL) else f80_normalize f.

Definition f80_neg (f : float80) : float80 := set_sign f (wrap 1 (Z.lnot (sign f))).
Definition f80_abs (f : float80) : float80 := set_sign f 0.

(** ** Arithmetic *)

(** The early returns of [handle_nans]. *)
Definition handle_nans (a b : float80) : option float80 :=
  if negb (f80_is_supported a) || negb (f80_is_supported b) then Some F80_NAN
  else if f80_isnan a && f80_isnan b && ctrue (sign a) && negb (ctrue (sign b)) then Some b
  else if f80_isnan a then Some a
  else if f80_isnan b then Some b
  else None.

(** What the two halves of [f80_add] hand to the final rounding: a significand,
    an exponent and a sign, or a result. *)
Definition add_signifs (md : f80_rounding_mode) (a : float80) (a_signif b_signif : Z) : Z * Z * Z :=
  let sgn := sign a in
  let e := unbias_denormal (exp a) in
  if negb (f80_isinf a) then
    if a_signif + b_signif >=? 2 ^ 128
    then (Z.lor (u128_shift_right_round md (u128 (a_signif + b_signif)) 1 sgn) (Z.shiftl 1 127), e + 1, sgn)
    else (a_signif + b_signif, e, sgn)
  else (a_signif, e, sgn).

Definition sub_signifs (md : f80_rounding_mode) (a b : float80) (a_signif b_signif : Z)
    : float80 + Z * Z * Z :=
  let e := unbias_denormal (exp a) in
  if f80_isinf a && f80_isinf b then inl F80_NAN
  else
    let b_signif :=
      if bool_decide (md = round_chop) && (b_signif =? 0) && negb (signif b =? 0) then 1 else b_signif in
    let b_signif := if f80_isinf a then 0 else b_signif in
    let '(sg, sgn) :=
      if a_signif >=? b_signif then (a_signif - b_signif, sign a) else (b_signif - a_signif, 1) in
    if (sg =? 0) && negb (a_signif =? 0) && bool_decide (md = round_down) then inl (mk_f80 0 0 1)
    else if sg =? 0 then inl F80_ZERO
    else inr (sg, e, sgn).

Definition f80_add (md : f80_rounding_mode) (a b : float80) : option float80 :=
  match handle_nans a b with
  | Some r => Some r
  | None =>
      let '(a, b) := if exp a <? exp b then (b, a) else (a, b) in
      let flipped := ctrue (sign a) in
      let '(a, b) := if flipped then (f80_neg a, f80_neg b) else (a, b) in
      let a_signif := Z.shiftl (signif a) 64 in
      let b_signif := u128_shift_right_round md (Z.shiftl (signif b) 64) (exp a - exp b)
                        (Z.lxor (sign b) (cbool flipped)) in
      let r := if negb (ctrue (sign b)) then inr (add_signifs md a a_signif b_signif)
               else sub_signifs md a b a_signif b_signif in
      match r with
      | inl f => Some f
      | inr (sg, e, sgn) =>
          let sgn := if flipped then cbool (negb (ctrue sgn)) else sgn in
          let f := u128_normalize_round md sg e sgn in
          if f80_is_supported f then Some f else None
      end
  end.

Definition f80_sub (md : f80_rounding_mode) (a b : float80) : option float80 := f80_add md a (f80_neg b).

Definition f80_mul (md : f80_rounding_mode) (a b : float80) : float80 :=
  match handle_nans a b with
  | Some r => r
  | None =>
      if f80_isinf a || f80_isinf b then
        if f80_iszero a || f80_iszero b then F80_NAN
        else set_sign F80_INF (Z.lxor (sign a) (sign b))
      else
        let f_exp := unbias_denormal (exp a) + unbias_denormal (exp b) + 1 in
        let f_signif := signif a * signif b in
        set_sign (u128_normalize_round md f_signif f_exp (Z.lxor (sign a) (sign b)))
                 (Z.lxor (sign a) (sign b))
  end.

Definition f80_div (md : f80_rounding_mode) (a b : float80) : float80 :=
  match handle_nans a b with
  | Some r => r
  | None =>
      let sgn := Z.lxor (sign a) (sign b) in
      if f80_isinf a then
        if f80_isinf b then F80_NAN else set_sign F80_INF sgn
      else if f80_isinf b then set_sign F80_ZERO sgn
      else if f80_iszero b then set_sign (if f80_iszero a then F80_NAN else F80_INF) sgn
      else
        let b_trailing := ctzl (signif b) in
        let bs := Z.shiftr (signif b) b_trailing in
        let sg := Z.shiftl (signif a) 64 / bs in
        let remainder := Z.shiftl (signif a) 64 mod bs in
        let '(sg, extra_bits) :=
          if negb (sg =? 0) then
            let extra_bits := u128_clz sg in
            (Z.lor (u128 (Z.shiftl sg extra_bits)) (u128 (Z.shiftl remainder extra_bits) / bs), extra_bits)
          else (sg, 0) in
        let e := unbias_denormal (exp a) - unbias_denormal (exp b) + 63 - b_trailing - extra_bits in
        set_sign (u128_normalize_round md sg e sgn) sgn
  end.

Definition f80_mod (md : f80_rounding_mode) (x y : float80) : option float80 :=
  quotient ← f80_round round_chop (f80_div md x y);
  f80_sub md x (f80_mul md quotient y).

(** ** Comparison *)

Definition f80_uncomparable (a b : float80) : bool :=
  if negb (f80_is_supported a) || negb (f80_is_supported b) then true
  else if f80_isnan a || f80_isnan b then true
  else false.

Definition f80_lt (md : f80_rounding_mode) (a b : float80) : option bool :=
  if f80_uncomparable a b then Some false
  else if f80_isinf a && f80_isinf b && (sign a =? sign b) then Some false
  else if f80_iszero a && f80_iszero b then Some false
  else
    diff ← f80_sub md a b;
    Some ((sign diff =? 1) && negb (f80_iszero diff)).

Definition f80_eq (a b : float80) : bool :=
  if f80_uncomparable a b then false
  else
    let a := if f80_iszero a then set_sign a 0 else a in
    let b := if f80_iszero a then set_sign b 0 else b in
    (sign a =? sign b) && (exp a =? exp b) && (signif a =? signif b).

Definition f80_lte (md : f80_rounding_mode) (a b : float80) : option bool :=
  l ← f80_lt md a b; Some (l || f80_eq a b).

Definition f80_gt (md : f80_rounding_mode) (a b : float80) : option bool :=
  l ← f80_lte md a b; Some (negb l).

(** ** Logarithm, square root, scaling *)

(** The loops of [f80_log2]; running out of fuel is [None]. *)
Fixpoint log2_up (fuel : nat) (md : f80_rounding_mode) (one two x : float80) (ipart : Z)
    : option (float80 * Z) :=
  match fuel with
  | O => None
  | S fuel =>
      l ← f80_lt md x one;
      if l : bool then log2_up fuel md one two (f80_mul md x two) (s32 (ipart - 1)) else Some (x, ipart)
  end.

Fixpoint log2_down (fuel : nat) (md : f80_rounding_mode) (two x : float80) (ipart : Z)
    : option (float80 * Z) :=
  match fuel with
  | O => None
  | S fuel =>
      g ← f80_gt md x two;
      if g : bool then log2_down fuel md two (f80_div md x two) (s32 (ipart + 1)) else Some (x, ipart)
  end.

Fixpoint log2_square (fuel : nat) (md : f80_rounding_mode) (zero two x bit : float80)
    : option (float80 * float80) :=
  match fuel with
  | O => None
  | S fuel =>
      l ← f80_lte md x two;
      g ← f80_gt md bit zero;
      if (l : bool) && (g : bool) then log2_square fuel md zero two (f80_mul md x x) (f80_div md bit two)
      else Some (x, bit)
  end.

Fixpoint log2_bits (fuel : nat) (md : f80_rounding_mode) (zero two x bit res : float80) : option float80 :=
  match fuel with
  | O => None
  | S fuel' =>
      g ← f80_gt md bit zero;
      if g : bool then
        xb ← log2_square fuel md zero two x bit;
        let '(x, bit) := xb in
        res' ← f80_add md res bit;
        if (signif res =? signif res') && (exp res =? exp res') && (sign res =? sign res') then Some res'
        else log2_bits fuel' md zero two (f80_div md x two) bit res'
      else Some res
  end.

Definition f80_log2 (fuel : nat) (md : f80_rounding_mode) (x : float80) : option float80 :=
  zero ← f80_from_int 0;
  one ← f80_from_int 1;
  two ← f80_from_int 2;
  if f80_isnan x then Some F80_NAN
  else
    le ← f80_lte md x zero;
    if le : bool then Some F80_NAN
    else
      r ← log2_up fuel md one two x 0;
      let '(x, ipart) := r in
      r ← log2_down fuel md two x ipart;
      let '(x, ipart) := r in
      res ← f80_from_int ipart;
      log2_bits fuel md zero two x one res.

(** The Newton iteration of [f80_sqrt], at most 101 rounds. *)
Fixpoint sqrt_loop (n : nat) (md : f80_rounding_mode) (x guess two : float80) : option float80 :=
  match n with
  | O => Some guess
  | S n =>
      s ← f80_add md guess (f80_div md x guess);
      let guess' := f80_div md s two in
      if f80_eq guess' guess then Some guess' else sqrt_loop n md x guess' two
  end.

Definition f80_sqrt (md : f80_rounding_mode) (x : float80) : option float80 :=
  if f80_iszero x then Some x
  else if f80_isnan x || ctrue (sign x) then Some F80_NAN
  else
    let guess := set_exp x (bias (Z.quot (unbias (exp x)) 2)) in
    two ← f80_from_int 2;
    sqrt_loop 101 md x guess two.

Definition f80_scale (md : f80_rounding_mode) (x : float80) (scale : Z) : float80 :=
  if negb (f80_is_supported x) || f80_isnan x then F80_NAN
  else u128_normalize_round md (Z.shiftl (signif x) 64) (unbias (exp x) + scale) (sign x).

Definition f80_xtract (f : float80) : Z * float80 := (unbias (exp f), set_exp f (bias 0)).

(** ** Rounding *)

(** The reference: [i / n] rounded to an integer in the given mode. *)
Definition round_div (md : f80_rounding_mode) (sgn i n : Z) : Z :=
  let q := i / n in
  let r := i mod n in
  if r =? 0 then q
  else match md with
       | round_chop => q
       | round_up => if ctrue sgn then q else q + 1
       | round_down => if ctrue sgn then q + 1 else q
       | round_to_nearest =>
           if n <? 2 * r then q + 1
           else if 2 * r =? n then (if Z.odd q then q + 1 else q)
           else q
       end.

(** [round_div] is within one of the quotient, exact when the division is, and
    in nearest mode within half. *)
Lemma round_div_bounds md sgn i n :
  0 < n -> i / n <= round_div md sgn i n <= i / n + 1.
Proof.
  intros Hn. unfold round_div. destruct (i mod n =? 0); [lia|].
  destruct md; [destruct (n <? _); [lia|]; destruct (_ =? n); [|lia]; destruct (Z.odd _); lia
    |destruct (ctrue sgn); lia|destruct (ctrue sgn); lia|lia].
Qed.

Lemma round_div_exact md sgn q n : 0 < n -> round_div md sgn (q * n) n = q.
Proof. intros Hn. unfold round_div. rewrite Z.mod_mul, Z.div_mul by lia. done. Qed.

Lemma round_div_1 md sgn i : round_div md sgn i 1 = i.
Proof. unfold round_div. rewrite Z.mod_1_r, Z.div_1_r. done. Qed.

Lemma round_div_nearest sgn i n :
  0 < n -> 2 * Z.abs (i - round_div round_to_nearest sgn i n * n) <= n.
Proof.
  intros Hn. unfold round_div. pose proof (Z.div_mod i n ltac:(lia)). pose proof (Z.mod_pos_bound i n Hn).
  destruct (Z.eqb_spec (i mod n) 0); [lia|]. destruct (Z.ltb_spec n (2 * (i mod n))); [lia|].
  destruct (Z.eqb_spec (2 * (i mod n)) n); [destruct (Z.odd (i / n)); lia|lia].
Qed.

(** The mask of [u128_shift_right_round]. *)
Lemma rest_mask k : 0 <= k < 128 -> u128 (Z.lnot (u128 (Z.shiftl (-1) k))) = Z.ones k.
Proof.
  intros Hk. rewrite Z.shiftl_mul_pow2 by lia. pose proof (Z.pow_pos_nonneg 2 k ltac:(lia) ltac:(lia)).
  assert (2 ^ k < 2 ^ 128) by (apply Z.pow_lt_mono_r; lia).
  unfold wrap, Z.lnot. replace (-1 * 2 ^ k) with (2 ^ 128 - 2 ^ k + (-1) * 2 ^ 128) by lia.
  rewrite Z_mod_plus_full, (Z.mod_small (2 ^ 128 - 2 ^ k)) by lia.
  rewrite Z.ones_equiv. replace (Z.pred (- (2 ^ 128 - 2 ^ k))) with (Z.pred (2 ^ k) + (-1) * 2 ^ 128) by lia.
  rewrite Z_mod_plus_full. apply Z.mod_small. lia.
Qed.

(** The bits that are shifted out, as the code splits them. *)
Lemma guard_rest i s :
  0 <= i -> 1 <= s -> i mod 2 ^ s = (i / 2 ^ (s - 1)) mod 2 * 2 ^ (s - 1) + i mod 2 ^ (s - 1) /\
  i / 2 ^ s = i / 2 ^ (s - 1) / 2.
Proof.
  intros Hi Hs. pose proof (Z.pow_pos_nonneg 2 (s - 1) ltac:(lia) ltac:(lia)).
  replace (2 ^ s) with (2 ^ (s - 1) * 2) by (rewrite Z.mul_comm, <- Z.pow_succ_r by lia; f_equal; lia).
  split; [rewrite Z.rem_mul_r by lia; lia|by rewrite Z.div_div by lia].
Qed.

(** When the discarded part fits its 64-bit variable, the shift rounds as the
    mode asks. *)
Lemma u128_shift_right_round_ok md i shift sgn :
  0 <= i < 2 ^ 128 -> 0 <= shift -> i < 2 ^ 64 \/ shift <= 65 ->
  u128_shift_right_round md i shift sgn = round_div md sgn i (2 ^ shift).
Proof.
  intros Hi Hs Hfit. unfold u128_shift_right_round.
  destruct (Z.eqb_spec shift 0) as [->|Hs0]; [by rewrite round_div_1|].
  rewrite Z.gtb_ltb. destruct (Z.ltb_spec 127 shift) as [Hbig|Hsm].
  { destruct Hfit as [Hfit|]; [|lia]. assert (2 ^ 65 <= 2 ^ shift) by (apply Z.pow_le_mono_r; lia).
    unfold round_div. rewrite Z.mod_small, Z.div_small by lia. unfold ctrue at 1.
    destruct (Z.eqb_spec i 0); [by rewrite andb_false_r|]. rewrite andb_true_r.
    unfold round_away_from_zero. destruct md; simpl.
    - rewrite (proj2 (Z.ltb_ge _ _)), (proj2 (Z.eqb_neq _ _)) by lia. done.
    - by destruct (ctrue sgn).
    - by destruct (ctrue sgn).
    - done. }
  destruct (guard_rest i shift ltac:(lia) ltac:(lia)) as [Hm Hd].
  set (h := 2 ^ (shift - 1)) in *.
  assert (Hh : 0 < h) by (apply Z.pow_pos_nonneg; lia).
  assert (Hn : 2 ^ shift = 2 * h) by (unfold h; rewrite <- Z.pow_succ_r by lia; f_equal; lia).
  rewrite rest_mask, Z.land_ones, (Z.shiftr_div_pow2 i (shift - 1)), (Z.shiftr_div_pow2 i shift) by lia.
  fold h.
  assert (Hl : Z.land (i / h) 1 = (i / h) mod 2).
  { change 1 with (Z.ones 1). by rewrite Z.land_ones by lia. }
  rewrite Hl. clear Hl.
  pose proof (Z.mod_pos_bound i h Hh) as Hrest. pose proof (Z.mod_pos_bound (i / h) 2 ltac:(lia)) as Hguard.
  set (guard := (i / h) mod 2) in *. set (rest := i mod h) in *.
  assert (Hrw : u64 rest = rest).
  { apply wrap_small. unfold in_u. destruct Hfit as [Hf|Hf].
    - unfold rest in *. pose proof (Z.mod_le i h ltac:(lia) Hh). lia.
    - assert (h <= 2 ^ 64) by (apply Z.pow_le_mono_r; lia). lia. }
  rewrite Hrw. unfold round_div. rewrite Hm, Hn in *. set (q := i / (2 * h)) in *.
  assert (Hq : 0 <= q < 2 ^ 127) by (split; [apply Z.div_pos; lia|apply Z.div_lt_upper_bound; nia]).
  assert (Hw : u128 (q + 1) = q + 1) by (apply wrap_small; unfold in_u; lia). rewrite Hw.
  assert (Hodd : ctrue (Z.land q 1) = Z.odd q).
  { change 1 with (Z.ones 1). rewrite Z.land_ones by lia. change (2 ^ 1) with 2. rewrite Zmod_odd.
    by destruct (Z.odd q). }
  rewrite Hodd. unfold ctrue, round_away_from_zero.
  assert (guard = 0 \/ guard = 1) as [Hg|Hg] by lia; rewrite Hg; cbn [Z.eqb negb andb].
  - rewrite Z.mul_0_l, Z.add_0_l. destruct (Z.eqb_spec rest 0) as [E|Hr]; [done|].
    rewrite (proj2 (Z.ltb_ge (2 * h) (2 * rest))), (proj2 (Z.eqb_neq (2 * rest) (2 * h))) by lia.
    destruct md; simpl; unfold ctrue; by destruct (sgn =? 0).
  - rewrite (proj2 (Z.eqb_neq (1 * h + rest) 0)) by lia. destruct md; simpl; unfold ctrue; try (by destruct (sgn =? 0)).
    destruct (Z.eqb_spec rest 0) as [->|Hr]; simpl.
    + rewrite (proj2 (Z.ltb_ge _ _)) by lia. rewrite (proj2 (Z.eqb_eq _ _)) by lia. done.
    + rewrite (proj2 (Z.ltb_lt _ _)) by lia. done.
Qed.

(** ** Values *)

(** The fields are in range. *)
Definition wf (f : float80) : Prop := in_u 64 (signif f) /\ in_u 15 (exp f) /\ (sign f = 0 \/ sign f = 1).

(** The exponent that counts: denormals have that of [EXP_MIN]. *)
Definition eexp (f : float80) : Z := if exp f =? EXP_DENORMAL then EXP_MIN else exp f.

(** Magnitude and value, in units of 2^-(16383 + 63), the smallest denormal's
    half; infinity lies above all finite numbers. *)
Definition mag (f : float80) : Z := signif f * 2 ^ eexp f.
Definition sval (f : float80) : Z := if ctrue (sign f) then - mag f else mag f.
Definition UNIT : Z := 16383 + 63.

Lemma unbias_eq e : in_u 15 e -> unbias e = e - 16383.
Proof. intros [? ?]. unfold unbias, BIAS80. apply swrap_small; [lia|]. unfold in_s. lia. Qed.

Lemma bias_eq e : - 16383 <= e < 2 ^ 31 -> bias e = e + 16383.
Proof. intros. unfold bias, BIAS80. apply wrap_small. unfold in_u. lia. Qed.

Lemma unbias_denormal_eq f : wf f -> unbias_denormal (exp f) = eexp f - 16383.
Proof.
  intros (_ & He & _). unfold unbias_denormal, eexp. destruct (exp f =? EXP_DENORMAL); [done|by apply unbias_eq].
Qed.

Lemma clzl_spec x : 0 < x < 2 ^ 64 -> 0 <= clzl x <= 63 /\ 2 ^ 63 <= x * 2 ^ clzl x < 2 ^ 64.
Proof.
  intros Hx. unfold clzl. pose proof (Z.log2_nonneg x). destruct (Z.log2_spec x ltac:(lia)) as [H1 H2].
  assert (Z.log2 x <= 63) by (apply Z.lt_succ_r, Z.log2_lt_pow2; lia). split; [lia|].
  assert (Hs : 2 ^ 63 = 2 ^ Z.log2 x * 2 ^ (63 - Z.log2 x)) by (rewrite <- Z.pow_add_r by lia; f_equal; lia).
  rewrite Z.pow_succ_r in H2 by lia. pose proof (Z.pow_pos_nonneg 2 (63 - Z.log2 x) ltac:(lia) ltac:(lia)).
  change (2 ^ 64) with (2 * 2 ^ 63). rewrite Hs. nia.
Qed.

Lemma u128_clz_eq x : 0 < x < 2 ^ 128 -> u128_clz x = 127 - Z.log2 x.
Proof.
  intros Hx. unfold u128_clz, clzl. rewrite Z.shiftr_div_pow2 by lia.
  destruct (Z.eqb_spec (x / 2 ^ 64) 0) as [Hz|Hz]; cbn [negb].
  - apply Z.div_small_iff in Hz; [|lia]. rewrite (proj2 (Z.eqb_neq x 0)) by lia. cbn [negb].
    rewrite wrap_small by (unfold in_u; lia). lia.
  - assert (0 < x / 2 ^ 64 < 2 ^ 64).
    { split; [|apply Z.div_lt_upper_bound; lia]. pose proof (Z.div_pos x (2 ^ 64)). lia. }
    rewrite wrap_small by (unfold in_u; lia). rewrite <- Z.shiftr_div_pow2, Z.log2_shiftr by lia.
    assert (64 <= Z.log2 x); [|lia]. apply Z.log2_le_pow2; [lia|].
    destruct (Z.lt_ge_cases x (2 ^ 64)); [|lia]. rewrite Z.div_small in Hz by lia. done.
Qed.

Lemma shiftr63 x : in_u 64 x -> Z.shiftr x 63 = if 2 ^ 63 <=? x then 1 else 0.
Proof.
  intros [H0 H1]. rewrite Z.shiftr_div_pow2 by lia. destruct (Z.leb_spec (2 ^ 63) x).
  - symmetry. apply (Z.div_unique x (2 ^ 63) 1 (x - 2 ^ 63)); lia.
  - apply Z.div_small. lia.
Qed.

(** Supported numbers are denormals below the integer bit and others above. *)
Lemma supported_iff f : wf f ->
  f80_is_supported f = true <->
  (exp f = 0 /\ signif f < 2 ^ 63) \/ (exp f <> 0 /\ 2 ^ 63 <= signif f).
Proof.
  intros (Hs & _ & _). unfold f80_is_supported, EXP_DENORMAL. rewrite shiftr63 by done.
  destruct (Z.eqb_spec (exp f) 0), (Z.leb_spec (2 ^ 63) (signif f)); simpl; split; try done; try lia; tauto.
Qed.

(** ** Integers *)

Lemma f80_normalize_normal sg e s :
  0 < sg < 2 ^ 64 -> 64 < e < 0x7fff ->
  f80_normalize (mk_f80 sg e s) = Some (mk_f80 (sg * 2 ^ clzl sg) (e - clzl sg) s).
Proof.
  intros Hs He. destruct (clzl_spec sg Hs) as [Hc Hm]. unfold f80_normalize, EXP_DENORMAL, EXP_SPECIAL, EXP_MIN.
  cbn [exp signif]. rewrite !(proj2 (Z.eqb_neq _ _)) by lia. cbn [orb andb negb].
  rewrite (proj2 (Z.ltb_ge _ _)) by lia. unfold f80_shift_left. cbn [signif exp sign].
  rewrite Z.shiftl_mul_pow2 by lia. rewrite !wrap_small by (unfold in_u; lia). done.
Qed.

Lemma f80_from_int_eq i : in_s 64 i ->
  f80_from_int i = Some (if i =? 0 then F80_ZERO
                         else mk_f80 (Z.abs i * 2 ^ clzl (Z.abs i)) (UNIT - clzl (Z.abs i)) (cbool (i <? 0))).
Proof.
  intros [Hl Hh]. change (64 - 1) with 63 in *. unfold f80_from_int. change (wrap 15 (bias 63)) with UNIT.
  destruct (Z.eqb_spec i 0) as [->|Hi]; [reflexivity|].
  destruct (Z.ltb_spec i 0) as [Hn|Hp]; cbn [cbool exp].
  - assert (u64 (- u64 i) = Z.abs i) as ->.
    { assert (u64 i = i + 2 ^ 64) as ->.
      { unfold wrap. rewrite <- (Z_mod_plus_full i 1), Z.mod_small; lia. }
      unfold wrap. replace (- (i + 2 ^ 64)) with (Z.abs i + (-1) * 2 ^ 64) by lia.
      rewrite Z_mod_plus_full. apply Z.mod_small. lia. }
    apply f80_normalize_normal; unfold UNIT; lia.
  - rewrite wrap_small by (unfold in_u; lia). rewrite <- (Z.abs_eq i) at 1 by lia.
    apply f80_normalize_normal; unfold UNIT; lia.
Qed.

(** Every 64-bit integer converts exactly: the result is a supported
    number whose value is the integer. *)
Theorem f80_from_int_exact i : in_s 64 i ->
  exists f, f80_from_int i = Some f /\ wf f /\ f80_is_supported f = true /\ sval f = i * 2 ^ UNIT.
Proof.
  intros Hi. rewrite (f80_from_int_eq i Hi). destruct (Z.eqb_spec i 0) as [->|Hn].
  { eexists. split; [done|]. split_and!; [split_and!; vm_compute; auto; split; (discriminate || reflexivity)|done|done]. }
  destruct Hi as [Hl Hh]. change (64 - 1) with 63 in *.
  destruct (clzl_spec (Z.abs i) ltac:(lia)) as [Hc Hm]. set (c := clzl (Z.abs i)) in *. unfold UNIT.
  assert (Hwf : wf (mk_f80 (Z.abs i * 2 ^ c) (16383 + 63 - c) (cbool (i <? 0)))).
  { split_and!; cbn [signif exp sign]; [unfold in_u; lia|unfold in_u; lia|destruct (i <? 0); auto]. }
  eexists. split; [done|]. split_and!; [done| |].
  - apply supported_iff; [done|]. right. cbn [exp signif]. lia.
  - unfold sval, mag, eexp. cbn [exp sign signif]. rewrite (proj2 (Z.eqb_neq _ EXP_DENORMAL)) by (unfold EXP_DENORMAL; lia).
    rewrite <- Z.mul_assoc, <- Z.pow_add_r by lia. replace (c + (16383 + 63 - c)) with (16383 + 63) by lia.
    generalize (2 ^ (16383 + 63)). intros U. destruct (Z.ltb_spec i 0); cbn [cbool ctrue Z.eqb negb]; nia.
Qed.

Lemma f80_from_int_exact_witness :
  exists f, f80_from_int (- 2 ^ 63) = Some f /\ wf f /\ f80_is_supported f = true /\ sval f = - 2 ^ 63 * 2 ^ UNIT.
Proof. apply (f80_from_int_exact (- 2 ^ 63)). split; [discriminate|reflexivity]. Defined.

(** Storing a number that needs no exponent above 2^62 as an integer rounds
    its value as the mode asks. *)
Lemma f80_to_int_eq md f :
  wf f -> f80_is_supported f = true -> exp f <= UNIT ->
  f80_to_int md f = s64 ((if ctrue (sign f) then -1 else 1) *
                         u64 (round_div md (sign f) (signif f) (2 ^ (UNIT - exp f)))).
Proof.
  intros ((Hs & Hs') & (He & He') & Hsg) Hsup Hle. unfold f80_to_int. rewrite Hsup. cbn [negb].
  change (bias 63) with UNIT. rewrite Z.gtb_ltb, (proj2 (Z.ltb_ge _ _)) by lia.
  unfold f80_shift_right. cbn [signif sign]. rewrite u128_shift_right_round_ok by lia.
  destruct (ctrue (sign f)); cbn [negb]; f_equal; lia.
Qed.

(** A supported number whose exponent is below that of 2^63 is stored
    as the integer its value rounds to in the current mode, or as the indefinite
    integer when rounding reaches 2^63. *)
Theorem f80_to_int_rounds md f :
  wf f -> f80_is_supported f = true -> exp f < UNIT ->
  let v := (if ctrue (sign f) then -1 else 1) * round_div md (sign f) (signif f) (2 ^ (UNIT - exp f)) in
  f80_to_int md f = if decide (in_s 64 v) then v else INT64_MIN.
Proof.
  intros Hwf Hsup He v. unfold v. clear v. pose proof Hwf as ((Hs & Hs') & (He0 & _) & _).
  rewrite f80_to_int_eq by (done || lia).
  assert (Hp : 2 <= 2 ^ (UNIT - exp f)).
  { change 2 with (2 ^ 1) at 1. apply Z.pow_le_mono_r; lia. }
  set (n := 2 ^ (UNIT - exp f)) in *.
  pose proof (round_div_bounds md (sign f) (signif f) n ltac:(lia)) as Hb.
  assert (0 <= signif f / n) by (apply Z.div_pos; lia).
  assert (signif f / n < 2 ^ 63) by (apply Z.div_lt_upper_bound; lia).
  rewrite wrap_small by (unfold in_u; lia). case_decide as Hv; [by apply swrap_small|].
  unfold in_s in Hv. change (64 - 1) with 63 in Hv. destruct (ctrue (sign f)); [lia|].
  replace (1 * round_div md (sign f) (signif f) n) with (2 ^ 63) by lia. reflexivity.
Qed.

Lemma f80_to_int_rounds_witness :
  f80_to_int round_to_nearest (mk_f80 (5 * 2 ^ 61) (BIAS80 + 1) 1) = -2.
Proof.
  rewrite (f80_to_int_rounds round_to_nearest (mk_f80 (5 * 2 ^ 61) (BIAS80 + 1) 1)).
  - vm_compute. reflexivity.
  - split_and!; [split; [discriminate|reflexivity]|split; [discriminate|reflexivity]|right; reflexivity].
  - reflexivity.
  - reflexivity.
Defined.

(** Loading an integer and storing it again gives it back, in every
    rounding mode. *)
Theorem f80_int_round_trip md i : in_s 64 i ->
  exists f, f80_from_int i = Some f /\ f80_to_int md f = i.
Proof.
  intros Hi. rewrite (f80_from_int_eq i Hi). eexists. split; [done|].
  destruct (Z.eqb_spec i 0) as [->|Hn]; [by destruct md|].
  pose proof Hi as [Hl Hh]. change (64 - 1) with 63 in *.
  destruct (clzl_spec (Z.abs i) ltac:(lia)) as [Hc Hm]. set (c := clzl (Z.abs i)) in *.
  assert (Hwf : wf (mk_f80 (Z.abs i * 2 ^ c) (UNIT - c) (cbool (i <? 0)))).
  { unfold UNIT. split_and!; cbn [signif exp sign]; [unfold in_u; lia|unfold in_u; lia|destruct (i <? 0); auto]. }
  rewrite f80_to_int_eq; [|done| |cbn [exp]; lia].
  2:{ apply supported_iff; [done|]. right. unfold UNIT. cbn [exp signif]. lia. }
  cbn [sign signif exp]. replace (UNIT - (UNIT - c)) with c by lia.
  rewrite round_div_exact by (apply Z.pow_pos_nonneg; lia). rewrite wrap_small by (unfold in_u; lia).
  replace ((if ctrue (cbool (i <? 0)) then -1 else 1) * Z.abs i) with i by (destruct (Z.ltb_spec i 0); simpl; lia).
  apply swrap_small; [lia|done].
Qed.

Lemma f80_int_round_trip_witness :
  exists f, f80_from_int (-5) = Some f /\ f80_to_int round_up f = -5.
Proof. apply (f80_int_round_trip round_up (-5)). split; [discriminate|reflexivity]. Defined.

(** ** Normalising and rounding a 128-bit result *)

Lemma round_div_scale md sgn i n k : 0 < n -> 0 < k -> round_div md sgn (i * k) (n * k) = round_div md sgn i n.
Proof.
  intros Hn Hk. unfold round_div. rewrite Z.mul_mod_distr_r, Z.div_mul_cancel_r by lia.
  assert ((i mod n * k =? 0) = (i mod n =? 0)) as ->.
  { destruct (Z.eqb_spec (i mod n) 0) as [->|H]; [done|]. apply Z.eqb_neq. nia. }
  assert ((n * k <? 2 * (i mod n * k)) = (n <? 2 * (i mod n))) as ->.
  { destruct (Z.ltb_spec n (2 * (i mod n))); [apply Z.ltb_lt|apply Z.ltb_ge]; nia. }
  assert ((2 * (i mod n * k) =? n * k) = (2 * (i mod n) =? n)) as ->; [|done].
  destruct (Z.eqb_spec (2 * (i mod n)) n); [apply Z.eqb_eq|apply Z.eqb_neq]; nia.
Qed.

(** A normalised significand rounds to 64 bits, with one more place on a carry. *)
Lemma round_significand_ok md sg e sgn :
  2 ^ 127 <= sg < 2 ^ 128 -> -16382 <= e <= 16383 -> sgn = 0 \/ sgn = 1 ->
  let f := round_significand md sg e sgn in
  wf f /\ f80_is_supported f = true /\ sign f = sgn /\ exp f <> 0 /\
  mag f = round_div md sgn sg (2 ^ 64) * 2 ^ (e + 16383).
Proof.
  intros Hsg He Hs f. unfold f, round_significand. clear f.
  rewrite u128_shift_right_round_ok by lia. rewrite bias_eq by lia.
  pose proof (round_div_bounds md sgn sg (2 ^ 64) ltac:(lia)) as Hb.
  assert (2 ^ 63 <= sg / 2 ^ 64) by (apply Z.div_le_lower_bound; lia).
  assert (sg / 2 ^ 64 < 2 ^ 64) by (apply Z.div_lt_upper_bound; lia).
  set (r := round_div md sgn sg (2 ^ 64)) in *. rewrite (wrap_small 15 (e + 16383)) by (unfold in_u; lia).
  rewrite Z.shiftr_div_pow2 by lia.
  assert (Hwf : forall s x, 2 ^ 63 <= s < 2 ^ 64 -> 0 < x < 2 ^ 15 ->
    wf (mk_f80 s x sgn) /\ f80_is_supported (mk_f80 s x sgn) = true /\ mag (mk_f80 s x sgn) = s * 2 ^ x).
  { intros s x Hsx Hx. assert (W : wf (mk_f80 s x sgn)) by (split_and!; cbn; unfold in_u; try lia; auto).
    split_and!; [done|apply supported_iff; [done|]; right; cbn; lia|].
    unfold mag, eexp, EXP_DENORMAL. cbn [exp signif]. by rewrite (proj2 (Z.eqb_neq x 0)) by lia. }
  destruct (Z.eqb_spec (r / 2 ^ 64) 0) as [Hz|Hz]; cbn [negb].
  - apply Z.div_small_iff in Hz; [|lia]. rewrite wrap_small by (unfold in_u; lia).
    destruct (Hwf r (e + 16383) ltac:(lia) ltac:(lia)) as (? & ? & ?). split_and!; try done. cbn [exp]. lia.
  - assert (r = 2 ^ 64) as ->.
    { destruct (Z.lt_ge_cases r (2 ^ 64)); [|lia]. rewrite Z.div_small in Hz by lia. done. }
    change (u64 (Z.shiftr (2 ^ 64) 1)) with (2 ^ 63). rewrite (wrap_small 15) by (unfold in_u; lia).
    destruct (Hwf (2 ^ 63) (e + 16383 + 1) ltac:(lia) ltac:(lia)) as (? & ? & ->).
    split_and!; try done; [cbn [exp]; lia|]. rewrite Z.pow_add_r by lia. ring.
Qed.

Lemma normalize_shift x : 0 < x < 2 ^ 128 ->
  0 <= 127 - Z.log2 x /\ 2 ^ 127 <= x * 2 ^ (127 - Z.log2 x) < 2 ^ 128.
Proof.
  intros Hx. destruct (Z.log2_spec x ltac:(lia)) as [H1 H2]. pose proof (Z.log2_nonneg x).
  assert (Z.log2 x <= 127) by (apply Z.lt_succ_r, Z.log2_lt_pow2; lia). split; [lia|].
  assert (Hs : 2 ^ 127 = 2 ^ Z.log2 x * 2 ^ (127 - Z.log2 x)) by (rewrite <- Z.pow_add_r by lia; f_equal; lia).
  rewrite Z.pow_succ_r in H2 by lia. pose proof (Z.pow_pos_nonneg 2 (127 - Z.log2 x) ltac:(lia) ltac:(lia)).
  change (2 ^ 128) with (2 * 2 ^ 127). rewrite Hs. nia.
Qed.

Lemma u128_normalize_round_ok md sg e sgn :
  0 < sg < 2 ^ 128 -> -16382 <= e - (127 - Z.log2 sg) <= 16383 -> sgn = 0 \/ sgn = 1 ->
  let c := 127 - Z.log2 sg in
  let f := u128_normalize_round md sg e sgn in
  wf f /\ f80_is_supported f = true /\ sign f = sgn /\ exp f <> 0 /\
  mag f = round_div md sgn (sg * 2 ^ c) (2 ^ 64) * 2 ^ (e - c + 16383).
Proof.
  intros Hsg He Hs c. unfold u128_normalize_round. rewrite u128_clz_eq by done. fold c.
  destruct (normalize_shift sg Hsg) as [Hc Hn]. fold c in Hc, Hn, He.
  change (unbias EXP_MIN) with (-16382). change (unbias EXP_MAX) with 16383.
  rewrite !Z.gtb_ltb, (proj2 (Z.ltb_ge (e - c) (-16382))), (proj2 (Z.ltb_ge 16383 (e - c))) by lia.
  rewrite Z.shiftl_mul_pow2 by lia. rewrite wrap_small by (unfold in_u; lia). by apply round_significand_ok.
Qed.

(** ** Multiplication *)

(** [x] rounded to 64 significant bits. *)
Definition round64 (md : f80_rounding_mode) (sgn x : Z) : Z :=
  let n := 2 ^ (Z.log2 x - 63) in round_div md sgn x n * n.

(** Finite numbers other than zero. *)
Definition finite_nonzero (f : float80) : Prop :=
  wf f /\ f80_is_supported f = true /\ exp f <> EXP_SPECIAL /\ signif f <> 0.

Lemma finite_not_nan f : exp f <> EXP_SPECIAL -> f80_isnan f = false /\ f80_isinf f = false.
Proof. intros H. unfold f80_isnan, f80_isinf. by rewrite (proj2 (Z.eqb_neq _ _) H). Qed.

Lemma finite_no_nans a b : finite_nonzero a -> finite_nonzero b -> handle_nans a b = None.
Proof.
  intros (_ & Hsa & Ha & _) (_ & Hsb & Hb & _). unfold handle_nans. rewrite Hsa, Hsb.
  destruct (finite_not_nan a Ha) as [-> _]. by destruct (finite_not_nan b Hb) as [-> _].
Qed.

Lemma eexp_pos f : wf f -> 1 <= eexp f < 2 ^ 15.
Proof.
  intros (_ & [H1 H2] & _). unfold eexp, EXP_DENORMAL, EXP_MIN. destruct (Z.eqb_spec (exp f) 0); lia.
Qed.

Lemma lxor_signs a b : wf a -> wf b -> Z.lxor (sign a) (sign b) = 0 \/ Z.lxor (sign a) (sign b) = 1.
Proof. intros (_ & _ & [->| ->]) (_ & _ & [->| ->]); auto. Qed.

Lemma mag_log2 a b : finite_nonzero a -> finite_nonzero b ->
  mag a * mag b = signif a * signif b * 2 ^ (eexp a + eexp b) /\
  Z.log2 (mag a * mag b) = Z.log2 (signif a * signif b) + (eexp a + eexp b) /\ 0 < signif a * signif b < 2 ^ 128.
Proof.
  intros (Wa & _ & _ & Na) (Wb & _ & _ & Nb). pose proof (eexp_pos a Wa). pose proof (eexp_pos b Wb).
  destruct Wa as ([Ha Ha'] & _ & _), Wb as ([Hb Hb'] & _ & _).
  assert (E : mag a * mag b = signif a * signif b * 2 ^ (eexp a + eexp b)).
  { unfold mag. rewrite Z.pow_add_r by lia. ring. }
  split_and!; [done| |nia|change (2 ^ 128) with (2 ^ 64 * 2 ^ 64); nia].
  rewrite E, Z.log2_mul_pow2 by nia. lia.
Qed.

(** C22: The product of finite nonzero numbers is correctly rounded: whenever
    it lies in the range of normal numbers, the result is the exact product rounded
    to 64 significant bits in the current mode, with the sign of the product. *)
Theorem f80_mul_rounds md a b :
  finite_nonzero a -> finite_nonzero b ->
  UNIT + 64 <= Z.log2 (mag a * mag b) <= UNIT + 63 + EXP_MAX ->
  let s := Z.lxor (sign a) (sign b) in
  let f := f80_mul md a b in
  wf f /\ f80_is_supported f = true /\ sign f = s /\
  mag f * 2 ^ UNIT = round64 md s (mag a * mag b).
Proof.
  intros Ha Hb Hr s f. unfold f, f80_mul. clear f. rewrite finite_no_nans by done.
  pose proof Ha as (Wa & _ & Ea & _). pose proof Hb as (Wb & _ & Eb & _).
  destruct (finite_not_nan a Ea) as [_ ->], (finite_not_nan b Eb) as [_ ->]. cbn [orb]. fold s.
  destruct (mag_log2 a b Ha Hb) as (Hm & Hl & Hp). rewrite Hl in Hr.
  rewrite (unbias_denormal_eq a Wa), (unbias_denormal_eq b Wb).
  set (p := signif a * signif b) in *. set (x := eexp a + eexp b) in *.
  pose proof (eexp_pos a Wa). pose proof (eexp_pos b Wb).
  set (e := eexp a - 16383 + (eexp b - 16383) + 1).
  pose proof (lxor_signs a b Wa Wb) as Hsg. fold s in Hsg.
  assert (HU : UNIT = 16446) by reflexivity. assert (HX : EXP_MAX = 32766) by reflexivity.
  destruct (u128_normalize_round_ok md p e s Hp ltac:(lia) Hsg) as (Wf & Sf & Sg & _ & Mf).
  assert (set_sign (u128_normalize_round md p e s) s = u128_normalize_round md p e s) as ->.
  { destruct (u128_normalize_round md p e s) as [? ? ?]. cbn [sign] in Sg. by subst. }
  split_and!; [done|done|done|]. rewrite Mf. unfold round64. rewrite Hm, <- Hm, Hl, Hm.
  set (c := 127 - Z.log2 p) in *. destruct (normalize_shift p Hp) as [Hc _]. fold c in Hc.
  assert (Hn : Z.log2 p + x - 63 = 64 + (x - c)) by lia. rewrite Hn.
  replace (p * 2 ^ x) with (p * 2 ^ c * 2 ^ (x - c)) by (rewrite <- Z.mul_assoc, <- Z.pow_add_r by lia; do 2 f_equal; lia).
  rewrite (Z.pow_add_r 2 64) by lia. rewrite round_div_scale by (apply Z.pow_pos_nonneg; lia).
  rewrite <- !Z.mul_assoc. f_equal. rewrite <- !Z.pow_add_r by lia. f_equal. lia.
Qed.

Lemma f80_mul_rounds_witness :
  let three := mk_f80 (3 * 2 ^ 62) (BIAS80 + 1) 0 in
  mag (f80_mul round_to_nearest three three) * 2 ^ UNIT = round64 round_to_nearest 0 (mag three * mag three).
Proof.
  apply (f80_mul_rounds round_to_nearest (mk_f80 (3 * 2 ^ 62) (BIAS80 + 1) 0) (mk_f80 (3 * 2 ^ 62) (BIAS80 + 1) 0)).
  - split_and!; [split_and!; [split; [discriminate|reflexivity]|split; [discriminate|reflexivity]|left; reflexivity]
      |reflexivity|discriminate|discriminate].
  - split_and!; [split_and!; [split; [discriminate|reflexivity]|split; [discriminate|reflexivity]|left; reflexivity]
      |reflexivity|discriminate|discriminate].
  - vm_compute. split; discriminate.
Defined.

(** ** Doubles *)

Lemma lor_shiftl_add a b k : 0 <= k -> 0 <= a < 2 ^ k -> 0 <= b -> Z.lor a (Z.shiftl b k) = a + b * 2 ^ k.
Proof.
  intros Hk Ha Hb. assert (Hl : Z.land a (Z.shiftl b k) = 0).
  { apply Z.bits_inj'. intros n Hn. rewrite Z.land_spec, Z.bits_0. destruct (Z.lt_ge_cases n k).
    - rewrite Z.shiftl_spec_low by lia. apply andb_false_r.
    - rewrite (proj1 (Z.bounded_iff_bits_nonneg k a Hk ltac:(lia)) ltac:(lia) n) by lia. done. }
  rewrite <- Z.lxor_lor, <- Z.add_nocarry_lxor, Z.shiftl_mul_pow2 by done. done.
Qed.

Lemma mk_double_eq s e m :
  0 <= m < 2 ^ 52 -> 0 <= e < 2 ^ 11 -> 0 <= s < 2 -> mk_double s e m = m + (e + s * 2 ^ 11) * 2 ^ 52.
Proof.
  intros Hm He Hs. unfold mk_double. rewrite !wrap_small by (unfold in_u; lia).
  change 63 with (11 + 52). rewrite <- (Z.shiftl_shiftl s 11 52), <- Z.shiftl_lor by lia.
  rewrite (lor_shiftl_add e s 11), (lor_shiftl_add m) by lia. done.
Qed.

Lemma double_fields d : in_u 64 d ->
  0 <= db_signif d < 2 ^ 52 /\ 0 <= db_exp d < 2 ^ 11 /\ 0 <= db_sign d < 2 /\
  d = db_signif d + (db_exp d + db_sign d * 2 ^ 11) * 2 ^ 52.
Proof.
  intros [H0 H1]. unfold db_signif, db_exp, db_sign. change (2 ^ 52 - 1) with (Z.ones 52).
  change (2 ^ 11 - 1) with (Z.ones 11). rewrite !Z.land_ones, !Z.shiftr_div_pow2 by lia.
  pose proof (Z.mod_pos_bound d (2 ^ 52) ltac:(lia)). pose proof (Z.mod_pos_bound (d / 2 ^ 52) (2 ^ 11) ltac:(lia)).
  pose proof (Z.div_mod d (2 ^ 52) ltac:(lia)). pose proof (Z.div_mod (d / 2 ^ 52) (2 ^ 11) ltac:(lia)).
  rewrite Z.div_div in * by lia. change (2 ^ 52 * 2 ^ 11) with (2 ^ 63) in *.
  assert (0 <= d / 2 ^ 63 < 2) by (split; [apply Z.div_pos; lia|apply Z.div_lt_upper_bound; lia]).
  split_and!; lia.
Qed.

(** The part of [f80_to_double] after the exponent is fixed, on an exact significand. *)
Lemma to_double_exact md f e k :
  0 < e < 2 ^ 11 -> 2 ^ 52 <= k < 2 ^ 53 -> signif f = k * 2 ^ 11 -> sign f = 0 \/ sign f = 1 ->
  to_double_fits md f e = mk_double (sign f) e k.
Proof.
  intros He Hk Hf Hs. unfold to_double_fits. rewrite (proj2 (Z.leb_gt e 0)) by lia.
  rewrite u128_shift_right_round_ok, Hf, round_div_exact by lia. rewrite (wrap_small 64) by (unfold in_u; lia).
  assert (Z.land k (Z.shiftl 1 53) = 0) as ->; [|cbn [ctrue Z.eqb negb]; by rewrite (wrap_small 11) by (unfold in_u; lia)].
  apply Z.bits_inj'. intros n Hn. rewrite Z.land_spec, Z.bits_0, Z.shiftl_1_l.
  destruct (Z.eq_dec n 53) as [->|]; [|rewrite Z.pow2_bits_false by lia; apply andb_false_r].
  by rewrite (proj1 (Z.bounded_iff_bits_nonneg 53 k ltac:(lia) ltac:(lia)) ltac:(lia) 53) by lia.
Qed.

(** Numbers with the integer bit set are already normal. *)
Lemma f80_normalize_id sg e s :
  2 ^ 63 <= sg < 2 ^ 64 -> 0 < e < 2 ^ 15 -> f80_normalize (mk_f80 sg e s) = Some (mk_f80 sg e s).
Proof.
  intros Hs He. unfold f80_normalize, f80_is_supported, EXP_DENORMAL, EXP_MIN, EXP_SPECIAL. cbn [exp signif].
  rewrite shiftr63 by (unfold in_u; lia). rewrite (proj2 (Z.leb_le _ _)) by lia.
  rewrite (proj2 (Z.eqb_neq e 0)), (proj2 (Z.eqb_neq sg 0)) by lia. cbn [negb orb andb Z.eqb Pos.eqb].
  rewrite andb_false_r. assert (clzl sg = 0) as ->.
  { unfold clzl. rewrite (Z.log2_unique sg 63); lia. }
  rewrite (proj2 (Z.ltb_ge _ _)) by lia. unfold f80_shift_left. cbn [signif exp sign].
  rewrite Z.shiftl_0_r, Z.sub_0_r, !wrap_small by (unfold in_u; lia). done.
Qed.

Lemma double_round_trip_normal md m e s :
  0 <= m < 2 ^ 52 -> 0 < e < 2 ^ 11 -> s = 0 \/ s = 1 ->
  to_double_fits md (mk_f80 ((2 ^ 52 + m) * 2 ^ 11) (if e =? EXP64_SPECIAL then EXP_SPECIAL else e + 15360) s) e
  = mk_double s e m.
Proof.
  intros Hm He Hs. rewrite (to_double_exact md _ e (2 ^ 52 + m)) by (cbn; lia || done). cbn [sign].
  unfold mk_double. assert (wrap 52 (2 ^ 52 + m) = wrap 52 m) as ->; [|done].
  unfold wrap. rewrite <- (Z_mod_plus_full m 1 (2 ^ 52)). f_equal. lia.
Qed.

(** A denormal double becomes a normal number and comes back. *)
Lemma double_round_trip_denormal md m s :
  0 < m < 2 ^ 52 -> s = 0 \/ s = 1 ->
  exists f, f80_normalize (mk_f80 (m * 2 ^ 11) 15361 s) = Some f /\ f80_to_double md f = mk_double s 0 m.
Proof.
  intros Hm Hs. destruct (clzl_spec (m * 2 ^ 11) ltac:(lia)) as [Hc Hn].
  set (c := clzl (m * 2 ^ 11)) in *. rewrite f80_normalize_normal by lia. fold c. eexists. split; [done|].
  assert (Hc1 : 1 <= c). { destruct (Z.eq_dec c 0) as [E|]; [|lia]. rewrite E in Hn. lia. }
  set (f := mk_f80 _ _ s). assert (Hsup : f80_is_supported f = true).
  { apply supported_iff; [|right; cbn [f exp signif]; lia]. split_and!; cbn [f exp signif sign]; unfold in_u; lia. }
  unfold f80_to_double. rewrite Hsup. cbn [negb f exp]. rewrite unbias_eq by (unfold in_u; lia).
  unfold EXP_SPECIAL, EXP64_MAX. rewrite (proj2 (Z.eqb_neq _ _)) by lia.
  rewrite Z.gtb_ltb, (proj2 (Z.ltb_ge _ _)) by lia. unfold to_double_fits.
  rewrite (proj2 (Z.leb_le _ _)) by lia.
  assert (Hh : Z.shiftr (m * 2 ^ 11 * 2 ^ c) 1 = m * 2 ^ 11 * 2 ^ (c - 1)).
  { rewrite Z.shiftr_div_pow2 by lia. replace c with (c - 1 + 1) at 1 by lia.
    rewrite (Z.pow_add_r 2 (c - 1) 1), Z.mul_assoc by lia. apply Z.div_mul. lia. }
  assert (Hp : 2 ^ c = 2 * 2 ^ (c - 1)) by (rewrite <- Z.pow_succ_r by lia; f_equal; lia).
  unfold f80_shift_right, set_signif. cbn [f signif exp sign]. rewrite Hh.
  replace (- (15361 - c - 16383 + 0x3ff)) with (c - 1) by lia.
  rewrite (u128_shift_right_round_ok _ _ (c - 1)), round_div_exact by (nia || (apply Z.pow_pos_nonneg; lia)).
  rewrite !(wrap_small 15) by (unfold in_u; lia). rewrite unbias_eq by (unfold in_u; lia).
  replace (15361 - c + (c - 1) - 16383 + 0x3ff) with 0 by lia.
  rewrite (wrap_small 64 (m * 2 ^ 11)) by (unfold in_u; lia).
  rewrite (u128_shift_right_round_ok _ _ 11), round_div_exact by lia. rewrite (wrap_small 64) by (unfold in_u; lia).
  assert (Z.land m (Z.shiftl 1 53) = 0) as ->; [|done].
  apply Z.bits_inj'. intros n Hnn. rewrite Z.land_spec, Z.bits_0, Z.shiftl_1_l.
  destruct (Z.eq_dec n 53) as [->|]; [|rewrite Z.pow2_bits_false by lia; apply andb_false_r].
  by rewrite (proj1 (Z.bounded_iff_bits_nonneg 53 m ltac:(lia) ltac:(lia)) ltac:(lia) 53) by lia.
Qed.

(** C36: Loading any double, denormals, infinities and NaNs included, and
    storing it again gives back the same 64 bits in every rounding mode. *)
Theorem f80_double_round_trip md d : in_u 64 d ->
  exists f, f80_from_double d = Some f /\ f80_to_double md f = d.
Proof.
  intros Hd. destruct (double_fields d Hd) as (Hm & He & Hs & Ed). unfold f80_from_double.
  set (m := db_signif d) in *. set (e := db_exp d) in *. set (s := db_sign d) in *.
  assert (Hs' : s = 0 \/ s = 1) by lia. rewrite Z.shiftl_mul_pow2, (wrap_small 64) by (unfold in_u; lia).
  destruct (Z.eq_dec e 0) as [E0|E0].
  - rewrite E0 in *. cbn [EXP64_SPECIAL EXP64_DENORMAL Z.eqb negb]. destruct (Z.eqb_spec m 0) as [Em|Em].
    + rewrite Em in *. eexists. split; [reflexivity|]. rewrite Ed. destruct Hs' as [-> | ->]; by destruct md.
    + change (wrap 15 (bias (1 - 0x3ff))) with 15361.
      destruct (double_round_trip_denormal md m s ltac:(lia) Hs') as (f & Hf & Hd'). exists f. split; [exact Hf|].
      rewrite Hd', mk_double_eq by lia. lia.
  - unfold EXP64_DENORMAL. rewrite (proj2 (Z.eqb_neq e 0)) by done. cbn [negb].
    assert (Hlor : Z.lor (m * 2 ^ 11) CURSED_BIT = (2 ^ 52 + m) * 2 ^ 11).
    { unfold CURSED_BIT. rewrite (lor_shiftl_add _ 1 63) by lia. lia. }
    rewrite Hlor, bias_eq by lia.
    assert (wrap 15 (e - 0x3ff + 16383) = e + 15360) as -> by (rewrite wrap_small; unfold in_u; lia).
    set (x := if e =? EXP64_SPECIAL then EXP_SPECIAL else e + 15360).
    assert (Hx : 0 < x < 2 ^ 15) by (unfold x, EXP64_SPECIAL, EXP_SPECIAL; destruct (e =? _); lia).
    rewrite f80_normalize_id by lia. eexists. split; [done|].
    assert (Hsup : f80_is_supported (mk_f80 ((2 ^ 52 + m) * 2 ^ 11) x s) = true).
    { apply supported_iff; [split_and!; cbn; unfold in_u; lia|right; cbn; lia]. }
    unfold f80_to_double. rewrite Hsup. cbn [negb exp].
    pose proof (double_round_trip_normal md m e s Hm ltac:(lia) Hs') as Hfit. fold x in Hfit.
    rewrite mk_double_eq in Hfit by lia. unfold x in *. unfold EXP64_SPECIAL, EXP_SPECIAL, EXP64_MAX in *.
    destruct (Z.eqb_spec e 0x7ff) as [E1|E1].
    + rewrite Z.eqb_refl. rewrite E1 in Hfit, Ed. rewrite Hfit. lia.
    + rewrite (proj2 (Z.eqb_neq _ _)) by lia. rewrite unbias_eq by (unfold in_u; lia).
      replace (e + 15360 - 16383 + 0x3ff) with e by lia.
      rewrite Z.gtb_ltb, (proj2 (Z.ltb_ge _ _)) by lia. rewrite Hfit. lia.
Qed.

Lemma f80_double_round_trip_witness :
  exists f, f80_from_double 3 = Some f /\ f80_to_double round_down f = 3.
Proof. apply (f80_double_round_trip round_down 3). split; [discriminate|reflexivity]. Defined.

(** ** Comparison *)

(** Numbers the comparison orders: zeros, normal numbers and infinities. *)
Definition ordinary (f : float80) : Prop :=
  wf f /\ f80_is_supported f = true /\ f80_isnan f = false /\ f80_isdenormal f = false.

(** Normal numbers and infinities. *)
Definition normal (f : float80) : Prop :=
  2 ^ 63 <= signif f < 2 ^ 64 /\ 1 <= exp f < 2 ^ 15 /\ (sign f = 0 \/ sign f = 1).

Lemma ordinary_cases f : ordinary f ->
  (f80_iszero f = true /\ exp f = 0 /\ signif f = 0 /\ (sign f = 0 \/ sign f = 1)) \/
  (f80_iszero f = false /\ normal f).
Proof.
  intros (Hwf & Hsup & _ & Hd). apply supported_iff in Hsup; [|done]. destruct Hwf as ([H1 H2] & [H3 H4] & H5).
  unfold f80_isdenormal, f80_iszero, normal, EXP_DENORMAL in *.
  destruct (Z.eqb_spec (exp f) 0), (Z.eqb_spec (signif f) 0); simpl in *; try done; [left|right|right]; split_and!; done || lia.
Qed.

Lemma normal_mag f : normal f -> mag f = signif f * 2 ^ exp f.
Proof. intros (_ & He & _). unfold mag, eexp, EXP_DENORMAL. by rewrite (proj2 (Z.eqb_neq _ _)) by lia. Qed.

Lemma zero_mag f : exp f = 0 -> signif f = 0 -> mag f = 0.
Proof. intros _ H. unfold mag. by rewrite H. Qed.

(** A larger exponent means a larger magnitude. *)
Lemma normal_mag_lt' sp sq ep eq :
  2 ^ 63 <= sp -> 0 <= sq < 2 ^ 64 -> 0 <= eq < ep -> sq * 2 ^ eq < sp * 2 ^ ep.
Proof.
  intros Hp Hq Hlt.
  replace ep with (eq + 1 + (ep - eq - 1)) by lia.
  rewrite !Z.pow_add_r by lia. pose proof (Z.pow_pos_nonneg 2 eq ltac:(lia) ltac:(lia)).
  pose proof (Z.pow_pos_nonneg 2 (ep - eq - 1) ltac:(lia) ltac:(lia)).
  set (A := 2 ^ eq) in *. set (B := 2 ^ (ep - eq - 1)) in *. change (2 ^ 1) with 2.
  assert (sq * A < 2 ^ 64 * A) by (apply Z.mul_lt_mono_pos_r; lia).
  assert (A * 2 <= A * 2 * B) by nia.
  assert (2 ^ 63 * (A * 2) <= sp * (A * 2 * B)) by (apply Z.mul_le_mono_nonneg; lia). lia.
Qed.

Lemma normal_mag_lt p q : normal p -> normal q -> exp q < exp p -> mag q < mag p.
Proof.
  intros Hp Hq Hlt. rewrite !normal_mag by done. destruct Hp as (Hp & _ & _), Hq as (Hq & Hq' & _).
  apply normal_mag_lt'; lia.
Qed.

Lemma normal_mag_pos p : normal p -> 0 < mag p.
Proof.
  intros Hp. rewrite normal_mag by done. destruct Hp as (Hp & He & _).
  pose proof (Z.pow_pos_nonneg 2 (exp p) ltac:(lia) ltac:(lia)). nia.
Qed.

(** Shifting right yields the quotient or the next integer. *)
Lemma shift_right_bounds md i shift sgn :
  0 <= i < 2 ^ 128 -> 0 <= shift ->
  0 <= u128_shift_right_round md i shift sgn <= i / 2 ^ shift + 1.
Proof.
  intros Hi Hs. assert (0 <= i / 2 ^ shift) by (apply Z.div_pos; [lia|apply Z.pow_pos_nonneg; lia]).
  unfold u128_shift_right_round. destruct (Z.eqb_spec shift 0) as [->|]; [rewrite Z.div_1_r; lia|].
  rewrite Z.gtb_ltb. destruct (Z.ltb_spec 127 shift); [destruct (_ && _); lia|].
  rewrite (Z.shiftr_div_pow2 i shift) by lia. set (q := i / 2 ^ shift) in *.
  assert (Hq : u128 (q + 1) = q + 1).
  { apply wrap_small. unfold in_u. assert (q < 2 ^ 127); [|lia]. apply Z.div_lt_upper_bound; [apply Z.pow_pos_nonneg; lia|].
    assert (2 ^ 1 <= 2 ^ shift) by (apply Z.pow_le_mono_r; lia). lia. }
  rewrite Hq. cbv zeta. repeat match goal with |- context [if ?b then _ else _] => destruct b end; lia.
Qed.

Lemma shift_right_zero md shift sgn : 0 <= shift -> u128_shift_right_round md 0 shift sgn = 0.
Proof.
  intros Hs. rewrite u128_shift_right_round_ok by lia. apply (round_div_exact md sgn 0), Z.pow_pos_nonneg; lia.
Qed.

(** The three ways out of [u128_normalize_round] for exact or normal results. *)
Lemma normalize_round_sound md sg e sgn :
  0 < sg < 2 ^ 128 -> -16382 <= e -> sgn = 0 \/ sgn = 1 ->
  (e - (127 - Z.log2 sg) < -16382 -> (2 ^ 64 | sg * 2 ^ (e + 16382))) ->
  let f := u128_normalize_round md sg e sgn in
  f80_is_supported f = true /\ sign f = sgn /\ f80_iszero f = false.
Proof.
  intros Hsg He Hs Hdiv. destruct (normalize_shift sg Hsg) as [Hc Hn].
  destruct (Z.lt_ge_cases (e - (127 - Z.log2 sg)) (-16382)) as [Hlow|Hhigh].
  - unfold u128_normalize_round. rewrite u128_clz_eq by done. set (c := 127 - Z.log2 sg) in *.
    change (unbias EXP_MIN) with (-16382). rewrite (proj2 (Z.ltb_lt _ _)) by lia.
    destruct (Hdiv ltac:(lia)) as [t Ht].
    assert (Hp : 0 < 2 ^ (e + 16382)) by (apply Z.pow_pos_nonneg; lia).
    assert (Hlt : sg * 2 ^ (e + 16382) < 2 ^ 127).
    { assert (2 ^ c = 2 ^ (e + 16382) * 2 ^ (c - (e + 16382))) as E by (rewrite <- Z.pow_add_r by lia; f_equal; lia).
      assert (2 ^ 1 <= 2 ^ (c - (e + 16382))) by (apply Z.pow_le_mono_r; lia). rewrite E in Hn.
      set (A := 2 ^ (e + 16382)) in *. set (B := 2 ^ (c - (e + 16382))) in *. nia. }
    assert (Hpos : 0 < sg * 2 ^ (e + 16382)) by (apply Z.mul_pos_pos; lia).
    set (X := sg * 2 ^ (e + 16382)) in *. assert (Hrange : 0 < t < 2 ^ 63) by lia.
    assert (Hsg' : (if e >? -16382 then u128 (Z.shiftl sg (e - -16382))
                    else u128_shift_right_round md sg (-16382 - e) sgn) = t * 2 ^ 64).
    { rewrite <- Ht, Z.gtb_ltb. destruct (Z.ltb_spec (-16382) e).
      - rewrite Z.shiftl_mul_pow2 by lia. replace (e - -16382) with (e + 16382) by lia. fold X.
        apply wrap_small. unfold in_u. lia.
      - unfold X. replace (-16382 - e) with 0 by lia. replace (e + 16382) with 0 by lia. cbn. lia. }
    rewrite Hsg'. unfold round_significand. rewrite u128_shift_right_round_ok, round_div_exact by lia.
    rewrite Z.shiftr_div_pow2, Z.div_small by lia. cbn [Z.eqb negb].
    change (wrap 15 (bias (unbias EXP_DENORMAL))) with 0. rewrite wrap_small by (unfold in_u; lia).
    unfold f80_is_supported, f80_iszero. cbn [exp signif sign]. rewrite shiftr63 by (unfold in_u; lia).
    rewrite (proj2 (Z.leb_gt _ _)), (proj2 (Z.eqb_neq t 0)) by lia. done.
  - destruct (Z.le_gt_cases (e - (127 - Z.log2 sg)) 16383) as [Hm|Hbig].
    + destruct (u128_normalize_round_ok md sg e sgn Hsg ltac:(lia) Hs) as (_ & H1 & H2 & H3 & _).
      split_and!; [done|done|]. unfold f80_iszero, EXP_DENORMAL. by rewrite (proj2 (Z.eqb_neq _ _)).
    + unfold u128_normalize_round. rewrite u128_clz_eq by done.
      change (unbias EXP_MIN) with (-16382). change (unbias EXP_MAX) with 16383.
      rewrite !Z.gtb_ltb, (proj2 (Z.ltb_ge (e - (127 - Z.log2 sg)) (-16382))), (proj2 (Z.ltb_lt 16383 (e - (127 - Z.log2 sg)))) by lia.
      unfold too_big. destruct (sg =? Z.shiftl 1 127); [done|]. destruct (_ || _); done.
Qed.

(** The smaller operand of [f80_add], aligned: below the larger one's significand. *)
Lemma aligned_bounds md p q s :
  normal p -> normal q -> exp q < exp p ->
  let B := u128_shift_right_round md (Z.shiftl (signif q) 64) (exp p - exp q) s in
  0 <= B <= 2 ^ 127 - 2 ^ 63 /\
  (exp p - exp q = 1 -> B = signif q * 2 ^ 63) /\ (2 <= exp p - exp q -> B <= 2 ^ 126 + 1).
Proof.
  intros (Hp & Hpe & _) (Hq & Hqe & _) Hlt. cbv zeta. rewrite Z.shiftl_mul_pow2 by lia.
  assert (Hrange : 0 <= signif q * 2 ^ 64 < 2 ^ 128) by lia.
  assert (H1 : exp p - exp q = 1 -> u128_shift_right_round md (signif q * 2 ^ 64) (exp p - exp q) s = signif q * 2 ^ 63).
  { intros ->. rewrite u128_shift_right_round_ok by lia. change (2 ^ 64) with (2 ^ 63 * 2 ^ 1).
    rewrite Z.mul_assoc. apply round_div_exact. lia. }
  assert (H2 : 2 <= exp p - exp q -> u128_shift_right_round md (signif q * 2 ^ 64) (exp p - exp q) s <= 2 ^ 126 + 1).
  { intros Hd. pose proof (shift_right_bounds md (signif q * 2 ^ 64) (exp p - exp q) s Hrange ltac:(lia)) as [_ Hb].
    assert (signif q * 2 ^ 64 / 2 ^ (exp p - exp q) <= 2 ^ 126); [|lia].
    assert (2 ^ 2 <= 2 ^ (exp p - exp q)) by (apply Z.pow_le_mono_r; lia).
    etransitivity; [apply (Z.div_le_compat_l _ (2 ^ 2)); lia|]. apply Z.div_le_upper_bound; lia. }
  pose proof (shift_right_bounds md (signif q * 2 ^ 64) (exp p - exp q) s Hrange ltac:(lia)) as [Hb _].
  split_and!; [done| |done|done]. destruct (Z.eq_dec (exp p - exp q) 1) as [E|]; [rewrite H1 by done; lia|].
  specialize (H2 ltac:(lia)). lia.
Qed.

(** The magnitude [f80_add] rounds when it adds. *)
Lemma add_signifs_top md p B :
  normal p -> 0 <= B < 2 ^ 128 ->
  let '(sg, e, sgn) := add_signifs md p (Z.shiftl (signif p) 64) B in
  2 ^ 127 <= sg < 2 ^ 128 /\ exp p - 16383 <= e /\ sgn = sign p.
Proof.
  intros Hn HB. pose proof Hn as (Hp & Hpe & Hs). unfold add_signifs, unbias_denormal, EXP_DENORMAL.
  rewrite (proj2 (Z.eqb_neq (exp p) 0)), unbias_eq, Z.shiftl_mul_pow2 by (unfold in_u; lia).
  destruct (f80_isinf p); cbn [negb]; [split_and!; lia|]. rewrite Z.geb_leb.
  destruct (Z.leb_spec (2 ^ 128) (signif p * 2 ^ 64 + B)); [|split_and!; lia].
  set (y := u128 (signif p * 2 ^ 64 + B)).
  assert (Hy : 0 <= y < 2 ^ 128) by (apply wrap_range; lia).
  pose proof (shift_right_bounds md y 1 (sign p) Hy ltac:(lia)) as Hr.
  assert (y / 2 ^ 1 < 2 ^ 127) by (apply Z.div_lt_upper_bound; lia).
  set (r := u128_shift_right_round md y 1 (sign p)) in *.
  assert (2 ^ 127 <= Z.lor r (Z.shiftl 1 127) < 2 ^ 128); [|split_and!; lia].
  destruct (Z.eq_dec r (2 ^ 127)) as [->|]; [change (Z.lor (2 ^ 127) (Z.shiftl 1 127)) with (2 ^ 127); lia|].
  rewrite lor_shiftl_add by lia. lia.
Qed.

Lemma log2_top sg : 2 ^ 127 <= sg < 2 ^ 128 -> Z.log2 sg = 127.
Proof. intros H. apply Z.log2_unique; lia. Qed.

(** The magnitude and sign [f80_add] rounds when it subtracts a number of
    smaller exponent. *)
Lemma sub_signifs_far md p q s :
  normal p -> sign p = 0 -> ordinary q -> exp q < exp p ->
  let B := u128_shift_right_round md (Z.shiftl (signif q) 64) (exp p - exp q) s in
  exists sg, sub_signifs md p q (Z.shiftl (signif p) 64) B = inr (sg, exp p - 16383, 0) /\
    0 < sg < 2 ^ 128 /\
    (exp p - 16383 - (127 - Z.log2 sg) < -16382 -> (2 ^ 64 | sg * 2 ^ (exp p - 16383 + 16382))).
Proof.
  intros Hp Hsp Hq Hlt B. pose proof Hp as (Hps & Hpe & _). unfold sub_signifs, unbias_denormal, EXP_DENORMAL.
  rewrite (proj2 (Z.eqb_neq (exp p) 0)), unbias_eq, Z.shiftl_mul_pow2 by (unfold in_u; lia).
  assert (f80_isinf p && f80_isinf q = false) as ->.
  { unfold f80_isinf, EXP_SPECIAL. rewrite (proj2 (Z.eqb_neq (exp q) _)) by lia. apply andb_false_r. }
  set (B1 := if bool_decide (md = round_chop) && (B =? 0) && negb (signif q =? 0) then 1 else B).
  set (B2 := if f80_isinf p then 0 else B1).
  assert (HB : 0 <= B2 <= 2 ^ 127 - 2 ^ 63 /\
    (B2 = 0 \/ 1 <= exp q /\ (exp p - exp q = 1 -> B2 = signif q * 2 ^ 63) /\ (2 <= exp p - exp q -> B2 <= 2 ^ 126 + 1))).
  { destruct (ordinary_cases q Hq) as [(_ & _ & Hz & _)|(_ & Hqn)].
    - assert (EB : B = 0) by (unfold B; rewrite Hz, Z.shiftl_0_l; apply shift_right_zero; lia).
      unfold B2, B1. rewrite EB, Hz. simpl. rewrite andb_false_r. destruct (f80_isinf p); lia.
    - destruct (aligned_bounds md p q s Hp Hqn Hlt) as (HB0 & HB1 & HB2). fold B in HB0, HB1, HB2.
      pose proof Hqn as (Hqs & Hqe & _). unfold B2. destruct (f80_isinf p); [lia|]. unfold B1.
      destruct (Z.eqb_spec B 0) as [EB|]; [|rewrite andb_false_r; simpl; split; [lia|right; auto with lia]].
      destruct (bool_decide (md = round_chop)); simpl; [|split; [lia|by left]].
      rewrite (proj2 (Z.eqb_neq _ _)) by lia. simpl. split; [lia|]. right. split_and!; [lia| |lia]. intros E. specialize (HB1 E). lia. }
  destruct HB as [HB Hfine]. fold B1. fold B2. rewrite Z.geb_leb, (proj2 (Z.leb_le _ _)) by lia.
  rewrite (proj2 (Z.eqb_neq (signif p * 2 ^ 64 - B2) 0)) by lia. cbn [andb]. rewrite Hsp.
  exists (signif p * 2 ^ 64 - B2). split_and!; [done|lia|lia|]. intros Hlow.
  destruct Hfine as [E|(Hq1 & Hd1 & Hd2)].
  - rewrite log2_top in Hlow by lia. lia.
  - destruct (Z.eq_dec (exp p - exp q) 1) as [E|E].
    + rewrite (Hd1 E). exists ((2 * signif p - signif q) * 2 ^ (exp p - 2)).
      replace (exp p - 16383 + 16382) with (exp p - 2 + 1) by lia. rewrite Z.pow_add_r by lia. change (2 ^ 64) with (2 * 2 ^ 63). ring.
    + specialize (Hd2 ltac:(lia)).
      assert (125 <= Z.log2 (signif p * 2 ^ 64 - B2)) by (apply Z.log2_le_pow2; lia). lia.
Qed.

(** Subtracting numbers of the same exponent compares their significands. *)
Lemma sub_signifs_near md p q :
  normal p -> sign p = 0 -> normal q -> exp q = exp p -> f80_isinf p && f80_isinf q = false ->
  (f80_isinf p = true -> f80_isinf q = true) ->
  let r := sub_signifs md p q (Z.shiftl (signif p) 64) (Z.shiftl (signif q) 64) in
  (signif p = signif q /\ exists f, r = inl f /\ f80_iszero f = true) \/
  (signif p <> signif q /\ exists sg, r = inr (sg, exp p - 16383, cbool (signif p <? signif q)) /\
     0 < sg < 2 ^ 128 /\ (2 ^ 64 | sg * 2 ^ (exp p - 16383 + 16382))).
Proof.
  intros (Hps & Hpe & _) Hsp (Hqs & Hqe & _) He Hinf Hinf'. unfold sub_signifs, unbias_denormal, EXP_DENORMAL.
  rewrite (proj2 (Z.eqb_neq (exp p) 0)), unbias_eq, !Z.shiftl_mul_pow2 by (unfold in_u; lia). rewrite Hinf.
  assert (f80_isinf p = false) as -> by (destruct (f80_isinf p); [rewrite Hinf' in Hinf by done; done|done]).
  rewrite (proj2 (Z.eqb_neq (signif q * 2 ^ 64) 0)), andb_false_r by lia. cbn [andb]. rewrite Hsp, Z.geb_leb.
  assert (Hdiv : forall t, (2 ^ 64 | t * 2 ^ 64 * 2 ^ (exp p - 16383 + 16382))).
  { intros t. exists (t * 2 ^ (exp p - 16383 + 16382)). ring. }
  destruct (Z.lt_trichotomy (signif p) (signif q)) as [Hlt|[Heq|Hgt]].
  - right. split; [lia|]. rewrite (proj2 (Z.leb_gt _ _)), (proj2 (Z.eqb_neq (_ - _) 0)) by lia. cbn [andb].
    rewrite (proj2 (Z.ltb_lt _ _)) by lia. eexists. split; [done|]. split; [lia|].
    rewrite <- Z.mul_sub_distr_r. apply Hdiv.
  - left. split; [done|]. rewrite Heq, Z.leb_refl, Z.sub_diag. cbn [Z.eqb andb].
    rewrite (proj2 (Z.eqb_neq (signif q * 2 ^ 64) 0)) by lia. cbn [negb andb].
    destruct (bool_decide (md = round_down)); eexists; split; reflexivity.
  - right. split; [lia|]. rewrite (proj2 (Z.leb_le _ _)), (proj2 (Z.eqb_neq (_ - _) 0)) by lia. cbn [andb].
    rewrite (proj2 (Z.ltb_ge _ _)) by lia. eexists. split; [done|]. split; [lia|].
    rewrite <- Z.mul_sub_distr_r. apply Hdiv.
Qed.

(** Is this number below zero? *)
Definition negative (f : float80) : bool := (sign f =? 1) && negb (f80_iszero f).

Definition f80_flip (f : float80) (s : bool) : float80 := if s then f80_neg f else f.

Lemma flip_sign f s : sign f = 0 \/ sign f = 1 ->
  sign (f80_flip f s) = if s then 1 - sign f else sign f.
Proof. intros [E|E]; destruct s; simpl; rewrite E; done. Qed.

(** The heart of [f80_add] once the operands are ordered by exponent. *)
Definition add_ordered (md : f80_rounding_mode) (a b : float80) : option float80 :=
  let flipped := ctrue (sign a) in
  let '(a, b) := if flipped then (f80_neg a, f80_neg b) else (a, b) in
  let a_signif := Z.shiftl (signif a) 64 in
  let b_signif := u128_shift_right_round md (Z.shiftl (signif b) 64) (exp a - exp b)
                    (Z.lxor (sign b) (cbool flipped)) in
  let r := if negb (ctrue (sign b)) then inr (add_signifs md a a_signif b_signif)
           else sub_signifs md a b a_signif b_signif in
  match r with
  | inl f => Some f
  | inr (sg, e, sgn) =>
      let sgn := if flipped then cbool (negb (ctrue sgn)) else sgn in
      let f := u128_normalize_round md sg e sgn in
      if f80_is_supported f then Some f else None
  end.

Lemma finish_add md sg e sgn (flipped : bool) :
  0 < sg < 2 ^ 128 -> -16382 <= e -> sgn = 0 \/ sgn = 1 ->
  (e - (127 - Z.log2 sg) < -16382 -> (2 ^ 64 | sg * 2 ^ (e + 16382))) ->
  exists f, (let sgn := if flipped then cbool (negb (ctrue sgn)) else sgn in
             let f := u128_normalize_round md sg e sgn in
             if f80_is_supported f then Some f else None) = Some f /\
    negative f = xorb flipped (ctrue sgn).
Proof.
  intros Hsg He Hs Hd. set (s2 := if flipped then cbool (negb (ctrue sgn)) else sgn).
  assert (Hs2 : s2 = cbool (xorb flipped (ctrue sgn))) by (unfold s2; destruct Hs as [-> | ->], flipped; done).
  assert (Hs3 : s2 = 0 \/ s2 = 1) by (rewrite Hs2; destruct (xorb _ _); auto).
  destruct (normalize_round_sound md sg e s2 Hsg He Hs3 Hd) as (Hsup & Hsg2 & Hz).
  cbv zeta. rewrite Hsup. eexists. split; [done|]. unfold negative. rewrite Hsg2, Hz, Hs2. by destruct (xorb _ _).
Qed.

Lemma flip_normal f s : normal f -> normal (f80_flip f s).
Proof.
  intros (H1 & H2 & H3). pose proof (flip_sign f s H3). destruct s; [|done]. split_and!; simpl in *; try lia; destruct H3; lia.
Qed.

Lemma flip_ordinary f s : ordinary f -> ordinary (f80_flip f s).
Proof.
  intros ((H1 & H2 & H3) & H4 & H5 & H6). destruct s; [|done].
  assert (Hs : sign (f80_neg f) = 0 \/ sign (f80_neg f) = 1) by (cbn; destruct H3 as [->| ->]; auto).
  split; [split_and!; [exact H1|exact H2|exact Hs]|]. split_and!; [exact H4|exact H5|exact H6].
Qed.

(** Operands ordered by exponent, and the same with the signs flipped so that the
    larger is positive. *)
Section Ordered.
Context (md : f80_rounding_mode) (p q : float80) (Hp : normal p) (Hq : ordinary q) (Hle : exp q <= exp p).
Let fl : bool := ctrue (sign p).
Let p' : float80 := f80_flip p fl.
Let q' : float80 := f80_flip q fl.

(** The last step of [f80_add]. *)
Let finish (sg e sgn : Z) : option float80 :=
  let sgn := if fl then cbool (negb (ctrue sgn)) else sgn in
  let f := u128_normalize_round md sg e sgn in
  if f80_is_supported f then Some f else None.

Lemma flipped_facts :
  normal p' /\ ordinary q' /\ sign p' = 0 /\
  exp p' = exp p /\ signif p' = signif p /\ exp q' = exp q /\ signif q' = signif q /\
  sign q' = if bool_decide (sign q = sign p) then 0 else 1.
Proof.
  pose proof Hp as (_ & _ & Hsp). assert (Hsq : sign q = 0 \/ sign q = 1) by apply Hq.
  split_and!; [by apply flip_normal|by apply flip_ordinary| | | | | |].
  2-5: (unfold p', q', f80_flip; by destruct fl).
  - unfold p'. rewrite flip_sign by done. unfold fl. destruct Hsp as [->| ->]; done.
  - unfold q'. rewrite flip_sign by done. unfold fl. destruct Hsp as [Es|Es], Hsq as [Et|Et]; rewrite Es, Et; done.
Qed.

(** The sign of the real sum. *)
Lemma ordered_sum_sign :
  sval p + sval q < 0 <->
  if bool_decide (sign q = sign p) then fl = true else (if fl then mag q < mag p else mag p < mag q).
Proof.
  pose proof Hp as (_ & _ & Hsp). assert (Hsq : sign q = 0 \/ sign q = 1) by apply Hq.
  pose proof (normal_mag_pos p Hp). assert (0 <= mag q).
  { destruct (ordinary_cases q Hq) as [(_ & ? & ? & _)|[_ Hqn]]; [by rewrite (zero_mag q)|].
    pose proof (normal_mag_pos q Hqn). lia. }
  unfold sval, fl. destruct Hsp as [->| ->], Hsq as [->| ->]; simpl; split; try done; lia.
Qed.

Lemma add_same_sign :
  sign q = sign p ->
  exists f, (let '(sg, e, sgn) := add_signifs md p' (Z.shiftl (signif p') 64)
               (u128_shift_right_round md (Z.shiftl (signif q') 64) (exp p' - exp q') (Z.lxor 0 (cbool fl))) in
             finish sg e sgn) = Some f /\
    negative f = bool_decide (sval p + sval q < 0).
Proof.
  intros Es. destruct flipped_facts as (Hp' & Hq' & Hsp' & E1 & E2 & E3 & E4 & _).
  set (B := u128_shift_right_round md _ _ _). pose proof Hp as (_ & Hpe & _).
  assert (HB : 0 <= B < 2 ^ 128).
  { unfold B. destruct (ordinary_cases q' Hq') as [(_ & _ & Hz & _)|[_ Hqn]].
    - rewrite Hz, Z.shiftl_0_l, shift_right_zero by lia. lia.
    - destruct (Z.eq_dec (exp p') (exp q')) as [E|E].
      + pose proof Hqn as (Hqs & _). rewrite E, Z.sub_diag. cbn [u128_shift_right_round Z.eqb].
        rewrite Z.shiftl_mul_pow2 by lia. lia.
      + destruct (aligned_bounds md p' q' (Z.lxor 0 (cbool fl)) Hp' Hqn) as (HB & _); lia. }
  pose proof (add_signifs_top md p' B Hp' HB) as Ht.
  destruct (add_signifs md p' (Z.shiftl (signif p') 64) B) as [[sg e] sgn]. destruct Ht as (Hsg & He & Hss).
  destruct (finish_add md sg e sgn fl) as (f & Hfin & Hneg); [lia|lia|left; congruence|rewrite log2_top by lia; lia|].
  exists f. split; [exact Hfin|]. rewrite Hneg, Hss, Hsp'. cbn [ctrue Z.eqb negb]. rewrite xorb_false_r.
  pose proof ordered_sum_sign as Hsv. rewrite bool_decide_eq_true_2 in Hsv by done.
  destruct fl; symmetry; [apply bool_decide_eq_true_2|apply bool_decide_eq_false_2]; rewrite Hsv; done.
Qed.

Lemma sub_equal_exponents :
  sign q <> sign p -> exp q = exp p -> ~ (f80_isinf p = true /\ f80_isinf q = true) ->
  exists f, match sub_signifs md p' q' (Z.shiftl (signif p') 64) (Z.shiftl (signif q') 64) with
            | inl f => Some f | inr (sg, e, sgn) => finish sg e sgn end = Some f /\
    negative f = bool_decide (sval p + sval q < 0).
Proof.
  intros Es Eexp Hinf. destruct flipped_facts as (Hp' & Hq' & Hsp' & E1 & E2 & E3 & E4 & _).
  pose proof Hp as (_ & Hpe & _). pose proof ordered_sum_sign as Hsv. rewrite bool_decide_eq_false_2 in Hsv by done.
  assert (Hqn : normal q'). { destruct (ordinary_cases q' Hq') as [(_ & ? & _)|[_ ?]]; [lia|done]. }
  assert (Hii : f80_isinf p' = f80_isinf p /\ f80_isinf q' = f80_isinf q)
    by (unfold f80_isinf, low63; by rewrite E1, E2, E3, E4).
  destruct Hii as [Hi1 Hi2].
  assert (Hqi : f80_isinf p = true -> f80_isinf q = true).
  { unfold f80_isinf. intros [Hs _]%andb_true_iff. destruct Hq as (_ & _ & Hnan & _).
    unfold f80_isnan in Hnan. rewrite Eexp, Hs in *. simpl in *. by destruct (low63 q =? 0). }
  assert (M1 : mag p = signif p * 2 ^ exp p) by by apply normal_mag.
  assert (M2 : mag q = signif q * 2 ^ exp p).
  { rewrite <- Eexp. apply normal_mag. destruct (ordinary_cases q Hq) as [(_ & ? & _)|[_ ?]]; [lia|done]. }
  pose proof (Z.pow_pos_nonneg 2 (exp p) ltac:(lia) ltac:(lia)) as Hpow.
  destruct (sub_signifs_near md p' q' Hp' Hsp' Hqn ltac:(lia)) as [(Heq & f & -> & Hz)|(Hne & sg & -> & Hsg & Hdiv)].
  - rewrite Hi1, Hi2. destruct (f80_isinf p) eqn:Ei; [|done]. destruct (f80_isinf q); [tauto|done].
  - rewrite Hi1, Hi2. exact Hqi.
  - exists f. split; [done|]. unfold negative. rewrite Hz, andb_false_r. symmetry. apply bool_decide_eq_false_2.
    rewrite Hsv, M1, M2. rewrite E2, E4 in Heq. rewrite Heq. destruct fl; lia.
  - rewrite E1 in *.
    destruct (finish_add md sg (exp p - 16383) (cbool (signif p' <? signif q')) fl) as (f & Hfin & Hneg);
      [done|lia|destruct (_ <? _); auto|done|].
    exists f. split; [exact Hfin|]. rewrite Hneg. rewrite E2, E4 in *. symmetry.
    destruct fl, (Z.ltb_spec (signif p) (signif q)); cbn [cbool ctrue Z.eqb negb xorb];
      [apply bool_decide_eq_false_2|apply bool_decide_eq_true_2|apply bool_decide_eq_true_2|apply bool_decide_eq_false_2];
      rewrite Hsv, M1, M2; nia.
Qed.

Lemma sub_different_exponents s :
  sign q <> sign p -> exp q < exp p ->
  exists f, match sub_signifs md p' q' (Z.shiftl (signif p') 64)
                    (u128_shift_right_round md (Z.shiftl (signif q') 64) (exp p' - exp q') s) with
            | inl f => Some f | inr (sg, e, sgn) => finish sg e sgn end = Some f /\
    negative f = bool_decide (sval p + sval q < 0).
Proof.
  intros Es Hlt. destruct flipped_facts as (Hp' & Hq' & Hsp' & E1 & E2 & E3 & E4 & _).
  pose proof Hp as (_ & Hpe & _). pose proof ordered_sum_sign as Hsv. rewrite bool_decide_eq_false_2 in Hsv by done.
  destruct (sub_signifs_far md p' q' s Hp' Hsp' Hq' ltac:(lia)) as (sg & -> & Hsg & Hdiv).
  rewrite E1 in *. destruct (finish_add md sg (exp p - 16383) 0 fl) as (f & Hfin & Hneg); [done|lia|auto|done|].
  exists f. split; [exact Hfin|]. rewrite Hneg. cbn [ctrue Z.eqb negb]. rewrite xorb_false_r. symmetry.
  assert (Hm : mag q < mag p).
  { destruct (ordinary_cases q Hq) as [(_ & ? & ? & _)|[_ Hqn]]; [|by apply normal_mag_lt].
    rewrite (zero_mag q) by done. by apply normal_mag_pos. }
  destruct fl; [apply bool_decide_eq_true_2|apply bool_decide_eq_false_2]; rewrite Hsv; lia.
Qed.

(** With the larger exponent first and not zero, the sum of two ordinary numbers
    is computed (no assertion fails) and is below zero exactly when the real sum is. *)
Lemma add_ordered_sign :
  (f80_isinf p = true -> f80_isinf q = true -> sign p = sign q) ->
  exists f, add_ordered md p q = Some f /\ negative f = bool_decide (sval p + sval q < 0).
Proof.
  intros Hinf. unfold add_ordered. fold fl.
  assert ((if fl then (f80_neg p, f80_neg q) else (p, q)) = (p', q')) as -> by (by unfold p', q', f80_flip; destruct fl).
  destruct flipped_facts as (_ & _ & _ & E1 & _ & E3 & _ & ->).
  destruct (decide (sign q = sign p)) as [Es|Es].
  - rewrite (bool_decide_eq_true_2 _ Es). by apply add_same_sign.
  - rewrite (bool_decide_eq_false_2 _ Es). destruct (Z.eq_dec (exp q) (exp p)) as [Eexp|Eexp].
    + replace (exp p' - exp q') with 0 by lia. apply sub_equal_exponents; [done|done|].
      intros [H1 H2]. apply Es. symmetry. by apply Hinf.
    + apply sub_different_exponents; [done|lia].
Qed.

End Ordered.

Lemma f80_add_ordered md a b :
  handle_nans a b = None ->
  f80_add md a b = if exp a <? exp b then add_ordered md b a else add_ordered md a b.
Proof. intros H. unfold f80_add. rewrite H. by destruct (exp a <? exp b). Qed.

Lemma ordinary_no_nans a b : ordinary a -> ordinary b -> handle_nans a b = None /\ f80_uncomparable a b = false.
Proof.
  intros (_ & Hsa & Hna & _) (_ & Hsb & Hnb & _). unfold handle_nans, f80_uncomparable. by rewrite Hsa, Hsb, Hna, Hnb.
Qed.

(** The sum of two ordinary numbers, not both zero and not opposite infinities. *)
Lemma f80_add_sign md a b :
  ordinary a -> ordinary b -> f80_iszero a && f80_iszero b = false ->
  (f80_isinf a = true -> f80_isinf b = true -> sign a = sign b) ->
  exists f, f80_add md a b = Some f /\ negative f = bool_decide (sval a + sval b < 0).
Proof.
  intros Ha Hb Hz Hinf. destruct (ordinary_no_nans a b Ha Hb) as [Hn _]. rewrite f80_add_ordered by done.
  destruct (Z.ltb_spec (exp a) (exp b)) as [Hlt|Hge].
  - assert (Hbn : normal b).
    { destruct (ordinary_cases b Hb) as [(_ & ? & _)|[_ ?]]; [|done]. destruct Ha as ((_ & [? _] & _) & _). lia. }
    rewrite Z.add_comm. apply add_ordered_sign; [done|done|lia|]. intros. symmetry. by apply Hinf.
  - assert (Han : normal a).
    { destruct (ordinary_cases a Ha) as [(Hza & ? & _)|[_ ?]]; [|done].
      destruct (ordinary_cases b Hb) as [(Hzb & _)|[_ (_ & ? & _)]]; [by rewrite Hza, Hzb in Hz|lia]. }
    by apply add_ordered_sign.
Qed.

Lemma neg_facts b : ordinary b ->
  ordinary (f80_neg b) /\ sval (f80_neg b) = - sval b /\ f80_iszero (f80_neg b) = f80_iszero b /\
  f80_isinf (f80_neg b) = f80_isinf b /\ sign (f80_neg b) = 1 - sign b.
Proof.
  intros Hb. pose proof (flip_ordinary b true Hb) as Ho. destruct Hb as ((_ & _ & Hs) & _).
  pose proof (flip_sign b true Hs) as Hf. cbn [f80_flip] in *. split_and!; try done.
  unfold sval. rewrite Hf. change (mag (f80_neg b)) with (mag b). destruct Hs as [->| ->]; simpl; lia.
Qed.

Lemma inf_signif f : ordinary f -> f80_isinf f = true -> signif f = 2 ^ 63 /\ exp f = EXP_SPECIAL.
Proof.
  intros Hf Hi. unfold f80_isinf, low63 in Hi. apply andb_true_iff in Hi as [He%Z.eqb_eq Hl%Z.eqb_eq].
  destruct (ordinary_cases f Hf) as [(_ & Hz & _)|[_ (Hs & _)]]; [unfold EXP_SPECIAL in He; lia|].
  split; [|done]. change (2 ^ 63 - 1) with (Z.ones 63) in Hl. rewrite Z.land_ones in Hl by lia.
  apply Z.mod_divide in Hl as [k Hk]; lia.
Qed.

(** [f80_lt] decides the order of the values of zeros, normal numbers
    and infinities, and never trips the assertion of [f80_add] on them, in every
    rounding mode, although it rounds the difference. *)
Theorem f80_lt_spec md a b :
  ordinary a -> ordinary b -> f80_lt md a b = Some (bool_decide (sval a < sval b)).
Proof.
  intros Ha Hb. unfold f80_lt. destruct (ordinary_no_nans a b Ha Hb) as [_ ->].
  destruct (f80_isinf a && f80_isinf b && (sign a =? sign b)) eqn:Ei.
  { apply andb_true_iff in Ei as [[Hia Hib]%andb_true_iff Hs%Z.eqb_eq].
    destruct (inf_signif a Ha Hia) as [S1 X1], (inf_signif b Hb Hib) as [S2 X2].
    rewrite bool_decide_eq_false_2; [done|]. unfold sval, mag, eexp. rewrite Hs, S1, S2, X1, X2. lia. }
  destruct (f80_iszero a && f80_iszero b) eqn:Ez.
  { apply andb_true_iff in Ez as [Za Zb]. rewrite bool_decide_eq_false_2; [done|].
    destruct (ordinary_cases a Ha) as [(_ & ? & ? & _)|[? _]]; [|congruence].
    destruct (ordinary_cases b Hb) as [(_ & ? & ? & _)|[? _]]; [|congruence].
    unfold sval. rewrite (zero_mag a), (zero_mag b) by done. destruct (ctrue _), (ctrue _); lia. }
  destruct (neg_facts b Hb) as (Hb' & Hsv & Hzb & Hib & Hsb).
  destruct (f80_add_sign md a (f80_neg b) Ha Hb') as (f & Hf & Hneg).
  - by rewrite Hzb.
  - rewrite Hib, Hsb. intros I1 I2. rewrite I1, I2 in Ei. cbn [andb] in Ei. apply Z.eqb_neq in Ei.
    destruct Ha as ((_ & _ & [Ea|Ea]) & _), Hb as ((_ & _ & [Eb|Eb]) & _); lia.
  - unfold f80_sub. rewrite Hf. cbn [mbind option_bind]. change ((sign f =? 1) && negb (f80_iszero f)) with (negative f).
    rewrite Hneg, Hsv. f_equal. apply bool_decide_ext. lia.
Qed.

Lemma ordinary_int i : in_s 64 i -> forall f, f80_from_int i = Some f -> ordinary f.
Proof.
  intros Hi f Hf. rewrite (f80_from_int_eq i Hi) in Hf. injection Hf as <-.
  destruct (Z.eqb_spec i 0) as [E|Hn].
  { split; [split_and!; [split; [discriminate|reflexivity]|split; [discriminate|reflexivity]|left; reflexivity]|]. done. }
  destruct Hi as [Hl Hh]. change (64 - 1) with 63 in *.
  destruct (clzl_spec (Z.abs i) ltac:(lia)) as [Hc Hm]. set (c := clzl (Z.abs i)) in *. unfold UNIT.
  set (f := mk_f80 _ _ _). assert (W : wf f).
  { split_and!; cbn [f signif exp sign]; [unfold in_u; lia|unfold in_u; lia|destruct (i <? 0); auto]. }
  split_and!; [done|apply supported_iff; [done|]; right; cbn [f exp signif]; lia| |].
  - unfold f80_isnan, EXP_SPECIAL. cbn [f exp]. by rewrite (proj2 (Z.eqb_neq _ _)) by lia.
  - unfold f80_isdenormal, EXP_DENORMAL. cbn [f exp]. by rewrite (proj2 (Z.eqb_neq _ _)) by lia.
Qed.

Lemma f80_lt_spec_witness :
  exists a b, f80_from_int (-7) = Some a /\ f80_from_int 3 = Some b /\
    f80_lt round_up a b = Some (bool_decide (sval a < sval b)).
Proof.
  do 2 eexists. split; [reflexivity|]. split; [reflexivity|].
  apply f80_lt_spec; [apply (ordinary_int (-7))|apply (ordinary_int 3)];
    (split; [discriminate|reflexivity]) || reflexivity.
Defined.

(** Supported numbers of the same value have the same fields. *)
Lemma mag_inj a b : wf a -> wf b -> f80_is_supported a = true -> f80_is_supported b = true ->
  mag a = mag b -> signif a = signif b /\ exp a = exp b.
Proof.
  intros Wa Wb Sa Sb Hm.
  assert (Hlt : forall x y, wf x -> wf y -> f80_is_supported x = true -> f80_is_supported y = true ->
    exp x < exp y -> mag x < mag y).
  { intros x y Wx Wy Sx Sy Hl. apply supported_iff in Sx, Sy; try done.
    destruct Wx as ([? ?] & [? ?] & _), Wy as ([? ?] & [? ?] & _). unfold mag, eexp, EXP_DENORMAL, EXP_MIN.
    rewrite (proj2 (Z.eqb_neq (exp y) 0)) by lia. destruct (Z.eqb_spec (exp x) 0) as [E|E].
    - assert (2 ^ 1 <= 2 ^ exp y) by (apply Z.pow_le_mono_r; lia). destruct Sx as [[_ ?]|[? _]]; [|done]. nia.
    - apply (normal_mag_lt' (signif y) (signif x) (exp y) (exp x)); lia. }
  destruct (Z.lt_trichotomy (exp a) (exp b)) as [H|[H|H]].
  - specialize (Hlt a b Wa Wb Sa Sb H). lia.
  - split; [|done]. unfold mag, eexp in Hm. rewrite H in Hm.
    set (k := if exp b =? EXP_DENORMAL then EXP_MIN else exp b) in Hm.
    assert (0 <= k). { unfold k, EXP_MIN. destruct Wb as (_ & [? _] & _). destruct (_ =? _); lia. }
    pose proof (Z.pow_pos_nonneg 2 k ltac:(lia) ltac:(lia)). nia.
  - specialize (Hlt b a Wb Wa Sb Sa H). lia.
Qed.

Lemma zero_iff f : wf f -> f80_is_supported f = true -> f80_iszero f = true <-> mag f = 0.
Proof.
  intros Wf Sf. unfold f80_iszero, EXP_DENORMAL. split.
  - intros [E1%Z.eqb_eq E2%Z.eqb_eq]%andb_true_iff. by apply zero_mag.
  - intros Hm. unfold mag in Hm. pose proof (eexp_pos f Wf).
    pose proof (Z.pow_pos_nonneg 2 (eexp f) ltac:(lia) ltac:(lia)). assert (signif f = 0) as Hs by nia.
    apply supported_iff in Sf; [|done]. rewrite Hs in *. assert (exp f = 0) as -> by lia. done.
Qed.

(** [f80_eq] holds exactly for supported numbers that are not NaNs and
    have the same value (so 0 equals -0), although it tests the same operand for
    zero twice. *)
Theorem f80_eq_spec a b : wf a -> wf b ->
  f80_eq a b = bool_decide (f80_uncomparable a b = false /\ sval a = sval b).
Proof.
  intros Wa Wb. unfold f80_eq. destruct (f80_uncomparable a b) eqn:Eu; [by rewrite bool_decide_eq_false_2 by (intros [? _]; done)|].
  unfold f80_uncomparable in Eu. destruct (f80_is_supported a) eqn:Sa, (f80_is_supported b) eqn:Sb; try done.
  pose proof Wa as (_ & _ & Ha). pose proof Wb as (_ & _ & Hb).
  pose proof (zero_iff a Wa Sa) as Za. pose proof (zero_iff b Wb Sb) as Zb.
  assert (Hz0 : forall f, sval f = 0 <-> mag f = 0) by (intros f; unfold sval; destruct (ctrue _); lia).
  destruct (f80_iszero a) eqn:Ea.
  - assert (f80_iszero (set_sign a 0) = true) as -> by exact Ea. cbn [set_sign sign exp signif Z.eqb andb].
    destruct Za as [Ma _]. specialize (Ma eq_refl). pose proof (proj2 (Hz0 a) Ma) as Sva. rewrite Sva.
    unfold f80_iszero in Ea. apply andb_true_iff in Ea as [E1%Z.eqb_eq E2%Z.eqb_eq]. rewrite E1, E2.
    rewrite (Z.eqb_sym _ (exp b)), (Z.eqb_sym _ (signif b)).
    change ((exp b =? EXP_DENORMAL) && (signif b =? 0)) with (f80_iszero b).
    apply eq_bool_prop_intro. rewrite bool_decide_spec, Is_true_true, Zb, <- Hz0.
    split; [intros H; split; congruence|intros [_ H]; congruence].
  - rewrite Ea. apply eq_bool_prop_intro. rewrite bool_decide_spec, Is_true_true, !andb_true_iff, !Z.eqb_eq.
    assert (Hma : 0 < mag a).
    { destruct (Z.eq_dec (mag a) 0) as [E|E]; [by apply Za in E|]. unfold mag in *. destruct Wa as ([? _] & _).
      pose proof (Z.pow_nonneg 2 (eexp a) ltac:(lia)). nia. }
    assert (Hmb : 0 <= mag b).
    { unfold mag. destruct Wb as ([? _] & _). pose proof (Z.pow_nonneg 2 (eexp b) ltac:(lia)). nia. }
    split.
    + intros [[Es Ee] Ess]. split; [done|]. unfold sval, mag, eexp. by rewrite Es, Ee, Ess.
    + intros [_ Hsv]. assert (Hs : sign a = sign b /\ mag a = mag b).
      { unfold sval in Hsv. destruct Ha as [Ha|Ha], Hb as [Hb|Hb]; rewrite Ha, Hb in *; simpl in Hsv; lia. }
      destruct Hs as [Hs Hm]. destruct (mag_inj a b Wa Wb Sa Sb Hm) as [-> ->]. done.
Qed.

Lemma f80_eq_spec_witness :
  f80_eq (mk_f80 0 0 0) (mk_f80 0 0 1) =
  bool_decide (f80_uncomparable (mk_f80 0 0 0) (mk_f80 0 0 1) = false /\ sval (mk_f80 0 0 0) = sval (mk_f80 0 0 1)).
Proof.
  apply (f80_eq_spec (mk_f80 0 0 0) (mk_f80 0 0 1));
    (split_and!; [split; [discriminate|reflexivity]|split; [discriminate|reflexivity]|]); [left|right]; reflexivity.
Defined.

(** ** Where the code misses its aim *)

(** [f80_add] shifts by the difference of the stored exponents, so a denormal
    (whose exponent counts as 1) is aligned one place too far: adding two units
    of the last place adds one. *)
Lemma f80_add_denormal_misaligned :
  let a := mk_f80 (2 ^ 63) 1 0 in let b := mk_f80 2 0 0 in
  exists f, f80_add round_to_nearest a b = Some f /\ sval a + sval b = sval f + 2 /\
    sval (mk_f80 (2 ^ 63 + 2) 1 0) = sval a + sval b.
Proof. eexists. split; [vm_compute; reflexivity|]. split; vm_compute; reflexivity. Qed.

(** For the same reason subtracting the smallest denormal from the
    smallest normal number rounds to an unsupported encoding and fails the
    assertion at the end of [f80_add], which stops the emulator; comparing the two
    does it too. *)
Theorem f80_sub_denormal_asserts :
  let a := mk_f80 (2 ^ 63) 1 0 in let b := mk_f80 1 0 0 in
  f80_is_supported a = true /\ f80_is_supported b = true /\
  f80_sub round_to_nearest a b = None /\ f80_lt round_to_nearest a b = None.
Proof. vm_compute. split_and!; reflexivity. Qed.

(** [f80_add] rounds twice: to 128 bits when aligning and then to 64.  Just under
    half a unit is first rounded to exactly half and then up. *)
Lemma f80_add_double_rounding :
  let a := mk_f80 (2 ^ 63 + 1) BIAS80 0 in let b := mk_f80 (2 ^ 64 - 1) (BIAS80 - 65) 0 in
  f80_add round_to_nearest a b = Some (mk_f80 (2 ^ 63 + 2) BIAS80 0) /\ 2 * mag b < 2 ^ BIAS80.
Proof. vm_compute. split; reflexivity. Qed.

(** A product that rounds up to the smallest normal number keeps the exponent of
    denormals and becomes an encoding the code itself calls unsupported. *)
Lemma f80_mul_unsupported :
  let a := mk_f80 (2 ^ 64 - 1) 1 0 in let b := mk_f80 (2 ^ 63) (BIAS80 - 1) 0 in
  f80_is_supported a = true /\ f80_is_supported b = true /\
  f80_is_supported (f80_mul round_to_nearest a b) = false.
Proof. vm_compute. split_and!; reflexivity. Qed.

(** A number just below the smallest normal double is stored as 0: rounding
    carries out of the 52 bits and the exponent is not adjusted. *)
Lemma f80_to_double_loses_carry :
  let f := mk_f80 (2 ^ 64 - 1) (BIAS80 - 1023) 0 in
  f80_is_supported f = true /\ f80_to_double round_to_nearest f = 0.
Proof. vm_compute. split; reflexivity. Qed.

(** 2^63 + 2048 does not fit 64 bits and is stored as another number, not as the
    indefinite integer. *)
Lemma f80_to_int_wraps :
  let f := mk_f80 (2 ^ 63 + 2048) UNIT 0 in
  sval f = (2 ^ 63 + 2048) * 2 ^ UNIT /\ f80_to_int round_to_nearest f = - 2 ^ 63 + 2048.
Proof. vm_compute. split; reflexivity. Qed.

Lemma log2_inf_step md :
  let two := mk_f80 (2 ^ 63) (BIAS80 + 1) 0 in
  f80_gt md F80_INF two = Some true /\ f80_div md F80_INF two = F80_INF.
Proof. destruct md; vm_compute; split; reflexivity. Qed.

Lemma log2_down_inf fuel md ipart : log2_down fuel md (mk_f80 (2 ^ 63) (BIAS80 + 1) 0) F80_INF ipart = None.
Proof.
  destruct (log2_inf_step md) as [Hgt Hdiv]. revert ipart.
  induction fuel as [|fuel IH]; intros ipart; [done|]. cbn [log2_down].
  rewrite Hgt. cbn [mbind option_bind]. rewrite Hdiv. apply IH.
Qed.

(** The logarithm of infinity does not terminate: infinity is above two and half of it
    is infinity again, without any assertion failing, so the loop that halves the
    argument until it is at most two has no result whatever the fuel. *)
Theorem f80_log2_inf_diverges md :
  f80_from_int 2 = Some (mk_f80 (2 ^ 63) (BIAS80 + 1) 0) /\
  f80_gt md F80_INF (mk_f80 (2 ^ 63) (BIAS80 + 1) 0) = Some true /\
  f80_div md F80_INF (mk_f80 (2 ^ 63) (BIAS80 + 1) 0) = F80_INF /\
  forall fuel, f80_log2 fuel md F80_INF = None.
Proof.
  destruct (log2_inf_step md) as [Hgt Hdiv]. split_and!; [reflexivity|done|done|]. intros fuel.
  unfold f80_log2.
  assert (f80_from_int 0 = Some F80_ZERO) as -> by reflexivity.
  assert (f80_from_int 1 = Some (mk_f80 (2 ^ 63) BIAS80 0)) as -> by reflexivity.
  assert (f80_from_int 2 = Some (mk_f80 (2 ^ 63) (BIAS80 + 1) 0)) as -> by reflexivity.
  cbn [mbind option_bind]. change (f80_isnan F80_INF) with false. cbn iota.
  assert (f80_lte md F80_INF F80_ZERO = Some false) as -> by (destruct md; vm_compute; reflexivity).
  cbn [mbind option_bind]. destruct fuel as [|fuel]; [done|]. cbn [log2_up].
  assert (f80_lt md F80_INF (mk_f80 (2 ^ 63) BIAS80 0) = Some false) as -> by (destruct md; vm_compute; reflexivity).
  cbn [mbind option_bind]. by rewrite log2_down_inf.
Qed.

(** The Newton iteration for the square root of infinity, or of a denormal, ends
    in a NaN. *)
Lemma f80_sqrt_special :
  f80_sqrt round_to_nearest F80_INF = Some F80_NAN /\
  f80_sqrt round_to_nearest (mk_f80 (2 ^ 62) 0 0) = Some F80_NAN.
Proof. vm_compute. split; reflexivity. Qed.

End Float80.
