(* ===== verification/Cpu.v ===== *)
(** * The emulated processor's state (emu/cpu.h)

    The part of [struct cpu_state] the flag, x87, MMX and SSE helpers work on.  C bit
    fields are ranges of bits of the word they share with a union member, so that a
    read of the whole word ([eflags], [fsw], [fcw]) sees what was assigned to the fields.
    Flags are kept lazily: a bit of [flags_res] says that the flag is to be computed from
    the last result, and [collapse_flags] and [expand_flags] move between the two forms. *)

From S2P Require Import Prelude Float80.

Module Cpu.
Import Float80.

(** ** Bit fields *)

(** Read the field of [n] bits at bit [lo] of a word. *)
Definition bits (lo n w : Z) : Z := Z.land (Z.shiftr w lo) (Z.ones n).
(** Assign to it; the value is truncated to the field. *)
Definition set_bits (lo n v w : Z) : Z :=
  Z.lor (Z.ldiff w (Z.shiftl (Z.ones n) lo)) (Z.shiftl (Z.land v (Z.ones n)) lo).

(** ** struct cpu_state *)

(** [mm] and [xmm] are the 64-bit and 128-bit registers, [fp] the x87 registers;
    [rounding] is the thread's [f80_rounding_mode]. *)
Record cpu_state := mk_cpu {
  eflags : Z;
  cf : Z;
  of_ : Z;
  res : Z;
  op1 : Z;
  op2 : Z;
  flags_res : Z;
  mm : list Z;
  xmm : list Z;
  fp : list float80;
  fsw : Z;
  fcw : Z;
  rounding : f80_rounding_mode }.

Definition set_eflags (v : Z) (c : cpu_state) : cpu_state :=
  mk_cpu v (cf c) (of_ c) (res c) (op1 c) (op2 c) (flags_res c) (mm c) (xmm c) (fp c) (fsw c) (fcw c) (rounding c).
Definition set_cf (v : Z) (c : cpu_state) : cpu_state :=
  mk_cpu (eflags c) v (of_ c) (res c) (op1 c) (op2 c) (flags_res c) (mm c) (xmm c) (fp c) (fsw c) (fcw c) (rounding c).
Definition set_of_ (v : Z) (c : cpu_state) : cpu_state :=
  mk_cpu (eflags c) (cf c) v (res c) (op1 c) (op2 c) (flags_res c) (mm c) (xmm c) (fp c) (fsw c) (fcw c) (rounding c).
Definition set_res (v : Z) (c : cpu_state) : cpu_state :=
  mk_cpu (eflags c) (cf c) (of_ c) v (op1 c) (op2 c) (flags_res c) (mm c) (xmm c) (fp c) (fsw c) (fcw c) (rounding c).
Definition set_op1 (v : Z) (c : cpu_state) : cpu_state :=
  mk_cpu (eflags c) (cf c) (of_ c) (res c) v (op2 c) (flags_res c) (mm c) (xmm c) (fp c) (fsw c) (fcw c) (rounding c).
Definition set_op2 (v : Z) (c : cpu_state) : cpu_state :=
  mk_cpu (eflags c) (cf c) (of_ c) (res c) (op1 c) v (flags_res c) (mm c) (xmm c) (fp c) (fsw c) (fcw c) (rounding c).
Definition set_flags_res (v : Z) (c : cpu_state) : cpu_state :=
  mk_cpu (eflags c) (cf c) (of_ c) (res c) (op1 c) (op2 c) v (mm c) (xmm c) (fp c) (fsw c) (fcw c) (rounding c).
Definition set_mm (v : list Z) (c : cpu_state) : cpu_state :=
  mk_cpu (eflags c) (cf c) (of_ c) (res c) (op1 c) (op2 c) (flags_res c) v (xmm c) (fp c) (fsw c) (fcw c) (rounding c).
Definition set_xmm (v : list Z) (c : cpu_state) : cpu_state :=
  mk_cpu (eflags c) (cf c) (of_ c) (res c) (op1 c) (op2 c) (flags_res c) (mm c) v (fp c) (fsw c) (fcw c) (rounding c).
Definition set_fp (v : list float80) (c : cpu_state) : cpu_state :=
  mk_cpu (eflags c) (cf c) (of_ c) (res c) (op1 c) (op2 c) (flags_res c) (mm c) (xmm c) v (fsw c) (fcw c) (rounding c).
Definition set_fsw (v : Z) (c : cpu_state) : cpu_state :=
  mk_cpu (eflags c) (cf c) (of_ c) (res c) (op1 c) (op2 c) (flags_res c) (mm c) (xmm c) (fp c) v (fcw c) (rounding c).
Definition set_fcw (v : Z) (c : cpu_state) : cpu_state :=
  mk_cpu (eflags c) (cf c) (of_ c) (res c) (op1 c) (op2 c) (flags_res c) (mm c) (xmm c) (fp c) (fsw c) v (rounding c).
Definition set_rounding (v : f80_rounding_mode) (c : cpu_state) : cpu_state :=
  mk_cpu (eflags c) (cf c) (of_ c) (res c) (op1 c) (op2 c) (flags_res c) (mm c) (xmm c) (fp c) (fsw c) (fcw c) v.

(** Fields of [eflags]. *)
Definition cf_bit (c : cpu_state) : Z := bits 0 1 (eflags c).
Definition set_cf_bit (v : Z) (c : cpu_state) : cpu_state := set_eflags (set_bits 0 1 v (eflags c)) c.
Definition pad1_1 (c : cpu_state) : Z := bits 1 1 (eflags c).
Definition set_pad1_1 (v : Z) (c : cpu_state) : cpu_state := set_eflags (set_bits 1 1 v (eflags c)) c.
Definition pf (c : cpu_state) : Z := bits 2 1 (eflags c).
Definition set_pf (v : Z) (c : cpu_state) : cpu_state := set_eflags (set_bits 2 1 v (eflags c)) c.
Definition pad2_0 (c : cpu_state) : Z := bits 3 1 (eflags c).
Definition set_pad2_0 (v : Z) (c : cpu_state) : cpu_state := set_eflags (set_bits 3 1 v (eflags c)) c.
Definition af (c : cpu_state) : Z := bits 4 1 (eflags c).
Definition set_af (v : Z) (c : cpu_state) : cpu_state := set_eflags (set_bits 4 1 v (eflags c)) c.
Definition pad3_0 (c : cpu_state) : Z := bits 5 1 (eflags c).
Definition set_pad3_0 (v : Z) (c : cpu_state) : cpu_state := set_eflags (set_bits 5 1 v (eflags c)) c.
Definition zf (c : cpu_state) : Z := bits 6 1 (eflags c).
Definition set_zf (v : Z) (c : cpu_state) : cpu_state := set_eflags (set_bits 6 1 v (eflags c)) c.
Definition sf (c : cpu_state) : Z := bits 7 1 (eflags c).
Definition set_sf (v : Z) (c : cpu_state) : cpu_state := set_eflags (set_bits 7 1 v (eflags c)) c.
Definition if_ (c : cpu_state) : Z := bits 9 1 (eflags c).
Definition set_if_ (v : Z) (c : cpu_state) : cpu_state := set_eflags (set_bits 9 1 v (eflags c)) c.
Definition of_bit (c : cpu_state) : Z := bits 11 1 (eflags c).
Definition set_of_bit (v : Z) (c : cpu_state) : cpu_state := set_eflags (set_bits 11 1 v (eflags c)) c.
(** Fields of [flags_res]. *)
Definition pf_res (c : cpu_state) : Z := bits 0 1 (flags_res c).
Definition set_pf_res (v : Z) (c : cpu_state) : cpu_state := set_flags_res (set_bits 0 1 v (flags_res c)) c.
Definition zf_res (c : cpu_state) : Z := bits 1 1 (flags_res c).
Definition set_zf_res (v : Z) (c : cpu_state) : cpu_state := set_flags_res (set_bits 1 1 v (flags_res c)) c.
Definition sf_res (c : cpu_state) : Z := bits 2 1 (flags_res c).
Definition set_sf_res (v : Z) (c : cpu_state) : cpu_state := set_flags_res (set_bits 2 1 v (flags_res c)) c.
Definition af_ops (c : cpu_state) : Z := bits 3 1 (flags_res c).
Definition set_af_ops (v : Z) (c : cpu_state) : cpu_state := set_flags_res (set_bits 3 1 v (flags_res c)) c.
(** Fields of the x87 status word. *)
Definition ie (c : cpu_state) : Z := bits 0 1 (fsw c).
Definition set_ie (v : Z) (c : cpu_state) : cpu_state := set_fsw (set_bits 0 1 v (fsw c)) c.
Definition de (c : cpu_state) : Z := bits 1 1 (fsw c).
Definition set_de (v : Z) (c : cpu_state) : cpu_state := set_fsw (set_bits 1 1 v (fsw c)) c.
Definition ze (c : cpu_state) : Z := bits 2 1 (fsw c).
Definition set_ze (v : Z) (c : cpu_state) : cpu_state := set_fsw (set_bits 2 1 v (fsw c)) c.
Definition oe (c : cpu_state) : Z := bits 3 1 (fsw c).
Definition set_oe (v : Z) (c : cpu_state) : cpu_state := set_fsw (set_bits 3 1 v (fsw c)) c.
Definition ue (c : cpu_state) : Z := bits 4 1 (fsw c).
Definition set_ue (v : Z) (c : cpu_state) : cpu_state := set_fsw (set_bits 4 1 v (fsw c)) c.
Definition pe (c : cpu_state) : Z := bits 5 1 (fsw c).
Definition set_pe (v : Z) (c : cpu_state) : cpu_state := set_fsw (set_bits 5 1 v (fsw c)) c.
Definition stf (c : cpu_state) : Z := bits 6 1 (fsw c).
Definition set_stf (v : Z) (c : cpu_state) : cpu_state := set_fsw (set_bits 6 1 v (fsw c)) c.
Definition es (c : cpu_state) : Z := bits 7 1 (fsw c).
Definition set_es (v : Z) (c : cpu_state) : cpu_state := set_fsw (set_bits 7 1 v (fsw c)) c.
Definition c0 (c : cpu_state) : Z := bits 8 1 (fsw c).
Definition set_c0 (v : Z) (c : cpu_state) : cpu_state := set_fsw (set_bits 8 1 v (fsw c)) c.
Definition c1 (c : cpu_state) : Z := bits 9 1 (fsw c).
Definition set_c1 (v : Z) (c : cpu_state) : cpu_state := set_fsw (set_bits 9 1 v (fsw c)) c.
Definition c2 (c : cpu_state) : Z := bits 10 1 (fsw c).
Definition set_c2 (v : Z) (c : cpu_state) : cpu_state := set_fsw (set_bits 10 1 v (fsw c)) c.
Definition top (c : cpu_state) : Z := bits 11 3 (fsw c).
Definition set_top (v : Z) (c : cpu_state) : cpu_state := set_fsw (set_bits 11 3 v (fsw c)) c.
Definition c3 (c : cpu_state) : Z := bits 14 1 (fsw c).
Definition set_c3 (v : Z) (c : cpu_state) : cpu_state := set_fsw (set_bits 14 1 v (fsw c)) c.
Definition b (c : cpu_state) : Z := bits 15 1 (fsw c).
Definition set_b (v : Z) (c : cpu_state) : cpu_state := set_fsw (set_bits 15 1 v (fsw c)) c.
(** The rounding control of the x87 control word. *)
Definition rc (c : cpu_state) : Z := bits 10 2 (fcw c).
Definition set_rc (v : Z) (c : cpu_state) : cpu_state := set_fcw (set_bits 10 2 v (fcw c)) c.

(** ** The flags the program observes *)

(** [__builtin_parity] of a byte. *)
Definition parity8 (x : Z) : Z :=
  fold_right (fun i p => Z.lxor (bits i 1 x) p) 0 (seqZ 0 8).

Definition ZF (c : cpu_state) : Z := if ctrue (zf_res c) then cbool (res c =? 0) else zf c.
Definition SF (c : cpu_state) : Z := if ctrue (sf_res c) then cbool (s32 (res c) <? 0) else sf c.
Definition CF (c : cpu_state) : Z := cf c.
Definition OF (c : cpu_state) : Z := of_ c.
Definition PF (c : cpu_state) : Z :=
  if ctrue (pf_res c) then cbool (negb (ctrue (parity8 (Z.land (res c) 0xff)))) else pf c.
Definition AF (c : cpu_state) : Z :=
  if ctrue (af_ops c) then Z.land (Z.shiftr (Z.lxor (Z.lxor (op1 c) (op2 c)) (res c)) 4) 1 else af c.

Definition collapse_flags (c : cpu_state) : cpu_state :=
  let c := set_zf (ZF c) c in
  let c := set_sf (SF c) c in
  let c := set_pf (PF c) c in
  let c := set_zf_res 0 (set_sf_res 0 (set_pf_res 0 c)) in
  let c := set_of_bit (of_ c) c in
  let c := set_cf_bit (cf c) c in
  let c := set_af (AF c) c in
  let c := set_af_ops 0 c in
  let c := set_pad1_1 1 c in
  let c := set_pad2_0 0 (set_pad3_0 0 c) in
  set_if_ 1 c.

Definition expand_flags (c : cpu_state) : cpu_state :=
  let c := set_of_ (of_bit c) c in
  let c := set_cf (cf_bit c) c in
  set_zf_res 0 (set_sf_res 0 (set_pf_res 0 (set_af_ops 0 c))).

(** ** Lemmas on bit fields *)

Lemma bits_testbit lo n w i : 0 <= lo -> 0 <= n -> 0 <= i ->
  Z.testbit (bits lo n w) i = (i <? n) && Z.testbit w (i + lo).
Proof.
  intros. unfold bits. rewrite Z.land_spec, Z.shiftr_spec, Z.testbit_ones by lia.
  destruct (Z.leb_spec 0 i); [|lia]. destruct (i <? n), (Z.testbit w (i + lo)); reflexivity.
Qed.

Lemma set_bits_testbit lo n v w i : 0 <= lo -> 0 <= n -> 0 <= i ->
  Z.testbit (set_bits lo n v w) i =
    if (lo <=? i) && (i <? lo + n) then Z.testbit v (i - lo) else Z.testbit w i.
Proof.
  intros. unfold set_bits.
  rewrite Z.lor_spec, Z.ldiff_spec, !Z.shiftl_spec, Z.land_spec, Z.testbit_ones by lia.
  destruct (Z.leb_spec lo i), (Z.ltb_spec i (lo + n)), (Z.leb_spec 0 (i - lo)), (Z.ltb_spec (i - lo) n);
    try lia; cbn; destruct (Z.testbit w i) eqn:?, (Z.testbit v (i - lo)) eqn:?; try reflexivity;
    rewrite Z.testbit_neg_r in * by lia; discriminate.
Qed.

Lemma bits_wrap n w : 0 <= n -> bits 0 n w = wrap n w.
Proof. intros. unfold bits, wrap. by rewrite Z.shiftr_0_r, Z.land_ones. Qed.

Lemma wrap_testbit n w i : 0 <= n -> 0 <= i -> Z.testbit (wrap n w) i = (i <? n) && Z.testbit w i.
Proof. intros. rewrite <- bits_wrap, bits_testbit, Z.add_0_r by lia. done. Qed.

Lemma bits_range lo n w : 0 <= n -> in_u n (bits lo n w).
Proof. intros. unfold bits. rewrite Z.land_ones by lia. apply Z.mod_pos_bound. lia. Qed.

Lemma bits_set_same lo n v w : 0 <= lo -> 0 <= n -> bits lo n (set_bits lo n v w) = wrap n v.
Proof.
  intros. apply Z.bits_inj'. intros i Hi.
  rewrite bits_testbit, set_bits_testbit, wrap_testbit by lia.
  destruct (Z.leb_spec lo (i + lo)), (Z.ltb_spec i n), (Z.ltb_spec (i + lo) (lo + n)); try lia; try done.
  cbn. f_equal. lia.
Qed.

Lemma bits_set_other lo n lo' n' v w : 0 <= lo -> 0 <= n -> 0 <= lo' -> 0 <= n' ->
  lo + n <= lo' \/ lo' + n' <= lo -> bits lo' n' (set_bits lo n v w) = bits lo' n' w.
Proof.
  intros. apply Z.bits_inj'. intros i Hi. rewrite !bits_testbit, set_bits_testbit by lia.
  destruct (Z.ltb_spec i n'); [|done]. cbn.
  destruct (Z.leb_spec lo (i + lo')), (Z.ltb_spec (i + lo') (lo + n)); try done; lia.
Qed.

Lemma in_u_testbit k x : 0 <= k -> in_u k x <-> (0 <= x /\ forall i, k <= i -> Z.testbit x i = false).
Proof.
  intros Hk. split.
  - intros [H1 H2]. split; [done|]. intros i Hi.
    destruct (Z.eq_dec x 0) as [->|]; [apply Z.bits_0|].
    apply Z.bits_above_log2; [done|]. apply Z.log2_lt_pow2; [lia|].
    eapply Z.lt_le_trans; [apply H2|]. apply Z.pow_le_mono_r; lia.
  - intros [H1 H2]. split; [done|]. destruct (Z.eq_dec x 0) as [->|]; [apply Z.pow_pos_nonneg; lia|].
    apply Z.log2_lt_pow2; [lia|]. destruct (Z.lt_ge_cases (Z.log2 x) k) as [|Hge]; [done|].
    specialize (H2 _ Hge). rewrite Z.bit_log2 in H2 by lia. discriminate.
Qed.

Lemma set_bits_range k lo n v w : 0 <= lo -> 0 <= n -> lo + n <= k ->
  in_u k w -> in_u k (set_bits lo n v w).
Proof.
  intros ??? Hw. apply in_u_testbit in Hw as [Hw1 Hw2]; [|lia]. apply in_u_testbit; [lia|]. split.
  - unfold set_bits. apply Z.lor_nonneg. split; [apply Z.ldiff_nonneg; by left|].
    apply Z.shiftl_nonneg, Z.land_nonneg. right. rewrite Z.ones_equiv. apply Z.lt_le_pred, Z.pow_pos_nonneg; lia.
  - intros i Hi. rewrite set_bits_testbit, Hw2 by lia.
    destruct (Z.leb_spec lo i), (Z.ltb_spec i (lo + n)); try done; lia.
Qed.

(** Assigning the value a field already has changes nothing. *)
Lemma set_bits_id lo n v w : 0 <= lo -> 0 <= n -> bits lo n w = wrap n v -> set_bits lo n v w = w.
Proof.
  intros ?? Heq. apply Z.bits_inj'. intros i Hi. rewrite set_bits_testbit by lia.
  destruct (Z.leb_spec lo i), (Z.ltb_spec i (lo + n)); try done. cbn.
  apply (f_equal (fun x => Z.testbit x (i - lo))) in Heq.
  rewrite bits_testbit, wrap_testbit in Heq by lia.
  destruct (Z.ltb_spec (i - lo) n); [|lia]. cbn in Heq. rewrite <- Heq. f_equal. lia.
Qed.

(** A word is determined by its equal-sized fields. *)
Lemma bits_lanes_ext n k a b : 0 < n -> in_u (n * k) a -> in_u (n * k) b ->
  (forall i, 0 <= i < k -> bits (i * n) n a = bits (i * n) n b) -> a = b.
Proof.
  intros Hn Ha Hb Heq. destruct (Z.lt_ge_cases k 0) as [Hk|Hk].
  { destruct Ha. rewrite Z.pow_neg_r in * by nia. lia. }
  apply in_u_testbit in Ha as [Ha1 Ha2]; [|nia]. apply in_u_testbit in Hb as [Hb1 Hb2]; [|nia].
  apply Z.bits_inj'. intros j Hj. destruct (Z.lt_ge_cases j (n * k)) as [Hlt|Hge]; [|by rewrite Ha2, Hb2].
  assert (j / n < k) by (apply Z.div_lt_upper_bound; lia).
  assert (0 <= j / n) by (apply Z.div_pos; lia).
  specialize (Heq (j / n) ltac:(lia)). apply (f_equal (fun x => Z.testbit x (j mod n))) in Heq.
  pose proof (Z.mod_pos_bound j n Hn). rewrite !bits_testbit in Heq by nia.
  destruct (Z.ltb_spec (j mod n) n); [|lia]. cbn in Heq.
  replace (j mod n + j / n * n) with j in Heq by (rewrite (Z.div_mod j n) at 1 by lia; lia). done.
Qed.

Lemma bit_01 lo w : bits lo 1 w = 0 \/ bits lo 1 w = 1.
Proof. destruct (bits_range lo 1 w ltac:(lia)). change (2 ^ 1) with 2 in *. lia. Qed.

Lemma cbool_bit b : wrap 1 (cbool b) = cbool b.
Proof. by destruct b. Qed.

Create HintDb fields.
(** Compute what a chain of field assignments leaves in a field. *)
Ltac field_simpl :=
  repeat first
    [ rewrite bits_set_same by lia
    | rewrite bits_set_other by (try lia; (left; lia) || (right; lia)) ].

(** ** Correctness of the lazy flags *)

Lemma flags_bool c :
  (ZF c = 0 \/ ZF c = 1) /\ (SF c = 0 \/ SF c = 1) /\ (PF c = 0 \/ PF c = 1) /\ (AF c = 0 \/ AF c = 1).
Proof.
  assert (forall b : bool, cbool b = 0 \/ cbool b = 1) by (intros []; auto).
  unfold ZF, SF, PF, AF. split_and!.
  - destruct (ctrue _); [done|apply bit_01].
  - destruct (ctrue _); [done|apply bit_01].
  - destruct (ctrue _); [done|apply bit_01].
  - destruct (ctrue _); [apply (bit_01 4)|apply bit_01].
Qed.

Lemma SF_set_zf v c : SF (set_zf v c) = SF c.
Proof. unfold SF, sf_res, sf, set_zf. cbn. field_simpl. done. Qed.
Lemma PF_set_zf_sf v v' c : PF (set_sf v' (set_zf v c)) = PF c.
Proof. unfold PF, pf_res, pf, set_zf, set_sf. cbn. field_simpl. done. Qed.

(** The eight assignments to [eflags], in the order of the code. *)
Lemma collapse_flags_eflags c :
  eflags (collapse_flags c) =
  set_bits 9 1 1 (set_bits 3 1 0 (set_bits 5 1 0 (set_bits 1 1 1 (set_bits 4 1 (AF c)
    (set_bits 0 1 (CF c) (set_bits 11 1 (OF c)
      (set_bits 2 1 (PF c) (set_bits 7 1 (SF c) (set_bits 6 1 (ZF c) (eflags c)))))))))).
Proof.
  unfold collapse_flags. rewrite SF_set_zf, PF_set_zf_sf.
  unfold AF at 1, af_ops, af, set_zf, set_sf, set_pf, set_zf_res, set_sf_res, set_pf_res, set_of_bit, set_cf_bit.
  cbn. field_simpl. reflexivity.
Qed.

Lemma collapse_flags_res c :
  flags_res (collapse_flags c) = set_bits 3 1 0 (set_bits 1 1 0 (set_bits 2 1 0 (set_bits 0 1 0 (flags_res c)))).
Proof. reflexivity. Qed.

Lemma wrap_bool x : x = 0 \/ x = 1 -> wrap 1 x = x.
Proof. by intros [-> | ->]. Qed.

Lemma collapse_stored c :
  zf (collapse_flags c) = ZF c /\ sf (collapse_flags c) = SF c /\
  pf (collapse_flags c) = PF c /\ af (collapse_flags c) = AF c.
Proof.
  destruct (flags_bool c) as (Hz & Hs & Hp & Ha).
  unfold zf, sf, pf, af. rewrite collapse_flags_eflags. field_simpl. rewrite !wrap_bool by done. done.
Qed.

Lemma collapse_not_lazy c :
  zf_res (collapse_flags c) = 0 /\ sf_res (collapse_flags c) = 0 /\
  pf_res (collapse_flags c) = 0 /\ af_ops (collapse_flags c) = 0.
Proof. unfold zf_res, sf_res, pf_res, af_ops. rewrite collapse_flags_res. field_simpl. done. Qed.

Lemma expand_not_lazy c :
  zf_res (expand_flags c) = 0 /\ sf_res (expand_flags c) = 0 /\
  pf_res (expand_flags c) = 0 /\ af_ops (expand_flags c) = 0.
Proof.
  unfold expand_flags, zf_res, sf_res, pf_res, af_ops, set_zf_res, set_sf_res, set_pf_res, set_af_ops.
  cbn. field_simpl. done.
Qed.

Lemma expand_flags_values c :
  CF (expand_flags c) = cf_bit c /\ OF (expand_flags c) = of_bit c /\
  zf (expand_flags c) = zf c /\ sf (expand_flags c) = sf c /\
  pf (expand_flags c) = pf c /\ af (expand_flags c) = af c /\ eflags (expand_flags c) = eflags c.
Proof. split_and!; reflexivity. Qed.

(** [collapse_flags] stores in [eflags] exactly the flags the lazy form described: the
    program observes the same ZF, SF, PF, AF, CF and OF before and after, every stored bit
    is the observed flag, no flag is lazy any more, the bits the hardware fixes
    have their values, and no bit outside the flags changes. *)
Theorem collapse_flags_spec c :
  let c' := collapse_flags c in
  (ZF c', SF c', PF c', AF c', CF c', OF c') = (ZF c, SF c, PF c, AF c, CF c, OF c) /\
  (zf c', sf c', pf c', af c') = (ZF c, SF c, PF c, AF c) /\
  (cf_bit c', of_bit c') = (wrap 1 (CF c), wrap 1 (OF c)) /\
  (zf_res c', sf_res c', pf_res c', af_ops c') = (0, 0, 0, 0) /\
  (pad1_1 c', pad2_0 c', pad3_0 c', if_ c') = (1, 0, 0, 1) /\
  (forall i, i ∈ [8; 10] \/ 12 <= i -> Z.testbit (eflags c') i = Z.testbit (eflags c) i) /\
  (res c', op1 c', op2 c', mm c', xmm c', fp c', fsw c', fcw c', rounding c') =
  (res c, op1 c, op2 c, mm c, xmm c, fp c, fsw c, fcw c, rounding c).
Proof.
  destruct (collapse_stored c) as (Ez & Es & Ep & Ea), (collapse_not_lazy c) as (Rz & Rs & Rp & Ra).
  cbn zeta. split_and!.
  - unfold ZF, SF, PF, AF at 1. rewrite Rz, Rs, Rp, Ra, Ez, Es, Ep, Ea. reflexivity.
  - by rewrite Ez, Es, Ep, Ea.
  - unfold cf_bit, of_bit. rewrite collapse_flags_eflags. field_simpl. done.
  - by rewrite Rz, Rs, Rp, Ra.
  - unfold pad1_1, pad2_0, pad3_0, if_. rewrite collapse_flags_eflags. field_simpl. done.
  - intros i Hi. assert (0 <= i /\ i <> 9 /\ (i = 8 \/ i = 10 \/ 12 <= i)) as (? & ? & ?).
    { destruct Hi as [Hi|]; [|lia]. apply elem_of_cons in Hi as [->|Hi]; [lia|].
      apply list_elem_of_singleton in Hi as ->. lia. }
    rewrite collapse_flags_eflags, !set_bits_testbit by lia.
    repeat match goal with |- context [(?a <=? i) && (i <? ?b)] =>
      replace ((a <=? i) && (i <? b)) with false by (symmetry; apply andb_false_iff; lia) end.
    done.
  - reflexivity.
Qed.

Lemma collapse_expand_observed c : (CF c = 0 \/ CF c = 1) -> (OF c = 0 \/ OF c = 1) ->
  ZF (expand_flags (collapse_flags c)) = ZF c /\ SF (expand_flags (collapse_flags c)) = SF c /\
  PF (expand_flags (collapse_flags c)) = PF c /\ AF (expand_flags (collapse_flags c)) = AF c /\
  CF (expand_flags (collapse_flags c)) = CF c /\ OF (expand_flags (collapse_flags c)) = OF c.
Proof.
  intros Hc Ho.
  destruct (collapse_stored c) as (Ez & Es & Ep & Ea), (expand_not_lazy (collapse_flags c)) as (Rz & Rs & Rp & Ra).
  destruct (expand_flags_values (collapse_flags c)) as (Hcf & Hof & Hz & Hs & Hp & Ha & _).
  rewrite Hcf, Hof. unfold ZF at 1, SF at 1, PF at 1, AF at 1. rewrite Rz, Rs, Rp, Ra, Hz, Hs, Hp, Ha, Ez, Es, Ep, Ea.
  unfold cf_bit, of_bit. rewrite collapse_flags_eflags. field_simpl.
  rewrite (wrap_bool (CF c)), (wrap_bool (OF c)) by done. done.
Qed.

(** Saving the flags and taking them back (pushf and popf, or a signal frame) is invisible
    when CF and OF are stored as 0 or 1, and a second collapse changes nothing. *)
Theorem collapse_expand_flags c : (CF c = 0 \/ CF c = 1) -> (OF c = 0 \/ OF c = 1) ->
  let c' := expand_flags (collapse_flags c) in
  (ZF c', SF c', PF c', AF c', CF c', OF c') = (ZF c, SF c, PF c, AF c, CF c, OF c) /\
  eflags (collapse_flags c') = eflags (collapse_flags c).
Proof.
  intros Hc Ho. cbn zeta.
  pose proof (collapse_flags_eflags (expand_flags (collapse_flags c))) as He.
  destruct (collapse_expand_observed c Hc Ho) as (Hz & Hs & Hp & Ha & Hcf & Hof).
  destruct (expand_flags_values (collapse_flags c)) as (_ & _ & _ & _ & _ & _ & He').
  rewrite Hz, Hs, Hp, Ha, Hcf, Hof in *. split; [done|]. rewrite He, He'.
  rewrite collapse_flags_eflags.
  rewrite !set_bits_id by (try lia; field_simpl; reflexivity). reflexivity.
Qed.

(** A processor with every flag lazy and result 0. *)
Definition cpu_lazy : cpu_state :=
  mk_cpu 0x202 1 0 0 3 3 0xf (repeat 0 8) (repeat 0 8) (repeat (mk_f80 0 0 0) 8) 0 0x37f round_to_nearest.

Lemma collapse_expand_flags_witness :
  (CF cpu_lazy = 1 /\ OF cpu_lazy = 0 /\ ZF cpu_lazy = 1 /\ PF cpu_lazy = 1) /\
  let c' := expand_flags (collapse_flags cpu_lazy) in
  (ZF c', SF c', PF c', AF c', CF c', OF c') =
    (ZF cpu_lazy, SF cpu_lazy, PF cpu_lazy, AF cpu_lazy, CF cpu_lazy, OF cpu_lazy) /\
  eflags (collapse_flags c') = eflags (collapse_flags cpu_lazy).
Proof.
  split; [split_and!; reflexivity|].
  apply (collapse_expand_flags cpu_lazy); [right|left]; reflexivity.
Defined.

End Cpu.
