(* ===== verification/HostFloat.v ===== *)
(** * C's [float] and [double] on bit patterns

    The x87 and SSE helpers compute with the host's [float] and [double].  A value is
    its bit pattern, a 32- or 64-bit [Z]; the operations of the language are those of IEEE 754
    in the default rounding mode, taken from the Standard Library's [SpecFloat].  What C leaves
    open is an argument, the class [Host]: which NaN an operation yields, what an out of range
    conversion to [int32_t] gives, and the values of the mathematical library's functions. *)

From S2P Require Import Prelude Float80 Cpu.
From Stdlib Require Import Floats.SpecFloat.

Module HostFloat.
Import Cpu.

(** The host's choices.  [host_nan w a b] is the [w]-bit NaN of an operation on [a] and [b]. *)
Class Host := {
  host_nan : Z -> Z -> Z -> Z;
  host_int32 : Z -> Z;
  host_pow : Z -> Z -> Z;
  host_atan2 : Z -> Z -> Z;
  host_sin : Z -> Z;
  host_cos : Z -> Z }.

Section Format.
(** A format has [mb] stored significand bits and [eb] exponent bits. *)
Context (mb eb : Z).

Definition width : Z := mb + eb + 1.
Definition prec : Z := mb + 1.
Definition emax : Z := 2 ^ (eb - 1).
Definition emin_bits : Z := 3 - emax - prec.

Definition decode (b : Z) : spec_float :=
  let s := ctrue (bits (mb + eb) 1 b) in
  let e := bits mb eb b in
  let m := bits 0 mb b in
  if e =? Z.ones eb then if m =? 0 then S754_infinity s else S754_nan
  else if e =? 0 then if m =? 0 then S754_zero s else S754_finite s (Z.to_pos m) emin_bits
  else S754_finite s (Z.to_pos (m + 2 ^ mb)) (e - 1 + emin_bits).

Definition pack (s : bool) (e m : Z) : Z := cbool s * 2 ^ (mb + eb) + e * 2 ^ mb + m.

(** [nan] is the pattern of the result if it is a NaN. *)
Definition encode (nan : Z) (f : spec_float) : Z :=
  match f with
  | S754_zero s => pack s 0 0
  | S754_infinity s => pack s (Z.ones eb) 0
  | S754_nan => nan
  | S754_finite s m e =>
      if Z.pos m <? 2 ^ mb then pack s 0 (Z.pos m)
      else pack s (e + 1 - emin_bits) (Z.pos m - 2 ^ mb)
  end.

Definition is_nan (b : Z) : bool := match decode b with S754_nan => true | _ => false end.
Definition feq (a b : Z) : bool := SFeqb (decode a) (decode b).
Definition flt (a b : Z) : bool := SFltb (decode a) (decode b).
Definition fle (a b : Z) : bool := SFleb (decode a) (decode b).
Definition signbit (b : Z) : bool := ctrue (bits (mb + eb) 1 b).

Context `{Hst : Host}.
Definition fadd (a b : Z) : Z := encode (host_nan width a b) (SFadd prec emax (decode a) (decode b)).
Definition fsub (a b : Z) : Z := encode (host_nan width a b) (SFsub prec emax (decode a) (decode b)).
Definition fmul (a b : Z) : Z := encode (host_nan width a b) (SFmul prec emax (decode a) (decode b)).
Definition fdiv (a b : Z) : Z := encode (host_nan width a b) (SFdiv prec emax (decode a) (decode b)).
Definition fsqrt (a : Z) : Z := encode (host_nan width a a) (SFsqrt prec emax (decode a)).
(** Conversion from an integer. *)
Definition of_int (i : Z) : Z := encode 0 (binary_normalize prec emax i 0 false).
(** Conversion from a value of another format. *)
Definition of_spec (src : Z) (f : spec_float) : Z :=
  encode (host_nan width src src)
    match f with
    | S754_finite s m e => binary_round prec emax s m e
    | _ => f
    end.
(** Conversion to [int32_t], toward zero. *)
Definition to_int32 (b : Z) : Z :=
  match decode b with
  | S754_zero _ => 0
  | S754_finite s m e =>
      let q := if 0 <=? e then Z.pos m * 2 ^ e else Z.pos m / 2 ^ (- e) in
      let v := if s then - q else q in
      if decide (in_s 32 v) then v else host_int32 b
  | _ => host_int32 b
  end.
End Format.

Abbreviation decode32 := (decode 23 8).
Abbreviation decode64 := (decode 52 11).
Definition f32_to_f64 `{Host} (b : Z) : Z := of_spec 52 11 b (decode32 b).
Definition f64_to_f32 `{Host} (b : Z) : Z := of_spec 23 8 b (decode64 b).

(** ** Encoding and decoding *)

Section Lemmas.
Context (mb eb : Z) (Hmb : 0 < mb) (Heb : 1 < eb).

Lemma pack_bits s e m : 0 <= e < 2 ^ eb -> 0 <= m < 2 ^ mb ->
  bits (mb + eb) 1 (pack mb eb s e m) = cbool s /\ bits mb eb (pack mb eb s e m) = e /\
  bits 0 mb (pack mb eb s e m) = m.
Proof.
  intros He Hm. unfold bits, pack. rewrite !Z.land_ones, !Z.shiftr_div_pow2, Z.pow_add_r by lia.
  assert (0 < 2 ^ mb) by (apply Z.pow_pos_nonneg; lia). assert (0 < 2 ^ eb) by (apply Z.pow_pos_nonneg; lia).
  set (E := 2 ^ eb) in *. set (M := 2 ^ mb) in *. split_and!.
  - replace (cbool s * (M * E) + e * M + m) with ((e * M + m) + cbool s * (M * E)) by ring.
    rewrite Z.div_add, Z.div_small by nia. by destruct s.
  - replace (cbool s * (M * E) + e * M + m) with (m + (e + cbool s * E) * M) by ring.
    rewrite Z.div_add, Z.div_small, Z.add_0_l, Z.mod_add, Z.mod_small by lia. done.
  - change (2 ^ 0) with 1. rewrite Z.div_1_r.
    replace (cbool s * (M * E) + e * M + m) with (m + (e + cbool s * E) * M) by ring.
    rewrite Z.mod_add, Z.mod_small by lia. done.
Qed.

Lemma pack_unpack b : in_u (mb + eb + 1) b ->
  pack mb eb (ctrue (bits (mb + eb) 1 b)) (bits mb eb b) (bits 0 mb b) = b.
Proof.
  intros [Hb Hb']. unfold bits, pack. rewrite !Z.land_ones, !Z.shiftr_div_pow2, Z.div_1_r by lia.
  rewrite !Z.pow_add_r in * by lia.
  assert (0 < 2 ^ mb) by (apply Z.pow_pos_nonneg; lia). assert (0 < 2 ^ eb) by (apply Z.pow_pos_nonneg; lia).
  set (E := 2 ^ eb) in *. set (M := 2 ^ mb) in *. change (2 ^ 1) with 2 in *.
  assert (b / (M * E) < 2) by (apply Z.div_lt_upper_bound; nia).
  assert (0 <= b / (M * E)) by (apply Z.div_pos; nia).
  assert (cbool (ctrue ((b / (M * E)) mod 2)) = b / (M * E)) as ->.
  { assert (b / (M * E) = 0 \/ b / (M * E) = 1) as [-> | ->] by lia; done. }
  rewrite <- Z.div_div by lia.
  pose proof (Z.div_mod b M ltac:(lia)). pose proof (Z.div_mod (b / M) E ltac:(lia)). nia.
Qed.

(** Decoding and encoding gives the pattern back, unless it is a NaN. *)
Lemma encode_decode nan b : in_u (width mb eb) b -> is_nan mb eb b = false ->
  encode mb eb nan (decode mb eb b) = b.
Proof.
  intros Hb. pose proof (pack_unpack b Hb) as Hp. unfold is_nan, decode.
  pose proof (bits_range 0 mb b ltac:(lia)) as [Hm Hm'].
  pose proof (bits_range mb eb b ltac:(lia)) as [He He'].
  destruct (Z.eqb_spec (bits mb eb b) (Z.ones eb)) as [He0|].
  { destruct (Z.eqb_spec (bits 0 mb b) 0) as [Hm0|]; [|discriminate]. intros _. by rewrite He0, Hm0 in Hp. }
  intros _. destruct (Z.eqb_spec (bits mb eb b) 0) as [He0|].
  - rewrite He0 in Hp. destruct (Z.eqb_spec (bits 0 mb b) 0) as [Hm0|]; [by rewrite Hm0 in Hp|]. cbn [encode].
    rewrite Z2Pos.id, (proj2 (Z.ltb_lt _ _)) by lia. done.
  - cbn [encode]. rewrite Z2Pos.id, (proj2 (Z.ltb_ge _ _)) by lia.
    etransitivity; [|exact Hp]. f_equal; lia.
Qed.
End Lemmas.

(** ** Widening a [float] and narrowing it again *)

Lemma digits2_pos_log2 m : Z.pos (digits2_pos m) = Z.log2 (Z.pos m) + 1.
Proof.
  induction m as [m IH|m IH|]; [..|done]; cbn [digits2_pos]; rewrite Pos2Z.inj_succ, IH.
  - rewrite (Pos2Z.inj_xI m), Z.log2_succ_double by lia. lia.
  - rewrite (Pos2Z.inj_xO m), Z.log2_double by lia. lia.
Qed.

Lemma digits2_bounds m : 2 ^ (Z.pos (digits2_pos m) - 1) <= Z.pos m < 2 ^ Z.pos (digits2_pos m).
Proof.
  rewrite digits2_pos_log2. replace (Z.log2 (Z.pos m) + 1 - 1) with (Z.log2 (Z.pos m)) by lia.
  apply Z.log2_spec. lia.
Qed.

Lemma digits2_unique m k : 2 ^ (k - 1) <= Z.pos m < 2 ^ k -> Z.pos (digits2_pos m) = k.
Proof.
  intros H. destruct (Z.le_gt_cases k 0) as [Hk|Hk].
  { destruct (Z.eq_dec k 0) as [-> |]; [change (2 ^ 0) with 1 in *|rewrite (Z.pow_neg_r 2 k) in * by lia]; lia. }
  rewrite digits2_pos_log2, (Z.log2_unique (Z.pos m) (k - 1)); [lia..|].
  by replace (Z.succ (k - 1)) with k by lia.
Qed.

Lemma pos_iter_xO m d : Z.pos (Pos.iter xO m d) = Z.pos m * 2 ^ Z.pos d.
Proof.
  induction d as [|d IH] using Pos.peano_ind; [cbn; lia|].
  rewrite Pos.iter_succ, Pos2Z.inj_succ, Z.pow_succ_r, Pos2Z.inj_xO, IH by lia. ring.
Qed.

Lemma iter_pos_shr_1 p m : 0 <= m ->
  iter_pos shr_1 p (Build_shr_record (m * 2 ^ Z.pos p) false false) = Build_shr_record m false false.
Proof.
  assert (H1 : forall k, 0 <= k -> shr_1 (Build_shr_record (k * 2) false false) = Build_shr_record k false false).
  { intros k Hk. rewrite (Z.mul_comm k 2). destruct k; done || lia. }
  revert m. induction p as [p IH|p IH|]; intros m Hm; cbn [iter_pos].
  - rewrite Pos2Z.inj_xI. replace (m * 2 ^ (2 * Z.pos p + 1)) with (m * 2 ^ Z.pos p * 2 ^ Z.pos p * 2).
    2:{ rewrite Z.pow_add_r, Z.mul_comm, (Z.mul_comm 2 (Z.pos p)), Z.pow_mul_r by lia. change (2 ^ 1) with 2.
        rewrite Z.pow_2_r. ring. }
    pose proof (Z.pow_nonneg 2 (Z.pos p) ltac:(lia)). rewrite H1, IH, IH by nia. done.
  - rewrite (Pos2Z.inj_xO p). replace (m * 2 ^ (2 * Z.pos p)) with (m * 2 ^ Z.pos p * 2 ^ Z.pos p).
    2:{ rewrite (Z.mul_comm 2 (Z.pos p)), Z.pow_mul_r by lia. rewrite Z.pow_2_r. ring. }
    pose proof (Z.pow_nonneg 2 (Z.pos p) ltac:(lia)). rewrite (IH (m * 2 ^ Z.pos p)) by nia. by apply IH.
  - rewrite H1 by lia. done.
Qed.

(** Rounding [m * 2^k] of exponent [e - k] when [m] fits the format at exponent [e]. *)
Lemma binary_round_aux_exact pr em s m k e : 0 <= k ->
  fexp pr em (Z.pos (digits2_pos m) + e) = e -> e <= em - pr ->
  binary_round_aux pr em s (Z.pos m * 2 ^ k) (e - k) loc_Exact = S754_finite s m e.
Proof.
  intros Hk He Hle. unfold binary_round_aux, shr_fexp.
  assert (Zdigits2 (Z.pos m * 2 ^ k) + (e - k) = Z.pos (digits2_pos m) + e) as ->.
  { pose proof (digits2_bounds m) as Hb. pose proof (Z.pow_pos_nonneg 2 k ltac:(lia) Hk).
    destruct (Z.pos m * 2 ^ k) as [|q|q] eqn:Eq; [lia| |lia]. cbn [Zdigits2].
    rewrite (digits2_unique q (Z.pos (digits2_pos m) + k)); [lia|]. rewrite <- Eq.
    replace (Z.pos (digits2_pos m) + k - 1) with (Z.pos (digits2_pos m) - 1 + k) by lia.
    rewrite !Z.pow_add_r by lia. nia. }
  rewrite He. replace (e - (e - k)) with k by lia.
  assert (shr (shr_record_of_loc (Z.pos m * 2 ^ k) loc_Exact) (e - k) k = (Build_shr_record (Z.pos m) false false, e)) as ->.
  { cbn [shr_record_of_loc]. destruct k as [|p|p]; [|cbn [shr]; rewrite iter_pos_shr_1 by lia; f_equal; lia|lia].
    rewrite Z.pow_0_r, Z.mul_1_r, Z.sub_0_r. done. }
  cbn [loc_of_shr_record shr_m round_nearest_even Zdigits2]. rewrite He, Z.sub_diag. cbn [shr shr_record_of_loc shr_m].
  by rewrite (proj2 (Z.leb_le _ _)) by lia.
Qed.

(** The significand and exponent of a finite [float]. *)
Lemma decode32_finite b s m e : decode32 b = S754_finite s m e ->
  fexp 24 128 (Z.pos (digits2_pos m) + e) = e /\ -149 <= e <= 104 /\ Z.pos (digits2_pos m) <= 24 /\
  (e = -149 \/ Z.pos (digits2_pos m) = 24).
Proof.
  unfold decode. pose proof (bits_range 0 23 b ltac:(lia)) as [Hm Hm'].
  pose proof (bits_range 23 8 b ltac:(lia)) as [He He'].
  change (Z.ones 8) with 255. change (emin_bits 23 8) with (-149). change (2 ^ 8) with 256 in *.
  destruct (Z.eqb_spec (bits 23 8 b) 255); [destruct (_ =? 0); discriminate|].
  destruct (Z.eqb_spec (bits 23 8 b) 0) as [E|E].
  - destruct (Z.eqb_spec (bits 0 23 b) 0); [discriminate|]. intros [= _ <- <-].
    assert (Z.pos (digits2_pos (Z.to_pos (bits 0 23 b))) <= 23).
    { rewrite digits2_pos_log2, Z2Pos.id by lia.
      assert (Z.log2 (bits 0 23 b) < 23) by (apply Z.log2_lt_pow2; lia). lia. }
    unfold fexp, emin. lia.
  - intros [= _ <- <-].
    assert (Z.pos (digits2_pos (Z.to_pos (bits 0 23 b + 2 ^ 23))) = 24) as ->.
    { apply digits2_unique. rewrite Z2Pos.id by lia. change (24 - 1) with 23. change (2 ^ 24) with (2 * 2 ^ 23). lia. }
    unfold fexp, emin. lia.
Qed.

Lemma decode64_encode nan s m e : 2 ^ 52 <= Z.pos m < 2 ^ 53 -> -1074 <= e <= 971 ->
  decode64 (encode 52 11 nan (S754_finite s m e)) = S754_finite s m e.
Proof.
  intros Hm He. cbn [encode]. rewrite (proj2 (Z.ltb_ge _ _)) by lia. change (emin_bits 52 11) with (-1074).
  destruct (pack_bits 52 11 ltac:(lia) ltac:(lia) s (e + 1 - -1074) (Z.pos m - 2 ^ 52)) as (Hs & Hx & Hf); [lia..|].
  unfold decode. rewrite Hs, Hx, Hf. change (Z.ones 11) with 2047. change (emin_bits 52 11) with (-1074).
  rewrite (proj2 (Z.eqb_neq _ _)), (proj2 (Z.eqb_neq (e + 1 - -1074) 0)) by lia.
  replace (Z.pos m - 2 ^ 52 + 2 ^ 52) with (Z.pos m) by lia. cbn [Z.to_pos].
  f_equal; [by destruct s|lia].
Qed.

(** Widening a finite [float] is exact. *)
Lemma widen_finite b s m e : decode32 b = S754_finite s m e ->
  exists m' k, 0 <= k /\ Z.pos m' = Z.pos m * 2 ^ k /\ 2 ^ 52 <= Z.pos m' < 2 ^ 53 /\ -1074 <= e - k <= 104 /\
    k = 53 - Z.pos (digits2_pos m) /\ binary_round 53 1024 s m e = S754_finite s m' (e - k).
Proof.
  intros Ed. destruct (decode32_finite b s m e Ed) as (Hf & He & Hd & Hor).
  pose proof (digits2_bounds m) as Hm. set (D := Z.pos (digits2_pos m)) in *. assert (0 < D) by (subst D; lia).
  destruct (53 - D) as [|p|p] eqn:Ek; [lia| |lia]. exists (Pos.iter xO m p), (Z.pos p).
  assert (Hm53 : 2 ^ 52 <= Z.pos (Pos.iter xO m p) < 2 ^ 53).
  { rewrite pos_iter_xO. replace 52 with (D - 1 + Z.pos p) by lia. replace 53 with (D + Z.pos p) by lia.
    rewrite !Z.pow_add_r by lia. pose proof (Z.pow_pos_nonneg 2 (Z.pos p) ltac:(lia) ltac:(lia)). nia. }
  split_and!; [lia|apply pos_iter_xO|lia..|].
  unfold binary_round. fold D.
  assert (fexp 53 1024 (D + e) = e - Z.pos p) as -> by (unfold fexp, emin; lia).
  unfold shl_align. replace (e - Z.pos p - e) with (Z.neg p) by lia. set (m' := Pos.iter xO m p) in *.
  change (binary_round_aux 53 1024 s (Z.pos m') (e - Z.pos p) loc_Exact = S754_finite s m' (e - Z.pos p)).
  pose proof (binary_round_aux_exact 53 1024 s m' 0 (e - Z.pos p)) as Hx.
  rewrite Z.pow_0_r, Z.mul_1_r, Z.sub_0_r in Hx. apply Hx; [lia| |lia].
  rewrite (digits2_unique m' 53) by done. unfold fexp, emin. lia.
Qed.

(** A [float] that is not a NaN survives the conversion to [double] and back. *)
Lemma f32_f64_round_trip `{Host} b : in_u 32 b -> is_nan 23 8 b = false -> f64_to_f32 (f32_to_f64 b) = b.
Proof.
  intros Hb Hn. pose proof (encode_decode 23 8 ltac:(lia) ltac:(lia) (host_nan (width 23 8) (f32_to_f64 b) (f32_to_f64 b)) b Hb Hn) as Hed.
  unfold f64_to_f32, of_spec. etransitivity; [|exact Hed]. f_equal. clear Hed.
  unfold f32_to_f64, of_spec. unfold is_nan in Hn. destruct (decode32 b) as [s|s| |s m e] eqn:Ed; try done.
  1,2: by destruct s.
  destruct (decode32_finite b s m e Ed) as (Hf & He & _ & _).
  destruct (widen_finite b s m e Ed) as (m' & k & Hk & Hm' & Hm53 & Hek & Ek & Hr).
  change (prec 52) with 53. change (emax 11) with 1024. rewrite Hr, decode64_encode by lia.
  change (prec 23) with 24. change (emax 8) with 128. unfold binary_round. rewrite (digits2_unique m' 53) by done.
  replace (53 + (e - k)) with (Z.pos (digits2_pos m) + e) by lia. rewrite Hf.
  unfold shl_align. replace (e - (e - k)) with k by lia.
  assert (match k with Z.neg d => (Pos.iter xO m' d, e) | _ => (m', e - k) end = (m', e - k)) as -> by (destruct k; done || lia).
  rewrite Hm'. apply binary_round_aux_exact; [lia|exact Hf|lia].
Qed.

(** Widening gives a 64-bit pattern. *)
Lemma encode_range mb eb nan f : 0 < mb -> 1 < eb -> in_u (width mb eb) nan ->
  (forall s m e, f = S754_finite s m e -> Z.pos m < 2 ^ (mb + 1) /\ 0 <= e - emin_bits mb eb < 2 ^ eb - 2) ->
  in_u (width mb eb) (encode mb eb nan f).
Proof.
  intros Hmb Heb Hnan Hf. assert (0 < 2 ^ mb) by (apply Z.pow_pos_nonneg; lia).
  assert (2 ^ 1 < 2 ^ eb) by (apply Z.pow_lt_mono_r; lia).
  assert (Hp : forall s e m, 0 <= e < 2 ^ eb -> 0 <= m < 2 ^ mb -> in_u (width mb eb) (pack mb eb s e m)).
  { intros s e m He Hm. unfold in_u, pack, width. rewrite !Z.pow_add_r by lia. change (2 ^ 1) with 2.
    destruct s; cbn [cbool]; nia. }
  destruct f as [s|s| |s m e]; cbn [encode]; [apply Hp; lia| |done|].
  - apply Hp; [rewrite Z.ones_equiv; lia|lia].
  - destruct (Hf s m e eq_refl) as [H1 H2]. rewrite Z.pow_add_r in H1 by lia.
    destruct (Z.ltb_spec (Z.pos m) (2 ^ mb)); apply Hp; lia.
Qed.

Lemma f32_to_f64_range `{Host} b : is_nan 23 8 b = false -> in_u 64 (f32_to_f64 b).
Proof.
  intros Hn. unfold f32_to_f64, of_spec. unfold is_nan in Hn.
  destruct (decode32 b) as [s|s| |s m e] eqn:Ed; [by destruct s..|done|].
  destruct (widen_finite b s m e Ed) as (m' & k & Hk & Hm' & Hm53 & Hek & Ek & Hr).
  change (prec 52) with 53. change (emax 11) with 1024. rewrite Hr.
  apply (encode_range 52 11 0 (S754_finite s m' (e - k))); [lia..|done|].
  intros s' m2 e2 [= <- <- <-]. change (emin_bits 52 11) with (-1074). lia.
Qed.

(** A host: quiet NaNs, the x86 result of an invalid conversion and constant library functions. *)
#[export] Instance demo_host : Host := {|
  host_nan w _ _ := if w =? 32 then 0x7fc00000 else 0x7ff8000000000000;
  host_int32 _ := - 2 ^ 31;
  host_pow _ _ := 0; host_atan2 _ _ := 0; host_sin _ := 0; host_cos _ := 0 |}.

End HostFloat.
