(* ===== verification/Fpu.v ===== *)
(** * The x87 unit (emu/fpu.c, emu/fpu.h)

    The register stack over the soft float: loads and stores, moves, comparisons,
    arithmetic, the control word and the saved environment.  A helper is a function on
    [cpu_state]; an operand it reads through a pointer is an argument and one it writes
    through a pointer is its result.  [None] is a failed assertion of the soft float, or, for
    [fpu_yl2x], a logarithm that takes more than [fuel] iterations. *)

From S2P Require Import Prelude Float80 Cpu HostFloat.

Module Fpu.
Import Float80 Cpu HostFloat.

#[export] Instance float80_inhabited : Inhabited float80 := populate F80_ZERO.
#[export] Instance float80_eq_dec : EqDecision float80.
Proof. solve_decision. Defined.

(** ** The register stack *)

Definition st_index (c : cpu_state) (i : Z) : nat := Z.to_nat ((top c + i) mod 8).
Definition ST (c : cpu_state) (i : Z) : float80 := fp c !!! st_index c i.
Definition set_ST (i : Z) (f : float80) (c : cpu_state) : cpu_state :=
  set_fp (<[st_index c i := f]> (fp c)) c.

Definition fpu_push (f : float80) (c : cpu_state) : cpu_state :=
  let c := set_top (top c - 1) c in
  set_ST 0 f c.
Definition fpu_pop (c : cpu_state) : cpu_state := set_top (top c + 1) c.

Definition fpu_xch (i : Z) (c : cpu_state) : cpu_state :=
  let tmp := ST c 0 in
  let c := set_ST 0 (ST c i) c in
  set_ST i tmp c.

Definition fpu_incstp (c : cpu_state) : cpu_state := set_top (top c + 1) c.

(** ** Loads *)

Inductive fpu_const :=
  fconst_one | fconst_log2t | fconst_log2e | fconst_pi | fconst_log2 | fconst_ln2 | fconst_zero.

(** [signExp] holds the exponent below the sign. *)
Definition of_signExp (sg se : Z) : float80 := mk_f80 sg (bits 0 15 se) (bits 15 1 se).
Definition signExp (f : float80) : Z := exp f + sign f * 2 ^ 15.

Definition fpu_consts (k : fpu_const) : float80 :=
  match k with
  | fconst_one => of_signExp 0x8000000000000000 0x3fff
  | fconst_log2t => of_signExp 0xd49a784bcd1b8afe 0x4000
  | fconst_log2e => of_signExp 0xb8aa3b295c17f0bc 0x3fff
  | fconst_pi => of_signExp 0xc90fdaa22168c235 0x4000
  | fconst_log2 => of_signExp 0x9a209a84fbcff799 0x3ffd
  | fconst_ln2 => of_signExp 0xb17217f7d1cf79ac 0x3ffe
  | fconst_zero => of_signExp 0 0
  end.

Definition fpu_ld (i : Z) (c : cpu_state) : cpu_state := fpu_push (ST c i) c.
Definition fpu_ldc (k : fpu_const) (c : cpu_state) : cpu_state := fpu_push (fpu_consts k) c.
Definition fpu_ild16 (i : Z) (c : cpu_state) : option cpu_state := f ← f80_from_int i; Some (fpu_push f c).
Definition fpu_ild32 (i : Z) (c : cpu_state) : option cpu_state := f ← f80_from_int i; Some (fpu_push f c).
Definition fpu_ild64 (i : Z) (c : cpu_state) : option cpu_state := f ← f80_from_int i; Some (fpu_push f c).
Definition fpu_ldm80 (f : float80) (c : cpu_state) : cpu_state := fpu_push f c.

(** ** Stores *)

Definition fpu_st (i : Z) (c : cpu_state) : cpu_state := set_ST i (ST c 0) c.
Definition fpu_ist16 (c : cpu_state) : Z :=
  let res := f80_to_int (rounding c) (ST c 0) in
  s16 (if (res <? - 2 ^ 15) || (res >? 2 ^ 15 - 1) then - 2 ^ 15 else res).
Definition fpu_ist32 (c : cpu_state) : Z :=
  let res := f80_to_int (rounding c) (ST c 0) in
  s32 (if (res <? - 2 ^ 31) || (res >? 2 ^ 31 - 1) then - 2 ^ 31 else res).
Definition fpu_ist64 (c : cpu_state) : Z := f80_to_int (rounding c) (ST c 0).

(** The first ten bytes of a [float80], little-endian. *)
Definition le_bytes (n x : Z) : list Z := map (fun i => bits (8 * i) 8 x) (seqZ 0 n).
Definition le_value (l : list Z) : Z := fold_right (fun b acc => b + 2 ^ 8 * acc) 0 l.
Definition f80_bytes (f : float80) : list Z := le_bytes 8 (signif f) ++ le_bytes 2 (signExp f).
Definition f80_of_bytes (l : list Z) : float80 := of_signExp (le_value (take 8 l)) (le_value (drop 8 l)).
Definition fpu_stm80 (c : cpu_state) : list Z := f80_bytes (ST c 0).

(** ** Conditional moves *)

Definition fpu_cmovb (i : Z) (c : cpu_state) : cpu_state := if ctrue (cf c) then set_ST 0 (ST c i) c else c.
Definition fpu_cmove (i : Z) (c : cpu_state) : cpu_state := if ctrue (zf c) then set_ST 0 (ST c i) c else c.
Definition fpu_cmovbe (i : Z) (c : cpu_state) : cpu_state := if ctrue (Z.lor (cf c) (zf c)) then set_ST 0 (ST c i) c else c.
Definition fpu_cmovu (i : Z) (c : cpu_state) : cpu_state := if ctrue (pf c) then set_ST 0 (ST c i) c else c.
Definition fpu_cmovnb (i : Z) (c : cpu_state) : cpu_state := if negb (ctrue (cf c)) then set_ST 0 (ST c i) c else c.
Definition fpu_cmovne (i : Z) (c : cpu_state) : cpu_state := if negb (ctrue (zf c)) then set_ST 0 (ST c i) c else c.
Definition fpu_cmovnbe (i : Z) (c : cpu_state) : cpu_state := if negb (ctrue (Z.lor (cf c) (zf c))) then set_ST 0 (ST c i) c else c.
Definition fpu_cmovnu (i : Z) (c : cpu_state) : cpu_state := if negb (ctrue (pf c)) then set_ST 0 (ST c i) c else c.

(** ** Arithmetic on the stack *)

Definition fpu_prem (c : cpu_state) : option cpu_state :=
  f ← f80_mod (rounding c) (ST c 0) (ST c 1);
  Some (set_c2 0 (set_ST 0 f c)).

Definition fpu_scale (c : cpu_state) : cpu_state :=
  let old_mode := rounding c in
  let c := set_rounding round_chop c in
  let scale := s32 (f80_to_int (rounding c) (ST c 1)) in
  let c := set_rounding old_mode c in
  set_ST 0 (f80_scale (rounding c) (ST c 0) scale) c.

Definition fpu_rndint (c : cpu_state) : option cpu_state :=
  if f80_isinf (ST c 0) || f80_isnan (ST c 0) then Some c
  else f ← f80_round (rounding c) (ST c 0); Some (set_ST 0 f c).

Definition fpu_sqrt (c : cpu_state) : option cpu_state :=
  f ← f80_sqrt (rounding c) (ST c 0); Some (set_ST 0 f c).

Definition fpu_yl2x (fuel : nat) (c : cpu_state) : option cpu_state :=
  l ← f80_log2 fuel (rounding c) (ST c 0);
  Some (fpu_pop (set_ST 1 (f80_mul (rounding c) (ST c 1) l) c)).

Definition fpu_comparei (x : float80) (c : cpu_state) : option cpu_state :=
  let c := set_zf_res 0 (set_pf_res 0 c) in
  let c := set_zf 0 (set_pf 0 (set_cf 0 c)) in
  lt ← f80_lt (rounding c) (ST c 0) x;
  let c := set_cf (cbool lt) c in
  let c := set_zf (cbool (f80_eq (ST c 0) x)) c in
  Some (if f80_uncomparable (ST c 0) x then set_zf 1 (set_pf 1 (set_cf 1 c)) else c).

Definition fpu_compare (x : float80) (c : cpu_state) : option cpu_state :=
  let c := set_c2 0 (set_c1 0 c) in
  lt ← f80_lt (rounding c) (ST c 0) x;
  let c := set_c0 (cbool lt) c in
  let c := set_c3 (cbool (f80_eq (ST c 0) x)) c in
  Some (if f80_uncomparable (ST c 0) x then set_c0 1 (set_c2 1 (set_c3 1 c)) else c).

Definition fpu_com (i : Z) (c : cpu_state) : option cpu_state := fpu_compare (ST c i) c.
Definition fpu_comi (i : Z) (c : cpu_state) : option cpu_state := fpu_comparei (ST c i) c.
Definition fpu_icom16 (i : Z) (c : cpu_state) : option cpu_state := f ← f80_from_int i; fpu_compare f c.
Definition fpu_icom32 (i : Z) (c : cpu_state) : option cpu_state := f ← f80_from_int i; fpu_compare f c.
Definition fpu_tst (c : cpu_state) : option cpu_state := fpu_compare (fpu_consts fconst_zero) c.

Definition fpu_abs (c : cpu_state) : cpu_state := set_ST 0 (f80_abs (ST c 0)) c.
Definition fpu_chs (c : cpu_state) : cpu_state := set_ST 0 (f80_neg (ST c 0)) c.

Definition fpu_add (srci dsti : Z) (c : cpu_state) : option cpu_state :=
  f ← f80_add (rounding c) (ST c dsti) (ST c srci); Some (set_ST dsti f c).
Definition fpu_sub (srci dsti : Z) (c : cpu_state) : option cpu_state :=
  f ← f80_sub (rounding c) (ST c dsti) (ST c srci); Some (set_ST dsti f c).
Definition fpu_subr (srci dsti : Z) (c : cpu_state) : option cpu_state :=
  f ← f80_sub (rounding c) (ST c srci) (ST c dsti); Some (set_ST dsti f c).
Definition fpu_mul (srci dsti : Z) (c : cpu_state) : cpu_state :=
  set_ST dsti (f80_mul (rounding c) (ST c dsti) (ST c srci)) c.
Definition fpu_div (srci dsti : Z) (c : cpu_state) : cpu_state :=
  set_ST dsti (f80_div (rounding c) (ST c dsti) (ST c srci)) c.
Definition fpu_divr (srci dsti : Z) (c : cpu_state) : cpu_state :=
  set_ST dsti (f80_div (rounding c) (ST c srci) (ST c dsti)) c.

Definition fpu_iadd16 (i : Z) (c : cpu_state) : option cpu_state :=
  x ← f80_from_int i; f ← f80_add (rounding c) (ST c 0) x; Some (set_ST 0 f c).
Definition fpu_isub16 (i : Z) (c : cpu_state) : option cpu_state :=
  x ← f80_from_int i; f ← f80_sub (rounding c) (ST c 0) x; Some (set_ST 0 f c).
Definition fpu_isubr16 (i : Z) (c : cpu_state) : option cpu_state :=
  x ← f80_from_int i; f ← f80_sub (rounding c) x (ST c 0); Some (set_ST 0 f c).
Definition fpu_imul16 (i : Z) (c : cpu_state) : option cpu_state :=
  x ← f80_from_int i; Some (set_ST 0 (f80_mul (rounding c) (ST c 0) x) c).
Definition fpu_idiv16 (i : Z) (c : cpu_state) : option cpu_state :=
  x ← f80_from_int i; Some (set_ST 0 (f80_div (rounding c) (ST c 0) x) c).
Definition fpu_idivr16 (i : Z) (c : cpu_state) : option cpu_state :=
  x ← f80_from_int i; Some (set_ST 0 (f80_div (rounding c) x (ST c 0)) c).

Definition fpu_iadd32 (i : Z) (c : cpu_state) : option cpu_state :=
  x ← f80_from_int i; f ← f80_add (rounding c) (ST c 0) x; Some (set_ST 0 f c).
Definition fpu_isub32 (i : Z) (c : cpu_state) : option cpu_state :=
  x ← f80_from_int i; f ← f80_sub (rounding c) (ST c 0) x; Some (set_ST 0 f c).
Definition fpu_isubr32 (i : Z) (c : cpu_state) : option cpu_state :=
  x ← f80_from_int i; f ← f80_sub (rounding c) x (ST c 0); Some (set_ST 0 f c).
Definition fpu_imul32 (i : Z) (c : cpu_state) : option cpu_state :=
  x ← f80_from_int i; Some (set_ST 0 (f80_mul (rounding c) (ST c 0) x) c).
Definition fpu_idiv32 (i : Z) (c : cpu_state) : option cpu_state :=
  x ← f80_from_int i; Some (set_ST 0 (f80_div (rounding c) (ST c 0) x) c).
Definition fpu_idivr32 (i : Z) (c : cpu_state) : option cpu_state :=
  x ← f80_from_int i; Some (set_ST 0 (f80_div (rounding c) x (ST c 0)) c).

Definition fpu_addm64 (f0 : Z) (c : cpu_state) : option cpu_state :=
  x ← f80_from_double f0; f ← f80_add (rounding c) (ST c 0) x; Some (set_ST 0 f c).
Definition fpu_subm64 (f0 : Z) (c : cpu_state) : option cpu_state :=
  x ← f80_from_double f0; f ← f80_sub (rounding c) (ST c 0) x; Some (set_ST 0 f c).
Definition fpu_subrm64 (f0 : Z) (c : cpu_state) : option cpu_state :=
  x ← f80_from_double f0; f ← f80_sub (rounding c) x (ST c 0); Some (set_ST 0 f c).
Definition fpu_mulm64 (f0 : Z) (c : cpu_state) : option cpu_state :=
  x ← f80_from_double f0; Some (set_ST 0 (f80_mul (rounding c) (ST c 0) x) c).
Definition fpu_divm64 (f0 : Z) (c : cpu_state) : option cpu_state :=
  x ← f80_from_double f0; Some (set_ST 0 (f80_div (rounding c) (ST c 0) x) c).
Definition fpu_divrm64 (f0 : Z) (c : cpu_state) : option cpu_state :=
  x ← f80_from_double f0; Some (set_ST 0 (f80_div (rounding c) x (ST c 0)) c).

Definition fpu_ldm64 (f0 : Z) (c : cpu_state) : option cpu_state := f ← f80_from_double f0; Some (fpu_push f c).
Definition fpu_stm64 (c : cpu_state) : Z := f80_to_double (rounding c) (ST c 0).
Definition fpu_comm64 (f0 : Z) (c : cpu_state) : option cpu_state := f ← f80_from_double f0; fpu_compare f c.

(** *** Operands in single precision, and what goes through the host's library *)

Section WithHost.
Context `{Hst : Host}.

Definition fpu_ldm32 (f0 : Z) (c : cpu_state) : option cpu_state :=
  f ← f80_from_double (f32_to_f64 f0); Some (fpu_push f c).
Definition fpu_stm32 (c : cpu_state) : Z := f64_to_f32 (f80_to_double (rounding c) (ST c 0)).
Definition fpu_comm32 (f0 : Z) (c : cpu_state) : option cpu_state :=
  f ← f80_from_double (f32_to_f64 f0); fpu_compare f c.

Definition fpu_addm32 (f0 : Z) (c : cpu_state) : option cpu_state :=
  x ← f80_from_double (f32_to_f64 f0); f ← f80_add (rounding c) (ST c 0) x; Some (set_ST 0 f c).
Definition fpu_subm32 (f0 : Z) (c : cpu_state) : option cpu_state :=
  x ← f80_from_double (f32_to_f64 f0); f ← f80_sub (rounding c) (ST c 0) x; Some (set_ST 0 f c).
Definition fpu_subrm32 (f0 : Z) (c : cpu_state) : option cpu_state :=
  x ← f80_from_double (f32_to_f64 f0); f ← f80_sub (rounding c) x (ST c 0); Some (set_ST 0 f c).
Definition fpu_mulm32 (f0 : Z) (c : cpu_state) : option cpu_state :=
  x ← f80_from_double (f32_to_f64 f0); Some (set_ST 0 (f80_mul (rounding c) (ST c 0) x) c).
Definition fpu_divm32 (f0 : Z) (c : cpu_state) : option cpu_state :=
  x ← f80_from_double (f32_to_f64 f0); Some (set_ST 0 (f80_div (rounding c) (ST c 0) x) c).
Definition fpu_divrm32 (f0 : Z) (c : cpu_state) : option cpu_state :=
  x ← f80_from_double (f32_to_f64 f0); Some (set_ST 0 (f80_div (rounding c) x (ST c 0)) c).

Definition fpu_2xm1 (c : cpu_state) : option cpu_state :=
  f ← f80_from_double (fsub 52 11 (host_pow (of_int 52 11 2) (f80_to_double (rounding c) (ST c 0))) (of_int 52 11 1));
  Some (set_ST 0 f c).
Definition fpu_patan (c : cpu_state) : option cpu_state :=
  f ← f80_from_double (host_atan2 (f80_to_double (rounding c) (ST c 1)) (f80_to_double (rounding c) (ST c 0)));
  Some (fpu_pop (set_ST 1 f c)).
Definition fpu_sin (c : cpu_state) : option cpu_state :=
  f ← f80_from_double (host_sin (f80_to_double (rounding c) (ST c 0))); Some (set_ST 0 f c).
Definition fpu_cos (c : cpu_state) : option cpu_state :=
  f ← f80_from_double (host_cos (f80_to_double (rounding c) (ST c 0))); Some (set_ST 0 f c).
End WithHost.

Definition fpu_xtract (c : cpu_state) : option cpu_state :=
  let '(ex, sg) := f80_xtract (ST c 0) in
  f ← f80_from_int ex;
  Some (fpu_push sg (set_ST 0 f c)).

Definition fpu_xam (c : cpu_state) : cpu_state :=
  let f := ST c 0 in
  let outflags :=
    if negb (f80_is_supported f) then 0
    else if f80_isnan f then 1
    else if f80_isinf f then 3
    else if f80_iszero f then 4
    else if f80_isdenormal f then 6
    else 2 in
  let c := set_c1 (sign f) c in
  let c := set_c0 (Z.land outflags 1) c in
  let c := set_c2 (Z.land (Z.shiftr outflags 1) 1) c in
  set_c3 (Z.land (Z.shiftr outflags 2) 1) c.

(** ** Control word and environment *)

Definition mode_of_rc (rc : Z) : f80_rounding_mode :=
  if rc =? 0 then round_to_nearest else if rc =? 1 then round_down
  else if rc =? 2 then round_up else round_chop.

Definition fpu_stcw16 (c : cpu_state) : Z := fcw c.
Definition fpu_ldcw16 (i : Z) (c : cpu_state) : cpu_state :=
  let c := set_fcw i c in
  set_rounding (mode_of_rc (rc c)) c.

Record fpu_env32 := mk_env {
  control : Z; status : Z; tag : Z; ip : Z; ip_selector : Z; operand : Z; operand_selector : Z }.

Definition fpu_stenv32 (c : cpu_state) : fpu_env32 := mk_env (fcw c) (fsw c) 0 0 0 0 0.
Definition fpu_ldenv32 (env : fpu_env32) (c : cpu_state) : cpu_state :=
  let c := set_fcw (u16 (control env)) c in
  set_fsw (u16 (status env)) c.

Record fpu_state32 := mk_state { env : fpu_env32; regs : list (list Z) }.

Definition fpu_save32 (c : cpu_state) : fpu_state32 :=
  mk_state (fpu_stenv32 c) (map (fun i => f80_bytes (ST c i)) (seqZ 0 8)).

Definition restore_reg (state : fpu_state32) (c : cpu_state) (i : Z) : cpu_state :=
  set_ST i (f80_of_bytes (regs state !!! Z.to_nat i)) c.
Definition fpu_restore32 (state : fpu_state32) (c : cpu_state) : cpu_state :=
  let c := fpu_ldenv32 (env state) c in
  fold_left (restore_reg state) (seqZ 0 8) c.

Definition fpu_clex (c : cpu_state) : cpu_state :=
  set_pe 0 (set_ue 0 (set_oe 0 (set_ze 0 (set_de 0 (set_ie 0 (set_es 0 (set_sf 0 (set_b 0 c)))))))).

(** ** The stack discipline *)

Definition fpu_wf (c : cpu_state) : Prop := length (fp c) = 8%nat /\ Forall wf (fp c).

(** What the guest sees: ST(0) to ST(7). *)
Definition stack (c : cpu_state) : list float80 := map (ST c) (seqZ 0 8).

Lemma st_index_lt c i : (st_index c i < 8)%nat.
Proof. unfold st_index. pose proof (Z.mod_pos_bound (top c + i) 8 ltac:(lia)). lia. Qed.

Lemma st_index_eq c i j : 0 <= i < 8 -> 0 <= j < 8 -> st_index c i = st_index c j -> i = j.
Proof.
  unfold st_index. intros Hi Hj E.
  pose proof (Z.mod_pos_bound (top c + i) 8 ltac:(lia)). pose proof (Z.mod_pos_bound (top c + j) 8 ltac:(lia)).
  assert (Em : (top c + i) mod 8 = (top c + j) mod 8) by lia.
  pose proof (Z.div_mod (top c + i) 8 ltac:(lia)). pose proof (Z.div_mod (top c + j) 8 ltac:(lia)). lia.
Qed.

Lemma ST_set_ST c i f j : length (fp c) = 8%nat -> 0 <= i < 8 -> 0 <= j < 8 ->
  ST (set_ST i f c) j = if decide (i = j) then f else ST c j.
Proof.
  intros Hl Hi Hj. unfold ST, set_ST. change (st_index (set_fp _ c) j) with (st_index c j). cbn [fp set_fp].
  case_decide as E.
  - subst j. apply list_lookup_total_insert_eq. rewrite Hl. apply st_index_lt.
  - apply list_lookup_total_insert_ne. intros E'. by apply st_index_eq in E'.
Qed.

Lemma ST_set_top c v i : ST (set_top v c) i = fp c !!! Z.to_nat ((v + i) mod 8).
Proof.
  unfold ST, st_index, top, set_top. cbn [fsw set_fsw fp]. rewrite bits_set_same by lia.
  unfold wrap. change (2 ^ 3) with 8. by rewrite Zplus_mod_idemp_l.
Qed.

Lemma ST_top_shift c k i : ST (set_top (top c + k) c) i = ST c (i + k).
Proof. rewrite ST_set_top. unfold ST, st_index. do 3 f_equal. lia. Qed.

Lemma ST_mod c i : ST c i = ST c (i mod 8).
Proof. unfold ST, st_index. by rewrite Zplus_mod_idemp_r. Qed.

Lemma stack_lookup c i : 0 <= i < 8 -> stack c !! Z.to_nat i = Some (ST c i).
Proof.
  intros Hi. unfold stack. rewrite list_lookup_fmap, lookup_seqZ_lt by lia. cbn. do 2 f_equal. lia.
Qed.

Lemma stack_length c : length (stack c) = 8%nat.
Proof. reflexivity. Qed.

(** Two stacks are equal when they agree on the eight positions. *)
Lemma stack_ext c l : length l = 8%nat ->
  (forall i, 0 <= i < 8 -> l !! Z.to_nat i = Some (ST c i)) -> stack c = l.
Proof.
  intros Hl Heq. apply (list_eq_same_length _ _ 8); [done..|]. intros i x y Hi Hx Hy.
  specialize (Heq (Z.of_nat i) ltac:(lia)). pose proof (stack_lookup c (Z.of_nat i) ltac:(lia)) as Hs.
  rewrite Nat2Z.id in *. congruence.
Qed.

Lemma stack_set_ST c i f : length (fp c) = 8%nat -> 0 <= i < 8 ->
  stack (set_ST i f c) = <[Z.to_nat i := f]> (stack c).
Proof.
  intros Hl Hi. apply stack_ext; [by rewrite length_insert|]. intros j Hj.
  rewrite ST_set_ST by done. case_decide as E.
  - subst j. apply list_lookup_insert_eq. rewrite stack_length. lia.
  - rewrite list_lookup_insert_ne by lia. by apply stack_lookup.
Qed.

Lemma fpu_push_stack c f : length (fp c) = 8%nat -> stack (fpu_push f c) = f :: take 7 (stack c).
Proof.
  intros Hl. unfold fpu_push. rewrite stack_set_ST by (done || lia).
  symmetry. apply list_eq_same_length with 8%nat; [by rewrite length_insert|done|].
  intros [|i] x y Hi Hx Hy.
  - rewrite list_lookup_insert_eq in Hy by (rewrite stack_length; lia). cbn in Hx. congruence.
  - rewrite list_lookup_insert_ne in Hy by lia. change (take 7 (stack c) !! i = Some x) in Hx.
    rewrite lookup_take_lt in Hx by lia.
    pose proof (stack_lookup c (Z.of_nat i) ltac:(lia)) as H1.
    pose proof (stack_lookup (set_top (top c - 1) c) (Z.of_nat (S i)) ltac:(lia)) as H2.
    rewrite Nat2Z.id in *. change (top c - 1) with (top c + -1) in H2, Hy. rewrite ST_top_shift in H2.
    replace (Z.of_nat (S i) + -1) with (Z.of_nat i) in H2 by lia. congruence.
Qed.

Lemma fpu_pop_stack c : stack (fpu_pop c) = drop 1 (stack c) ++ take 1 (stack c).
Proof.
  unfold fpu_pop. apply stack_ext; [done|]. intros i Hi. rewrite ST_top_shift.
  destruct (decide (i = 7)) as [-> |Hn].
  - rewrite ST_mod. change ((7 + 1) mod 8) with 0. reflexivity.
  - rewrite lookup_app_l by (rewrite length_drop, stack_length; lia). rewrite lookup_drop.
    replace (1 + Z.to_nat i)%nat with (Z.to_nat (i + 1)) by lia. by apply stack_lookup; lia.
Qed.

Lemma fpu_wf_set_ST c i f : fpu_wf c -> wf f -> fpu_wf (set_ST i f c).
Proof.
  intros [Hl Hwf] Hf. split; cbn [set_ST set_fp fp]; [by rewrite length_insert|]. by apply Forall_insert.
Qed.

Lemma fpu_wf_ST c i : fpu_wf c -> wf (ST c i).
Proof.
  intros [Hl Hwf]. unfold ST. apply Forall_lookup_total_1; [done|]. rewrite Hl. apply st_index_lt.
Qed.

Lemma fpu_wf_push c f : fpu_wf c -> wf f -> fpu_wf (fpu_push f c).
Proof. intros. by apply fpu_wf_set_ST. Qed.

Lemma list_insert_swap_twice {A} `{Inhabited A} (l : list A) i : (i < length l)%nat ->
  let l' := <[i := l !!! 0%nat]> (<[0%nat := l !!! i]> l) in
  <[i := l' !!! 0%nat]> (<[0%nat := l' !!! i]> l') = l.
Proof.
  intros Hi l'. assert (Hl' : length l' = length l) by (unfold l'; by rewrite !length_insert).
  assert (Hi' : l' !!! i = l !!! 0%nat).
  { unfold l'. apply list_lookup_total_insert_eq. rewrite length_insert. done. }
  assert (H0' : l' !!! 0%nat = l !!! i).
  { unfold l'. destruct (decide (i = 0%nat)) as [->|].
    - rewrite list_lookup_total_insert_eq; [done|]. rewrite length_insert. done.
    - rewrite list_lookup_total_insert_ne by done. apply list_lookup_total_insert_eq. lia. }
  rewrite Hi', H0'. unfold l'. apply list_eq. intros j.
  pose proof (list_lookup_lookup_total_lt l 0 ltac:(lia)). pose proof (list_lookup_lookup_total_lt l i Hi).
  rewrite !list_lookup_insert, !length_insert.
  repeat case_decide; destruct_and?; subst; try done; try lia.
Qed.

(** C39: The register file with its moving top is an eight-deep stack: a push puts
    the value on top and loses the bottom, a pop rotates the stack, an exchange swaps
    two positions, a store overwrites one, a load duplicates one, and popping
    what was pushed restores every position but the bottom one. *)
Theorem fpu_stack_refines c f i : fpu_wf c -> 0 <= i < 8 ->
  let s := stack c in
  stack (fpu_push f c) = f :: take 7 s /\
  stack (fpu_pop c) = drop 1 s ++ take 1 s /\
  stack (fpu_incstp c) = drop 1 s ++ take 1 s /\
  stack (fpu_xch i c) = <[Z.to_nat i := s !!! 0%nat]> (<[0%nat := s !!! Z.to_nat i]> s) /\
  stack (fpu_ld i c) = s !!! Z.to_nat i :: take 7 s /\
  stack (fpu_st i c) = <[Z.to_nat i := s !!! 0%nat]> s /\
  stack (fpu_pop (fpu_push f c)) = take 7 s ++ [f] /\
  stack (fpu_xch i (fpu_xch i c)) = s /\
  fpu_wf (fpu_xch i c) /\ fpu_wf (fpu_ld i c) /\ fpu_wf (fpu_st i c).
Proof.
  intros [Hl Hwf] Hi s.
  assert (Hs : forall j, 0 <= j < 8 -> s !!! Z.to_nat j = ST c j).
  { intros j Hj. apply list_lookup_total_correct, stack_lookup. done. }
  assert (H0 : s !!! 0%nat = ST c 0) by (apply (Hs 0); lia).
  assert (Hx : forall d, length (fp d) = 8%nat -> stack (fpu_xch i d) =
    <[Z.to_nat i := stack d !!! 0%nat]> (<[0%nat := stack d !!! Z.to_nat i]> (stack d))).
  { intros d Hd. unfold fpu_xch. rewrite stack_set_ST by (lia || (cbn; rewrite length_insert; done)).
    rewrite stack_set_ST by (done || lia).
    pose proof (stack_lookup d 0 ltac:(lia)) as E0. apply list_lookup_total_correct in E0.
    pose proof (list_lookup_total_correct _ _ _ (stack_lookup d i Hi)) as Ei.
    change (Z.to_nat 0) with 0%nat in *. by rewrite E0, Ei. }
  assert (Hsl : length s = 8%nat) by done.
  split_and!.
  - by apply fpu_push_stack.
  - apply fpu_pop_stack.
  - apply fpu_pop_stack.
  - by apply Hx.
  - rewrite (Hs i Hi). by apply fpu_push_stack.
  - rewrite H0. by apply stack_set_ST.
  - rewrite fpu_pop_stack, fpu_push_stack by done. reflexivity.
  - rewrite Hx by (cbn; rewrite !length_insert; done). rewrite Hx by done. fold s.
    apply list_insert_swap_twice; lia.
  - apply fpu_wf_set_ST; [apply fpu_wf_set_ST; [done|]|]; by apply fpu_wf_ST.
  - apply fpu_wf_push; [done|]. by apply fpu_wf_ST.
  - apply fpu_wf_set_ST; [done|]. by apply fpu_wf_ST.
Qed.

(** A processor whose stack holds the constants. *)
Definition cpu_consts : cpu_state :=
  fold_left (fun c k => fpu_ldc k c) [fconst_zero; fconst_pi; fconst_one; fconst_ln2] cpu_lazy.

Lemma cpu_consts_wf : fpu_wf cpu_consts.
Proof.
  split; [reflexivity|]. repeat constructor; try discriminate; left; reflexivity.
Qed.

Lemma fpu_stack_refines_witness :
  stack (fpu_xch 2 cpu_consts) = <[2%nat := stack cpu_consts !!! 0%nat]> (<[0%nat := stack cpu_consts !!! 2%nat]> (stack cpu_consts)).
Proof. apply (fpu_stack_refines cpu_consts F80_ZERO 2 cpu_consts_wf). lia. Defined.

(** ** Comparisons *)

Lemma fpu_compare_flags c x lt : f80_lt (rounding c) (ST c 0) x = Some lt ->
  let un := f80_uncomparable (ST c 0) x in let eq := f80_eq (ST c 0) x in
  exists c', fpu_compare x c = Some c' /\
    (c0 c', c1 c', c2 c', c3 c') = (cbool (un || lt), 0, cbool un, cbool (un || eq)) /\
    stack c' = stack c /\ (eflags c', cf c', flags_res c', fcw c', rounding c') =
                          (eflags c, cf c, flags_res c, fcw c, rounding c).
Proof.
  intros Hlt un eq. unfold fpu_compare.
  set (c2' := set_c2 0 (set_c1 0 c)).
  assert (Hst : forall i, ST c2' i = ST c i).
  { intros i. unfold ST, st_index, top, c2', set_c2, set_c1. cbn [fsw fp set_fsw]. field_simpl. done. }
  change (rounding c2') with (rounding c). rewrite (Hst 0), Hlt. cbn [mbind option_bind].
  assert (Hst' : forall v i, ST (set_c0 v c2') i = ST c i).
  { intros v i. rewrite <- Hst. unfold ST, st_index, top, set_c0. cbn [fsw fp set_fsw]. field_simpl. done. }
  rewrite !Hst'.
  assert (Hst'' : forall v v' i, ST (set_c3 v' (set_c0 v c2')) i = ST c i).
  { intros v v' i. rewrite <- (Hst' v). unfold ST, st_index, top, set_c3. cbn [fsw fp set_fsw]. field_simpl. done. }
  rewrite !Hst''. fold un eq. eexists. split; [reflexivity|].
  destruct un; unfold c0, c1, c2, c3, c2', set_c0, set_c1, set_c2, set_c3; cbn [fsw set_fsw orb cbool];
    field_simpl; rewrite ?cbool_bit; (split; [done|]; split; [|done]);
    unfold stack; apply map_ext; intros i; unfold ST, st_index, top; cbn [fsw fp set_fsw]; field_simpl; done.
Qed.

Lemma fpu_comparei_flags c x lt : f80_lt (rounding c) (ST c 0) x = Some lt ->
  let un := f80_uncomparable (ST c 0) x in let eq := f80_eq (ST c 0) x in
  exists c', fpu_comparei x c = Some c' /\
    (CF c', PF c', ZF c') = (cbool (un || lt), cbool un, cbool (un || eq)) /\
    SF c' = SF c /\ stack c' = stack c /\ (fsw c', fcw c', rounding c') = (fsw c, fcw c, rounding c).
Proof.
  intros Hlt un eq. unfold fpu_comparei.
  set (d := set_zf 0 _). assert (Hst : forall i, ST d i = ST c i) by reflexivity.
  change (rounding d) with (rounding c). rewrite (Hst 0), Hlt. cbn [mbind option_bind].
  change (ST (set_cf (cbool lt) d) 0) with (ST c 0).
  change (ST (set_zf (cbool (f80_eq (ST c 0) x)) (set_cf (cbool lt) d)) 0) with (ST c 0).
  fold un eq. eexists. split; [reflexivity|].
  assert (Hz : zf_res d = 0 /\ pf_res d = 0 /\ sf_res d = sf_res c).
  { unfold d, zf_res, pf_res, sf_res, set_zf, set_pf, set_cf, set_zf_res, set_pf_res. cbn [flags_res set_eflags set_cf set_flags_res].
    field_simpl. done. }
  destruct Hz as (Hz & Hp & Hs).
  assert (Hd : forall e v, flags_res (set_zf e (set_cf v d)) = flags_res d) by reflexivity.
  split; [|split; [|destruct un; done]].
  - destruct un; unfold CF, PF, ZF.
    + change (zf_res _) with (zf_res d). change (pf_res _) with (pf_res d). rewrite Hz, Hp. cbn [ctrue Z.eqb negb orb cbool].
      unfold zf, pf, set_zf, set_pf. cbn [eflags set_eflags set_cf cf]. field_simpl. done.
    + change (zf_res _) with (zf_res d). change (pf_res _) with (pf_res d). rewrite Hz, Hp. cbn [ctrue Z.eqb negb orb cbool].
      unfold d, zf, pf, set_zf, set_pf. cbn [eflags set_eflags set_cf cf]. field_simpl. by rewrite cbool_bit.
  - destruct un; unfold SF; change (sf_res _) with (sf_res d) at 1; rewrite Hs; change (res _) with (res c) at 1;
      (replace (sf _) with (sf c); [done|]); unfold d, sf, set_zf, set_pf, set_cf, set_zf_res, set_pf_res;
      cbn [eflags set_eflags set_flags_res]; field_simpl; done.
Qed.

(** Whether two operands have an order the code can decide: both are ordinary numbers or one is
    a NaN or unsupported. *)
Definition comparable_or_not (a x : float80) : Prop :=
  (ordinary a /\ ordinary x) \/ f80_uncomparable a x = true.

(** FCOM and FCOMI never fail on zeros, normal numbers, infinities and
    NaNs and report the order of the values: "below" in C0 or CF, "equal" in C3 or ZF, and
    all of C0, C2, C3 (CF, PF, ZF) when the operands are unordered.  The stack, the control
    word and the flags the instruction does not define stay as they were. *)
Theorem fpu_compare_spec c x : fpu_wf c -> wf x -> comparable_or_not (ST c 0) x ->
  let un := f80_uncomparable (ST c 0) x in
  let lt := bool_decide (sval (ST c 0) < sval x) in
  let eq := bool_decide (sval (ST c 0) = sval x) in
  (exists c', fpu_compare x c = Some c' /\
    (c0 c', c1 c', c2 c', c3 c') = (cbool (un || lt), 0, cbool un, cbool (un || eq)) /\
    stack c' = stack c /\ (eflags c', cf c', flags_res c', fcw c', rounding c') =
                          (eflags c, cf c, flags_res c, fcw c, rounding c)) /\
  (exists c', fpu_comparei x c = Some c' /\
    (CF c', PF c', ZF c') = (cbool (un || lt), cbool un, cbool (un || eq)) /\
    SF c' = SF c /\ stack c' = stack c /\ (fsw c', fcw c', rounding c') = (fsw c, fcw c, rounding c)).
Proof.
  intros Hc Hx Hcmp un lt eq.
  assert (exists l, f80_lt (rounding c) (ST c 0) x = Some l /\ un || l = un || lt) as (l & Hl & El).
  { destruct Hcmp as [[Ha Hb]|Hu].
    - exists lt. split; [by apply f80_lt_spec|done].
    - exists false. unfold f80_lt, un. by rewrite Hu. }
  assert (un || f80_eq (ST c 0) x = un || eq) as Ee.
  { rewrite (f80_eq_spec (ST c 0) x) by (done || by apply fpu_wf_ST). fold un. destruct un; [done|].
    cbn [orb]. unfold eq. apply bool_decide_ext. split; [by intros [_ ?]|done]. }
  pose proof (fpu_compare_flags c x l Hl) as H1. pose proof (fpu_comparei_flags c x l Hl) as H2.
  cbn zeta in H1, H2. fold un in H1, H2. rewrite El, Ee in H1, H2. done.
Qed.

Lemma fpu_compare_spec_witness :
  let c := fpu_ldc fconst_one cpu_lazy in
  exists c', fpu_compare (fpu_consts fconst_pi) c = Some c' /\ (c0 c', c1 c', c2 c', c3 c') = (1, 0, 0, 0).
Proof.
  intros c. destruct (fpu_compare_spec c (fpu_consts fconst_pi)) as [(c' & H1 & H2 & _) _].
  - split; [reflexivity|]. repeat constructor; try discriminate; left; reflexivity.
  - repeat constructor; try discriminate; left; reflexivity.
  - left. split; (split_and!; [repeat constructor; try discriminate; left; reflexivity|reflexivity..]).
  - exists c'. split; [exact H1|]. etransitivity; [exact H2|]. vm_compute. reflexivity.
Defined.

(** ** Loads and stores *)

Lemma ST_push c f : length (fp c) = 8%nat -> ST (fpu_push f c) 0 = f.
Proof.
  intros Hl. unfold fpu_push. by rewrite ST_set_ST by (done || lia).
Qed.

Lemma rounding_push c f : rounding (fpu_push f c) = rounding c.
Proof. reflexivity. Qed.

Lemma le_value_bytes n x : le_value (map (fun i => bits (8 * i) 8 x) (seqZ 0 (Z.of_nat n))) = wrap (8 * Z.of_nat n) x.
Proof.
  revert x. induction n as [|n IH]; intros x; [unfold wrap; cbn; by rewrite Z.mod_1_r|].
  rewrite Nat2Z.inj_succ. rewrite seqZ_cons by lia. cbn [map le_value fold_right].
  replace (Z.pred (Z.succ (Z.of_nat n))) with (Z.of_nat n) by lia.
  specialize (IH (Z.shiftr x 8)). change (Z.succ 0) with (1 + 0).
  rewrite <- fmap_add_seqZ. unfold fmap. rewrite map_map.
  assert (map (fun i => bits (8 * (1 + i)) 8 x) (seqZ 0 (Z.of_nat n)) =
          map (fun i => bits (8 * i) 8 (Z.shiftr x 8)) (seqZ 0 (Z.of_nat n))) as ->.
  { apply map_ext_in. intros i Hi. apply list_elem_of_In, elem_of_seqZ in Hi.
    unfold bits. rewrite Z.shiftr_shiftr by lia. do 2 f_equal. lia. }
  fold (le_value (map (fun i => bits (8 * i) 8 (Z.shiftr x 8)) (seqZ 0 (Z.of_nat n)))). rewrite IH.
  rewrite Z.mul_0_r, bits_wrap by lia. rewrite Z.shiftr_div_pow2 by lia. unfold wrap.
  replace (8 * Z.succ (Z.of_nat n)) with (8 + 8 * Z.of_nat n) by lia. rewrite Z.pow_add_r by lia.
  by rewrite Z.rem_mul_r by (apply Z.pow_nonzero || apply Z.pow_pos_nonneg; lia).
Qed.

Lemma le_bytes_value n x : 0 <= n -> in_u (8 * n) x -> le_value (le_bytes n x) = x.
Proof.
  intros Hn Hx. unfold le_bytes. pose proof (le_value_bytes (Z.to_nat n) x) as E.
  rewrite Z2Nat.id in E by lia. rewrite E. by apply wrap_small.
Qed.

Lemma le_bytes_length n x : 0 <= n -> length (le_bytes n x) = Z.to_nat n.
Proof. intros. unfold le_bytes. by rewrite length_map, length_seqZ. Qed.

Lemma of_signExp_signExp f : wf f -> of_signExp (signif f) (signExp f) = f.
Proof.
  intros (_ & [He He'] & Hs). unfold of_signExp, signExp, bits.
  rewrite !Z.land_ones, !Z.shiftr_div_pow2, Z.div_1_r by lia. destruct f as [sg e s]. cbn [signif exp sign] in *.
  rewrite Z.mod_add, Z.div_add, Z.mod_small, Z.div_small by lia. by destruct Hs as [-> | ->].
Qed.

Lemma f80_bytes_round_trip f : wf f -> f80_of_bytes (f80_bytes f) = f.
Proof.
  intros Hf. pose proof Hf as ([H1 H2] & [H3 H4] & H5). unfold f80_of_bytes, f80_bytes.
  rewrite take_app_length', drop_app_length' by (by rewrite le_bytes_length).
  rewrite !le_bytes_value; [by apply of_signExp_signExp|lia| |lia|done].
  unfold in_u, signExp. change (8 * 2) with 16. destruct H5 as [-> | ->]; lia.
Qed.

Lemma in_s_weaken w w' x : 0 < w <= w' -> in_s w x -> in_s w' x.
Proof.
  unfold in_s. intros Hw [H1 H2]. assert (2 ^ (w - 1) <= 2 ^ (w' - 1)) by (apply Z.pow_le_mono_r; lia). lia.
Qed.

(** What is loaded is stored back unchanged, in every rounding mode: integers of
    16, 32 and 64 bits, doubles (NaNs included), floats other than NaNs, and the ten bytes
    of an extended number; no load fails. *)
Theorem fpu_load_store_round_trip `{Host} c : fpu_wf c ->
  (forall i, in_s 16 i -> exists c', fpu_ild16 i c = Some c' /\ fpu_ist16 c' = i) /\
  (forall i, in_s 32 i -> exists c', fpu_ild32 i c = Some c' /\ fpu_ist32 c' = i) /\
  (forall i, in_s 64 i -> exists c', fpu_ild64 i c = Some c' /\ fpu_ist64 c' = i) /\
  (forall d, in_u 64 d -> exists c', fpu_ldm64 d c = Some c' /\ fpu_stm64 c' = d) /\
  (forall d, in_u 32 d -> is_nan 23 8 d = false -> exists c', fpu_ldm32 d c = Some c' /\ fpu_stm32 c' = d) /\
  (forall f, wf f -> f80_of_bytes (fpu_stm80 (fpu_ldm80 f c)) = f).
Proof.
  intros [Hl Hwf].
  assert (Hint : forall i, in_s 64 i -> exists f, f80_from_int i = Some f /\
    f80_to_int (rounding c) (ST (fpu_push f c) 0) = i).
  { intros i Hi. destruct (f80_int_round_trip (rounding c) i Hi) as (f & Hf & Hi').
    exists f. by rewrite ST_push. }
  assert (Hdbl : forall d, in_u 64 d -> exists f, f80_from_double d = Some f /\
    f80_to_double (rounding c) (ST (fpu_push f c) 0) = d).
  { intros d Hd. destruct (f80_double_round_trip (rounding c) d Hd) as (f & Hf & Hd').
    exists f. by rewrite ST_push. }
  split_and!.
  - intros i Hi. destruct (Hint i (in_s_weaken 16 64 i ltac:(lia) Hi)) as (f & Hf & Hi').
    unfold fpu_ild16. rewrite Hf. eexists. split; [done|]. unfold fpu_ist16. rewrite rounding_push, Hi'.
    unfold in_s in Hi. rewrite Z.gtb_ltb, (proj2 (Z.ltb_ge i _)), (proj2 (Z.ltb_ge _ i)) by lia. by apply swrap_small.
  - intros i Hi. destruct (Hint i (in_s_weaken 32 64 i ltac:(lia) Hi)) as (f & Hf & Hi').
    unfold fpu_ild32. rewrite Hf. eexists. split; [done|]. unfold fpu_ist32. rewrite rounding_push, Hi'.
    unfold in_s in Hi. rewrite Z.gtb_ltb, (proj2 (Z.ltb_ge i _)), (proj2 (Z.ltb_ge _ i)) by lia. by apply swrap_small.
  - intros i Hi. destruct (Hint i Hi) as (f & Hf & Hi'). unfold fpu_ild64. rewrite Hf. eexists. split; [done|exact Hi'].
  - intros d Hd. destruct (Hdbl d Hd) as (f & Hf & Hd'). unfold fpu_ldm64. rewrite Hf. eexists. split; [done|exact Hd'].
  - intros d Hd Hn. destruct (Hdbl _ (f32_to_f64_range d Hn)) as (f & Hf & Hd'). unfold fpu_ldm32. rewrite Hf.
    eexists. split; [done|]. unfold fpu_stm32. rewrite rounding_push, Hd'. by apply f32_f64_round_trip.
  - intros f Hf. unfold fpu_stm80, fpu_ldm80. rewrite ST_push by done. by apply f80_bytes_round_trip.
Qed.

Lemma fpu_load_store_round_trip_witness :
  (exists c', fpu_ild16 (-7) cpu_consts = Some c' /\ fpu_ist16 c' = -7) /\
  (exists c', fpu_ldm32 1 cpu_consts = Some c' /\ fpu_stm32 c' = 1).
Proof.
  destruct (fpu_load_store_round_trip cpu_consts cpu_consts_wf) as (H16 & _ & _ & _ & Hm32 & _). split.
  - apply H16. split; [discriminate|reflexivity].
  - apply Hm32; [split; [discriminate|reflexivity]|reflexivity].
Defined.

(** ** Saving and restoring the unit *)

Lemma restore_regs_ST state c n : length (fp c) = 8%nat -> 0 <= n <= 8 ->
  forall c', fold_left (restore_reg state) (seqZ 0 n) c = c' ->
  length (fp c') = 8%nat /\ fsw c' = fsw c /\ fcw c' = fcw c /\ rounding c' = rounding c /\
  forall j, 0 <= j < 8 ->
    ST c' j = if decide (j < n) then f80_of_bytes (regs state !!! Z.to_nat j) else ST c j.
Proof.
  intros Hl [Hn0 Hn]. revert Hn. pattern n. revert n Hn0. apply natlike_ind.
  { intros _ c' <-. rewrite seqZ_nil by lia. cbn [fold_left]. split_and!; [done..|]. intros j Hj. by rewrite decide_False by lia. }
  intros n Hn0 IH Hn c' <-. unfold Z.succ. rewrite seqZ_app by lia. rewrite fold_left_app.
  specialize (IH ltac:(lia) _ eq_refl). generalize dependent (fold_left (restore_reg state) (seqZ 0 n) c).
  intros d (H1 & H2 & H3 & H4 & H5).
  rewrite (seqZ_cons (0 + n) 1), (seqZ_nil _ (Z.pred 1)) by lia. cbn [fold_left]. rewrite Z.add_0_l.
  split_and!; [|done..|].
  - cbn [restore_reg set_ST set_fp fp]. by rewrite length_insert.
  - intros j Hj. unfold restore_reg. rewrite ST_set_ST by (done || lia). case_decide as E.
    + subst j. by rewrite decide_True by lia.
    + rewrite H5 by done. destruct (decide (j < n)); [by rewrite decide_True by lia|by rewrite decide_False by lia].
Qed.

(** FNSAVE followed by FRSTOR into any processor brings back all eight stack
    positions, the status word and the control word, but not the rounding mode in force. *)
Theorem fpu_save_restore c d : fpu_wf c -> fpu_wf d -> in_u 16 (fsw c) -> in_u 16 (fcw c) ->
  let c' := fpu_restore32 (fpu_save32 c) d in
  stack c' = stack c /\ fsw c' = fsw c /\ fcw c' = fcw c /\ fpu_wf c' /\ rounding c' = rounding d.
Proof.
  intros Hc [Hl Hd] Hsw Hcw c'. subst c'. unfold fpu_restore32.
  set (d' := fpu_ldenv32 _ d). assert (Hd' : fsw d' = fsw c /\ fcw d' = fcw c).
  { unfold d', fpu_ldenv32. cbn [fpu_save32 env fpu_stenv32 control status set_fsw set_fcw fsw fcw].
    by rewrite !wrap_small. }
  destruct (restore_regs_ST (fpu_save32 c) d' 8 Hl ltac:(lia) _ eq_refl) as (H1 & E1 & E2 & E3 & H3).
  assert (Hrd : rounding d' = rounding d) by done. rewrite <- Hrd. clear Hrd.
  generalize dependent (fold_left (restore_reg (fpu_save32 c)) (seqZ 0 8) d'). intros r H1 E1 E2 E3 H3. clearbody d'.
  assert (Hst : forall j, 0 <= j < 8 -> ST r j = ST c j).
  { intros j Hj. rewrite H3 by done. rewrite decide_True by lia.
    rewrite (list_lookup_total_correct _ _ (f80_bytes (ST c j))).
    - apply f80_bytes_round_trip. by apply fpu_wf_ST.
    - cbn [fpu_save32 regs]. rewrite list_lookup_fmap, lookup_seqZ_lt by lia. cbn. do 3 f_equal. lia. }
  assert (Hs : stack r = stack c).
  { apply stack_ext; [done|]. intros j Hj. rewrite Hst by done. by apply stack_lookup. }
  split_and!; [done|by rewrite E1; apply Hd'|by rewrite E2; apply Hd'| |by rewrite E3].
  split; [done|]. apply (Forall_lookup_total_2 wf). intros i Hi. rewrite H1 in Hi.
  assert (exists j, 0 <= j < 8 /\ st_index r j = i) as (j & Hj & <-).
  { exists ((Z.of_nat i - top r) mod 8). split; [apply Z.mod_pos_bound; lia|].
    unfold st_index. rewrite Zplus_mod_idemp_r. replace (top r + (Z.of_nat i - top r)) with (Z.of_nat i) by lia.
    rewrite Z.mod_small by lia. lia. }
  fold (ST r j). rewrite Hst by done. by apply fpu_wf_ST.
Qed.

Lemma fpu_save_restore_witness :
  let c' := fpu_restore32 (fpu_save32 cpu_consts) cpu_lazy in
  stack c' = stack cpu_consts /\ fsw c' = fsw cpu_consts /\ fcw c' = fcw cpu_consts /\ fpu_wf c' /\
  rounding c' = rounding cpu_lazy.
Proof.
  apply (fpu_save_restore cpu_consts cpu_lazy); [apply cpu_consts_wf| | |].
  - split; [reflexivity|]. repeat constructor; try discriminate; left; reflexivity.
  - split; [discriminate|reflexivity].
  - split; [discriminate|reflexivity].
Defined.

(** Loading the control word puts its rounding control in force for every later
    operation; FLDENV and FRSTOR, which load the same word, do not, so after them the unit
    rounds as before, whatever the control word says. *)
Theorem fpu_ldenv_keeps_rounding c e : in_u 16 (control e) ->
  rounding (fpu_ldcw16 (control e) c) = mode_of_rc (rc (fpu_ldcw16 (control e) c)) /\
  fcw (fpu_ldenv32 e c) = fcw (fpu_ldcw16 (control e) c) /\
  rounding (fpu_ldenv32 e c) = rounding c.
Proof.
  intros Hc. split_and!; [done| |done]. cbn [fpu_ldenv32 fpu_ldcw16 set_fsw set_fcw set_rounding fcw]. by rewrite wrap_small.
Qed.

Lemma fpu_ldenv_keeps_rounding_witness :
  let e := mk_env 0xf7f 0 0 0 0 0 0 in
  mode_of_rc (rc (fpu_ldenv32 e cpu_lazy)) = round_chop /\ rounding (fpu_ldenv32 e cpu_lazy) = round_to_nearest.
Proof.
  intros e. destruct (fpu_ldenv_keeps_rounding cpu_lazy e) as (_ & _ & E).
  - split; [discriminate|reflexivity].
  - split; [reflexivity|]. rewrite E. reflexivity.
Defined.

(** FNCLEX is meant to clear the exception flags of the status word.  It
    clears all of them but the stack fault: the field it names for that one is the
    processor's sign flag, which it sets to 0 in [eflags]. *)
Theorem fpu_clex_clears_sign c :
  let c' := fpu_clex c in
  (ie c', de c', ze c', oe c', ue c', pe c', es c', b c') = (0, 0, 0, 0, 0, 0, 0, 0) /\
  stf c' = stf c /\ sf c' = 0 /\
  (c0 c', c1 c', c2 c', c3 c', top c') = (c0 c, c1 c, c2 c, c3 c, top c).
Proof.
  cbn zeta. unfold fpu_clex, ie, de, ze, oe, ue, pe, es, b, stf, sf, c0, c1, c2, c3, top,
    set_pe, set_ue, set_oe, set_ze, set_de, set_ie, set_es, set_sf, set_b.
  cbn [fsw eflags set_fsw set_eflags]. field_simpl. done.
Qed.

End Fpu.
