(* ===== verification/Vec.v ===== *)
(** * SSE helpers (emu/vec.c)

    A helper gets pointers to two 128-bit registers, which may be the same register, and works on their
    lanes in place or on local copies.  The registers are a store of 128-bit words and a pointer is a
    position in it, so that an assignment to a lane of [dst] is seen by a later read through [src] when
    the two are the same.  Values of other types ([double *], [uint32_t *]) are lanes or arguments and results.
    The theorems compare each helper with what the instruction is documented to do to the lanes, with the two
    registers distinct or equal. *)

From S2P Require Import Prelude Float80 Cpu HostFloat.

Module Vec.
Import Cpu HostFloat.

(** ** Registers and lanes *)

Abbreviation store := (list Z).
Abbreviation cmd := (list Z -> list Z).

(** The [i]th lane of [w] bits. *)
Definition lane (w i v : Z) : Z := bits (i * w) w v.
Definition set_lane (w i x v : Z) : Z := set_bits (i * w) w x v.
Definition rd (w : Z) (r : nat) (i : Z) (st : store) : Z := lane w i (st !!! r).
Definition wr (w : Z) (r : nat) (i x : Z) : cmd := fun st => <[r := set_lane w i x (st !!! r)]> st.
(** [r->u<w>[i] = e]. *)
Definition assign (w : Z) (r : nat) (i : Z) (e : store -> Z) : cmd := fun st => wr w r i (e st) st.
Definition set_reg (r : nat) (v : Z) : cmd := fun st => <[r := v]> st.

Declare Scope vec_scope.
Delimit Scope vec_scope with vec.
Notation "a ;; b" := (fun st => b (a st)) (at level 100, b at level 200, right associativity) : vec_scope.
Open Scope vec_scope.

(** [for (i = 0; i < n; i++)] and [for (i = n - 1; i >= 0; i--)]. *)
Definition for_up (n : Z) (body : Z -> cmd) : cmd := fun st => fold_left (fun st i => body i st) (seqZ 0 n) st.
Definition for_down (n : Z) (body : Z -> cmd) : cmd := fun st => fold_left (fun st i => body i st) (rev (seqZ 0 n)) st.

Definition zero_xmm (r : nat) : cmd := assign 64 r 0 (fun _ => 0) ;; assign 64 r 1 (fun _ => 0).

(** ** Saturation *)

Definition satsw (dw : Z) : Z :=
  if dw >? 0xff80 then Z.land dw 0xff else if dw >? 0x7fff then 0x80 else if dw >? 0x7f then 0x7f else dw.
Definition satud (dw : Z) : Z :=
  if dw >? 0xffff8000 then Z.land dw 0xffff else if dw >? 0x7fffffff then 0x8000 else if dw >? 0x7fff then 0x7fff else dw.
Definition satub (dw : Z) : Z := if dw >=? 0x8000 then 0 else if dw >? 0xff then 0xff else dw.
Definition satsb (dw : Z) : Z :=
  if dw >? 0xffffff80 then Z.land dw 0xff else if dw >? 0x7fffffff then 0x80 else if dw >? 0x7f then 0x7f else dw.

(** ** Copies *)

Definition VEC_ZERO_COPY (zero copy : Z) (src dst : nat) : cmd :=
  (fun st => set_reg dst (set_bits 0 copy (bits 0 copy (st !!! src)) (st !!! dst)) st) ;;
  (fun st => set_reg dst (set_bits copy (zero - copy) 0 (st !!! dst)) st).
Definition vec_zero128_copy128 := VEC_ZERO_COPY 128 128.
Definition vec_zero128_copy64 := VEC_ZERO_COPY 128 64.
Definition vec_zero128_copy32 := VEC_ZERO_COPY 128 32.
Definition vec_zero64_copy64 := VEC_ZERO_COPY 64 64.
Definition vec_zero64_copy32 := VEC_ZERO_COPY 64 32.
Definition vec_zero32_copy32 := VEC_ZERO_COPY 32 32.

Definition vec_merge32 (src dst : nat) : cmd := assign 32 dst 0 (rd 32 src 0).
Definition vec_merge64 (src dst : nat) : cmd := assign 64 dst 0 (rd 64 src 0).
Definition vec_merge128 (src dst : nat) : cmd := assign 128 dst 0 (rd 128 src 0).

(** ** Operations through local copies *)

(** A loop over the lanes of the local [d] and [s]. *)
Definition lanes2 (w n : Z) (f : Z -> Z -> Z) (s d : Z) : Z :=
  fold_left (fun d i => set_lane w i (f (lane w i d) (lane w i s)) d) (seqZ 0 n) d.

Definition SHIFT (op : Z -> Z -> Z) (size amount : Z) (dst : nat) : cmd := fun st =>
  if amount >? size - 1 then zero_xmm dst st
  else set_reg dst (lanes2 size (128 / size) (fun d _ => op d amount) 0 (st !!! dst)) st.
Definition VEC_SSE_SHIFT (op : Z -> Z -> Z) (size : Z) (src dst : nat) : cmd := fun st =>
  let amount := rd 8 src 0 st in SHIFT op size amount dst st.
Definition VEC_SSE_IMM_SHIFT (op : Z -> Z -> Z) (size amount : Z) (dst : nat) : cmd := SHIFT op size amount dst.

Definition VEC_SSE_CMP (relop : Z -> Z -> bool) (size : Z) (src dst : nat) : cmd := fun st =>
  set_reg dst (lanes2 size (128 / size) (fun d s => if relop d s then Z.lnot 0 else 0) (st !!! src) (st !!! dst)) st.
Definition VEC_SSE_CMPD := VEC_SSE_CMP.
Definition VEC_SSE_CMPS (relop : Z -> Z -> bool) (size : Z) : nat -> nat -> cmd :=
  VEC_SSE_CMP (fun d s => relop (swrap size d) (swrap size s)) size.

Definition VEC_SSE_OP (op : Z -> Z -> Z) (size : Z) (src dst : nat) : cmd := fun st =>
  set_reg dst (lanes2 size (128 / size) op (st !!! src) (st !!! dst)) st.

Definition vec_shiftr_w128 := VEC_SSE_SHIFT Z.shiftr 16.
Definition vec_imm_shiftr_w128 := VEC_SSE_IMM_SHIFT Z.shiftr 16.
Definition vec_shiftr_d128 := VEC_SSE_SHIFT Z.shiftr 32.
Definition vec_imm_shiftr_d128 := VEC_SSE_IMM_SHIFT Z.shiftr 32.
Definition vec_shiftr_q128 := VEC_SSE_SHIFT Z.shiftr 64.
Definition vec_imm_shiftr_q128 := VEC_SSE_IMM_SHIFT Z.shiftr 64.
Definition vec_shiftl_w128 := VEC_SSE_SHIFT Z.shiftl 16.
Definition vec_imm_shiftl_w128 := VEC_SSE_IMM_SHIFT Z.shiftl 16.
Definition vec_shiftl_d128 := VEC_SSE_SHIFT Z.shiftl 32.
Definition vec_imm_shiftl_d128 := VEC_SSE_IMM_SHIFT Z.shiftl 32.
Definition vec_shiftl_q128 := VEC_SSE_SHIFT Z.shiftl 64.
Definition vec_imm_shiftl_q128 := VEC_SSE_IMM_SHIFT Z.shiftl 64.
Definition vec_compare_eqb128 := VEC_SSE_CMPD Z.eqb 8.
Definition vec_compare_eqw128 := VEC_SSE_CMPD Z.eqb 16.
Definition vec_compare_eqd128 := VEC_SSE_CMPD Z.eqb 32.
Definition vec_compares_gtb128 := VEC_SSE_CMPS Z.gtb 8.
Definition vec_compares_gtw128 := VEC_SSE_CMPS Z.gtb 16.
Definition vec_compares_gtd128 := VEC_SSE_CMPS Z.gtb 32.
Definition vec_add_b128 := VEC_SSE_OP Z.add 8.
Definition vec_add_w128 := VEC_SSE_OP Z.add 16.
Definition vec_add_d128 := VEC_SSE_OP Z.add 32.
Definition vec_add_q128 := VEC_SSE_OP Z.add 64.
Definition vec_sub_b128 := VEC_SSE_OP Z.sub 8.
Definition vec_sub_w128 := VEC_SSE_OP Z.sub 16.
Definition vec_sub_d128 := VEC_SSE_OP Z.sub 32.
Definition vec_sub_q128 := VEC_SSE_OP Z.sub 64.
Definition vec_and_dq128 := VEC_SSE_OP Z.land 128.
Definition vec_or_dq128 := VEC_SSE_OP Z.lor 128.
Definition vec_xor_dq128 := VEC_SSE_OP Z.lxor 128.

Definition vec_imm_shiftl_dq128 (amount : Z) (dst : nat) : cmd := fun st =>
  if amount >=? 16 then zero_xmm dst st else assign 128 dst 0 (fun st => Z.shiftl (rd 128 dst 0 st) (amount * 8)) st.
Definition vec_imm_shiftr_dq128 (amount : Z) (dst : nat) : cmd := fun st =>
  if amount >=? 16 then zero_xmm dst st else assign 128 dst 0 (fun st => Z.shiftr (rd 128 dst 0 st) (amount * 8)) st.

Definition sar_lane (w amount x : Z) : Z :=
  if amount >? w - 1 then if ctrue (Z.land (Z.shiftr x (w - 1)) 1) then 2 ^ w - 1 else 0
  else Z.shiftr (swrap w x) amount.
Definition vec_shiftrs_w128 (src dst : nat) : cmd := fun st =>
  let amount := rd 8 src 0 st in for_up 8 (fun i => assign 16 dst i (fun st => sar_lane 16 amount (rd 16 dst i st))) st.
Definition vec_shiftrs_d128 (src dst : nat) : cmd := fun st =>
  let amount := rd 8 src 0 st in for_up 4 (fun i => assign 32 dst i (fun st => sar_lane 32 amount (rd 32 dst i st))) st.
Definition vec_imm_shiftrs_w128 (amount : Z) (dst : nat) : cmd :=
  for_up 8 (fun i => assign 16 dst i (fun st => sar_lane 16 amount (rd 16 dst i st))).
Definition vec_imm_shiftrs_d128 (amount : Z) (dst : nat) : cmd :=
  for_up 4 (fun i => assign 32 dst i (fun st => sar_lane 32 amount (rd 32 dst i st))).

(** ** Operations lane by lane in place *)

(** [for (i = 0; i < n; i++) dst->u<w>[i] = f(dst->u<w>[i], src->u<w>[i])]. *)
Definition inplace (w n : Z) (f : Z -> Z -> Z) (src dst : nat) : cmd :=
  for_up n (fun i => assign w dst i (fun st => f (rd w dst i st) (rd w src i st))).

Definition vec_addus_b128 := inplace 8 16 (fun d s => let sb := d + s in if sb >? 0xff then 0xff else sb).
Definition vec_addus_w128 := inplace 16 8 (fun d s => let sw := d + s in if sw >? 0xffff then 0xffff else sw).
Definition vec_addss_b128 := inplace 8 16 (fun d s => satsb (u32 (s8 d + s8 s))).
Definition vec_addss_w128 := inplace 16 8 (fun d s => satud (u32 (s16 d + s16 s))).
Definition vec_subus_b128 := inplace 8 16 (fun d s => let sb := d - s in if sb <? 0 then 0 else sb).
Definition vec_subus_w128 := inplace 16 8 (fun d s => let sw := d - s in if sw <? 0 then 0 else sw).
Definition vec_subss_b128 := inplace 8 16 (fun d s => satsb (u32 (s8 d - s8 s))).
Definition vec_subss_w128 := inplace 16 8 (fun d s => satud (u32 (s16 d - s16 s))).

Definition madd_pair (src dst : nat) (i : Z) (st : store) : Z :=
  s32 (s16 (rd 16 dst (2 * i) st) * s16 (rd 16 src (2 * i) st)) +
  s32 (s16 (rd 16 dst (2 * i + 1) st) * s16 (rd 16 src (2 * i + 1) st)).
Definition vec_madd_d128 (src dst : nat) : cmd :=
  assign 32 dst 0 (madd_pair src dst 0) ;; assign 32 dst 1 (madd_pair src dst 1) ;;
  assign 32 dst 2 (madd_pair src dst 2) ;; assign 32 dst 3 (madd_pair src dst 3).

Definition absdiff (a b : Z) : Z := let diff := a - b in if diff <? 0 then u32 (- u32 diff) else diff.
Definition vec_sumabs_w128 (src dst : nat) : cmd := fun st =>
  let sum k := fold_left (fun acc i => u32 (acc + absdiff (rd 8 dst (i + k) st) (rd 8 src (i + k) st))) (seqZ 0 8) 0 in
  (assign 32 dst 0 (fun _ => sum 0) ;; assign 32 dst 2 (fun _ => sum 8) ;;
   assign 32 dst 3 (fun _ => 0) ;; assign 32 dst 1 (fun _ => 0)) st.

Definition vec_mulu_dq128 (src dst : nat) : cmd :=
  assign 64 dst 0 (fun st => rd 32 src 0 st * rd 32 dst 0 st) ;;
  assign 64 dst 1 (fun st => rd 32 src 2 st * rd 32 dst 2 st).

Definition vec_andn128 (src dst : nat) : cmd :=
  assign 64 dst 0 (fun st => Z.land (Z.lnot (rd 64 dst 0 st)) (rd 64 src 0 st)) ;;
  assign 64 dst 1 (fun st => Z.land (Z.lnot (rd 64 dst 1 st)) (rd 64 src 1 st)).

Definition vec_min_ub128 := inplace 8 16 (fun d s => if s <? d then s else d).
Definition vec_max_ub128 := inplace 8 16 (fun d s => if s >? d then s else d).
Definition vec_mins_w128 := inplace 16 8 (fun d s => if s16 d <? s16 s then d else s).
Definition vec_maxs_w128 := inplace 16 8 (fun d s => if s16 d >? s16 s then d else s).

Definition vec_avg_b128 := inplace 8 16 (fun d s => Z.shiftr (1 + d + s) 1).
Definition vec_avg_w128 := inplace 16 8 (fun d s => Z.shiftr (1 + d + s) 1).
Definition vec_mull128 := inplace 16 8 (fun d s => u16 (d * s)).
Definition vec_mulu128 := inplace 16 8 (fun d s => Z.land (Z.shiftr (u32 (s16 d * s16 s)) 16) 0xffff).
Definition vec_muluu128 := inplace 16 8 (fun d s => Z.land (Z.shiftr (u32 (d * s)) 16) 0xffff).

(** ** Unpacking, packing and shuffling *)

Definition vec_unpackl_bw128 (src dst : nat) : cmd :=
  for_down 8 (fun i => assign 8 dst (i * 2 + 1) (rd 8 src i) ;; assign 8 dst (i * 2) (rd 8 dst i)).
Definition vec_unpackl_w128 (src dst : nat) : cmd :=
  for_down 4 (fun i => assign 16 dst (i * 2 + 1) (rd 16 src i) ;; assign 16 dst (i * 2) (rd 16 dst i)).
Definition vec_unpackl_dq128 (src dst : nat) : cmd :=
  assign 32 dst 3 (rd 32 src 1) ;; assign 32 dst 2 (rd 32 dst 1) ;; assign 32 dst 1 (rd 32 src 0).
Definition vec_unpackl_qdq128 (src dst : nat) : cmd := assign 64 dst 1 (rd 64 src 0).
Definition vec_unpackl_ps128 (src dst : nat) : cmd :=
  assign 32 dst 2 (rd 32 dst 1) ;; assign 32 dst 1 (rd 32 src 0) ;; assign 32 dst 3 (rd 32 src 1).
Definition vec_unpackl_pd128 (src dst : nat) : cmd := assign 64 dst 1 (rd 64 src 0).
Definition vec_unpackh_bw128 (src dst : nat) : cmd :=
  for_up 8 (fun i => assign 8 dst (2 * i + 0) (rd 8 dst (i + 8)) ;; assign 8 dst (2 * i + 1) (rd 8 src (i + 8))).
Definition vec_unpackh_w128 (src dst : nat) : cmd :=
  for_up 4 (fun i => assign 16 dst (2 * i + 0) (rd 16 dst (i + 4)) ;; assign 16 dst (2 * i + 1) (rd 16 src (i + 4))).
Definition vec_unpackh_d128 (src dst : nat) : cmd :=
  assign 32 dst 0 (rd 32 dst 2) ;; assign 32 dst 1 (rd 32 src 2) ;;
  assign 32 dst 2 (rd 32 dst 3) ;; assign 32 dst 3 (rd 32 src 3).
Definition vec_unpackh_dq128 (src dst : nat) : cmd := assign 64 dst 0 (rd 64 dst 1) ;; assign 64 dst 1 (rd 64 src 1).
Definition vec_unpackh_ps128 (src dst : nat) : cmd :=
  assign 32 dst 0 (rd 32 dst 2) ;; assign 32 dst 1 (rd 32 src 2) ;;
  assign 32 dst 2 (rd 32 dst 3) ;; assign 32 dst 3 (rd 32 src 3).
Definition vec_unpackh_pd128 (src dst : nat) : cmd := assign 64 dst 0 (rd 64 dst 1) ;; assign 64 dst 1 (rd 64 src 1).

(** Four saturated words of [r] from lane [k], as the bytes of a double word. *)
Definition pack4 (sat : Z -> Z) (r : nat) (k : Z) (st : store) : Z :=
  Z.lor (Z.lor (Z.lor (Z.shiftl (sat (rd 16 r k st)) 0x00) (Z.shiftl (sat (rd 16 r (k + 1) st)) 0x08))
               (Z.shiftl (sat (rd 16 r (k + 2) st)) 0x10)) (Z.shiftl (sat (rd 16 r (k + 3) st)) 0x18).
Definition vec_packss_w128 (src dst : nat) : cmd :=
  assign 32 dst 0 (pack4 satsw dst 0) ;; assign 32 dst 1 (pack4 satsw dst 4) ;;
  assign 32 dst 2 (pack4 satsw src 0) ;; assign 32 dst 3 (pack4 satsw src 4).
Definition pack2 (r : nat) (k : Z) (st : store) : Z :=
  Z.lor (satud (rd 32 r k st)) (Z.shiftl (satud (rd 32 r (k + 1) st)) 16).
Definition vec_packss_d128 (src dst : nat) : cmd :=
  assign 32 dst 0 (pack2 dst 0) ;; assign 32 dst 1 (pack2 dst 2) ;;
  assign 32 dst 2 (pack2 src 0) ;; assign 32 dst 3 (pack2 src 2).
Definition vec_packsu_w128 (src dst : nat) : cmd :=
  assign 32 dst 0 (pack4 satub dst 0) ;; assign 32 dst 1 (pack4 satub dst 4) ;;
  assign 32 dst 2 (pack4 satub src 0) ;; assign 32 dst 3 (pack4 satub src 4).

Definition vec_shuffle_lw128 (src dst : nat) (encoding : Z) : cmd := fun st =>
  let src_copy := st !!! src in
  (for_up 4 (fun i => assign 16 dst i (fun _ => lane 16 (Z.shiftr encoding (i * 2) mod 4) src_copy)) ;;
   assign 64 dst 1 (rd 64 src 1)) st.
Definition vec_shuffle_hw128 (src dst : nat) (encoding : Z) : cmd := fun st =>
  let src_copy := st !!! src in
  let sel k := lane 16 (Z.lor (Z.land (Z.shiftr encoding k) 3) 4) src_copy in
  (assign 64 dst 0 (rd 64 src 0) ;;
   assign 32 dst 2 (fun _ => Z.lor (sel 0) (Z.shiftl (sel 2) 16)) ;;
   assign 32 dst 3 (fun _ => Z.lor (sel 4) (Z.shiftl (sel 6) 16))) st.
Definition vec_shuffle_d128 (src dst : nat) (encoding : Z) : cmd := fun st =>
  let src_copy := st !!! src in
  for_up 4 (fun i => assign 32 dst i (fun _ => lane 32 (Z.shiftr encoding (i * 2) mod 4) src_copy)) st.
Definition vec_shuffle_ps128 (src dst : nat) (encoding : Z) : cmd :=
  assign 32 dst 0 (rd 32 dst (Z.land (Z.shiftr encoding 0) 3)) ;;
  assign 32 dst 1 (rd 32 dst (Z.land (Z.shiftr encoding 2) 3)) ;;
  assign 32 dst 2 (rd 32 src (Z.land (Z.shiftr encoding 4) 3)) ;;
  assign 32 dst 3 (rd 32 src (Z.land (Z.shiftr encoding 6) 3)).
Definition vec_shuffle_pd128 (src dst : nat) (encoding : Z) : cmd :=
  assign 64 dst 0 (rd 64 dst (Z.land (Z.shiftr encoding 0) 1)) ;;
  assign 64 dst 1 (rd 64 src (Z.land (Z.shiftr encoding 1) 1)).

Definition vec_movmask_b128 (src : nat) (st : store) : Z :=
  fold_left (fun d i => if ctrue (Z.land (rd 8 src i st) (2 ^ 7)) then Z.lor d (Z.shiftl 1 i) else d) (seqZ 0 16) 0.
Definition vec_fmovmask_d128 (src : nat) (st : store) : Z :=
  fold_left (fun d i => if signbit 52 11 (rd 64 src i st) then Z.lor d (Z.shiftl 1 i) else d) (seqZ 0 2) 0.

Definition vec_movl_p64 (src : Z) (dst : nat) : cmd := assign 64 dst 0 (fun _ => src).
Definition vec_movl_pm64 (src : nat) (st : store) : Z := rd 64 src 0 st.
Definition vec_movh_p64 (src : Z) (dst : nat) : cmd := assign 64 dst 1 (fun _ => src).
Definition vec_movh_pm64 (src : nat) (st : store) : Z := rd 64 src 1 st.
Definition vec_insert_w128 (src : Z) (dst : nat) (index : Z) : cmd := assign 16 dst (index mod 8) (fun _ => u16 src).
Definition vec_extract_w128 (src : nat) (index : Z) (st : store) : Z := rd 16 src (index mod 8) st.

(** ** Floating point *)

Definition cmp_type (eq lt le : Z -> Z -> bool) (nan : Z -> bool) (a b type : Z) : bool :=
  let res :=
    if type mod 4 =? 0 then eq a b
    else if type mod 4 =? 1 then lt a b
    else if type mod 4 =? 2 then le a b
    else nan a || nan b in
  if type >=? 4 then negb res else res.
Definition cmpd : Z -> Z -> Z -> bool := cmp_type (feq 52 11) (flt 52 11) (fle 52 11) (is_nan 52 11).
Definition cmps : Z -> Z -> Z -> bool := cmp_type (feq 23 8) (flt 23 8) (fle 23 8) (is_nan 23 8).

Definition vec_single_fcmp64 (src : Z) (dst : nat) (type : Z) : cmd :=
  assign 64 dst 0 (fun st => if cmpd (rd 64 dst 0 st) src type then -1 else 0).
Definition vec_single_fcmp32 (src : Z) (dst : nat) (type : Z) : cmd :=
  assign 32 dst 0 (fun st => if cmps (rd 32 dst 0 st) src type then -1 else 0).

Definition vec_single_fmax64 (src dst : nat) : cmd := assign 64 dst 0 (fun st =>
  let s := rd 64 src 0 st in let d := rd 64 dst 0 st in
  if flt 52 11 d s || is_nan 52 11 s || is_nan 52 11 d then s else d).
Definition vec_single_fmin64 (src dst : nat) : cmd := assign 64 dst 0 (fun st =>
  let s := rd 64 src 0 st in let d := rd 64 dst 0 st in
  if flt 52 11 s d || is_nan 52 11 s || is_nan 52 11 d then s else d).
Definition vec_single_fmax32 (src dst : nat) : cmd := assign 32 dst 0 (fun st =>
  let s := rd 32 src 0 st in let d := rd 32 dst 0 st in
  if flt 23 8 d s || is_nan 23 8 s || is_nan 23 8 d then s else d).
Definition vec_single_fmin32 (src dst : nat) : cmd := assign 32 dst 0 (fun st =>
  let s := rd 32 src 0 st in let d := rd 32 dst 0 st in
  if flt 23 8 s d || is_nan 23 8 s || is_nan 23 8 d then s else d).

(** The comparison of two values in the flags. *)
Definition ucomi (eq lt : Z -> Z -> bool) (nan : Z -> bool) (src dst : Z) (c : cpu_state) : cpu_state :=
  let c := set_zf_res 0 (set_pf_res 0 c) in
  let c := set_zf (cbool (eq src dst)) c in
  let c := set_cf (cbool (lt dst src)) c in
  let c := set_pf 0 c in
  let c := if nan src || nan dst then set_zf 1 (set_cf 1 (set_pf 1 c)) else c in
  let c := set_of_ 0 (set_sf 0 (set_af 0 c)) in
  set_sf_res 0 c.
Definition vec_single_ucomi32 := ucomi (feq 23 8) (flt 23 8) (is_nan 23 8).
Definition vec_single_ucomi64 := ucomi (feq 52 11) (flt 52 11) (is_nan 52 11).

Definition vec_fcmp_p64 (src dst : nat) (type : Z) : cmd :=
  for_up 2 (fun i => assign 64 dst i (fun st => if cmpd (rd 64 dst i st) (rd 64 src i st) type then -1 else 0)).

Section WithHost.
Context `{Hst : Host}.

Definition vec_single_fadd64 (src dst : nat) : cmd := assign 64 dst 0 (fun st => fadd 52 11 (rd 64 dst 0 st) (rd 64 src 0 st)).
Definition vec_single_fadd32 (src dst : nat) : cmd := assign 32 dst 0 (fun st => fadd 23 8 (rd 32 dst 0 st) (rd 32 src 0 st)).
Definition vec_single_fmul64 (src dst : nat) : cmd := assign 64 dst 0 (fun st => fmul 52 11 (rd 64 dst 0 st) (rd 64 src 0 st)).
Definition vec_single_fmul32 (src dst : nat) : cmd := assign 32 dst 0 (fun st => fmul 23 8 (rd 32 dst 0 st) (rd 32 src 0 st)).
Definition vec_single_fsub64 (src dst : nat) : cmd := assign 64 dst 0 (fun st => fsub 52 11 (rd 64 dst 0 st) (rd 64 src 0 st)).
Definition vec_single_fsub32 (src dst : nat) : cmd := assign 32 dst 0 (fun st => fsub 23 8 (rd 32 dst 0 st) (rd 32 src 0 st)).
Definition vec_single_fdiv64 (src dst : nat) : cmd := assign 64 dst 0 (fun st => fdiv 52 11 (rd 64 dst 0 st) (rd 64 src 0 st)).
Definition vec_single_fdiv32 (src dst : nat) : cmd := assign 32 dst 0 (fun st => fdiv 23 8 (rd 32 dst 0 st) (rd 32 src 0 st)).
Definition vec_single_fsqrt64 (src dst : nat) : cmd := assign 64 dst 0 (fun st => fsqrt 52 11 (rd 64 src 0 st)).
Definition vec_single_fsqrt32 (src dst : nat) : cmd := assign 32 dst 0 (fun st => fsqrt 23 8 (rd 32 src 0 st)).

Definition VEC_PACKED_OP (op : Z -> Z -> Z) (size n : Z) : nat -> nat -> cmd := inplace size n op.
Definition vec_add_p64 := VEC_PACKED_OP (fadd 52 11) 64 2.
Definition vec_add_p32 := VEC_PACKED_OP (fadd 23 8) 32 4.
Definition vec_sub_p64 := VEC_PACKED_OP (fsub 52 11) 64 2.
Definition vec_sub_p32 := VEC_PACKED_OP (fsub 23 8) 32 4.
Definition vec_mul_p64 := VEC_PACKED_OP (fmul 52 11) 64 2.
Definition vec_mul_p32 := VEC_PACKED_OP (fmul 23 8) 32 4.

(** Conversions: [conv] converts a value, [nan] tests the source, [int_min] is INT32_MIN in the destination's type. *)
Definition VEC_CVT (ws wd : Z) (nan : Z -> bool) (conv : Z -> Z) (int_min n : Z) (src dst : nat) : cmd :=
  for_up n (fun i => assign wd dst i (fun st =>
    let x := rd ws src i st in if nan x then int_min else conv x)).
Definition PACKED_VEC_CVT (ws wd : Z) (nan : Z -> bool) (conv : Z -> Z) (int_min n : Z) (src dst : nat) : cmd :=
  VEC_CVT ws wd nan conv int_min n src dst ;;
  (fun st => set_reg dst (set_bits (n * wd) (128 - n * wd) 0 (st !!! dst)) st).

Definition INT32_MIN : Z := - 2 ^ 31.
Definition vec_cvtsi2sd32 := VEC_CVT 32 64 (fun _ => false) (fun x => of_int 52 11 (s32 x)) (of_int 52 11 INT32_MIN) 1.
Definition vec_cvttsd2si64 := VEC_CVT 64 32 (is_nan 52 11) (to_int32 52 11) INT32_MIN 1.
Definition vec_cvtsd2ss64 := VEC_CVT 64 32 (is_nan 52 11) f64_to_f32 (of_int 23 8 INT32_MIN) 1.
Definition vec_cvtsi2ss32 := VEC_CVT 32 32 (fun _ => false) (fun x => of_int 23 8 (s32 x)) (of_int 23 8 INT32_MIN) 1.
Definition vec_cvttss2si32 := VEC_CVT 32 32 (is_nan 23 8) (to_int32 23 8) INT32_MIN 1.
Definition vec_cvtss2sd32 := VEC_CVT 32 64 (is_nan 23 8) f32_to_f64 (of_int 52 11 INT32_MIN) 1.
Definition vec_cvttpd2dq64 := PACKED_VEC_CVT 64 32 (is_nan 52 11) (to_int32 52 11) INT32_MIN 2.
Definition vec_cvttps2dq32 := PACKED_VEC_CVT 32 32 (is_nan 23 8) (to_int32 23 8) INT32_MIN 4.
End WithHost.

(** ** Lemmas on lanes and stores *)

Lemma lane_set_same w i x v : 0 < w -> 0 <= i -> lane w i (set_lane w i x v) = wrap w x.
Proof. intros. apply bits_set_same; nia. Qed.

Lemma lane_set_other w i j x v : 0 < w -> 0 <= i -> 0 <= j -> i <> j -> lane w j (set_lane w i x v) = lane w j v.
Proof. intros. apply bits_set_other; nia. Qed.

Lemma set_lane_range w n i x v : 0 < w -> 0 <= i < n -> in_u (w * n) v -> in_u (w * n) (set_lane w i x v).
Proof. intros. apply set_bits_range; [nia..|done]. Qed.

Lemma lane_range w i v : 0 <= w -> in_u w (lane w i v).
Proof. intros. by apply bits_range. Qed.

(** A lane of a register after an assignment to a lane, the registers equal or not. *)
Lemma rd_assign w r i e st r' j : 0 < w -> 0 <= i -> 0 <= j -> (r < length st)%nat ->
  rd w r' j (assign w r i e st) =
    if decide (r' = r /\ j = i) then wrap w (e st) else rd w r' j st.
Proof.
  intros. unfold rd, assign, wr. destruct (decide (r' = r)) as [->|Hn].
  - rewrite list_lookup_total_insert_eq by done. destruct (decide (j = i)) as [->|Hj].
    + rewrite decide_True by done. by rewrite lane_set_same.
    + rewrite decide_False by tauto. by rewrite lane_set_other.
  - rewrite decide_False by tauto. by rewrite list_lookup_total_insert_ne.
Qed.

Lemma assign_length w r i e st : length (assign w r i e st) = length st.
Proof. apply length_insert. Qed.

Lemma assign_other w r i e st r' : r' <> r -> assign w r i e st !!! r' = st !!! r'.
Proof. intros. unfold assign, wr. by rewrite list_lookup_total_insert_ne. Qed.

Definition regs_ok (st : store) : Prop := Forall (in_u 128) st.

Lemma regs_ok_lookup st r : regs_ok st -> (r < length st)%nat -> in_u 128 (st !!! r).
Proof. intros H Hr. by apply (Forall_lookup_total_1 (in_u 128) st r). Qed.

Lemma assign_ok w n r i e st : w * n = 128 -> 0 < w -> 0 <= i < n -> regs_ok st -> (r < length st)%nat ->
  regs_ok (assign w r i e st).
Proof.
  intros Hw H0 Hi Hst Hr. apply Forall_insert; [done|]. rewrite <- Hw. apply set_lane_range; [done..|].
  rewrite Hw. by apply regs_ok_lookup.
Qed.

(** What a helper does to the destination: it has the lanes of the instruction's definition [g], computed from
    the lanes both registers had before, and no other register changes, whether or not the two are the same. *)
Definition lanewise (w : Z) (g : Z -> Z -> Z) (op : nat -> nat -> cmd) : Prop :=
  forall st src dst, regs_ok st -> (src < length st)%nat -> (dst < length st)%nat ->
    regs_ok (op src dst st) /\ length (op src dst st) = length st /\
    (forall r, r <> dst -> op src dst st !!! r = st !!! r) /\
    (forall i, 0 <= i < 128 / w -> rd w dst i (op src dst st) = g (rd w dst i st) (rd w src i st)).

(** The loop that works in place reads a lane of either register only before it is assigned. *)
Lemma inplace_prefix w f src dst st n N : 0 < w -> w * N = 128 -> 0 <= n <= N ->
  regs_ok st -> (src < length st)%nat -> (dst < length st)%nat ->
  let st' := for_up n (fun i => assign w dst i (fun st => f (rd w dst i st) (rd w src i st))) st in
  regs_ok st' /\ length st' = length st /\ (forall r, r <> dst -> st' !!! r = st !!! r) /\
  (forall r i, 0 <= i < N -> rd w r i st' =
    if decide (r = dst /\ i < n) then wrap w (f (rd w dst i st) (rd w src i st)) else rd w r i st).
Proof.
  intros Hw HN [Hn0 Hn] Hst Hs Hd. revert Hn. pattern n. revert n Hn0. apply natlike_ind.
  { intros _. unfold for_up. rewrite seqZ_nil by lia. cbn. split_and!; [done..|].
    intros r i Hi. by rewrite decide_False by lia. }
  intros n Hn0 IH Hn. specialize (IH ltac:(lia)). unfold for_up in *. cbn zeta in *.
  unfold Z.succ. rewrite seqZ_app, fold_left_app by lia.
  rewrite (seqZ_cons (0 + n) 1), (seqZ_nil _ (Z.pred 1)) by lia. cbn [fold_left]. rewrite Z.add_0_l.
  generalize dependent (fold_left (fun st i => assign w dst i (fun st => f (rd w dst i st) (rd w src i st)) st) (seqZ 0 n) st).
  intros d (H1 & H2 & H3 & H4). split_and!.
  - apply (assign_ok w N); [done..|lia|done|lia].
  - by rewrite assign_length.
  - intros r Hr. rewrite assign_other by done. by apply H3.
  - intros r i Hi. rewrite rd_assign by lia. rewrite !H4 by lia.
    rewrite (decide_False (P := dst = dst /\ n < n)), (decide_False (P := src = dst /\ n < n)) by lia.
    destruct (decide (r = dst /\ i = n)) as [[-> ->]|Hn']; [by rewrite decide_True by lia|].
    destruct (decide (r = dst /\ i < n)); [by rewrite decide_True by lia|by rewrite decide_False by lia].
Qed.

Lemma inplace_lanewise w N f g : 0 < w -> w * N = 128 ->
  (forall a b, in_u w a -> in_u w b -> wrap w (f a b) = g a b) -> lanewise w g (inplace w N f).
Proof.
  intros Hw HN Hfg st src dst Hst Hs Hd. assert (128 / w = N) as -> by (rewrite <- HN, Z.mul_comm; apply Z.div_mul; lia).
  destruct (inplace_prefix w f src dst st N N Hw HN ltac:(nia) Hst Hs Hd) as (H1 & H2 & H3 & H4).
  split_and!; [done..|]. intros i Hi. unfold inplace. rewrite H4, decide_True by lia.
  apply Hfg; apply lane_range; lia.
Qed.

Lemma lanes2_lane w f s d n N : 0 < w -> 0 <= n <= N -> in_u (w * N) d ->
  in_u (w * N) (lanes2 w n f s d) /\
  (forall i, 0 <= i < N -> lane w i (lanes2 w n f s d) =
    if decide (i < n) then wrap w (f (lane w i d) (lane w i s)) else lane w i d).
Proof.
  intros Hw [Hn0 Hn] Hd. revert Hn. pattern n. revert n Hn0. apply natlike_ind.
  { intros _. unfold lanes2. rewrite seqZ_nil by lia. cbn. split; [done|]. intros i Hi. by rewrite decide_False by lia. }
  intros n Hn0 IH Hn. specialize (IH ltac:(lia)). unfold lanes2 in *.
  unfold Z.succ. rewrite seqZ_app, fold_left_app by lia.
  rewrite (seqZ_cons (0 + n) 1), (seqZ_nil _ (Z.pred 1)) by lia. cbn [fold_left]. rewrite Z.add_0_l.
  generalize dependent (fold_left (fun d i => set_lane w i (f (lane w i d) (lane w i s)) d) (seqZ 0 n) d).
  intros d' [H1 H2]. split; [apply set_lane_range; (lia || done)|]. intros i Hi.
  destruct (decide (i = n)) as [->|Hin].
  - rewrite lane_set_same, decide_True by lia. rewrite H2 by lia. by rewrite decide_False by lia.
  - rewrite lane_set_other, H2 by lia.
    destruct (decide (i < n)); [by rewrite decide_True by lia|by rewrite decide_False by lia].
Qed.

Lemma set_reg_lanewise w N f g : 0 < w -> w * N = 128 ->
  (forall a b, in_u w a -> in_u w b -> wrap w (f a b) = g a b) ->
  lanewise w g (fun src dst st => set_reg dst (lanes2 w (128 / w) f (st !!! src) (st !!! dst)) st).
Proof.
  intros Hw HN Hfg st src dst Hst Hs Hd. assert (128 / w = N) as -> by (rewrite <- HN, Z.mul_comm; apply Z.div_mul; lia).
  destruct (lanes2_lane w f (st !!! src) (st !!! dst) N N Hw ltac:(nia)) as [H1 H2].
  { rewrite HN. by apply regs_ok_lookup. }
  unfold set_reg. split_and!.
  - apply Forall_insert; [done|]. by rewrite <- HN.
  - apply length_insert.
  - intros r Hr. by rewrite list_lookup_total_insert_ne.
  - intros i Hi. unfold rd. rewrite list_lookup_total_insert_eq, H2, decide_True by (done || lia).
    apply Hfg; apply lane_range; lia.
Qed.

(** ** What the instructions are documented to compute *)

(** Unsigned and signed saturation of an exact result to [w] bits. *)
Definition sat_u (w x : Z) : Z := Z.max 0 (Z.min x (2 ^ w - 1)).
Definition sat_s (w x : Z) : Z := Z.max (- 2 ^ (w - 1)) (Z.min x (2 ^ (w - 1) - 1)).
(** A comparison's mask. *)
Definition mask (w : Z) (b : bool) : Z := if b then 2 ^ w - 1 else 0.

Lemma wrap_idem w x : wrap w (wrap w x) = wrap w x.
Proof. unfold wrap. apply Zmod_mod. Qed.

Lemma wrap_add_mul w x k : wrap w (x + k * 2 ^ w) = wrap w x.
Proof. unfold wrap. apply Z_mod_plus_full. Qed.

Lemma swrap_bounds w x : 0 < w -> in_s w (swrap w x).
Proof.
  intros Hw. unfold in_s, swrap. pose proof (Z.mod_pos_bound x (2 ^ w) ltac:(apply Z.pow_pos_nonneg; lia)).
  assert (2 ^ w = 2 * 2 ^ (w - 1)) by (rewrite <- Z.pow_succ_r by lia; f_equal; lia).
  destruct (Z.ltb_spec (x mod 2 ^ w) (2 ^ (w - 1))); lia.
Qed.

Lemma swrap_cases w x : 0 < w -> in_u w x -> swrap w x = if x <? 2 ^ (w - 1) then x else x - 2 ^ w.
Proof. intros Hw Hx. unfold swrap. by rewrite Z.mod_small. Qed.

Lemma u32_cases x : - 2 ^ 31 <= x < 2 ^ 31 -> u32 x = if x <? 0 then x + 2 ^ 32 else x.
Proof.
  intros Hx. destruct (Z.ltb_spec x 0).
  - rewrite <- (wrap_add_mul 32 x 1), wrap_small; [lia|]. unfold in_u. lia.
  - apply wrap_small. unfold in_u. lia.
Qed.

Lemma satsb_spec x : - 2 ^ 31 <= x < 2 ^ 31 -> wrap 8 (satsb (u32 x)) = wrap 8 (sat_s 8 x).
Proof.
  intros Hx. rewrite u32_cases by done. unfold satsb, sat_s. rewrite !Z.gtb_ltb.
  change (Z.land ?a 0xff) with (Z.land a (Z.ones 8)). rewrite Z.land_ones by lia.
  change (2 ^ (8 - 1)) with 128.
  destruct (Z.ltb_spec x 0).
  - destruct (Z.ltb_spec 0xffffff80 (x + 2 ^ 32)).
    + change ((x + 2 ^ 32) mod 2 ^ 8) with (wrap 8 (x + 2 ^ 32)). rewrite wrap_idem.
      replace (x + 2 ^ 32) with (x + 2 ^ 24 * 2 ^ 8) by lia. rewrite wrap_add_mul. f_equal. lia.
    + destruct (Z.ltb_spec 0x7fffffff (x + 2 ^ 32)); [|lia].
      rewrite <- (wrap_add_mul 8 (Z.max _ _) 1). f_equal. lia.
  - destruct (Z.ltb_spec 0xffffff80 x), (Z.ltb_spec 0x7fffffff x), (Z.ltb_spec 0x7f x); try lia; f_equal; lia.
Qed.

Lemma satud_spec x : - 2 ^ 31 <= x < 2 ^ 31 -> wrap 16 (satud (u32 x)) = wrap 16 (sat_s 16 x).
Proof.
  intros Hx. rewrite u32_cases by done. unfold satud, sat_s. rewrite !Z.gtb_ltb.
  change (Z.land ?a 0xffff) with (Z.land a (Z.ones 16)). rewrite Z.land_ones by lia.
  change (2 ^ (16 - 1)) with 32768.
  destruct (Z.ltb_spec x 0).
  - destruct (Z.ltb_spec 0xffff8000 (x + 2 ^ 32)).
    + change ((x + 2 ^ 32) mod 2 ^ 16) with (wrap 16 (x + 2 ^ 32)). rewrite wrap_idem.
      replace (x + 2 ^ 32) with (x + 2 ^ 16 * 2 ^ 16) by lia. rewrite wrap_add_mul. f_equal. lia.
    + destruct (Z.ltb_spec 0x7fffffff (x + 2 ^ 32)); [|lia].
      rewrite <- (wrap_add_mul 16 (Z.max _ _) 1). f_equal. lia.
  - destruct (Z.ltb_spec 0xffff8000 x), (Z.ltb_spec 0x7fffffff x), (Z.ltb_spec 0x7fff x); try lia; f_equal; lia.
Qed.

Lemma satsw_spec x : in_u 16 x -> satsw x = wrap 8 (sat_s 8 (s16 x)).
Proof.
  intros [H1 H2]. rewrite (swrap_cases 16) by (unfold in_u; lia). unfold satsw, sat_s. rewrite !Z.gtb_ltb.
  change (Z.land ?a 0xff) with (Z.land a (Z.ones 8)). rewrite Z.land_ones by lia.
  change (2 ^ (8 - 1)) with 128. change (2 ^ (16 - 1)) with 32768.
  destruct (Z.ltb_spec x 32768).
  - rewrite wrap_small by (unfold in_u; lia).
    destruct (Z.ltb_spec 0xff80 x), (Z.ltb_spec 0x7fff x), (Z.ltb_spec 0x7f x); lia.
  - destruct (Z.ltb_spec 0xff80 x).
    + change (x mod 2 ^ 8) with (wrap 8 x). replace x with (x - 2 ^ 16 + 2 ^ 8 * 2 ^ 8) at 1 by lia.
      rewrite wrap_add_mul. f_equal. lia.
    + destruct (Z.ltb_spec 0x7fff x); [|lia].
      rewrite <- (wrap_add_mul 8 (Z.max _ _) 1), wrap_small; unfold in_u; lia.
Qed.

Lemma satub_spec x : in_u 16 x -> satub x = sat_u 8 (s16 x).
Proof.
  intros [H1 H2]. rewrite (swrap_cases 16) by (unfold in_u; lia). unfold satub, sat_u.
  rewrite Z.geb_leb, Z.gtb_ltb. change (2 ^ (16 - 1)) with 32768.
  destruct (Z.ltb_spec x 32768), (Z.leb_spec 0x8000 x), (Z.ltb_spec 0xff x); lia.
Qed.

Lemma land_lnot_range a b : 0 <= b < 2 ^ 64 -> in_u 64 (Z.land (Z.lnot a) b).
Proof.
  intros Hb. apply in_u_testbit; [lia|]. split; [apply Z.land_nonneg; lia|]. intros i Hi.
  rewrite Z.land_spec. apply in_u_testbit in Hb as [_ Hb]; [|lia]. by rewrite Hb, andb_false_r.
Qed.

(** The helpers that work on corresponding lanes, with the lane width and the documented result
    of each, on lanes [d] of the destination and [s] of the source. *)
Definition lane_ops : list (Z * (Z -> Z -> Z) * (nat -> nat -> cmd)) := [
  (8, fun d s => wrap 8 (d + s), vec_add_b128); (16, fun d s => wrap 16 (d + s), vec_add_w128);
  (32, fun d s => wrap 32 (d + s), vec_add_d128); (64, fun d s => wrap 64 (d + s), vec_add_q128);
  (8, fun d s => wrap 8 (d - s), vec_sub_b128); (16, fun d s => wrap 16 (d - s), vec_sub_w128);
  (32, fun d s => wrap 32 (d - s), vec_sub_d128); (64, fun d s => wrap 64 (d - s), vec_sub_q128);
  (128, Z.land, vec_and_dq128); (128, Z.lor, vec_or_dq128); (128, Z.lxor, vec_xor_dq128);
  (64, fun d s => Z.land (Z.lnot d) s, vec_andn128);
  (8, fun d s => mask 8 (d =? s), vec_compare_eqb128); (16, fun d s => mask 16 (d =? s), vec_compare_eqw128);
  (32, fun d s => mask 32 (d =? s), vec_compare_eqd128);
  (8, fun d s => mask 8 (s8 s <? s8 d), vec_compares_gtb128); (16, fun d s => mask 16 (s16 s <? s16 d), vec_compares_gtw128);
  (32, fun d s => mask 32 (s32 s <? s32 d), vec_compares_gtd128);
  (8, fun d s => sat_u 8 (d + s), vec_addus_b128); (16, fun d s => sat_u 16 (d + s), vec_addus_w128);
  (8, fun d s => sat_u 8 (d - s), vec_subus_b128); (16, fun d s => sat_u 16 (d - s), vec_subus_w128);
  (8, fun d s => wrap 8 (sat_s 8 (s8 d + s8 s)), vec_addss_b128); (16, fun d s => wrap 16 (sat_s 16 (s16 d + s16 s)), vec_addss_w128);
  (8, fun d s => wrap 8 (sat_s 8 (s8 d - s8 s)), vec_subss_b128); (16, fun d s => wrap 16 (sat_s 16 (s16 d - s16 s)), vec_subss_w128);
  (8, Z.min, vec_min_ub128); (8, Z.max, vec_max_ub128);
  (16, fun d s => wrap 16 (Z.min (s16 d) (s16 s)), vec_mins_w128); (16, fun d s => wrap 16 (Z.max (s16 d) (s16 s)), vec_maxs_w128);
  (8, fun d s => (d + s + 1) / 2, vec_avg_b128); (16, fun d s => (d + s + 1) / 2, vec_avg_w128);
  (16, fun d s => wrap 16 (d * s), vec_mull128); (16, fun d s => wrap 16 (s16 d * s16 s / 2 ^ 16), vec_mulu128);
  (16, fun d s => d * s / 2 ^ 16, vec_muluu128)].

Lemma wrap_swrap w x : 0 < w -> in_u w x -> wrap w (swrap w x) = x.
Proof.
  intros Hw Hx. rewrite swrap_cases by done. destruct (x <? 2 ^ (w - 1)); [by apply wrap_small|].
  rewrite <- (wrap_add_mul w (x - 2 ^ w) 1). replace (x - 2 ^ w + 1 * 2 ^ w) with x by lia. by apply wrap_small.
Qed.

Lemma mask_wrap w (b : bool) : 0 < w -> wrap w (if b then Z.lnot 0 else 0) = mask w b.
Proof.
  intros Hw. assert (0 < 2 ^ w) by (apply Z.pow_pos_nonneg; lia). destruct b; cbn [mask].
  - change (Z.lnot 0) with (-1). rewrite <- (wrap_add_mul w (-1) 1), wrap_small; unfold mask, in_u; lia.
  - apply wrap_small. unfold in_u. lia.
Qed.

Lemma logic_wrap (op : Z -> Z -> Z) (fb : bool -> bool -> bool) w a b : 0 <= w -> fb false false = false ->
  (forall i, Z.testbit (op a b) i = fb (Z.testbit a i) (Z.testbit b i)) ->
  in_u w a -> in_u w b -> wrap w (op a b) = op a b.
Proof.
  intros Hw Hfb Hop Ha Hb. apply in_u_testbit in Ha as [_ Ha]; [|done]. apply in_u_testbit in Hb as [_ Hb]; [|done].
  apply Z.bits_inj'. intros i Hi. rewrite wrap_testbit by done. destruct (Z.ltb_spec i w); [done|].
  by rewrite Hop, Ha, Hb, Hfb by lia.
Qed.

Lemma mul_high x w : wrap w (Z.land (Z.shiftr (wrap 32 x) 16) 0xffff) = wrap w (wrap 16 (x / 2 ^ 16)).
Proof.
  f_equal. change 0xffff with (Z.ones 16). rewrite Z.land_ones, Z.shiftr_div_pow2 by lia. unfold wrap.
  change (2 ^ 32) with (2 ^ 16 * 2 ^ 16). rewrite Z.rem_mul_r by lia.
  rewrite (Z.mul_comm (2 ^ 16)), Z.div_add, (Z.div_small (x mod 2 ^ 16)), Z.add_0_l, Zmod_mod
    by (lia || (apply Z.mod_pos_bound; lia)). done.
Qed.

Lemma s16_bounds x : -32768 <= s16 x <= 32767.
Proof. pose proof (swrap_bounds 16 x ltac:(lia)) as [H1 H2]. change (2 ^ (16 - 1)) with 32768 in *. lia. Qed.
Lemma s8_bounds x : -128 <= s8 x <= 127.
Proof. pose proof (swrap_bounds 8 x ltac:(lia)) as [H1 H2]. change (2 ^ (8 - 1)) with 128 in *. lia. Qed.

(** The documented result of an entry from the code's expression. *)
Lemma op_entry w N f g op : op = VEC_SSE_OP f w -> 0 < w -> w * N = 128 ->
  (forall a b, in_u w a -> in_u w b -> wrap w (f a b) = g a b) -> lanewise w g op.
Proof. intros -> Hw HN Hfg. exact (set_reg_lanewise w N f g Hw HN Hfg). Qed.

Lemma cmp_entry w N r g op : op = VEC_SSE_CMP r w -> 0 < w -> w * N = 128 ->
  (forall a b, g a b = mask w (r a b)) -> lanewise w g op.
Proof.
  intros -> Hw HN Hg. refine (set_reg_lanewise w N _ g Hw HN _). intros a b _ _. rewrite Hg. by apply mask_wrap.
Qed.

Lemma inplace_entry w N f g op : op = inplace w N f -> 0 < w -> w * N = 128 ->
  (forall a b, in_u w a -> in_u w b -> wrap w (f a b) = g a b) -> lanewise w g op.
Proof. intros ->. apply inplace_lanewise. Qed.

Lemma saturating_entries d s :
  (in_u 8 d -> in_u 8 s -> wrap 8 (let sb := d + s in if sb >? 0xff then 0xff else sb) = sat_u 8 (d + s)) /\
  (in_u 16 d -> in_u 16 s -> wrap 16 (let sw := d + s in if sw >? 0xffff then 0xffff else sw) = sat_u 16 (d + s)) /\
  (in_u 8 d -> in_u 8 s -> wrap 8 (let sb := d - s in if sb <? 0 then 0 else sb) = sat_u 8 (d - s)) /\
  (in_u 16 d -> in_u 16 s -> wrap 16 (let sw := d - s in if sw <? 0 then 0 else sw) = sat_u 16 (d - s)).
Proof.
  unfold sat_u, in_u. rewrite !Z.gtb_ltb. cbn zeta. split_and!; intros Hd Hs.
  - destruct (Z.ltb_spec 0xff (d + s)); rewrite wrap_small; unfold in_u; lia.
  - destruct (Z.ltb_spec 0xffff (d + s)); rewrite wrap_small; unfold in_u; lia.
  - destruct (Z.ltb_spec (d - s) 0); rewrite wrap_small; unfold in_u; lia.
  - destruct (Z.ltb_spec (d - s) 0); rewrite wrap_small; unfold in_u; lia.
Qed.

Lemma avg_entry w d s : 0 < w -> in_u w d -> in_u w s -> wrap w (Z.shiftr (1 + d + s) 1) = (d + s + 1) / 2.
Proof.
  unfold in_u. intros Hw Hd Hs. rewrite Z.shiftr_div_pow2 by lia. change (2 ^ 1) with 2.
  replace (1 + d + s) with (d + s + 1) by lia. apply wrap_small. unfold in_u.
  split; [apply Z.div_pos; lia|apply Z.div_lt_upper_bound; lia].
Qed.

Lemma minmax_entries d s :
  (in_u 8 d -> in_u 8 s -> wrap 8 (if s <? d then s else d) = Z.min d s) /\
  (in_u 8 d -> in_u 8 s -> wrap 8 (if s >? d then s else d) = Z.max d s) /\
  (in_u 16 d -> in_u 16 s -> wrap 16 (if s16 d <? s16 s then d else s) = wrap 16 (Z.min (s16 d) (s16 s))) /\
  (in_u 16 d -> in_u 16 s -> wrap 16 (if s16 d >? s16 s then d else s) = wrap 16 (Z.max (s16 d) (s16 s))).
Proof.
  rewrite !Z.gtb_ltb. split_and!; intros Hd Hs.
  - destruct (Z.ltb_spec s d); rewrite wrap_small; unfold in_u in *; lia.
  - destruct (Z.ltb_spec d s); rewrite wrap_small; unfold in_u in *; lia.
  - destruct (Z.ltb_spec (s16 d) (s16 s)); [rewrite Z.min_l by lia|rewrite Z.min_r by lia];
      rewrite wrap_swrap by (done || lia); by apply wrap_small.
  - destruct (Z.ltb_spec (s16 s) (s16 d)); [rewrite Z.max_l by lia|rewrite Z.max_r by lia];
      rewrite wrap_swrap by (done || lia); by apply wrap_small.
Qed.

(** C29: Each of the helpers in [lane_ops] computes in every lane what the instruction is documented to
    compute, from the lanes the registers had before, whether the operands are two registers or twice the same, and
    changes no other register. *)
Theorem lane_ops_correct : Forall (fun '(w, g, op) => lanewise w g op) lane_ops.
Proof.
  repeat apply Forall_cons_2; try apply Forall_nil_2; cbn beta iota.
  - apply (op_entry 8 16 Z.add); [done|lia|lia|]. done.
  - apply (op_entry 16 8 Z.add); [done|lia|lia|]. done.
  - apply (op_entry 32 4 Z.add); [done|lia|lia|]. done.
  - apply (op_entry 64 2 Z.add); [done|lia|lia|]. done.
  - apply (op_entry 8 16 Z.sub); [done|lia|lia|]. done.
  - apply (op_entry 16 8 Z.sub); [done|lia|lia|]. done.
  - apply (op_entry 32 4 Z.sub); [done|lia|lia|]. done.
  - apply (op_entry 64 2 Z.sub); [done|lia|lia|]. done.
  - apply (op_entry 128 1 Z.land); [done|lia|lia|]. intros. by apply (logic_wrap Z.land andb); [lia| |intros; apply Z.land_spec|..].
  - apply (op_entry 128 1 Z.lor); [done|lia|lia|]. intros. by apply (logic_wrap Z.lor orb); [lia| |intros; apply Z.lor_spec|..].
  - apply (op_entry 128 1 Z.lxor); [done|lia|lia|]. intros. by apply (logic_wrap Z.lxor xorb); [lia| |intros; apply Z.lxor_spec|..].
  - apply (inplace_entry 64 2 (fun d s => Z.land (Z.lnot d) s)); [done|lia|lia|]. intros. by apply wrap_small, land_lnot_range.
  - by apply (cmp_entry 8 16 Z.eqb).
  - by apply (cmp_entry 16 8 Z.eqb).
  - by apply (cmp_entry 32 4 Z.eqb).
  - apply (cmp_entry 8 16 (fun d s => Z.gtb (swrap 8 d) (swrap 8 s))); [done|lia|lia|]. intros. by rewrite Z.gtb_ltb.
  - apply (cmp_entry 16 8 (fun d s => Z.gtb (swrap 16 d) (swrap 16 s))); [done|lia|lia|]. intros. by rewrite Z.gtb_ltb.
  - apply (cmp_entry 32 4 (fun d s => Z.gtb (swrap 32 d) (swrap 32 s))); [done|lia|lia|]. intros. by rewrite Z.gtb_ltb.
  - eapply (inplace_entry 8 16); [done|lia|lia|]. intros; by apply saturating_entries.
  - eapply (inplace_entry 16 8); [done|lia|lia|]. intros; by apply saturating_entries.
  - eapply (inplace_entry 8 16); [done|lia|lia|]. intros; by apply saturating_entries.
  - eapply (inplace_entry 16 8); [done|lia|lia|]. intros; by apply saturating_entries.
  - eapply (inplace_entry 8 16); [done|lia|lia|]. intros a b _ _. apply satsb_spec. pose proof (s8_bounds a). pose proof (s8_bounds b). lia.
  - eapply (inplace_entry 16 8); [done|lia|lia|]. intros a b _ _. apply satud_spec. pose proof (s16_bounds a). pose proof (s16_bounds b). lia.
  - eapply (inplace_entry 8 16); [done|lia|lia|]. intros a b _ _. apply satsb_spec. pose proof (s8_bounds a). pose proof (s8_bounds b). lia.
  - eapply (inplace_entry 16 8); [done|lia|lia|]. intros a b _ _. apply satud_spec. pose proof (s16_bounds a). pose proof (s16_bounds b). lia.
  - eapply (inplace_entry 8 16); [done|lia|lia|]. intros; by apply minmax_entries.
  - eapply (inplace_entry 8 16); [done|lia|lia|]. intros; by apply minmax_entries.
  - eapply (inplace_entry 16 8); [done|lia|lia|]. intros; by apply minmax_entries.
  - eapply (inplace_entry 16 8); [done|lia|lia|]. intros; by apply minmax_entries.
  - eapply (inplace_entry 8 16); [done|lia|lia|]. intros; by apply avg_entry.
  - eapply (inplace_entry 16 8); [done|lia|lia|]. intros; by apply avg_entry.
  - eapply (inplace_entry 16 8); [done|lia|lia|]. intros; apply wrap_idem.
  - eapply (inplace_entry 16 8); [done|lia|lia|]. intros; cbn beta; by rewrite mul_high, wrap_idem.
  - eapply (inplace_entry 16 8); [done|lia|lia|]. intros a b [? ?] [? ?]; cbn beta. rewrite mul_high, wrap_idem. apply wrap_small.
    split; [apply Z.div_pos; nia|apply Z.div_lt_upper_bound; nia].
Qed.

(** ** Interleaving *)

Lemma rd_assignb w r i e st r' j : 0 < w -> 0 <= i -> 0 <= j -> (r < length st)%nat ->
  rd w r' j (assign w r i e st) = if Nat.eqb r' r && Z.eqb j i then wrap w (e st) else rd w r' j st.
Proof.
  intros. rewrite rd_assign by done.
  destruct (Nat.eqb_spec r' r), (Z.eqb_spec j i); cbn [andb];
    [rewrite decide_True by done|rewrite decide_False by tauto..]; done.
Qed.

Lemma wrap_rd w r i st : 0 <= w -> wrap w (rd w r i st) = rd w r i st.
Proof. intros. apply wrap_small, lane_range. done. Qed.

(** No register but [dst] changes and all keep their width. *)
Definition frame (dst : nat) (st st' : store) : Prop :=
  regs_ok st' /\ length st' = length st /\ forall r, r <> dst -> st' !!! r = st !!! r.

Lemma frame_refl dst st : regs_ok st -> frame dst st st.
Proof. done. Qed.

Lemma frame_assign dst st st' w N i e : frame dst st st' -> w * N = 128 -> 0 < w -> 0 <= i < N ->
  (dst < length st)%nat -> frame dst st (assign w dst i e st').
Proof.
  intros (H1 & H2 & H3) ??? Hd. split_and!.
  - apply (assign_ok w N); [done..|]. by rewrite H2.
  - by rewrite assign_length.
  - intros r Hr. rewrite assign_other by done. by apply H3.
Qed.

Create HintDb vec.
#[export] Hint Resolve frame_refl : vec.

Lemma for_up_frame dst st n body : 0 <= n ->
  (forall i st', 0 <= i < n -> frame dst st st' -> frame dst st (body i st')) ->
  forall st', frame dst st st' -> frame dst st (for_up n body st').
Proof.
  intros Hn Hb st' Hst. unfold for_up.
  assert (Hin : Forall (fun i => 0 <= i < n) (seqZ 0 n)) by (apply Forall_elem; intros i Hi; apply elem_of_seqZ in Hi; lia).
  revert st' Hst. induction Hin as [|i l Hi _ IH]; intros st' Hst; [done|]. cbn [fold_left]. apply IH, Hb; done.
Qed.

(** The low or high halves of both registers interleaved, destination first. *)
Definition interleaves (w off : Z) (st : store) (src dst : nat) (st' : store) : Prop :=
  frame dst st st' /\
  forall i, 0 <= i < 64 / w -> rd w dst (2 * i) st' = rd w dst (i + off) st /\ rd w dst (2 * i + 1) st' = rd w src (i + off) st.

(** The loop from the high lanes down reads only lanes it has not yet assigned. *)
Lemma unpackl_loop w n src dst st : 0 < w -> w * n = 64 ->
  regs_ok st -> (src < length st)%nat -> (dst < length st)%nat ->
  interleaves w 0 st src dst
    (for_down n (fun i => assign w dst (i * 2 + 1) (rd w src i) ;; assign w dst (i * 2) (rd w dst i)) st).
Proof.
  intros Hw Hn Hst Hs Hd. assert (64 / w = n) as E by (rewrite <- Hn, Z.mul_comm; apply Z.div_mul; lia).
  unfold interleaves. rewrite E. unfold for_down.
  assert (Hk : forall k, 0 <= k -> k <= n -> forall st', frame dst st st' ->
    (forall r i, 0 <= i < 2 * n -> i < 2 * k \/ r <> dst -> rd w r i st' = rd w r i st) ->
    (forall i, k <= i < n -> rd w dst (2 * i) st' = rd w dst i st /\ rd w dst (2 * i + 1) st' = rd w src i st) ->
    let st2 := fold_left (fun st i => assign w dst (i * 2) (rd w dst i) (assign w dst (i * 2 + 1) (rd w src i) st)) (rev (seqZ 0 k)) st' in
    frame dst st st2 /\ forall i, 0 <= i < n -> rd w dst (2 * i) st2 = rd w dst i st /\ rd w dst (2 * i + 1) st2 = rd w src i st).
  { intros k Hk0. pattern k. revert k Hk0. apply natlike_ind.
    - intros _ st' Hf _ Hhi. rewrite seqZ_nil by lia. done.
    - intros k Hk IH Hkn st' Hf Hlo Hhi. unfold Z.succ. rewrite seqZ_app, rev_app_distr by lia.
      rewrite (seqZ_cons (0 + k) 1), (seqZ_nil _ (Z.pred 1)) by lia. cbn [rev app fold_left]. rewrite Z.add_0_l.
      pose proof Hf as (_ & Hlen & _).
      apply IH; [lia| | |].
      + apply (frame_assign dst st _ w (2 * n)); [apply (frame_assign dst st _ w (2 * n))|..]; (done || lia).
      + intros r i Hi Hor. rewrite !rd_assignb by (rewrite ?assign_length; lia).
        destruct (Nat.eqb_spec r dst) as [->|]; cbn [andb]; [|apply Hlo; [done|by right]].
        rewrite (proj2 (Z.eqb_neq i (k * 2))), (proj2 (Z.eqb_neq i (k * 2 + 1))) by lia. apply Hlo; lia.
      + intros i Hi. rewrite !rd_assignb by (rewrite ?assign_length; lia). rewrite !Nat.eqb_refl. cbn [andb].
        destruct (Z.eq_dec i k) as [->|Hne].
        * replace (2 * k =? k * 2) with true by lia. replace (2 * k + 1 =? k * 2) with false by lia.
          replace (2 * k + 1 =? k * 2 + 1) with true by lia. replace (k =? k * 2 + 1) with false by lia.
          rewrite !wrap_rd by lia. split; apply Hlo; lia.
        * replace (2 * i =? k * 2) with false by lia. replace (2 * i =? k * 2 + 1) with false by lia.
          replace (2 * i + 1 =? k * 2) with false by lia. replace (2 * i + 1 =? k * 2 + 1) with false by lia.
          apply Hhi. lia. }
  destruct (Hk n ltac:(lia) ltac:(lia) st) as [H1 H2]; [by apply frame_refl|done|lia|].
  split; [exact H1|]. intros i Hi. rewrite Z.add_0_r. by apply H2.
Qed.

(** The loop up over the high halves reads only lanes it has not yet assigned. *)
Lemma unpackh_loop w n src dst st : 0 < w -> w * n = 64 ->
  regs_ok st -> (src < length st)%nat -> (dst < length st)%nat ->
  interleaves w n st src dst
    (for_up n (fun i => assign w dst (2 * i + 0) (rd w dst (i + n)) ;; assign w dst (2 * i + 1) (rd w src (i + n))) st).
Proof.
  intros Hw Hn Hst Hs Hd. assert (64 / w = n) as E by (rewrite <- Hn, Z.mul_comm; apply Z.div_mul; lia).
  unfold interleaves. rewrite E.
  assert (Hk : forall k, 0 <= k -> k <= n ->
    let st2 := for_up k (fun i => assign w dst (2 * i + 0) (rd w dst (i + n)) ;; assign w dst (2 * i + 1) (rd w src (i + n))) st in
    frame dst st st2 /\
    (forall r i, 0 <= i < 2 * n -> 2 * k <= i \/ r <> dst -> rd w r i st2 = rd w r i st) /\
    (forall i, 0 <= i < k -> rd w dst (2 * i) st2 = rd w dst (i + n) st /\ rd w dst (2 * i + 1) st2 = rd w src (i + n) st)).
  { intros k Hk0. pattern k. revert k Hk0. apply natlike_ind.
    - intros _. unfold for_up. rewrite seqZ_nil by lia. cbn. split_and!; [by apply frame_refl|done|lia].
    - intros k Hk IH Hkn. specialize (IH ltac:(lia)). unfold for_up in *. cbn zeta in *.
      unfold Z.succ. rewrite seqZ_app, fold_left_app by lia.
      rewrite (seqZ_cons (0 + k) 1), (seqZ_nil _ (Z.pred 1)) by lia. cbn [fold_left]. rewrite Z.add_0_l.
      match goal with |- context [assign w dst (2 * k + 0) _ ?d] => generalize dependent d end.
      intros d (Hf & Hlo & Hhi). pose proof Hf as (_ & Hlen & _). split_and!.
      + apply (frame_assign dst st _ w (2 * n)); [apply (frame_assign dst st _ w (2 * n))|..]; (done || lia).
      + intros r i Hi Hor. rewrite !rd_assignb by (rewrite ?assign_length; lia).
        destruct (Nat.eqb_spec r dst) as [->|]; cbn [andb]; [|apply Hlo; [done|by right]].
        rewrite (proj2 (Z.eqb_neq i (2 * k + 1))), (proj2 (Z.eqb_neq i (2 * k + 0))) by lia. apply Hlo; lia.
      + intros i Hi. rewrite !rd_assignb by (rewrite ?assign_length; lia). rewrite !Nat.eqb_refl. cbn [andb].
        destruct (Z.eq_dec i k) as [->|Hne].
        * replace (2 * k =? 2 * k + 1) with false by lia. replace (2 * k =? 2 * k + 0) with true by lia.
          replace (2 * k + 1 =? 2 * k + 1) with true by lia. replace (k + n =? 2 * k + 0) with false by lia.
          rewrite andb_false_r, !wrap_rd by lia. split; apply Hlo; lia.
        * replace (2 * i =? 2 * k + 1) with false by lia. replace (2 * i =? 2 * k + 0) with false by lia.
          replace (2 * i + 1 =? 2 * k + 1) with false by lia. replace (2 * i + 1 =? 2 * k + 0) with false by lia.
          apply Hhi. lia. }
  destruct (Hk n ltac:(lia) ltac:(lia)) as (H1 & _ & H2). split; [exact H1|]. exact H2.
Qed.

(** Evaluate the lanes after a fixed sequence of assignments. *)
Ltac lanes_eval Hne :=
  repeat (rewrite rd_assignb by (rewrite ?assign_length; lia); cbn [Z.eqb Pos.eqb andb];
          rewrite ?Nat.eqb_refl, ?Hne; cbn [andb]);
  rewrite ?wrap_rd by lia.

Lemma unpack_fixed st src dst : regs_ok st -> (src < length st)%nat -> (dst < length st)%nat ->
  interleaves 32 0 st src dst (vec_unpackl_dq128 src dst st) /\
  interleaves 64 0 st src dst (vec_unpackl_qdq128 src dst st) /\
  interleaves 32 2 st src dst (vec_unpackh_d128 src dst st) /\
  interleaves 64 1 st src dst (vec_unpackh_dq128 src dst st).
Proof.
  intros Hst Hs Hd.
  assert (H32 : forall i, 0 <= i < 64 / 32 -> i = 0 \/ i = 1) by (intros i Hi; change (64 / 32) with 2 in Hi; lia).
  assert (H64 : forall i, 0 <= i < 64 / 64 -> i = 0) by (intros i Hi; change (64 / 64) with 1 in Hi; lia).
  assert (F32 : forall st' i e, frame dst st st' -> 0 <= i < 4 -> frame dst st (assign 32 dst i e st'))
    by (intros; by apply (frame_assign dst st _ 32 4)).
  assert (F64 : forall st' i e, frame dst st st' -> 0 <= i < 2 -> frame dst st (assign 64 dst i e st'))
    by (intros; by apply (frame_assign dst st _ 64 2)).
  pose proof (frame_refl dst st Hst) as F0.
  unfold vec_unpackl_dq128, vec_unpackl_qdq128, vec_unpackh_d128, vec_unpackh_dq128.
  destruct (Nat.eqb_spec src dst) as [->|Hne].
  - split_and!; (split; [auto 10 using F0 with lia|]);
      intros i Hi; first [apply H64 in Hi as -> | apply H32 in Hi as [-> | ->]]; cbn [Z.mul Z.add Pos.mul Pos.add];
      lanes_eval Hst; done.
  - apply Nat.eqb_neq in Hne. split_and!; (split; [auto 10 using F0 with lia|]);
      intros i Hi; first [apply H64 in Hi as -> | apply H32 in Hi as [-> | ->]]; cbn [Z.mul Z.add Pos.mul Pos.add];
      lanes_eval Hne; done.
Qed.

(** UNPCK*: every unpacking helper interleaves the low or the high halves as documented, for distinct
    registers and for a register with itself, the single precision one ([vec_unpackl_ps128]) only for distinct ones. *)
Theorem vec_unpack_spec st src dst : regs_ok st -> (src < length st)%nat -> (dst < length st)%nat ->
  interleaves 8 0 st src dst (vec_unpackl_bw128 src dst st) /\
  interleaves 16 0 st src dst (vec_unpackl_w128 src dst st) /\
  interleaves 32 0 st src dst (vec_unpackl_dq128 src dst st) /\
  interleaves 64 0 st src dst (vec_unpackl_qdq128 src dst st) /\
  interleaves 64 0 st src dst (vec_unpackl_pd128 src dst st) /\
  interleaves 8 8 st src dst (vec_unpackh_bw128 src dst st) /\
  interleaves 16 4 st src dst (vec_unpackh_w128 src dst st) /\
  interleaves 32 2 st src dst (vec_unpackh_d128 src dst st) /\
  interleaves 32 2 st src dst (vec_unpackh_ps128 src dst st) /\
  interleaves 64 1 st src dst (vec_unpackh_dq128 src dst st) /\
  interleaves 64 1 st src dst (vec_unpackh_pd128 src dst st) /\
  (src <> dst -> interleaves 32 0 st src dst (vec_unpackl_ps128 src dst st)).
Proof.
  intros Hst Hs Hd. destruct (unpack_fixed st src dst Hst Hs Hd) as (H1 & H2 & H3 & H4).
  split_and!; try done.
  - by apply (unpackl_loop 8 8).
  - by apply (unpackl_loop 16 4).
  - by apply (unpackh_loop 8 8).
  - by apply (unpackh_loop 16 4).
  - intros Hne%Nat.eqb_neq. unfold vec_unpackl_ps128. split.
    + repeat (apply (frame_assign _ _ _ 32 4); [|lia..|done]). by apply frame_refl.
    + intros i Hi. change (64 / 32) with 2 in Hi. assert (i = 0 \/ i = 1) as [-> | ->] by lia;
        cbn [Z.mul Z.add Pos.mul Pos.add]; lanes_eval Hne; done.
Qed.

(** Two registers with lanes 0, 1, 2, ... *)
Definition demo_regs : store := [0x0f0e0d0c0b0a09080706050403020100; 0x1f1e1d1c1b1a19181716151413121110].
Lemma demo_regs_ok : regs_ok demo_regs.
Proof. repeat constructor; discriminate || reflexivity. Qed.

Lemma vec_unpack_spec_witness :
  interleaves 8 8 demo_regs 1 1 (vec_unpackh_bw128 1 1 demo_regs) /\
  interleaves 32 0 demo_regs 0 1 (vec_unpackl_ps128 0 1 demo_regs).
Proof.
  split.
  - apply (vec_unpack_spec demo_regs 1 1); [apply demo_regs_ok|cbn; lia|cbn; lia].
  - apply (vec_unpack_spec demo_regs 0 1); [apply demo_regs_ok|cbn; lia|cbn; lia|lia].
Defined.

(** ** Packing *)

Lemma bits_lor lo n a b : bits lo n (Z.lor a b) = Z.lor (bits lo n a) (bits lo n b).
Proof. unfold bits. by rewrite Z.shiftr_lor, Z.land_lor_distr_l. Qed.

Lemma bits_shiftl lo n s x : 0 <= s -> 0 <= lo -> 0 <= n -> in_u n x ->
  (lo + n <= s \/ s + n <= lo \/ lo = s) -> bits lo n (Z.shiftl x s) = if lo =? s then x else 0.
Proof.
  intros Hs Hlo Hn Hx Hor. apply Z.bits_inj'. intros i Hi. rewrite bits_testbit, Z.shiftl_spec by lia.
  apply in_u_testbit in Hx as [Hx0 Hx]; [|done]. destruct (Z.eqb_spec lo s) as [->|Hne].
  - replace (i + s - s) with i by lia. destruct (Z.ltb_spec i n); [done|]. cbn. by rewrite Hx by lia.
  - rewrite Z.bits_0. destruct (Z.ltb_spec i n); [|done]. cbn.
    destruct (Z.lt_ge_cases (i + lo - s) 0); [by apply Z.testbit_neg_r|]. apply Hx. lia.
Qed.

(** A narrow lane after an assignment to a lane [k] times as wide. *)
Lemma rd_narrow w k r i e st r' j : 0 < w -> 0 < k -> 0 <= i -> 0 <= j -> (r < length st)%nat ->
  rd w r' j (assign (w * k) r i e st) =
    if Nat.eqb r' r && ((i * k <=? j) && (j <? i * k + k)) then bits ((j - i * k) * w) w (e st) else rd w r' j st.
Proof.
  intros Hw Hk Hi Hj Hr. unfold rd, assign, wr. destruct (Nat.eqb_spec r' r) as [->|Hn]; cbn [andb].
  2:{ by rewrite list_lookup_total_insert_ne. }
  rewrite list_lookup_total_insert_eq by done. unfold lane, set_lane.
  destruct (Z.leb_spec (i * k) j), (Z.ltb_spec j (i * k + k)); cbn [andb]; try (apply bits_set_other; nia).
  apply Z.bits_inj'. intros b Hb. rewrite !bits_testbit, set_bits_testbit by nia.
  destruct (Z.ltb_spec b w); [|done]. cbn [andb].
  replace ((i * (w * k) <=? b + j * w) && (b + j * w <? i * (w * k) + w * k)) with true
    by (symmetry; apply andb_true_iff; split; [apply Z.leb_le|apply Z.ltb_lt]; nia).
  f_equal. nia.
Qed.

Lemma pack4_byte sat r k st j : 0 <= j < 4 -> (forall x, in_u 16 x -> in_u 8 (sat x)) ->
  bits (j * 8) 8 (pack4 sat r k st) = sat (rd 16 r (k + j) st).
Proof.
  intros Hj Hsat. assert (Hr : forall i, in_u 8 (sat (rd 16 r i st))) by (intros i; apply Hsat, lane_range; lia).
  unfold pack4. rewrite !bits_lor, !bits_shiftl by (done || lia).
  assert (j = 0 \/ j = 1 \/ j = 2 \/ j = 3) as [-> |[-> |[-> | ->]]] by lia;
    cbn [Z.mul Z.eqb Pos.mul Pos.eqb]; rewrite ?Z.lor_0_l, ?Z.lor_0_r, ?Z.add_0_r; done.
Qed.

Lemma pack2_word r k st j : 0 <= j < 2 ->
  bits (j * 16) 16 (pack2 r k st) = wrap 16 (sat_s 16 (s32 (rd 32 r (k + j) st))).
Proof.
  intros Hj. assert (Hs : forall i, wrap 16 (satud (rd 32 r i st)) = wrap 16 (sat_s 16 (s32 (rd 32 r i st)))).
  { intros i. rewrite <- satud_spec.
    - do 2 f_equal. pose proof (lane_range 32 i (st !!! r) ltac:(lia)) as Hi. fold (rd 32 r i st) in Hi.
      symmetry. by apply wrap_swrap.
    - apply (swrap_bounds 32). lia. }
  assert (Hr : forall i, in_u 16 (satud (rd 32 r i st))).
  { intros i. pose proof (lane_range 32 i (st !!! r) ltac:(lia)) as [H1 H2]. fold (rd 32 r i st) in H1, H2.
    unfold satud. rewrite !Z.gtb_ltb. change (Z.land ?a 0xffff) with (Z.land a (Z.ones 16)). rewrite Z.land_ones by lia.
    pose proof (Z.mod_pos_bound (rd 32 r i st) (2 ^ 16) ltac:(lia)).
    destruct (Z.ltb_spec 0xffff8000 (rd 32 r i st)); [unfold in_u; lia|].
    destruct (Z.ltb_spec 0x7fffffff (rd 32 r i st)), (Z.ltb_spec 0x7fff (rd 32 r i st)); unfold in_u; lia. }
  rewrite <- Hs. unfold pack2. rewrite bits_lor, bits_shiftl by (done || lia).
  rewrite <- (Z.shiftl_0_r (satud (rd 32 r k st))), bits_shiftl by (done || lia).
  rewrite wrap_small by done.
  assert (j = 0 \/ j = 1) as [-> | ->] by lia; cbn [Z.mul Z.eqb Pos.mul Pos.eqb]; rewrite ?Z.lor_0_l, ?Z.lor_0_r, ?Z.add_0_r; done.
Qed.

(** The low half of the destination from the destination, the high half from the source, each lane of [2w] bits
    reduced by [sat]. *)
Definition packs (w : Z) (sat : Z -> Z) (st : store) (src dst : nat) (st' : store) : Prop :=
  frame dst st st' /\
  forall i, 0 <= i < 64 / w -> rd w dst i st' = sat (rd (2 * w) dst i st) /\ rd w dst (i + 64 / w) st' = sat (rd (2 * w) src i st).

(** Decide whether a lane lies in the wide lane just assigned. *)
Ltac range_bool :=
  repeat match goal with |- context [(?a <=? ?x) && (?x <? ?b)] =>
    first [ replace ((a <=? x) && (x <? b)) with true by (symmetry; apply andb_true_iff; lia)
          | replace ((a <=? x) && (x <? b)) with false by (symmetry; apply andb_false_iff; lia) ] end;
  cbn [andb].
(** Read a lane of [w] bits of [dst] through one assignment to a lane [k] times as wide. *)
Ltac narrow w k := rewrite (rd_narrow w k), Nat.eqb_refl by (rewrite ?assign_length; lia); range_bool.

Lemma pack_w_spec sat st src dst : regs_ok st -> (src < length st)%nat -> (dst < length st)%nat -> src <> dst ->
  (forall x, in_u 16 x -> in_u 8 (sat x)) ->
  packs 8 sat st src dst
    ((assign 32 dst 0 (pack4 sat dst 0) ;; assign 32 dst 1 (pack4 sat dst 4) ;;
      assign 32 dst 2 (pack4 sat src 0) ;; assign 32 dst 3 (pack4 sat src 4)) st).
Proof.
  intros Hst Hs Hd Hne Hsat. split.
  { repeat (apply (frame_assign _ _ _ 32 4); [|lia..|done]). by apply frame_refl. }
  apply Nat.eqb_neq in Hne. cbn beta.
  assert (Hsrc : forall j s i e, 0 <= i -> 0 <= j -> length s = length st -> rd 16 src j (assign 32 dst i e s) = rd 16 src j s).
  { intros j s i e Hi Hj Hl. rewrite (rd_narrow 16 2) by lia. by rewrite Hne. }
  change (64 / 8) with 8. change (2 * 8) with 16. intros i Hi. split; destruct (Z.lt_ge_cases i 4).
  - narrow 8 4. narrow 8 4. narrow 8 4. narrow 8 4. rewrite pack4_byte by (done || lia). do 2 f_equal. lia.
  - narrow 8 4. narrow 8 4. narrow 8 4. rewrite pack4_byte by (done || lia). narrow 16 2. do 2 f_equal. lia.
  - narrow 8 4. narrow 8 4. rewrite pack4_byte by (done || lia). rewrite !Hsrc by (rewrite ?assign_length; lia). do 2 f_equal. lia.
  - narrow 8 4. rewrite pack4_byte by (done || lia). rewrite !Hsrc by (rewrite ?assign_length; lia). do 2 f_equal. lia.
Qed.

Lemma pack_d_spec st src dst : regs_ok st -> (src < length st)%nat -> (dst < length st)%nat -> src <> dst ->
  packs 16 (fun x => wrap 16 (sat_s 16 (s32 x))) st src dst (vec_packss_d128 src dst st).
Proof.
  intros Hst Hs Hd Hne. unfold vec_packss_d128. split.
  { repeat (apply (frame_assign _ _ _ 32 4); [|lia..|done]). by apply frame_refl. }
  apply Nat.eqb_neq in Hne. cbn beta. change (64 / 16) with 4. change (2 * 16) with 32. intros i Hi.
  split; destruct (Z.lt_ge_cases i 2).
  - narrow 16 2. narrow 16 2. narrow 16 2. narrow 16 2. rewrite pack2_word by lia. do 4 f_equal. lia.
  - narrow 16 2. narrow 16 2. narrow 16 2. rewrite pack2_word by lia. do 3 f_equal. replace (2 + (i - 1 * 2)) with i by lia.
    rewrite rd_assignb by lia. by rewrite (proj2 (Z.eqb_neq i 0)), andb_false_r by lia.
  - narrow 16 2. narrow 16 2. rewrite pack2_word by lia. do 3 f_equal. rewrite !rd_assignb by (rewrite ?assign_length; lia).
    rewrite Hne. cbn [andb]. do 2 f_equal; lia.
  - narrow 16 2. rewrite pack2_word by lia. do 3 f_equal. rewrite !rd_assignb by (rewrite ?assign_length; lia).
    rewrite Hne. cbn [andb]. do 2 f_equal; lia.
Qed.

(** PACK*: on distinct registers every lane is the double-width lane saturated as documented, the
    destination's lanes in the low half and the source's in the high half. *)
Theorem vec_pack_spec st src dst : regs_ok st -> (src < length st)%nat -> (dst < length st)%nat -> src <> dst ->
  packs 8 (fun x => wrap 8 (sat_s 8 (s16 x))) st src dst (vec_packss_w128 src dst st) /\
  packs 8 (fun x => sat_u 8 (s16 x)) st src dst (vec_packsu_w128 src dst st) /\
  packs 16 (fun x => wrap 16 (sat_s 16 (s32 x))) st src dst (vec_packss_d128 src dst st).
Proof.
  intros Hst Hs Hd Hne. split_and!; [..|by apply pack_d_spec].
  - destruct (pack_w_spec satsw st src dst) as [F H]; [done..| |].
    { intros x Hx. rewrite satsw_spec by done. apply Z.mod_pos_bound. lia. }
    split; [exact F|]. intros i Hi. rewrite <- !satsw_spec by (apply lane_range; lia). by apply H.
  - destruct (pack_w_spec satub st src dst) as [F H]; [done..| |].
    { intros x Hx. rewrite satub_spec by done. unfold sat_u, in_u. lia. }
    split; [exact F|]. intros i Hi. rewrite <- !satub_spec by (apply lane_range; lia). by apply H.
Qed.

Lemma vec_pack_spec_witness :
  packs 16 (fun x => wrap 16 (sat_s 16 (s32 x))) demo_regs 0 1 (vec_packss_d128 0 1 demo_regs).
Proof. apply (vec_pack_spec demo_regs 0 1); [apply demo_regs_ok|cbn; lia|cbn; lia|lia]. Defined.

(** ** Shuffling *)

(** The lane number selected by the [i]th two-bit field of [encoding]. *)
Definition sel (encoding i : Z) : Z := bits (2 * i) 2 encoding.

Lemma sel_mod e i : 0 <= i -> Z.shiftr e (i * 2) mod 4 = sel e i.
Proof. intros. unfold sel, bits. rewrite Z.land_ones by lia. by rewrite (Z.mul_comm i 2). Qed.

Lemma sel_range e i : 0 <= sel e i < 4.
Proof. apply (bits_range (2 * i) 2 e). lia. Qed.

Lemma lor_4 x : 0 <= x < 4 -> Z.lor x 4 = x + 4.
Proof. intros. assert (x = 0 \/ x = 1 \/ x = 2 \/ x = 3) as [-> |[-> |[-> | ->]]] by lia; done. Qed.

Lemma shuffle_word_pair a b j : in_u 16 a -> in_u 16 b -> 0 <= j < 2 ->
  bits (j * 16) 16 (Z.lor a (Z.shiftl b 16)) = if j =? 0 then a else b.
Proof.
  intros Ha Hb Hj. rewrite bits_lor, bits_shiftl by (done || lia).
  rewrite <- (Z.shiftl_0_r a) at 1. rewrite bits_shiftl by (done || lia).
  assert (j = 0 \/ j = 1) as [-> | ->] by lia; cbn [Z.mul Z.eqb Pos.eqb]; by rewrite ?Z.lor_0_l, ?Z.lor_0_r.
Qed.

(** A narrow lane of a wide lane. *)
Lemma sub_lane w k r i j st : 0 < w -> 0 < k -> 0 <= i -> 0 <= j < k -> bits (j * w) w (rd (w * k) r i st) = rd w r (i * k + j) st.
Proof.
  intros Hw Hk Hi Hj. unfold rd, lane. apply Z.bits_inj'. intros b Hb. rewrite !bits_testbit by nia.
  destruct (Z.ltb_spec b w); [|done]. cbn [andb].
  destruct (Z.ltb_spec (b + j * w) (w * k)); [|nia]. cbn [andb]. f_equal. nia.
Qed.

Lemma shuffle_hw_ok st src dst e : regs_ok st -> (src < length st)%nat -> (dst < length st)%nat ->
  let st' := vec_shuffle_hw128 src dst e st in
  frame dst st st' /\ (forall i, 0 <= i < 4 -> rd 16 dst i st' = rd 16 src i st) /\
  (forall i, 0 <= i < 4 -> rd 16 dst (i + 4) st' = rd 16 src (sel e i + 4) st).
Proof.
  intros Hst Hs Hd. unfold vec_shuffle_hw128. cbn beta zeta. split_and!.
  - apply (frame_assign _ _ _ 32 4); [apply (frame_assign _ _ _ 32 4); [apply (frame_assign _ _ _ 64 2)|..]|..]; (done || lia).
  - intros i Hi. narrow 16 2. narrow 16 2. narrow 16 4. rewrite (sub_lane 16 4) by lia. f_equal. lia.
  - assert (Hsel : forall k, 0 <= k -> lane 16 (Z.lor (Z.land (Z.shiftr e (2 * k)) 3) 4) (st !!! src) = rd 16 src (sel e k + 4) st).
    { intros k Hk. unfold rd. f_equal. apply lor_4, sel_range. }
    pose proof (Hsel 0 ltac:(lia)) as S0. pose proof (Hsel 1 ltac:(lia)) as S1.
    pose proof (Hsel 2 ltac:(lia)) as S2. pose proof (Hsel 3 ltac:(lia)) as S3.
    change (2 * 0) with 0 in S0. change (2 * 1) with 2 in S1. change (2 * 2) with 4 in S2. change (2 * 3) with 6 in S3. rewrite S0, S1, S2, S3.
    intros i Hi. assert (i = 0 \/ i = 1 \/ i = 2 \/ i = 3) as [-> |[-> |[-> | ->]]] by lia.
    + narrow 16 2. narrow 16 2. by rewrite shuffle_word_pair by (lia || (apply lane_range; lia)).
    + narrow 16 2. narrow 16 2. by rewrite shuffle_word_pair by (lia || (apply lane_range; lia)).
    + narrow 16 2. by rewrite shuffle_word_pair by (lia || (apply lane_range; lia)).
    + narrow 16 2. by rewrite shuffle_word_pair by (lia || (apply lane_range; lia)).
Qed.

(** The shuffles that copy their source first. *)
Lemma shuffle_copy_loop w st src dst e N : 0 < w -> w * N = 128 -> 4 <= N ->
  regs_ok st -> (src < length st)%nat -> (dst < length st)%nat ->
  let st' := for_up 4 (fun i => assign w dst i (fun _ => lane w (Z.shiftr e (i * 2) mod 4) (st !!! src))) st in
  frame dst st st' /\ (forall i, 0 <= i < 4 -> rd w dst i st' = rd w src (sel e i) st) /\
  (forall r i, 4 <= i < N -> rd w r i st' = rd w r i st).
Proof.
  intros Hw HN H4 Hst Hs Hd. cbn zeta.
  change (for_up 4 ?body st) with (body 3 (body 2 (body 1 (body 0 st)))). cbn beta. rewrite !sel_mod by lia.
  split_and!.
  - repeat (apply (frame_assign _ _ _ w N); [|lia..|done]). by apply frame_refl.
  - intros i Hi. rewrite !rd_assignb by (rewrite ?assign_length; lia). rewrite Nat.eqb_refl. cbn [andb].
    assert (Hwr : forall k, wrap w (lane w (sel e k) (st !!! src)) = rd w src (sel e k) st) by (intros k; apply wrap_rd; lia).
    rewrite !Hwr. assert (i = 0 \/ i = 1 \/ i = 2 \/ i = 3) as [-> |[-> |[-> | ->]]] by lia; done.
  - intros r i Hi. rewrite !rd_assignb by (rewrite ?assign_length; lia).
    rewrite !(proj2 (Z.eqb_neq i _)), !andb_false_r by lia. done.
Qed.

(** PSHUF* and SHUFP*: every selected lane is the source lane the encoding names.  The helpers that
    copy their source first are right for any registers; SHUFPD needs distinct registers; SHUFPS needs distinct
    registers and an encoding whose second field does not name the lane the first assignment
    has already overwritten. *)
Theorem vec_shuffle_spec st src dst e : regs_ok st -> (src < length st)%nat -> (dst < length st)%nat ->
  (frame dst st (vec_shuffle_d128 src dst e st) /\
   forall i, 0 <= i < 4 -> rd 32 dst i (vec_shuffle_d128 src dst e st) = rd 32 src (sel e i) st) /\
  (frame dst st (vec_shuffle_lw128 src dst e st) /\
   (forall i, 0 <= i < 4 -> rd 16 dst i (vec_shuffle_lw128 src dst e st) = rd 16 src (sel e i) st) /\
   forall i, 4 <= i < 8 -> rd 16 dst i (vec_shuffle_lw128 src dst e st) = rd 16 src i st) /\
  (frame dst st (vec_shuffle_hw128 src dst e st) /\
   (forall i, 0 <= i < 4 -> rd 16 dst i (vec_shuffle_hw128 src dst e st) = rd 16 src i st) /\
   forall i, 0 <= i < 4 -> rd 16 dst (i + 4) (vec_shuffle_hw128 src dst e st) = rd 16 src (sel e i + 4) st) /\
  (src <> dst -> sel e 1 <> 0 \/ sel e 0 = 0 ->
   frame dst st (vec_shuffle_ps128 src dst e st) /\
   forall i, 0 <= i < 4 -> rd 32 dst i (vec_shuffle_ps128 src dst e st) = rd 32 (if i <? 2 then dst else src) (sel e i) st) /\
  (src <> dst ->
   frame dst st (vec_shuffle_pd128 src dst e st) /\
   rd 64 dst 0 (vec_shuffle_pd128 src dst e st) = rd 64 dst (bits 0 1 e) st /\
   rd 64 dst 1 (vec_shuffle_pd128 src dst e st) = rd 64 src (bits 1 1 e) st).
Proof.
  intros Hst Hs Hd. split; [|split; [|split; [by apply shuffle_hw_ok|split]]].
  - by destruct (shuffle_copy_loop 32 st src dst e 4 ltac:(lia) ltac:(lia) ltac:(lia) Hst Hs Hd) as (F & H & _).
  - destruct (shuffle_copy_loop 16 st src dst e 8 ltac:(lia) ltac:(lia) ltac:(lia) Hst Hs Hd) as (F & H & H').
    unfold vec_shuffle_lw128. cbn zeta. set (st1 := for_up 4 _ st) in *. pose proof F as (_ & Hl & _). split_and!.
    + by apply (frame_assign _ _ _ 64 2).
    + intros i Hi. narrow 16 4. by apply H.
    + intros i Hi. narrow 16 4. rewrite (sub_lane 16 4), H' by lia. f_equal. lia.
  - intros Hne%Nat.eqb_neq Hsel. unfold vec_shuffle_ps128. split.
    + repeat (apply (frame_assign _ _ _ 32 4); [|lia..|done]). by apply frame_refl.
    + change (Z.land (Z.shiftr e 0) 3) with (sel e 0). change (Z.land (Z.shiftr e 2) 3) with (sel e 1).
      change (Z.land (Z.shiftr e 4) 3) with (sel e 2). change (Z.land (Z.shiftr e 6) 3) with (sel e 3).
      pose proof (sel_range e 0). pose proof (sel_range e 1). pose proof (sel_range e 2). pose proof (sel_range e 3).
      intros i Hi. assert (i = 0 \/ i = 1 \/ i = 2 \/ i = 3) as [-> |[-> |[-> | ->]]] by lia; cbn [Z.ltb Z.compare Pos.compare Pos.compare_cont];
        rewrite !rd_assignb by (rewrite ?assign_length; lia); rewrite ?Nat.eqb_refl, ?Hne;
        cbn [andb Z.eqb Pos.eqb]; rewrite ?wrap_rd by lia; try done.
      destruct (Z.eqb_spec (sel e 1) 0) as [E|]; rewrite ?wrap_rd by lia; [|done].
      destruct Hsel as [|E0]; [done|]. by rewrite E, E0.
  - intros Hne%Nat.eqb_neq. unfold vec_shuffle_pd128.
    change (Z.land (Z.shiftr e 0) 1) with (bits 0 1 e). change (Z.land (Z.shiftr e 1) 1) with (bits 1 1 e).
    pose proof (bits_range 0 1 e ltac:(lia)) as [? _]. pose proof (bits_range 1 1 e ltac:(lia)) as [? _]. split_and!.
    + repeat (apply (frame_assign _ _ _ 64 2); [|lia..|done]). by apply frame_refl.
    + lanes_eval Hne. done.
    + lanes_eval Hne. done.
Qed.

Lemma vec_shuffle_spec_witness :
  rd 32 1 3 (vec_shuffle_d128 1 1 0x1b demo_regs) = rd 32 1 0 demo_regs /\
  rd 32 1 1 (vec_shuffle_ps128 0 1 0xe4 demo_regs) = rd 32 1 1 demo_regs.
Proof.
  destruct (vec_shuffle_spec demo_regs 1 1 0x1b) as ([_ H] & _); [apply demo_regs_ok|cbn; lia|cbn; lia|].
  destruct (vec_shuffle_spec demo_regs 0 1 0xe4) as (_ & _ & _ & H' & _); [apply demo_regs_ok|cbn; lia|cbn; lia|].
  destruct H' as [_ H']; [lia|left; vm_compute; discriminate|].
  split; [exact (H 3 ltac:(lia))|exact (H' 1 ltac:(lia))].
Defined.

(** The aliasing the helpers do not allow for, on a register with
    itself: PACKSSDW packs lanes it has already packed, UNPCKLPS reads a lane it has overwritten, and SHUFPS with the
    reversing encoding returns lane 2 where lane 1 is asked for; SHUFPS also goes wrong on distinct
    registers when the second field names lane 0. *)
Theorem vec_alias_defects :
  (let st := [0x00000004000000030000000200000001] in
   rd 16 0 4 (vec_packss_d128 0 0 st) = 0x7fff /\ sat_s 16 (s32 (rd 32 0 0 st)) = 1) /\
  rd 32 0 3 (vec_unpackl_ps128 0 0 demo_regs) <> rd 32 0 1 demo_regs /\
  rd 32 0 2 (vec_shuffle_ps128 0 0 0x1b demo_regs) <> rd 32 0 (sel 0x1b 2) demo_regs /\
  rd 32 1 1 (vec_shuffle_ps128 0 1 0xe1 demo_regs) <> rd 32 1 (sel 0xe1 1) demo_regs.
Proof. split; [vm_compute; split; reflexivity|]. split_and!; vm_compute; discriminate. Qed.

(** ** Shifts *)

Lemma zero_xmm_spec dst st : regs_ok st -> (dst < length st)%nat ->
  frame dst st (zero_xmm dst st) /\ zero_xmm dst st !!! dst = 0.
Proof.
  intros Hst Hd. assert (F : frame dst st (zero_xmm dst st)).
  { unfold zero_xmm. repeat (apply (frame_assign _ _ _ 64 2); [|lia..|done]). by apply frame_refl. }
  split; [done|]. destruct F as (Hok & Hl & _).
  apply (bits_lanes_ext 64 2); [lia|apply (regs_ok_lookup (zero_xmm dst st)); [done|by rewrite Hl]|done|].
  intros i Hi. change (rd 64 dst i (zero_xmm dst st) = bits (i * 64) 64 0). unfold zero_xmm.
  rewrite !rd_assignb, Nat.eqb_refl by (rewrite ?assign_length; lia). cbn [andb].
  assert (i = 0 \/ i = 1) as [-> | ->] by lia; done.
Qed.

(** The documented shifts of a lane by a count. *)
Definition srl (w c x : Z) : Z := if w <=? c then 0 else x / 2 ^ c.
Definition sll (w c x : Z) : Z := if w <=? c then 0 else wrap w (x * 2 ^ c).
Definition sra (w c x : Z) : Z := wrap w (swrap w x / 2 ^ Z.min c (w - 1)).

Definition shifts (w : Z) (g : Z -> Z -> Z) (count : Z) (dst : nat) (st st' : store) : Prop :=
  frame dst st st' /\ forall i, 0 <= i < 128 / w -> rd w dst i st' = g count (rd w dst i st).

Lemma SHIFT_spec op g w N c dst st : 0 < w -> w * N = 128 -> 0 <= c -> regs_ok st -> (dst < length st)%nat ->
  (forall x, in_u w x -> g c x = if w <=? c then 0 else wrap w (op x c)) ->
  shifts w g c dst st (SHIFT op w c dst st).
Proof.
  intros Hw HN Hc Hst Hd Hg. unfold shifts, SHIFT. rewrite Z.gtb_ltb.
  assert (128 / w = N) as -> by (rewrite <- HN, Z.mul_comm; apply Z.div_mul; lia).
  destruct (Z.ltb_spec (w - 1) c).
  - destruct (zero_xmm_spec dst st Hst Hd) as [F Hz]. split; [done|]. intros i Hi. unfold rd at 1. rewrite Hz.
    rewrite Hg, (proj2 (Z.leb_le w c)) by (lia || (apply lane_range; lia)). unfold lane, bits. by rewrite Z.shiftr_0_l.
  - destruct (lanes2_lane w (fun d _ => op d c) 0 (st !!! dst) N N Hw ltac:(nia)) as [H1 H2].
    { rewrite HN. by apply regs_ok_lookup. }
    split.
    + unfold set_reg. split_and!; [apply Forall_insert; [done|by rewrite <- HN]|apply length_insert|].
      intros r Hr. by rewrite list_lookup_total_insert_ne.
    + intros i Hi. unfold rd, set_reg. rewrite list_lookup_total_insert_eq, H2, decide_True by (done || lia).
      rewrite Hg, (proj2 (Z.leb_gt w c)) by (lia || (apply lane_range; lia)). done.
Qed.

Lemma sar_lane_spec w c x : 0 < w -> 0 <= c -> in_u w x -> wrap w (sar_lane w c x) = sra w c x.
Proof.
  intros Hw Hc [Hx0 Hx]. unfold sar_lane, sra. rewrite Z.gtb_ltb, swrap_cases by (done || lia).
  assert (0 < 2 ^ (w - 1)) by (apply Z.pow_pos_nonneg; lia).
  assert (2 ^ w = 2 * 2 ^ (w - 1)) as E by (rewrite <- Z.pow_succ_r by lia; f_equal; lia).
  destruct (Z.ltb_spec (w - 1) c); [|by rewrite Z.min_l, Z.shiftr_div_pow2 by lia].
  rewrite Z.min_r by lia. rewrite Z.shiftr_div_pow2 by lia. destruct (Z.ltb_spec x (2 ^ (w - 1))).
  - rewrite Z.div_small by lia. done.
  - assert (x / 2 ^ (w - 1) = 1) as -> by (symmetry; apply Z.div_unique with (x - 2 ^ (w - 1)); lia).
    assert ((x - 2 ^ w) / 2 ^ (w - 1) = -1) as -> by (symmetry; apply Z.div_unique with (x - 2 ^ (w - 1)); lia).
    change (ctrue (Z.land 1 1)) with true. cbn iota. rewrite <- (wrap_add_mul w (-1) 1). f_equal. lia.
Qed.

Lemma sar_loop_spec w N c dst st : 0 < w -> w * N = 128 -> 0 <= c -> regs_ok st -> (dst < length st)%nat ->
  shifts w (sra w) c dst st (for_up N (fun i => assign w dst i (fun st => sar_lane w c (rd w dst i st))) st).
Proof.
  intros Hw HN Hc Hst Hd. assert (128 / w = N) as E by (rewrite <- HN, Z.mul_comm; apply Z.div_mul; lia).
  destruct (inplace_prefix w (fun d _ => sar_lane w c d) dst dst st N N Hw HN ltac:(nia) Hst Hd Hd) as (H1 & H2 & H3 & H4).
  split; [done|]. rewrite E. intros i Hi. rewrite H4, decide_True by lia. apply sar_lane_spec; [done..|]. apply lane_range. lia.
Qed.

(** The shifts by a count in a register and by an immediate count. *)
Definition shift_ops : list (Z * (Z -> Z -> Z) * (nat -> nat -> cmd) * (Z -> nat -> cmd)) := [
  (16, srl 16, vec_shiftr_w128, vec_imm_shiftr_w128); (32, srl 32, vec_shiftr_d128, vec_imm_shiftr_d128);
  (64, srl 64, vec_shiftr_q128, vec_imm_shiftr_q128);
  (16, sll 16, vec_shiftl_w128, vec_imm_shiftl_w128); (32, sll 32, vec_shiftl_d128, vec_imm_shiftl_d128);
  (64, sll 64, vec_shiftl_q128, vec_imm_shiftl_q128);
  (16, sra 16, vec_shiftrs_w128, vec_imm_shiftrs_w128); (32, sra 32, vec_shiftrs_d128, vec_imm_shiftrs_d128)].

Lemma srl_op w c x : 0 < w -> in_u w x -> 0 <= c -> srl w c x = if w <=? c then 0 else wrap w (Z.shiftr x c).
Proof.
  intros Hw [Hx Hx'] Hc. unfold srl. destruct (w <=? c); [done|]. rewrite Z.shiftr_div_pow2 by lia.
  assert (0 < 2 ^ c) by (apply Z.pow_pos_nonneg; lia). rewrite wrap_small; [done|]. split; [by apply Z.div_pos|].
  apply Z.div_lt_upper_bound; nia.
Qed.

Lemma sll_op w c x : 0 < w -> 0 <= c -> sll w c x = if w <=? c then 0 else wrap w (Z.shiftl x c).
Proof. intros Hw Hc. unfold sll. by rewrite Z.shiftl_mul_pow2. Qed.

(** The code's count, one byte, is the documented one when that is below 256. *)
Lemma count_byte src st : rd 64 src 0 st < 256 -> rd 8 src 0 st = rd 64 src 0 st.
Proof.
  intros Hcount. change 0 with (0 * 8 + 0) at 1. rewrite <- (sub_lane 8 8 src 0 0 st) by lia.
  rewrite Z.mul_0_l, bits_wrap by lia. apply wrap_small. split; [|lia]. apply (lane_range 64 0 (st !!! src)). lia.
Qed.

Lemma shift_entry op g w N src dst st c : 0 < w -> w * N = 128 -> regs_ok st -> (dst < length st)%nat ->
  rd 8 src 0 st = rd 64 src 0 st -> 0 <= rd 64 src 0 st -> 0 <= c ->
  (forall c x, 0 <= c -> in_u w x -> g c x = if w <=? c then 0 else wrap w (op x c)) ->
  shifts w g (rd 64 src 0 st) dst st (VEC_SSE_SHIFT op w src dst st) /\
  shifts w g c dst st (VEC_SSE_IMM_SHIFT op w c dst st).
Proof.
  intros Hw HN Hst Hd Hrd H64 Hc Hg. unfold VEC_SSE_SHIFT, VEC_SSE_IMM_SHIFT. rewrite Hrd.
  split; apply (SHIFT_spec op g w N); try done; intros x Hx; by apply Hg.
Qed.

(** PSRL, PSLL and PSRA: every lane is shifted as documented, counts of the lane's width and above
    included; the register forms take the count from the low 64 bits of the source, provided it is below 256. *)
Theorem vec_shift_spec st src dst c : regs_ok st -> (src < length st)%nat -> (dst < length st)%nat ->
  rd 64 src 0 st < 256 -> in_u 8 c ->
  Forall (fun '(w, g, op, imm) =>
    shifts w g (rd 64 src 0 st) dst st (op src dst st) /\ shifts w g c dst st (imm c dst st)) shift_ops.
Proof.
  intros Hst Hs Hd Hcount [Hc0 _].
  pose proof (count_byte src st Hcount) as Hrd.
  assert (Hc64 : 0 <= rd 64 src 0 st) by (apply (lane_range 64 0 (st !!! src)); lia).
  repeat apply Forall_cons_2; try apply Forall_nil_2; cbn beta iota.
  - by apply (shift_entry Z.shiftr _ 16 8); [..|intros; apply srl_op].
  - by apply (shift_entry Z.shiftr _ 32 4); [..|intros; apply srl_op].
  - by apply (shift_entry Z.shiftr _ 64 2); [..|intros; apply srl_op].
  - by apply (shift_entry Z.shiftl _ 16 8); [..|intros; apply sll_op].
  - by apply (shift_entry Z.shiftl _ 32 4); [..|intros; apply sll_op].
  - by apply (shift_entry Z.shiftl _ 64 2); [..|intros; apply sll_op].
  - unfold vec_shiftrs_w128, vec_imm_shiftrs_w128. rewrite Hrd. split; by apply (sar_loop_spec 16 8).
  - unfold vec_shiftrs_d128, vec_imm_shiftrs_d128. rewrite Hrd. split; by apply (sar_loop_spec 32 4).
Qed.

Lemma vec_shift_spec_witness :
  Forall (fun '(w, g, op, imm) =>
    shifts w g 3 1 [3; 2 ^ 127] (op 0%nat 1%nat [3; 2 ^ 127]) /\ shifts w g 200 1 [3; 2 ^ 127] (imm 200 1%nat [3; 2 ^ 127])) shift_ops.
Proof.
  apply (vec_shift_spec [3; 2 ^ 127] 0 1 200); [|cbn; lia|cbn; lia|reflexivity|split; [discriminate|reflexivity]].
  repeat constructor; discriminate || reflexivity.
Defined.

(** The register forms look at one byte of the count: a count of 256 shifts by 0 instead of clearing
    the lanes. *)
Theorem vec_shift_count_truncated :
  rd 64 0 0 [256; 7] = 256 /\ rd 16 1 0 (vec_shiftr_w128 0 1 [256; 7]) = 7 /\ srl 16 256 7 = 0.
Proof. vm_compute. split_and!; reflexivity. Qed.

(** ** Conversions and comparisons of floating-point values *)

(** CVTSS2SD and CVTSD2SS turn every NaN into -2147483648, the value meant for
    conversions to integers. *)
Theorem vec_cvt_nan `{Host} st src dst : (dst < length st)%nat ->
  (is_nan 52 11 (rd 64 src 0 st) = true -> rd 32 dst 0 (vec_cvtsd2ss64 src dst st) = of_int 23 8 INT32_MIN) /\
  (is_nan 23 8 (rd 32 src 0 st) = true -> rd 64 dst 0 (vec_cvtss2sd32 src dst st) = of_int 52 11 INT32_MIN).
Proof.
  intros Hd. unfold vec_cvtsd2ss64, vec_cvtss2sd32, VEC_CVT.
  change (for_up 1 ?body st) with (body 0 st). cbn beta zeta. split; intros Hn.
  - rewrite rd_assignb, !Nat.eqb_refl by lia. cbn [andb Z.eqb]. by rewrite Hn.
  - rewrite rd_assignb, !Nat.eqb_refl by lia. cbn [andb Z.eqb]. by rewrite Hn.
Qed.

Lemma vec_cvt_nan_witness :
  rd 32 1 0 (vec_cvtsd2ss64 (Hst := demo_host) 0 1 [0x7ff8000000000000; 0]) = 0xcf000000.
Proof. apply (vec_cvt_nan (H := demo_host) [0x7ff8000000000000; 0] 0 1); [cbn; lia|reflexivity]. Defined.

Lemma ucomi_flags eq lt nan src dst c :
  let c' := ucomi eq lt nan src dst c in let un := nan src || nan dst in
  (ZF c', PF c', CF c') = (cbool (un || eq src dst), cbool un, cbool (un || lt dst src)) /\ (OF c', SF c') = (0, 0).
Proof.
  cbn zeta. unfold ucomi. set (d := set_pf 0 _).
  assert (Hd : zf_res d = 0 /\ pf_res d = 0).
  { unfold d, zf_res, pf_res, set_zf_res, set_pf_res, set_pf, set_zf. cbn [flags_res set_eflags set_flags_res set_cf]. field_simpl. done. }
  assert (Hz : zf d = cbool (eq src dst) /\ pf d = 0 /\ cf d = cbool (lt dst src)).
  { unfold d, zf, pf, set_zf, set_pf. cbn [eflags set_eflags set_cf cf]. field_simpl. by rewrite cbool_bit. }
  clearbody d. destruct Hd as [Hzr Hpr], Hz as (Hz & Hp & Hc).
  assert (Hz' : forall x, ZF (set_sf_res 0 (set_of_ 0 (set_sf 0 (set_af 0 x)))) = (if ctrue (zf_res x) then cbool (res x =? 0) else zf x) /\
    PF (set_sf_res 0 (set_of_ 0 (set_sf 0 (set_af 0 x)))) = PF x /\ CF (set_sf_res 0 (set_of_ 0 (set_sf 0 (set_af 0 x)))) = cf x /\
    OF (set_sf_res 0 (set_of_ 0 (set_sf 0 (set_af 0 x)))) = 0 /\ SF (set_sf_res 0 (set_of_ 0 (set_sf 0 (set_af 0 x)))) = 0).
  { intros x. unfold ZF, PF, CF, OF, SF, zf_res, pf_res, sf_res, zf, pf, sf, set_sf_res, set_sf, set_af.
    cbn [flags_res eflags res cf of_ set_flags_res set_eflags set_of_]. field_simpl. done. }
  destruct (nan src || nan dst).
  - destruct (Hz' (set_zf 1 (set_cf 1 (set_pf 1 d)))) as (-> & -> & -> & -> & ->). split; [|done].
    unfold PF. change (zf_res (set_zf _ _)) with (zf_res d). change (pf_res (set_zf _ _)) with (pf_res d). rewrite Hzr, Hpr.
    cbn [ctrue Z.eqb negb orb cbool]. unfold zf, pf, set_zf, set_pf. cbn [eflags set_eflags set_cf cf]. field_simpl. done.
  - destruct (Hz' d) as (-> & -> & -> & -> & ->). split; [|done]. unfold PF. rewrite Hzr, Hpr, Hz, Hp, Hc. done.
Qed.

(** UCOMISS and UCOMISD report the order of the destination and the source in ZF, PF and CF, with
    all three set for unordered operands, and clear OF and SF. *)
Theorem vec_single_ucomi_spec src dst c :
  (let c' := vec_single_ucomi64 src dst c in let un := is_nan 52 11 src || is_nan 52 11 dst in
   (ZF c', PF c', CF c') = (cbool (un || feq 52 11 src dst), cbool un, cbool (un || flt 52 11 dst src)) /\
   (OF c', SF c') = (0, 0)) /\
  (let c' := vec_single_ucomi32 src dst c in let un := is_nan 23 8 src || is_nan 23 8 dst in
   (ZF c', PF c', CF c') = (cbool (un || feq 23 8 src dst), cbool un, cbool (un || flt 23 8 dst src)) /\
   (OF c', SF c') = (0, 0)).
Proof. split; apply ucomi_flags. Qed.

End Vec.
