(* ===== verification/Mmx.v ===== *)
(** * MMX helpers (emu/mmx.c)

    The MMX versions of the SSE helpers, on 64-bit registers.  They work on local copies of both
    registers and write the result at the end, except for the two that assign to the
    destination directly.  The store and the lanes are those of [Vec]. *)

From S2P Require Import Prelude Float80 Cpu HostFloat Vec.

Module Mmx.
Import Cpu Vec.

Definition VEC_MMX_OP (op : Z -> Z -> Z) (size : Z) (src dst : nat) : cmd := fun st =>
  set_reg dst (lanes2 size (64 / size) op (st !!! src) (st !!! dst)) st.
Definition VEC_MMX_CMP (relop : Z -> Z -> bool) (size : Z) (src dst : nat) : cmd := fun st =>
  set_reg dst (lanes2 size (64 / size) (fun d s => if relop d s then Z.lnot 0 else 0) (st !!! src) (st !!! dst)) st.
Definition SHIFT64 (op : Z -> Z -> Z) (size amount : Z) (dst : nat) : cmd := fun st =>
  if amount >? size - 1 then set_reg dst 0 st
  else set_reg dst (lanes2 size (64 / size) (fun d _ => op d amount) 0 (st !!! dst)) st.
Definition VEC_MMX_SHIFT (op : Z -> Z -> Z) (size : Z) (src dst : nat) : cmd := fun st =>
  let amount := u8 (st !!! src) in SHIFT64 op size amount dst st.
Definition VEC_MMX_IMM_SHIFT (op : Z -> Z -> Z) (size amount : Z) (dst : nat) : cmd := SHIFT64 op size amount dst.
Definition VEC_MMX_CMPD := VEC_MMX_CMP.
Definition VEC_MMX_CMPS (relop : Z -> Z -> bool) (size : Z) : nat -> nat -> cmd :=
  VEC_MMX_CMP (fun d s => relop (swrap size d) (swrap size s)) size.

Definition vec_add_b64 := VEC_MMX_OP Z.add 8.
Definition vec_add_w64 := VEC_MMX_OP Z.add 16.
Definition vec_add_d64 := VEC_MMX_OP Z.add 32.
Definition vec_add_q64 := VEC_MMX_OP Z.add 64.
Definition vec_sub_b64 := VEC_MMX_OP Z.sub 8.
Definition vec_sub_w64 := VEC_MMX_OP Z.sub 16.
Definition vec_sub_d64 := VEC_MMX_OP Z.sub 32.
Definition vec_sub_q64 := VEC_MMX_OP Z.sub 64.
Definition vec_and_q64 := VEC_MMX_OP Z.land 64.
Definition vec_or_q64 := VEC_MMX_OP Z.lor 64.
Definition vec_xor_q64 := VEC_MMX_OP Z.lxor 64.
Definition vec_compare_eqb64 := VEC_MMX_CMPD Z.eqb 8.
Definition vec_compare_eqw64 := VEC_MMX_CMPD Z.eqb 16.
Definition vec_compare_eqd64 := VEC_MMX_CMPD Z.eqb 32.
Definition vec_compares_gtb64 := VEC_MMX_CMPS Z.gtb 8.
Definition vec_compares_gtw64 := VEC_MMX_CMPS Z.gtb 16.
Definition vec_compares_gtd64 := VEC_MMX_CMPS Z.gtb 32.
Definition vec_shiftr_w64 := VEC_MMX_SHIFT Z.shiftr 16.
Definition vec_imm_shiftr_w64 := VEC_MMX_IMM_SHIFT Z.shiftr 16.
Definition vec_shiftr_d64 := VEC_MMX_SHIFT Z.shiftr 32.
Definition vec_imm_shiftr_d64 := VEC_MMX_IMM_SHIFT Z.shiftr 32.
Definition vec_shiftr_q64 := VEC_MMX_SHIFT Z.shiftr 64.
Definition vec_imm_shiftr_q64 := VEC_MMX_IMM_SHIFT Z.shiftr 64.
Definition vec_shiftl_w64 := VEC_MMX_SHIFT Z.shiftl 16.
Definition vec_imm_shiftl_w64 := VEC_MMX_IMM_SHIFT Z.shiftl 16.
Definition vec_shiftl_d64 := VEC_MMX_SHIFT Z.shiftl 32.
Definition vec_imm_shiftl_d64 := VEC_MMX_IMM_SHIFT Z.shiftl 32.
Definition vec_shiftl_q64 := VEC_MMX_SHIFT Z.shiftl 64.
Definition vec_imm_shiftl_q64 := VEC_MMX_IMM_SHIFT Z.shiftl 64.

Definition vec_shiftrs_w64 (src dst : nat) : cmd := fun st =>
  let d := st !!! dst in let amount := u8 (st !!! src) in
  set_reg dst (lanes2 16 4 (fun d _ => sar_lane 16 amount d) 0 d) st.
Definition vec_shiftrs_d64 (src dst : nat) : cmd := fun st =>
  let d := st !!! dst in let amount := u8 (st !!! src) in
  set_reg dst (lanes2 32 2 (fun d _ => sar_lane 32 amount d) 0 d) st.
Definition vec_imm_shiftrs_w64 (amount : Z) (dst : nat) : cmd := fun st =>
  set_reg dst (lanes2 16 4 (fun d _ => sar_lane 16 amount d) 0 (st !!! dst)) st.
Definition vec_imm_shiftrs_d64 (amount : Z) (dst : nat) : cmd := fun st =>
  set_reg dst (lanes2 32 2 (fun d _ => sar_lane 32 amount d) 0 (st !!! dst)) st.

Definition vec_mulu64 (src dst : nat) : cmd := fun st =>
  set_reg dst (lanes2 16 4 (fun d s => Z.land (Z.shiftr (u32 (s16 d * s16 s)) 16) 0xffff) (st !!! src) (st !!! dst)) st.
Definition vec_mull64 (src dst : nat) : cmd := fun st =>
  set_reg dst (lanes2 16 4 (fun d s => u16 (d * s)) (st !!! src) (st !!! dst)) st.
Definition vec_mulu_dq64 (src dst : nat) : cmd := fun st =>
  set_reg dst (u64 (rd 32 src 0 st * rd 32 dst 0 st)) st.

Definition vec_unpackl_dq64 (src dst : nat) : cmd := assign 32 dst 1 (rd 32 src 0).

Definition vec_shuffle_w64 (src dst : nat) (encoding : Z) : cmd := fun st =>
  let s := st !!! src in
  set_reg dst (fold_left (fun d i => set_lane 16 i (lane 16 (Z.shiftr encoding (2 * i) mod 4) s) d) (seqZ 0 4) (st !!! dst)) st.

Definition vec_movmask_b64 (src : nat) (st : store) : Z :=
  fold_left (fun d i => if ctrue (Z.land (rd 8 src i st) (2 ^ 7)) then Z.lor d (Z.shiftl 1 i) else d) (seqZ 0 8) 0.

Definition vec_insert_w64 (src : Z) (dst : nat) (index : Z) : cmd := fun st =>
  set_reg dst (set_lane 16 (index mod 4) (u16 src) (st !!! dst)) st.

(** ** Correctness *)

Definition mm_ok (st : store) : Prop := Forall (in_u 64) st.

Lemma mm_ok_lookup st r : mm_ok st -> (r < length st)%nat -> in_u 64 (st !!! r).
Proof. intros H Hr. by apply (Forall_lookup_total_1 (in_u 64) st r). Qed.

(** The destination has the documented lanes and no other register changes; the registers may be the same. *)
Definition mm_lanes (w : Z) (g : Z -> Z) (dst : nat) (st st' : store) : Prop :=
  mm_ok st' /\ length st' = length st /\ (forall r, r <> dst -> st' !!! r = st !!! r) /\
  forall i, 0 <= i < 64 / w -> rd w dst i st' = g i.

Lemma set_lanes2_spec w N f s dst st g : 0 < w -> w * N = 64 -> mm_ok st -> (dst < length st)%nat ->
  (forall i, 0 <= i < N -> wrap w (f (rd w dst i st) (lane w i s)) = g i) ->
  mm_lanes w g dst st (set_reg dst (lanes2 w (64 / w) f s (st !!! dst)) st).
Proof.
  intros Hw HN Hst Hd Hg. unfold mm_lanes.
  assert (64 / w = N) as -> by (rewrite <- HN, Z.mul_comm; apply Z.div_mul; lia).
  destruct (lanes2_lane w f s (st !!! dst) N N Hw ltac:(nia)) as [H1 H2].
  { rewrite HN. by apply mm_ok_lookup. }
  unfold set_reg. split_and!.
  - apply Forall_insert; [done|]. by rewrite <- HN.
  - apply length_insert.
  - intros r Hr. by rewrite list_lookup_total_insert_ne.
  - intros i Hi. unfold rd at 1. rewrite list_lookup_total_insert_eq, H2, decide_True by (done || lia). by apply Hg.
Qed.

(** The helpers that work on corresponding lanes, with the documented result of each. *)
Definition mmx_lane_ops : list (Z * (Z -> Z -> Z) * (nat -> nat -> cmd)) := [
  (8, fun d s => wrap 8 (d + s), vec_add_b64);
  (16, fun d s => wrap 16 (d + s), vec_add_w64);
  (32, fun d s => wrap 32 (d + s), vec_add_d64);
  (64, fun d s => wrap 64 (d + s), vec_add_q64);
  (8, fun d s => wrap 8 (d - s), vec_sub_b64);
  (16, fun d s => wrap 16 (d - s), vec_sub_w64);
  (32, fun d s => wrap 32 (d - s), vec_sub_d64);
  (64, fun d s => wrap 64 (d - s), vec_sub_q64);
  (64, Z.land, vec_and_q64);
  (64, Z.lor, vec_or_q64);
  (64, Z.lxor, vec_xor_q64);
  (8, fun d s => mask 8 (d =? s), vec_compare_eqb64);
  (16, fun d s => mask 16 (d =? s), vec_compare_eqw64);
  (32, fun d s => mask 32 (d =? s), vec_compare_eqd64);
  (8, fun d s => mask 8 (swrap 8 s <? swrap 8 d), vec_compares_gtb64);
  (16, fun d s => mask 16 (swrap 16 s <? swrap 16 d), vec_compares_gtw64);
  (32, fun d s => mask 32 (swrap 32 s <? swrap 32 d), vec_compares_gtd64);
  (16, fun d s => wrap 16 (d * s), vec_mull64);
  (16, fun d s => wrap 16 (s16 d * s16 s / 2 ^ 16), vec_mulu64)].

Definition lanewise64 (w : Z) (g : Z -> Z -> Z) (op : nat -> nat -> cmd) : Prop :=
  forall st src dst, mm_ok st -> (dst < length st)%nat ->
    mm_lanes w (fun i => g (rd w dst i st) (rd w src i st)) dst st (op src dst st).

Lemma op_entry64 w N f g : 0 < w -> w * N = 64 -> (forall a b, in_u w a -> in_u w b -> wrap w (f a b) = g a b) ->
  lanewise64 w g (fun src dst st => set_reg dst (lanes2 w (64 / w) f (st !!! src) (st !!! dst)) st).
Proof.
  intros Hw HN Hfg st src dst Hst Hd. apply (set_lanes2_spec w N); [done..|].
  intros i Hi. apply Hfg; apply lane_range; lia.
Qed.

(** PADD, PSUB, PAND, POR, PXOR, PCMPEQ, PCMPGT, PMULL and PMULH compute in every lane what they
    are documented to compute, from the lanes before, also for a register with itself. *)
Theorem mmx_lane_ops_correct : Forall (fun '(w, g, op) => lanewise64 w g op) mmx_lane_ops.
Proof.
  repeat apply Forall_cons_2; try apply Forall_nil_2; cbn beta iota.
  - refine (op_entry64 8 8 Z.add _ _ _ _); [lia|lia|done].
  - refine (op_entry64 16 4 Z.add _ _ _ _); [lia|lia|done].
  - refine (op_entry64 32 2 Z.add _ _ _ _); [lia|lia|done].
  - refine (op_entry64 64 1 Z.add _ _ _ _); [lia|lia|done].
  - refine (op_entry64 8 8 Z.sub _ _ _ _); [lia|lia|done].
  - refine (op_entry64 16 4 Z.sub _ _ _ _); [lia|lia|done].
  - refine (op_entry64 32 2 Z.sub _ _ _ _); [lia|lia|done].
  - refine (op_entry64 64 1 Z.sub _ _ _ _); [lia|lia|done].
  - refine (op_entry64 64 1 Z.land _ _ _ _); [lia|lia|intros; by apply (logic_wrap Z.land andb); [lia| |intros; apply Z.land_spec|..]].
  - refine (op_entry64 64 1 Z.lor _ _ _ _); [lia|lia|intros; by apply (logic_wrap Z.lor orb); [lia| |intros; apply Z.lor_spec|..]].
  - refine (op_entry64 64 1 Z.lxor _ _ _ _); [lia|lia|intros; by apply (logic_wrap Z.lxor xorb); [lia| |intros; apply Z.lxor_spec|..]].
  - refine (op_entry64 8 8 (fun d s => if Z.eqb d s then Z.lnot 0 else 0) _ _ _ _); [lia|lia|intros; apply mask_wrap; lia].
  - refine (op_entry64 16 4 (fun d s => if Z.eqb d s then Z.lnot 0 else 0) _ _ _ _); [lia|lia|intros; apply mask_wrap; lia].
  - refine (op_entry64 32 2 (fun d s => if Z.eqb d s then Z.lnot 0 else 0) _ _ _ _); [lia|lia|intros; apply mask_wrap; lia].
  - refine (op_entry64 8 8 (fun d s => if Z.gtb (swrap 8 d) (swrap 8 s) then Z.lnot 0 else 0) _ _ _ _); [lia|lia|intros; rewrite Z.gtb_ltb; apply mask_wrap; lia].
  - refine (op_entry64 16 4 (fun d s => if Z.gtb (swrap 16 d) (swrap 16 s) then Z.lnot 0 else 0) _ _ _ _); [lia|lia|intros; rewrite Z.gtb_ltb; apply mask_wrap; lia].
  - refine (op_entry64 32 2 (fun d s => if Z.gtb (swrap 32 d) (swrap 32 s) then Z.lnot 0 else 0) _ _ _ _); [lia|lia|intros; rewrite Z.gtb_ltb; apply mask_wrap; lia].
  - refine (op_entry64 16 4 (fun d s => u16 (d * s)) _ _ _ _); [lia|lia|intros; apply wrap_idem].
  - refine (op_entry64 16 4 (fun d s => Z.land (Z.shiftr (u32 (s16 d * s16 s)) 16) 0xffff) _ _ _ _); [lia|lia|intros; by rewrite mul_high, wrap_idem].
Qed.

Definition mmx_shift_ops : list (Z * (Z -> Z -> Z) * (nat -> nat -> cmd) * (Z -> nat -> cmd)) := [
  (16, srl 16, vec_shiftr_w64, vec_imm_shiftr_w64); (32, srl 32, vec_shiftr_d64, vec_imm_shiftr_d64);
  (64, srl 64, vec_shiftr_q64, vec_imm_shiftr_q64);
  (16, sll 16, vec_shiftl_w64, vec_imm_shiftl_w64); (32, sll 32, vec_shiftl_d64, vec_imm_shiftl_d64);
  (64, sll 64, vec_shiftl_q64, vec_imm_shiftl_q64);
  (16, sra 16, vec_shiftrs_w64, vec_imm_shiftrs_w64); (32, sra 32, vec_shiftrs_d64, vec_imm_shiftrs_d64)].

Lemma SHIFT64_spec op g w N c dst st : 0 < w -> w * N = 64 -> 0 <= c -> mm_ok st -> (dst < length st)%nat ->
  (forall c x, 0 <= c -> in_u w x -> g c x = if w <=? c then 0 else wrap w (op x c)) ->
  mm_lanes w (fun i => g c (rd w dst i st)) dst st (SHIFT64 op w c dst st).
Proof.
  intros Hw HN Hc Hst Hd Hg. unfold SHIFT64. rewrite Z.gtb_ltb.
  assert (Hg' : forall i, g c (rd w dst i st) = if w <=? c then 0 else wrap w (op (rd w dst i st) c))
    by (intros i; apply Hg; [done|apply lane_range; lia]).
  destruct (Z.ltb_spec (w - 1) c).
  - unfold set_reg. split_and!; [by apply Forall_insert|apply length_insert|intros r Hr; by rewrite list_lookup_total_insert_ne|].
    intros i Hi. unfold rd at 1. rewrite list_lookup_total_insert_eq by done.
    rewrite Hg', (proj2 (Z.leb_le w c)) by lia. unfold lane, bits. by rewrite Z.shiftr_0_l.
  - apply (set_lanes2_spec w N); [done..|]. intros i Hi. by rewrite Hg', (proj2 (Z.leb_gt w c)) by lia.
Qed.

(** PSRL, PSLL and PSRA on MMX registers shift every lane as documented, the count being
    the source register, provided it is below 256, or the immediate. *)
Theorem mmx_shift_spec st src dst c : mm_ok st -> (src < length st)%nat -> (dst < length st)%nat ->
  st !!! src < 256 -> in_u 8 c ->
  Forall (fun '(w, g, op, imm) =>
    mm_lanes w (fun i => g (st !!! src) (rd w dst i st)) dst st (op src dst st) /\
    mm_lanes w (fun i => g c (rd w dst i st)) dst st (imm c dst st)) mmx_shift_ops.
Proof.
  intros Hst Hs Hd Hcount [Hc0 _]. pose proof (mm_ok_lookup st src Hst Hs) as [Hs0 _].
  assert (Hu : u8 (st !!! src) = st !!! src) by (apply wrap_small; unfold in_u; lia).
  assert (Hsar : forall w N k, 0 < w -> w * N = 64 -> 0 <= k ->
    mm_lanes w (fun i => sra w k (rd w dst i st)) dst st (set_reg dst (lanes2 w (64 / w) (fun d _ => sar_lane w k d) 0 (st !!! dst)) st)).
  { intros w N k Hw HN Hk. apply (set_lanes2_spec w N); [done..|]. intros i Hi. apply sar_lane_spec; [done..|]. apply lane_range; lia. }
  unfold mmx_shift_ops, vec_shiftrs_w64, vec_shiftrs_d64, vec_shiftr_w64, vec_shiftr_d64, vec_shiftr_q64,
    vec_shiftl_w64, vec_shiftl_d64, vec_shiftl_q64, VEC_MMX_SHIFT.
  repeat apply Forall_cons_2; try apply Forall_nil_2; cbn beta iota zeta; rewrite ?Hu.
  - split; refine (SHIFT64_spec Z.shiftr (srl 16) 16 4 _ dst st _ _ _ _ _ _); (done || (intros; by apply srl_op)).
  - split; refine (SHIFT64_spec Z.shiftr (srl 32) 32 2 _ dst st _ _ _ _ _ _); (done || (intros; by apply srl_op)).
  - split; refine (SHIFT64_spec Z.shiftr (srl 64) 64 1 _ dst st _ _ _ _ _ _); (done || (intros; by apply srl_op)).
  - split; refine (SHIFT64_spec Z.shiftl (sll 16) 16 4 _ dst st _ _ _ _ _ _); (done || (intros; by apply sll_op)).
  - split; refine (SHIFT64_spec Z.shiftl (sll 32) 32 2 _ dst st _ _ _ _ _ _); (done || (intros; by apply sll_op)).
  - split; refine (SHIFT64_spec Z.shiftl (sll 64) 64 1 _ dst st _ _ _ _ _ _); (done || (intros; by apply sll_op)).
  - split; by apply (Hsar 16 4).
  - split; by apply (Hsar 32 2).
Qed.

Lemma mmx_shift_spec_witness :
  Forall (fun '(w, g, op, imm) =>
    mm_lanes w (fun i => g 5 (rd w 1 i [5; 2 ^ 63])) 1 [5; 2 ^ 63] (op 0%nat 1%nat [5; 2 ^ 63]) /\
    mm_lanes w (fun i => g 64 (rd w 1 i [5; 2 ^ 63])) 1 [5; 2 ^ 63] (imm 64 1%nat [5; 2 ^ 63])) mmx_shift_ops.
Proof.
  apply (mmx_shift_spec [5; 2 ^ 63] 0 1 64); [|cbn; lia|cbn; lia|reflexivity|split; [discriminate|reflexivity]].
  repeat constructor; discriminate || reflexivity.
Defined.

End Mmx.
