(* ===== verification/Task.v ===== *)
(** * Tasks, thread groups and the pid table (kernel/task.c, kernel/task.h)

    The process state the signal, process group, fork and exit code work on.  A task is named by its pid and a
    thread group by the pid of its leader, which is also what the C pointers identify while the task exists.  The
    intrusive lists of a [struct pid] are lists of thread groups.  Operations are steps of a small monad over
    the kernel state: they return a value, or stop the emulator (a failed assertion, a null pointer, an index out of
    bounds), or block forever on a lock the thread already holds, or end the task. *)

From S2P Require Import Prelude Errno Float80 Cpu.
From stdpp Require Export gmap.

#[global] Open Scope Z_scope.

Module Task.
Import Errno.

(** ** Signals (kernel/signal.h) *)

Definition NUM_SIGS : Z := 64.
Definition SIGKILL_ : Z := 9.
Definition SIGSEGV_ : Z := 11.
Definition SIGTRAP_ : Z := 5.
Definition SIGTERM_ : Z := 15.
Definition SIGCHLD_ : Z := 17.
Definition SIGCONT_ : Z := 18.
Definition SIGSTOP_ : Z := 19.
Definition SIGTSTP_ : Z := 20.
Definition SIGTTIN_ : Z := 21.
Definition SIGTTOU_ : Z := 22.
Definition SIGURG_ : Z := 23.
Definition SIGWINCH_ : Z := 28.
Definition SIGIO_ : Z := 29.
Definition SI_USER_ : Z := 0.
Definition SI_KERNEL_ : Z := 128.

(** The members of the union in [struct siginfo_] the kernel fills in. *)
Inductive siginfo_data :=
  | si_none
  | si_kill (pid uid : Z)
  | si_child (pid uid status utime stime : Z)
  | si_fault (addr : Z)
  | si_sigsys (addr syscall : Z)
  | si_timer (timer overrun value : Z).
Record siginfo_ := mk_siginfo { si_sig : Z; si_errno : Z; si_code : Z; si_data : siginfo_data }.
Definition set_si_sig (s : Z) (i : siginfo_) : siginfo_ := mk_siginfo s (si_errno i) (si_code i) (si_data i).
Definition SIGINFO_NIL : siginfo_ := mk_siginfo 0 0 SI_KERNEL_ si_none.

Record sigaction_ := mk_sigaction {
  handler : Z;
  sa_flags : Z;
  restorer : Z;
  sa_mask : Z }.
Definition set_handler (v : Z) (x : sigaction_) : sigaction_ :=
  mk_sigaction v (sa_flags x) (restorer x) (sa_mask x).
Definition set_sa_flags (v : Z) (x : sigaction_) : sigaction_ :=
  mk_sigaction (handler x) v (restorer x) (sa_mask x).
Definition set_restorer (v : Z) (x : sigaction_) : sigaction_ :=
  mk_sigaction (handler x) (sa_flags x) v (sa_mask x).
Definition set_sa_mask (v : Z) (x : sigaction_) : sigaction_ :=
  mk_sigaction (handler x) (sa_flags x) (restorer x) v.

Record sighand := mk_sighand {
  refcount : Z;
  action : list sigaction_;
  altstack : Z;
  altstack_size : Z }.
Definition set_refcount (v : Z) (x : sighand) : sighand :=
  mk_sighand v (action x) (altstack x) (altstack_size x).
Definition set_action (v : list sigaction_) (x : sighand) : sighand :=
  mk_sighand (refcount x) v (altstack x) (altstack_size x).
Definition set_altstack (v : Z) (x : sighand) : sighand :=
  mk_sighand (refcount x) (action x) v (altstack_size x).
Definition set_altstack_size (v : Z) (x : sighand) : sighand :=
  mk_sighand (refcount x) (action x) (altstack x) v.

(** ** Tasks *)

(** The registers a signal frame saves; [fl] holds the flags. *)
Record regs := mk_regs {
  eax : Z;
  ebx : Z;
  ecx : Z;
  edx : Z;
  esi : Z;
  edi : Z;
  ebp : Z;
  esp : Z;
  eip : Z;
  fl : Cpu.cpu_state;
  trapno : Z;
  segfault_addr : Z }.
Definition set_eax (v : Z) (x : regs) : regs :=
  mk_regs v (ebx x) (ecx x) (edx x) (esi x) (edi x) (ebp x) (esp x) (eip x) (fl x) (trapno x) (segfault_addr x).
Definition set_ebx (v : Z) (x : regs) : regs :=
  mk_regs (eax x) v (ecx x) (edx x) (esi x) (edi x) (ebp x) (esp x) (eip x) (fl x) (trapno x) (segfault_addr x).
Definition set_ecx (v : Z) (x : regs) : regs :=
  mk_regs (eax x) (ebx x) v (edx x) (esi x) (edi x) (ebp x) (esp x) (eip x) (fl x) (trapno x) (segfault_addr x).
Definition set_edx (v : Z) (x : regs) : regs :=
  mk_regs (eax x) (ebx x) (ecx x) v (esi x) (edi x) (ebp x) (esp x) (eip x) (fl x) (trapno x) (segfault_addr x).
Definition set_esi (v : Z) (x : regs) : regs :=
  mk_regs (eax x) (ebx x) (ecx x) (edx x) v (edi x) (ebp x) (esp x) (eip x) (fl x) (trapno x) (segfault_addr x).
Definition set_edi (v : Z) (x : regs) : regs :=
  mk_regs (eax x) (ebx x) (ecx x) (edx x) (esi x) v (ebp x) (esp x) (eip x) (fl x) (trapno x) (segfault_addr x).
Definition set_ebp (v : Z) (x : regs) : regs :=
  mk_regs (eax x) (ebx x) (ecx x) (edx x) (esi x) (edi x) v (esp x) (eip x) (fl x) (trapno x) (segfault_addr x).
Definition set_esp (v : Z) (x : regs) : regs :=
  mk_regs (eax x) (ebx x) (ecx x) (edx x) (esi x) (edi x) (ebp x) v (eip x) (fl x) (trapno x) (segfault_addr x).
Definition set_eip (v : Z) (x : regs) : regs :=
  mk_regs (eax x) (ebx x) (ecx x) (edx x) (esi x) (edi x) (ebp x) (esp x) v (fl x) (trapno x) (segfault_addr x).
Definition set_fl (v : Cpu.cpu_state) (x : regs) : regs :=
  mk_regs (eax x) (ebx x) (ecx x) (edx x) (esi x) (edi x) (ebp x) (esp x) (eip x) v (trapno x) (segfault_addr x).
Definition set_trapno (v : Z) (x : regs) : regs :=
  mk_regs (eax x) (ebx x) (ecx x) (edx x) (esi x) (edi x) (ebp x) (esp x) (eip x) (fl x) v (segfault_addr x).
Definition set_segfault_addr (v : Z) (x : regs) : regs :=
  mk_regs (eax x) (ebx x) (ecx x) (edx x) (esi x) (edi x) (ebp x) (esp x) (eip x) (fl x) (trapno x) v.

(** The pid is the key under which the task is stored; a null [sighand] is that of a task that has exited. *)
Record task := mk_task {
  cpu : regs;
  group : Z;
  tgid : Z;
  uid : Z;
  euid : Z;
  suid : Z;
  sighand_of : option Z;
  blocked : Z;
  pending : Z;
  waiting : Z;
  queue : list siginfo_;
  saved_mask : Z;
  has_saved_mask : bool;
  traced : bool;
  ptrace_stopped : bool;
  ptrace_signal : Z;
  parent : option Z;
  children : list Z;
  exit_code : Z;
  zombie : bool;
  exiting : bool;
  vfork_waiting : bool;
  exit_signal : Z;
  did_exec : bool }.
Definition set_cpu (v : regs) (x : task) : task :=
  mk_task v (group x) (tgid x) (uid x) (euid x) (suid x) (sighand_of x) (blocked x) (pending x) (waiting x) (queue x) (saved_mask x) (has_saved_mask x) (traced x) (ptrace_stopped x) (ptrace_signal x) (parent x) (children x) (exit_code x) (zombie x) (exiting x) (vfork_waiting x) (exit_signal x) (did_exec x).
Definition set_group (v : Z) (x : task) : task :=
  mk_task (cpu x) v (tgid x) (uid x) (euid x) (suid x) (sighand_of x) (blocked x) (pending x) (waiting x) (queue x) (saved_mask x) (has_saved_mask x) (traced x) (ptrace_stopped x) (ptrace_signal x) (parent x) (children x) (exit_code x) (zombie x) (exiting x) (vfork_waiting x) (exit_signal x) (did_exec x).
Definition set_tgid (v : Z) (x : task) : task :=
  mk_task (cpu x) (group x) v (uid x) (euid x) (suid x) (sighand_of x) (blocked x) (pending x) (waiting x) (queue x) (saved_mask x) (has_saved_mask x) (traced x) (ptrace_stopped x) (ptrace_signal x) (parent x) (children x) (exit_code x) (zombie x) (exiting x) (vfork_waiting x) (exit_signal x) (did_exec x).
Definition set_uid (v : Z) (x : task) : task :=
  mk_task (cpu x) (group x) (tgid x) v (euid x) (suid x) (sighand_of x) (blocked x) (pending x) (waiting x) (queue x) (saved_mask x) (has_saved_mask x) (traced x) (ptrace_stopped x) (ptrace_signal x) (parent x) (children x) (exit_code x) (zombie x) (exiting x) (vfork_waiting x) (exit_signal x) (did_exec x).
Definition set_euid (v : Z) (x : task) : task :=
  mk_task (cpu x) (group x) (tgid x) (uid x) v (suid x) (sighand_of x) (blocked x) (pending x) (waiting x) (queue x) (saved_mask x) (has_saved_mask x) (traced x) (ptrace_stopped x) (ptrace_signal x) (parent x) (children x) (exit_code x) (zombie x) (exiting x) (vfork_waiting x) (exit_signal x) (did_exec x).
Definition set_suid (v : Z) (x : task) : task :=
  mk_task (cpu x) (group x) (tgid x) (uid x) (euid x) v (sighand_of x) (blocked x) (pending x) (waiting x) (queue x) (saved_mask x) (has_saved_mask x) (traced x) (ptrace_stopped x) (ptrace_signal x) (parent x) (children x) (exit_code x) (zombie x) (exiting x) (vfork_waiting x) (exit_signal x) (did_exec x).
Definition set_sighand_of (v : option Z) (x : task) : task :=
  mk_task (cpu x) (group x) (tgid x) (uid x) (euid x) (suid x) v (blocked x) (pending x) (waiting x) (queue x) (saved_mask x) (has_saved_mask x) (traced x) (ptrace_stopped x) (ptrace_signal x) (parent x) (children x) (exit_code x) (zombie x) (exiting x) (vfork_waiting x) (exit_signal x) (did_exec x).
Definition set_blocked (v : Z) (x : task) : task :=
  mk_task (cpu x) (group x) (tgid x) (uid x) (euid x) (suid x) (sighand_of x) v (pending x) (waiting x) (queue x) (saved_mask x) (has_saved_mask x) (traced x) (ptrace_stopped x) (ptrace_signal x) (parent x) (children x) (exit_code x) (zombie x) (exiting x) (vfork_waiting x) (exit_signal x) (did_exec x).
Definition set_pending (v : Z) (x : task) : task :=
  mk_task (cpu x) (group x) (tgid x) (uid x) (euid x) (suid x) (sighand_of x) (blocked x) v (waiting x) (queue x) (saved_mask x) (has_saved_mask x) (traced x) (ptrace_stopped x) (ptrace_signal x) (parent x) (children x) (exit_code x) (zombie x) (exiting x) (vfork_waiting x) (exit_signal x) (did_exec x).
Definition set_waiting (v : Z) (x : task) : task :=
  mk_task (cpu x) (group x) (tgid x) (uid x) (euid x) (suid x) (sighand_of x) (blocked x) (pending x) v (queue x) (saved_mask x) (has_saved_mask x) (traced x) (ptrace_stopped x) (ptrace_signal x) (parent x) (children x) (exit_code x) (zombie x) (exiting x) (vfork_waiting x) (exit_signal x) (did_exec x).
Definition set_queue (v : list siginfo_) (x : task) : task :=
  mk_task (cpu x) (group x) (tgid x) (uid x) (euid x) (suid x) (sighand_of x) (blocked x) (pending x) (waiting x) v (saved_mask x) (has_saved_mask x) (traced x) (ptrace_stopped x) (ptrace_signal x) (parent x) (children x) (exit_code x) (zombie x) (exiting x) (vfork_waiting x) (exit_signal x) (did_exec x).
Definition set_saved_mask (v : Z) (x : task) : task :=
  mk_task (cpu x) (group x) (tgid x) (uid x) (euid x) (suid x) (sighand_of x) (blocked x) (pending x) (waiting x) (queue x) v (has_saved_mask x) (traced x) (ptrace_stopped x) (ptrace_signal x) (parent x) (children x) (exit_code x) (zombie x) (exiting x) (vfork_waiting x) (exit_signal x) (did_exec x).
Definition set_has_saved_mask (v : bool) (x : task) : task :=
  mk_task (cpu x) (group x) (tgid x) (uid x) (euid x) (suid x) (sighand_of x) (blocked x) (pending x) (waiting x) (queue x) (saved_mask x) v (traced x) (ptrace_stopped x) (ptrace_signal x) (parent x) (children x) (exit_code x) (zombie x) (exiting x) (vfork_waiting x) (exit_signal x) (did_exec x).
Definition set_traced (v : bool) (x : task) : task :=
  mk_task (cpu x) (group x) (tgid x) (uid x) (euid x) (suid x) (sighand_of x) (blocked x) (pending x) (waiting x) (queue x) (saved_mask x) (has_saved_mask x) v (ptrace_stopped x) (ptrace_signal x) (parent x) (children x) (exit_code x) (zombie x) (exiting x) (vfork_waiting x) (exit_signal x) (did_exec x).
Definition set_ptrace_stopped (v : bool) (x : task) : task :=
  mk_task (cpu x) (group x) (tgid x) (uid x) (euid x) (suid x) (sighand_of x) (blocked x) (pending x) (waiting x) (queue x) (saved_mask x) (has_saved_mask x) (traced x) v (ptrace_signal x) (parent x) (children x) (exit_code x) (zombie x) (exiting x) (vfork_waiting x) (exit_signal x) (did_exec x).
Definition set_ptrace_signal (v : Z) (x : task) : task :=
  mk_task (cpu x) (group x) (tgid x) (uid x) (euid x) (suid x) (sighand_of x) (blocked x) (pending x) (waiting x) (queue x) (saved_mask x) (has_saved_mask x) (traced x) (ptrace_stopped x) v (parent x) (children x) (exit_code x) (zombie x) (exiting x) (vfork_waiting x) (exit_signal x) (did_exec x).
Definition set_parent (v : option Z) (x : task) : task :=
  mk_task (cpu x) (group x) (tgid x) (uid x) (euid x) (suid x) (sighand_of x) (blocked x) (pending x) (waiting x) (queue x) (saved_mask x) (has_saved_mask x) (traced x) (ptrace_stopped x) (ptrace_signal x) v (children x) (exit_code x) (zombie x) (exiting x) (vfork_waiting x) (exit_signal x) (did_exec x).
Definition set_children (v : list Z) (x : task) : task :=
  mk_task (cpu x) (group x) (tgid x) (uid x) (euid x) (suid x) (sighand_of x) (blocked x) (pending x) (waiting x) (queue x) (saved_mask x) (has_saved_mask x) (traced x) (ptrace_stopped x) (ptrace_signal x) (parent x) v (exit_code x) (zombie x) (exiting x) (vfork_waiting x) (exit_signal x) (did_exec x).
Definition set_exit_code (v : Z) (x : task) : task :=
  mk_task (cpu x) (group x) (tgid x) (uid x) (euid x) (suid x) (sighand_of x) (blocked x) (pending x) (waiting x) (queue x) (saved_mask x) (has_saved_mask x) (traced x) (ptrace_stopped x) (ptrace_signal x) (parent x) (children x) v (zombie x) (exiting x) (vfork_waiting x) (exit_signal x) (did_exec x).
Definition set_zombie (v : bool) (x : task) : task :=
  mk_task (cpu x) (group x) (tgid x) (uid x) (euid x) (suid x) (sighand_of x) (blocked x) (pending x) (waiting x) (queue x) (saved_mask x) (has_saved_mask x) (traced x) (ptrace_stopped x) (ptrace_signal x) (parent x) (children x) (exit_code x) v (exiting x) (vfork_waiting x) (exit_signal x) (did_exec x).
Definition set_exiting (v : bool) (x : task) : task :=
  mk_task (cpu x) (group x) (tgid x) (uid x) (euid x) (suid x) (sighand_of x) (blocked x) (pending x) (waiting x) (queue x) (saved_mask x) (has_saved_mask x) (traced x) (ptrace_stopped x) (ptrace_signal x) (parent x) (children x) (exit_code x) (zombie x) v (vfork_waiting x) (exit_signal x) (did_exec x).
Definition set_vfork_waiting (v : bool) (x : task) : task :=
  mk_task (cpu x) (group x) (tgid x) (uid x) (euid x) (suid x) (sighand_of x) (blocked x) (pending x) (waiting x) (queue x) (saved_mask x) (has_saved_mask x) (traced x) (ptrace_stopped x) (ptrace_signal x) (parent x) (children x) (exit_code x) (zombie x) (exiting x) v (exit_signal x) (did_exec x).
Definition set_exit_signal (v : Z) (x : task) : task :=
  mk_task (cpu x) (group x) (tgid x) (uid x) (euid x) (suid x) (sighand_of x) (blocked x) (pending x) (waiting x) (queue x) (saved_mask x) (has_saved_mask x) (traced x) (ptrace_stopped x) (ptrace_signal x) (parent x) (children x) (exit_code x) (zombie x) (exiting x) (vfork_waiting x) v (did_exec x).
Definition set_did_exec (v : bool) (x : task) : task :=
  mk_task (cpu x) (group x) (tgid x) (uid x) (euid x) (suid x) (sighand_of x) (blocked x) (pending x) (waiting x) (queue x) (saved_mask x) (has_saved_mask x) (traced x) (ptrace_stopped x) (ptrace_signal x) (parent x) (children x) (exit_code x) (zombie x) (exiting x) (vfork_waiting x) (exit_signal x) v.

(** The leader is the key; [threads] is the list of tasks, [tty] whether the group has a controlling terminal. *)
Record tgroup := mk_tgroup {
  threads : list Z;
  sid : Z;
  pgid : Z;
  stopped : bool;
  tty : option Z;
  doing_group_exit : bool;
  group_exit_code : Z }.
Definition set_threads (v : list Z) (x : tgroup) : tgroup :=
  mk_tgroup v (sid x) (pgid x) (stopped x) (tty x) (doing_group_exit x) (group_exit_code x).
Definition set_sid (v : Z) (x : tgroup) : tgroup :=
  mk_tgroup (threads x) v (pgid x) (stopped x) (tty x) (doing_group_exit x) (group_exit_code x).
Definition set_pgid (v : Z) (x : tgroup) : tgroup :=
  mk_tgroup (threads x) (sid x) v (stopped x) (tty x) (doing_group_exit x) (group_exit_code x).
Definition set_stopped (v : bool) (x : tgroup) : tgroup :=
  mk_tgroup (threads x) (sid x) (pgid x) v (tty x) (doing_group_exit x) (group_exit_code x).
Definition set_tty (v : option Z) (x : tgroup) : tgroup :=
  mk_tgroup (threads x) (sid x) (pgid x) (stopped x) v (doing_group_exit x) (group_exit_code x).
Definition set_doing_group_exit (v : bool) (x : tgroup) : tgroup :=
  mk_tgroup (threads x) (sid x) (pgid x) (stopped x) (tty x) v (group_exit_code x).
Definition set_group_exit_code (v : Z) (x : tgroup) : tgroup :=
  mk_tgroup (threads x) (sid x) (pgid x) (stopped x) (tty x) (doing_group_exit x) v.

(** The state: the tasks of the pid table, the session and process group lists of its entries, and who runs.
    [kicked] records the threads that were interrupted with [pthread_kill], in order, and [halted] that init died. *)
Record kernel := mk_kernel {
  tasks : gmap Z task;
  groups : gmap Z tgroup;
  sighands : gmap Z sighand;
  session_list : gmap Z (list Z);
  pgroup_list : gmap Z (list Z);
  tty_session : gmap Z Z;
  cur_pid : Z;
  current : Z;
  kicked : list Z;
  halted : bool }.
Definition set_tasks (v : gmap Z task) (x : kernel) : kernel :=
  mk_kernel v (groups x) (sighands x) (session_list x) (pgroup_list x) (tty_session x) (cur_pid x) (current x) (kicked x) (halted x).
Definition set_groups (v : gmap Z tgroup) (x : kernel) : kernel :=
  mk_kernel (tasks x) v (sighands x) (session_list x) (pgroup_list x) (tty_session x) (cur_pid x) (current x) (kicked x) (halted x).
Definition set_sighands (v : gmap Z sighand) (x : kernel) : kernel :=
  mk_kernel (tasks x) (groups x) v (session_list x) (pgroup_list x) (tty_session x) (cur_pid x) (current x) (kicked x) (halted x).
Definition set_session_list (v : gmap Z (list Z)) (x : kernel) : kernel :=
  mk_kernel (tasks x) (groups x) (sighands x) v (pgroup_list x) (tty_session x) (cur_pid x) (current x) (kicked x) (halted x).
Definition set_pgroup_list (v : gmap Z (list Z)) (x : kernel) : kernel :=
  mk_kernel (tasks x) (groups x) (sighands x) (session_list x) v (tty_session x) (cur_pid x) (current x) (kicked x) (halted x).
Definition set_tty_session (v : gmap Z Z) (x : kernel) : kernel :=
  mk_kernel (tasks x) (groups x) (sighands x) (session_list x) (pgroup_list x) v (cur_pid x) (current x) (kicked x) (halted x).
Definition set_cur_pid (v : Z) (x : kernel) : kernel :=
  mk_kernel (tasks x) (groups x) (sighands x) (session_list x) (pgroup_list x) (tty_session x) v (current x) (kicked x) (halted x).
Definition set_current (v : Z) (x : kernel) : kernel :=
  mk_kernel (tasks x) (groups x) (sighands x) (session_list x) (pgroup_list x) (tty_session x) (cur_pid x) v (kicked x) (halted x).
Definition set_kicked (v : list Z) (x : kernel) : kernel :=
  mk_kernel (tasks x) (groups x) (sighands x) (session_list x) (pgroup_list x) (tty_session x) (cur_pid x) (current x) v (halted x).
Definition set_halted (v : bool) (x : kernel) : kernel :=
  mk_kernel (tasks x) (groups x) (sighands x) (session_list x) (pgroup_list x) (tty_session x) (cur_pid x) (current x) (kicked x) v.

(** ** The monad *)

Inductive outcome (A : Type) :=
  | Ret (a : A) (k : kernel)
  | Panic                     (* failed assertion, null pointer or index out of bounds *)
  | Deadlock                  (* locks a lock the thread holds *)
  | Exited (k : kernel).      (* the current task is gone *)
Arguments Ret {A} _ _.
Arguments Panic {A}.
Arguments Deadlock {A}.
Arguments Exited {A} _.

Definition M (A : Type) := kernel -> outcome A.
Definition ret {A} (a : A) : M A := fun k => Ret a k.
Definition bind {A B} (m : M A) (f : A -> M B) : M B := fun k =>
  match m k with Ret a k' => f a k' | Panic => Panic | Deadlock => Deadlock | Exited k' => Exited k' end.
Definition panic {A} : M A := fun _ => Panic.
Definition gets {A} (f : kernel -> A) : M A := fun k => Ret (f k) k.
Definition modify (f : kernel -> kernel) : M unit := fun k => Ret tt (f k).
Definition assert (b : bool) : M unit := if b then ret tt else panic.
(** Read through a pointer that must not be null. *)
Definition deref {A} (o : option A) : M A := match o with Some a => ret a | None => panic end.

Declare Scope task_scope.
Delimit Scope task_scope with task.
Notation "'let!' x := m 'in' f" := (bind m (fun x => f))
  (at level 10, x pattern, m at level 100, f at level 200) : task_scope.
Notation "m ;; f" := (bind m (fun _ => f)) (at level 100, f at level 200, right associativity) : task_scope.
Open Scope task_scope.

Fixpoint for_each {A} (l : list A) (body : A -> M unit) : M unit :=
  match l with
  | [] => ret tt
  | x :: l => body x ;; for_each l body
  end.

(** Fields of the object a pointer names. *)
Definition get_task (p : Z) : M task := let! k := gets id in deref (tasks k !! p).
Definition upd_task (p : Z) (f : task -> task) : M unit :=
  let! t := get_task p in modify (fun k => set_tasks (<[p := f t]> (tasks k)) k).
Definition get_group (g : Z) : M tgroup := let! k := gets id in deref (groups k !! g).
Definition upd_group (g : Z) (f : tgroup -> tgroup) : M unit :=
  let! x := get_group g in modify (fun k => set_groups (<[g := f x]> (groups k)) k).
Definition get_sighand (s : option Z) : M sighand :=
  let! i := deref s in let! k := gets id in deref (sighands k !! i).
Definition upd_sighand (s : option Z) (f : sighand -> sighand) : M unit :=
  let! i := deref s in let! x := get_sighand s in modify (fun k => set_sighands (<[i := f x]> (sighands k)) k).

(** ** The pid table *)

Definition MAX_PID : Z := Z.shiftl 1 15.

Definition session_of (k : kernel) (p : Z) : list Z := default [] (session_list k !! p).
Definition pgroup_of (k : kernel) (p : Z) : list Z := default [] (pgroup_list k !! p).

Definition pid_empty (k : kernel) (p : Z) : bool :=
  bool_decide (tasks k !! p = None) && bool_decide (session_of k p = []) && bool_decide (pgroup_of k p = []).

(** [sizeof(pids)/sizeof(pids[0])]. *)
Definition pids_size : Z := MAX_PID + 1.

(** The entry of the table, by its number; the test lets one number past the end through. *)
Definition pid_get (n : Z) : M (option Z) :=
  let n := u32 n in
  if n >? pids_size then ret None
  else if n =? pids_size then panic
  else let! k := gets id in ret (if pid_empty k n then None else Some n).

Definition pid_get_task_zombie (n : Z) : M (option Z) :=
  let! p := pid_get n in
  match p with
  | None => ret None
  | Some p => let! k := gets id in ret (match tasks k !! p with Some _ => Some p | None => None end)
  end.

Definition pid_get_task (n : Z) : M (option Z) :=
  let! t := pid_get_task_zombie n in
  match t with
  | None => ret None
  | Some p => let! x := get_task p in ret (if zombie x then None else Some p)
  end.

Definition task_is_leader (p : Z) : M bool := let! t := get_task p in ret (group t =? p).

Definition superuser : M bool :=
  let! c := gets current in let! t := get_task c in ret (euid t =? 0).

(** The pids of [for (int i = 2; i < MAX_PID; i++)]. *)
Fixpoint from (n : nat) (i : Z) : list Z := match n with O => [] | S n => i :: from n (i + 1) end.
Definition pid_range : list Z := from (Z.to_nat (MAX_PID - 2)) 2.

(** One turn of the search for a free pid. *)
Definition next_pid (p : Z) : Z := let p := p + 1 in if p >? MAX_PID then 1 else p.

(** The search: at most [MAX_PID] turns find a free pid when there is one; it does not end when there is none. *)
Fixpoint find_pid (fuel : nat) (k : kernel) (p : Z) : option Z :=
  match fuel with
  | O => None
  | S fuel => let p := next_pid p in if pid_empty k p then Some p else find_pid fuel k p
  end.

Definition regs0 : regs := mk_regs 0 0 0 0 0 0 0 0 0 Cpu.cpu_lazy 0 0.
Definition task0 : task := mk_task regs0 0 0 0 0 0 None 0 0 0 [] 0 false false false 0 None [] 0 false false false 0 false.

(** [task_create_]; [malloc] is assumed to succeed.  [None] is a search that does not end. *)
Definition task_create_ (fuel : nat) (par : option Z) : M (option Z) :=
  let! k := gets id in
  match find_pid fuel k (cur_pid k) with
  | None => ret None
  | Some p =>
      modify (set_cur_pid p) ;;
      modify (fun k => set_session_list (<[p := []]> (session_list k)) k) ;;
      modify (fun k => set_pgroup_list (<[p := []]> (pgroup_list k)) k) ;;
      let! t := match par with None => ret task0 | Some q => get_task q end in
      modify (fun k => set_tasks (<[p := t]> (tasks k)) k) ;;
      upd_task p (set_children []) ;;
      match par with
      | None => ret tt
      | Some q =>
          upd_task p (set_parent (Some q)) ;;
          upd_task q (fun t => set_children (p :: children t) t)
      end ;;
      upd_task p (fun t => set_did_exec false (set_queue [] (set_pending 0 t))) ;;
      ret (Some p)
  end.

(** [task_destroy]: the task leaves its parent's list and the table, and is freed. *)
Definition task_destroy (p : Z) : M unit :=
  let! t := get_task p in
  match parent t with
  | None => ret tt
  | Some q => modify (fun k => set_tasks (alter (fun t => set_children (filter (fun x => x <> p) (children t)) t) q (tasks k)) k)
  end ;;
  let! e := pid_get p in
  let! _ := deref e in
  modify (fun k => set_tasks (delete p (tasks k)) k).

(** ** Reasoning about the monad *)

Lemma bind_ret_l {A B} (a : A) (f : A -> M B) k : bind (ret a) f k = f a k.
Proof. reflexivity. Qed.
Lemma bind_assoc {A B C} (m : M A) (f : A -> M B) (g : B -> M C) k :
  bind (bind m f) g k = bind m (fun a => bind (f a) g) k.
Proof. unfold bind. by destruct (m k). Qed.
Lemma bind_Ret {A B} (m : M A) (f : A -> M B) k a k' : m k = Ret a k' -> bind m f k = f a k'.
Proof. unfold bind. by intros ->. Qed.
Lemma bind_gets {A B} (h : kernel -> A) (f : A -> M B) k : bind (gets h) f k = f (h k) k.
Proof. reflexivity. Qed.
Lemma bind_modify {B} h (f : unit -> M B) k : bind (modify h) f k = f tt (h k).
Proof. reflexivity. Qed.
Lemma bind_assert {B} b (f : unit -> M B) k : b = true -> bind (assert b) f k = f tt k.
Proof. by intros ->. Qed.
Lemma bind_deref {A B} (a : A) (f : A -> M B) k : bind (deref (Some a)) f k = f a k.
Proof. reflexivity. Qed.

Lemma bind_get_task {B} p t (f : task -> M B) k : tasks k !! p = Some t -> bind (get_task p) f k = f t k.
Proof. intros E. unfold get_task, bind, gets. cbn. by rewrite E. Qed.
Lemma bind_upd_task {B} p t h (f : unit -> M B) k : tasks k !! p = Some t ->
  bind (upd_task p h) f k = f tt (set_tasks (<[p := h t]> (tasks k)) k).
Proof. intros E. unfold upd_task, get_task, bind, gets, modify. cbn. by rewrite E. Qed.
Lemma upd_task_eq p t h k : tasks k !! p = Some t -> upd_task p h k = Ret tt (set_tasks (<[p := h t]> (tasks k)) k).
Proof. intros E. unfold upd_task, get_task, bind, gets, modify. cbn. by rewrite E. Qed.
Lemma bind_get_group {B} g x (f : tgroup -> M B) k : groups k !! g = Some x -> bind (get_group g) f k = f x k.
Proof. intros E. unfold get_group, bind, gets. cbn. by rewrite E. Qed.
Lemma upd_group_eq g x h k : groups k !! g = Some x -> upd_group g h k = Ret tt (set_groups (<[g := h x]> (groups k)) k).
Proof. intros E. unfold upd_group, get_group, bind, gets, modify. cbn. by rewrite E. Qed.
Lemma bind_upd_group {B} g x h (f : unit -> M B) k : groups k !! g = Some x ->
  bind (upd_group g h) f k = f tt (set_groups (<[g := h x]> (groups k)) k).
Proof. intros E. by apply bind_Ret, upd_group_eq. Qed.
Lemma bind_get_sighand {B} s i x (f : sighand -> M B) k : s = Some i -> sighands k !! i = Some x ->
  bind (get_sighand s) f k = f x k.
Proof. intros -> E. unfold get_sighand, bind, gets. cbn. by rewrite E. Qed.
Lemma upd_sighand_eq s i x h k : s = Some i -> sighands k !! i = Some x ->
  upd_sighand s h k = Ret tt (set_sighands (<[i := h x]> (sighands k)) k).
Proof. intros -> E. unfold upd_sighand, get_sighand, bind, gets, modify. cbn. by rewrite E. Qed.
Lemma bind_upd_sighand {B} s i x h (f : unit -> M B) k : s = Some i -> sighands k !! i = Some x ->
  bind (upd_sighand s h) f k = f tt (set_sighands (<[i := h x]> (sighands k)) k).
Proof. intros. apply bind_Ret. by apply upd_sighand_eq. Qed.

(** Run the steps whose operands are known. *)
Ltac mstep :=
  first [ rewrite bind_assoc | rewrite bind_ret_l | rewrite bind_gets | rewrite bind_modify | rewrite bind_deref
        | erewrite bind_get_task by eassumption | erewrite bind_upd_task by eassumption
        | erewrite bind_get_group by eassumption | erewrite bind_upd_group by eassumption
        | erewrite bind_get_sighand by eassumption | erewrite bind_upd_sighand by eassumption
        | erewrite upd_task_eq by eassumption | erewrite upd_group_eq by eassumption
        | erewrite upd_sighand_eq by eassumption | rewrite bind_assert by assumption ].
Ltac mrun := repeat mstep.

(** ** Allocating pids *)

Lemma next_pid_range p : 0 <= p <= MAX_PID -> 1 <= next_pid p <= MAX_PID.
Proof. unfold next_pid, MAX_PID. cbn zeta. rewrite Z.gtb_ltb. change (Z.shiftl 1 15) with 32768. destruct (Z.ltb_spec 32768 (p + 1)); lia. Qed.

(** The [n]th candidate after [p]. *)
Definition candidate (p : Z) (n : nat) : Z := (p - 1 + Z.of_nat n) mod MAX_PID + 1.

Lemma candidate_next p n : 0 <= p <= MAX_PID -> candidate (next_pid p) n = candidate p (S n).
Proof.
  intros Hp. unfold candidate, next_pid. cbn zeta. rewrite Z.gtb_ltb, Nat2Z.inj_succ.
  destruct (Z.ltb_spec MAX_PID (p + 1)); [|do 2 f_equal; lia].
  assert (p = MAX_PID) as -> by lia. f_equal.
  replace (MAX_PID - 1 + Z.succ (Z.of_nat n)) with (1 - 1 + Z.of_nat n + 1 * MAX_PID) by lia.
  symmetry. apply Z_mod_plus_full.
Qed.

Lemma candidate_0 p : 1 <= p <= MAX_PID -> candidate p 0 = p.
Proof. intros. unfold candidate. rewrite Z.add_0_r, Z.mod_small by lia. lia. Qed.

Lemma next_pid_candidate p : 0 <= p <= MAX_PID -> next_pid p = candidate p 1.
Proof.
  intros Hp. rewrite <- (candidate_next p 0) by done. symmetry. apply candidate_0, next_pid_range. lia.
Qed.

Lemma find_pid_candidate fuel k p : 0 <= p <= MAX_PID ->
  match find_pid fuel k p with
  | Some q => exists n, (n < fuel)%nat /\ q = candidate p (S n) /\ pid_empty k q = true /\
                forall m, (m < n)%nat -> pid_empty k (candidate p (S m)) = false
  | None => forall n, (n < fuel)%nat -> pid_empty k (candidate p (S n)) = false
  end.
Proof.
  revert p. induction fuel as [|fuel IH]; intros p Hp; cbn [find_pid]; [lia|].
  destruct (pid_empty k (next_pid p)) eqn:E.
  - exists 0%nat. split_and!; [lia|by apply next_pid_candidate|done|lia].
  - specialize (IH (next_pid p) ltac:(pose proof (next_pid_range p ltac:(lia)); lia)).
    assert (E1 : pid_empty k (candidate p 1) = false) by by rewrite <- next_pid_candidate.
    destruct (find_pid fuel k (next_pid p)) as [q|].
    + destruct IH as (n & Hn & -> & Hq & Hall). exists (S n). rewrite candidate_next by done. split_and!; [lia|done| |].
      * by rewrite <- candidate_next.
      * intros [|m] Hm; [done|]. rewrite <- candidate_next by done. apply Hall. lia.
    + intros [|n] Hn; [done|]. rewrite <- candidate_next by done. apply IH. lia.
Qed.

(** Every pid is a candidate within [MAX_PID] turns. *)
Lemma candidate_covers p q : 0 <= p <= MAX_PID -> 1 <= q <= MAX_PID ->
  exists n, (n < Z.to_nat MAX_PID)%nat /\ candidate p (S n) = q.
Proof.
  intros Hp Hq. assert (0 < MAX_PID) by done. set (d := (q - p - 1) mod MAX_PID).
  assert (0 <= d < MAX_PID) by (apply Z.mod_pos_bound; lia). exists (Z.to_nat d). split; [lia|].
  unfold candidate. rewrite Nat2Z.inj_succ, Z2Nat.id by lia. unfold d.
  replace (p - 1 + Z.succ ((q - p - 1) mod MAX_PID)) with (p + (q - p - 1) mod MAX_PID) by lia.
  rewrite Zplus_mod_idemp_r. replace (p + (q - p - 1)) with (q - 1) by lia. rewrite Z.mod_small by lia. lia.
Qed.

(** Simplifies the fields of an updated kernel state, and nothing else. *)
Ltac kcbn := cbn [tasks groups sighands session_list pgroup_list tty_session cur_pid current kicked halted set_tasks set_groups
  set_sighands set_session_list set_pgroup_list set_tty_session set_cur_pid set_current set_kicked set_halted].

Lemma find_pid_free k p q : 0 <= p <= MAX_PID -> 1 <= q <= MAX_PID -> pid_empty k q = true ->
  forall fuel, (Z.to_nat MAX_PID <= fuel)%nat ->
  exists r, find_pid fuel k p = Some r /\ 1 <= r <= MAX_PID /\ pid_empty k r = true.
Proof.
  intros Hp Hq E fuel Hf. pose proof (find_pid_candidate fuel k p Hp) as H.
  destruct (find_pid fuel k p) as [r|].
  - destruct H as (n & _ & -> & Er & _). exists (candidate p (S n)). split_and!; [done| | |done];
      unfold candidate; pose proof (Z.mod_pos_bound (p - 1 + Z.of_nat (S n)) MAX_PID ltac:(done)); lia.
  - destruct (candidate_covers p q Hp Hq) as (n & Hn & <-). rewrite H in E by lia. done.
Qed.

Lemma find_pid_full k p : 0 <= p <= MAX_PID -> (forall q, 1 <= q <= MAX_PID -> pid_empty k q = false) ->
  forall fuel, find_pid fuel k p = None.
Proof.
  intros Hp Hfull fuel. revert p Hp. induction fuel as [|fuel IH]; intros p Hp; [done|]. cbn [find_pid].
  pose proof (next_pid_range p Hp). rewrite Hfull by done. apply IH. lia.
Qed.

Lemma pid_empty_task k p : pid_empty k p = true -> tasks k !! p = None /\ session_of k p = [] /\ pgroup_of k p = [].
Proof. unfold pid_empty. rewrite !andb_true_iff, !bool_decide_eq_true. tauto. Qed.

(** The new task: a copy of its parent without children, pending signals or queue. *)
Definition child_of (q : Z) (t : task) : task :=
  set_did_exec false (set_queue [] (set_pending 0 (set_parent (Some q) (set_children [] t)))).

(** The state after the task [p] has been created as a child of [q]. *)
Definition created (p q : Z) (t : task) (k : kernel) : kernel :=
  mk_kernel (<[p := child_of q t]> (<[q := set_children (p :: children t) t]> (tasks k)))
    (groups k) (sighands k) (<[p := []]> (session_list k)) (<[p := []]> (pgroup_list k)) (tty_session k) p (current k)
    (kicked k) (halted k).

Lemma task_create_run fuel k q t p : tasks k !! q = Some t -> find_pid fuel k (cur_pid k) = Some p ->
  tasks k !! p = None -> task_create_ fuel (Some q) k = Ret (Some p) (created p q t k).
Proof.
  intros Hq Hp Hnone. assert (p <> q) by congruence. unfold task_create_. mrun. cbn. rewrite Hp. cbn match. mrun.
  erewrite bind_upd_task by apply lookup_insert_eq. mrun.
  erewrite bind_upd_task by apply lookup_insert_eq. mrun.
  erewrite bind_upd_task; [|kcbn; rewrite !lookup_insert_ne by done; exact Hq].
  erewrite bind_upd_task; [|kcbn; rewrite lookup_insert_ne by done; apply lookup_insert_eq].
  unfold ret. f_equal. unfold created. kcbn.
  rewrite !insert_insert_eq, (insert_insert_ne _ q p), !insert_insert_eq by done. reflexivity.
Qed.

Lemma find_pid_more n m k c p : (n <= m)%nat -> find_pid n k c = Some p -> find_pid m k c = Some p.
Proof.
  revert m c. induction n as [|n IH]; intros [|m] c Hm E; [done..|lia|]. cbn [find_pid] in *.
  destruct (pid_empty k (next_pid c)); [done|]. apply IH; [lia|done].
Qed.

(** Creating a task ends, and with a pid that was free, exactly when some pid is free: the search visits every pid within
    [MAX_PID] turns, and with none free it never ends.  The child is a copy of its parent without children or signals,
    it heads its parent's list, and nothing else changes. *)
Theorem task_create_spec k q t : 0 <= cur_pid k <= MAX_PID -> tasks k !! q = Some t ->
  ((exists p, 1 <= p <= MAX_PID /\ pid_empty k p = true) ->
   exists p, 1 <= p <= MAX_PID /\ pid_empty k p = true /\ p <> q /\
     forall fuel, (Z.to_nat MAX_PID <= fuel)%nat -> task_create_ fuel (Some q) k = Ret (Some p) (created p q t k)) /\
  ((forall p, 1 <= p <= MAX_PID -> pid_empty k p = false) -> forall fuel, task_create_ fuel (Some q) k = Ret None k).
Proof.
  intros Hc Hq. split.
  - intros (r & Hr & Er). destruct (find_pid_free k _ r Hc Hr Er (Z.to_nat MAX_PID) (le_n _)) as (p & E & Hp & Ep).
    destruct (pid_empty_task k p Ep) as (Hnone & _). exists p. split_and!; [lia..|done|congruence|].
    intros fuel Hf. apply task_create_run; [done| |done]. by apply (find_pid_more (Z.to_nat MAX_PID)).
  - intros Hfull fuel. unfold task_create_. mrun. cbn. by rewrite find_pid_full.
Qed.

Definition one_task : kernel :=
  mk_kernel {[1 := task0]} {[1 := mk_tgroup [1] 1 1 false None false 0]} ∅ {[1 := [1]]} {[1 := [1]]} ∅ MAX_PID 1 [] false.

Lemma task_create_spec_witness :
  exists p, 1 <= p <= MAX_PID /\ pid_empty one_task p = true /\ p <> 1 /\
    forall fuel, (Z.to_nat MAX_PID <= fuel)%nat -> task_create_ fuel (Some 1) one_task = Ret (Some p) (created p 1 task0 one_task).
Proof.
  apply (task_create_spec one_task 1 task0); [done|done|]. exists 2. split; [done|]. reflexivity.
Defined.

(** The pid lookup accepts one number past the end of the table, whatever the table holds: the test compares with the number of
    entries, so the number [MAX_PID + 1] indexes out of bounds, and [kill] of it too. *)
Theorem pid_get_out_of_bounds k : pid_get (MAX_PID + 1) k = Panic /\ pid_get_task (MAX_PID + 1) k = Panic.
Proof. split; reflexivity. Qed.

(** Elsewhere it finds exactly the entries in use. *)
Lemma pid_get_in_range k n : 0 <= n <= MAX_PID -> pid_get n k = Ret (if pid_empty k n then None else Some n) k.
Proof.
  intros Hn. assert (HM : MAX_PID = 32768) by reflexivity. unfold pid_get, pids_size. rewrite (wrap_small 32 n) by (unfold in_u; lia). cbn zeta.
  rewrite Z.gtb_ltb. destruct (Z.ltb_spec (MAX_PID + 1) n); [lia|]. destruct (Z.eqb_spec n (MAX_PID + 1)); [lia|]. reflexivity.
Qed.
Lemma pid_get_bind {B} k n (f : option Z -> M B) : 0 <= n <= MAX_PID ->
  bind (pid_get n) f k = f (if pid_empty k n then None else Some n) k.
Proof. intros Hn. by apply bind_Ret, pid_get_in_range. Qed.
Lemma pid_empty_Some k n t : tasks k !! n = Some t -> pid_empty k n = false.
Proof. intros E. unfold pid_empty. rewrite E. reflexivity. Qed.
Lemma pid_get_task_zombie_in_range k n : 0 <= n <= MAX_PID ->
  pid_get_task_zombie n k = Ret (match tasks k !! n with Some _ => Some n | None => None end) k.
Proof.
  intros Hn. unfold pid_get_task_zombie, bind. rewrite pid_get_in_range by done.
  destruct (pid_empty k n) eqn:E; [|reflexivity]. destruct (pid_empty_task _ _ E) as [-> _]. reflexivity.
Qed.
Lemma pid_get_task_in_range k n : 0 <= n <= MAX_PID ->
  pid_get_task n k = Ret (match tasks k !! n with Some t => if zombie t then None else Some n | None => None end) k.
Proof.
  intros Hn. unfold pid_get_task. erewrite bind_Ret by by apply pid_get_task_zombie_in_range.
  destruct (tasks k !! n) as [t|] eqn:E; [|reflexivity]. by rewrite (bind_get_task _ _ _ _ E).
Qed.

(** ** What operations preserve *)

Definition preserves {A} (P : kernel -> Prop) (m : M A) : Prop := forall k a k', P k -> m k = Ret a k' -> P k'.

Create HintDb kpres.
Lemma preserves_ret {A} P (a : A) : preserves P (ret a).
Proof. intros k b k' HP [= <- <-]. done. Qed.
Lemma preserves_panic {A} P : preserves P (@panic A).
Proof. intros k b k' HP [=]. Qed.
Lemma preserves_gets {A} P (f : kernel -> A) : preserves P (gets f).
Proof. intros k b k' HP [= <- <-]. done. Qed.
Lemma preserves_bind {A B} P (m : M A) (f : A -> M B) :
  preserves P m -> (forall a, preserves P (f a)) -> preserves P (bind m f).
Proof. intros Hm Hf k b k' HP. unfold bind. destruct (m k) as [a k1| | |] eqn:E; try discriminate. exact (Hf a k1 b k' (Hm k a k1 HP E)). Qed.
Lemma preserves_deref {A} P (o : option A) : preserves P (deref o).
Proof. destruct o; [apply preserves_ret|apply preserves_panic]. Qed.
Lemma preserves_assert P b : preserves P (assert b).
Proof. destruct b; [apply preserves_ret|apply preserves_panic]. Qed.
Lemma preserves_get_task P p : preserves P (get_task p).
Proof. apply preserves_bind; [apply preserves_gets|intros; apply preserves_deref]. Qed.
Lemma preserves_get_group P p : preserves P (get_group p).
Proof. apply preserves_bind; [apply preserves_gets|intros; apply preserves_deref]. Qed.
Lemma preserves_get_sighand P p : preserves P (get_sighand p).
Proof. apply preserves_bind; [apply preserves_deref|intros]. apply preserves_bind; [apply preserves_gets|intros; apply preserves_deref]. Qed.
Lemma preserves_for_each {A} P (l : list A) body : (forall x, preserves P (body x)) -> preserves P (for_each l body).
Proof. intros H. induction l; [apply preserves_ret|]. apply preserves_bind; [done|intros; apply IHl]. Qed.
Lemma preserves_modify P f : (forall k, P k -> P (f k)) -> preserves P (modify f).
Proof. intros H k a k' HP [= _ <-]. by apply H. Qed.
Lemma preserves_upd_task P p f :
  (forall k t, P k -> tasks k !! p = Some t -> P (set_tasks (<[p := f t]> (tasks k)) k)) -> preserves P (upd_task p f).
Proof.
  intros H k a k' HP. unfold upd_task, get_task, bind, gets, id. destruct (tasks k !! p) eqn:E; [|discriminate].
  cbn. intros [= _ <-]. by apply H.
Qed.
Lemma preserves_upd_group P g f :
  (forall k x, P k -> groups k !! g = Some x -> P (set_groups (<[g := f x]> (groups k)) k)) -> preserves P (upd_group g f).
Proof.
  intros H k a k' HP. unfold upd_group, get_group, bind, gets, id. destruct (groups k !! g) eqn:E; [|discriminate].
  cbn. intros [= _ <-]. by apply H.
Qed.
Lemma preserves_upd_sighand P s f :
  (forall k i x, P k -> sighands k !! i = Some x -> P (set_sighands (<[i := f x]> (sighands k)) k)) -> preserves P (upd_sighand s f).
Proof.
  intros H k a k' HP. unfold upd_sighand, get_sighand, bind, gets, id, deref. destruct s as [i|]; [|discriminate]. cbn.
  destruct (sighands k !! i) eqn:E; [|discriminate]. cbn. intros [= _ <-]. by apply H.
Qed.
Lemma preserves_pid_get P n : preserves P (pid_get n).
Proof. unfold pid_get. cbn zeta. repeat case_match; [apply preserves_ret|apply preserves_panic|]. apply preserves_bind; intros; [apply preserves_gets|apply preserves_ret]. Qed.
#[export] Hint Resolve preserves_ret preserves_panic preserves_gets preserves_deref preserves_assert preserves_get_task
  preserves_get_group preserves_get_sighand preserves_pid_get : kpres.

(** Walks through the steps of an operation; updates are left, unless the database knows them. *)
Ltac kpres :=
  repeat first
    [ solve [eauto with kpres nocore]
    | lazymatch goal with |- preserves _ (bind _ _) => apply preserves_bind; [|intros ?] end
    | apply preserves_for_each; intros ?
    | match goal with
      | |- preserves _ (if ?b then _ else _) => destruct b
      | |- preserves _ (match ?x with _ => _ end) => destruct x
      end ].
Lemma preserves_pid_get_task_zombie P n : preserves P (pid_get_task_zombie n).
Proof. unfold pid_get_task_zombie. kpres. Qed.
#[export] Hint Resolve preserves_pid_get_task_zombie : kpres.
Lemma preserves_pid_get_task P n : preserves P (pid_get_task n).
Proof. unfold pid_get_task. kpres. Qed.
Lemma preserves_superuser P : preserves P superuser.
Proof. unfold superuser. kpres. Qed.
Lemma preserves_task_is_leader P p : preserves P (task_is_leader p).
Proof. unfold task_is_leader. kpres. Qed.
#[export] Hint Resolve preserves_pid_get_task preserves_superuser preserves_task_is_leader : kpres.

(** The same for operations that may also end the task. *)
Definition keeps {A} (P : kernel -> Prop) (m : M A) : Prop :=
  forall k, P k -> match m k with Ret _ k' | Exited k' => P k' | _ => True end.
Lemma keeps_preserves {A} P (m : M A) : (forall k k', m k <> Exited k') -> preserves P m -> keeps P m.
Proof. intros Hx Hm k HP. destruct (m k) as [a k'| | |k'] eqn:E; [by eapply Hm|done..|]. by destruct (Hx k k'). Qed.
Lemma keeps_bind {A B} P (m : M A) (f : A -> M B) : keeps P m -> (forall a, keeps P (f a)) -> keeps P (bind m f).
Proof. intros Hm Hf k HP. specialize (Hm k HP). unfold bind. destruct (m k); try done. by apply Hf. Qed.
End Task.
