(* ===== verification/Signal.v ===== *)
(** * Signals (kernel/signal.c, kernel/signal.h)

    Sending, queueing, blocking and delivering signals, the frames a handler runs on, and the system calls.  Locks are
    not modelled, except where a thread takes a lock it already holds.  Where a thread sleeps, what the other
    threads and the host do is a parameter: [wait_for]'s results in the calls that wait for a signal, and [ptrace_wait], the
    sleep of a traced task.  [do_exit_group] (kernel/exit.c) is a parameter here because the two files call each
    other; [Exit] supplies it.  A frame is stored in and read from guest memory through the class [FrameMem]. *)

From S2P Require Import Prelude Errno Float80 Cpu Task.

Module Signal.
Import Errno Task.

(** ** Signal sets *)

Definition valid_sig (sig : Z) : bool := (1 <=? sig) && (sig <? NUM_SIGS).
Definition sig_bit (sig : Z) : Z := Z.shiftl 1 (sig - 1).
Definition sig_mask (sig : Z) : M Z := assert (valid_sig sig) ;; ret (sig_bit sig).

Definition has_bit (set sig : Z) : bool := ctrue (Z.land set (sig_bit sig)).
Definition add_bit (set sig : Z) : Z := Z.lor set (sig_bit sig).
Definition del_bit (set sig : Z) : Z := Z.land set (u64 (Z.lnot (sig_bit sig))).
Definition sigset_has (set sig : Z) : M bool := assert (valid_sig sig) ;; ret (has_bit set sig).

Definition signal_is_blockable (sig : Z) : bool := negb (sig =? SIGKILL_) && negb (sig =? SIGSTOP_).
Definition UNBLOCKABLE_MASK : Z := Z.lor (sig_bit SIGKILL_) (sig_bit SIGSTOP_).

Definition SIG_DFL_ : Z := 0.
Definition SIG_IGN_ : Z := 1.
Definition SA_SIGINFO_ : Z := 4.
Definition SA_NODEFER_ : Z := 0x40000000.
Definition SA_RESETHAND_ : Z := 0x80000000.

(** ** Actions *)

Inductive signal_disposition := SIGNAL_IGNORE | SIGNAL_KILL | SIGNAL_CALL_HANDLER | SIGNAL_STOP.
#[export] Instance signal_disposition_eq_dec : EqDecision signal_disposition.
Proof. solve_decision. Defined.

Definition default_action (sig : Z) : signal_disposition :=
  if (sig =? SIGURG_) || (sig =? SIGCONT_) || (sig =? SIGCHLD_) || (sig =? SIGIO_) || (sig =? SIGWINCH_) then SIGNAL_IGNORE
  else if (sig =? SIGSTOP_) || (sig =? SIGTSTP_) || (sig =? SIGTTIN_) || (sig =? SIGTTOU_) then SIGNAL_STOP
  else SIGNAL_KILL.

(** [sighand->action[sig]]; an index out of bounds stops the emulator. *)
Definition get_action (sh : sighand) (sig : Z) : M sigaction_ :=
  if sig <? 0 then panic else deref (action sh !! Z.to_nat sig).

Definition signal_action (sh : sighand) (sig : Z) : M signal_disposition :=
  if signal_is_blockable sig then
    let! a := get_action sh sig in
    ret (if handler a =? SIG_IGN_ then SIGNAL_IGNORE
         else if negb (handler a =? SIG_DFL_) then SIGNAL_CALL_HANDLER
         else default_action sig)
  else ret (default_action sig).

(** ** Sending *)

Definition deliver_signal_unlocked (p sig : Z) (info : siginfo_) : M unit :=
  let! t := get_task p in
  let! already := sigset_has (pending t) sig in
  if already then ret tt
  else
    upd_task p (fun t => set_queue (queue t ++ [set_si_sig sig info]) (set_pending (add_bit (pending t) sig) t)) ;;
    let! held := sigset_has (Z.land (blocked t) (u64 (Z.lnot (waiting t)))) sig in
    if held && signal_is_blockable sig then ret tt
    else
      let! c := gets current in
      if p =? c then ret tt else modify (fun k => set_kicked (kicked k ++ [p]) k).

(** [deliver_signal] takes [sighand->lock]: a task that has exited has none. *)
Definition deliver_signal (p sig : Z) (info : siginfo_) : M unit :=
  let! t := get_task p in
  let! _ := get_sighand (sighand_of t) in
  deliver_signal_unlocked p sig info.

Definition send_signal (p sig : Z) (info : siginfo_) : M unit :=
  if sig =? 0 then ret tt
  else
    let! t := get_task p in
    if zombie t || exiting t then ret tt
    else
      let! sh := get_sighand (sighand_of t) in
      let! a := signal_action sh sig in
      (if bool_decide (a = SIGNAL_IGNORE) then ret tt else deliver_signal_unlocked p sig info) ;;
      if (sig =? SIGCONT_) || (sig =? SIGKILL_) then upd_group (group t) (set_stopped false) else ret tt.

Definition try_self_signal (sig : Z) : M bool :=
  assert ((sig =? SIGTTIN_) || (sig =? SIGTTOU_)) ;;
  let! c := gets current in
  let! t := get_task c in
  let! sh := get_sighand (sighand_of t) in
  let! a := signal_action sh sig in
  let! b := sigset_has (blocked t) sig in
  let can_send := negb (bool_decide (a = SIGNAL_IGNORE)) && negb b in
  (if can_send then deliver_signal_unlocked c sig SIGINFO_NIL else ret tt) ;;
  ret can_send.

Definition send_group_signal (pg sig : Z) (info : siginfo_) : M Z :=
  let! p := pid_get pg in
  match p with
  | None => ret _ESRCH
  | Some p =>
      let! k := gets id in
      for_each (pgroup_of k p) (fun g => send_signal g sig info) ;;
      ret 0
  end.

(** ** Frames *)

Record sigcontext_ := mk_sigcontext {
  sc_di : Z;
  sc_si : Z;
  sc_bp : Z;
  sc_sp : Z;
  sc_bx : Z;
  sc_dx : Z;
  sc_cx : Z;
  sc_ax : Z;
  sc_trapno : Z;
  sc_ip : Z;
  sc_flags : Z;
  sc_sp_at_signal : Z;
  sc_oldmask : Z;
  sc_cr2 : Z }.

(** The alternate stack as the guest sees it. *)
Record stack_t_ := mk_stack { ss_stack : Z; ss_flags : Z; ss_size : Z }.
Record sigframe_ := mk_sigframe {
  fr_restorer : Z; fr_sig : Z; fr_sc : sigcontext_; fr_extramask : Z; fr_retcode : list Z }.
Record rt_sigframe_ := mk_rt_sigframe {
  rt_restorer : Z; rt_sig : Z; rt_pinfo : Z; rt_puc : Z; rt_info : siginfo_;
  rt_flags : Z; rt_link : Z; rt_stack : stack_t_; rt_mcontext : sigcontext_; rt_sigmask : Z; rt_retcode : list Z }.
Inductive frame := plain_frame (f : sigframe_) | rt_frame (f : rt_sigframe_).

(** [sizeof] and [offsetof] of the two frames. *)
Definition sizeof_sigframe : Z := 732.
Definition sizeof_rt_sigframe : Z := 268.
Definition offset_rt_info : Z := 16.
Definition offset_rt_uc : Z := 144.
Definition offset_rt_sig : Z := 4.
Definition offset_sc : Z := 8.
Definition frame_size (f : frame) : Z := match f with plain_frame _ => sizeof_sigframe | rt_frame _ => sizeof_rt_sigframe end.

(** Guest memory as far as frames go: a stored frame is read back from its address until memory there changes. *)
Class FrameMem (U : Type) := {
  put_frame : U -> Z -> frame -> option U;
  get_frame : U -> Z -> option frame }.
Class FrameMemOK (U : Type) `{FrameMem U} :=
  get_put_frame : forall u u' a f, put_frame u a f = Some u' -> get_frame u' a = Some f.

Definition INT_GPF : Z := 13.

(** [setup_sigcontext] collapses the processor's flags; the fields the code does not set are 0. *)
Definition setup_sigcontext (blk : Z) (r : regs) : sigcontext_ * regs :=
  let r' := set_fl (Cpu.collapse_flags (fl r)) r in
  (mk_sigcontext (edi r) (esi r) (ebp r) (esp r) (ebx r) (edx r) (ecx r) (eax r) (trapno r) (eip r)
     (Cpu.eflags (fl r')) (esp r) (Z.land blk 0xffffffff) (if trapno r =? INT_GPF then segfault_addr r else 0), r').

Definition USE_FLAGS : Z := 0x50dd5.
Definition restore_sigcontext (c : sigcontext_) (r : regs) : regs :=
  let f := Cpu.collapse_flags (fl r) in
  let f := Cpu.set_eflags (Z.lor (Z.land (sc_flags c) USE_FLAGS) (Z.land (Cpu.eflags f) (u32 (Z.lnot USE_FLAGS)))) f in
  mk_regs (sc_ax c) (sc_bx c) (sc_cx c) (sc_dx c) (sc_si c) (sc_di c) (sc_bp c) (sc_sp c) (sc_ip c) f (trapno r) (segfault_addr r).

Definition is_on_altstack (sp : Z) (sh : sighand) : bool :=
  (altstack sh <? sp) && (sp <=? u32 (altstack sh + altstack_size sh)).
Definition SS_ONSTACK_ : Z := 1.
Definition SS_DISABLE_ : Z := 2.
Definition MINSIGSTKSZ_ : Z := 2048.
Definition altstack_to_user (sh : sighand) (sp : Z) : stack_t_ :=
  mk_stack (altstack sh)
    (Z.lor (if altstack sh =? 0 then SS_DISABLE_ else 0) (if is_on_altstack sp sh then SS_ONSTACK_ else 0))
    (altstack_size sh).

(** What the exit code promises to this one: the function that ends the thread group does not return. *)
Class Noreturn (f : Z -> M unit) : Prop := noreturn : forall s k a k', f s k <> Ret a k'.

Section Frames.
(** Where the trampolines are, [current->mm->vdso + vdso_symbol(name)]. *)
Context (sigreturn_addr rt_sigreturn_addr : Z).

Definition setup_sigframe (info : siginfo_) (blk : Z) (r : regs) : sigframe_ * regs :=
  let '(sc, r) := setup_sigcontext blk r in
  (mk_sigframe sigreturn_addr (si_sig info) sc (Z.shiftr blk 32) [0x58; 0xb8; 113; 0; 0; 0; 0xcd; 0x80], r).

Definition setup_rt_sigframe (info : siginfo_) (sh : sighand) (blk : Z) (r : regs) : rt_sigframe_ * regs :=
  let stk := altstack_to_user sh (esp r) in
  let '(sc, r) := setup_sigcontext blk r in
  (mk_rt_sigframe rt_sigreturn_addr (si_sig info) 0 0 info 0 0 stk sc blk [0xb8; 173; 0; 0; 0; 0xcd; 0x80; 0], r).

Context (xsave_extra fxsave_extra : Z).

(** Where the frame goes. *)
Definition frame_sp (sp : Z) (sh : sighand) (size : Z) : Z :=
  let sp := if ctrue (altstack sh) && negb (is_on_altstack sp sh) then u32 (altstack sh + altstack_size sh) else sp in
  let sp := if ctrue xsave_extra then u32 (Z.land (u32 (sp - xsave_extra)) (u32 (Z.lnot 0x3f)) - fxsave_extra) else sp in
  let sp := u32 (sp - size) in
  u32 (Z.land (u32 (sp + 4)) (u32 (Z.lnot 0xf)) - 4).

(** The frame for a handler, where it goes, and the registers the handler starts with. *)
Definition setup_handler (info : siginfo_) (sh : sighand) (act : sigaction_) (t : task) : Z * frame * regs :=
  let need_siginfo := ctrue (Z.land (sa_flags act) SA_SIGINFO_) in
  let r := cpu t in
  let '(fr, r) :=
    if need_siginfo then let '(f, r) := setup_rt_sigframe info sh (blocked t) r in (rt_frame f, r)
    else let '(f, r) := setup_sigframe info (blocked t) r in (plain_frame f, r) in
  let r := set_eip (handler act) (set_eax (si_sig info) r) in
  let sp := frame_sp (esp r) sh (frame_size fr) in
  let r := set_esp sp r in
  match fr with
  | rt_frame f =>
      let pinfo := u32 (sp + offset_rt_info) in let puc := u32 (sp + offset_rt_uc) in
      (sp,
       rt_frame (mk_rt_sigframe (rt_restorer f) (rt_sig f) pinfo puc (rt_info f) (rt_flags f) (rt_link f)
                  (rt_stack f) (rt_mcontext f) (rt_sigmask f) (rt_retcode f)),
       set_ecx puc (set_edx pinfo r))
  | _ => (sp, fr, r)
  end.

(** The mask while the handler runs. *)
Definition handler_mask (sig : Z) (act : sigaction_) (blk : Z) : Z :=
  Z.lor (if ctrue (Z.land (sa_flags act) SA_NODEFER_) then blk else add_bit blk sig) (sa_mask act).

Context {U : Type} `{FrameMem U}.
(** The memory is threaded beside the kernel state. *)
Context (do_exit_group : Z -> M unit).

(** [receive_signal] runs with [sighand->lock] held: when the frame cannot be written it calls
    [deliver_signal], which takes the lock again. *)
Definition receive_signal (info : siginfo_) (u : U) : M U :=
  let! c := gets current in
  let! t := get_task c in
  let! sh := get_sighand (sighand_of t) in
  let sig := si_sig info in
  let! a := signal_action sh sig in
  match a with
  | SIGNAL_IGNORE => ret u
  | SIGNAL_STOP =>
      upd_group (group t) (fun g => set_group_exit_code (Z.lor (Z.shiftl sig 8) 0x7f) (set_stopped true g)) ;; ret u
  | SIGNAL_KILL => do_exit_group sig ;; ret u
  | SIGNAL_CALL_HANDLER =>
      let! act := get_action sh sig in
      let '(sp, fr, r) := setup_handler info sh act t in
      (if ctrue (Z.land (sa_flags act) SA_NODEFER_) then ret tt else assert (valid_sig sig)) ;;
      upd_task c (fun t => set_blocked (handler_mask sig act (blocked t)) (set_cpu r t)) ;;
      match put_frame u sp fr with
      | None => fun _ => Deadlock
      | Some u =>
          (if ctrue (Z.land (sa_flags act) SA_RESETHAND_)
           then upd_sighand (sighand_of t) (fun sh => set_action (<[Z.to_nat sig := mk_sigaction SIG_DFL_ 0 0 0]> (action sh)) sh)
           else ret tt) ;;
          ret u
      end
  end.

(** The sleep of a traced task until its parent resumes it: what other threads do to the state, and whether SIGKILL arrived. *)
Context (ptrace_wait : M bool).

Definition signal_delivery_stop (sig : Z) (info : siginfo_) : M unit :=
  let! c := gets current in
  upd_task c (fun t => set_ptrace_signal sig (set_ptrace_stopped true t)) ;;
  let! t := get_task c in
  let! p := deref (parent t) in
  let! _ := get_task p in
  let! leader := get_task (group t) in
  send_signal p (exit_signal leader) SIGINFO_NIL ;;
  let! killed := ptrace_wait in
  if killed then do_exit_group SIGKILL_ else ret tt.

(** The walk over the queue: [i] entries are skipped because they are blocked; the successor of an entry is
    determined before it is handled, as [list_for_each_entry_safe] does. *)
Fixpoint receive_loop (fuel : nat) (blk : Z) (i : nat) (u : U) : M U :=
  match fuel with
  | O => ret u
  | S fuel =>
      let! c := gets current in
      let! t := get_task c in
      match queue t !! i with
      | None => ret u
      | Some info =>
          let more := bool_decide (S i < length (queue t))%nat in
          let sig := si_sig info in
          let! b := sigset_has blk sig in
          if b then if more then receive_loop fuel blk (S i) u else ret u
          else
            upd_task c (fun t => set_pending (del_bit (pending t) sig) (set_queue (delete i (queue t)) t)) ;;
            let! u :=
              (if traced t && negb (sig =? SIGKILL_) then signal_delivery_stop sig info ;; ret u
               else receive_signal info u) in
            if more then receive_loop fuel blk i u else ret u
      end
  end.

(** The parent hears about a stop after the queue has been walked. *)
Definition report_stop (was_stopped : bool) (g : Z) : M unit :=
  if was_stopped then ret tt
  else
    let! x := get_group g in
    if stopped x then
      let! c := gets current in
      let! t := get_task c in
      let! p := deref (parent t) in
      let! _ := get_task p in
      let! leader := get_task (group t) in
      send_signal p (exit_signal leader) SIGINFO_NIL
    else ret tt.

(** What counts as blocked now: after a call like [sigsuspend], what was blocked during the call and still is after it. *)
Definition blocked_now (t : task) : Z := if has_saved_mask t then Z.land (blocked t) (saved_mask t) else blocked t.
Definition restore_mask (t : task) : task :=
  if has_saved_mask t then set_blocked (saved_mask t) (set_has_saved_mask false t) else t.

Definition receive_signals (fuel : nat) (u : U) : M U :=
  let! c := gets current in
  let! t := get_task c in
  let! g := get_group (group t) in
  let was_stopped := stopped g in
  let! _ := get_sighand (sighand_of t) in
  upd_task c restore_mask ;;
  let! u := receive_loop fuel (blocked_now t) 0 u in
  report_stop was_stopped (group t) ;;
  ret u.

(** ** Returning from a handler *)

Definition sigmask_set (set : Z) : M unit :=
  let! c := gets current in upd_task c (set_blocked (Z.land set (u64 (Z.lnot UNBLOCKABLE_MASK)))).

Definition sys_rt_sigreturn (u : U) : M Z :=
  let! c := gets current in
  let! t := get_task c in
  match get_frame u (u32 (esp (cpu t) - offset_rt_sig)) with
  | Some (rt_frame f) =>
      let r := restore_sigcontext (rt_mcontext f) (cpu t) in
      upd_task c (set_cpu r) ;;
      let! sh := get_sighand (sighand_of t) in
      (if negb (is_on_altstack (esp r) sh) && (ss_size (rt_stack f) >=? MINSIGSTKSZ_)
       then upd_sighand (sighand_of t) (fun sh => set_altstack_size (ss_size (rt_stack f)) (set_altstack (ss_stack (rt_stack f)) sh))
       else ret tt) ;;
      sigmask_set (rt_sigmask f) ;;
      ret (eax r)
  | _ => deliver_signal c SIGSEGV_ SIGINFO_NIL ;; ret _EFAULT
  end.

Definition sys_sigreturn (u : U) : M Z :=
  let! c := gets current in
  let! t := get_task c in
  match get_frame u (u32 (esp (cpu t) - offset_sc)) with
  | Some (plain_frame f) =>
      let r := restore_sigcontext (fr_sc f) (cpu t) in
      upd_task c (set_cpu r) ;;
      let! _ := get_sighand (sighand_of t) in
      sigmask_set (Z.lor (Z.shiftl (fr_extramask f) 32) (sc_oldmask (fr_sc f))) ;;
      ret (eax r)
  | _ => deliver_signal c SIGSEGV_ SIGINFO_NIL ;; ret _EFAULT
  end.
End Frames.

(** ** Actions and masks *)

Definition sighand_new (id : Z) : M Z :=
  modify (fun k => set_sighands (<[id := mk_sighand 1 (repeat (mk_sigaction 0 0 0 0) 64) 0 0]> (sighands k)) k) ;; ret id.
(** [id] is the address [malloc] returns. *)
Definition sighand_copy (id old : Z) : M Z :=
  let! n := sighand_new id in
  let! sh := get_sighand (Some old) in
  upd_sighand (Some n) (set_action (action sh)) ;; ret n.
Definition sighand_release (id : Z) : M unit :=
  let! sh := get_sighand (Some id) in
  if refcount sh - 1 =? 0 then modify (fun k => set_sighands (delete id (sighands k)) k)
  else upd_sighand (Some id) (set_refcount (refcount sh - 1)).

(** The old action, when the call succeeds and asks for it. *)
Definition do_sigaction (sig : Z) (act : option sigaction_) (want_old : bool) : M (Z * option sigaction_) :=
  if sig >=? NUM_SIGS then ret (_EINVAL, None)
  else if negb (signal_is_blockable sig) then ret (_EINVAL, None)
  else
    let! c := gets current in
    let! t := get_task c in
    let! sh := get_sighand (sighand_of t) in
    let! old := (if want_old then let! a := get_action sh sig in ret (Some a) else ret None) in
    match act with
    | None => ret tt
    | Some a => let! _ := get_action sh sig in
                upd_sighand (sighand_of t) (fun sh => set_action (<[Z.to_nat sig := a]> (action sh)) sh)
    end ;;
    ret (0, old).

(** Arguments in guest memory: [action] is what [user_get] read, if the address is not null; the outer [option] is its
    failure.  The result pairs the return value with what [user_put] would store. *)
Definition sys_rt_sigaction (signum : Z) (act : option (option sigaction_)) (want_old : bool) (sigset_size : Z)
    : M (Z * option sigaction_) :=
  if negb (sigset_size =? 8) then ret (_EINVAL, None)
  else match act with
       | Some None => ret (_EFAULT, None)
       | Some (Some a) => do_sigaction (s32 signum) (Some a) want_old
       | None => do_sigaction (s32 signum) None want_old
       end.
Definition sys_sigaction (signum : Z) (act : option (option sigaction_)) (want_old : bool) : M (Z * option sigaction_) :=
  sys_rt_sigaction signum act want_old 1.

Definition sigmask_set_temp_unlocked (mask : Z) : M unit :=
  let! c := gets current in
  upd_task c (fun t => set_has_saved_mask true (set_saved_mask (blocked t) t)) ;;
  sigmask_set mask.

Definition SIG_BLOCK_ : Z := 0.
Definition SIG_UNBLOCK_ : Z := 1.
Definition SIG_SETMASK_ : Z := 2.
Definition do_sigprocmask (how set : Z) : M Z :=
  let! c := gets current in
  let! t := get_task c in
  if how =? SIG_BLOCK_ then sigmask_set (Z.lor (blocked t) set) ;; ret 0
  else if how =? SIG_UNBLOCK_ then sigmask_set (Z.land (blocked t) (u64 (Z.lnot set))) ;; ret 0
  else if how =? SIG_SETMASK_ then sigmask_set set ;; ret 0
  else ret _EINVAL.

(** The set read from memory as above; the second result is the old mask stored when [old_ok] says the store succeeds. *)
Definition sys_rt_sigprocmask (how : Z) (set : option (option Z)) (old_addr old_ok : bool) (size : Z) : M (Z * option Z) :=
  if negb (size =? 8) then ret (_EINVAL, None)
  else match set with
       | Some None => ret (_EFAULT, None)
       | _ =>
           let! c := gets current in
           let! t := get_task c in
           if old_addr && negb old_ok then ret (_EFAULT, None)
           else
             let old := if old_addr then Some (blocked t) else None in
             match set with
             | Some (Some s) => let! err := do_sigprocmask how s in ret (err, old)
             | _ => ret (0, old)
             end
       end.

Definition sys_rt_sigpending : M Z :=
  let! c := gets current in let! t := get_task c in ret (Z.land (pending t) (blocked t)).

(** [sys_sigaltstack]; the flag in the result says whether [sighand->lock] is still held on return. *)
Definition sys_sigaltstack (ss : option (option stack_t_)) (old_addr old_ok : bool) : M (Z * option stack_t_ * bool) :=
  let! c := gets current in
  let! t := get_task c in
  let! sh := get_sighand (sighand_of t) in
  let old := if old_addr then Some (altstack_to_user sh (esp (cpu t))) else None in
  if old_addr && negb old_ok then ret (_EFAULT, None, false)
  else match ss with
       | None => ret (0, old, false)
       | Some m =>
           if is_on_altstack (esp (cpu t)) sh then ret (_EPERM, old, false)
           else match m with
                | None => ret (_EFAULT, old, false)
                | Some s =>
                    if ctrue (Z.land (ss_flags s) SS_DISABLE_) then
                      upd_sighand (sighand_of t) (set_altstack 0) ;; ret (0, old, false)
                    else if ss_size s <? MINSIGSTKSZ_ then ret (_ENOMEM, old, true)
                    else upd_sighand (sighand_of t) (fun sh => set_altstack_size (ss_size s) (set_altstack (ss_stack s) sh)) ;;
                         ret (0, old, false)
                end
       end.

(** ** Waiting for signals *)

(** [wait_for] (util/sync.c) passes on what the pthread call returns. *)
Definition wait_for (timeout : bool) (wait timedwait : Z) : Z := if timeout then timedwait else wait.

(** [while (wait_for(...) != _EINTR) continue;]: the results of the calls are [w 0], [w 1], ...; [None] when [fuel] calls do
    not end the loop. *)
Fixpoint pause_loop (fuel : nat) (w : nat -> Z) (i : nat) : option nat :=
  match fuel with
  | O => None
  | S fuel => if w i =? _EINTR then Some (S i) else pause_loop fuel w (S i)
  end.
Definition sys_pause (fuel : nat) (w : nat -> Z) : M (option Z) :=
  ret (match pause_loop fuel w 0 with Some _ => Some _EINTR | None => None end).
Definition sys_rt_sigsuspend (mask : option Z) (size : Z) (fuel : nat) (w : nat -> Z) : M (option Z) :=
  if negb (size =? 8) then ret (Some _EINVAL)
  else match mask with
       | None => ret (Some _EFAULT)
       | Some m =>
           sigmask_set_temp_unlocked m ;;
           ret (match pause_loop fuel w 0 with Some _ => Some _EINTR | None => None end)
       end.

(** [wait_for]'s first result that is not 0, for [sigtimedwait]. *)
Fixpoint timedwait_loop (fuel : nat) (w : nat -> Z) (i : nat) : option Z :=
  match fuel with
  | O => None
  | S fuel => if w i =? 0 then timedwait_loop fuel w (S i) else Some (w i)
  end.

(** The position of the first queued signal in [set]. *)
Fixpoint find_sig (set : Z) (q : list siginfo_) (i : nat) : M (option (nat * siginfo_)) :=
  match q with
  | [] => ret None
  | x :: q =>
      let! b := sigset_has set (si_sig x) in
      if b then ret (Some (i, x)) else find_sig set q (S i)
  end.

(** [arrivals] is what other threads do while the call sleeps. *)
Definition sys_rt_sigtimedwait (set : option Z) (size : Z) (fuel : nat) (w : nat -> Z) (arrivals : M unit)
    : M (option (Z * option siginfo_)) :=
  if negb (size =? 8) then ret (Some (_EINVAL, None))
  else match set with
       | None => ret (Some (_EFAULT, None))
       | Some set =>
           let! c := gets current in
           let! t := get_task c in
           assert (waiting t =? 0) ;;
           upd_task c (set_waiting set) ;;
           match timedwait_loop fuel w 0 with
           | None => ret None
           | Some err =>
               arrivals ;;
               upd_task c (set_waiting 0) ;;
               if err =? _ETIMEDOUT then ret (Some (_EAGAIN, None))
               else
                 let! t := get_task c in
                 let! f := find_sig set (queue t) 0 in
                 match f with
                 | None => ret (Some (_EINTR, None))
                 | Some (i, info) =>
                     upd_task c (fun t => set_queue (delete i (queue t)) t) ;;
                     ret (Some (si_sig info, Some info))
                 end
           end
       end.

(** ** kill *)

Definition kill_task (p sig : Z) : M Z :=
  let! c := gets current in
  let! me := get_task c in
  let! t := get_task p in
  let! su := superuser in
  if negb su && negb (uid me =? uid t) && negb (uid me =? suid t) && negb (euid me =? uid t) && negb (euid me =? suid t)
  then ret _EPERM
  else send_signal p sig (mk_siginfo 0 0 SI_USER_ (si_kill c (uid me))) ;; ret 0.

(** The errors of the members combined: an error only if no process can be signaled. *)
Fixpoint kill_list (l : list Z) (sig err : Z) : M Z :=
  match l with
  | [] => ret err
  | p :: l =>
      let! e := kill_task p sig in
      kill_list l sig (if err =? _EPERM then e else err)
  end.

Definition kill_group (pg sig : Z) : M Z :=
  let! p := pid_get pg in
  match p with
  | None => ret _ESRCH
  | Some p => let! k := gets id in kill_list (pgroup_of k p) sig _EPERM
  end.

Fixpoint kill_pids (l : list Z) (sig err : Z) : M Z :=
  match l with
  | [] => ret err
  | i :: l =>
      let! t := pid_get_task i in
      let! c := gets current in
      match t with
      | None => kill_pids l sig err
      | Some p =>
          let! leader := task_is_leader p in
          if (p =? c) || negb leader then kill_pids l sig err
          else let! e := kill_task p sig in kill_pids l sig (if err =? _EPERM then e else err)
      end
  end.
Definition kill_everything (sig : Z) : M Z := kill_pids pid_range sig _EPERM.

Definition do_kill (p sig tg : Z) : M Z :=
  if u32 sig >=? NUM_SIGS then ret _EINVAL
  else
    let! c := gets current in
    let! me := get_task c in
    let! g := get_group (group me) in
    let p := if p =? 0 then - pgid g else p in
    if p =? -1 then kill_everything sig
    else if p <? 0 then kill_group (- p) sig
    else
      let! t := pid_get_task p in
      match t with
      | None => ret _ESRCH
      | Some q =>
          let! x := get_task q in
          if negb (tg =? 0) && negb (tgid x =? tg) then ret _ESRCH else kill_task q sig
      end.

Definition sys_kill (p sig : Z) : M Z := do_kill p sig 0.
Definition sys_tgkill (tg tid sig : Z) : M Z :=
  if (tid <=? 0) || (tg <=? 0) then ret _EINVAL else do_kill tid sig tg.
Definition sys_tkill (tid sig : Z) : M Z := if tid <=? 0 then ret _EINVAL else do_kill tid sig 0.

(** ** Signal sets as sets of signals *)

Lemma valid_sig_spec s : valid_sig s = true <-> 1 <= s < 64.
Proof. unfold valid_sig, NUM_SIGS. rewrite andb_true_iff, Z.leb_le, Z.ltb_lt. done. Qed.

Lemma sig_bit_testbit s i : 1 <= s < 64 -> 0 <= i -> Z.testbit (sig_bit s) i = (i =? s - 1).
Proof. intros. unfold sig_bit. rewrite Z.shiftl_1_l, Z.pow2_bits_eqb by lia. apply Z.eqb_sym. Qed.

Lemma has_bit_testbit set s : 1 <= s < 64 -> has_bit set s = Z.testbit set (s - 1).
Proof.
  intros Hs. unfold has_bit, ctrue. destruct (Z.testbit set (s - 1)) eqn:E.
  - apply negb_true_iff, Z.eqb_neq. intros H0. apply (f_equal (fun x => Z.testbit x (s - 1))) in H0.
    rewrite Z.land_spec, E, sig_bit_testbit, Z.eqb_refl, Z.bits_0 in H0 by lia. done.
  - apply negb_false_iff, Z.eqb_eq, Z.bits_inj'. intros i Hi. rewrite Z.land_spec, sig_bit_testbit, Z.bits_0 by lia.
    destruct (Z.eqb_spec i (s - 1)) as [->|]; [by rewrite E|apply andb_false_r].
Qed.

Lemma has_add_bit set s s' : 1 <= s < 64 -> 1 <= s' < 64 -> has_bit (add_bit set s) s' = (s =? s') || has_bit set s'.
Proof.
  intros. rewrite !has_bit_testbit by done. unfold add_bit. rewrite Z.lor_spec, sig_bit_testbit by lia.
  rewrite orb_comm. f_equal. destruct (Z.eqb_spec (s' - 1) (s - 1)), (Z.eqb_spec s s'); lia.
Qed.

Lemma has_del_bit set s s' : 1 <= s < 64 -> 1 <= s' < 64 -> has_bit (del_bit set s) s' = negb (s =? s') && has_bit set s'.
Proof.
  intros. rewrite !has_bit_testbit by done. unfold del_bit.
  rewrite Z.land_spec, Cpu.wrap_testbit, Z.lnot_spec, sig_bit_testbit by lia. rewrite andb_comm. f_equal.
  destruct (Z.ltb_spec (s' - 1) 64); [|lia]. destruct (Z.eqb_spec (s' - 1) (s - 1)), (Z.eqb_spec s s'); lia.
Qed.

Lemma has_minus_mask set m s : 1 <= s < 64 -> has_bit (Z.land set (u64 (Z.lnot m))) s = has_bit set s && negb (has_bit m s).
Proof.
  intros. rewrite !has_bit_testbit by done. rewrite Z.land_spec, Cpu.wrap_testbit, Z.lnot_spec by lia.
  destruct (Z.ltb_spec (s - 1) 64); [done|lia].
Qed.
Lemma has_lor a b s : 1 <= s < 64 -> has_bit (Z.lor a b) s = has_bit a s || has_bit b s.
Proof. intros. rewrite !has_bit_testbit by done. apply Z.lor_spec. Qed.
Lemma has_land a b s : 1 <= s < 64 -> has_bit (Z.land a b) s = has_bit a s && has_bit b s.
Proof. intros. rewrite !has_bit_testbit by done. apply Z.land_spec. Qed.

Lemma has_zero s : has_bit 0 s = false.
Proof. unfold has_bit. by rewrite Z.land_0_l. Qed.

Lemma sigset_has_run {B} set s (f : bool -> M B) k : 1 <= s < 64 -> bind (sigset_has set s) f k = f (has_bit set s) k.
Proof. intros Hs. unfold sigset_has. apply valid_sig_spec in Hs. by rewrite Hs. Qed.

(** ** The pending set and the queue agree *)

Definition queued (t : task) : list Z := map si_sig (queue t).

Record sigs_ok (t : task) : Prop := {
  so_valid : Forall (fun s => 1 <= s < 64) (queued t);
  so_nodup : NoDup (queued t);
  so_pending : forall s, 1 <= s < 64 -> has_bit (pending t) s = true <-> s ∈ queued t }.

Definition sigs_inv (k : kernel) : Prop := forall p t, tasks k !! p = Some t -> sigs_ok t.

Lemma sigs_inv_insert k p t : sigs_inv k -> sigs_ok t -> sigs_inv (set_tasks (<[p := t]> (tasks k)) k).
Proof. intros Hk Ht q t'. kcbn. rewrite lookup_insert_Some. intros [[_ <-]|[_ E]]; [done|by eapply Hk]. Qed.

(** Fields the invariant does not look at. *)
Lemma sigs_ok_ext t t' : queue t' = queue t -> pending t' = pending t -> sigs_ok t -> sigs_ok t'.
Proof. intros Eq Ep [H1 H2 H3]. split; unfold queued; rewrite Eq, ?Ep; assumption. Qed.

Lemma sigs_upd_other p f : (forall t, queue (f t) = queue t) -> (forall t, pending (f t) = pending t) ->
  preserves sigs_inv (upd_task p f).
Proof.
  intros Hq Hp. apply preserves_upd_task. intros k t HP E. apply sigs_inv_insert; [done|]. by apply (sigs_ok_ext t), (HP p).
Qed.
Lemma sigs_upd_group g f : preserves sigs_inv (upd_group g f).
Proof. by apply preserves_upd_group. Qed.
Lemma sigs_upd_sighand g f : preserves sigs_inv (upd_sighand g f).
Proof. by apply preserves_upd_sighand. Qed.
Lemma preserves_sigset_has P a b : preserves P (sigset_has a b).
Proof. unfold sigset_has. kpres. Qed.
Lemma preserves_get_action P a b : preserves P (get_action a b).
Proof. unfold get_action. kpres. Qed.
#[local] Hint Resolve sigs_upd_group sigs_upd_sighand preserves_sigset_has preserves_get_action : kpres.
#[local] Hint Extern 4 (preserves sigs_inv (upd_task _ _)) => apply sigs_upd_other; reflexivity : kpres.
#[local] Hint Extern 4 (preserves sigs_inv (modify _)) => apply preserves_modify; intros ? Hinv; exact Hinv : kpres.
Lemma preserves_signal_action P a b : preserves P (signal_action a b).
Proof. unfold signal_action. kpres. Qed.
#[local] Hint Resolve preserves_signal_action : kpres.

Lemma queued_app t x s : queued (set_queue (queue t ++ [x]) s) = queued t ++ [si_sig x].
Proof. unfold queued. cbn. by rewrite map_app. Qed.

Lemma sigs_ok_add t sig info : 1 <= sig < 64 -> sigs_ok t -> has_bit (pending t) sig = false ->
  sigs_ok (set_queue (queue t ++ [set_si_sig sig info]) (set_pending (add_bit (pending t) sig) t)).
Proof.
  intros Hs [H1 H2 H3] E. assert (Hnot : sig ∉ queued t) by (rewrite <- H3 by done; congruence).
  split; unfold queued; cbn; rewrite map_app; cbn; fold (queued t).
  - apply Forall_app; split; [done|by constructor].
  - apply NoDup_app. split_and!; [done| |apply NoDup_singleton]. intros x Hx ->%list_elem_of_singleton. done.
  - intros s Hs'. rewrite has_add_bit, orb_true_iff, H3, Z.eqb_eq, elem_of_app, list_elem_of_singleton by done. split; intros [?|?]; auto.
Qed.

Lemma queued_delete t i x : queue t !! i = Some x -> queued (set_queue (delete i (queue t)) t) = delete i (queued t).
Proof. intros _. unfold queued. cbn. rewrite !delete_take_drop, map_app, <- firstn_map, <- skipn_map. done. Qed.

Lemma sigs_ok_remove t i info : sigs_ok t -> queue t !! i = Some info ->
  sigs_ok (set_pending (del_bit (pending t) (si_sig info)) (set_queue (delete i (queue t)) t)).
Proof.
  intros [H1 H2 H3] E. assert (Ei : queued t !! i = Some (si_sig info)) by (unfold queued; by rewrite list_lookup_fmap, E).
  assert (Hs : 1 <= si_sig info < 64) by exact (Forall_lookup_1 _ _ _ _ H1 Ei).
  pose proof (delete_Permutation _ _ _ Ei) as Hperm. rewrite Hperm in H1, H2.
  split; change (queued _) with (queued (set_queue (delete i (queue t)) t)); rewrite (queued_delete t i info E);
    set (d := delete i (queued t)) in *; clearbody d.
  - by inversion H1.
  - by apply NoDup_cons in H2 as [].
  - intros s Hs'. cbn. rewrite has_del_bit, andb_true_iff, negb_true_iff, Z.eqb_neq, H3 by done.
    apply NoDup_cons in H2 as [H2 _]. rewrite Hperm, elem_of_cons. split; [intros [? [?|?]]; congruence|]. intros Hd. split; [intros <-; done|by right].
Qed.

Lemma sigs_deliver p sig info : preserves sigs_inv (deliver_signal_unlocked p sig info).
Proof.
  intros k a k' HP. unfold deliver_signal_unlocked. unfold get_task at 1. rewrite bind_assoc, bind_gets. cbn.
  destruct (tasks k !! p) as [t|] eqn:E; [|discriminate]. mrun. unfold sigset_has at 1, assert.
  destruct (valid_sig sig) eqn:V; [|discriminate]. apply valid_sig_spec in V. mrun.
  destruct (has_bit (pending t) sig) eqn:B; [by intros [= _ <-]|].
  rewrite (bind_upd_task _ _ _ _ _ E). intros H1. eapply (preserves_bind sigs_inv) in H1; [exact H1| | |].
  - kpres.
  - intros. kpres.
  - apply sigs_inv_insert; [done|]. apply sigs_ok_add; [done|by eapply HP|done].
Qed.
#[local] Hint Resolve sigs_deliver : kpres.
Lemma sigs_deliver_locked p sig info : preserves sigs_inv (deliver_signal p sig info).
Proof. unfold deliver_signal. kpres. Qed.
Lemma sigs_send p sig info : preserves sigs_inv (send_signal p sig info).
Proof. unfold send_signal. kpres. Qed.
#[local] Hint Resolve sigs_deliver_locked sigs_send : kpres.

Lemma sigs_try_self sig : preserves sigs_inv (try_self_signal sig).
Proof. unfold try_self_signal. kpres. Qed.
Lemma sigs_send_group pg sig info : preserves sigs_inv (send_group_signal pg sig info).
Proof. unfold send_group_signal. kpres. Qed.
Lemma sigs_kill_task p sig : preserves sigs_inv (kill_task p sig).
Proof. unfold kill_task. kpres. Qed.
#[local] Hint Resolve sigs_kill_task : kpres.
Lemma sigs_kill_list l sig err : preserves sigs_inv (kill_list l sig err).
Proof. revert err. induction l; intros err; cbn [kill_list]; kpres. Qed.
Lemma sigs_kill_pids l sig err : preserves sigs_inv (kill_pids l sig err).
Proof. revert err. induction l; intros err; cbn [kill_pids]; kpres. Qed.
#[local] Hint Resolve sigs_kill_list sigs_kill_pids : kpres.
Lemma sigs_do_kill p sig tg : preserves sigs_inv (do_kill p sig tg).
Proof. unfold do_kill, kill_everything, kill_group. kpres. Qed.
#[local] Hint Resolve sigs_try_self sigs_send_group sigs_do_kill : kpres.
Lemma sigs_sigmask_set set : preserves sigs_inv (sigmask_set set).
Proof. unfold sigmask_set. kpres. Qed.
#[local] Hint Resolve sigs_sigmask_set : kpres.
Lemma sigs_do_sigprocmask how set : preserves sigs_inv (do_sigprocmask how set).
Proof. unfold do_sigprocmask. kpres. Qed.
#[local] Hint Resolve sigs_do_sigprocmask : kpres.

Section Receive.
Context (sigreturn_addr rt_sigreturn_addr xsave_extra fxsave_extra : Z).
Context {U : Type} `{FrameMem U} (do_exit_group : Z -> M unit) (ptrace_wait : M bool).
Context `{!Noreturn do_exit_group}.
Hypothesis wait_keeps : preserves sigs_inv ptrace_wait.
Lemma exit_keeps s : preserves sigs_inv (do_exit_group s).
Proof. intros k a k' _ E. by apply noreturn in E. Qed.
#[local] Hint Resolve exit_keeps wait_keeps : kpres.

Lemma sigs_receive_signal info u :
  preserves sigs_inv (receive_signal sigreturn_addr rt_sigreturn_addr xsave_extra fxsave_extra do_exit_group info u).
Proof.
  unfold receive_signal. kpres. all: try (intros ? ? ? ? [=]; done).
  all: repeat match goal with |- preserves _ (let '(_, _) := ?p in _) => destruct p end; kpres.
  all: intros ? ? ? ? [=].
Qed.
#[local] Hint Resolve sigs_receive_signal : kpres.

Lemma sigs_delivery_stop sig info : preserves sigs_inv (signal_delivery_stop do_exit_group ptrace_wait sig info).
Proof. unfold signal_delivery_stop. kpres. Qed.
#[local] Hint Resolve sigs_delivery_stop : kpres.

Lemma sigs_receive_loop fuel blk i u :
  preserves sigs_inv (receive_loop sigreturn_addr rt_sigreturn_addr xsave_extra fxsave_extra do_exit_group ptrace_wait fuel blk i u).
Proof.
  revert i u. induction fuel as [|fuel IH]; intros i u; cbn [receive_loop]; [kpres|].
  intros k a k' HP. rewrite bind_gets. unfold get_task at 1. rewrite bind_assoc, bind_gets. cbn [id].
  destruct (tasks k !! current k) as [t|] eqn:E; [|discriminate]. rewrite bind_deref.
  destruct (queue t !! i) as [info|] eqn:Ei; [|by intros [= _ <-]]. cbn zeta.
  assert (Hs : 1 <= si_sig info < 64).
  { apply (Forall_lookup_1 _ (queued t) i (si_sig info) (so_valid t (HP _ _ E))). unfold queued. by rewrite list_lookup_fmap, Ei. }
  rewrite sigset_has_run by done. destruct (has_bit blk (si_sig info)).
  - destruct (bool_decide _); [by apply IH|by intros [= _ <-]].
  - rewrite (bind_upd_task _ _ _ _ _ E). intros H1. refine (preserves_bind sigs_inv _ _ _ _ _ _ _ _ H1).
    + kpres.
    + intros u'. destruct (bool_decide _); [apply IH|kpres].
    + apply sigs_inv_insert; [done|]. apply sigs_ok_remove; [by eapply HP|done].
Qed.
#[local] Hint Resolve sigs_receive_loop : kpres.

Lemma sigs_receive_signals fuel u :
  preserves sigs_inv (receive_signals sigreturn_addr rt_sigreturn_addr xsave_extra fxsave_extra do_exit_group ptrace_wait fuel u).
Proof.
  assert (forall p, preserves sigs_inv (upd_task p restore_mask))
    by (intros; apply sigs_upd_other; intros t; unfold restore_mask; by destruct (has_saved_mask t)).
  unfold receive_signals, report_stop. kpres.
Qed.

(** C12: In every task the pending set is exactly the set of queued signals, each queued once and each a real signal, and every
    operation that sends, delivers or returns from signals keeps it so: kill, tkill and tgkill, signals to process groups,
    the terminal's signals, the delivery of everything that is pending, and changes of the mask. *)
Theorem pending_matches_queue :
  (forall p sig info, preserves sigs_inv (send_signal p sig info)) /\
  (forall p sig info, preserves sigs_inv (deliver_signal p sig info)) /\
  (forall sig, preserves sigs_inv (try_self_signal sig)) /\
  (forall pg sig info, preserves sigs_inv (send_group_signal pg sig info)) /\
  (forall p sig tg, preserves sigs_inv (do_kill p sig tg)) /\
  (forall how set, preserves sigs_inv (do_sigprocmask how set)) /\
  (forall fuel u, preserves sigs_inv (receive_signals sigreturn_addr rt_sigreturn_addr xsave_extra fxsave_extra
                                        do_exit_group ptrace_wait fuel u)) /\
  (forall u, preserves sigs_inv (sys_sigreturn u)) /\ (forall u, preserves sigs_inv (sys_rt_sigreturn u)).
Proof.
  split_and!; intros; auto using sigs_receive_signals with kpres.
  - unfold sys_sigreturn. kpres.
  - unfold sys_rt_sigreturn. kpres.
Qed.
End Receive.

(** ** Delivery is in order and complete *)

Section Delivery.
Context (sigreturn_addr rt_sigreturn_addr xsave_extra fxsave_extra : Z).
Context {U : Type} `{FrameMem U} (do_exit_group : Z -> M unit) (ptrace_wait : M bool).
(** [do_exit_group] is declared [noreturn]. *)
Context `{!Noreturn do_exit_group}.

Abbreviation receive := (receive_signal sigreturn_addr rt_sigreturn_addr xsave_extra fxsave_extra do_exit_group).
Abbreviation loop := (receive_loop sigreturn_addr rt_sigreturn_addr xsave_extra fxsave_extra do_exit_group ptrace_wait).

(** The specification: the signals of a list are taken out of the queue and acted on, one after the other. *)
Definition dequeue (info : siginfo_) (t : task) : task :=
  set_pending (del_bit (pending t) (si_sig info)) (set_queue (filter (fun x => si_sig x <> si_sig info) (queue t)) t).
Fixpoint deliver_seq (l : list siginfo_) (u : U) : M U :=
  match l with
  | [] => ret u
  | info :: l =>
      let! c := gets current in
      upd_task c (dequeue info) ;;
      let! u := receive info u in
      deliver_seq l u
  end.
Definition unblocked (blk : Z) (info : siginfo_) : Prop := has_bit blk (si_sig info) = false.
#[export] Instance unblocked_dec blk info : Decision (unblocked blk info).
Proof. unfold unblocked. apply _. Defined.

(** What acting on a signal leaves alone. *)
Definition same_queue (c : Z) (q : list siginfo_) (k : kernel) : Prop :=
  current k = c /\ exists t, tasks k !! c = Some t /\ queue t = q /\ traced t = false.
Lemma same_queue_upd c q p f : (forall t, queue (f t) = queue t) -> (forall t, traced (f t) = traced t) ->
  preserves (same_queue c q) (upd_task p f).
Proof.
  intros Hq Ht. apply preserves_upd_task. intros k t [Hc (t' & E & Eq & Et)] Ep. split; [done|]. kcbn.
  destruct (decide (p = c)) as [->|].
  - exists (f t). rewrite lookup_insert_eq. assert (t = t') as -> by congruence. rewrite Hq, Ht. done.
  - exists t'. by rewrite lookup_insert_ne.
Qed.
Lemma same_queue_receive c q info u : preserves (same_queue c q) (receive info u).
Proof.
  pose proof preserves_get_action. pose proof preserves_signal_action.
  assert (forall g f, preserves (same_queue c q) (upd_group g f)) by (intros; by apply preserves_upd_group).
  assert (forall g f, preserves (same_queue c q) (upd_sighand g f)) by (intros; by apply preserves_upd_sighand).
  assert (forall s, preserves (same_queue c q) (do_exit_group s)) by (intros s k a k' _ E; by apply noreturn in E).
  unfold receive_signal.
  repeat (kpres; try match goal with
    | |- preserves _ (upd_task _ _) => apply same_queue_upd; reflexivity
    | |- preserves _ (let '(_, _) := ?p in _) => destruct p
    | |- preserves _ (fun _ => Deadlock) => intros ? ? ? ? [=]
    end; auto).
Qed.

Lemma filter_other_sigs pre (x : siginfo_) rest : NoDup (map si_sig (pre ++ x :: rest)) ->
  filter (fun y => si_sig y <> si_sig x) (pre ++ x :: rest) = pre ++ rest.
Proof.
  intros Hnd. rewrite map_app in Hnd. cbn in Hnd. apply NoDup_app in Hnd as (_ & Hpre & Hnd). apply NoDup_cons in Hnd as [Hrest _].
  assert (Hid : forall l, si_sig x ∉ map si_sig l -> filter (fun y => si_sig y <> si_sig x) l = l).
  { induction l as [|y l IH]; cbn [map]; [done|]. intros [Hy Hl]%not_elem_of_cons. rewrite filter_cons_True by congruence. f_equal. auto. }
  rewrite filter_app, filter_cons_False by auto. rewrite !Hid; [done|done|].
  intros Hx. apply (Hpre _ Hx). apply elem_of_cons. by left.
Qed.

Lemma delete_mid {A} (pre : list A) x rest : delete (length pre) (pre ++ x :: rest) = pre ++ rest.
Proof. rewrite delete_take_drop, take_app_length, drop_app_ge by lia. by replace (S (length pre) - length pre)%nat with 1%nat by lia. Qed.

Lemma receive_loop_from fuel blk pre rest u k t : tasks k !! current k = Some t -> queue t = pre ++ rest -> traced t = false ->
  Forall (fun x => 1 <= si_sig x < 64) rest -> NoDup (map si_sig (pre ++ rest)) ->
  (length rest <= fuel)%nat ->
  loop fuel blk (length pre) u k = deliver_seq (filter (unblocked blk) rest) u k.
Proof.
  revert pre rest u k t. induction fuel as [|fuel IH]; intros pre rest u k t Et Eq Htr Hv Hnd Hf.
  { destruct rest; [done|cbn in Hf; lia]. }
  cbn [receive_loop]. mrun. rewrite Eq.
  destruct rest as [|x rest]; [by rewrite app_nil_r, lookup_ge_None_2 by done|]. rewrite list_lookup_middle by done. cbn in Hf. apply Forall_cons in Hv as [Hx Hv]. rewrite sigset_has_run by done.
  assert (Hmore : bool_decide (S (length pre) < length (queue t))%nat = match rest with [] => false | _ => true end).
  { rewrite Eq, length_app. cbn. destruct rest; cbn; [apply bool_decide_eq_false|apply bool_decide_eq_true]; lia. }
  rewrite Eq in Hmore. rewrite Hmore. destruct (has_bit blk (si_sig x)) eqn:B.
  - rewrite filter_cons_False by (unfold unblocked; congruence). destruct rest as [|y rest]; [done|].
    replace (S (length pre)) with (length (pre ++ [x])) by (rewrite length_app; cbn; lia).
    apply (IH _ _ _ _ t); rewrite <- ?app_assoc; try done. cbn in *. lia.
  - rewrite filter_cons_True by done. cbn [deliver_seq]. rewrite bind_gets, !(bind_upd_task _ _ _ _ _ Et), Htr. cbn [andb].
    replace (dequeue x t) with (set_pending (del_bit (pending t) (si_sig x)) (set_queue (delete (length pre) (queue t)) t))
      by (unfold dequeue; by rewrite Eq, delete_mid, filter_other_sigs).
    set (k1 := set_tasks _ k). unfold bind. destruct (receive x u k1) as [u' k2| | |] eqn:E; [|done..].
    assert (Hq : same_queue (current k) (pre ++ rest) k2).
    { eapply same_queue_receive; [|exact E]. split; [done|]. eexists. unfold k1. kcbn. rewrite lookup_insert_eq. split; [done|].
      cbn. by rewrite Eq, delete_mid. }
    destruct Hq as [Hc (t2 & E2 & Eq2 & Htr2)]. rewrite <- Hc in E2. destruct rest as [|y rest]; [done|].
    apply (IH _ _ _ _ t2); try done; [|cbn in *; lia].
    rewrite map_app in Hnd |- *. cbn in Hnd. apply NoDup_app in Hnd as (? & Hd & Hn). apply NoDup_cons in Hn as [_ Hn].
    apply NoDup_app. split_and!; [done| |done]. intros z Hz Hz'. apply (Hd z Hz). apply elem_of_cons. by right.
Qed.

Lemma receive_signals_run fuel u k t g sh :
  tasks k !! current k = Some t -> groups k !! group t = Some g -> get_sighand (sighand_of t) k = Ret sh k ->
  sigs_ok t -> traced t = false -> (length (queue t) <= fuel)%nat ->
  receive_signals sigreturn_addr rt_sigreturn_addr xsave_extra fxsave_extra do_exit_group ptrace_wait fuel u k =
  (let! c := gets current in
   upd_task c restore_mask ;;
   let! u := deliver_seq (filter (unblocked (blocked_now t)) (queue t)) u in
   report_stop (stopped g) (group t) ;;
   ret u) k.
Proof.
  intros Et Eg Esh Hok Htr Hf. unfold receive_signals. mrun. rewrite (bind_Ret _ _ _ _ _ Esh). mrun.
  set (t' := restore_mask t). assert (Eq : queue t' = queue t) by (unfold t', restore_mask; by destruct (has_saved_mask t)).
  assert (Htr' : traced t' = false) by (unfold t', restore_mask; by destruct (has_saved_mask t)).
  clearbody t'. unfold bind at 1 3. rewrite (receive_loop_from fuel _ [] (queue t) u _ t'); [done|..]; kcbn; try done.
  - by rewrite lookup_insert_eq.
  - apply Forall_lookup. intros i x Ex. apply (Forall_lookup_1 _ _ i _ (so_valid t Hok)). unfold queued. by rewrite list_lookup_fmap, Ex.
  - apply (so_nodup t Hok).
Qed.

(** C7: Delivery is in queue order and complete: for a task that is not traced, [receive_signals] is the sequence that takes each
    queued signal that is not blocked out of the queue and acts on it, first come first served, and then reports a stop.
    The walk over the list ends after as many turns as there are queued signals. *)
Theorem receive_signals_refines fuel u k t g sh :
  tasks k !! current k = Some t -> groups k !! group t = Some g -> get_sighand (sighand_of t) k = Ret sh k ->
  sigs_ok t -> traced t = false -> (length (queue t) <= fuel)%nat ->
  receive_signals sigreturn_addr rt_sigreturn_addr xsave_extra fxsave_extra do_exit_group ptrace_wait fuel u k =
  (let! c := gets current in
   upd_task c restore_mask ;;
   let! u := deliver_seq (filter (unblocked (blocked_now t)) (queue t)) u in
   report_stop (stopped g) (group t) ;;
   ret u) k.
Proof. apply receive_signals_run. Qed.

(** The action a signal has, for signals in range. *)
Definition disposition (sh : sighand) (sig : Z) : signal_disposition :=
  if signal_is_blockable sig then
    match action sh !! Z.to_nat sig with
    | Some a => if handler a =? SIG_IGN_ then SIGNAL_IGNORE
                else if negb (handler a =? SIG_DFL_) then SIGNAL_CALL_HANDLER else default_action sig
    | None => default_action sig
    end
  else default_action sig.

Lemma bind_get_action {B} sh sig a (f : sigaction_ -> M B) k : 0 <= sig -> action sh !! Z.to_nat sig = Some a ->
  bind (get_action sh sig) f k = f a k.
Proof. intros Hs E. unfold get_action. destruct (Z.ltb_spec sig 0); [lia|]. by rewrite E, bind_deref. Qed.
Lemma action_lookup sh sig : length (action sh) = 64%nat -> 0 <= sig < 64 -> exists a, action sh !! Z.to_nat sig = Some a.
Proof. intros Hl Hs. apply lookup_lt_is_Some_2. lia. Qed.
Lemma bind_if_assert {B} (c b : bool) (f : unit -> M B) k : b = true -> bind (if c then ret tt else assert b) f k = f tt k.
Proof. intros ->. by destruct c. Qed.
Lemma signal_action_run {B} sh sig (f : signal_disposition -> M B) k : length (action sh) = 64%nat -> 0 <= sig < 64 ->
  bind (signal_action sh sig) f k = f (disposition sh sig) k.
Proof.
  intros Hl Hs. unfold signal_action, disposition. destruct (signal_is_blockable sig); [|done]. rewrite bind_assoc.
  destruct (action_lookup sh sig Hl Hs) as [a E]. by rewrite (bind_get_action _ _ _ _ _ (proj1 Hs) E), E.
Qed.

Lemma disposition_reset sh sig s a : 0 <= sig -> 0 <= s -> s <> sig ->
  disposition (set_action (<[Z.to_nat sig := a]> (action sh)) sh) s = disposition sh s.
Proof. intros. unfold disposition. cbn [action set_action]. rewrite list_lookup_insert_ne by lia. done. Qed.

(** A state in which a signal can be acted on. *)
Record ready (k : kernel) (t : task) (i : Z) (sh : sighand) : Prop := {
  rd_task : tasks k !! current k = Some t;
  rd_sighand : sighand_of t = Some i;
  rd_actions : sighands k !! i = Some sh;
  rd_len : length (action sh) = 64%nat;
  rd_group : is_Some (groups k !! group t) }.

Hypothesis put_total : forall u a f, is_Some (put_frame u a f).

Lemma receive_total info u k t i sh : ready k t i sh -> 1 <= si_sig info < 64 -> disposition sh (si_sig info) <> SIGNAL_KILL ->
  exists u' k' t' sh', receive info u k = Ret u' k' /\ ready k' t' i sh' /\ current k' = current k /\
    queue t' = queue t /\ group t' = group t /\
    (forall s, 0 <= s -> s <> si_sig info -> disposition sh' s = disposition sh s) /\
    (disposition sh (si_sig info) <> SIGNAL_STOP -> groups k' = groups k).
Proof.
  intros [Et Es Ea Hl [g Eg]] Hs Hk. unfold receive_signal. mrun. rewrite signal_action_run by (done || lia).
  destruct (disposition sh (si_sig info)) eqn:D; [|done| |].
  - exists u, k, t, sh. split_and!; [done|split; by eauto|done..].
  - destruct (action_lookup sh (si_sig info) Hl ltac:(lia)) as [a Ea']. rewrite (bind_get_action sh (si_sig info) a) by (lia || done).
    destruct (setup_handler _ _ _ _ info sh a t) as [[sp fr] r]. rewrite bind_if_assert by by apply valid_sig_spec. mrun.
    match goal with |- context [put_frame u ?a ?f] => destruct (put_total u a f) as [u' ->] end.
    destruct (ctrue (Z.land (sa_flags a) SA_RESETHAND_)); mrun; unfold ret.
    + eexists u', _, _, _. split; [done|]. split_and!.
      * split; kcbn; rewrite ?lookup_insert_eq; try done; cbn; rewrite ?length_insert; by eauto.
      * done.
      * done.
      * done.
      * intros s Hs0 Hne. rewrite disposition_reset by lia. done.
      * done.
    + eexists u', _, _, sh. split; [done|]. split; [split; kcbn; rewrite ?lookup_insert_eq; try done; cbn; by eauto|done].
  - mrun. eexists u, _, t, sh. split; [done|]. split_and!; [|done..].
    split; kcbn; rewrite ?lookup_insert_eq; try done; cbn; by eauto.
Qed.

Lemma filter_ext_in {A} (P Q : A -> Prop) `{!forall x, Decision (P x), !forall x, Decision (Q x)} (l : list A) :
  (forall x, x ∈ l -> P x <-> Q x) -> filter P l = filter Q l.
Proof.
  induction l as [|x l IH]; [done|]. intros Hl. assert (Hx : P x <-> Q x) by (apply Hl, elem_of_cons; by left).
  assert (E : filter P l = filter Q l) by (apply IH; intros; apply Hl, elem_of_cons; by right).
  destruct (decide (P x)); [rewrite !filter_cons_True by tauto|rewrite !filter_cons_False by tauto]; by rewrite E.
Qed.
Lemma NoDup_map_filter {A B} (f : A -> B) (P : A -> Prop) `{!forall x, Decision (P x)} (l : list A) :
  NoDup (map f l) -> NoDup (map f (filter P l)).
Proof.
  induction l as [|x l IH]; [done|]. cbn [map]. intros [Hx Hl]%NoDup_cons. destruct (decide (P x)).
  - rewrite filter_cons_True by done. cbn [map]. apply NoDup_cons. split; [|auto].
    intros (y & Ey & [_ Hy]%list_elem_of_filter)%list_elem_of_fmap. apply Hx. rewrite Ey. by apply list_elem_of_fmap_2.
  - rewrite filter_cons_False by done. auto.
Qed.

Lemma deliver_seq_total l u k t i sh : ready k t i sh ->
  Forall (fun x => 1 <= si_sig x < 64 /\ disposition sh (si_sig x) <> SIGNAL_KILL) l -> NoDup (map si_sig l) ->
  exists u' k' t' sh', deliver_seq l u k = Ret u' k' /\ ready k' t' i sh' /\ current k' = current k /\
    queue t' = filter (fun x => si_sig x ∉ map si_sig l) (queue t) /\ group t' = group t /\
    (Forall (fun x => disposition sh (si_sig x) <> SIGNAL_STOP) l -> groups k' = groups k).
Proof.
  revert u k t sh. induction l as [|x l IH]; intros u k t sh Hr Hl Hnd.
  { exists u, k, t, sh. split_and!; [done..| |done|done]. symmetry. apply filter_all. intros y _. apply not_elem_of_nil. }
  apply Forall_cons in Hl as [[Hx Hk] Hl]. cbn in Hnd. apply NoDup_cons in Hnd as [Hx' Hnd].
  cbn [deliver_seq]. rewrite bind_gets, (bind_upd_task _ _ _ _ _ (rd_task _ _ _ _ Hr)).
  assert (Hr1 : ready (set_tasks (<[current k := dequeue x t]> (tasks k)) k) (dequeue x t) i sh).
  { destruct Hr as [Et Es Ea Hl' Hg]. split; kcbn; rewrite ?lookup_insert_eq; done. }
  destruct (receive_total x u _ _ _ _ Hr1 Hx Hk) as (u1 & k1 & t1 & sh1 & E1 & Hr2 & Hc1 & Hq1 & Hg1 & Hd1 & Hgr1).
  rewrite (bind_Ret _ _ _ _ _ E1).
  destruct (IH u1 k1 t1 sh1 Hr2) as (u2 & k2 & t2 & sh2 & E2 & Hr3 & Hc2 & Hq2 & Hg2 & Hgr2); [|done|].
  { apply Forall_elem. intros y Hy. pose proof (proj1 (Forall_elem _ _) Hl y Hy) as [Hy1 Hy2]. split; [done|].
    rewrite Hd1; [done|lia|]. intros Heq. apply Hx'. rewrite <- Heq. by apply list_elem_of_fmap_2. }
  exists u2, k2, t2, sh2. split_and!; [done|done|by rewrite Hc2, Hc1| | |].
  - rewrite Hq2, Hq1. cbn [dequeue queue set_pending set_queue]. rewrite list_filter_filter. apply list_filter_iff.
    intros y. cbn. rewrite not_elem_of_cons. tauto.
  - by rewrite Hg2, Hg1.
  - intros [Hs Hss]%Forall_cons. rewrite Hgr2, Hgr1; [done|done|].
    apply Forall_elem. intros y Hy. pose proof (proj1 (Forall_elem _ _) Hss y Hy). pose proof (proj1 (Forall_elem _ _) Hl y Hy) as [? _].
    rewrite Hd1; [done|lia|]. intros Heq. apply Hx'. rewrite <- Heq. by apply list_elem_of_fmap_2.
Qed.

(** Delivery returns: when no signal to be delivered kills the task, frames can be stored and no signal newly stops the group,
    [receive_signals] comes back, and then exactly the blocked signals are left in the queue, in their order. *)
Theorem receive_signals_total fuel u k t i sh g :
  ready k t i sh -> groups k !! group t = Some g -> sigs_ok t -> traced t = false -> (length (queue t) <= fuel)%nat ->
  (forall x, x ∈ queue t -> unblocked (blocked_now t) x -> disposition sh (si_sig x) <> SIGNAL_KILL) ->
  (forall x, x ∈ queue t -> unblocked (blocked_now t) x -> disposition sh (si_sig x) <> SIGNAL_STOP) -> stopped g = false ->
  exists u' k' t', receive_signals sigreturn_addr rt_sigreturn_addr xsave_extra fxsave_extra do_exit_group ptrace_wait fuel u k = Ret u' k' /\
    tasks k' !! current k = Some t' /\
    queue t' = filter (fun x => ~ unblocked (blocked_now t) x) (queue t).
Proof.
  intros Hr Eg Hok Htr Hf Hk Hs Hst. pose proof Hr as [Et Es Ea Hl Hg].
  rewrite (receive_signals_run _ _ _ t g sh) by (done || by rewrite Es; unfold get_sighand, bind, deref, gets, ret, id; rewrite Ea).
  set (l := filter (unblocked (blocked_now t)) (queue t)). assert (Hl' : forall x, x ∈ l <-> unblocked (blocked_now t) x /\ x ∈ queue t)
    by (intros; apply list_elem_of_filter).
  assert (Hv : forall x, x ∈ queue t -> 1 <= si_sig x < 64).
  { intros x Hx. apply (proj1 (Forall_elem _ _) (so_valid t Hok)). by apply list_elem_of_fmap_2. }
  mrun. set (t1 := restore_mask t). assert (Eq : queue t1 = queue t) by (unfold t1, restore_mask; by destruct (has_saved_mask t)).
  assert (Hr1 : ready (set_tasks (<[current k := t1]> (tasks k)) k) t1 i sh).
  { split; kcbn; rewrite ?lookup_insert_eq; unfold t1, restore_mask; try done; by destruct (has_saved_mask t). }
  assert (Hg1 : group t1 = group t) by (unfold t1, restore_mask; by destruct (has_saved_mask t)). clearbody t1.
  destruct (deliver_seq_total l u _ _ _ _ Hr1) as (u' & k' & t' & sh' & E & Hr' & Hc & Hq & Hg' & Hgr).
  { apply Forall_elem. intros x [Hx1 Hx2]%Hl'. auto. }
  { apply NoDup_map_filter, (so_nodup t Hok). }
  rewrite (bind_Ret _ _ _ _ _ E). unfold report_stop. rewrite Hst, bind_assoc.
  rewrite (bind_get_group _ g); [|rewrite Hgr; [done|]; apply Forall_elem; intros x [Hx1 Hx2]%Hl'; auto].
  rewrite Hst. exists u', k', t'. split; [done|]. rewrite Hq, Eq. split; [change (current k' = current k) in Hc; rewrite <- Hc; apply Hr'|].
  apply filter_ext_in. intros x Hx. split.
  - intros Hn Hu. apply Hn. apply list_elem_of_fmap_2, Hl'. done.
  - intros Hn (y & Ey & [Hy _]%Hl')%list_elem_of_fmap. apply Hn. unfold unblocked in *. by rewrite Ey.
Qed.
End Delivery.

(** ** Masks *)

(** The running task does not block SIGKILL or SIGSTOP. *)
Definition kill_open (k : kernel) : Prop :=
  forall t, tasks k !! current k = Some t -> has_bit (blocked t) SIGKILL_ = false /\ has_bit (blocked t) SIGSTOP_ = false.

Lemma masked_open set : has_bit (Z.land set (u64 (Z.lnot UNBLOCKABLE_MASK))) SIGKILL_ = false /\
  has_bit (Z.land set (u64 (Z.lnot UNBLOCKABLE_MASK))) SIGSTOP_ = false.
Proof. split; rewrite has_minus_mask by done; apply andb_false_r. Qed.

Lemma open_sigmask_set set : preserves kill_open (sigmask_set set).
Proof.
  unfold sigmask_set. intros k a k' _. rewrite bind_gets. unfold upd_task, get_task, bind, gets, id. destruct (tasks k !! current k); [|discriminate].
  cbn. intros [= _ <-] t'. kcbn. rewrite lookup_insert_eq. intros [= <-]. apply masked_open.
Qed.
Lemma open_upd p f : (forall t, blocked (f t) = blocked t) -> preserves kill_open (upd_task p f).
Proof.
  intros Hf. apply preserves_upd_task. intros k t HP E t'. kcbn. rewrite lookup_insert_Some.
  intros [[-> <-]|[_ E']]; [rewrite Hf|]; by apply HP.
Qed.
#[local] Hint Extern 4 (preserves kill_open (upd_task _ _)) => apply open_upd; reflexivity : kpres.
#[local] Hint Extern 4 (preserves kill_open (modify _)) => apply preserves_modify; intros ? Hinv; exact Hinv : kpres.
Lemma open_upd_group g f : preserves kill_open (upd_group g f).
Proof. by apply preserves_upd_group. Qed.
Lemma open_upd_sighand g f : preserves kill_open (upd_sighand g f).
Proof. by apply preserves_upd_sighand. Qed.
#[local] Hint Resolve open_sigmask_set open_upd_group open_upd_sighand : kpres.
Lemma open_deliver p sig info : preserves kill_open (deliver_signal p sig info).
Proof. unfold deliver_signal, deliver_signal_unlocked. kpres. Qed.
#[local] Hint Resolve open_deliver : kpres.

(** SIGKILL and SIGSTOP cannot be blocked by any system call: sigprocmask in each of its forms, sigsuspend, and both ways of
    returning from a handler, whatever mask the frame on the guest's stack holds, leave them unblocked. *)
Theorem unblockable_stay_open `{FrameMem U} :
  (forall how set, preserves kill_open (do_sigprocmask how set)) /\
  (forall how set old ok size, preserves kill_open (sys_rt_sigprocmask how set old ok size)) /\
  (forall mask size fuel w, preserves kill_open (sys_rt_sigsuspend mask size fuel w)) /\
  (forall u, preserves kill_open (sys_sigreturn u)) /\ (forall u, preserves kill_open (sys_rt_sigreturn u)) /\
  (forall k t set a k', tasks k !! current k = Some t -> do_sigprocmask SIG_SETMASK_ set k = Ret a k' -> kill_open k').
Proof.
  assert (forall how set, preserves kill_open (do_sigprocmask how set)) by (intros; unfold do_sigprocmask; kpres).
  split_and!; [done|intros..|intros k t set a k' Et].
  - unfold sys_rt_sigprocmask. kpres.
  - unfold sys_rt_sigsuspend, sigmask_set_temp_unlocked. kpres.
  - unfold sys_sigreturn. kpres.
  - unfold sys_rt_sigreturn. kpres.
  - unfold do_sigprocmask, sigmask_set. mrun. change (SIG_SETMASK_ =? SIG_BLOCK_) with false. change (SIG_SETMASK_ =? SIG_UNBLOCK_) with false.
    change (SIG_SETMASK_ =? SIG_SETMASK_) with true. cbn match. mrun.
    unfold ret. intros Heq t'. injection Heq as _ <-. kcbn. rewrite lookup_insert_eq. intros [= <-]. apply masked_open.
Qed.

(** The signals each form of the call asks to block. *)
Definition wanted (how : Z) (old set : bool) : bool :=
  if how =? SIG_BLOCK_ then old || set else if how =? SIG_UNBLOCK_ then old && negb set else set.

(** sigprocmask blocks, signal by signal, what its form asks for, except SIGKILL and SIGSTOP, changes nothing but the mask, and
    refuses an unknown form without changing anything. *)
Theorem sigprocmask_spec k t how set : tasks k !! current k = Some t ->
  (0 <= how <= 2 -> exists b,
     do_sigprocmask how set k = Ret 0 (set_tasks (<[current k := set_blocked b t]> (tasks k)) k) /\
     forall s, 1 <= s < 64 -> has_bit b s = signal_is_blockable s && wanted how (has_bit (blocked t) s) (has_bit set s)) /\
  (how < 0 \/ how > 2 -> do_sigprocmask how set k = Ret _EINVAL k).
Proof.
  intros Et.
  assert (Hm : forall m s, 1 <= s < 64 -> has_bit (Z.land m (u64 (Z.lnot UNBLOCKABLE_MASK))) s = signal_is_blockable s && has_bit m s).
  { intros m s Hs. rewrite has_minus_mask by done. rewrite andb_comm. f_equal. unfold UNBLOCKABLE_MASK, signal_is_blockable.
    rewrite has_lor, negb_orb, !has_bit_testbit, !sig_bit_testbit by (done || lia). unfold SIGKILL_, SIGSTOP_.
    f_equal; f_equal; destruct (Z.eqb_spec (s - 1) (9 - 1)), (Z.eqb_spec s 9), (Z.eqb_spec (s - 1) (19 - 1)), (Z.eqb_spec s 19); lia. }
  split; intros Hh; unfold do_sigprocmask, sigmask_set, wanted, SIG_BLOCK_, SIG_UNBLOCK_, SIG_SETMASK_; mrun.
  - destruct (Z.eqb_spec how 0); [|destruct (Z.eqb_spec how 1); [|destruct (Z.eqb_spec how 2); [|lia]]]; mrun;
      eexists; (split; [reflexivity|]); intros s Hs; rewrite Hm by done; [|f_equal..].
    + by rewrite has_lor.
    + by rewrite has_minus_mask.
  - destruct (Z.eqb_spec how 0), (Z.eqb_spec how 1), (Z.eqb_spec how 2); try lia. done.
Qed.

(** ** Where frames go *)

Lemma land_align n x : 0 <= n <= 32 -> in_u 32 x -> Z.land x (u32 (Z.lnot (Z.ones n))) = x - x mod 2 ^ n.
Proof.
  intros Hn Hx. replace (x - x mod 2 ^ n) with (Z.shiftl (Z.shiftr x n) n).
  2:{ rewrite Z.shiftl_mul_pow2, Z.shiftr_div_pow2 by lia. pose proof (Z.div_mod x (2 ^ n) ltac:(lia)). lia. }
  apply Z.bits_inj'. intros i Hi. apply Cpu.in_u_testbit in Hx as [_ Hx]; [|lia].
  rewrite Z.land_spec, Cpu.wrap_testbit, Z.lnot_spec, Z.testbit_ones, Z.shiftl_spec by lia.
  destruct (Z.leb_spec 0 i); [|lia]. destruct (Z.ltb_spec i n); cbn [andb negb].
  - rewrite (Z.testbit_neg_r _ (i - n)) by lia. by rewrite !andb_false_r.
  - rewrite Z.shiftr_spec by lia. replace (i - n + n) with i by lia. destruct (Z.ltb_spec i 32); [by rewrite andb_true_r|].
    rewrite Hx by lia. done.
Qed.

Lemma align16 x : in_u 32 x -> Z.land x (u32 (Z.lnot 0xf)) = x - x mod 16.
Proof. apply (land_align 4). lia. Qed.

Lemma wrap_mod16 x : wrap 32 x mod 16 = x mod 16.
Proof. unfold wrap. apply Z.mod_mod_divide. by exists (2 ^ 28). Qed.

(** Where the stack the frame goes on begins. *)
Definition frame_top (sp : Z) (sh : sighand) : Z :=
  if ctrue (altstack sh) && negb (is_on_altstack sp sh) then u32 (altstack sh + altstack_size sh) else sp.

(** The most that extended state takes. *)
Definition extended_room (xsave_extra fxsave_extra : Z) : Z := if ctrue xsave_extra then xsave_extra + 63 + fxsave_extra else 0.

Lemma frame_sp_bounds xs fx sp sh size : 4 <= size -> 0 <= xs -> 0 <= fx -> extended_room xs fx + size + 15 <= frame_top sp sh < 2 ^ 32 ->
  frame_top sp sh - extended_room xs fx - size - 15 <= frame_sp xs fx sp sh size <= frame_top sp sh - size.
Proof.
  intros Hsize Hxs Hfx Htop. unfold frame_sp. fold (frame_top sp sh). cbn zeta. set (top := frame_top sp sh) in *. unfold extended_room in *.
  set (sp' := if ctrue xs then _ else top). assert (top - (if ctrue xs then xs + 63 + fx else 0) <= sp' <= top) as Hsp'.
  { unfold sp'. destruct (ctrue xs); [|lia]. rewrite (wrap_small 32 (top - xs)), (land_align 6) by (unfold in_u; lia). change (2 ^ 6) with 64.
    pose proof (Z.mod_pos_bound (top - xs) 64 ltac:(lia)). rewrite wrap_small by (unfold in_u; lia). lia. }
  clearbody sp'. rewrite (wrap_small 32 (sp' - size)) by (unfold in_u; lia).
  rewrite (wrap_small 32 (sp' - size + 4)), align16 by (unfold in_u; lia).
  pose proof (Z.mod_pos_bound (sp' - size + 4) 16 ltac:(lia)). rewrite wrap_small by (unfold in_u; lia). lia.
Qed.

Lemma frame_sp_aligned xs fx sp sh size : (frame_sp xs fx sp sh size + 4) mod 16 = 0.
Proof.
  unfold frame_sp. cbn zeta. set (sp' := u32 (_ - size)). rewrite align16 by (apply wrap_range; lia).
  set (x := u32 (sp' + 4)). rewrite Zplus_mod, wrap_mod16, <- Zplus_mod.
  replace (x - x mod 16 - 4 + 4) with (x / 16 * 16) by (pose proof (Z.div_mod x 16 ltac:(lia)); lia). apply Z_mod_mult.
Qed.

(** A signal frame is placed where the ABI wants it: four bytes below a 16-byte boundary, always, and, without room for extended
    state, directly below the interrupted stack pointer, or at the top of the alternate stack when one is set and not in use; no
    byte of it then lies outside an alternate stack of the size sigaltstack accepts. *)
Theorem frame_placement sp sh fr : in_u 32 sp ->
  (forall xs fx, (frame_sp xs fx sp sh (frame_size fr) + 4) mod 16 = 0) /\
  ((altstack sh = 0 \/ is_on_altstack sp sh = true) -> frame_size fr + 15 <= sp ->
     forall fx, let a := frame_sp 0 fx sp sh (frame_size fr) in 0 <= a /\ a + frame_size fr <= sp < a + frame_size fr + 16) /\
  (altstack sh <> 0 -> is_on_altstack sp sh = false -> 0 <= altstack sh -> MINSIGSTKSZ_ <= altstack_size sh ->
     altstack sh + altstack_size sh < 2 ^ 32 ->
     forall fx, let a := frame_sp 0 fx sp sh (frame_size fr) in
       altstack sh <= a /\ a + frame_size fr <= altstack sh + altstack_size sh < a + frame_size fr + 16).
Proof.
  intros Hsp. assert (Hsz : 4 <= frame_size fr <= 732) by (destruct fr; unfold frame_size, sizeof_sigframe, sizeof_rt_sigframe; lia).
  split; [intros; apply frame_sp_aligned|]. unfold in_u in Hsp. split.
  - intros Halt Hroom fx. assert (E : frame_top sp sh = sp).
    { unfold frame_top, ctrue. destruct Halt as [-> | ->]; [done|]. by rewrite andb_false_r. }
    pose proof (frame_sp_bounds 0 (Z.max 0 fx) sp sh (frame_size fr)) as B. change (extended_room 0 _) with 0 in B. rewrite E in *. change (frame_sp 0 fx) with (frame_sp 0 (Z.max 0 fx)). cbn zeta. lia.
  - intros H0 Hon Halt Hmin Hend fx. unfold MINSIGSTKSZ_ in *.
    assert (E : frame_top sp sh = altstack sh + altstack_size sh).
    { unfold frame_top, ctrue. rewrite Hon. destruct (Z.eqb_spec (altstack sh) 0); [done|]. cbn. apply wrap_small. unfold in_u. lia. }
    pose proof (frame_sp_bounds 0 (Z.max 0 fx) sp sh (frame_size fr)) as B. change (extended_room 0 _) with 0 in B. rewrite E in *. change (frame_sp 0 fx) with (frame_sp 0 (Z.max 0 fx)). cbn zeta. lia.
Qed.

(** ** Into a handler and back *)

Section Handler.
Context (sigreturn_addr rt_sigreturn_addr xsave_extra fxsave_extra : Z).
Context {U : Type} `{FrameMem U} `{!FrameMemOK U} (do_exit_group : Z -> M unit).

Abbreviation receive := (receive_signal sigreturn_addr rt_sigreturn_addr xsave_extra fxsave_extra do_exit_group).
Abbreviation setup := (setup_handler sigreturn_addr rt_sigreturn_addr xsave_extra fxsave_extra).

Definition wants_info (act : sigaction_) : bool := ctrue (Z.land (sa_flags act) SA_SIGINFO_).

(** The context a frame saves. *)
Definition frame_context (f : frame) : sigcontext_ := match f with plain_frame f => fr_sc f | rt_frame f => rt_mcontext f end.
Definition frame_mask (f : frame) : Z :=
  match f with plain_frame f => Z.lor (Z.shiftl (fr_extramask f) 32) (sc_oldmask (fr_sc f)) | rt_frame f => rt_sigmask f end.

Lemma setup_sigcontext_mask blk r : sc_oldmask (fst (setup_sigcontext blk r)) = Z.land blk 0xffffffff.
Proof. reflexivity. Qed.

(** What the handler finds: its signal and the address it returns to, in the frame; with [SA_SIGINFO], the information and the context, and pointers to them in the frame and in registers. *)
Definition frame_for (info : siginfo_) (act : sigaction_) (sp : Z) (fr : frame) (r : regs) : Prop :=
  match fr with
  | plain_frame f => wants_info act = false /\ fr_restorer f = sigreturn_addr /\ fr_sig f = si_sig info
  | rt_frame f => wants_info act = true /\ rt_restorer f = rt_sigreturn_addr /\ rt_sig f = si_sig info /\ rt_info f = info /\
      rt_pinfo f = u32 (sp + 16) /\ edx r = u32 (sp + 16) /\ rt_puc f = u32 (sp + 144) /\ ecx r = u32 (sp + 144)
  end.
Definition handler_frame_size (act : sigaction_) : Z := if wants_info act then sizeof_rt_sigframe else sizeof_sigframe.

Lemma setup_handler_spec info sh act t : in_u 64 (blocked t) ->
  let '(sp, fr, r) := setup info sh act t in
  sp = frame_sp xsave_extra fxsave_extra (esp (cpu t)) sh (handler_frame_size act) /\ frame_for info act sp fr r /\
  in_u 32 sp /\ esp r = sp /\ eip r = handler act /\ eax r = si_sig info /\
  frame_context fr = fst (setup_sigcontext (blocked t) (cpu t)) /\ frame_mask fr = blocked t /\
  match fr with rt_frame _ => wants_info act = true | plain_frame _ => wants_info act = false end.
Proof.
  intros Hb. unfold setup_handler. fold (wants_info act). assert (Hm : Z.lor (Z.shiftl (Z.shiftr (blocked t) 32) 32) (Z.land (blocked t) 0xffffffff) = blocked t).
  { apply Z.bits_inj'. intros i Hi. rewrite Z.lor_spec, Z.land_spec. change 0xffffffff with (Z.ones 32). rewrite Z.testbit_ones, Z.shiftl_spec by lia.
    destruct (Z.leb_spec 0 i); [|lia]. destruct (Z.ltb_spec i 32).
    - rewrite (Z.testbit_neg_r _ (i - 32)) by lia. by rewrite andb_true_r.
    - rewrite Z.shiftr_spec by lia. replace (i - 32 + 32) with i by lia. by rewrite andb_false_r, orb_false_r. }
  assert (forall x y, in_u 32 (frame_sp xsave_extra fxsave_extra x sh y)) by (intros; apply wrap_range; lia).
  unfold setup_rt_sigframe, setup_sigframe. pose proof (setup_sigcontext_mask (blocked t) (cpu t)) as Hold.
  assert (esp (snd (setup_sigcontext (blocked t) (cpu t))) = esp (cpu t)) as Hesp by done.
  destruct (setup_sigcontext (blocked t) (cpu t)) as [sc r0]. cbn [fst snd] in Hold, Hesp |- *.
  unfold frame_for, handler_frame_size. destruct (wants_info act) eqn:Ew; cbn match; cbn [frame_context frame_mask]; split_and!; try done; try (cbn; by rewrite Hesp).
  cbn [fr_extramask sc_oldmask fr_sc]. by rewrite Hold.
Qed.

Lemma receive_handler_run info u k t i sh a : ready k t i sh -> 1 <= si_sig info < 64 ->
  disposition sh (si_sig info) = SIGNAL_CALL_HANDLER -> action sh !! Z.to_nat (si_sig info) = Some a ->
  let '(sp, fr, r) := setup info sh a t in
  forall u', put_frame u sp fr = Some u' -> exists k',
    receive info u k = Ret u' k' /\ current k' = current k /\
    tasks k' = <[current k := set_blocked (handler_mask (si_sig info) a (blocked t)) (set_cpu r t)]> (tasks k).
Proof.
  intros [Et Es Ea Hl _] Hs D Eact. destruct (setup info sh a t) as [[sp fr] r] eqn:E. intros u' Hu.
  unfold receive_signal. mrun. rewrite signal_action_run by (done || lia). rewrite D. cbn match.
  rewrite (bind_get_action sh (si_sig info) a) by (lia || done). rewrite E, bind_if_assert by by apply valid_sig_spec.
  mrun. rewrite Hu. destruct (ctrue _); mrun; unfold ret; eexists; (split; [reflexivity|done]).
Qed.

(** The flags the code means to restore, and those the program would observe. *)
Definition same_registers (r r' : regs) : Prop :=
  eax r = eax r' /\ ebx r = ebx r' /\ ecx r = ecx r' /\ edx r = edx r' /\ esi r = esi r' /\ edi r = edi r' /\
  ebp r = ebp r' /\ esp r = esp r' /\ eip r = eip r'.

Lemma restore_setup blk r r2 :
  let r3 := restore_sigcontext (fst (setup_sigcontext blk r)) r2 in
  same_registers r3 r /\
  (forall i, 0 <= i < 32 -> Z.testbit USE_FLAGS i = true -> Z.testbit (Cpu.eflags (fl r3)) i = Z.testbit (Cpu.eflags (Cpu.collapse_flags (fl r))) i) /\
  Cpu.CF (fl r3) = Cpu.CF (fl r2) /\ Cpu.OF (fl r3) = Cpu.OF (fl r2).
Proof.
  cbn zeta. split; [by repeat split|]. split; [|done]. intros i Hi Hu.
  unfold restore_sigcontext, setup_sigcontext. cbn [fst fl sc_flags Cpu.eflags Cpu.set_eflags set_fl].
  rewrite Z.lor_spec, !Z.land_spec, Cpu.wrap_testbit, Z.lnot_spec, Hu by lia.
  cbn [negb]. by rewrite andb_true_r, !andb_false_r, orb_false_r.
Qed.

Lemma sigmask_set_run k t m : tasks k !! current k = Some t ->
  sigmask_set m k = Ret tt (set_tasks (<[current k := set_blocked (Z.land m (u64 (Z.lnot UNBLOCKABLE_MASK))) t]> (tasks k)) k).
Proof. intros E. unfold sigmask_set. by mrun. Qed.

Definition sigreturn (a : sigaction_) : U -> M Z := if wants_info a then sys_rt_sigreturn else sys_sigreturn.
(** How far the trampoline has moved the stack pointer when it makes the system call. *)
Definition frame_shift (a : sigaction_) : Z := if wants_info a then offset_rt_sig else offset_sc.

Lemma sigreturn_run k2 t2 sh2 u2 sp fr a : tasks k2 !! current k2 = Some t2 -> get_sighand (sighand_of t2) k2 = Ret sh2 k2 ->
  in_u 32 sp -> get_frame u2 sp = Some fr -> esp (cpu t2) = u32 (sp + frame_shift a) ->
  match fr with rt_frame _ => wants_info a = true | plain_frame _ => wants_info a = false end ->
  exists k3 t3, sigreturn a u2 k2 = Ret (sc_ax (frame_context fr)) k3 /\ tasks k3 !! current k2 = Some t3 /\
    cpu t3 = restore_sigcontext (frame_context fr) (cpu t2) /\
    blocked t3 = Z.land (frame_mask fr) (u64 (Z.lnot UNBLOCKABLE_MASK)).
Proof.
  intros Et Esh Hsp Hfr Hesp Hw.
  assert (Hback : forall d, u32 (u32 (sp + d) - d) = sp).
  { intros d. unfold wrap. rewrite Zminus_mod_idemp_l. replace (sp + d - d) with sp by lia. by apply wrap_small. }
  assert (Hsh : forall t', get_sighand (sighand_of t2) (set_tasks (<[current k2 := t']> (tasks k2)) k2) =
                     Ret sh2 (set_tasks (<[current k2 := t']> (tasks k2)) k2)).
  { intros t'. revert Esh. unfold get_sighand, bind, deref, gets, ret, id, panic. destruct (sighand_of t2) as [j|]; [|done]. kcbn.
    destruct (sighands k2 !! j); [|done]. by intros [= ->]. }
  unfold sigreturn, frame_shift in *. destruct fr as [f|f]; rewrite Hw in *.
  - unfold sys_sigreturn. mrun. rewrite Hesp, Hback, Hfr. mrun. rewrite (bind_Ret _ _ _ _ _ (Hsh _)).
    erewrite bind_Ret; [|apply sigmask_set_run; kcbn; apply lookup_insert_eq]. kcbn.
    eexists _, _. split; [reflexivity|]. kcbn. rewrite lookup_insert_eq. split; [done|]. done.
  - unfold sys_rt_sigreturn. mrun. rewrite Hesp, Hback, Hfr. mrun. rewrite (bind_Ret _ _ _ _ _ (Hsh _)).
    pose proof Esh as Esh'. revert Esh'. unfold get_sighand, bind at 1, deref. destruct (sighand_of t2) as [j|]; [|done].
    destruct (sighands k2 !! j) as [shj|] eqn:Ej; [|unfold bind, ret, gets, id; by rewrite Ej]. intros _.
    destruct (negb _ && _); [erewrite bind_upd_sighand by (reflexivity || exact Ej)|rewrite bind_ret_l];
      (erewrite bind_Ret; [|apply sigmask_set_run; kcbn; apply lookup_insert_eq]); kcbn;
      (eexists _, _; split; [reflexivity|]; kcbn; rewrite lookup_insert_eq; split; [done|]; done).
Qed.

(** C17: A handler runs and returns to where the program was.  The frame is stored where the ABI wants it: four bytes below a 16-byte boundary and, where there is room, all of it below the interrupted
    stack pointer, or below the end of the alternate stack when one is set and not in use.  The handler starts at its address with the signal number, on the new stack, with its mask added; with
    [SA_SIGINFO] also with pointers to the information and the context in the frame.  And whatever the handler then does, as long as the frame is intact and it
    returns through the trampoline, sigreturn restores every general register, the instruction and stack pointers, the flags
    in the word [eflags] the kernel may restore, and the mask, less SIGKILL and SIGSTOP.  The carry and overflow flags, which the processor keeps outside of that word, stay as the handler left them. *)
Theorem handler_round_trip info u k t i sh a : ready k t i sh -> 1 <= si_sig info < 64 -> in_u 64 (blocked t) ->
  disposition sh (si_sig info) = SIGNAL_CALL_HANDLER -> action sh !! Z.to_nat (si_sig info) = Some a ->
  let top := frame_top (esp (cpu t)) sh in
  exists sp fr, (sp + 4) mod 16 = 0 /\
    (0 <= xsave_extra -> 0 <= fxsave_extra -> extended_room xsave_extra fxsave_extra + frame_size fr + 15 <= top < 2 ^ 32 ->
       top - extended_room xsave_extra fxsave_extra - 15 <= sp + frame_size fr <= top) /\
  (is_Some (put_frame u sp fr) -> exists u' k1 t1,
    receive info u k = Ret u' k1 /\ tasks k1 !! current k1 = Some t1 /\ get_frame u' sp = Some fr /\ frame_for info a sp fr (cpu t1) /\
    eip (cpu t1) = handler a /\ eax (cpu t1) = si_sig info /\ esp (cpu t1) = sp /\
    (forall s, 1 <= s < 64 -> has_bit (blocked t1) s =
       (negb (ctrue (Z.land (sa_flags a) SA_NODEFER_)) && (si_sig info =? s)) || has_bit (blocked t) s || has_bit (sa_mask a) s)) /\
  forall k2 t2 sh2 u2, tasks k2 !! current k2 = Some t2 -> get_sighand (sighand_of t2) k2 = Ret sh2 k2 ->
    get_frame u2 sp = Some fr -> esp (cpu t2) = u32 (sp + frame_shift a) ->
    exists k3 t3, sigreturn a u2 k2 = Ret (eax (cpu t)) k3 /\ tasks k3 !! current k2 = Some t3 /\
      same_registers (cpu t3) (cpu t) /\
      (forall i, 0 <= i < 32 -> Z.testbit USE_FLAGS i = true ->
         Z.testbit (Cpu.eflags (fl (cpu t3))) i = Z.testbit (Cpu.eflags (Cpu.collapse_flags (fl (cpu t)))) i) /\
      Cpu.CF (fl (cpu t3)) = Cpu.CF (fl (cpu t2)) /\ Cpu.OF (fl (cpu t3)) = Cpu.OF (fl (cpu t2)) /\
      blocked t3 = Z.land (blocked t) (u64 (Z.lnot UNBLOCKABLE_MASK)).
Proof.
  intros Hr Hs Hb D Ea top. pose proof (setup_handler_spec info sh a t Hb) as HS.
  pose proof (receive_handler_run info u k t i sh a Hr Hs D Ea) as HR.
  destruct (setup info sh a t) as [[sp fr] r]. destruct HS as (Esp & Hfor & Hsp & Hesp & Heip & Heax & Hctx & Hmask & Hw).
  assert (frame_size fr = handler_frame_size a) as Hsz by (unfold handler_frame_size; destruct fr; by rewrite Hw).
  exists sp, fr. rewrite Hsz. split; [|split; [|split]].
  - rewrite Esp. apply frame_sp_aligned.
  - intros Hxs Hfx Htop. pose proof (frame_sp_bounds xsave_extra fxsave_extra (esp (cpu t)) sh (handler_frame_size a)) as B. fold top in B. rewrite <- Esp in B.
    assert (4 <= handler_frame_size a) by (unfold handler_frame_size; by destruct (wants_info a)). lia.
  - intros [u' Hu]. destruct (HR u' Hu) as (k1 & E & Hc & Ht). exists u', k1. eexists. rewrite Hc, Ht, lookup_insert_eq.
    split; [done|]. split; [done|]. split; [by apply (get_put_frame u)|]. cbn [cpu set_blocked set_cpu blocked].
    split_and!; [done..|]. intros s Hs'. unfold handler_mask. rewrite has_lor by done.
    destruct (ctrue _); cbn [negb andb orb]; [done|]. by rewrite has_add_bit.
  - intros k2 t2 sh2 u2 Et2 Esh2 Hf2 Hsp2.
    destruct (sigreturn_run k2 t2 sh2 u2 sp fr a Et2 Esh2 Hsp Hf2 Hsp2 Hw) as (k3 & t3 & E3 & Et3 & Hcpu & Hbl).
    destruct (restore_setup (blocked t) (cpu t) (cpu t2)) as (H1 & H2 & H3 & H4). rewrite <- Hctx, <- Hcpu in H1, H2, H3, H4.
    exists k3, t3. split_and!; [|done|done|done|done|done|by rewrite Hbl, Hmask].
    rewrite E3. f_equal. rewrite Hctx. reflexivity.
Qed.

(** The carry and overflow flags are not restored: the code stores the saved flags word but does not expand it, so the
    interrupted program goes on with the carry and overflow of the handler. *)
Theorem sigreturn_leaks_carry k2 t2 sh2 u2 sp fr a : tasks k2 !! current k2 = Some t2 -> get_sighand (sighand_of t2) k2 = Ret sh2 k2 ->
  in_u 32 sp -> get_frame u2 sp = Some fr -> esp (cpu t2) = u32 (sp + frame_shift a) ->
  match fr with rt_frame _ => wants_info a = true | plain_frame _ => wants_info a = false end ->
  exists v k3 t3, sigreturn a u2 k2 = Ret v k3 /\ tasks k3 !! current k2 = Some t3 /\
    Cpu.CF (fl (cpu t3)) = Cpu.CF (fl (cpu t2)) /\ Cpu.OF (fl (cpu t3)) = Cpu.OF (fl (cpu t2)).
Proof.
  intros. edestruct (sigreturn_run k2 t2 sh2 u2 sp fr a) as (k3 & t3 & E & Et & Hc & _); [done..|].
  exists (sc_ax (frame_context fr)), k3, t3. rewrite Hc. done.
Qed.
End Handler.

(** ** Setting actions *)

(** sigaction installs the action of a signal that may be handled, hands back the old one, touches nothing else, and a later query
    reads the new one; for SIGKILL, SIGSTOP and numbers from 64 on it changes nothing and returns EINVAL. *)
Theorem sigaction_spec k t i sh sig : ready k t i sh ->
  (sig >= 64 \/ signal_is_blockable sig = false -> forall act want, do_sigaction sig act want k = Ret (_EINVAL, None) k) /\
  (0 <= sig < 64 -> signal_is_blockable sig = true -> exists old, action sh !! Z.to_nat sig = Some old /\
     forall a want, let k' := set_sighands (<[i := set_action (<[Z.to_nat sig := a]> (action sh)) sh]> (sighands k)) k in
       do_sigaction sig (Some a) want k = Ret (0, if want then Some old else None) k' /\
       do_sigaction sig None true k' = Ret (0, Some a) k').
Proof.
  intros [Et Es Ea Hl _]. unfold do_sigaction, NUM_SIGS. split.
  - intros Hbad act want. destruct (Z.geb_spec sig 64); [done|]. destruct Hbad as [|E]; [lia|]. by rewrite E.
  - intros Hs Hb. destruct (action_lookup sh sig Hl Hs) as [old Eo]. exists old. split; [done|]. intros a want. cbn zeta. rewrite Hb.
    destruct (Z.geb_spec sig 64); [lia|]. cbn [negb]. split; [|mrun].
    + mrun. destruct want; mrun; rewrite ?(bind_get_action sh sig old) by (lia || done); mrun;
        rewrite ?(bind_get_action sh sig old) by (lia || done); by mrun.
    + rewrite (bind_get_sighand _ i (set_action (<[Z.to_nat sig := a]> (action sh)) sh))
        by (done || (kcbn; apply lookup_insert_eq)).
      mrun. erewrite bind_get_action by (lia || (cbn [action set_action]; apply list_lookup_insert_eq; lia)). by mrun.
Qed.

(** A negative signal number is not refused: [sys_rt_sigaction] passes an unsigned number to a function that takes an int and only
    compares with the upper bound, so a number from 2^31 on indexes the table out of bounds; and the old sigaction call fails
    whatever its arguments, because it passes the size 1 where only 8 is accepted. *)
Theorem sigaction_out_of_bounds k t i sh n a want : ready k t i sh -> 2 ^ 31 <= n < 2 ^ 32 ->
  sys_rt_sigaction n (Some (Some a)) want 8 k = Panic /\
  forall m act w, sys_sigaction m act w k = Ret (_EINVAL, None) k.
Proof.
  intros [Et Es Ea Hl _] Hn. split; [|done]. unfold sys_rt_sigaction, do_sigaction, NUM_SIGS. cbn [negb Z.eqb Pos.eqb].
  assert (E : s32 n = n - 2 ^ 32).
  { unfold swrap. replace (2 ^ (32 - 1)) with (2 ^ 31) by done. rewrite Z.mod_small by lia. destruct (Z.ltb_spec n (2 ^ 31)); lia. }
  rewrite E. set (s := n - 2 ^ 32). assert (Hs : s < 0) by (unfold s; lia). clearbody s. destruct (Z.geb_spec s 64); [lia|].
  assert (Hb : signal_is_blockable s = true) by (unfold signal_is_blockable, SIGKILL_, SIGSTOP_; destruct (Z.eqb_spec s 9), (Z.eqb_spec s 19); lia || done).
  rewrite Hb. cbn [negb]. mrun. assert (Hg : forall B (f : sigaction_ -> M B) k, bind (get_action sh s) f k = Panic).
  { intros. unfold get_action. destruct (Z.ltb_spec s 0); [done|lia]. }
  destruct want; mrun; rewrite Hg; done.
Qed.

(** ** Waiting *)

Lemma pause_loop_never fuel w i : (forall j, w j <> _EINTR) -> pause_loop fuel w i = None.
Proof. intros Hw. revert i. induction fuel as [|fuel IH]; intros i; cbn; [done|]. rewrite (proj2 (Z.eqb_neq _ _) (Hw i)). apply IH. Qed.

(** pause and sigsuspend never return: they wait for [wait_for] to return the kernel's negative EINTR, but [wait_for] passes on what
    the pthread call returns, which is 0 or a positive error number, so no number of wake-ups ends the loop. *)
Theorem pause_never_returns (cond_wait : nat -> Z) k t : (forall j, 0 <= cond_wait j) -> tasks k !! current k = Some t -> forall fuel,
  sys_pause fuel (fun j => wait_for false (cond_wait j) 0) k = Ret None k /\
  forall mask, exists k', sys_rt_sigsuspend (Some mask) 8 fuel (fun j => wait_for false (cond_wait j) 0) k = Ret None k'.
Proof.
  intros Hw Et fuel. assert (H : pause_loop fuel (fun j => wait_for false (cond_wait j) 0) 0 = None).
  { apply pause_loop_never. intros j. unfold wait_for, _EINTR. specialize (Hw j). lia. }
  unfold sys_pause, sys_rt_sigsuspend. rewrite H. split; [done|]. intros mask. cbn [negb Z.eqb Pos.eqb].
  unfold sigmask_set_temp_unlocked. mrun. erewrite bind_Ret; [|apply sigmask_set_run; kcbn; apply lookup_insert_eq]. by eexists.
Qed.

Lemma find_sig_run set q n k : Forall (fun x => 1 <= si_sig x < 64) q ->
  find_sig set q n k = Ret (match list_find (fun x => has_bit set (si_sig x) = true) q with
                            | Some (i, x) => Some ((n + i)%nat, x) | None => None end) k.
Proof.
  revert n. induction q as [|x q IH]; intros n Hq; [done|]. apply Forall_cons in Hq as [Hx Hq].
  cbn [find_sig list_find]. rewrite sigset_has_run by done. destruct (has_bit set (si_sig x)) eqn:E.
  - rewrite decide_True by done. cbn. by rewrite Nat.add_0_r.
  - rewrite decide_False by congruence. rewrite IH by done. destruct (list_find _ q) as [[i y]|]; [|done]. cbn. do 3 f_equal. lia.
Qed.

(** sigtimedwait hands out the first queued signal it waits for, but forgets to clear its pending bit: every later instance of that
    signal is dropped without being queued. *)
Theorem sigtimedwait_loses_signals k t k1 t1 set w fuel err i x :
  tasks k !! current k = Some t -> waiting t = 0 -> timedwait_loop fuel w 0 = Some err -> err <> _ETIMEDOUT ->
  forall arrivals, arrivals (set_tasks (<[current k := set_waiting set t]> (tasks k)) k) = Ret tt k1 ->
  current k1 = current k -> tasks k1 !! current k = Some t1 -> sigs_ok t1 ->
  list_find (fun x => has_bit set (si_sig x) = true) (queue t1) = Some (i, x) ->
  exists k2 t2, sys_rt_sigtimedwait (Some set) 8 fuel w arrivals k = Ret (Some (si_sig x, Some x)) k2 /\
    tasks k2 !! current k = Some t2 /\ queue t2 = delete i (queue t1) /\
    si_sig x ∉ queued t2 /\ forall info, deliver_signal_unlocked (current k) (si_sig x) info k2 = Ret tt k2.
Proof.
  intros Et Hw Hl Herr arrivals Harr Hc Et1 Hok Hf. pose proof Hf as (Hx & Hset & _)%list_find_Some.
  assert (Hv : Forall (fun x => 1 <= si_sig x < 64) (queue t1)).
  { apply Forall_elem. intros y Hy. apply (proj1 (Forall_elem _ _) (so_valid t1 Hok)). by apply list_elem_of_fmap_2. }
  assert (Hsx : 1 <= si_sig x < 64) by (apply (Forall_lookup_1 _ _ _ _ Hv Hx)).
  assert (Eq : queued t1 !! i = Some (si_sig x)) by (unfold queued; by rewrite list_lookup_fmap, Hx).
  unfold sys_rt_sigtimedwait. cbn [negb Z.eqb Pos.eqb]. mrun. rewrite Hw, bind_assert by done. mrun. rewrite Hl. cbn match. rewrite (bind_Ret _ _ _ _ _ Harr).
  rewrite (bind_upd_task _ t1) by done. rewrite (proj2 (Z.eqb_neq _ _) Herr). rewrite bind_get_task with (t := set_waiting 0 t1) by apply lookup_insert_eq.
  erewrite bind_Ret; [|by apply find_sig_run]. cbn [queue set_waiting]. rewrite Hf, Nat.add_0_l.
  erewrite bind_upd_task by apply lookup_insert_eq. eexists _, _. split; [reflexivity|]. kcbn. rewrite lookup_insert_eq. split; [done|].
  split; [done|]. split.
  - change (queued _) with (queued (set_queue (delete i (queue t1)) t1)). rewrite (queued_delete t1 i x Hx).
    pose proof (so_nodup t1 Hok) as Hnd. rewrite (delete_Permutation _ _ _ Eq) in Hnd. by apply NoDup_cons in Hnd as [].
  - intros info. unfold deliver_signal_unlocked. erewrite bind_get_task by apply lookup_insert_eq. rewrite sigset_has_run by done.
    cbn [pending set_queue set_waiting]. rewrite (proj2 (so_pending t1 Hok (si_sig x) Hsx)); [done|]. apply list_elem_of_lookup. by exists i.
Qed.

(** ** kill *)

Definition may_kill (me t : task) : bool :=
  (euid me =? 0) || (uid me =? uid t) || (uid me =? suid t) || (euid me =? uid t) || (euid me =? suid t).
Definition kill_info (k : kernel) (me : task) : siginfo_ := mk_siginfo 0 0 SI_USER_ (si_kill (current k) (uid me)).

Lemma kill_task_run k me p t sig : tasks k !! current k = Some me -> tasks k !! p = Some t ->
  kill_task p sig k = if may_kill me t then (send_signal p sig (kill_info k me) ;; ret 0) k else Ret _EPERM k.
Proof.
  intros Em Et. unfold kill_task, superuser, may_kill. mrun.
  destruct (euid me =? 0), (uid me =? uid t), (uid me =? suid t), (euid me =? uid t), (euid me =? suid t); reflexivity.
Qed.

(** kill of a single process, on every branch: a signal number from 64 on is EINVAL; a number that names no task, or a zombie, is
    ESRCH; with tgkill so is a task of another group; a caller that is neither root nor has the right user is refused; and
    otherwise the signal is sent, with the sender in its information, and the call succeeds if sending does. *)
Theorem kill_one_spec k me g p sig tg : tasks k !! current k = Some me -> groups k !! group me = Some g -> 1 <= p <= MAX_PID ->
  do_kill p sig tg k =
    if u32 sig >=? 64 then Ret _EINVAL k
    else match tasks k !! p with
         | None => Ret _ESRCH k
         | Some t =>
             if zombie t then Ret _ESRCH k
             else if negb (tg =? 0) && negb (tgid t =? tg) then Ret _ESRCH k
             else if may_kill me t then (send_signal p sig (kill_info k me) ;; ret 0) k
             else Ret _EPERM k
         end.
Proof.
  intros Em Eg Hp. unfold do_kill, NUM_SIGS. destruct (u32 sig >=? 64); [done|]. mrun.
  destruct (Z.eqb_spec p 0); [lia|]. destruct (Z.eqb_spec p (-1)); [lia|]. destruct (Z.ltb_spec p 0); [lia|].
  erewrite bind_Ret by (apply pid_get_task_in_range; lia). destruct (tasks k !! p) as [t|] eqn:Et; [|done].
  destruct (zombie t); [done|]. mrun. destruct (negb (tg =? 0) && negb (tgid t =? tg)); [done|]. by apply kill_task_run.
Qed.

(** A task that can be sent a signal. *)
Definition live (k : kernel) (p : Z) : Prop :=
  exists t i sh, tasks k !! p = Some t /\ sighand_of t = Some i /\ sighands k !! i = Some sh /\ length (action sh) = 64%nat /\
    is_Some (groups k !! group t).

(** What sending signals leaves alone; pending sets only grow. *)
Definition sent (k k' : kernel) : Prop :=
  current k' = current k /\ sighands k' = sighands k /\ (forall g, is_Some (groups k !! g) -> is_Some (groups k' !! g)) /\
  pgroup_list k' = pgroup_list k /\
  forall p t, tasks k !! p = Some t -> exists t', tasks k' !! p = Some t' /\
    uid t' = uid t /\ euid t' = euid t /\ suid t' = suid t /\ sighand_of t' = sighand_of t /\ group t' = group t /\
    zombie t' = zombie t /\ exiting t' = exiting t /\ parent t' = parent t /\ children t' = children t /\
    forall s, 1 <= s < 64 -> has_bit (pending t) s = true -> has_bit (pending t') s = true.
#[export] Instance sent_preorder : PreOrder sent.
Proof.
  split.
  - intros k. split_and!; [done..|]. intros p t E. exists t. auto 15.
  - intros k1 k2 k3 (A1 & B1 & C1 & D1 & E1) (A2 & B2 & C2 & D2 & E2). split_and!; [congruence..|auto|congruence|].
    intros p t E. destruct (E1 p t E) as (t' & E' & ? & ? & ? & ? & ? & ? & ? & ? & ? & HA).
    destruct (E2 p t' E') as (t'' & E'' & ? & ? & ? & ? & ? & ? & ? & ? & ? & HB). exists t''. split; [done|]. repeat (split; [congruence|]). auto.
Qed.

Lemma live_sent k k' p : sent k k' -> live k p -> live k' p.
Proof.
  intros (_ & B & C & _ & E) (t & i & sh & Et & Es & Ei & Hl & Hg). destruct (E p t Et) as (t' & Et' & _ & _ & _ & Hs & Hgr & _).
  exists t', i, sh. rewrite Hs, Hgr, B. auto 15.
Qed.

Lemma sent_upd k p t f : tasks k !! p = Some t -> uid (f t) = uid t -> euid (f t) = euid t -> suid (f t) = suid t ->
  sighand_of (f t) = sighand_of t -> group (f t) = group t -> zombie (f t) = zombie t -> exiting (f t) = exiting t -> parent (f t) = parent t -> children (f t) = children t ->
  (forall s, 1 <= s < 64 -> has_bit (pending t) s = true -> has_bit (pending (f t)) s = true) ->
  sent k (set_tasks (<[p := f t]> (tasks k)) k).
Proof.
  intros Et ? ? ? ? ? ? ? ? ? Hp. split_and!; [done..|]. intros q x Eq. kcbn. destruct (decide (q = p)) as [->|].
  - rewrite lookup_insert_eq. exists (f t). assert (x = t) as -> by congruence. auto 15.
  - rewrite lookup_insert_ne by done. exists x. auto 15.
Qed.

Lemma deliver_total k p t sig info : tasks k !! p = Some t -> 1 <= sig < 64 ->
  exists k' t', deliver_signal_unlocked p sig info k = Ret tt k' /\ sent k k' /\ (forall q, q <> p -> tasks k' !! q = tasks k !! q) /\
    groups k' = groups k /\ tasks k' !! p = Some t' /\ has_bit (pending t') sig = true.
Proof.
  intros Et Hs. unfold deliver_signal_unlocked. mrun. rewrite sigset_has_run by done.
  destruct (has_bit (pending t) sig) eqn:B; [by exists k, t|]. mrun. rewrite sigset_has_run by done.
  set (k1 := set_tasks _ k). assert (S1 : sent k k1).
  { unfold k1. apply (sent_upd k p t (fun t => set_queue (queue t ++ [set_si_sig sig info]) (set_pending (add_bit (pending t) sig) t))); try done.
    intros s Hs' Hb. cbn. rewrite has_add_bit, Hb by done. apply orb_true_r. }
  assert (E1 : exists t', tasks k1 !! p = Some t' /\ has_bit (pending t') sig = true).
  { eexists. unfold k1. kcbn. rewrite lookup_insert_eq. split; [done|]. cbn. rewrite has_add_bit, Z.eqb_refl by done. done. }
  assert (O1 : forall q, q <> p -> tasks k1 !! q = tasks k !! q) by (intros q Hq; unfold k1; kcbn; by rewrite lookup_insert_ne).
  destruct E1 as (t' & E1 & B1). destruct (_ && _); [by exists k1, t'|]. mrun.
  destruct (p =? current k1); [by exists k1, t'|]. eexists _, t'. split; [reflexivity|]. split; [|done].
  transitivity k1; [done|]. split_and!; [done..|]. intros q x Eq. exists x. auto 15.
Qed.

Lemma send_total k p t sig info : live k p -> tasks k !! p = Some t -> 0 <= sig < 64 ->
  exists k', send_signal p sig info k = Ret tt k' /\ sent k k' /\ (forall q, q <> p -> tasks k' !! q = tasks k !! q) /\
    (sig <> 0 -> zombie t || exiting t = false ->
     (forall i sh, sighand_of t = Some i -> sighands k !! i = Some sh -> disposition sh sig <> SIGNAL_IGNORE) ->
     exists t', tasks k' !! p = Some t' /\ has_bit (pending t') sig = true).
Proof.
  intros (t0 & i & sh & Et & Es & Ei & Hl & Hg) Et' Hs. assert (t0 = t) as -> by congruence. clear Et'.
  unfold send_signal. destruct (Z.eqb_spec sig 0); [by exists k|]. mrun. destruct (zombie t || exiting t); [by exists k|].
  mrun. rewrite signal_action_run by (done || lia).
  assert (Hend : forall k1, sent k k1 -> exists k', (if (sig =? SIGCONT_) || (sig =? SIGKILL_) then upd_group (group t) (set_stopped false) else ret tt) k1 = Ret tt k'
            /\ sent k k' /\ tasks k' = tasks k1).
  { intros k1 S1. destruct (_ || _); [|by exists k1]. destruct S1 as (A & B & C & D & E). destruct (C _ Hg) as [g Eg].
    rewrite (upd_group_eq _ _ _ _ Eg). eexists. split; [reflexivity|]. split; [|done]. split_and!; try done. kcbn. intros g' Hg'.
    destruct (decide (g' = group t)) as [->|]; [rewrite lookup_insert_eq; by eexists|rewrite lookup_insert_ne by done; auto]. }
  destruct (bool_decide_reflect (disposition sh sig = SIGNAL_IGNORE)) as [D|D].
  - rewrite bind_ret_l. destruct (Hend k) as (k' & -> & S & Ht); [done|]. exists k'. rewrite Ht. split_and!; [done..|]. intros _ _ Hd. by destruct (Hd i sh Es Ei).
  - destruct (deliver_total k p t sig info Et) as (k1 & t1 & E1 & S1 & O1 & _ & Et1 & B1); [lia|]. rewrite (bind_Ret _ _ _ _ _ E1).
    destruct (Hend k1 S1) as (k' & -> & S & Ht). exists k'. rewrite Ht. split_and!; [done..|]. intros _ _ _. by exists t1.
Qed.

Definition permitted (k : kernel) (me : task) (p : Z) : bool :=
  match tasks k !! p with Some t => may_kill me t | None => false end.

Lemma may_kill_sent k k' me me' p : sent k k' -> tasks k !! current k = Some me -> tasks k' !! current k' = Some me' ->
  is_Some (tasks k !! p) -> permitted k' me' p = permitted k me p.
Proof.
  intros (Hc & _ & _ & _ & E) Em Em' [t Et]. rewrite Hc in Em'. destruct (E _ _ Em) as (m & Em1 & U1 & U2 & _).
  destruct (E _ _ Et) as (t' & Et' & V1 & _ & V2 & _). unfold permitted. rewrite Et, Et'. assert (m = me') as -> by congruence.
  unfold may_kill. by rewrite U1, U2, V1, V2.
Qed.

(** The state has the signal pending in a task it could be sent to. *)
Definition received (k k' : kernel) (sig p : Z) : Prop :=
  forall t i sh, tasks k !! p = Some t -> sighand_of t = Some i -> sighands k !! i = Some sh -> zombie t || exiting t = false ->
    disposition sh sig <> SIGNAL_IGNORE -> exists t', tasks k' !! p = Some t' /\ has_bit (pending t') sig = true.

Lemma received_later k k1 k' sig p : 1 <= sig < 64 -> sent k1 k' -> received k k1 sig p -> received k k' sig p.
Proof.
  intros Hs (_ & _ & _ & _ & E) R t i sh A B C D F. destruct (R t i sh A B C D F) as (t1 & E1 & B1).
  destruct (E _ _ E1) as (t' & E' & _ & _ & _ & _ & _ & _ & _ & _ & _ & P). exists t'. auto.
Qed.
Lemma received_earlier k k1 k' sig p : sent k k1 -> received k1 k' sig p -> received k k' sig p.
Proof.
  intros (_ & Hsh & _ & _ & E) R t i sh A B C D F. destruct (E _ _ A) as (t1 & E1 & _ & _ & _ & S1 & _ & Z1 & X1 & _).
  apply (R t1 i sh); [done|congruence|congruence|by rewrite Z1, X1|done].
Qed.

Lemma kill_list_total l sig : 1 <= sig < 64 -> forall err k me, tasks k !! current k = Some me -> Forall (live k) l ->
  exists k', kill_list l sig err k =
      Ret (if err =? _EPERM then if existsb (permitted k me) l then 0 else _EPERM else err) k' /\
    sent k k' /\ forall p, p ∈ l -> permitted k me p = true -> received k k' sig p.
Proof.
  intros Hs. induction l as [|p l IH]; intros err k me Em Hl; cbn [kill_list].
  { exists k. cbn. destruct (Z.eqb_spec err _EPERM) as [->|]; split_and!; try done; intros p []%elem_of_nil. }
  apply Forall_cons in Hl as [Hp Hl]. pose proof Hp as (t & _ & _ & Et & _).
  assert (Hstep : exists e k1, kill_task p sig k = Ret e k1 /\ e = (if permitted k me p then 0 else _EPERM) /\ sent k k1 /\
            (permitted k me p = true -> received k k1 sig p)).
  { rewrite (kill_task_run k me p t sig Em Et). unfold permitted. rewrite Et. destruct (may_kill me t).
    - destruct (send_total k p t sig (kill_info k me) Hp Et) as (k1 & E1 & S1 & _ & R1); [lia|]. rewrite (bind_Ret _ _ _ _ _ E1).
      exists 0, k1. split_and!; [done..|]. intros _ t' i sh A B C D F. assert (t' = t) as -> by congruence.
      apply R1; [lia|done|]. intros i' sh' ? ?. assert (i' = i) by congruence. subst i'. by assert (sh' = sh) as -> by congruence.
    - by exists _EPERM, k. }
  destruct Hstep as (e & k1 & E1 & -> & S1 & R1). rewrite (bind_Ret _ _ _ _ _ E1).
  assert (Em1 : exists me1, tasks k1 !! current k1 = Some me1).
  { destruct S1 as (Hc & _ & _ & _ & E). rewrite Hc. destruct (E _ _ Em) as (x & Ex & _). by exists x. }
  destruct Em1 as [me1 Em1].
  assert (Hl1 : Forall (live k1) l) by (eapply Forall_impl; [exact Hl|]; intros; by eapply live_sent).
  assert (Hperm : forall q, q ∈ l -> permitted k1 me1 q = permitted k me q).
  { intros q Hq. apply may_kill_sent; [done..|]. destruct (proj1 (Forall_elem _ _) Hl q Hq) as (x & _ & _ & Ex & _). by exists x. }
  assert (Hex : existsb (permitted k1 me1) l = existsb (permitted k me) l).
  { clear -Hperm. induction l as [|q l IH]; cbn; [done|]. rewrite Hperm by (apply elem_of_cons; by left). f_equal. apply IH.
    intros x Hx. apply Hperm, elem_of_cons. by right. }
  destruct (IH (if err =? _EPERM then if permitted k me p then 0 else _EPERM else err) k1 me1 Em1 Hl1) as (k' & E' & S' & R').
  exists k'. split_and!; [|by transitivity k1|].
  - rewrite E', Hex. f_equal. cbn [existsb]. destruct (err =? _EPERM) eqn:Ee; [|by rewrite Ee].
    destruct (permitted k me p); cbn; done.
  - intros q [->|Hq]%elem_of_cons Hq'; [apply (received_later k k1 k' sig p Hs S'); auto|].
    apply (received_earlier k k1 k' sig q S1). apply R'; [done|]. by rewrite Hperm.
Qed.

(** kill of a process group succeeds if any member may be signaled and is EPERM otherwise, and it reaches every member it may signal:
    after it the signal is pending in each such process that does not ignore it and is not exiting.  But a number that
    is a task and not a process group gives EPERM, where there is no such group. *)
Theorem kill_group_spec k me g pg sig : tasks k !! current k = Some me -> groups k !! group me = Some g -> 2 <= pg <= MAX_PID ->
  1 <= sig < 64 -> Forall (live k) (pgroup_of k pg) ->
  if pid_empty k pg then do_kill (- pg) sig 0 k = Ret _ESRCH k
  else exists k', do_kill (- pg) sig 0 k = Ret (if existsb (permitted k me) (pgroup_of k pg) then 0 else _EPERM) k' /\
    forall p, p ∈ pgroup_of k pg -> permitted k me p = true -> received k k' sig p.
Proof.
  intros Em Eg Hpg Hs Hl. unfold do_kill, NUM_SIGS. rewrite (wrap_small 32 sig) by (unfold in_u; lia).
  destruct (Z.geb_spec sig 64); [lia|]. mrun. destruct (Z.eqb_spec (- pg) 0); [lia|]. destruct (Z.eqb_spec (- pg) (-1)); [lia|].
  destruct (Z.ltb_spec (- pg) 0); [|lia]. unfold kill_group. rewrite Z.opp_involutive. rewrite pid_get_bind by lia.
  destruct (pid_empty k pg); [done|]. rewrite bind_gets.
  destruct (kill_list_total (pgroup_of k pg) sig Hs _EPERM k me Em Hl) as (k' & E & _ & R). exists k'. split; [|done].
  unfold id. rewrite E. by rewrite Z.eqb_refl.
Qed.

(** ** A state to run on *)

(** Memory as the list of the frames stored. *)
#[export] Instance frames_mem : FrameMem (list (Z * frame)) := {
  put_frame u a f := Some ((a, f) :: u);
  get_frame u a := snd <$> find (fun p => fst p =? a) u }.
#[export] Instance frames_mem_ok : FrameMemOK (list (Z * frame)).
Proof. intros u u' a f [= <-]. cbn. by rewrite Z.eqb_refl. Qed.

(** Task 1 has a handler for signal 10, with a mask that holds SIGKILL; signal 12 is blocked; both are queued. *)
Definition demo_info (s : Z) : siginfo_ := set_si_sig s SIGINFO_NIL.
Definition enqueue (s : Z) (t : task) : task :=
  set_queue (queue t ++ [set_si_sig s SIGINFO_NIL]) (set_pending (add_bit (pending t) s) t).
Definition demo_base : task :=
  set_blocked (sig_bit 12) (set_cpu (set_eip 0x400 (set_esp 0x8000 regs0)) (set_sighand_of (Some 7) (set_group 1 (set_tgid 1 task0)))).
Definition demo_task : task := enqueue 12 (enqueue 10 demo_base).
Definition demo_act : sigaction_ := mk_sigaction 0x1000 0 0 (sig_bit SIGKILL_).
Definition demo_sighand : sighand := mk_sighand 1 (<[10%nat := demo_act]> (repeat (mk_sigaction 0 0 0 0) 64)) 0 0.
Definition demo (t : task) : kernel :=
  mk_kernel {[1 := t]} {[1 := mk_tgroup [1] 1 1 false None false 0]} {[7 := demo_sighand]} {[1 := [1]]} {[1 := [1]]} ∅ 1 1 [] false.
Definition demo_exit (_ : Z) : M unit := fun k => Exited k.
#[export] Instance demo_exit_noreturn : Noreturn demo_exit.
Proof. by intros ? ? ? ? [=]. Qed.

Lemma demo_ok : sigs_ok demo_task.
Proof.
  unfold demo_task, enqueue at 1. apply sigs_ok_add; [lia| |reflexivity]. apply sigs_ok_add; [lia| |reflexivity].
  split; [constructor|constructor|]. intros s Hs. split; [rewrite has_zero; discriminate|]. by intros []%elem_of_nil.
Qed.
Lemma demo_inv : sigs_inv (demo demo_task).
Proof. intros p t. unfold demo. kcbn. intros [_ <-]%lookup_singleton_Some. apply demo_ok. Qed.
Lemma demo_ready : ready (demo demo_task) demo_task 7 demo_sighand.
Proof. split; try reflexivity. by eexists. Qed.

Lemma pending_matches_queue_witness : exists u k t,
  receive_signals 0x2000 0x2010 0 0 demo_exit (ret false) 8 [] (demo demo_task) = Ret u k /\
  tasks k !! 1 = Some t /\ map si_sig (queue t) = [12] /\ sigs_inv k.
Proof.
  destruct (receive_signals 0x2000 0x2010 0 0 demo_exit (ret false) 8 [] (demo demo_task)) as [u k| | |] eqn:E;
    [|vm_compute in E; discriminate..].
  assert (H1 : exists t, tasks k !! 1 = Some t /\ map si_sig (queue t) = [12])
    by (vm_compute in E; injection E as _ <-; eexists; split; reflexivity).
  destruct H1 as (t & Et & Hq). exists u, k, t. split_and!; [done..|].
  refine (proj1 (proj2 (proj2 (proj2 (proj2 (proj2 (proj2 (pending_matches_queue 0x2000 0x2010 0 0 demo_exit (ret false) _))))))) 8%nat []
            (demo demo_task) u k demo_inv E).
  intros k1 a k2 HP [= _ <-]. exact HP.
Defined.

Lemma receive_signals_refines_witness :
  receive_signals 0x2000 0x2010 0 0 demo_exit (ret false) 2 [] (demo demo_task) =
  (let! c := gets current in
   upd_task c restore_mask ;;
   let! u := deliver_seq 0x2000 0x2010 0 0 demo_exit (filter (unblocked (blocked_now demo_task)) (queue demo_task)) [] in
   report_stop false 1 ;;
   ret u) (demo demo_task).
Proof.
  apply (receive_signals_refines 0x2000 0x2010 0 0 demo_exit (ret false)) with (g := mk_tgroup [1] 1 1 false None false 0) (sh := demo_sighand);
    [reflexivity..|apply demo_ok|reflexivity|cbn; lia].
Defined.

Lemma receive_signals_total_witness : exists u' k' t',
  receive_signals 0x2000 0x2010 0 0 demo_exit (ret false) 2 [] (demo demo_task) = Ret u' k' /\
  tasks k' !! 1 = Some t' /\ queue t' = filter (fun x => ~ unblocked (blocked_now demo_task) x) (queue demo_task).
Proof.
  apply (receive_signals_total 0x2000 0x2010 0 0 demo_exit (ret false)) with
    (i := 7) (sh := demo_sighand) (g := mk_tgroup [1] 1 1 false None false 0);
    [by eexists|apply demo_ready|reflexivity|apply demo_ok|reflexivity|cbn; lia| | |reflexivity];
    intros x [->|[->|[]%elem_of_nil]%elem_of_cons]%elem_of_cons; vm_compute; congruence.
Defined.

Lemma unblockable_stay_open_witness : exists k', do_sigprocmask SIG_SETMASK_ (2 ^ 64 - 1) (demo demo_task) = Ret 0 k' /\ kill_open k'.
Proof.
  eexists. split; [reflexivity|].
  refine (proj2 (proj2 (proj2 (proj2 (proj2 (@unblockable_stay_open (list (Z * frame)) _)))))
            (demo demo_task) demo_task (2 ^ 64 - 1) 0 _ eq_refl _). reflexivity.
Defined.

Lemma sigprocmask_spec_witness : do_sigprocmask 7 0 (demo demo_task) = Ret _EINVAL (demo demo_task).
Proof. apply (sigprocmask_spec (demo demo_task) demo_task 7 0 eq_refl). lia. Defined.

Lemma frame_placement_witness :
  let a := frame_sp 0 0 0x8000 demo_sighand 732 in 0 <= a /\ a + 732 <= 0x8000 < a + 732 + 16.
Proof.
  apply (proj1 (proj2 (frame_placement 0x8000 demo_sighand (plain_frame (mk_sigframe 0 0 (fst (setup_sigcontext 0 regs0)) 0 [])) ltac:(done))));
    [by left|done].
Defined.

Lemma handler_round_trip_witness : exists sp fr u' k1 t1,
  receive_signal 0x2000 0x2010 0 0 demo_exit (demo_info 10) [] (demo demo_task) = Ret u' k1 /\ tasks k1 !! current k1 = Some t1 /\
  eip (cpu t1) = 0x1000 /\ esp (cpu t1) = sp /\ get_frame u' sp = Some fr /\ frame_top (esp (cpu demo_task)) demo_sighand - 0 - 15 <= sp + frame_size fr <= frame_top (esp (cpu demo_task)) demo_sighand.
Proof.
  destruct (handler_round_trip 0x2000 0x2010 0 0 demo_exit (demo_info 10) [] (demo demo_task) demo_task 7 demo_sighand demo_act)
    as (sp & fr & _ & Hpl & H1 & _); [apply demo_ready|done|done|reflexivity|reflexivity|].
  destruct H1 as (u' & k1 & t1 & E & Et & Hf & Hfor & Hip & _ & Hsp & _); [by eexists|]. exists sp, fr, u', k1, t1. do 5 (split; [done|]). apply Hpl; [done|done|]. destruct fr; (split; [vm_compute; discriminate|reflexivity]).
Defined.

Definition demo_frame : frame := plain_frame (mk_sigframe 0 10 (fst (setup_sigcontext 0 regs0)) 0 []).
Lemma sigreturn_leaks_carry_witness : exists v k3 t3,
  sigreturn demo_act [(0x7ff8, demo_frame)] (demo demo_task) = Ret v k3 /\ tasks k3 !! 1 = Some t3 /\
  Cpu.CF (fl (cpu t3)) = Cpu.CF (fl (cpu demo_task)) /\ Cpu.OF (fl (cpu t3)) = Cpu.OF (fl (cpu demo_task)).
Proof.
  apply (sigreturn_leaks_carry (demo demo_task) demo_task demo_sighand [(0x7ff8, demo_frame)] 0x7ff8 demo_frame demo_act); done.
Defined.

Lemma sigaction_spec_witness : exists old, action demo_sighand !! 10%nat = Some old /\
  do_sigaction 10 None true (demo demo_task) = Ret (0, Some old) (demo demo_task).
Proof.
  destruct (proj2 (sigaction_spec (demo demo_task) demo_task 7 demo_sighand 10 demo_ready)) as (old & E & _); [done|reflexivity|].
  exists old. split; [exact E|]. injection E as <-. reflexivity.
Defined.

Lemma sigaction_out_of_bounds_witness : sys_rt_sigaction (2 ^ 32 - 1) (Some (Some demo_act)) false 8 (demo demo_task) = Panic.
Proof. apply (sigaction_out_of_bounds (demo demo_task) demo_task 7 demo_sighand (2 ^ 32 - 1) demo_act false demo_ready). done. Defined.

Lemma pause_never_returns_witness : sys_pause 100 (fun j => wait_for false 0 0) (demo demo_task) = Ret None (demo demo_task).
Proof. apply (pause_never_returns (fun _ => 0) (demo demo_task) demo_task); [done|reflexivity]. Defined.

Lemma sigtimedwait_loses_signals_witness : exists k2 t2,
  sys_rt_sigtimedwait (Some (sig_bit 12)) 8 1 (fun _ => 4) (ret tt) (demo demo_task) = Ret (Some (12, Some (demo_info 12))) k2 /\
  tasks k2 !! 1 = Some t2 /\ queue t2 = [demo_info 10] /\ 12 ∉ queued t2 /\
  forall info, deliver_signal_unlocked 1 12 info k2 = Ret tt k2.
Proof.
  apply (sigtimedwait_loses_signals (demo demo_task) demo_task
    (set_tasks (<[1 := set_waiting (sig_bit 12) demo_task]> (tasks (demo demo_task))) (demo demo_task))
    (set_waiting (sig_bit 12) demo_task) (sig_bit 12) (fun _ => 4) 1 4 1 (demo_info 12))
    with (arrivals := ret tt); try reflexivity; [done|].
  apply (sigs_ok_ext demo_task); [reflexivity..|apply demo_ok].
Defined.

Lemma kill_one_spec_witness : do_kill 1 70 0 (demo demo_task) = Ret _EINVAL (demo demo_task).
Proof. exact (kill_one_spec (demo demo_task) demo_task (mk_tgroup [1] 1 1 false None false 0) 1 70 0 eq_refl eq_refl ltac:(done)). Defined.

(** The same with the process group 2. *)
Definition demo2 : kernel := set_pgroup_list {[2 := [1]]} (demo demo_task).
Lemma kill_group_spec_witness : exists k', do_kill (-2) 10 0 demo2 = Ret 0 k'.
Proof.
  assert (Hl : Forall (live demo2) (pgroup_of demo2 2)).
  { change (pgroup_of demo2 2) with [1]. constructor; [|constructor].
    exists demo_task, 7, demo_sighand. split_and!; try reflexivity. by eexists. }
  destruct (kill_group_spec demo2 demo_task (mk_tgroup [1] 1 1 false None false 0) 2 10 eq_refl eq_refl ltac:(done) ltac:(done) Hl)
    as (k' & E & _). exists k'. exact E.
Defined.

Definition result_of {A} (m : M A) (k : kernel) : option A := match m k with Ret a _ => Some a | _ => None end.

(** A handler's mask can block SIGKILL: sigaction stores the mask as it comes and delivery adds it whole, so while that handler runs
    SIGKILL stays in the queue and the task cannot be killed. *)
Theorem handler_mask_blocks_kill :
  result_of (let! u := receive_signal 0x2000 0x2010 0 0 demo_exit (demo_info 10) [] in
             send_signal 1 SIGKILL_ SIGINFO_NIL ;;
             let! _ := receive_signals 0x2000 0x2010 0 0 demo_exit (ret false) 8 u in
             let! t := get_task 1 in
             ret (queued t)) (demo demo_base) = Some [SIGKILL_] /\
  result_of (send_signal 1 SIGKILL_ SIGINFO_NIL ;;
             let! _ := receive_signals 0x2000 0x2010 0 0 demo_exit (ret false) 8 [] in
             let! t := get_task 1 in
             ret (queued t)) (demo demo_base) = None.
Proof. split; vm_compute; reflexivity. Qed.
End Signal.
