(* ===== verification/Group.v ===== *)
(** * Process groups and sessions (kernel/group.c)

    A thread group is linked in the list of its process group and in that of its session; both hang off an entry of the
    pid table.  The lists here are keyed by that entry.  Reference counts of terminals are not part of the state. *)

From S2P Require Import Prelude Errno Float80 Cpu Task.

Module Group.
Import Errno Task.

(** ** The lists (util/list.h) *)

Abbreviation lists := (gmap Z (list Z)).
Definition in_list (ls : lists) (p : Z) : list Z := default [] (ls !! p).
Definition linked (ls : lists) (g : Z) : Prop := map_Exists (fun _ l => g ∈ l) ls.
#[export] Instance linked_dec ls g : Decision (linked ls g).
Proof. unfold linked. apply _. Defined.

(** A node is taken out of the list it is in. *)
Definition unlink (g : Z) (ls : lists) : lists := filter (fun x => x <> g) <$> ls.
(** [list_add(&pid->..., node)] *)
Definition link (p g : Z) (ls : lists) : lists := <[p := g :: in_list ls p]> ls.

(** [list_remove] follows the node's pointers: a node that is in no list has none. *)
Definition pgroup_remove (g : Z) : M unit :=
  let! k := gets id in
  assert (bool_decide (linked (pgroup_list k) g)) ;;
  modify (fun k => set_pgroup_list (unlink g (pgroup_list k)) k).
Definition pgroup_remove_safe (g : Z) : M unit := modify (fun k => set_pgroup_list (unlink g (pgroup_list k)) k).
Definition pgroup_add (p g : Z) : M unit := modify (fun k => set_pgroup_list (link p g (pgroup_list k)) k).
Definition session_remove_safe (g : Z) : M unit := modify (fun k => set_session_list (unlink g (session_list k)) k).
Definition session_add (p g : Z) : M unit := modify (fun k => set_session_list (link p g (session_list k)) k).

(** ** System calls *)

Definition sys_setpgid (id pg : Z) : M Z :=
  let! c := gets current in
  let id := if id =? 0 then c else id in
  let pg := if pg =? 0 then id else pg in
  let! pid := pid_get id in
  match pid with
  | None => ret _ESRCH
  | Some pid =>
      let! k := gets (fun k => k) in
      match tasks k !! pid with
      | None => ret _ESRCH
      | Some t =>
          let! tg := get_group (group t) in
          (* a process can only join a process group in the same session *)
          let! joins :=
            (if id =? pg then ret true
             else
               let! group_pid := pid_get pg in
               match group_pid with
               | None => ret false
               | Some gp =>
                   match pgroup_of k gp with
                   | [] => ret false
                   | first :: _ => let! ft := get_group first in ret (sid tg =? sid ft)
                   end
               end) in
          if negb joins then ret _EPERM
          else if negb (pid =? c) && negb (bool_decide (parent t = Some c)) then ret _ESRCH
          else if sid tg =? group t then ret _EPERM
          else
            (if pgid tg =? pg then ret tt
             else pgroup_remove (group t) ;; upd_group (group t) (set_pgid pg) ;; pgroup_add pid (group t)) ;;
            ret 0
      end
  end.

Definition sys_setpgrp : M Z := sys_setpgid 0 0.

Definition sys_getpgid (pid : Z) : M Z :=
  let! c := gets current in
  let! t := (if pid =? 0 then ret (Some c) else pid_get_task pid) in
  match t with
  | None => ret _ESRCH
  | Some p => let! t := get_task p in let! g := get_group (group t) in ret (pgid g)
  end.
Definition sys_getpgrp : M Z := sys_getpgid 0.

(** The last group to leave a session takes the terminal's session with it.  [pid_get] of a session whose entry is empty is null. *)
Definition task_leave_session (p : Z) : M unit :=
  let! t := get_task p in
  let g := group t in
  session_remove_safe g ;;
  let! x := get_group g in
  match tty x with
  | None => ret tt
  | Some tty =>
      let! e := pid_get (sid x) in
      let! s := deref e in
      let! k := gets (fun k => k) in
      (if bool_decide (session_of k s = []) then modify (fun k => set_tty_session (<[tty := 0]> (tty_session k)) k) else ret tt) ;;
      upd_group g (set_tty None)
  end.

Definition task_setsid (p : Z) : M Z :=
  let! t := get_task p in
  let g := group t in
  let! x := get_group g in
  let new_sid := g in
  if (pgid x =? new_sid) || (sid x =? new_sid) then ret _EPERM
  else
    task_leave_session p ;;
    let! e := pid_get p in
    let! pid := deref e in
    session_add pid g ;;
    upd_group g (set_sid new_sid) ;;
    pgroup_remove_safe g ;;
    pgroup_add pid g ;;
    upd_group g (set_pgid new_sid) ;;
    ret new_sid.

Definition sys_setsid : M Z := let! c := gets current in task_setsid c.
Definition sys_getsid : M Z :=
  let! c := gets current in let! t := get_task c in let! g := get_group (group t) in ret (sid g).

(** ** The lists agree with the numbers *)

Lemma in_list_unlink g ls p : in_list (unlink g ls) p = filter (fun x => x <> g) (in_list ls p).
Proof. unfold in_list, unlink. rewrite lookup_fmap. by destruct (ls !! p). Qed.
Lemma in_list_link p g ls q : in_list (link p g ls) q = if decide (q = p) then g :: in_list ls p else in_list ls q.
Proof.
  unfold in_list at 1, link. destruct (decide (q = p)) as [->|]; [by rewrite lookup_insert_eq|]. by rewrite lookup_insert_ne.
Qed.
Lemma linked_spec ls g : linked ls g <-> exists p, g ∈ in_list ls p.
Proof.
  unfold linked, map_Exists, in_list. split.
  - intros (p & l & E & Hg). exists p. by rewrite E.
  - intros (p & Hg). destruct (ls !! p) as [l|] eqn:E; [by exists p, l|]. by apply elem_of_nil in Hg.
Qed.

(** [ls] lists the groups under the number [num] gives them. *)
Definition listed (gs : gmap Z tgroup) (num : tgroup -> Z) (ls : lists) : Prop :=
  (forall p, NoDup (in_list ls p)) /\
  forall p g, g ∈ in_list ls p <-> exists x, gs !! g = Some x /\ num x = p.

Record groups_ok (k : kernel) : Prop := {
  go_pgroups : listed (groups k) pgid (pgroup_list k);
  go_sessions : listed (groups k) sid (session_list k) }.

Lemma listed_other gs num ls g x f : listed gs num ls -> gs !! g = Some x -> num (f x) = num x -> listed (<[g := f x]> gs) num ls.
Proof.
  intros [Hn Hl] E Hf. split; [done|]. intros p q. rewrite Hl. destruct (decide (q = g)) as [->|].
  - rewrite lookup_insert_eq, E. split; intros (y & [= <-] & <-); eexists; (split; [done|congruence]).
  - by rewrite lookup_insert_ne.
Qed.

(** A group moves from one list to another. *)
Lemma listed_move gs num ls g x f p : listed gs num ls -> gs !! g = Some x -> num (f x) = p ->
  listed (<[g := f x]> gs) num (link p g (unlink g ls)).
Proof.
  intros [Hn Hl] E Hf. assert (Hun : forall q, g ∉ in_list (unlink g ls) q).
  { intros q. rewrite in_list_unlink. by intros [? _]%list_elem_of_filter. }
  split.
  - intros q. rewrite in_list_link. destruct (decide (q = p)); [apply NoDup_cons; split; [apply Hun|]|];
      rewrite in_list_unlink; by apply NoDup_filter.
  - intros q h. rewrite in_list_link. destruct (decide (h = g)) as [->|Hh].
    + rewrite lookup_insert_eq. destruct (decide (q = p)) as [->|Hq].
      * rewrite elem_of_cons. split; [intros _; by eexists|by left].
      * split; [by intros ?%Hun|]. intros (y & [= <-] & Hy). congruence.
    + rewrite lookup_insert_ne by done. rewrite <- Hl. destruct (decide (q = p)) as [->|];
        rewrite ?elem_of_cons, in_list_unlink, list_elem_of_filter; naive_solver.
Qed.


(** The state of the whole after a group has become process group [p] (and session [s]). *)
Definition moved (g p : Z) (x : tgroup) (k : kernel) : kernel :=
  set_pgroup_list (link p g (unlink g (pgroup_list k))) (set_groups (<[g := set_pgid p x]> (groups k)) k).

Lemma moved_ok g p x k : groups_ok k -> groups k !! g = Some x -> groups_ok (moved g p x k).
Proof. intros [H1 H2] E. split; unfold moved; kcbn; [by apply listed_move|by apply listed_other]. Qed.

(** ** setpgid *)

Lemma setpgid_run k c me id pg t tg : current k = c -> tasks k !! c = Some me -> 1 <= id <= MAX_PID -> 1 <= pg <= MAX_PID ->
  tasks k !! id = Some t -> groups k !! group t = Some tg -> groups_ok k ->
  (id = pg \/ exists first rest ft, pgroup_of k pg = first :: rest /\ groups k !! first = Some ft /\ sid ft = sid tg) ->
  (id = c \/ parent t = Some c) -> sid tg <> group t -> pgid tg <> pg ->
  sys_setpgid id pg k = Ret 0 (set_pgroup_list (link id (group t) (unlink (group t) (pgroup_list k)))
                                 (set_groups (<[group t := set_pgid pg tg]> (groups k)) k)).
Proof.
  intros Hc Em Hid Hpg Et Eg Hok Hjoin Hwho Hlead Hmove. unfold sys_setpgid. rewrite bind_gets, Hc.
  destruct (Z.eqb_spec id 0); [lia|]. destruct (Z.eqb_spec pg 0); [lia|].
  rewrite pid_get_bind, (pid_empty_Some _ _ _ Et) by lia. mrun. rewrite Et. cbn match. rewrite (bind_get_group _ tg) by done.
  match goal with |- bind ?m ?f k = _ => assert (Hj : m k = Ret true k) end.
  { destruct (Z.eqb_spec id pg) as [|Hne]; [done|]. destruct Hjoin as [|(first & rest & ft & El & Ef & Es)]; [done|].
    assert (Hne' : pid_empty k pg = false) by (unfold pid_empty; rewrite El; destruct (bool_decide (tasks k !! pg = None)), (bool_decide (session_of k pg = [])); done).
    rewrite pid_get_bind, Hne', El by lia. mrun. rewrite Es. by rewrite Z.eqb_refl. }
  rewrite (bind_Ret _ _ _ _ _ Hj). cbn [negb]. clear Hj.
  replace (negb (id =? c) && negb (bool_decide (parent t = Some c))) with false.
  2:{ destruct Hwho as [->|Hp]; [by rewrite Z.eqb_refl|]. rewrite (bool_decide_true _ Hp). by rewrite andb_false_r. }
  destruct (Z.eqb_spec (sid tg) (group t)); [done|]. destruct (Z.eqb_spec (pgid tg) pg); [done|].
  unfold pgroup_remove, pgroup_add. mrun. rewrite bind_assert.
  2:{ apply bool_decide_eq_true, linked_spec. exists (pgid tg). apply Hok. by exists tg. }
  by mrun.
Qed.

(** A process, or its parent, can make it the leader of a new process group: the group leaves its old list and is the first of its
    own, and the lists of process groups and sessions agree with the numbers the groups carry before and after. *)
Theorem setpgid_makes_group k c me id t tg : current k = c -> tasks k !! c = Some me -> 1 <= id <= MAX_PID ->
  tasks k !! id = Some t -> groups k !! group t = Some tg -> groups_ok k ->
  (id = c \/ parent t = Some c) -> sid tg <> group t -> pgid tg <> id ->
  exists k', sys_setpgid id 0 k = Ret 0 k' /\ groups_ok k' /\ groups k' !! group t = Some (set_pgid id tg) /\
    exists rest, pgroup_of k' id = group t :: rest.
Proof.
  intros Hc Em Hid Et Eg Hok Hwho Hlead Hmove. exists (moved (group t) id tg k).
  assert (E : sys_setpgid id 0 k = sys_setpgid id id k).
  { unfold sys_setpgid. destruct (Z.eqb_spec id 0) as [|]; [lia|]. done. }
  rewrite E, (setpgid_run k c me id id t tg) by (done || by left). split_and!; [done|by apply moved_ok|apply lookup_insert_eq|].
  exists (in_list (unlink (group t) (pgroup_list k)) id). unfold pgroup_of, moved. kcbn. change (default [] (?m !! id)) with (in_list m id).
  rewrite in_list_link, decide_True by done. done.
Qed.

(** Joining an existing process group puts the joining group in the wrong list: the code adds it to the list of its own pid where the
    list of the process group it joins is meant.  It then carries the number of a process group whose list it is not in, so
    signals to that process group do not reach it. *)
Theorem setpgid_joins_wrong_list k c me id pg t tg first rest ft : current k = c -> tasks k !! c = Some me ->
  1 <= id <= MAX_PID -> 1 <= pg <= MAX_PID -> id <> pg ->
  tasks k !! id = Some t -> groups k !! group t = Some tg -> groups_ok k ->
  pgroup_of k pg = first :: rest -> groups k !! first = Some ft -> sid ft = sid tg ->
  (id = c \/ parent t = Some c) -> sid tg <> group t -> pgid tg <> pg ->
  exists k' tg', sys_setpgid id pg k = Ret 0 k' /\ groups k' !! group t = Some tg' /\ pgid tg' = pg /\
    group t ∉ pgroup_of k' pg /\ group t ∈ pgroup_of k' id /\ ~ groups_ok k'.
Proof.
  intros Hc Em Hid Hpg Hne Et Eg Hok El Ef Es Hwho Hlead Hmove. eexists _, (set_pgid pg tg).
  split; [eapply setpgid_run; try done; right; by exists first, rest, ft|]. kcbn. split; [apply lookup_insert_eq|]. split; [done|].
  assert (H1 : group t ∉ in_list (link id (group t) (unlink (group t) (pgroup_list k))) pg).
  { rewrite in_list_link, decide_False, in_list_unlink by done. by intros [? _]%list_elem_of_filter. }
  split; [done|]. split.
  - unfold pgroup_of. kcbn. change (default [] (?m !! id)) with (in_list m id). rewrite in_list_link, decide_True by done. apply elem_of_cons. by left.
  - intros [[_ Hl] _]. apply H1, Hl. kcbn. exists (set_pgid pg tg). split; [apply lookup_insert_eq|done].
Qed.

(** ** setsid *)

Lemma leave_session_run k p t x : tasks k !! p = Some t -> groups k !! group t = Some x ->
  tty x = None \/ (1 <= sid x <= MAX_PID /\ is_Some (tasks k !! sid x)) ->
  exists k', task_leave_session p k = Ret tt k' /\ tasks k' = tasks k /\ pgroup_list k' = pgroup_list k /\
    session_list k' = unlink (group t) (session_list k) /\ groups k' = <[group t := set_tty None x]> (groups k) /\ current k' = current k.
Proof.
  intros Et Eg Htty. unfold task_leave_session, session_remove_safe. mrun.
  destruct (tty x) as [y|] eqn:Ey.
  - destruct Htty as [|[Hs [s Es]]]; [done|]. rewrite pid_get_bind by lia.
    rewrite (pid_empty_Some _ _ s) by done. mrun. destruct (bool_decide _); mrun.
    + eexists. split; [reflexivity|]. done.
    + eexists. split; [reflexivity|]. done.
  - eexists. split; [reflexivity|]. split_and!; try done. kcbn. symmetry. apply insert_id. rewrite Eg. f_equal.
    destruct x. cbn in Ey. by rewrite Ey.
Qed.

(** setsid of a process leader that leads no process group or session makes a new session and process group with it as the only
    member and without a terminal, keeps the lists in order, and returns its pid; a group or session leader gets EPERM and
    nothing changes. *)
Theorem setsid_spec k p t x : tasks k !! p = Some t -> group t = p -> groups k !! p = Some x -> 1 <= p <= MAX_PID -> groups_ok k ->
  tty x = None \/ (1 <= sid x <= MAX_PID /\ is_Some (tasks k !! sid x)) ->
  (pgid x = p \/ sid x = p -> task_setsid p k = Ret _EPERM k) /\
  (pgid x <> p -> sid x <> p -> exists k', task_setsid p k = Ret p k' /\ groups_ok k' /\
     groups k' !! p = Some (set_pgid p (set_sid p (set_tty None x)))).
Proof.
  intros Et Eg Ex Hp [Hpg Hse] Htty. unfold task_setsid. split.
  - intros Hlead. mrun. rewrite Eg. mrun. replace ((pgid x =? p) || (sid x =? p)) with true; [done|].
    destruct Hlead as [->| ->]; rewrite Z.eqb_refl; [done|]. by rewrite orb_true_r.
  - intros H1 H2. mrun. rewrite Eg. mrun. rewrite (proj2 (Z.eqb_neq _ _) H1), (proj2 (Z.eqb_neq _ _) H2). cbn [orb].
    destruct (leave_session_run k p t x Et ltac:(by rewrite Eg) Htty) as (k1 & E1 & Ht1 & Hp1 & Hs1 & Hg1 & _). rewrite Eg in *.
    rewrite (bind_Ret _ _ _ _ _ E1). rewrite pid_get_bind, (pid_empty_Some k1 p t) by (lia || congruence). mrun.
    unfold session_add, pgroup_remove_safe, pgroup_add. mrun.
    rewrite (bind_upd_group _ (set_tty None x)) by (kcbn; rewrite Hg1; apply lookup_insert_eq). mrun.
    rewrite (bind_upd_group _ (set_sid p (set_tty None x))) by (kcbn; apply lookup_insert_eq).
    eexists. split; [reflexivity|]. kcbn. rewrite Hg1, Hs1, Hp1, !insert_insert_eq. split; [|apply lookup_insert_eq]. split; kcbn.
    + apply (listed_move _ _ _ _ x (fun x => set_pgid p (set_sid p (set_tty None x)))); done.
    + apply (listed_move _ _ _ _ x (fun x => set_pgid p (set_sid p (set_tty None x)))); done.
Qed.

(** ** Examples *)

(** Tasks 1 and 2 in one session and process group, the second with a terminal. *)
Definition two_tasks : kernel :=
  mk_kernel {[1 := set_group 1 task0; 2 := set_parent (Some 1) (set_group 2 task0)]}
    {[1 := mk_tgroup [1] 1 1 false None false 0; 2 := mk_tgroup [2] 1 1 false (Some 5) false 0]} ∅
    {[1 := [2; 1]]} {[1 := [2; 1]]} ∅ 2 1 [] false.
(** The invariant is decidable. *)
Definition listed_here (gs : gmap Z tgroup) (num : tgroup -> Z) (p g : Z) : Prop :=
  match gs !! g with Some x => num x = p | None => False end.
#[export] Instance listed_here_dec gs num p g : Decision (listed_here gs num p g).
Proof. unfold listed_here. destruct (gs !! g); apply _. Defined.
Lemma listed_check gs num ls :
  map_Forall (fun p l => NoDup l /\ Forall (listed_here gs num p) l) ls /\ map_Forall (fun g x => g ∈ in_list ls (num x)) gs ->
  listed gs num ls.
Proof.
  intros [H1 H2]. split.
  - intros p. unfold in_list. destruct (ls !! p) eqn:E; [by apply (H1 _ _ E)|constructor].
  - intros p g. split; [|intros (x & E & <-); by apply (H2 g)]. unfold in_list. destruct (ls !! p) as [l|] eqn:E; cbn; [|by intros []%elem_of_nil].
    intros Hg. pose proof (proj1 (Forall_elem _ _) (proj2 (H1 _ _ E)) g Hg) as Hx. unfold listed_here in Hx.
    destruct (gs !! g) as [x|]; [by exists x|done].
Qed.

Lemma two_tasks_ok : groups_ok two_tasks.
Proof. split; apply listed_check; split; apply (bool_decide_unpack _); vm_compute; exact I. Qed.

Lemma setpgid_makes_group_witness : exists k', sys_setpgid 2 0 two_tasks = Ret 0 k' /\ groups_ok k'.
Proof.
  destruct (setpgid_makes_group two_tasks 1 (set_group 1 task0) 2 (set_parent (Some 1) (set_group 2 task0))
              (mk_tgroup [2] 1 1 false (Some 5) false 0)) as (k' & E & Hok & _); try reflexivity; [done|apply two_tasks_ok|by right|done|done|].
  exists k'. auto.
Defined.

Lemma setsid_spec_witness : exists k', task_setsid 2 two_tasks = Ret 2 k' /\ groups_ok k'.
Proof.
  destruct (proj2 (setsid_spec two_tasks 2 (set_parent (Some 1) (set_group 2 task0)) (mk_tgroup [2] 1 1 false (Some 5) false 0)
                     eq_refl eq_refl eq_refl ltac:(done) two_tasks_ok ltac:(right; split; [done|by eexists]))) as (k' & E & Hok & _); [done..|].
  exists k'. auto.
Defined.

(** Task 3 leads its own process group in the same session, and task 1 moves task 2 there. *)
Definition three_tasks : kernel :=
  mk_kernel (<[3 := set_group 3 task0]> (tasks two_tasks)) (<[3 := mk_tgroup [3] 1 3 false None false 0]> (groups two_tasks)) ∅
    {[1 := [3; 2; 1]]} {[1 := [2; 1]; 3 := [3]]} ∅ 3 1 [] false.

Lemma three_tasks_ok : groups_ok three_tasks.
Proof. split; apply listed_check; split; apply (bool_decide_unpack _); vm_compute; exact I. Qed.
Lemma setpgid_joins_wrong_list_witness : exists k' tg', sys_setpgid 2 3 three_tasks = Ret 0 k' /\
  groups k' !! 2 = Some tg' /\ pgid tg' = 3 /\ 2 ∉ pgroup_of k' 3 /\ 2 ∈ pgroup_of k' 2 /\ ~ groups_ok k'.
Proof.
  apply (setpgid_joins_wrong_list three_tasks 1 (set_group 1 task0) 2 3 (set_parent (Some 1) (set_group 2 task0))
           (mk_tgroup [2] 1 1 false (Some 5) false 0) 3 [] (mk_tgroup [3] 1 3 false None false 0));
    try reflexivity; try done; [apply three_tasks_ok|by right].
Defined.

(** A process leaving a session that has no other member and whose leader is gone, while it has a terminal, stops the emulator: the code
    dereferences the pid entry of the session, and the lookup returns null for an entry that has become empty. *)
Theorem leave_session_null k p t x y : tasks k !! p = Some t -> groups k !! group t = Some x -> tty x = Some y -> 1 <= sid x <= MAX_PID ->
  tasks k !! sid x = None -> pgroup_of k (sid x) = [] -> session_of k (sid x) = [group t] -> task_leave_session p k = Panic.
Proof.
  intros Et Eg Ey Hs Hn Hp Hse. unfold task_leave_session, session_remove_safe. mrun. rewrite Ey. rewrite pid_get_bind by lia.
  replace (pid_empty _ (sid x)) with true; [done|]. symmetry. unfold pid_empty, session_of, pgroup_of. kcbn.
  change (default [] (unlink (group t) (session_list k) !! sid x)) with (in_list (unlink (group t) (session_list k)) (sid x)).
  rewrite in_list_unlink. change (in_list (session_list k) (sid x)) with (session_of k (sid x)). rewrite Hse.
  rewrite filter_cons_False, filter_nil by auto. rewrite Hn. unfold pgroup_of in Hp. by rewrite Hp.
Qed.

(** Task 2 is left alone in session 4. *)
Definition orphan_session : kernel :=
  mk_kernel {[2 := set_group 2 task0]} {[2 := mk_tgroup [2] 4 2 false (Some 5) false 0]} ∅ {[4 := [2]]} {[2 := [2]]} ∅ 4 2 [] false.
Lemma leave_session_null_witness : task_leave_session 2 orphan_session = Panic.
Proof. apply (leave_session_null orphan_session 2 (set_group 2 task0) (mk_tgroup [2] 4 2 false (Some 5) false 0) 5); (reflexivity || done). Defined.
End Group.
