(* ===== verification/Exit.v ===== *)
(** * Exiting and waiting (kernel/exit.c)

    Ending a task or its group, handing its children to a new parent, telling the parent, and the calls with which a
    parent collects the status.  The address space, files, timers and resource usage a task gives back are not part
    of this state, nor are the mounts that are undone when init dies.  What other threads do while a call sleeps is
    a parameter of [do_wait]. *)

From S2P Require Import Prelude Errno Float80 Cpu Task Signal Group.

Module Exit.
Import Errno Task Signal Group.

(** ** Exiting *)

Definition exit_tgroup (p : Z) : M bool :=
  let! t := get_task p in
  upd_group (group t) (fun g => set_threads (filter (fun x => x <> p) (threads g)) g) ;;
  let! g := get_group (group t) in
  ret (bool_decide (threads g = [])).

Fixpoint first_not_exiting (l : list Z) : M (option Z) :=
  match l with
  | [] => ret None
  | p :: l => let! t := get_task p in if exiting t then first_not_exiting l else ret (Some p)
  end.
(** A thread of the group that is not exiting, or else init. *)
Definition find_new_parent (p : Z) : M (option Z) :=
  let! t := get_task p in
  let! g := get_group (group t) in
  let! q := first_not_exiting (threads g) in
  match q with Some q => ret (Some q) | None => pid_get_task 1 end.

(** One turn of the loop that hands the children over. *)
Definition reparent (c : Z) (np : option Z) (child : Z) : M unit :=
  upd_task child (set_parent np) ;;
  upd_task c (fun t => set_children (filter (fun x => x <> child) (children t)) t) ;;
  let! q := deref np in
  upd_task q (fun t => set_children (child :: children t) t).

(** One round over the pid table when the system halts; the number of tasks found. *)
Fixpoint halt_round (state : Z) (l : list Z) (found : Z) : M Z :=
  match l with
  | [] => ret found
  | i :: l =>
      let! t := pid_get_task i in
      match t with
      | None => halt_round state l found
      | Some p =>
          (if state =? 0 then deliver_signal p SIGTERM_ SIGINFO_NIL
           else if state =? 1 then deliver_signal p SIGKILL_ SIGINFO_NIL
           else modify (fun k => set_kicked (kicked k ++ [p]) k)) ;;
          halt_round state l (found + 1)
      end
  end.
Fixpoint halt_states (l : list Z) : M unit :=
  match l with
  | [] => ret tt
  | s :: l => let! n := halt_round s pid_range 0 in if n =? 0 then ret tt else halt_states l
  end.
Definition halt_system : M unit := halt_states [0; 1; 2] ;; modify (set_halted true).

Definition vfork_notify (p : Z) : M unit := upd_task p (set_vfork_waiting false).

(** What the parent is told; the times are those of the resource usage. *)
Definition child_info (p : Z) (t : task) : siginfo_ := mk_siginfo 0 0 SI_KERNEL_ (si_child p (uid t) (exit_code t) 0 0).

(** The last thread of a group is gone: its leader becomes a zombie and the parent hears of it; without a parent it was init. *)
Definition notify_parent (c leader : Z) : M unit :=
  let! l := get_task leader in
  match parent l with
  | None => halt_system
  | Some p =>
      upd_task leader (set_zombie true) ;;
      let! _ := get_task p in
      let! t := get_task c in
      if exit_signal l =? 0 then ret tt else send_signal p (exit_signal l) (child_info c t)
  end.

Definition exit_finish (c leader : Z) : M unit :=
  vfork_notify c ;;
  (if c =? leader then ret tt else task_destroy c) ;;
  (fun k => Exited k).

Definition do_exit (status : Z) : M unit :=
  let! c := gets current in
  upd_task c (set_exit_code status) ;;
  upd_task c (set_exiting true) ;;
  let! t := get_task c in
  let! sh := deref (sighand_of t) in
  sighand_release sh ;;
  upd_task c (fun t => set_queue [] (set_sighand_of None t)) ;;
  let leader := group t in
  let! np := find_new_parent c in
  for_each (children t) (reparent c np) ;;
  let! dead := exit_tgroup c in
  (if dead then notify_parent c leader else ret tt) ;;
  exit_finish c leader.

Definition do_exit_group (status : Z) : M unit :=
  let! c := gets current in
  let! t := get_task c in
  let! g := get_group (group t) in
  (if doing_group_exit g then ret tt
   else upd_group (group t) (fun g => set_group_exit_code status (set_doing_group_exit true g))) ;;
  let status := if doing_group_exit g then group_exit_code g else status in
  for_each (threads g) (fun p =>
    deliver_signal p SIGKILL_ SIGINFO_NIL ;;
    let! x := get_task p in
    upd_group (group x) (set_stopped false)) ;;
  do_exit status.

Definition sys_exit (status : Z) : M unit := do_exit (u32 (Z.shiftl status 8)).
Definition sys_exit_group (status : Z) : M unit := do_exit_group (u32 (Z.shiftl status 8)).

(** ** Waiting *)

Definition WNOHANG_ : Z := 1.
Definition WUNTRACED_ : Z := 2.
Definition WEXITED_ : Z := 4.
Definition WCONTINUED_ : Z := 8.
Definition WNOWAIT_ : Z := Z.shiftl 1 24.
Definition WALL_ : Z := Z.shiftl 1 30.
Definition P_ALL_ : Z := 0.
Definition P_PID_ : Z := 1.
Definition P_PGID_ : Z := 2.
Definition opt (options flag : Z) : bool := ctrue (Z.land options flag).

(** The members of [info] the calls set. *)
Record winfo := mk_winfo { w_sig : Z; w_pid : Z; w_status : Z }.

Definition reap_if_zombie (p : Z) (info : winfo) (options : Z) : M (option winfo) :=
  let! t := get_task p in
  if negb (zombie t) then ret None
  else
    let! g := get_group (group t) in
    let code := if doing_group_exit g then group_exit_code g else exit_code t in
    let info := mk_winfo (w_sig info) (w_pid info) code in
    if opt options WNOWAIT_ then ret (Some info)
    else
      task_leave_session p ;;
      pgroup_remove (group t) ;;
      modify (fun k => set_groups (delete (group t) (groups k)) k) ;;
      task_destroy p ;;
      ret (Some info).

Definition notify_if_stopped (p : Z) (info : winfo) : M (option winfo) :=
  let! t := get_task p in
  let! g := get_group (group t) in
  if negb (stopped g) || (group_exit_code g =? 0) then ret None
  else upd_group (group t) (set_group_exit_code 0) ;; ret (Some (mk_winfo (w_sig info) (w_pid info) (group_exit_code g))).

Definition reap_if_needed (p : Z) (info : winfo) (options : Z) : M (option winfo) :=
  let! leader := task_is_leader p in
  assert leader ;;
  let! stop := (if opt options WUNTRACED_ then notify_if_stopped p info else ret None) in
  let! dead := (match stop with
                | Some i => ret (Some i)
                | None => if opt options WEXITED_ then reap_if_zombie p info options else ret None
                end) in
  match dead with
  | Some i => ret (Some (mk_winfo SIGCHLD_ (w_pid i) (w_status i)))
  | None =>
      let! t := get_task p in
      if ptrace_stopped t && ctrue (ptrace_signal t) then
        upd_task p (set_ptrace_signal 0) ;;
        ret (Some (mk_winfo (w_sig info) (w_pid info) (Z.lor (Z.shiftl (ptrace_signal t) 8) 0x7f)))
      else ret None
  end.

(** The walk over the children of the calling thread: what was found, and whether there were any. *)
Fixpoint wait_children (l : list Z) (idtype id : Z) (info : winfo) (options : Z) (none : bool) : M (option winfo * winfo * bool) :=
  match l with
  | [] => ret (None, info, none)
  | p :: l =>
      let! leader := task_is_leader p in
      let! t := get_task p in
      let! g := get_group (group t) in
      if negb leader || ((idtype =? P_PGID_) && negb (pgid g =? id)) then wait_children l idtype id info options none
      else
        let info := mk_winfo (w_sig info) p (w_status info) in
        let! r := reap_if_needed p info options in
        match r with
        | Some i => ret (Some i, i, false)
        | None => wait_children l idtype id info options false
        end
  end.
(** The outer loop over the threads of the group; every turn walks the children of the calling thread. *)
Fixpoint wait_threads (l : list Z) (idtype id : Z) (info : winfo) (options : Z) (none : bool) : M (option winfo * winfo * bool) :=
  match l with
  | [] => ret (None, info, none)
  | _ :: l =>
      let! c := gets current in
      let! t := get_task c in
      let! r := wait_children (children t) idtype id info options none in
      match r with
      | (Some i, info, none) => ret (Some i, info, none)
      | (None, info, none) => wait_threads l idtype id info options none
      end
  end.

Definition wait_options : Z := Z.lor (Z.lor (Z.lor (Z.lor (Z.lor WNOHANG_ WUNTRACED_) WEXITED_) WCONTINUED_) WNOWAIT_) WALL_.

(** One look for a child; [inl] ends the call. *)
Definition wait_once (idtype id : Z) (info : winfo) (options : Z) : M ((Z * winfo) + winfo) :=
  let! c := gets current in
  let! t := get_task c in
  if negb (idtype =? P_PID_) then
    let! g := get_group (group t) in
    let! r := wait_threads (threads g) idtype id info options true in
    match r with
    | (Some i, _, _) => ret (inl (0, i))
    | (None, info, none) => ret (if none then inl (_ECHILD, info) else inr info)
    end
  else
    let! p := pid_get_task_zombie id in
    match p with
    | None => ret (inl (_ECHILD, info))
    | Some p =>
        let! x := get_task p in
        match parent x with
        | None => ret (inl (_ECHILD, info))
        | Some q =>
            let! y := get_task q in
            if negb (group y =? group t) then ret (inl (_ECHILD, info))
            else
              let info := mk_winfo (w_sig info) id (w_status info) in
              let! r := reap_if_needed (group x) info options in
              match r with Some i => ret (inl (0, i)) | None => ret (inr info) end
        end
    end.

(** [sleep i] is the [i]th wait on [child_exit]: its result, and what other threads do meanwhile.  [None] when [fuel] looks do not
    end the call. *)
Fixpoint wait_loop (fuel : nat) (sleep : nat -> M Z) (i : nat) (idtype id : Z) (info : winfo) (options : Z) (got_signal : bool)
    : M (option (Z * winfo)) :=
  match fuel with
  | O => ret None
  | S fuel =>
      let! r := wait_once idtype id info options in
      match r with
      | inl res => ret (Some res)
      | inr info =>
          let info := mk_winfo (w_sig info) 0 (w_status info) in
          if opt options WNOHANG_ then ret (Some (0, mk_winfo SIGCHLD_ 0 (w_status info)))
          else if got_signal then ret (Some (_EINTR, info))
          else
            let! e := sleep i in
            wait_loop fuel sleep (S i) idtype id info options (negb (e =? 0))
      end
  end.

Definition do_wait (fuel : nat) (sleep : nat -> M Z) (idtype id : Z) (info : winfo) (options : Z) : M (option (Z * winfo)) :=
  if negb (idtype =? P_ALL_) && negb (idtype =? P_PID_) && negb (idtype =? P_PGID_) then ret (Some (_EINVAL, info))
  else if ctrue (Z.land options (u32 (Z.lnot wait_options))) then ret (Some (_EINVAL, info))
  else wait_loop fuel sleep 0 idtype id info options false.

(** The results of the calls: the value returned, and the status or information stored if the address is not null; [stored] says
    whether the stores succeed. *)
Definition sys_waitid (fuel : nat) (sleep : nat -> M Z) (idtype id : Z) (addr stored : bool) (options : Z) : M (option (Z * option winfo)) :=
  let! r := do_wait fuel sleep idtype id (mk_winfo 0 0 0) options in
  match r with
  | None => ret None
  | Some (res, info) =>
      if (res <? 0) || ((res =? 0) && (w_pid info =? 0)) then ret (Some (res, None))
      else if addr then ret (Some (if stored then (0, Some info) else (_EFAULT, None)))
      else ret (Some (0, None))
  end.

Definition sys_wait4 (fuel : nat) (sleep : nat -> M Z) (id : Z) (addr stored : bool) (options : Z) : M (option (Z * option Z)) :=
  if opt options WNOWAIT_ then ret (Some (_EINVAL, None))
  else
    let! c := gets current in
    let! t := get_task c in
    let! g := get_group (group t) in
    let '(idtype, id) :=
      if id >? 0 then (P_PID_, id)
      else if id =? -1 then (P_ALL_, id)
      else (P_PGID_, if id =? 0 then pgid g else - id) in
    let! r := do_wait fuel sleep idtype id (mk_winfo 0 0xbaba 0) (Z.lor options WEXITED_) in
    match r with
    | None => ret None
    | Some (res, info) =>
        if (res <? 0) || ((res =? 0) && (w_pid info =? 0)) then ret (Some (res, None))
        else if addr && negb stored then ret (Some (_EFAULT, None))
        else ret (Some (w_pid info, if addr then Some (w_status info) else None))
    end.
Definition sys_waitpid (fuel : nat) (sleep : nat -> M Z) (pid : Z) (addr stored : bool) (options : Z) : M (option (Z * option Z)) :=
  sys_wait4 fuel sleep pid addr stored options.

(** ** Exiting does not return *)

Lemma bind_noreturn {A B} (m : M A) (f : A -> M B) : (forall a k b k', f a k <> Ret b k') -> forall k b k', bind m f k <> Ret b k'.
Proof. intros Hf k b k'. unfold bind. destruct (m k); [apply Hf|done..]. Qed.

Lemma do_exit_noreturn s k a k' : do_exit s k <> Ret a k'.
Proof. revert k a k'. unfold do_exit, exit_finish. repeat (apply bind_noreturn; intros ?). done. Qed.

(** The promise to the signal code is kept. *)
#[export] Instance exit_group_noreturn : Noreturn do_exit_group.
Proof. intros s. unfold do_exit_group, do_exit, exit_finish. repeat (apply bind_noreturn; intros ?). done. Qed.

(** ** The family tree *)

Definition par (k : kernel) (x : Z) : option Z := tasks k !! x ≫= parent.
Definition kids (k : kernel) (x : Z) : option (list Z) := children <$> tasks k !! x.

(** Parent pointers and lists of children describe one relation. *)
Record tree_ok (k : kernel) : Prop := {
  tr_nodup : forall p l, kids k p = Some l -> NoDup l;
  tr_iff : forall x p, par k x = Some p <-> exists l, kids k p = Some l /\ x ∈ l }.

Lemma tree_ext k k' : (forall x, par k' x = par k x) -> (forall x, kids k' x = kids k x) -> tree_ok k -> tree_ok k'.
Proof. intros Hp Hk [H1 H2]. split; [intros p l; rewrite Hk; apply H1|intros x p; rewrite Hp, Hk; apply H2]. Qed.

Lemma par_upd k p t x : par (set_tasks (<[p := t]> (tasks k)) k) x = if decide (x = p) then parent t else par k x.
Proof. unfold par. kcbn. destruct (decide (x = p)) as [->|]; [by rewrite lookup_insert_eq|by rewrite lookup_insert_ne]. Qed.
Lemma kids_upd k p t x : kids (set_tasks (<[p := t]> (tasks k)) k) x = if decide (x = p) then Some (children t) else kids k x.
Proof. unfold kids. kcbn. destruct (decide (x = p)) as [->|]; [by rewrite lookup_insert_eq|by rewrite lookup_insert_ne]. Qed.

Lemma tree_upd_other p f : (forall t, parent (f t) = parent t) -> (forall t, children (f t) = children t) -> preserves tree_ok (upd_task p f).
Proof.
  intros Hp Hc. apply preserves_upd_task. intros k t HP E. apply (tree_ext k); [..|done]; intros x; [rewrite par_upd|rewrite kids_upd];
    destruct (decide (x = p)) as [->|]; try done; [rewrite Hp; unfold par|rewrite Hc; unfold kids]; by rewrite E.
Qed.
Lemma tree_modify f : (forall k, tasks (f k) = tasks k) -> preserves tree_ok (modify f).
Proof. intros Hf. apply preserves_modify. intros k. apply tree_ext; intros x; unfold par, kids; by rewrite Hf. Qed.
Lemma tree_upd_group g f : preserves tree_ok (upd_group g f).
Proof. apply preserves_upd_group. intros k x HP _. by apply (tree_ext k). Qed.
Lemma tree_upd_sighand g f : preserves tree_ok (upd_sighand g f).
Proof. apply preserves_upd_sighand. intros k i x HP _. by apply (tree_ext k). Qed.

(** Creating a task keeps the tree: the new one is a leaf below its parent. *)
Lemma tree_created k p q t : tree_ok k -> tasks k !! q = Some t -> tasks k !! p = None -> tree_ok (created p q t k).
Proof.
  intros [H1 H2] Eq Ep. assert (Hpq : p <> q) by congruence.
  assert (Hp' : forall x, par (created p q t k) x = if decide (x = p) then Some q else par k x).
  { intros x. unfold par, created. kcbn. destruct (decide (x = p)) as [->|]; [by rewrite lookup_insert_eq|]. rewrite lookup_insert_ne by done.
    destruct (decide (x = q)) as [->|]; [by rewrite lookup_insert_eq, Eq|by rewrite lookup_insert_ne]. }
  assert (Hk' : forall x, kids (created p q t k) x = if decide (x = p) then Some [] else if decide (x = q) then Some (p :: children t) else kids k x).
  { intros x. unfold kids, created. kcbn. destruct (decide (x = p)) as [->|]; [by rewrite lookup_insert_eq|]. rewrite lookup_insert_ne by done.
    destruct (decide (x = q)) as [->|]; [by rewrite lookup_insert_eq|by rewrite lookup_insert_ne]. }
  assert (Kq : kids k q = Some (children t)) by (unfold kids; by rewrite Eq).
  assert (Pp : par k p = None) by (unfold par; by rewrite Ep).
  assert (Hnot : forall x l, kids k x = Some l -> p ∉ l).
  { intros x l Hx Hin. assert (E : par k p = Some x) by (apply H2; by exists l). congruence. }
  split.
  - intros x l. rewrite Hk'. destruct (decide (x = p)); [intros [= <-]; constructor|]. destruct (decide (x = q)); [|apply H1].
    intros [= <-]. apply NoDup_cons. split; [by apply (Hnot q)|by apply (H1 q)].
  - intros x y. rewrite Hp', Hk'. destruct (decide (x = p)) as [->|Hx].
    + split; [intros [= <-]; exists (p :: children t); rewrite decide_False, decide_True by done; split; [done|apply elem_of_cons; by left]|].
      intros (l & El & Hin). destruct (decide (y = p)); [injection El as <-; by apply elem_of_nil in Hin|].
      destruct (decide (y = q)) as [->|]; [done|]. by destruct (Hnot y l El).
    + rewrite H2. destruct (decide (y = p)) as [->|].
      * split; [intros (l & El & _); unfold kids in El; by rewrite Ep in El|intros (l & [= <-] & []%elem_of_nil)].
      * destruct (decide (y = q)) as [->|]; [|done]. rewrite Kq. split; [intros (l & [= <-] & Hin)|intros (l & [= <-] & [->|Hin]%elem_of_cons)].
        -- eexists. split; [done|]. apply elem_of_cons. by right.
        -- done.
        -- by eexists.
Qed.

(** Taking a node out of its list and putting it elsewhere, on parent pointers and lists as functions. *)
Lemma tree_move k k' c q x l0 lq : tree_ok k -> kids k c = Some l0 -> x ∈ l0 -> kids k q = Some lq ->
  (forall y, par k' y = if decide (y = x) then Some q else par k y) ->
  (forall y, kids k' y = (if decide (y = q) then cons x else id) <$> ((if decide (y = c) then filter (fun z => z <> x) else id) <$> kids k y)) ->
  tree_ok k'.
Proof.
  intros [H1 H2] Kc Hx Kq Hp Hk. assert (Px : par k x = Some c) by (apply H2; by exists l0).
  assert (Honly : forall y l, kids k y = Some l -> x ∈ l -> y = c).
  { intros y l Hy Hin. assert (E : par k x = Some y) by (apply H2; by exists l). congruence. }
  assert (Hmem : forall y l, kids k y = Some l -> exists l', kids k' y = Some l' /\
            (forall z, z <> x -> z ∈ l' <-> z ∈ l) /\ (x ∈ l' <-> y = q) /\ NoDup l').
  { intros y l Hy. rewrite Hk, Hy. cbn. eexists. split; [reflexivity|]. pose proof (H1 _ _ Hy) as Hnd.
    set (l1 := (if decide (y = c) then filter (fun z => z <> x) else id) l).
    assert (Hl1 : (forall z, z <> x -> z ∈ l1 <-> z ∈ l) /\ x ∉ l1 /\ NoDup l1).
    { unfold l1. destruct (decide (y = c)) as [->|Hyc].
      - split_and!; [intros z Hz; rewrite list_elem_of_filter; tauto|by intros [? _]%list_elem_of_filter|by apply NoDup_filter].
      - split_and!; [done|intros Hin; by apply Hyc, (Honly y l)|done]. }
    destruct Hl1 as (Ha & Hb & Hd). destruct (decide (y = q)) as [->|]; cbn.
    - split_and!; [intros z Hz; rewrite elem_of_cons, Ha by done; tauto|rewrite elem_of_cons; tauto|by apply NoDup_cons].
    - split_and!; [done|tauto|done]. }
  assert (Hback : forall y l', kids k' y = Some l' -> is_Some (kids k y)).
  { intros y l'. rewrite Hk. destruct (kids k y); [by eexists|done]. }
  split.
  - intros y l' E. destruct (Hback y l' E) as [l El]. destruct (Hmem y l El) as (l2 & E2 & _ & _ & Hnd). congruence.
  - intros y p. rewrite Hp. destruct (decide (y = x)) as [->|Hy].
    + split.
      * intros [= <-]. destruct (Hmem q lq Kq) as (l2 & E2 & _ & Hin & _). exists l2. split; [done|by apply Hin].
      * intros (l' & E & Hin). destruct (Hback p l' E) as [l El]. destruct (Hmem p l El) as (l2 & E2 & _ & Hin2 & _).
        f_equal. symmetry. apply Hin2. congruence.
    + rewrite H2. split; intros (l & El & Hin).
      * destruct (Hmem p l El) as (l2 & E2 & Ha & _). exists l2. split; [done|by apply Ha].
      * destruct (Hback p l El) as [l1 E1]. destruct (Hmem p l1 E1) as (l2 & E2 & Ha & _). exists l1. split; [done|]. apply Ha; [done|congruence].
Qed.

(** Tasks that differ in their relatives only. *)
Definition kin (t t' : task) : Prop := t' = set_parent (parent t') (set_children (children t') t).
Lemma kin_trans t1 t2 t3 : kin t1 t2 -> kin t2 t3 -> kin t1 t3.
Proof. unfold kin. intros -> ->. by destruct t1. Qed.
Lemma kin_upd (m : gmap Z task) f y t z t' : (forall u, kin u (f u)) -> m !! y = Some t -> m !! z = Some t' ->
  exists t'', <[z := f t']> m !! y = Some t'' /\ kin t t''.
Proof.
  intros Hf Ey Ez. destruct (decide (z = y)) as [->|]; [rewrite lookup_insert_eq|rewrite lookup_insert_ne by done].
  - exists (f t'). split; [done|]. assert (t' = t) as -> by congruence. apply Hf.
  - exists t. split; [done|]. by destruct t.
Qed.

(** One turn of the loop, when the child and the new parent exist. *)
Lemma reparent_step k c q x tc : tree_ok k -> tasks k !! c = Some tc -> x ∈ children tc -> is_Some (tasks k !! q) ->
  exists k', reparent c (Some q) x k = Ret tt k' /\ tree_ok k' /\ par k' x = Some q /\
    (forall y, y <> x -> par k' y = par k y) /\
    kids k' c = Some ((if decide (c = q) then cons x else id) (filter (fun z => z <> x) (children tc))) /\
    (forall y t, tasks k !! y = Some t -> exists t', tasks k' !! y = Some t' /\ kin t t') /\
    k' = set_tasks (tasks k') k.
Proof.
  intros Htree Ec Hx [tq Eq]. assert (Kc : kids k c = Some (children tc)) by (unfold kids; by rewrite Ec).
  assert (Px : par k x = Some c) by (apply (tr_iff k Htree); by exists (children tc)).
  destruct (tasks k !! x) as [tx|] eqn:Ex; [|unfold par in Px; by rewrite Ex in Px].
  unfold reparent. rewrite (bind_upd_task _ _ _ _ _ Ex). set (k1 := set_tasks _ k).
  assert (E1 : exists t1, tasks k1 !! c = Some t1 /\ children t1 = children tc).
  { unfold k1. kcbn. destruct (decide (x = c)) as [->|]; [rewrite lookup_insert_eq|rewrite lookup_insert_ne by done].
    - eexists. split; [done|]. cbn. congruence.
    - by exists tc. }
  destruct E1 as (t1 & E1 & Ht1). rewrite (bind_upd_task _ _ _ _ _ E1). set (k2 := set_tasks _ k1). rewrite bind_deref.
  assert (E2 : exists t2, tasks k2 !! q = Some t2) by (unfold k2, k1; kcbn; destruct (decide (c = q)) as [->|];
    [rewrite lookup_insert_eq; by eexists|rewrite lookup_insert_ne by done; destruct (decide (x = q)) as [->|];
      [rewrite lookup_insert_eq; by eexists|rewrite lookup_insert_ne by done; by eexists]]).
  destruct E2 as (t2 & E2). rewrite (upd_task_eq _ _ _ _ E2). set (k3 := set_tasks _ k2).
  assert (Hp : forall y, par k3 y = if decide (y = x) then Some q else par k y).
  { intros y. unfold k3. rewrite par_upd. cbn [parent set_children].
    assert (Hp2 : forall y, par k2 y = if decide (y = x) then Some q else par k y).
    { intros z. unfold k2. rewrite par_upd. cbn [parent set_children].
      assert (Hp1 : par k1 z = if decide (z = x) then Some q else par k z) by (unfold k1; by rewrite par_upd).
      destruct (decide (z = c)) as [->|]; [|done]. rewrite <- Hp1. unfold par. by rewrite E1. }
    destruct (decide (y = q)) as [->|]; [|done]. rewrite <- Hp2. unfold par. by rewrite E2. }
  assert (Hk1 : forall y, kids k1 y = kids k y).
  { intros y. unfold k1. rewrite kids_upd. destruct (decide (y = x)) as [->|]; [|done]. unfold kids. by rewrite Ex. }
  assert (Hk2 : forall y, kids k2 y = (if decide (y = c) then filter (fun z => z <> x) else id) <$> kids k y).
  { intros y. unfold k2. rewrite kids_upd. destruct (decide (y = c)) as [->|].
    - rewrite Kc. cbn [fmap option_fmap option_map children set_children]. by rewrite Ht1.
    - rewrite Hk1. by destruct (kids k y). }
  assert (Hk : forall y, kids k3 y = (if decide (y = q) then cons x else id) <$> ((if decide (y = c) then filter (fun z => z <> x) else id) <$> kids k y)).
  { intros y. unfold k3. rewrite kids_upd. rewrite <- Hk2. destruct (decide (y = q)) as [->|].
    - unfold kids. rewrite E2. done.
    - by destruct (kids k2 y). }
  assert (Kq : exists lq, kids k q = Some lq) by (unfold kids; rewrite Eq; by eexists). destruct Kq as [lq Kq].
  exists k3. split; [done|]. split; [by apply (tree_move k k3 c q x (children tc) lq)|]. split; [rewrite Hp; by rewrite decide_True|].
  split; [intros y Hy; rewrite Hp; by rewrite decide_False|]. split.
  { rewrite Hk, Kc, (decide_True (P := c = c)) by done. done. }
  split; [|done].
  intros y t Ey. destruct (kin_upd _ (set_parent (Some q)) y t x tx ltac:(by intros []) Ey Ex) as (u1 & F1 & G1).
  destruct (kin_upd (tasks k1) (fun t => set_children (filter (fun z => z <> x) (children t)) t) y u1 c t1 ltac:(by intros []) F1 E1) as (u2 & F2 & G2).
  destruct (kin_upd (tasks k2) (fun t => set_children (x :: children t) t) y u2 q t2 ltac:(by intros []) F2 E2) as (u3 & F3 & G3).
  exists u3. split; [exact F3|]. eauto using kin_trans.
Qed.

Lemma filter_head (x : Z) l : NoDup (x :: l) -> filter (fun z => z <> x) (x :: l) = l.
Proof.
  intros [Hx _]%NoDup_cons. rewrite filter_cons_False by auto. apply filter_all. intros y Hy ->. done.
Qed.

(** The whole loop. *)
Lemma reparent_all c q l : c <> q -> forall k tc, tree_ok k -> tasks k !! c = Some tc -> children tc = l -> is_Some (tasks k !! q) ->
  exists k', for_each l (reparent c (Some q)) k = Ret tt k' /\ tree_ok k' /\ (forall x, x ∈ l -> par k' x = Some q) /\
    (forall y, y ∉ l -> par k' y = par k y) /\ kids k' c = Some [] /\
    (forall y t, tasks k !! y = Some t -> exists t', tasks k' !! y = Some t' /\ kin t t') /\ k' = set_tasks (tasks k') k.
Proof.
  intros Hcq. induction l as [|x l IH]; intros k tc Ht Ec El Hq.
  { exists k. split_and!; try done; [by intros x []%elem_of_nil|unfold kids; by rewrite Ec, <- El|intros y t Ey; exists t; split; [done|by destruct t]|by destruct k]. }
  assert (Hnd : NoDup (x :: l)) by (apply (tr_nodup k Ht c); unfold kids; by rewrite Ec, <- El).
  destruct (reparent_step k c q x tc Ht Ec) as (k1 & E1 & T1 & Px & Py & K1 & F1 & S1); [rewrite El; apply elem_of_cons; by left|done|].
  cbn [for_each]. rewrite (bind_Ret _ _ _ _ _ E1). destruct (F1 c tc Ec) as (tc1 & Ec1 & _). destruct Hq as [tq Eq]. destruct (F1 q tq Eq) as (tq1 & Eq1 & _).
  assert (Hl : children tc1 = l).
  { unfold kids in K1. rewrite Ec1, decide_False, El, filter_head in K1 by done. by injection K1. }
  destruct (IH k1 tc1 T1 Ec1 Hl) as (k' & E' & T' & Q' & O' & K' & F' & S'); [by exists tq1|].
  exists k'. split_and!; [done|done| | |done| |].
  - intros y [->|Hy]%elem_of_cons; [|auto]. apply NoDup_cons in Hnd as [Hx _]. by rewrite O'.
  - intros y [Hy Hyl]%not_elem_of_cons. rewrite O' by done. auto.
  - intros y t Ey. destruct (F1 y t Ey) as (t1 & E & G). destruct (F' y t1 E) as (t2 & E2 & G2). exists t2. eauto using kin_trans.
  - rewrite S', S1. reflexivity.
Qed.

Lemma sighand_release_run k i sh : sighands k !! i = Some sh ->
  exists shs, sighand_release i k = Ret tt (set_sighands shs k) /\ forall j, j <> i -> shs !! j = sighands k !! j.
Proof.
  intros E. unfold sighand_release. rewrite (bind_get_sighand (Some i) i sh _ _ eq_refl E). destruct (refcount sh - 1 =? 0).
  - exists (delete i (sighands k)). split; [done|]. intros j Hj. by rewrite lookup_delete_ne.
  - rewrite (upd_sighand_eq (Some i) i sh _ _ eq_refl E). eexists. split; [done|]. intros j Hj. by rewrite lookup_insert_ne.
Qed.

Lemma tree_sent k k' : sent k k' -> (forall x, tasks k' !! x = None <-> tasks k !! x = None) -> tree_ok k -> tree_ok k'.
Proof.
  intros (_ & _ & _ & _ & E) Hn. apply tree_ext; intros x.
  - unfold par. destruct (tasks k !! x) as [t|] eqn:Ex; [destruct (E x t Ex) as (t' & -> & _ & _ & _ & _ & _ & _ & _ & Hp & _); exact Hp|by rewrite (proj2 (Hn x))].
  - unfold kids. destruct (tasks k !! x) as [t|] eqn:Ex; [destruct (E x t Ex) as (t' & -> & _ & _ & _ & _ & _ & _ & _ & _ & Hc & _); cbn; by rewrite Hc|by rewrite (proj2 (Hn x))].
Qed.

(** A process with one thread that can exit: it has a parent and a handler table of its own, and init is there. *)
Record can_exit (k : kernel) (c p i : Z) (t : task) (g : tgroup) : Prop := {
  ce_current : current k = c;
  ce_task : tasks k !! c = Some t;
  ce_leader : group t = c;
  ce_group : groups k !! c = Some g;
  ce_threads : threads g = [c];
  ce_sighand : sighand_of t = Some i;
  ce_actions : is_Some (sighands k !! i);
  ce_parent : parent t = Some p;
  ce_other : p <> c;
  ce_live : live k p;
  ce_apart : forall tp, tasks k !! p = Some tp -> sighand_of tp <> Some i;
  ce_init : c <> 1 /\ exists t1, tasks k !! 1 = Some t1 /\ zombie t1 = false;
  ce_signal : 0 <= exit_signal t < 64;
  ce_tree : tree_ok k }.

(** The task as it is when it looks for someone to take its children. *)
Definition leaving (status : Z) (t : task) : task :=
  set_queue [] (set_sighand_of None (set_exiting true (set_exit_code status t))).

Lemma do_exit_prepare status k c p i t g : can_exit k c p i t g -> exists shs k1,
  (forall j, j <> i -> shs !! j = sighands k !! j) /\
  k1 = set_tasks (<[c := leaving status t]> (tasks k)) (set_sighands shs k) /\ tree_ok k1 /\
  do_exit status k =
  (for_each (children t) (reparent c (Some 1)) ;;
   let! dead := exit_tgroup c in
   (if dead then notify_parent c c else ret tt) ;;
   exit_finish c c) k1.
Proof.
  intros [Hc Et Hl Eg Hth Es [sh Esh] Hp Hne Hlive Hapart (Hc1 & t1 & E1 & Z1) Hsig Htree].
  destruct (sighand_release_run k i sh Esh) as (shs & _ & Hshs0).
  unfold do_exit. rewrite bind_gets, Hc. mrun.
  erewrite bind_upd_task by apply lookup_insert_eq. erewrite bind_get_task by apply lookup_insert_eq. cbn [sighand_of set_exiting set_exit_code]. rewrite Es, bind_deref.
  edestruct (sighand_release_run (set_tasks (<[c := set_exiting true (set_exit_code status t)]> (<[c := set_exit_code status t]> (tasks k)))
                                   (set_tasks (<[c := set_exit_code status t]> (tasks k)) k)) i sh) as (shs' & Er & Hshs); [exact Esh|].
  rewrite (bind_Ret _ _ _ _ _ Er). erewrite bind_upd_task by apply lookup_insert_eq. kcbn. rewrite !insert_insert_eq.
  fold (leaving status t). set (k1 := set_tasks (<[c := leaving status t]> (tasks k)) _).
  exists shs', (set_tasks (<[c := leaving status t]> (tasks k)) (set_sighands shs' k)). split; [done|]. split; [done|].
  change (set_tasks (<[c := leaving status t]> (tasks k)) (set_sighands shs' k)) with k1.
  assert (T1 : tree_ok k1).
  { assert (Hpr : preserves tree_ok (upd_task c (leaving status))) by by apply tree_upd_other.
    assert (T : tree_ok (set_tasks (<[c := leaving status t]> (tasks k)) k)) by (apply (Hpr k tt); [done|by rewrite (upd_task_eq _ _ _ _ Et)]).
    by apply (tree_ext (set_tasks (<[c := leaving status t]> (tasks k)) k)). }
  split; [done|].
  assert (Hnp : find_new_parent c k1 = Ret (Some 1) k1).
  { unfold find_new_parent, k1. erewrite bind_get_task by (kcbn; apply lookup_insert_eq). cbn [group leaving set_queue set_sighand_of set_exiting set_exit_code].
    rewrite Hl, (bind_get_group _ g), Hth by done. cbn [first_not_exiting]. rewrite bind_assoc. erewrite bind_get_task by (kcbn; apply lookup_insert_eq).
    cbn [exiting leaving set_queue set_sighand_of set_exiting]. rewrite bind_ret_l, pid_get_task_in_range by done. kcbn. rewrite lookup_insert_ne by done. by rewrite E1, Z1. }
  cbn [group children set_exiting set_exit_code]. rewrite (bind_Ret _ _ _ _ _ Hnp), Hl. reflexivity.
Qed.

(** Telling the parent of a leader, when the parent can be told. *)
Lemma notify_parent_run k c t p : tree_ok k -> tasks k !! c = Some t -> parent t = Some p -> p <> c -> live k p -> 0 <= exit_signal t < 64 ->
  exists k', notify_parent c c k = Ret tt k' /\ tree_ok k' /\ tasks k' !! c = Some (set_zombie true t) /\ sighands k' = sighands k /\
    (forall x, par k' x = par k x) /\ (exit_signal t <> 0 -> received k k' (exit_signal t) p).
Proof.
  intros T Et Hp Hne Hlive Hsig. unfold notify_parent. rewrite (bind_get_task _ _ _ _ Et), Hp, (bind_upd_task _ _ _ _ _ Et).
  set (k4 := set_tasks _ k).
  assert (T4 : tree_ok k4).
  { assert (Hpr : preserves tree_ok (upd_task c (set_zombie true))) by by apply tree_upd_other.
    apply (Hpr k tt); [done|by rewrite (upd_task_eq _ t)]. }
  assert (P4 : forall x, par k4 x = par k x).
  { intros x. unfold k4. rewrite par_upd. destruct (decide (x = c)) as [->|]; [|done]. unfold par. by rewrite Et. }
  assert (O4 : forall x, x <> c -> tasks k4 !! x = tasks k !! x) by (intros x Hx; unfold k4; kcbn; by rewrite lookup_insert_ne).
  assert (E4 : tasks k4 !! c = Some (set_zombie true t)) by apply lookup_insert_eq.
  assert (Lp : live k4 p).
  { destruct Hlive as (tp & j & shp & Ep & H). exists tp, j, shp. by rewrite O4. }
  pose proof Lp as (tp & _ & _ & Ep & _). rewrite (bind_get_task _ _ _ _ Ep), (bind_get_task _ _ _ _ E4).
  destruct (Z.eqb_spec (exit_signal t) 0) as [H0|H0]; [by exists k4|].
  destruct (send_total k4 p tp (exit_signal t) (child_info c (set_zombie true t)) Lp Ep Hsig) as (k5 & E5 & S5 & O5 & R5).
  pose proof S5 as (_ & Hsh5 & _ & _ & F5). destruct (F5 p tp Ep) as (tp5 & Ep5 & _ & _ & _ & _ & _ & _ & _ & Hpp & _).
  exists k5. split_and!; [done| |by rewrite O5|done| |].
  - apply (tree_sent k4); [done| |done]. intros x. destruct (decide (x = p)) as [->|]; [by rewrite Ep, Ep5|by rewrite O5].
  - intros x. rewrite <- P4. unfold par. destruct (decide (x = p)) as [->|]; [|by rewrite O5]. rewrite Ep, Ep5. exact Hpp.
  - intros _ tq j sh Hq Hj Hsh Hz Hd. rewrite <- O4, Ep in Hq by done. injection Hq as <-. apply R5; [done|done|].
    intros j' sh' Hj' Hsh'. assert (j' = j) as -> by congruence. assert (sh' = sh) as -> by (change (sighands k4) with (sighands k) in Hsh'; congruence). done.
Qed.

(** C23: Exiting, for a process with one thread: it ends, and leaves a zombie that has no signals queued and no children, with the status
    its parent will read; every child has gone to init; the tree of parents and children is in order; and the parent has
    the signal it asked for, unless it ignores it. *)
Theorem do_exit_spec status k c p i t g : can_exit k c p i t g -> exists k' t',
  do_exit status k = Exited k' /\ tasks k' !! c = Some t' /\ zombie t' = true /\ exit_code t' = status /\ group t' = c /\
  queue t' = [] /\ sighand_of t' = None /\ children t' = [] /\ parent t' = Some p /\ tree_ok k' /\
  (forall x, x ∈ children t -> par k' x = Some 1) /\
  (exit_signal t <> 0 -> received k k' (exit_signal t) p).
Proof.
  intros Hce. destruct (do_exit_prepare status k c p i t g Hce) as (shs & k1 & Hshs & Ek1 & T1 & ->).
  destruct Hce as [Hc Et Hl Eg Hth Es _ Hp Hne Hlive Hapart (Hc1 & t1 & E1 & Z1) Hsig Htree].
  assert (Ec1 : tasks k1 !! c = Some (leaving status t)) by (rewrite Ek1; kcbn; apply lookup_insert_eq).
  assert (O1 : forall x, x <> c -> tasks k1 !! x = tasks k !! x) by (intros x Hx; rewrite Ek1; kcbn; by rewrite lookup_insert_ne).
  destruct (reparent_all c 1 (children t) Hc1 k1 (leaving status t) T1 Ec1 eq_refl) as (k2 & E2 & T2 & Q2 & O2 & K2 & F2 & S2).
  { rewrite O1 by done. by eexists. }
  rewrite (bind_Ret _ _ _ _ _ E2). destruct (F2 c _ Ec1) as (t2 & Et2 & G2).
  assert (Hgr2 : groups k2 = groups k) by (rewrite S2, Ek1; done). assert (Hsh2 : sighands k2 = shs) by (rewrite S2, Ek1; done).
  assert (Hg2 : group t2 = c) by (rewrite G2; exact Hl).
  assert (Hp2 : parent t2 = Some p).
  { assert (Hself : c ∉ children t).
    { intros Hin. assert (E : par k c = Some c) by (apply Htree; exists (children t); unfold kids; by rewrite Et).
      unfold par in E. rewrite Et in E. cbn in E. congruence. }
    pose proof (O2 c Hself) as O. unfold par in O. rewrite Et2, Ec1 in O. cbn in O. by rewrite O. }
  assert (Hk2 : children t2 = []) by (unfold kids in K2; rewrite Et2 in K2; by injection K2).
  unfold exit_tgroup. rewrite bind_assoc. erewrite bind_get_task by exact Et2. rewrite Hg2, bind_assoc.
  rewrite (bind_upd_group _ g) by by rewrite Hgr2. rewrite bind_assoc. erewrite bind_get_group by apply lookup_insert_eq.
  cbn [threads set_threads]. rewrite Hth, filter_head by apply NoDup_singleton. rewrite bind_ret_l, (bool_decide_true ([] = [])) by done. cbn match.
  set (k3 := set_groups _ k2).
  assert (Hfam : forall tp, tasks k !! p = Some tp -> exists tp2, tasks k3 !! p = Some tp2 /\ kin tp tp2) by (intros tp Ep; apply (F2 p); by rewrite O1).
  assert (Lp : live k3 p).
  { destruct Hlive as (tp & j & shp & Ep & Ej & Eshp & Hlen & Hgp). destruct (Hfam tp Ep) as (tp2 & Ep2 & Gp2). exists tp2, j, shp.
    unfold k3. kcbn. rewrite Hsh2, Hshs, Hgr2 by (intros ->; by apply (Hapart tp)). split_and!; [done|rewrite Gp2; exact Ej|done|done|].
    replace (group tp2) with (group tp) by (rewrite Gp2; done).
    destruct (decide (group tp = c)) as [->|]; [rewrite lookup_insert_eq; by eexists|by rewrite lookup_insert_ne]. }
  assert (Hes : exit_signal t2 = exit_signal t) by (rewrite G2; done).
  destruct (notify_parent_run k3 c t2 p) as (k5 & E5 & T5 & Et5 & Sh5 & P5 & R5); [by apply (tree_ext k2)|done|done|done|done|by rewrite Hes|].
  rewrite (bind_Ret _ _ _ _ _ E5). unfold exit_finish, vfork_notify. rewrite (bind_upd_task _ _ _ _ _ Et5), Z.eqb_refl, bind_ret_l.
  eexists _, (set_vfork_waiting false (set_zombie true t2)). split; [reflexivity|]. split; [apply lookup_insert_eq|].
  split_and!; try done; try (rewrite G2; done).
  - assert (Hpr : preserves tree_ok (upd_task c (set_vfork_waiting false))) by by apply tree_upd_other.
    apply (Hpr k5 tt); [done|by rewrite (upd_task_eq _ _ _ _ Et5)].
  - intros x Hx. rewrite par_upd. cbn [parent set_vfork_waiting set_zombie]. rewrite <- (Q2 x Hx).
    change (par k2 x) with (par k3 x). rewrite <- P5. destruct (decide (x = c)) as [->|]; [|done]. unfold par. by rewrite Et5.
  - intros Hs tq j sh Hq Hj Hsh Hz Hd. rewrite Hes in R5. destruct (Hfam tq Hq) as (tp2 & Ep2 & Gp2).
    destruct (R5 Hs tp2 j sh Ep2) as (t' & E' & B'); [by rewrite Gp2| |by rewrite Gp2|done|].
    + change (sighands k3) with (sighands k2). rewrite Hsh2, Hshs by (intros ->; by apply (Hapart tq)). done.
    + exists t'. kcbn. by rewrite lookup_insert_ne.
Qed.

(** ** Collecting a zombie *)

Lemma listed_delete gs num ls g : listed gs num ls -> listed (delete g gs) num (unlink g ls).
Proof.
  intros [Hn Hl]. split.
  - intros p. rewrite in_list_unlink. by apply NoDup_filter.
  - intros p q. rewrite in_list_unlink, list_elem_of_filter, Hl. setoid_rewrite lookup_delete_Some. naive_solver.
Qed.

Lemma task_destroy_run k p t : tree_ok k -> tasks k !! p = Some t -> children t = [] -> 1 <= p <= MAX_PID ->
  exists k', task_destroy p k = Ret tt k' /\ tree_ok k' /\ tasks k' !! p = None /\
    (forall x, x <> p -> is_Some (tasks k' !! x) <-> is_Some (tasks k !! x)) /\ k' = set_tasks (tasks k') k.
Proof.
  intros [H1 H2] Et Hc Hp. assert (Kp : kids k p = Some []) by (unfold kids; by rewrite Et, <- Hc).
  assert (Hself : parent t <> Some p).
  { intros E. assert (E' : par k p = Some p) by (unfold par; by rewrite Et). apply H2 in E' as (l & El & Hin). rewrite Kp in El. injection El as <-. by apply elem_of_nil in Hin. }
  set (m := match parent t with Some q => alter (fun t => set_children (filter (fun x => x <> p) (children t)) t) q (tasks k) | None => tasks k end).
  assert (Hrun : task_destroy p k = Ret tt (set_tasks (delete p m) k)).
  { unfold task_destroy. rewrite (bind_get_task _ _ _ _ Et). unfold m. destruct (parent t) as [q|] eqn:Eq.
    - rewrite bind_modify, pid_get_bind by lia. rewrite (pid_empty_Some _ p t); [done|]. kcbn. rewrite lookup_alter_ne by congruence. done.
    - rewrite bind_ret_l, pid_get_bind by lia. by rewrite (pid_empty_Some _ p t). }
  assert (Hm : forall x, m !! x = (if decide (parent t = Some x) then fun t => set_children (filter (fun x => x <> p) (children t)) t else id) <$> tasks k !! x).
  { intros x. unfold m. destruct (parent t) as [q|]; [|rewrite decide_False by done; by destruct (tasks k !! x)].
    destruct (decide (Some q = Some x)) as [[= ->]|]; [by rewrite lookup_alter_eq|]. rewrite lookup_alter_ne by congruence. by destruct (tasks k !! x). }
  clearbody m. exists (set_tasks (delete p m) k). split; [done|].
  assert (Hpar : forall x, par (set_tasks (delete p m) k) x = if decide (x = p) then None else par k x).
  { intros x. unfold par. kcbn. destruct (decide (x = p)) as [->|]; [by rewrite lookup_delete_eq|]. rewrite lookup_delete_ne, Hm by done.
    destruct (tasks k !! x); [|done]. by destruct (decide (parent t = Some x)). }
  assert (Hkids : forall x, kids (set_tasks (delete p m) k) x = if decide (x = p) then None
            else if decide (parent t = Some x) then filter (fun x => x <> p) <$> kids k x else kids k x).
  { intros x. unfold kids. kcbn. destruct (decide (x = p)) as [->|]; [by rewrite lookup_delete_eq|]. rewrite lookup_delete_ne, Hm by done.
    destruct (tasks k !! x); [|by destruct (decide (parent t = Some x))]. by destruct (decide (parent t = Some x)). }
  assert (Honly : forall y l, kids k y = Some l -> p ∈ l -> parent t = Some y).
  { intros y l Hy Hin. assert (E : par k p = Some y) by (apply H2; by exists l). unfold par in E. by rewrite Et in E. }
  split; [split|split_and!].
  - intros x l. rewrite Hkids. destruct (decide (x = p)); [done|]. destruct (decide (parent t = Some x)); [|apply H1].
    destruct (kids k x) as [l0|] eqn:E; [|done]. cbn. intros [= <-]. apply NoDup_filter. by apply (H1 x).
  - intros x y. rewrite Hpar, Hkids. destruct (decide (x = p)) as [->|Hx].
    + split; [done|]. intros (l & El & Hin). exfalso. destruct (decide (y = p)); [done|]. destruct (decide (parent t = Some y)) as [|Hn].
      * destruct (kids k y); [|done]. injection El as <-. by apply list_elem_of_filter in Hin as [? _].
      * by apply Hn, (Honly y l).
    + rewrite H2. destruct (decide (y = p)) as [->|].
      * rewrite Kp. split; [intros (l & [= <-] & []%elem_of_nil)|by intros (l & [=] & _)].
      * destruct (decide (parent t = Some y)); [|done]. destruct (kids k y) as [l0|]; cbn; [|done].
        split; intros (l & [= <-] & Hin); eexists; (split; [done|]); [by apply list_elem_of_filter|by apply list_elem_of_filter in Hin as [_ ?]].
  - kcbn. apply lookup_delete_eq.
  - intros x Hx. kcbn. rewrite lookup_delete_ne, Hm by done. by destruct (tasks k !! x).
  - done.
Qed.

(** A zombie leader whose group can be torn down. *)
Record reapable (k : kernel) (p : Z) (t : task) (g : tgroup) : Prop := {
  ra_task : tasks k !! p = Some t;
  ra_pid : 1 <= p <= MAX_PID;
  ra_zombie : zombie t = true;
  ra_leader : group t = p;
  ra_childless : children t = [];
  ra_group : groups k !! p = Some g;
  ra_session : tty g = None \/ (1 <= sid g <= MAX_PID /\ is_Some (tasks k !! sid g));
  ra_lists : groups_ok k;
  ra_tree : tree_ok k }.

Definition wait_status (t : task) (g : tgroup) : Z := if doing_group_exit g then group_exit_code g else exit_code t.

Lemma reap_run k p t g info options : reapable k p t g -> opt options WNOWAIT_ = false ->
  exists k', reap_if_zombie p info options k = Ret (Some (mk_winfo (w_sig info) (w_pid info) (wait_status t g))) k' /\
    tree_ok k' /\ groups_ok k' /\ tasks k' !! p = None /\ groups k' !! p = None /\
    (forall x, x <> p -> is_Some (tasks k' !! x) <-> is_Some (tasks k !! x)) /\ current k' = current k.
Proof.
  intros [Et Hp Hz Hl Hc Eg Hs [Hpg Hse] Ht] Hno. unfold reap_if_zombie. rewrite (bind_get_task _ _ _ _ Et), Hz, Hl. cbn [negb].
  rewrite (bind_get_group _ _ _ _ Eg), Hno. destruct (leave_session_run k p t g Et ltac:(by rewrite Hl) Hs) as (k1 & E1 & Ht1 & Hp1 & Hs1 & Hg1 & Hc1). rewrite Hl in *.
  rewrite (bind_Ret _ _ _ _ _ E1). unfold pgroup_remove. mrun. rewrite bind_assert.
  2:{ apply bool_decide_eq_true. unfold id. rewrite Hp1. apply linked_spec. exists (pgid g). apply Hpg. by exists g. }
  mrun. set (k2 := set_groups _ _). assert (T2 : tree_ok k2) by (apply (tree_ext k); [..|done]; intros x; unfold par, kids, k2; kcbn; by rewrite Ht1).
  destruct (task_destroy_run k2 p t T2 ltac:(unfold k2; kcbn; by rewrite Ht1) Hc Hp) as (k3 & E3 & T3 & N3 & O3 & S3).
  rewrite (bind_Ret _ _ _ _ _ E3). exists k3. split; [done|]. split; [done|].
  assert (Hg3 : groups k3 = delete p (groups k)) by (rewrite S3; unfold k2; kcbn; rewrite Hg1; apply delete_insert_eq).
  assert (Hpl3 : pgroup_list k3 = unlink p (pgroup_list k)) by (rewrite S3; unfold k2; kcbn; by rewrite Hp1).
  assert (Hsl3 : session_list k3 = unlink p (session_list k)) by (rewrite S3; unfold k2; kcbn; by rewrite Hs1).
  split_and!.
  - split; rewrite Hg3, ?Hpl3, ?Hsl3; by apply listed_delete.
  - done.
  - rewrite Hg3. apply lookup_delete_eq.
  - intros x Hx. rewrite O3 by done. unfold k2. kcbn. by rewrite Ht1.
  - rewrite S3. exact Hc1.
Qed.

(** C25: A wait for a pid collects a zombie: when the zombie is a child of some thread of the caller's group, a wait for its pid that asks for children that exited and does not
    set WNOWAIT returns at once with its pid and the status it exited with (that of the whole group if it exited as one); it is gone from the pid table, its parent's list, its
    process group and its session, whose lists stay in order; and a second wait for it is ECHILD.  Waits for any child look at less ([wait_misses_other_threads]). *)
Theorem wait_collects k c me q y p t g fuel sleep info options :
  current k = c -> tasks k !! c = Some me -> c <> p -> q <> p -> tasks k !! q = Some y -> group y = group me -> parent t = Some q -> reapable k p t g ->
  Z.land options (u32 (Z.lnot wait_options)) = 0 -> opt options WEXITED_ = true -> opt options WNOWAIT_ = false -> stopped g = false ->
  exists k', do_wait (S fuel) sleep P_PID_ p info options k = Ret (Some (0, mk_winfo SIGCHLD_ p (wait_status t g))) k' /\
    tasks k' !! p = None /\ tree_ok k' /\ groups_ok k' /\ groups k' !! p = None /\
    do_wait (S fuel) sleep P_PID_ p info options k' = Ret (Some (_ECHILD, info)) k'.
Proof.
  intros Hc Em Hcp Hqp Ey Hgy Hpar Hr Hopt Hex Hno Hst. pose proof Hr as [Et Hp Hz Hl Hch Eg Hs Hok Ht].
  destruct (reap_run k p t g (mk_winfo (w_sig info) p (w_status info)) options Hr Hno) as (k' & E & T' & G' & N' & NG' & O' & Hc'). exists k'. rewrite Hc in Hc'.
  assert (Hpre : forall m : M (option (Z * winfo)), (if negb (P_PID_ =? P_ALL_) && negb (P_PID_ =? P_PID_) && negb (P_PID_ =? P_PGID_) then ret (Some (_EINVAL, info))
            else if ctrue (Z.land options (u32 (Z.lnot wait_options))) then ret (Some (_EINVAL, info)) else m) = m) by (intros; by rewrite Hopt).
  split; [|split_and!; try done].
  - unfold do_wait. rewrite Hpre. cbn [wait_loop]. unfold wait_once. rewrite bind_assoc, bind_gets, Hc, bind_assoc, (bind_get_task _ _ _ _ Em).
    rewrite Z.eqb_refl. cbn [negb]. rewrite bind_assoc. erewrite bind_Ret by (apply pid_get_task_zombie_in_range; lia). rewrite Et.
    rewrite bind_assoc, (bind_get_task _ _ _ _ Et), Hpar, bind_assoc, (bind_get_task _ _ _ _ Ey), Hgy, Z.eqb_refl. cbn [negb].
    unfold reap_if_needed. rewrite Hl. rewrite !bind_assoc. unfold task_is_leader. rewrite bind_assoc, (bind_get_task _ _ _ _ Et), Hl, Z.eqb_refl, bind_ret_l.
    rewrite bind_assoc, bind_assert by done. rewrite bind_assoc.
    assert (Hstop : (if opt options WUNTRACED_ then notify_if_stopped p (mk_winfo (w_sig info) p (w_status info)) else ret None) k = Ret None k).
    { destruct (opt options WUNTRACED_); [|done]. unfold notify_if_stopped. rewrite (bind_get_task _ _ _ _ Et), Hl, (bind_get_group _ _ _ _ Eg), Hst. done. }
    rewrite (bind_Ret _ _ _ _ _ Hstop), Hex, bind_assoc, (bind_Ret _ _ _ _ _ E). reflexivity.
  - unfold do_wait. rewrite Hpre. cbn [wait_loop]. unfold wait_once. rewrite bind_assoc, bind_gets, Hc'.
    destruct (proj2 (O' c Hcp)) as [me' Em']; [by exists me|]. rewrite bind_assoc, (bind_get_task _ _ _ _ Em'), Z.eqb_refl. cbn [negb].
    rewrite bind_assoc. erewrite bind_Ret by (apply pid_get_task_zombie_in_range; lia). by rewrite N'.
Qed.

(** ** Exiting as a group *)

Lemma kill_threads l gid : forall k, (forall q, q ∈ l -> exists t, tasks k !! q = Some t /\ group t = gid) -> is_Some (groups k !! gid) ->
  (forall q, q ∈ l -> live k q) ->
  exists k1, for_each l (fun p => deliver_signal p SIGKILL_ SIGINFO_NIL ;; let! x := get_task p in upd_group (group x) (set_stopped false)) k = Ret tt k1 /\
    sent k k1 /\ (forall q, q ∈ l -> exists t', tasks k1 !! q = Some t' /\ has_bit (pending t') SIGKILL_ = true) /\
    (forall g, groups k !! gid = Some g -> groups k1 !! gid = Some (match l with [] => g | _ => set_stopped false g end)).
Proof.
  induction l as [|p l IH]; intros k Hl [g Eg] Hlive.
  { exists k. split_and!; [done|done|by intros q []%elem_of_nil|done]. }
  destruct (Hl p) as (t & Et & Hg); [apply elem_of_cons; by left|]. pose proof (Hlive p ltac:(apply elem_of_cons; by left)) as (t' & i & sh & Et' & Es & Esh & _).
  assert (t' = t) as -> by congruence.
  destruct (deliver_total k p t SIGKILL_ SIGINFO_NIL Et ltac:(done)) as (k1 & t1 & E1 & S1 & O1 & G1 & Et1 & B1).
  assert (Hstep : (deliver_signal p SIGKILL_ SIGINFO_NIL ;; let! x := get_task p in upd_group (group x) (set_stopped false)) k =
                    Ret tt (set_groups (<[gid := set_stopped false g]> (groups k1)) k1)).
  { unfold deliver_signal. rewrite !bind_assoc, (bind_get_task _ _ _ _ Et), bind_assoc, (bind_get_sighand _ _ _ _ _ Es Esh), (bind_Ret _ _ _ _ _ E1).
    rewrite (bind_get_task _ _ _ _ Et1). assert (group t1 = gid) as -> by (destruct S1 as (_ & _ & _ & _ & F); destruct (F p t Et) as (u & Eu & _ & _ & _ & _ & Hgu & _); congruence).
    apply upd_group_eq. by rewrite G1. }
  set (k2 := set_groups _ k1) in Hstep. assert (S2 : sent k1 k2).
  { unfold k2. split_and!; try done; kcbn.
    - intros g' Hg'. destruct (decide (g' = gid)) as [->|]; [rewrite lookup_insert_eq; by eexists|by rewrite lookup_insert_ne].
    - intros x u Eu. exists u. auto 15. }
  assert (S : sent k k2) by by transitivity k1. cbn [for_each]. rewrite (bind_Ret _ _ _ _ _ Hstep).
  destruct (IH k2) as (k3 & E3 & S3 & P3 & G3).
  - intros q Hq. destruct (Hl q) as (u & Eu & Hu); [apply elem_of_cons; by right|]. destruct S as (_ & _ & _ & _ & F).
    destruct (F q u Eu) as (u' & Eu' & _ & _ & _ & _ & Hgu & _). exists u'. split; [done|congruence].
  - unfold k2. kcbn. rewrite lookup_insert_eq. by eexists.
  - intros q Hq. apply (live_sent k k2); [done|]. apply Hlive, elem_of_cons. by right.
  - exists k3. split_and!; [done|by transitivity k2| |].
    + intros q [->|Hq]%elem_of_cons; [|auto]. destruct S3 as (_ & _ & _ & _ & F). assert (Et2 : tasks k2 !! p = Some t1) by exact Et1.
      destruct (F p t1 Et2) as (u & Eu & _ & _ & _ & _ & _ & _ & _ & _ & _ & Hp). exists u. split; [done|]. by apply Hp.
    + intros g' Eg'. assert (g' = g) as -> by congruence. rewrite (G3 (set_stopped false g)) by (unfold k2; kcbn; apply lookup_insert_eq). by destruct l.
Qed.

(** Exiting as a group: the first thread to do it fixes the status of the whole group, later ones take that status; every thread of the
    group, stopped or not, gets SIGKILL; and the caller exits. *)
Theorem exit_group_kills_threads status k c t g : current k = c -> tasks k !! c = Some t -> groups k !! group t = Some g ->
  (forall q, q ∈ threads g -> live k q /\ exists tq, tasks k !! q = Some tq /\ group tq = group t) -> c ∈ threads g ->
  let code := if doing_group_exit g then group_exit_code g else status in
  exists k1, do_exit_group status k = do_exit code k1 /\
    (forall q, q ∈ threads g -> exists t', tasks k1 !! q = Some t' /\ has_bit (pending t') SIGKILL_ = true) /\
    exists g1, groups k1 !! group t = Some g1 /\ doing_group_exit g1 = true /\ group_exit_code g1 = code /\ stopped g1 = false.
Proof.
  intros Hc Et Eg Hth Hin code. unfold do_exit_group. rewrite bind_gets, Hc, (bind_get_task _ _ _ _ Et), (bind_get_group _ _ _ _ Eg).
  set (g0 := if doing_group_exit g then g else set_group_exit_code status (set_doing_group_exit true g)).
  assert (H0 : exists k0, (if doing_group_exit g then ret tt
             else upd_group (group t) (fun g => set_group_exit_code status (set_doing_group_exit true g))) k = Ret tt k0 /\
             tasks k0 = tasks k /\ sighands k0 = sighands k /\ groups k0 = <[group t := g0]> (groups k)).
  { unfold g0. destruct (doing_group_exit g); [exists k; split_and!; try done; by rewrite insert_id|].
    rewrite (upd_group_eq _ _ _ _ Eg). by eexists. }
  destruct H0 as (k0 & E0 & Ht0 & Hs0 & Hg0). rewrite (bind_Ret _ _ _ _ _ E0). fold code.
  destruct (kill_threads (threads g) (group t) k0) as (k1 & E1 & S1 & P1 & G1).
  - intros q Hq. rewrite Ht0. by apply Hth.
  - rewrite Hg0, lookup_insert_eq. by eexists.
  - intros q Hq. destruct (Hth q Hq) as [(u & i & sh & A & B & C & D & F) _]. exists u, i, sh. rewrite Ht0, Hs0, Hg0. split_and!; try done.
    destruct (decide (group u = group t)) as [->|]; [rewrite lookup_insert_eq; by eexists|by rewrite lookup_insert_ne].
  - rewrite (bind_Ret _ _ _ _ _ E1). exists k1. split; [done|]. split; [done|].
    specialize (G1 g0). rewrite Hg0, lookup_insert_eq in G1. specialize (G1 eq_refl). exists (set_stopped false g0).
    destruct (threads g) as [|x l]; [by apply elem_of_nil in Hin|]. split; [done|].
    unfold g0, code. destruct (doing_group_exit g) eqn:D; done.
Qed.

(** ** Signals that kill *)

Lemma bind_cong {A B} (m m' : M A) (f : A -> M B) k : m k = m' k -> bind m f k = bind m' f k.
Proof. unfold bind. by intros ->. Qed.
Lemma bind_exit {B} s (f f' : unit -> M B) k : bind (do_exit_group s) f k = bind (do_exit_group s) f' k.
Proof. unfold bind. destruct (do_exit_group s k) as [x k'| | |] eqn:E; [by apply noreturn in E|done..]. Qed.

(** A fatal signal ends its process: with the exit code in place of the signal code's parameter, delivery of a queue whose first unblocked
    signal kills the task takes that signal out of the queue and exits the whole group with the signal number as its status;
    nothing after it runs. *)
Theorem fatal_signal_exits a1 a2 xs fx `{FrameMem U} ptrace_wait fuel (u : U) k t i sh g info rest :
  ready k t i sh -> groups k !! group t = Some g -> sigs_ok t -> traced t = false -> (length (queue t) <= fuel)%nat ->
  filter (unblocked (blocked_now t)) (queue t) = info :: rest -> disposition sh (si_sig info) = SIGNAL_KILL ->
  receive_signals a1 a2 xs fx do_exit_group ptrace_wait fuel u k =
  (upd_task (current k) restore_mask ;; upd_task (current k) (dequeue info) ;; do_exit_group (si_sig info) ;; ret u) k.
Proof.
  intros Hr Eg Hok Htr Hf El Hk. pose proof Hr as [Et Es Ea Hl Hg].
  rewrite (receive_signals_run a1 a2 xs fx do_exit_group ptrace_wait fuel u k t g sh)
    by (done || by rewrite Es; unfold get_sighand, bind, deref, gets, ret, id; rewrite Ea).
  assert (Hin : info ∈ queue t) by (eapply proj2, list_elem_of_filter; rewrite El; apply elem_of_cons; by left).
  assert (Hs : 1 <= si_sig info < 64) by (apply (proj1 (Forall_elem _ _) (so_valid t Hok)); by apply list_elem_of_fmap_2).
  rewrite El, bind_gets, !(bind_upd_task _ _ _ _ _ Et). set (t1 := restore_mask t). set (k1 := set_tasks _ k).
  assert (E1 : tasks k1 !! current k = Some t1) by apply lookup_insert_eq.
  assert (Es1 : sighand_of (dequeue info t1) = Some i) by (unfold t1, dequeue, restore_mask; destruct (has_saved_mask t); exact Es).
  cbn [deliver_seq]. rewrite bind_assoc, bind_gets. change (current k1) with (current k). rewrite bind_assoc, !(bind_upd_task _ _ _ _ _ E1).
  set (k2 := set_tasks _ k1). assert (E2 : tasks k2 !! current k2 = Some (dequeue info t1)) by apply lookup_insert_eq.
  assert (Hrec : forall u, receive_signal a1 a2 xs fx do_exit_group info u k2 = (do_exit_group (si_sig info) ;; ret u) k2).
  { intros v. unfold receive_signal. rewrite bind_gets, (bind_get_task _ _ _ _ E2), (bind_get_sighand _ i sh), signal_action_run by (done || lia). by rewrite Hk. }
  rewrite bind_assoc, (bind_cong _ _ _ _ (Hrec u)), bind_assoc. apply bind_exit.
Qed.

(** ** Examples *)

Definition kin_here (k : kernel) (p : Z) (t : task) : Prop :=
  NoDup (children t) /\ Forall (fun c => par k c = Some p) (children t) /\
  match parent t with None => True | Some q => match kids k q with Some l => p ∈ l | None => False end end.
#[export] Instance kin_here_dec k p t : Decision (kin_here k p t).
Proof.
  unfold kin_here. apply and_dec; [apply _|]. apply and_dec; [apply _|]. destruct (parent t); [|apply _]. destruct (kids k z); apply _.
Defined.
(** The tree can be checked task by task. *)
Lemma tree_check k : map_Forall (kin_here k) (tasks k) -> tree_ok k.
Proof.
  intros Hk. split.
  - intros p l. unfold kids. destruct (tasks k !! p) as [t|] eqn:E; [|done]. intros [= <-]. apply (Hk p t E).
  - intros x p. split.
    + unfold par. destruct (tasks k !! x) as [t|] eqn:E; [|done]. cbn. intros Hp. destruct (Hk x t E) as (_ & _ & Hin). rewrite Hp in Hin.
      destruct (kids k p) as [l|]; [by exists l|done].
    + intros (l & El & Hin). unfold kids in El. destruct (tasks k !! p) as [t|] eqn:E; [|done]. injection El as <-.
      by apply (proj1 (Forall_elem _ _) (proj1 (proj2 (Hk p t E)))).
Qed.

Definition actions0 : sighand := mk_sighand 1 (repeat (mk_sigaction 0 0 0 0) 64) 0 0.
(** A task in its own group. *)
Definition member (g sh : Z) (p : option Z) (ch : list Z) : task :=
  set_exit_signal SIGCHLD_ (set_children ch (set_parent p (set_sighand_of (Some sh) (set_group g (set_tgid g task0))))).
(** Init 1, its child 2 with two threads, 2 and 5, and the child 3 of thread 2, which has a child 4; [cur] runs. *)
Definition family (cur : Z) (t3 : task) : kernel :=
  mk_kernel {[1 := member 1 11 None [2]; 2 := member 2 12 (Some 1) [3; 5]; 3 := t3; 4 := member 4 14 (Some 3) []; 5 := member 2 12 (Some 2) []]}
    {[1 := mk_tgroup [1] 1 1 false None false 0; 2 := mk_tgroup [2; 5] 1 1 false None false 0;
      3 := mk_tgroup [3] 1 1 false None false 0; 4 := mk_tgroup [4] 1 1 false None false 0]}
    {[11 := actions0; 12 := actions0; 13 := actions0; 14 := actions0]} {[1 := [4; 3; 2; 1]]} {[1 := [4; 3; 2; 1]]} ∅ 5 cur [] false.
Definition child3 : task := member 3 13 (Some 2) [4].
Definition zombie3 : task := set_children [] (set_exit_code 0x700 (set_zombie true (set_exiting true (member 3 13 (Some 2) [])))).

Lemma family_tree : tree_ok (family 3 child3).
Proof. apply tree_check, (bool_decide_unpack _). vm_compute. exact I. Qed.

Lemma family_can_exit : can_exit (family 3 child3) 3 2 13 child3 (mk_tgroup [3] 1 1 false None false 0).
Proof.
  split; try reflexivity; try done.
  - exists (member 2 12 (Some 1) [3; 5]), 12, actions0. split_and!; try reflexivity. by eexists.
  - intros tp [= <-]. done.
  - split; [done|]. eexists. split; reflexivity.
  - apply family_tree.
Qed.

Lemma do_exit_spec_witness : exists k' t', do_exit 0x700 (family 3 child3) = Exited k' /\ tasks k' !! 3 = Some t' /\
  zombie t' = true /\ exit_code t' = 0x700 /\ tree_ok k' /\ par k' 4 = Some 1.
Proof.
  destruct (do_exit_spec 0x700 (family 3 child3) 3 2 13 child3 _ family_can_exit)
    as (k' & t' & E & Et & Hz & Hcode & _ & _ & _ & _ & _ & Ht & Hch & _).
  exists k', t'. split_and!; try done. apply Hch. apply elem_of_cons. by left.
Defined.

(** The family after 3 has exited and 4 belongs to init. *)
Definition orphans (cur : Z) : kernel :=
  let k := family cur zombie3 in
  set_tasks (<[1 := member 1 11 None [4; 2]]> (<[4 := member 4 14 (Some 1) []]> (tasks k)))
    (set_groups (<[3 := mk_tgroup [] 1 1 false None false 0]> (groups k)) k).
Lemma orphans_reapable cur : reapable (orphans cur) 3 zombie3 (mk_tgroup [] 1 1 false None false 0).
Proof.
  split; try reflexivity; try done.
  - by left.
  - split; apply listed_check; split; apply (bool_decide_unpack _); vm_compute; exact I.
  - apply tree_check, (bool_decide_unpack _). vm_compute. exact I.
Qed.

Lemma wait_collects_witness : exists k',
  do_wait 1 (fun _ => ret 0) P_PID_ 3 (mk_winfo 0 0 0) WEXITED_ (orphans 2) = Ret (Some (0, mk_winfo SIGCHLD_ 3 0x700)) k' /\
  tasks k' !! 3 = None /\ tree_ok k' /\ groups_ok k'.
Proof.
  destruct (wait_collects (orphans 2) 2 (member 2 12 (Some 1) [3; 5]) 2 (member 2 12 (Some 1) [3; 5]) 3 zombie3
              (mk_tgroup [] 1 1 false None false 0) 0 (fun _ => ret 0) (mk_winfo 0 0 0) WEXITED_)
    as (k' & E & N & T & G & _); try reflexivity; [done|done|apply orphans_reapable|].
  exists k'. split_and!; done.
Defined.

Lemma exit_group_kills_threads_witness : exists k1, do_exit_group 0x100 (family 5 child3) = do_exit 0x100 k1 /\
  forall q, q ∈ [2; 5] -> exists t', tasks k1 !! q = Some t' /\ has_bit (pending t') SIGKILL_ = true.
Proof.
  destruct (exit_group_kills_threads 0x100 (family 5 child3) 5 (member 2 12 (Some 2) []) (mk_tgroup [2; 5] 1 1 false None false 0))
    as (k1 & E & P & _); try reflexivity.
  - intros q [->|[->|[]%elem_of_nil]%elem_of_cons]%elem_of_cons; (split; [eexists _, 12, actions0; split_and!; try reflexivity; by eexists|]);
      eexists; split; reflexivity.
  - apply elem_of_cons. right. apply elem_of_cons. by left.
  - exists k1. split; done.
Defined.

(** wait for any child looks only at the children of the calling thread: the loop over the threads of the group walks the list of the
    caller each time.  A thread whose group has a zombie child is told it has none, though waiting for the same child by its
    pid succeeds. *)
Theorem wait_misses_other_threads :
  result_of (do_wait 1 (fun _ => ret 0) P_ALL_ 0 (mk_winfo 0 0 0) WEXITED_) (orphans 5) = Some (Some (_ECHILD, mk_winfo 0 0 0)) /\
  result_of (do_wait 1 (fun _ => ret 0) P_PID_ 3 (mk_winfo 0 0 0) WEXITED_) (orphans 5) = Some (Some (0, mk_winfo SIGCHLD_ 3 0x700)) /\
  result_of (do_wait 1 (fun _ => ret 0) P_ALL_ 0 (mk_winfo 0 0 0) WEXITED_) (orphans 2) = Some (Some (0, mk_winfo SIGCHLD_ 3 0x700)).
Proof. split_and!; vm_compute; reflexivity. Qed.

(** From kill to wait: 2 kills 3, 3 receives the signal and dies, 2 collects the status 9. *)
Definition kill_and_collect : option (option (Z * option Z)) :=
  match sys_kill 3 SIGKILL_ (family 2 child3) with
  | Ret 0 k =>
      match receive_signals 0 0 0 0 do_exit_group (ret false) 1 [] (set_current 3 k) with
      | Exited k => result_of (sys_wait4 1 (fun _ => ret 0) (-1) true true 0) (set_current 2 k)
      | _ => None
      end
  | _ => None
  end.
Lemma kill_and_collect_status : kill_and_collect = Some (Some (3, Some SIGKILL_)).
Proof. vm_compute. reflexivity. Qed.

Lemma fatal_signal_exits_witness :
  let k := family 3 (enqueue SIGKILL_ child3) in
  receive_signals 0 0 0 0 do_exit_group (ret false) 1 [] k =
  (upd_task 3 restore_mask ;; upd_task 3 (dequeue (demo_info SIGKILL_)) ;; do_exit_group SIGKILL_ ;; ret []) k.
Proof.
  apply (fatal_signal_exits 0 0 0 0 (ret false) 1 [] (family 3 (enqueue SIGKILL_ child3)) (enqueue SIGKILL_ child3) 13 actions0
           (mk_tgroup [3] 1 1 false None false 0) (demo_info SIGKILL_) []); try reflexivity.
  - split; try reflexivity. by eexists.
  - apply sigs_ok_add; [done| |reflexivity]. split; [constructor|constructor|]. intros s Hs.
    split; [change (pending child3) with 0; rewrite has_zero; discriminate|by intros []%elem_of_nil].
Defined.
End Exit.
