(* ===== verification/Fork.v ===== *)
(** * Creating processes and threads (kernel/fork.c)

    [sys_clone] and what it copies or shares of the process state.  The address space, the file table and the file
    system information are not part of the state; whether copying them, storing the pids the guest asks for and
    setting the thread area succeed is a parameter of the call, as is what other threads do while a vfork sleeps. *)

From S2P Require Import Prelude Errno Float80 Cpu Task Signal Group Exit.

Module Fork.
Import Errno Task Signal Group Exit.

Definition CSIGNAL_ : Z := 0xff.
Definition CLONE_VM_ : Z := 0x100.
Definition CLONE_FS_ : Z := 0x200.
Definition CLONE_FILES_ : Z := 0x400.
Definition CLONE_SIGHAND_ : Z := 0x800.
Definition CLONE_VFORK_ : Z := 0x4000.
Definition CLONE_THREAD_ : Z := 0x10000.
Definition CLONE_SYSVSEM_ : Z := 0x40000.
Definition CLONE_SETTLS_ : Z := 0x80000.
Definition CLONE_PARENT_SETTID_ : Z := 0x100000.
Definition CLONE_CHILD_CLEARTID_ : Z := 0x200000.
Definition CLONE_DETACHED_ : Z := 0x400000.
Definition CLONE_CHILD_SETTID_ : Z := 0x1000000.
Definition IMPLEMENTED_FLAGS : Z :=
  fold_left Z.lor [CLONE_FILES_; CLONE_FS_; CLONE_SIGHAND_; CLONE_SYSVSEM_; CLONE_VFORK_; CLONE_THREAD_; CLONE_SETTLS_;
                   CLONE_CHILD_SETTID_; CLONE_PARENT_SETTID_; CLONE_CHILD_CLEARTID_; CLONE_DETACHED_] CLONE_VM_.
Definition flag (flags f : Z) : bool := ctrue (Z.land flags f).

(** How the parts that are not modelled turn out: [fdtable_copy]'s error or 0, whether [fs_info_copy] and the stores of the
    pid succeed, [task_set_thread_area]'s result; and the address [malloc] gives a new handler table. *)
Record clone_env := mk_env {
  files_err : Z;
  fs_ok : bool;
  new_sighand : Z;
  tls_err : Z;
  ctid_ok : bool;
  ptid_ok : bool }.

(** [list_add(&old->..., &new->...)]: behind the node of the old group. *)
Fixpoint insert_after (old new : Z) (l : list Z) : list Z :=
  match l with
  | [] => []
  | x :: l => if x =? old then x :: new :: l else x :: insert_after old new l
  end.
Definition link_after (old new : Z) (ls : gmap Z (list Z)) : gmap Z (list Z) := insert_after old new <$> ls.

Definition tgroup_copy (old new : Z) : M unit :=
  let! g := get_group old in
  let! k := gets (fun k => k) in
  assert (bool_decide (linked (pgroup_list k) old) && bool_decide (linked (session_list k) old)) ;;
  modify (fun k => set_groups (<[new := set_doing_group_exit false (set_threads [] g)]> (groups k)) k) ;;
  modify (fun k => set_pgroup_list (link_after old new (pgroup_list k)) k) ;;
  modify (fun k => set_session_list (link_after old new (session_list k)) k).

Definition copy_task (p flags stack : Z) (e : clone_env) : M Z :=
  upd_task p (set_vfork_waiting false) ;;
  (if stack =? 0 then ret tt else upd_task p (fun t => set_cpu (set_esp stack (cpu t)) t)) ;;
  if negb (flag flags CLONE_FILES_) && (files_err e <? 0) then ret (files_err e)
  else if negb (flag flags CLONE_FS_) && negb (fs_ok e) then ret _ENOMEM
  else
    let! t := get_task p in
    let! old_sh := deref (sighand_of t) in
    (if flag flags CLONE_SIGHAND_ then upd_sighand (Some old_sh) (fun sh => set_refcount (refcount sh + 1) sh)
     else let! n := sighand_copy (new_sighand e) old_sh in upd_task p (set_sighand_of (Some n))) ;;
    let old_group := group t in
    (if flag flags CLONE_THREAD_ then ret tt
     else tgroup_copy old_group p ;; upd_task p (fun t => set_tgid p (set_group p t))) ;;
    let! t := get_task p in
    upd_group (group t) (fun g => set_threads (p :: threads g) g) ;;
    let! sh := deref (sighand_of t) in
    if flag flags CLONE_SETTLS_ && (tls_err e <? 0) then sighand_release sh ;; ret (tls_err e)
    else if (flag flags CLONE_CHILD_SETTID_ && negb (ctid_ok e)) || (flag flags CLONE_PARENT_SETTID_ && negb (ptid_ok e))
    then sighand_release sh ;; ret _EFAULT
    else upd_task p (set_exit_signal (Z.land flags CSIGNAL_)) ;; ret 0.

(** [None] when the search for a pid does not end.  The new thread is started; a vfork waits until the child execs or exits,
    and then writes to the child. *)
Definition sys_clone (fuel : nat) (flags stack : Z) (e : clone_env) (vfork_wait : M unit) : M (option Z) :=
  if ctrue (Z.land (Z.land flags (u32 (Z.lnot CSIGNAL_))) (u32 (Z.lnot IMPLEMENTED_FLAGS))) then ret (Some _EINVAL)
  else if flag flags CLONE_SIGHAND_ && negb (flag flags CLONE_VM_) then ret (Some _EINVAL)
  else if flag flags CLONE_THREAD_ && negb (flag flags CLONE_SIGHAND_) then ret (Some _EINVAL)
  else
    let! c := gets current in
    let! r := task_create_ fuel (Some c) in
    match r with
    | None => ret None
    | Some p =>
        let! err := copy_task p flags stack e in
        if err <? 0 then task_destroy p ;; ret (Some err)
        else
          upd_task p (fun t => set_cpu (set_eax 0 (cpu t)) t) ;;
          (if flag flags CLONE_VFORK_ then upd_task p (set_vfork_waiting true) else ret tt) ;;
          let! t := get_task c in
          (if traced t then send_signal c SIGTRAP_ SIGINFO_NIL else ret tt) ;;
          (if flag flags CLONE_VFORK_ then vfork_wait ;; upd_task p (set_vfork_waiting false) else ret tt) ;;
          ret (Some p)
    end.

Definition sys_fork (fuel : nat) (e : clone_env) : M (option Z) := sys_clone fuel SIGCHLD_ 0 e (ret tt).
Definition sys_vfork (fuel : nat) (e : clone_env) (vfork_wait : M unit) : M (option Z) :=
  sys_clone fuel (Z.lor (Z.lor CLONE_VFORK_ CLONE_VM_) SIGCHLD_) 0 e vfork_wait.

(** ** The lists after a fork *)

Lemma elem_insert_after old new l z : z ∈ insert_after old new l <-> z ∈ l \/ (z = new /\ old ∈ l).
Proof.
  induction l as [|x l IH]; cbn [insert_after].
  - rewrite !elem_of_nil. tauto.
  - destruct (Z.eqb_spec x old) as [->|Hx]; rewrite !elem_of_cons, ?elem_of_cons, ?IH; intuition congruence.
Qed.
Lemma NoDup_insert_after old new l : NoDup l -> new ∉ l -> NoDup (insert_after old new l).
Proof.
  induction l as [|x l IH]; cbn [insert_after]; [done|]. intros [Hx Hl]%NoDup_cons [Hn Hnl]%not_elem_of_cons.
  destruct (x =? old); rewrite !NoDup_cons, ?elem_of_cons, ?elem_insert_after; intuition congruence.
Qed.
Lemma in_list_link_after old new ls p : in_list (link_after old new ls) p = insert_after old new (in_list ls p).
Proof. unfold in_list, link_after. rewrite lookup_fmap. by destruct (ls !! p). Qed.

Lemma listed_after gs num ls old new x y : listed gs num ls -> gs !! old = Some x -> gs !! new = None -> num y = num x ->
  listed (<[new := y]> gs) num (link_after old new ls).
Proof.
  intros [Hn Hl] Eo En Hy. assert (Hnew : forall p, new ∉ in_list ls p) by (intros p (z & Ez & _)%Hl; congruence). split.
  - intros p. rewrite in_list_link_after. by apply NoDup_insert_after.
  - intros p z. rewrite in_list_link_after, elem_insert_after, !Hl. split.
    + intros [(u & Eu & Hu)|(-> & u & Eu & Hu)].
      * exists u. split; [|done]. rewrite lookup_insert_ne; [done|]. congruence.
      * exists y. split; [apply lookup_insert_eq|]. congruence.
    + intros (u & [[-> ->]|[Hz Eu]]%lookup_insert_Some & Hu); [right; split; [done|]; exists x; split; [done|congruence]|left; by exists u].
Qed.

Lemma listed_clear gs num ls p : listed gs num ls -> in_list ls p = [] -> listed gs num (<[p := []]> ls).
Proof.
  intros [Hn Hl] Hp. assert (E : forall q, in_list (<[p := []]> ls) q = in_list ls q).
  { intros q. unfold in_list at 1. destruct (decide (q = p)) as [->|]; [by rewrite lookup_insert_eq, Hp|by rewrite lookup_insert_ne]. }
  split; [intros q; rewrite E; apply Hn|intros q g; rewrite E; apply Hl].
Qed.

(** ** fork *)

(** A process that can fork: it is not traced, and handler tables and thread groups are where they should be. *)
Record can_fork (k : kernel) (c i : Z) (t : task) (sh : sighand) (g : tgroup) (e : clone_env) : Prop := {
  cf_current : current k = c;
  cf_task : tasks k !! c = Some t;
  cf_traced : traced t = false;
  cf_sighand : sighand_of t = Some i;
  cf_actions : sighands k !! i = Some sh;
  cf_fresh : sighands k !! new_sighand e = None;
  cf_group : groups k !! group t = Some g;
  cf_leaders : forall x, is_Some (groups k !! x) -> is_Some (tasks k !! x);
  cf_cur : 0 <= cur_pid k <= MAX_PID;
  cf_lists : groups_ok k;
  cf_tree : tree_ok k;
  cf_files : 0 <= files_err e;
  cf_fs : fs_ok e = true }.

(** The child of a fork. *)
Definition forked (c p : Z) (e : clone_env) (t : task) : task :=
  set_cpu (set_eax 0 (cpu t)) (set_exit_signal SIGCHLD_ (set_tgid p (set_group p (set_sighand_of (Some (new_sighand e)) (set_vfork_waiting false (child_of c t)))))).

Lemma copy_task_fork k c i t sh g e p : can_fork k c i t sh g e -> pid_empty k p = true -> p <> c ->
  copy_task p SIGCHLD_ 0 e (created p c t k) =
  Ret 0 (mk_kernel
    (<[p := set_exit_signal SIGCHLD_ (set_tgid p (set_group p (set_sighand_of (Some (new_sighand e)) (set_vfork_waiting false (child_of c t)))))]>
       (tasks (created p c t k)))
    (<[p := set_threads [p] (set_doing_group_exit false (set_threads [] g))]> (groups k))
    (<[new_sighand e := mk_sighand 1 (action sh) 0 0]> (sighands k))
    (link_after (group t) p (<[p := []]> (session_list k))) (link_after (group t) p (<[p := []]> (pgroup_list k)))
    (tty_session k) p (current k) (kicked k) (halted k)).
Proof.
  intros [Hc Et Htr Es Ea Hfr Eg Hlead Hcur [Hpg Hse] Htree Hfi Hfs] (Hp & Hps & Hpp)%pid_empty_task Hpc.
  assert (Hni : new_sighand e <> i) by congruence.
  assert (Ep : tasks (created p c t k) !! p = Some (child_of c t)) by apply lookup_insert_eq.
  unfold copy_task. rewrite (bind_upd_task _ _ _ _ _ Ep). change (0 =? 0) with true. cbn match. rewrite bind_ret_l.
  change (flag SIGCHLD_ CLONE_FILES_) with false. change (flag SIGCHLD_ CLONE_FS_) with false. change (flag SIGCHLD_ CLONE_SIGHAND_) with false.
  change (flag SIGCHLD_ CLONE_THREAD_) with false. change (flag SIGCHLD_ CLONE_SETTLS_) with false. change (flag SIGCHLD_ CLONE_CHILD_SETTID_) with false.
  change (flag SIGCHLD_ CLONE_PARENT_SETTID_) with false. cbn [negb andb orb]. destruct (Z.ltb_spec (files_err e) 0); [lia|]. rewrite Hfs. cbn [negb].
  erewrite bind_get_task by apply lookup_insert_eq. cbn [sighand_of group set_vfork_waiting child_of set_did_exec set_queue set_pending set_parent set_children].
  rewrite Es, bind_deref. unfold sighand_copy, sighand_new. mrun.
  erewrite (bind_get_sighand (Some i) i sh); [|done|kcbn; rewrite lookup_insert_ne by done; exact Ea]. rewrite bind_assoc.
  erewrite bind_upd_sighand; [|done|kcbn; apply lookup_insert_eq]. rewrite bind_ret_l.
  erewrite bind_upd_task by (kcbn; apply lookup_insert_eq). unfold tgroup_copy. rewrite !bind_assoc.
  rewrite (bind_get_group _ g) by (kcbn; exact Eg). rewrite bind_assoc, bind_gets, bind_assoc, bind_assert.
  2:{ unfold created. kcbn. assert (Hl : forall num ls, listed (groups k) num ls -> in_list ls p = [] -> bool_decide (linked (<[p := []]> ls) (group t)) = true).
      { intros num ls Hls Hnil. apply bool_decide_eq_true, linked_spec. exists (num g). apply (listed_clear _ _ _ p Hls Hnil). by exists g. }
      by rewrite (Hl pgid _ Hpg Hpp), (Hl sid _ Hse Hps). }
  repeat (rewrite bind_assoc || rewrite bind_modify).
  erewrite bind_upd_task by (kcbn; apply lookup_insert_eq). erewrite bind_get_task by (kcbn; apply lookup_insert_eq).
  cbn [group set_tgid set_group]. erewrite bind_upd_group by (kcbn; apply lookup_insert_eq).
  cbn [sighand_of set_tgid set_group set_sighand_of]. rewrite bind_deref. erewrite bind_upd_task by (kcbn; apply lookup_insert_eq).
  unfold ret. f_equal. unfold created. kcbn. rewrite !insert_insert_eq. reflexivity.
Qed.

(** The state after a fork. *)
Definition fork_state (c p : Z) (t : task) (sh : sighand) (g : tgroup) (e : clone_env) (k : kernel) : kernel :=
  mk_kernel (<[p := forked c p e t]> (<[c := set_children (p :: children t) t]> (tasks k)))
    (<[p := set_threads [p] (set_doing_group_exit false (set_threads [] g))]> (groups k))
    (<[new_sighand e := mk_sighand 1 (action sh) 0 0]> (sighands k))
    (link_after (group t) p (<[p := []]> (session_list k))) (link_after (group t) p (<[p := []]> (pgroup_list k)))
    (tty_session k) p (current k) (kicked k) (halted k).

Lemma fork_run k c i t sh g e p fuel : can_fork k c i t sh g e -> find_pid fuel k (cur_pid k) = Some p -> pid_empty k p = true ->
  sys_fork fuel e k = Ret (Some p) (fork_state c p t sh g e k).
Proof.
  intros Hcf Hf Hp. destruct (pid_empty_task k p Hp) as (Hn & _). assert (Hpc : p <> c) by (pose proof (cf_task _ _ _ _ _ _ _ Hcf); congruence).
  pose proof (copy_task_fork k c i t sh g e p Hcf Hp Hpc) as Hcopy. destruct Hcf as [Hc Et Htr _ _ _ _ _ _ _ _ _ _].
  unfold sys_fork, sys_clone. change (ctrue _) with false. change (flag SIGCHLD_ CLONE_SIGHAND_) with false. change (flag SIGCHLD_ CLONE_THREAD_) with false.
  change (flag SIGCHLD_ CLONE_VFORK_) with false. cbn [negb andb]. rewrite bind_gets, Hc, (bind_Ret _ _ _ _ _ (task_create_run fuel k c t p Et Hf Hn)).
  rewrite (bind_Ret _ _ _ _ _ Hcopy). change (0 <? 0) with false. cbn match. erewrite bind_upd_task by (kcbn; apply lookup_insert_eq). rewrite bind_ret_l.
  erewrite (bind_get_task c (set_children (p :: children t) t)); [|unfold created; kcbn; rewrite !lookup_insert_ne, lookup_insert_eq by done; reflexivity].
  cbn [traced set_children]. rewrite Htr, !bind_ret_l. unfold ret. f_equal. unfold created, fork_state, forked. kcbn.
  rewrite !insert_insert_eq. reflexivity.
Qed.

(** C26: What a fork by a process that is not traced does to the table of processes, when copying the files and the file system information succeeds: it makes a second process
    with a pid that was free, registers that differ only in the 0 the child sees as result, the same mask, the same handlers in a table of its own but no alternate stack (the code
    does not copy it), nothing pending and no children, its own thread group in the parent's process group and session, and the parent's pid as
    parent; the process groups, sessions and family tree stay in order, and the parent changes in its list of children only.  Memory and files are not part of this state. *)
Theorem fork_spec k c i t sh g e : can_fork k c i t sh g e -> (exists p, 1 <= p <= MAX_PID /\ pid_empty k p = true) ->
  exists p, 1 <= p <= MAX_PID /\ tasks k !! p = None /\
    (forall fuel, (Z.to_nat MAX_PID <= fuel)%nat -> exists k', sys_fork fuel e k = Ret (Some p) k' /\
       groups_ok k' /\ tree_ok k' /\ par k' p = Some c /\ tasks k' !! c = Some (set_children (p :: children t) t) /\
       (exists t' sh', tasks k' !! p = Some t' /\ cpu t' = set_eax 0 (cpu t) /\ blocked t' = blocked t /\ pending t' = 0 /\ queue t' = [] /\
          children t' = [] /\ group t' = p /\ sighand_of t' = Some (new_sighand e) /\ sighands k' !! new_sighand e = Some sh' /\
          action sh' = action sh /\ refcount sh' = 1 /\ altstack sh' = 0 /\ altstack_size sh' = 0 /\ exit_signal t' = SIGCHLD_ /\ tgid t' = p /\ vfork_waiting t' = false /\ did_exec t' = false) /\
       exists g', groups k' !! p = Some g' /\ threads g' = [p] /\ pgid g' = pgid g /\ sid g' = sid g /\ doing_group_exit g' = false).
Proof.
  intros Hcf (r & Hr & Er). pose proof Hcf as [Hc Et Htr Es Ea Hfr Eg Hlead Hcur [Hpg Hse] Htree Hfi Hfs].
  destruct (find_pid_free k _ r Hcur Hr Er (Z.to_nat MAX_PID) (le_n _)) as (p & E & Hp & Ep).
  destruct (pid_empty_task k p Ep) as (Hn & Hps & Hpp). assert (Hpc : p <> c) by congruence. exists p. split; [done|]. split; [done|].
  intros fuel Hf. assert (E' : find_pid fuel k (cur_pid k) = Some p) by by apply (find_pid_more (Z.to_nat MAX_PID)).
  exists (fork_state c p t sh g e k). split; [by apply (fork_run k c i)|]. assert (Hgn : groups k !! p = None).
  { destruct (groups k !! p) eqn:Egp; [|done]. destruct (Hlead p) as [u Eu]; [by eexists|congruence]. }
  assert (HT : tree_ok (fork_state c p t sh g e k)).
  { apply (tree_ext (created p c t k)); [..|by apply tree_created]; intros x; unfold par, kids, fork_state, created; kcbn;
      destruct (decide (x = p)) as [->|]; rewrite ?lookup_insert_eq; try done; by rewrite !(lookup_insert_ne _ p x) by done. }
  unfold fork_state. split_and!; kcbn.
  - split; kcbn; (eapply listed_after; [by apply listed_clear|exact Eg|exact Hgn|done]).
  - exact HT.
  - unfold par. kcbn. by rewrite lookup_insert_eq.
  - rewrite lookup_insert_ne by done. apply lookup_insert_eq.
  - eexists _, _. split; [apply lookup_insert_eq|]. do 7 (split; [reflexivity|]). split; [apply lookup_insert_eq|]. split_and!; reflexivity.
  - eexists. split; [apply lookup_insert_eq|]. done.
Qed.

(** clone refuses what it does not implement: flags outside the implemented ones, sharing handlers without sharing memory, and threads
    that do not share handlers; nothing changes then. *)
Theorem clone_refuses fuel flags stack e w k :
  Z.land (Z.land flags (u32 (Z.lnot CSIGNAL_))) (u32 (Z.lnot IMPLEMENTED_FLAGS)) <> 0 \/
  (flag flags CLONE_SIGHAND_ = true /\ flag flags CLONE_VM_ = false) \/
  (flag flags CLONE_THREAD_ = true /\ flag flags CLONE_SIGHAND_ = false) ->
  sys_clone fuel flags stack e w k = Ret (Some _EINVAL) k.
Proof.
  intros H. unfold sys_clone. destruct (ctrue _) eqn:E; [done|]. destruct H as [H|[[H1 H2]|[H1 H2]]].
  - unfold ctrue in E. apply negb_false_iff, Z.eqb_eq in E. done.
  - by rewrite H1, H2.
  - rewrite H1, H2. done.
Qed.

(** ** Examples *)

Definition env0 : clone_env := mk_env 0 true 20 0 true true.

Lemma family_can_fork : can_fork (family 3 child3) 3 13 child3 actions0 (mk_tgroup [3] 1 1 false None false 0) env0.
Proof.
  split; try reflexivity; try done.
  - intros x [g Eg]. apply elem_of_dom_2 in Eg. apply elem_of_dom. revert x Eg.
    assert (H : dom (groups (family 3 child3)) ⊆ dom (tasks (family 3 child3))) by (apply (bool_decide_unpack _); vm_compute; exact I). exact H.
  - split; apply listed_check; split; apply (bool_decide_unpack _); vm_compute; exact I.
  - apply family_tree.
Qed.

Lemma fork_spec_witness : exists p, tasks (family 3 child3) !! p = None /\
  exists k', sys_fork (Z.to_nat MAX_PID) env0 (family 3 child3) = Ret (Some p) k' /\ groups_ok k' /\ tree_ok k'.
Proof.
  destruct (fork_spec (family 3 child3) 3 13 child3 actions0 (mk_tgroup [3] 1 1 false None false 0) env0 family_can_fork) as (p & _ & Hn & H).
  - exists 6. split; [done|]. vm_compute. reflexivity.
  - destruct (H (Z.to_nat MAX_PID) (le_n _)) as (k' & E & G & T & _). exists p. split; [done|]. exists k'. auto.
Defined.

Lemma clone_refuses_witness : sys_clone 1 CLONE_THREAD_ 0 env0 (ret tt) (family 3 child3) = Ret (Some _EINVAL) (family 3 child3).
Proof. apply clone_refuses. right. right. split; reflexivity. Defined.

(** A clone that fails late leaves a dead thread behind: after the new task has joined the thread group, a failure frees it but does not
    take it out of the list of threads.  The group then names a task that does not exist, and exiting as a group, which
    walks that list, runs into it. *)
Theorem failed_clone_dangles :
  let flags := Z.lor (Z.lor (Z.lor CLONE_VM_ CLONE_SIGHAND_) CLONE_THREAD_) CLONE_PARENT_SETTID_ in
  let fails := mk_env 0 true 20 0 true false in
  result_of (let! r := sys_clone 10 flags 0 fails (ret tt) in
             let! g := get_group 3 in
             let! k := gets (fun k => k) in
             ret (r, threads g, bool_decide (tasks k !! 6 = None))) (family 3 child3) = Some (Some _EFAULT, [6; 3], true) /\
  (sys_clone 10 flags 0 fails (ret tt) ;; do_exit_group 0) (family 3 child3) = Panic.
Proof. split; vm_compute; reflexivity. Qed.

(** A vfork writes to a child that may be gone: when the child has exited and been collected by another thread before the parent wakes
    up, the parent still writes to it. *)
Theorem vfork_touches_freed_child :
  sys_vfork 10 env0 (fun k => Ret tt (set_tasks (delete 6 (tasks k)) k)) (family 3 child3) = Panic.
Proof. vm_compute. reflexivity. Qed.
End Fork.
