(* ===== verification/Vfs.v ===== *)
(** * The state of the file system layer (kernel/fs.h, fs/fd.h, fs/inode.h, fs/stat.h)

    The objects the path, mount, descriptor and generic operations work on: mounts, open files, descriptor tables,
    in-core inodes and the working directory and credentials of the current task.  An object on the heap is named by a
    number that stands for its address.  Strings are lists of characters without their terminator; a buffer of
    [MAX_PATH] bytes is a string whose length is checked where the code stores into it.

    Operations are steps of a monad over that state.  A step returns, or stops at a failed assertion ([Abort]), or makes
    an access outside of an object ([Fault]), or runs out of the fuel of a loop ([Hang]).  A mounted file system is a
    record of operations, [fs_ops], as in the code; [F] is the private state of the file systems. *)

From S2P Require Import Prelude Errno FileLock.
From stdpp Require Export strings gmap.
From Stdlib Require Export Ascii.
From Stdlib Require String.
#[global] Open Scope Z_scope.

Module Vfs.

(** ** Constants *)

Definition MAX_PATH : Z := 4096.
Definition MAX_NAME : Z := 256.

Definition AC_R : Z := 4.
Definition AC_W : Z := 2.
Definition AC_X : Z := 1.
Definition AC_F : Z := 0.

Definition O_WRONLY_ : Z := Z.shiftl 1 0.
Definition O_RDWR_ : Z := Z.shiftl 1 1.
Definition O_CREAT_ : Z := Z.shiftl 1 6.
Definition O_EXCL_ : Z := Z.shiftl 1 7.
Definition O_APPEND_ : Z := Z.shiftl 1 10.
Definition O_NONBLOCK_ : Z := Z.shiftl 1 11.
Definition O_DIRECTORY_ : Z := Z.shiftl 1 16.
Definition O_CLOEXEC_ : Z := Z.shiftl 1 19.

Definition N_SYMLINK_FOLLOW : Z := 1.
Definition N_SYMLINK_NOFOLLOW : Z := 2.
Definition N_PARENT_DIR_WRITE : Z := 4.

(** [flags & f] as a condition. *)
Definition has (flags f : Z) : bool := ctrue (Z.land flags f).

(** The type of a file in its mode (POSIX). *)
Definition S_IFMT : Z := 61440.   (* 0170000 *)
Definition S_IFSOCK : Z := 49152. (* 0140000 *)
Definition S_IFLNK : Z := 40960.  (* 0120000 *)
Definition S_IFREG : Z := 32768.  (* 0100000 *)
Definition S_IFBLK : Z := 24576.  (* 0060000 *)
Definition S_IFDIR : Z := 16384.  (* 0040000 *)
Definition S_IFCHR : Z := 8192.   (* 0020000 *)
Definition S_ISTYPE (t mode : Z) : bool := Z.land mode S_IFMT =? t.
Definition S_ISDIR := S_ISTYPE S_IFDIR.
Definition S_ISREG := S_ISTYPE S_IFREG.
Definition S_ISLNK := S_ISTYPE S_IFLNK.
Definition S_ISBLK := S_ISTYPE S_IFBLK.
Definition S_ISCHR := S_ISTYPE S_IFCHR.
Definition S_ISSOCK := S_ISTYPE S_IFSOCK.

(** ** Strings *)

Abbreviation path := (list ascii).
Definition NUL : ascii := zero.
Definition slash : ascii := "/"%char.
Definition dot : ascii := "."%char.
Definition cstr (s : string) : path := String.list_ascii_of_string s.
Definition strlen (s : path) : Z := Z.of_nat (length s).
(** [s[i]], with the terminator at the end. *)
Definition char_at (s : path) (i : nat) : ascii := nth i s NUL.

(** ** Objects *)

(** [struct statbuf], without the times and block counts, which the operations here only pass on. *)
Record statbuf := mk_statbuf {
  st_dev : Z;
  st_inode : Z;
  st_mode : Z;
  st_nlink : Z;
  st_uid : Z;
  st_gid : Z;
  st_rdev : Z;
  st_size : Z }.
Definition set_st_dev (v : Z) (x : statbuf) : statbuf :=
  mk_statbuf v (st_inode x) (st_mode x) (st_nlink x) (st_uid x) (st_gid x) (st_rdev x) (st_size x).
Definition set_st_inode (v : Z) (x : statbuf) : statbuf :=
  mk_statbuf (st_dev x) v (st_mode x) (st_nlink x) (st_uid x) (st_gid x) (st_rdev x) (st_size x).
Definition set_st_mode (v : Z) (x : statbuf) : statbuf :=
  mk_statbuf (st_dev x) (st_inode x) v (st_nlink x) (st_uid x) (st_gid x) (st_rdev x) (st_size x).
Definition set_st_nlink (v : Z) (x : statbuf) : statbuf :=
  mk_statbuf (st_dev x) (st_inode x) (st_mode x) v (st_uid x) (st_gid x) (st_rdev x) (st_size x).
Definition set_st_uid (v : Z) (x : statbuf) : statbuf :=
  mk_statbuf (st_dev x) (st_inode x) (st_mode x) (st_nlink x) v (st_gid x) (st_rdev x) (st_size x).
Definition set_st_gid (v : Z) (x : statbuf) : statbuf :=
  mk_statbuf (st_dev x) (st_inode x) (st_mode x) (st_nlink x) (st_uid x) v (st_rdev x) (st_size x).
Definition set_st_rdev (v : Z) (x : statbuf) : statbuf :=
  mk_statbuf (st_dev x) (st_inode x) (st_mode x) (st_nlink x) (st_uid x) (st_gid x) v (st_size x).
Definition set_st_size (v : Z) (x : statbuf) : statbuf :=
  mk_statbuf (st_dev x) (st_inode x) (st_mode x) (st_nlink x) (st_uid x) (st_gid x) (st_rdev x) v.

(** [struct mount]; [m_self] is its address, [m_fs] names its [fs_ops], [m_data] is the file system's own pointer. *)
Record mount := mk_mount {
  m_self : Z;
  m_point : path;
  m_source : path;
  m_info : path;
  m_flags : Z;
  m_fs : Z;
  m_refcount : Z;
  m_data : option Z }.
Definition set_m_self (v : Z) (x : mount) : mount :=
  mk_mount v (m_point x) (m_source x) (m_info x) (m_flags x) (m_fs x) (m_refcount x) (m_data x).
Definition set_m_point (v : path) (x : mount) : mount :=
  mk_mount (m_self x) v (m_source x) (m_info x) (m_flags x) (m_fs x) (m_refcount x) (m_data x).
Definition set_m_source (v : path) (x : mount) : mount :=
  mk_mount (m_self x) (m_point x) v (m_info x) (m_flags x) (m_fs x) (m_refcount x) (m_data x).
Definition set_m_info (v : path) (x : mount) : mount :=
  mk_mount (m_self x) (m_point x) (m_source x) v (m_flags x) (m_fs x) (m_refcount x) (m_data x).
Definition set_m_flags (v : Z) (x : mount) : mount :=
  mk_mount (m_self x) (m_point x) (m_source x) (m_info x) v (m_fs x) (m_refcount x) (m_data x).
Definition set_m_fs (v : Z) (x : mount) : mount :=
  mk_mount (m_self x) (m_point x) (m_source x) (m_info x) (m_flags x) v (m_refcount x) (m_data x).
Definition set_m_refcount (v : Z) (x : mount) : mount :=
  mk_mount (m_self x) (m_point x) (m_source x) (m_info x) (m_flags x) (m_fs x) v (m_data x).
Definition set_m_data (v : option Z) (x : mount) : mount :=
  mk_mount (m_self x) (m_point x) (m_source x) (m_info x) (m_flags x) (m_fs x) (m_refcount x) v.

(** [struct fd]: what the operations on every file use, and the members of the union that tmpfs uses. *)
Record fd := mk_fd {
  fd_refcount : Z;
  fd_flags : Z;
  fd_type : Z;
  fd_ops_of : Z;
  fd_offset : Z;
  fd_mount : option Z;
  fd_inode : option Z;
  fd_dirent : option Z;
  fd_dir_pos : option Z }.
Definition set_fd_refcount (v : Z) (x : fd) : fd :=
  mk_fd v (fd_flags x) (fd_type x) (fd_ops_of x) (fd_offset x) (fd_mount x) (fd_inode x) (fd_dirent x) (fd_dir_pos x).
Definition set_fd_flags (v : Z) (x : fd) : fd :=
  mk_fd (fd_refcount x) v (fd_type x) (fd_ops_of x) (fd_offset x) (fd_mount x) (fd_inode x) (fd_dirent x) (fd_dir_pos x).
Definition set_fd_type (v : Z) (x : fd) : fd :=
  mk_fd (fd_refcount x) (fd_flags x) v (fd_ops_of x) (fd_offset x) (fd_mount x) (fd_inode x) (fd_dirent x) (fd_dir_pos x).
Definition set_fd_ops_of (v : Z) (x : fd) : fd :=
  mk_fd (fd_refcount x) (fd_flags x) (fd_type x) v (fd_offset x) (fd_mount x) (fd_inode x) (fd_dirent x) (fd_dir_pos x).
Definition set_fd_offset (v : Z) (x : fd) : fd :=
  mk_fd (fd_refcount x) (fd_flags x) (fd_type x) (fd_ops_of x) v (fd_mount x) (fd_inode x) (fd_dirent x) (fd_dir_pos x).
Definition set_fd_mount (v : option Z) (x : fd) : fd :=
  mk_fd (fd_refcount x) (fd_flags x) (fd_type x) (fd_ops_of x) (fd_offset x) v (fd_inode x) (fd_dirent x) (fd_dir_pos x).
Definition set_fd_inode (v : option Z) (x : fd) : fd :=
  mk_fd (fd_refcount x) (fd_flags x) (fd_type x) (fd_ops_of x) (fd_offset x) (fd_mount x) v (fd_dirent x) (fd_dir_pos x).
Definition set_fd_dirent (v : option Z) (x : fd) : fd :=
  mk_fd (fd_refcount x) (fd_flags x) (fd_type x) (fd_ops_of x) (fd_offset x) (fd_mount x) (fd_inode x) v (fd_dir_pos x).
Definition set_fd_dir_pos (v : option Z) (x : fd) : fd :=
  mk_fd (fd_refcount x) (fd_flags x) (fd_type x) (fd_ops_of x) (fd_offset x) (fd_mount x) (fd_inode x) (fd_dirent x) v.

(** [struct inode_data]. *)
Record inode_data := mk_inode {
  i_refcount : Z;
  i_number : Z;
  i_mount : Z;
  i_locks : list FileLock.file_lock;
  i_socket_id : Z }.
Definition set_i_refcount (v : Z) (x : inode_data) : inode_data :=
  mk_inode v (i_number x) (i_mount x) (i_locks x) (i_socket_id x).
Definition set_i_number (v : Z) (x : inode_data) : inode_data :=
  mk_inode (i_refcount x) v (i_mount x) (i_locks x) (i_socket_id x).
Definition set_i_mount (v : Z) (x : inode_data) : inode_data :=
  mk_inode (i_refcount x) (i_number x) v (i_locks x) (i_socket_id x).
Definition set_i_locks (v : list FileLock.file_lock) (x : inode_data) : inode_data :=
  mk_inode (i_refcount x) (i_number x) (i_mount x) v (i_socket_id x).
Definition set_i_socket_id (v : Z) (x : inode_data) : inode_data :=
  mk_inode (i_refcount x) (i_number x) (i_mount x) (i_locks x) v.

(** [struct fdtable]; [size] is the length of [files], and the bits of [cloexec] fill whole bytes. *)
Record fdtable := mk_fdtable {
  ft_refcount : Z;
  ft_files : list (option Z);
  ft_cloexec : list bool }.
Definition set_ft_refcount (v : Z) (x : fdtable) : fdtable :=
  mk_fdtable v (ft_files x) (ft_cloexec x).
Definition set_ft_files (v : list (option Z)) (x : fdtable) : fdtable :=
  mk_fdtable (ft_refcount x) v (ft_cloexec x).
Definition set_ft_cloexec (v : list bool) (x : fdtable) : fdtable :=
  mk_fdtable (ft_refcount x) (ft_files x) v.
Definition ft_size (t : fdtable) : Z := Z.of_nat (length (ft_files t)).

(** [struct fs_info]. *)
Record fs_info := mk_fs_info {
  umask : Z;
  pwd : option Z;
  root : option Z }.
Definition set_umask (v : Z) (x : fs_info) : fs_info :=
  mk_fs_info v (pwd x) (root x).
Definition set_pwd (v : option Z) (x : fs_info) : fs_info :=
  mk_fs_info (umask x) v (root x).
Definition set_root (v : option Z) (x : fs_info) : fs_info :=
  mk_fs_info (umask x) (pwd x) v.

(** What the current task has: its credentials, its descriptor table, its [fs_info] and its limit of open files. *)
Record task := mk_task {
  uid : Z;
  euid : Z;
  gid : Z;
  egid : Z;
  pid : Z;
  files : Z;
  fs : fs_info;
  nofile : Z }.
Definition set_uid (v : Z) (x : task) : task :=
  mk_task v (euid x) (gid x) (egid x) (pid x) (files x) (fs x) (nofile x).
Definition set_euid (v : Z) (x : task) : task :=
  mk_task (uid x) v (gid x) (egid x) (pid x) (files x) (fs x) (nofile x).
Definition set_gid (v : Z) (x : task) : task :=
  mk_task (uid x) (euid x) v (egid x) (pid x) (files x) (fs x) (nofile x).
Definition set_egid (v : Z) (x : task) : task :=
  mk_task (uid x) (euid x) (gid x) v (pid x) (files x) (fs x) (nofile x).
Definition set_pid (v : Z) (x : task) : task :=
  mk_task (uid x) (euid x) (gid x) (egid x) v (files x) (fs x) (nofile x).
Definition set_files (v : Z) (x : task) : task :=
  mk_task (uid x) (euid x) (gid x) (egid x) (pid x) v (fs x) (nofile x).
Definition set_fs (v : fs_info) (x : task) : task :=
  mk_task (uid x) (euid x) (gid x) (egid x) (pid x) (files x) v (nofile x).
Definition set_nofile (v : Z) (x : task) : task :=
  mk_task (uid x) (euid x) (gid x) (egid x) (pid x) (files x) (fs x) v.

Section State.
Context {F : Type}.

(** The whole state.  [mounts] is the list in its order; [inodes_hash] the chains of the hash table, by index. *)
Record vfs := mk_vfs {
  fsd : F;
  mounts : list mount;
  fds : gmap Z fd;
  inodes : gmap Z inode_data;
  inodes_hash : gmap Z (list Z);
  tables : gmap Z fdtable;
  current : task;
  next : Z }.
Definition set_fsd (v : F) (x : vfs) : vfs :=
  mk_vfs v (mounts x) (fds x) (inodes x) (inodes_hash x) (tables x) (current x) (next x).
Definition set_mounts (v : list mount) (x : vfs) : vfs :=
  mk_vfs (fsd x) v (fds x) (inodes x) (inodes_hash x) (tables x) (current x) (next x).
Definition set_fds (v : gmap Z fd) (x : vfs) : vfs :=
  mk_vfs (fsd x) (mounts x) v (inodes x) (inodes_hash x) (tables x) (current x) (next x).
Definition set_inodes (v : gmap Z inode_data) (x : vfs) : vfs :=
  mk_vfs (fsd x) (mounts x) (fds x) v (inodes_hash x) (tables x) (current x) (next x).
Definition set_inodes_hash (v : gmap Z (list Z)) (x : vfs) : vfs :=
  mk_vfs (fsd x) (mounts x) (fds x) (inodes x) v (tables x) (current x) (next x).
Definition set_tables (v : gmap Z fdtable) (x : vfs) : vfs :=
  mk_vfs (fsd x) (mounts x) (fds x) (inodes x) (inodes_hash x) v (current x) (next x).
Definition set_current (v : task) (x : vfs) : vfs :=
  mk_vfs (fsd x) (mounts x) (fds x) (inodes x) (inodes_hash x) (tables x) v (next x).
Definition set_next (v : Z) (x : vfs) : vfs :=
  mk_vfs (fsd x) (mounts x) (fds x) (inodes x) (inodes_hash x) (tables x) (current x) v.

(** ** The monad *)

Inductive outcome (A : Type) :=
  | Ret (a : A) (s : vfs)
  | Abort
  | Fault
  | Hang.

Definition V (A : Type) := vfs -> outcome A.

End State.
Arguments vfs : clear implicits.
Arguments outcome F A : clear implicits.
Arguments V F A : clear implicits.
Arguments Ret {F A} _ _.
Arguments Abort {F A}.
Arguments Fault {F A}.
Arguments Hang {F A}.

Definition ret {F A} (a : A) : V F A := fun s => Ret a s.
Definition bind {F A B} (m : V F A) (f : A -> V F B) : V F B := fun s =>
  match m s with Ret a s' => f a s' | Abort => Abort | Fault => Fault | Hang => Hang end.
Definition abort {F A} : V F A := fun _ => Abort.
Definition fault {F A} : V F A := fun _ => Fault.
Definition hang {F A} : V F A := fun _ => Hang.
Definition gets {F A} (f : vfs F -> A) : V F A := fun s => Ret (f s) s.
Definition modify {F} (f : vfs F -> vfs F) : V F unit := fun s => Ret tt (f s).
Definition assert {F} (b : bool) : V F unit := if b then ret tt else abort.
(** An access that must be inside of its object. *)
Definition in_bounds {F} (b : bool) : V F unit := if b then ret tt else fault.
(** Read through a pointer. *)
Definition deref {F A} (o : option A) : V F A := match o with Some a => ret a | None => fault end.

Declare Scope vfs_scope.
Delimit Scope vfs_scope with vfs.
Notation "'let!' x := m 'in' f" := (bind m (fun x => f))
  (at level 10, x pattern, m at level 100, f at level 200) : vfs_scope.
Notation "m ;; f" := (bind m (fun _ => f)) (at level 100, f at level 200, right associativity) : vfs_scope.
Open Scope vfs_scope.

Definition get_fd {F} (f : Z) : V F fd := let! s := gets id in deref (fds s !! f).
Definition upd_fd {F} (f : Z) (g : fd -> fd) : V F unit :=
  let! x := get_fd f in modify (fun s => set_fds (<[f := g x]> (fds s)) s).
Definition get_table {F} (t : Z) : V F fdtable := let! s := gets id in deref (tables s !! t).
Definition upd_table {F} (t : Z) (g : fdtable -> fdtable) : V F unit :=
  let! x := get_table t in modify (fun s => set_tables (<[t := g x]> (tables s)) s).
Definition get_inode {F} (i : Z) : V F inode_data := let! s := gets id in deref (inodes s !! i).
Definition upd_inode {F} (i : Z) (g : inode_data -> inode_data) : V F unit :=
  let! x := get_inode i in modify (fun s => set_inodes (<[i := g x]> (inodes s)) s).
Definition upd_current {F} (g : task -> task) : V F unit := modify (fun s => set_current (g (current s)) s).
(** [malloc], which does not fail: a fresh address. *)
Definition malloc {F} : V F Z :=
  let! s := gets id in modify (set_next (next s + 1)) ;; ret (next s).

Fixpoint for_each {F A} (l : list A) (body : A -> V F unit) : V F unit :=
  match l with
  | [] => ret tt
  | x :: l => body x ;; for_each l body
  end.

(** ** Operations of a file system and of an open file

    The results of operations that only look something up are read off the state: [None] is a look-up that
    faults.  A sum is an error number on the left.  Functions that are compared by address come with one. *)

Inductive attr := attr_uid (u : Z) | attr_gid (g : Z) | attr_mode (m : Z) | attr_size (z : Z).

Record fs_ops (F : Type) := mk_fs_ops {
  fs_name : path;
  fs_mount : option (mount -> V F (Z * mount));
  fs_umount : option (Z -> V F Z);
  fs_open : Z -> path -> Z -> Z -> V F (Z + Z);
  fs_readlink : option (Z -> path -> Z -> vfs F -> option (Z + path));
  fs_link : option (Z -> path -> path -> V F Z);
  fs_unlink : option (Z -> path -> V F Z);
  fs_rmdir : option (Z -> path -> V F Z);
  fs_rename : option (Z -> path -> path -> V F Z);
  fs_symlink : option (Z -> path -> path -> V F Z);
  fs_mknod : option (Z -> path -> Z -> Z -> V F Z);
  fs_mkdir : option (Z -> path -> Z -> V F Z);
  fs_close : option (Z * (Z -> V F Z));
  fs_stat : Z -> path -> vfs F -> option (Z + statbuf);
  fs_fstat : Z -> vfs F -> option (Z + statbuf);
  fs_setattr : option (Z -> path -> attr -> V F Z);
  fs_utime : option (Z -> path -> Z * Z -> Z * Z -> V F Z);
  fs_getpath : Z -> vfs F -> option (Z + path);
  fs_inode_orphaned : option (Z -> Z -> V F unit) }.
Arguments fs_name {F}.
Arguments fs_mount {F}.
Arguments fs_umount {F}.
Arguments fs_open {F}.
Arguments fs_readlink {F}.
Arguments fs_link {F}.
Arguments fs_unlink {F}.
Arguments fs_rmdir {F}.
Arguments fs_rename {F}.
Arguments fs_symlink {F}.
Arguments fs_mknod {F}.
Arguments fs_mkdir {F}.
Arguments fs_close {F}.
Arguments fs_stat {F}.
Arguments fs_fstat {F}.
Arguments fs_setattr {F}.
Arguments fs_utime {F}.
Arguments fs_getpath {F}.
Arguments fs_inode_orphaned {F}.

(** [ops_lseek] is the result of seeking by 0 from the current position. *)
Record fd_ops (F : Type) := mk_fd_ops {
  ops_close : option (Z * (Z -> V F Z));
  ops_getflags : option (Z -> vfs F -> option Z);
  ops_setflags : option (Z -> Z -> V F Z);
  ops_lseek : option (Z -> vfs F -> option Z) }.
Arguments ops_close {F}.
Arguments ops_getflags {F}.
Arguments ops_setflags {F}.
Arguments ops_lseek {F}.

(** The tables of operations the pointers [m_fs] and [fd_ops_of] lead to; and the device with a major number, if there is one:
    the operations of its files, and what opening it does. *)
Inductive dev_kind := DEV_BLOCK | DEV_CHAR.
Class System (F : Type) := {
  filesystem : Z -> fs_ops F;
  fdops : Z -> fd_ops F;
  device : dev_kind -> Z -> option (Z * option (Z -> Z -> Z -> V F Z));
}.

(** ** Permissions (kernel/task.h, kernel/fs.c) *)

Definition superuser (t : task) : bool := euid t =? 0.

Definition access_check (t : task) (stat : statbuf) (check : Z) : Z :=
  if superuser t then 0
  else if check =? 0 then 0
  else
    let check :=
      if euid t =? st_uid stat then Z.shiftl check 6
      else if egid t =? st_gid stat then Z.shiftl check 3
      else check in
    if Z.land (st_mode stat) check =? 0 then _EACCES else 0.

(** ** Facts on the monad *)

Section Facts.
Context {F : Type}.

Lemma bind_run {A B} (m : V F A) (f : A -> V F B) s b s' :
  bind m f s = Ret b s' <-> exists a s1, m s = Ret a s1 /\ f a s1 = Ret b s'.
Proof.
  unfold bind. split.
  - intros H. destruct (m s) as [a s1| | |]; [|discriminate..]. eauto.
  - by intros (a & s1 & -> & H).
Qed.
Lemma bind_step {A B} (m : V F A) (f : A -> V F B) s a s1 : m s = Ret a s1 -> bind m f s = f a s1.
Proof. unfold bind. by intros ->. Qed.
Lemma ret_Ret {A} (a b : A) (s s' : vfs F) : ret a s = Ret b s' <-> a = b /\ s = s'.
Proof. unfold ret. split; [intros [= -> ->]; done|intros [-> ->]; done]. Qed.
Lemma gets_Ret {A} (f : vfs F -> A) s b s' : gets f s = Ret b s' <-> f s = b /\ s = s'.
Proof. unfold gets. split; [intros [= -> ->]; done|intros [-> ->]; done]. Qed.
Lemma modify_Ret (f : vfs F -> vfs F) s b s' : modify f s = Ret b s' <-> f s = s'.
Proof. unfold modify. destruct b. split; [intros [= ->]; done|intros ->; done]. Qed.
Lemma assert_Ret b s a (s' : vfs F) : assert b s = Ret a s' <-> b = true /\ s = s'.
Proof. unfold assert, ret, abort. destruct b, a; naive_solver. Qed.
Lemma in_bounds_Ret b s a (s' : vfs F) : in_bounds b s = Ret a s' <-> b = true /\ s = s'.
Proof. unfold in_bounds, ret, fault. destruct b, a; naive_solver. Qed.
Lemma deref_Ret {A} (o : option A) s a (s' : vfs F) : deref o s = Ret a s' <-> o = Some a /\ s = s'.
Proof. unfold deref, ret, fault. destruct o; naive_solver. Qed.

End Facts.

(** The first step of a run that returned. *)
Tactic Notation "vbind" hyp(H) "as" simple_intropattern(p) := rewrite bind_run in H; destruct H as p.

(** Take a run that returned apart into the runs of its steps. *)
Ltac vsub E :=
  lazymatch type of E with ?x = ?y => first [is_var y; subst y | is_var x; subst x | idtac] end.
Ltac vsplit H := let E := fresh "E" in destruct H as [H E]; vsub E.
Ltac vinv H :=
  lazymatch type of H with
  | bind _ _ _ = Ret _ _ =>
      let a := fresh "a" in let s := fresh "s" in let E := fresh "E" in
      rewrite bind_run in H; destruct H as (a & s & E & H); cbv beta in H; vinv E; vinv H
  | ret _ _ = Ret _ _ => rewrite ret_Ret in H; vsplit H; try vsub H
  | gets _ _ = Ret _ _ => rewrite gets_Ret in H; unfold id in H; vsplit H; try vsub H
  | modify _ _ = Ret _ _ => rewrite modify_Ret in H; try vsub H
  | assert _ _ = Ret _ _ => rewrite assert_Ret in H; vsplit H
  | in_bounds _ _ = Ret _ _ => rewrite in_bounds_Ret in H; vsplit H
  | deref _ _ = Ret _ _ => rewrite deref_Ret in H; vsplit H
  | abort _ = Ret _ _ => discriminate H
  | fault _ = Ret _ _ => discriminate H
  | hang _ = Ret _ _ => discriminate H
  | _ => idtac
  end.

End Vfs.
