(* ===== verification/Path.v ===== *)
(** * Paths and mounts (fs/path.c, and of fs/mount.c and fs/generic.c what paths need)

    [path_normalize] turns the path of a system call into an absolute path without links, ".", ".." and doubled slashes:
    it copies components into a buffer, drops the last one at "..", asks the file system of every prefix whether it is a
    link, and starts again with the link expanded.  The reference it is compared with, [walk], works on lists of
    components. *)

From S2P Require Import Prelude Errno Vfs.

Module Path.
Import Errno Vfs.

(** ** Normalized paths *)

(** The loop of [path_is_normalized] behind the first slash; [after_slash] is whether the last character was one. *)
Fixpoint normalized_from (after_slash : bool) (path : path) : bool :=
  match path with
  | [] => true
  | c :: path =>
      if (c =? slash)%char then if after_slash then false else normalized_from true path
      else normalized_from false path
  end.

Definition path_is_normalized (path : path) : bool :=
  match path with
  | [] => true
  | c :: path => if (c =? slash)%char then normalized_from true path else false
  end.

(** The characters [path_next_component] copies, with what is left of the path: at most [room] of them. *)
Fixpoint take_component (path : path) (room : nat) : option (list ascii * list ascii) :=
  match path with
  | [] => Some ([], [])
  | c :: p =>
      if (c =? slash)%char then Some ([], path)
      else match room with
           | O | S O => None
           | S room => prod_map (cons c) id <$> take_component p room
           end
  end.

(** The results of [path_next_component]: the end of the path, an error, or a component and the rest of the path. *)
Inductive next_component :=
  | path_end
  | path_error (err : Z)
  | path_component (component path : list ascii).

Definition path_next_component (p : path) : option next_component :=
  match p with
  | [] => Some path_end
  | c :: p =>
      if (c =? slash)%char then
        match take_component p (Z.to_nat MAX_NAME) with
        | None => Some (path_error _ENAMETOOLONG)
        | Some (component, p) => Some (path_component component p)
        end
      else None
  end.

(** ** Mounts *)

(** The mount at an address; one that is not on the list has been freed. *)
Definition get_mount {F} (a : Z) : V F mount :=
  let! s := gets id in deref (List.find (fun m => m_self m =? a) (mounts s)).
Definition upd_mount {F} (a : Z) (f : mount -> mount) : V F unit :=
  get_mount a ;;
  modify (fun s => set_mounts ((fun m => if m_self m =? a then f m else m) <$> mounts s) s).

Definition mount_retain {F} (a : Z) : V F unit :=
  upd_mount a (fun m => set_m_refcount (u32 (m_refcount m + 1)) m).
Definition mount_release {F} (a : Z) : V F unit :=
  upd_mount a (fun m => set_m_refcount (u32 (m_refcount m - 1)) m).

(** The condition of the loop of [mount_find]. *)
Definition on_mount (path : path) (m : mount) : bool :=
  let n := length (m_point m) in
  bool_decide (take n path = m_point m) && ((char_at path n =? slash)%char || (char_at path n =? NUL)%char).

Definition mount_find {F} (path : path) : V F mount :=
  assert (path_is_normalized path) ;;
  let! s := gets id in
  assert (negb (bool_decide (mounts s = []))) ;;
  let! m := deref (List.find (on_mount path) (mounts s)) in
  mount_retain (m_self m) ;;
  ret m.

Definition find_mount_and_trim_path {F} (path : path) : V F (mount * list ascii) :=
  let! m := mount_find path in
  ret (m, drop (length (m_point m)) path).

(** ** Normalization *)

(** [while ( *p == '/') p++], with [p[-1]] beside [p]: there is none at the start of the string. *)
Fixpoint eat_slashes (prev : option ascii) (p : path) : option ascii * path :=
  match p with
  | c :: p' => if (c =? slash)%char then eat_slashes (Some c) p' else (prev, p)
  | [] => (prev, p)
  end.

(** [while ( *p != '/' && *p != 0 && --n > 0) *o++ = *p++]; the output is kept in reverse. *)
Fixpoint copy (prev : option ascii) (p o : path) (n : Z) : option ascii * path * path * Z :=
  match p with
  | [] => (prev, p, o, n)
  | c :: p' =>
      if (c =? slash)%char then (prev, p, o, n)
      else if n - 1 >? 0 then copy (Some c) p' (c :: o) (n - 1)
      else (prev, p, o, n - 1)
  end.

(** [do { o--; n++; } while ( *o != '/')]; none when it leaves the buffer. *)
Fixpoint pop (o : path) (n : Z) : option (path * Z) :=
  match o with
  | [] => None
  | c :: o => if (c =? slash)%char then Some (o, n + 1) else pop o (n + 1)
  end.

(** What is in a buffer up to the terminator. *)
Fixpoint cstring (s : path) : path :=
  match s with
  | [] => []
  | c :: s => if (c =? NUL)%char then [] else c :: cstring s
  end.

Definition ends_component (c : ascii) : bool := (c =? NUL)%char || (c =? slash)%char.

Section WithSystem.
Context {F : Type} `{!System F}.

(** [mount->fs->readlink], when there is one. *)
Definition readlink (m : mount) (path : path) (bufsize : Z) : V F (Z + list ascii) :=
  match fs_readlink (filesystem (m_fs m)) with
  | None => ret (inl _EINVAL)
  | Some f => let! s := gets id in deref (f (m_self m) path bufsize s)
  end.

Definition stat (m : mount) (path : path) : V F (Z + statbuf) :=
  let! s := gets id in deref (fs_stat (filesystem (m_fs m)) (m_self m) path s).

(** The block of the loop that looks at the component just copied: what the function returns, or nothing if the loop
    goes on.  [prev] is [p[-1]], [o] and [o'] are the output before and after the component, in reverse, and [again]
    is the recursive call. *)
Definition check_component (follow : bool) (levels : Z) (again : path -> V F (Z + path))
    (prev : option ascii) (p o o' : path) : V F (option (Z + path)) :=
  if follow || negb (bool_decide (p = [])) then
    in_bounds (strlen o' <? MAX_PATH) ;;
    let! (mount, possible_symlink) := find_mount_and_trim_path (rev o') in
    assert (path_is_normalized possible_symlink) ;;
    let! res := readlink mount possible_symlink (MAX_PATH - (strlen o + 1)) in
    match res with
    | inr target =>
        mount_release (m_self mount) ;;
        if levels >=? 5 then ret (Some (inl _ELOOP))
        else
          in_bounds (strlen o + 1 + strlen target <? MAX_PATH) ;;
          let t := cstring target in
          let out := if (char_at t 0 =? slash)%char then t else rev (slash :: o) ++ t in
          let! r :=
            if bool_decide (p = []) then again out
            else in_bounds (strlen out + 1 + strlen p <? MAX_PATH) ;; again (out ++ slash :: p) in
          ret (Some r)
    | inl _ =>
        let! last := deref prev in
        if (last =? slash)%char then
          let! err := stat mount possible_symlink in
          mount_release (m_self mount) ;;
          match err with
          | inr stat =>
              let! s := gets id in
              if negb (S_ISDIR (st_mode stat)) then ret (Some (inl _ENOTDIR))
              else if access_check (current s) stat AC_X <? 0 then ret (Some (inl (access_check (current s) stat AC_X)))
              else ret None
          | inl _ => ret None
          end
        else mount_release (m_self mount) ;; ret None
    end
  else ret None.

(** The main loop of [__path_normalize]. *)
Fixpoint normalize_loop (fuel : nat) (follow : bool) (levels : Z) (again : path -> V F (Z + path))
    (prev : option ascii) (p o : path) (n : Z) : V F (Z + path) :=
  match fuel with
  | O => hang
  | S fuel =>
    match p with
    | [] =>
        in_bounds (strlen o <? MAX_PATH) ;;
        assert (path_is_normalized (rev o)) ;;
        ret (inr (rev o))
    | c :: p' =>
        if (c =? dot)%char && ends_component (char_at p 1) then
          let '(prev, p) := eat_slashes (Some c) p' in
          normalize_loop fuel follow levels again prev p o n
        else if (c =? dot)%char && (char_at p 1 =? dot)%char && ends_component (char_at p 2) then
          let! (o, n) := match o with [] => ret (o, n) | _ => deref (pop o n) end in
          let '(prev, p) := eat_slashes (Some dot) (drop 2 p) in
          normalize_loop fuel follow levels again prev p o n
        else
          let '(prev, p, o', n) := copy prev p (slash :: o) (n - 1) in
          let '(prev, p) := eat_slashes prev p in
          in_bounds (strlen o' <=? MAX_PATH) ;;
          if n =? 0 then ret (inl _ENAMETOOLONG)
          else
            let! r := check_component follow levels again prev p o o' in
            match r with
            | Some r => ret r
            | None => normalize_loop fuel follow levels again prev p o' n
            end
    end
  end.

(** [depth] bounds the recursion, which the code bounds by [levels]. *)
Fixpoint __path_normalize (depth : nat) (at_path : option path) (path : path) (flags levels : Z) : V F (Z + list ascii) :=
  match depth with
  | O => hang
  | S depth =>
      assert (if has flags N_SYMLINK_FOLLOW then negb (has flags N_SYMLINK_NOFOLLOW)
              else has flags N_SYMLINK_NOFOLLOW) ;;
      let n := MAX_PATH - 1 in
      if bool_decide (path = []) then ret (inl _ENOENT)
      else
        let! (o, n) :=
          match at_path with
          | Some a =>
              if bool_decide (a = [slash]) then ret ([], n)
              else in_bounds (strlen a <? MAX_PATH) ;; ret (rev a, n - strlen a)
          | None => ret ([], n)
          end in
        let '(prev, p) := eat_slashes None path in
        normalize_loop (S (S (length path))) (has flags N_SYMLINK_FOLLOW) levels
          (fun expanded => __path_normalize depth None expanded flags (levels + 1)) prev p o n
  end.

Definition generic_getpath (f : Z) : V F (Z + list ascii) :=
  let! fd := get_fd f in
  let! a := deref (fd_mount fd) in
  let! m := get_mount a in
  let! s := gets id in
  let! err := deref (fs_getpath (filesystem (m_fs m)) f s) in
  match err with
  | inl err => ret (inl err)
  | inr buf =>
      if strlen buf + strlen (m_point m) >=? MAX_PATH then ret (inl _ENAMETOOLONG)
      else
        let buf := m_point m ++ buf in
        ret (inr (if bool_decide (buf = []) then [slash] else buf))
  end.

(** The argument [at]: a file, or the special value for the working directory, or null. *)
Inductive at_fd := AT_NULL | AT_PWD | AT_FD (f : Z).

Definition path_normalize (at_ : at_fd) (path : path) (flags : Z) : V F (Z + list ascii) :=
  assert (match at_ with AT_NULL => false | _ => true end) ;;
  if bool_decide (path = []) then ret (inl _ENOENT)
  else
    let! s := gets id in
    let at_ :=
      if (char_at path 0 =? slash)%char then root (fs (current s))
      else match at_ with AT_FD f => Some f | _ => pwd (fs (current s)) end in
    match at_ with
    | Some f =>
        let! err := generic_getpath f in
        match err with
        | inl err => ret (inl err)
        | inr at_path =>
            assert (path_is_normalized at_path) ;;
            __path_normalize 6 (Some at_path) path flags 0
        end
    | None => __path_normalize 6 None path flags 0
    end.

End WithSystem.

(** ** Components *)

Fixpoint split (s : path) : list path :=
  match s with
  | [] => [[]]
  | c :: s =>
      if (c =? slash)%char then [] :: split s
      else match split s with
           | w :: ws => (c :: w) :: ws
           | [] => [[c]]
           end
  end.

(** The components of a path: what is between slashes, when it is not empty. *)
Definition components (s : path) : list path := List.filter (fun w => negb (bool_decide (w = []))) (split s).

(** The path of a list of components. *)
Definition render (st : list path) : path := mjoin (cons slash <$> st).

(** A component: not empty, without a slash or terminator. *)
Definition name_ok (w : path) : Prop := w <> [] /\ slash ∉ w /\ NUL ∉ w.
Definition plain_name (w : path) : Prop := name_ok w /\ w <> [dot] /\ w <> [dot; dot].

Definition ends_slash (s : path) : bool := bool_decide (last s = Some slash).

(** What "." and ".." do to a list of components. *)
Fixpoint lexical (st cs : list path) : list path :=
  match cs with
  | [] => st
  | c :: cs =>
      if bool_decide (c = [dot]) then lexical st cs
      else if bool_decide (c = [dot; dot]) then lexical (removelast st) cs
      else lexical (st ++ [c]) cs
  end.

Section Walk.
Context {F : Type} `{!System F}.

(** The mount a path is on, and the path on it. *)
Definition mount_of (s : vfs F) (p : path) : option (mount * path) :=
  m ← List.find (on_mount p) (mounts s); Some (m, drop (length (m_point m)) p).

(** The state in which a mount is held: a reference to it is counted. *)
Definition hold (m : mount) (s : vfs F) : vfs F :=
  set_mounts ((fun x => if m_self x =? m_self m then set_m_refcount (u32 (m_refcount x + 1)) x else x) <$> mounts s) s.

(** What reading the link at a list of components gives with [room] bytes for the target. *)
Definition link_at (s : vfs F) (st : list path) (room : Z) : option (Z + path) :=
  '(m, p) ← mount_of s (render st);
  match fs_readlink (filesystem (m_fs m)) with
  | None => Some (inl _EINVAL)
  | Some f => f (m_self m) p room (hold m s)
  end.

(** The check of a directory that is passed through: [0] or the error. *)
Definition search_at (s : vfs F) (st : list path) : option Z :=
  '(m, p) ← mount_of s (render st);
  r ← fs_stat (filesystem (m_fs m)) (m_self m) p (hold m s);
  Some (match r with
        | inl _ => 0
        | inr stat => if S_ISDIR (st_mode stat) then access_check (current s) stat AC_X else _ENOTDIR
        end).

(** What the component in [st'] = [st ++ [c]] with [cs] behind it leads to: the end of the resolution with a result, or
    nothing if it goes on.  A link is replaced by its target, and the resolution starts again from the root with the
    components so far. *)
Definition visit (again : list path -> bool -> option (Z + list path)) (s : vfs F) (follow : bool) (levels : Z)
    (st st' cs : list path) (trail : bool) : option (option (Z + list path)) :=
  let final := bool_decide (cs = []) in
  if follow || negb final then
    link ← link_at s st' (MAX_PATH - (strlen (render st) + 1));
    match link with
    | inr target =>
        if levels >=? 5 then Some (Some (inl _ELOOP))
        else
          let t := cstring target in
          Some <$> again ((if (char_at t 0 =? slash)%char then [] else st) ++ components t ++ cs)
                         (if final then ends_slash (slash :: t) else trail)
    | inl _ =>
        if negb final || trail then
          err ← search_at s st';
          Some (if err <? 0 then Some (inl err) else None)
        else Some None
    end
  else Some None.

(** Resolving the components [cs] from the directory [st].  [trail] is whether a slash follows the last one.  A path
    must be shorter than the buffer by two. *)
Fixpoint walk_comps (again : list path -> bool -> option (Z + list path)) (s : vfs F) (follow : bool) (levels : Z)
    (st cs : list path) (trail : bool) : option (Z + list path) :=
  match cs with
  | [] => Some (inr st)
  | c :: cs =>
      if bool_decide (c = [dot]) then walk_comps again s follow levels st cs trail
      else if bool_decide (c = [dot; dot]) then walk_comps again s follow levels (removelast st) cs trail
      else
        let st' := st ++ [c] in
        if MAX_PATH - 1 <=? strlen (render st') then Some (inl _ENAMETOOLONG)
        else
          r ← visit again s follow levels st st' cs trail;
          match r with
          | Some r => Some r
          | None => walk_comps again s follow levels st' cs trail
          end
  end.

(** At most five links are followed. *)
Fixpoint walk (depth : nat) (s : vfs F) (follow : bool) (levels : Z) (st cs : list path) (trail : bool) :
    option (Z + list path) :=
  match depth with
  | O => None
  | S depth => walk_comps (fun cs trail => walk depth s follow (levels + 1) [] cs trail) s follow levels st cs trail
  end.

End Walk.

(** *** Facts on components *)

Lemma eqb_slash c : (c =? slash)%char = true <-> c = slash.
Proof. apply Ascii.eqb_eq. Qed.
Lemma eqb_slash_ne c : c <> slash -> (c =? slash)%char = false.
Proof. apply Ascii.eqb_neq. Qed.

Lemma split_cons s : exists w ws, split s = w :: ws.
Proof. destruct s as [|c s]; cbn; [eauto|]. repeat case_match; eauto. Qed.

Lemma split_name w : slash ∉ w -> split w = [w].
Proof.
  induction w as [|c w IH]; intros H; [done|]. apply not_elem_of_cons in H as [Hc Hw].
  cbn [split]. rewrite eqb_slash_ne by done. by rewrite IH.
Qed.

Lemma components_nil : components [] = [].
Proof. done. Qed.
Lemma components_slash s : components (slash :: s) = components s.
Proof. done. Qed.
Lemma components_name w : name_ok w -> components w = [w].
Proof. intros (Hne & Hs & _). unfold components. rewrite split_name by done. cbn. by rewrite bool_decide_false. Qed.

Lemma split_join a b : split (a ++ slash :: b) = split a ++ split b.
Proof.
  induction a as [|c a IH]; [done|]. cbn [app split]. rewrite IH. destruct (split_cons a) as (w & ws & ->).
  by case_match.
Qed.
Lemma components_join a b : components (a ++ slash :: b) = components a ++ components b.
Proof. unfold components. by rewrite split_join, List.filter_app. Qed.

Lemma components_end a : components (a ++ [slash]) = components a.
Proof. rewrite components_join. cbn. apply app_nil_r. Qed.
Lemma components_app w s : name_ok w -> components (w ++ slash :: s) = w :: components s.
Proof. intros H. by rewrite components_join, components_name. Qed.

Lemma render_app st c : render (st ++ [c]) = render st ++ slash :: c.
Proof. unfold render. rewrite fmap_app, join_app. cbn. by rewrite app_nil_r. Qed.

Lemma components_render st : Forall name_ok st -> components (render st) = st.
Proof.
  induction st as [|c st IH] using rev_ind; [done|]. rewrite Forall_app, Forall_singleton. intros [Hst Hc].
  by rewrite render_app, components_join, IH, components_name.
Qed.

Lemma strlen_app a b : strlen (a ++ b) = strlen a + strlen b.
Proof. unfold strlen. rewrite length_app. lia. Qed.
Lemma strlen_cons c a : strlen (c :: a) = strlen a + 1.
Proof. unfold strlen. cbn. lia. Qed.
Lemma strlen_rev a : strlen (rev a) = strlen a.
Proof. unfold strlen. by rewrite length_rev. Qed.
Lemma strlen_nonneg a : 0 <= strlen a.
Proof. unfold strlen. lia. Qed.

(** *** The loops of the normalization *)

Lemma eat_slashes_spec prev p : exists k p',
  p = replicate k slash ++ p' /\ char_at p' 0 <> slash /\
  eat_slashes prev p = (if k is O then prev else Some slash, p').
Proof.
  revert prev. induction p as [|c p IH]; intros prev; [by exists O, []|].
  cbn [eat_slashes]. destruct (Ascii.eqb_spec c slash) as [->|Hc].
  - destruct (IH (Some slash)) as (k & p' & -> & Hp & ->). exists (S k), p'. split_and!; [done..|]. by destruct k.
  - exists O, (c :: p). done.
Qed.

Lemma components_slashes k s : components (replicate k slash ++ s) = components s.
Proof. induction k; [done|]. cbn [replicate app]. by rewrite components_slash. Qed.

(** A path that does not begin with a slash is a component and what is behind it. *)
Lemma first_component p : p <> [] -> char_at p 0 <> slash -> NUL ∉ p -> exists w q,
  p = w ++ q /\ name_ok w /\ (q = [] \/ exists q', q = slash :: q').
Proof.
  unfold name_ok. induction p as [|c p IH]; intros Hne Hc Hn; [done|]. cbn in Hc. apply not_elem_of_cons in Hn as [Hcn Hn].
  destruct p as [|d p]; [exists [c], []; set_solver|].
  destruct (Ascii.eqb_spec d slash) as [->|Hd].
  - exists [c], (slash :: p). split; [done|]. split; [|by eauto]. set_solver.
  - destruct IH as (w & q & E & (? & ? & ?) & Hq); [done|done|done|]. exists (c :: w), q. rewrite E. set_solver.
Qed.

Definition stops (q : path) : Prop := q = [] \/ exists q', q = slash :: q'.

Lemma copy_all w q prev o n : slash ∉ w -> stops q -> strlen w < n ->
  copy prev (w ++ q) o n = (match last w with Some c => Some c | None => prev end, q, rev w ++ o, n - strlen w).
Proof.
  revert prev o n. induction w as [|c w IH]; intros prev o n Hw Hq Hn.
  - cbn. replace (n - strlen []) with n by (unfold strlen; cbn; lia). by destruct Hq as [->|(q' & ->)].
  - apply not_elem_of_cons in Hw as [Hc Hw]. rewrite strlen_cons in *. pose proof (strlen_nonneg w). cbn [app copy].
    rewrite eqb_slash_ne by done. destruct (Z.gtb_spec (n - 1) 0); [|lia]. rewrite IH by (done || lia).
    cbn [rev]. rewrite <- app_assoc. cbn [app]. replace (n - 1 - strlen w) with (n - (strlen w + 1)) by lia.
    rewrite last_cons. by destruct (last w).
Qed.

Lemma copy_full w q prev o n : slash ∉ w -> 0 < n <= strlen w ->
  exists prev' p' o', copy prev (w ++ q) o n = (prev', p', o', 0) /\ strlen o' <= strlen o + n.
Proof.
  revert prev o n. induction w as [|c w IH]; intros prev o n Hw Hn; [unfold strlen in Hn; cbn in Hn; lia|].
  apply not_elem_of_cons in Hw as [Hc Hw]. rewrite strlen_cons in *. cbn [app copy]. rewrite eqb_slash_ne by done.
  destruct (Z.gtb_spec (n - 1) 0).
  - destruct (IH (Some c) (c :: o) (n - 1)) as (a & b & d & -> & Hd); [done|lia|]. rewrite strlen_cons in Hd.
    exists a, b, d. split; [done|lia].
  - replace n with 1 by lia. eexists _, _, _. split; [done|lia].
Qed.

Lemma copy_none w q prev o n : name_ok w -> n <= 0 -> copy prev (w ++ q) o n = (prev, w ++ q, o, n - 1).
Proof.
  intros (Hne & Hs & _) Hn. destruct w as [|c w]; [done|]. apply not_elem_of_cons in Hs as [Hc Hw]. cbn [app copy].
  rewrite eqb_slash_ne by done. destruct (Z.gtb_spec (n - 1) 0); [lia|done].
Qed.

Lemma pop_app w o n : slash ∉ w -> pop (rev w ++ slash :: o) n = Some (o, n + strlen w + 1).
Proof.
  revert n. induction w as [|c w IH] using rev_ind; intros n H.
  - cbn. by replace (n + strlen [] + 1) with (n + 1) by (unfold strlen; cbn; lia).
  - rewrite not_elem_of_app in H. destruct H as [Hw Hc]. rewrite rev_app_distr. cbn [rev app pop].
    rewrite eqb_slash_ne by set_solver. rewrite IH by done. do 2 f_equal. rewrite strlen_app. unfold strlen. cbn. lia.
Qed.

Lemma rev_render st c : rev (render (st ++ [c])) = rev c ++ slash :: rev (render st).
Proof. rewrite render_app, rev_app_distr. cbn [rev]. by rewrite <- app_assoc. Qed.

Lemma normalized_name b w s : slash ∉ w -> w <> [] -> normalized_from b (w ++ s) = normalized_from false s.
Proof.
  revert b. induction w as [|c w IH]; intros b Hs Hne; [done|]. apply not_elem_of_cons in Hs as [Hc Hw].
  cbn [app normalized_from]. rewrite eqb_slash_ne by done. destruct w; [done|]. by apply IH.
Qed.
Lemma normalized_render st : Forall name_ok st -> normalized_from false (render st) = true /\ path_is_normalized (render st) = true.
Proof.
  induction st as [|c st IH]; intros H; [done|]. apply Forall_cons in H as [(Hne & Hs & _) Hst].
  unfold render. cbn [fmap list_fmap mjoin list_join app]. cbn [normalized_from path_is_normalized].
  rewrite (proj2 (eqb_slash slash) eq_refl), normalized_name by done. by destruct (IH Hst).
Qed.

(** The loop of [path_is_normalized] rejects a doubled slash. *)
Lemma not_normalized_from b x : normalized_from b (x ++ [slash; slash]) = false.
Proof. revert b. induction x as [|c x IH]; intros b; [by destruct b|]. cbn [app normalized_from]. destruct (c =? slash)%char, b; auto. Qed.
Lemma not_normalized_end x : path_is_normalized (x ++ [slash; slash]) = false.
Proof. destruct x as [|c x]; [done|]. cbn [app path_is_normalized]. case_match; [apply not_normalized_from|done]. Qed.

Lemma normalized_drop p n b : normalized_from b p = true -> char_at p n = slash \/ (length p <= n)%nat ->
  path_is_normalized (drop n p) = true.
Proof.
  revert n b. induction p as [|c p IH]; intros n b Hn Hc; [by rewrite drop_nil|]. destruct n as [|n].
  - cbn in Hc. destruct Hc as [->|]; [|lia]. cbn in *. by destruct b.
  - cbn [drop]. cbn in Hn. assert (exists b', normalized_from b' p = true) as (b' & Hb) by (repeat case_match; by eauto).
    eapply IH; [exact Hb|]. cbn in Hc. destruct Hc; [by left|right; lia].
Qed.

Lemma char_at_end p n : NUL ∉ p -> char_at p n = NUL -> (length p <= n)%nat.
Proof.
  intros Hp Hc. destruct (decide (n < length p)%nat) as [Hlt|]; [|lia]. exfalso. apply Hp. unfold char_at in Hc.
  rewrite <- Hc. apply list_elem_of_In, nth_In. lia.
Qed.
Lemma last_app_ne {A} (a b : list A) : b <> [] -> last (a ++ b) = last b.
Proof. intros H. rewrite last_app. destruct b as [|x b _] using rev_ind; [done|]. by rewrite last_snoc. Qed.



Lemma single_dot c w q : name_ok (c :: w) -> stops q ->
  (c =? dot)%char && ends_component (char_at (c :: w ++ q) 1) = bool_decide (c :: w = [dot]).
Proof.
  intros (_ & Hs & Hn) Hq. apply not_elem_of_cons in Hs as [_ Hs], Hn as [_ Hn].
  destruct (Ascii.eqb_spec c dot) as [->|Hc]; [|symmetry; apply bool_decide_false; congruence].
  destruct w as [|d w]; [by destruct Hq as [->|(q' & ->)]|]. cbn. unfold ends_component. rewrite bool_decide_false by done.
  apply not_elem_of_cons in Hs as [Hs _], Hn as [Hn _]. apply orb_false_intro; by apply Ascii.eqb_neq.
Qed.

Lemma double_dot c w q : name_ok (c :: w) -> stops q ->
  (c =? dot)%char && (char_at (c :: w ++ q) 1 =? dot)%char && ends_component (char_at (c :: w ++ q) 2)
  = bool_decide (c :: w = [dot; dot]).
Proof.
  intros (_ & Hs & Hn) Hq. apply not_elem_of_cons in Hs as [_ Hs], Hn as [_ Hn].
  destruct (Ascii.eqb_spec c dot) as [->|Hc]; [|symmetry; apply bool_decide_false; congruence].
  destruct w as [|d w]; [by destruct Hq as [->|(q' & ->)]|]. apply not_elem_of_cons in Hs as [_ Hs], Hn as [_ Hn]. cbn.
  destruct (Ascii.eqb_spec d dot) as [->|Hd]; [|symmetry; apply bool_decide_false; congruence].
  destruct w as [|e w]; [by destruct Hq as [->|(q' & ->)]|]. cbn. unfold ends_component. rewrite bool_decide_false by done.
  apply not_elem_of_cons in Hs as [Hs _], Hn as [Hn _]. apply orb_false_intro; by apply Ascii.eqb_neq.
Qed.

(** What is behind a component, once the slashes are eaten. *)
Lemma behind_component w q prev : name_ok w -> stops q -> NUL ∉ q -> exists p x,
  eat_slashes (match last w with Some c => Some c | None => prev end) q = (Some x, p) /\
  components (w ++ q) = w :: components p /\ char_at p 0 <> slash /\ NUL ∉ p /\
  bool_decide (p = []) = bool_decide (components p = []) /\ (p <> [] -> ends_slash p = ends_slash (w ++ q)) /\
  (x =? slash)%char = negb (bool_decide (components p = [])) || ends_slash (w ++ q) /\ (length p < length (w ++ q))%nat.
Proof.
  intros Hw Hq Hn. destruct (eat_slashes_spec (match last w with Some c => Some c | None => prev end) q) as (k & p & -> & Hp & ->).
  assert (NUL ∉ p) as Hnp by (rewrite not_elem_of_app in Hn; tauto).
  destruct w as [|x w _] using rev_ind; [by destruct Hw|]. rewrite last_snoc in *.
  assert (bool_decide (p = []) = bool_decide (components p = [])) as Hb.
  { apply bool_decide_ext. split; [by intros ->|]. intros E. destruct (decide (p = [])) as [|Hne]; [done|].
    destruct (first_component p Hne Hp Hnp) as (v & q & -> & Hv & [->|(q' & ->)]);
      rewrite ?app_nil_r, ?components_name, ?components_app in E by done; done. }
  assert (forall y, p <> [] -> ends_slash p = ends_slash (y ++ p)) as Hends by (intros y Hne; unfold ends_slash; by rewrite last_app_ne).
  exists p. destruct k as [|k].
  - (* no slash: the end of the path *)
    cbn [replicate app] in *. assert (p = []) as -> by (destruct Hq as [->|(q' & ->)]; [done|]; by cbn in Hp).
    exists x. rewrite !app_nil_r, components_name by done. split_and!; try done; [|rewrite length_app; cbn; lia].
    unfold ends_slash. rewrite last_snoc. cbn. destruct Hw as (_ & Hs & _).
    rewrite eqb_slash_ne by (rewrite not_elem_of_app in Hs; set_solver). symmetry. apply bool_decide_false. intros [= ->]. set_solver.
  - exists slash. cbn [replicate app]. rewrite components_app, components_slashes by done. split_and!; try done.
    + intros Hne. rewrite (Hends ((w ++ [x]) ++ slash :: replicate k slash)) by done. by rewrite <- app_assoc.
    + destruct (decide (p = [])) as [->|Hne]; [|rewrite <- Hb, bool_decide_false by done; done].
      rewrite app_nil_r. unfold ends_slash. rewrite (last_app_ne (w ++ [x])) by done. cbn.
      symmetry. apply bool_decide_true. rewrite last_cons. clear. by induction k as [|[|k] IH].
    + rewrite !length_app. cbn. rewrite length_app. lia.
Qed.
Lemma strlen_render st w : strlen (render (st ++ [w])) = strlen (render st) + 1 + strlen w.
Proof. rewrite render_app, strlen_app, strlen_cons. lia. Qed.

Lemma component_cases w : name_ok w -> w = [dot] \/ w = [dot; dot] \/ plain_name w.
Proof.
  intros H. destruct (decide (w = [dot])); [by left|]. destruct (decide (w = [dot; dot])); [by right; left|].
  right; right. by split_and!.
Qed.

Lemma name_not_slash w q prev : name_ok w -> eat_slashes prev (w ++ q) = (prev, w ++ q).
Proof. intros (Hne & Hs & _). destruct w as [|c w]; [done|]. cbn. by rewrite eqb_slash_ne by set_solver. Qed.


(** *** Holding and releasing a mount *)

Section Refinement.
Context {F : Type} `{!System F}.
Implicit Types s : vfs F.

(** Reference counts are in the range of their type. *)
Definition mounts_ok s : Prop := Forall (fun m => in_u 32 (m_refcount m)) (mounts s).

Lemma get_mount_elem m s : m ∈ mounts s -> exists m', get_mount (m_self m) s = Ret m' s /\ m_self m' = m_self m.
Proof.
  intros H. unfold get_mount. rewrite (bind_step _ _ s s s) by done. unfold deref.
  destruct (List.find _ (mounts s)) as [m'|] eqn:E.
  - apply List.find_some in E as [_ E%Z.eqb_eq]. eauto.
  - apply list_elem_of_In, (List.find_none _ _ E) in H. rewrite Z.eqb_refl in H. done.
Qed.

Lemma mount_retain_hold m s : m ∈ mounts s -> mount_retain (m_self m) s = Ret tt (hold m s).
Proof.
  intros H. unfold mount_retain, upd_mount. destruct (get_mount_elem _ _ H) as (m' & E & _).
  by rewrite (bind_step _ _ _ _ _ E).
Qed.

Lemma hold_elem m s : m ∈ mounts s -> set_m_refcount (u32 (m_refcount m + 1)) m ∈ mounts (hold m s).
Proof.
  intros H. unfold hold. destruct s; cbn in *. apply list_elem_of_fmap. exists m. by rewrite Z.eqb_refl.
Qed.

Lemma u32_back x : in_u 32 x -> u32 (u32 (x + 1) - 1) = x.
Proof. intros H. unfold wrap. rewrite Zminus_mod_idemp_l. replace (x + 1 - 1) with x by lia. by apply wrap_small. Qed.

Lemma release_hold m s : mounts_ok s -> m ∈ mounts s -> mount_release (m_self m) (hold m s) = Ret tt s.
Proof.
  intros Hok H. unfold mount_release, upd_mount. destruct (get_mount_elem _ _ (hold_elem _ _ H)) as (m' & E & _).
  replace (m_self (set_m_refcount _ m)) with (m_self m) in E by (by destruct m). rewrite (bind_step _ _ _ _ _ E).
  unfold modify. f_equal. unfold mounts_ok in Hok. unfold hold. destruct s as [a ms b c d e f g]; cbn in *. unfold set_mounts; cbn. f_equal.
  clear E H m'. induction ms as [|x ms IH]; [done|]. apply Forall_cons in Hok as [Hx Hms]. cbn. rewrite IH by done. f_equal.
  destruct (m_self x =? m_self m) eqn:E; destruct x; cbn in *; rewrite E; [|done]. by rewrite u32_back.
Qed.

Lemma mount_of_elem s p m q : mount_of s p = Some (m, q) -> m ∈ mounts s /\ on_mount p m = true.
Proof. unfold mount_of. intros H. simplify_option_eq. destruct (List.find_some _ _ Heqo). by rewrite list_elem_of_In. Qed.

Lemma find_mount_Ret p s m q s1 : find_mount_and_trim_path p s = Ret (m, q) s1 ->
  mount_of s p = Some (m, q) /\ s1 = hold m s /\ path_is_normalized p = true.
Proof.
  intros H. unfold find_mount_and_trim_path, mount_find in H. vinv H. simplify_eq. unfold mount_of.
  match goal with H : List.find _ _ = Some _ |- _ => rewrite H; pose proof (List.find_some _ _ H) as [Hin _] end.
  match goal with H : mount_retain _ _ = _ |- _ => rewrite mount_retain_hold in H by (by apply list_elem_of_In) end. by simplify_eq.
Qed.

Lemma find_mount_hold p s m q : path_is_normalized p = true -> mount_of s p = Some (m, q) ->
  find_mount_and_trim_path p s = Ret (m, q) (hold m s).
Proof.
  intros Hp Hm. destruct (mount_of_elem _ _ _ _ Hm) as [Hin _]. unfold mount_of in Hm. simplify_option_eq.
  unfold find_mount_and_trim_path, mount_find. rewrite Hp. unfold bind at 1. cbn.
  rewrite bool_decide_false by (intros E; rewrite E in Hin; set_solver). cbn. rewrite Heqo. cbn.
  by rewrite (bind_step _ _ _ _ _ (mount_retain_hold _ _ Hin)).
Qed.

Lemma hold_current m s : current (hold m s) = current s.
Proof. by destruct s. Qed.

(** *** One component *)

(** The result [r] of the code is what the resolution [w] gives.  A path that is too long may get another error. *)
Definition agrees (w : option (Z + list path)) (r : Z + path) : Prop :=
  match r with
  | inl e => w = Some (inl e) \/ w = Some (inl _ENAMETOOLONG)
  | inr out => exists st, w = Some (inr st) /\ out = render st /\ Forall plain_name st /\ strlen out < MAX_PATH
  end.

Lemma cstring_no_nul t : NUL ∉ cstring t.
Proof. induction t as [|c t IH]; cbn; [set_solver|]. destruct (Ascii.eqb_spec c NUL); set_solver. Qed.
Lemma plain_names st : Forall plain_name st -> Forall name_ok st.
Proof. rewrite !Forall_elem. intros H x Hx. by apply H. Qed.
Lemma render_no_nul st : Forall name_ok st -> NUL ∉ render st.
Proof.
  unfold render. induction st as [|c st IH]; [set_solver|]. intros [(_ & _ & H) Hst]%Forall_cons.
  cbn. rewrite not_elem_of_cons, not_elem_of_app. specialize (IH Hst). done.
Qed.

Lemma readlink_Ret m p room s r s' : readlink m p room s = Ret r s' ->
  s' = s /\ match fs_readlink (filesystem (m_fs m)) with
            | None => Some (inl _EINVAL)
            | Some f => f (m_self m) p room s
            end = Some r.
Proof. unfold readlink. case_match; intros H'; vinv H'; done. Qed.
Lemma stat_Ret m p s r s' : stat m p s = Ret r s' -> s' = s /\ fs_stat (filesystem (m_fs m)) (m_self m) p s = Some r.
Proof. unfold stat. intros H'; vinv H'; done. Qed.

(** The expanded path, as components. *)
Lemma expanded_components t st p :
  Forall name_ok st ->
  let out := if (char_at t 0 =? slash)%char then t else rev (slash :: rev (render st)) ++ t in
  components out = (if (char_at t 0 =? slash)%char then [] else st) ++ components t /\
  components (out ++ slash :: p) = (if (char_at t 0 =? slash)%char then [] else st) ++ components t ++ components p /\
  out <> [] /\ ends_slash out = ends_slash (slash :: t).
Proof.
  intros Hst out. assert (components out = (if (char_at t 0 =? slash)%char then [] else st) ++ components t) as H.
  { unfold out. case_match; [done|]. cbn [rev]. rewrite rev_involutive, <- app_assoc. cbn [app].
    by rewrite components_join, components_render. }
  split_and!; [done|by rewrite components_join, H, app_assoc|..]; unfold out.
  - case_match; [by destruct t|]. cbn [rev]. rewrite rev_involutive. by destruct (render st).
  - unfold ends_slash. case_match.
    + destruct t; [done|]. by rewrite last_cons_cons.
    + cbn [rev]. rewrite rev_involutive. apply bool_decide_ext. rewrite last_app, last_cons, last_snoc. by destruct (last t).
Qed.

Section Again.
Context (s : vfs F) (follow : bool) (levels : Z) (again : path -> V F (Z + path)).
Context (again_spec : list path -> bool -> option (Z + list path)).
Hypothesis Hok : mounts_ok s.
Hypothesis Hagain : forall e r s', NUL ∉ e -> e <> [] -> again e s = Ret r s' ->
  s' = s /\ agrees (again_spec (components e) (ends_slash e)) r.

(** Expanding a link and starting again. *)
Lemma expand_sim st p trail target r s' :
  let final := bool_decide (components p = []) in
  let t := cstring target in
  let out := if (char_at t 0 =? slash)%char then t else rev (slash :: rev (render st)) ++ t in
  Forall name_ok st -> NUL ∉ p -> bool_decide (p = []) = final -> (p <> [] -> ends_slash p = trail) ->
  (if final then again out else in_bounds (strlen out + 1 + strlen p <? MAX_PATH) ;; again (out ++ slash :: p)) s = Ret r s' ->
  s' = s /\ agrees (again_spec ((if (char_at t 0 =? slash)%char then [] else st) ++ components t ++ components p)
                      (if final then ends_slash (slash :: t) else trail)) r.
Proof.
  intros final t out Hn Hp Hfin Htrail H.
  destruct (expanded_components t st p Hn) as (C1 & C2 & C3 & C4). fold out in C1, C2, C3, C4.
  assert (NUL ∉ out) as Hout.
  { unfold out. case_match; [apply cstring_no_nul|]. cbn [rev]. rewrite rev_involutive, !not_elem_of_app.
    pose proof (cstring_no_nul target). pose proof (render_no_nul st Hn). set_solver. }
  destruct final.
  - apply bool_decide_eq_true in Hfin as ->. apply Hagain in H as [-> Ha]; [|done..].
    rewrite components_nil, app_nil_r, <- C1, <- C4. done.
  - apply bool_decide_eq_false in Hfin. vbind H as ([] & s7 & E7 & H). vinv E7.
    apply Hagain in H as [-> Ha]; [|rewrite not_elem_of_app, not_elem_of_cons; done|by destruct out].
    rewrite <- C2, <- (Htrail Hfin). unfold ends_slash in *. rewrite (last_app_ne out (slash :: p)), last_cons in Ha by done.
    destruct (last p) eqn:E; [done|]. by apply last_None in E.
Qed.

Lemma check_component_sim st c p prev trail x r s' :
  let final := bool_decide (components p = []) in
  Forall plain_name (st ++ [c]) -> NUL ∉ p -> bool_decide (p = []) = final -> (p <> [] -> ends_slash p = trail) ->
  prev = Some x -> (x =? slash)%char = negb final || trail ->
  check_component follow levels again prev p (rev (render st)) (rev (render (st ++ [c]))) s = Ret r s' ->
  s' = s /\
  match r with
  | Some r => exists w, visit again_spec s follow levels st (st ++ [c]) (components p) trail = Some (Some w) /\ agrees (Some w) r
  | None => visit again_spec s follow levels st (st ++ [c]) (components p) trail = Some None
  end.
Proof.
  intros final Hst Hp Hfin Htrail -> Hx H. unfold check_component in H. unfold visit. fold final. rewrite Hfin in H.
  destruct (follow || negb final); [|vinv H; done]. vbind H as ([] & s1 & E & H). vinv E.
  vbind H as ([m q] & s2 & E2 & H). apply find_mount_Ret in E2 as (Hm & -> & _).
  rewrite rev_involutive, strlen_rev in *. destruct (mount_of_elem _ _ _ _ Hm) as [Hin _].
  vbind H as ([] & s3 & E3 & H). vinv E3.
  vbind H as (res & s4 & E4 & H). apply readlink_Ret in E4 as [-> E4].
  unfold link_at. rewrite Hm. cbn [mbind option_bind]. rewrite E4. cbn [mbind option_bind].
  destruct res as [e|target].
  - vbind H as (y & s5 & E5 & H). vinv E5. injection E5 as <-. rewrite Hx in H.
    destruct (negb final || trail); vbind H as (err & s6 & E6 & H).
    + apply stat_Ret in E6 as [-> E6]. vbind H as ([] & s7 & E7 & H).
      rewrite release_hold in E7 by done. injection E7 as <-. unfold search_at. rewrite Hm. cbn [mbind option_bind]. rewrite E6. cbn [mbind option_bind].
      destruct err as [e'|stat]; [by vinv H|]. vbind H as (s8 & s9 & E8 & H). vinv E8.
      unfold agrees. destruct (S_ISDIR (st_mode stat)); cbn [negb] in H; [|vinv H; by eauto].
      destruct (_ <? 0); vinv H; by eauto.
    + rewrite release_hold in E6 by done. injection E6 as <-. by vinv H.
  - vbind H as ([] & s5 & E5 & H). rewrite release_hold in E5 by done. injection E5 as <-.
    destruct (levels >=? 5); [vinv H; split; [done|]; unfold agrees; by eauto|].
    vbind H as ([] & s6 & E6 & H). vinv E6. vbind H as (r' & s7 & E7 & H). vinv H.
    apply (expand_sim st p trail) in E7 as [-> Ha]; [|apply plain_names; by apply Forall_app in Hst as [? _]|done..].
    fold final in Ha. split; [done|]. unfold agrees in *. destruct r' as [e|o']; [destruct Ha as [->| ->]; cbn; eauto|].
    destruct Ha as (st' & -> & ?). cbn. eexists. split; [done|]. by exists st'.
Qed.

(** *** The loop *)

(** The body of the loop at a component. *)
Lemma loop_dot fuel q prev o n : stops q ->
  normalize_loop (S fuel) follow levels again prev (dot :: q) o n =
  let '(prev, p) := eat_slashes (Some dot) q in normalize_loop fuel follow levels again prev p o n.
Proof. intros [->|(q' & ->)]; done. Qed.

Lemma loop_dotdot fuel q prev o n : stops q ->
  normalize_loop (S fuel) follow levels again prev (dot :: dot :: q) o n =
  (let! (o, n) := match o with [] => ret (o, n) | _ => deref (pop o n) end in
   let '(prev, p) := eat_slashes (Some dot) q in normalize_loop fuel follow levels again prev p o n).
Proof. intros [->|(q' & ->)]; done. Qed.

Lemma loop_component fuel w q prev o n : plain_name w -> stops q ->
  normalize_loop (S fuel) follow levels again prev (w ++ q) o n =
  let '(prev, p, o', n) := copy prev (w ++ q) (slash :: o) (n - 1) in
  let '(prev, p) := eat_slashes prev p in
  in_bounds (strlen o' <=? MAX_PATH) ;;
  if n =? 0 then ret (inl _ENAMETOOLONG)
  else
    let! r := check_component follow levels again prev p o o' in
    match r with
    | Some r => ret r
    | None => normalize_loop fuel follow levels again prev p o' n
    end.
Proof.
  intros (Hw & H1 & H2) Hq. destruct w as [|c w]; [by destruct Hw|]. cbn [app normalize_loop].
  rewrite single_dot, double_dot, !bool_decide_false by done. done.
Qed.

(** The last free byte went to the slash: the next component cannot be copied, and its second slash is caught. *)
Lemma loop_stuck fuel w q prev o n r s' : plain_name w -> stops q -> n <= -1 ->
  normalize_loop fuel follow levels again prev (w ++ q) (slash :: o) n s <> Ret r s'.
Proof.
  intros Hw Hq Hn H. pose proof Hw as (Hw' & _). destruct fuel as [|fuel]; [done|].
  rewrite loop_component, copy_none in H by (done || lia).
  assert (eat_slashes prev (w ++ q) = (prev, w ++ q)) as E.
  { destruct Hw' as (Hne & Hs & _). destruct w as [|c w]; [done|]. cbn. by rewrite eqb_slash_ne by set_solver. }
  rewrite E in H. vbind H as ([] & s1 & E1 & H). vinv E1.
  destruct (Z.eqb_spec (n - 1 - 1) 0); [lia|]. vbind H as (r1 & s2 & E2 & _).
  unfold check_component in E2. rewrite (bool_decide_false (w ++ q = [])), orb_true_r in E2
    by (destruct w; [by destruct Hw'|done]).
  vbind E2 as ([] & s3 & E3 & E2). vinv E3. vbind E2 as ([m p] & s4 & E4 & _). apply find_mount_Ret in E4 as (_ & _ & E4). cbn [rev] in E4.
  rewrite <- app_assoc in E4. cbn [app] in E4. by rewrite not_normalized_end in E4.
Qed.

(** When the path has used all but one byte, only errors are returned. *)
Lemma loop_tight fuel w q prev o n r s' : plain_name w -> stops q -> n <= 1 -> strlen o + n = MAX_PATH - 1 ->
  normalize_loop fuel follow levels again prev (w ++ q) o n s = Ret r s' -> s' = s /\ exists e, r = inl e.
Proof.
  intros Hw Hq Hn Hlen H. pose proof Hw as (Hw' & _). destruct fuel as [|fuel]; [done|].
  rewrite loop_component, copy_none in H by (done || lia).
  assert (eat_slashes prev (w ++ q) = (prev, w ++ q)) as E.
  { destruct Hw' as (Hne & Hs & _). destruct w as [|c w]; [done|]. cbn. by rewrite eqb_slash_ne by set_solver. }
  rewrite E in H. vbind H as ([] & s1 & E1 & H). vinv E1.
  destruct (Z.eqb_spec (n - 1 - 1) 0); [lia|]. vbind H as (r1 & s2 & E2 & H).
  unfold check_component in E2. assert (w ++ q <> []) as Hne by (destruct w; [by destruct Hw'|done]).
  rewrite (bool_decide_false (w ++ q = [])), orb_true_r in E2 by done.
  vbind E2 as ([] & s3 & E3 & E2). vinv E3.
  vbind E2 as ([m p] & s4 & E4 & E2). apply find_mount_Ret in E4 as (Hm & -> & _).
  destruct (mount_of_elem _ _ _ _ Hm) as [Hin _].
  vbind E2 as ([] & s5 & E5 & E2). vinv E5.
  vbind E2 as (res & s6 & E6 & E2). apply readlink_Ret in E6 as [-> _].
  destruct res as [e|target].
  - vbind E2 as (y & s7 & E7 & E2). vinv E7. destruct (y =? slash)%char.
    + vbind E2 as (err & s8 & E8 & E2). apply stat_Ret in E8 as [-> _].
      vbind E2 as ([] & s9 & E9 & E2). rewrite release_hold in E9 by done. injection E9 as <-.
      destruct err as [e'|stat]; [vinv E2; exfalso; eapply loop_stuck; [exact Hw|exact Hq| |exact H]; lia|].
      vbind E2 as (? & ? & E8 & E2). vinv E8.
      destruct (negb _); [vinv E2; vinv H; by eauto|]. destruct (_ <? 0); vinv E2; [vinv H; by eauto|].
      exfalso; eapply loop_stuck; [exact Hw|exact Hq| |exact H]; lia.
    + vbind E2 as ([] & s8 & E8 & E2). rewrite release_hold in E8 by done. injection E8 as <-.
      vinv E2. exfalso; eapply loop_stuck; [exact Hw|exact Hq| |exact H]; lia.
  - vbind E2 as ([] & s7 & E7 & E2). rewrite release_hold in E7 by done. injection E7 as <-.
    destruct (levels >=? 5); [vinv E2; vinv H; by eauto|]. exfalso.
    vbind E2 as ([] & s8 & E8 & E2). vinv E8. vbind E2 as (r2 & s9 & E9 & _).
    vbind E9 as ([] & s10 & E10 & _). vinv E10. apply Z.ltb_lt in E8, E10.
    assert (strlen (cstring target) = 0 /\ char_at (cstring target) 0 = NUL) as [Hz Hc].
    { pose proof (strlen_nonneg target). destruct target; [done|]. rewrite strlen_cons in E8. pose proof (strlen_nonneg target). lia. }
    rewrite Hc in E10. change (NUL =? slash)%char with false in E10. cbn iota in E10.
    rewrite strlen_app, strlen_rev, strlen_cons in E10. pose proof (strlen_nonneg (w ++ q)). pose proof (strlen_nonneg target). lia.
Qed.

(** The loop at a component that is copied whole, or at one that does not fit. *)
Lemma loop_plain fuel st w q prev n r s' :
  Forall plain_name st -> 0 <= n -> strlen (render st) + n = MAX_PATH - 1 -> plain_name w -> stops q -> NUL ∉ q ->
  normalize_loop (S fuel) follow levels again prev (w ++ q) (rev (render st)) n s = Ret r s' ->
  (MAX_PATH - 1 <= strlen (render (st ++ [w])) /\ s' = s /\ exists e, r = inl e) \/
  (strlen (render (st ++ [w])) < MAX_PATH - 1 /\
   (let! v := check_component follow levels again (fst (eat_slashes (match last w with Some c => Some c | None => prev end) q))
                (snd (eat_slashes (match last w with Some c => Some c | None => prev end) q)) (rev (render st)) (rev (render (st ++ [w]))) in
    match v with
    | Some v => ret v
    | None => normalize_loop fuel follow levels again (fst (eat_slashes (match last w with Some c => Some c | None => prev end) q))
                (snd (eat_slashes (match last w with Some c => Some c | None => prev end) q)) (rev (render (st ++ [w]))) (n - 1 - strlen w)
    end) s = Ret r s').
Proof.
  intros Hst Hn Hlen Hw Hq Hnq H. pose proof Hw as ((Hne & Hs & _) & _). rewrite strlen_render.
  destruct (decide (n <= 1)).
  - apply loop_tight in H as [-> He]; try done; [|by rewrite strlen_rev]. left. split; [|done].
    destruct w; [done|]. rewrite strlen_cons. pose proof (strlen_nonneg w). lia.
  - rewrite loop_component in H by done. destruct (decide (n - 1 <= strlen w)).
    + destruct (copy_full w q prev (slash :: rev (render st)) (n - 1) Hs) as (a & b & d & E & Hd); [lia|]. rewrite E in H.
      left. split; [lia|]. destruct (eat_slashes a b). rewrite Z.eqb_refl in H. vinv H. by eauto.
    + rewrite copy_all in H by (done || lia). right. split; [lia|]. rewrite <- rev_render in H.
      destruct (eat_slashes _ q) as [x p]. cbn [fst snd]. vbind H as ([] & s1 & E & H). vinv E.
      destruct (Z.eqb_spec (n - 1 - strlen w) 0); [lia|]. exact H.
Qed.

Lemma loop_sim fuel st prev p n trail r s' :
  Forall plain_name st -> 0 <= n -> strlen (render st) + n = MAX_PATH - 1 -> char_at p 0 <> slash -> NUL ∉ p ->
  (p <> [] -> ends_slash p = trail) ->
  normalize_loop fuel follow levels again prev p (rev (render st)) n s = Ret r s' ->
  s' = s /\ agrees (walk_comps again_spec s follow levels st (components p) trail) r.
Proof.
  revert st prev p n. induction fuel as [|fuel IH]; intros st prev p n Hst Hn Hlen Hp Hnul Htrail H; [done|].
  destruct (decide (p = [])) as [->|Hne].
  { cbn [normalize_loop] in H. vinv H. split; [done|]. cbn. exists st. rewrite rev_involutive. split_and!; try done; lia. }
  destruct (first_component p Hne Hp Hnul) as (w & q & -> & Hw & Hq). assert (NUL ∉ q) as Hnq by (rewrite not_elem_of_app in Hnul; tauto).
  specialize (Htrail Hne). destruct (behind_component w q prev Hw Hq Hnq) as (p' & x & Heat & Hcomp & Hp' & Hnp' & Hb & Ht & Hx & _).
  rewrite Htrail in Ht, Hx. rewrite Hcomp. destruct (component_cases w Hw) as [->|[->|Hplain]].
  - cbn [app] in H. rewrite loop_dot in H by done. cbn in Heat. rewrite Heat in H. cbn [walk_comps]. rewrite bool_decide_true by done.
    by apply IH in H.
  - cbn [app] in H. rewrite loop_dotdot in H by done. cbn in Heat. rewrite Heat in H. cbn [walk_comps].
    rewrite bool_decide_false, bool_decide_true by done. destruct st as [|c st _] using rev_ind.
    + change (rev (render [])) with (@nil ascii) in H. vbind H as ([o n'] & s1 & E & H). vinv E. simplify_eq. by apply (IH []) in H.
    + apply Forall_app in Hst as [Hst [Hc _]%Forall_cons]. destruct Hc as ((_ & Hsl & _) & _).
      rewrite rev_render, strlen_render in *. rewrite removelast_last. pose proof (strlen_nonneg c).
      vbind H as ([o n'] & s1 & E & H).
      destruct (rev c ++ slash :: rev (render st)) eqn:Er; [by destruct (rev c)|]. rewrite <- Er in E. vinv E.
      rewrite pop_app in E by done. simplify_eq. apply IH in H; [done|done|lia|lia|done..].
  - cbn [walk_comps]. rewrite !bool_decide_false by apply Hplain. apply loop_plain in H; [|done..].
    destruct H as [(Hlong & -> & e & ->)|[Hfit H]].
    { destruct (Z.leb_spec (MAX_PATH - 1) (strlen (render (st ++ [w])))); [|lia]. split; [done|]. by right. }
    destruct (Z.leb_spec (MAX_PATH - 1) (strlen (render (st ++ [w])))); [lia|].
    rewrite Heat in H. cbn [fst snd] in H. assert (Forall plain_name (st ++ [w])) as Hst' by (apply Forall_app; by rewrite Forall_singleton).
    vbind H as (v & s1 & E & H). apply (check_component_sim _ _ _ _ trail x) in E as [-> E]; [|done..].
    destruct v as [v|]; [vinv H; split; [done|]; destruct E as (w' & -> & E); exact E|]. rewrite E. cbn [mbind option_bind].
    rewrite strlen_render in *. apply IH in H; [done|done|lia|rewrite strlen_render; lia|done..].
Qed.

End Again.

(** ** [path_normalize] resolves a path *)

(** The path of the directory a resolution starts from, as components. *)
Definition at_dir (at_path : option path) (st : list path) : Prop :=
  match at_path with
  | None => st = []
  | Some a => (a = [slash] /\ st = []) \/ a = render st
  end.

Lemma render_not_slash st : Forall name_ok st -> render st <> [slash].
Proof. intros H E. apply components_render in H. rewrite E in H. cbn in H. by subst. Qed.

Lemma at_dir_output at_path st n s o n' s' : at_dir at_path st -> Forall name_ok st ->
  match at_path with
  | Some a =>
      if bool_decide (a = [slash]) then ret ([], n)
      else in_bounds (strlen a <? MAX_PATH) ;; ret (rev a, n - strlen a)
  | None => ret ([], n)
  end s = Ret (o, n') s' ->
  s' = s /\ o = rev (render st) /\ n' = n - strlen (render st) /\ strlen (render st) < MAX_PATH.
Proof.
  intros Hat Hst H. assert (strlen (render []) = 0) as Hz by done. destruct at_path as [a|]; cbn in Hat.
  - case_bool_decide as Ha.
    + vinv H. simplify_eq. destruct Hat as [[_ ->]|E]; [|by apply render_not_slash in Hst]. rewrite Hz. split_and!; [done..|lia|done].
    + destruct Hat as [[-> _]| ->]; [done|]. vinv H. simplify_eq. apply Z.ltb_lt in E. by split_and!.
  - subst. vinv H. simplify_eq. rewrite Hz. split_and!; [done..|lia|done].
Qed.

Lemma __path_normalize_sim depth at_path p st flags levels s r s' :
  mounts_ok s -> at_dir at_path st -> Forall plain_name st -> NUL ∉ p -> p <> [] ->
  __path_normalize depth at_path p flags levels s = Ret r s' ->
  s' = s /\ agrees (walk depth s (has flags N_SYMLINK_FOLLOW) levels st (components p) (ends_slash p)) r.
Proof.
  intros Hok. revert at_path p st levels r s'. induction depth as [|depth IH]; intros at_path p st levels r s' Hat Hst Hp Hne H; [done|].
  cbn [__path_normalize] in H. vbind H as ([] & s1 & E1 & H). vinv E1. rewrite bool_decide_false in H by done.
  vbind H as ([o n] & s2 & E2 & H). apply (at_dir_output _ st) in E2 as (-> & -> & -> & Hlen); [|done|by apply plain_names].
  destruct (eat_slashes_spec None p) as (k & p' & -> & Hp' & E). rewrite E in H. rewrite components_slashes. cbn [walk].
  eapply loop_sim in H; [exact H|done| |done|lia|lia|done|rewrite not_elem_of_app in Hp; tauto|].
  - intros e r0 s0 Hne' He Hr. by eapply (IH None e [] (levels + 1)) in Hr.
  - intros Hp''. unfold ends_slash. by rewrite (last_app_ne _ p').
Qed.

(** Where the resolution of [p] starts: at the root for an absolute path, else at the directory [at_] names. *)
Definition starts_at s (at_ : at_fd) (p : path) (st : list path) : Prop :=
  match (if (char_at p 0 =? slash)%char then root (fs (current s))
         else match at_ with AT_FD f => Some f | _ => pwd (fs (current s)) end) with
  | None => st = []
  | Some f => exists a, generic_getpath f s = Ret (inr a) s /\ at_dir (Some a) st
  end.

(** C8: [path_normalize] refines the resolution of a path component by component: whatever it returns is the result of
    [walk] from the starting directory - the same error (but for paths that are too long, which may get another
    one; a path is too long when it, or one on the way to it, takes MAX_PATH bytes with its terminator), or the path of the same list of components, which has no empty, "." or ".." component, no link left that
    had to be followed (the last component only with [N_SYMLINK_FOLLOW]), and fits into the buffer with its terminator - and no reference to a mount is left behind. *)
Theorem path_normalize_refines s at_ p flags st r s' :
  mounts_ok s -> Forall plain_name st -> starts_at s at_ p st -> NUL ∉ p -> p <> [] ->
  path_normalize at_ p flags s = Ret r s' ->
  s' = s /\ agrees (walk 6 s (has flags N_SYMLINK_FOLLOW) 0 st (components p) (ends_slash p)) r.
Proof.
  intros Hok Hst Hstart Hp Hne H. unfold path_normalize in H. vbind H as ([] & s1 & E1 & H). vinv E1.
  rewrite bool_decide_false in H by done. vbind H as (s2 & s3 & E2 & H). vinv E2. unfold starts_at in Hstart. unfold id in H.
  destruct (if (char_at p 0 =? slash)%char then _ else _) as [f|].
  - destruct Hstart as (a & Ha & Hdir). vbind H as (e & s4 & E & H). rewrite Ha in E. simplify_eq.
    vbind H as ([] & s5 & E5 & H). vinv E5. eapply __path_normalize_sim in H; try done.
  - eapply __path_normalize_sim in H; try done.
Qed.

End Refinement.

(** ** Termination *)

Section Termination.
Context {F : Type} `{!System F}.
Implicit Types s : vfs F.

Definition returns {A} (m : V F A) : Prop := forall s, m s <> Hang.

Lemma returns_bind {A B} (m : V F A) (f : A -> V F B) : returns m -> (forall a, returns (f a)) -> returns (bind m f).
Proof. intros Hm Hf s. unfold bind. specialize (Hm s). destruct (m s); try done. apply Hf. Qed.
Lemma returns_ret {A} (a : A) : returns (ret a).
Proof. done. Qed.
Lemma returns_gets {A} (f : vfs F -> A) : returns (gets f).
Proof. done. Qed.
Lemma returns_modify f : returns (modify f).
Proof. done. Qed.
Lemma returns_assert b : returns (assert b).
Proof. by destruct b. Qed.
Lemma returns_in_bounds b : returns (in_bounds b).
Proof. by destruct b. Qed.
Lemma returns_deref {A} (o : option A) : returns (deref o).
Proof. by destruct o. Qed.
Create HintDb vret.
#[local] Hint Resolve returns_ret returns_gets returns_modify returns_assert returns_in_bounds returns_deref : vret.
Ltac vret := repeat first [ solve [auto with vret] | apply returns_bind; [|intros ?] | case_match ].

Lemma returns_upd_mount a f : returns (upd_mount a f).
Proof. unfold upd_mount, get_mount. vret. Qed.
#[local] Hint Resolve returns_upd_mount : vret.
Lemma returns_find_mount p : returns (find_mount_and_trim_path p).
Proof. unfold find_mount_and_trim_path, mount_find, mount_retain. vret. Qed.
Lemma returns_readlink m p n : returns (readlink m p n).
Proof. unfold readlink. vret. Qed.
Lemma returns_stat m p : returns (stat m p).
Proof. unfold stat. vret. Qed.
#[local] Hint Resolve returns_find_mount returns_readlink returns_stat : vret.

Section Loop.
Context (follow : bool) (levels : Z) (again : path -> V F (Z + path)).
Hypothesis Hagain : forall e, NUL ∉ e -> levels < 5 -> returns (again e).

Lemma returns_check_component prev p o o' : NUL ∉ p -> NUL ∉ o -> returns (check_component follow levels again prev p o o').
Proof.
  intros Hp Ho. unfold check_component, mount_release. case_match; [|vret]. apply returns_bind; [vret|intros _]. apply returns_bind; [vret|intros [m q]].
  apply returns_bind; [vret|intros _]. apply returns_bind; [vret|]. intros [e|target]; [vret|].
  apply returns_bind; [vret|intros _]. destruct (Z.geb_spec levels 5); [vret|]. apply returns_bind; [vret|intros _].
  cbv zeta. set (out := if (char_at (cstring target) 0 =? slash)%char then _ else _).
  assert (NUL ∉ out) as Hout.
  { pose proof (cstring_no_nul target). unfold out. case_match; [done|]. cbn [rev]. rewrite !not_elem_of_app. split; [split; [|set_solver]|done].
    by rewrite list_elem_of_In, <- in_rev, <- list_elem_of_In. }
  clearbody out. apply returns_bind; [|vret]. case_match; [by apply Hagain|]. apply returns_bind; [vret|intros _].
  apply Hagain; [|done]. rewrite not_elem_of_app, not_elem_of_cons. done.
Qed.

Lemma pop_length o n o' n' : pop o n = Some (o', n') -> strlen o' + n' = strlen o + n /\ n <= n' /\ (NUL ∉ o -> NUL ∉ o').
Proof.
  revert n. induction o as [|c o IH]; intros n H; [done|]. cbn in H. rewrite strlen_cons. case_match.
  - simplify_eq. split_and!; [lia|lia|set_solver].
  - apply IH in H as (? & ? & ?). split_and!; [lia|lia|set_solver].
Qed.

(** A doubled slash is caught before anything is looked up. *)
Lemma check_doubled prev p o o' s : p <> [] ->
  check_component follow levels again prev p o (slash :: slash :: o') s = Abort \/
  check_component follow levels again prev p o (slash :: slash :: o') s = Fault.
Proof.
  intros Hp. unfold check_component. rewrite (bool_decide_false (p = [])), orb_true_r by done.
  assert (find_mount_and_trim_path (rev (slash :: slash :: o')) s = Abort) as E.
  { unfold find_mount_and_trim_path, mount_find. cbn [rev]. rewrite <- app_assoc. cbn [app]. by rewrite not_normalized_end. }
  unfold in_bounds. destruct (_ <? _); [left|by right]. rewrite (bind_step _ _ s tt s) by done. unfold bind at 1. by rewrite E.
Qed.

Lemma loop_stuck_returns fuel w q prev o n : plain_name w -> stops q -> n <= -1 ->
  returns (normalize_loop (S fuel) follow levels again prev (w ++ q) (slash :: o) n).
Proof.
  intros Hw Hq Hn. pose proof Hw as (Hw' & _). rewrite loop_component, copy_none, name_not_slash by (done || lia).
  apply returns_bind; [vret|intros _]. destruct (Z.eqb_spec (n - 1 - 1) 0); [lia|]. intros s. unfold bind at 1.
  destruct (check_doubled prev (w ++ q) (slash :: o) o s) as [->| ->]; [by destruct w as [|? ?]; [destruct Hw'|]|done..].
Qed.

Lemma loop_returns fuel prev p o n : (length p + 2 <= fuel)%nat -> 0 <= n -> strlen o + n = MAX_PATH - 1 ->
  char_at p 0 <> slash -> NUL ∉ p -> NUL ∉ o -> returns (normalize_loop fuel follow levels again prev p o n).
Proof.
  revert prev p o n. induction fuel as [|fuel IH]; intros prev p o n Hf Hn Hlen Hp Hnp Hno; [lia|].
  destruct (decide (p = [])) as [->|Hne]; [cbn [normalize_loop]; vret|].
  destruct (first_component p Hne Hp Hnp) as (w & q & -> & Hw & Hq). assert (NUL ∉ q) as Hnq by (rewrite not_elem_of_app in Hnp; tauto).
  destruct (behind_component w q prev Hw Hq Hnq) as (p' & x & Heat & _ & Hp' & Hnp' & _ & _ & _ & Hl).
  assert (NUL ∉ rev w ++ slash :: o) as Hno'.
  { rewrite not_elem_of_app, not_elem_of_cons, list_elem_of_In, <- in_rev, <- list_elem_of_In. destruct Hw as (_ & _ & ?). done. }
  destruct (component_cases w Hw) as [->|[->|Hplain]].
  - cbn [app]. rewrite loop_dot by done. cbn in Heat. rewrite Heat. apply IH; try done. cbn in *. lia.
  - cbn [app]. rewrite loop_dotdot by done. cbn in Heat. rewrite Heat. cbn in Hl, Hf. destruct o as [|d o].
    + apply (IH (Some x) p' [] n); try done; lia.
    + destruct (pop (d :: o) n) as [[o' n']|] eqn:Ep; [|done]. destruct (pop_length _ _ _ _ Ep) as (? & ? & ?).
      apply (IH (Some x) p' o' n'); try done; [lia|lia|lia|auto].
  - rewrite loop_component by done. assert (1 <= length w)%nat by (destruct w; [by destruct Hw|cbn; lia]). rewrite length_app in *.
    destruct (decide (n <= 1)); [|destruct (decide (n - 1 <= strlen w))].
    + rewrite copy_none, name_not_slash by (done || lia). apply returns_bind; [vret|intros _].
      destruct (Z.eqb_spec (n - 1 - 1) 0); [lia|]. apply returns_bind; [by apply returns_check_component|]. intros [r|]; [vret|].
      destruct fuel as [|fuel]; [lia|]. apply loop_stuck_returns; [done|done|lia].
    + destruct (copy_full w q prev (slash :: o) (n - 1)) as (a & b & e & -> & _); [by destruct Hw as (_ & ? & _)|lia|].
      destruct (eat_slashes a b). rewrite Z.eqb_refl. vret.
    + rewrite copy_all by (first [lia|by destruct Hw as (_ & ? & _)|done]). rewrite Heat. apply returns_bind; [vret|intros _].
      destruct (Z.eqb_spec (n - 1 - strlen w) 0); [lia|]. apply returns_bind; [by apply returns_check_component|]. intros [r|]; [vret|].
      apply IH; try done; [lia|lia|]. rewrite strlen_app, strlen_rev, strlen_cons. lia.
Qed.
End Loop.

Lemma __path_normalize_returns depth at_path p flags levels : 6 <= Z.of_nat depth + levels ->
  match at_path with Some a => NUL ∉ a | None => True end -> NUL ∉ p -> levels <= 5 -> 
  returns (__path_normalize depth at_path p flags levels).
Proof.
  revert at_path p levels. induction depth as [|depth IH]; intros at_path p levels Hd Hat Hp Hl; [lia|]. cbn [__path_normalize].
  apply returns_bind; [vret|intros _]. case_bool_decide; [vret|].
  assert (forall o n, 0 <= n -> strlen o + n = MAX_PATH - 1 -> NUL ∉ o -> returns (let '(prev, q) := eat_slashes None p in
      normalize_loop (S (S (length p))) (has flags N_SYMLINK_FOLLOW) levels
        (fun e => __path_normalize depth None e flags (levels + 1)) prev q o n)) as Hloop.
  { clear -IH Hp Hl Hd. intros o n Hn Ho Hno. destruct (eat_slashes_spec None p) as (k & q & -> & Hq & ->). apply loop_returns; try done.
    - intros e He Hlt. apply IH; [lia|done|done|lia].
    - rewrite length_app. lia.
    - rewrite not_elem_of_app in Hp. tauto. }
  intros s. destruct at_path as [a|]; [|apply Hloop; [done|done|set_solver]].
  case_bool_decide; [apply Hloop; [done|done|set_solver]|]. unfold bind, in_bounds. destruct (Z.ltb_spec (strlen a) MAX_PATH); [|done].
  apply Hloop; [unfold MAX_PATH in *; lia|rewrite strlen_rev; lia|]. by rewrite list_elem_of_In, <- in_rev, <- list_elem_of_In.
Qed.

Lemma bind_no_hang {A B} (m : V F A) (f : A -> V F B) s :
  m s <> Hang -> (forall a s', m s = Ret a s' -> f a s' <> Hang) -> bind m f s <> Hang.
Proof. intros Hm Hf. unfold bind. destruct (m s); [by apply Hf|done..]. Qed.
Lemma returns_getpath f : returns (generic_getpath f).
Proof. unfold generic_getpath, get_fd, get_mount. vret. Qed.
Lemma getpath_state f s r s' : generic_getpath f s = Ret r s' -> s' = s.
Proof. unfold generic_getpath, get_fd, get_mount. intros E. vinv E. repeat case_match; by vinv E. Qed.

(** C30: [path_normalize] ends for every path, file system and starting directory: the loop over the path and the five
    levels of links are enough, links that point at each other included, and also when the buffer is full. *)
Theorem path_normalize_terminates s at_ p flags :
  (forall f a, generic_getpath f s = Ret (inr a) s -> NUL ∉ a) -> NUL ∉ p ->
  path_normalize at_ p flags s <> Hang.
Proof.
  intros Hget Hp. unfold path_normalize. apply bind_no_hang; [apply returns_assert|intros [] s0 E0; vinv E0].
  case_bool_decide; [discriminate|]. apply bind_no_hang; [apply returns_gets|intros s0 s1 E1; vinv E1]. cbv zeta.
  destruct (if (char_at p 0 =? slash)%char then _ else _) as [f|]; [|by apply __path_normalize_returns].
  apply bind_no_hang; [apply returns_getpath|]. intros [e|a] s2 E2; [discriminate|].
  apply getpath_state in E2 as Es; subst s2.
  apply bind_no_hang; [apply returns_assert|intros [] s3 E3; vinv E3]. apply __path_normalize_returns; [done|by eapply Hget|done..].
Qed.

End Termination.

(** ** Paths without links *)

Section Lexical.
Context {F : Type} `{!System F} (s : vfs F).

(** No link is found, and every directory that exists may be searched. *)
Definition quiet : Prop := forall st room, Forall plain_name st -> st <> [] ->
  (exists e, link_at s st room = Some (inl e)) /\ search_at s st = Some 0.
Hypothesis Hok : mounts_ok s.
Hypothesis Hquiet : quiet.

Lemma on_mount_normalized p m : path_is_normalized p = true -> NUL ∉ p -> on_mount p m = true ->
  path_is_normalized (drop (length (m_point m)) p) = true.
Proof.
  intros Hp Hn Hm. unfold on_mount in Hm. apply andb_true_iff in Hm as [_ Hc]. apply orb_true_iff in Hc.
  destruct p as [|c p]; [by rewrite drop_nil|]. cbn [path_is_normalized] in Hp. destruct (Ascii.eqb_spec c slash) as [->|]; [|done].
  apply (normalized_drop _ _ false); [done|]. destruct Hc as [Hc|Hc]; [left; by apply Ascii.eqb_eq|right].
  apply char_at_end; [done|]. by apply Ascii.eqb_eq.
Qed.

Lemma check_component_quiet follow levels again st w prev x p : Forall plain_name (st ++ [w]) -> prev = Some x ->
  strlen (render (st ++ [w])) < MAX_PATH ->
  check_component follow levels again prev p (rev (render st)) (rev (render (st ++ [w]))) s = Ret None s.
Proof.
  intros Hst -> Hlen. unfold check_component. case_match; [|done]. rewrite rev_involutive, !strlen_rev.
  assert (Forall name_ok (st ++ [w])) as Hn by by apply plain_names. destruct (normalized_render _ Hn) as [_ Hnorm].
  assert (st ++ [w] <> []) as Hne by by destruct st.
  destruct (Hquiet (st ++ [w]) (MAX_PATH - (strlen (render st) + 1)) Hst Hne) as [[e He] Hs].
  unfold link_at, search_at in *. destruct (mount_of s (render (st ++ [w]))) as [[m q]|] eqn:Hm; [|done].
  destruct (mount_of_elem _ _ _ _ Hm) as [Hin Hon]. cbn [mbind option_bind] in *.
  assert (path_is_normalized q = true) as Hq.
  { unfold mount_of in Hm. simplify_option_eq. apply on_mount_normalized; [done|by apply render_no_nul|done]. }
  rewrite (bind_step _ _ s tt s) by (unfold in_bounds; destruct (Z.ltb_spec (strlen (render (st ++ [w]))) MAX_PATH); [done|lia]).
  rewrite (bind_step _ _ _ _ _ (find_mount_hold _ _ _ _ Hnorm Hm)), Hq. rewrite (bind_step _ _ _ tt (hold m s)) by done.
  assert (readlink m q (MAX_PATH - (strlen (render st) + 1)) (hold m s) = Ret (inl e) (hold m s)) as E.
  { unfold readlink. case_match; [|by simplify_eq]. unfold bind, gets, id, deref. by rewrite He. }
  rewrite (bind_step _ _ _ _ _ E), (bind_step _ _ _ x (hold m s)) by done. destruct (x =? slash)%char.
  - destruct (fs_stat (filesystem (m_fs m)) (m_self m) q (hold m s)) as [v|] eqn:Ev; [|done]. cbn in Hs.
    assert (stat m q (hold m s) = Ret v (hold m s)) as E' by (unfold stat, bind, gets, id, deref; by rewrite Ev).
    rewrite (bind_step _ _ _ _ _ E'), (bind_step _ _ _ _ _ (release_hold _ _ Hok Hin)). destruct v as [e'|v]; [done|].
    rewrite (bind_step _ _ _ s s) by done. destruct (S_ISDIR (st_mode v)); [|done]. cbn [negb]. injection Hs as Hs. by rewrite Hs.
  - by rewrite (bind_step _ _ _ _ _ (release_hold _ _ Hok Hin)).
Qed.

Lemma eat_length y q x p : stops q -> eat_slashes y q = (x, p) -> p = [] \/ (length p < length q)%nat.
Proof.
  intros Hq E. destruct (eat_slashes_spec y q) as (k & p' & -> & Hp & E'). rewrite E in E'. injection E' as -> ->.
  destruct k; [|right; rewrite length_app, length_replicate; lia]. cbn in *. destruct Hq as [->|(q' & ->)]; [by left|done].
Qed.

Lemma loop_lexical fuel follow levels again prev p st n : (length p < fuel)%nat -> Forall plain_name st -> char_at p 0 <> slash -> NUL ∉ p ->
  strlen (render st) + n = MAX_PATH - 1 -> strlen (render st) + (if decide (p = []) then 0 else 1 + strlen p) < MAX_PATH - 1 ->
  normalize_loop fuel follow levels again prev p (rev (render st)) n s = Ret (inr (render (lexical st (components p)))) s.
Proof.
  revert prev p st n. induction fuel as [|fuel IH]; intros prev p st n Hf Hst Hp Hnp Hn Hb; [lia|].
  destruct (decide (p = [])) as [->|Hne].
  { cbn [normalize_loop]. rewrite strlen_rev, rev_involutive.
    rewrite (bind_step _ _ s tt s) by (unfold in_bounds; destruct (Z.ltb_spec (strlen (render st)) MAX_PATH); [done|lia]).
    by rewrite (proj2 (normalized_render st (plain_names st Hst))). }
  destruct (first_component p Hne Hp Hnp) as (w & q & -> & Hw & Hq). assert (NUL ∉ q) as Hnq by (rewrite not_elem_of_app in Hnp; tauto).
  destruct (behind_component w q prev Hw Hq Hnq) as (p' & x & Heat & Hcomp & Hp' & Hnp' & _ & _ & _ & Hl).
  assert (strlen w + (if decide (p' = []) then 0 else 1 + strlen p') <= strlen (w ++ q)) as Hle.
  { apply eat_length in Heat; [|done]. unfold strlen in *. rewrite length_app. case_decide; [lia|]. destruct Heat; [done|lia]. }
  rewrite Hcomp. assert (length p' < fuel)%nat by lia. destruct (component_cases w Hw) as [->|[->|Hplain]].
  - cbn [app] in *. rewrite loop_dot by done. cbn in Heat. rewrite Heat. cbn [lexical]. rewrite bool_decide_true by done.
    apply IH; try done. unfold strlen in *; cbn in *. lia.
  - cbn [app] in *. rewrite loop_dotdot by done. cbn in Heat. rewrite Heat. cbn [lexical]. rewrite bool_decide_false, bool_decide_true by done.
    destruct st as [|c st _] using rev_ind; [apply IH; try done; unfold strlen in *; cbn in *; lia|].
    apply Forall_app in Hst as [Hst [((_ & Hsl & _) & _) _]%Forall_cons]. rewrite rev_render, strlen_render in *. rewrite removelast_last.
    destruct (rev c ++ slash :: rev (render st)) eqn:Er; [by destruct (rev c)|]. rewrite <- Er.
    rewrite (bind_step _ _ s (rev (render st), n + strlen c + 1) s) by (by rewrite pop_app).
    pose proof (strlen_nonneg c). apply IH; try done; [lia|]. unfold strlen in *; cbn in *. lia.
  - rewrite loop_component by done. pose proof (strlen_nonneg q).
    assert (strlen w < n - 1) by (rewrite strlen_app in *; lia). rewrite copy_all by (done || apply Hw). rewrite Heat, <- rev_render.
    cbn [lexical]. rewrite !bool_decide_false by apply Hplain. rewrite strlen_rev, strlen_render.
    rewrite (bind_step _ _ s tt s) by (unfold in_bounds; destruct (Z.leb_spec (strlen (render st) + 1 + strlen w) MAX_PATH); [done|lia]).
    destruct (Z.eqb_spec (n - 1 - strlen w) 0); [lia|]. assert (Forall plain_name (st ++ [w])) as Hst' by (apply Forall_app; by rewrite Forall_singleton).
    assert (0 <= (if decide (p' = []) then 0 else 1 + strlen p')) by (pose proof (strlen_nonneg p'); case_decide; lia).
    rewrite (bind_step _ _ s None s) by (eapply check_component_quiet; [done|done|rewrite strlen_render; lia]).
    apply IH; try done; rewrite strlen_render; lia.
Qed.

Lemma starts_at_run at_ p flags st : Forall plain_name st -> starts_at s at_ p st -> at_ <> AT_NULL -> p <> [] ->
  exists at_path, at_dir at_path st /\ path_normalize at_ p flags s = __path_normalize 6 at_path p flags 0 s.
Proof.
  intros Hst Hstart Hat Hne. unfold path_normalize. rewrite (bind_step _ _ s tt s) by by destruct at_.
  rewrite bool_decide_false by done. rewrite (bind_step _ _ s s s) by done. unfold starts_at in Hstart. cbv zeta.
  destruct (if (char_at p 0 =? slash)%char then _ else _) as [f|]; [|exists None; done].
  destruct Hstart as (a & Ha & Hdir). exists (Some a). split; [done|]. rewrite (bind_step _ _ _ _ _ Ha).
  assert (path_is_normalized a = true) as ->; [|by rewrite (bind_step _ _ s tt s)].
  destruct Hdir as [[-> _]| ->]; [done|]. apply normalized_render. by apply plain_names.
Qed.

Lemma at_dir_start at_path st n : at_dir at_path st -> Forall name_ok st -> strlen (render st) < MAX_PATH ->
  match at_path with
  | Some a =>
      if bool_decide (a = [slash]) then ret ([], n)
      else in_bounds (strlen a <? MAX_PATH) ;; ret (rev a, n - strlen a)
  | None => ret ([], n)
  end s = Ret (rev (render st), n - strlen (render st)) s.
Proof.
  intros Hat Hst Hlen. assert (strlen (render []) = 0) as Hz by done. destruct at_path as [a|]; cbn in Hat.
  - destruct Hat as [[-> ->]| ->]; [rewrite bool_decide_true, Hz, Z.sub_0_r by done; done|].
    rewrite bool_decide_false by by apply render_not_slash. unfold in_bounds. destruct (Z.ltb_spec (strlen (render st)) MAX_PATH); [done|lia].
  - subst. rewrite Hz, Z.sub_0_r. done.
Qed.

(** One way to follow the last component must be chosen. *)
Definition flags_ok (flags : Z) : bool :=
  if has flags N_SYMLINK_FOLLOW then negb (has flags N_SYMLINK_NOFOLLOW) else has flags N_SYMLINK_NOFOLLOW.

(** without links in the way, [path_normalize] succeeds for every path that fits, and its result is that of the path
    taken as a list of components: empty components and "." have no effect, ".." removes the component before it and stays
    at the root, and the rest is appended to the starting directory. *)
Theorem path_normalize_lexical at_ p flags st :
  Forall plain_name st -> starts_at s at_ p st -> at_ <> AT_NULL -> p <> [] -> NUL ∉ p -> flags_ok flags = true ->
  strlen (render st) + strlen p + 2 < MAX_PATH ->
  path_normalize at_ p flags s = Ret (inr (render (lexical st (components p)))) s.
Proof.
  intros Hst Hstart Hat Hne Hp Hflags Hlen. destruct (starts_at_run at_ p flags st Hst Hstart Hat Hne) as (a & Ha & ->).
  cbn [__path_normalize]. rewrite (bind_step _ _ s tt s) by (unfold flags_ok in Hflags; by rewrite Hflags). rewrite bool_decide_false by done.
  pose proof (strlen_nonneg p). rewrite (bind_step _ _ _ _ _ (at_dir_start a st _ Ha (plain_names st Hst) ltac:(lia))).
  destruct (eat_slashes_spec None p) as (k & p' & -> & Hp' & E). rewrite E, components_slashes. apply loop_lexical; try done.
  - rewrite length_app. lia.
  - rewrite not_elem_of_app in Hp. tauto.
  - lia.
  - rewrite strlen_app in *. pose proof (strlen_nonneg (replicate k slash)). case_decide; lia.
Qed.

End Lexical.

(** ** Iterating over a path *)

Lemma take_component_spec c s room : slash ∉ c -> stops s ->
  take_component (c ++ s) (S room) = if (length c <=? room)%nat then Some (c, s) else None.
Proof.
  revert room. induction c as [|x c IH]; intros room Hc Hs; [by destruct Hs as [->|(q & ->)]|].
  apply not_elem_of_cons in Hc as [Hx Hc]. cbn [app take_component]. rewrite eqb_slash_ne by done.
  destruct room as [|room]; [done|]. rewrite IH by done. cbn [length Nat.leb]. by destruct (_ <=? _)%nat.
Qed.

Lemma render_stops st : stops (render st).
Proof. destruct st; [by left|]. right. by eexists. Qed.

Lemma next_component_render c st : slash ∉ c ->
  path_next_component (render (c :: st)) =
    Some (if strlen c <? MAX_NAME then path_component c (render st) else path_error _ENAMETOOLONG).
Proof.
  intros Hs. change (render (c :: st)) with (slash :: (c ++ render st)). cbn [path_next_component].
  rewrite (proj2 (eqb_slash slash) eq_refl). change (Z.to_nat MAX_NAME) with (S 255).
  rewrite take_component_spec by (done || apply render_stops). unfold strlen, MAX_NAME.
  destruct (Nat.leb_spec (length c) 255), (Z.ltb_spec (Z.of_nat (length c)) 256); try done; lia.
Qed.

(** [path_next_component] yields the components of a normalized path one after the other, and refuses one of
    [MAX_NAME] characters or more; at the end of the path it stops. *)
Theorem path_next_component_spec c st : name_ok c ->
  path_next_component (render []) = Some path_end /\
  path_next_component (render (c :: st)) =
    Some (if strlen c <? MAX_NAME then path_component c (render st) else path_error _ENAMETOOLONG).
Proof. intros (_ & Hs & _). split; [done|by apply next_component_render]. Qed.
Lemma path_next_component_spec_witness :
  path_next_component (cstr "/usr/lib") = Some (path_component (cstr "usr") (cstr "/lib")).
Proof. apply (path_next_component_spec (cstr "usr") [cstr "lib"]). repeat split; by apply (bool_decide_unpack _). Defined.

(** ** A small file system

    A table of links and files, for running the operations: what is not in it does not exist. *)

Module Table.

Definition table := list (path * (path + statbuf)).

Fixpoint find (t : table) (p : path) : option (path + statbuf) :=
  match t with
  | [] => None
  | (q, x) :: t => if bool_decide (p = q) then Some x else find t p
  end.

Definition table_readlink (_ : Z) (p : path) (n : Z) (s : vfs table) : option (Z + path) :=
  Some (match find (fsd s) p with
        | Some (inl target) => inr (take (Z.to_nat n) target)
        | Some (inr _) => inl _EINVAL
        | None => inl _ENOENT
        end).
Definition table_stat (_ : Z) (p : path) (s : vfs table) : option (Z + statbuf) :=
  Some (match find (fsd s) p with Some (inr st) => inr st | _ => inl _ENOENT end).

Definition table_ops : fs_ops table :=
  mk_fs_ops table (cstr "table") None None (fun _ _ _ _ => ret (inl _ENOENT)) (Some table_readlink) None None None None None None None None
    table_stat (fun _ _ => Some (inl _ENOENT)) None None (fun _ _ => Some (inr [])) None.
Definition table_fd_ops : fd_ops table := mk_fd_ops table None None None None.

#[export] Instance table_system : System table := {| filesystem := fun _ => table_ops; fdops := fun _ => table_fd_ops; device := fun _ _ => None |}.

Definition directory : statbuf := mk_statbuf 0 1 (Z.lor S_IFDIR 493) 1 0 0 0 0. (* 0755 *)
Definition root_mount : mount := mk_mount 100 [] [] [] 0 0 1 None.
Definition root_dir : fd := mk_fd 1 0 S_IFDIR 0 0 (Some 100) None None None.
Definition user (id : Z) : task := mk_task id id id id 1 200 (mk_fs_info 0 (Some 1) (Some 1)) 1024.
Definition state (t : table) : vfs table :=
  mk_vfs t [root_mount] {[ 1 := root_dir ]} ∅ ∅ {[ 200 := mk_fdtable 1 [] [] ]} (user 1000) 1000.

Lemma state_ok t : mounts_ok (state t).
Proof. repeat constructor; done. Qed.
Lemma state_starts t at_ p : (char_at p 0 = slash \/ at_ = AT_PWD) -> starts_at (state t) at_ p [].
Proof.
  intros H. assert (starts_at (state t) AT_PWD p []) as H0.
  { unfold starts_at. destruct (_ =? slash)%char; (exists [slash]; split; [vm_compute; reflexivity|by left]). }
  destruct H as [E| ->]; [|done]. unfold starts_at in *. by rewrite E in *.
Qed.

Lemma state_getpath t f a : generic_getpath f (state t) = Ret (inr a) (state t) -> a = [slash].
Proof.
  intros E. destruct (decide (f = 1)) as [->|Hf]; [by injection E as <-|]. unfold generic_getpath, get_fd in E. vinv E.
  cbn in E0. by rewrite lookup_singleton_ne in E0.
Qed.

Lemma root_on_mount st : on_mount (render st) root_mount = true.
Proof. unfold on_mount. cbn. destruct st; done. Qed.
Lemma state_quiet : quiet (state []).
Proof.
  intros st room Hst Hne. unfold link_at, search_at, mount_of. cbn. rewrite root_on_mount. cbn. split; [by eexists|done].
Qed.

End Table.
Import Table.

Lemma path_normalize_lexical_witness :
  path_normalize AT_PWD (cstr "/usr//./bin/../lib/") N_SYMLINK_FOLLOW (state []) = Ret (inr (cstr "/usr/lib")) (state []).
Proof.
  apply (path_normalize_lexical (state []) (state_ok []) state_quiet AT_PWD (cstr "/usr//./bin/../lib/") N_SYMLINK_FOLLOW []);
    [by constructor|by apply state_starts; left|done|done|by apply (bool_decide_unpack _)|done|done].
Defined.

(** A link to a directory, and one that leads back to itself. *)
Definition links : table := [(cstr "/a", inl (cstr "b/c")); (cstr "/b", inr directory); (cstr "/x", inl (cstr "/x"))].

Lemma path_normalize_refines_witness :
  path_normalize AT_PWD (cstr "a/d") N_SYMLINK_NOFOLLOW (state links) = Ret (inr (cstr "/b/c/d")) (state links) /\
  agrees (walk 6 (state links) false 0 [] [cstr "a"; cstr "d"] false) (inr (cstr "/b/c/d")).
Proof.
  assert (path_normalize AT_PWD (cstr "a/d") N_SYMLINK_NOFOLLOW (state links) = Ret (inr (cstr "/b/c/d")) (state links)) as E
    by (vm_compute; reflexivity).
  split; [exact E|]. apply (path_normalize_refines (state links) AT_PWD (cstr "a/d") N_SYMLINK_NOFOLLOW [] _ (state links));
    [apply state_ok|by constructor|apply state_starts; by right|by apply (bool_decide_unpack _)|done|exact E].
Defined.

Lemma path_normalize_terminates_witness :
  path_normalize AT_PWD (cstr "x") N_SYMLINK_FOLLOW (state links) <> Hang.
Proof.
  apply (path_normalize_terminates (state links)); [|by apply (bool_decide_unpack _)].
  intros f a E. rewrite (state_getpath _ _ _ E). by apply (bool_decide_unpack _).
Defined.
Example link_loop : path_normalize AT_PWD (cstr "x") N_SYMLINK_FOLLOW (state links) = Ret (inl _ELOOP) (state links).
Proof. vm_compute. reflexivity. Qed.

(** ** Where the buffers end *)

Lemma strlen_render1 w : strlen (render [w]) = 1 + strlen w.
Proof. apply (strlen_render [] w). Qed.

(** From the root, the first component is looked at with the whole buffer behind it. *)
Lemma first_component_step {F} `{!System F} (s : vfs F) w q flags :
  starts_at s AT_PWD (w ++ slash :: q) [] -> plain_name w -> q <> [] -> char_at q 0 <> slash ->
  flags_ok flags = true -> strlen w + 3 < MAX_PATH ->
  path_normalize AT_PWD (w ++ slash :: q) flags s =
  (let! r := check_component (has flags N_SYMLINK_FOLLOW) 0 (fun e => __path_normalize 5 None e flags (0 + 1)) (Some slash) q
               (rev (render [])) (rev (render [w])) in
   match r with
   | Some r => ret r
   | None => normalize_loop (S (length (w ++ slash :: q))) (has flags N_SYMLINK_FOLLOW) 0
               (fun e => __path_normalize 5 None e flags (0 + 1)) (Some slash) q (rev (render [w])) (MAX_PATH - 1 - 0 - 1 - strlen w)
   end) s.
Proof.
  intros Hstart Hw Hqne Hqs Hflags Hlen. assert (w ++ slash :: q <> []) as Hne by by destruct w.
  destruct (starts_at_run s AT_PWD _ flags [] ltac:(constructor) Hstart ltac:(done) Hne) as (a & Ha & ->).
  cbn [__path_normalize]. rewrite (bind_step _ _ s tt s) by (unfold flags_ok in Hflags; by rewrite Hflags). rewrite bool_decide_false by done.
  rewrite (bind_step _ _ _ _ _ (at_dir_start s a [] _ Ha ltac:(constructor) ltac:(done))).
  rewrite name_not_slash by apply Hw. rewrite loop_component by (done || (right; eauto)).
  change (strlen (render [])) with 0. pose proof (strlen_nonneg w).
  rewrite copy_all by (first [apply Hw|right; by eexists|unfold MAX_PATH in *; lia]).
  assert (eat_slashes (match last w with Some c => Some c | None => None end) (slash :: q) = (Some slash, q)) as ->.
  { cbn. destruct q as [|d q]; [done|]. cbn in *. by rewrite eqb_slash_ne. }
  rewrite <- (rev_render []). cbn [app]. rewrite (bind_step _ _ s tt s)
    by (unfold in_bounds; rewrite strlen_rev, strlen_render1;
        destruct (Z.leb_spec (1 + strlen w) MAX_PATH); [done|lia]).
  destruct (Z.eqb_spec (MAX_PATH - 1 - 0 - 1 - strlen w) 0); [lia|]. done.
Qed.

Lemma cstring_id t : NUL ∉ t -> cstring t = t.
Proof.
  induction t as [|c t IH]; [done|]. intros [Hc Ht]%not_elem_of_cons. cbn.
  rewrite (proj2 (Ascii.eqb_neq c NUL)) by congruence. by rewrite IH.
Qed.

(** the buffer a link is expanded into is overrun: the target and the rest of the path are joined in [MAX_PATH] bytes
    without a check, so that a link whose target fits, followed by a path that fits, writes past its end. *)
Theorem link_expansion_overflows {F} `{!System F} (s : vfs F) w q t flags :
  mounts_ok s -> starts_at s AT_PWD (w ++ slash :: q) [] -> plain_name w -> NUL ∉ q -> q <> [] -> char_at q 0 <> slash ->
  flags_ok flags = true -> strlen w + 3 < MAX_PATH ->
  link_at s [w] (MAX_PATH - 1) = Some (inr t) -> NUL ∉ t -> char_at t 0 <> slash -> strlen t + 1 < MAX_PATH ->
  (forall m p, mount_of s (render [w]) = Some (m, p) -> path_is_normalized p = true) ->
  MAX_PATH <= strlen t + strlen q + 2 ->
  path_normalize AT_PWD (w ++ slash :: q) flags s = Fault.
Proof.
  intros Hok Hstart Hw Hq Hqne Hqs Hflags Hlen Hlink Ht Hts Htl Hnorm Hover. rewrite first_component_step by done. unfold bind at 1.
  enough (check_component (has flags N_SYMLINK_FOLLOW) 0 (fun e => __path_normalize 5 None e flags (0 + 1)) (Some slash) q
            (rev (render [])) (rev (render [w])) s = Fault) as -> by done. pose proof (strlen_nonneg w).
  unfold check_component. rewrite (bool_decide_false (q = [])), orb_true_r by done. rewrite rev_involutive, !strlen_rev.
  rewrite (bind_step _ _ s tt s) by (unfold in_bounds; rewrite strlen_render1;
    destruct (Z.ltb_spec (1 + strlen w) MAX_PATH); [done|lia]).
  unfold link_at in Hlink. destruct (mount_of s (render [w])) as [[m p]|] eqn:Hm; [|done]. cbn [mbind option_bind] in Hlink.
  destruct (mount_of_elem _ _ _ _ Hm) as [Hin _].
  assert (path_is_normalized (render [w]) = true) as Hn by (apply normalized_render; constructor; [apply Hw|constructor]).
  rewrite (bind_step _ _ _ _ _ (find_mount_hold _ _ _ _ Hn Hm)), (Hnorm _ _ eq_refl), (bind_step _ _ _ tt (hold m s)) by done.
  assert (readlink m p (MAX_PATH - (strlen (render []) + 1)) (hold m s) = Ret (inr t) (hold m s)) as E.
  { unfold readlink. case_match; [|done]. unfold bind, gets, id, deref. change (strlen (render []) + 1) with 1. by rewrite Hlink. }
  rewrite (bind_step _ _ _ _ _ E), (bind_step _ _ _ _ _ (release_hold _ _ Hok Hin)).
  rewrite (cstring_id t Ht).
  change (0 >=? 5) with false. cbn iota. rewrite (bind_step _ _ s tt s)
    by (unfold in_bounds; change (strlen (render [])) with 0; destruct (Z.ltb_spec (0 + 1 + strlen t) MAX_PATH); [done|lia]).
  rewrite eqb_slash_ne by done. unfold in_bounds. rewrite strlen_app. change (strlen (rev (slash :: rev (render [])))) with 1.
  by destruct (Z.ltb_spec (1 + strlen t + 1 + strlen q) MAX_PATH); [lia|].
Qed.

Definition long (n : nat) : path := replicate n "b"%char.
Lemma long_no_nul n : NUL ∉ long n.
Proof. unfold long. induction n; [set_solver|]. cbn. by apply not_elem_of_cons. Qed.
Lemma strlen_long n : strlen (long n) = Z.of_nat n.
Proof. unfold strlen, long. by rewrite length_replicate. Qed.

Lemma link_expansion_overflows_witness :
  path_normalize AT_PWD (cstr "a/" ++ long 200) N_SYMLINK_FOLLOW (state [(cstr "/a", inl (long 4000))]) = Fault.
Proof.
  apply (link_expansion_overflows (state [(cstr "/a", inl (long 4000))]) (cstr "a") (long 200) (long 4000) N_SYMLINK_FOLLOW);
    [apply state_ok|apply state_starts; by right|repeat split; by apply (bool_decide_unpack _)|apply long_no_nul|discriminate|discriminate
    |reflexivity|reflexivity|vm_compute; reflexivity|apply long_no_nul|discriminate|rewrite strlen_long; reflexivity
    | |rewrite !strlen_long; discriminate].
  intros m p E. vm_compute in E. by injection E as <- <-.
Defined.

(** a path whose normalized form reaches the last byte but one of the buffer, with a component behind it, writes past
    the end of the buffer instead of being refused with [_ENAMETOOLONG]: the slash takes the last byte, the counter passes
    zero, and the test for a full buffer is for zero only.  The path given to the call itself fits. *)
Theorem full_buffer_overruns :
  strlen (long 4093 ++ cstr "/b") < MAX_PATH /\
  path_normalize AT_PWD (long 4093 ++ cstr "/b") N_SYMLINK_FOLLOW (state []) = Fault /\
  path_normalize AT_PWD (long 4093 ++ cstr "b") N_SYMLINK_FOLLOW (state []) = Ret (inl _ENAMETOOLONG) (state []).
Proof. vm_compute. done. Qed.

(** path.h says that a path is refused when it and its terminator would be longer than MAX_PATH: one that takes exactly MAX_PATH bytes is refused too, and so is one that is that long only
    on the way to a short one. *)
Theorem longest_path_refused :
  strlen (slash :: long 4094) + 1 = MAX_PATH /\
  path_normalize AT_PWD (long 4094) N_SYMLINK_FOLLOW (state []) = Ret (inl _ENAMETOOLONG) (state []) /\
  path_normalize AT_PWD (long 4094 ++ cstr "/..") N_SYMLINK_FOLLOW (state []) = Ret (inl _ENAMETOOLONG) (state []).
Proof. vm_compute. done. Qed.

(** path.h says that the last component is not followed when links are to be followed: it is the other way round. *)
Theorem follow_follows_last :
  path_normalize AT_PWD (cstr "a") N_SYMLINK_FOLLOW (state [(cstr "/a", inl (cstr "b"))]) = Ret (inr (cstr "/b")) (state [(cstr "/a", inl (cstr "b"))]) /\
  path_normalize AT_PWD (cstr "a") N_SYMLINK_NOFOLLOW (state [(cstr "/a", inl (cstr "b"))]) = Ret (inr (cstr "/a")) (state [(cstr "/a", inl (cstr "b"))]).
Proof. vm_compute. done. Qed.
End Path.
