(* ===== verification/Fd.v ===== *)
(** * Descriptors (fs/fd.c, fs/fd.h, util/bits.h) and in-core inodes (fs/inode.c)

    A descriptor table maps numbers to open files, which are counted: a file is closed when its last reference goes.
    The bit map of descriptors to close on exec is kept beside the files.  The list of polls a file is on is not part of
    the state. *)

From S2P Require Import Prelude Errno FileLock Vfs Path.

Module Fd.
Import Errno Vfs Path.

(** ** Bit maps (util/bits.h) *)

(** [BITS_SIZE]: bytes for a number of bits that is not zero. *)
Definition BITS_SIZE (bits : Z) : Z := (bits - 1) / 8 + 1.

Section Bits.
Context {F : Type}.

(** The index is a [size_t]; an index beyond the map is outside of its object. *)
Definition bit_test (i : Z) (data : list bool) : V F bool := deref (data !! Z.to_nat (u64 i)).
Definition bit_set (i : Z) (data : list bool) : V F (list bool) :=
  in_bounds (u64 i <? Z.of_nat (length data)) ;; ret (<[Z.to_nat (u64 i) := true]> data).
Definition bit_clear (i : Z) (data : list bool) : V F (list bool) :=
  in_bounds (u64 i <? Z.of_nat (length data)) ;; ret (<[Z.to_nat (u64 i) := false]> data).

End Bits.

Section WithSystem.
Context {F : Type} `{!System F}.

(** ** In-core inodes (fs/inode.c) *)

Definition INODES_HASH_SIZE : Z := Z.shiftl 1 10.

Definition hash_chain (s : vfs F) (ino : Z) : list Z := default [] (inodes_hash s !! (ino mod INODES_HASH_SIZE)).

Definition inode_get_data (mount ino : Z) (s : vfs F) : option Z :=
  List.find (fun i => match inodes s !! i with
                      | Some x => (i_mount x =? mount) && (i_number x =? ino)
                      | None => false
                      end) (hash_chain s ino).

Definition inode_retain (i : Z) : V F unit := upd_inode i (fun x => set_i_refcount (u32 (i_refcount x + 1)) x).

Definition inode_get_unlocked (mount ino : Z) : V F Z :=
  let! s := gets id in
  let! i :=
    match inode_get_data mount ino s with
    | Some i => ret i
    | None =>
        let! i := malloc in
        mount_retain mount ;;
        modify (fun s => set_inodes (<[i := mk_inode 0 ino mount [] 0]> (inodes s)) s) ;;
        modify (fun s => set_inodes_hash (<[ino mod INODES_HASH_SIZE := i :: hash_chain s ino]> (inodes_hash s)) s) ;;
        ret i
    end in
  inode_retain i ;;
  ret i.

Definition inode_get (mount ino : Z) : V F Z := inode_get_unlocked mount ino.

Definition inode_check_orphaned (mount ino : Z) : V F unit :=
  let! s := gets id in
  match inode_get_data mount ino s with
  | Some _ => ret tt
  | None =>
      let! m := get_mount mount in
      let! orphaned := deref (fs_inode_orphaned (filesystem (m_fs m))) in
      orphaned mount ino
  end.

Definition inode_release (i : Z) : V F unit :=
  upd_inode i (fun x => set_i_refcount (u32 (i_refcount x - 1)) x) ;;
  let! x := get_inode i in
  if i_refcount x =? 0 then
    modify (fun s => set_inodes_hash
      (<[i_number x mod INODES_HASH_SIZE := filter (fun j => j <> i) (hash_chain s (i_number x))]> (inodes_hash s)) s) ;;
    let! m := get_mount (i_mount x) in
    match fs_inode_orphaned (filesystem (m_fs m)) with
    | Some orphaned => orphaned (i_mount x) (i_number x)
    | None => ret tt
    end ;;
    mount_release (i_mount x) ;;
    modify (fun s => set_inodes (delete i (inodes s)) s)
  else ret tt.

(** ** Open files *)

Definition fd_create (ops : Z) : V F Z :=
  let! f := malloc in
  modify (fun s => set_fds (<[f := mk_fd 1 0 0 ops 0 None None None None]> (fds s)) s) ;;
  ret f.

Definition fd_retain (f : Z) : V F Z :=
  upd_fd f (fun x => set_fd_refcount (u32 (fd_refcount x + 1)) x) ;;
  ret f.

(** The functions that close a file: that of the file, and that of its file system unless it is the same. *)
Definition fd_close_ops (f : Z) (x : fd) : V F Z :=
  let ops := fdops (fd_ops_of x) in
  let! err := match ops_close ops with Some (_, close) => close f | None => ret 0 end in
  match fd_mount x with
  | None => ret err
  | Some a =>
      let! m := get_mount a in
      match fs_close (filesystem (m_fs m)) with
      | Some (addr, close) =>
          if match ops_close ops with Some (addr', _) => addr =? addr' | None => false end then ret err
          else
            let! new_err := close f in
            ret (if new_err <? 0 then new_err else err)
      | None => ret err
      end
  end.

Definition fd_close (f : Z) : V F Z :=
  upd_fd f (fun x => set_fd_refcount (u32 (fd_refcount x - 1)) x) ;;
  let! x := get_fd f in
  if fd_refcount x =? 0 then
    let! err := fd_close_ops f x in
    match fd_inode x with Some i => inode_release i | None => ret tt end ;;
    match fd_mount x with Some m => mount_release m | None => ret tt end ;;
    modify (fun s => set_fds (delete f (fds s)) s) ;;
    ret err
  else ret 0.

(** ** Descriptor tables *)

Definition fdtable_resize (table : Z) (size : Z) : V F Z :=
  let! t := get_table table in
  assert (u32 size >? ft_size t) ;;
  let grow := Z.to_nat (u32 size - ft_size t) in
  let bits := Z.to_nat (8 * BITS_SIZE (u32 size) - Z.of_nat (length (ft_cloexec t))) in
  upd_table table (fun t => set_ft_cloexec (ft_cloexec t ++ replicate bits false)
                              (set_ft_files (ft_files t ++ replicate grow None) t)) ;;
  ret 0.

Definition fdtable_new (size : Z) : V F (Z + Z) :=
  let! t := malloc in
  modify (fun s => set_tables (<[t := mk_fdtable 1 [] []]> (tables s)) s) ;;
  let! err := fdtable_resize t size in
  if err <? 0 then modify (fun s => set_tables (delete t (tables s)) s) ;; ret (inl err)
  else ret (inr t).

(** The limit of open files of the current task, as [rlimit(RLIMIT_NOFILE_)]. *)
Definition rlimit_nofile : V F Z := gets (fun s => nofile (current s)).

(** The sum [max + 1] is taken as a signed number and stored in an unsigned one. *)
Definition fdtable_expand (table max : Z) : V F Z :=
  let size := u32 (max + 1) in
  let! limit := rlimit_nofile in
  if size >? limit then ret _EMFILE
  else
    let! t := get_table table in
    if ft_size t >=? size then ret 0
    else fdtable_resize table (max + 1).

(** The entry of a table, or an access outside of it. *)
Definition file_at (t : fdtable) (f : Z) : V F (option Z) :=
  in_bounds ((0 <=? f) && (f <? ft_size t)) ;; deref (ft_files t !! Z.to_nat f).
Definition set_file_at (table f : Z) (v : option Z) : V F unit :=
  let! t := get_table table in
  in_bounds ((0 <=? f) && (f <? ft_size t)) ;;
  upd_table table (set_ft_files (<[Z.to_nat f := v]> (ft_files t))).
Definition upd_cloexec (table : Z) (op : list bool -> V F (list bool)) : V F unit :=
  let! t := get_table table in
  let! bits := op (ft_cloexec t) in
  upd_table table (set_ft_cloexec bits).

(** The bound is that of the current task's table. *)
Definition fdtable_get (table f : Z) : V F (option Z) :=
  let! s := gets id in
  let! mine := get_table (files (current s)) in
  if (f <? 0) || (u32 f >=? ft_size mine) then ret None
  else
    let! t := get_table table in
    file_at t f.

Definition my_files : V F Z := gets (fun s => files (current s)).

Definition f_get (f : Z) : V F (option Z) :=
  let! table := my_files in
  fdtable_get table f.

(** The loop that looks for a free entry: [files] is what is left of the table from [f] on, up to the limit. *)
Fixpoint free_from (files : list (option Z)) (f : Z) : Z :=
  match files with
  | None :: _ => f
  | Some _ :: files => free_from files (f + 1)
  | [] => f
  end.

Definition f_install_start (fd start : Z) : V F Z :=
  assert (start >=? 0) ;;
  let! table := my_files in
  let! limit := rlimit_nofile in
  let! t := get_table table in
  let size := if u32 limit >? ft_size t then ft_size t else u32 limit in
  let f := free_from (drop (Z.to_nat start) (take (Z.to_nat size) (ft_files t))) start in
  let! f :=
    if f >=? size then
      let! err := fdtable_expand table f in
      ret (if err <? 0 then err else f)
    else ret f in
  if f >=? 0 then
    set_file_at table f (Some fd) ;;
    upd_cloexec table (bit_clear f) ;;
    ret f
  else
    fd_close fd ;;
    ret f.

Definition fd_getflags (f : Z) : V F Z :=
  let! x := get_fd f in
  match ops_getflags (fdops (fd_ops_of x)) with
  | Some getflags => let! s := gets id in deref (getflags f s)
  | None => ret (fd_flags x)
  end.

Definition FD_ALLOWED_FLAGS : Z := Z.lor O_APPEND_ O_NONBLOCK_.
Definition fd_setflags (f flags : Z) : V F Z :=
  let! x := get_fd f in
  match ops_setflags (fdops (fd_ops_of x)) with
  | Some setflags => setflags f flags
  | None =>
      upd_fd f (fun x => set_fd_flags (Z.lor (Z.ldiff (fd_flags x) FD_ALLOWED_FLAGS) (Z.land flags FD_ALLOWED_FLAGS)) x) ;;
      ret 0
  end.

Definition f_install (fd flags : Z) : V F Z :=
  let! table := my_files in
  let! f := f_install_start fd 0 in
  if f >=? 0 then
    (if has flags O_CLOEXEC_ then upd_cloexec table (bit_set f) else ret tt) ;;
    (if has flags O_NONBLOCK_ then let! _ := fd_setflags fd O_NONBLOCK_ in ret tt else ret tt) ;;
    ret f
  else ret f.

(** [file_lock_remove_owned_by]. *)
Definition remove_locks (i owner : Z) : V F unit :=
  upd_inode i (fun x => set_i_locks (FileLock.file_lock_remove_owned_by (i_locks x) owner) x).

Definition fdtable_close (table f : Z) : V F Z :=
  let! fd := fdtable_get table f in
  match fd with
  | None => ret _EBADF
  | Some fd =>
      let! x := get_fd fd in
      match fd_inode x with Some i => remove_locks i table | None => ret tt end ;;
      let! err := fd_close fd in
      set_file_at table f None ;;
      upd_cloexec table (bit_clear f) ;;
      ret err
  end.

Definition f_close (f : Z) : V F Z := let! table := my_files in fdtable_close table f.
Definition sys_close (f : Z) : V F Z := f_close f.

(** The numbers from [f] on. *)
Fixpoint numbers (n : nat) (f : Z) : list Z :=
  match n with O => [] | S n => f :: numbers n (f + 1) end.

Definition fdtable_release (table : Z) : V F unit :=
  upd_table table (fun t => set_ft_refcount (u32 (ft_refcount t - 1)) t) ;;
  let! t := get_table table in
  if ft_refcount t =? 0 then
    for_each (numbers (length (ft_files t)) 0) (fun f => let! _ := fdtable_close table f in ret tt) ;;
    modify (fun s => set_tables (delete table (tables s)) s)
  else ret tt.

Definition fdtable_copy (table : Z) : V F (Z + Z) :=
  let! t := get_table table in
  let! new := fdtable_new (ft_size t) in
  match new with
  | inl err => ret (inl err)
  | inr new_table =>
      upd_table new_table (set_ft_files (ft_files t)) ;;
      for_each (ft_files t) (fun fd => match fd with Some fd => let! _ := fd_retain fd in ret tt | None => ret tt end) ;;
      upd_table new_table (set_ft_cloexec (ft_cloexec t)) ;;
      ret (inr new_table)
  end.

Definition fdtable_do_cloexec (table : Z) : V F unit :=
  let! t := get_table table in
  for_each (numbers (length (ft_files t)) 0) (fun f =>
    let! t := get_table table in
    let! b := bit_test f (ft_cloexec t) in
    if b then let! _ := fdtable_close table f in ret tt else ret tt).

(** ** System calls *)

Definition F_DUPFD_ : Z := 0.
Definition F_GETFD_ : Z := 1.
Definition F_SETFD_ : Z := 2.
Definition F_GETFL_ : Z := 3.
Definition F_SETFL_ : Z := 4.
Definition F_GETLK_ : Z := 5.
Definition F_SETLK_ : Z := 6.
Definition F_SETLKW_ : Z := 7.
Definition F_GETLK64_ : Z := 12.
Definition F_SETLK64_ : Z := 13.
Definition F_SETLKW64_ : Z := 14.
Definition F_DUPFD_CLOEXEC_ : Z := 1030.

Definition sys_dup (f : Z) : V F Z :=
  let! fd := f_get f in
  match fd with
  | None => ret _EBADF
  | Some fd =>
      let! _ := fd_retain fd in
      f_install fd 0
  end.

Definition sys_dup3 (f new_f flags : Z) : V F Z :=
  let! table := my_files in
  let! fd := f_get f in
  match fd with
  | None => ret _EBADF
  | Some fd =>
      let! err := fdtable_expand table new_f in
      if err <? 0 then ret err
      else
        let! _ := fd_retain fd in
        let! _ := f_close new_f in
        set_file_at table new_f (Some fd) ;;
        (if has flags O_CLOEXEC_ then upd_cloexec table (bit_set new_f) else ret tt) ;;
        ret new_f
  end.

Definition sys_dup2 (f new_f : Z) : V F Z := sys_dup3 f new_f 0.

(** What [fcntl_getlk] and [fcntl_setlk] read of the file and the task: the inode must be there, the position and the
    size are looked up when [whence] asks for them. *)
Definition lock_env (f whence : Z) : V F (Z * FileLock.lock_env) :=
  let! x := get_fd f in
  let! s := gets id in
  let! i := deref (fd_inode x) in
  let! pos :=
    if whence =? FileLock.LSEEK_CUR then
      match ops_lseek (fdops (fd_ops_of x)) with
      | Some lseek => let! p := deref (lseek f s) in ret (Some p)
      | None => ret None
      end
    else ret None in
  let! size :=
    if whence =? FileLock.LSEEK_END then
      let! a := deref (fd_mount x) in
      let! m := get_mount a in
      let! st := deref (fs_fstat (filesystem (m_fs m)) f s) in
      ret (match st with inl e => inl e | inr st => inr (st_size st) end)
    else ret (inr 0) in
  let! flags := fd_getflags f in
  ret (i, FileLock.mk_env pos size (files (current s)) (pid (current s)) flags).

Definition fcntl_getlk (f : Z) (fl : FileLock.flock) : V F (Z * FileLock.flock) :=
  if negb (FileLock.fl_type fl =? FileLock.F_RDLCK_) && negb (FileLock.fl_type fl =? FileLock.F_WRLCK_) then ret (_EINVAL, fl)
  else
    let! (i, env) := lock_env f (FileLock.fl_whence fl) in
    let! x := get_inode i in
    ret (FileLock.fcntl_getlk env (i_locks x) fl).

(** [wakeups] is what the other tasks do while this one waits; [Hang] is a wait that does not end. *)
Definition fcntl_setlk (f : Z) (fl : FileLock.flock) (blocking : bool)
    (wakeups : list (Z * list FileLock.file_lock)) : V F Z :=
  if negb (FileLock.fl_type fl =? FileLock.F_RDLCK_) && negb (FileLock.fl_type fl =? FileLock.F_WRLCK_)
     && negb (FileLock.fl_type fl =? FileLock.F_UNLCK_) then ret _EINVAL
  else
    let! flags := fd_getflags f in
    let mode := Z.land flags FileLock.O_ACCMODE_ in
    if (FileLock.fl_type fl =? FileLock.F_RDLCK_) && (mode =? FileLock.O_WRONLY_) then ret _EBADF
    else if (FileLock.fl_type fl =? FileLock.F_WRLCK_) && (mode =? FileLock.O_RDONLY_) then ret _EBADF
    else
      let! (i, env) := lock_env f (FileLock.fl_whence fl) in
      let! x := get_inode i in
      match FileLock.fcntl_setlk env fl blocking wakeups (i_locks x) with
      | None => hang
      | Some (err, locks, _) => upd_inode i (set_i_locks locks) ;; ret err
      end.

(** [struct flock32_] read into a [struct flock_] and back: its offsets are unsigned. *)
Definition flock_of_32 (fl : FileLock.flock) : FileLock.flock :=
  FileLock.mk_flock (u16 (FileLock.fl_type fl)) (u16 (FileLock.fl_whence fl)) (u32 (FileLock.fl_start fl))
    (u32 (FileLock.fl_len fl)) (s32 (FileLock.fl_pid fl)).
Definition flock_to_32 (fl : FileLock.flock) : FileLock.flock :=
  FileLock.mk_flock (u16 (FileLock.fl_type fl)) (u16 (FileLock.fl_whence fl)) (u32 (FileLock.fl_start fl))
    (u32 (FileLock.fl_len fl)) (s32 (FileLock.fl_pid fl)).

(** The guest's structure at [arg]: what reading it gives, and whether writing to it succeeds. *)
Record user_flock := mk_user_flock { user_read : option FileLock.flock; user_write : bool }.

(** The result is that of the call and the structure it stores, if it does. *)
Definition sys_fcntl (f cmd arg : Z) (u : user_flock) (wakeups : list (Z * list FileLock.file_lock)) :
    V F (Z * option FileLock.flock) :=
  let plain (m : V F Z) := let! r := m in ret (r, None) in
  let! table := my_files in
  let! fd := f_get f in
  match fd with
  | None => ret (_EBADF, None)
  | Some fd =>
      if cmd =? F_DUPFD_ then
        let! _ := fd_retain fd in
        plain (f_install_start fd (s32 arg))
      else if cmd =? F_DUPFD_CLOEXEC_ then
        let! _ := fd_retain fd in
        let! new_f := f_install_start fd (s32 arg) in
        upd_cloexec table (bit_set new_f) ;;
        ret (new_f, None)
      else if cmd =? F_GETFD_ then
        let! t := get_table table in
        let! b := bit_test f (ft_cloexec t) in
        ret (cbool b, None)
      else if cmd =? F_SETFD_ then
        (if ctrue (Z.land arg 1) then upd_cloexec table (bit_set f) else upd_cloexec table (bit_clear f)) ;;
        ret (0, None)
      else if cmd =? F_GETFL_ then plain (fd_getflags fd)
      else if cmd =? F_SETFL_ then plain (fd_setflags fd arg)
      else if cmd =? F_GETLK_ then
        match user_read u with
        | None => ret (_EFAULT, None)
        | Some fl =>
            let! (err, fl) := fcntl_getlk fd (flock_of_32 fl) in
            if err >=? 0 then if user_write u then ret (err, Some (flock_to_32 fl)) else ret (_EFAULT, None)
            else ret (err, None)
        end
      else if cmd =? F_GETLK64_ then
        match user_read u with
        | None => ret (_EFAULT, None)
        | Some fl =>
            let! (err, fl) := fcntl_getlk fd fl in
            if err >=? 0 then if user_write u then ret (err, Some fl) else ret (_EFAULT, None)
            else ret (err, None)
        end
      else if (cmd =? F_SETLK_) || (cmd =? F_SETLKW_) then
        match user_read u with
        | None => ret (_EFAULT, None)
        | Some fl => plain (fcntl_setlk fd (flock_of_32 fl) (cmd =? F_SETLKW64_) wakeups)
        end
      else if (cmd =? F_SETLK64_) || (cmd =? F_SETLKW64_) then
        match user_read u with
        | None => ret (_EFAULT, None)
        | Some fl => plain (fcntl_setlk fd fl (cmd =? F_SETLKW_) wakeups)
        end
      else ret (_EINVAL, None)
  end.

Definition sys_fcntl32 (f cmd arg : Z) (u : user_flock) (wakeups : list (Z * list FileLock.file_lock)) :
    V F (Z * option FileLock.flock) :=
  if (cmd =? F_GETLK64_) || (cmd =? F_SETLK64_) || (cmd =? F_SETLKW64_) then ret (_EINVAL, None)
  else sys_fcntl f cmd arg u wakeups.

End WithSystem.

(** ** References

    What is exact is the count of an open file: as many as there are entries for it in the tables, and references held
    elsewhere, which [ext] counts. *)

Fixpoint occ (f : Z) (l : list (option Z)) : Z :=
  match l with
  | [] => 0
  | x :: l => (if bool_decide (x = Some f) then 1 else 0) + occ f l
  end.

Definition refs (ts : gmap Z fdtable) (f : Z) : Z := map_fold (fun _ t n => occ f (ft_files t) + n) 0 ts.

Definition bump (f : Z) (ext : Z -> Z) : Z -> Z := fun g => if decide (g = f) then ext g + 1 else ext g.

Lemma occ_nonneg f l : 0 <= occ f l.
Proof. induction l; cbn; [lia|]. case_match; lia. Qed.
Lemma occ_app f a b : occ f (a ++ b) = occ f a + occ f b.
Proof. induction a; cbn; [lia|]. lia. Qed.
Lemma occ_none f n : occ f (replicate n None) = 0.
Proof. by induction n. Qed.
Lemma occ_insert f l i x y : l !! i = Some x ->
  occ f (<[i := y]> l) = occ f l - (if bool_decide (x = Some f) then 1 else 0) + (if bool_decide (y = Some f) then 1 else 0).
Proof.
  revert i. induction l as [|z l IH]; intros i H; [done|]. destruct i as [|i]; [cbn in *; simplify_eq; lia|].
  change (<[S i := y]> (z :: l)) with (z :: <[i := y]> l). cbn [occ]. rewrite (IH i) by done. lia.
Qed.
Lemma occ_pos f l i : l !! i = Some (Some f) -> 1 <= occ f l.
Proof.
  intros H. rewrite <- (take_drop_middle l i _ H), occ_app. cbn. rewrite bool_decide_true by done.
  pose proof (occ_nonneg f (take i l)). pose proof (occ_nonneg f (drop (S i) l)). lia.
Qed.

Lemma refs_lookup ts t x f : ts !! t = Some x -> refs ts f = occ f (ft_files x) + refs (delete t ts) f.
Proof. intros H. unfold refs. apply (map_fold_delete_L (fun _ t n => occ f (ft_files t) + n) 0 t x ts); [intros; lia|done]. Qed.
Lemma refs_insert ts t x y f : ts !! t = Some x -> refs (<[t := y]> ts) f = refs ts f - occ f (ft_files x) + occ f (ft_files y).
Proof.
  intros H. rewrite (refs_lookup (<[t := y]> ts) t y) by apply lookup_insert_eq. rewrite delete_insert_eq, (refs_lookup ts t x) by done. lia.
Qed.
Lemma refs_new ts t y f : ts !! t = None -> refs (<[t := y]> ts) f = refs ts f + occ f (ft_files y).
Proof.
  intros H. rewrite (refs_lookup (<[t := y]> ts) t y) by apply lookup_insert_eq. rewrite delete_insert_eq, delete_id by done. lia.
Qed.
Lemma fd_refs_nonneg ts f : 0 <= refs ts f.
Proof. unfold refs. apply (map_fold_weak_ind (fun r _ => 0 <= r)); [lia|]. intros t x m r _ H. pose proof (occ_nonneg f (ft_files x)). lia. Qed.
Lemma occ_le_refs ts t x f : ts !! t = Some x -> occ f (ft_files x) <= refs ts f.
Proof. intros H. rewrite (refs_lookup _ _ _ _ H). pose proof (fd_refs_nonneg (delete t ts) f). lia. Qed.

Section Exact.
Context {F : Type}.
Implicit Types s : vfs F.

Definition exact (ext : Z -> Z) s : Prop :=
  forall f, match fds s !! f with
            | Some x => fd_refcount x = refs (tables s) f + ext f /\ 0 < fd_refcount x < 2 ^ 32
            | None => refs (tables s) f + ext f = 0
            end.

(** What an operation that only looks after inodes, mounts and file system data leaves alone. *)
Definition keeps s s' : Prop :=
  tables s' = tables s /\ current s' = current s /\ forall f, fd_refcount <$> fds s' !! f = fd_refcount <$> fds s !! f.

#[global] Instance keeps_preorder : PreOrder keeps.
Proof.
  split; [by intros s|]. intros s1 s2 s3 (? & ? & H1) (? & ? & H2). split_and!; [congruence..|]. intros f. by rewrite H2, H1.
Qed.

Lemma exact_keeps ext s s' : keeps s s' -> exact ext s -> exact ext s'.
Proof.
  intros (Ht & _ & Hf) H f. specialize (H f). specialize (Hf f). rewrite Ht.
  destruct (fds s !! f), (fds s' !! f); cbn in *; simplify_eq; try done. by rewrite Hf.
Qed.

Definition keeping {A} (m : V F A) : Prop := forall s a s', m s = Ret a s' -> keeps s s'.

Lemma keeping_bind {A B} (m : V F A) (f : A -> V F B) : keeping m -> (forall a, keeping (f a)) -> keeping (bind m f).
Proof. intros Hm Hf s b s' H. vbind H as (a & s1 & H1 & H2). etransitivity; [by eapply Hm|by eapply Hf]. Qed.
Lemma keeping_ret {A} (a : A) : keeping (ret a).
Proof. intros s b s' H. by vinv H. Qed.
Lemma keeping_gets {A} (g : vfs F -> A) : keeping (gets g).
Proof. intros s b s' H. by vinv H. Qed.
Lemma keeping_deref {A} (o : option A) : keeping (deref o).
Proof. intros s b s' H. by vinv H. Qed.
Lemma keeping_assert b : keeping (assert b).
Proof. intros s a s' H. by vinv H. Qed.
Lemma keeping_in_bounds b : keeping (in_bounds b).
Proof. intros s a s' H. by vinv H. Qed.
Lemma keeping_hang {A} : keeping (@hang F A).
Proof. by intros s a s' H. Qed.
Lemma keeping_modify g : (forall s, keeps s (g s)) -> keeping (modify g).
Proof. intros Hg s a s' H. vinv H. apply Hg. Qed.
End Exact.

Create HintDb vkeep.
#[export] Hint Resolve keeping_ret keeping_gets keeping_deref keeping_assert keeping_in_bounds keeping_hang : vkeep.
Ltac vkeep := repeat first
  [ solve [auto with vkeep] | apply keeping_bind; [|intros ?]
  | apply keeping_modify; intros [? ? ? ? ? ? ? ?]; by split_and! | case_match ].

Section Keep.
Context {F : Type}.
Lemma keeping_get_fd f : keeping (@get_fd F f).
Proof. unfold get_fd. vkeep. Qed.
Lemma keeping_get_table t : keeping (@get_table F t).
Proof. unfold get_table. vkeep. Qed.
Lemma keeping_get_inode t : keeping (@get_inode F t).
Proof. unfold get_inode. vkeep. Qed.
Lemma keeping_get_mount t : keeping (@get_mount F t).
Proof. unfold get_mount. vkeep. Qed.
Lemma keeping_upd_mount a g : keeping (@upd_mount F a g).
Proof. unfold upd_mount. apply keeping_bind; [apply keeping_get_mount|intros ?]. vkeep. Qed.
Lemma keeping_upd_inode a g : keeping (@upd_inode F a g).
Proof. unfold upd_inode. apply keeping_bind; [apply keeping_get_inode|intros ?]. vkeep. Qed.
Lemma keeping_malloc : keeping (@malloc F).
Proof. unfold malloc. vkeep. Qed.
Lemma keeping_upd_fd f g : (forall x, fd_refcount (g x) = fd_refcount x) -> keeping (@upd_fd F f g).
Proof.
  intros Hg s a s' H. unfold upd_fd, get_fd in H. vinv H. destruct s; cbn in *. split_and!; [done..|]. intros h. cbn.
  destruct (decide (h = f)) as [->|]; [|by rewrite lookup_insert_ne].
  rewrite lookup_insert_eq. match goal with E : _ !! f = Some _ |- _ => rewrite E end. cbn. by rewrite Hg.
Qed.
End Keep.
#[export] Hint Resolve keeping_get_fd keeping_get_table keeping_get_inode keeping_get_mount keeping_upd_mount keeping_upd_inode
  keeping_malloc : vkeep.

(** The operations a file system or a file provides leave tables and counts alone. *)
Class FdLaws (F : Type) `{System F} := {
  ops_close_keeps : forall o a c f, ops_close (fdops o) = Some (a, c) -> keeping (c f);
  ops_setflags_keeps : forall o c f x, ops_setflags (fdops o) = Some c -> keeping (c f x);
  fs_close_keeps : forall m a c f, fs_close (filesystem m) = Some (a, c) -> keeping (c f);
  fs_orphaned_keeps : forall m c a i, fs_inode_orphaned (filesystem m) = Some c -> keeping (c a i);
}.

Section Laws.
Context {F : Type} {SF : System F} {LF : FdLaws F}.
Implicit Types s : vfs F.

(** *** What leaves the counts alone *)

Lemma keeping_close_ops f x : keeping (fd_close_ops f x).
Proof.
  unfold fd_close_ops. apply keeping_bind.
  - destruct (ops_close _) as [[a c]|] eqn:E; [by eapply ops_close_keeps|auto with vkeep].
  - intros err. destruct (fd_mount x) as [m|]; [|auto with vkeep]. apply keeping_bind; [auto with vkeep|intros y].
    destruct (fs_close _) as [[a c]|] eqn:E; [|auto with vkeep]. case_match; (try by auto with vkeep).
    all: case_match; [auto with vkeep|]. all: apply keeping_bind; [by eapply fs_close_keeps|auto with vkeep].
Qed.
Lemma keeping_inode_release i : keeping (inode_release i).
Proof.
  unfold inode_release. apply keeping_bind; [auto with vkeep|intros _]. apply keeping_bind; [auto with vkeep|intros x].
  case_match; [|auto with vkeep]. apply keeping_bind; [vkeep|intros _]. apply keeping_bind; [auto with vkeep|intros m].
  apply keeping_bind; [|intros _]; [|unfold mount_release; vkeep].
  destruct (fs_inode_orphaned _) eqn:E; [by eapply fs_orphaned_keeps|auto with vkeep].
Qed.
Lemma keeping_setflags f x : keeping (fd_setflags f x).
Proof.
  unfold fd_setflags. apply keeping_bind; [auto with vkeep|intros y].
  destruct (ops_setflags _) eqn:E; [by eapply ops_setflags_keeps|]. apply keeping_bind; [|auto with vkeep].
  apply keeping_upd_fd. by intros [].
Qed.
Lemma keeping_getflags f : keeping (fd_getflags f).
Proof. unfold fd_getflags. vkeep. Qed.

(** *** Counting *)

Definition unbump (f : Z) (ext : Z -> Z) : Z -> Z := fun g => if decide (g = f) then ext g - 1 else ext g.

Lemma exact_ext ext ext' s : (forall f, ext f = ext' f) -> exact ext s -> exact ext' s.
Proof. intros E H f. specialize (H f). by rewrite <- E. Qed.

Lemma exact_some ext s f : exact ext s -> 0 < refs (tables s) f + ext f -> exists x, fds s !! f = Some x.
Proof. intros H Hp. specialize (H f). destruct (fds s !! f); [eauto|lia]. Qed.

Lemma fd_retain_exact ext f s r s' : exact ext s -> refs (tables s) f + ext f + 1 < 2 ^ 32 ->
  fd_retain f s = Ret r s' -> exact (bump f ext) s' /\ tables s' = tables s /\ current s' = current s /\ next s' = next s.
Proof.
  intros Hex Hroom E. unfold fd_retain, upd_fd, get_fd in E. vinv E. destruct s; cbn in *. split_and!; [|done..].
  intros g. cbn. specialize (Hex g). cbn in Hex. unfold bump. destruct (decide (g = f)) as [->|].
  - rewrite lookup_insert_eq. match goal with E : _ !! f = Some ?x |- _ => rewrite E in Hex; destruct x end. cbn in *.
    rewrite wrap_small by (unfold in_u; lia). lia.
  - rewrite lookup_insert_ne by done. done.
Qed.

Lemma fd_close_exact ext f s r s' : exact ext s -> fd_close f s = Ret r s' ->
  exact (unbump f ext) s' /\ tables s' = tables s /\ current s' = current s.
Proof.
  intros Hex E. unfold fd_close in E. vbind E as ([] & s1 & E1 & E).
  assert (exists x, fds s !! f = Some x /\ s1 = set_fds (<[f := set_fd_refcount (u32 (fd_refcount x - 1)) x]> (fds s)) s) as (x & Hx & ->).
  { unfold upd_fd, get_fd in E1. vinv E1. eauto. }
  vbind E as (y & s2 & E2 & E). unfold get_fd in E2. vinv E2. destruct s as [a b fs c d ts cur nx]; cbn in *.
  rewrite lookup_insert_eq in E2. injection E2 as <-. pose proof (Hex f) as Hf. cbn in Hf. rewrite Hx in Hf. destruct Hf as [Hf1 Hf2].
  assert (fd_refcount (set_fd_refcount (u32 (fd_refcount x - 1)) x) = fd_refcount x - 1) as Hrc.
  { destruct x; cbn in *. apply wrap_small. unfold in_u. lia. }
  rewrite Hrc in E. set (s1 := set_fds _ _) in E. destruct (Z.eqb_spec (fd_refcount x - 1) 0) as [Hz|Hz].
  - (* the last reference *)
    vbind E as (err & s3 & E3 & E). vbind E as ([] & s4 & E4 & E).
    vbind E as ([] & s5 & E5 & E).
    assert (keeps s1 s5) as (Kt & Kc & Kf).
    { etransitivity; [by eapply keeping_close_ops|]. etransitivity.
      - destruct (fd_inode _); [by eapply keeping_inode_release|by eapply keeping_ret].
      - destruct (fd_mount _); [by eapply keeping_upd_mount|by eapply keeping_ret]. }
    vinv E. destruct s5 as [a' b' fs' c' d' ts' cur' nx']; cbn in *. subst ts' cur'. split_and!; [|done..].
    intros g. cbn. specialize (Kf g). specialize (Hex g). cbn in Hex, Kf. unfold unbump. destruct (decide (g = f)) as [->|].
    + rewrite lookup_delete_eq. lia.
    + rewrite lookup_delete_ne by done. rewrite lookup_insert_ne in Kf by done.
      destruct (fs' !! g), (fs !! g); cbn in Kf; simplify_eq; [by rewrite Kf|done].
  - vinv E. split_and!; [|done..]. intros g. cbn. specialize (Hex g). cbn in Hex. unfold unbump. destruct (decide (g = f)) as [->|].
    + rewrite lookup_insert_eq, Hrc. lia.
    + by rewrite lookup_insert_ne.
Qed.

(** Putting another table in the place of one changes the references by the difference of its entries. *)
Lemma exact_table ext ext' t x y s : exact ext s -> tables s !! t = Some x ->
  (forall f, ext' f = ext f + occ f (ft_files x) - occ f (ft_files y)) ->
  exact ext' (set_tables (<[t := y]> (tables s)) s).
Proof.
  intros Hex Ht He f. specialize (Hex f). destruct s; cbn in *. rewrite (refs_insert _ _ x) by done. rewrite He.
  case_match; [destruct Hex; split; lia|lia].
Qed.

Lemma upd_table_Ret t g s a s' : upd_table t g s = Ret a s' ->
  exists x, tables s !! t = Some x /\ s' = set_tables (<[t := g x]> (tables s)) s.
Proof. unfold upd_table, get_table. intros E. vinv E. eauto. Qed.

Lemma bit_set_Ret i l s r s' : bit_set i l s = Ret r s' ->
  s' = s /\ r = <[Z.to_nat (u64 i) := true]> l /\ u64 i < Z.of_nat (length l).
Proof. unfold bit_set. intros E. vinv E. apply Z.ltb_lt in E0. done. Qed.
Lemma bit_clear_Ret i l s r s' : bit_clear i l s = Ret r s' ->
  s' = s /\ r = <[Z.to_nat (u64 i) := false]> l /\ u64 i < Z.of_nat (length l).
Proof. unfold bit_clear. intros E. vinv E. apply Z.ltb_lt in E0. done. Qed.

Lemma upd_cloexec_Ret t op s a s' : (forall l s r s', op l s = Ret r s' -> s' = s) -> upd_cloexec t op s = Ret a s' ->
  exists x bits, tables s !! t = Some x /\ op (ft_cloexec x) s = Ret bits s /\
    s' = set_tables (<[t := set_ft_cloexec bits x]> (tables s)) s.
Proof.
  intros Hop E. unfold upd_cloexec, get_table in E. vinv E. apply upd_table_Ret in E as (x & Hx & ->).
  match goal with E : op _ _ = Ret _ _ |- _ => pose proof (Hop _ _ _ _ E); subst; simplify_eq; eauto 6 end.
Qed.

Lemma set_file_at_Ret t f v s a s' : set_file_at t f v s = Ret a s' ->
  exists x, tables s !! t = Some x /\ 0 <= f < ft_size x /\
    s' = set_tables (<[t := set_ft_files (<[Z.to_nat f := v]> (ft_files x)) x]> (tables s)) s.
Proof.
  unfold set_file_at, get_table. intros E. vinv E. apply upd_table_Ret in E as (x & Hx & ->). simplify_eq.
  match goal with E : (_ && _) = true |- _ => apply andb_true_iff in E as [?%Z.leb_le ?%Z.ltb_lt] end. eauto.
Qed.

(** A table whose files are the same, or which has free entries more. *)
Lemma exact_same_files ext t x y s : exact ext s -> tables s !! t = Some x ->
  (exists n, ft_files y = ft_files x ++ replicate n None) -> exact ext (set_tables (<[t := y]> (tables s)) s).
Proof.
  intros Hex Ht [n Hy]. eapply exact_table; [done..|]. intros f. rewrite Hy, occ_app, occ_none. lia.
Qed.

(** *** Growing a table *)

Lemma set_tables_id s t x : tables s !! t = Some x -> set_tables (<[t := x]> (tables s)) s = s.
Proof. intros H. destruct s; cbn in *. unfold set_tables; cbn. by rewrite insert_id. Qed.

(** A table with free entries more. *)
Definition grown (x y : fdtable) (size : Z) : Prop :=
  ft_refcount y = ft_refcount x /\
  (exists n, ft_files y = ft_files x ++ replicate n None) /\
  (exists n, ft_cloexec y = ft_cloexec x ++ replicate n false) /\
  ft_size y = ft_size x `max` size.

Lemma fdtable_expand_Ret t max s r s' : fdtable_expand t max s = Ret r s' ->
  (r = _EMFILE /\ s' = s /\ nofile (current s) < u32 (max + 1)) \/
  (r = 0 /\ u32 (max + 1) <= nofile (current s) /\
   exists x y, tables s !! t = Some x /\ s' = set_tables (<[t := y]> (tables s)) s /\ grown x y (u32 (max + 1))).
Proof.
  unfold fdtable_expand, rlimit_nofile. cbv zeta. intros E. vbind E as (l & s1 & E1 & E). vinv E1.
  destruct (Z.gtb_spec (u32 (max + 1)) (nofile (current s))); [left; vinv E; split_and!; done || lia|]. right.
  vbind E as (x & s1 & E1 & E). unfold get_table in E1. vinv E1. rewrite Z.geb_leb in E. destruct (Z.leb_spec (u32 (max + 1)) (ft_size x)).
  - vinv E. split_and!; [done|lia|]. exists x, x. split; [done|]. rewrite set_tables_id by done. split; [done|].
    split_and!; [done|by exists O; rewrite app_nil_r|by exists O; rewrite app_nil_r|lia].
  - unfold fdtable_resize, get_table in E. vinv E. split_and!; [done|lia|].
    match goal with E : upd_table _ _ _ = _ |- _ => apply upd_table_Ret in E as (y & Hy & ->) end.
    assert (y = x) as -> by congruence. eexists _, _. split; [done|]. split; [done|]. destruct x as [rc fl ce]. unfold grown, ft_size in *; cbn [ft_files ft_cloexec set_ft_cloexec set_ft_files ft_refcount] in *.
    split_and!; [done|by eexists|by eexists|]. rewrite length_app, length_replicate. assert (a = mk_fdtable rc fl ce) as -> by congruence. cbn [ft_files]. lia.
Qed.

Lemma fdtable_expand_exact ext t max s r s' : exact ext s -> fdtable_expand t max s = Ret r s' ->
  exact ext s' /\ current s' = current s /\ next s' = next s.
Proof.
  intros Hex [(_ & -> & _)|(_ & _ & x & y & Hx & -> & _ & Hf & _)]%fdtable_expand_Ret; [done|].
  split; [by eapply exact_same_files|]. by destruct s.
Qed.

(** *** The lowest free number *)

Lemma free_from_spec l f : exists n, free_from l f = f + Z.of_nat n /\ (n <= length l)%nat /\
  (forall i, (i < n)%nat -> exists g, l !! i = Some (Some g)) /\ (n < length l -> l !! n = Some None)%nat.
Proof.
  revert f. induction l as [|x l IH]; intros f; [exists O; cbn; split_and!; lia|]. destruct x as [g|].
  - destruct (IH (f + 1)) as (n & E & Hn & Hi & Hl). exists (S n). cbn. split_and!; [lia|lia| |].
    + intros [|i] Hlt; [eauto|]. cbn. apply Hi. lia.
    + intros Hlt. apply Hl. lia.
  - exists O. cbn. split_and!; [lia|lia|lia|done].
Qed.

(** The number [f_install_start] chooses in a table. *)
Definition lowest_free (t : fdtable) (start : Z) : Z := free_from (drop (Z.to_nat start) (ft_files t)) start.

Lemma lowest_free_spec t start : 0 <= start -> let f := lowest_free t start in
  start <= f <= ft_size t `max` start /\ (f < ft_size t -> ft_files t !! Z.to_nat f = Some None) /\
  (forall i, start <= i < f -> exists g, ft_files t !! Z.to_nat i = Some (Some g)).
Proof.
  intros Hs f. unfold f, lowest_free. destruct (free_from_spec (drop (Z.to_nat start) (ft_files t)) start) as (n & -> & Hn & Hi & Hl).
  rewrite length_drop in *. split_and!; [lia|unfold ft_size; lia| |].
  - intros Hlt. unfold ft_size in Hlt. rewrite lookup_drop in Hl. replace (Z.to_nat (start + Z.of_nat n)) with (Z.to_nat start + n)%nat by lia.
    apply Hl. lia.
  - intros i Hlt. destruct (Hi (Z.to_nat (i - start))) as (g & Hg); [lia|]. exists g. rewrite lookup_drop in Hg.
    replace (Z.to_nat i) with (Z.to_nat start + Z.to_nat (i - start))%nat by lia. done.
Qed.

(** The limit of open files is a number a descriptor can have. *)
Definition limit_ok s : Prop := 0 <= nofile (current s) < 2 ^ 31.

Lemma free_from_take l f n : free_from (take n l) f = (free_from l f) `min` (f + Z.of_nat n).
Proof.
  revert f n. induction l as [|x l IH]; intros f n; [rewrite take_nil; cbn; lia|].
  destruct n as [|n]; [cbn; destruct (free_from_spec (x :: l) f) as (k & E & _); cbn in E; lia|].
  cbn [take free_from]. destruct x; [rewrite IH|]; lia.
Qed.

Lemma f_install_start_Ret fd start s r s' : limit_ok s -> 0 <= start < 2 ^ 31 -> f_install_start fd start s = Ret r s' ->
  exists x, tables s !! files (current s) = Some x /\ let f := lowest_free x start in
  (r = f /\ f < nofile (current s) /\ exists y, grown x y (f + 1) /\ ft_files y !! Z.to_nat f = Some None /\
     s' = set_tables (<[files (current s) := set_ft_cloexec (<[Z.to_nat f := false]> (ft_cloexec y))
            (set_ft_files (<[Z.to_nat f := Some fd]> (ft_files y)) y)]> (tables s)) s) \/
  (r = _EMFILE /\ nofile (current s) <= f /\ exists e, fd_close fd s = Ret e s').
Proof.
  intros Hlim Hst E. unfold f_install_start, my_files, rlimit_nofile in E. vbind E as ([] & s1 & E1 & E). vinv E1. clear E1.
  do 2 (vbind E as (? & s1 & E1 & E); vinv E1). vbind E as (x & s1 & E1 & E).
  unfold get_table in E1. vinv E1. exists x. split; [done|]. intros f. destruct (lowest_free_spec x start) as (Hf1 & Hf2 & Hf3); [lia|]. fold f in Hf1, Hf2, Hf3.
  unfold limit_ok in Hlim. rewrite wrap_small in E by (unfold in_u; lia). remember (nofile (current s)) as l eqn:El.
  set (size := if l >? ft_size x then ft_size x else l) in E.
  assert (size = ft_size x `min` l) as Hsize by (unfold size; destruct (Z.gtb_spec l (ft_size x)); lia). clearbody size.
  assert (0 <= ft_size x) by (unfold ft_size; lia).
  assert (free_from (drop (Z.to_nat start) (take (Z.to_nat size) (ft_files x))) start = f `min` (size `max` start)) as EF.
  { rewrite skipn_firstn_comm, free_from_take. fold (lowest_free x start). fold f. lia. }
  rewrite EF in E. remember (f `min` (size `max` start)) as f0 eqn:Ef0. cbv zeta in E. vbind E as (f1 & s1 & E4 & E).
  assert ((f1 = f /\ f < l /\ exists y, grown x y (f + 1) /\ ft_files y !! Z.to_nat f = Some None /\
             s1 = set_tables (<[files (current s) := y]> (tables s)) s) \/ (f1 = _EMFILE /\ l <= f /\ s1 = s)) as [(-> & Hl & y & Hg & Hn & ->)|(-> & Hl & ->)].
  { rewrite Z.geb_leb in E4. destruct (Z.leb_spec size f0).
    - vbind E4 as (e & s2 & E2 & E4). vinv E4. apply fdtable_expand_Ret in E2.
      rewrite wrap_small in E2 by (unfold in_u; lia). rewrite <- El in E2. destruct E2 as [(-> & -> & Hbig)|(-> & Hle & x' & y & Hx & -> & Hg)].
      + right. split; [done|]. split; [lia|done].
      + left. assert (x' = x) as -> by congruence. assert (f0 = f) as Ef by lia. rewrite Ef in *. split; [done|]. split; [lia|]. exists y.
        split_and!; [done| |done]. destruct Hg as (_ & (n & Hn) & _ & Hs). unfold ft_size in *.
        rewrite Hn, length_app, length_replicate in Hs. rewrite Hn, lookup_app_r by lia. apply lookup_replicate. split; [done|]. lia.
    - vinv E4. left. assert (f0 = f) as Ef by lia. rewrite Ef in *. split; [done|]. split; [lia|]. exists x. rewrite set_tables_id by done.
      split_and!; [|apply Hf2; lia|done]. split_and!; [done|by exists O; rewrite app_nil_r|by exists O; rewrite app_nil_r|lia]. }
  - left. rewrite Z.geb_leb in E. destruct (Z.leb_spec 0 f); [|lia]. split.
    + vbind E as ([] & s2 & _ & E). vbind E as ([] & s3 & _ & E). by vinv E.
    + split; [done|]. exists y. split; [done|]. split; [done|]. vbind E as ([] & s2 & E2 & E).
      vbind E as ([] & s3 & E3 & E). vinv E. apply set_file_at_Ret in E2 as (z & Hz & Hr & ->).
      apply upd_cloexec_Ret in E3 as (z' & bits & Hz' & Hb & ->); [|by intros ? ? ? ? []%bit_clear_Ret].
      destruct s as [a b c d e ts cur nx]; cbn in *. rewrite lookup_insert_eq in Hz. injection Hz as <-.
      rewrite lookup_insert_eq in Hz'. injection Hz' as <-. apply bit_clear_Ret in Hb as (_ & -> & _).
      rewrite wrap_small by (unfold in_u; lia). destruct y; cbn in *. unfold set_tables; cbn. by rewrite !insert_insert_eq.
  - right. change (_EMFILE >=? 0) with false in E. cbn iota in E. vbind E as (e & s2 & E2 & E). vinv E. eauto.
Qed.

(** *** Closing *)

Lemma fdtable_get_Ret t f s r s' : fdtable_get t f s = Ret r s' -> s' = s /\
  match r with
  | Some g => exists x, tables s !! t = Some x /\ 0 <= f < ft_size x /\ ft_files x !! Z.to_nat f = Some (Some g)
  | None => exists mine, tables s !! files (current s) = Some mine /\
      ((f < 0 \/ ft_size mine <= u32 f) \/ exists x, tables s !! t = Some x /\ ft_files x !! Z.to_nat f = Some None)
  end.
Proof.
  unfold fdtable_get, get_table, file_at. intros E. vbind E as (? & ? & E1 & E). vinv E1.
  vbind E as (mine & s1 & E1 & E). vinv E1. destruct ((f <? 0) || _) eqn:Eb.
  - vinv E. split; [done|]. exists mine. split; [done|]. left. apply orb_true_iff in Eb as [?%Z.ltb_lt|?%Z.geb_le]; [by left|by right].
  - vinv E. split; [done|]. match goal with E : (_ && _) = true |- _ => apply andb_true_iff in E as [?%Z.leb_le ?%Z.ltb_lt] end. destruct r; eauto 8.
Qed.

Lemma keeping_remove_locks x t : keeping (match fd_inode x with Some i => remove_locks i t | None => @ret F unit tt end).
Proof. destruct (fd_inode x); [apply keeping_upd_inode|apply keeping_ret]. Qed.

(** The table after the entry [f] has been closed. *)
Definition closed_at (f : Z) (x : fdtable) : fdtable :=
  set_ft_cloexec (<[Z.to_nat (u64 f) := false]> (ft_cloexec x)) (set_ft_files (<[Z.to_nat f := None]> (ft_files x)) x).

Lemma fd_close_frame f s r s' : fd_close f s = Ret r s' -> tables s' = tables s /\ current s' = current s.
Proof.
  unfold fd_close. intros E3. vbind E3 as ([] & s3 & E4 & E3). unfold upd_fd, get_fd in E4. vinv E4.
  vbind E3 as (z & s4 & E5 & E3). unfold get_fd in E5. vinv E5. destruct (_ =? 0).
  - vbind E3 as (? & s5 & E6 & E3). apply keeping_close_ops in E6 as (K1 & K2 & _).
    vbind E3 as ([] & s6 & E7 & E3). assert (keeps s5 s6) as (K3 & K4 & _).
    { destruct (fd_inode z); [by eapply keeping_inode_release|by eapply keeping_ret]. }
    vbind E3 as ([] & s7 & E8 & E3). assert (keeps s6 s7) as (K5 & K6 & _).
    { destruct (fd_mount z); [by eapply keeping_upd_mount|by eapply keeping_ret]. }
    vinv E3. destruct s, s7; cbn in *. split; congruence.
  - vinv E3. by destruct s.
Qed.

Lemma fdtable_close_Ret t f s r s' : fdtable_close t f s = Ret r s' ->
  (r = _EBADF /\ s' = s /\ fdtable_get t f s = Ret None s) \/
  (exists x g s1 s2, tables s !! t = Some x /\ 0 <= f < ft_size x /\ ft_files x !! Z.to_nat f = Some (Some g) /\
     keeps s s1 /\ fd_close g s1 = Ret r s2 /\ tables s2 = tables s /\ current s2 = current s /\
     s' = set_tables (<[t := closed_at f x]> (tables s)) s2).
Proof.
  unfold fdtable_close. intros E. vbind E as (o & s0 & E0 & E).
  pose proof (fdtable_get_Ret _ _ _ _ _ E0) as [-> Ho]. destruct o as [g|]; [right|left; by vinv E].
  destruct Ho as (x & Hx & Hf & Hg). vbind E as (y & s1 & E1 & E). unfold get_fd in E1. vinv E1.
  vbind E as ([] & s1 & E2 & E). apply keeping_remove_locks in E2. exists x, g, s1.
  vbind E as (e & s2 & E3 & E). exists s2.
  assert (e = r) as -> by (vbind E as ([] & ? & _ & E); vbind E as ([] & ? & _ & E); by vinv E).
  assert (tables s2 = tables s /\ current s2 = current s) as [Kt Kc].
  { destruct (fd_close_frame _ _ _ _ E3) as [-> ->]. by destruct E2 as (? & ? & _). }
  split_and!; try done; try lia. vbind E as ([] & s3 & E4 & E). vbind E as ([] & s4 & E5 & E). vinv E.
  apply set_file_at_Ret in E4 as (x' & Hx' & _ & ->). rewrite Kt in Hx'. assert (x' = x) as -> by congruence.
  apply upd_cloexec_Ret in E5 as (z' & bits & Hz' & Hb & ->); [|by intros ? ? ? ? []%bit_clear_Ret].
  destruct s2; cbn in *. subst. rewrite lookup_insert_eq in Hz'. injection Hz' as <-. apply bit_clear_Ret in Hb as (_ & -> & _).
  unfold set_tables, closed_at; cbn. rewrite !insert_insert_eq. by destruct x.
Qed.

(** *** Every call keeps the counts exact *)

Lemma occ_closed f x i g : ft_files x !! Z.to_nat i = Some (Some g) ->
  occ f (ft_files (closed_at i x)) = occ f (ft_files x) - (if decide (f = g) then 1 else 0).
Proof.
  intros Hg. unfold closed_at. destruct x as [rc fl ce]; cbn [ft_files set_ft_files set_ft_cloexec] in *.
  rewrite (occ_insert _ _ _ _ _ Hg). rewrite (bool_decide_false (None = Some f)) by done.
  destruct (decide (f = g)) as [->|]; [rewrite bool_decide_true by done; lia|]. rewrite bool_decide_false by congruence. lia.
Qed.

Lemma fdtable_close_exact ext t f s r s' : exact ext s -> fdtable_close t f s = Ret r s' ->
  exact ext s' /\ current s' = current s /\ (r = _EBADF /\ s' = s \/ exists x, tables s !! t = Some x /\ tables s' = <[t := closed_at f x]> (tables s)).
Proof.
  intros Hex [(-> & -> & _)|(x & g & s1 & s2 & Hx & Hf & Hg & Hk & Hc & Ht & Hcur & ->)]%fdtable_close_Ret; [by auto|].
  eapply fd_close_exact in Hc as (Hc & _ & _); [|by eapply exact_keeps].
  rewrite <- Ht in Hx |- *. split; [|split; [by destruct s2|right; exists x; split; [done|by destruct s2]]].
  eapply exact_table; [exact Hc|done|]. intros h. rewrite (occ_closed _ _ _ _ Hg). unfold unbump. case_decide; lia.
Qed.

Lemma fd_retain_frame f s r s' : fd_retain f s = Ret r s' -> tables s' = tables s /\ current s' = current s.
Proof. unfold fd_retain, upd_fd, get_fd. intros E. vinv E. by destruct s. Qed.

Lemma f_install_start_exact ext fd start s r s' : limit_ok s -> 0 <= start < 2 ^ 31 -> exact (bump fd ext) s ->
  f_install_start fd start s = Ret r s' -> exact ext s' /\ current s' = current s.
Proof.
  intros Hlim Hst Hex E. apply f_install_start_Ret in E; [|done|done].
  destruct E as (x & Hx & [(-> & _ & y & (_ & (n & Hy) & _ & _) & Hn & ->)|(-> & _ & e & Hc)]).
  - split; [|by destruct s]. eapply exact_table; [exact Hex|done|]. intros f. destruct y as [rc fl ce]. cbn [ft_files set_ft_files set_ft_cloexec] in *.
    rewrite (occ_insert _ _ _ _ _ Hn), Hy, occ_app, occ_none. rewrite (bool_decide_false (None = Some f)) by done.
    unfold bump. destruct (decide (f = fd)) as [->|]; [rewrite bool_decide_true by done; lia|]. rewrite bool_decide_false by congruence. lia.
  - eapply fd_close_exact in Hc as (Hc & _ & Hcur); [|done]. split; [|done]. eapply exact_ext; [|exact Hc].
    intros f. unfold unbump, bump. case_decide; lia.
Qed.

Lemma upd_cloexec_exact ext t op s a s' : (forall l s r s', op l s = Ret r s' -> s' = s) -> exact ext s -> upd_cloexec t op s = Ret a s' ->
  exact ext s' /\ current s' = current s.
Proof.
  intros Hop Hex E. apply upd_cloexec_Ret in E as (x & bits & Hx & _ & ->); [|done]. split; [|by destruct s].
  eapply exact_same_files; [done..|]. exists O. rewrite app_nil_r. by destruct x.
Qed.
Lemma bit_set_state i l s r s' : bit_set i l s = Ret r s' -> s' = s.
Proof. by intros []%bit_set_Ret. Qed.
Lemma bit_clear_state i l s r s' : bit_clear i l s = Ret r s' -> s' = s.
Proof. by intros []%bit_clear_Ret. Qed.
Hint Resolve bit_set_state bit_clear_state : core.

Lemma f_install_exact ext fd flags s r s' : limit_ok s -> exact (bump fd ext) s -> f_install fd flags s = Ret r s' ->
  exact ext s' /\ current s' = current s.
Proof.
  intros Hlim Hex E. unfold f_install, my_files in E. vbind E as (? & s0 & E0 & E). vinv E0.
  vbind E as (f & s1 & E1 & E). apply (f_install_start_exact ext) in E1 as [Hex1 Hc1]; [|done|lia|done].
  destruct (f >=? 0); [|by vinv E]. vbind E as ([] & s2 & E2 & E).
  assert (exact ext s2 /\ current s2 = current s) as [Hex2 Hc2].
  { destruct (has flags O_CLOEXEC_); [|by vinv E2]. eapply upd_cloexec_exact in E2 as [? ?]; [|by eauto..]. split; [done|congruence]. }
  vbind E as ([] & s3 & E3 & E). vinv E. destruct (has flags O_NONBLOCK_); [|by vinv E3].
  vbind E3 as (? & s4 & E4 & E3). vinv E3. apply keeping_setflags in E4. split; [by eapply exact_keeps|].
  destruct E4 as (_ & ? & _). congruence.
Qed.

(** Fewer references than a count can hold, with room for one more. *)
Definition room (ext : Z -> Z) s : Prop := forall f, refs (tables s) f + ext f + 1 < 2 ^ 32.

Lemma sys_dup_exact ext f s r s' : limit_ok s -> room ext s -> exact ext s -> sys_dup f s = Ret r s' -> exact ext s' /\ current s' = current s.
Proof.
  intros Hlim Hroom Hex E. unfold sys_dup, f_get, my_files in E. vbind E as (o & s1 & E1 & E).
  vbind E1 as (? & ? & E0 & E1). vinv E0. apply fdtable_get_Ret in E1 as [-> _]. destruct o as [fd|]; [|by vinv E].
  vbind E as (? & s2 & E2 & E). apply (fd_retain_exact ext) in E2 as (Hex2 & Ht & Hc & _); [|done|apply Hroom].
  apply (f_install_exact ext) in E as [? ?]; [split; [done|congruence]|by unfold limit_ok; rewrite Hc|done].
Qed.

Lemma fdtable_close_slot t f s r s' : t = files (current s) -> 0 <= f < 2 ^ 31 -> fdtable_close t f s = Ret r s' ->
  exists x', tables s' !! t = Some x' /\ (f < ft_size x' -> ft_files x' !! Z.to_nat f = Some None).
Proof.
  intros -> Hf [(-> & -> & E)|(x & g & s1 & s2 & Hx & Hr & Hg & _ & _ & Ht & _ & ->)]%fdtable_close_Ret.
  - apply fdtable_get_Ret in E as (_ & mine & Hm & [[?|Hle]|(x & Hx & Hn)]); [lia| |simplify_eq; by eauto].
    exists mine. split; [done|]. rewrite wrap_small in Hle by (unfold in_u; lia). lia.
  - exists (closed_at f x). destruct s2; cbn in *. split; [apply lookup_insert_eq|]. intros _. destruct x; cbn in *. unfold ft_size in *; cbn in *.
    apply list_lookup_insert_eq. lia.
Qed.

Lemma sys_dup3_exact ext f n flags s r s' : limit_ok s -> room ext s -> -(2 ^ 31) <= n < 2 ^ 31 -> exact ext s -> sys_dup3 f n flags s = Ret r s' ->
  exact ext s' /\ current s' = current s.
Proof.
  intros Hlim Hroom Hn Hex E. unfold sys_dup3, f_get, my_files in E. vbind E as (? & s0 & E0 & E). vinv E0.
  vbind E as (o & s1 & E1 & E). vbind E1 as (? & ? & E0 & E1). vinv E0.
  apply fdtable_get_Ret in E1 as [-> _]. destruct o as [fd|]; [|by vinv E]. vbind E as (e & s2 & E2 & E).
  pose proof (fdtable_expand_exact _ _ _ _ _ _ Hex E2) as (Hex2 & Hc2 & _).
  assert (forall g, refs (tables s2) g = refs (tables s) g) as Hrefs.
  { intros g. apply fdtable_expand_Ret in E2 as [(_ & -> & _)|(_ & _ & tx & y & Hx & -> & (_ & (k & Hy) & _))]; [done|].
    destruct s; cbn in *. rewrite (refs_insert _ _ tx) by done. rewrite Hy, occ_app, occ_none. lia. }
  destruct (e <? 0); [by vinv E|]. vbind E as (? & s3 & E3 & E).
  apply (fd_retain_exact ext) in E3 as (Hex3 & _ & Hc3 & _); [|done|rewrite Hrefs; apply Hroom].
  vbind E as (? & s4 & E4 & E). unfold f_close, my_files in E4. vbind E4 as (? & ? & E0 & E4). vinv E0.
  pose proof (fdtable_close_exact _ _ _ _ _ _ Hex3 E4) as (Hex4 & Hc4 & _). rewrite Hc3, Hc2 in E4.
  vbind E as ([] & s5 & E5 & E). apply set_file_at_Ret in E5 as (tx & Hx & Hr & ->).
  apply fdtable_close_slot in E4 as (tx' & Hx' & Hslot); [|congruence|lia]. assert (tx' = tx) as -> by congruence.
  set (s5 := set_tables _ s4) in E. assert (exact ext s5) as Hex5.
  { eapply exact_table; [exact Hex4|done|]. intros h. destruct tx as [rc fl ce]. cbn [ft_files set_ft_files] in *.
    rewrite (occ_insert _ _ _ _ _ (Hslot (proj2 Hr))). rewrite (bool_decide_false (None = Some h)) by done.
    unfold bump. destruct (decide (h = fd)) as [->|]; [rewrite bool_decide_true by done; lia|]. rewrite bool_decide_false by congruence. lia. }
  assert (current s5 = current s) by (unfold s5; destruct s4; cbn in *; congruence).
  vbind E as ([] & s6 & E6 & E). vinv E. destruct (has flags O_CLOEXEC_); [|by vinv E6].
  eapply upd_cloexec_exact in E6 as [? ?]; [|by eauto..]. split; [done|congruence].
Qed.

Lemma keeping_lock_env f w : keeping (lock_env f w).
Proof. unfold lock_env. pose proof (keeping_getflags f). vkeep. Qed.
Lemma keeping_fcntl_getlk f fl : keeping (fcntl_getlk f fl).
Proof. unfold fcntl_getlk. pose proof (keeping_lock_env f (FileLock.fl_whence fl)). vkeep. Qed.
Lemma keeping_fcntl_setlk f fl b w : keeping (fcntl_setlk f fl b w).
Proof. unfold fcntl_setlk. pose proof (keeping_lock_env f (FileLock.fl_whence fl)). pose proof (keeping_getflags f). vkeep. Qed.

Lemma keeping_exact {A} ext (m : V F A) s r s' : keeping m -> exact ext s -> m s = Ret r s' -> exact ext s' /\ current s' = current s.
Proof. intros Hm Hex E. apply Hm in E as Hk. split; [by eapply exact_keeps|]. by destruct Hk as (_ & ? & _). Qed.

Lemma sys_fcntl_exact ext f cmd arg u w s r s' : limit_ok s -> room ext s -> exact ext s -> sys_fcntl f cmd arg u w s = Ret r s' ->
  exact ext s' /\ current s' = current s.
Proof.
  intros Hlim Hroom Hex E. unfold sys_fcntl, f_get, my_files in E. cbv zeta in E. vbind E as (tb & s0 & E0 & E). vinv E0.
  vbind E as (o & s1 & E1 & E). vbind E1 as (? & ? & E0 & E1). vinv E0.
  apply fdtable_get_Ret in E1 as [-> _]. destruct o as [fd|]; [|by vinv E].
  assert (forall (g : Z -> V F (Z * option FileLock.flock)), (forall new s1 r s', exact ext s1 -> g new s1 = Ret r s' -> exact ext s' /\ current s' = current s1) ->
    (let! _ := fd_retain fd in let! new := f_install_start fd (s32 arg) in g new) s = Ret r s' -> exact ext s' /\ current s' = current s) as Hdup.
  { clear E. intros g Hg E. vbind E as (? & s2 & E2 & E). apply (fd_retain_exact ext) in E2 as (Hex2 & _ & Hc & _); [|done|apply Hroom].
    vbind E as (new & s3 & E3 & E). pose proof (swrap_range 32 arg ltac:(lia)) as Hr. unfold in_s in Hr.
    assert (0 <= s32 arg) by (unfold f_install_start in E3; vbind E3 as ([] & ? & E3 & _); vinv E3; lia).
    apply (f_install_start_exact ext) in E3 as [Hex3 Hc3]; [|by unfold limit_ok; rewrite Hc|lia|done]. apply Hg in E as [? ?]; [|done]. split; [done|congruence]. }
  repeat match type of E with
  | (if ?b then _ else _) _ = _ => destruct b eqn:?
  end.
  - eapply (Hdup (fun new => ret (new, None))); [|exact E]. intros new s1 r1 s1' H1 H2. by vinv H2.
  - eapply (Hdup (fun new => upd_cloexec _ (bit_set new) ;; ret (new, None))); [|exact E]. intros new s1 r1 s1' H1 H2.
    vbind H2 as ([] & s2 & H2 & H3). vinv H3. by eapply upd_cloexec_exact in H2 as [? ?]; [|by eauto..].
  - eapply keeping_exact; [|done|exact E]. unfold bit_test. vkeep.
  - vbind E as ([] & s2 & H2 & E). vinv E. destruct (ctrue _); by eapply upd_cloexec_exact in H2 as [? ?]; [|by eauto..].
  - eapply keeping_exact; [|done|exact E]. apply keeping_bind; [apply keeping_getflags|vkeep].
  - eapply keeping_exact; [|done|exact E]. apply keeping_bind; [apply keeping_setflags|vkeep].
  - eapply keeping_exact; [|done|exact E]. destruct (user_read u); [|vkeep]. apply keeping_bind; [apply keeping_fcntl_getlk|intros ?; vkeep].
  - eapply keeping_exact; [|done|exact E]. destruct (user_read u); [|vkeep]. apply keeping_bind; [apply keeping_fcntl_getlk|intros ?; vkeep].
  - eapply keeping_exact; [|done|exact E]. destruct (user_read u); [|vkeep]. apply keeping_bind; [apply keeping_fcntl_setlk|vkeep].
  - eapply keeping_exact; [|done|exact E]. destruct (user_read u); [|vkeep]. apply keeping_bind; [apply keeping_fcntl_setlk|vkeep].
  - by vinv E.
Qed.

Lemma for_each_inv {A} (P : vfs F -> Prop) (l : list A) body s r s' :
  (forall x s r s', P s -> body x s = Ret r s' -> P s') -> P s -> for_each l body s = Ret r s' -> P s'.
Proof.
  intros Hb. revert s. induction l as [|x l IH]; intros s Hs E; cbn [for_each] in E; [by vinv E|].
  vbind E as ([] & s1 & E1 & E). eapply IH; [|exact E]. by eapply Hb.
Qed.

Lemma fdtable_do_cloexec_exact ext t s r s' : exact ext s -> fdtable_do_cloexec t s = Ret r s' -> exact ext s' /\ current s' = current s.
Proof.
  intros Hex E. unfold fdtable_do_cloexec in E. vbind E as (x & s1 & E1 & E). unfold get_table in E1. vinv E1.
  eapply (for_each_inv (fun s1 => exact ext s1 /\ current s1 = current s)); [|split; [exact Hex|done]|exact E].
  intros f s1 r1 s1' [Hex1 Hc1] H1. vbind H1 as (y & s2 & H2 & H1). unfold get_table in H2. vinv H2.
  vbind H1 as (b & s2 & H3 & H1). unfold bit_test in H3. vinv H3. destruct b; [|by vinv H1].
  vbind H1 as (? & s2 & H4 & H1). vinv H1. apply (fdtable_close_exact ext) in H4 as (? & ? & _); [|done]. split; [done|congruence].
Qed.

(** Taking a reference for every entry of a list. *)
Lemma retain_all_exact l ext s r s' : exact ext s -> (forall f, refs (tables s) f + ext f + occ f l < 2 ^ 32) ->
  for_each l (fun fd => match fd with Some fd => let! _ := fd_retain fd in ret tt | None => ret tt end) s = Ret r s' ->
  exact (fun f => ext f + occ f l) s' /\ tables s' = tables s /\ current s' = current s.
Proof.
  revert ext s. induction l as [|o l IH]; intros ext s Hex Hroom E; cbn [for_each] in E.
  { vinv E. split_and!; [|done..]. eapply exact_ext; [|done]. intros f. cbn. lia. }
  vbind E as ([] & s1 & E1 & E). destruct o as [g|].
  - vbind E1 as (? & s2 & E2 & E1). vinv E1. pose proof (Hroom g) as Hg. cbn in Hg. rewrite bool_decide_true in Hg by done.
    pose proof (occ_nonneg g l). apply (fd_retain_exact ext) in E2 as (Hex1 & Ht & Hc & _); [|done|lia].
    apply (IH (bump g ext)) in E as (H1 & H2 & H3); [|done|].
    + split_and!; [|congruence..]. eapply exact_ext; [|exact H1]. intros f. cbn. unfold bump.
      destruct (decide (f = g)) as [->|]; [rewrite bool_decide_true by done; lia|]. rewrite bool_decide_false by congruence. lia.
    + intros f. rewrite Ht. specialize (Hroom f). cbn in Hroom. unfold bump.
      destruct (decide (f = g)) as [->|]; [rewrite bool_decide_true in Hroom by done; lia|]. rewrite bool_decide_false in Hroom by congruence. lia.
  - vinv E1. apply (IH ext) in E as (H1 & H2 & H3); [|done|intros f; specialize (Hroom f); cbn [occ] in Hroom; rewrite bool_decide_false in Hroom by done; lia].
    split_and!; [|done..]. eapply exact_ext; [|exact H1]. intros f. cbn [occ]. rewrite bool_decide_false by done. lia.
Qed.

(** The address [malloc] gives out next is not in use. *)
Definition fresh s : Prop := tables s !! next s = None.

Lemma fdtable_new_Ret size s r s' : 0 <= size < 2 ^ 32 -> fdtable_new size s = Ret r s' ->
  exists y, r = inr (next s) /\ ft_refcount y = 1 /\ ft_files y = replicate (Z.to_nat size) None /\
    s' = set_tables (<[next s := y]> (tables s)) (set_next (next s + 1) s).
Proof.
  intros Hs E. unfold fdtable_new in E. vbind E as (t & s2 & E2 & E1). unfold malloc in E2. vinv E2.
  vbind E1 as ([] & s2 & E3 & E1). vinv E3.
  vbind E1 as (e & s3 & E4 & E1). unfold fdtable_resize, get_table in E4. vinv E4.
  change (0 <? 0) with false in E1. cbn iota in E1. vinv E1. match goal with H : upd_table _ _ _ = _ |- _ => apply upd_table_Ret in H as (z & Hz & ->) end.
  destruct s as [x1 x2 x3 x4 x5 ts cur nx]; cbn in *. unfold set_tables, set_next in *; cbn in *. rewrite !lookup_insert_eq in *. simplify_eq. cbn.
  eexists. split_and!; [done| | |by rewrite insert_insert_eq]; [done|]. cbn. rewrite wrap_small by done. f_equal. unfold ft_size; cbn. lia.
Qed.

Lemma fdtable_copy_exact ext t s r s' : fresh s -> exact ext s ->
  (forall x f, tables s !! t = Some x -> ft_size x < 2 ^ 32 /\ refs (tables s) f + ext f + occ f (ft_files x) < 2 ^ 32) ->
  fdtable_copy t s = Ret r s' -> exact ext s' /\ current s' = current s /\
  exists x, tables s !! t = Some x /\ r = inr (next s) /\ tables s' = <[next s := mk_fdtable 1 (ft_files x) (ft_cloexec x)]> (tables s).
Proof.
  intros Hfr Hex Hroom E. unfold fdtable_copy in E. vbind E as (x & s0 & E0 & E). unfold get_table in E0. vinv E0.
  assert (0 <= ft_size x) by (unfold ft_size; lia). pose proof (fun f => Hroom x f E0) as Hx. clear Hroom.
  vbind E as (new & s1 & E1 & E). apply fdtable_new_Ret in E1 as (y & -> & Hy1 & Hy2 & ->); [|destruct (Hx 0); lia].
  vbind E as ([] & s4 & E4 & E). apply upd_table_Ret in E4 as (z1 & Hz1 & ->).
  vbind E as ([] & s5 & E5 & E). vbind E as ([] & s6 & E6 & E). vinv E. apply upd_table_Ret in E6 as (z2 & Hz2 & ->).
  unfold fresh in Hfr. destruct s as [a b c d e ts cur nx]; cbn in *. unfold set_tables, set_next in *; cbn in *. rewrite lookup_insert_eq in Hz1. injection Hz1 as <-.
  rewrite insert_insert_eq in E5. set (y' := set_ft_files (ft_files x) y) in *. assert (ft_files y' = ft_files x) as Hy' by by destruct y.
  assert (forall c, set_ft_cloexec c y' = mk_fdtable 1 (ft_files x) c) as Hy'' by (intros; destruct y; cbn in *; by subst). clearbody y'.
  apply (retain_all_exact _ (fun f => ext f - occ f (ft_files x))) in E5 as (Hex5 & Ht5 & Hc5).
  - cbn in Ht5, Hc5. rewrite Ht5, lookup_insert_eq in Hz2. injection Hz2 as <-. destruct s5 as [a5 b5 c5 d5 e5 ts5 cur5 nx5]; cbn in *. subst ts5 cur5. cbn.
    rewrite insert_insert_eq. split_and!; [|done|exists x; by rewrite Hy''].
    intros f. specialize (Hex5 f). cbn in *. rewrite (refs_new _ _ _ _ Hfr), Hy' in Hex5. rewrite (refs_new _ _ _ _ Hfr), Hy''. cbn [ft_files]. case_match; lia.
  - intros f. specialize (Hex f). cbn in *. rewrite (refs_new _ _ _ _ Hfr), Hy'. case_match; lia.
  - intros f. destruct (Hx f). cbn in *. rewrite (refs_new _ _ _ _ Hfr), Hy'. lia.
Qed.

(** *** Giving up a table *)

(** The entries of a table from [a] up to [b] are free. *)
Definition free_between (x : fdtable) (a b : Z) : Prop := forall i, a <= i < b -> ft_files x !! Z.to_nat i = Some None.

Lemma fdtable_close_entry t f s r s' x : t = files (current s) -> 0 <= f < ft_size x -> ft_size x < 2 ^ 31 ->
  tables s !! t = Some x -> fdtable_close t f s = Ret r s' ->
  exists x', tables s' !! t = Some x' /\ ft_size x' = ft_size x /\ ft_files x' !! Z.to_nat f = Some None /\
    current s' = current s /\
    (forall i, i <> Z.to_nat f -> ft_files x' !! i = ft_files x !! i /\ ft_cloexec x' !! i = ft_cloexec x !! i) /\
    forall t', t' <> t -> tables s' !! t' = tables s !! t'.
Proof.
  intros -> Hf Hmax Hx E. pose proof E as E'. apply fdtable_close_slot in E' as (x' & Hx' & Hn); [|done|lia].
  apply fdtable_close_Ret in E as [(-> & -> & E)|(x0 & g & s1 & s2 & Hx0 & Hr & Hg & _ & _ & Ht & Hcur & ->)].
  - assert (x' = x) as -> by congruence. exists x. split_and!; try done. apply Hn; lia.
  - assert (x0 = x) as -> by congruence. exists (closed_at f x). destruct s2; cbn in *. subst. unfold ft_size in *. destruct x as [rc fl ce]; cbn in *.
    split_and!; [apply lookup_insert_eq|by rewrite length_insert|apply list_lookup_insert_eq; lia|done| |].
    + intros i Hi. rewrite wrap_small by (unfold in_u; lia). by rewrite !list_lookup_insert_ne.
    + intros t' Ht'. by rewrite lookup_insert_ne.
Qed.

Lemma close_range t n a s r s' x : t = files (current s) -> 0 <= a -> a + Z.of_nat n = ft_size x -> ft_size x < 2 ^ 31 ->
  tables s !! t = Some x -> free_between x 0 a ->
  for_each (numbers n a) (fun f => let! _ := fdtable_close t f in ret tt) s = Ret r s' ->
  exists x', tables s' !! t = Some x' /\ ft_size x' = ft_size x /\ free_between x' 0 (ft_size x).
Proof.
  revert a s x. induction n as [|n IH]; intros a s x Ht Ha Hn Hmax Hx Hfree E; cbn [for_each numbers] in E.
  { vinv E. exists x. split_and!; [done..|]. by replace (ft_size x) with a by lia. }
  vbind E as ([] & s1 & E1 & E). vbind E1 as (e & s2 & E2 & E1). vinv E1.
  apply (fdtable_close_entry _ _ _ _ _ x) in E2 as (x1 & Hx1 & Hsize & Hnone & Hc & Hother & _); [|done|lia|done|done].
  apply (IH (a + 1) _ x1) in E as (x' & Hx' & Hs' & Hf'); [|congruence|lia|lia|lia|done|].
  - exists x'. split_and!; [done|lia|]. by rewrite <- Hsize.
  - intros i Hi. destruct (decide (i = a)) as [->|]; [done|]. destruct (Hother (Z.to_nat i)) as [-> _]; [lia|]. apply Hfree. lia.
Qed.

Lemma occ_free f x : free_between x 0 (ft_size x) -> occ f (ft_files x) = 0.
Proof.
  unfold free_between, ft_size. destruct x as [rc fl ce]; cbn. intros H.
  assert (forall i o, fl !! i = Some o -> o = None) as Hn.
  { intros i o Ho. specialize (H (Z.of_nat i)). rewrite Nat2Z.id in H. apply lookup_lt_Some in Ho as Hl. rewrite H in Ho by lia. congruence. }
  clear H. induction fl as [|o fl IH]; [done|]. cbn. rewrite (Hn O o) by done. rewrite bool_decide_false by done. rewrite IH; [done|].
  intros i o' Ho. by apply (Hn (S i) o').
Qed.

Lemma fdtable_release_exact ext s r s' x : exact ext s -> tables s !! files (current s) = Some x -> ft_size x < 2 ^ 31 ->
  fdtable_release (files (current s)) s = Ret r s' -> exact ext s' /\ current s' = current s.
Proof.
  intros Hex Hx Hmax E. unfold fdtable_release in E. vbind E as ([] & s1 & E1 & E).
  apply upd_table_Ret in E1 as (x1 & Hx1 & ->). assert (x1 = x) as -> by congruence.
  set (y := set_ft_refcount (u32 (ft_refcount x - 1)) x) in *. set (s1 := set_tables _ s) in E.
  assert (ft_files y = ft_files x) as Hy by by destruct x.
  assert (exact ext s1) as Hex1 by (eapply exact_same_files; [done..|]; exists O; by rewrite app_nil_r).
  assert (current s1 = current s) as Hc1 by by destruct s.
  assert (tables s1 !! files (current s) = Some y) as Hy1 by (destruct s; apply lookup_insert_eq). clearbody s1 y.
  vbind E as (y' & s2 & E2 & E). unfold get_table in E2. vinv E2. assert (y' = y) as -> by congruence.
  destruct (ft_refcount y =? 0); [|by vinv E]. vbind E as ([] & s3 & E3 & E). vinv E.
  assert (exact ext s3 /\ current s3 = current s) as [Hex3 Hc3].
  { eapply (for_each_inv (fun s3 => exact ext s3 /\ current s3 = current s)); [|split; [exact Hex1|done]|exact E3].
    intros f s4 r4 s4' [Hex4 Hc4] H4. vbind H4 as (? & s5 & H5 & H4). vinv H4.
    apply (fdtable_close_exact ext) in H5 as (? & ? & _); [|done]. split; [done|congruence]. }
  apply (close_range _ _ _ _ _ _ y) in E3 as (z & Hz & Hzs & Hzf); [|congruence|lia|done|unfold ft_size in *; by rewrite Hy|done|intros i Hi; lia].
  split; [|by destruct s3]. intros f. specialize (Hex3 f). destruct s3 as [a b c d e ts cur nx]; cbn in *.
  rewrite (refs_lookup ts (files (current s)) z f Hz) in Hex3. rewrite occ_free in Hex3 by by rewrite Hzs. replace (0 + _) with (refs (delete (files (current s)) ts) f) in Hex3 by lia. done.
Qed.

(** ** The counts are exact *)

(** The operations on the current task's table.  [Install fd] is handed a reference to [fd]. *)
Inductive call :=
  | Install (fd flags : Z)
  | Dup (f : Z)
  | Dup3 (f new_f flags : Z)
  | Close (f : Z)
  | Fcntl (f cmd arg : Z) (u : user_flock) (wakeups : list (Z * list FileLock.file_lock))
  | DoCloexec
  | Copy
  | Release.

Definition run_call (c : call) : V F unit :=
  let! table := my_files in
  match c with
  | Install fd flags => let! _ := f_install fd flags in ret tt
  | Dup f => let! _ := sys_dup f in ret tt
  | Dup3 f n flags => let! _ := sys_dup3 f n flags in ret tt
  | Close f => let! _ := sys_close f in ret tt
  | Fcntl f cmd arg u w => let! _ := sys_fcntl f cmd arg u w in ret tt
  | DoCloexec => fdtable_do_cloexec table
  | Copy => let! _ := fdtable_copy table in ret tt
  | Release => fdtable_release table
  end.

(** The references held outside of the tables before the call. *)
Definition handed (c : call) (ext : Z -> Z) : Z -> Z := match c with Install fd _ => bump fd ext | _ => ext end.

(** The arguments are integers, the tables are within the bounds of descriptors, and counts do not overflow. *)
Definition call_ok (c : call) (ext : Z -> Z) s : Prop :=
  limit_ok s /\ fresh s /\ room ext s /\
  match c with Dup3 _ n _ => -(2 ^ 31) <= n < 2 ^ 31 | _ => True end /\
  forall x, tables s !! files (current s) = Some x -> ft_size x < 2 ^ 31 /\ forall f, refs (tables s) f + ext f + occ f (ft_files x) < 2 ^ 32.

(** C9: reference counts of open files are exact.  After any of the operations that install, duplicate, close, copy or give up
    descriptors, on success and on failure, the count of every open file is the number of descriptors for it in all tables
    and of references held elsewhere; a file without references is gone and no descriptor names a file that is gone.  A file handed to
    [f_install] is given to the table on success and released on failure. *)
Theorem fd_refcounts_exact c ext s r s' :
  call_ok c ext s -> exact (handed c ext) s -> run_call c s = Ret r s' -> exact ext s'.
Proof.
  intros (Hlim & Hfr & Hroom & Hargs & Htab) Hex E. unfold run_call, my_files in E. vbind E as (tb & s0 & E0 & E). vinv E0.
  destruct c; cbn [handed] in Hex; try (vbind E as (v & s1 & E1 & E); vinv E).
  - by apply (f_install_exact ext) in E1 as [? _].
  - by apply (sys_dup_exact ext) in E1 as [? _].
  - by apply (sys_dup3_exact ext) in E1 as [? _].
  - unfold sys_close, f_close, my_files in E1. vbind E1 as (? & ? & E0 & E1). vinv E0. by apply (fdtable_close_exact ext) in E1 as [? _].
  - by apply (sys_fcntl_exact ext) in E1 as [? _].
  - by apply (fdtable_do_cloexec_exact ext) in E as [? _].
  - apply (fdtable_copy_exact ext) in E1 as [? _]; [done|done|done|]. intros x f Hx. destruct (Htab x Hx) as [? Hf]. split; [lia|apply Hf].
  - unfold fdtable_release in E. pose proof E as E2. vbind E2 as ([] & s1 & E2 & _). apply upd_table_Ret in E2 as (x & Hx & _).
    destruct (Htab x Hx). eapply fdtable_release_exact in E as [? _]; done.
Qed.

(** ** What the calls do *)

(** A table in use: as many bits as its files need. *)
Definition table_ok (x : fdtable) : Prop :=
  0 < ft_size x < 2 ^ 31 /\ Z.of_nat (length (ft_cloexec x)) = 8 * BITS_SIZE (ft_size x).

(** A table made large enough for [size] files. *)
Definition grow (x : fdtable) (size : Z) : fdtable :=
  if ft_size x >=? size then x
  else set_ft_cloexec (ft_cloexec x ++ replicate (Z.to_nat (8 * BITS_SIZE size - Z.of_nat (length (ft_cloexec x)))) false)
         (set_ft_files (ft_files x ++ replicate (Z.to_nat (size - ft_size x)) None) x).
(** The table with the file [fd] at [f], not to be closed on exec. *)
Definition put (fd f : Z) (x : fdtable) : fdtable :=
  set_ft_cloexec (<[Z.to_nat f := false]> (ft_cloexec x)) (set_ft_files (<[Z.to_nat f := Some fd]> (ft_files x)) x).

Lemma bits_size_mono a b : a <= b -> BITS_SIZE a <= BITS_SIZE b.
Proof. intros H. unfold BITS_SIZE. pose proof (Z.div_le_mono (a - 1) (b - 1) 8). lia. Qed.
Lemma bits_size_enough a : a <= 8 * BITS_SIZE a.
Proof. unfold BITS_SIZE. pose proof (Z.div_mod (a - 1) 8 ltac:(lia)). pose proof (Z.mod_pos_bound (a - 1) 8). lia. Qed.

Lemma grow_ok x size : table_ok x -> size < 2 ^ 31 -> table_ok (grow x size) /\ ft_size (grow x size) = ft_size x `max` size.
Proof.
  intros [Hs Hc] Hm. unfold grow. rewrite Z.geb_leb. destruct (Z.leb_spec size (ft_size x)); [split; [done|lia]|].
  destruct x as [rc fl ce]; unfold table_ok, ft_size in *; cbn [ft_files ft_cloexec set_ft_cloexec set_ft_files] in *.
  rewrite !length_app, !length_replicate. pose proof (bits_size_mono (Z.of_nat (length fl)) size). 
  replace (Z.of_nat (length fl + Z.to_nat (size - Z.of_nat (length fl)))) with size by lia. lia.
Qed.

Lemma upd_table_run t g s x : tables s !! t = Some x -> upd_table t g s = Ret tt (set_tables (<[t := g x]> (tables s)) s).
Proof. intros H. unfold upd_table, get_table, bind, gets, id, deref, modify. by rewrite H. Qed.
Lemma get_table_run t s x : tables s !! t = Some x -> get_table t s = Ret x s.
Proof. intros H. unfold get_table, bind, gets, id, deref. by rewrite H. Qed.

Lemma fdtable_expand_run t max s x : tables s !! t = Some x -> 0 <= max < 2 ^ 31 ->
  fdtable_expand t max s =
  if max <? nofile (current s) then Ret 0 (set_tables (<[t := grow x (max + 1)]> (tables s)) s) else Ret _EMFILE s.
Proof.
  intros Hx Hm. unfold fdtable_expand, rlimit_nofile. cbv zeta. rewrite (bind_step _ _ s (nofile (current s)) s) by done.
  rewrite wrap_small by (unfold in_u; lia). destruct (Z.gtb_spec (max + 1) (nofile (current s))), (Z.ltb_spec max (nofile (current s))); try lia; [done|].
  rewrite (bind_step _ _ _ _ _ (get_table_run _ _ _ Hx)). unfold grow. destruct (ft_size x >=? max + 1) eqn:E; [by rewrite set_tables_id|].
  rewrite Z.geb_leb in E. apply Z.leb_gt in E. unfold fdtable_resize. rewrite (bind_step _ _ _ _ _ (get_table_run _ _ _ Hx)).
  rewrite wrap_small by (unfold in_u; lia). destruct (Z.gtb_spec (max + 1) (ft_size x)); [|lia].
  rewrite (bind_step _ _ s tt s) by done. by rewrite (bind_step _ _ _ _ _ (upd_table_run _ _ _ _ Hx)).
Qed.

Lemma grow_enough x size : size <= ft_size x -> grow x size = x.
Proof. intros H. unfold grow. rewrite Z.geb_leb. by destruct (Z.leb_spec size (ft_size x)); [|lia]. Qed.

Lemma put_run fd f s x : tables s !! files (current s) = Some x -> table_ok x -> 0 <= f < ft_size x ->
  (set_file_at (files (current s)) f (Some fd) ;; upd_cloexec (files (current s)) (bit_clear f) ;; ret f) s =
  Ret f (set_tables (<[files (current s) := put fd f x]> (tables s)) s).
Proof.
  intros Hx [Hs Hc] Hf. unfold set_file_at. rewrite (bind_step _ _ s tt (set_tables (<[files (current s) := set_ft_files (<[Z.to_nat f := Some fd]> (ft_files x)) x]> (tables s)) s)).
  2: { rewrite (bind_step _ _ _ _ _ (get_table_run _ _ _ Hx)). destruct (Z.leb_spec 0 f), (Z.ltb_spec f (ft_size x)); try lia.
       cbn [andb]. rewrite (bind_step _ _ s tt s) by done. by rewrite (upd_table_run _ _ _ _ Hx). }
  set (s1 := set_tables _ s). assert (tables s1 !! files (current s) = Some (set_ft_files (<[Z.to_nat f := Some fd]> (ft_files x)) x)) as Hx1
    by (destruct s; apply lookup_insert_eq).
  unfold upd_cloexec. assert ((let! t := get_table (files (current s)) in let! bits := bit_clear f (ft_cloexec t) in upd_table (files (current s)) (set_ft_cloexec bits)) s1 =
    Ret tt (set_tables (<[files (current s) := put fd f x]> (tables s)) s)) as E; [|by rewrite (bind_step _ _ _ _ _ E)].
  rewrite (bind_step _ _ _ _ _ (get_table_run _ _ _ Hx1)). pose proof (bits_size_enough (ft_size x)).
  assert (ft_cloexec (set_ft_files (<[Z.to_nat f := Some fd]> (ft_files x)) x) = ft_cloexec x) as -> by by destruct x.
  unfold bit_clear. rewrite wrap_small by (unfold in_u; lia).
  destruct (Z.ltb_spec f (Z.of_nat (length (ft_cloexec x)))); [|lia].
  rewrite (bind_step _ _ s1 (<[Z.to_nat f := false]> (ft_cloexec x)) s1) by done. rewrite (upd_table_run _ _ _ _ Hx1).
  f_equal. unfold s1, put. destruct s, x; cbn. unfold set_tables; cbn. by rewrite insert_insert_eq.
Qed.

Lemma f_install_start_run fd start s x : tables s !! files (current s) = Some x -> table_ok x -> limit_ok s -> 0 <= start < 2 ^ 31 ->
  let f := lowest_free x start in
  f_install_start fd start s =
  if f <? nofile (current s) then Ret f (set_tables (<[files (current s) := put fd f (grow x (f + 1))]> (tables s)) s)
  else (fd_close fd ;; ret _EMFILE) s.
Proof.
  intros Hx Hok Hlim Hst f. pose proof Hok as [Hsz _]. destruct (lowest_free_spec x start) as (Hf1 & Hf2 & Hf3); [lia|]. fold f in Hf1, Hf2, Hf3.
  unfold f_install_start, my_files, rlimit_nofile. destruct (Z.geb_spec start 0); [|lia]. rewrite (bind_step _ _ s tt s) by done.
  rewrite (bind_step _ _ s (files (current s)) s), (bind_step _ _ s (nofile (current s)) s) by done.
  rewrite (bind_step _ _ _ _ _ (get_table_run _ _ _ Hx)). unfold limit_ok in Hlim. rewrite wrap_small by (unfold in_u; lia).
  remember (nofile (current s)) as l eqn:El. set (size := if l >? ft_size x then ft_size x else l).
  assert (size = ft_size x `min` l) as Hsize by (unfold size; destruct (Z.gtb_spec l (ft_size x)); lia). clearbody size.
  assert (free_from (drop (Z.to_nat start) (take (Z.to_nat size) (ft_files x))) start = f `min` (size `max` start)) as ->.
  { rewrite skipn_firstn_comm, free_from_take. fold (lowest_free x start). fold f. lia. }
  remember (f `min` (size `max` start)) as f0 eqn:Ef0. cbv zeta. 
  assert (forall s1 y, tables s1 !! files (current s) = Some y -> current s1 = current s -> table_ok y -> 0 <= f < ft_size y ->
    (if f >=? 0 then set_file_at (files (current s)) f (Some fd) ;; upd_cloexec (files (current s)) (bit_clear f) ;; ret f else fd_close fd ;; ret f) s1 =
    Ret f (set_tables (<[files (current s) := put fd f y]> (tables s1)) s1)) as Hput.
  { intros s1 y Hy Hc Hyok Hfy. destruct (Z.geb_spec f 0); [|lia]. rewrite <- Hc in *. by apply put_run. }
  destruct (Z.geb_spec f0 size).
  - rewrite (bind_step _ _ s (if f <? l then f else _EMFILE) (if f <? l then set_tables (<[files (current s) := grow x (f + 1)]> (tables s)) s else s)).
    + destruct (Z.ltb_spec f l); [|done]. destruct (grow_ok x (f + 1) Hok ltac:(lia)) as [Hgok Hgs].
      rewrite (Hput _ (grow x (f + 1))); [|destruct s; apply lookup_insert_eq|by destruct s|done|lia].
      f_equal. destruct s; unfold set_tables; cbn. by rewrite insert_insert_eq.
    + rewrite (bind_step _ _ s (if f0 <? l then 0 else _EMFILE) (if f0 <? l then set_tables (<[files (current s) := grow x (f0 + 1)]> (tables s)) s else s)).
      * unfold ret. destruct (Z.ltb_spec f0 l), (Z.ltb_spec f l); try lia; [|done]. cbn. assert (f0 = f) as -> by lia. done.
      * rewrite (fdtable_expand_run _ _ _ x) by (done || lia). rewrite <- El. by destruct (f0 <? l).
  - rewrite (bind_step _ _ s f0 s) by done. assert (f0 = f) as -> by lia. rewrite (Hput s x) by (done || lia).
    rewrite grow_enough by lia. by destruct (Z.ltb_spec f l); [|lia].
Qed.

Lemma f_get_run f s x g : tables s !! files (current s) = Some x -> ft_size x < 2 ^ 31 -> 0 <= f < ft_size x ->
  ft_files x !! Z.to_nat f = Some g -> f_get f s = Ret g s.
Proof.
  intros Hx Hmax Hf Hg. unfold f_get, my_files, fdtable_get. rewrite (bind_step _ _ s (files (current s)) s), (bind_step _ _ s s s) by done.
  rewrite (bind_step _ _ _ _ _ (get_table_run _ _ _ Hx)). rewrite wrap_small by (unfold in_u; lia).
  destruct (Z.ltb_spec f 0), (Z.geb_spec f (ft_size x)); try lia. cbn [orb]. rewrite (bind_step _ _ _ _ _ (get_table_run _ _ _ Hx)).
  unfold file_at. destruct (Z.leb_spec 0 f), (Z.ltb_spec f (ft_size x)); try lia. cbn [andb]. rewrite (bind_step _ _ s tt s) by done. unfold deref. by rewrite Hg.
Qed.

(** The state with one reference more to a file. *)
Definition retained (g : Z) (o : fd) s : vfs F := set_fds (<[g := set_fd_refcount (fd_refcount o + 1) o]> (fds s)) s.

Lemma get_fd_run g o s : fds s !! g = Some o -> get_fd g s = Ret o s.
Proof. intros Ho. unfold get_fd, bind, gets, id, deref. by rewrite Ho. Qed.
Lemma fd_retain_run g o s : fds s !! g = Some o -> 0 < fd_refcount o < 2 ^ 32 - 1 -> fd_retain g s = Ret g (retained g o s).
Proof.
  intros Ho Hrc. unfold fd_retain, upd_fd. assert (u32 (fd_refcount o + 1) = fd_refcount o + 1) as E by (apply wrap_small; unfold in_u; lia).
  unfold bind at 1. rewrite (bind_step _ _ _ _ _ (get_fd_run _ _ _ Ho)), E. done.
Qed.

(** Giving the reference back. *)
Lemma fd_close_retained g o s : fds s !! g = Some o -> 0 < fd_refcount o < 2 ^ 32 - 1 -> fd_close g (retained g o s) = Ret 0 s.
Proof.
  intros Ho Hrc. unfold fd_close.
  assert (set_fd_refcount (u32 (fd_refcount (set_fd_refcount (fd_refcount o + 1) o) - 1)) (set_fd_refcount (fd_refcount o + 1) o) = o) as Eo.
  { replace (fd_refcount (set_fd_refcount (fd_refcount o + 1) o) - 1) with (fd_refcount o) by (destruct o; cbn; lia).
    rewrite wrap_small by (unfold in_u; lia). by destruct o. }
  assert (upd_fd g (fun x => set_fd_refcount (u32 (fd_refcount x - 1)) x) (retained g o s) = Ret tt s) as E.
  { unfold upd_fd. assert (fds (retained g o s) !! g = Some (set_fd_refcount (fd_refcount o + 1) o)) as Hr by (destruct s; apply lookup_insert_eq).
    rewrite (bind_step _ _ _ _ _ (get_fd_run _ _ _ Hr)).
    rewrite Eo. unfold modify, retained. f_equal. destruct s; unfold set_fds; cbn in *. by rewrite insert_insert_eq, insert_id. }
  rewrite (bind_step _ _ _ _ _ E), (bind_step _ _ _ _ _ (get_fd_run _ _ _ Ho)). by destruct (Z.eqb_spec (fd_refcount o) 0); [lia|].
Qed.

(** [dup] gives the lowest free descriptor.  When there is one below the limit, the result is the smallest number that is not in
    use, growing the table if need be; it names the same open file, which is counted once more, and is not closed on exec.  Otherwise
    the call fails with [_EMFILE] and leaves everything as it was, the count included. *)
Theorem sys_dup_spec f s x g o :
  tables s !! files (current s) = Some x -> table_ok x -> limit_ok s ->
  0 <= f < ft_size x -> ft_files x !! Z.to_nat f = Some (Some g) -> fds s !! g = Some o -> 0 < fd_refcount o < 2 ^ 32 - 1 ->
  let n := lowest_free x 0 in
  (forall i, 0 <= i < n -> exists h, ft_files x !! Z.to_nat i = Some (Some h)) /\ (n < ft_size x -> ft_files x !! Z.to_nat n = Some None) /\
  sys_dup f s =
    if n <? nofile (current s)
    then Ret n (set_tables (<[files (current s) := put g n (grow x (n + 1))]> (tables s)) (retained g o s))
    else Ret _EMFILE s.
Proof.
  intros Hx Hok Hlim Hf Hg Ho Hrc n. pose proof Hok as [Hsz _]. destruct (lowest_free_spec x 0) as ([Hn0 _] & Hn1 & Hn2); [lia|]. fold n in Hn0.
  split; [exact Hn2|]. split; [exact Hn1|]. unfold sys_dup. rewrite (bind_step _ _ _ _ _ (f_get_run _ _ _ _ Hx (proj2 Hsz) Hf Hg)).
  rewrite (bind_step _ _ _ _ _ (fd_retain_run _ _ _ Ho Hrc)). unfold f_install, my_files. rewrite (bind_step _ _ (retained g o s) (files (current s)) (retained g o s)) by by destruct s.
  assert (f_install_start g 0 (retained g o s) =
    if n <? nofile (current s) then Ret n (set_tables (<[files (current s) := put g n (grow x (n + 1))]> (tables s)) (retained g o s))
    else (fd_close g ;; ret _EMFILE) (retained g o s)) as E.
  { rewrite (f_install_start_run g 0 (retained g o s) x); [by destruct s|by destruct s|done|by destruct s|lia]. }
  destruct (n <? nofile (current s)).
  - rewrite (bind_step _ _ _ _ _ E). by destruct (Z.geb_spec n 0); [|lia].
  - rewrite (bind_step _ _ _ _ _ (fd_close_retained _ _ _ Ho Hrc)) in E. by rewrite (bind_step _ _ _ _ _ E).
Qed.

(** [dup3] makes [new_f] name the same open file as [f], whatever it named before.  Below the limit the result is [new_f], every other
    descriptor of the table is as it was, other tables are not touched, and with [O_CLOEXEC] the descriptor is marked; at or above
    the limit it fails with [_EMFILE] and changes nothing. *)
Theorem sys_dup3_spec f n flags s x g r s' :
  tables s !! files (current s) = Some x -> table_ok x -> limit_ok s ->
  0 <= f < ft_size x -> ft_files x !! Z.to_nat f = Some (Some g) -> 0 <= n < 2 ^ 31 ->
  sys_dup3 f n flags s = Ret r s' ->
  if n <? nofile (current s) then
    r = n /\ exists y, tables s' !! files (current s) = Some y /\ ft_size y = ft_size x `max` (n + 1) /\
      ft_files y !! Z.to_nat n = Some (Some g) /\
      (forall i, i <> Z.to_nat n -> ft_files y !! i = ft_files (grow x (n + 1)) !! i) /\
      (has flags O_CLOEXEC_ = true -> ft_cloexec y !! Z.to_nat n = Some true) /\
      forall t, t <> files (current s) -> tables s' !! t = tables s !! t
  else r = _EMFILE /\ s' = s.
Proof.
  intros Hx Hok Hlim Hf Hg Hn E. pose proof Hok as [Hsz _]. unfold sys_dup3, my_files in E. rewrite (bind_step _ _ s (files (current s)) s) in E by done.
  rewrite (bind_step _ _ _ _ _ (f_get_run _ _ _ _ Hx (proj2 Hsz) Hf Hg)) in E. remember (files (current s)) as t eqn:Et. unfold limit_ok in Hlim.
  unfold bind at 1 in E. rewrite (fdtable_expand_run _ _ _ x) in E by done. destruct (Z.ltb_spec n (nofile (current s)));
    [|change (_EMFILE <? 0) with true in E; cbn iota in E; by vinv E].
  change (0 <? 0) with false in E. cbn iota in E. destruct (grow_ok x (n + 1) Hok ltac:(lia)) as [Hgok Hgs].
  set (s1 := set_tables _ s) in E. assert (tables s1 !! t = Some (grow x (n + 1))) as Hx1 by (destruct s; apply lookup_insert_eq).
  assert (current s1 = current s) as Hc1 by by destruct s. assert (forall t', t' <> t -> tables s1 !! t' = tables s !! t') as Ho1 by (intros; destruct s; by apply lookup_insert_ne).
  clearbody s1. vbind E as (? & s2 & E2 & E). apply fd_retain_frame in E2 as [Ht2 Hc2].
  vbind E as (? & s3 & E3 & E). unfold f_close, my_files in E3. vbind E3 as (? & ? & E0 & E3). vinv E0.
  rewrite Hc2, Hc1, <- Et in E3. pose proof Hgok as [Hgsz _].
  apply (fdtable_close_entry _ _ _ _ _ (grow x (n + 1))) in E3 as (y & Hy & Hys & Hyn & Hcy & Hyo & Hot); [|congruence|lia|lia|by rewrite Ht2].
  vbind E as ([] & s4 & E4 & E). apply set_file_at_Ret in E4 as (y' & Hy' & Hr & ->). assert (y' = y) as -> by congruence.
  set (z := set_ft_files (<[Z.to_nat n := Some g]> (ft_files y)) y) in E. vbind E as ([] & s5 & E5 & E). vinv E. split; [done|].
  assert (ft_size z = ft_size x `max` (n + 1) /\ ft_files z !! Z.to_nat n = Some (Some g) /\ (forall i, i <> Z.to_nat n -> ft_files z !! i = ft_files (grow x (n + 1)) !! i)) as (Hz1 & Hz2 & Hz3).
  { unfold z, ft_size in *. destruct y; cbn [ft_files set_ft_files] in *. split_and!; [rewrite length_insert; lia|apply list_lookup_insert_eq; lia|].
    intros i Hi. rewrite list_lookup_insert_ne by done. by apply Hyo. }
  assert (forall t', t' <> t -> tables s3 !! t' = tables s !! t') as Ho3 by (intros; rewrite Hot, Ht2; auto).
  clearbody z. destruct (has flags O_CLOEXEC_).
  - apply upd_cloexec_Ret in E5 as (z' & bits & Hz' & Hb & ->); [|eauto]. destruct s3 as [a b c d e ts cur nx]; cbn in *. rewrite lookup_insert_eq in Hz'. injection Hz' as <-.
    apply bit_set_Ret in Hb as (_ & -> & Hb). rewrite wrap_small in * by (unfold in_u; lia). eexists. split; [apply lookup_insert_eq|].
    unfold ft_size in *. destruct z; cbn in *. split_and!; try done; [intros _; apply list_lookup_insert_eq; lia|]. intros t' Ht'. rewrite !lookup_insert_ne by done. by apply Ho3.
  - vinv E5. exists z. destruct s3 as [a b c d e ts cur nx]; cbn in *. split_and!; [apply lookup_insert_eq| | | | |]; try done. intros t' Ht'. rewrite lookup_insert_ne by done. by apply Ho3.
Qed.

(** What is left of a table when the marked descriptors from [a] on are closed. *)
Lemma cloexec_range t n a s r s' x : t = files (current s) -> 0 <= a -> a + Z.of_nat n = ft_size x -> ft_size x < 2 ^ 31 -> tables s !! t = Some x ->
  for_each (numbers n a) (fun f =>
    let! t0 := get_table t in
    let! b := bit_test f (ft_cloexec t0) in
    if b then let! _ := fdtable_close t f in ret tt else ret tt) s = Ret r s' ->
  exists x', tables s' !! t = Some x' /\ ft_size x' = ft_size x /\
    forall i, ft_files x' !! i = if bool_decide (a <= Z.of_nat i < ft_size x /\ ft_cloexec x !! i = Some true) then Some None else ft_files x !! i.
Proof.
  revert a s x. induction n as [|n IH]; intros a s x Ht Ha Hn Hmax Hx E; cbn [for_each numbers] in E.
  { vinv E. exists x. split_and!; [done..|]. intros i. by rewrite bool_decide_false by lia. }
  vbind E as ([] & s1 & E1 & E). rewrite (bind_step _ _ _ _ _ (get_table_run _ _ _ Hx)) in E1.
  vbind E1 as (b & s2 & E2 & E1). unfold bit_test in E2. vinv E2. rewrite wrap_small in E2 by (unfold in_u; lia).
  assert (exists x1, tables s1 !! t = Some x1 /\ ft_size x1 = ft_size x /\ current s1 = current s /\
    ft_files x1 !! Z.to_nat a = (if b then Some None else ft_files x !! Z.to_nat a) /\
    forall i, i <> Z.to_nat a -> ft_files x1 !! i = ft_files x !! i /\ ft_cloexec x1 !! i = ft_cloexec x !! i) as (x1 & Hx1 & Hs1 & Hc1 & Ha1 & Ho1).
  { destruct b; [|vinv E1; by exists x]. vbind E1 as (e & s2 & E3 & E1). vinv E1.
    apply (fdtable_close_entry _ _ _ _ _ x) in E3 as (x1 & Hx1 & Hsize & Hnone & Hc & Hother & _); [|done|lia|done|done]. exists x1. split_and!; done. }
  destruct (IH (a + 1) s1 x1 ltac:(congruence) ltac:(lia) ltac:(lia) ltac:(lia) Hx1 E) as (x' & Hx' & Hs' & Hf').
  exists x'. split_and!; [done|lia|]. intros i. rewrite Hf', Hs1. destruct (decide (i = Z.to_nat a)) as [->|Hi].
  - rewrite bool_decide_false by lia. rewrite Ha1, E2. destruct b; [by rewrite bool_decide_true by (split; [lia|done])|].
    rewrite bool_decide_false by (intros [_ [=]]). done.
  - destruct (Ho1 i Hi) as [-> ->]. apply (f_equal (fun b : bool => if b then Some None else ft_files x !! i)). apply bool_decide_ext.
    split; intros [? ?]; (split; [lia|done]).
Qed.

(** on exec the descriptors marked to be closed are closed, and no others: afterwards the entry of a marked descriptor is free,
    and every other entry names the file it named. *)
Theorem do_cloexec_spec s x r s' : tables s !! files (current s) = Some x -> ft_size x < 2 ^ 31 ->
  fdtable_do_cloexec (files (current s)) s = Ret r s' ->
  exists x', tables s' !! files (current s) = Some x' /\ ft_size x' = ft_size x /\
    forall i, ft_files x' !! i =
      if bool_decide ((i < length (ft_files x))%nat /\ ft_cloexec x !! i = Some true) then Some None else ft_files x !! i.
Proof.
  intros Hx Hmax E. unfold fdtable_do_cloexec in E. rewrite (bind_step _ _ _ _ _ (get_table_run _ _ _ Hx)) in E.
  apply (cloexec_range _ _ _ _ _ _ x) in E as (x' & Hx' & Hs & Hf); [|done|lia|done|done|done]. exists x'. split_and!; [done..|].
  intros i. rewrite Hf. apply (f_equal (fun b : bool => if b then Some None else ft_files x !! i)). apply bool_decide_ext.
  unfold ft_size. split; intros [? ?]; (split; [lia|done]).
Qed.

End Laws.

(** ** Where the calls go wrong *)

Section Faults.
Context {F : Type} {SF : System F}.
Implicit Types s : vfs F.

Lemma run_Fault {A B} (m : V F A) (k : A -> V F B) s : m s = Fault -> bind m k s = Fault.
Proof. unfold bind. by intros ->. Qed.

(** [dup2] to the descriptor -1 writes in front of the table: the size the table must have for it is 0, which it has, closing -1
    fails without notice, and the entry is stored at index -1.  [_EBADF] was due. *)
Theorem dup2_minus_one f s x g o : tables s !! files (current s) = Some x -> table_ok x -> limit_ok s ->
  0 <= f < ft_size x -> ft_files x !! Z.to_nat f = Some (Some g) -> fds s !! g = Some o -> 0 < fd_refcount o < 2 ^ 32 - 1 ->
  sys_dup2 f (-1) s = Fault.
Proof.
  intros Hx Hok Hlim Hf Hg Ho Hrc. pose proof Hok as [Hsz _]. unfold sys_dup2, sys_dup3, my_files. rewrite (bind_step _ _ s (files (current s)) s) by done.
  rewrite (bind_step _ _ _ _ _ (f_get_run _ _ _ _ Hx (proj2 Hsz) Hf Hg)). unfold limit_ok in Hlim.
  assert (fdtable_expand (files (current s)) (-1) s = Ret 0 s) as E.
  { unfold fdtable_expand, rlimit_nofile. cbv zeta. rewrite (bind_step _ _ s (nofile (current s)) s) by done. change (u32 (-1 + 1)) with 0.
    destruct (Z.gtb_spec 0 (nofile (current s))); [lia|]. rewrite (bind_step _ _ _ _ _ (get_table_run _ _ _ Hx)).
    by destruct (Z.geb_spec (ft_size x) 0); [|lia]. }
  rewrite (bind_step _ _ _ _ _ E). change (0 <? 0) with false. cbn iota. rewrite (bind_step _ _ _ _ _ (fd_retain_run _ _ _ Ho Hrc)).
  set (s1 := retained g o s). assert (tables s1 !! files (current s) = Some x) as Hx1 by by destruct s. assert (current s1 = current s) as Hc by by destruct s.
  assert (f_close (-1) s1 = Ret _EBADF s1) as E2.
  { unfold f_close, my_files. rewrite (bind_step _ _ s1 (files (current s)) s1) by (unfold gets; by rewrite Hc). unfold fdtable_close, fdtable_get.
    rewrite (bind_step _ _ s1 None s1); [done|]. rewrite (bind_step _ _ s1 s1 s1) by done. rewrite Hc. by rewrite (bind_step _ _ _ _ _ (get_table_run _ _ _ Hx1)). }
  rewrite (bind_step _ _ _ _ _ E2). apply run_Fault. unfold set_file_at. by rewrite (bind_step _ _ _ _ _ (get_table_run _ _ _ Hx1)).
Qed.

(** [F_DUPFD] with a negative number stops the emulator at an assertion, and [F_DUPFD_CLOEXEC] without a free descriptor below the
    limit sets a bit at the error number, outside of the bit map.  [_EINVAL] and [_EMFILE] were due. *)
Theorem dupfd_crashes f s x g o u w : tables s !! files (current s) = Some x -> table_ok x -> limit_ok s ->
  0 <= f < ft_size x -> ft_files x !! Z.to_nat f = Some (Some g) -> fds s !! g = Some o -> 0 < fd_refcount o < 2 ^ 32 - 1 ->
  sys_fcntl f F_DUPFD_ (2 ^ 32 - 1) u w s = Abort /\
  forall arg, 0 <= arg < 2 ^ 31 -> nofile (current s) <= lowest_free x arg -> sys_fcntl f F_DUPFD_CLOEXEC_ arg u w s = Fault.
Proof.
  intros Hx Hok Hlim Hf Hg Ho Hrc. pose proof Hok as [Hsz Hbits]. unfold sys_fcntl, my_files. cbv zeta. split.
  - rewrite (bind_step _ _ s (files (current s)) s) by done. rewrite (bind_step _ _ _ _ _ (f_get_run _ _ _ _ Hx (proj2 Hsz) Hf Hg)).
    change (F_DUPFD_ =? F_DUPFD_) with true. cbn iota. by rewrite (bind_step _ _ _ _ _ (fd_retain_run _ _ _ Ho Hrc)).
  - intros arg Harg Hfull. rewrite (bind_step _ _ s (files (current s)) s) by done. rewrite (bind_step _ _ _ _ _ (f_get_run _ _ _ _ Hx (proj2 Hsz) Hf Hg)).
    change (F_DUPFD_CLOEXEC_ =? F_DUPFD_) with false. change (F_DUPFD_CLOEXEC_ =? F_DUPFD_CLOEXEC_) with true. cbn iota.
    rewrite (bind_step _ _ _ _ _ (fd_retain_run _ _ _ Ho Hrc)). rewrite swrap_small by (unfold in_s; lia).
    assert (f_install_start g arg (retained g o s) = Ret _EMFILE s) as E.
    { rewrite (f_install_start_run g arg (retained g o s) x); [|by destruct s|done|by destruct s|lia]. replace (current (retained g o s)) with (current s) by by destruct s.
      destruct (Z.ltb_spec (lowest_free x arg) (nofile (current s))); [lia|]. by rewrite (bind_step _ _ _ _ _ (fd_close_retained _ _ _ Ho Hrc)). }
    rewrite (bind_step _ _ _ _ _ E). apply run_Fault. unfold upd_cloexec. rewrite (bind_step _ _ _ _ _ (get_table_run _ _ _ Hx)). apply run_Fault.
    unfold bit_set. assert (8 * BITS_SIZE (ft_size x) <= 2 ^ 32).
    { unfold BITS_SIZE. pose proof (Z.div_mod (ft_size x - 1) 8 ltac:(lia)). pose proof (Z.mod_pos_bound (ft_size x - 1) 8). lia. }
    change (u64 _EMFILE) with (2 ^ 64 - 24). by destruct (Z.ltb_spec (2 ^ 64 - 24) (Z.of_nat (length (ft_cloexec x)))); [lia|].
Qed.

Lemma bind_ext {A B} (m : V F A) (k k' : A -> V F B) s : (forall a s', k a s' = k' a s') -> bind m k s = bind m k' s.
Proof. intros H. unfold bind. destruct (m s); [apply H|done..]. Qed.

Lemma setlk_not_blocking env fl w w' locks : FileLock.fcntl_setlk env fl false w locks = FileLock.fcntl_setlk env fl false w' locks.
Proof.
  unfold FileLock.fcntl_setlk. repeat (case_match; try done). destruct w, w'; cbn [FileLock.setlk_loop]; by destruct (FileLock.file_lock_acquire _ _) as [[? ?] ?].
Qed.

(** the commands that wait for a lock do not wait: [F_SETLKW] and [F_SETLKW64] do what [F_SETLK] and [F_SETLK64] do, whatever
    others do with the lock meanwhile, and a lock that is held is refused with [_EAGAIN].  Each asks for the other's command. *)
Theorem setlkw_does_not_wait f arg u w w' s :
  sys_fcntl f F_SETLKW_ arg u w s = sys_fcntl f F_SETLK_ arg u w' s /\
  sys_fcntl f F_SETLKW64_ arg u w s = sys_fcntl f F_SETLK64_ arg u w' s.
Proof.
  assert (forall fd fl (s : vfs F), fcntl_setlk fd fl false w s = fcntl_setlk fd fl false w' s) as Hw.
  { intros fd fl s0. unfold fcntl_setlk. destruct (_ && _); [done|]. apply bind_ext. intros flags s1. do 2 (destruct (_ && _); [done|]).
    apply bind_ext. intros [i env] s2. apply bind_ext. intros y s3. by rewrite (setlk_not_blocking _ _ w w'). }
  unfold sys_fcntl. cbv zeta. split; (apply bind_ext; intros tb s1; apply bind_ext; intros [fd|] s2; [|done]);
    cbn; (destruct (user_read u); [|done]); unfold bind; by rewrite Hw.
Qed.

(** asking for a lock on a file without an inode, as pipes and sockets are, goes through a null pointer. *)
Theorem lock_without_inode f s x g o fl w : tables s !! files (current s) = Some x -> ft_size x < 2 ^ 31 ->
  0 <= f < ft_size x -> ft_files x !! Z.to_nat f = Some (Some g) -> fds s !! g = Some o -> fd_inode o = None ->
  FileLock.fl_type fl = FileLock.F_RDLCK_ \/ FileLock.fl_type fl = FileLock.F_WRLCK_ ->
  sys_fcntl f F_GETLK64_ 0 (mk_user_flock (Some fl) true) w s = Fault.
Proof.
  intros Hx Hsz Hf Hg Ho Hi Hfl. unfold sys_fcntl, my_files. cbv zeta. rewrite (bind_step _ _ s (files (current s)) s) by done.
  rewrite (bind_step _ _ _ _ _ (f_get_run _ _ _ _ Hx Hsz Hf Hg)). cbn. apply run_Fault. unfold fcntl_getlk.
  replace (negb _ && negb _) with false by (destruct Hfl as [-> | ->]; done). apply run_Fault. unfold lock_env.
  rewrite (bind_step _ _ _ _ _ (get_fd_run _ _ _ Ho)), (bind_step _ _ s s s) by done. by rewrite Hi.
Qed.

(** looking up a descriptor in another task's table, as the listing of /proc does, is bounded by the table of the task that looks:
    a number beyond the end of a smaller table is read outside of it. *)
Theorem foreign_table_overread t f s mine x : tables s !! files (current s) = Some mine -> tables s !! t = Some x ->
  ft_size x <= f < ft_size mine -> ft_size mine < 2 ^ 31 -> fdtable_get t f s = Fault.
Proof.
  intros Hm Hx Hf Hmax. unfold fdtable_get. rewrite (bind_step _ _ s s s), (bind_step _ _ _ _ _ (get_table_run _ _ _ Hm)) by done.
  assert (0 <= ft_size x) by (unfold ft_size; lia). rewrite wrap_small by (unfold in_u; lia).
  destruct (Z.ltb_spec f 0), (Z.geb_spec f (ft_size mine)); try lia. cbn [orb]. rewrite (bind_step _ _ _ _ _ (get_table_run _ _ _ Hx)).
  unfold file_at. apply run_Fault. by destruct (Z.leb_spec 0 f), (Z.ltb_spec f (ft_size x)); try lia.
Qed.

End Faults.

(** ** A table of descriptors, for running the calls *)

Import Table.

#[export] Instance table_laws : FdLaws table.
Proof. by split. Qed.

(** The file 1 at the descriptors 0 and 2, of which 2 is closed on exec, and room for 8 descriptors. *)
Definition demo_table : fdtable := mk_fdtable 1 [Some 1; None; Some 1] [false; false; true; false; false; false; false; false].
Definition demo_fd : fd := mk_fd 3 0 S_IFDIR 0 0 (Some 100) None None None.
Definition demo (limit : Z) : vfs table :=
  mk_vfs [] [root_mount] {[ 1 := demo_fd ]} ∅ ∅ {[ 200 := demo_table ]}
    (mk_task 1000 1000 1000 1000 1 200 (mk_fs_info 0 (Some 1) (Some 1)) limit) 1000.
(** The working directory is the third reference. *)
Definition demo_ext : Z -> Z := fun f => if decide (f = 1) then 1 else 0.

Lemma demo_table_ok : table_ok demo_table.
Proof. split; done. Qed.
Lemma demo_refs limit f : refs (tables (demo limit)) f = if decide (f = 1) then 2 else 0.
Proof.
  unfold refs, demo. cbn [tables]. rewrite map_fold_singleton. unfold demo_table. cbn. destruct (decide (f = 1)) as [->|]; [done|].
  by rewrite !bool_decide_false by congruence.
Qed.
Lemma demo_exact limit : exact demo_ext (demo limit).
Proof.
  intros f. rewrite demo_refs. unfold demo_ext. destruct (decide (f = 1)) as [->|Hf]; [vm_compute; done|].
  unfold demo. cbn [fds]. by rewrite lookup_singleton_ne.
Qed.

Lemma fd_refcounts_exact_witness : exists s', run_call (Dup3 0 1 0) (demo 8) = Ret tt s' /\ exact demo_ext s'.
Proof.
  assert (exists s', run_call (Dup3 0 1 0) (demo 8) = Ret tt s') as [s' E] by (eexists; vm_compute; reflexivity).
  exists s'. split; [exact E|]. apply (fd_refcounts_exact (Dup3 0 1 0) demo_ext (demo 8) tt s'); [|apply demo_exact|exact E].
  split; [done|]. split; [done|]. split; [intros f; rewrite demo_refs; unfold demo_ext; case_decide; lia|]. split; [done|].
  intros x Hx. vm_compute in Hx. injection Hx as <-. split; [done|]. intros f. rewrite demo_refs. unfold demo_ext. cbn.
  destruct (decide (f = 1)) as [->|]; [done|]. by rewrite !bool_decide_false by congruence.
Defined.

Lemma sys_dup_spec_witness :
  (exists s', sys_dup 0 (demo 8) = Ret 1 s' /\ fd_refcount <$> fds s' !! 1 = Some 4) /\ sys_dup 0 (demo 1) = Ret _EMFILE (demo 1).
Proof.
  split.
  - destruct (sys_dup_spec 0 (demo 8) demo_table 1 demo_fd eq_refl demo_table_ok ltac:(done) ltac:(done) eq_refl eq_refl ltac:(done)) as (_ & _ & E).
    eexists. split; [exact E|]. vm_compute. reflexivity.
  - exact (proj2 (proj2 (sys_dup_spec 0 (demo 1) demo_table 1 demo_fd eq_refl demo_table_ok ltac:(done) ltac:(done) eq_refl eq_refl ltac:(done)))).
Defined.

Lemma sys_dup3_spec_witness : exists s' y, sys_dup3 0 5 O_CLOEXEC_ (demo 8) = Ret 5 s' /\
  tables s' !! 200 = Some y /\ ft_files y !! 5%nat = Some (Some 1) /\ ft_cloexec y !! 5%nat = Some true.
Proof.
  assert (exists s', sys_dup3 0 5 O_CLOEXEC_ (demo 8) = Ret 5 s') as [s' E] by (eexists; vm_compute; reflexivity).
  destruct (sys_dup3_spec 0 5 O_CLOEXEC_ (demo 8) demo_table 1 5 s' eq_refl demo_table_ok ltac:(done) ltac:(done) eq_refl ltac:(done) E)
    as (_ & y & H1 & _ & H2 & _ & H3 & _).
  exists s', y. split; [exact E|]. split; [exact H1|]. split; [exact H2|apply H3; reflexivity].
Defined.

Lemma do_cloexec_spec_witness : exists s' y, fdtable_do_cloexec 200 (demo 8) = Ret tt s' /\
  tables s' !! 200 = Some y /\ ft_files y !! 0%nat = Some (Some 1) /\ ft_files y !! 2%nat = Some None.
Proof.
  assert (exists s', fdtable_do_cloexec 200 (demo 8) = Ret tt s') as [s' E] by (eexists; vm_compute; reflexivity).
  destruct (do_cloexec_spec (demo 8) demo_table tt s' eq_refl ltac:(done) E) as (y & H1 & _ & H2).
  exists s', y. split; [exact E|]. split; [exact H1|]. split; [exact (H2 0%nat)|exact (H2 2%nat)].
Defined.

Lemma dup2_minus_one_witness : sys_dup2 0 (-1) (demo 8) = Fault.
Proof. exact (dup2_minus_one 0 (demo 8) demo_table 1 demo_fd eq_refl demo_table_ok ltac:(done) ltac:(done) eq_refl eq_refl ltac:(done)). Defined.

Lemma dupfd_crashes_witness :
  sys_fcntl 0 F_DUPFD_ (2 ^ 32 - 1) (mk_user_flock None false) [] (demo 8) = Abort /\
  sys_fcntl 0 F_DUPFD_CLOEXEC_ 8 (mk_user_flock None false) [] (demo 8) = Fault.
Proof.
  destruct (dupfd_crashes 0 (demo 8) demo_table 1 demo_fd (mk_user_flock None false) [] eq_refl demo_table_ok ltac:(done) ltac:(done) eq_refl eq_refl ltac:(done)) as [H1 H2].
  split; [exact H1|apply H2; [done|vm_compute; discriminate]].
Defined.

Lemma lock_without_inode_witness :
  sys_fcntl 0 F_GETLK64_ 0 (mk_user_flock (Some (FileLock.mk_flock FileLock.F_RDLCK_ 0 0 0 0)) true) [] (demo 8) = Fault.
Proof.
  exact (lock_without_inode 0 (demo 8) demo_table 1 demo_fd (FileLock.mk_flock FileLock.F_RDLCK_ 0 0 0 0) [] eq_refl ltac:(done) ltac:(done) eq_refl eq_refl eq_refl (or_introl eq_refl)).
Defined.

(** Another task has a table of one descriptor. *)
Definition demo_two : vfs table := set_tables (<[201 := mk_fdtable 1 [Some 1] []]> (tables (demo 8))) (demo 8).
Lemma foreign_table_overread_witness : fdtable_get 201 2 demo_two = Fault.
Proof. exact (foreign_table_overread 201 2 demo_two demo_table (mk_fdtable 1 [Some 1] []) eq_refl eq_refl ltac:(done) ltac:(done)). Defined.

(** The limit is 64 bits wide and is cut to 32 when a free descriptor is looked for: with a limit of 2^32 + 2 the descriptor 2, which is
    in use, is given out again, and what it named is lost. *)
Theorem limit_cut_overwrites : let s := set_tables {[ 200 := mk_fdtable 1 [Some 1; Some 1; Some 7] (replicate 8 false) ]} (demo (2 ^ 32 + 2)) in
  exists s', sys_dup 0 s = Ret 2 s' /\ ft_files <$> tables s' !! 200 = Some [Some 1; Some 1; Some 1].
Proof. eexists. split; vm_compute; reflexivity. Qed.
End Fd.
