(* ===== verification/Generic.v ===== *)
(** * Mounts and the generic file operations (fs/mount.c, fs/generic.c, fs/dev.c, fs/stat.c)

    Every operation on a path normalizes it, finds the mount it is on, calls the operation of that file system with the
    path cut to the mount, and releases the mount.  The list of mounts is kept in descending order of the length of the
    mount point, so that the first match is the innermost. *)

From S2P Require Import Prelude Errno FileLock Vfs Path Fd.

Module Generic.
Import Errno Vfs Path Fd.

(** ** Mounts (fs/mount.c) *)

Definition MAX_FILESYSTEMS : Z := 10.

(** The table of file systems has [MAX_FILESYSTEMS] entries; none is an assertion that fails. *)
Fixpoint fs_register (filesystems : list (option Z)) (fs : Z) : option (list (option Z)) :=
  match filesystems with
  | [] => None
  | None :: l => Some (Some fs :: l)
  | Some f :: l => cons (Some f) <$> fs_register l fs
  end.

Section WithSystem.
Context {F : Type} `{!System F}.

(** [list_add_before] the first mount whose point is not longer, or the end of the list. *)
Fixpoint insert_mount (new : mount) (l : list mount) : list mount :=
  match l with
  | [] => [new]
  | m :: l => if strlen (m_point m) <=? strlen (m_point new) then new :: m :: l else m :: insert_mount new l
  end.

Definition do_mount (fs : Z) (source point info : path) (flags : Z) : V F Z :=
  let! a := malloc in
  let new := mk_mount a point source info flags fs 0 None in
  let! (err, new) := match fs_mount (filesystem fs) with Some f => f new | None => ret (0, new) end in
  if err <? 0 then ret err
  else
    modify (fun s => set_mounts (insert_mount new (mounts s)) s) ;;
    ret 0.

Definition mount_remove (a : Z) : V F Z :=
  let! m := get_mount a in
  if negb (m_refcount m =? 0) then ret _EBUSY
  else
    match fs_umount (filesystem (m_fs m)) with Some f => let! _ := f a in ret tt | None => ret tt end ;;
    modify (fun s => set_mounts (filter (fun x => m_self x <> a) (mounts s)) s) ;;
    ret 0.

Definition do_umount (point : path) : V F Z :=
  let! s := gets id in
  match List.find (fun m => bool_decide (point = m_point m)) (mounts s) with
  | None => ret _EINVAL
  | Some m => mount_remove (m_self m)
  end.

(** The characters up to a comma: [strcspn]. *)
Fixpoint strcspn (s : path) : nat :=
  match s with
  | [] => O
  | c :: s => if (c =? ",")%char then O else S (strcspn s)
  end.

(** [None] is a loop that has not ended. *)
Fixpoint mount_param_flag (fuel : nat) (info flag : path) : option bool :=
  match fuel with
  | O => None
  | S fuel =>
      match info with
      | [] => Some false
      | _ => if bool_decide (take (length flag) info = flag) then Some true
             else mount_param_flag fuel (drop (strcspn info) info) flag
      end
  end.

(** ** Looking up (fs/generic.c, fs/stat.c) *)

Definition contains_mount_point (path : path) (s : vfs F) : bool :=
  existsb (fun m =>
    let n := length path in
    bool_decide (take n (m_point m) = path) &&
    ((char_at (m_point m) n =? NUL)%char || (char_at (m_point m) n =? slash)%char)) (mounts s).

Definition generic_statat (at_ : at_fd) (path_raw : path) (follow_links : bool) : V F (Z + statbuf) :=
  let! err := path_normalize at_ path_raw (if follow_links then N_SYMLINK_FOLLOW else N_SYMLINK_NOFOLLOW) in
  match err with
  | inl err => ret (inl err)
  | inr path =>
      let! (mount, path) := find_mount_and_trim_path path in
      let! err := stat mount path in
      mount_release (m_self mount) ;;
      ret err
  end.

Definition generic_accessat (dirfd : at_fd) (path_raw : path) (mode : Z) : V F Z :=
  let! err := path_normalize dirfd path_raw N_SYMLINK_FOLLOW in
  match err with
  | inl err => ret err
  | inr path =>
      let! (mount, path) := find_mount_and_trim_path path in
      let! err := stat mount path in
      mount_release (m_self mount) ;;
      match err with
      | inl err => ret err
      | inr stat => let! s := gets id in ret (access_check (current s) stat mode)
      end
  end.

(** ** Changing the file system *)

(** An operation on one path: the call of [op] on the mount the path is on, [_EPERM] if the file system has none. *)
Definition on_path (at_ : at_fd) (path_raw : path) (flags : Z) (busy : bool) (none : Z)
    (op : mount -> option (path -> V F Z)) : V F Z :=
  let! err := path_normalize at_ path_raw flags in
  match err with
  | inl err => ret err
  | inr path =>
      let! s := gets id in
      if busy && contains_mount_point path s then ret _EBUSY
      else
        let! (mount, path) := find_mount_and_trim_path path in
        let! err := match op mount with Some f => f path | None => ret none end in
        mount_release (m_self mount) ;;
        ret err
  end.

(** An operation on two paths, which must be on one mount. *)
Definition on_two_paths (src_at : at_fd) (src_raw : path) (dst_at : at_fd) (dst_raw : path) (busy : bool)
    (op : mount -> option (path -> path -> V F Z)) : V F Z :=
  let! err := path_normalize src_at src_raw N_SYMLINK_NOFOLLOW in
  match err with
  | inl err => ret err
  | inr src =>
      let! err := path_normalize dst_at dst_raw (Z.lor N_SYMLINK_NOFOLLOW N_PARENT_DIR_WRITE) in
      match err with
      | inl err => ret err
      | inr dst =>
          let! s := gets id in
          if busy && contains_mount_point src s then ret _EBUSY
          else
            let! (mount, src) := find_mount_and_trim_path src in
            let! (dst_mount, dst) := find_mount_and_trim_path dst in
            let! err :=
              if negb (m_self mount =? m_self dst_mount) then ret _EXDEV
              else match op mount with Some f => f src dst | None => ret _EPERM end in
            mount_release (m_self mount) ;;
            mount_release (m_self dst_mount) ;;
            ret err
      end
  end.

Definition follow_flag (follow_links : bool) : Z := if follow_links then N_SYMLINK_FOLLOW else N_SYMLINK_NOFOLLOW.
Definition fs_of (m : mount) : fs_ops F := filesystem (m_fs m).

Definition generic_linkat (src_at : at_fd) (src : path) (dst_at : at_fd) (dst : path) : V F Z :=
  on_two_paths src_at src dst_at dst false (fun m => (fun f => f (m_self m)) <$> fs_link (fs_of m)).

Definition generic_unlinkat (at_ : at_fd) (path : path) : V F Z :=
  on_path at_ path N_SYMLINK_NOFOLLOW false _EPERM (fun m => (fun f => f (m_self m)) <$> fs_unlink (fs_of m)).

Definition generic_renameat (src_at : at_fd) (src : path) (dst_at : at_fd) (dst : path) : V F Z :=
  on_two_paths src_at src dst_at dst true (fun m => (fun f => f (m_self m)) <$> fs_rename (fs_of m)).

Definition generic_symlinkat (target : path) (at_ : at_fd) (link : path) : V F Z :=
  on_path at_ link (Z.lor N_SYMLINK_NOFOLLOW N_PARENT_DIR_WRITE) false _EPERM
    (fun m => (fun f => f (m_self m) target) <$> fs_symlink (fs_of m)).

Definition generic_mknodat (at_ : at_fd) (path : path) (mode dev : Z) : V F Z :=
  let! s := gets id in
  if S_ISDIR mode || S_ISLNK mode then ret _EINVAL
  else if negb (superuser (current s)) && (S_ISBLK mode || S_ISCHR mode) then ret _EPERM
  else on_path at_ path (Z.lor N_SYMLINK_NOFOLLOW N_PARENT_DIR_WRITE) false _EPERM
         (fun m => (fun f p => f (m_self m) p mode dev) <$> fs_mknod (fs_of m)).

Definition generic_setattrat (at_ : at_fd) (path : path) (a : attr) (follow_links : bool) : V F Z :=
  on_path at_ path (follow_flag follow_links) false _EPERM (fun m => (fun f p => f (m_self m) p a) <$> fs_setattr (fs_of m)).

Definition generic_utime (at_ : at_fd) (path : path) (atime mtime : Z * Z) (follow_links : bool) : V F Z :=
  on_path at_ path (follow_flag follow_links) false _EPERM (fun m => (fun f p => f (m_self m) p atime mtime) <$> fs_utime (fs_of m)).

Definition generic_mkdirat (at_ : at_fd) (path : path) (mode : Z) : V F Z :=
  on_path at_ path (Z.lor N_SYMLINK_FOLLOW N_PARENT_DIR_WRITE) false _EPERM (fun m => (fun f p => f (m_self m) p mode) <$> fs_mkdir (fs_of m)).

Definition generic_rmdirat (at_ : at_fd) (path : path) : V F Z :=
  on_path at_ path (Z.lor N_SYMLINK_FOLLOW N_PARENT_DIR_WRITE) true _EPERM (fun m => (fun f => f (m_self m)) <$> fs_rmdir (fs_of m)).

Definition generic_readlinkat (at_ : at_fd) (path_raw : path) (bufsize : Z) : V F (Z + path) :=
  let! err := path_normalize at_ path_raw N_SYMLINK_NOFOLLOW in
  match err with
  | inl err => ret (inl err)
  | inr path =>
      let! (mount, path) := find_mount_and_trim_path path in
      let! err := readlink mount path bufsize in
      mount_release (m_self mount) ;;
      ret err
  end.

(** ** Devices (fs/dev.c, fs/dev.h) *)

Definition dev_make (major minor : Z) : Z := Z.lor (u32 (Z.shiftl (Z.land major 65535) 16)) (Z.land minor 65535).
Definition dev_major (dev : Z) : Z := Z.land (Z.shiftr dev 16) 65535.
Definition dev_minor (dev : Z) : Z := Z.land dev 65535.

(** The tables have 256 entries. *)
Definition dev_open (major minor : Z) (kind : dev_kind) (f : Z) : V F Z :=
  in_bounds ((0 <=? major) && (major <? 256)) ;;
  match device kind major with
  | None => ret _ENXIO
  | Some (ops, open) =>
      upd_fd f (set_fd_ops_of ops) ;;
      match open with
      | None => ret 0
      | Some open => open major minor f
      end
  end.

(** ** Opening *)

(** The checks behind the access check; [0] is a file that may be opened. *)
Definition open_checks (f flags : Z) (stat : statbuf) : V F Z :=
  let type := Z.land (st_mode stat) S_IFMT in
  assert (negb (S_ISLNK type)) ;;
  let! err :=
    if S_ISBLK type || S_ISCHR type then
      dev_open (dev_major (u32 (st_rdev stat))) (dev_minor (u32 (st_rdev stat))) (if S_ISBLK type then DEV_BLOCK else DEV_CHAR) f
    else ret 0 in
  if err <? 0 then ret err
  else if S_ISSOCK type then ret _ENXIO
  else if S_ISDIR type && has flags (Z.lor O_RDWR_ O_WRONLY_) then ret _EISDIR
  else if negb (S_ISDIR type) && has flags O_DIRECTORY_ then ret _ENOTDIR
  else ret 0.

Definition accmode (flags : Z) : Z :=
  if has flags O_RDWR_ then Z.lor AC_R AC_W else if has flags O_WRONLY_ then AC_W else AC_R.

Definition generic_openat (at_ : at_fd) (path_raw : path) (flags mode : Z) : V F (Z + Z) :=
  if has flags O_RDWR_ && has flags O_WRONLY_ then ret (inl _EINVAL)
  else
    let! err := path_normalize at_ path_raw (Z.lor N_SYMLINK_FOLLOW (if has flags O_CREAT_ then N_PARENT_DIR_WRITE else 0)) in
    match err with
    | inl err => ret (inl err)
    | inr path =>
        let! (mount, path) := find_mount_and_trim_path path in
        let! fd := fs_open (fs_of mount) (m_self mount) path flags mode in
        match fd with
        | inl err => mount_release (m_self mount) ;; ret (inl err)
        | inr f =>
            upd_fd f (set_fd_mount (Some (m_self mount))) ;;
            let fail err := let! _ := fd_close f in ret (inl err) in
            let! s := gets id in
            let! err := deref (fs_fstat (fs_of mount) f s) in
            match err with
            | inl err => fail err
            | inr stat =>
                let! i := inode_get_unlocked (m_self mount) (st_inode stat) in
                upd_fd f (set_fd_inode (Some i)) ;;
                upd_fd f (set_fd_type (Z.land (st_mode stat) S_IFMT)) ;;
                upd_fd f (set_fd_flags flags) ;;
                let! s := gets id in
                let err := access_check (current s) stat (accmode flags) in
                if err <? 0 then fail err
                else
                  let! err := open_checks f flags stat in
                  if err <? 0 then fail err else ret (inr f)
            end
        end
    end.

Definition generic_open (path : path) (flags mode : Z) : V F (Z + Z) := generic_openat AT_PWD path flags mode.

(** ** Seeking *)

Definition generic_seek (f off whence size : Z) : V F Z :=
  let! x := get_fd f in
  if whence =? FileLock.LSEEK_SET then upd_fd f (set_fd_offset (u64 off)) ;; ret 0
  else if whence =? FileLock.LSEEK_CUR then
    let sum := s64 (fd_offset x) + off in
    if negb (bool_decide (in_s 64 sum)) || (sum <? 0) then ret _EINVAL
    else upd_fd f (set_fd_offset (u64 sum)) ;; ret 0
  else if whence =? FileLock.LSEEK_END then
    let new_off := s64 (size + off) in
    if new_off <? 0 then ret _EINVAL
    else upd_fd f (set_fd_offset (u64 new_off)) ;; ret 0
  else ret _EINVAL.

(** ** Mounting and unmounting as system calls *)

Definition MS_READONLY_ : Z := Z.shiftl 1 0.
Definition MS_NOSUID_ : Z := Z.shiftl 1 1.
Definition MS_NODEV_ : Z := Z.shiftl 1 2.
Definition MS_NOEXEC_ : Z := Z.shiftl 1 3.
Definition MS_SILENT_ : Z := Z.shiftl 1 15.
Definition MS_FLAGS : Z := Z.lor (Z.lor MS_READONLY_ MS_NOSUID_) (Z.lor MS_NODEV_ MS_NOEXEC_).
Definition MS_SUPPORTED : Z := Z.lor MS_FLAGS MS_SILENT_.

(** The strings read from the guest, none where that failed; [data] is [None] for a null address, when the buffer is left as it is:
    what it then holds is not defined. *)
Definition sys_mount (filesystems : list (option Z)) (source point_raw : option path) (data : option (option path)) (type : option path)
    (flags : Z) : V F Z :=
  match source, point_raw, data, type with
  | Some source, Some point_raw, Some data, Some type =>
      if negb (Z.ldiff flags MS_SUPPORTED =? 0) then ret _EINVAL
      else
        match List.find (fun e => match e with Some i => bool_decide (fs_name (filesystem i) = type) | None => false end) filesystems with
        | Some (Some fs) =>
            let! err := generic_statat AT_PWD point_raw true in
            match err with
            | inl err => ret err
            | inr stat =>
                if negb (S_ISDIR (st_mode stat)) then ret _ENOTDIR
                else
                  let! err := path_normalize AT_PWD point_raw N_SYMLINK_FOLLOW in
                  match err with
                  | inl err => ret err
                  | inr point =>
                      let! data := deref data in
                      do_mount fs source point data (Z.land flags MS_FLAGS)
                  end
            end
        | _ => ret _EINVAL
        end
  | _, _, _, _ => ret _EFAULT
  end.

Definition UMOUNT_NOFOLLOW_ : Z := 8.
Definition sys_umount2 (target_raw : option path) (flags : Z) : V F Z :=
  match target_raw with
  | None => ret _EFAULT
  | Some target_raw =>
      let! err := path_normalize AT_PWD target_raw (if has flags UMOUNT_NOFOLLOW_ then N_SYMLINK_NOFOLLOW else N_SYMLINK_FOLLOW) in
      match err with
      | inl err => ret err
      | inr target => do_umount target
      end
  end.

End WithSystem.

(** ** The innermost mount *)

(** Descending order of the length of the mount point. *)
Definition longer (a b : mount) : Prop := strlen (m_point b) <= strlen (m_point a).
Definition mounts_sorted (l : list mount) : Prop := ForallOrdPairs longer l.

Lemma insert_mount_elem new l m : m ∈ insert_mount new l <-> m = new \/ m ∈ l.
Proof.
  induction l as [|x l IH]; cbn; [set_solver|]. case_match; [set_solver|]. rewrite !elem_of_cons, IH. set_solver.
Qed.

Lemma insert_mount_sorted new l : mounts_sorted l -> mounts_sorted (insert_mount new l).
Proof.
  unfold mounts_sorted. induction 1 as [|x l Hx Hl IH]; cbn; [repeat constructor|].
  destruct (Z.leb_spec (strlen (m_point x)) (strlen (m_point new))).
  - constructor; [|by constructor]. constructor; [done|]. rewrite Forall_elem in *. intros y Hy. specialize (Hx y Hy). unfold longer in *. lia.
  - constructor; [|done]. rewrite Forall_elem in *. intros y [->|Hy]%insert_mount_elem; [unfold longer; lia|by apply Hx].
Qed.

Lemma filter_sorted P `{!forall x, Decision (P x)} l : mounts_sorted l -> mounts_sorted (filter P l).
Proof.
  unfold mounts_sorted. induction 1 as [|x l Hx Hl IH]; [constructor|]. rewrite filter_cons. case_decide; [|done]. constructor; [|done].
  by apply Forall_filter.
Qed.

(** The first match in the list is the longest. *)
Lemma find_longest p l m : mounts_sorted l -> List.find (on_mount p) l = Some m ->
  on_mount p m = true /\ m ∈ l /\ forall m', m' ∈ l -> on_mount p m' = true -> strlen (m_point m') <= strlen (m_point m).
Proof.
  unfold mounts_sorted. induction 1 as [|x l Hx Hl IH]; cbn; [done|]. destruct (on_mount p x) eqn:E.
  - intros [= ->]. split; [done|]. split; [set_solver|]. intros m' [->|Hm']%elem_of_cons _; [lia|]. rewrite Forall_elem in Hx. by apply Hx.
  - intros Hf. destruct (IH Hf) as (H1 & H2 & H3). split; [done|]. split; [set_solver|]. intros m' [->|Hm']%elem_of_cons H; [congruence|auto].
Qed.

(** Where the match goes when a mount is added: to the new one unless a longer one matches. *)
Lemma find_insert p new l : mounts_sorted l ->
  List.find (on_mount p) (insert_mount new l) =
  match List.find (on_mount p) l with
  | Some m => if on_mount p new && (strlen (m_point m) <=? strlen (m_point new)) then Some new else Some m
  | None => if on_mount p new then Some new else None
  end.
Proof.
  intros Hs. induction Hs as [|x l Hx Hl IH]; cbn [insert_mount]; [cbn; by destruct (on_mount p new)|].
  destruct (Z.leb_spec (strlen (m_point x)) (strlen (m_point new))) as [Hle|Hgt].
  - cbn [List.find]. destruct (on_mount p new); cbn [andb]; [|destruct (on_mount p x); [done|]; by case_match].
    destruct (on_mount p x); [by destruct (Z.leb_spec (strlen (m_point x)) (strlen (m_point new))); [|lia]|].
    destruct (List.find (on_mount p) l) as [m|] eqn:E; [|done]. apply List.find_some in E as [E _]. rewrite Forall_elem in Hx.
    specialize (Hx m (proj2 (list_elem_of_In _ _) E)). unfold longer in Hx. by destruct (Z.leb_spec (strlen (m_point m)) (strlen (m_point new))); [|lia].
  - cbn [List.find]. destruct (on_mount p x); [|done]. destruct (Z.leb_spec (strlen (m_point x)) (strlen (m_point new))); [lia|]. by rewrite andb_false_r.
Qed.

(** A new mount is found by its address, and taken out again. *)
Lemma find_self new l : (forall m, m ∈ l -> m_self m <> m_self new) ->
  List.find (fun m => m_self m =? m_self new) (insert_mount new l) = Some new.
Proof.
  intros H. induction l as [|x l IH]; cbn [insert_mount List.find]; [by rewrite Z.eqb_refl|].
  destruct (_ <=? _); cbn [List.find]; [by rewrite Z.eqb_refl|].
  destruct (Z.eqb_spec (m_self x) (m_self new)) as [Ex|]; [|apply IH; set_solver]. destruct (H x); [set_solver|done].
Qed.
Lemma filter_insert new l : (forall m, m ∈ l -> m_self m <> m_self new) -> filter (fun x => m_self x <> m_self new) (insert_mount new l) = l.
Proof.
  assert (forall k : list mount, (forall m, m ∈ k -> m_self m <> m_self new) -> filter (fun x => m_self x <> m_self new) k = k) as Hall.
  { induction k as [|x k IH]; intros H; [done|]. rewrite filter_cons_True by set_solver. rewrite IH by set_solver. done. }
  induction l as [|x l IH]; intros H; cbn [insert_mount]; [by rewrite filter_cons_False by naive_solver|].
  destruct (_ <=? _); [rewrite filter_cons_False by naive_solver; by apply Hall|].
  rewrite filter_cons_True by set_solver. rewrite IH by set_solver. done.
Qed.

Section Mounts.
Context {F : Type} `{!System F}.
Implicit Types s : vfs F.

(** A file system that needs no work to be mounted. *)
Definition plain_fs (fs : Z) : Prop := fs_mount (filesystem fs) = None /\ fs_umount (filesystem fs) = None.

(** mounting puts a file system over a directory.  The mounts stay in descending order of their points, [mount_of] - the rule of
    [mount_find] - gives the mount with the longest point a path is on, and a new mount takes over exactly the paths
    on its point that were not on a longer one; a mount at the same point hides the one that was there. *)
Theorem do_mount_spec fs source point info flags s : plain_fs fs -> mounts_sorted (mounts s) ->
  exists new s', do_mount fs source point info flags s = Ret 0 s' /\ m_point new = point /\ m_fs new = fs /\ mounts_sorted (mounts s') /\
  (forall m, m ∈ mounts s' <-> m = new \/ m ∈ mounts s) /\
  forall p, match mount_of s p, mount_of s' p with
            | None, None => on_mount p new = false
            | None, Some (m, _) => m = new /\ on_mount p new = true
            | Some (m, _), Some (m', _) =>
                m' = (if on_mount p new && (strlen (m_point m) <=? strlen point) then new else m) /\
                (forall m'', m'' ∈ mounts s' -> on_mount p m'' = true -> strlen (m_point m'') <= strlen (m_point m'))
            | Some _, None => False
            end.
Proof.
  intros [Hm _] Hs. unfold do_mount. rewrite (bind_step _ _ s (next s) (set_next (next s + 1) s)) by done. cbv zeta. rewrite Hm.
  set (new := mk_mount (next s) point source info flags fs 0 None). rewrite (bind_step _ _ _ (0, new) (set_next (next s + 1) s)) by done.
  change (0 <? 0) with false. cbn iota. eexists new, _. split; [done|]. split; [done|]. split; [done|].
  assert (mounts (set_mounts (insert_mount new (mounts (set_next (next s + 1) s))) (set_next (next s + 1) s)) = insert_mount new (mounts s)) as E by by destruct s.
  split; [rewrite E; by apply insert_mount_sorted|]. split; [intros m; rewrite E; apply insert_mount_elem|]. intros p. unfold mount_of. rewrite E.
  pose proof (find_longest p (insert_mount new (mounts s))) as HL. rewrite find_insert in * by done.
  destruct (List.find (on_mount p) (mounts s)) as [m|]; cbn [mbind option_bind].
  - change (m_point new) with point in *. destruct (on_mount p new && _) eqn:Eb; cbn [mbind option_bind];
      (split; [done|]); eapply HL; (done || by apply insert_mount_sorted).
  - destruct (on_mount p new) eqn:En; cbn [mbind option_bind]; done.
Qed.

(** unmounting undoes mounting: what was mounted last at a point is what is removed, and the mounts are as they were. *)
Theorem mount_umount_roundtrip fs source point info flags s s1 : plain_fs fs -> (forall m, m ∈ mounts s -> m_self m <> next s) ->
  mounts_sorted (mounts s) -> do_mount fs source point info flags s = Ret 0 s1 ->
  exists s2, do_umount point s1 = Ret 0 s2 /\ mounts s2 = mounts s.
Proof.
  intros [Hm Hu] Hfresh Hs E. unfold do_mount in E. rewrite (bind_step _ _ s (next s) (set_next (next s + 1) s)) in E by done. cbv zeta in E. rewrite Hm in E.
  set (new := mk_mount (next s) point source info flags fs 0 None) in E. rewrite (bind_step _ _ _ (0, new) (set_next (next s + 1) s)) in E by done.
  change (0 <? 0) with false in E. cbn iota in E. vinv E. clear E.
  assert (mounts (set_mounts (insert_mount new (mounts (set_next (next s + 1) s))) (set_next (next s + 1) s)) = insert_mount new (mounts s)) as Em by by destruct s.
  set (s1 := set_mounts _ _) in *. clearbody s1. unfold do_umount. rewrite (bind_step _ _ s1 s1 s1) by done. rewrite Em.
  assert (List.find (fun m => bool_decide (point = m_point m)) (insert_mount new (mounts s)) = Some new) as ->.
  { clear -Hs. induction Hs as [|x l Hx Hl IH]; cbn [insert_mount List.find]; [by rewrite bool_decide_true|].
    destruct (Z.leb_spec (strlen (m_point x)) (strlen (m_point new))); cbn [List.find]; [by rewrite bool_decide_true|].
    rewrite bool_decide_false; [done|]. intros E. change (m_point new) with point in *. rewrite E in *. lia. }
  unfold mount_remove. assert (get_mount (m_self new) s1 = Ret new s1) as E2.
  { unfold get_mount. rewrite (bind_step _ _ s1 s1 s1), Em by done. by rewrite find_self. }
  rewrite (bind_step _ _ _ _ _ E2). change (negb (m_refcount new =? 0)) with false. cbn iota. change (m_fs new) with fs. rewrite Hu.
  rewrite (bind_step _ _ s1 tt s1) by done. eexists. split; [done|]. clear E2. destruct s1; cbn [mounts set_mounts] in *. rewrite Em. exact (filter_insert new (mounts s) Hfresh).
Qed.

End Mounts.

(** ** References to mounts are given back *)

Section Balance.
Context {F : Type} `{!System F}.
Implicit Types s : vfs F.

(** An operation that returns in the state it started in. *)
Definition unchanged {A} (m : V F A) : Prop := forall s r s', mounts_ok s -> m s = Ret r s' -> s' = s.

Lemma check_component_unchanged follow levels again prev p o o' : (forall e, unchanged (again e)) ->
  unchanged (check_component follow levels again prev p o o').
Proof.
  intros Hagain s r s' Hok H. unfold check_component in H. destruct (_ || _); [|by vinv H].
  vbind H as ([] & s1 & E & H). vinv E. vbind H as ([m q] & s2 & E2 & H).
  apply find_mount_Ret in E2 as (Hm & -> & _). destruct (mount_of_elem _ _ _ _ Hm) as [Hin _].
  vbind H as ([] & s3 & E3 & H). vinv E3. vbind H as (res & s4 & E4 & H). apply readlink_Ret in E4 as [-> _].
  destruct res as [e|target].
  - vbind H as (y & s5 & E5 & H). vinv E5. destruct (_ =? _)%char.
    + vbind H as (err & s6 & E6 & H). apply stat_Ret in E6 as [-> _].
      vbind H as ([] & s7 & E7 & H). rewrite release_hold in E7 by done. injection E7 as <-.
      destruct err; [by vinv H|]. vbind H as (? & ? & E8 & H). vinv E8. destruct (negb _); [by vinv H|]. destruct (_ <? 0); by vinv H.
    + vbind H as ([] & s6 & E6 & H). rewrite release_hold in E6 by done. injection E6 as <-. by vinv H.
  - vbind H as ([] & s5 & E5 & H). rewrite release_hold in E5 by done. injection E5 as <-.
    destruct (levels >=? 5); [by vinv H|]. vbind H as ([] & s6 & E6 & H). vinv E6.
    vbind H as (r' & s7 & E7 & H). vinv H. destruct (bool_decide (p = [])); [by eapply Hagain|].
    vbind E7 as ([] & s8 & E8 & E7). vinv E8. by eapply Hagain.
Qed.

Lemma normalize_loop_unchanged fuel follow levels again prev p o n : (forall e, unchanged (again e)) ->
  unchanged (normalize_loop fuel follow levels again prev p o n).
Proof.
  intros Hagain. revert prev p o n. induction fuel as [|fuel IH]; intros prev p o n s r s' Hok H; [done|].
  cbn [normalize_loop] in H. destruct p as [|c p]; [by vinv H|]. destruct (_ && ends_component (char_at (c :: p) 1)).
  { destruct (eat_slashes _ _). by eapply IH. }
  destruct (_ && _ && _).
  { vbind H as ([o' n'] & s1 & E & H). assert (s1 = s) as -> by (destruct o; by vinv E). destruct (eat_slashes _ _). by eapply IH. }
  destruct (copy _ _ _ _) as [[[prev' p'] o'] n']. destruct (eat_slashes _ _) as [x q]. vbind H as ([] & s1 & E & H). vinv E.
  destruct (n' =? 0); [by vinv H|]. vbind H as (v & s2 & E2 & H). pose proof (check_component_unchanged _ _ _ _ _ _ _ Hagain _ _ _ Hok E2) as ->.
  destruct v; [by vinv H|]. by eapply IH.
Qed.

Lemma path_normalize_unchanged at_ p flags : unchanged (path_normalize at_ p flags).
Proof.
  assert (forall depth at_path p flags levels, unchanged (__path_normalize depth at_path p flags levels)) as Hn.
  { clear. induction depth as [|depth IH]; intros at_path p flags levels s r s' Hok H; [done|]. cbn [__path_normalize] in H.
    vbind H as ([] & s1 & E & H). vinv E. destruct (bool_decide (p = [])); [by vinv H|].
    vbind H as ([o n] & s2 & E2 & H). assert (s2 = s) as -> by (destruct at_path; [destruct (bool_decide _)|]; by vinv E2).
    destruct (eat_slashes None p). eapply normalize_loop_unchanged; [|done|exact H]. intros e. apply IH. }
  intros s r s' Hok H. unfold path_normalize in H. vbind H as ([] & s1 & E & H). vinv E.
  destruct (bool_decide (p = [])); [by vinv H|]. vbind H as (? & s2 & E2 & H). vinv E2.
  destruct (if (char_at p 0 =? slash)%char then _ else _); [|by eapply Hn].
  vbind H as (e & s3 & E3 & H). apply getpath_state in E3 as ->. destruct e; [by vinv H|].
  vbind H as ([] & s4 & E4 & H). vinv E4. by eapply Hn.
Qed.

(** What the operations of a file system do to the mounts: nothing. *)
Definition leaves_mounts {A} (m : V F A) : Prop := forall s r s', m s = Ret r s' -> mounts s' = mounts s.

(** The list of mounts with the count of one changed. *)
Definition adjust (a d : Z) (l : list mount) : list mount :=
  (fun x => if m_self x =? a then set_m_refcount (u32 (m_refcount x + d)) x else x) <$> l.

Lemma adjust_comm a d b e l : adjust a d (adjust b e l) = adjust b e (adjust a d l).
Proof.
  unfold adjust. rewrite <- !list_fmap_compose. apply list_fmap_ext. intros _ x _. cbn.
  destruct (m_self x =? a) eqn:Ea, (m_self x =? b) eqn:Eb; destruct x; cbn in *; rewrite ?Ea, ?Eb; cbn; try done.
  unfold set_m_refcount; cbn. f_equal. unfold wrap. rewrite !Zplus_mod_idemp_l. apply (f_equal (fun z => z mod 2 ^ 32)). lia.
Qed.
Lemma adjust_back a l : Forall (fun m => in_u 32 (m_refcount m)) l -> adjust a (-1) (adjust a 1 l) = l.
Proof.
  unfold adjust. induction 1 as [|x l Hx Hl IH]; [done|]. cbn. rewrite IH. f_equal.
  destruct (m_self x =? a) eqn:E; destruct x; cbn in *; rewrite E; [|done]. unfold set_m_refcount; cbn. f_equal. by apply u32_back.
Qed.
Lemma hold_adjust m s : mounts (hold m s) = adjust (m_self m) 1 (mounts s).
Proof. by destruct s. Qed.
Lemma release_adjust a s r s' : mount_release a s = Ret r s' -> mounts s' = adjust a (-1) (mounts s).
Proof. unfold mount_release, upd_mount, get_mount. intros H. vinv H. by destruct s. Qed.

Lemma on_path_balanced at_ p flags busy none op s r s' : mounts_ok s -> (forall m f q, op m = Some f -> leaves_mounts (f q)) ->
  on_path at_ p flags busy none op s = Ret r s' -> mounts s' = mounts s.
Proof.
  intros Hok Hop H. unfold on_path in H. vbind H as (e & s1 & E1 & H). apply path_normalize_unchanged in E1 as ->; [|done].
  destruct e as [e|q]; [by vinv H|]. vbind H as (? & s2 & E2 & H). vinv E2. destruct (busy && _); [by vinv H|].
  vbind H as ([m q'] & s3 & E3 & H). apply find_mount_Ret in E3 as (Hm & -> & _). destruct (mount_of_elem _ _ _ _ Hm) as [Hin _].
  vbind H as (e & s4 & E4 & H). vbind H as ([] & s5 & E5 & H). vinv H.
  apply release_adjust in E5 as ->. assert (mounts s4 = mounts (hold m s)) as -> by (destruct (op m) eqn:Eo; [by eapply Hop|by vinv E4]).
  rewrite hold_adjust. by apply adjust_back.
Qed.

Lemma on_two_paths_balanced a1 p1 a2 p2 busy op s r s' : mounts_ok s -> (forall m f q q', op m = Some f -> leaves_mounts (f q q')) ->
  on_two_paths a1 p1 a2 p2 busy op s = Ret r s' -> mounts s' = mounts s.
Proof.
  intros Hok Hop H. unfold on_two_paths in H. vbind H as (e & s1 & E1 & H). apply path_normalize_unchanged in E1 as ->; [|done].
  destruct e as [e|q1]; [by vinv H|]. vbind H as (e & s1 & E1 & H). apply path_normalize_unchanged in E1 as ->; [|done].
  destruct e as [e|q2]; [by vinv H|]. vbind H as (? & s2 & E2 & H). vinv E2. destruct (busy && _); [by vinv H|].
  vbind H as ([m q1'] & s3 & E3 & H). apply find_mount_Ret in E3 as (Hm & -> & _). destruct (mount_of_elem _ _ _ _ Hm) as [Hin _].
  vbind H as ([m' q2'] & s4 & E4 & H). apply find_mount_Ret in E4 as (Hm' & -> & _). destruct (mount_of_elem _ _ _ _ Hm') as [Hin' _].
  vbind H as (e & s5 & E5 & H). assert (mounts s5 = mounts (hold m' (hold m s))) as Hs5.
  { destruct (negb _); [by vinv E5|]. destruct (op m) eqn:Eo; [by eapply Hop|by vinv E5]. }
  vbind H as ([] & s6 & E6 & H). vbind H as ([] & s7 & E7 & H). vinv H.
  apply release_adjust in E6, E7. rewrite E7, E6, Hs5, !hold_adjust, (adjust_comm (m_self m) (-1)), !adjust_back; [done..|].
  by rewrite adjust_back.
Qed.

(** The operations of every file system leave the mounts alone. *)
Class MountLaws := {
  link_leaves : forall i f a p q, fs_link (filesystem i) = Some f -> leaves_mounts (f a p q);
  unlink_leaves : forall i f a p, fs_unlink (filesystem i) = Some f -> leaves_mounts (f a p);
  rmdir_leaves : forall i f a p, fs_rmdir (filesystem i) = Some f -> leaves_mounts (f a p);
  rename_leaves : forall i f a p q, fs_rename (filesystem i) = Some f -> leaves_mounts (f a p q);
  symlink_leaves : forall i f a t p, fs_symlink (filesystem i) = Some f -> leaves_mounts (f a t p);
  mknod_leaves : forall i f a p m d, fs_mknod (filesystem i) = Some f -> leaves_mounts (f a p m d);
  mkdir_leaves : forall i f a p m, fs_mkdir (filesystem i) = Some f -> leaves_mounts (f a p m);
  setattr_leaves : forall i f a p x, fs_setattr (filesystem i) = Some f -> leaves_mounts (f a p x);
  utime_leaves : forall i f a p x y, fs_utime (filesystem i) = Some f -> leaves_mounts (f a p x y);
}.

(** The operations on paths that return without holding a file. *)
Inductive path_call :=
  | Stat (at_ : at_fd) (p : path) (follow : bool)
  | Access (at_ : at_fd) (p : path) (mode : Z)
  | Readlink (at_ : at_fd) (p : path) (bufsize : Z)
  | Link (a : at_fd) (p : path) (b : at_fd) (q : path)
  | Unlink (at_ : at_fd) (p : path)
  | Rename (a : at_fd) (p : path) (b : at_fd) (q : path)
  | Symlink (target : path) (at_ : at_fd) (p : path)
  | Mknod (at_ : at_fd) (p : path) (mode dev : Z)
  | Mkdir (at_ : at_fd) (p : path) (mode : Z)
  | Rmdir (at_ : at_fd) (p : path)
  | Setattr (at_ : at_fd) (p : path) (a : attr) (follow : bool)
  | Utime (at_ : at_fd) (p : path) (atime mtime : Z * Z) (follow : bool).

Definition run_path_call (c : path_call) : V F unit :=
  match c with
  | Stat a p b => let! _ := generic_statat a p b in ret tt
  | Access a p m => let! _ := generic_accessat a p m in ret tt
  | Readlink a p n => let! _ := generic_readlinkat a p n in ret tt
  | Link a p b q => let! _ := generic_linkat a p b q in ret tt
  | Unlink a p => let! _ := generic_unlinkat a p in ret tt
  | Rename a p b q => let! _ := generic_renameat a p b q in ret tt
  | Symlink t a p => let! _ := generic_symlinkat t a p in ret tt
  | Mknod a p m d => let! _ := generic_mknodat a p m d in ret tt
  | Mkdir a p m => let! _ := generic_mkdirat a p m in ret tt
  | Rmdir a p => let! _ := generic_rmdirat a p in ret tt
  | Setattr a p x b => let! _ := generic_setattrat a p x b in ret tt
  | Utime a p x y b => let! _ := generic_utime a p x y b in ret tt
  end.

(** Looking something up on a path changes nothing at all. *)
Lemma look_up_unchanged {A B} at_ p flags (look : mount -> path -> V F A) (k : A -> V F B) :
  (forall m q s r s', look m q s = Ret r s' -> s' = s) -> (forall a s r s', k a s = Ret r s' -> s' = s) ->
  forall err, unchanged (let! e := path_normalize at_ p flags in
    match e with
    | inl e => ret (err e)
    | inr q => let! (m, q) := find_mount_and_trim_path q in let! a := look m q in mount_release (m_self m) ;; k a
    end).
Proof.
  intros Hlook Hk err s r s' Hok H. vbind H as (e & s1 & E1 & H). apply path_normalize_unchanged in E1 as ->; [|done].
  destruct e as [e|q]; [by vinv H|]. vbind H as ([m q'] & s3 & E3 & H). apply find_mount_Ret in E3 as (Hm & -> & _). destruct (mount_of_elem _ _ _ _ Hm) as [Hin _].
  vbind H as (e & s4 & E4 & H). apply Hlook in E4 as ->. vbind H as ([] & s5 & E5 & H).
  rewrite release_hold in E5 by done. injection E5 as <-. by eapply Hk.
Qed.

(** an operation on paths that does not open a file loses or keeps no reference to a mount: whatever it returns, the mounts and their counts are
    as before, so that a file system that is not in use can be unmounted.  The file systems are asked to do the same ([MountLaws]); [generic_openat] keeps a reference for the file it opens. *)
Theorem path_calls_balanced {LM : MountLaws} c s r s' : mounts_ok s -> run_path_call c s = Ret r s' -> mounts s' = mounts s.
Proof.
  intros Hok H. destruct c; cbn [run_path_call] in H; vbind H as (v & s1 & E & H); vinv H.
  - apply look_up_unchanged in E as ->; [done|by intros ? ? ? ? ? []%stat_Ret| |done]. intros a s2 r2 s2' H2. by vinv H2.
  - apply look_up_unchanged in E as ->; [done|by intros ? ? ? ? ? []%stat_Ret| |done]. intros [a|a] s2 r2 s2' H2; by vinv H2.
  - apply look_up_unchanged in E as ->; [done|by intros ? ? ? ? ? []%readlink_Ret| |done]. intros a s2 r2 s2' H2. by vinv H2.
  - eapply on_two_paths_balanced in E; [done..|]. intros m f q1 q2 (g & Hg & ->)%fmap_Some. by eapply link_leaves.
  - eapply on_path_balanced in E; [done..|]. intros m0 f q0 (g & Hg & ->)%fmap_Some. by eapply unlink_leaves.
  - eapply on_two_paths_balanced in E; [done..|]. intros m f q1 q2 (g & Hg & ->)%fmap_Some. by eapply rename_leaves.
  - eapply on_path_balanced in E; [done..|]. intros m0 f q0 (g & Hg & ->)%fmap_Some. by eapply symlink_leaves.
  - unfold generic_mknodat in E. vbind E as (? & s2 & E2 & E). vinv E2. destruct (_ || _); [by vinv E|].
    destruct (_ && _); [by vinv E|]. eapply on_path_balanced in E; [done..|]. intros m0 f q0 (g & Hg & ->)%fmap_Some. by eapply mknod_leaves.
  - eapply on_path_balanced in E; [done..|]. intros m0 f q0 (g & Hg & ->)%fmap_Some. by eapply mkdir_leaves.
  - eapply on_path_balanced in E; [done..|]. intros m0 f q0 (g & Hg & ->)%fmap_Some. by eapply rmdir_leaves.
  - eapply on_path_balanced in E; [done..|]. intros m0 f q0 (g & Hg & ->)%fmap_Some. by eapply setattr_leaves.
  - eapply on_path_balanced in E; [done..|]. intros m0 f q0 (g & Hg & ->)%fmap_Some. by eapply utime_leaves.
Qed.

End Balance.

(** ** Mount points as lists of components *)

Lemma render_cat a b : render (a ++ b) = render a ++ render b.
Proof. unfold render. by rewrite fmap_app, join_app. Qed.

(** A path begins with another, up to a slash or its end, if its components do. *)
Lemma prefix_components p q : Forall name_ok p -> Forall name_ok q ->
  bool_decide (take (length (render q)) (render p) = render q) &&
    ((char_at (render p) (length (render q)) =? slash)%char || (char_at (render p) (length (render q)) =? NUL)%char)
  = bool_decide (q `prefix_of` p).
Proof.
  intros Hp Hq. apply Bool.eq_iff_eq_true. rewrite andb_true_iff, !bool_decide_eq_true, orb_true_iff. split.
  - intros [E Hc]. pose proof (take_drop (length (render q)) (render p)) as Ht. rewrite E in Ht. unfold char_at in Hc.
    set (r := drop _ (render p)) in Ht. rewrite <- Ht in Hc. rewrite app_nth2, Nat.sub_diag in Hc by lia.
    pose proof (components_render p Hp) as Hcp. rewrite <- Ht in Hcp. destruct r as [|c r]; [rewrite app_nil_r, components_render in Hcp by done; by subst|].
    cbn in Hc. destruct Hc as [->%Ascii.eqb_eq| ->%Ascii.eqb_eq].
    + rewrite components_join, components_render in Hcp by done. rewrite <- Hcp. by apply prefix_app_r.
    + exfalso. apply (render_no_nul p Hp). rewrite <- Ht. set_solver.
  - intros [r ->]. rewrite render_cat. split; [by rewrite take_app_length|]. unfold char_at. rewrite app_nth2, Nat.sub_diag by lia.
    destruct r; [by right|by left].
Qed.

Section Points.
Context {F : Type} `{!System F}.
Implicit Types s : vfs F.

(** the rules for mount points, in terms of components: a path is on a mount if the mount's point is the path or one of the directories
    above it - so /usr/lib is on /usr, and /usrlocal is not - and a path contains a mount point if it is one or is above one,
    which is when it cannot be renamed or removed. *)
Theorem mount_points_spec s st : Forall name_ok st -> (forall m, m ∈ mounts s -> exists q, m_point m = render q /\ Forall name_ok q) ->
  (forall m q, m ∈ mounts s -> m_point m = render q -> Forall name_ok q -> on_mount (render st) m = bool_decide (q `prefix_of` st)) /\
  (contains_mount_point (render st) s = true <-> exists m q, m ∈ mounts s /\ m_point m = render (st ++ q)).
Proof.
  intros Hst Hm. split.
  - intros m q _ E Hq. unfold on_mount. rewrite E. by apply prefix_components.
  - unfold contains_mount_point. rewrite existsb_exists. split.
    + intros (m & Hin%list_elem_of_In & E). destruct (Hm m Hin) as (q & Hq & Hok). rewrite Hq, (orb_comm (_ =? NUL)%char), prefix_components in E by done.
      apply bool_decide_eq_true in E as [r ->]. eauto.
    + intros (m & q & Hin & E). exists m. split; [by apply list_elem_of_In|]. destruct (Hm m Hin) as (q' & Hq' & Hok).
      assert (q' = components (render (st ++ q))) as Eq by (rewrite <- E, Hq'; by rewrite components_render).
      rewrite Hq', (orb_comm (_ =? NUL)%char), prefix_components by done. apply bool_decide_eq_true.
      assert (exists r, q' = st ++ r) as [r ->]; [|by exists r]. rewrite Eq, render_cat. destruct (render_stops q) as [->|(w & ->)].
      * exists []. by rewrite !app_nil_r, components_render.
      * exists (components w). by rewrite components_join, components_render.
Qed.

(** ** Permissions *)

(** The bits that apply to a user: those of the owner, the group or others. *)
Definition class_shift (t : task) (stat : statbuf) : Z :=
  if euid t =? st_uid stat then 6 else if egid t =? st_gid stat then 3 else 0.

(** one permission at a time, [access_check] is that of Unix: the superuser has it, and others have it if the bit of their class -
    owner, else group, else others - is set.  Asked for reading and writing at once, as when a file is opened for both, it is content with either:
    a file that is only readable can be opened for writing. *)
Theorem access_check_spec t stat : superuser t = false ->
  (forall k, 0 <= k <= 2 -> access_check t stat (2 ^ k) = if Z.testbit (st_mode stat) (class_shift t stat + k) then 0 else _EACCES) /\
  (access_check t stat (Z.lor AC_R AC_W) = 0 <->
   Z.testbit (st_mode stat) (class_shift t stat + 2) = true \/ Z.testbit (st_mode stat) (class_shift t stat + 1) = true).
Proof.
  intros Hsu. set (sh := class_shift t stat). assert (0 <= sh) by (unfold sh, class_shift; repeat case_match; lia).
  assert (forall c, c <> 0 -> access_check t stat c = if Z.land (st_mode stat) (Z.shiftl c sh) =? 0 then _EACCES else 0) as E.
  { intros c Hc. unfold access_check. rewrite Hsu. destruct (Z.eqb_spec c 0); [done|]. unfold sh, class_shift. destruct (euid t =? st_uid stat), (egid t =? st_gid stat); try done; by rewrite Z.shiftl_0_r. }
  assert (forall k, 0 <= k -> (Z.land (st_mode stat) (Z.shiftl (2 ^ k) sh) =? 0) = negb (Z.testbit (st_mode stat) (sh + k))) as Eb.
  { intros k Hk. rewrite Z.shiftl_mul_pow2, <- Z.pow_add_r by lia. destruct (Z.eqb_spec (Z.land (st_mode stat) (2 ^ (k + sh))) 0) as [E0|E0].
    - apply (f_equal (fun z => Z.testbit z (k + sh))) in E0. rewrite Z.land_spec, Z.pow2_bits_true, andb_true_r, Z.bits_0 in E0 by lia. by rewrite Z.add_comm, E0.
    - destruct (Z.testbit (st_mode stat) (sh + k)) eqn:Et; [done|]. destruct E0. apply Z.bits_inj'. intros i Hi. rewrite Z.land_spec, Z.bits_0, Z.pow2_bits_eqb by lia.
      destruct (Z.eqb_spec (k + sh) i) as [<-|]; [|by rewrite andb_false_r]. by rewrite (Z.add_comm k), Et. }
  split.
  - intros k Hk. rewrite E by (pose proof (Z.pow_pos_nonneg 2 k); lia). rewrite Eb by lia. by destruct (Z.testbit (st_mode stat) (sh + k)).
  - change (Z.lor AC_R AC_W) with (Z.lor (2 ^ 2) (2 ^ 1)). rewrite E by done. rewrite Z.shiftl_lor, Z.land_lor_distr_r.
    pose proof (Eb 2 ltac:(lia)) as E2. pose proof (Eb 1 ltac:(lia)) as E1.
    destruct (Z.eqb_spec (Z.lor (Z.land (st_mode stat) (Z.shiftl (2 ^ 2) sh)) (Z.land (st_mode stat) (Z.shiftl (2 ^ 1) sh))) 0) as [E0|E0].
    + apply Z.lor_eq_0_iff in E0 as [E3 E4]. rewrite E3 in E2. rewrite E4 in E1. destruct (Z.testbit (st_mode stat) (sh + 2)), (Z.testbit (st_mode stat) (sh + 1)); try done. by split; [|intros [|]].
    + split; [intros _|done]. destruct (Z.testbit (st_mode stat) (sh + 2)); [by left|]. destruct (Z.testbit (st_mode stat) (sh + 1)); [by right|]. cbn in E1, E2.
      apply Z.eqb_eq in E1, E2. destruct E0. by rewrite E1, E2.
Qed.

(** [mount_param_flag] does not end if the option is not the first of several: the search moves to the comma and stays there. *)
Theorem mount_param_flag_hangs w rest c flag fuel : "," %char ∉ w -> c <> ","%char -> (forall k, take (length (c :: flag)) (w ++ k) <> c :: flag) ->
  mount_param_flag fuel (w ++ ","%char :: rest) (c :: flag) = None.
Proof.
  intros Hw Hc Hno. assert (forall fuel, mount_param_flag fuel (","%char :: rest) (c :: flag) = None) as H.
  { induction fuel0 as [|n IH]; [done|]. cbn [mount_param_flag]. rewrite bool_decide_false by (cbn; congruence). cbn [strcspn]. exact IH. }
  destruct fuel as [|fuel]; [done|]. cbn [mount_param_flag]. destruct (w ++ _) as [|x l] eqn:E; [by destruct w|]. rewrite <- E. rewrite bool_decide_false by apply Hno.
  assert (strcspn (w ++ ","%char :: rest) = length w) as ->.
  { clear -Hw. induction w as [|x w IH]; [done|]. apply not_elem_of_cons in Hw as [Hx Hw]. cbn [app strcspn length]. rewrite (proj2 (Ascii.eqb_neq x ",")) by congruence. by rewrite IH. }
  rewrite drop_app_length. apply H.
Qed.

(** a device whose major number is 256 or more is looked up outside of the table of devices. *)
Theorem device_overread dev kind f s : 256 <= dev_major dev -> dev_open (dev_major dev) (dev_minor dev) kind f s = Fault.
Proof.
  intros H. unfold dev_open. apply run_Fault. unfold in_bounds. destruct (Z.ltb_spec (dev_major dev) 256); [lia|]. by rewrite andb_false_r.
Qed.
(** The parts of a device number. *)
Lemma dev_roundtrip major minor : in_u 16 major -> in_u 16 minor ->
  dev_major (dev_make major minor) = major /\ dev_minor (dev_make major minor) = minor.
Proof.
  unfold in_u. intros Hma Hmi. unfold dev_major, dev_minor, dev_make. change 65535 with (Z.ones 16). rewrite !(Z.land_ones _ 16) by lia. rewrite (Z.mod_small major), (Z.mod_small minor) by lia.
  rewrite Z.shiftl_mul_pow2 by lia. rewrite wrap_small by (unfold in_u; lia).
  assert (Z.lor (major * 2 ^ 16) minor = major * 2 ^ 16 + minor) as ->.
  { symmetry. rewrite <- Z.shiftl_mul_pow2 by lia. apply Z.add_nocarry_lor.
    apply Z.bits_inj'; intros i Hi; rewrite Z.land_spec, Z.bits_0, Z.shiftl_spec by lia; destruct (Z.ltb_spec i 16);
      [rewrite Z.testbit_neg_r by lia; done|rewrite (Z.bits_above_log2 minor); [by rewrite andb_false_r|lia|]];
      destruct (Z.eq_dec minor 0) as [->|]; [cbn; lia|]; apply Z.log2_lt_pow2; [lia|]; (eapply Z.lt_le_trans; [apply Hmi|]); apply Z.pow_le_mono_r; lia. }
  rewrite Z.shiftr_div_pow2, Z.div_add_l, (Z.div_small minor), Z.add_0_r by lia. split; [apply Z.mod_small; lia|].
  rewrite Z.add_comm, Z_mod_plus_full. apply Z.mod_small. lia.
Qed.

End Points.

(** ** Seeking *)

Section Seek.
Context {F : Type} `{!System F}.
Implicit Types s : vfs F.

(** The state with the file at an offset. *)
Definition at_offset (f : Z) (x : fd) (o : Z) s : vfs F := set_fds (<[f := set_fd_offset o x]> (fds s)) s.

Lemma upd_fd_run f g s x : fds s !! f = Some x -> upd_fd f g s = Ret tt (set_fds (<[f := g x]> (fds s)) s).
Proof. intros H. unfold upd_fd. by rewrite (bind_step _ _ _ _ _ (get_fd_run _ _ _ H)). Qed.

(** seeking from the current position or the end moves the file by the distance, and refuses with [_EINVAL], changing nothing, when the result is
    negative or does not fit; but seeking from the start takes any number, so that a file can be put at a negative offset. *)
Theorem generic_seek_spec f off size s x : fds s !! f = Some x -> 0 <= fd_offset x < 2 ^ 63 -> 0 <= size < 2 ^ 63 -> in_s 64 off ->
  generic_seek f off FileLock.LSEEK_CUR size s =
    (if bool_decide (0 <= fd_offset x + off < 2 ^ 63) then Ret 0 (at_offset f x (fd_offset x + off) s) else Ret _EINVAL s) /\
  generic_seek f off FileLock.LSEEK_END size s =
    (if bool_decide (0 <= size + off < 2 ^ 63) then Ret 0 (at_offset f x (size + off) s) else Ret _EINVAL s) /\
  generic_seek f off FileLock.LSEEK_SET size s = Ret 0 (at_offset f x (u64 off) s).
Proof.
  intros Hx Ho Hs Hoff. unfold in_s in Hoff. unfold generic_seek. rewrite !(bind_step _ _ _ _ _ (get_fd_run _ _ _ Hx)). cbv zeta.
  change (FileLock.LSEEK_CUR =? FileLock.LSEEK_SET) with false. change (FileLock.LSEEK_CUR =? FileLock.LSEEK_CUR) with true.
  change (FileLock.LSEEK_END =? FileLock.LSEEK_SET) with false. change (FileLock.LSEEK_END =? FileLock.LSEEK_CUR) with false.
  change (FileLock.LSEEK_END =? FileLock.LSEEK_END) with true. change (FileLock.LSEEK_SET =? FileLock.LSEEK_SET) with true. cbn iota.
  split_and!; [| |by rewrite (bind_step _ _ _ _ _ (upd_fd_run _ _ _ _ Hx))].
  - rewrite swrap_small by (unfold in_s; lia). destruct (Z.ltb_spec (fd_offset x + off) 0); [rewrite orb_true_r, bool_decide_false by lia; done|].
    rewrite orb_false_r. unfold in_s. destruct (decide (fd_offset x + off < 2 ^ 63)).
    + rewrite !bool_decide_true by lia. cbn [negb]. rewrite wrap_small by (unfold in_u; lia). by rewrite (bind_step _ _ _ _ _ (upd_fd_run _ _ _ _ Hx)).
    + rewrite !bool_decide_false by lia. done.
  - destruct (decide (size + off < 2 ^ 63)) as [Hlt|Hge].
    + rewrite swrap_small by (unfold in_s; lia). destruct (Z.ltb_spec (size + off) 0); [by rewrite bool_decide_false by lia|].
      rewrite bool_decide_true by lia. rewrite wrap_small by (unfold in_u; lia). by rewrite (bind_step _ _ _ _ _ (upd_fd_run _ _ _ _ Hx)).
    + rewrite bool_decide_false by lia. assert (s64 (size + off) < 0) as Hneg.
      { unfold swrap. rewrite Z.mod_small by lia. destruct (Z.ltb_spec (size + off) (2 ^ (64 - 1))); lia. }
      by destruct (Z.ltb_spec (s64 (size + off)) 0); [|lia].
Qed.

End Seek.

(** ** Running the operations *)

Import Table.

#[export] Instance table_mount_laws : @MountLaws table _.
Proof. by split. Qed.

Lemma table_plain fs : plain_fs fs.
Proof. done. Qed.

Lemma do_mount_spec_witness : exists new s', do_mount 3 [] (cstr "/proc") [] 0 (state []) = Ret 0 s' /\ m_point new = cstr "/proc" /\
  fst <$> mount_of s' (cstr "/proc/self") = Some new /\ fst <$> mount_of s' (cstr "/process") = Some root_mount.
Proof.
  destruct (do_mount_spec 3 [] (cstr "/proc") [] 0 (state []) (table_plain 3) ltac:(repeat constructor)) as (new & s' & E & Hp & _ & _ & _ & Hm).
  exists new, s'. split; [exact E|]. split; [exact Hp|].
  assert (on_mount (cstr "/proc/self") new = true /\ on_mount (cstr "/process") new = false) as [E1 E2] by (unfold on_mount; rewrite Hp; vm_compute; done).
  pose proof (Hm (cstr "/proc/self")) as H1. pose proof (Hm (cstr "/process")) as H2. rewrite E1 in H1. rewrite E2 in H2.
  assert (forall p, p = cstr "/proc/self" \/ p = cstr "/process" -> exists r, mount_of (state []) p = Some (root_mount, r)) as Hr
    by (intros p [-> | ->]; eexists; vm_compute; reflexivity).
  destruct (Hr _ (or_introl eq_refl)) as [r1 Hr1]. destruct (Hr _ (or_intror eq_refl)) as [r2 Hr2]. rewrite Hr1 in H1. rewrite Hr2 in H2.
  destruct (mount_of s' (cstr "/proc/self")) as [[m1 q1]|]; [|done]. destruct (mount_of s' (cstr "/process")) as [[m2 q2]|]; [|done].
  destruct H1 as [-> _], H2 as [-> _]. split; reflexivity.
Defined.

Lemma mount_umount_roundtrip_witness : exists s1 s2, do_mount 3 [] (cstr "/proc") [] 0 (state []) = Ret 0 s1 /\
  do_umount (cstr "/proc") s1 = Ret 0 s2 /\ mounts s2 = [root_mount].
Proof.
  assert (exists s1, do_mount 3 [] (cstr "/proc") [] 0 (state []) = Ret 0 s1) as [s1 E] by (eexists; vm_compute; reflexivity).
  destruct (mount_umount_roundtrip 3 [] (cstr "/proc") [] 0 (state []) s1 (table_plain 3) ltac:(intros m ->%list_elem_of_singleton; done)
    ltac:(repeat constructor) E) as (s2 & H1 & H2).
  exists s1, s2. split; [exact E|]. split; [exact H1|exact H2].
Defined.

Lemma path_calls_balanced_witness : exists s', run_path_call (Rename AT_PWD (cstr "a") AT_PWD (cstr "b")) (state links) = Ret tt s' /\ mounts s' = [root_mount].
Proof.
  assert (exists s', run_path_call (Rename AT_PWD (cstr "a") AT_PWD (cstr "b")) (state links) = Ret tt s') as [s' E] by (eexists; vm_compute; reflexivity).
  exists s'. split; [exact E|]. exact (path_calls_balanced (Rename AT_PWD (cstr "a") AT_PWD (cstr "b")) (state links) tt s' (state_ok links) E).
Defined.

Definition two_mounts : vfs table := set_mounts [mk_mount 101 (cstr "/usr/lib") [] [] 0 0 0 None; root_mount] (state []).
Lemma mount_points_spec_witness : contains_mount_point (cstr "/usr") two_mounts = true.
Proof.
  assert (Forall name_ok [cstr "usr"]) as H1 by (repeat constructor; by apply (bool_decide_unpack _)).
  apply (mount_points_spec two_mounts [cstr "usr"] H1).
  - intros m [->|[->|[]%not_elem_of_nil]%elem_of_cons]%elem_of_cons; [exists [cstr "usr"; cstr "lib"]|exists []]; (split; [reflexivity|]);
      repeat constructor; by apply (bool_decide_unpack _).
  - exists (mk_mount 101 (cstr "/usr/lib") [] [] 0 0 0 None), [cstr "lib"]. split; [left|reflexivity].
Defined.

Lemma access_check_spec_witness :
  let stat := mk_statbuf 0 1 (Z.lor S_IFREG 292) 1 0 0 0 0 in (* 0444 *)
  access_check (user 1000) stat AC_W = _EACCES /\ access_check (user 1000) stat (Z.lor AC_R AC_W) = 0.
Proof.
  intros stat. destruct (access_check_spec (user 1000) stat eq_refl) as [H1 H2]. split; [exact (H1 1 ltac:(lia))|]. apply H2. left. reflexivity.
Defined.

Lemma mount_param_flag_hangs_witness : forall fuel, mount_param_flag fuel (cstr "ro,unsafe") (cstr "unsafe") = None.
Proof.
  intros fuel. apply (mount_param_flag_hangs (cstr "ro") (cstr "unsafe") "u" (cstr "nsafe") fuel); [by apply (bool_decide_unpack _)|done|].
  intros k. cbn. discriminate.
Defined.

Lemma device_overread_witness : dev_open (F := table) 256 0 DEV_CHAR 1 (state []) = Fault.
Proof. exact (device_overread (dev_make 256 0) DEV_CHAR 1 (state []) ltac:(done)). Defined.

Lemma generic_seek_spec_witness : generic_seek 1 (-5) FileLock.LSEEK_SET 0 (state []) = Ret 0 (at_offset 1 root_dir (2 ^ 64 - 5) (state [])) /\
  generic_seek 1 (-5) FileLock.LSEEK_CUR 0 (state []) = Ret _EINVAL (state []).
Proof. destruct (generic_seek_spec 1 (-5) 0 (state []) root_dir eq_refl ltac:(done) ltac:(done) ltac:(done)) as (H1 & _ & H2). split; [exact H2|exact H1]. Defined.
End Generic.
