(* ===== verification/Tmpfs.v ===== *)
(** * The memory file system (fs/tmp.c, util/refcount.h)

    tmpfs keeps a tree of reference-counted directory entries, each with a reference-counted inode.  It is an instance of
    the interface of [Vfs]: [tmpfs_ops] is the table [tmpfs], and the functions of [tmpfs_fdops] are the ones on open files. *)

From S2P Require Import Prelude Errno FileLock Vfs Path Fd Generic.

Module Tmpfs.
Import Errno Vfs Path Fd Generic.

(** ** State *)

(** [struct tmp_inode]; [ti_data] is the block [file_data] points to. *)
Record tmp_inode := mk_tmp_inode {
  ti_refcount : Z;
  ti_stat : statbuf;
  ti_data : list Z }.

(** [struct tmp_dirent]; [td_children] is the list of its entries, in order. *)
Record tmp_dirent := mk_tmp_dirent {
  td_name : path;
  td_inode : option Z;
  td_index : Z;
  td_parent : option Z;
  td_children : list Z;
  td_next_index : Z;
  td_refcount : Z }.

Definition set_ti_refcount (v : Z) (x : tmp_inode) : tmp_inode := mk_tmp_inode v (ti_stat x) (ti_data x).
Definition set_td_refcount (v : Z) (x : tmp_dirent) : tmp_dirent :=
  mk_tmp_dirent (td_name x) (td_inode x) (td_index x) (td_parent x) (td_children x) (td_next_index x) v.
Definition set_td_children (v : list Z) (x : tmp_dirent) : tmp_dirent :=
  mk_tmp_dirent (td_name x) (td_inode x) (td_index x) (td_parent x) v (td_next_index x) (td_refcount x).
Definition set_td_next_index (v : Z) (x : tmp_dirent) : tmp_dirent :=
  mk_tmp_dirent (td_name x) (td_inode x) (td_index x) (td_parent x) (td_children x) v (td_refcount x).

(** The objects by address, and the number of the next inode. *)
Record tmp_fs := mk_tmp_fs {
  nodes : gmap Z tmp_inode;
  dirents : gmap Z tmp_dirent;
  next_inode : Z }.

(** A state with a tmpfs in it: where it is, how the address of its [fd_ops] reads, and how much memory the host gives. *)
Class HasTmp (F : Type) := {
  get_tmp : F -> tmp_fs;
  put_tmp : tmp_fs -> F -> F;
  tmpfs_fdops : Z;
  realloc_succeeds : Z -> bool;
  get_put_tmp t x : get_tmp (put_tmp t x) = t;
  put_put_tmp t t' x : put_tmp t (put_tmp t' x) = put_tmp t x;
  put_get_tmp x : put_tmp (get_tmp x) x = x;
}.

Section WithTmp.
Context {F : Type} {SF : System F} {TF : HasTmp F}.

Definition tmp (s : vfs F) : tmp_fs := get_tmp (fsd s).
Definition set_tmp (t : tmp_fs) (s : vfs F) : vfs F := set_fsd (put_tmp t (fsd s)) s.
Definition set_nodes (v : gmap Z tmp_inode) (s : vfs F) : vfs F := set_tmp (mk_tmp_fs v (dirents (tmp s)) (next_inode (tmp s))) s.
Definition set_dirents (v : gmap Z tmp_dirent) (s : vfs F) : vfs F := set_tmp (mk_tmp_fs (nodes (tmp s)) v (next_inode (tmp s))) s.

Definition get_node (i : Z) : V F tmp_inode := let! s := gets id in deref (nodes (tmp s) !! i).
Definition upd_node (i : Z) (g : tmp_inode -> tmp_inode) : V F unit :=
  let! x := get_node i in modify (fun s => set_nodes (<[i := g x]> (nodes (tmp s))) s).
Definition get_dirent (d : Z) : V F tmp_dirent := let! s := gets id in deref (dirents (tmp s) !! d).
Definition upd_dirent (d : Z) (g : tmp_dirent -> tmp_dirent) : V F unit :=
  let! x := get_dirent d in modify (fun s => set_dirents (<[d := g x]> (dirents (tmp s))) s).
(** [dirent->inode], read through. *)
Definition dirent_node (x : tmp_dirent) : V F tmp_inode := let! i := deref (td_inode x) in get_node i.

(** ** Inodes *)

Definition tmp_inode_new (mode : Z) : V F Z :=
  let! node := malloc in
  let! s := gets id in
  let ino := next_inode (tmp s) in
  let stat := mk_statbuf 0 ino mode 0 (euid (current s)) (egid (current s)) 0 0 in
  modify (set_tmp (mk_tmp_fs (<[node := mk_tmp_inode 1 stat []]> (nodes (tmp s))) (dirents (tmp s)) (u64 (ino + 1)))) ;;
  ret node.

Definition tmp_inode_retain (i : Z) : V F Z :=
  upd_node i (fun x => set_ti_refcount (u32 (ti_refcount x + 1)) x) ;;
  ret i.
Definition tmp_inode_cleanup (i : Z) : V F unit := modify (fun s => set_nodes (delete i (nodes (tmp s))) s).
Definition tmp_inode_release (i : Z) : V F unit :=
  upd_node i (fun x => set_ti_refcount (u32 (ti_refcount x - 1)) x) ;;
  let! x := get_node i in
  if ti_refcount x =? 0 then tmp_inode_cleanup i else ret tt.

(** ** Directory entries *)

(** The links of the root are not initialised: taking it off a list is undefined. *)
Definition tmp_dirent_cleanup (d : Z) : V F unit :=
  let! x := get_dirent d in
  let! p := deref (td_parent x) in
  upd_dirent p (fun y => set_td_children (filter (fun c => c <> d) (td_children y)) y) ;;
  let! i := deref (td_inode x) in
  tmp_inode_release i ;;
  modify (fun s => set_dirents (delete d (dirents (tmp s))) s).

Definition tmp_dirent_retain (d : Z) : V F Z :=
  upd_dirent d (fun x => set_td_refcount (u32 (td_refcount x + 1)) x) ;;
  ret d.
Definition tmp_dirent_release (d : Z) : V F unit :=
  upd_dirent d (fun x => set_td_refcount (u32 (td_refcount x - 1)) x) ;;
  let! x := get_dirent d in
  if td_refcount x =? 0 then tmp_dirent_cleanup d else ret tt.

(** The result is the new entry, with a reference for the caller when [out] is set. *)
Definition tmpfs_dir_link (dir : Z) (name : path) (child : Z) (out : bool) : V F (Z + Z) :=
  let! x := get_dirent dir in
  let! n := dirent_node x in
  if negb (S_ISDIR (st_mode (ti_stat n))) then tmp_inode_release child ;; ret (inl _ENOTDIR)
  else
    let! new := malloc in
    in_bounds (strlen name <=? MAX_NAME) ;;
    let! child := tmp_inode_retain child in
    upd_dirent dir (fun x => set_td_next_index (u64 (td_next_index x + 1)) x) ;;
    let! parent := tmp_dirent_retain dir in
    modify (fun s => set_dirents (<[new := mk_tmp_dirent name (Some child) (td_next_index x) (Some parent) [] 0 1]> (dirents (tmp s))) s) ;;
    upd_dirent dir (fun x => set_td_children (td_children x ++ [new]) x) ;;
    (if out then let! _ := tmp_dirent_retain new in ret tt else ret tt) ;;
    ret (inr new).

Definition tmpfs_fd_seekdir (f : Z) (dirent : option Z) : V F unit :=
  match dirent with Some d => let! _ := tmp_dirent_retain d in ret tt | None => ret tt end ;;
  let! x := get_fd f in
  match fd_dir_pos x with Some d => tmp_dirent_release d | None => ret tt end ;;
  upd_fd f (set_fd_dir_pos dirent).

(** The loop over the children. *)
Fixpoint find_child (l : list Z) (name : path) : V F (option Z) :=
  match l with
  | [] => ret None
  | d :: l =>
      let! x := get_dirent d in
      match td_inode x with
      | None => find_child l name
      | Some _ => if bool_decide (td_name x = name) then ret (Some d) else find_child l name
      end
  end.

Definition tmpfs_dir_lookup (dir : Z) (name : path) : V F (Z + Z) :=
  let! x := get_dirent dir in
  let! n := dirent_node x in
  if negb (S_ISDIR (st_mode (ti_stat n))) then ret (inl _ENOTDIR)
  else
    let! dirent := find_child (td_children x) name in
    match dirent with
    | None => ret (inl _ENOENT)
    | Some d => let! d := tmp_dirent_retain d in ret (inr d)
    end.

Definition tmpfs_dir_lookup_existence (dir : Z) (name : path) : V F Z :=
  let! dirent := tmpfs_dir_lookup dir name in
  match dirent with
  | inl err => ret (if err =? _ENOENT then 0 else err)
  | inr d => tmp_dirent_release d ;; ret _EEXIST
  end.

(** The loop of [__tmpfs_lookup], which holds a reference to [dirent]; the result comes with the file name, which is the last
    component.  A component that is too long ends the loop with the reference still held. *)
Fixpoint lookup_loop (fuel : nat) (parent : bool) (dirent : Z) (component p : path) : V F (Z + Z * path) :=
  match fuel with
  | O => hang
  | S fuel =>
      match path_next_component p with
      | None => abort
      | Some path_end => ret (inr (dirent, component))
      | Some (path_error err) => ret (inl err)
      | Some (path_component c p) =>
          if parent && bool_decide (p = []) then ret (inr (dirent, c))
          else
            let! child := tmpfs_dir_lookup dirent c in
            tmp_dirent_release dirent ;;
            match child with
            | inl err => ret (inl err)
            | inr child => lookup_loop fuel parent child c p
            end
      end
  end.

Definition __tmpfs_lookup (mount : Z) (p : path) (parent : bool) : V F (Z + Z * path) :=
  let! m := get_mount mount in
  let! root := deref (m_data m) in
  let! dirent := tmp_dirent_retain root in
  lookup_loop (S (length p)) parent dirent [] p.

Definition tmpfs_lookup (mount : Z) (p : path) : V F (Z + Z) :=
  let! r := __tmpfs_lookup mount p false in
  ret (match r with inl err => inl err | inr (d, _) => inr d end).

(** A null pointer for the path "/". *)
Definition tmpfs_lookup_parent (mount : Z) (p : path) : V F (Z + option Z * path) :=
  if bool_decide (p = [slash]) then ret (inr (None, []))
  else
    let! r := __tmpfs_lookup mount p true in
    ret (match r with inl err => inl err | inr (d, name) => inr (Some d, name) end).

Definition tmpfs_file_resize (file size : Z) : V F Z :=
  let! x := get_node file in
  assert (S_ISREG (st_mode (ti_stat x))) ;;
  let old_size := st_size (ti_stat x) in
  if negb (realloc_succeeds size) then ret _ENOMEM
  else
    in_bounds ((old_size <=? Z.of_nat (length (ti_data x))) && (old_size <=? size)) ;;
    let data := take (Z.to_nat old_size) (ti_data x) ++ replicate (Z.to_nat (size - old_size)) 0 in
    upd_node file (fun x => mk_tmp_inode (ti_refcount x) (set_st_size size (ti_stat x)) data) ;;
    ret 0.

(** ** File system operations *)

Definition tmpfs_mount (m : mount) : V F (Z * mount) :=
  let! root_inode := tmp_inode_new (Z.lor S_IFDIR 511) in (* 0777 *)
  let! root := malloc in
  modify (fun s => set_dirents (<[root := mk_tmp_dirent [] (Some root_inode) 0 None [] 0 1]> (dirents (tmp s))) s) ;;
  ret (0, set_m_data (Some root) m).

(** A call of [TODO], which stops the program. *)
Definition tmpfs_umount (mount : Z) : V F Z := abort.

(** The branch for [O_CREAT_]. *)
Definition open_creat (mount : Z) (p : path) (flags mode : Z) : V F (Z + Z) :=
  let! r := tmpfs_lookup_parent mount p in
  match r with
  | inl err => ret (inl err)
  | inr (parent, filename) =>
      let! parent := deref parent in
      let! dirent := tmpfs_dir_lookup parent filename in
      let! dirent :=
        match dirent with
        | inr d => if has flags O_EXCL_ then tmp_dirent_release d ;; ret (inl _EEXIST) else ret (inr d)
        | inl err =>
            if err =? _ENOENT then
              let! inode := tmp_inode_new (Z.lor S_IFREG mode) in
              let! r := tmpfs_dir_link parent filename inode true in
              tmp_inode_release inode ;;
              match r with
              | inl _ => fault (* the release of an error number *)
              | inr d => ret (inr d)
              end
            else ret (inl err)
        end in
      tmp_dirent_release parent ;;
      ret dirent
  end.

Definition tmpfs_open (mount : Z) (p : path) (flags mode : Z) : V F (Z + Z) :=
  let! dirent := if has flags O_CREAT_ then open_creat mount p flags mode else tmpfs_lookup mount p in
  match dirent with
  | inl err => ret (inl err)
  | inr dirent =>
      let! f := fd_create tmpfs_fdops in
      upd_fd f (set_fd_dirent (Some dirent)) ;;
      upd_fd f (set_fd_dir_pos None) ;;
      let! x := get_dirent dirent in
      match td_children x with
      | [] => ret tt
      | first :: _ => tmpfs_fd_seekdir f (Some first)
      end ;;
      ret (inr f)
  end.

Definition tmpfs_stat (mount : Z) (p : path) : V F (Z + statbuf) :=
  let! dirent := tmpfs_lookup mount p in
  match dirent with
  | inl err => ret (inl err)
  | inr d =>
      let! x := get_dirent d in
      let! n := dirent_node x in
      tmp_dirent_release d ;;
      ret (inr (ti_stat n))
  end.

Definition tmpfs_close (f : Z) : V F Z :=
  let! x := get_fd f in
  let! d := deref (fd_dirent x) in
  tmp_dirent_release d ;;
  upd_fd f (set_fd_dirent None) ;;
  ret 0.

Definition tmpfs_mkdir (mount : Z) (p : path) (mode : Z) : V F Z :=
  let! r := tmpfs_lookup_parent mount p in
  match r with
  | inl err => ret err
  | inr (parent, filename) =>
      let! parent := deref parent in
      let! err := tmpfs_dir_lookup_existence parent filename in
      let! err :=
        if err <? 0 then ret err
        else
          let! inode := tmp_inode_new (Z.lor S_IFDIR mode) in
          let! r := tmpfs_dir_link parent filename inode false in
          ret (match r with inl err => err | inr _ => 0 end) in
      tmp_dirent_release parent ;;
      ret err
  end.

(** ** Operations on open files *)

Definition tmpfs_fd_inode (f : Z) : V F Z :=
  let! x := get_fd f in
  let! d := deref (fd_dirent x) in
  let! y := get_dirent d in
  deref (td_inode y).

(** The loop of [tmpfs_getpath]: [p] is the position in the buffer and [acc] the string there. *)
Fixpoint getpath_loop (fuel : nat) (dirent : Z) (name : path) (root : Z) (p : Z) (acc : path) : option (Z + path) :=
  match fuel with
  | O => None
  | S fuel =>
      if dirent =? root then Some (inr acc)
      else
        let p := p - (strlen name + 1) in
        if p <? 0 then Some (inl _ENAMETOOLONG) else getpath_loop fuel dirent name root p (slash :: name ++ acc)
  end.

Definition tmpfs_getpath (f : Z) : V F (Z + path) :=
  let! x := get_fd f in
  let! d := deref (fd_dirent x) in
  let! m := deref (fd_mount x) in
  let! m := get_mount m in
  let! root := deref (m_data m) in
  let! y := if d =? root then ret (mk_tmp_dirent [] None 0 None [] 0 0) else get_dirent d in
  match getpath_loop (S (Z.to_nat MAX_PATH)) d (td_name y) root (MAX_PATH - 1) [] with
  | Some r => ret r
  | None => hang
  end.

Definition tmpfs_fstat (f : Z) : V F (Z + statbuf) :=
  let! i := tmpfs_fd_inode f in
  let! n := get_node i in
  ret (inr (ti_stat n)).

(** [read] into a buffer of [bufsize] bytes: an error, or the bytes. *)
Definition tmpfs_read (f bufsize : Z) : V F (Z + list Z) :=
  let! i := tmpfs_fd_inode f in
  let! n := get_node i in
  let! x := get_fd f in
  if S_ISDIR (st_mode (ti_stat n)) then ret (inl _EISDIR)
  else
    assert (S_ISREG (st_mode (ti_stat n))) ;;
    let size := st_size (ti_stat n) in
    let off := fd_offset x in
    let bufsize :=
      if u64 (size - off) <? bufsize then (if size <=? off then 0 else u64 (size - off)) else bufsize in
    in_bounds ((bufsize =? 0) || (off + bufsize <=? Z.of_nat (length (ti_data n)))) ;;
    upd_fd f (set_fd_offset (u64 (off + bufsize))) ;;
    ret (inr (take (Z.to_nat bufsize) (drop (Z.to_nat off) (ti_data n)))).

(** [memcpy] of [buf] to the block at [off]. *)
Definition overwrite (off : Z) (buf data : list Z) : list Z :=
  take (Z.to_nat off) data ++ buf ++ drop (Z.to_nat off + length buf) data.

Definition tmpfs_write (f : Z) (buf : list Z) : V F Z :=
  let! i := tmpfs_fd_inode f in
  let! n := get_node i in
  let! x := get_fd f in
  if S_ISDIR (st_mode (ti_stat n)) then ret _EISDIR
  else
    assert (S_ISREG (st_mode (ti_stat n))) ;;
    let bufsize := Z.of_nat (length buf) in
    let off := fd_offset x in
    let! res := if st_size (ti_stat n) <? u64 (off + bufsize) then tmpfs_file_resize i (u64 (off + bufsize)) else ret 0 in
    if res <? 0 then ret res
    else
      let! n := get_node i in
      in_bounds ((bufsize =? 0) || (off + bufsize <=? Z.of_nat (length (ti_data n)))) ;;
      upd_node i (fun n => mk_tmp_inode (ti_refcount n) (ti_stat n) (overwrite off buf (ti_data n))) ;;
      upd_fd f (set_fd_offset (u64 (off + bufsize))) ;;
      ret bufsize.

Definition tmpfs_lseek (f off whence : Z) : V F Z :=
  let! size :=
    if whence =? FileLock.LSEEK_END then
      let! i := tmpfs_fd_inode f in
      let! n := get_node i in
      ret (st_size (ti_stat n))
    else ret 0 in
  let! err := generic_seek f off whence size in
  if err <? 0 then ret err
  else
    let! x := get_fd f in
    ret (s64 (fd_offset x)).

(** The entry behind [d] on a list. *)
Fixpoint next_of (d : Z) (l : list Z) : option Z :=
  match l with
  | [] => None
  | c :: l => if c =? d then head l else next_of d l
  end.

(** The result, and the entry with result 1.  On a file that is not a directory, locks that are not held are unlocked. *)
Definition tmpfs_readdir (f : Z) : V F (Z * option (Z * path)) :=
  let! x := get_fd f in
  let! parent := deref (fd_dirent x) in
  let! y := get_dirent parent in
  let! n := dirent_node y in
  if negb (S_ISDIR (st_mode (ti_stat n))) then fault
  else
    match fd_dir_pos x with
    | None => ret (0, None)
    | Some d =>
        get_dirent d ;;
        tmpfs_fd_seekdir f (next_of d (td_children y)) ;;
        let! z := get_dirent d in
        let! n := dirent_node z in
        in_bounds (strlen (td_name z) <=? 255) ;;
        ret (1, Some (st_inode (ti_stat n), td_name z))
    end.

Definition tmpfs_telldir (f : Z) : V F Z :=
  let! x := get_fd f in
  match fd_dir_pos x with
  | None => ret (u64 (-1))
  | Some d => let! y := get_dirent d in ret (td_index y)
  end.

(** The first child whose index is not below [ptr]. *)
Fixpoint child_from (l : list Z) (ptr : Z) : V F (option Z) :=
  match l with
  | [] => ret None
  | c :: l => let! x := get_dirent c in if ptr <=? td_index x then ret (Some c) else child_from l ptr
  end.

Definition tmpfs_seekdir (f ptr : Z) : V F unit :=
  let! x := get_fd f in
  let! dir := deref (fd_dirent x) in
  let! y := get_dirent dir in
  let! n := dirent_node y in
  assert (S_ISDIR (st_mode (ti_stat n))) ;;
  let! child := child_from (td_children y) ptr in
  tmpfs_fd_seekdir f child.

(** ** The tables *)

(** The result of an operation that only looks at the state. *)
Definition observe {A} (m : V F A) (s : vfs F) : option A := match m s with Ret a _ => Some a | _ => None end.

Definition tmpfs_ops (close_addr : Z) : fs_ops F := {|
  fs_name := cstr "tmpfs";
  fs_mount := Some tmpfs_mount; fs_umount := Some tmpfs_umount; fs_open := tmpfs_open; fs_readlink := None;
  fs_link := None; fs_unlink := None; fs_rmdir := None; fs_rename := None; fs_symlink := None; fs_mknod := None;
  fs_mkdir := Some tmpfs_mkdir; fs_close := Some (close_addr, tmpfs_close);
  fs_stat := fun m p => observe (tmpfs_stat m p); fs_fstat := fun f => observe (tmpfs_fstat f);
  fs_setattr := None; fs_utime := None; fs_getpath := fun f => observe (tmpfs_getpath f); fs_inode_orphaned := None |}.

Definition tmpfs_fd_ops : fd_ops F := {|
  ops_close := None; ops_getflags := None; ops_setflags := None;
  ops_lseek := Some (fun f => observe (tmpfs_lseek f 0 FileLock.LSEEK_CUR)) |}.

End WithTmp.

(** ** Steps *)

Section Steps.
Context {F : Type} {TF : HasTmp F}.
Implicit Types s : vfs F.

Lemma tmp_set_tmp t s : tmp (set_tmp t s) = t.
Proof. unfold tmp, set_tmp. destruct s. apply get_put_tmp. Qed.
Lemma set_tmp_set_tmp t t' s : set_tmp t (set_tmp t' s) = set_tmp t s.
Proof. unfold set_tmp, set_fsd. destruct s. cbn. f_equal. apply put_put_tmp. Qed.
Lemma set_tmp_tmp s : set_tmp (tmp s) s = s.
Proof. unfold set_tmp, tmp, set_fsd. destruct s. cbn. f_equal. apply put_get_tmp. Qed.
Lemma mounts_set_tmp t s : mounts (set_tmp t s) = mounts s. Proof. by destruct s. Qed.
Lemma next_set_tmp t s : next (set_tmp t s) = next s. Proof. by destruct s. Qed.
Lemma fds_set_tmp t s : fds (set_tmp t s) = fds s. Proof. by destruct s. Qed.
Lemma current_set_tmp t s : current (set_tmp t s) = current s. Proof. by destruct s. Qed.
Lemma tmp_set_next n s : tmp (set_next n s) = tmp s. Proof. by destruct s. Qed.
Lemma tmp_set_fds m s : tmp (set_fds m s) = tmp s. Proof. by destruct s. Qed.
Lemma set_next_set_tmp t n s : set_next n (set_tmp t s) = set_tmp t (set_next n s). Proof. by destruct s. Qed.
Lemma set_fds_set_tmp t m s : set_fds m (set_tmp t s) = set_tmp t (set_fds m s). Proof. by destruct s. Qed.
Lemma next_set_next n s : next (set_next n s) = n. Proof. by destruct s. Qed.
Lemma fds_set_fds m s : fds (set_fds m s) = m. Proof. by destruct s. Qed.
Lemma next_set_fds m s : next (set_fds m s) = next s. Proof. by destruct s. Qed.
Lemma fds_set_next n s : fds (set_next n s) = fds s. Proof. by destruct s. Qed.
Lemma current_set_next n s : current (set_next n s) = current s. Proof. by destruct s. Qed.
Lemma set_next_set_next n m s : set_next n (set_next m s) = set_next n s. Proof. by destruct s. Qed.

(** The tree with other entries. *)
Definition with_dirents (m : gmap Z tmp_dirent) (t : tmp_fs) : tmp_fs := mk_tmp_fs (nodes t) m (next_inode t).
Definition with_nodes (m : gmap Z tmp_inode) (t : tmp_fs) : tmp_fs := mk_tmp_fs m (dirents t) (next_inode t).

Lemma get_dirent_run d x s : dirents (tmp s) !! d = Some x -> get_dirent d s = Ret x s.
Proof. intros H. unfold get_dirent. rewrite (bind_step _ _ s s s) by done. by rewrite H. Qed.
Lemma get_node_run i n s : nodes (tmp s) !! i = Some n -> get_node i s = Ret n s.
Proof. intros H. unfold get_node. rewrite (bind_step _ _ s s s) by done. by rewrite H. Qed.
Lemma upd_dirent_run d x g s : dirents (tmp s) !! d = Some x ->
  upd_dirent d g s = Ret tt (set_tmp (with_dirents (<[d := g x]> (dirents (tmp s))) (tmp s)) s).
Proof. intros H. unfold upd_dirent. by rewrite (bind_step _ _ _ _ _ (get_dirent_run _ _ _ H)). Qed.
Lemma upd_node_run i n g s : nodes (tmp s) !! i = Some n ->
  upd_node i g s = Ret tt (set_tmp (with_nodes (<[i := g n]> (nodes (tmp s))) (tmp s)) s).
Proof. intros H. unfold upd_node. by rewrite (bind_step _ _ _ _ _ (get_node_run _ _ _ H)). Qed.
Lemma dirent_node_run x i n s : td_inode x = Some i -> nodes (tmp s) !! i = Some n -> dirent_node x s = Ret n s.
Proof. intros H1 H2. unfold dirent_node. rewrite H1, (bind_step _ _ s i s) by done. by apply get_node_run. Qed.
Lemma malloc_run s : malloc s = Ret (next s) (set_next (next s + 1) s).
Proof. done. Qed.
Lemma get_fd_step f x s : fds s !! f = Some x -> get_fd f s = Ret x s.
Proof. intros H. unfold get_fd. rewrite (bind_step _ _ s s s) by done. by rewrite H. Qed.
Lemma upd_fd_runs f x g s : fds s !! f = Some x -> upd_fd f g s = Ret tt (set_fds (<[f := g x]> (fds s)) s).
Proof. intros H. unfold upd_fd. by rewrite (bind_step _ _ _ _ _ (get_fd_step _ _ _ H)). Qed.

(** ** Holding a reference *)

Definition incr (x : tmp_dirent) : tmp_dirent := set_td_refcount (u32 (td_refcount x + 1)) x.
Definition held (d : Z) (t : tmp_fs) : tmp_fs := with_dirents (alter incr d (dirents t)) t.
Definition holding (d : Z) (s : vfs F) : vfs F := set_tmp (held d (tmp s)) s.

Lemma tmp_holding d s : tmp (holding d s) = held d (tmp s).
Proof. apply tmp_set_tmp. Qed.
Lemma held_comm d e t : held d (held e t) = held e (held d t).
Proof.
  unfold held, with_dirents. cbn. f_equal. destruct (decide (d = e)) as [->|Hne]; [done|]. by apply alter_alter_ne.
Qed.
Lemma holding_comm d e s : holding d (holding e s) = holding e (holding d s).
Proof. unfold holding. rewrite !tmp_set_tmp, !set_tmp_set_tmp. by rewrite held_comm. Qed.

Lemma retain_run d s : is_Some (dirents (tmp s) !! d) -> tmp_dirent_retain d s = Ret d (holding d s).
Proof.
  intros [x Hx]. unfold tmp_dirent_retain. rewrite (bind_step _ _ _ _ _ (upd_dirent_run _ _ _ _ Hx)). unfold ret, holding, held.
  repeat f_equal. apply map_eq. intros e. destruct (decide (d = e)) as [->|Hne].
  - by rewrite lookup_insert_eq, lookup_alter_eq, Hx.
  - by rewrite lookup_insert_ne, lookup_alter_ne by done.
Qed.

Lemma incr_back x : in_u 32 (td_refcount x) -> set_td_refcount (u32 (td_refcount (incr x) - 1)) (incr x) = x.
Proof.
  intros H. destruct x as [a b c d e f r]. unfold incr, set_td_refcount. cbn in *. f_equal. unfold wrap.
  rewrite Zminus_mod_idemp_l. replace (r + 1 - 1) with r by lia. apply Z.mod_small. exact H.
Qed.

(** Releasing a reference that was taken puts everything back. *)
Lemma release_holding d x s : dirents (tmp s) !! d = Some x -> 1 <= td_refcount x < 2 ^ 32 ->
  tmp_dirent_release d (holding d s) = Ret tt s.
Proof.
  intros Hx Hr. assert (dirents (tmp (holding d s)) !! d = Some (incr x)) as H1.
  { rewrite tmp_holding. unfold held. cbn. by rewrite lookup_alter_eq, Hx. }
  unfold tmp_dirent_release. rewrite (bind_step _ _ _ _ _ (upd_dirent_run _ _ _ _ H1)).
  assert (set_tmp (with_dirents (<[d:=set_td_refcount (u32 (td_refcount (incr x) - 1)) (incr x)]> (dirents (tmp (holding d s)))) (tmp (holding d s)))
    (holding d s) = s) as ->.
  { rewrite incr_back by (unfold in_u; lia). unfold holding. rewrite set_tmp_set_tmp, tmp_set_tmp. unfold held, with_dirents. cbn.
    assert (<[d:=x]> (alter incr d (dirents (tmp s))) = dirents (tmp s)) as ->.
    { apply map_eq. intros e. destruct (decide (d = e)) as [->|Hne]; [by rewrite lookup_insert_eq|].
      by rewrite lookup_insert_ne, lookup_alter_ne by done. }
    transitivity (set_tmp (tmp s) s); [|apply set_tmp_tmp]. f_equal. by destruct (tmp s). }
  rewrite (bind_step _ _ _ _ _ (get_dirent_run _ _ _ Hx)). destruct (Z.eqb_spec (td_refcount x) 0); [lia|done].
Qed.

End Steps.

(** ** The tree

    What a directory entry stands for, and what a path leads to. *)

(** The entry of a directory with a name, as [tmpfs_dir_lookup] finds it. *)
Definition named (t : tmp_fs) (name : path) (c : Z) : bool := bool_decide (td_name <$> dirents t !! c = Some name).
Definition node_of (t : tmp_fs) (d : Z) : option tmp_inode := x ← dirents t !! d; i ← td_inode x; nodes t !! i.
Definition child (t : tmp_fs) (d : Z) (name : path) : Z + Z :=
  match dirents t !! d, node_of t d with
  | Some x, Some n =>
      if S_ISDIR (st_mode (ti_stat n)) then
        match List.find (named t name) (td_children x) with Some c => inr c | None => inl _ENOENT end
      else inl _ENOTDIR
  | _, _ => inl _ENOENT
  end.
Fixpoint resolve (t : tmp_fs) (d : Z) (cs : list path) : Z + Z :=
  match cs with
  | [] => inr d
  | c :: cs => match child t d c with inl e => inl e | inr d => resolve t d cs end
  end.

(** Two entries of a directory, in order: their indices rise, and their names differ. *)
Definition before (t : tmp_fs) (a b : Z) : Prop := forall y z, dirents t !! a = Some y -> dirents t !! b = Some z ->
  td_index y < td_index z /\ td_name y <> td_name z.

(** What is true of a tree at every time.  Addresses grow, so a child is behind its parent. *)
Record wf (t : tmp_fs) (next : Z) : Prop := {
  wf_dirent d x : dirents t !! d = Some x -> d < next /\ 1 <= td_refcount x < 2 ^ 32 /\ strlen (td_name x) < MAX_NAME /\
    exists i n, td_inode x = Some i /\ nodes t !! i = Some n /\ (td_children x <> [] -> S_ISDIR (st_mode (ti_stat n)) = true);
  wf_child d x c : dirents t !! d = Some x -> c ∈ td_children x ->
    d < c /\ exists y, dirents t !! c = Some y /\ td_parent y = Some d /\ td_index y < td_next_index x;
  wf_parent c y p : dirents t !! c = Some y -> td_parent y = Some p -> exists x, dirents t !! p = Some x /\ c ∈ td_children x;
  wf_order d x : dirents t !! d = Some x -> 0 <= td_next_index x < 2 ^ 64 /\
    ForallOrdPairs (before t) (td_children x);
  wf_inode d e x y i : dirents t !! d = Some x -> dirents t !! e = Some y -> td_inode x = Some i -> td_inode y = Some i -> d = e;
  wf_node i n : nodes t !! i = Some n -> i < next /\ 1 <= ti_refcount n < 2 ^ 32 /\ in_u 64 (st_size (ti_stat n)) /\
    (S_ISREG (st_mode (ti_stat n)) = true -> Z.of_nat (length (ti_data n)) = st_size (ti_stat n)) }.

(** A name that fits. *)
Definition short (c : path) : Prop := (slash ∉ c) /\ strlen c < MAX_NAME /\ c <> [].

Lemma last_cons_default {A} (x : A) l a b : List.last (x :: l) a = List.last (x :: l) b.
Proof. revert x. induction l as [|y l IH]; intros x; [done|]. exact (IH y). Qed.

Section Lookup.
Context {F : Type} {TF : HasTmp F}.
Implicit Types s : vfs F.

Lemma held_lookup d t e : dirents (held d t) !! e = (fun x => if decide (d = e) then incr x else x) <$> dirents t !! e.
Proof.
  unfold held. cbn. destruct (decide (d = e)) as [->|Hne]; [by rewrite lookup_alter_eq|].
  rewrite lookup_alter_ne by done. by destruct (dirents t !! e).
Qed.
Lemma held_is_Some d t e : is_Some (dirents t !! e) -> is_Some (dirents (held d t) !! e).
Proof. rewrite held_lookup. intros [x ->]. by eexists. Qed.

Lemma wf_node_of t nx d x : wf t nx -> dirents t !! d = Some x -> exists i n, td_inode x = Some i /\ nodes t !! i = Some n /\ node_of t d = Some n.
Proof.
  intros W Hx. destruct (wf_dirent t nx W d x Hx) as (_ & _ & _ & i & n & Hi & Hn & _). exists i, n. split_and!; [done..|].
  unfold node_of. rewrite Hx. cbn. by rewrite Hi.
Qed.

Lemma child_Some t nx d name c : wf t nx -> child t d name = inr c -> exists x y, dirents t !! d = Some x /\ dirents t !! c = Some y /\
  c ∈ td_children x /\ td_name y = name /\ td_parent y = Some d /\ d < c.
Proof.
  intros W H. unfold child in H. destruct (dirents t !! d) as [x|] eqn:Hx; [|done]. destruct (node_of t d); [|done].
  destruct (S_ISDIR _); [|done]. destruct (List.find _ _) as [c'|] eqn:Hf; [|done]. injection H as <-.
  apply List.find_some in Hf as [Hin Hn]. apply list_elem_of_In in Hin. destruct (wf_child t nx W d x c' Hx Hin) as (Hlt & y & Hy & Hp & _).
  unfold named in Hn. rewrite Hy in Hn. apply bool_decide_eq_true in Hn. injection Hn as <-. by exists x, y.
Qed.
Lemma resolve_is_Some t nx d cs r : wf t nx -> is_Some (dirents t !! d) -> resolve t d cs = inr r -> is_Some (dirents t !! r).
Proof.
  intros W. revert d. induction cs as [|c cs IH]; intros d Hd H; cbn in H; [by injection H as <-|].
  destruct (child t d c) as [e|d'] eqn:Hc; [done|]. destruct (child_Some _ _ _ _ _ W Hc) as (x & y & _ & Hy & _). apply (IH d'); [by eexists|exact H].
Qed.

Lemma find_child_run l name s : (forall c, c ∈ l -> exists x i, dirents (tmp s) !! c = Some x /\ td_inode x = Some i) ->
  find_child l name s = Ret (List.find (named (tmp s) name) l) s.
Proof.
  induction l as [|c l IH]; intros H; [done|]. destruct (H c ltac:(left)) as (x & i & Hx & Hi). cbn [find_child List.find].
  rewrite (bind_step _ _ _ _ _ (get_dirent_run _ _ _ Hx)), Hi. unfold named at 1. rewrite Hx. cbn [fmap option_fmap option_map].
  rewrite (bool_decide_ext (td_name x = name) (Some (td_name x) = Some name)) by (split; congruence).
  destruct (bool_decide _); [done|]. apply IH. intros c' Hc'. apply H. by right.
Qed.

(** Looking a name up, with a reference held somewhere. *)
Lemma dir_lookup_run s nx d e name : wf (tmp s) nx -> is_Some (dirents (tmp s) !! e) ->
  tmpfs_dir_lookup e name (holding d s) =
    match child (tmp s) e name with inl err => Ret (inl err) (holding d s) | inr c => Ret (inr c) (holding c (holding d s)) end.
Proof.
  intros W [x Hx]. destruct (wf_node_of _ _ _ _ W Hx) as (i & n & Hi & Hn & Hnode).
  pose (x' := if decide (d = e) then incr x else x). assert (td_inode x' = Some i /\ td_children x' = td_children x) as [Hi' Hch]
    by (unfold x'; destruct (decide _); done).
  assert (dirents (tmp (holding d s)) !! e = Some x') as Hx' by (rewrite tmp_holding, held_lookup, Hx; done).
  assert (nodes (tmp (holding d s)) !! i = Some n) as Hn' by (by rewrite tmp_holding).
  unfold tmpfs_dir_lookup, child. rewrite Hx, Hnode, (bind_step _ _ _ _ _ (get_dirent_run _ _ _ Hx')), (bind_step _ _ _ _ _ (dirent_node_run _ _ _ _ Hi' Hn')).
  destruct (S_ISDIR _); cbn [negb]; [|done]. rewrite Hch.
  assert (forall c, c ∈ td_children x -> exists y j, dirents (tmp s) !! c = Some y /\ td_inode y = Some j) as Hc.
  { intros c Hc. destruct (wf_child _ _ W _ _ _ Hx Hc) as (_ & y & Hy & _). destruct (wf_node_of _ _ _ _ W Hy) as (j & m & Hj & _). eauto. }
  rewrite (bind_step _ _ (holding d s) (List.find (named (tmp s) name) (td_children x)) (holding d s)).
  - destruct (List.find _ _) as [c|] eqn:Hf; [|done]. apply List.find_some in Hf as [Hin%list_elem_of_In _].
    destruct (Hc c Hin) as (y & j & Hy & _). rewrite (bind_step _ _ (holding d s) c (holding c (holding d s))); [done|].
    apply retain_run. rewrite tmp_holding. apply held_is_Some. by eexists.
  - rewrite find_child_run.
    + f_equal. clear -TF. induction (td_children x) as [|c l IH]; [done|]. cbn [List.find]. rewrite IH. unfold named. rewrite tmp_holding, held_lookup.
      destruct (dirents (tmp s) !! c); [|done]. cbn. by destruct (decide (d = c)).
    + intros c Hin. destruct (Hc c Hin) as (y & j & Hy & Hj). rewrite tmp_holding, held_lookup, Hy. cbn.
      destruct (decide (d = c)); (eexists _, j; split; [reflexivity|done]).
Qed.

(** The reference moves from a directory to its entry. *)
Lemma release_parent s nx d c x : wf (tmp s) nx -> dirents (tmp s) !! d = Some x -> d <> c ->
  tmp_dirent_release d (holding c (holding d s)) = Ret tt (holding c s).
Proof.
  intros W Hx Hne. rewrite holding_comm. destruct (wf_dirent _ _ W _ _ Hx) as (_ & Hr & _).
  apply (release_holding d x); [|done]. rewrite tmp_holding, held_lookup, Hx. cbn. by destruct (decide (c = d)) as [->|].
Qed.

Lemma lookup_loop_run fuel s nx d comp cs : wf (tmp s) nx -> is_Some (dirents (tmp s) !! d) -> Forall short cs -> (length cs < fuel)%nat ->
  lookup_loop fuel false d comp (render cs) (holding d s) =
    match resolve (tmp s) d cs with inl e => Ret (inl e) s | inr r => Ret (inr (r, List.last cs comp)) (holding r s) end.
Proof.
  intros W. revert fuel d comp. induction cs as [|c cs IH]; intros [|fuel] d comp Hd Hs Hl; cbn in Hl; try lia; [done|].
  apply Forall_cons in Hs as [(Hc & Hlen & _) Hs]. cbn [lookup_loop resolve]. rewrite next_component_render by done.
  destruct (Z.ltb_spec (strlen c) MAX_NAME); [|lia]. cbn [andb]. unfold bind at 1. rewrite (dir_lookup_run s nx d d c W Hd).
  destruct Hd as [x Hx]. destruct (child (tmp s) d c) as [e|d'] eqn:Hch.
  - destruct (wf_dirent _ _ W _ _ Hx) as (_ & Hr & _). by rewrite (bind_step _ _ _ _ _ (release_holding d x s Hx Hr)).
  - destruct (child_Some _ _ _ _ _ W Hch) as (x1 & y & Hx1 & Hy & _ & _ & _ & Hlt).
    rewrite (bind_step _ _ _ _ _ (release_parent s nx d d' x W Hx ltac:(lia))). rewrite IH by (done || lia || by eexists).
    destruct (resolve _ _ _); [done|]. destruct cs; [done|]. by rewrite (last_cons_default _ _ c comp).
Qed.

Lemma lookup_parent_run fuel s nx d comp cs name : wf (tmp s) nx -> is_Some (dirents (tmp s) !! d) -> Forall short cs -> short name ->
  (length cs < fuel)%nat ->
  lookup_loop fuel true d comp (render (cs ++ [name])) (holding d s) =
    match resolve (tmp s) d cs with inl e => Ret (inl e) s | inr r => Ret (inr (r, name)) (holding r s) end.
Proof.
  intros W. revert fuel d comp. induction cs as [|c cs IH]; intros [|fuel] d comp Hd Hs Hn Hl; cbn in Hl; try lia.
  - cbn [lookup_loop resolve app]. destruct Hn as (Hn & Hlen & _). rewrite next_component_render by done.
    destruct (Z.ltb_spec (strlen name) MAX_NAME); [|lia]. done.
  - apply Forall_cons in Hs as [(Hc & Hlen & _) Hs]. cbn [lookup_loop resolve app]. rewrite next_component_render by done.
    destruct (Z.ltb_spec (strlen c) MAX_NAME); [|lia].
    rewrite (bool_decide_false (render (cs ++ [name]) = [])) by (rewrite render_app; by destruct (render cs)). cbn [andb].
    unfold bind at 1. rewrite (dir_lookup_run s nx d d c W Hd). destruct Hd as [x Hx]. destruct (child (tmp s) d c) as [e|d'] eqn:Hch.
    + destruct (wf_dirent _ _ W _ _ Hx) as (_ & Hr & _). by rewrite (bind_step _ _ _ _ _ (release_holding d x s Hx Hr)).
    + destruct (child_Some _ _ _ _ _ W Hch) as (x1 & y & Hx1 & Hy & _ & _ & _ & Hlt).
      rewrite (bind_step _ _ _ _ _ (release_parent s nx d d' x W Hx ltac:(lia))). apply IH; (done || lia || by eexists).
Qed.

End Lookup.

(** ** Adding an entry *)

(** A directory with one more entry. *)
Definition add_child (new : Z) (x : tmp_dirent) : tmp_dirent :=
  mk_tmp_dirent (td_name x) (td_inode x) (td_index x) (td_parent x) (td_children x ++ [new]) (u64 (td_next_index x + 1)) (u32 (td_refcount x + 1)).
(** The tree with entry [new] for the new inode [i] in directory [p], which was [x]. *)
Definition grown (t : tmp_fs) (p : Z) (x : tmp_dirent) (i new : Z) (n : tmp_inode) (name : path) (rc : Z) : tmp_fs :=
  mk_tmp_fs (<[i := n]> (nodes t))
    (<[new := mk_tmp_dirent name (Some i) (td_next_index x) (Some p) [] 0 rc]> (<[p := add_child new x]> (dirents t))) (u64 (next_inode t + 1)).
(** A new inode of a user. *)
Definition fresh_inode (t : tmp_fs) (u : task) (mode rc : Z) : tmp_inode :=
  mk_tmp_inode rc (mk_statbuf 0 (next_inode t) mode 0 (euid u) (egid u) 0 0) [].

Lemma tmp_fs_eq a b : nodes a = nodes b -> dirents a = dirents b -> next_inode a = next_inode b -> a = b.
Proof. destruct a, b. cbn. by intros -> -> ->. Qed.

Section Link.
Context {F : Type} {TF : HasTmp F}.
Variable s : vfs F.

(** The states on the way: another tree, and objects allocated. *)
Definition st (t : tmp_fs) (k : Z) : vfs F := set_tmp t (set_next k s).

Lemma tmp_st t k : tmp (st t k) = t. Proof. apply tmp_set_tmp. Qed.
Lemma next_st t k : next (st t k) = k. Proof. unfold st. by rewrite next_set_tmp, next_set_next. Qed.
Lemma set_tmp_st t t' k : set_tmp t (st t' k) = st t k. Proof. apply set_tmp_set_tmp. Qed.
Lemma st_self : st (tmp s) (next s) = s.
Proof. unfold st. rewrite <- (tmp_set_next (next s) s), set_tmp_tmp. by destruct s. Qed.
Lemma malloc_st t k : malloc (st t k) = Ret k (st t (k + 1)).
Proof. rewrite malloc_run, next_st. unfold st. by rewrite set_next_set_tmp, set_next_set_next. Qed.
Lemma upd_dirent_st t k d x g : dirents t !! d = Some x ->
  upd_dirent d g (st t k) = Ret tt (st (with_dirents (<[d := g x]> (dirents t)) t) k).
Proof. intros H. rewrite (upd_dirent_run d x) by (by rewrite tmp_st). by rewrite tmp_st, set_tmp_st. Qed.
Lemma upd_node_st t k i n g : nodes t !! i = Some n ->
  upd_node i g (st t k) = Ret tt (st (with_nodes (<[i := g n]> (nodes t)) t) k).
Proof. intros H. rewrite (upd_node_run i n) by (by rewrite tmp_st). by rewrite tmp_st, set_tmp_st. Qed.
Lemma retain_st t k d x : dirents t !! d = Some x ->
  tmp_dirent_retain d (st t k) = Ret d (st (with_dirents (<[d := incr x]> (dirents t)) t) k).
Proof. intros H. unfold tmp_dirent_retain. by rewrite (bind_step _ _ _ _ _ (upd_dirent_st t k d x _ H)). Qed.
Lemma retain_node_st t k i n : nodes t !! i = Some n ->
  tmp_inode_retain i (st t k) = Ret i (st (with_nodes (<[i := set_ti_refcount (u32 (ti_refcount n + 1)) n]> (nodes t)) t) k).
Proof. intros H. unfold tmp_inode_retain. by rewrite (bind_step _ _ _ _ _ (upd_node_st t k i n _ H)). Qed.
Lemma get_dirent_st t k d x : dirents t !! d = Some x -> get_dirent d (st t k) = Ret x (st t k).
Proof. intros H. apply get_dirent_run. by rewrite tmp_st. Qed.
Lemma dirent_node_st t k x i n : td_inode x = Some i -> nodes t !! i = Some n -> dirent_node x (st t k) = Ret n (st t k).
Proof. intros H1 H2. apply (dirent_node_run x i n); [done|]. by rewrite tmp_st. Qed.
Lemma holding_st d : holding d s = st (held d (tmp s)) (next s).
Proof. unfold st, holding. by destruct s. Qed.

Lemma inode_new_run t mode : tmp_inode_new mode (st t (next s)) =
  Ret (next s) (st (mk_tmp_fs (<[next s := fresh_inode t (current s) mode 1]> (nodes t)) (dirents t) (u64 (next_inode t + 1))) (next s + 1)).
Proof.
  unfold tmp_inode_new. rewrite (bind_step _ _ _ _ _ (malloc_st _ _)). rewrite (bind_step _ _ _ _ _ (eq_refl : gets id _ = Ret _ _)).
  unfold id. rewrite tmp_st. assert (current (st t (next s + 1)) = current s) as -> by (unfold st; by rewrite current_set_tmp, current_set_next).
  cbv zeta. rewrite (bind_step _ _ _ _ _ (eq_refl : modify _ _ = Ret tt _)). by rewrite set_tmp_st.
Qed.

Definition room (x : tmp_dirent) : Prop := td_refcount x + 2 < 2 ^ 32 /\ td_next_index x + 1 < 2 ^ 64.

Lemma link_run p x j m mode name out : wf (tmp s) (next s) -> dirents (tmp s) !! p = Some x -> td_inode x = Some j -> nodes (tmp s) !! j = Some m ->
  S_ISDIR (st_mode (ti_stat m)) = true -> room x -> strlen name <= MAX_NAME ->
  exists s1, tmp_inode_new mode (holding p s) = Ret (next s) s1 /\
  tmpfs_dir_link p name (next s) out s1 = Ret (inr (next s + 1))
    (st (held p (grown (tmp s) p x (next s) (next s + 1) (fresh_inode (tmp s) (current s) mode 2) name (if out then 2 else 1))) (next s + 2)).
Proof.
  intros W Hx Hj Hm Hdir [Hr _] Hname. destruct (wf_dirent _ _ W _ _ Hx) as (Hp & Hrx & _). destruct (wf_node _ _ W _ _ Hm) as (Hjn & _).
  assert (dirents (held p (tmp s)) !! p = Some (incr x)) as H0 by (rewrite held_lookup, Hx; cbn; by rewrite decide_True).
  rewrite holding_st, inode_new_run. eexists. split; [done|]. unfold tmpfs_dir_link. set (T := held p (tmp s)) in *.
  erewrite bind_step by (apply get_dirent_st; exact H0).
  erewrite bind_step by (apply (dirent_node_st _ _ _ j m); [done|]; cbn; by rewrite lookup_insert_ne by lia).
  rewrite Hdir. cbn [negb]. rewrite (bind_step _ _ _ _ _ (malloc_st _ _)).
  unfold in_bounds at 1. destruct (Z.leb_spec (strlen name) MAX_NAME); [|lia]. rewrite (bind_step _ _ _ _ _ (eq_refl : ret tt _ = Ret _ _)).
  erewrite bind_step by (apply retain_node_st; cbn; by rewrite lookup_insert_eq). cbn [nodes with_nodes].
  erewrite bind_step by (apply upd_dirent_st; exact H0). cbn [dirents with_dirents with_nodes].
  erewrite bind_step by (apply retain_st; cbn; by rewrite lookup_insert_eq). cbn [dirents with_dirents with_nodes].
  rewrite (bind_step _ _ _ _ _ (eq_refl : modify _ _ = Ret tt _)). unfold set_dirents. rewrite !tmp_st, set_tmp_st. cbn [dirents nodes next_inode with_dirents with_nodes].
  erewrite bind_step by (apply upd_dirent_st; cbn; rewrite lookup_insert_ne, lookup_insert_eq by lia; done). cbn [dirents with_dirents].
  replace (next s + 1 + 1) with (next s + 2) by lia.
  assert (forall rc, <[p := set_td_children (td_children x ++ [next s + 1]) (incr (set_td_next_index (u64 (td_next_index (incr x) + 1)) (incr x)))]>
    (<[next s + 1 := mk_tmp_dirent name (Some (next s)) (td_next_index (incr x)) (Some p) [] 0 rc]>
      (<[p := incr (set_td_next_index (u64 (td_next_index (incr x) + 1)) (incr x))]>
        (<[p := set_td_next_index (u64 (td_next_index (incr x) + 1)) (incr x)]> (dirents T)))) =
    dirents (held p (grown (tmp s) p x (next s) (next s + 1) (fresh_inode (tmp s) (current s) mode 2) name rc))) as E.
  { intros rc. apply map_eq. intros e. rewrite held_lookup. cbn [grown dirents]. destruct (decide (p = e)) as [<-|Hne].
    - rewrite lookup_insert_eq, lookup_insert_ne, lookup_insert_eq by lia. cbn. unfold add_child, incr, set_td_children, set_td_next_index, set_td_refcount.
      done.
    - rewrite lookup_insert_ne by done. destruct (decide (next s + 1 = e)) as [<-|Hne2]; [by rewrite !lookup_insert_eq|].
      rewrite !lookup_insert_ne by done. unfold T. rewrite held_lookup. by destruct (dirents (tmp s) !! e), (decide (p = e)). }
  assert (set_ti_refcount (u32 (ti_refcount (fresh_inode T (current s) mode 1) + 1)) (fresh_inode T (current s) mode 1) =
    fresh_inode (tmp s) (current s) mode 2) as EN by done.
  destruct out; unfold ret.
  - erewrite bind_step; [|erewrite bind_step; [reflexivity|]; apply retain_st; cbn; rewrite lookup_insert_ne, lookup_insert_eq by lia; reflexivity].
    apply (f_equal (fun t => Ret (inr (next s + 1)) (st t (next s + 2)))), tmp_fs_eq; [|rewrite <- E|done].
    + cbn [nodes with_dirents]. by rewrite EN, insert_insert_eq.
    + cbn [dirents with_dirents]. rewrite (insert_insert_ne _ (next s + 1) p), insert_insert_eq by lia. reflexivity.
  - rewrite (bind_step _ _ _ _ _ (eq_refl : Ret tt _ = Ret _ _)).
    apply (f_equal (fun t => Ret (inr (next s + 1)) (st t (next s + 2)))), tmp_fs_eq; [|by rewrite <- E|done].
    cbn [nodes with_dirents]. by rewrite EN, insert_insert_eq.
Qed.

End Link.

(** ** The tree after an entry is added *)

Section Grown.
Variables (t : tmp_fs) (nx p : Z) (x : tmp_dirent) (n : tmp_inode) (name : path) (rc : Z).
Context (W : wf t nx) (Hp : dirents t !! p = Some x).

Local Abbreviation new := (nx + 1).
Local Abbreviation G := (grown t p x nx new n name rc).

Lemma grown_lookup d : d <> new -> dirents G !! d = (fun y => if decide (d = p) then add_child new x else y) <$> dirents t !! d.
Proof.
  intros Hd. cbn. rewrite lookup_insert_ne by done. destruct (decide (d = p)) as [->|Hne]; [by rewrite lookup_insert_eq, Hp|].
  rewrite lookup_insert_ne by done. by destruct (dirents t !! d).
Qed.
Lemma grown_new : dirents G !! new = Some (mk_tmp_dirent name (Some nx) (td_next_index x) (Some p) [] 0 rc).
Proof. cbn. by rewrite lookup_insert_eq. Qed.
Lemma old_dirent d y : dirents t !! d = Some y -> d < new.
Proof. intros H. destruct (wf_dirent t nx W d y H). lia. Qed.
(** Every entry of the new tree is the new one, or an old one with its name, inode and parent. *)
Lemma grown_inv d y : dirents G !! d = Some y ->
  (d = new /\ y = mk_tmp_dirent name (Some nx) (td_next_index x) (Some p) [] 0 rc) \/
  (d <> new /\ exists y0, dirents t !! d = Some y0 /\ y = (if decide (d = p) then add_child new x else y0) /\
    td_inode y = td_inode y0 /\ td_name y = td_name y0 /\ td_parent y = td_parent y0 /\ td_index y = td_index y0).
Proof.
  intros H. destruct (decide (d = new)) as [->|Hd]; [left; rewrite grown_new in H; by injection H as <-|]. right. split; [done|].
  rewrite grown_lookup in H by done. destruct (dirents t !! d) as [y0|] eqn:E; [|done]. cbn in H. injection H as <-. exists y0. split; [done|].
  destruct (decide (d = p)) as [->|]; [|by split_and!]. rewrite Hp in E. injection E as <-. by split_and!.
Qed.
Lemma grown_old d y : dirents t !! d = Some y -> exists z, dirents G !! d = Some z /\ z = (if decide (d = p) then add_child new x else y) /\
  td_inode z = td_inode y /\ td_name z = td_name y /\ td_parent z = td_parent y /\ td_index z = td_index y.
Proof.
  intros H. pose proof (old_dirent _ _ H). rewrite grown_lookup, H by lia. eexists. split; [reflexivity|]. split; [done|].
  destruct (decide (d = p)) as [->|]; [|done]. rewrite Hp in H. by injection H as <-.
Qed.

Lemma grown_node_of d : is_Some (dirents t !! d) -> node_of G d = node_of t d.
Proof.
  intros [y Hy]. destruct (grown_old _ _ Hy) as (z & Hz & _ & Hi & _). unfold node_of. rewrite Hy, Hz. cbn. rewrite Hi.
  destruct (wf_dirent t nx W d y Hy) as (_ & _ & _ & i & m & Hi' & Hm & _). rewrite Hi'. cbn.
  destruct (wf_node t nx W i m Hm). by rewrite lookup_insert_ne by lia.
Qed.
Lemma grown_node_new : node_of G new = Some n.
Proof. unfold node_of. rewrite grown_new. cbn. by rewrite lookup_insert_eq. Qed.

Hypothesis Hnone : child t p name = inl _ENOENT.
Variable m : tmp_inode.
Hypothesis Hm : node_of t p = Some m.
Hypothesis Hdir : S_ISDIR (st_mode (ti_stat m)) = true.

Lemma find_app {A} (f : A -> bool) l a : List.find f (l ++ [a]) = match List.find f l with Some b => Some b | None => if f a then Some a else None end.
Proof. induction l as [|b l IH]; [done|]. cbn. by destruct (f b). Qed.

Lemma grown_named c l : (forall d, d ∈ l -> is_Some (dirents t !! d)) -> List.find (named G c) l = List.find (named t c) l.
Proof.
  induction l as [|d l IH]; intros H; [done|]. cbn [List.find]. rewrite IH by (intros e He; apply H; by right).
  destruct (H d ltac:(left)) as [y Hy]. destruct (grown_old _ _ Hy) as (z & Hz & _ & _ & Hn & _). unfold named. rewrite Hy, Hz. cbn. by rewrite Hn.
Qed.
Lemma no_such_name : List.find (named t name) (td_children x) = None.
Proof. unfold child in Hnone. rewrite Hp, Hm, Hdir in Hnone. by destruct (List.find _ _). Qed.

Lemma grown_child d c : is_Some (dirents t !! d) -> child G d c = if decide (d = p /\ c = name) then inr new else child t d c.
Proof.
  intros Hd. pose proof Hd as [y Hy]. destruct (grown_old _ _ Hy) as (z & Hz & Ez & _). unfold child. rewrite Hz, Hy, (grown_node_of d Hd).
  destruct (wf_node_of _ _ _ _ W Hy) as (i & k & _ & _ & Hk). rewrite Hk.
  assert (forall e, e ∈ td_children y -> is_Some (dirents t !! e)) as Hch.
  { intros e He. destruct (wf_child t nx W d y e Hy He) as (_ & w & Hw & _). by eexists. }
  destruct (decide (d = p)) as [->|Hne].
  - rewrite Hp in Hy. injection Hy as <-. rewrite Hm in Hk. injection Hk as <-. rewrite Hdir, Ez. cbn [td_children add_child].
    rewrite find_app, grown_named by done. unfold named at 2. rewrite grown_new. cbn. destruct (decide (p = p /\ c = name)) as [[_ ->]|Hnc].
    + rewrite no_such_name. by rewrite bool_decide_true.
    + destruct (List.find _ _); [done|]. rewrite bool_decide_false by naive_solver. done.
  - rewrite Ez, grown_named by done. rewrite decide_False by tauto. done.
Qed.
Lemma grown_child_new c : exists e, child G new c = inl e.
Proof.
  unfold child. rewrite grown_new, grown_node_new. destruct (S_ISDIR (st_mode (ti_stat n))); eexists; reflexivity.
Qed.

Lemma grown_before d y : dirents t !! d = Some y -> ForallOrdPairs (before t) (td_children y) -> ForallOrdPairs (before G) (td_children y).
Proof.
  intros Hy. apply FOP_impl. intros a b Ha Hb Hab u v Hu Hv.
  destruct (wf_child t nx W d y a Hy Ha) as (_ & a' & Ha' & _), (wf_child t nx W d y b Hy Hb) as (_ & b' & Hb' & _).
  destruct (grown_old _ _ Ha') as (u' & Hu1 & _ & _ & En1 & _ & Ei1), (grown_old _ _ Hb') as (v' & Hv1 & _ & _ & En2 & _ & Ei2).
  rewrite Hu1 in Hu. rewrite Hv1 in Hv. injection Hu as ->. injection Hv as ->. rewrite En1, En2, Ei1, Ei2. by apply Hab.
Qed.

Hypothesis Hroom : room x.
Hypothesis Hname : strlen name < MAX_NAME.
Hypothesis Hrc : 1 <= rc < 2 ^ 32.
Hypothesis Hn : 1 <= ti_refcount n < 2 ^ 32 /\ st_size (ti_stat n) = 0 /\ ti_data n = [].

Lemma wf_grown : wf G (nx + 2).
Proof.
  destruct Hroom as [Hr1 Hr2]. destruct (wf_dirent t nx W p x Hp) as (Hpn & Hrx & Hnm & i & m' & Hi & Hm' & _).
  assert (m' = m) as -> by (unfold node_of in Hm; rewrite Hp in Hm; cbn in Hm; rewrite Hi in Hm; cbn in Hm; congruence).
  destruct (wf_order t nx W p x Hp) as [Hidx Hord].
  assert (u64 (td_next_index x + 1) = td_next_index x + 1) as Hu by (apply wrap_small; unfold in_u; lia).
  assert (u32 (td_refcount x + 1) = td_refcount x + 1) as Hu2 by (apply wrap_small; unfold in_u; lia).
  split.
  - intros d y H. destruct (grown_inv _ _ H) as [[-> ->]|(Hd & y0 & H0 & Ey & Hi0 & Hn0 & _)].
    + split_and!; cbn; [lia..|done|]. exists nx, n. split; [done|]. rewrite lookup_insert_eq. done.
    + destruct (wf_dirent t nx W d y0 H0) as (? & ? & ? & j & k & Hj & Hk & Hc). destruct (wf_node t nx W j k Hk). rewrite Hn0, Hi0. split; [lia|].
      split; [rewrite Ey; destruct (decide (d = p)); cbn; lia|]. split; [done|]. exists j, k. split; [done|]. split; [cbn; by rewrite lookup_insert_ne by lia|].
      rewrite Ey. destruct (decide (d = p)) as [->|]; [|done]. intros _. rewrite Hp in H0. injection H0 as <-. congruence.
  - intros d y c H Hc. destruct (grown_inv _ _ H) as [[-> ->]|(Hd & y0 & H0 & Ey & _)]; [by apply not_elem_of_nil in Hc|].
    assert (c ∈ td_children y0 \/ (d = p /\ c = new)) as [Hin|[-> ->]].
    { rewrite Ey in Hc. destruct (decide (d = p)) as [->|]; [|by left]. rewrite Hp in H0. injection H0 as <-.
      cbn in Hc. apply elem_of_app in Hc as [?| ->%list_elem_of_singleton]; [by left|by right]. }
    + destruct (wf_child t nx W d y0 c H0 Hin) as (Hlt & z & Hz & Hpar & Hix). split; [done|].
      destruct (grown_old _ _ Hz) as (z' & Hz' & _ & _ & _ & Hp' & Hx'). exists z'. rewrite Hp', Hx'. split_and!; [done..|].
      rewrite Ey. destruct (decide (d = p)) as [->|]; [|done]. rewrite Hp in H0. injection H0 as <-. cbn. lia.
    + split; [lia|]. eexists. split; [apply grown_new|]. split; [done|]. rewrite Ey, decide_True by done. cbn. lia.
  - intros c y q H Hq. destruct (grown_inv _ _ H) as [[-> ->]|(Hd & y0 & H0 & Ey & _ & _ & Hpar & _)].
    + cbn in Hq. injection Hq as <-. destruct (grown_old _ _ Hp) as (z & Hz & Ez & _). exists z. split; [done|]. rewrite Ez, decide_True by done.
      cbn. apply elem_of_app. right. by apply list_elem_of_singleton.
    + rewrite Hpar in Hq. destruct (wf_parent t nx W c y0 q H0 Hq) as (w & Hw & Hin). destruct (grown_old _ _ Hw) as (z & Hz & Ez & _).
      exists z. split; [done|]. rewrite Ez. destruct (decide (q = p)) as [->|]; [|done]. rewrite Hp in Hw. injection Hw as <-. cbn. apply elem_of_app. by left.
  - intros d y H. destruct (grown_inv _ _ H) as [[-> ->]|(Hd & y0 & H0 & Ey & _)]; [split; [cbn; lia|constructor]|].
    destruct (wf_order t nx W d y0 H0) as [Hix0 Ho]. apply (grown_before d y0 H0) in Ho. rewrite Ey. destruct (decide (d = p)) as [->|]; [|done].
    rewrite Hp in H0. injection H0 as <-. cbn [td_next_index td_children add_child]. split; [lia|]. apply FOP_app. split_and!; [done|repeat constructor|].
    intros a b Ha ->%list_elem_of_singleton u v Hu' Hv. rewrite grown_new in Hv. injection Hv as <-.
    destruct (wf_child t nx W p x a Hp Ha) as (_ & a' & Ha' & _ & Hlt). destruct (grown_old _ _ Ha') as (u' & Hu1 & _ & _ & En & _ & Ei).
    rewrite Hu1 in Hu'. injection Hu' as ->. cbn. rewrite Ei, En. split; [lia|]. intros E.
    pose proof (List.find_none _ _ no_such_name a ltac:(by apply list_elem_of_In)) as Hf. unfold named in Hf. rewrite Ha' in Hf. cbn in Hf.
    rewrite bool_decide_true in Hf by congruence. done.
  - intros d e y z j H1 H2 Hj1 Hj2.
    assert (forall d y, dirents t !! d = Some y -> td_inode y <> Some nx) as Hfr.
    { intros d' y' Hy' E. destruct (wf_dirent t nx W d' y' Hy') as (_ & _ & _ & j' & k & Hj' & Hk & _). destruct (wf_node t nx W j' k Hk). rewrite E in Hj'.
      injection Hj' as <-. lia. }
    destruct (grown_inv _ _ H1) as [[-> ->]|(_ & y0 & H10 & _ & E1 & _)], (grown_inv _ _ H2) as [[-> ->]|(_ & z0 & H20 & _ & E2 & _)]; [done|..].
    + cbn in Hj1. injection Hj1 as <-. rewrite E2 in Hj2. by apply (Hfr _ _ H20) in Hj2.
    + cbn in Hj2. injection Hj2 as <-. rewrite E1 in Hj1. by apply (Hfr _ _ H10) in Hj1.
    + rewrite E1 in Hj1. rewrite E2 in Hj2. exact (wf_inode t nx W d e y0 z0 j H10 H20 Hj1 Hj2).
  - intros j k H. cbn in H. destruct (decide (nx = j)) as [<-|Hne].
    + rewrite lookup_insert_eq in H. injection H as <-. destruct Hn as (? & Hs & Hd0). rewrite Hs, Hd0. split; [lia|]. split; [lia|]. split; [unfold in_u; lia|done].
    + rewrite lookup_insert_ne in H by done. destruct (wf_node t nx W j k H) as (? & ? & ? & ?). split_and!; (lia || done).
Qed.

End Grown.

(** ** What a tmpfs promises

    A tree of files and directories by path, and what making a directory and creating a file do to it. *)

Record node := mk_node { n_mode : Z; n_uid : Z; n_gid : Z; n_data : list Z }.
Definition tree := list path -> option node.
Definition is_dir (n : node) : bool := S_ISDIR (n_mode n).

(** What a path leads to from [pre]: every component on the way is a directory. *)
Fixpoint spec_lookup (T : tree) (pre cs : list path) : Z + node :=
  match T pre with
  | None => inl _ENOENT
  | Some n =>
      match cs with
      | [] => inr n
      | c :: cs => if is_dir n then spec_lookup T (pre ++ [c]) cs else inl _ENOTDIR
      end
  end.
Definition tree_insert (q : list path) (n : node) (T : tree) : tree := fun q' => if decide (q' = q) then Some n else T q'.
(** The tree with a new entry, where there is none, or an error. *)
Definition spec_add (cs : list path) (name : path) (n : node) (T : tree) : Z + tree :=
  match spec_lookup T [] cs with
  | inl e => inl e
  | inr d =>
      if negb (is_dir d) then inl _ENOTDIR
      else match T (cs ++ [name]) with Some _ => inl _EEXIST | None => inr (tree_insert (cs ++ [name]) n T) end
  end.

(** The tree a state of the file system stands for. *)
Definition to_node (n : tmp_inode) : node := mk_node (st_mode (ti_stat n)) (st_uid (ti_stat n)) (st_gid (ti_stat n)) (ti_data n).
Definition abs (t : tmp_fs) (root : Z) : tree := fun q =>
  match resolve t root q with inl _ => None | inr d => to_node <$> node_of t d end.
Definition is_root (t : tmp_fs) (root : Z) : Prop := exists x, dirents t !! root = Some x /\ td_parent x = None.

Lemma resolve_app t d a b : resolve t d (a ++ b) = match resolve t d a with inl e => inl e | inr d => resolve t d b end.
Proof. revert d. induction a as [|c a IH]; intros d; [done|]. cbn. destruct (child t d c); [done|apply IH]. Qed.

Lemma resolve_error t nx d cs e : wf t nx -> is_Some (dirents t !! d) -> resolve t d cs = inl e -> e = _ENOENT \/ e = _ENOTDIR.
Proof.
  intros W. revert d. induction cs as [|c cs IH]; intros d Hd H; [done|]. cbn in H. destruct (child t d c) as [e'|d'] eqn:Hc.
  - injection H as ->. destruct Hd as [x Hx]. destruct (wf_node_of _ _ _ _ W Hx) as (i & n & _ & _ & Hn). unfold child in Hc. rewrite Hx, Hn in Hc.
    destruct (S_ISDIR _); [destruct (List.find _ _)|]; [done|left|right]; congruence.
  - destruct (child_Some _ _ _ _ _ W Hc) as (x & y & _ & Hy & _). apply (IH d'); [by eexists|done].
Qed.

Section Abs.
Variables (t : tmp_fs) (nx root : Z).
Context (W : wf t nx) (Hroot : is_root t root).

Lemma root_is_Some : is_Some (dirents t !! root).
Proof. destruct Hroot as (x & Hx & _). by eexists. Qed.

(** There is one path to an entry. *)
Lemma resolve_inj q1 q2 d : resolve t root q1 = inr d -> resolve t root q2 = inr d -> q1 = q2.
Proof.
  revert q2 d. induction q1 as [|c q1 IH] using rev_ind; intros q2 d; destruct q2 as [|c2 q2 _] using rev_ind; [done|..].
  - cbn. intros [= <-] H. rewrite resolve_app in H. destruct (resolve t root q2) as [|d2] eqn:E2; [done|]. cbn in H.
    destruct (child t d2 c2) as [|d'] eqn:Hc; [done|]. injection H as ->. destruct (child_Some _ _ _ _ _ W Hc) as (? & y & _ & Hy & _ & _ & Hpar & _).
    destruct Hroot as (x0 & Hx0 & Hnone). congruence.
  - cbn. intros H [= <-]. rewrite resolve_app in H. destruct (resolve t root q1) as [|d2] eqn:E2; [done|]. cbn in H.
    destruct (child t d2 c) as [|d'] eqn:Hc; [done|]. injection H as ->. destruct (child_Some _ _ _ _ _ W Hc) as (? & y & _ & Hy & _ & _ & Hpar & _).
    destruct Hroot as (x0 & Hx0 & Hnone). congruence.
  - rewrite !resolve_app. destruct (resolve t root q1) as [|d1] eqn:E1; [done|]. destruct (resolve t root q2) as [|d2] eqn:E2; [done|]. cbn.
    destruct (child t d1 c) as [|d1'] eqn:Hc1; [done|]. destruct (child t d2 c2) as [|d2'] eqn:Hc2; [done|]. intros [= ->] [= ->].
    destruct (child_Some _ _ _ _ _ W Hc1) as (x1 & y1 & _ & Hy1 & _ & Hn1 & Hp1 & _), (child_Some _ _ _ _ _ W Hc2) as (x2 & y2 & _ & Hy2 & _ & Hn2 & Hp2 & _).
    rewrite Hy1 in Hy2. injection Hy2 as <-. rewrite Hp1 in Hp2. injection Hp2 as <-. by rewrite (IH q2 d1 eq_refl E2), <- Hn1, <- Hn2.
Qed.

Lemma node_of_Some d : is_Some (dirents t !! d) -> exists n, node_of t d = Some n.
Proof. intros [x Hx]. destruct (wf_node_of _ _ _ _ W Hx) as (i & n & _ & _ & Hn). by exists n. Qed.

Lemma abs_lookup_from pre d cs : resolve t root pre = inr d ->
  spec_lookup (abs t root) pre cs =
    match resolve t d cs with inl e => inl e | inr r => match node_of t r with Some n => inr (to_node n) | None => inl _ENOENT end end.
Proof.
  revert pre d. induction cs as [|c cs IH]; intros pre d Hd; pose proof (resolve_is_Some _ _ _ _ _ W root_is_Some Hd) as Hs;
    destruct (node_of_Some d Hs) as [n Hn]; cbn [spec_lookup resolve]; unfold abs at 1; rewrite Hd, Hn; cbn [fmap option_fmap option_map]; [done|].
  unfold is_dir. change (n_mode (to_node n)) with (st_mode (ti_stat n)).
  assert (resolve t root (pre ++ [c]) = child t d c) as E by (rewrite resolve_app, Hd; cbn; by destruct (child t d c)).
  destruct Hs as [x Hx]. destruct (S_ISDIR (st_mode (ti_stat n))) eqn:Hdir.
  - destruct (child t d c) as [e|d'] eqn:Hc; [|by apply IH].
    assert (e = _ENOENT) as -> by (unfold child in Hc; rewrite Hx, Hn, Hdir in Hc; destruct (List.find _ _); congruence).
    destruct cs; cbn [spec_lookup]; unfold abs; by rewrite E.
  - unfold child. by rewrite Hx, Hn, Hdir.
Qed.
Lemma abs_lookup cs : spec_lookup (abs t root) [] cs =
  match resolve t root cs with inl e => inl e | inr r => match node_of t r with Some n => inr (to_node n) | None => inl _ENOENT end end.
Proof. by apply abs_lookup_from. Qed.

End Abs.

(** Where paths lead in a tree with one more entry. *)
Lemma grown_resolve t nx root p x n name rc cs m : wf t nx -> is_root t root -> dirents t !! p = Some x -> node_of t p = Some m ->
  S_ISDIR (st_mode (ti_stat m)) = true -> child t p name = inl _ENOENT -> resolve t root cs = inr p ->
  let G := grown t p x nx (nx + 1) n name rc in
  forall q, (q = cs ++ [name] /\ resolve G root q = inr (nx + 1)) \/
    (q <> cs ++ [name] /\ ((exists d, resolve G root q = inr d /\ resolve t root q = inr d) \/
                           (exists e e', resolve G root q = inl e /\ resolve t root q = inl e'))).
Proof.
  intros W Hroot Hp Hm Hdir Hnone Hcs G q. induction q as [|c q IH] using rev_ind; [right; split; [by destruct cs|left; by exists root]|].
  destruct IH as [[-> H]|[Hne [(d & H1 & H2)|(e & e' & H1 & H2)]]].
  - right. split; [intros E; apply (f_equal length) in E; rewrite !length_app in E; cbn in E; lia|]. right.
    destruct (grown_child_new t nx p x n name rc c) as [e He]. exists e. exists _ENOENT. rewrite (resolve_app G), H, !(resolve_app t), Hcs. cbn. rewrite Hnone. split; [|done].
    fold G in He. by rewrite He.
  - rewrite !resolve_app, H1, H2. cbn. rewrite (grown_child t nx p x n name rc W Hp Hnone m Hm Hdir) by exact (resolve_is_Some _ _ _ _ _ W (root_is_Some _ _ Hroot) H2).
    destruct (decide (d = p /\ c = name)) as [[-> ->]|Hno].
    + left. by rewrite (resolve_inj t nx root W Hroot q cs p H2 Hcs).
    + right. split; [intros [-> [= ->]]%app_inj_2; [apply Hno; split; [congruence|done]|done]|].
      destruct (child t d c) as [e|d']; [right; by eexists _, _|left; by eexists].
  - right. split; [intros [-> _]%app_inj_2; [congruence|done]|]. right. rewrite !resolve_app, H1, H2. by eexists _, _.
Qed.

(** The tree of a state with one more entry. *)
Lemma abs_grown t nx root p x n name rc cs m : wf t nx -> is_root t root -> dirents t !! p = Some x -> node_of t p = Some m ->
  S_ISDIR (st_mode (ti_stat m)) = true -> child t p name = inl _ENOENT -> resolve t root cs = inr p ->
  forall q, abs (grown t p x nx (nx + 1) n name rc) root q = tree_insert (cs ++ [name]) (to_node n) (abs t root) q.
Proof.
  intros W Hroot Hp Hm Hdir Hnone Hcs q. unfold abs, tree_insert.
  destruct (grown_resolve t nx root p x n name rc cs m W Hroot Hp Hm Hdir Hnone Hcs q) as [[-> ->]|[Hne [(d & -> & H2)|(e & e' & -> & ->)]]].
  - rewrite decide_True by done. by rewrite grown_node_new.
  - rewrite decide_False, H2 by done. by rewrite (grown_node_of t nx p x n name rc W Hp) by exact (resolve_is_Some _ _ _ _ _ W (root_is_Some _ _ Hroot) H2).
  - by rewrite decide_False.
Qed.

(** ** Trees of the same shape

    Reference counts and contents do not matter for where a path leads. *)

Record same_shape (t t' : tmp_fs) : Prop := {
  ss_dirent d : set_td_refcount 0 <$> dirents t !! d = set_td_refcount 0 <$> dirents t' !! d;
  ss_node i : st_mode ∘ ti_stat <$> nodes t !! i = st_mode ∘ ti_stat <$> nodes t' !! i }.

#[global] Instance same_shape_equiv : Equivalence same_shape.
Proof.
  split.
  - intros t. done.
  - intros t t' [H1 H2]. by split.
  - intros t t' t'' [H1 H2] [H3 H4]. split; intros; [by rewrite H1|by rewrite H2].
Qed.

Section Shape.
Variables (t t' : tmp_fs).
Context (S : same_shape t t').

Lemma shape_lookup d y : dirents t' !! d = Some y -> exists x, dirents t !! d = Some x /\ td_name y = td_name x /\ td_inode y = td_inode x /\
  td_index y = td_index x /\ td_parent y = td_parent x /\ td_children y = td_children x /\ td_next_index y = td_next_index x.
Proof.
  intros H. pose proof (ss_dirent _ _ S d) as E. rewrite H in E. destruct (dirents t !! d) as [x|]; [|done]. exists x. split; [done|].
  destruct x, y. cbn in E. by simplify_eq.
Qed.
Lemma shape_back d x : dirents t !! d = Some x -> exists y, dirents t' !! d = Some y /\ td_name y = td_name x /\ td_inode y = td_inode x /\
  td_index y = td_index x /\ td_parent y = td_parent x /\ td_children y = td_children x /\ td_next_index y = td_next_index x.
Proof.
  intros H. pose proof (ss_dirent _ _ S d) as E. rewrite H in E. destruct (dirents t' !! d) as [y|]; [|done]. exists y. split; [done|].
  destruct x, y. cbn in E. by simplify_eq.
Qed.
Lemma shape_none d : dirents t !! d = None -> dirents t' !! d = None.
Proof. intros H. pose proof (ss_dirent _ _ S d) as E. rewrite H in E. by destruct (dirents t' !! d). Qed.
Lemma shape_node_back i n : nodes t !! i = Some n -> exists m, nodes t' !! i = Some m /\ st_mode (ti_stat m) = st_mode (ti_stat n).
Proof.
  intros H. pose proof (ss_node _ _ S i) as E. rewrite H in E. destruct (nodes t' !! i) as [m|]; [|done]. exists m. split; [done|]. cbn in E. congruence.
Qed.
Lemma shape_mode d : st_mode ∘ ti_stat <$> node_of t d = st_mode ∘ ti_stat <$> node_of t' d.
Proof.
  unfold node_of. destruct (dirents t !! d) as [x|] eqn:E; [|by rewrite (shape_none d E)].
  destruct (shape_back d x E) as (y & -> & _ & Hi & _). cbn. rewrite Hi. destruct (td_inode x) as [i|]; [|done]. apply (ss_node _ _ S i).
Qed.
Lemma shape_child d c : child t d c = child t' d c.
Proof.
  unfold child. destruct (dirents t !! d) as [x|] eqn:E; [|by rewrite (shape_none d E)].
  destruct (shape_back d x E) as (y & -> & _ & Hi & _ & _ & Hc & _). pose proof (shape_mode d) as Hm.
  destruct (node_of t d) as [n|], (node_of t' d) as [m|]; cbn in Hm; [|discriminate Hm..|done]. injection Hm as ->. rewrite Hc. destruct (S_ISDIR _); [|done].
  assert (List.find (named t c) (td_children x) = List.find (named t' c) (td_children x)) as ->; [|done].
  clear Hc. induction (td_children x) as [|z l IH]; [done|]. cbn. rewrite IH. assert (named t c z = named t' c z) as ->; [|done]. unfold named.
  destruct (dirents t !! z) as [w|] eqn:Ew; [|by rewrite (shape_none z Ew)]. destruct (shape_back z w Ew) as (w' & -> & Hn & _). cbn. by rewrite Hn.
Qed.
Lemma shape_resolve d cs : resolve t d cs = resolve t' d cs.
Proof. revert d. induction cs as [|c cs IH]; intros d; [done|]. cbn. rewrite shape_child. destruct (child t' d c); [done|apply IH]. Qed.
Lemma shape_root d : is_root t d -> is_root t' d.
Proof. intros (x & Hx & Hp). destruct (shape_back d x Hx) as (y & Hy & _ & _ & _ & Hp' & _). exists y. by rewrite Hp'. Qed.

Lemma shape_wf nx nx' : wf t nx -> nx <= nx' -> (forall d y, dirents t' !! d = Some y -> 1 <= td_refcount y < 2 ^ 32) ->
  (forall i n, nodes t' !! i = Some n -> 1 <= ti_refcount n < 2 ^ 32 /\ in_u 64 (st_size (ti_stat n)) /\
    (S_ISREG (st_mode (ti_stat n)) = true -> Z.of_nat (length (ti_data n)) = st_size (ti_stat n))) -> wf t' nx'.
Proof.
  intros W Hnx Hrc Hn. split.
  - intros d y H. destruct (shape_lookup d y H) as (x & Hx & E1 & E2 & E3 & E4 & E5 & E6). destruct (wf_dirent t nx W d x Hx) as (? & ? & ? & i & n & Hi & Hni & Hd).
    destruct (shape_node_back i n Hni) as (m & Hm & Hmode). split; [lia|]. split; [by eapply Hrc|]. rewrite E1. split; [done|]. exists i, m. by rewrite E2, E5, Hmode.
  - intros d y c H Hc. destruct (shape_lookup d y H) as (x & Hx & E1 & E2 & E3 & E4 & E5 & E6). rewrite E5 in Hc.
    destruct (wf_child t nx W d x c Hx Hc) as (Hlt & z & Hz & Hp & Hi). split; [done|]. destruct (shape_back c z Hz) as (w & Hw & _ & _ & Eix & Ep & _).
    exists w. by rewrite E6, Eix, Ep.
  - intros c y p H Hp. destruct (shape_lookup c y H) as (x & Hx & E1 & E2 & E3 & E4 & E5 & E6). rewrite E4 in Hp.
    destruct (wf_parent t nx W c x p Hx Hp) as (z & Hz & Hin). destruct (shape_back p z Hz) as (w & Hw & _ & _ & _ & _ & Hc & _). exists w. by rewrite Hc.
  - intros d y H. destruct (shape_lookup d y H) as (x & Hx & E1 & E2 & E3 & E4 & E5 & E6). destruct (wf_order t nx W d x Hx) as [Hi Ho]. rewrite E5, E6.
    split; [done|]. revert Ho. apply FOP_impl. intros a b _ _ Hab u v Hu Hv.
    destruct (shape_lookup a u Hu) as (u' & Hu' & -> & _ & -> & _), (shape_lookup b v Hv) as (v' & Hv' & -> & _ & -> & _). by apply Hab.
  - intros d e y z i H1 H2 I1 I2. destruct (shape_lookup d y H1) as (y' & Hy' & _ & Ey & _), (shape_lookup e z H2) as (z' & Hz' & _ & Ez & _).
    apply (wf_inode t nx W d e y' z' i); congruence.
  - intros i m H. destruct (Hn i m H) as (? & ? & ?). split_and!; try done; try lia. pose proof (ss_node _ _ S i) as E. rewrite H in E.
    destruct (nodes t !! i) as [n|] eqn:En; [|done]. destruct (wf_node t nx W i n En). lia.
Qed.

End Shape.

Lemma held_shape d t : same_shape t (held d t).
Proof.
  split; [|done]. intros e. rewrite held_lookup. destruct (dirents t !! e) as [x|]; [|done]. cbn. by destruct (decide (d = e)), x.
Qed.
Lemma wf_held t nx d : wf t nx -> (forall x, dirents t !! d = Some x -> td_refcount x + 1 < 2 ^ 32) -> wf (held d t) nx.
Proof.
  intros W Hr. apply (shape_wf t (held d t) (held_shape d t) nx); [done|lia|..].
  - intros e y H. rewrite held_lookup in H. destruct (dirents t !! e) as [x|] eqn:Ex; [|done]. cbn in H. injection H as <-.
    destruct (wf_dirent t nx W e x Ex) as (_ & Hrx & _). destruct (decide (d = e)) as [->|]; [|done]. specialize (Hr x Ex). cbn. rewrite wrap_small; unfold in_u; lia.
  - intros i n H. destruct (wf_node t nx W i n H) as (? & ? & ? & ?). done.
Qed.
Lemma abs_held t d root q : abs (held d t) root q = abs t root q.
Proof.
  unfold abs. rewrite <- (shape_resolve _ _ (held_shape d t)). destruct (resolve t root q) as [e|r]; [done|]. unfold node_of. rewrite held_lookup.
  destruct (dirents t !! r) as [x|]; [|done]. cbn. by destruct (decide (d = r)).
Qed.

(** ** Making directories and opening files *)

Lemma render_length cs : Forall short cs -> (length cs <= length (render cs))%nat.
Proof.
  induction 1 as [|c cs Hc _ IH]; [done|]. change (render (c :: cs)) with ((slash :: c) ++ render cs). rewrite length_app. cbn. lia.
Qed.

Section Ops.
Context {F : Type} {TF : HasTmp F}.
Implicit Types s : vfs F.

Definition mounted s (a root : Z) : Prop := exists m, get_mount a s = Ret m s /\ m_data m = Some root.
(** A state of tmpfs mounted at [a] with its root, and room in the counters. *)
Record ready s (a root : Z) : Prop := {
  ready_wf : wf (tmp s) (next s);
  ready_mount : mounted s a root;
  ready_root : is_root (tmp s) root;
  ready_room d x : dirents (tmp s) !! d = Some x -> room x }.

Lemma lookup_run s a root p parent : mounted s a root -> is_root (tmp s) root ->
  __tmpfs_lookup a p parent s = lookup_loop (S (length p)) parent root [] p (holding root s).
Proof.
  intros (m & Hm & Hd) Hr. unfold __tmpfs_lookup. rewrite (bind_step _ _ _ _ _ Hm), Hd, (bind_step _ _ s root s) by done.
  by rewrite (bind_step _ _ _ _ _ (retain_run root s (root_is_Some _ _ Hr))).
Qed.

Lemma tmpfs_lookup_run s a root cs : ready s a root -> Forall short cs ->
  tmpfs_lookup a (render cs) s = match resolve (tmp s) root cs with inl e => Ret (inl e) s | inr r => Ret (inr r) (holding r s) end.
Proof.
  intros [W Hm Hr _] Hs. unfold tmpfs_lookup. unfold bind. rewrite (lookup_run s a root) by done. pose proof (render_length cs Hs).
  rewrite (lookup_loop_run _ s (next s)) by (done || lia || by apply root_is_Some). by destruct (resolve _ _ _).
Qed.
Lemma tmpfs_lookup_parent_run s a root cs name : ready s a root -> Forall short cs -> short name ->
  tmpfs_lookup_parent a (render (cs ++ [name])) s =
    match resolve (tmp s) root cs with inl e => Ret (inl e) s | inr r => Ret (inr (Some r, name)) (holding r s) end.
Proof.
  intros [W Hm Hr _] Hs Hn. unfold tmpfs_lookup_parent. rewrite bool_decide_false.
  - unfold bind. rewrite (lookup_run s a root) by done. pose proof (render_length (cs ++ [name]) ltac:(apply Forall_app; auto)) as Hl.
    rewrite length_app in Hl. cbn in Hl. rewrite (lookup_parent_run _ s (next s)) by (done || lia || by apply root_is_Some). by destruct (resolve _ _ _).
  - rewrite render_app. destruct Hn as (_ & _ & Hn). destruct (render cs) as [|? [|? ?]]; [|done..]. by destruct name.
Qed.

Lemma existence_run s nx p name : wf (tmp s) nx -> is_Some (dirents (tmp s) !! p) ->
  tmpfs_dir_lookup_existence p name (holding p s) =
    Ret (match child (tmp s) p name with inl e => if e =? _ENOENT then 0 else e | inr _ => _EEXIST end) (holding p s).
Proof.
  intros W Hp. unfold tmpfs_dir_lookup_existence, bind. rewrite (dir_lookup_run s nx) by done. destruct (child (tmp s) p name) as [e|c] eqn:Hc; [done|].
  destruct (child_Some _ _ _ _ _ W Hc) as (x & y & Hx & Hy & _ & _ & _ & Hlt). destruct (wf_dirent _ _ W _ _ Hy) as (_ & Hr & _).
  rewrite (release_holding c y); [done| |done]. rewrite tmp_holding, held_lookup, Hy. cbn. by rewrite decide_False by lia.
Qed.

(** The entry that was added, when the reference to its directory is given back. *)
Lemma release_grown s p x i new n name rc : dirents (tmp s) !! p = Some x -> p <> new -> 1 <= td_refcount x -> room x ->
  tmp_dirent_release p (st s (held p (grown (tmp s) p x i new n name rc)) (next s + 2)) =
    Ret tt (st s (grown (tmp s) p x i new n name rc) (next s + 2)).
Proof.
  intros Hx Hne Hr [Hroom _]. set (G := grown (tmp s) p x i new n name rc). replace (st s (held p G) (next s + 2)) with (holding p (st s G (next s + 2))).
  - apply (release_holding p (add_child new x)).
    + rewrite tmp_st. unfold G. cbn. by rewrite lookup_insert_ne, lookup_insert_eq by done.
    + cbn. rewrite wrap_small; unfold in_u; lia.
  - unfold holding. by rewrite tmp_st, set_tmp_st.
Qed.

Lemma child_error t nx p x n name e : wf t nx -> dirents t !! p = Some x -> node_of t p = Some n -> child t p name = inl e ->
  (S_ISDIR (st_mode (ti_stat n)) = true /\ e = _ENOENT) \/ (S_ISDIR (st_mode (ti_stat n)) = false /\ e = _ENOTDIR).
Proof.
  intros W Hx Hn H. unfold child in H. rewrite Hx, Hn in H. destruct (S_ISDIR _); [left|right; split; congruence]. destruct (List.find _ _); [done|]. split; congruence.
Qed.

Lemma child_dir t p x n name c : dirents t !! p = Some x -> node_of t p = Some n -> child t p name = inr c -> S_ISDIR (st_mode (ti_stat n)) = true.
Proof. intros Hx Hn H. unfold child in H. rewrite Hx, Hn in H. by destruct (S_ISDIR _). Qed.

(** C18: making a directory in a tmpfs is adding an empty directory, with the mode given and the user as its owner, at its path and
    nowhere else; the errors are those of the tree, and an error changes nothing.  The tree stays well formed. *)
Theorem tmpfs_mkdir_refines s a root cs name mode : ready s a root -> Forall short cs -> short name ->
  exists r s', tmpfs_mkdir a (render (cs ++ [name])) mode s = Ret r s' /\ wf (tmp s') (next s') /\
  match spec_add cs name (mk_node (Z.lor S_IFDIR mode) (euid (current s)) (egid (current s)) []) (abs (tmp s) root) with
  | inl e => r = e /\ s' = s
  | inr T => r = 0 /\ forall q, abs (tmp s') root q = T q
  end.
Proof.
  intros R Hs Hn. pose proof R as [W Hm Hr Hroom]. unfold tmpfs_mkdir, spec_add. rewrite (abs_lookup _ _ _ W Hr). unfold bind at 1.
  rewrite (tmpfs_lookup_parent_run s a root) by done. destruct (resolve (tmp s) root cs) as [e|p] eqn:Hcs; [by exists e, s|].
  pose proof (resolve_is_Some _ _ _ _ _ W (root_is_Some _ _ Hr) Hcs) as [x Hx]. destruct (wf_node_of _ _ _ _ W Hx) as (j & m & Hj & Hjm & Hnode). rewrite Hnode.
  destruct (wf_dirent _ _ W _ _ Hx) as (Hpn & Hrx & _). unfold is_dir. change (n_mode (to_node m)) with (st_mode (ti_stat m)).
  rewrite (bind_step _ _ (holding p s) p (holding p s)) by done. rewrite (bind_step _ _ _ _ _ (existence_run s _ p name W ltac:(by eexists))).
  assert (resolve (tmp s) root (cs ++ [name]) = child (tmp s) p name) as Eq by (rewrite resolve_app, Hcs; cbn; by destruct (child _ _ _)).
  destruct (child (tmp s) p name) as [e|c] eqn:Hc.
  - destruct (child_error _ _ _ _ _ _ _ W Hx Hnode Hc) as [[Hdir ->]|[Hdir ->]]; rewrite Hdir; cbn [negb].
    + change (_ENOENT =? _ENOENT) with true. cbn iota. change (0 <? 0) with false. cbn iota.
      destruct (link_run s p x j m (Z.lor S_IFDIR mode) name false W Hx Hj Hjm Hdir (Hroom _ _ Hx) ltac:(destruct Hn; lia)) as (s1 & E1 & E2).
      erewrite bind_step by (rewrite (bind_step _ _ _ _ _ E1), (bind_step _ _ _ _ _ E2); reflexivity).
      set (n := fresh_inode (tmp s) (current s) (Z.lor S_IFDIR mode) 2) in *.
      erewrite bind_step by (apply release_grown; (done || lia || by eapply Hroom)). eexists _, _. split; [reflexivity|]. rewrite tmp_st, next_st.
      split; [apply (wf_grown _ _ _ _ _ _ _ W Hx Hc m); (done || destruct Hn; lia || by eapply Hroom)|].
      assert (abs (tmp s) root (cs ++ [name]) = None) as -> by (unfold abs; by rewrite Eq). split; [done|].
      intros q. by rewrite (abs_grown _ _ _ _ _ _ _ _ cs m W Hr Hx Hnode Hdir Hc Hcs).
    + change (_ENOTDIR =? _ENOENT) with false. cbn iota. change (_ENOTDIR <? 0) with true. cbn iota. rewrite (bind_step _ _ _ _ _ (eq_refl : ret _ _ = Ret _ _)).
      rewrite (bind_step _ _ _ _ _ (release_holding p x s Hx Hrx)). by exists _ENOTDIR, s.
  - destruct (child_Some _ _ _ _ _ W Hc) as (x0 & y & _ & Hy & _).
    destruct (node_of_Some _ _ W c ltac:(by eexists)) as [k Hk].
    assert (abs (tmp s) root (cs ++ [name]) = Some (to_node k)) as -> by (unfold abs; by rewrite Eq, Hk).
    assert (S_ISDIR (st_mode (ti_stat m)) = true) as Hdir by exact (child_dir _ _ _ _ _ _ Hx Hnode Hc).
    rewrite Hdir. cbn [negb]. change (_EEXIST <? 0) with true. cbn iota. rewrite (bind_step _ _ _ _ _ (eq_refl : ret _ _ = Ret _ _)).
    rewrite (bind_step _ _ _ _ _ (release_holding p x s Hx Hrx)). by exists _EEXIST, s.
Qed.

(** Opening: an error, or the tree afterwards. *)
Definition spec_open (creat excl : bool) (cs : list path) (name : path) (n : node) (T : tree) : Z + tree :=
  if creat then
    match spec_add cs name n T with inr T' => inr T' | inl e => if (e =? _EEXIST) && negb excl then inr T else inl e end
  else match spec_lookup T [] (cs ++ [name]) with inl e => inl e | inr _ => inr T end.

(** The entry a path was opened at, with the reference that is held to it; [s0] is the state without the reference. *)
Record opened s root q (T : tree) (d : Z) (s0 : vfs F) : Prop := {
  op_wf : wf (tmp s0) (next s0);
  op_resolve : resolve (tmp s0) root q = inr d;
  op_abs q' : abs (tmp s0) root q' = T q';
  op_fds : fds s0 = fds s;
  op_next : next s <= next s0;
  op_room d x : dirents (tmp s0) !! d = Some x -> td_refcount x + 1 < 2 ^ 32;
  op_some : is_Some (dirents (tmp s0) !! d) }.

Lemma opened_there s a root q d : ready s a root -> resolve (tmp s) root q = inr d -> opened s root q (abs (tmp s) root) d s.
Proof.
  intros [W Hm Hr Hroom] H. split; try done; try lia; [|exact (resolve_is_Some _ _ _ _ _ W (root_is_Some _ _ Hr) H)].
  intros e x Hx. destruct (Hroom e x Hx). lia.
Qed.

Lemma held_grown t p x i new n name : p <> new -> held new (grown t p x i new n name 1) = grown t p x i new n name 2.
Proof.
  intros Hne. apply tmp_fs_eq; [done| |done]. apply map_eq. intros e. rewrite held_lookup. cbn. destruct (decide (new = e)) as [<-|H].
  - rewrite !lookup_insert_eq. done.
  - rewrite !(lookup_insert_ne _ new e) by done. by destruct (<[p:=_]> _ !! e).
Qed.
Lemma grown_node t p x i new n n' name rc : with_nodes (<[i := n']> (nodes (grown t p x i new n name rc))) (grown t p x i new n name rc) = grown t p x i new n' name rc.
Proof. apply tmp_fs_eq; [|done..]. cbn. by rewrite insert_insert_eq. Qed.
Lemma held_with_nodes p t v : with_nodes v (held p t) = held p (with_nodes v t).
Proof. done. Qed.

Lemma release_node_st s t k i n : nodes t !! i = Some n -> 1 < ti_refcount n < 2 ^ 32 ->
  tmp_inode_release i (st s t k) = Ret tt (st s (with_nodes (<[i := set_ti_refcount (u32 (ti_refcount n - 1)) n]> (nodes t)) t) k).
Proof.
  intros Hn Hr. unfold tmp_inode_release. rewrite (bind_step _ _ _ _ _ (upd_node_st s t k i n _ Hn)).
  erewrite bind_step by (apply get_node_run; rewrite tmp_st; cbn; by rewrite lookup_insert_eq). cbn [ti_refcount set_ti_refcount].
  rewrite wrap_small by (unfold in_u; lia). destruct (Z.eqb_spec (ti_refcount n - 1) 0); [lia|done].
Qed.

Lemma open_creat_run s a root cs name flags mode : ready s a root -> Forall short cs -> short name ->
  let n := mk_node (Z.lor S_IFREG mode) (euid (current s)) (egid (current s)) [] in
  match spec_open true (has flags O_EXCL_) cs name n (abs (tmp s) root) with
  | inl e => open_creat a (render (cs ++ [name])) flags mode s = Ret (inl e) s
  | inr T => exists d s0, open_creat a (render (cs ++ [name])) flags mode s = Ret (inr d) (holding d s0) /\ opened s root (cs ++ [name]) T d s0
  end.
Proof.
  intros R Hs Hn n. pose proof R as [W Hm Hr Hroom]. unfold open_creat, spec_open, spec_add. rewrite (abs_lookup _ _ _ W Hr).
  pose proof (tmpfs_lookup_parent_run s a root cs name R Hs Hn) as EL. destruct (resolve (tmp s) root cs) as [e|p] eqn:Hcs.
  { rewrite (bind_step _ _ _ _ _ EL). destruct (resolve_error _ _ _ _ _ W (root_is_Some _ _ Hr) Hcs) as [->| ->]; done. }
  rewrite (bind_step _ _ _ _ _ EL).
  pose proof (resolve_is_Some _ _ _ _ _ W (root_is_Some _ _ Hr) Hcs) as [x Hx]. destruct (wf_node_of _ _ _ _ W Hx) as (j & m & Hj & Hjm & Hnode). rewrite Hnode.
  destruct (wf_dirent _ _ W _ _ Hx) as (Hpn & Hrx & _). unfold is_dir. change (n_mode (to_node m)) with (st_mode (ti_stat m)).
  rewrite (bind_step _ _ (holding p s) p (holding p s)) by done. pose proof (dir_lookup_run s _ p p name W ltac:(by eexists)) as EC.
  assert (resolve (tmp s) root (cs ++ [name]) = child (tmp s) p name) as Eq by (rewrite resolve_app, Hcs; cbn; by destruct (child _ _ _)).
  destruct (child (tmp s) p name) as [e|c] eqn:Hc; rewrite (bind_step _ _ _ _ _ EC).
  - destruct (child_error _ _ _ _ _ _ _ W Hx Hnode Hc) as [[Hdir ->]|[Hdir ->]]; rewrite Hdir; cbn [negb].
    + change (_ENOENT =? _ENOENT) with true. cbn iota. assert (abs (tmp s) root (cs ++ [name]) = None) as -> by (unfold abs; by rewrite Eq).
      destruct (link_run s p x j m (Z.lor S_IFREG mode) name true W Hx Hj Hjm Hdir (Hroom _ _ Hx) ltac:(destruct Hn; lia)) as (s1 & E1 & E2).
      erewrite bind_step.
      2: { rewrite (bind_step _ _ _ _ _ E1), (bind_step _ _ _ _ _ E2). erewrite bind_step; [reflexivity|]. apply release_node_st; [cbn; by rewrite lookup_insert_eq|cbn; lia]. }
      rewrite held_with_nodes. change (nodes (held p ?g)) with (nodes g). rewrite grown_node. change (set_ti_refcount _ _) with (fresh_inode (tmp s) (current s) (Z.lor S_IFREG mode) 1).
      set (k := fresh_inode (tmp s) (current s) (Z.lor S_IFREG mode) 1).
      erewrite bind_step by (apply release_grown; (done || lia || by eapply Hroom)).
      exists (next s + 1), (st s (grown (tmp s) p x (next s) (next s + 1) k name 1) (next s + 2)). split.
      { unfold ret, holding. by rewrite tmp_st, set_tmp_st, held_grown by lia. }
      split; rewrite ?tmp_st, ?next_st; try lia.
      * apply (wf_grown _ _ _ _ _ _ _ W Hx Hc m); (done || destruct Hn; lia || by eapply Hroom).
      * by destruct (grown_resolve _ _ _ _ _ k name 1 cs m W Hr Hx Hnode Hdir Hc Hcs (cs ++ [name])) as [[_ H]|[H _]].
      * intros q'. by rewrite (abs_grown _ _ _ _ _ _ _ _ cs m W Hr Hx Hnode Hdir Hc Hcs).
      * unfold st. by rewrite fds_set_tmp, fds_set_next.
      * intros d z Hz. destruct (grown_inv _ _ _ _ _ _ _ Hx _ _ Hz) as [[_ ->]|(_ & z0 & Hz0 & -> & _)]; [cbn; lia|]. destruct (Hroom _ _ Hz0), (Hroom _ _ Hx).
        destruct (decide (d = p)); [|lia]. cbn. rewrite wrap_small; unfold in_u; lia.
      * rewrite grown_new. by eexists.
    + change (_ENOTDIR =? _ENOENT) with false. change (_ENOTDIR =? _EEXIST) with false. cbn [andb]. rewrite (bind_step _ _ _ _ _ (eq_refl : ret _ _ = Ret _ _)).
      by rewrite (bind_step _ _ _ _ _ (release_holding p x s Hx Hrx)).
  - destruct (child_Some _ _ _ _ _ W Hc) as (x0 & y & Hx0 & Hy & Hin & _ & _ & Hlt). rewrite Hx in Hx0. injection Hx0 as <-.
    destruct (node_of_Some _ _ W c ltac:(by eexists)) as [k Hk].
    assert (abs (tmp s) root (cs ++ [name]) = Some (to_node k)) as -> by (unfold abs; by rewrite Eq, Hk).
    rewrite (child_dir _ _ _ _ _ _ Hx Hnode Hc). cbn [negb]. change (_EEXIST =? _EEXIST) with true. cbn [andb]. destruct (has flags O_EXCL_); cbn [negb].
    + erewrite bind_step; [|erewrite bind_step; [reflexivity|]]; [by rewrite (bind_step _ _ _ _ _ (release_holding p x s Hx Hrx))|].
      destruct (wf_dirent _ _ W _ _ Hy) as (_ & Hry & _). apply (release_holding c y); [|done]. rewrite tmp_holding, held_lookup, Hy. cbn. by rewrite decide_False by lia.
    + rewrite (bind_step _ _ _ _ _ (eq_refl : ret _ _ = Ret _ _)), (bind_step _ _ _ _ _ (release_parent s _ p c x W Hx ltac:(lia))).
      exists c, s. split; [done|]. by apply (opened_there s a).
Qed.

(** The file made for an entry: at offset 0, and at the first entry of a directory. *)
Lemma open_fd_run s root q T d s0 : opened s root q T d s0 ->
  exists f x s', (let! f := fd_create tmpfs_fdops in
    upd_fd f (set_fd_dirent (Some d)) ;; upd_fd f (set_fd_dir_pos None) ;;
    let! x := get_dirent d in
    match td_children x with [] => ret tt | first :: _ => tmpfs_fd_seekdir f (Some first) end ;; ret (inr f : Z + Z)) (holding d s0) = Ret (inr f) s' /\
  wf (tmp s') (next s') /\ (forall q', abs (tmp s') root q' = T q') /\ resolve (tmp s') root q = inr d /\ fds s' = <[f := x]> (fds s) /\
  f = next s0 /\ fd_dirent x = Some d /\ fd_offset x = 0 /\ fd_dir_pos x = (y ← dirents (tmp s0) !! d; head (td_children y)).
Proof.
  intros [W Hq Habs Hfds _ Hroom [y Hy]]. exists (next s0). unfold fd_create. set (s1 := holding d s0).
  assert (next s1 = next s0) as Hn1 by (unfold s1, holding; by rewrite next_set_tmp).
  erewrite bind_step by (rewrite (bind_step _ _ _ _ _ (malloc_run s1)); rewrite (bind_step _ _ _ _ _ (eq_refl : modify _ _ = Ret tt _)); reflexivity).
  rewrite Hn1. set (f := next s0). set (s2 := set_fds _ _).
  erewrite bind_step by (apply upd_fd_runs; unfold s2; by rewrite fds_set_fds, lookup_insert_eq). set (s3 := set_fds _ s2).
  erewrite bind_step by (apply upd_fd_runs; unfold s3; by rewrite fds_set_fds, lookup_insert_eq). set (s4 := set_fds _ s3).
  assert (tmp s4 = held d (tmp s0)) as Ht by (unfold s4, s3, s2; by rewrite !tmp_set_fds, tmp_set_next, <- tmp_holding).
  assert (next s4 = next s0 + 1) as Hn4 by (unfold s4, s3, s2; by rewrite !next_set_fds, next_set_next).
  set (x := mk_fd 1 0 0 tmpfs_fdops 0 None None (Some d) None).
  assert (fds s4 = <[f := x]> (fds s)) as Hf4.
  { unfold s4, s3, s2. rewrite !fds_set_fds, fds_set_next. unfold s1, holding. rewrite fds_set_tmp, Hfds. by rewrite !insert_insert_eq. }
  assert (wf (tmp s4) (next s4)) as W4.
  { rewrite Ht, Hn4. apply (shape_wf _ _ (reflexivity _) (next s0)); [apply wf_held; [done|by apply Hroom]|lia|..].
    - intros e z Hz. pose proof (wf_held _ _ d W ltac:(by apply Hroom)) as W'. by destruct (wf_dirent _ _ W' _ _ Hz) as (_ & ? & _).
    - intros i n Hi. by destruct (wf_node _ _ W i n Hi) as (_ & ? & ? & ?). }
  assert (dirents (tmp s4) !! d = Some (incr y)) as Hy4 by (rewrite Ht, held_lookup, Hy; cbn; by rewrite decide_True).
  rewrite (bind_step _ _ _ _ _ (get_dirent_run _ _ _ Hy4)). rewrite Hy. cbn [mbind option_bind]. change (td_children (incr y)) with (td_children y).
  destruct (td_children y) as [|c l] eqn:Ech.
  - rewrite (bind_step _ _ _ _ _ (eq_refl : ret tt _ = Ret _ _)). exists x, s4. split; [done|]. split; [done|].
    split; [intros q'; rewrite Ht, abs_held; apply Habs|]. split; [by rewrite Ht, <- (shape_resolve _ _ (held_shape d (tmp s0)))|]. by split_and!.
  - destruct (wf_child _ _ W d y c Hy ltac:(rewrite Ech; left)) as (Hlt & z & Hz & _).
    assert (dirents (tmp s4) !! c = Some z) as Hz4 by (rewrite Ht, held_lookup, Hz; cbn; by rewrite decide_False by lia).
    exists (set_fd_dir_pos (Some c) x). unfold tmpfs_fd_seekdir. eexists. split.
    { erewrite bind_step; [reflexivity|]. erewrite bind_step; [|rewrite (bind_step _ _ _ _ _ (retain_run c s4 ltac:(by eexists))); reflexivity].
      assert (fds (holding c s4) !! f = Some x) as Hx by (unfold holding; by rewrite fds_set_tmp, Hf4, lookup_insert_eq).
      rewrite (bind_step _ _ _ _ _ (get_fd_step _ _ _ Hx)). cbn [fd_dir_pos x]. rewrite (bind_step _ _ _ _ _ (eq_refl : ret tt _ = Ret _ _)). by apply upd_fd_runs. }
    rewrite tmp_set_fds, next_set_fds, fds_set_fds, tmp_holding. unfold holding. rewrite next_set_tmp, fds_set_tmp, Hf4.
    split; [apply wf_held; [done|intros w Hw; rewrite Hz4 in Hw; injection Hw as <-; by eapply Hroom]|].
    split; [intros q'; rewrite abs_held, Ht, abs_held; apply Habs|].
    split; [by rewrite <- (shape_resolve _ _ (held_shape c (tmp s4))), Ht, <- (shape_resolve _ _ (held_shape d (tmp s0)))|].
    split; [by rewrite insert_insert_eq|]. by split_and!.
Qed.

(** opening a path gives a file at the entry the path leads to, at offset 0, and nothing else changes in the table of files.
    With [O_CREAT_] a file that is missing is created, empty, with the mode given and the user as its owner, and with [O_EXCL_] one that
    exists is refused; the tree is otherwise unchanged and stays well formed, and an error changes nothing.  No flag empties a file. *)
Theorem tmpfs_open_refines s a root cs name flags mode : ready s a root -> Forall short cs -> short name ->
  let n := mk_node (Z.lor S_IFREG mode) (euid (current s)) (egid (current s)) [] in
  match spec_open (has flags O_CREAT_) (has flags O_EXCL_) cs name n (abs (tmp s) root) with
  | inl e => tmpfs_open a (render (cs ++ [name])) flags mode s = Ret (inl e) s
  | inr T => exists f x d s', tmpfs_open a (render (cs ++ [name])) flags mode s = Ret (inr f) s' /\ wf (tmp s') (next s') /\
      (forall q, abs (tmp s') root q = T q) /\ fds s' = <[f := x]> (fds s) /\
      fd_dirent x = Some d /\ resolve (tmp s') root (cs ++ [name]) = inr d /\ fd_offset x = 0
  end.
Proof.
  intros R Hs Hn n. pose proof R as [W Hm Hr Hroom]. unfold tmpfs_open. destruct (has flags O_CREAT_) eqn:Hcr.
  - pose proof (open_creat_run s a root cs name flags mode R Hs Hn) as HC. cbv zeta in HC. fold n in HC.
    destruct (spec_open true _ cs name n _) as [e|T].
    + by rewrite (bind_step _ _ _ _ _ HC).
    + destruct HC as (d & s0 & E & Ho). rewrite (bind_step _ _ _ _ _ E).
      destruct (open_fd_run s root (cs ++ [name]) T d s0 Ho) as (f & x & s' & E' & ? & ? & ? & ? & _ & ? & ? & _). exists f, x, d, s'. by split_and!.
  - unfold spec_open. rewrite (abs_lookup _ _ _ W Hr). pose proof (tmpfs_lookup_run s a root (cs ++ [name]) R ltac:(apply Forall_app; auto)) as HL.
    destruct (resolve (tmp s) root (cs ++ [name])) as [e|d] eqn:Hq; rewrite (bind_step _ _ _ _ _ HL); [done|].
    destruct (node_of_Some _ _ W d (resolve_is_Some _ _ _ _ _ W (root_is_Some _ _ Hr) Hq)) as [k Hk]. rewrite Hk.
    destruct (open_fd_run s root (cs ++ [name]) _ d s (opened_there s a root _ d R Hq)) as (f & x & s' & E' & ? & ? & ? & ? & _ & ? & ? & _).
    exists f, x, d, s'. by split_and!.
Qed.

(** Asking for the attributes changes nothing, which is what the table of operations takes for granted. *)
Lemma tmpfs_stat_run s a root cs : ready s a root -> Forall short cs ->
  tmpfs_stat a (render cs) s =
    Ret (match resolve (tmp s) root cs with
         | inl e => inl e
         | inr d => match node_of (tmp s) d with Some n => inr (ti_stat n) | None => inl _ENOENT end
         end) s.
Proof.
  intros R Hs. pose proof R as [W Hm Hr _]. unfold tmpfs_stat. pose proof (tmpfs_lookup_run s a root cs R Hs) as HL.
  destruct (resolve (tmp s) root cs) as [e|d] eqn:Hq; rewrite (bind_step _ _ _ _ _ HL); [done|].
  destruct (resolve_is_Some _ _ _ _ _ W (root_is_Some _ _ Hr) Hq) as [x Hx]. destruct (wf_node_of _ _ _ _ W Hx) as (i & n & Hi & Hn & Hnode). rewrite Hnode.
  destruct (wf_dirent _ _ W _ _ Hx) as (_ & Hrx & _).
  rewrite (bind_step _ _ _ (incr x) (holding d s)) by (apply get_dirent_run; rewrite tmp_holding, held_lookup, Hx; cbn; by rewrite decide_True).
  rewrite (bind_step _ _ _ n (holding d s)) by (apply (dirent_node_run _ i); [done|by rewrite tmp_holding]).
  by rewrite (bind_step _ _ _ _ _ (release_holding d x s Hx Hrx)).
Qed.

End Ops.

(** ** Reading and writing *)

(** The bytes of a file after [buf] is written at [off]: a gap before it is filled with zeros. *)
Definition written (off : Z) (buf data : list Z) : list Z :=
  overwrite off buf (data ++ replicate (Z.to_nat (off + Z.of_nat (length buf)) - length data) 0).

Lemma written_length off buf data : 0 <= off ->
  Z.of_nat (length (written off buf data)) = Z.max (Z.of_nat (length data)) (off + Z.of_nat (length buf)).
Proof. intros H. unfold written, overwrite. rewrite !length_app, length_take, length_drop, length_app, length_replicate. lia. Qed.
Lemma written_read off buf data : 0 <= off -> take (length buf) (drop (Z.to_nat off) (written off buf data)) = buf.
Proof.
  intros H. unfold written, overwrite. set (d := data ++ _). assert (Z.to_nat off <= length d)%nat as Hl.
  { unfold d. rewrite length_app, length_replicate. lia. }
  rewrite drop_app_ge by (rewrite length_take; lia). rewrite length_take, Nat.min_l by done. rewrite Nat.sub_diag, drop_0. by rewrite take_app_length.
Qed.

Section Files.
Context {F : Type} {TF : HasTmp F}.
Implicit Types s : vfs F.

(** An open file and its inode. *)
Record file s (f : Z) (x : fd) (d i : Z) (n : tmp_inode) : Prop := {
  file_fd : fds s !! f = Some x;
  file_dirent : fd_dirent x = Some d;
  file_inode : exists y, dirents (tmp s) !! d = Some y /\ td_inode y = Some i;
  file_node : nodes (tmp s) !! i = Some n }.

Lemma fd_inode_run s f x d i n : file s f x d i n -> tmpfs_fd_inode f s = Ret i s.
Proof.
  intros [Hx Hd (y & Hy & Hi) Hn]. unfold tmpfs_fd_inode. rewrite (bind_step _ _ _ _ _ (get_fd_step _ _ _ Hx)), Hd, (bind_step _ _ s d s) by done.
  by rewrite (bind_step _ _ _ _ _ (get_dirent_run _ _ _ Hy)), Hi.
Qed.
Lemma regular_not_dir mode : S_ISREG mode = true -> S_ISDIR mode = false.
Proof. unfold S_ISREG, S_ISDIR, S_ISTYPE. intros ->%Z.eqb_eq. done. Qed.

Definition moved (f : Z) (x : fd) (off : Z) s : vfs F := set_fds (<[f := set_fd_offset off x]> (fds s)) s.

Lemma tmpfs_read_run s f x d i n len : wf (tmp s) (next s) -> file s f x d i n -> S_ISREG (st_mode (ti_stat n)) = true ->
  0 <= fd_offset x <= st_size (ti_stat n) -> 0 <= len ->
  let bytes := take (Z.to_nat len) (drop (Z.to_nat (fd_offset x)) (ti_data n)) in
  tmpfs_read f len s = Ret (inr bytes) (moved f x (u64 (fd_offset x + Z.of_nat (length bytes))) s).
Proof.
  intros W Hf Hreg Hoff Hlen bytes. pose proof Hf as [Hx Hd _ Hn]. destruct (wf_node _ _ W i n Hn) as (_ & _ & Hsz & Hdata). specialize (Hdata Hreg).
  unfold tmpfs_read. rewrite (bind_step _ _ _ _ _ (fd_inode_run _ _ _ _ _ _ Hf)), (bind_step _ _ _ _ _ (get_node_run _ _ _ Hn)), (bind_step _ _ _ _ _ (get_fd_step _ _ _ Hx)).
  rewrite regular_not_dir, Hreg by done. rewrite (bind_step _ _ _ _ _ (eq_refl : assert true _ = Ret tt _)). cbv zeta.
  rewrite (wrap_small 64 (st_size (ti_stat n) - fd_offset x)) by (unfold in_u in *; lia).
  assert (exists c, (if st_size (ti_stat n) - fd_offset x <? len then if st_size (ti_stat n) <=? fd_offset x then 0 else st_size (ti_stat n) - fd_offset x else len) = c /\
    c = Z.min len (st_size (ti_stat n) - fd_offset x)) as (c & -> & Hc) by (eexists; split; [reflexivity|zbool; lia]).
  unfold in_bounds. replace ((c =? 0) || (fd_offset x + c <=? Z.of_nat (length (ti_data n)))) with true by (symmetry; zbool; lia).
  rewrite (bind_step _ _ _ _ _ (eq_refl : ret tt _ = Ret tt _)), (bind_step _ _ _ _ _ (upd_fd_runs f x _ s Hx)). unfold ret, moved.
  assert (take (Z.to_nat c) (drop (Z.to_nat (fd_offset x)) (ti_data n)) = bytes) as Eb.
  { unfold bytes. destruct (Z.leb_spec len (st_size (ti_stat n) - fd_offset x)); [by replace c with len by lia|].
    rewrite !take_ge; [done|rewrite length_drop; lia..]. }
  assert (Z.of_nat (length bytes) = c) as El by (rewrite <- Eb, length_take, length_drop; lia). by rewrite El, Eb.
Qed.

(** reading gives the bytes from the offset on, as many as fit and as there are, and moves the offset behind them: at the end of the
    file it gives none.  A directory is refused. *)
Theorem tmpfs_read_spec s f x d i n len : wf (tmp s) (next s) -> file s f x d i n -> 0 <= fd_offset x <= st_size (ti_stat n) -> 0 <= len ->
  let bytes := take (Z.to_nat len) (drop (Z.to_nat (fd_offset x)) (ti_data n)) in
  (S_ISREG (st_mode (ti_stat n)) = true -> tmpfs_read f len s = Ret (inr bytes) (moved f x (u64 (fd_offset x + Z.of_nat (length bytes))) s)) /\
  (S_ISDIR (st_mode (ti_stat n)) = true -> tmpfs_read f len s = Ret (inl _EISDIR) s).
Proof.
  intros W Hf Hoff Hlen bytes. split; intros Hmode; [by apply (tmpfs_read_run s f x d i n)|]. pose proof Hf as [Hx Hd _ Hn].
  unfold tmpfs_read. rewrite (bind_step _ _ _ _ _ (fd_inode_run _ _ _ _ _ _ Hf)), (bind_step _ _ _ _ _ (get_node_run _ _ _ Hn)), (bind_step _ _ _ _ _ (get_fd_step _ _ _ Hx)).
  by rewrite Hmode.
Qed.

(** reading behind the end of a file reads outside of its memory instead of giving nothing: the number of bytes left is computed
    without a sign, so it is huge. *)
Theorem tmpfs_read_past_end s f x d i n len : wf (tmp s) (next s) -> file s f x d i n -> S_ISREG (st_mode (ti_stat n)) = true ->
  st_size (ti_stat n) < fd_offset x < 2 ^ 64 -> 0 < len <= 2 ^ 64 - fd_offset x -> tmpfs_read f len s = Fault.
Proof.
  intros W Hf Hreg Hoff Hlen. pose proof Hf as [Hx Hd _ Hn]. destruct (wf_node _ _ W i n Hn) as (_ & _ & Hsz & Hdata). specialize (Hdata Hreg).
  unfold tmpfs_read. rewrite (bind_step _ _ _ _ _ (fd_inode_run _ _ _ _ _ _ Hf)), (bind_step _ _ _ _ _ (get_node_run _ _ _ Hn)), (bind_step _ _ _ _ _ (get_fd_step _ _ _ Hx)).
  rewrite regular_not_dir, Hreg by done. rewrite (bind_step _ _ _ _ _ (eq_refl : assert true _ = Ret tt _)). cbv zeta. unfold in_u in Hsz.
  assert (u64 (st_size (ti_stat n) - fd_offset x) = st_size (ti_stat n) - fd_offset x + 2 ^ 64) as ->.
  { unfold wrap. rewrite <- (Z.mod_unique _ _ (-1) (st_size (ti_stat n) - fd_offset x + 2 ^ 64)); lia. }
  destruct (Z.ltb_spec (st_size (ti_stat n) - fd_offset x + 2 ^ 64) len); [lia|]. unfold bind at 1, in_bounds.
  replace ((len =? 0) || (fd_offset x + len <=? Z.of_nat (length (ti_data n)))) with false; [done|]. symmetry. zbool; lia.
Qed.

(** The state after a write to inode [i]. *)
Definition stored (i : Z) (n : tmp_inode) s : vfs F := set_tmp (with_nodes (<[i := n]> (nodes (tmp s))) (tmp s)) s.
Definition write_node (off : Z) (buf : list Z) (n : tmp_inode) : tmp_inode :=
  mk_tmp_inode (ti_refcount n) (set_st_size (Z.max (st_size (ti_stat n)) (off + Z.of_nat (length buf))) (ti_stat n)) (written off buf (ti_data n)).

Lemma stored_stored i n n' s : stored i n (stored i n' s) = stored i n s.
Proof. unfold stored. rewrite tmp_set_tmp, set_tmp_set_tmp. unfold with_nodes. cbn. by rewrite insert_insert_eq. Qed.

(** The end of a write, when the block is large enough. *)
Lemma write_tail s f x i n m buf : fds s !! f = Some x -> let e := fd_offset x + Z.of_nat (length buf) in
  e <= Z.of_nat (length (ti_data m)) -> mk_tmp_inode (ti_refcount m) (ti_stat m) (overwrite (fd_offset x) buf (ti_data m)) = n ->
  (let! n := get_node i in in_bounds ((Z.of_nat (length buf) =? 0) || (e <=? Z.of_nat (length (ti_data n)))) ;;
    upd_node i (fun n => mk_tmp_inode (ti_refcount n) (ti_stat n) (overwrite (fd_offset x) buf (ti_data n))) ;;
    upd_fd f (set_fd_offset e) ;; ret (Z.of_nat (length buf))) (stored i m s) = Ret (Z.of_nat (length buf)) (moved f x e (stored i n s)).
Proof.
  intros Hx e Hl Hw. assert (nodes (tmp (stored i m s)) !! i = Some m) as Hm by (unfold stored; rewrite tmp_set_tmp; cbn; by rewrite lookup_insert_eq).
  rewrite (bind_step _ _ _ _ _ (get_node_run _ _ _ Hm)). unfold in_bounds.
  replace ((Z.of_nat (length buf) =? 0) || (e <=? Z.of_nat (length (ti_data m)))) with true by (symmetry; zbool; lia).
  rewrite (bind_step _ _ _ _ _ (eq_refl : ret tt _ = Ret tt _)), (bind_step _ _ _ _ _ (upd_node_run i m _ _ Hm)), Hw.
  fold (stored i n (stored i m s)). rewrite stored_stored. erewrite bind_step by (apply (upd_fd_runs f x); unfold stored; by rewrite fds_set_tmp). done.
Qed.

Lemma tmpfs_write_run s f x d i n buf : wf (tmp s) (next s) -> file s f x d i n -> S_ISREG (st_mode (ti_stat n)) = true ->
  0 <= fd_offset x -> fd_offset x + Z.of_nat (length buf) < 2 ^ 64 ->
  tmpfs_write f buf s =
    if (st_size (ti_stat n) <? fd_offset x + Z.of_nat (length buf)) && negb (realloc_succeeds (fd_offset x + Z.of_nat (length buf))) then Ret _ENOMEM s
    else Ret (Z.of_nat (length buf)) (moved f x (fd_offset x + Z.of_nat (length buf)) (stored i (write_node (fd_offset x) buf n) s)).
Proof.
  intros W Hf Hreg Hoff Hend. pose proof Hf as [Hx Hd Hi Hn]. destruct (wf_node _ _ W i n Hn) as (_ & _ & Hsz & Hdata). specialize (Hdata Hreg). unfold in_u in Hsz.
  set (e := fd_offset x + Z.of_nat (length buf)) in *.
  unfold tmpfs_write. rewrite (bind_step _ _ _ _ _ (fd_inode_run _ _ _ _ _ _ Hf)), (bind_step _ _ _ _ _ (get_node_run _ _ _ Hn)), (bind_step _ _ _ _ _ (get_fd_step _ _ _ Hx)).
  rewrite regular_not_dir, Hreg by done. rewrite (bind_step _ _ _ _ _ (eq_refl : assert true _ = Ret tt _)). cbv zeta. fold e.
  rewrite (wrap_small 64 e) by (unfold in_u; lia).
  destruct (Z.ltb_spec (st_size (ti_stat n)) e) as [Hlt|Hge]; cbn [andb].
  - unfold bind at 1, tmpfs_file_resize. rewrite (bind_step _ _ _ _ _ (get_node_run _ _ _ Hn)), Hreg, (bind_step _ _ _ _ _ (eq_refl : assert true _ = Ret tt _)). cbv zeta.
    destruct (realloc_succeeds e); cbn [negb]; [|done]. unfold in_bounds at 1.
    replace ((st_size (ti_stat n) <=? Z.of_nat (length (ti_data n))) && (st_size (ti_stat n) <=? e)) with true by (symmetry; zbool; lia).
    rewrite (bind_step _ _ _ _ _ (eq_refl : ret tt _ = Ret tt _)), (bind_step _ _ _ _ _ (upd_node_run i n _ _ Hn)). unfold ret at 1. change (0 <? 0) with false. cbn iota.
    rewrite take_ge by lia. replace (Z.to_nat (e - st_size (ti_stat n))) with (Z.to_nat e - length (ti_data n))%nat by lia.
    apply (write_tail s f x i _ _ buf Hx); [cbn; rewrite length_app, length_replicate; lia|].
    unfold write_node, written. cbn. fold e. rewrite Z.max_r by lia. done.
  - rewrite (bind_step _ _ _ _ _ (eq_refl : ret 0 _ = Ret 0 _)). change (0 <? 0) with false. cbn iota. assert (stored i n s = s) as Es.
    { unfold stored. rewrite (insert_id _ _ _ Hn). transitivity (set_tmp (tmp s) s); [f_equal; by destruct (tmp s)|apply set_tmp_tmp]. }
    rewrite <- Es at 1. apply (write_tail s f x i _ n buf Hx); [lia|].
    unfold write_node, written. fold e. rewrite Z.max_l by lia. replace (Z.to_nat e - length (ti_data n))%nat with 0%nat by lia. rewrite app_nil_r.
    by destruct n as [r [a1 a2 a3 a4 a5 a6 a7 a8] da].
Qed.

(** A write changes the contents of one inode. *)
Lemma stored_shape s i n m : nodes (tmp s) !! i = Some n -> st_mode (ti_stat m) = st_mode (ti_stat n) -> same_shape (tmp s) (tmp (stored i m s)).
Proof.
  intros Hn Hm. unfold stored. rewrite tmp_set_tmp. split; [done|]. intros j. cbn. destruct (decide (i = j)) as [<-|Hne].
  - rewrite lookup_insert_eq, Hn. cbn. by rewrite Hm.
  - by rewrite lookup_insert_ne.
Qed.
Lemma write_node_wf s nx i n off buf : wf (tmp s) nx -> nodes (tmp s) !! i = Some n -> S_ISREG (st_mode (ti_stat n)) = true ->
  0 <= off -> off + Z.of_nat (length buf) < 2 ^ 64 -> wf (tmp (stored i (write_node off buf n) s)) nx.
Proof.
  intros W Hn Hreg Hoff Hend. apply (shape_wf _ _ (stored_shape s i n (write_node off buf n) Hn eq_refl) nx); [done|lia|..].
  - unfold stored. rewrite tmp_set_tmp. intros d y Hy. by destruct (wf_dirent _ _ W d y Hy) as (_ & ? & _).
  - unfold stored. rewrite tmp_set_tmp. cbn. intros j m Hm. destruct (decide (i = j)) as [<-|Hne].
    + rewrite lookup_insert_eq in Hm. injection Hm as <-. destruct (wf_node _ _ W i n Hn) as (_ & ? & Hs & Hd). specialize (Hd Hreg). unfold in_u in *. cbn.
      split; [done|]. split; [lia|]. intros _. rewrite written_length by done. lia.
    + rewrite lookup_insert_ne in Hm by done. by destruct (wf_node _ _ W j m Hm) as (_ & ? & ? & ?).
Qed.

(** writing to a file changes the contents of the file at the entry it was opened at, and of no other: the bytes at the offset are
    replaced, the file grows as needed with zeros in a gap, and the offset moves behind what was written.  When there is no memory
    nothing changes.  The flag [O_APPEND_] is not looked at. *)
Theorem tmpfs_write_refines s f x d i n buf root : wf (tmp s) (next s) -> file s f x d i n -> S_ISREG (st_mode (ti_stat n)) = true ->
  0 <= fd_offset x -> fd_offset x + Z.of_nat (length buf) < 2 ^ 64 ->
  (tmpfs_write f buf s = Ret _ENOMEM s /\ realloc_succeeds (fd_offset x + Z.of_nat (length buf)) = false) \/
  exists s', tmpfs_write f buf s = Ret (Z.of_nat (length buf)) s' /\ wf (tmp s') (next s') /\
    fds s' !! f = Some (set_fd_offset (fd_offset x + Z.of_nat (length buf)) x) /\
    forall q, abs (tmp s') root q =
      if decide (resolve (tmp s) root q = inr d) then Some (mk_node (st_mode (ti_stat n)) (st_uid (ti_stat n)) (st_gid (ti_stat n)) (written (fd_offset x) buf (ti_data n)))
      else abs (tmp s) root q.
Proof.
  intros W Hf Hreg Hoff Hend. pose proof Hf as [Hx Hd (y & Hy & Hi) Hn]. rewrite (tmpfs_write_run s f x d i n buf W Hf Hreg Hoff Hend).
  destruct (_ && _) eqn:E; [left; split; [done|]; apply andb_true_iff in E as [_ E]; by apply negb_true_iff in E|]. right. eexists. split; [reflexivity|].
  unfold moved. rewrite tmp_set_fds, next_set_fds, fds_set_fds. split; [unfold stored at 2; rewrite next_set_tmp; by apply write_node_wf|].
  split; [by rewrite lookup_insert_eq|]. intros q. unfold abs.
  rewrite <- (shape_resolve _ _ (stored_shape s i n (write_node (fd_offset x) buf n) Hn eq_refl)). unfold stored. rewrite tmp_set_tmp.
  destruct (resolve (tmp s) root q) as [e|r]; [by rewrite decide_False|]. unfold node_of. cbn. destruct (decide (inr r = inr d)) as [[= ->]|Hne].
  - rewrite Hy. cbn. rewrite Hi. cbn. by rewrite lookup_insert_eq.
  - destruct (dirents (tmp s) !! r) as [z|] eqn:Hz; [|done]. cbn. destruct (td_inode z) as [j|] eqn:Hj; [|done]. cbn. rewrite lookup_insert_ne; [done|].
    intros <-. apply Hne. f_equal. exact (wf_inode _ _ W r d z y i Hz Hy Hj Hi).
Qed.

(** what was written is read back: after a write that succeeds, and a seek back to where it started, reading as many bytes gives them. *)
Theorem tmpfs_write_read s f x d i n buf r s1 : wf (tmp s) (next s) -> file s f x d i n -> S_ISREG (st_mode (ti_stat n)) = true ->
  0 <= fd_offset x -> fd_offset x + Z.of_nat (length buf) < 2 ^ 63 -> tmpfs_write f buf s = Ret r s1 -> 0 <= r ->
  exists s2 s3, r = Z.of_nat (length buf) /\ tmpfs_lseek f (fd_offset x) FileLock.LSEEK_SET s1 = Ret (fd_offset x) s2 /\
    tmpfs_read f (Z.of_nat (length buf)) s2 = Ret (inr buf) s3.
Proof.
  intros W Hf Hreg Hoff Hend E Hr. pose proof Hf as [Hx Hd (y & Hy & Hi) Hn]. rewrite (tmpfs_write_run s f x d i n buf W Hf Hreg Hoff ltac:(lia)) in E.
  destruct (_ && _); injection E as <- <-; [done|]. set (n' := write_node (fd_offset x) buf n). set (x1 := set_fd_offset (fd_offset x + Z.of_nat (length buf)) x).
  set (s1 := moved f x (fd_offset x + Z.of_nat (length buf)) (stored i n' s)). assert (fds s1 !! f = Some x1) as Hx1 by (unfold s1, moved; by rewrite fds_set_fds, lookup_insert_eq).
  set (s2 := set_fds (<[f := set_fd_offset (u64 (fd_offset x)) x1]> (fds s1)) s1). exists s2.
  assert (u64 (fd_offset x) = fd_offset x) as Hu by (apply wrap_small; unfold in_u; lia).
  assert (fds s2 !! f = Some x) as Hx2.
  { unfold s2. rewrite fds_set_fds, lookup_insert_eq, Hu. unfold x1. by destruct x. }
  assert (tmp s2 = tmp (stored i n' s) /\ next s2 = next s) as [Ht Hn2].
  { unfold s2, s1, moved. rewrite !tmp_set_fds, !next_set_fds. split; [done|]. unfold stored. by rewrite next_set_tmp. }
  assert (nodes (tmp s2) !! i = Some n') as Hn' by (rewrite Ht; unfold stored; rewrite tmp_set_tmp; cbn; by rewrite lookup_insert_eq).
  assert (file s2 f x d i n') as Hf2 by (split; [done|done| |done]; exists y; rewrite Ht; unfold stored; rewrite tmp_set_tmp; done).
  assert (wf (tmp s2) (next s2)) as W2 by (rewrite Ht, Hn2; apply write_node_wf; (done || lia)).
  eexists. split; [done|]. split.
  - unfold tmpfs_lseek. change (FileLock.LSEEK_SET =? FileLock.LSEEK_END) with false. cbn iota. rewrite (bind_step _ _ _ _ _ (eq_refl : ret 0 _ = Ret 0 _)).
    unfold generic_seek. rewrite (bind_step _ _ s1 0 s2).
    + change (0 <? 0) with false. cbn iota. rewrite (bind_step _ _ _ _ _ (get_fd_step _ _ _ Hx2)). unfold ret. by rewrite swrap_small by (unfold in_s; lia).
    + rewrite (bind_step _ _ _ _ _ (get_fd_step _ _ _ Hx1)). change (FileLock.LSEEK_SET =? FileLock.LSEEK_SET) with true. cbn iota.
      by rewrite (bind_step _ _ _ _ _ (upd_fd_runs _ _ _ _ Hx1)).
  - rewrite (tmpfs_read_run s2 f x d i n' _ W2 Hf2 Hreg) by (cbn; lia). cbn [ti_data n' write_node]. rewrite Nat2Z.id, written_read by done. reflexivity.
Qed.

End Files.

(** ** Listing a directory *)

Section List.
Context {F : Type} {TF : HasTmp F}.
Implicit Types s : vfs F.

(** Reading entries until there are none. *)
Fixpoint readdir_all (fuel : nat) (f : Z) : V F (list path) :=
  match fuel with
  | O => hang
  | S fuel =>
      let! (_, entry) := tmpfs_readdir f in
      match entry with
      | None => ret []
      | Some (_, name) => let! l := readdir_all fuel f in ret (name :: l)
      end
  end.

Definition name_of (t : tmp_fs) (d : Z) : path := match dirents t !! d with Some x => td_name x | None => [] end.
(** The number of the inode of an entry. *)
Definition number_of (t : tmp_fs) (d : Z) : Z := match node_of t d with Some n => st_inode (ti_stat n) | None => 0 end.
(** The reference of an open directory to its position. *)
Definition hold_opt (o : option Z) s : vfs F := match o with Some d => holding d s | None => s end.

Lemma next_of_app c l1 l2 : c ∉ l1 -> next_of c (l1 ++ c :: l2) = head l2.
Proof.
  induction l1 as [|b l1 IH]; intros H; cbn; [by rewrite Z.eqb_refl|]. apply not_elem_of_cons in H as [Hb H].
  destruct (Z.eqb_spec b c); [congruence|by apply IH].
Qed.

(** Moving the position moves the reference. *)
Lemma seekdir_run s nx f x c o : wf (tmp s) nx -> fds s !! f = Some x -> fd_dir_pos x = Some c -> is_Some (dirents (tmp s) !! c) ->
  (forall d, o = Some d -> is_Some (dirents (tmp s) !! d) /\ d <> c) ->
  tmpfs_fd_seekdir f o (holding c s) = Ret tt (hold_opt o (set_fds (<[f := set_fd_dir_pos o x]> (fds s)) s)).
Proof.
  intros W Hx Hpos [y Hy] Ho. destruct (wf_dirent _ _ W _ _ Hy) as (_ & Hr & _). unfold tmpfs_fd_seekdir.
  assert (exists s1, (match o with Some d => let! _ := tmp_dirent_retain d in ret tt | None => ret tt end) (holding c s) = Ret tt s1 /\
    fds s1 = fds s /\ tmp_dirent_release c s1 = Ret tt (hold_opt o s)) as (s1 & E1 & Hf1 & E2).
  { destruct o as [d|]; [destruct (Ho d eq_refl) as [Hd Hne]|].
    - eexists. split; [erewrite bind_step by (apply retain_run; rewrite tmp_holding; by apply held_is_Some); reflexivity|].
      split; [unfold holding; by rewrite !fds_set_tmp|]. exact (release_parent s nx c d y W Hy (not_eq_sym Hne)).
    - eexists. split; [reflexivity|]. split; [unfold holding; by rewrite fds_set_tmp|]. by apply (release_holding c y). }
  rewrite (bind_step _ _ _ _ _ E1). rewrite (bind_step _ _ s1 x s1) by (apply get_fd_step; by rewrite Hf1). rewrite Hpos, (bind_step _ _ _ _ _ E2).
  erewrite upd_fd_runs by (destruct o; cbn; unfold holding; rewrite ?fds_set_tmp; exact Hx). f_equal.
  destruct o as [d|]; cbn; [|done]. unfold holding. by rewrite set_fds_set_tmp, ?fds_set_tmp, tmp_set_fds.
Qed.

(** An open directory: its file, entry and inode. *)
Record directory s (f : Z) (x : fd) (d : Z) (y : tmp_dirent) : Prop := {
  dir_fd : fds s !! f = Some x;
  dir_dirent : fd_dirent x = Some d;
  dir_entry : dirents (tmp s) !! d = Some y;
  dir_node : exists i n, td_inode y = Some i /\ nodes (tmp s) !! i = Some n /\ S_ISDIR (st_mode (ti_stat n)) = true }.

(** One entry: the name at the position, and the position moves to the next. *)
Lemma readdir_step s nx f x d y c l1 l2 : wf (tmp s) nx -> directory s f x d y -> fd_dir_pos x = Some c -> td_children y = l1 ++ c :: l2 ->
  tmpfs_readdir f (holding c s) =
    Ret (1, Some (number_of (tmp s) c, name_of (tmp s) c)) (hold_opt (head l2) (set_fds (<[f := set_fd_dir_pos (head l2) x]> (fds s)) s)).
Proof.
  intros W [Hx Hd Hy (i & n & Hi & Hn & Hdir)] Hpos Hch.
  assert (forall e, e ∈ td_children y -> exists z, dirents (tmp s) !! e = Some z /\ d < e) as Hkids.
  { intros e He. destruct (wf_child _ _ W d y e Hy He) as (? & z & Hz & _). eauto. }
  destruct (Hkids c ltac:(rewrite Hch; apply elem_of_app; right; left)) as (z & Hz & Hlt).
  destruct (wf_order _ _ W d y Hy) as [_ Ho]. rewrite Hch in Ho. apply FOP_app in Ho as (_ & Ho2 & Ho1).
  assert (c ∉ l1) as Hc1 by (intros Hc; destruct (Ho1 c c Hc ltac:(left) z z Hz Hz); lia).
  assert (c ∉ l2) as Hc2.
  { intros Hc. inversion Ho2 as [|? ? Ha _]; subst. rewrite Forall_elem in Ha. destruct (Ha c Hc z z Hz Hz). lia. }
  destruct (wf_dirent _ _ W _ _ Hz) as (_ & _ & Hzn & iz & nz & Hiz & Hnz & _).
  assert (number_of (tmp s) c = st_inode (ti_stat nz)) as -> by (unfold number_of, node_of; rewrite Hz; cbn; rewrite Hiz; cbn; by rewrite Hnz).
  set (s1 := set_fds (<[f := set_fd_dir_pos (head l2) x]> (fds s)) s). assert (tmp s1 = tmp s) as Ht by (unfold s1; apply tmp_set_fds).
  assert (tmpfs_fd_seekdir f (head l2) (holding c s) = Ret tt (hold_opt (head l2) s1)) as Eseek.
  { apply (seekdir_run s nx f x c _ W Hx Hpos); [by eexists|]. intros e He. assert (e ∈ l2) as Hel by (destruct l2; [done|injection He as ->; left]).
    split; [|congruence]. destruct (Hkids e) as (w & Hw & _); [rewrite Hch; apply elem_of_app; right; by right|by eexists]. }
  assert (dirents (tmp (hold_opt (head l2) s1)) !! c = Some z) as Hz'.
  { destruct l2 as [|b l2]; cbn; [by rewrite Ht|]. rewrite tmp_holding, held_lookup, Ht, Hz. cbn. rewrite decide_False; [done|]. intros ->. apply Hc2. left. }
  assert (nodes (tmp (hold_opt (head l2) s1)) !! iz = Some nz) as Hnz' by (destruct l2 as [|b l2]; cbn; rewrite ?tmp_holding, ?Ht; done).
  assert (dirents (tmp (holding c s)) !! d = Some y) as Hy' by (rewrite tmp_holding, held_lookup, Hy; cbn; by rewrite decide_False by lia).
  assert (is_Some (dirents (tmp (holding c s)) !! c)) as [z1 Hz1] by (rewrite tmp_holding; apply held_is_Some; by eexists).
  unfold tmpfs_readdir. rewrite (bind_step _ _ _ x (holding c s)) by (apply get_fd_step; unfold holding; by rewrite fds_set_tmp).
  rewrite Hd, (bind_step _ _ _ d (holding c s)), (bind_step _ _ _ _ _ (get_dirent_run _ _ _ Hy')) by done.
  rewrite (bind_step _ _ _ n (holding c s)) by (apply (dirent_node_run _ i); [done|by rewrite tmp_holding]). rewrite Hdir, Hpos. cbn [negb].
  rewrite (bind_step _ _ _ _ _ (get_dirent_run _ _ _ Hz1)), Hch, next_of_app, (bind_step _ _ _ _ _ Eseek) by done.
  rewrite (bind_step _ _ _ _ _ (get_dirent_run _ _ _ Hz')), (bind_step _ _ _ _ _ (dirent_node_run _ _ _ _ Hiz Hnz')). unfold in_bounds.
  replace (strlen (td_name z) <=? 255) with true by (symmetry; apply Z.leb_le; unfold MAX_NAME in Hzn; lia).
  rewrite (bind_step _ _ _ tt (hold_opt (head l2) s1)) by done. unfold ret, name_of. by rewrite Hz.
Qed.

Lemma readdir_all_run s nx f x d y l1 l2 : wf (tmp s) nx -> directory s f x d y -> td_children y = l1 ++ l2 -> fd_dir_pos x = head l2 ->
  exists x', readdir_all (S (length l2)) f (hold_opt (head l2) s) = Ret (name_of (tmp s) <$> l2) (set_fds (<[f := x']> (fds s)) s).
Proof.
  revert s x l1. induction l2 as [|c l2 IH]; intros s x l1 W D Hch Hpos; pose proof D as [Hx Hd Hy (i & n & Hi & Hn & Hdir)].
  - exists x. cbn [hold_opt head length readdir_all fmap list_fmap]. rewrite (insert_id _ _ _ Hx). erewrite bind_step; [|unfold tmpfs_readdir;
      rewrite (bind_step _ _ _ _ _ (get_fd_step _ _ _ Hx)), Hd, (bind_step _ _ s d s), (bind_step _ _ _ _ _ (get_dirent_run _ _ _ Hy)),
        (bind_step _ _ _ _ _ (dirent_node_run _ _ _ _ Hi Hn)), Hdir, Hpos by done; reflexivity]. unfold ret. by destruct s.
  - pose proof (readdir_step s nx f x d y c l1 l2 W D Hpos Hch) as E1. set (x1 := set_fd_dir_pos (head l2) x) in *.
    set (s1 := set_fds (<[f := x1]> (fds s)) s) in *. assert (tmp s1 = tmp s) as Ht by (unfold s1; apply tmp_set_fds).
    destruct (IH s1 x1 (l1 ++ [c])) as (x' & E2); [by rewrite Ht| |by rewrite <- app_assoc|done|].
    { split; [unfold s1; by rewrite fds_set_fds, lookup_insert_eq|done|by rewrite Ht|rewrite Ht; by exists i, n]. }
    exists x'. cbn [head hold_opt]. change (S (length (c :: l2))) with (S (S (length l2))). remember (S (length l2)) as k eqn:Ek. cbn [readdir_all].
    rewrite (bind_step _ _ _ _ _ E1). cbv beta iota. rewrite (bind_step _ _ _ _ _ E2), Ht. unfold ret, s1. rewrite fds_set_fds, insert_insert_eq. by destruct s.
Qed.

(** reading a directory that was just opened gives the names of its entries, all of them and each one once, in the order they were made. *)
Theorem readdir_lists s nx f x d y : wf (tmp s) nx -> directory s f x d y -> fd_dir_pos x = head (td_children y) ->
  exists s', readdir_all (S (length (td_children y))) f (hold_opt (fd_dir_pos x) s) = Ret (name_of (tmp s) <$> td_children y) s' /\
    tmp s' = tmp s /\ NoDup (name_of (tmp s) <$> td_children y) /\
    forall name, name ∈ name_of (tmp s) <$> td_children y <-> exists c, child (tmp s) d name = inr c.
Proof.
  intros W D Hpos. pose proof D as [Hx Hd Hy (i & n & Hi & Hn0 & Hdir)]. destruct (readdir_all_run s nx f x d y [] (td_children y) W D eq_refl Hpos) as (x' & E).
  assert (node_of (tmp s) d = Some n) as Hn by (unfold node_of; rewrite Hy; cbn; by rewrite Hi).
  rewrite <- Hpos in E. eexists. split; [exact E|]. rewrite tmp_set_fds. split; [done|].
  assert (forall c, c ∈ td_children y -> exists z, dirents (tmp s) !! c = Some z) as Hk by (intros c Hc; destruct (wf_child _ _ W d y c Hy Hc) as (_ & z & Hz & _); eauto).
  split.
  - destruct (wf_order _ _ W d y Hy) as [_ Ho]. clear -Ho Hk TF. induction Ho as [|a l Ha _ IH]; cbn; constructor.
    + intros (b & Eb & Hb)%list_elem_of_fmap. rewrite Forall_elem in Ha. destruct (Hk a ltac:(left)) as [u Hu], (Hk b ltac:(by right)) as [v Hv].
      destruct (Ha b Hb u v Hu Hv) as [_ Hne]. unfold name_of in Eb. rewrite Hu, Hv in Eb. done.
    + apply IH. intros c Hc. apply Hk. by right.
  - intros name. split.
    + intros (b & -> & Hb)%list_elem_of_fmap. unfold child. rewrite Hy, Hn, Hdir. destruct (List.find _ _) as [c|] eqn:Hf; [by exists c|].
      pose proof (List.find_none _ _ Hf b ltac:(by apply list_elem_of_In)) as Hb'. destruct (Hk b Hb) as [z Hz]. unfold named, name_of in Hb'. rewrite Hz in Hb'. cbn in Hb'.
      by rewrite bool_decide_true in Hb'.
    + intros [c Hc]. destruct (child_Some _ _ _ _ _ W Hc) as (x0 & z & Hx0 & Hz & Hin & Hnm & _). rewrite Hy in Hx0. injection Hx0 as <-.
      apply list_elem_of_fmap. exists c. split; [|done]. unfold name_of. by rewrite Hz.
Qed.

End List.

(** ** Where tmpfs falls short *)

Section Faults.
Context {F : Type} {SF : System F} {TF : HasTmp F}.
Implicit Types s : vfs F.

Lemma getpath_loop_fails fuel d name root p acc : d <> root -> p < Z.of_nat fuel -> getpath_loop fuel d name root p acc = Some (inl _ENAMETOOLONG) \/ p < 0.
Proof.
  intros Hd. revert p acc. induction fuel as [|fuel IH]; intros p acc Hp; [right; lia|]. left. cbn [getpath_loop]. destruct (Z.eqb_spec d root); [done|].
  pose proof (strlen_nonneg name). destruct (Z.ltb_spec (p - (strlen name + 1)) 0); [done|]. destruct (IH (p - (strlen name + 1)) (slash :: name ++ acc)); [lia|done|lia].
Qed.

(** in a directory of a tmpfs other than its root no relative path can be used: the loop that builds the path of the working
    directory does not move from the entry to its parent, so it fills the buffer and ends with ENAMETOOLONG. *)
Theorem relative_path_fails s f x d a m root addr p flags : pwd (fs (current s)) = Some f -> fds s !! f = Some x -> fd_dirent x = Some d ->
  is_Some (dirents (tmp s) !! d) -> fd_mount x = Some a -> get_mount a s = Ret m s -> m_data m = Some root -> d <> root ->
  filesystem (m_fs m) = tmpfs_ops addr -> p <> [] -> char_at p 0 <> slash ->
  path_normalize AT_PWD p flags s = Ret (inl _ENAMETOOLONG) s.
Proof.
  intros Hpwd Hx Hd [y Hy] Ha Hm Hroot Hne Hfs Hp Hc.
  assert (tmpfs_getpath f s = Ret (inl _ENAMETOOLONG) s) as Hget.
  { unfold tmpfs_getpath. rewrite (bind_step _ _ _ _ _ (get_fd_step _ _ _ Hx)), Hd, (bind_step _ _ s d s), Ha, (bind_step _ _ s a s), (bind_step _ _ _ _ _ Hm), Hroot,
      (bind_step _ _ s root s) by done. destruct (Z.eqb_spec d root); [done|]. rewrite (bind_step _ _ _ _ _ (get_dirent_run _ _ _ Hy)).
    destruct (getpath_loop_fails (S (Z.to_nat MAX_PATH)) d (td_name y) root (MAX_PATH - 1) [] Hne) as [->|H]; [unfold MAX_PATH; lia|done|unfold MAX_PATH in H; lia]. }
  unfold path_normalize. rewrite (bind_step _ _ s tt s), bool_decide_false, (bind_step _ _ s s s) by done.
  destruct (Ascii.eqb_spec (char_at p 0) slash); [done|]. rewrite Hpwd.
  rewrite (bind_step _ _ s (inl _ENAMETOOLONG) s); [done|]. unfold generic_getpath.
  rewrite (bind_step _ _ _ _ _ (get_fd_step _ _ _ Hx)), Ha, (bind_step _ _ s a s), (bind_step _ _ _ _ _ Hm), (bind_step _ _ s s s), Hfs by done.
  cbn [fs_getpath tmpfs_ops]. unfold observe. rewrite Hget. done.
Qed.

(** unmounting a tmpfs that is not in use stops the program: the function is not written. *)
Theorem tmpfs_umount_aborts s point m addr : List.find (fun m => bool_decide (point = m_point m)) (mounts s) = Some m ->
  get_mount (m_self m) s = Ret m s -> m_refcount m = 0 -> filesystem (m_fs m) = tmpfs_ops addr -> do_umount point s = Abort.
Proof.
  intros Hf Hm Hr Hfs. unfold do_umount. rewrite (bind_step _ _ s s s), Hf by done. unfold mount_remove. rewrite (bind_step _ _ _ _ _ Hm), Hr. cbn. by rewrite Hfs.
Qed.

(** making a directory at the path of the mount point, which exists, succeeds and adds an entry without a name to the root. *)
Theorem mkdir_at_root_succeeds s a root mode n : ready s a root -> node_of (tmp s) root = Some n -> S_ISDIR (st_mode (ti_stat n)) = true ->
  child (tmp s) root [] = inl _ENOENT ->
  exists s', tmpfs_mkdir a [] mode s = Ret 0 s' /\ exists c, child (tmp s') root [] = inr c.
Proof.
  intros [W Hm Hr Hroom] Hn Hdir Hc. pose proof (root_is_Some _ _ Hr) as [x Hx]. destruct (wf_node_of _ _ _ _ W Hx) as (j & m & Hj & Hjm & Hnode).
  rewrite Hn in Hnode. injection Hnode as <-. destruct (wf_dirent _ _ W _ _ Hx) as (Hrn & Hrx & _). unfold tmpfs_mkdir, tmpfs_lookup_parent.
  rewrite bool_decide_false by done. rewrite (bind_step _ _ s (inr (Some root, [])) (holding root s)) by (unfold bind; rewrite (lookup_run s a root) by done; done).
  rewrite (bind_step _ _ (holding root s) root (holding root s)) by done. rewrite (bind_step _ _ _ _ _ (existence_run s _ root [] W ltac:(by eexists))), Hc.
  change (_ENOENT =? _ENOENT) with true. cbn iota. change (0 <? 0) with false. cbn iota.
  destruct (link_run s root x j n (Z.lor S_IFDIR mode) [] false W Hx Hj Hjm Hdir (Hroom _ _ Hx) ltac:(done)) as (s1 & E1 & E2).
  erewrite bind_step by (rewrite (bind_step _ _ _ _ _ E1), (bind_step _ _ _ _ _ E2); reflexivity).
  erewrite bind_step by (apply release_grown; (done || lia || by eapply Hroom)). eexists. split; [reflexivity|]. rewrite tmp_st. exists (next s + 1).
  rewrite (grown_child _ _ _ _ _ _ _ W Hx Hc n Hn Hdir) by (by eexists). by rewrite decide_True.
Qed.

End Faults.

(** ** A small system: one tmpfs, mounted as the root *)

Module Demo.

#[export] Instance demo_tmp : HasTmp tmp_fs.
Proof.
  refine {| get_tmp := fun x => x; put_tmp := fun t _ => t; tmpfs_fdops := 7; realloc_succeeds := fun n => n <? 1048576 |}; reflexivity.
Defined.
#[export] Instance demo_system : System tmp_fs := {|
  filesystem := fun _ => tmpfs_ops 9; fdops := fun _ => tmpfs_fd_ops; device := fun _ _ => None |}.

Definition user0 : task := mk_task 0 0 0 0 1 200 (mk_fs_info 0 (Some 3) (Some 3)) 1024.
Definition root_node : tmp_inode := mk_tmp_inode 1 (mk_statbuf 0 1 (Z.lor S_IFDIR 511) 0 0 0 0 0) [].
Definition root_entry : tmp_dirent := mk_tmp_dirent [] (Some 10) 0 None [] 0 1.
Definition empty_tree : tmp_fs := mk_tmp_fs {[ 10 := root_node ]} {[ 11 := root_entry ]} 2.
Definition root_mnt : mount := mk_mount 5 [] [] [] 0 3 0 (Some 11).
Definition at_tree (t : tmp_fs) (next : Z) (d : Z) (off : Z) : vfs tmp_fs :=
  mk_vfs t [root_mnt] {[ 3 := mk_fd 1 0 0 7 off (Some 5) None (Some d) None ]} ∅ ∅ ∅ user0 next.
(** The tree with the file [f]. *)
Definition the_file : tmp_inode := fresh_inode empty_tree user0 (Z.lor S_IFREG 420) 1.
Definition file_tree : tmp_fs := grown empty_tree 11 root_entry 12 13 the_file (cstr "f") 1.

Lemma empty_wf : wf empty_tree 12.
Proof.
  split; unfold empty_tree; cbn.
  - intros d x [<- <-]%lookup_singleton_Some. repeat split; try done. by exists 10, root_node.
  - intros d x c [<- <-]%lookup_singleton_Some Hc. by apply not_elem_of_nil in Hc.
  - intros c y p [<- <-]%lookup_singleton_Some Hp. done.
  - intros d x [<- <-]%lookup_singleton_Some. repeat split; try done. constructor.
  - intros d e x y i [<- <-]%lookup_singleton_Some [<- <-]%lookup_singleton_Some. done.
  - intros i n [<- <-]%lookup_singleton_Some. repeat split; done.
Qed.
Lemma empty_ready d off : ready (at_tree empty_tree 12 d off) 5 11.
Proof.
  split; [exact empty_wf|exists root_mnt; done|exists root_entry; done|]. intros e x Hx.
  change (({[ 11 := root_entry ]} : gmap Z tmp_dirent) !! e = Some x) in Hx. apply lookup_singleton_Some in Hx as [<- <-]. split; done.
Qed.
Lemma file_wf : wf file_tree 14.
Proof. apply (wf_grown empty_tree 12 11 root_entry the_file (cstr "f") 1 empty_wf eq_refl eq_refl root_node eq_refl eq_refl); repeat split; done. Qed.
Lemma file_open off : file (at_tree file_tree 14 13 off) 3 (mk_fd 1 0 0 7 off (Some 5) None (Some 13) None) 13 12 the_file.
Proof. split; [done..|by eexists|done]. Qed.
Lemma short_ok c : bool_decide (slash ∉ c /\ strlen c < MAX_NAME /\ c <> []) = true -> short c.
Proof. intros H. by apply bool_decide_eq_true in H. Qed.

Lemma tmpfs_mkdir_refines_witness : exists s', tmpfs_mkdir 5 (cstr "/a") 493 (at_tree empty_tree 12 11 0) = Ret 0 s' /\
  abs (tmp s') 11 [cstr "a"] = Some (mk_node (Z.lor S_IFDIR 493) 0 0 []).
Proof.
  destruct (tmpfs_mkdir_refines (at_tree empty_tree 12 11 0) 5 11 [] (cstr "a") 493 (empty_ready _ _) (Forall_nil_2 _) (short_ok (cstr "a") eq_refl)) as (r & s' & E & _ & H).
  cbn in H. destruct H as [-> H]. exists s'. split; [exact E|]. rewrite H. reflexivity.
Defined.
Lemma tmpfs_open_refines_witness : exists f s', tmpfs_open 5 (cstr "/f") O_CREAT_ 420 (at_tree empty_tree 12 11 0) = Ret (inr f) s' /\
  abs (tmp s') 11 [cstr "f"] = Some (mk_node (Z.lor S_IFREG 420) 0 0 []).
Proof.
  destruct (tmpfs_open_refines (at_tree empty_tree 12 11 0) 5 11 [] (cstr "f") O_CREAT_ 420 (empty_ready _ _) (Forall_nil_2 _) (short_ok (cstr "f") eq_refl))
    as (f & x & d & s' & E & _ & H & _). exists f, s'. split; [exact E|]. rewrite H. reflexivity.
Defined.
Lemma tmpfs_read_spec_witness : exists s', tmpfs_read 3 5 (at_tree file_tree 14 13 0) = Ret (inr []) s'.
Proof. eexists. apply (tmpfs_read_spec (TF := demo_tmp) (at_tree file_tree 14 13 0) 3 _ 13 12 the_file 5 file_wf (file_open 0)); [cbn; lia|lia|reflexivity]. Defined.
Lemma tmpfs_read_past_end_witness : tmpfs_read 3 5 (at_tree file_tree 14 13 100) = Fault.
Proof. apply (tmpfs_read_past_end (TF := demo_tmp) (at_tree file_tree 14 13 100) 3 _ 13 12 the_file 5 file_wf (file_open 100)); [reflexivity|cbn; lia|cbn; lia]. Defined.
Lemma tmpfs_write_refines_witness : exists s', tmpfs_write 3 [104; 105] (at_tree file_tree 14 13 2) = Ret 2 s' /\
  abs (tmp s') 11 [cstr "f"] = Some (mk_node (Z.lor S_IFREG 420) 0 0 [0; 0; 104; 105]).
Proof.
  destruct (tmpfs_write_refines (TF := demo_tmp) (at_tree file_tree 14 13 2) 3 _ 13 12 the_file [104; 105] 11 file_wf (file_open 2) eq_refl ltac:(cbn; lia) ltac:(cbn; lia))
    as [[_ H]|(s' & E & _ & _ & H)]; [done|]. exists s'. split; [exact E|]. rewrite H. reflexivity.
Defined.
Lemma tmpfs_write_read_witness : exists s1 s2 s3, tmpfs_write 3 [104; 105] (at_tree file_tree 14 13 2) = Ret 2 s1 /\
  tmpfs_lseek 3 2 FileLock.LSEEK_SET s1 = Ret 2 s2 /\ tmpfs_read 3 2 s2 = Ret (inr [104; 105]) s3.
Proof.
  assert (exists s1, tmpfs_write 3 [104; 105] (at_tree file_tree 14 13 2) = Ret 2 s1) as [s1 E] by (eexists; vm_compute; reflexivity). exists s1.
  destruct (tmpfs_write_read (TF := demo_tmp) (at_tree file_tree 14 13 2) 3 _ 13 12 the_file [104; 105] 2 s1 file_wf (file_open 2) eq_refl ltac:(cbn; lia) ltac:(cbn; lia) E ltac:(lia))
    as (s2 & s3 & _ & E2 & E3). exists s2, s3. split; [exact E|]. split; [exact E2|exact E3].
Defined.
Lemma readdir_lists_witness : exists s', readdir_all 2 4 (hold_opt (Some 13) (set_fds {[ 4 := mk_fd 1 0 0 7 0 (Some 5) None (Some 11) (Some 13) ]} (at_tree file_tree 14 13 0))) =
  Ret [cstr "f"] s'.
Proof.
  destruct (readdir_lists (TF := demo_tmp) (set_fds {[ 4 := mk_fd 1 0 0 7 0 (Some 5) None (Some 11) (Some 13) ]} (at_tree file_tree 14 13 0)) 14 4
    (mk_fd 1 0 0 7 0 (Some 5) None (Some 11) (Some 13)) 11 (add_child 13 root_entry) file_wf ltac:(split; [done..|by exists 10, root_node]) eq_refl) as (s' & E & _).
  exists s'. exact E.
Defined.
Lemma relative_path_fails_witness : path_normalize AT_PWD (cstr "x") N_SYMLINK_FOLLOW (at_tree file_tree 14 13 0) = Ret (inl _ENAMETOOLONG) (at_tree file_tree 14 13 0).
Proof.
  apply (relative_path_fails (at_tree file_tree 14 13 0) 3 (mk_fd 1 0 0 7 0 (Some 5) None (Some 13) None) 13 5 root_mnt 11 9); try reflexivity; [by eexists|lia|discriminate|discriminate].
Defined.
Lemma tmpfs_umount_aborts_witness : do_umount [] (at_tree empty_tree 12 11 0) = Abort.
Proof. apply (tmpfs_umount_aborts _ _ root_mnt 9); reflexivity. Defined.
Lemma mkdir_at_root_succeeds_witness : exists s', tmpfs_mkdir 5 [] 493 (at_tree empty_tree 12 11 0) = Ret 0 s' /\ exists c, child (tmp s') 11 [] = inr c.
Proof. apply (mkdir_at_root_succeeds _ 5 11 493 root_node (empty_ready _ _)); reflexivity. Defined.

(** The parts together: mounting, and calls on paths that are normalized first. *)
Definition boot : V tmp_fs Z :=
  let! _ := do_mount 3 [] [] [] 0 in
  let! r := generic_open (cstr "/") 0 0 in
  match r with
  | inl e => ret e
  | inr f => upd_current (set_fs (mk_fs_info 0 (Some f) (Some f))) ;; ret f
  end.
Definition session : V tmp_fs (Z * Z * Z * (Z + list Z)) :=
  let! _ := boot in
  let! e := generic_mkdirat AT_PWD (cstr "a") 493 in
  let! r := generic_openat AT_PWD (cstr "/a/../a//f") (Z.lor O_RDWR_ O_CREAT_) 420 in
  match r with
  | inl r => ret (e, r, 0, inl 0)
  | inr f =>
      let! _ := tmpfs_lseek f 2 FileLock.LSEEK_SET in
      let! w := tmpfs_write f [104; 105] in
      let! o := tmpfs_lseek f 0 FileLock.LSEEK_SET in
      let! r := tmpfs_read f 100 in
      ret (e, w, o, r)
  end.
Example session_runs : exists s, session (mk_vfs (mk_tmp_fs ∅ ∅ 1) [] ∅ ∅ ∅ ∅ (mk_task 0 0 0 0 1 200 (mk_fs_info 0 None None) 1024) 300) =
  Ret (0, 2, 0, inr [0; 0; 104; 105]) s.
Proof. eexists. vm_compute. reflexivity. Qed.

End Demo.
End Tmpfs.
