(* ===== verification/Tty.v ===== *)
(** * Terminals and pseudo-terminals (fs/tty.c, fs/tty.h, fs/pty.c)

    A terminal holds a buffer of input with a flag at the end of each line, the settings of the line discipline, and the
    process group in its foreground.  A pseudo-terminal is two of them: what is written to one side is input of the other.
    The drivers of the host, [struct tty_driver_ops] that are not those of pseudo-terminals, are a parameter.

    A call that waits goes on with the next of [waits]: the result of [wait_for], and the terminal as other threads left it; when there
    is none it waits forever ([Hang]).  [woken] are the terminals whose readers were notified, [sent] the signals sent. *)

From S2P Require Import Prelude Errno FileLock Task Vfs Path Fd Generic.

Module Tty.
Import Errno Vfs Path Fd Generic.

(** ** Settings *)

Definition VINTR_ : nat := 0.
Definition VQUIT_ : nat := 1.
Definition VERASE_ : nat := 2.
Definition VKILL_ : nat := 3.
Definition VEOF_ : nat := 4.
Definition VTIME_ : nat := 5.
Definition VMIN_ : nat := 6.
Definition VSTART_ : nat := 8.
Definition VSTOP_ : nat := 9.
Definition VSUSP_ : nat := 10.
Definition VEOL_ : nat := 11.
Definition ISIG_ : Z := Z.shiftl 1 0.
Definition ICANON_ : Z := Z.shiftl 1 1.
Definition ECHO_ : Z := Z.shiftl 1 3.
Definition ECHOE_ : Z := Z.shiftl 1 4.
Definition ECHOK_ : Z := Z.shiftl 1 5.
Definition ECHOKE_ : Z := Z.shiftl 1 6.
Definition NOFLSH_ : Z := Z.shiftl 1 7.
Definition ECHOCTL_ : Z := Z.shiftl 1 9.
Definition IEXTEN_ : Z := Z.shiftl 1 15.
Definition INLCR_ : Z := Z.shiftl 1 6.
Definition IGNCR_ : Z := Z.shiftl 1 7.
Definition ICRNL_ : Z := Z.shiftl 1 8.
Definition IXON_ : Z := Z.shiftl 1 10.
Definition OPOST_ : Z := Z.shiftl 1 0.
Definition ONLCR_ : Z := Z.shiftl 1 2.
Definition OCRNL_ : Z := Z.shiftl 1 3.
Definition ONLRET_ : Z := Z.shiftl 1 5.
Definition TCGETS_ : Z := 21505.
Definition TCSETS_ : Z := 21506.
Definition TCSETSW_ : Z := 21507.
Definition TCSETSF_ : Z := 21508.
Definition TCFLSH_ : Z := 21515.
Definition TIOCSCTTY_ : Z := 21518.
Definition TIOCGPGRP_ : Z := 21519.
Definition TIOCSPGRP_ : Z := 21520.
Definition TIOCGWINSZ_ : Z := 21523.
Definition TIOCSWINSZ_ : Z := 21524.
Definition TIOCPKT_ : Z := 21536.
Definition TIOCGPTN_ : Z := 2147767344.
Definition TIOCSPTLCK_ : Z := 1074025521.
Definition TIOCGPKT_ : Z := 2147767352.
Definition FIONREAD_ : Z := 21531.
Definition TCIFLUSH_ : Z := 0.
Definition TCOFLUSH_ : Z := 1.
Definition TCIOFLUSH_ : Z := 2.
Definition TTY_BUF_SIZE : Z := 4096.
Definition MAX_PTYS : Z := 4096.
Definition TTY_ALTERNATE_MAJOR : Z := 5.
Definition DEV_TTY_MINOR : Z := 0.
Definition DEV_CONSOLE_MINOR : Z := 1.
Definition DEV_PTMX_MINOR : Z := 2.
Definition TTY_CONSOLE_MAJOR : Z := 4.
Definition TTY_PSEUDO_MASTER_MAJOR : Z := 128.
Definition TTY_PSEUDO_SLAVE_MAJOR : Z := 136.
Definition POLL_READ : Z := 1.
Definition POLL_PRI : Z := 2.
Definition POLL_WRITE : Z := 4.
Definition POLL_ERR : Z := 8.
Definition POLL_HUP : Z := 16.
Definition O_NOCTTY_ : Z := 256.

(** [struct winsize_]. *)
Record winsize := mk_winsize {
  row : Z;
  col : Z;
  xpixel : Z;
  ypixel : Z }.
Definition set_row (v : Z) (x : winsize) : winsize :=
  mk_winsize v (col x) (xpixel x) (ypixel x).
Definition set_col (v : Z) (x : winsize) : winsize :=
  mk_winsize (row x) v (xpixel x) (ypixel x).
Definition set_xpixel (v : Z) (x : winsize) : winsize :=
  mk_winsize (row x) (col x) v (ypixel x).
Definition set_ypixel (v : Z) (x : winsize) : winsize :=
  mk_winsize (row x) (col x) (xpixel x) v.

(** [struct termios_]; [cc] are 19 bytes. *)
Record termios := mk_termios {
  iflags : Z;
  oflags : Z;
  cflags : Z;
  lflags : Z;
  line : Z;
  cc : list Z }.
Definition set_iflags (v : Z) (x : termios) : termios :=
  mk_termios v (oflags x) (cflags x) (lflags x) (line x) (cc x).
Definition set_oflags (v : Z) (x : termios) : termios :=
  mk_termios (iflags x) v (cflags x) (lflags x) (line x) (cc x).
Definition set_cflags (v : Z) (x : termios) : termios :=
  mk_termios (iflags x) (oflags x) v (lflags x) (line x) (cc x).
Definition set_lflags (v : Z) (x : termios) : termios :=
  mk_termios (iflags x) (oflags x) (cflags x) v (line x) (cc x).
Definition set_line (v : Z) (x : termios) : termios :=
  mk_termios (iflags x) (oflags x) (cflags x) (lflags x) v (cc x).
Definition set_cc (v : list Z) (x : termios) : termios :=
  mk_termios (iflags x) (oflags x) (cflags x) (lflags x) (line x) v.

(** ** State *)

(** What [driver->ops] is. *)
Inductive tty_ops := pty_master_ops | pty_slave_ops | host_ops (k : Z).
(** An entry of [driver->ttys]: free, reserved (the pointer 1), or a terminal. *)
Inductive slot := Free | Reserved | Used (t : Z).

(** [struct tty_driver]; [d_ttys] is the address of the table of its terminals. *)
Record tty_driver := mk_driver {
  d_ops : tty_ops;
  d_major : Z;
  d_ttys : Z;
  d_limit : Z }.
Definition set_d_ops (v : tty_ops) (x : tty_driver) : tty_driver :=
  mk_driver v (d_major x) (d_ttys x) (d_limit x).
Definition set_d_major (v : Z) (x : tty_driver) : tty_driver :=
  mk_driver (d_ops x) v (d_ttys x) (d_limit x).
Definition set_d_ttys (v : Z) (x : tty_driver) : tty_driver :=
  mk_driver (d_ops x) (d_major x) v (d_limit x).
Definition set_d_limit (v : Z) (x : tty_driver) : tty_driver :=
  mk_driver (d_ops x) (d_major x) (d_ttys x) v.

(** [struct tty]: the buffer is two arrays of [TTY_BUF_SIZE]; the characters are signed.  The fields from [t_other] on are those of [pty]. *)
Record tty := mk_tty {
  t_refcount : Z;
  t_driver : Z;
  t_hung_up : bool;
  t_ever_opened : bool;
  t_buf : list Z;
  t_buf_flag : list bool;
  t_bufsize : Z;
  t_packet_flags : Z;
  t_winsize : winsize;
  t_termios : termios;
  t_type : Z;
  t_num : Z;
  t_session : Z;
  t_fg_group : Z;
  t_fds : list Z;
  t_other : option Z;
  t_perms : Z;
  t_uid : Z;
  t_gid : Z;
  t_locked : bool;
  t_packet_mode : bool }.
Definition set_t_refcount (v : Z) (x : tty) : tty :=
  mk_tty v (t_driver x) (t_hung_up x) (t_ever_opened x) (t_buf x) (t_buf_flag x) (t_bufsize x) (t_packet_flags x) (t_winsize x) (t_termios x) (t_type x) (t_num x) (t_session x) (t_fg_group x) (t_fds x) (t_other x) (t_perms x) (t_uid x) (t_gid x) (t_locked x) (t_packet_mode x).
Definition set_t_driver (v : Z) (x : tty) : tty :=
  mk_tty (t_refcount x) v (t_hung_up x) (t_ever_opened x) (t_buf x) (t_buf_flag x) (t_bufsize x) (t_packet_flags x) (t_winsize x) (t_termios x) (t_type x) (t_num x) (t_session x) (t_fg_group x) (t_fds x) (t_other x) (t_perms x) (t_uid x) (t_gid x) (t_locked x) (t_packet_mode x).
Definition set_t_hung_up (v : bool) (x : tty) : tty :=
  mk_tty (t_refcount x) (t_driver x) v (t_ever_opened x) (t_buf x) (t_buf_flag x) (t_bufsize x) (t_packet_flags x) (t_winsize x) (t_termios x) (t_type x) (t_num x) (t_session x) (t_fg_group x) (t_fds x) (t_other x) (t_perms x) (t_uid x) (t_gid x) (t_locked x) (t_packet_mode x).
Definition set_t_ever_opened (v : bool) (x : tty) : tty :=
  mk_tty (t_refcount x) (t_driver x) (t_hung_up x) v (t_buf x) (t_buf_flag x) (t_bufsize x) (t_packet_flags x) (t_winsize x) (t_termios x) (t_type x) (t_num x) (t_session x) (t_fg_group x) (t_fds x) (t_other x) (t_perms x) (t_uid x) (t_gid x) (t_locked x) (t_packet_mode x).
Definition set_t_buf (v : list Z) (x : tty) : tty :=
  mk_tty (t_refcount x) (t_driver x) (t_hung_up x) (t_ever_opened x) v (t_buf_flag x) (t_bufsize x) (t_packet_flags x) (t_winsize x) (t_termios x) (t_type x) (t_num x) (t_session x) (t_fg_group x) (t_fds x) (t_other x) (t_perms x) (t_uid x) (t_gid x) (t_locked x) (t_packet_mode x).
Definition set_t_buf_flag (v : list bool) (x : tty) : tty :=
  mk_tty (t_refcount x) (t_driver x) (t_hung_up x) (t_ever_opened x) (t_buf x) v (t_bufsize x) (t_packet_flags x) (t_winsize x) (t_termios x) (t_type x) (t_num x) (t_session x) (t_fg_group x) (t_fds x) (t_other x) (t_perms x) (t_uid x) (t_gid x) (t_locked x) (t_packet_mode x).
Definition set_t_bufsize (v : Z) (x : tty) : tty :=
  mk_tty (t_refcount x) (t_driver x) (t_hung_up x) (t_ever_opened x) (t_buf x) (t_buf_flag x) v (t_packet_flags x) (t_winsize x) (t_termios x) (t_type x) (t_num x) (t_session x) (t_fg_group x) (t_fds x) (t_other x) (t_perms x) (t_uid x) (t_gid x) (t_locked x) (t_packet_mode x).
Definition set_t_packet_flags (v : Z) (x : tty) : tty :=
  mk_tty (t_refcount x) (t_driver x) (t_hung_up x) (t_ever_opened x) (t_buf x) (t_buf_flag x) (t_bufsize x) v (t_winsize x) (t_termios x) (t_type x) (t_num x) (t_session x) (t_fg_group x) (t_fds x) (t_other x) (t_perms x) (t_uid x) (t_gid x) (t_locked x) (t_packet_mode x).
Definition set_t_winsize (v : winsize) (x : tty) : tty :=
  mk_tty (t_refcount x) (t_driver x) (t_hung_up x) (t_ever_opened x) (t_buf x) (t_buf_flag x) (t_bufsize x) (t_packet_flags x) v (t_termios x) (t_type x) (t_num x) (t_session x) (t_fg_group x) (t_fds x) (t_other x) (t_perms x) (t_uid x) (t_gid x) (t_locked x) (t_packet_mode x).
Definition set_t_termios (v : termios) (x : tty) : tty :=
  mk_tty (t_refcount x) (t_driver x) (t_hung_up x) (t_ever_opened x) (t_buf x) (t_buf_flag x) (t_bufsize x) (t_packet_flags x) (t_winsize x) v (t_type x) (t_num x) (t_session x) (t_fg_group x) (t_fds x) (t_other x) (t_perms x) (t_uid x) (t_gid x) (t_locked x) (t_packet_mode x).
Definition set_t_type (v : Z) (x : tty) : tty :=
  mk_tty (t_refcount x) (t_driver x) (t_hung_up x) (t_ever_opened x) (t_buf x) (t_buf_flag x) (t_bufsize x) (t_packet_flags x) (t_winsize x) (t_termios x) v (t_num x) (t_session x) (t_fg_group x) (t_fds x) (t_other x) (t_perms x) (t_uid x) (t_gid x) (t_locked x) (t_packet_mode x).
Definition set_t_num (v : Z) (x : tty) : tty :=
  mk_tty (t_refcount x) (t_driver x) (t_hung_up x) (t_ever_opened x) (t_buf x) (t_buf_flag x) (t_bufsize x) (t_packet_flags x) (t_winsize x) (t_termios x) (t_type x) v (t_session x) (t_fg_group x) (t_fds x) (t_other x) (t_perms x) (t_uid x) (t_gid x) (t_locked x) (t_packet_mode x).
Definition set_t_session (v : Z) (x : tty) : tty :=
  mk_tty (t_refcount x) (t_driver x) (t_hung_up x) (t_ever_opened x) (t_buf x) (t_buf_flag x) (t_bufsize x) (t_packet_flags x) (t_winsize x) (t_termios x) (t_type x) (t_num x) v (t_fg_group x) (t_fds x) (t_other x) (t_perms x) (t_uid x) (t_gid x) (t_locked x) (t_packet_mode x).
Definition set_t_fg_group (v : Z) (x : tty) : tty :=
  mk_tty (t_refcount x) (t_driver x) (t_hung_up x) (t_ever_opened x) (t_buf x) (t_buf_flag x) (t_bufsize x) (t_packet_flags x) (t_winsize x) (t_termios x) (t_type x) (t_num x) (t_session x) v (t_fds x) (t_other x) (t_perms x) (t_uid x) (t_gid x) (t_locked x) (t_packet_mode x).
Definition set_t_fds (v : list Z) (x : tty) : tty :=
  mk_tty (t_refcount x) (t_driver x) (t_hung_up x) (t_ever_opened x) (t_buf x) (t_buf_flag x) (t_bufsize x) (t_packet_flags x) (t_winsize x) (t_termios x) (t_type x) (t_num x) (t_session x) (t_fg_group x) v (t_other x) (t_perms x) (t_uid x) (t_gid x) (t_locked x) (t_packet_mode x).
Definition set_t_other (v : option Z) (x : tty) : tty :=
  mk_tty (t_refcount x) (t_driver x) (t_hung_up x) (t_ever_opened x) (t_buf x) (t_buf_flag x) (t_bufsize x) (t_packet_flags x) (t_winsize x) (t_termios x) (t_type x) (t_num x) (t_session x) (t_fg_group x) (t_fds x) v (t_perms x) (t_uid x) (t_gid x) (t_locked x) (t_packet_mode x).
Definition set_t_perms (v : Z) (x : tty) : tty :=
  mk_tty (t_refcount x) (t_driver x) (t_hung_up x) (t_ever_opened x) (t_buf x) (t_buf_flag x) (t_bufsize x) (t_packet_flags x) (t_winsize x) (t_termios x) (t_type x) (t_num x) (t_session x) (t_fg_group x) (t_fds x) (t_other x) v (t_uid x) (t_gid x) (t_locked x) (t_packet_mode x).
Definition set_t_uid (v : Z) (x : tty) : tty :=
  mk_tty (t_refcount x) (t_driver x) (t_hung_up x) (t_ever_opened x) (t_buf x) (t_buf_flag x) (t_bufsize x) (t_packet_flags x) (t_winsize x) (t_termios x) (t_type x) (t_num x) (t_session x) (t_fg_group x) (t_fds x) (t_other x) (t_perms x) v (t_gid x) (t_locked x) (t_packet_mode x).
Definition set_t_gid (v : Z) (x : tty) : tty :=
  mk_tty (t_refcount x) (t_driver x) (t_hung_up x) (t_ever_opened x) (t_buf x) (t_buf_flag x) (t_bufsize x) (t_packet_flags x) (t_winsize x) (t_termios x) (t_type x) (t_num x) (t_session x) (t_fg_group x) (t_fds x) (t_other x) (t_perms x) (t_uid x) v (t_locked x) (t_packet_mode x).
Definition set_t_locked (v : bool) (x : tty) : tty :=
  mk_tty (t_refcount x) (t_driver x) (t_hung_up x) (t_ever_opened x) (t_buf x) (t_buf_flag x) (t_bufsize x) (t_packet_flags x) (t_winsize x) (t_termios x) (t_type x) (t_num x) (t_session x) (t_fg_group x) (t_fds x) (t_other x) (t_perms x) (t_uid x) (t_gid x) v (t_packet_mode x).
Definition set_t_packet_mode (v : bool) (x : tty) : tty :=
  mk_tty (t_refcount x) (t_driver x) (t_hung_up x) (t_ever_opened x) (t_buf x) (t_buf_flag x) (t_bufsize x) (t_packet_flags x) (t_winsize x) (t_termios x) (t_type x) (t_num x) (t_session x) (t_fg_group x) (t_fds x) (t_other x) (t_perms x) (t_uid x) (t_gid x) (t_locked x) v.

(** What terminals use of a thread group. *)
Record tgroup := mk_tgroup {
  tg_tty : option Z;
  tg_sid : Z;
  tg_pgid : Z }.
Definition set_tg_tty (v : option Z) (x : tgroup) : tgroup :=
  mk_tgroup v (tg_sid x) (tg_pgid x).
Definition set_tg_sid (v : Z) (x : tgroup) : tgroup :=
  mk_tgroup (tg_tty x) v (tg_pgid x).
Definition set_tg_pgid (v : Z) (x : tgroup) : tgroup :=
  mk_tgroup (tg_tty x) (tg_sid x) v.

(** The terminals, the drivers and their tables, the driver of a major number, the terminal of an open file and the number of one in devpts, the thread groups, the groups of a session by its number, the console, whether the current task takes a stop signal, and what newly allocated memory holds. *)
Record world := mk_world {
  ttys : gmap Z tty;
  drivers : gmap Z tty_driver;
  tty_tables : gmap Z (list slot);
  tty_drivers : gmap Z Z;
  fd_tty : gmap Z Z;
  fd_num : gmap Z Z;
  tgroups : gmap Z tgroup;
  current_group : Z;
  sessions : gmap Z (list Z);
  console : Z * Z;
  self_signals : bool;
  heap : tty;
  waits : list (Z * tty);
  woken : list Z;
  sent : list (Z * Z);
  self_sent : list Z }.
Definition set_ttys (v : gmap Z tty) (x : world) : world :=
  mk_world v (drivers x) (tty_tables x) (tty_drivers x) (fd_tty x) (fd_num x) (tgroups x) (current_group x) (sessions x) (console x) (self_signals x) (heap x) (waits x) (woken x) (sent x) (self_sent x).
Definition set_drivers (v : gmap Z tty_driver) (x : world) : world :=
  mk_world (ttys x) v (tty_tables x) (tty_drivers x) (fd_tty x) (fd_num x) (tgroups x) (current_group x) (sessions x) (console x) (self_signals x) (heap x) (waits x) (woken x) (sent x) (self_sent x).
Definition set_tty_tables (v : gmap Z (list slot)) (x : world) : world :=
  mk_world (ttys x) (drivers x) v (tty_drivers x) (fd_tty x) (fd_num x) (tgroups x) (current_group x) (sessions x) (console x) (self_signals x) (heap x) (waits x) (woken x) (sent x) (self_sent x).
Definition set_tty_drivers (v : gmap Z Z) (x : world) : world :=
  mk_world (ttys x) (drivers x) (tty_tables x) v (fd_tty x) (fd_num x) (tgroups x) (current_group x) (sessions x) (console x) (self_signals x) (heap x) (waits x) (woken x) (sent x) (self_sent x).
Definition set_fd_tty (v : gmap Z Z) (x : world) : world :=
  mk_world (ttys x) (drivers x) (tty_tables x) (tty_drivers x) v (fd_num x) (tgroups x) (current_group x) (sessions x) (console x) (self_signals x) (heap x) (waits x) (woken x) (sent x) (self_sent x).
Definition set_fd_num (v : gmap Z Z) (x : world) : world :=
  mk_world (ttys x) (drivers x) (tty_tables x) (tty_drivers x) (fd_tty x) v (tgroups x) (current_group x) (sessions x) (console x) (self_signals x) (heap x) (waits x) (woken x) (sent x) (self_sent x).
Definition set_tgroups (v : gmap Z tgroup) (x : world) : world :=
  mk_world (ttys x) (drivers x) (tty_tables x) (tty_drivers x) (fd_tty x) (fd_num x) v (current_group x) (sessions x) (console x) (self_signals x) (heap x) (waits x) (woken x) (sent x) (self_sent x).
Definition set_current_group (v : Z) (x : world) : world :=
  mk_world (ttys x) (drivers x) (tty_tables x) (tty_drivers x) (fd_tty x) (fd_num x) (tgroups x) v (sessions x) (console x) (self_signals x) (heap x) (waits x) (woken x) (sent x) (self_sent x).
Definition set_sessions (v : gmap Z (list Z)) (x : world) : world :=
  mk_world (ttys x) (drivers x) (tty_tables x) (tty_drivers x) (fd_tty x) (fd_num x) (tgroups x) (current_group x) v (console x) (self_signals x) (heap x) (waits x) (woken x) (sent x) (self_sent x).
Definition set_console (v : Z * Z) (x : world) : world :=
  mk_world (ttys x) (drivers x) (tty_tables x) (tty_drivers x) (fd_tty x) (fd_num x) (tgroups x) (current_group x) (sessions x) v (self_signals x) (heap x) (waits x) (woken x) (sent x) (self_sent x).
Definition set_self_signals (v : bool) (x : world) : world :=
  mk_world (ttys x) (drivers x) (tty_tables x) (tty_drivers x) (fd_tty x) (fd_num x) (tgroups x) (current_group x) (sessions x) (console x) v (heap x) (waits x) (woken x) (sent x) (self_sent x).
Definition set_heap (v : tty) (x : world) : world :=
  mk_world (ttys x) (drivers x) (tty_tables x) (tty_drivers x) (fd_tty x) (fd_num x) (tgroups x) (current_group x) (sessions x) (console x) (self_signals x) v (waits x) (woken x) (sent x) (self_sent x).
Definition set_waits (v : list (Z * tty)) (x : world) : world :=
  mk_world (ttys x) (drivers x) (tty_tables x) (tty_drivers x) (fd_tty x) (fd_num x) (tgroups x) (current_group x) (sessions x) (console x) (self_signals x) (heap x) v (woken x) (sent x) (self_sent x).
Definition set_woken (v : list Z) (x : world) : world :=
  mk_world (ttys x) (drivers x) (tty_tables x) (tty_drivers x) (fd_tty x) (fd_num x) (tgroups x) (current_group x) (sessions x) (console x) (self_signals x) (heap x) (waits x) v (sent x) (self_sent x).
Definition set_sent (v : list (Z * Z)) (x : world) : world :=
  mk_world (ttys x) (drivers x) (tty_tables x) (tty_drivers x) (fd_tty x) (fd_num x) (tgroups x) (current_group x) (sessions x) (console x) (self_signals x) (heap x) (waits x) (woken x) v (self_sent x).
Definition set_self_sent (v : list Z) (x : world) : world :=
  mk_world (ttys x) (drivers x) (tty_tables x) (tty_drivers x) (fd_tty x) (fd_num x) (tgroups x) (current_group x) (sessions x) (console x) (self_signals x) (heap x) (waits x) (woken x) (sent x) v.

Abbreviation T := (V world).

Definition upd_world (g : world -> world) : T unit := modify (fun s => set_fsd (g (fsd s)) s).
Definition get_world : T world := gets (fun s => fsd s).
Definition get_tty (t : Z) : T tty := let! w := get_world in deref (ttys w !! t).
Definition upd_tty (t : Z) (g : tty -> tty) : T unit :=
  let! x := get_tty t in upd_world (fun w => set_ttys (<[t := g x]> (ttys w)) w).
Definition get_driver (d : Z) : T tty_driver := let! w := get_world in deref (drivers w !! d).
Definition get_group (g : Z) : T tgroup := let! w := get_world in deref (tgroups w !! g).
Definition upd_group (g : Z) (h : tgroup -> tgroup) : T unit :=
  let! x := get_group g in upd_world (fun w => set_tgroups (<[g := h x]> (tgroups w)) w).

(** The addresses of the two drivers of pseudo-terminals. *)
Definition pty_master : Z := 1.
Definition pty_slave : Z := 2.

(** The operations of the host's drivers. *)
Class HostTty := {
  host_init : Z -> option (Z -> T Z);
  host_open : Z -> option (Z -> T Z);
  host_close : Z -> option (Z -> T Z);
  host_write : Z -> Z -> list Z -> bool -> T Z;
  host_ioctl : Z -> option (Z -> Z -> T Z);
  host_cleanup : Z -> option (Z -> T unit);
}.

(** [wait_for] with the lock of terminal [t]. *)
Definition wait_for (t : Z) : T Z :=
  let! w := get_world in
  match waits w with
  | [] => hang
  | (err, x) :: rest => upd_world (fun w => set_waits rest (set_ttys (<[t := x]> (ttys w)) w)) ;; ret err
  end.

(** [send_group_signal] and [try_self_signal] (kernel/signal.c). *)
Definition send_group_signal (group sig : Z) : T unit := upd_world (fun w => set_sent (sent w ++ [(group, sig)]) w).
Definition try_self_signal (sig : Z) : T bool :=
  let! w := get_world in
  (if self_signals w then upd_world (fun w => set_self_sent (self_sent w ++ [sig]) w) else ret tt) ;;
  ret (self_signals w).

(** ** Allocation *)

Definition default_termios : termios :=
  mk_termios (Z.lor ICRNL_ IXON_) (Z.lor OPOST_ ONLCR_) 0
    (Z.lor (Z.lor (Z.lor ISIG_ ICANON_) (Z.lor ECHO_ ECHOE_)) (Z.lor (Z.lor ECHOK_ ECHOCTL_) (Z.lor ECHOKE_ IEXTEN_))) 0
    [3; 28; 127; 21; 4; 0; 1; 0; 17; 19; 26; 0; 18; 15; 23; 22; 0; 0; 0].

(** The fields of [pty], the contents of the buffer and [termios.line] stay as the memory was. *)
Definition tty_alloc (driver type num : Z) : T Z :=
  let! t := malloc in
  let! w := get_world in
  let h := heap w in
  let x := mk_tty 0 driver false false (t_buf h) (replicate (Z.to_nat TTY_BUF_SIZE) false) 0 0 (mk_winsize 0 0 0 0)
    (set_line (line (t_termios h)) default_termios) type num 0 0 [] (t_other h) (t_perms h) (t_uid h) (t_gid h) (t_locked h) (t_packet_mode h) in
  upd_world (fun w => set_ttys (<[t := x]> (ttys w)) w) ;;
  ret t.

Definition table_slot (driver : tty_driver) (num : Z) : T slot :=
  let! w := get_world in
  let! l := deref (tty_tables w !! d_ttys driver) in
  in_bounds (0 <=? num) ;;
  deref (l !! Z.to_nat num).
Definition set_table_slot (driver : tty_driver) (num : Z) (v : slot) : T unit :=
  let! w := get_world in
  let! l := deref (tty_tables w !! d_ttys driver) in
  in_bounds ((0 <=? num) && (num <? Z.of_nat (length l))) ;;
  upd_world (fun w => set_tty_tables (<[d_ttys driver := <[Z.to_nat num := v]> l]> (tty_tables w)) w).

(** ** Hanging up and waking readers *)

Definition tty_input_wakeup (t : Z) : T unit := upd_world (fun w => set_woken (woken w ++ [t]) w).
Definition tty_hangup (t : Z) : T unit :=
  upd_tty t (set_t_hung_up true) ;;
  tty_input_wakeup t.

Definition pty_slave_init_inode (t : Z) : T unit :=
  let! s := gets id in
  upd_tty t (set_t_uid (euid (current s))) ;;
  upd_tty t (set_t_gid (egid (current s))) ;;
  upd_tty t (set_t_perms 400). (* 0620 *)

Definition pty_master_init (t : Z) : T Z :=
  upd_tty t (fun x => set_t_termios (set_lflags 0 (set_oflags 0 (set_iflags 0 (t_termios x)))) x) ;;
  let! x := get_tty t in
  let! slave := tty_alloc pty_slave TTY_PSEUDO_SLAVE_MAJOR (t_num x) in
  upd_tty slave (set_t_refcount 1) ;;
  let! d := get_driver pty_slave in
  set_table_slot d (t_num x) (Used slave) ;;
  upd_tty t (set_t_other (Some slave)) ;;
  upd_tty slave (set_t_other (Some t)) ;;
  upd_tty slave (set_t_locked true) ;;
  pty_slave_init_inode slave ;;
  ret 0.

Definition pty_hangup_other (t : Z) : T (option Z) :=
  let! x := get_tty t in
  match t_other x with
  | None => ret None
  | Some o => tty_hangup o ;; ret (Some o)
  end.

Definition pty_slave_open (t : Z) : T Z :=
  let! x := get_tty t in
  match t_other x with
  | None => ret _EIO
  | Some _ => ret (if t_locked x then _EIO else 0)
  end.

Definition pty_slave_close (t : Z) : T Z :=
  let! x := get_tty t in
  (if u32 (t_refcount x - 1) =? (if t_session x =? 0 then 1 else 2) then let! _ := pty_hangup_other t in ret tt else ret tt) ;;
  ret 0.

Section WithHost.
Context {HT : HostTty}.

Definition ops_of (t : Z) : T tty_ops :=
  let! x := get_tty t in
  let! d := get_driver (t_driver x) in
  ret (d_ops d).

Definition ops_init (o : tty_ops) : option (Z -> T Z) :=
  match o with
  | pty_master_ops => Some pty_master_init
  | pty_slave_ops => Some (fun _ => ret _EIO)
  | host_ops k => host_init k
  end.

Definition tty_get (driver type num : Z) : T (Z + Z) :=
  let! d := get_driver driver in
  let! e := table_slot d num in
  let! t :=
    match e with
    | Used t => ret (inr t)
    | _ =>
        let! t := tty_alloc driver type num in
        let! err := match ops_init (d_ops d) with Some init => init t | None => ret 0 end in
        if err <? 0 then ret (inl err)
        else set_table_slot d num (Used t) ;; ret (inr t)
    end in
  match t with
  | inl err => ret (inl err)
  | inr t =>
      upd_tty t (fun x => set_t_refcount (u32 (t_refcount x + 1)) x) ;;
      upd_tty t (set_t_ever_opened true) ;;
      ret (inr t)
  end.

(** Releasing a terminal runs the clean-up of its driver; that of a master releases its slave. *)
Definition tty_release_with (cleanup : Z -> tty_ops -> T unit) (t : Z) : T unit :=
  upd_tty t (fun x => set_t_refcount (u32 (t_refcount x - 1)) x) ;;
  let! x := get_tty t in
  if t_refcount x =? 0 then
    let! d := get_driver (t_driver x) in
    cleanup t (d_ops d) ;;
    set_table_slot d (t_num x) Free ;;
    upd_world (fun w => set_ttys (delete t (ttys w)) w)
  else ret tt.
Definition slave_cleanup (t : Z) (o : tty_ops) : T unit :=
  match o with
  | host_ops k => match host_cleanup k with Some f => f t | None => ret tt end
  | _ => let! _ := pty_hangup_other t in ret tt
  end.
Definition pty_master_cleanup (t : Z) : T unit :=
  let! slave := pty_hangup_other t in
  let! slave := deref slave in
  upd_tty slave (set_t_other None) ;;
  tty_release_with slave_cleanup slave.
Definition tty_cleanup (t : Z) (o : tty_ops) : T unit :=
  match o with pty_master_ops => pty_master_cleanup t | _ => slave_cleanup t o end.
Definition tty_release (t : Z) : T unit := tty_release_with tty_cleanup t.

Definition get_slave_side_tty (t : Z) : T (option Z) :=
  let! x := get_tty t in
  ret (if t_type x =? TTY_PSEUDO_MASTER_MAJOR then t_other x else Some t).

(** ** Opening and closing *)

Definition tty_set_controlling (group t : Z) : T unit :=
  let! g := get_group group in
  match tg_tty g with
  | None =>
      upd_tty t (fun x => set_t_refcount (u32 (t_refcount x + 1)) x) ;;
      upd_group group (set_tg_tty (Some t)) ;;
      upd_tty t (set_t_session (tg_sid g)) ;;
      upd_tty t (set_t_fg_group (tg_pgid g))
  | Some _ => ret tt
  end.

Definition tty_open (t f : Z) : T Z :=
  upd_world (fun w => set_fd_tty (<[f := t]> (fd_tty w)) w) ;;
  upd_tty t (fun x => set_t_fds (f :: t_fds x) x) ;;
  let! fd := get_fd f in
  (if has (fd_flags fd) O_NOCTTY_ then ret tt
   else
     let! x := get_tty t in
     let! w := get_world in
     let! g := get_group (current_group w) in
     let! s := gets id in
     if (t_session x =? 0) && (tg_sid g =? pid (current s)) then tty_set_controlling (current_group w) t else ret tt) ;;
  ret 0.

(** How many entries there are before the first that is free. *)
Fixpoint first_free (l : list slot) : nat :=
  match l with [] => O | Free :: _ => O | _ :: l => S (first_free l) end.
Definition pty_reserve_next : T Z :=
  let! d := get_driver pty_slave in
  let! w := get_world in
  let! l := deref (tty_tables w !! d_ttys d) in
  let num := Z.of_nat (first_free (take (Z.to_nat MAX_PTYS) l)) in
  set_table_slot d num Reserved ;;
  ret num.

Definition ptmx_open (f : Z) : T Z :=
  let! num := pty_reserve_next in
  if num =? MAX_PTYS then ret _ENOSPC
  else
    let! master := tty_get pty_master TTY_PSEUDO_MASTER_MAJOR num in
    match master with
    | inl err => ret err
    | inr master => tty_open master f
    end.

Definition pty_open_fake (driver : Z) : T (Z + Z) :=
  let! num := pty_reserve_next in
  if num =? MAX_PTYS then ret (inl _ENOSPC)
  else
    let! slave := get_driver pty_slave in
    let! _ := get_driver driver in
    upd_world (fun w => set_drivers (alter (fun d => set_d_major TTY_PSEUDO_SLAVE_MAJOR (set_d_limit (d_limit slave) (set_d_ttys (d_ttys slave) d))) driver (drivers w)) w) ;;
    let! t := tty_get driver TTY_PSEUDO_SLAVE_MAJOR num in
    match t with
    | inl err => ret (inl err)
    | inr t => pty_slave_init_inode t ;; ret (inr t)
    end.

Definition ops_open (o : tty_ops) : option (Z -> T Z) :=
  match o with
  | pty_master_ops => Some (fun _ => ret _EIO)
  | pty_slave_ops => Some pty_slave_open
  | host_ops k => host_open k
  end.

(** The end of [tty_device_open], when the terminal is found and has a reference. *)
Definition tty_device_finish (t f : Z) : T Z :=
  let! o := ops_of t in
  let! err := match ops_open o with Some open => open t | None => ret 0 end in
  if err <? 0 then tty_release t ;; ret err else tty_open t f.

(** Opening the console once leads to another device; a console that leads to the console again does not end. *)
Fixpoint tty_device_open (fuel : nat) (major minor f : Z) : T Z :=
  match fuel with
  | O => hang
  | S fuel =>
      if major =? TTY_ALTERNATE_MAJOR then
        if minor =? DEV_TTY_MINOR then
          let! w := get_world in
          let! g := get_group (current_group w) in
          match tg_tty g with
          | None => ret _ENXIO
          | Some t => upd_tty t (fun x => set_t_refcount (u32 (t_refcount x + 1)) x) ;; tty_device_finish t f
          end
        else if minor =? DEV_CONSOLE_MINOR then
          let! w := get_world in tty_device_open fuel (fst (console w)) (snd (console w)) f
        else if minor =? DEV_PTMX_MINOR then ptmx_open f
        else ret _ENXIO
      else
        let! w := get_world in
        in_bounds ((0 <=? major) && (major <? 256)) ;;
        assert (match tty_drivers w !! major with Some _ => true | None => false end) ;;
        let! driver := deref (tty_drivers w !! major) in
        let! t := tty_get driver major minor in
        match t with
        | inl err => ret err
        | inr t => tty_device_finish t f
        end
  end.

Definition ops_close_tty (o : tty_ops) : option (Z -> T Z) :=
  match o with
  | pty_master_ops => None
  | pty_slave_ops => Some pty_slave_close
  | host_ops k => host_close k
  end.

Definition tty_close (f : Z) : T Z :=
  let! w := get_world in
  match fd_tty w !! f with
  | None => ret 0
  | Some t =>
      upd_tty t (fun x => set_t_fds (filter (fun g => g <> f) (t_fds x)) x) ;;
      let! o := ops_of t in
      match ops_close_tty o with Some close => let! _ := close t in ret tt | None => ret tt end ;;
      tty_release t ;;
      ret 0
  end.

(** ** Input *)

(** [while (tty->bufsize >= sizeof(tty->buf))]; the fuel is the number of wake-ups there can be. *)
Fixpoint push_wait (fuel : nat) (t : Z) (blocking : bool) : T Z :=
  let! x := get_tty t in
  if t_bufsize x <? TTY_BUF_SIZE then ret 0
  else if negb blocking then ret _EAGAIN
  else
    match fuel with
    | O => hang
    | S fuel =>
        let! err := wait_for t in
        if err =? 0 then push_wait fuel t blocking else ret _EINTR
    end.

Definition tty_push_char (t ch : Z) (flag blocking : bool) : T Z :=
  let! w := get_world in
  let! err := push_wait (length (waits w)) t blocking in
  if err <? 0 then ret err
  else
    let! x := get_tty t in
    in_bounds ((0 <=? t_bufsize x) && (t_bufsize x <? TTY_BUF_SIZE)) ;;
    upd_tty t (fun x => set_t_buf (<[Z.to_nat (t_bufsize x) := ch]> (t_buf x)) x) ;;
    upd_tty t (fun x => set_t_buf_flag (<[Z.to_nat (t_bufsize x) := flag]> (t_buf_flag x)) x) ;;
    upd_tty t (fun x => set_t_bufsize (t_bufsize x + 1) x) ;;
    ret 0.

(** [sigset_add]. *)
Definition sigset_add (queue sig : Z) : Z := Z.lor queue (Z.shiftl 1 (sig - 1)).
Definition cc_at (x : tty) (i : nat) : Z := nth i (cc (t_termios x)) 0.

(** Whether the character is one for a signal, and the signals to send. *)
Definition tty_send_input_signal (t ch queue : Z) : T (bool * Z) :=
  let! x := get_tty t in
  if negb (has (lflags (t_termios x)) ISIG_) then ret (false, queue)
  else if ch =? 0 then ret (false, queue)
  else
    let sig :=
      if ch =? cc_at x VINTR_ then Some 2 (* SIGINT_ *)
      else if ch =? cc_at x VQUIT_ then Some 3 (* SIGQUIT_ *)
      else if ch =? cc_at x VSUSP_ then Some Task.SIGTSTP_
      else None in
    match sig with
    | None => ret (false, queue)
    | Some sig =>
        if t_fg_group x =? 0 then ret (true, queue)
        else
          (if has (lflags (t_termios x)) NOFLSH_ then ret tt else upd_tty t (set_t_bufsize 0)) ;;
          ret (true, sigset_add queue sig)
    end.

Definition should_echoctl (lflags : Z) (x : tty) (ch : Z) : bool :=
  has lflags ECHOCTL_ && (((0 <=? ch) && (ch <? 32)) || (ch =? 127)) &&
  negb ((ch =? 9) || (ch =? 10) || (ch =? cc_at x VSTART_) || (ch =? cc_at x VSTOP_)).

(** The body is over the [write] of the driver, which of a pseudo-terminal is [tty_input] of the other side. *)
Section Discipline.
Variable write : Z -> list Z -> bool -> T Z.

Definition tty_echo (t : Z) (data : list Z) : T unit := let! _ := write t data false in ret tt.

(** Deleting at most [count] characters, not past a flag. *)
Fixpoint erase_loop (count : nat) (t lflags : Z) (echo : bool) : T unit :=
  match count with
  | O => ret tt
  | S count =>
      let! x := get_tty t in
      in_bounds (0 <? t_bufsize x) ;;
      let! flag := deref (t_buf_flag x !! Z.to_nat (t_bufsize x - 1) : option bool) in
      if flag then ret tt
      else
        upd_tty t (fun x => set_t_bufsize (t_bufsize x - 1) x) ;;
        (if echo then
           tty_echo t [8; 32; 8] ;;
           let! x := get_tty t in
           let! ch := deref (t_buf x !! Z.to_nat (t_bufsize x) : option Z) in
           if should_echoctl lflags x ch then tty_echo t [8; 32; 8] else ret tt
         else ret tt) ;;
        erase_loop count t lflags echo
  end.

Definition echo_char (t lflags ch : Z) : T unit :=
  let! x := get_tty t in
  if should_echoctl lflags x ch then tty_echo t [94] ;; tty_echo t [Z.lxor ch 64]
  else tty_echo t [ch].

(** The translations of a character; [None] is one that is dropped. *)
Definition translate (iflags ch : Z) : option Z :=
  let ch := if has iflags INLCR_ && (ch =? 10) then 13 else if has iflags ICRNL_ && (ch =? 13) then 10 else ch in
  if has iflags IGNCR_ && (ch =? 13) then None else Some ch.

(** One character in canonical mode: an error, or the signals to send. *)
Definition canon_char (t lflags iflags ch queue : Z) (blocking : bool) : T (Z + Z) :=
  match translate iflags ch with
  | None => ret (inr queue)
  | Some ch =>
      let echo := has lflags ECHO_ in
      let! x := get_tty t in
      let plain (queue : Z) : T (Z + Z) :=
        let! err := tty_push_char t ch false blocking in
        if err <? 0 then ret (inl err) else (if echo then echo_char t lflags ch else ret tt) ;; ret (inr queue) in
      let wake (ch : Z) : T (Z + Z) :=
        let! err := tty_push_char t ch true blocking in
        if err <? 0 then ret (inl err) else tty_input_wakeup t ;; ret (inr queue) in
      if ch =? 0 then plain queue
      else if (ch =? cc_at x VERASE_) || (ch =? cc_at x VKILL_) then
        let one := (ch =? cc_at x VERASE_) && (0 <? t_bufsize x) in
        let echo := (if one then has lflags ECHOE_ else has lflags ECHOK_) && has lflags ECHO_ in
        erase_loop (if one then 1%nat else Z.to_nat (t_bufsize x)) t lflags echo ;;
        ret (inr queue)
      else if ch =? cc_at x VEOF_ then wake 0
      else if (ch =? 10) || (ch =? cc_at x VEOL_) then
        (if echo then tty_echo t [13; 10] else ret tt) ;;
        wake ch
      else
        let! (signal, queue) := tty_send_input_signal t ch queue in
        if signal then (if echo then echo_char t lflags ch else ret tt) ;; ret (inr queue)
        else plain queue
  end.

(** [while (tty->bufsize >= sizeof(tty->buf))] of the other modes. *)
Fixpoint raw_push_wait (fuel : nat) (t : Z) (blocking : bool) : T Z :=
  let! x := get_tty t in
  if t_bufsize x <? TTY_BUF_SIZE then ret 0
  else if negb blocking then ret _EAGAIN
  else
    match fuel with
    | O => hang
    | S fuel => let! err := wait_for t in if err <? 0 then ret err else raw_push_wait fuel t blocking
    end.

(** One character otherwise.  The flag of its place in the buffer is not set. *)
Definition raw_char (t ch queue : Z) (blocking : bool) : T (Z + Z) :=
  let! (signal, queue) := tty_send_input_signal t ch queue in
  if signal then ret (inr queue)
  else
    let! w := get_world in
    let! err := raw_push_wait (length (waits w)) t blocking in
    if err <? 0 then ret (inl err)
    else
      let! x := get_tty t in
      assert (t_bufsize x <? TTY_BUF_SIZE) ;;
      in_bounds (0 <=? t_bufsize x) ;;
      upd_tty t (fun x => set_t_buf (<[Z.to_nat (t_bufsize x) := ch]> (t_buf x)) x) ;;
      upd_tty t (fun x => set_t_bufsize (t_bufsize x + 1) x) ;;
      ret (inr queue).

(** The loop over the input: the last error, the characters done, and the signals to send. *)
Fixpoint input_loop (char : Z -> Z -> T (Z + Z)) (input : list Z) (done_size queue : Z) : T (Z * Z * Z) :=
  match input with
  | [] => ret (0, done_size, queue)
  | ch :: input =>
      let! r := char ch queue in
      match r with
      | inl err => ret (err, done_size, queue)
      | inr queue => input_loop char input (done_size + 1) queue
      end
  end.

(** The signals of a set, in order. *)
Definition signals_of (queue : Z) : list Z := filter (fun sig => Z.testbit queue (sig - 1) = true) (Z.of_nat <$> seq 1 63).

Definition tty_input_with (t : Z) (input : list Z) (blocking : bool) : T Z :=
  let! x := get_tty t in
  let lflags := lflags (t_termios x) in
  let iflags := iflags (t_termios x) in
  let! (err, done_size, queue) :=
    if has lflags ICANON_ then input_loop (fun ch queue => canon_char t lflags iflags ch queue blocking) input 0 0
    else
      let! r := input_loop (fun ch queue => raw_char t ch queue blocking) input 0 0 in
      let! x := get_tty t in
      (if 0 <? t_bufsize x then tty_input_wakeup t else ret tt) ;;
      ret r in
  let! x := get_tty t in
  assert (t_bufsize x <=? TTY_BUF_SIZE) ;;
  (if t_fg_group x =? 0 then ret tt else for_each (signals_of queue) (send_group_signal (t_fg_group x))) ;;
  ret (if 0 <? done_size then done_size else err).

End Discipline.

(** The [write] of a driver.  Input of one side of a pseudo-terminal can be echoed to the other. *)
Fixpoint driver_write (depth : nat) (t : Z) (buf : list Z) (blocking : bool) : T Z :=
  let! o := ops_of t in
  match o with
  | host_ops k => host_write k t buf blocking
  | _ =>
      let! x := get_tty t in
      let! other := deref (t_other x) in
      match depth with
      | O => hang
      | S depth => tty_input_with (driver_write depth) other buf blocking
      end
  end.

Definition tty_input (t : Z) (input : list Z) (blocking : bool) : T Z := tty_input_with (driver_write 1) t input blocking.
Definition tty_driver_write (t : Z) (buf : list Z) (blocking : bool) : T Z := driver_write 2 t buf blocking.

(** ** Reading *)

Definition tty_read_into_buf (t n : Z) : T (list Z) :=
  let! x := get_tty t in
  assert (n <=? t_bufsize x) ;;
  let rest := t_bufsize x - n in
  let shift {A} (l : list A) := take (Z.to_nat rest) (drop (Z.to_nat n) l) ++ drop (Z.to_nat rest) l in
  upd_tty t (fun x => set_t_bufsize rest (set_t_buf (shift (t_buf x)) (set_t_buf_flag (shift (t_buf_flag x)) x))) ;;
  ret (take (Z.to_nat n) (t_buf x)).

(** The length of the first line, [-1] is [None]. *)
Definition tty_canon_size (x : tty) : option Z :=
  (fix find (l : list bool) (i : Z) : option Z :=
     match l with [] => None | true :: _ => Some (i + 1) | false :: l => find l (i + 1) end) (take (Z.to_nat (t_bufsize x)) (t_buf_flag x)) 0.

Definition pty_is_half_closed_master (t : Z) : T bool :=
  let! x := get_tty t in
  if negb (t_driver x =? pty_master) then ret false
  else
    let! o := deref (t_other x) in
    let! slave := get_tty o in
    ret (t_ever_opened slave && ((t_refcount slave =? 1) || t_hung_up slave)).

Definition tty_is_current (t : Z) : T bool :=
  let! w := get_world in
  let! g := get_group (current_group w) in
  ret (match tg_tty g with Some u => u =? t | None => false end).

Definition tty_signal_if_background (t current_pgid sig : Z) : T Z :=
  let! b := tty_is_current t in
  if negb b then ret 0
  else
    let! x := get_tty t in
    if (t_fg_group x =? 0) || (current_pgid =? t_fg_group x) then ret 0
    else
      let! sent := try_self_signal sig in
      ret (if sent then _EINTR else _EIO).

(** The terminal of an open file. *)
Definition tty_of (f : Z) : T Z := let! w := get_world in deref (fd_tty w !! f).

(** The loop that waits for a line: its length, or an error. *)
Fixpoint canon_wait (fuel : nat) (t : Z) (nonblock : bool) : T (Z + Z) :=
  let! x := get_tty t in
  match tty_canon_size x with
  | Some n => ret (inr n)
  | None =>
      let! half := pty_is_half_closed_master t in
      if half then ret (inl _EIO)
      else if nonblock then ret (inl _EAGAIN)
      else
        match fuel with
        | O => hang
        | S fuel => let! err := wait_for t in if err <? 0 then ret (inl err) else canon_wait fuel t nonblock
        end
  end.

(** The loop that waits for [min] characters: an error ends the read, and a time-out the wait. *)
Fixpoint raw_wait (fuel : nat) (t min : Z) (nonblock : bool) : T Z :=
  let! x := get_tty t in
  if min <=? t_bufsize x then ret 0
  else
    let! half := pty_is_half_closed_master t in
    if half then ret _EIO
    else if nonblock then ret _EAGAIN
    else
      match fuel with
      | O => hang
      | S fuel =>
          let! err := wait_for t in
          if err =? _ETIMEDOUT then ret 0 else if err =? _EINTR then ret err else raw_wait fuel t min nonblock
      end.

(** The end of a read: up to [bufsize] characters, and an end of file that comes next. *)
Definition read_finish (t bufsize : Z) : T (list Z) :=
  let! x := get_tty t in
  let! data := tty_read_into_buf t (Z.min bufsize (t_bufsize x)) in
  let! x := get_tty t in
  (if (0 <? t_bufsize x) && bool_decide (head (t_buf x) = Some 0) && bool_decide (head (t_buf_flag x) = Some true)
   then let! _ := tty_read_into_buf t 1 in ret tt else ret tt) ;;
  ret data.

Definition tty_read (f bufsize : Z) : T (Z + list Z) :=
  if bufsize =? 0 then ret (inr [])
  else
    let! t := tty_of f in
    let! fd := get_fd f in
    let! x := get_tty t in
    let! half := if t_hung_up x then ret true else pty_is_half_closed_master t in
    if half then ret (inl 0)
    else
      let! w := get_world in
      let! g := get_group (current_group w) in
      let! err := tty_signal_if_background t (tg_pgid g) Task.SIGTTIN_ in
      if err <? 0 then ret (inl err)
      else
        let! x := get_tty t in
        let packet := (t_driver x =? pty_master) && t_packet_mode x in
        let extra := if packet then [t_packet_flags x] else [] in
        let bufsize := if packet then bufsize - 1 else bufsize in
        if packet && (negb (t_packet_flags x =? 0) || (bufsize =? 0)) then ret (inr extra)
        else
          let! w := get_world in
          let! limit :=
            if has (lflags (t_termios x)) ICANON_ then
              let! r := canon_wait (length (waits w)) t (has (fd_flags fd) O_NONBLOCK_) in
              match r with
              | inl err => ret (inl err)
              | inr n =>
                  let! x := get_tty t in
                  let! last := deref (t_buf x !! Z.to_nat (n - 1) : option Z) in
                  ret (inr (Z.min bufsize (if last =? 0 then n - 1 else n)))
              end
            else
              let! err := raw_wait (length (waits w)) t (cc_at x VMIN_) (has (fd_flags fd) O_NONBLOCK_) in
              if err <? 0 then ret (inl err) else ret (inr bufsize) in
          match limit with
          | inl err => ret (inl err)
          | inr n => let! data := read_finish t n in ret (inr (extra ++ data))
          end.

(** ** Writing and polling *)

Fixpoint post_process (oflags : Z) (buf : list Z) : list Z :=
  match buf with
  | [] => []
  | ch :: buf =>
      if (ch =? 13) && has oflags ONLRET_ then post_process oflags buf
      else if (ch =? 13) && has oflags OCRNL_ then 10 :: post_process oflags buf
      else if (ch =? 10) && has oflags ONLCR_ then 13 :: ch :: post_process oflags buf
      else ch :: post_process oflags buf
  end.

Definition tty_write (f : Z) (buf : list Z) : T Z :=
  let! t := tty_of f in
  let! fd := get_fd f in
  let! x := get_tty t in
  let! half := if t_hung_up x then ret true else pty_is_half_closed_master t in
  if half then ret _EIO
  else
    let oflags := oflags (t_termios x) in
    let! err := tty_driver_write t (if has oflags OPOST_ then post_process oflags buf else buf) (negb (has (fd_flags fd) O_NONBLOCK_)) in
    ret (if err <? 0 then err else Z.of_nat (length buf)).

Definition tty_poll (f : Z) : T Z :=
  let! t := tty_of f in
  let! x := get_tty t in
  let! half := if t_hung_up x then ret false else pty_is_half_closed_master t in
  let types :=
    if t_hung_up x then Z.lor (Z.lor POLL_READ POLL_WRITE) (Z.lor POLL_ERR POLL_HUP)
    else if half then Z.lor POLL_READ POLL_HUP
    else if has (lflags (t_termios x)) ICANON_ then
      (match tty_canon_size x with Some _ => POLL_READ | None => 0 end)
    else if 0 <? t_bufsize x then POLL_READ else 0 in
  ret (Z.lor (Z.lor POLL_WRITE types) (if (t_driver x =? pty_master) && negb (t_packet_flags x =? 0) then POLL_PRI else 0)).

(** ** Settings *)

(** The argument of an [ioctl]: a number, or what a pointer leads to, by the command. *)
Inductive ioctl_arg := ArgNum (n : Z) | ArgTermios (v : termios) | ArgWinsize (v : winsize).

Definition tty_ioctl_size (cmd : Z) : Z :=
  if (cmd =? TCGETS_) || (cmd =? TCSETS_) || (cmd =? TCSETSF_) || (cmd =? TCSETSW_) then 36
  else if (cmd =? TIOCGWINSZ_) || (cmd =? TIOCSWINSZ_) then 8
  else if (cmd =? TIOCGPGRP_) || (cmd =? TIOCSPGRP_) || (cmd =? TIOCSPTLCK_) || (cmd =? TIOCGPTN_) || (cmd =? TIOCPKT_) ||
          (cmd =? TIOCGPKT_) || (cmd =? FIONREAD_) then 4
  else if (cmd =? TCFLSH_) || (cmd =? TIOCSCTTY_) then 0
  else -1.

Definition arg_num (a : ioctl_arg) : T Z := match a with ArgNum n => ret n | _ => fault end.
Definition arg_termios (a : ioctl_arg) : T termios := match a with ArgTermios v => ret v | _ => fault end.
Definition arg_winsize (a : ioctl_arg) : T winsize := match a with ArgWinsize v => ret v | _ => fault end.

Definition tiocsctty (t force : Z) : T Z :=
  let! s := gets id in
  let! w := get_world in
  let! g := get_group (current_group w) in
  let! x := get_tty t in
  if (tg_sid g =? pid (current s)) && (tg_sid g =? t_session x) then ret 0
  else match tg_tty g with
  | Some _ => ret _EPERM
  | None =>
      let! err :=
        if t_session x =? 0 then ret 0
        else if (force =? 1) && superuser (current s) then
          let! l := deref (sessions w !! t_session x) in
          for_each l (fun h =>
            let! y := get_group h in
            if match tg_tty y with Some u => u =? t | None => false end then
              upd_group h (set_tg_tty None) ;;
              upd_tty t (fun x => set_t_refcount (u32 (t_refcount x - 1)) x)
            else ret tt) ;;
          ret 0
        else ret _EPERM in
      if err <? 0 then ret err
      else tty_set_controlling (current_group w) t ;; ret 0
  end.

Definition tiocgpgrp (t : Z) : T (Z * option Z) :=
  let! slave := get_slave_side_tty t in
  let! slave := deref slave in
  let! y := get_tty slave in
  let! b := tty_is_current slave in
  if (t =? slave) && (negb b || (t_fg_group y =? 0)) then ret (_ENOTTY, None)
  else ret (0, Some (t_fg_group y)).

Definition tty_set_winsize (t : Z) (v : winsize) : T unit :=
  upd_tty t (set_t_winsize v) ;;
  let! x := get_tty t in
  if t_fg_group x =? 0 then ret tt else send_group_signal (t_fg_group x) Task.SIGWINCH_.

(** On the slave when the terminal is a master.  The second result is what is stored through the pointer. *)
Definition tty_mode_ioctl (in_tty cmd : Z) (arg : ioctl_arg) : T (Z * ioctl_arg) :=
  let! x := get_tty in_tty in
  let! t := if t_driver x =? pty_master then deref (t_other x) else ret in_tty in
  let! x := get_tty t in
  if cmd =? TCGETS_ then ret (0, ArgTermios (t_termios x))
  else if (cmd =? TCSETSF_) || (cmd =? TCSETSW_) || (cmd =? TCSETS_) then
    (if cmd =? TCSETSF_ then upd_tty t (set_t_bufsize 0) else ret tt) ;;
    let! v := arg_termios arg in
    upd_tty t (set_t_termios v) ;;
    ret (0, arg)
  else if cmd =? TIOCGWINSZ_ then ret (0, ArgWinsize (t_winsize x))
  else if cmd =? TIOCSWINSZ_ then let! v := arg_winsize arg in tty_set_winsize t v ;; ret (0, arg)
  else ret (_ENOTTY, arg).

Definition pty_master_ioctl (t cmd : Z) (arg : ioctl_arg) : T (Z * ioctl_arg) :=
  let! x := get_tty t in
  let! slave := deref (t_other x) in
  let! y := get_tty slave in
  if cmd =? TIOCSPTLCK_ then let! n := arg_num arg in upd_tty slave (set_t_locked (ctrue n)) ;; ret (0, arg)
  else if cmd =? TIOCGPTN_ then ret (0, ArgNum (u32 (t_num y)))
  else if cmd =? TIOCPKT_ then let! n := arg_num arg in upd_tty t (set_t_packet_mode (ctrue n)) ;; ret (0, arg)
  else if cmd =? TIOCGPKT_ then ret (0, ArgNum (cbool (t_packet_mode x)))
  else ret (_ENOTTY, arg).

(** The [ioctl] of a driver.  Those of the host get the command only. *)
Definition ops_ioctl (o : tty_ops) : option (Z -> Z -> ioctl_arg -> T (Z * ioctl_arg)) :=
  match o with
  | pty_master_ops => Some pty_master_ioctl
  | pty_slave_ops => None
  | host_ops k => (fun f t cmd arg => let! e := f t cmd in ret (e, arg)) <$> host_ioctl k
  end.

Definition tty_ioctl (f cmd : Z) (arg : ioctl_arg) : T (Z * ioctl_arg) :=
  let! t := tty_of f in
  let! x := get_tty t in
  if t_hung_up x then ret (if cmd =? TIOCSPGRP_ then _ENOTTY else _EIO, arg)
  else if cmd =? TCFLSH_ then
    let! n := arg_num arg in
    if (n =? TCIFLUSH_) || (n =? TCIOFLUSH_) then upd_tty t (set_t_bufsize 0) ;; ret (0, arg)
    else if n =? TCOFLUSH_ then ret (0, arg)
    else ret (_EINVAL, arg)
  else if cmd =? TIOCSCTTY_ then
    let! n := arg_num arg in
    let! err := tiocsctty t n in
    ret (err, arg)
  else if cmd =? TIOCGPGRP_ then
    let! (err, group) := tiocgpgrp t in
    ret (err, match group with Some g => ArgNum g | None => arg end)
  else if cmd =? TIOCSPGRP_ then
    let! w := get_world in
    let! g := get_group (current_group w) in
    let! b := tty_is_current t in
    if negb b || negb (tg_sid g =? t_session x) then ret (_ENOTTY, arg)
    else
      let! n := arg_num arg in
      upd_tty t (set_t_fg_group (s32 n)) ;;
      ret (0, arg)
  else if cmd =? FIONREAD_ then ret (0, ArgNum (u32 (t_bufsize x)))
  else
    let! (err, arg') := tty_mode_ioctl t cmd arg in
    let! o := ops_of t in
    if err =? _ENOTTY then match ops_ioctl o with Some ioctl => ioctl t cmd arg' | None => ret (err, arg') end
    else ret (err, arg').

(** ** devpts *)

(** Decimal digits, as [isdigits] and [atol] read them; [None] when one is no digit. *)
Fixpoint digits_value (acc : Z) (s : path) : option Z :=
  match s with
  | [] => Some acc
  | c :: s =>
      let n := Z.of_N (Ascii.N_of_ascii c) in
      if (48 <=? n) && (n <=? 57) then digits_value (10 * acc + (n - 48)) s else None
  end.

(** The test lets [MAX_PTYS] pass, which is past the end of the table. *)
Definition devpts_pty_exists (num : Z) : T bool :=
  if (num <? 0) || (MAX_PTYS <? num) then ret false
  else
    let! d := get_driver pty_slave in
    let! e := table_slot d num in
    ret (match e with Free => false | _ => true end).

(** The number of a path, -1 for the root, or an error. *)
Definition devpts_get_pty_num (p : path) : T Z :=
  match p with
  | [] => ret (-1)
  | c :: name =>
      if negb (c =? slash)%char || bool_decide (name = []) || bool_decide (slash ∈ name) then ret _ENOENT
      else
        match digits_value 0 name with
        | None => ret _ENOENT
        | Some n =>
            if 2 ^ 31 - 1 <? n then ret _ENOENT
            else
              let! b := devpts_pty_exists n in
              ret (if b then n else _ENOENT)
        end
  end.

(** [devpts_fdops] is the table of operations at this address. *)
Variable devpts_fdops : Z.

Definition devpts_open (mount : Z) (p : path) (flags mode : Z) : T (Z + Z) :=
  let! num := devpts_get_pty_num p in
  if num =? _ENOENT then ret (inl _ENOENT)
  else
    let! f := fd_create devpts_fdops in
    upd_world (fun w => set_fd_num (<[f := num]> (fd_num w)) w) ;;
    ret (inr f).

(** A slot that is reserved is the pointer 1. *)
Definition slave_at (num : Z) : T Z :=
  let! d := get_driver pty_slave in
  let! e := table_slot d num in
  match e with
  | Free => abort
  | Reserved => fault
  | Used t => ret t
  end.

Definition devpts_stat_num (num : Z) (stat : statbuf) : T statbuf :=
  if num =? -1 then ret (set_st_inode 1 (set_st_mode (Z.lor S_IFDIR 493) stat)) (* 0755 *)
  else
    let! t := slave_at num in
    let! x := get_tty t in
    ret (mk_statbuf (st_dev stat) (num + 3) (Z.lor S_IFCHR (t_perms x)) (st_nlink stat) (t_uid x) (t_gid x)
           (dev_make TTY_PSEUDO_SLAVE_MAJOR num) (st_size stat)).

Definition devpts_setattr_num (num : Z) (a : attr) : T Z :=
  if num =? -1 then ret _EROFS
  else
    match a with
    | attr_size _ => ret _EINVAL
    | _ =>
        let! t := slave_at num in
        upd_tty t (fun x => match a with
                            | attr_uid u => set_t_uid u x
                            | attr_gid g => set_t_gid g x
                            | attr_mode m => set_t_perms m x
                            | attr_size _ => x
                            end) ;;
        ret 0
    end.

Definition devpts_num (f : Z) : T Z := let! w := get_world in deref (fd_num w !! f).
Definition devpts_fstat (f : Z) (stat : statbuf) : T (Z + statbuf) :=
  let! num := devpts_num f in
  let! st := devpts_stat_num num stat in
  ret (inr st).
Definition devpts_stat (mount : Z) (p : path) (stat : statbuf) : T (Z + statbuf) :=
  let! num := devpts_get_pty_num p in
  if num =? _ENOENT then ret (inl _ENOENT)
  else let! st := devpts_stat_num num stat in ret (inr st).
(** The results of [devpts_setattr_num] are dropped. *)
Definition devpts_setattr (mount : Z) (p : path) (a : attr) : T Z :=
  let! num := devpts_get_pty_num p in
  if num =? _ENOENT then ret _ENOENT
  else let! _ := devpts_setattr_num num a in ret 0.
Definition devpts_fsetattr (f : Z) (a : attr) : T Z :=
  let! num := devpts_num f in
  let! _ := devpts_setattr_num num a in
  ret 0.

(** The first number from [num] on that exists. *)
Fixpoint next_pty (fuel : nat) (num : Z) : T Z :=
  match fuel with
  | O => ret num
  | S fuel =>
      if num <? MAX_PTYS then
        let! b := devpts_pty_exists num in
        if b then ret num else next_pty fuel (num + 1)
      else ret num
  end.

(** The decimal digits of a number, as [sprintf] prints them. *)
Fixpoint decimal (fuel : nat) (n : Z) : path :=
  match fuel with
  | O => []
  | S fuel => (if n <? 10 then [] else decimal fuel (n / 10)) ++ [Ascii.ascii_of_N (Z.to_N (48 + n mod 10))]
  end.

(** The result, and the inode and name of the entry with result 1. *)
Definition devpts_readdir (f : Z) : T (Z * option (Z * path)) :=
  let! num := devpts_num f in
  assert (num =? -1) ;;
  let! fd := get_fd f in
  let num := s32 (fd_offset fd) in
  let! num := next_pty (Z.to_nat (MAX_PTYS - num)) num in
  if MAX_PTYS <=? num then ret (0, None)
  else
    upd_fd f (set_fd_offset (num + 1)) ;;
    ret (1, Some (num + 3, decimal 10 num)).

Definition devpts_getpath (f : Z) : T (Z + path) :=
  let! num := devpts_num f in
  ret (inr (if num =? -1 then [] else slash :: decimal 10 num)).

End WithHost.

(** ** The buffer as a list of characters with their flags *)

Record wf_tty (x : tty) : Prop := {
  wf_buf : Z.of_nat (length (t_buf x)) = TTY_BUF_SIZE;
  wf_flag : Z.of_nat (length (t_buf_flag x)) = TTY_BUF_SIZE;
  wf_size : 0 <= t_bufsize x <= TTY_BUF_SIZE }.

Definition view (x : tty) : list (Z * bool) := zip (take (Z.to_nat (t_bufsize x)) (t_buf x)) (take (Z.to_nat (t_bufsize x)) (t_buf_flag x)).

(** The terminal with another buffer, and otherwise the same. *)
Definition same_settings (x y : tty) : Prop :=
  t_termios x = t_termios y /\ t_fg_group x = t_fg_group y /\ t_driver x = t_driver y /\ t_other x = t_other y /\ t_hung_up x = t_hung_up y /\
  t_refcount x = t_refcount y /\ t_session x = t_session y /\ t_fds x = t_fds y.
#[global] Instance same_settings_equiv : Equivalence same_settings.
Proof.
  split; unfold same_settings.
  - intros x. by split_and!.
  - intros x y (? & ? & ? & ? & ? & ? & ? & ?). by split_and!.
  - intros x y z (? & ? & ? & ? & ? & ? & ? & ?) (? & ? & ? & ? & ? & ? & ? & ?). split_and!; congruence.
Qed.

Section Buffer.
Implicit Types x : tty.

Lemma view_length x : wf_tty x -> Z.of_nat (length (view x)) = t_bufsize x.
Proof. intros [H1 H2 H3]. unfold view. rewrite length_zip_with, !length_take. lia. Qed.

Lemma zip_snoc {A B} (l : list A) (k : list B) a b : length l = length k -> zip (l ++ [a]) (k ++ [b]) = zip l k ++ [(a, b)].
Proof. intros H. by rewrite zip_with_app. Qed.
Lemma take_insert_snoc {A} (l : list A) n a : (n < length l)%nat -> take (S n) (<[n := a]> l) = take n l ++ [a].
Proof.
  intros H. rewrite (take_S_r _ _ a) by by rewrite list_lookup_insert_eq. f_equal. rewrite take_insert_ge by lia. done.
Qed.

Definition pushed (ch : Z) (flag : bool) x : tty :=
  set_t_bufsize (t_bufsize x + 1) (set_t_buf_flag (<[Z.to_nat (t_bufsize x) := flag]> (t_buf_flag x)) (set_t_buf (<[Z.to_nat (t_bufsize x) := ch]> (t_buf x)) x)).
Lemma pushed_wf ch flag x : wf_tty x -> t_bufsize x < TTY_BUF_SIZE -> wf_tty (pushed ch flag x) /\ view (pushed ch flag x) = view x ++ [(ch, flag)].
Proof.
  intros [H1 H2 H3] Hl. split; [split; cbn; rewrite ?length_insert; lia|]. unfold view. cbn.
  replace (Z.to_nat (t_bufsize x + 1)) with (S (Z.to_nat (t_bufsize x))) by lia. rewrite !take_insert_snoc by lia. apply zip_snoc. rewrite !length_take. lia.
Qed.

Definition shortened (n : Z) x : tty := set_t_bufsize n x.
Lemma shortened_wf n x : wf_tty x -> 0 <= n <= t_bufsize x -> wf_tty (shortened n x) /\ view (shortened n x) = take (Z.to_nat n) (view x).
Proof.
  intros [H1 H2 H3] Hn. split; [split; cbn; lia|]. unfold view. cbn. rewrite zip_with_take, !take_take. by rewrite Nat.min_l by lia.
Qed.

(** What [tty_read_into_buf] leaves. *)
Definition shift {A} (n rest : nat) (l : list A) : list A := take rest (drop n l) ++ drop rest l.
Definition consumed (n : Z) x : tty :=
  let rest := t_bufsize x - n in
  set_t_bufsize rest (set_t_buf (shift (Z.to_nat n) (Z.to_nat rest) (t_buf x)) (set_t_buf_flag (shift (Z.to_nat n) (Z.to_nat rest) (t_buf_flag x)) x)).
Lemma shift_length {A} n rest (l : list A) : (n + rest <= length l)%nat -> length (shift n rest l) = length l.
Proof. intros H. unfold shift. rewrite length_app, length_take, !length_drop. lia. Qed.
Lemma shift_take {A} n rest (l : list A) : (n + rest <= length l)%nat -> take rest (shift n rest l) = drop n (take (n + rest) l).
Proof.
  intros H. unfold shift. rewrite take_app_le by (rewrite length_take, length_drop; lia). rewrite take_take, Nat.min_id.
  by rewrite take_drop_commute.
Qed.
Lemma consumed_wf n x : wf_tty x -> 0 <= n <= t_bufsize x -> wf_tty (consumed n x) /\ view (consumed n x) = drop (Z.to_nat n) (view x).
Proof.
  intros [H1 H2 H3] Hn. split.
  - split; cbn; rewrite ?shift_length; lia.
  - unfold view. cbn. rewrite !shift_take by lia. replace (Z.to_nat n + Z.to_nat (t_bufsize x - n))%nat with (Z.to_nat (t_bufsize x)) by lia.
    by rewrite zip_with_drop.
Qed.
Lemma view_fst x n : wf_tty x -> 0 <= n <= t_bufsize x -> take (Z.to_nat n) (t_buf x) = take (Z.to_nat n) (fst <$> view x).
Proof.
  intros [H1 H2 H3] Hn. unfold view. rewrite fst_zip by (rewrite !length_take; lia). by rewrite take_take, Nat.min_l by lia.
Qed.
Lemma view_lookup x i ch flag : wf_tty x -> view x !! i = Some (ch, flag) -> t_buf x !! i = Some ch /\ t_buf_flag x !! i = Some flag.
Proof.
  intros W H. unfold view in H. apply lookup_zip_with_Some in H as (a & b & [= -> ->] & H1 & H2). apply lookup_take_Some in H1 as [H1 _]. by apply lookup_take_Some in H2 as [H2 _].
Qed.
(** The last character of the buffer. *)
Lemma view_last x p ch flag : wf_tty x -> view x = p ++ [(ch, flag)] ->
  t_bufsize x = Z.of_nat (length p) + 1 /\ t_buf x !! Z.to_nat (t_bufsize x - 1) = Some ch /\ t_buf_flag x !! Z.to_nat (t_bufsize x - 1) = Some flag.
Proof.
  intros W H. pose proof (view_length x W) as L. rewrite H, length_app in L. change (length [(ch, flag)]) with 1%nat in L. split; [lia|].
  apply view_lookup; [done|]. rewrite H, lookup_app_r by lia. by replace (Z.to_nat (t_bufsize x - 1) - length p)%nat with 0%nat by lia.
Qed.

End Buffer.

(** ** A line editor

    What canonical mode promises: finished lines, each with the character that ended it, and the line being typed. *)

Record editor := mk_editor { e_lines : list (list Z * Z); e_cur : list Z }.
Definition plain (l : list Z) : list (Z * bool) := (fun c => (c, false)) <$> l.
Definition flat_line (l : list Z * Z) : list (Z * bool) := plain (fst l) ++ [(snd l, true)].
Definition flat (e : editor) : list (Z * bool) := mjoin (flat_line <$> e_lines e) ++ plain (e_cur e).
Definition holds (x : tty) (e : editor) : Prop := wf_tty x /\ view x = flat e.

Inductive key := KDrop | KChar (c : Z) | KErase | KKill | KEnd (c : Z) | KSignal (sig : Z).
#[global] Instance key_eq_dec : EqDecision key.
Proof. solve_decision. Defined.

(** What a character is, by the settings; an end of file ends a line with a null. *)
Definition key_of (x : tty) (ch : Z) : key :=
  match translate (iflags (t_termios x)) ch with
  | None => KDrop
  | Some ch =>
      if ch =? 0 then KChar 0
      else if ch =? cc_at x VERASE_ then KErase
      else if ch =? cc_at x VKILL_ then KKill
      else if ch =? cc_at x VEOF_ then KEnd 0
      else if (ch =? 10) || (ch =? cc_at x VEOL_) then KEnd ch
      else if negb (has (lflags (t_termios x)) ISIG_) then KChar ch
      else if ch =? cc_at x VINTR_ then KSignal 2
      else if ch =? cc_at x VQUIT_ then KSignal 3
      else if ch =? cc_at x VSUSP_ then KSignal Task.SIGTSTP_
      else KChar ch
  end.

Definition flushes (x : tty) : bool := negb (t_fg_group x =? 0) && negb (has (lflags (t_termios x)) NOFLSH_).
Definition apply_key (x : tty) (e : editor) (k : key) : editor :=
  match k with
  | KDrop => e
  | KChar c => mk_editor (e_lines e) (e_cur e ++ [c])
  | KErase => mk_editor (e_lines e) (take (length (e_cur e) - 1) (e_cur e))
  | KKill => mk_editor (e_lines e) []
  | KEnd c => mk_editor (e_lines e ++ [(e_cur e, c)]) []
  | KSignal _ => if flushes x then mk_editor [] [] else e
  end.
(** The signals a key adds to those to be sent. *)
Definition key_signal (x : tty) (queue : Z) (k : key) : Z :=
  match k with KSignal sig => if t_fg_group x =? 0 then queue else sigset_add queue sig | _ => queue end.

Lemma plain_app a b : plain (a ++ b) = plain a ++ plain b.
Proof. apply fmap_app. Qed.
Lemma plain_fst l : fst <$> plain l = l.
Proof. unfold plain. rewrite <- list_fmap_compose. apply list_fmap_id. Qed.
Lemma plain_length l : length (plain l) = length l.
Proof. apply length_fmap. Qed.
Lemma flat_push e c : flat (mk_editor (e_lines e) (e_cur e ++ [c])) = flat e ++ [(c, false)].
Proof. unfold flat. cbn. by rewrite plain_app, app_assoc. Qed.
Lemma flat_end e c : flat (mk_editor (e_lines e ++ [(e_cur e, c)]) []) = flat e ++ [(c, true)].
Proof. unfold flat. cbn. rewrite fmap_app, join_app. cbn. unfold flat_line. cbn. by rewrite !app_nil_r, app_assoc. Qed.
Lemma flat_lines_last e : e_cur e = [] -> flat e = [] \/ exists p c, flat e = p ++ [(c, true)].
Proof.
  intros H. unfold flat. rewrite H. cbn. rewrite app_nil_r. destruct (e_lines e) as [|[l c] ls _] using rev_ind; [by left|]. right.
  rewrite fmap_app, join_app. exists (mjoin (flat_line <$> ls) ++ plain l), c. cbn. unfold flat_line at 2. cbn. by rewrite app_nil_r, app_assoc.
Qed.

(** ** Steps on terminals *)

Definition put_tty (t : Z) (x : tty) (s : vfs world) : vfs world := set_fsd (set_ttys (<[t := x]> (ttys (fsd s))) (fsd s)) s.
Definition wake (t : Z) (s : vfs world) : vfs world := set_fsd (set_woken (woken (fsd s) ++ [t]) (fsd s)) s.

Section Steps.
Implicit Types s : vfs world.

Lemma put_tty_lookup t x s : ttys (fsd (put_tty t x s)) !! t = Some x.
Proof. destruct s as [[] ? ? ? ? ? ? ?]. cbn. by rewrite lookup_insert_eq. Qed.
Lemma put_put_tty t x y s : put_tty t x (put_tty t y s) = put_tty t x s.
Proof. destruct s as [[] ? ? ? ? ? ? ?]. unfold put_tty. cbn. by rewrite insert_insert_eq. Qed.
Lemma put_tty_self t x s : ttys (fsd s) !! t = Some x -> put_tty t x s = s.
Proof. intros H. destruct s as [[] ? ? ? ? ? ? ?]. unfold put_tty. cbn in *. by rewrite insert_id. Qed.
Lemma get_tty_run t x s : ttys (fsd s) !! t = Some x -> get_tty t s = Ret x s.
Proof. intros H. unfold get_tty, get_world. rewrite (bind_step _ _ s (fsd s) s) by done. by rewrite H. Qed.
Lemma upd_tty_run t x g s : ttys (fsd s) !! t = Some x -> upd_tty t g s = Ret tt (put_tty t (g x) s).
Proof. intros H. unfold upd_tty. by rewrite (bind_step _ _ _ _ _ (get_tty_run _ _ _ H)). Qed.
Lemma push_wait_run fuel t x blocking s : ttys (fsd s) !! t = Some x -> t_bufsize x < TTY_BUF_SIZE -> push_wait fuel t blocking s = Ret 0 s.
Proof.
  intros H Hl. destruct fuel; cbn [push_wait]; rewrite (bind_step _ _ _ _ _ (get_tty_run _ _ _ H)); destruct (Z.ltb_spec (t_bufsize x) TTY_BUF_SIZE); done || lia.
Qed.
(** The end of [tty_push_char], when there is room. *)
Lemma push_tail_run t x ch flag s : ttys (fsd s) !! t = Some x -> 0 <= t_bufsize x < TTY_BUF_SIZE ->
  (let! x := get_tty t in
    in_bounds ((0 <=? t_bufsize x) && (t_bufsize x <? TTY_BUF_SIZE)) ;;
    upd_tty t (fun x => set_t_buf (<[Z.to_nat (t_bufsize x) := ch]> (t_buf x)) x) ;;
    upd_tty t (fun x => set_t_buf_flag (<[Z.to_nat (t_bufsize x) := flag]> (t_buf_flag x)) x) ;;
    upd_tty t (fun x => set_t_bufsize (t_bufsize x + 1) x) ;;
    ret 0) s = Ret 0 (put_tty t (pushed ch flag x) s).
Proof.
  intros H Hl. rewrite (bind_step _ _ _ _ _ (get_tty_run _ _ _ H)). unfold in_bounds.
  replace ((0 <=? t_bufsize x) && (t_bufsize x <? TTY_BUF_SIZE)) with true by (symmetry; apply andb_true_intro; split; [apply Z.leb_le|apply Z.ltb_lt]; lia).
  rewrite (bind_step _ _ s tt s) by done. rewrite (bind_step _ _ _ _ _ (upd_tty_run _ _ _ _ H)).
  rewrite (bind_step _ _ _ _ _ (upd_tty_run _ _ _ _ (put_tty_lookup _ _ _))), put_put_tty.
  rewrite (bind_step _ _ _ _ _ (upd_tty_run _ _ _ _ (put_tty_lookup _ _ _))), put_put_tty. done.
Qed.
Lemma push_char_run t x ch flag blocking s : ttys (fsd s) !! t = Some x -> 0 <= t_bufsize x < TTY_BUF_SIZE ->
  tty_push_char t ch flag blocking s = Ret 0 (put_tty t (pushed ch flag x) s).
Proof.
  intros H Hl. unfold tty_push_char. rewrite (bind_step _ _ s (fsd s) s) by done. rewrite (bind_step _ _ _ _ _ (push_wait_run _ _ x _ _ H (proj2 Hl))). by apply push_tail_run.
Qed.

End Steps.

(** The parts of the state that input leaves alone. *)
Definition frame (s : vfs world) : gmap Z fd * task * gmap Z Z * gmap Z tgroup * Z * list (Z * tty) * gmap Z tty_driver :=
  (fds s, current s, fd_tty (fsd s), tgroups (fsd s), current_group (fsd s), waits (fsd s), drivers (fsd s)).

(** A driver whose [write] returns and leaves the terminal, the signals sent and the frame alone, while [quiet] holds of the rest of the system. *)
Class Quiet (write : Z -> list Z -> bool -> T Z) (t : Z) := {
  quiet : world -> Prop;
  quiet_put x y w : ttys w !! t = Some x -> same_settings x y -> quiet w -> quiet (set_ttys (<[t := y]> (ttys w)) w);
  quiet_wake l w : quiet w -> quiet (set_woken l w);
  quiet_sent l w : quiet w -> quiet (set_sent l w);
  quiet_write buf s : quiet (fsd s) ->
    exists r s', write t buf false s = Ret r s' /\ ttys (fsd s') !! t = ttys (fsd s) !! t /\ sent (fsd s') = sent (fsd s) /\ quiet (fsd s') /\ frame s' = frame s;
}.

Section Canonical.
Variables (write : Z -> list Z -> bool -> T Z) (t : Z) (base : vfs world).
Context {Q : Quiet write t}.
Implicit Types s : vfs world.

(** The terminal [t] is [x], and the driver is quiet; [l] are the signals sent, and the frame is that of [base]. *)
Definition at_tty s (x : tty) (l : list (Z * Z)) : Prop := ttys (fsd s) !! t = Some x /\ quiet (fsd s) /\ sent (fsd s) = l /\ frame s = frame base.

Lemma at_put s x y l : at_tty s x l -> same_settings x y -> at_tty (put_tty t y s) y l.
Proof. intros (H1 & H2 & H3 & H4) Hs. split; [apply put_tty_lookup|]. unfold put_tty. destruct s. cbn in *. split_and!; [by eapply quiet_put|done|done]. Qed.
Lemma at_wake s x l : at_tty s x l -> at_tty (wake t s) x l.
Proof. intros (H1 & H2 & H3 & H4). unfold wake. destruct s. cbn in *. split_and!; [done|by apply quiet_wake|done|done]. Qed.
Lemma echo_run s x l data : at_tty s x l -> exists s', tty_echo write t data s = Ret tt s' /\ at_tty s' x l.
Proof.
  intros (H1 & H2 & H3 & H4). destruct (quiet_write data s H2) as (r & s' & E & Ht & Hs & Hq & Hf). exists s'. unfold tty_echo. rewrite (bind_step _ _ _ _ _ E).
  split; [done|]. split_and!; congruence || done.
Qed.
Lemma echo_char_run s x l lf ch : at_tty s x l -> exists s', echo_char write t lf ch s = Ret tt s' /\ at_tty s' x l.
Proof.
  intros A. unfold echo_char. rewrite (bind_step _ _ _ _ _ (get_tty_run _ _ _ (proj1 A))). destruct (should_echoctl lf x ch); [|by apply echo_run].
  destruct (echo_run s x l [94] A) as (s1 & E1 & A1). rewrite (bind_step _ _ _ _ _ E1). by apply echo_run.
Qed.
Lemma maybe_echo_run (b : bool) s x l lf ch : at_tty s x l -> exists s', (if b then echo_char write t lf ch else ret tt) s = Ret tt s' /\ at_tty s' x l.
Proof. intros A. destruct b; [by apply echo_char_run|]. by exists s. Qed.

(** Erasing takes characters off the line being typed, and stops at its start. *)
Lemma erase_run n s x l e lf (echo : bool) : at_tty s x l -> holds x e -> (n <= length (flat e))%nat ->
  exists s' y, erase_loop write n t lf echo s = Ret tt s' /\ at_tty s' y l /\ same_settings x y /\
    holds y (mk_editor (e_lines e) (take (length (e_cur e) - n) (e_cur e))).
Proof.
  revert s x e. induction n as [|n IH]; intros s x e A H Hn.
  - exists s, x. cbn. rewrite Nat.sub_0_r, firstn_all. destruct e. split_and!; done || reflexivity.
  - destruct H as [W Hv]. pose proof (view_length x W) as Hlen. rewrite Hv in Hlen. cbn [erase_loop].
    rewrite (bind_step _ _ _ _ _ (get_tty_run _ _ _ (proj1 A))). unfold in_bounds. destruct (Z.ltb_spec 0 (t_bufsize x)); [|lia]. rewrite (bind_step _ _ s tt s) by done.
    destruct (e_cur e) as [|a cur _] eqn:Ec using rev_ind.
    + destruct (flat_lines_last e Ec) as [E|(p & c & E)]; [rewrite E in Hn; cbn in Hn; lia|]. rewrite E in Hv.
      destruct (view_last x p c true W Hv) as (_ & _ & ->). rewrite (bind_step _ _ s true s) by done. exists s, x. split_and!; [done|done|reflexivity|].
      split; [done|]. rewrite Hv, <- E. unfold flat. by rewrite Ec.
    + assert (flat e = flat (mk_editor (e_lines e) cur) ++ [(a, false)]) as E.
      { rewrite <- flat_push. cbn. unfold flat. by rewrite Ec. }
      rewrite E in Hv, Hn. destruct (view_last x _ a false W Hv) as (Hlast & Hch & ->). rewrite (bind_step _ _ s false s) by done.
      rewrite (bind_step _ _ _ _ _ (upd_tty_run _ _ _ _ (proj1 A))). set (y := set_t_bufsize (t_bufsize x - 1) x).
      destruct (shortened_wf (t_bufsize x - 1) x W ltac:(lia)) as [Wy Hy]. fold y in Wy, Hy. pose proof (at_put s x y l A ltac:(by split_and!)) as A1.
      assert (holds y (mk_editor (e_lines e) cur)) as Hh.
      { split; [done|]. unfold shortened in Hy. fold y in Hy. rewrite Hy, Hv, take_app_le by lia. apply take_ge. lia. }
      assert (exists s2, (if echo then tty_echo write t [8; 32; 8] ;; let! x := get_tty t in let! ch := deref (t_buf x !! Z.to_nat (t_bufsize x) : option Z) in
        if should_echoctl lf x ch then tty_echo write t [8; 32; 8] else ret tt else ret tt) (put_tty t y s) = Ret tt s2 /\ at_tty s2 y l) as (s2 & E2 & A2).
      { destruct echo; [|by eexists]. destruct (echo_run _ _ _ [8; 32; 8] A1) as (s1 & E1 & A3). rewrite (bind_step _ _ _ _ _ E1), (bind_step _ _ _ _ _ (get_tty_run _ _ _ (proj1 A3))).
        change (t_buf y) with (t_buf x). change (t_bufsize y) with (t_bufsize x - 1). rewrite Hch, (bind_step _ _ s1 a s1) by done.
        destruct (should_echoctl lf y a); [by apply echo_run|by exists s1]. }
      rewrite (bind_step _ _ _ _ _ E2). rewrite length_app in Hn. change (length [(a, false)]) with 1%nat in Hn.
      destruct (IH s2 y (mk_editor (e_lines e) cur) A2 Hh ltac:(lia)) as (s' & z & E3 & A4 & Hs & Hz). exists s', z. split; [done|]. split; [done|]. split; [done|].
      cbn in Hz. rewrite length_app. cbn. replace (length cur + 1 - S n)%nat with (length cur - n)%nat by lia. rewrite take_app_le by lia. done.
Qed.

Lemma holds_size x e : holds x e -> Z.of_nat (length (flat e)) = t_bufsize x.
Proof. intros [W H]. rewrite <- H. by apply view_length. Qed.
Lemma holds_push x e ch flag e' : holds x e -> Z.of_nat (length (flat e)) < TTY_BUF_SIZE -> flat e' = flat e ++ [(ch, flag)] -> holds (pushed ch flag x) e'.
Proof. intros H Hl E. pose proof (holds_size x e H) as Hs. destruct H as [W Hv]. destruct (pushed_wf ch flag x W ltac:(lia)) as [W' H']. split; [done|congruence]. Qed.

(** Adding a character, with its echo before or after. *)
Lemma push_run s x l e ch flag b : at_tty s x l -> holds x e -> Z.of_nat (length (flat e)) < TTY_BUF_SIZE ->
  tty_push_char t ch flag b s = Ret 0 (put_tty t (pushed ch flag x) s) /\ at_tty (put_tty t (pushed ch flag x) s) (pushed ch flag x) l.
Proof.
  intros A H Hl. rewrite (holds_size x e H) in Hl. pose proof (wf_size x (proj1 H)). split; [|eapply at_put; [done|by split_and!]]. apply push_char_run; [exact (proj1 A)|lia].
Qed.

(** The code returned [v] and left a terminal with the settings of [x] and the contents [e]. *)
Definition lands {A} (r : outcome world A) (v : A) (x : tty) (l : list (Z * Z)) (e : editor) : Prop :=
  exists s' y, r = Ret v s' /\ at_tty s' y l /\ same_settings x y /\ holds y e.
Lemma lands_here {A} (v : A) s x l e : at_tty s x l -> holds x e -> lands (Ret v s) v x l e.
Proof. intros A' H. exists s, x. by split_and!. Qed.
Lemma lands_settings {A} (r : outcome world A) v x y l e : same_settings x y -> lands r v y l e -> lands r v x l e.
Proof. intros S (s' & z & E & A' & S' & H). exists s', z. split_and!; [done..| |done]. by etrans. Qed.
Lemma pushed_settings ch flag x : same_settings x (pushed ch flag x).
Proof. by split_and!. Qed.

Lemma plain_key s x l e ch lf (echo b : bool) (queue : Z) : at_tty s x l -> holds x e -> Z.of_nat (length (flat e)) < TTY_BUF_SIZE ->
  lands ((let! err := tty_push_char t ch false b in
          if err <? 0 then ret (inl err) else (if echo then echo_char write t lf ch else ret tt) ;; ret (inr queue)) s)
    (inr queue : Z + Z) x l (mk_editor (e_lines e) (e_cur e ++ [ch])).
Proof.
  intros A H Hl. destruct (push_run s x l e ch false b A H Hl) as [E A1]. rewrite (bind_step _ _ _ _ _ E). change (0 <? 0) with false. cbn iota.
  destruct (maybe_echo_run echo _ _ _ lf ch A1) as (s' & E2 & A2). rewrite (bind_step _ _ _ _ _ E2).
  eapply lands_settings; [apply pushed_settings|]. apply lands_here; [done|]. eapply holds_push; [done..|apply flat_push].
Qed.

Lemma end_key s x l e ch (b : bool) (queue : Z) : at_tty s x l -> holds x e -> Z.of_nat (length (flat e)) < TTY_BUF_SIZE ->
  lands ((let! err := tty_push_char t ch true b in if err <? 0 then ret (inl err) else tty_input_wakeup t ;; ret (inr queue)) s)
    (inr queue : Z + Z) x l (mk_editor (e_lines e ++ [(e_cur e, ch)]) []).
Proof.
  intros A H Hl. destruct (push_run s x l e ch true b A H Hl) as [E A1]. rewrite (bind_step _ _ _ _ _ E). change (0 <? 0) with false. cbn iota.
  eapply lands_settings; [apply pushed_settings|]. apply (lands_here _ (wake t (put_tty t (pushed ch true x) s))); [by apply at_wake|]. eapply holds_push; [done..|apply flat_end].
Qed.

Lemma erase_key (one echo : bool) s x l e lf (queue : Z) : at_tty s x l -> holds x e -> (one = true -> 0 < t_bufsize x) ->
  lands ((erase_loop write (if one then 1%nat else Z.to_nat (t_bufsize x)) t lf echo ;; ret (inr queue)) s)
    (inr queue : Z + Z) x l (mk_editor (e_lines e) (if one then take (length (e_cur e) - 1) (e_cur e) else [])).
Proof.
  intros A H Hone. pose proof (holds_size x e H) as Hs. assert (length (e_cur e) <= length (flat e))%nat as Hc by (unfold flat; rewrite length_app; unfold plain; rewrite length_fmap; lia).
  destruct (erase_run (if one then 1%nat else Z.to_nat (t_bufsize x)) s x l e lf echo A H) as (s' & y & E & A' & S & Hy); [destruct one; [specialize (Hone eq_refl)|]; lia|].
  rewrite (bind_step _ _ _ _ _ E). exists s', y. split_and!; [done..|]. destruct one; [done|]. replace (length (e_cur e) - Z.to_nat (t_bufsize x))%nat with 0%nat in Hy by lia. done.
Qed.

Lemma signal_key s x l e ch (queue : Z) : at_tty s x l -> holds x e -> has (lflags (t_termios x)) ISIG_ = true -> (ch =? 0) = false ->
  let sig := if ch =? cc_at x VINTR_ then Some 2 else if ch =? cc_at x VQUIT_ then Some 3 else if ch =? cc_at x VSUSP_ then Some Task.SIGTSTP_ else None in
  lands (tty_send_input_signal t ch queue s)
    (match sig with None => (false, queue) | Some g => (true, key_signal x queue (KSignal g)) end) x l
    (match sig with None => e | Some g => apply_key x e (KSignal g) end).
Proof.
  intros A H HI H0 sig. unfold tty_send_input_signal. rewrite (bind_step _ _ _ _ _ (get_tty_run _ _ _ (proj1 A))), HI, H0. cbn iota. fold sig. destruct sig as [g|]; [|by apply lands_here].
  cbn [key_signal apply_key]. unfold flushes. destruct (t_fg_group x =? 0); [by apply lands_here|]. cbn [negb andb]. destruct (has (lflags (t_termios x)) NOFLSH_).
  - rewrite (bind_step _ _ s tt s) by done. by apply lands_here.
  - rewrite (bind_step _ _ _ _ _ (upd_tty_run _ _ _ _ (proj1 A))). pose proof (wf_size x (proj1 H)). destruct (shortened_wf 0 x (proj1 H) ltac:(lia)) as [W Hv].
    apply (lands_settings _ _ x (shortened 0 x)); [by split_and!|]. apply lands_here; [eapply at_put; [done|by split_and!]|]. by split.
Qed.

(** One character is one key of the line editor. *)
Lemma canon_char_run s x l e ch queue b : at_tty s x l -> holds x e -> Z.of_nat (length (flat e)) < TTY_BUF_SIZE ->
  lands (canon_char write t (lflags (t_termios x)) (iflags (t_termios x)) ch queue b s) (inr (key_signal x queue (key_of x ch))) x l (apply_key x e (key_of x ch)).
Proof.
  intros A H Hl. unfold canon_char, key_of. destruct (translate (iflags (t_termios x)) ch) as [c|]; [|by apply lands_here].
  rewrite (bind_step _ _ _ _ _ (get_tty_run _ _ _ (proj1 A))). cbv zeta.
  destruct (Z.eqb_spec c 0) as [->|H0]; [by apply plain_key|].
  destruct (c =? cc_at x VERASE_) eqn:He; cbn [orb andb].
  { destruct (Z.ltb_spec 0 (t_bufsize x)) as [Hp|Hp].
    - by apply (erase_key true).
    - destruct (erase_key false (has (lflags (t_termios x)) ECHOK_ && has (lflags (t_termios x)) ECHO_) s x l e (lflags (t_termios x)) queue A H ltac:(done)) as (s' & y & E & A' & S & Hy).
      exists s', y. split_and!; [done..|]. pose proof (holds_size x e H) as Hs. pose proof (wf_size x (proj1 H)). destruct e as [ls cur]. unfold flat in Hs. cbn in *.
      rewrite length_app in Hs. unfold plain in Hs. rewrite length_fmap in Hs. destruct cur; [done|cbn in Hs; lia]. }
  destruct (c =? cc_at x VKILL_); [by apply (erase_key false)|]. destruct (c =? cc_at x VEOF_); [by apply end_key|].
  destruct ((c =? 10) || (c =? cc_at x VEOL_)).
  { destruct (has (lflags (t_termios x)) ECHO_).
    - destruct (echo_run s x l [13; 10] A) as (s1 & E1 & A1). rewrite (bind_step _ _ _ _ _ E1). by apply end_key.
    - rewrite (bind_step _ _ s tt s) by done. by apply end_key. }
  destruct (has (lflags (t_termios x)) ISIG_) eqn:HI; cbn [negb].
  - destruct (signal_key s x l e c queue A H HI ltac:(by apply Z.eqb_neq)) as (s1 & y & E1 & A1 & S1 & H1). rewrite (bind_step _ _ _ _ _ E1). clear E1.
    assert (forall g, holds y (apply_key x e (KSignal g)) -> lands (((if has (lflags (t_termios x)) ECHO_ then echo_char write t (lflags (t_termios x)) c else ret tt) ;;
      ret (inr (key_signal x queue (KSignal g)))) s1) (inr (key_signal x queue (KSignal g)) : Z + Z) x l (apply_key x e (KSignal g))) as Hsig.
    { intros g Hg. destruct (maybe_echo_run (has (lflags (t_termios x)) ECHO_) s1 y l (lflags (t_termios x)) c A1) as (s2 & E2 & A2). rewrite (bind_step _ _ _ _ _ E2).
      eapply lands_settings; [done|]. by apply lands_here. }
    destruct (c =? cc_at x VINTR_); [by apply Hsig|]. destruct (c =? cc_at x VQUIT_); [by apply Hsig|]. destruct (c =? cc_at x VSUSP_); [by apply Hsig|].
    eapply lands_settings; [done|]. by apply plain_key.
  - unfold tty_send_input_signal. erewrite bind_step by (erewrite bind_step by exact (get_tty_run _ _ _ (proj1 A)); rewrite HI; done). by apply plain_key.
Qed.

(** Typing several characters. *)
Definition keys_of (x : tty) (input : list Z) : list key := key_of x <$> input.
Definition type_keys (x : tty) (e : editor) (input : list Z) : editor := foldl (apply_key x) e (keys_of x input).
Definition typed_signals (x : tty) (queue : Z) (input : list Z) : Z := foldl (key_signal x) queue (keys_of x input).

Lemma same_keys x y : same_settings x y -> (forall ch, key_of x ch = key_of y ch) /\ (forall e k, apply_key x e k = apply_key y e k) /\ (forall q k, key_signal x q k = key_signal y q k).
Proof.
  intros (H1 & H2 & _). assert (forall i, cc_at x i = cc_at y i) as Hc by (intros; unfold cc_at; by rewrite H1). split_and!.
  - intros ch. unfold key_of. by rewrite H1, !Hc.
  - intros e []; try done. unfold apply_key, flushes. by rewrite H1, H2.
  - intros q []; try done. unfold key_signal. by rewrite H2.
Qed.
Lemma foldl_same {A B} (f g : A -> B -> A) l : forall a, (forall a b, f a b = g a b) -> foldl f a l = foldl g a l.
Proof. induction l as [|b l IH]; intros a H; [done|]. cbn. rewrite H. by apply IH. Qed.
Lemma same_typing x y input : same_settings x y -> (forall e, type_keys x e input = type_keys y e input) /\ (forall q, typed_signals x q input = typed_signals y q input).
Proof.
  intros S. destruct (same_keys x y S) as (K1 & K2 & K3). assert (keys_of x input = keys_of y input) as K by (apply list_fmap_ext; intros; apply K1).
  unfold type_keys, typed_signals. rewrite K. split; intros; by apply foldl_same.
Qed.
Lemma apply_key_size x e k : (length (flat (apply_key x e k)) <= length (flat e) + 1)%nat.
Proof.
  destruct k; cbn [apply_key]; [lia|rewrite flat_push, length_app; cbn; lia| | |rewrite flat_end, length_app; cbn; lia|destruct (flushes x); [cbn; lia|lia]];
    unfold flat; cbn [e_lines e_cur]; rewrite !length_app; unfold plain; rewrite !length_fmap, ?length_take; cbn; lia.
Qed.

Lemma input_loop_run input : forall s x l e n queue b, at_tty s x l -> holds x e -> Z.of_nat (length (flat e) + length input) <= TTY_BUF_SIZE ->
  lands (input_loop (fun ch queue => canon_char write t (lflags (t_termios x)) (iflags (t_termios x)) ch queue b) input n queue s)
    (0, n + Z.of_nat (length input), typed_signals x queue input) x l (type_keys x e input).
Proof.
  induction input as [|ch input IH]; intros s x l e n queue b A H Hl.
  - cbn [length Z.of_nat]. rewrite Z.add_0_r. by apply lands_here.
  - cbn [length] in Hl. cbn [input_loop]. destruct (canon_char_run s x l e ch queue b A H ltac:(lia)) as (s1 & y & E & A1 & S & H1). rewrite (bind_step _ _ _ _ _ E). cbn iota.
    pose proof (apply_key_size x e (key_of x ch)). destruct (same_typing x y input S) as (K1 & K2). pose proof (proj1 S) as St.
    specialize (IH s1 y l (apply_key x e (key_of x ch)) (n + 1) (key_signal x queue (key_of x ch)) b A1 H1 ltac:(lia)).
    rewrite <- St, <- K1, <- K2 in IH. eapply lands_settings; [exact S|]. by replace (n + Z.of_nat (length (ch :: input))) with (n + 1 + Z.of_nat (length input)) by (cbn; lia).
Qed.

(** The signals sent are those typed, each once and in order. *)
Lemma sigset_add_bit q g i : 0 < g -> 0 <= i -> Z.testbit (sigset_add q g) i = Z.testbit q i || (i =? g - 1).
Proof.
  intros Hg Hi. unfold sigset_add. rewrite Z.lor_spec, Z.shiftl_spec by lia. f_equal. destruct (Z.eqb_spec i (g - 1)) as [->|Hn].
  - by rewrite Z.sub_diag.
  - destruct (Z.ltb_spec i (g - 1)); [by rewrite Z.testbit_neg_r by lia|]. apply Z.bits_above_log2; cbn; lia.
Qed.
Lemma key_signal_pos x ch g : key_of x ch = KSignal g -> 0 < g.
Proof. unfold key_of. intros H. repeat case_match; congruence || (injection H as <-; done). Qed.
Lemma typed_bits x input : t_fg_group x <> 0 -> forall q g, 0 < g ->
  Z.testbit (typed_signals x q input) (g - 1) = Z.testbit q (g - 1) || bool_decide (KSignal g ∈ keys_of x input).
Proof.
  intros Hf. unfold typed_signals, keys_of. induction input as [|ch input IH]; intros q g Hg; [by rewrite orb_false_r|]. cbn [fmap list_fmap foldl]. rewrite IH by done.
  rewrite (bool_decide_ext (KSignal g ∈ _ :: _) (KSignal g = key_of x ch \/ KSignal g ∈ key_of x <$> input)) by apply elem_of_cons. rewrite bool_decide_or, orb_assoc. f_equal.
  destruct (key_of x ch) as [|c| | |c|h] eqn:Ek; cbn [key_signal]; try (rewrite bool_decide_false by done; by rewrite orb_false_r).
  destruct (Z.eqb_spec (t_fg_group x) 0); [done|]. pose proof (key_signal_pos _ _ _ Ek). rewrite sigset_add_bit by lia. f_equal.
  destruct (Z.eqb_spec (g - 1) (h - 1)); case_bool_decide as D; try done; [destruct D; f_equal; lia|injection D; lia].
Qed.
Lemma filter_same {A} (P P' : A -> Prop) `{!forall a, Decision (P a)} `{!forall a, Decision (P' a)} (l : list A) : (forall a, a ∈ l -> P a <-> P' a) -> filter P l = filter P' l.
Proof.
  induction l as [|a l IH]; intros E; [done|]. rewrite !filter_cons, (IH (fun b Hb => E b (list_elem_of_further _ _ _ Hb))).
  destruct (E a (list_elem_of_here _ _)). repeat case_decide; tauto.
Qed.
Lemma signals_typed x input : t_fg_group x <> 0 ->
  signals_of (typed_signals x 0 input) = filter (fun g => KSignal g ∈ keys_of x input) (Z.of_nat <$> seq 1 63).
Proof.
  intros Hf. unfold signals_of. apply filter_same. intros g Hg. apply list_elem_of_fmap in Hg as (k & -> & Hk%elem_of_seq).
  rewrite typed_bits by (done || lia). rewrite Z.testbit_0_l. cbn. apply bool_decide_eq_true.
Qed.

Lemma send_all (fg : Z) gs : forall s x l, at_tty s x l -> exists s', for_each gs (send_group_signal fg) s = Ret tt s' /\ at_tty s' x (l ++ ((fg,.) <$> gs)).
Proof.
  induction gs as [|g gs IH]; intros s x l A; cbn [for_each fmap list_fmap].
  - exists s. by rewrite app_nil_r.
  - destruct A as (A1 & A2 & A3 & A4). rewrite (bind_step _ _ s tt (set_fsd (set_sent (sent (fsd s) ++ [(fg, g)]) (fsd s)) s)) by done.
    destruct (IH (set_fsd (set_sent (sent (fsd s) ++ [(fg, g)]) (fsd s)) s) x (l ++ [(fg, g)])) as (s' & E & A').
    { destruct s. cbn in *. split_and!; [done|by apply quiet_sent|by rewrite A3|done]. }
    exists s'. split; [done|]. by rewrite <- app_assoc in A'.
Qed.


End Canonical.

(** Canonical input runs the line editor, and sends the signals typed to the foreground group. *)
Lemma canonical_input write t `{Q : !Quiet write t} (s : vfs world) x e input b : ttys (fsd s) !! t = Some x -> quiet (fsd s) -> holds x e -> has (lflags (t_termios x)) ICANON_ = true ->
  Z.of_nat (length (flat e) + length input) <= TTY_BUF_SIZE ->
  lands write t s (tty_input_with write t input b s) (Z.of_nat (length input)) x
    (sent (fsd s) ++ (if t_fg_group x =? 0 then [] else (t_fg_group x,.) <$> filter (fun g => KSignal g ∈ keys_of x input) (Z.of_nat <$> seq 1 63)))
    (type_keys x e input).
Proof.
  intros Hx Hq H HC Hl. assert (at_tty write t s s x (sent (fsd s))) as A by done. unfold tty_input_with. rewrite (bind_step _ _ _ _ _ (get_tty_run _ _ _ Hx)). cbv zeta. rewrite HC.
  destruct (input_loop_run write t s input s x (sent (fsd s)) e 0 0 b A H Hl) as (s1 & y & E & A1 & S & H1). rewrite (bind_step _ _ _ _ _ E). cbn iota beta.
  rewrite (bind_step _ _ _ _ _ (get_tty_run _ _ _ (proj1 A1))). unfold assert. pose proof (wf_size y (proj1 H1)). destruct (Z.leb_spec (t_bufsize y) TTY_BUF_SIZE); [|lia].
  rewrite (bind_step _ _ s1 tt s1) by done. rewrite <- (proj1 (proj2 S)).
  assert (exists s2, (if t_fg_group x =? 0 then ret tt else for_each (signals_of (typed_signals x 0 input)) (send_group_signal (t_fg_group x))) s1 = Ret tt s2 /\
    at_tty write t s s2 y (sent (fsd s) ++ (if t_fg_group x =? 0 then [] else (t_fg_group x,.) <$> filter (fun g => KSignal g ∈ keys_of x input) (Z.of_nat <$> seq 1 63)))) as (s2 & E2 & A2).
  { destruct (Z.eqb_spec (t_fg_group x) 0) as [|Hf]; [exists s1; by rewrite app_nil_r|]. rewrite <- signals_typed by done. by apply send_all. }
  rewrite (bind_step _ _ _ _ _ E2). exists s2, y. split_and!; [|done..]. unfold ret. f_equal. destruct (Z.ltb_spec 0 (0 + Z.of_nat (length input))); lia.
Qed.

(** ** Raw input *)

(** The characters in the buffer. *)
Definition text (x : tty) : list Z := take (Z.to_nat (t_bufsize x)) (t_buf x).
Definition raw_pushed (ch : Z) (x : tty) : tty := set_t_bufsize (t_bufsize x + 1) (set_t_buf (<[Z.to_nat (t_bufsize x) := ch]> (t_buf x)) x).
Definition raw_fill (l : list Z) (x : tty) : tty := foldl (fun x ch => raw_pushed ch x) x l.
Definition room (x : tty) : nat := Z.to_nat (TTY_BUF_SIZE - t_bufsize x).

Lemma text_length x : wf_tty x -> Z.of_nat (length (text x)) = t_bufsize x.
Proof. intros [H1 H2 H3]. unfold text. rewrite length_take. lia. Qed.
Lemma raw_pushed_wf ch x : wf_tty x -> t_bufsize x < TTY_BUF_SIZE -> wf_tty (raw_pushed ch x) /\ text (raw_pushed ch x) = text x ++ [ch].
Proof.
  intros [H1 H2 H3] Hl. split; [split; cbn; rewrite ?length_insert; lia|]. unfold text. cbn.
  replace (Z.to_nat (t_bufsize x + 1)) with (S (Z.to_nat (t_bufsize x))) by lia. by rewrite take_insert_snoc by lia.
Qed.
Lemma raw_fill_wf l : forall x, wf_tty x -> (length l <= room x)%nat ->
  wf_tty (raw_fill l x) /\ text (raw_fill l x) = text x ++ l /\ same_settings x (raw_fill l x) /\ t_buf_flag (raw_fill l x) = t_buf_flag x /\
  t_bufsize (raw_fill l x) = t_bufsize x + Z.of_nat (length l).
Proof.
  induction l as [|ch l IH]; intros x W Hl; cbn [raw_fill foldl].
  - rewrite app_nil_r. split_and!; done || (cbn; lia).
  - unfold room in Hl. cbn [length] in Hl. destruct (raw_pushed_wf ch x W ltac:(lia)) as [W' E']. destruct (IH (raw_pushed ch x) W') as (W2 & E2 & S2 & F2 & B2); [unfold room; cbn; lia|].
    unfold raw_fill in *. split_and!; [done| | | |].
    + by rewrite E2, E', <- app_assoc.
    + etrans; [|exact S2]. by split_and!.
    + by rewrite F2.
    + rewrite B2. cbn. lia.
Qed.

Section Raw.
Variable t : Z.
Implicit Types s : vfs world.

(** The end of [raw_char], when there is room. *)
Lemma raw_tail_run s x ch queue : ttys (fsd s) !! t = Some x -> 0 <= t_bufsize x < TTY_BUF_SIZE ->
  (let! x := get_tty t in
      assert (t_bufsize x <? TTY_BUF_SIZE) ;;
      in_bounds (0 <=? t_bufsize x) ;;
      upd_tty t (fun x => set_t_buf (<[Z.to_nat (t_bufsize x) := ch]> (t_buf x)) x) ;;
      upd_tty t (fun x => set_t_bufsize (t_bufsize x + 1) x) ;;
      ret (inr queue : Z + Z)) s = Ret (inr queue) (put_tty t (raw_pushed ch x) s).
Proof.
  intros Hx Hs. rewrite (bind_step _ _ _ _ _ (get_tty_run _ _ _ Hx)). unfold assert, in_bounds.
  rewrite (proj2 (Z.ltb_lt (t_bufsize x) TTY_BUF_SIZE)), (bind_step _ _ s tt s), (proj2 (Z.leb_le 0 (t_bufsize x))), (bind_step _ _ s tt s) by (done || lia).
  rewrite (bind_step _ _ _ _ _ (upd_tty_run _ _ _ _ Hx)). rewrite (bind_step _ _ _ _ _ (upd_tty_run _ _ _ _ (put_tty_lookup _ _ _))), put_put_tty. done.
Qed.
Lemma raw_char_run s x ch queue b : ttys (fsd s) !! t = Some x -> has (lflags (t_termios x)) ISIG_ = false -> 0 <= t_bufsize x < TTY_BUF_SIZE ->
  raw_char t ch queue b s = Ret (inr queue) (put_tty t (raw_pushed ch x) s).
Proof.
  intros Hx HI Hs. unfold raw_char, tty_send_input_signal. erewrite bind_step by (erewrite bind_step by exact (get_tty_run _ _ _ Hx); rewrite HI; done). cbn iota.
  rewrite (bind_step _ _ s (fsd s) s) by done. destruct (Z.ltb_spec (t_bufsize x) TTY_BUF_SIZE) as [Hl|]; [|lia].
  erewrite bind_step by (destruct (length (waits (fsd s))); cbn [raw_push_wait]; erewrite bind_step by exact (get_tty_run _ _ _ Hx); rewrite (proj2 (Z.ltb_lt _ _) Hl); done).
  by apply raw_tail_run.
Qed.

Lemma raw_char_full s x ch queue : ttys (fsd s) !! t = Some x -> has (lflags (t_termios x)) ISIG_ = false -> t_bufsize x = TTY_BUF_SIZE ->
  raw_char t ch queue false s = Ret (inl _EAGAIN) s.
Proof.
  intros Hx HI Hs. unfold raw_char, tty_send_input_signal. erewrite bind_step by (erewrite bind_step by exact (get_tty_run _ _ _ Hx); rewrite HI; done). cbn iota.
  rewrite (bind_step _ _ s (fsd s) s) by done.
  erewrite bind_step by (destruct (length (waits (fsd s))); cbn [raw_push_wait]; erewrite bind_step by exact (get_tty_run _ _ _ Hx); rewrite Hs; done). done.
Qed.

(** Without blocking, the input that fits is taken. *)
Lemma raw_loop_run input : forall s x n queue, ttys (fsd s) !! t = Some x -> wf_tty x -> has (lflags (t_termios x)) ISIG_ = false ->
  input_loop (fun ch queue => raw_char t ch queue false) input n queue s =
  Ret (if (length input <=? room x)%nat then 0 else _EAGAIN, n + Z.of_nat (length (take (room x) input)), queue) (put_tty t (raw_fill (take (room x) input) x) s).
Proof.
  induction input as [|ch input IH]; intros s x n queue Hx W HI.
  - rewrite take_nil. cbn [raw_fill foldl]. rewrite put_tty_self by done. cbn. by rewrite Z.add_0_r.
  - cbn [input_loop]. pose proof (wf_size x W). destruct (decide (t_bufsize x = TTY_BUF_SIZE)) as [Hf|Hf].
    + rewrite (bind_step _ _ _ _ _ (raw_char_full s x ch queue Hx HI Hf)). replace (room x) with 0%nat by (unfold room; lia). cbn. rewrite put_tty_self by done. by rewrite Z.add_0_r.
    + rewrite (bind_step _ _ _ _ _ (raw_char_run s x ch queue false Hx HI ltac:(lia))). destruct (raw_pushed_wf ch x W ltac:(lia)) as [W' _].
      rewrite (IH _ (raw_pushed ch x)) by (done || apply put_tty_lookup). assert (room x = S (room (raw_pushed ch x))) as -> by (unfold room; cbn; lia). rewrite put_put_tty.
      cbn [take firstn length raw_fill foldl Nat.leb]. do 3 f_equal. lia.
Qed.

(** The flag of the place is left alone, and no signal is sent. *)
Lemma raw_input write s x input : ttys (fsd s) !! t = Some x -> wf_tty x -> has (lflags (t_termios x)) ISIG_ = false -> has (lflags (t_termios x)) ICANON_ = false ->
  let k := take (room x) input in
  tty_input_with write t input false s =
  Ret (if negb (length input =? 0)%nat && (room x =? 0)%nat then _EAGAIN else Z.of_nat (length k))
    ((if 0 <? t_bufsize (raw_fill k x) then wake t else id) (put_tty t (raw_fill k x) s)).
Proof.
  intros Hx W HI HC k. unfold tty_input_with. rewrite (bind_step _ _ _ _ _ (get_tty_run _ _ _ Hx)). cbv zeta. rewrite HC. cbn iota.
  destruct (raw_fill_wf k x W) as (W' & Ht & S & F & B); [unfold k; rewrite length_take; lia|].
  pose proof (raw_loop_run input s x 0 0 Hx W HI) as E. fold k in E. set (s1 := put_tty t (raw_fill k x) s) in *.
  assert (ttys (fsd s1) !! t = Some (raw_fill k x)) as H1 by apply put_tty_lookup. set (s2 := (if 0 <? t_bufsize (raw_fill k x) then wake t else id) s1).
  assert (ttys (fsd s2) !! t = Some (raw_fill k x)) as H2 by (unfold s2; by destruct (0 <? _)).
  erewrite bind_step by (erewrite bind_step by exact E; erewrite bind_step by exact (get_tty_run _ _ _ H1);
    rewrite (bind_step _ _ s1 tt s2) by (unfold s2; by destruct (0 <? t_bufsize (raw_fill k x))); reflexivity).
  cbn iota beta. rewrite (bind_step _ _ _ _ _ (get_tty_run _ _ _ H2)). unfold assert. rewrite (proj2 (Z.leb_le _ _)) by apply wf_size, W'. rewrite (bind_step _ _ s2 tt s2) by done.
  rewrite (bind_step _ _ s2 tt s2) by by destruct (t_fg_group (raw_fill k x) =? 0). unfold ret. f_equal. unfold k. rewrite length_take.
  destruct (Nat.leb_spec (length input) (room x)), (Z.ltb_spec 0 (0 + Z.of_nat (room x `min` length input))), (Nat.eqb_spec (length input) 0), (Nat.eqb_spec (room x) 0); cbn; lia.
Qed.

End Raw.

(** ** Reading in canonical mode *)

Section Reading.
Implicit Types s : vfs world.

Lemma into_buf_run t x n s : ttys (fsd s) !! t = Some x -> n <= t_bufsize x -> tty_read_into_buf t n s = Ret (take (Z.to_nat n) (t_buf x)) (put_tty t (consumed n x) s).
Proof.
  intros Hx Hn. unfold tty_read_into_buf. rewrite (bind_step _ _ _ _ _ (get_tty_run _ _ _ Hx)). unfold assert. rewrite (proj2 (Z.leb_le _ _) Hn), (bind_step _ _ s tt s) by done.
  cbv zeta. by rewrite (bind_step _ _ _ _ _ (upd_tty_run _ _ _ _ Hx)).
Qed.

(** The buffer after a read of [n]; an end of file that comes next is taken as well. *)
Definition finished (n : Z) (x : tty) : tty :=
  let y := consumed (Z.min n (t_bufsize x)) x in if bool_decide (head (view y) = Some (0, true)) then consumed 1 y else y.

Lemma view_head x : wf_tty x ->
  (0 <? t_bufsize x) && bool_decide (head (t_buf x) = Some 0) && bool_decide (head (t_buf_flag x) = Some true) = bool_decide (head (view x) = Some (0, true)).
Proof.
  intros [H1 H2 H3]. unfold view. destruct (t_buf x) as [|a l]; [cbn in H1; unfold TTY_BUF_SIZE in *; lia|]. destruct (t_buf_flag x) as [|b k]; [cbn in H2; unfold TTY_BUF_SIZE in *; lia|].
  destruct (Z.ltb_spec 0 (t_bufsize x)).
  - replace (Z.to_nat (t_bufsize x)) with (S (Z.to_nat (t_bufsize x - 1))) by lia. cbn. repeat case_bool_decide; naive_solver.
  - replace (Z.to_nat (t_bufsize x)) with 0%nat by lia. cbn. by rewrite bool_decide_false.
Qed.

Lemma read_finish_run t x n s : ttys (fsd s) !! t = Some x -> wf_tty x -> 0 <= n ->
  read_finish t n s = Ret (take (Z.to_nat (Z.min n (t_bufsize x))) (t_buf x)) (put_tty t (finished n x) s).
Proof.
  intros Hx W Hn. pose proof (wf_size x W). unfold read_finish. rewrite (bind_step _ _ _ _ _ (get_tty_run _ _ _ Hx)).
  rewrite (bind_step _ _ _ _ _ (into_buf_run t x (Z.min n (t_bufsize x)) s Hx ltac:(lia))). rewrite (bind_step _ _ _ _ _ (get_tty_run _ _ _ (put_tty_lookup _ _ _))).
  destruct (consumed_wf (Z.min n (t_bufsize x)) x W ltac:(lia)) as [W' Hv]. unfold finished. set (y := consumed (Z.min n (t_bufsize x)) x) in *. rewrite view_head by done.
  case_bool_decide as Hh; [|by rewrite (bind_step _ _ _ tt (put_tty t y s))].
  assert (1 <= t_bufsize y). { rewrite <- view_length by done. destruct (view y); [done|cbn; lia]. }
  rewrite (bind_step _ _ _ tt (put_tty t (consumed 1 y) s)); [done|]. rewrite (bind_step _ _ _ _ _ (into_buf_run t y 1 _ (put_tty_lookup _ _ _) ltac:(lia))). by rewrite put_put_tty.
Qed.

(** What is left, by the characters with their flags. *)
Definition rest_of (n : nat) (v : list (Z * bool)) : list (Z * bool) := let v := drop n v in if bool_decide (head v = Some (0, true)) then drop 1 v else v.
Lemma finished_wf n x : wf_tty x -> 0 <= n <= t_bufsize x -> wf_tty (finished n x) /\ view (finished n x) = rest_of (Z.to_nat n) (view x) /\ same_settings x (finished n x).
Proof.
  intros W Hn. unfold finished, rest_of. rewrite Z.min_l by lia. destruct (consumed_wf n x W Hn) as [W' Hv]. rewrite Hv. case_bool_decide as Hh.
  - assert (1 <= t_bufsize (consumed n x)). { rewrite <- view_length, Hv by done. destruct (drop (Z.to_nat n) (view x)); [done|cbn; lia]. }
    destruct (consumed_wf 1 (consumed n x) W' ltac:(lia)) as [W2 Hv2]. split_and!; [done| |by split_and!..]. by rewrite Hv2, Hv.
  - by split_and!.
Qed.

Lemma find_flags l b k i : (fix find (l : list bool) (i : Z) : option Z :=
     match l with [] => None | true :: _ => Some (i + 1) | false :: l => find l (i + 1) end) ((snd <$> plain l) ++ b :: k) i =
  if b then Some (i + Z.of_nat (length l) + 1) else
  (fix find (l : list bool) (i : Z) : option Z := match l with [] => None | true :: _ => Some (i + 1) | false :: l => find l (i + 1) end) k (i + Z.of_nat (length l) + 1).
Proof.
  revert i. induction l as [|a l IH]; intros i; [cbn; by rewrite Z.add_0_r|]. cbn [plain fmap list_fmap snd app length]. rewrite IH.
  replace (i + 1 + Z.of_nat (length l) + 1) with (i + Z.of_nat (S (length l)) + 1) by lia. done.
Qed.
Lemma canon_size x e : holds x e -> tty_canon_size x = match e_lines e with [] => None | (l, _) :: _ => Some (Z.of_nat (length l) + 1) end.
Proof.
  intros [W H]. unfold tty_canon_size. assert (take (Z.to_nat (t_bufsize x)) (t_buf_flag x) = snd <$> flat e) as ->.
  { rewrite <- H. unfold view. destruct W. rewrite snd_zip; [done|]. rewrite !length_take. lia. }
  destruct e as [[|[l c] ls] cur]; unfold flat; cbn [e_lines e_cur].
  - cbn [fmap list_fmap mjoin list_join app]. induction cur as [|a cur IH] using rev_ind; [done|]. rewrite plain_app, fmap_app. cbn [plain fmap list_fmap snd]. by rewrite find_flags.
  - cbn [fmap list_fmap mjoin list_join]. unfold flat_line. cbn [fst snd]. rewrite <- !app_assoc, fmap_app. cbn [app fmap list_fmap snd]. by rewrite find_flags.
Qed.

End Reading.

(** An open file of a terminal that its user may read: it is not hung up, is not a master, and its user is not in the background. *)
Record can_read (s : vfs world) (f t : Z) (x : tty) : Prop := {
  cr_tty : fd_tty (fsd s) !! f = Some t;
  cr_fd : exists v, fds s !! f = Some v;
  cr_x : ttys (fsd s) !! t = Some x;
  cr_up : t_hung_up x = false;
  cr_driver : t_driver x <> pty_master;
  cr_group : exists g, tgroups (fsd s) !! current_group (fsd s) = Some g /\ (tg_tty g <> Some t \/ t_fg_group x = 0 \/ tg_pgid g = t_fg_group x) }.

Lemma tty_of_run f t (s : vfs world) : fd_tty (fsd s) !! f = Some t -> tty_of f s = Ret t s.
Proof. intros H. unfold tty_of. rewrite (bind_step _ _ s (fsd s) s) by done. by rewrite H. Qed.
Lemma fd_run f v (s : vfs world) : fds s !! f = Some v -> get_fd f s = Ret v s.
Proof. intros H. unfold get_fd. rewrite (bind_step _ _ s s s) by done. by rewrite H. Qed.
Lemma get_group_run g v (s : vfs world) : tgroups (fsd s) !! g = Some v -> get_group g s = Ret v s.
Proof. intros H. unfold get_group. rewrite (bind_step _ _ s (fsd s) s) by done. by rewrite H. Qed.
Lemma not_master_run t x (s : vfs world) : ttys (fsd s) !! t = Some x -> t_driver x <> pty_master -> pty_is_half_closed_master t s = Ret false s.
Proof. intros H Hd. unfold pty_is_half_closed_master. rewrite (bind_step _ _ _ _ _ (get_tty_run _ _ _ H)). by rewrite (proj2 (Z.eqb_neq _ _) Hd). Qed.
Lemma foreground_run t x g sig (s : vfs world) : ttys (fsd s) !! t = Some x -> tgroups (fsd s) !! current_group (fsd s) = Some g ->
  (tg_tty g <> Some t \/ t_fg_group x = 0 \/ tg_pgid g = t_fg_group x) -> tty_signal_if_background t (tg_pgid g) sig s = Ret 0 s.
Proof.
  intros H Hg Hf. unfold tty_signal_if_background, tty_is_current.
  rewrite (bind_step _ _ s (match tg_tty g with Some u => u =? t | None => false end) s)
    by (rewrite (bind_step _ _ s (fsd s) s) by done; by rewrite (bind_step _ _ _ _ _ (get_group_run _ _ _ Hg))).
  destruct (match tg_tty g with Some u => u =? t | None => false end) eqn:E; [|done]. cbn [negb]. rewrite (bind_step _ _ _ _ _ (get_tty_run _ _ _ H)).
  destruct (tg_tty g) as [u|]; [|done]. apply Z.eqb_eq in E as ->. destruct Hf as [Hf|[Hf|Hf]]; [done|by rewrite Hf|]. rewrite Hf, Z.eqb_refl. by rewrite orb_true_r.
Qed.

(** The start of a read, up to the wait for input. *)
Lemma read_start s f t x n : can_read s f t x -> n <> 0 -> exists v, fds s !! f = Some v /\
  tty_read f n s =
  (let! limit :=
    if has (lflags (t_termios x)) ICANON_ then
      let! r := canon_wait (length (waits (fsd s))) t (has (fd_flags v) O_NONBLOCK_) in
      match r with
      | inl err => ret (inl err)
      | inr k =>
          let! x := get_tty t in
          let! last := deref (t_buf x !! Z.to_nat (k - 1) : option Z) in
          ret (inr (Z.min n (if last =? 0 then k - 1 else k)))
      end
    else
      let! err := raw_wait (length (waits (fsd s))) t (cc_at x VMIN_) (has (fd_flags v) O_NONBLOCK_) in
      if err <? 0 then ret (inl err) else ret (inr n) in
  match limit with
  | inl err => ret (inl err)
  | inr n => let! data := read_finish t n in ret (inr data)
  end) s.
Proof.
  intros [H1 [v H2] H3 H4 H5 (g & H6 & H7)] Hn. exists v. split; [done|]. unfold tty_read. rewrite (proj2 (Z.eqb_neq _ _) Hn).
  rewrite (bind_step _ _ _ _ _ (tty_of_run _ _ _ H1)), (bind_step _ _ _ _ _ (fd_run _ _ _ H2)), (bind_step _ _ _ _ _ (get_tty_run _ _ _ H3)), H4.
  rewrite (bind_step _ _ _ _ _ (not_master_run _ _ _ H3 H5)). cbn iota. rewrite (bind_step _ _ s (fsd s) s), (bind_step _ _ _ _ _ (get_group_run _ _ _ H6)) by done.
  rewrite (bind_step _ _ _ _ _ (foreground_run _ _ _ _ _ H3 H6 H7)). change (0 <? 0) with false. cbn iota. rewrite (bind_step _ _ _ _ _ (get_tty_run _ _ _ H3)).
  rewrite (proj2 (Z.eqb_neq _ _) H5). cbn [andb]. cbv zeta. cbn iota. by rewrite (bind_step _ _ s (fsd s) s).
Qed.

(** A read in canonical mode returns the first line, or as much of it as there is room for; the null that stands for an end of file is not returned. *)
Lemma canonical_read s f t x e l c ls n : can_read s f t x -> has (lflags (t_termios x)) ICANON_ = true -> holds x e -> e_lines e = (l, c) :: ls -> 0 < n ->
  let k := Z.to_nat (Z.min n (Z.of_nat (length l) + (if c =? 0 then 0 else 1))) in
  exists y, tty_read f n s = Ret (inr (take k (l ++ [c]))) (put_tty t y s) /\ wf_tty y /\ same_settings x y /\ view y = rest_of k (flat e).
Proof.
  intros C HC H He Hn k. destruct (read_start s f t x n C ltac:(lia)) as (v & _ & ->). rewrite HC. pose proof (cr_x _ _ _ _ C) as Hx. pose proof (holds_size x e H) as Hs.
  pose proof (canon_size x e H) as Hc. rewrite He in Hc. destruct H as [W Hv]. assert (flat e = plain l ++ (c, true) :: mjoin (flat_line <$> ls) ++ plain (e_cur e)) as Hf.
  { unfold flat. rewrite He. cbn. unfold flat_line. cbn. by rewrite <- !app_assoc. }
  assert (length (flat e) = length l + S (length (mjoin (flat_line <$> ls) ++ plain (e_cur e))))%nat as Hlen by (by rewrite Hf, length_app, plain_length).
  assert (view x !! length l = Some (c, true)) as Hl.
  { rewrite Hv, Hf, lookup_app_r by by rewrite plain_length. by rewrite plain_length, Nat.sub_diag. }
  destruct (view_lookup x _ _ _ W Hl) as [Hb _]. rewrite (bind_step _ _ s (inr (Z.min n (if c =? 0 then Z.of_nat (length l) else Z.of_nat (length l) + 1)) : Z + Z) s).
  2: { erewrite bind_step by (destruct (length (waits (fsd s))); cbn [canon_wait]; erewrite bind_step by exact (get_tty_run _ _ _ Hx); rewrite Hc; reflexivity). cbn iota.
    rewrite (bind_step _ _ _ _ _ (get_tty_run _ _ _ Hx)). replace (Z.to_nat (Z.of_nat (length l) + 1 - 1)) with (length l) by lia. rewrite Hb, (bind_step _ _ s c s) by done.
    replace (Z.of_nat (length l) + 1 - 1) with (Z.of_nat (length l)) by lia. done. }
  cbn iota. replace (Z.min n (if c =? 0 then Z.of_nat (length l) else Z.of_nat (length l) + 1)) with (Z.of_nat k) by (unfold k; destruct (c =? 0); lia).
  assert (k <= length l + 1)%nat as Hk by (unfold k; destruct (c =? 0); lia). rewrite (bind_step _ _ _ _ _ (read_finish_run t x (Z.of_nat k) s Hx W ltac:(lia))).
  destruct (finished_wf (Z.of_nat k) x W ltac:(lia)) as (W' & V' & S'). exists (finished (Z.of_nat k) x). split_and!; [|done..|].
  - unfold ret. do 2 f_equal. rewrite Z.min_l, view_fst, Nat2Z.id, Hv, Hf, fmap_app, fmap_cons by (done || lia). rewrite plain_fst. cbn [fst].
    rewrite cons_middle, app_assoc, take_app_le by (rewrite length_app; cbn; lia). done.
  - by rewrite V', Nat2Z.id, Hv.
Qed.

(** What reading promises: the first line and what is left of the editor. *)
Definition read_line (n : nat) (e : editor) : option (list Z * editor) :=
  match e_lines e with
  | [] => None
  | (l, c) :: ls =>
      let body := if c =? 0 then l else l ++ [c] in
      Some (take n body, mk_editor (if (n <? length body)%nat then (drop n l, c) :: ls else ls) (e_cur e))
  end.

Lemma flat_cons l c ls cur : flat (mk_editor ((l, c) :: ls) cur) = plain l ++ (c, true) :: flat (mk_editor ls cur).
Proof. unfold flat. cbn. unfold flat_line. cbn. by rewrite <- !app_assoc. Qed.
Lemma plain_drop n l : drop n (plain l) = plain (drop n l).
Proof. unfold plain. by rewrite <- fmap_drop. Qed.
Lemma rest_of_plain n l v : (n < length l)%nat -> rest_of n (plain l ++ v) = plain (drop n l) ++ v.
Proof.
  intros H. unfold rest_of. rewrite drop_app_le by (rewrite plain_length; lia). rewrite plain_drop. destruct (drop n l) as [|a r] eqn:E; [|by cbn; rewrite bool_decide_false].
  apply (f_equal length) in E. rewrite length_drop in E. cbn in E. lia.
Qed.
Lemma flat_head ls cur : head (flat (mk_editor ls cur)) = Some (0, true) -> head ls = Some ([], 0).
Proof. destruct ls as [|[[|a l] c] ls]; [by destruct cur|rewrite flat_cons; cbn; congruence|done]. Qed.

(** a read in canonical mode does what the line editor promises, unless it takes a whole line and an end of file comes next. *)
Theorem tty_read_refines s f t x e n : can_read s f t x -> has (lflags (t_termios x)) ICANON_ = true -> holds x e -> 0 < n ->
  forall data e', read_line (Z.to_nat n) e = Some (data, e') -> head (e_lines e') <> Some ([], 0) ->
  exists y, tty_read f n s = Ret (inr data) (put_tty t y s) /\ same_settings x y /\ holds y e'.
Proof.
  intros C HC H Hn data e' Hr Hne. destruct e as [[|[l c] ls] cur]; [done|]. unfold read_line in Hr. cbn [e_lines e_cur] in Hr.
  destruct (canonical_read s f t x _ l c ls n C HC H eq_refl Hn) as (y & E & W & S & V). injection Hr as <- <-. cbn [e_lines e_cur] in Hne. rewrite flat_cons in V. exists y. rewrite E.
  set (k := Z.to_nat (Z.min n (Z.of_nat (length l) + (if c =? 0 then 0 else 1)))) in *. split_and!; [|done|split; [done|]].
  - do 2 f_equal. unfold k. destruct (c =? 0).
    + rewrite take_app_le by lia. destruct (decide (n <= Z.of_nat (length l))); [f_equal; lia|]. by rewrite !take_ge by lia.
    + destruct (decide (n <= Z.of_nat (length l) + 1)); [f_equal; lia|]. by rewrite !take_ge by (rewrite length_app; cbn; lia).
  - rewrite V. destruct (Z.eqb_spec c 0) as [->|Hc].
    + destruct (Nat.ltb_spec (Z.to_nat n) (length l)) as [Hk|Hk].
      * replace k with (Z.to_nat n) by lia. by rewrite rest_of_plain, flat_cons by lia.
      * replace k with (length (plain l)) by (rewrite plain_length; lia). unfold rest_of. by rewrite drop_app_length.
    + rewrite length_app in *. cbn [length] in *. destruct (Nat.ltb_spec (Z.to_nat n) (length l + 1)) as [Hk|Hk].
      * replace k with (Z.to_nat n) by lia. rewrite flat_cons. destruct (decide (Z.to_nat n < length l)%nat); [by rewrite rest_of_plain by lia|].
        replace (Z.to_nat n) with (length (plain l)) by (rewrite plain_length; lia). unfold rest_of. rewrite drop_app_length. rewrite plain_length, drop_all. cbn. rewrite bool_decide_false by congruence. done.
      * replace k with (length (plain l) + 1)%nat by (rewrite plain_length; lia). unfold rest_of. rewrite <- drop_drop, drop_app_length. cbn [drop].
        case_bool_decide as Hh; [|done]. by apply flat_head in Hh.
Qed.

(** an end of file typed right after a finished line is lost: the read of the line takes it too, and the next read waits for input. *)
Theorem eof_after_line_lost s f t x l c cur n : can_read s f t x -> has (lflags (t_termios x)) ICANON_ = true -> holds x (mk_editor [(l, c); ([], 0)] cur) ->
  c <> 0 -> Z.of_nat (length l) < n -> waits (fsd s) = [] -> (forall v, fds s !! f = Some v -> has (fd_flags v) O_NONBLOCK_ = false) ->
  exists s', tty_read f n s = Ret (inr (l ++ [c])) s' /\ tty_read f n s' = Hang.
Proof.
  intros C HC H Hc Hn Hw Hb. destruct (canonical_read s f t x _ l c _ n C HC H eq_refl ltac:(lia)) as (y & E & W & S & V). rewrite (proj2 (Z.eqb_neq _ _) Hc) in *.
  replace (Z.to_nat (Z.min n (Z.of_nat (length l) + 1))) with (length l + 1)%nat in * by lia. exists (put_tty t y s). split.
  { rewrite E. by rewrite take_ge by (rewrite length_app; cbn; lia). }
  assert (holds y (mk_editor [] cur)) as Hy.
  { split; [done|]. rewrite V, flat_cons. unfold rest_of. rewrite <- drop_drop, <- (plain_length l), drop_app_length. cbn [drop]. by rewrite flat_cons. }
  destruct S as (St & Sg & Sd & So & Su & _). destruct C as [C1 (v & C2) C3 C4 C5 C6].
  assert (can_read (put_tty t y s) f t y) as C'.
  { split; [done|by exists v|apply put_tty_lookup|congruence|congruence|]. destruct C6 as (g & Hg & Hf). exists g. split; [done|]. by rewrite <- Sg. }
  destruct (read_start _ f t y n C' ltac:(lia)) as (v' & Hv' & ->). rewrite <- St, HC. change (waits (fsd (put_tty t y s))) with (waits (fsd s)). rewrite Hw.
  change (fds (put_tty t y s)) with (fds s) in Hv'. rewrite (Hb v' Hv'). cbn [length canon_wait]. unfold bind at 1 2 3. rewrite (get_tty_run _ y) by apply put_tty_lookup.
  rewrite (canon_size y _ Hy). cbn [e_lines]. unfold bind. rewrite (not_master_run _ y) by (apply put_tty_lookup || congruence). done.
Qed.

(** ** Drivers *)

Section Drivers.
Context {HT : HostTty}.
Implicit Types s : vfs world.

(** C10: in canonical mode, whatever driver echoes it, as long as what is in the buffer and what is typed fit in TTY_BUF_SIZE bytes together, the input runs the line editor, and each signal typed is sent once to the
    foreground group.  A line that fills the buffer is another matter ([full_line_stuck]). *)
Theorem tty_input_refines t {Q : Quiet (driver_write 1) t} s x e input b : ttys (fsd s) !! t = Some x -> quiet (fsd s) -> holds x e -> has (lflags (t_termios x)) ICANON_ = true ->
  Z.of_nat (length (flat e) + length input) <= TTY_BUF_SIZE ->
  exists s' y, tty_input t input b s = Ret (Z.of_nat (length input)) s' /\ ttys (fsd s') !! t = Some y /\ same_settings x y /\ holds y (type_keys x e input) /\
    sent (fsd s') = sent (fsd s) ++ (if t_fg_group x =? 0 then [] else (t_fg_group x,.) <$> filter (fun g => KSignal g ∈ keys_of x input) (Z.of_nat <$> seq 1 63)).
Proof.
  intros Hx Hq H HC Hl. destruct (canonical_input _ t s x e input b Hx Hq H HC Hl) as (s' & y & E & (A1 & A2 & A3 & A4) & S & Hy). exists s', y. by split_and!.
Qed.

(** A host driver only shows what is written. *)
Class HostShows (k : Z) := host_shows t buf s : exists r s', host_write k t buf false s = Ret r s' /\ fsd s' = fsd s /\ frame s' = frame s.
Definition on_host (k t : Z) (w : world) : Prop := exists x d, ttys w !! t = Some x /\ drivers w !! t_driver x = Some d /\ d_ops d = host_ops k.
#[export] Instance quiet_host depth k t `{!HostShows k} : Quiet (driver_write depth) t.
Proof.
  refine {| quiet := on_host k t |}.
  - intros x y w Hx (_ & _ & Sd & _) (z & d & Hz & Hd & Ho). exists y, d. cbn. rewrite lookup_insert_eq. simplify_eq. by rewrite <- Sd.
  - done.
  - done.
  - intros buf s (x & d & Hx & Hd & Ho). destruct (host_shows t buf s) as (r & s' & E & Hs & Hf). exists r, s'. rewrite Hs. split_and!; [|done|done|by exists x, d|done].
    destruct depth; cbn [driver_write]; unfold ops_of, get_driver, get_world;
      (erewrite bind_step by (erewrite bind_step by exact (get_tty_run _ _ _ Hx); rewrite (bind_step _ _ s d s) by (rewrite (bind_step _ _ s (fsd s) s) by done; by rewrite Hd); done)); by rewrite Ho.
Defined.

(** The slave side of a pseudo-terminal shows on the master side, whose settings are those it was made with. *)
Definition on_slave (t o : Z) (w : world) : Prop :=
  exists x d y, ttys w !! t = Some x /\ drivers w !! t_driver x = Some d /\ d_ops d = pty_slave_ops /\ t_other x = Some o /\ ttys w !! o = Some y /\ wf_tty y /\ lflags (t_termios y) = 0.
Lemma ops_of_run t x d s : ttys (fsd s) !! t = Some x -> drivers (fsd s) !! t_driver x = Some d -> ops_of t s = Ret (d_ops d) s.
Proof.
  intros Hx Hd. unfold ops_of, get_driver, get_world. rewrite (bind_step _ _ _ _ _ (get_tty_run _ _ _ Hx)). rewrite (bind_step _ _ s d s) by (rewrite (bind_step _ _ s (fsd s) s) by done; by rewrite Hd). done.
Qed.
Lemma slave_write_run depth t o y x d buf s : ttys (fsd s) !! t = Some x -> drivers (fsd s) !! t_driver x = Some d -> d_ops d = pty_slave_ops \/ d_ops d = pty_master_ops ->
  t_other x = Some o -> ttys (fsd s) !! o = Some y -> forall b, driver_write (S depth) t buf b s = tty_input_with (driver_write depth) o buf b s.
Proof.
  intros Hx Hd Ho Hoth Hy b. cbn [driver_write]. rewrite (bind_step _ _ _ _ _ (ops_of_run _ _ _ _ Hx Hd)).
  destruct Ho as [-> | ->]; rewrite (bind_step _ _ _ _ _ (get_tty_run _ _ _ Hx)), Hoth; by rewrite (bind_step _ _ s o s).
Qed.
#[export] Instance quiet_slave t o (Hne : o <> t) depth : Quiet (driver_write (S depth)) t.
Proof.
  refine {| quiet := on_slave t o |}.
  - intros x x' w Hx (_ & _ & Sd & So & _) (z & d & y & Hz & Hd & Ho & Hoth & Hy & W & Hl). simplify_eq. exists x', d, y. cbn. rewrite lookup_insert_eq, lookup_insert_ne by done.
    rewrite <- Sd, <- So. by split_and!.
  - done.
  - done.
  - intros buf s (x & d & y & Hx & Hd & Ho & Hoth & Hy & W & Hl). rewrite (slave_write_run depth t o y x d buf s Hx Hd (or_introl Ho) Hoth Hy).
    rewrite (raw_input o _ s y buf Hy W) by by rewrite Hl. set (k := take (room y) buf). destruct (raw_fill_wf k y W) as (W' & _ & S & _); [unfold k; rewrite length_take; lia|].
    eexists _, _. split; [done|]. set (z := raw_fill k y) in *. assert (lflags (t_termios z) = 0) as Hz by (by rewrite <- (proj1 S)).
    destruct (0 <? t_bufsize z); cbn; rewrite lookup_insert_ne by done; (split_and!; [done|done| |done]); exists x, d, z; cbn; rewrite lookup_insert_eq, lookup_insert_ne by done; by split_and!.
Defined.

(** ** A pseudo-terminal end to end *)

(** Two open files of the two sides of a pseudo-terminal: the master as it was made, the slave in canonical mode and with nothing in its buffer. *)
Record pty_pair (s : vfs world) (fm m fp p : Z) (x y : tty) : Prop := {
  pp_tty : fd_tty (fsd s) !! fm = Some m;
  pp_fd : exists v, fds s !! fm = Some v;
  pp_master : ttys (fsd s) !! m = Some x;
  pp_wf : wf_tty x;
  pp_up : t_hung_up x = false;
  pp_driver : t_driver x = pty_master /\ exists d, drivers (fsd s) !! pty_master = Some d /\ d_ops d = pty_master_ops;
  pp_raw : lflags (t_termios x) = 0 /\ oflags (t_termios x) = 0;
  pp_sides : t_other x = Some p /\ t_other y = Some m /\ m <> p;
  pp_open : t_ever_opened y && ((t_refcount y =? 1) || t_hung_up y) = false;
  pp_slave : exists d, drivers (fsd s) !! t_driver y = Some d /\ d_ops d = pty_slave_ops;
  pp_read : can_read s fp p y;
  pp_canon : has (lflags (t_termios y)) ICANON_ = true;
  pp_empty : holds y (mk_editor [] []) }.

Lemma type_chars y l : forall e, Forall (fun ch => key_of y ch = KChar ch) l -> type_keys y e l = mk_editor (e_lines e) (e_cur e ++ l).
Proof.
  unfold type_keys, keys_of. induction l as [|ch l IH]; intros e H; [destruct e; cbn; by rewrite app_nil_r|]. inversion H as [|? ? Hc Hl]; subst. cbn [fmap list_fmap foldl].
  rewrite Hc. cbn [apply_key]. rewrite IH by done. cbn. by rewrite <- app_assoc.
Qed.

Lemma master_write s fm m fp p x y buf : pty_pair s fm m fp p x y -> Z.of_nat (length buf) <= TTY_BUF_SIZE ->
  exists s' z, tty_write fm buf s = Ret (Z.of_nat (length buf)) s' /\ ttys (fsd s') !! p = Some z /\ same_settings y z /\ holds z (type_keys y (mk_editor [] []) buf) /\ frame s' = frame s.
Proof.
  intros [P1 (v & P2) P3 P4 P5 (P6 & d & P7 & P8) (P9 & P10) (P11 & P12 & P13) P14 (d' & P15 & P16) P17 P18 P19] Hl. pose proof (cr_x _ _ _ _ P17) as Hy.
  destruct (canonical_input (driver_write 1) p (Q := quiet_slave p m P13 0) s y (mk_editor [] []) buf (negb (has (fd_flags v) O_NONBLOCK_)) Hy) as (s' & z & E & (A1 & A2 & A3 & A4) & S & H); [|done|done|done|].
  { exists y, d', x. by split_and!. }
  exists s', z. split_and!; [|done..]. unfold tty_write. rewrite (bind_step _ _ _ _ _ (tty_of_run _ _ _ P1)), (bind_step _ _ _ _ _ (fd_run _ _ _ P2)), (bind_step _ _ _ _ _ (get_tty_run _ _ _ P3)), P5.
  rewrite (bind_step _ _ s false s).
  2: { unfold pty_is_half_closed_master. rewrite (bind_step _ _ _ _ _ (get_tty_run _ _ _ P3)), P6, Z.eqb_refl, P11. cbn [negb]. rewrite (bind_step _ _ s p s), (bind_step _ _ _ _ _ (get_tty_run _ _ _ Hy)) by done.
    by rewrite P14. }
  rewrite P10. cbv zeta. change (has 0 OPOST_) with false. cbn iota. rewrite <- P6 in P7. unfold tty_driver_write. erewrite bind_step.
  2: { rewrite (slave_write_run 1 m p y x d buf s P3 P7 (or_intror P8) P11 Hy). exact E. }
  destruct (Z.ltb_spec (Z.of_nat (length buf)) 0); [lia|done].
Qed.

(** a line written to the master side of a pseudo-terminal is what a read of its slave side returns. *)
Theorem pty_line_roundtrip s fm m fp p x y l n : pty_pair s fm m fp p x y -> Forall (fun ch => key_of y ch = KChar ch) l -> key_of y 10 = KEnd 10 ->
  Z.of_nat (length l) < TTY_BUF_SIZE -> Z.of_nat (length l) < n ->
  exists s1 s2 z, tty_write fm (l ++ [10]) s = Ret (Z.of_nat (length l) + 1) s1 /\ tty_read fp n s1 = Ret (inr (l ++ [10])) s2 /\
    ttys (fsd s2) !! p = Some z /\ holds z (mk_editor [] []).
Proof.
  intros P Hl He Hs Hn. destruct (master_write s fm m fp p x y (l ++ [10]) P) as (s1 & z & E & Hz & S & H & Hf); [rewrite length_app; cbn; lia|].
  replace (Z.of_nat (length (l ++ [10]))) with (Z.of_nat (length l) + 1) in E by (rewrite length_app; cbn; lia).
  assert (type_keys y (mk_editor [] []) (l ++ [10]) = mk_editor [(l, 10)] []) as Ek.
  { pose proof (type_chars y l (mk_editor [] []) Hl) as T. unfold type_keys, keys_of in *. rewrite fmap_app, foldl_app, T. cbn [fmap list_fmap foldl e_lines e_cur app]. by rewrite He. }
  rewrite Ek in H. destruct (pp_read _ _ _ _ _ _ _ P) as [C1 (v & C2) C3 C4 C5 (g & C6 & C7)]. unfold frame in Hf. injection Hf as F1 F2 F3 F4 F5 F6 F7. pose proof S as (St & Sg & Sd & So & Su & _).
  assert (can_read s1 fp p z) as C.
  { split; [congruence|exists v; congruence|done|congruence|congruence|]. exists g. rewrite F4, F5, <- Sg. done. }
  destruct (canonical_read s1 fp p z (mk_editor [(l, 10)] []) l 10 [] n C) as (z' & E' & W & _ & V); [by rewrite <- St; apply P|done|done|lia|]. exists s1, (put_tty p z' s1), z'. split_and!; [done| |apply put_tty_lookup|].
  - rewrite E'. do 2 f_equal. cbn. apply take_ge. rewrite length_app. cbn. lia.
  - split; [done|]. rewrite V, flat_cons. change (10 =? 0) with false. cbn iota. replace (Z.to_nat (Z.min n (Z.of_nat (length l) + 1))) with (length (plain l) + 1)%nat by (rewrite plain_length; lia).
    unfold rest_of. by rewrite <- drop_drop, drop_app_length.
Qed.

End Drivers.

(** ** Input stays inside the buffer *)

(** A terminal at [u] is well formed: its buffer, and the other side of a pseudo-terminal, is there. *)
Definition good (w : world) (u : Z) (y : tty) : Prop :=
  wf_tty y /\ exists d, drivers w !! t_driver y = Some d /\
  match d_ops d with host_ops _ => True | _ => exists o, t_other y = Some o /\ o <> u /\ is_Some (ttys w !! o) end.

(** Every terminal is well formed, and so is what other threads leave of [t] while it waits. *)
Definition inv (t : Z) (w : world) : Prop := (forall u y, ttys w !! u = Some y -> good w u y) /\ Forall (fun p => good w t (snd p)) (waits w).

Section Safety.
Variable t : Z.
Implicit Types s : vfs world.
Implicit Types P : Z -> Prop.

(** [m] does not leave its objects nor fail an assertion, and leaves the terminals of [P] alone. *)
Definition ok {A} P (m : T A) s : Prop :=
  match m s with
  | Ret _ s' => inv t (fsd s') /\ drivers (fsd s') = drivers (fsd s) /\ (forall u, is_Some (ttys (fsd s) !! u) -> is_Some (ttys (fsd s') !! u)) /\ (forall u, P u -> ttys (fsd s') !! u = ttys (fsd s) !! u)
  | Hang => True
  | _ => False
  end.

Lemma ok_bind {A B} P (m : T A) (f : A -> T B) s : ok P m s ->
  (forall a s', m s = Ret a s' -> inv t (fsd s') -> (forall u, is_Some (ttys (fsd s) !! u) -> is_Some (ttys (fsd s') !! u)) -> (forall u, P u -> ttys (fsd s') !! u = ttys (fsd s) !! u) -> ok P (f a) s') ->
  ok P (bind m f) s.
Proof.
  unfold ok, bind. destruct (m s) as [a s'| | |]; [|done..]. intros (I & D & G & U) H. specialize (H a s' eq_refl I G U). destruct (f a s') as [b s''| | |]; [|done..].
  destruct H as (I' & D' & G' & U'). split_and!; [done|congruence|naive_solver|]. intros u Hu. by rewrite U', U.
Qed.
Lemma ok_weaken {A} P P' (m : T A) s : (forall u, P' u -> P u) -> ok P m s -> ok P' m s.
Proof. unfold ok. intros H. destruct (m s); [|done..]. intros (I & D & G & U). split_and!; [done..|]. auto. Qed.
(** A first step that leaves more alone. *)
Lemma ok_bind_frame {A B} P P' (m : T A) (f : A -> T B) s : (forall u, P' u -> P u) -> ok P m s ->
  (forall a s', m s = Ret a s' -> inv t (fsd s') -> (forall u, P u -> ttys (fsd s') !! u = ttys (fsd s) !! u) -> ok P' (f a) s') -> ok P' (bind m f) s.
Proof.
  intros HP Hm Hf. apply ok_bind; [by eapply ok_weaken|]. intros a s' E I _ _. apply Hf; [done|done|]. unfold ok in Hm. rewrite E in Hm. apply Hm.
Qed.
Lemma ok_ret {A} P (a : A) s : inv t (fsd s) -> ok P (ret a) s.
Proof. intros I. by split_and!. Qed.
Lemma ok_same {A} P (m : T A) s a s' : m s = Ret a s' -> ttys (fsd s') = ttys (fsd s) -> drivers (fsd s') = drivers (fsd s) -> waits (fsd s') = waits (fsd s) -> inv t (fsd s) -> ok P m s.
Proof. intros E H1 H2 H3 I. unfold ok. rewrite E. unfold inv, good. rewrite H1, H2, H3. split_and!; try done; apply I. Qed.
Lemma ok_step {A B} P (m : T A) (f : A -> T B) s a : m s = Ret a s -> ok P (f a) s -> ok P (bind m f) s.
Proof. unfold ok, bind. by intros ->. Qed.
Lemma ok_get P u s : inv t (fsd s) -> is_Some (ttys (fsd s) !! u) -> ok P (get_tty u) s.
Proof. intros I [x Hx]. eapply ok_same; [by apply get_tty_run|done..]. Qed.

Lemma good_dom w w' u y : drivers w' = drivers w -> (forall v, is_Some (ttys w !! v) -> is_Some (ttys w' !! v)) -> good w u y -> good w' u y.
Proof. intros D G (W & d & Hd & Ho). split; [done|]. exists d. rewrite D. split; [done|]. destruct (d_ops d); [destruct Ho as (o & ? & ? & ?); eauto..|done]. Qed.
Lemma put_ok P u y s : inv t (fsd s) -> is_Some (ttys (fsd s) !! u) -> good (fsd s) u y -> (forall v, P v -> v <> u) ->
  inv t (fsd (put_tty u y s)) /\ drivers (fsd (put_tty u y s)) = drivers (fsd s) /\ (forall v, is_Some (ttys (fsd s) !! v) -> is_Some (ttys (fsd (put_tty u y s)) !! v)) /\
  (forall v, P v -> ttys (fsd (put_tty u y s)) !! v = ttys (fsd s) !! v).
Proof.
  intros [I1 I2] Hu Hy HP. assert (forall v, is_Some (ttys (fsd s) !! v) -> is_Some (ttys (fsd (put_tty u y s)) !! v)) as G.
  { intros v Hv. cbn. destruct (decide (u = v)) as [->|]; [rewrite lookup_insert_eq; eauto|by rewrite lookup_insert_ne]. }
  split; [split|split; [done|split; [done|]]].
  - intros v z Hz. cbn in Hz. destruct (decide (u = v)) as [->|]; [rewrite lookup_insert_eq in Hz; injection Hz as <-|rewrite lookup_insert_ne in Hz by done]; (apply (good_dom (fsd s)); [done|done|auto]).
  - rewrite Forall_elem in I2. apply Forall_elem. intros p Hp. apply (good_dom (fsd s)); [done|done|by apply I2].
  - intros v Hv. cbn. apply lookup_insert_ne. intros ->. by eapply HP.
Qed.
Lemma ok_upd P u g s : inv t (fsd s) -> is_Some (ttys (fsd s) !! u) -> (forall v, P v -> v <> u) -> (forall x, ttys (fsd s) !! u = Some x -> wf_tty x -> wf_tty (g x) /\ t_driver (g x) = t_driver x /\ t_other (g x) = t_other x) ->
  ok P (upd_tty u g) s.
Proof.
  intros I [x Hx] HP H. unfold ok. rewrite (upd_tty_run _ _ _ _ Hx). destruct (proj1 I u x Hx) as (W & d & Hd & Ho). destruct (H x Hx W) as (W' & D' & O').
  apply put_ok; [done|by exists x| |done]. split; [done|]. exists d. by rewrite D', O'.
Qed.
Lemma ok_wait P s : inv t (fsd s) -> is_Some (ttys (fsd s) !! t) -> (forall v, P v -> v <> t) -> ok P (wait_for t) s.
Proof.
  intros I Ht HP. unfold wait_for, ok, bind, get_world, gets. destruct (waits (fsd s)) as [|[err x] rest] eqn:Ew; [done|]. pose proof (proj2 I) as I2. rewrite Ew in I2. apply Forall_cons in I2 as [I2 I3].
  destruct (put_ok P t x s I Ht I2 HP) as ((J1 & J2) & J3 & J4 & J5). cbn in *. split; [|by split_and!]. split; [done|]. rewrite Ew in J2. by apply Forall_cons in J2 as [_ J2].
Qed.

(** The terminal [u] that takes input; it may wait only when it is [t].  [write] shows characters on other terminals. *)
Section Discipline.
Variables (write : Z -> list Z -> bool -> T Z) (u : Z) (b : bool) (Pw : Z -> Prop).
Hypothesis Hb : b = true -> u = t.
Hypothesis Hw : forall buf s, inv t (fsd s) -> is_Some (ttys (fsd s) !! u) -> ok Pw (write u buf false) s.
Hypothesis Hu : Pw u.

Definition others (v : Z) : Prop := Pw v /\ v <> u.
(** What is asked of each step. *)
Definition fine {A} (m : T A) : Prop := forall s, inv t (fsd s) -> is_Some (ttys (fsd s) !! u) -> ok others m s.

Lemma fine_bind {A B} (m : T A) (f : A -> T B) : fine m -> (forall a, fine (f a)) -> fine (bind m f).
Proof. intros Hm Hf s I E. apply ok_bind; [by apply Hm|]. intros a s' _ I' G _. apply Hf; auto. Qed.
Lemma fine_ret {A} (a : A) : fine (ret a).
Proof. intros s I _. by apply ok_ret. Qed.
Lemma fine_get : fine (get_tty u).
Proof. intros s I E. by apply ok_get. Qed.
Lemma fine_world : fine get_world.
Proof. intros s I E. by eapply ok_same. Qed.
Lemma fine_wake : fine (tty_input_wakeup u).
Proof. intros s I E. by eapply ok_same. Qed.
Lemma fine_send g sig : fine (send_group_signal g sig).
Proof. intros s I E. by eapply ok_same. Qed.
Lemma fine_echo data : fine (tty_echo write u data).
Proof.
  intros s I E. apply (ok_weaken Pw); [by intros v []|]. apply ok_bind; [by apply Hw|]. intros a s' _ I' _ _. by apply ok_ret.
Qed.
Lemma fine_upd g : (forall x, wf_tty x -> wf_tty (g x) /\ t_driver (g x) = t_driver x /\ t_other (g x) = t_other x) -> fine (upd_tty u g).
Proof. intros Hg s I E. apply ok_upd; [done|done|by intros v []|]. intros x _. apply Hg. Qed.
Lemma fine_wait : b = true -> fine (wait_for u).
Proof. intros B s I E. rewrite (Hb B) in *. apply ok_wait; [done|done|]. intros v []. by rewrite <- (Hb B). Qed.
Create HintDb fine.
#[local] Hint Resolve fine_bind fine_ret fine_get fine_world fine_wake fine_send fine_echo fine_wait : fine.

(** Waiting for room, in both modes. *)
Lemma push_wait_fine fuel : fine (push_wait fuel u b).
Proof.
  induction fuel as [|fuel IH]; cbn [push_wait]; apply fine_bind; auto with fine; intros x; destruct (t_bufsize x <? TTY_BUF_SIZE); auto with fine; destruct (negb b) eqn:B; auto with fine.
  - intros s _ _. done.
  - apply negb_false_iff in B. apply fine_bind; [by apply fine_wait|]. intros err. destruct (err =? 0); auto with fine.
Qed.
Lemma raw_wait_fine fuel : fine (raw_push_wait fuel u b).
Proof.
  induction fuel as [|fuel IH]; cbn [raw_push_wait]; apply fine_bind; auto with fine; intros x; destruct (t_bufsize x <? TTY_BUF_SIZE); auto with fine; destruct (negb b) eqn:B; auto with fine.
  - intros s _ _. done.
  - apply negb_false_iff in B. apply fine_bind; [by apply fine_wait|]. intros err. destruct (err <? 0); auto with fine.
Qed.
Lemma get_inv s x s' : get_tty u s = Ret x s' -> s' = s /\ ttys (fsd s) !! u = Some x.
Proof. unfold get_tty, bind, get_world, gets, deref, ret, fault. destruct (ttys (fsd s) !! u) as [y|] eqn:E; intros H; by simplify_eq. Qed.
Lemma push_wait_room fuel s a s' : push_wait fuel u b s = Ret a s' -> (a <? 0) = false -> exists x, ttys (fsd s') !! u = Some x /\ t_bufsize x < TTY_BUF_SIZE.
Proof.
  revert s. induction fuel as [|fuel IH]; intros s H Ha; cbn [push_wait] in H; vbind H as (x & s1 & E & H); apply get_inv in E as [-> E];
    destruct (Z.ltb_spec (t_bufsize x) TTY_BUF_SIZE); unfold ret, hang in H; simplify_eq; eauto; destruct (negb b); simplify_eq; try done.
  vbind H as (err & s1 & E1 & H). destruct (err =? 0); [by eapply IH|]. by simplify_eq.
Qed.
Lemma raw_wait_room fuel s a s' : raw_push_wait fuel u b s = Ret a s' -> (a <? 0) = false -> exists x, ttys (fsd s') !! u = Some x /\ t_bufsize x < TTY_BUF_SIZE.
Proof.
  revert s. induction fuel as [|fuel IH]; intros s H Ha; cbn [raw_push_wait] in H; vbind H as (x & s1 & E & H); apply get_inv in E as [-> E];
    destruct (Z.ltb_spec (t_bufsize x) TTY_BUF_SIZE); unfold ret, hang in H; simplify_eq; eauto; destruct (negb b); simplify_eq; try done.
  vbind H as (err & s1 & E1 & H). destruct (err <? 0) eqn:Ee; [|by eapply IH]. injection H as -> ->. congruence.
Qed.
Lemma ok_put {A} (m : T A) s a x y : m s = Ret a (put_tty u y s) -> inv t (fsd s) -> ttys (fsd s) !! u = Some x -> wf_tty y -> t_driver y = t_driver x -> t_other y = t_other x -> ok others m s.
Proof.
  intros E I Hx W D O. unfold ok. rewrite E. apply put_ok; [done|by exists x| |by intros v []]. destruct (proj1 I u x Hx) as (_ & d & Hd & Ho). split; [done|]. exists d. by rewrite D, O.
Qed.
Lemma push_char_fine ch flag : fine (tty_push_char u ch flag b).
Proof.
  apply fine_bind; auto with fine. intros w s I E. apply ok_bind; [by apply push_wait_fine|]. intros err s' Hp I' G _. destruct (err <? 0) eqn:Ee; [by apply ok_ret|].
  destruct (push_wait_room _ _ _ _ Hp Ee) as (x & Hx & Hs). destruct (proj1 I' u x Hx) as [W _]. destruct (pushed_wf ch flag x W Hs) as [W' _].
  eapply ok_put; [apply push_tail_run; [done|split; [apply W|done]]|done..].
Qed.
#[local] Hint Resolve push_char_fine : fine.

Lemma send_signal_fine ch queue : fine (tty_send_input_signal u ch queue).
Proof.
  apply fine_bind; auto with fine. intros x. destruct (negb (has (lflags (t_termios x)) ISIG_)); auto with fine. destruct (ch =? 0); auto with fine. cbv zeta.
  set (sig := if ch =? cc_at x VINTR_ then _ else _). destruct sig; auto with fine. destruct (t_fg_group x =? 0); auto with fine. apply fine_bind; [|auto with fine].
  destruct (has (lflags (t_termios x)) NOFLSH_); auto with fine. apply fine_upd. intros y W. destruct (shortened_wf 0 y W) as [W' _]; [pose proof (wf_size y W); lia|]. done.
Qed.
Lemma echo_char_fine lf ch : fine (echo_char write u lf ch).
Proof. apply fine_bind; auto with fine. intros x. case_match; auto with fine. Qed.
#[local] Hint Resolve send_signal_fine echo_char_fine : fine.

(** The echo of an erased character leaves the buffer. *)
Lemma erase_echo_ok lf (echo : bool) s : inv t (fsd s) -> (forall x, ttys (fsd s) !! u = Some x -> is_Some (t_buf x !! Z.to_nat (t_bufsize x))) -> is_Some (ttys (fsd s) !! u) ->
  ok Pw (if echo then
           tty_echo write u [8; 32; 8] ;;
           let! x := get_tty u in
           let! ch := deref (t_buf x !! Z.to_nat (t_bufsize x) : option Z) in
           if should_echoctl lf x ch then tty_echo write u [8; 32; 8] else ret tt
         else ret tt) s.
Proof.
  intros I Hc E. destruct echo; [|by apply ok_ret]. assert (forall s, inv t (fsd s) -> is_Some (ttys (fsd s) !! u) -> ok Pw (tty_echo write u [8; 32; 8]) s) as He.
  { intros s0 I0 E0. apply ok_bind; [by apply Hw|]. intros a s' _ I' _ _. by apply ok_ret. }
  apply ok_bind; [by apply He|]. intros [] s1 _ I1 G1 U1. apply ok_bind; [apply ok_get; auto|]. intros x s2 E2 I2 _ _. apply get_inv in E2 as [-> E2]. pose proof (U1 u Hu) as Hx. rewrite E2 in Hx.
  destruct (Hc x (eq_sym Hx)) as [ch Hch]. rewrite Hch. apply ok_bind; [by apply ok_ret|]. intros c s3 E3 _ _ _. unfold deref, ret in E3. injection E3 as <- <-.
  case_match; [apply He; [done|by exists x]|by apply ok_ret].
Qed.

Lemma erase_fine n lf (echo : bool) : forall s, inv t (fsd s) -> (exists x, ttys (fsd s) !! u = Some x /\ Z.of_nat n <= t_bufsize x) -> ok others (erase_loop write n u lf echo) s.
Proof.
  induction n as [|n IH]; intros s I (x & Hx & Hn); cbn [erase_loop]; [by apply ok_ret|]. destruct (proj1 I u x Hx) as [W _]. pose proof (wf_size x W). pose proof (wf_flag x W). pose proof (wf_buf x W).
  assert (exists flag, t_buf_flag x !! Z.to_nat (t_bufsize x - 1) = Some flag) as [flag Hf] by (apply lookup_lt_is_Some; lia).
  eapply ok_step; [by apply get_tty_run|]. unfold in_bounds. rewrite (proj2 (Z.ltb_lt _ _)) by lia. eapply ok_step; [done|]. rewrite Hf. eapply ok_step; [done|].
  destruct flag; [by apply ok_ret|]. apply ok_bind.
  { apply ok_upd; [done|by exists x|by intros v []|]. intros y Hy Wy. rewrite Hx in Hy. injection Hy as <-. destruct (shortened_wf (t_bufsize x - 1) x W) as [W' _]; [lia|]. done. }
  intros [] s1 E1 I1 G1 _. rewrite (upd_tty_run _ _ _ _ Hx) in E1. injection E1 as <-. set (y := set_t_bufsize (t_bufsize x - 1) x) in *.
  assert (forall z, ttys (fsd (put_tty u y s)) !! u = Some z -> z = y) as Hy by (intros z; rewrite put_tty_lookup; congruence).
  pose proof (erase_echo_ok lf echo (put_tty u y s) I1) as He. apply (ok_bind_frame Pw); [by intros v []|apply He|].
  - intros z ->%Hy. apply lookup_lt_is_Some. cbn. lia.
  - rewrite put_tty_lookup. eauto.
  - intros [] s2 _ I2 U2. apply IH; [done|]. exists y. rewrite (U2 u Hu), put_tty_lookup. split; [done|]. cbn. lia.
Qed.

(** One character, in each mode. *)
Lemma canon_char_fine lf ifl ch queue : fine (canon_char write u lf ifl ch queue b).
Proof.
  unfold canon_char. destruct (translate ifl ch) as [c|]; [|auto with fine].
  assert (forall (fl : bool) d (m : T unit) q, fine m -> fine (let! err := tty_push_char u d fl b in if err <? 0 then ret (inl err) else m ;; ret (inr q : Z + Z))) as Hp.
  { intros fl d m q Hm. apply fine_bind; auto with fine. intros err. case_match; auto with fine. }
  assert (forall (e : bool), fine (if e then echo_char write u lf c else ret tt)) as He by (intros []; auto with fine).
  intros s I [x Hx]. eapply ok_step; [by apply get_tty_run|]. cbv zeta. destruct (c =? 0); [apply Hp; [done..|by exists x]|].
  destruct ((c =? cc_at x VERASE_) || (c =? cc_at x VKILL_)).
  { apply ok_bind; [|intros; by apply ok_ret]. apply erase_fine; [done|]. exists x. split; [done|]. pose proof (wf_size x (proj1 (proj1 I u x Hx))).
    destruct ((c =? cc_at x VERASE_) && (0 <? t_bufsize x)) eqn:Ee; [|lia]. apply andb_prop in Ee as [_ Ee%Z.ltb_lt]. lia. }
  destruct (c =? cc_at x VEOF_); [apply Hp; [auto with fine|done|by exists x]|].
  destruct ((c =? 10) || (c =? cc_at x VEOL_)).
  { apply (fine_bind (if has lf ECHO_ then tty_echo write u [13; 10] else ret tt)); [destruct (has lf ECHO_); auto with fine|intros _; by apply Hp, fine_wake|done|by exists x]. }
  apply (fine_bind (tty_send_input_signal u c queue)); [auto with fine| |done|by exists x]. intros [[] q]; [apply fine_bind; auto with fine|by apply Hp].
Qed.
Lemma raw_char_fine ch queue : fine (raw_char u ch queue b).
Proof.
  apply fine_bind; auto with fine. intros [[] q]; auto with fine. apply fine_bind; auto with fine. intros w s I E. apply ok_bind; [by apply raw_wait_fine|]. intros err s' Hp I' G _.
  destruct (err <? 0) eqn:Ee; [by apply ok_ret|]. destruct (raw_wait_room _ _ _ _ Hp Ee) as (x & Hx & Hs). destruct (proj1 I' u x Hx) as [W _]. destruct (raw_pushed_wf ch x W Hs) as [W' _].
  eapply ok_put; [apply raw_tail_run; [done|split; [apply W|done]]|done..].
Qed.
Lemma loop_fine (char : Z -> Z -> T (Z + Z)) input : (forall ch q, fine (char ch q)) -> forall n q, fine (input_loop char input n q).
Proof. intros Hc. induction input as [|ch input IH]; intros n q; cbn [input_loop]; auto with fine. apply fine_bind; [done|]. intros []; auto with fine. Qed.
Lemma for_each_fine {A} (l : list A) (f : A -> T unit) : (forall a, fine (f a)) -> fine (for_each l f).
Proof. intros H. induction l; cbn [for_each]; auto with fine. Qed.
Lemma input_with_fine input : fine (tty_input_with write u input b).
Proof.
  apply fine_bind; auto with fine. intros x. cbv zeta. apply fine_bind.
  - destruct (has (lflags (t_termios x)) ICANON_); [apply loop_fine; intros; apply canon_char_fine|]. apply fine_bind; [apply loop_fine; intros; apply raw_char_fine|]. intros r.
    apply fine_bind; auto with fine. intros y. apply fine_bind; [destruct (0 <? t_bufsize y); auto with fine|auto with fine].
  - intros [[err n] q] s I [y Hy]. eapply ok_step; [by apply get_tty_run|]. unfold assert. rewrite (proj2 (Z.leb_le _ _)) by apply wf_size, (proj1 I u y Hy). eapply ok_step; [done|].
    apply fine_bind; [destruct (t_fg_group y =? 0); auto using for_each_fine with fine|auto with fine|done|by exists y].
Qed.

End Discipline.

(** ** The drivers *)

Context {HT : HostTty}.
(** The drivers of the host return and leave the terminals alone. *)
Hypothesis host_ok : forall k u buf b s, inv t (fsd s) -> ok (fun _ => True) (host_write k u buf b) s.

(** Showing characters on a terminal leaves it alone. *)
Lemma shallow_write_ok u buf s : inv t (fsd s) -> is_Some (ttys (fsd s) !! u) -> ok (fun _ => True) (driver_write 0 u buf false) s.
Proof.
  intros I [x Hx]. destruct (proj1 I u x Hx) as (W & d & Hd & Ho). cbn [driver_write]. eapply ok_step; [by apply (ops_of_run _ _ _ _ Hx Hd)|].
  destruct (d_ops d); [| |by apply host_ok]; (eapply ok_step; [by apply get_tty_run|]); destruct Ho as (o & -> & _); (eapply ok_step; [done|]); done.
Qed.
Lemma driver_write_ok u buf s : inv t (fsd s) -> is_Some (ttys (fsd s) !! u) -> ok (fun v => v = u) (driver_write 1 u buf false) s.
Proof.
  intros I [x Hx]. destruct (proj1 I u x Hx) as (W & d & Hd & Ho). cbn [driver_write]. eapply ok_step; [by apply (ops_of_run _ _ _ _ Hx Hd)|].
  assert (forall o, o <> u -> is_Some (ttys (fsd s) !! o) -> ok (fun v => v = u) (tty_input_with (driver_write 0) o buf false) s) as Hi.
  { intros o Hne Hs. apply (ok_weaken (others o (fun _ => True))); [by intros v ->|]. apply input_with_fine; [done|apply shallow_write_ok|done|done|done]. }
  destruct (d_ops d); [| |by eapply ok_weaken; [|apply host_ok]]; (eapply ok_step; [by apply get_tty_run|]); destruct Ho as (o & -> & Hne & Hs); (eapply ok_step; [done|]); by apply Hi.
Qed.

(** C13: input of any length, in any mode, with or without waiting, stays inside the buffer of the terminal, and fails no assertion. *)
Theorem tty_input_safe input b s : inv t (fsd s) -> is_Some (ttys (fsd s) !! t) ->
  match tty_input t input b s with Ret _ s' => inv t (fsd s') | Hang => True | Abort | Fault => False end.
Proof.
  intros I E. assert (ok (others t (fun v => v = t)) (tty_input t input b) s) as H by (apply input_with_fine; [done|apply driver_write_ok|done|done|done]).
  unfold ok in H. destruct (tty_input t input b s); [apply H|done..].
Qed.

End Safety.

(** ** Numbers of pseudo-terminals *)

Section Numbers.
Implicit Types s : vfs world.

Definition digit (n : Z) : Ascii.ascii := Ascii.ascii_of_N (Z.to_N (48 + n mod 10)).
Lemma digit_code n : Z.of_N (Ascii.N_of_ascii (digit n)) = 48 + n mod 10.
Proof. unfold digit. pose proof (Z.mod_pos_bound n 10). rewrite Ascii.N_ascii_embedding; lia. Qed.
Lemma digits_snoc l acc n v : digits_value acc l = Some v -> digits_value acc (l ++ [digit n]) = Some (10 * v + n mod 10).
Proof.
  revert acc. induction l as [|c l IH]; intros acc; cbn [app digits_value].
  - intros [= <-]. rewrite digit_code. pose proof (Z.mod_pos_bound n 10). replace ((48 <=? 48 + n mod 10) && (48 + n mod 10 <=? 57)) with true; [f_equal; lia|].
    symmetry. apply andb_true_intro. split; apply Z.leb_le; lia.
  - destruct ((48 <=? _) && _); [apply IH|done].
Qed.
Lemma decimal_value fuel : forall n, 0 <= n < 10 ^ Z.of_nat fuel -> digits_value 0 (decimal fuel n) = Some n.
Proof.
  induction fuel as [|fuel IH]; intros n Hn; [cbn in Hn; cbn; f_equal; lia|]. cbn [decimal]. fold (digit n). destruct (Z.ltb_spec n 10).
  - rewrite (digits_snoc [] 0 n 0 eq_refl). f_equal. rewrite Z.mod_small; lia.
  - rewrite (digits_snoc _ 0 n (n / 10)); [f_equal; rewrite (Z.div_mod n 10) at 3; lia|]. apply IH. rewrite Nat2Z.inj_succ, Z.pow_succ_r in Hn by lia.
    split; [apply Z.div_pos; lia|apply Z.div_lt_upper_bound; lia].
Qed.
Lemma decimal_plain fuel n : slash ∉ decimal fuel n.
Proof.
  revert n. induction fuel as [|fuel IH]; intros n; cbn [decimal]; [set_solver|]. fold (digit n). rewrite elem_of_app, list_elem_of_singleton. intros [H|H].
  - destruct (n <? 10); [set_solver|by apply (IH (n / 10))].
  - apply (f_equal (fun c => Z.of_N (Ascii.N_of_ascii c))) in H. rewrite digit_code in H. pose proof (Z.mod_pos_bound n 10). change (Z.of_N (Ascii.N_of_ascii slash)) with 47 in H. lia.
Qed.

Lemma slot_run d num l e s : tty_tables (fsd s) !! d_ttys d = Some l -> 0 <= num -> l !! Z.to_nat num = Some e -> table_slot d num s = Ret e s.
Proof.
  intros Hl Hn He. unfold table_slot. rewrite (bind_step _ _ s (fsd s) s), Hl, (bind_step _ _ s l s) by done. unfold in_bounds. rewrite (proj2 (Z.leb_le 0 num) Hn), (bind_step _ _ s tt s) by done.
  by rewrite He.
Qed.
Lemma driver_run d v s : drivers (fsd s) !! d = Some v -> get_driver d s = Ret v s.
Proof. intros H. unfold get_driver. rewrite (bind_step _ _ s (fsd s) s) by done. by rewrite H. Qed.

(** the path of an open file of devpts is one that leads back to its number. *)
Theorem devpts_path_roundtrip f num d l e s : fd_num (fsd s) !! f = Some num -> 0 <= num < MAX_PTYS -> drivers (fsd s) !! pty_slave = Some d ->
  tty_tables (fsd s) !! d_ttys d = Some l -> l !! Z.to_nat num = Some e -> e <> Free ->
  exists p, devpts_getpath f s = Ret (inr p) s /\ devpts_get_pty_num p s = Ret num s.
Proof.
  intros Hf Hn Hd Hl He Hfree. unfold MAX_PTYS in Hn. exists (slash :: decimal 10 num). split.
  - unfold devpts_getpath, devpts_num. rewrite (bind_step _ _ s num s) by (rewrite (bind_step _ _ s (fsd s) s) by done; by rewrite Hf). destruct (Z.eqb_spec num (-1)); [lia|done].
  - unfold devpts_get_pty_num. rewrite (proj2 (Ascii.eqb_eq slash slash) eq_refl). cbn [negb orb]. rewrite (bool_decide_false (slash ∈ _)) by apply decimal_plain.
    rewrite (bool_decide_false (decimal 10 num = [])) by (cbn [decimal]; intros [_ H]%app_nil; done). cbn [orb]. rewrite decimal_value by (cbn; lia).
    destruct (Z.ltb_spec (2 ^ 31 - 1) num) as [Hc|_]; [cbn in Hc; lia|]. unfold devpts_pty_exists, MAX_PTYS. destruct (Z.ltb_spec num 0), (Z.ltb_spec 4096 num); try lia. cbn [orb].
    erewrite bind_step; [|rewrite (bind_step _ _ _ _ _ (driver_run _ _ _ Hd)), (bind_step _ _ _ _ _ (slot_run d num l e s Hl (proj1 Hn) He)); reflexivity]. by destruct e.
Qed.

Lemma first_free_full l : Free ∉ l -> first_free l = length l.
Proof. induction l as [|[| |t] l IH]; intros H; [done|set_solver|cbn; f_equal; apply IH; set_solver..]. Qed.

(** when every pseudo-terminal is in use, opening another writes past the end of their table instead of failing. *)
Theorem ptmx_exhausted_overflows `{HT : HostTty} f d l s : drivers (fsd s) !! pty_slave = Some d -> tty_tables (fsd s) !! d_ttys d = Some l ->
  Z.of_nat (length l) = MAX_PTYS -> Free ∉ l -> ptmx_open f s = Fault.
Proof.
  intros Hd Hl Hlen Hf. unfold ptmx_open, pty_reserve_next, bind at 1. rewrite (bind_step _ _ _ _ _ (driver_run _ _ _ Hd)), (bind_step _ _ s (fsd s) s), Hl, (bind_step _ _ s l s) by done. cbv zeta.
  rewrite take_ge, first_free_full, Hlen by (done || lia). unfold bind at 1, set_table_slot. rewrite (bind_step _ _ s (fsd s) s), Hl, (bind_step _ _ s l s), Hlen by done. done.
Qed.

End Numbers.

(** ** Input that is lost *)

(** a line that fills the buffer can not be finished: the character that would end it is refused. *)
Theorem full_line_stuck `{HT : HostTty} t s x e ch c : ttys (fsd s) !! t = Some x -> holds x e -> has (lflags (t_termios x)) ICANON_ = true -> has (lflags (t_termios x)) ECHO_ = false ->
  t_bufsize x = TTY_BUF_SIZE -> key_of x ch = KEnd c -> tty_input t [ch] false s = Ret _EAGAIN s.
Proof.
  intros Hx H HC HE Hs Hk. assert (forall d (k : T (Z + Z)), (let! err := tty_push_char t d true false in if err <? 0 then ret (inl err) else k) s = Ret (inl _EAGAIN) s) as Hp.
  { intros d k. rewrite (bind_step _ _ s _EAGAIN s); [done|]. unfold tty_push_char. rewrite (bind_step _ _ s (fsd s) s) by done.
    erewrite bind_step by (destruct (length (waits (fsd s))); cbn [push_wait]; erewrite bind_step by exact (get_tty_run _ _ _ Hx); rewrite Hs; reflexivity). done. }
  assert (canon_char (driver_write 1) t (lflags (t_termios x)) (iflags (t_termios x)) ch 0 false s = Ret (inl _EAGAIN) s) as E.
  { unfold canon_char. unfold key_of in Hk. destruct (translate _ ch) as [d|]; [|done]. rewrite (bind_step _ _ _ _ _ (get_tty_run _ _ _ Hx)). cbv zeta. rewrite HE.
    destruct (d =? 0); [done|]. destruct (d =? cc_at x VERASE_); [done|]. destruct (d =? cc_at x VKILL_); [done|]. cbn [orb]. destruct (d =? cc_at x VEOF_); [apply Hp|].
    destruct ((d =? 10) || (d =? cc_at x VEOL_)); [|by repeat case_match]. rewrite (bind_step _ _ s tt s) by done. apply Hp. }
  unfold tty_input, tty_input_with. rewrite (bind_step _ _ _ _ _ (get_tty_run _ _ _ Hx)). cbv zeta. rewrite HC. cbn [input_loop].
  erewrite bind_step by (erewrite bind_step by exact E; reflexivity). cbn iota beta. rewrite (bind_step _ _ _ _ _ (get_tty_run _ _ _ Hx)). unfold assert. rewrite Hs, Z.leb_refl, (bind_step _ _ s tt s) by done.
  rewrite (bind_step _ _ s tt s) by by destruct (t_fg_group x =? 0). done.
Qed.

(** once the last user of the slave side is gone, what it wrote can not be read from the master side any more. *)
Theorem closed_slave_output_lost f m p x y n s : fd_tty (fsd s) !! f = Some m -> (exists v, fds s !! f = Some v) -> ttys (fsd s) !! m = Some x -> t_driver x = pty_master -> t_other x = Some p ->
  ttys (fsd s) !! p = Some y -> t_ever_opened y = true -> t_refcount y = 1 -> text x <> [] -> tty_read f n s = Ret (if n =? 0 then inr [] else inl 0) s.
Proof.
  intros H1 [v H2] H3 H4 H5 H6 H7 H8 _. unfold tty_read. destruct (n =? 0); [done|]. rewrite (bind_step _ _ _ _ _ (tty_of_run _ _ _ H1)), (bind_step _ _ _ _ _ (fd_run _ _ _ H2)), (bind_step _ _ _ _ _ (get_tty_run _ _ _ H3)).
  rewrite (bind_step _ _ s true s); [done|]. destruct (t_hung_up x); [done|]. unfold pty_is_half_closed_master. rewrite (bind_step _ _ _ _ _ (get_tty_run _ _ _ H3)), H4, Z.eqb_refl, H5. cbn [negb].
  rewrite (bind_step _ _ s p s), (bind_step _ _ _ _ _ (get_tty_run _ _ _ H6)), H7, H8 by done. done.
Qed.

(** ** On concrete terminals *)

Module Demo.

#[local] Instance demo_host : HostTty := {|
  host_init _ := None; host_open _ := None; host_close _ := None; host_write _ _ buf _ := ret (Z.of_nat (length buf)); host_ioctl _ := None; host_cleanup _ := None |}.

Definition blank : list Z := replicate 4096 0.
Definition no_flags : list bool := replicate 4096 false.
Definition raw : termios := set_iflags 0 (set_oflags 0 (set_lflags 0 default_termios)).
Definition master_side : tty := mk_tty 1 pty_master false true blank no_flags 0 0 (mk_winsize 0 0 0 0) raw TTY_PSEUDO_MASTER_MAJOR 0 0 0 [3] (Some 11) 0 0 0 false false.
Definition slave_side : tty := mk_tty 2 pty_slave false true blank no_flags 0 0 (mk_winsize 24 80 0 0) default_termios TTY_PSEUDO_SLAVE_MAJOR 0 0 7 [4] (Some 10) 400 0 0 false false.
Definition drivers0 : gmap Z tty_driver :=
  {[ pty_master := mk_driver pty_master_ops TTY_PSEUDO_MASTER_MAJOR 20 MAX_PTYS; pty_slave := mk_driver pty_slave_ops TTY_PSEUDO_SLAVE_MAJOR 21 MAX_PTYS ]}.
Definition two_sides (x y : tty) (table : list slot) : vfs world :=
  mk_vfs (mk_world {[ 10 := x; 11 := y ]} drivers0 {[ 21 := table ]} ∅ {[ 3 := 10; 4 := 11 ]} {[ 5 := 0 ]} {[ 1 := mk_tgroup (Some 11) 7 7 ]} 1 ∅ (0, 0) true slave_side [] [] [] [])
    [] {[ 3 := mk_fd 1 0 0 0 0 None None None None; 4 := mk_fd 1 0 0 0 0 None None None None ]} ∅ ∅ ∅ (mk_task 0 0 0 0 7 200 (mk_fs_info 0 None None) 1024) 300.

Lemma blank_wf x n : t_buf x = blank -> t_buf_flag x = no_flags -> t_bufsize x = n -> 0 <= n <= 4096 -> wf_tty x.
Proof. intros H1 H2 H3 Hn. split; [rewrite H1; unfold blank; by rewrite length_replicate|rewrite H2; unfold no_flags; by rewrite length_replicate|by rewrite H3]. Qed.
Lemma master_wf : wf_tty master_side.
Proof. by apply (blank_wf _ 0). Qed.
Lemma slave_empty : holds slave_side (mk_editor [] []).
Proof. split; [by apply (blank_wf _ 0)|done]. Qed.
(** The slave side with a line, and then an end of file. *)
Definition with_line : tty := pushed 10 true (pushed 97 false slave_side).
Definition with_eof : tty := pushed 0 true with_line.
Lemma with_line_holds : holds with_line (mk_editor [([97], 10)] []).
Proof.
  destruct slave_empty as [W V]. destruct (pushed_wf 97 false _ W eq_refl) as [W1 V1]. destruct (pushed_wf 10 true _ W1 eq_refl) as [W2 V2]. split; [done|]. unfold with_line. by rewrite V2, V1, V.
Qed.
Lemma with_eof_holds : holds with_eof (mk_editor [([97], 10); ([], 0)] []).
Proof. destruct with_line_holds as [W V]. destruct (pushed_wf 0 true _ W eq_refl) as [W1 V1]. split; [done|]. unfold with_eof. by rewrite V1, V. Qed.
Lemma slave_reads x y l : t_hung_up y = false -> t_driver y = pty_slave -> t_fg_group y = 7 -> can_read (two_sides x y l) 4 11 y.
Proof. intros H1 H2 H3. split; [done|by eexists|done|done|by rewrite H2|]. eexists. split; [done|]. right. right. by rewrite H3. Qed.
Lemma sides : pty_pair (two_sides master_side slave_side []) 3 10 4 11 master_side slave_side.
Proof.
  split; [done|by eexists|done|apply master_wf|done|split; [done|by eexists]|done|done|done|by eexists|by apply slave_reads|done|apply slave_empty].
Qed.

Lemma tty_read_refines_witness : exists y, tty_read 4 16 (two_sides master_side with_line []) = Ret (inr [97; 10]) (put_tty 11 y (two_sides master_side with_line [])).
Proof.
  destruct (tty_read_refines (two_sides master_side with_line []) 4 11 with_line (mk_editor [([97], 10)] []) 16 ltac:(by apply slave_reads) eq_refl with_line_holds ltac:(lia)
    [97; 10] (mk_editor [] []) eq_refl ltac:(done)) as (y & E & _). by exists y.
Defined.
Lemma eof_after_line_lost_witness : exists s', tty_read 4 16 (two_sides master_side with_eof []) = Ret (inr [97; 10]) s' /\ tty_read 4 16 s' = Hang.
Proof.
  apply (eof_after_line_lost (two_sides master_side with_eof []) 4 11 with_eof [97] 10 [] 16); [by apply slave_reads|done|exact with_eof_holds|done|done|done|].
  intros v H. by injection H as <-.
Defined.
Lemma tty_input_refines_witness : exists s' y, tty_input 11 [97; 98; 127; 99; 10; 3] false (two_sides master_side slave_side []) = Ret 6 s' /\ ttys (fsd s') !! 11 = Some y /\
  holds y (type_keys slave_side (mk_editor [] []) [97; 98; 127; 99; 10; 3]) /\ type_keys slave_side (mk_editor [] []) [97; 98; 127; 99; 10] = mk_editor [([97; 99], 10)] [] /\ sent (fsd s') = [(7, 2)].
Proof.
  destruct (tty_input_refines 11 (Q := quiet_slave 11 10 ltac:(done) 0) (two_sides master_side slave_side []) slave_side (mk_editor [] []) [97; 98; 127; 99; 10; 3] false eq_refl) as (s' & y & E & Hy & _ & H & Hs).
  - exists slave_side, (mk_driver pty_slave_ops TTY_PSEUDO_SLAVE_MAJOR 21 MAX_PTYS), master_side. split_and!; [done|done|done|done|done|apply master_wf|done].
  - exact slave_empty.
  - done.
  - unfold TTY_BUF_SIZE. cbn. lia.
  - exists s', y. split_and!; [done|done|done|done|]. by rewrite Hs.
Defined.
Lemma pty_line_roundtrip_witness : exists s1 s2, tty_write 3 [104; 105; 10] (two_sides master_side slave_side []) = Ret 3 s1 /\ tty_read 4 64 s1 = Ret (inr [104; 105; 10]) s2.
Proof.
  destruct (pty_line_roundtrip (two_sides master_side slave_side []) 3 10 4 11 master_side slave_side [104; 105] 64 sides) as (s1 & s2 & z & E1 & E2 & _); [by repeat constructor|done|done|done|].
  by exists s1, s2.
Defined.
Lemma demo_tty_inv : inv 11 (fsd (two_sides master_side slave_side [])).
Proof.
  split; [|by constructor]. intros u y Hy. cbn in Hy. apply lookup_insert_Some in Hy as [[<- <-]|[_ Hy]].
  - split; [apply master_wf|]. eexists. split; [done|]. exists 11. by split_and!.
  - apply lookup_singleton_Some in Hy as [<- <-]. split; [apply slave_empty|]. eexists. split; [done|]. exists 10. by split_and!.
Qed.
Lemma tty_input_safe_witness : match tty_input 11 (replicate 5000 97) false (two_sides master_side slave_side []) with Ret _ s' => inv 11 (fsd s') | Hang => True | Abort | Fault => False end.
Proof. apply (tty_input_safe 11); [|exact demo_tty_inv|by eexists]. intros k u buf b s I. by apply ok_ret. Defined.
Lemma devpts_path_roundtrip_witness : exists p, devpts_getpath 5 (two_sides master_side slave_side [Used 11]) = Ret (inr p) (two_sides master_side slave_side [Used 11]) /\
  devpts_get_pty_num p (two_sides master_side slave_side [Used 11]) = Ret 0 (two_sides master_side slave_side [Used 11]).
Proof. apply (devpts_path_roundtrip 5 0 (mk_driver pty_slave_ops TTY_PSEUDO_SLAVE_MAJOR 21 MAX_PTYS) [Used 11] (Used 11)); done. Defined.
Lemma ptmx_exhausted_overflows_witness : ptmx_open 6 (two_sides master_side slave_side (replicate 4096 Reserved)) = Fault.
Proof.
  apply (ptmx_exhausted_overflows 6 (mk_driver pty_slave_ops TTY_PSEUDO_SLAVE_MAJOR 21 MAX_PTYS) (replicate 4096 Reserved)); [done|done|by rewrite length_replicate|].
  intros H. by apply elem_of_replicate in H as [H _].
Defined.
Definition full : tty := set_t_bufsize 4096 (set_t_termios (set_lflags (Z.lor ICANON_ ISIG_) default_termios) slave_side).
Lemma full_holds : holds full (mk_editor [] blank).
Proof. split; [by apply (blank_wf _ 4096)|]. vm_compute. reflexivity. Qed.
Lemma full_line_stuck_witness : tty_input 11 [10] false (two_sides master_side full []) = Ret _EAGAIN (two_sides master_side full []).
Proof. apply (full_line_stuck 11 (two_sides master_side full []) full (mk_editor [] blank) 10 10); try reflexivity. exact full_holds. Defined.
Lemma closed_slave_output_lost_witness : tty_read 3 16 (two_sides (raw_pushed 97 master_side) (set_t_refcount 1 slave_side) []) = Ret (inl 0) (two_sides (raw_pushed 97 master_side) (set_t_refcount 1 slave_side) []).
Proof.
  apply (closed_slave_output_lost 3 10 11 (raw_pushed 97 master_side) (set_t_refcount 1 slave_side) 16); try reflexivity; [by eexists|].
  rewrite (proj2 (raw_pushed_wf 97 master_side master_wf eq_refl)). by destruct (text master_side).
Defined.

(** A session: a pseudo-terminal is made, its slave side unlocked and opened, a line typed with a mistake, and read. *)
Definition boot : vfs world :=
  mk_vfs (mk_world ∅ drivers0 {[ 20 := replicate 4096 Free; 21 := replicate 4096 Free ]} {[ TTY_PSEUDO_SLAVE_MAJOR := pty_slave ]} ∅ ∅ {[ 1 := mk_tgroup None 7 7 ]} 1 ∅ (0, 0) true slave_side [] [] [] [])
    [] {[ 3 := mk_fd 1 0 0 0 0 None None None None; 4 := mk_fd 1 0 0 0 0 None None None None ]} ∅ ∅ ∅ (mk_task 0 0 0 0 7 200 (mk_fs_info 0 None None) 1024) 300.
Definition session : T (Z * Z * Z * Z * (Z + list Z) * (Z + list Z)) :=
  let! e1 := tty_device_open 1 TTY_ALTERNATE_MAJOR DEV_PTMX_MINOR 3 in
  let! e2 := tty_device_open 1 TTY_PSEUDO_SLAVE_MAJOR 0 4 in
  let! (e3, _) := tty_ioctl 3 TIOCSPTLCK_ (ArgNum 0) in
  let! e4 := tty_device_open 1 TTY_PSEUDO_SLAVE_MAJOR 0 4 in
  let! _ := tty_write 3 [108; 120; 127; 115; 13] in
  let! r := tty_read 4 64 in
  let! e := tty_read 3 64 in
  ret (e1, e2, e3, e4, r, e).
Example session_echo : exists s, session boot = Ret (0, _EIO, 0, 0, inr [108; 115; 10], inr [108; 120; 8; 32; 8; 115; 13; 10]) s.
Proof. eexists. vm_compute. reflexivity. Qed.

End Demo.
End Tty.
