(* ===== verification/Futex.v ===== *)
(** * Futexes (kernel/futex.c)

    A futex is made when it is first used and freed with its last reference; each thread that waits holds one.  Threads are taken from
    the queue of a futex in the order they came, or moved to the queue of another.  The lock [futex_lock] makes every operation atomic but the wait itself, which
    is cut in two: [futex_wait_begin] up to the wait, and [futex_wait_end] after it.

    The module has a state machine of threads that wait, wake, requeue and return from their waits, and proves that it refines
    one queue of threads for each address. *)

From S2P Require Import Prelude Errno FileLock Task Vfs.

Module Futex.
Import Errno Vfs.

Definition FUTEX_WAIT_ : Z := 0.
Definition FUTEX_WAKE_ : Z := 1.
Definition FUTEX_REQUEUE_ : Z := 3.
Definition FUTEX_PRIVATE_FLAG_ : Z := 128.
Definition FUTEX_CMD_MASK_ : Z := u32 (Z.lnot FUTEX_PRIVATE_FLAG_).
Definition FUTEX_HASH_BITS : Z := 12.
Definition FUTEX_HASH_SIZE : Z := Z.shiftl 1 FUTEX_HASH_BITS.

(** [struct futex]; the queue holds the addresses of the waits.  [chain] is a place in a bucket of [futex_hash]. *)
Record futex := mk_futex {
  refcount : Z;
  f_mem : Z;
  f_addr : Z;
  queue : list Z }.
Definition set_refcount (v : Z) (x : futex) : futex :=
  mk_futex v (f_mem x) (f_addr x) (queue x).
Definition set_f_mem (v : Z) (x : futex) : futex :=
  mk_futex (refcount x) v (f_addr x) (queue x).
Definition set_f_addr (v : Z) (x : futex) : futex :=
  mk_futex (refcount x) (f_mem x) v (queue x).
Definition set_queue (v : list Z) (x : futex) : futex :=
  mk_futex (refcount x) (f_mem x) (f_addr x) v.

(** [struct futex_wait]; its [queue] is a place in the queue of a futex, and [w_notified] is whether its condition was notified. *)
Record struct_futex_wait := mk_wait {
  w_futex : Z;
  w_notified : bool }.
Definition set_w_futex (v : Z) (x : struct_futex_wait) : struct_futex_wait :=
  mk_wait v (w_notified x).
Definition set_w_notified (v : bool) (x : struct_futex_wait) : struct_futex_wait :=
  mk_wait (w_futex x) v.

(** The futexes and waits by address, the table of buckets, the words of guest memory by address space and address, what can be read as a
    time and written, and of the current task its address space, pid and list of robust futexes. *)
Record world := mk_world {
  futexes : gmap Z futex;
  waits : gmap Z struct_futex_wait;
  futex_hash : gmap Z (list Z);
  words : gmap (Z * Z) Z;
  times : gmap Z (Z * Z);
  writable : gset Z;
  written : list (Z * Z);
  cur_mem : Z;
  cur_pid : Z;
  robust_list : Z }.
Definition set_futexes (v : gmap Z futex) (x : world) : world :=
  mk_world v (waits x) (futex_hash x) (words x) (times x) (writable x) (written x) (cur_mem x) (cur_pid x) (robust_list x).
Definition set_waits (v : gmap Z struct_futex_wait) (x : world) : world :=
  mk_world (futexes x) v (futex_hash x) (words x) (times x) (writable x) (written x) (cur_mem x) (cur_pid x) (robust_list x).
Definition set_futex_hash (v : gmap Z (list Z)) (x : world) : world :=
  mk_world (futexes x) (waits x) v (words x) (times x) (writable x) (written x) (cur_mem x) (cur_pid x) (robust_list x).
Definition set_words (v : gmap (Z * Z) Z) (x : world) : world :=
  mk_world (futexes x) (waits x) (futex_hash x) v (times x) (writable x) (written x) (cur_mem x) (cur_pid x) (robust_list x).
Definition set_times (v : gmap Z (Z * Z)) (x : world) : world :=
  mk_world (futexes x) (waits x) (futex_hash x) (words x) v (writable x) (written x) (cur_mem x) (cur_pid x) (robust_list x).
Definition set_writable (v : gset Z) (x : world) : world :=
  mk_world (futexes x) (waits x) (futex_hash x) (words x) (times x) v (written x) (cur_mem x) (cur_pid x) (robust_list x).
Definition set_written (v : list (Z * Z)) (x : world) : world :=
  mk_world (futexes x) (waits x) (futex_hash x) (words x) (times x) (writable x) v (cur_mem x) (cur_pid x) (robust_list x).
Definition set_cur_mem (v : Z) (x : world) : world :=
  mk_world (futexes x) (waits x) (futex_hash x) (words x) (times x) (writable x) (written x) v (cur_pid x) (robust_list x).
Definition set_cur_pid (v : Z) (x : world) : world :=
  mk_world (futexes x) (waits x) (futex_hash x) (words x) (times x) (writable x) (written x) (cur_mem x) v (robust_list x).
Definition set_robust_list (v : Z) (x : world) : world :=
  mk_world (futexes x) (waits x) (futex_hash x) (words x) (times x) (writable x) (written x) (cur_mem x) (cur_pid x) v.

Abbreviation T := (V world).

Definition get_world : T world := gets (fun s => fsd s).
Definition upd_world (g : world -> world) : T unit := modify (fun s => set_fsd (g (fsd s)) s).
Definition get_futex (f : Z) : T futex := let! w := get_world in deref (futexes w !! f).
Definition upd_futex (f : Z) (g : futex -> futex) : T unit :=
  let! x := get_futex f in upd_world (fun w => set_futexes (<[f := g x]> (futexes w)) w).
Definition get_wait (w : Z) : T struct_futex_wait := let! s := get_world in deref (waits s !! w).
Definition upd_wait (w : Z) (g : struct_futex_wait -> struct_futex_wait) : T unit :=
  let! x := get_wait w in upd_world (fun s => set_waits (<[w := g x]> (waits s)) s).

(** ** Futexes by address *)

Definition hash_of (mem addr : Z) : Z := Z.lxor addr mem mod FUTEX_HASH_SIZE.
Definition bucket (h : Z) (w : world) : list Z := default [] (futex_hash w !! h).

(** The first futex of a bucket with this address in this address space. *)
Fixpoint find_futex (l : list Z) (mem addr : Z) : T (option Z) :=
  match l with
  | [] => ret None
  | f :: l =>
      let! x := get_futex f in
      if (f_addr x =? addr) && (f_mem x =? mem) then ret (Some f) else find_futex l mem addr
  end.

(** Whether the host refuses the memory that would be at this address. *)
Class HostMemory := refused : Z -> bool.

Section Calls.
Context {HM : HostMemory}.

(** [None] is NULL, which no caller tests before it uses it. *)
Definition futex_get_unlocked (addr : Z) : T (option Z) :=
  let! w := get_world in
  let h := hash_of (cur_mem w) addr in
  let! found := find_futex (bucket h w) (cur_mem w) addr in
  match found with
  | Some f => upd_futex f (fun x => set_refcount (u32 (refcount x + 1)) x) ;; ret (Some f)
  | None =>
      let! n := gets next in
      if refused n then ret None
      else
        let! f := malloc in
        upd_world (fun w => set_futexes (<[f := mk_futex 1 (cur_mem w) addr []]> (futexes w)) w) ;;
        upd_world (fun w => set_futex_hash (<[h := f :: bucket h w]> (futex_hash w)) w) ;;
        ret (Some f)
  end.
Definition futex_get (addr : Z) : T (option Z) := futex_get_unlocked addr.

Definition futex_put_unlocked (f : Z) : T unit :=
  upd_futex f (fun x => set_refcount (u32 (refcount x - 1)) x) ;;
  let! x := get_futex f in
  if refcount x =? 0 then
    assert (bool_decide (queue x = [])) ;;
    let h := hash_of (f_mem x) (f_addr x) in
    upd_world (fun w => set_futex_hash (<[h := filter (fun g => g <> f) (bucket h w)]> (futex_hash w)) w) ;;
    upd_world (fun w => set_futexes (delete f (futexes w)) w)
  else ret tt.
Definition futex_put (f : Z) : T unit := futex_put_unlocked f.

(** The word at the futex, or that there is none. *)
Definition futex_load (f : Z) : T (option Z) :=
  let! x := get_futex f in
  let! w := get_world in
  assert (f_mem x =? cur_mem w) ;;
  ret (words w !! (cur_mem w, f_addr x)).

(** [list_remove] and [list_remove_safe] of a wait that is in the queue of [f], and [list_add_tail]. *)
Definition queue_remove (f w : Z) : T unit := upd_futex f (fun x => set_queue (filter (fun v => v <> w) (queue x)) x).
Definition queue_add_tail (f w : Z) : T unit := upd_futex f (fun x => set_queue (queue x ++ [w]) x).

(** ** Waiting *)

(** Up to [wait_for]: an error, or the wait that was queued. *)
Definition futex_wait_begin (uaddr val : Z) : T (Z + Z) :=
  let! p := futex_get uaddr in
  let! f := deref p in
  let! word := futex_load f in
  match word with
  | None => futex_put f ;; ret (inl _EFAULT)
  | Some tmp =>
      if negb (tmp =? val) then futex_put f ;; ret (inl _EAGAIN)
      else
        let! w := malloc in
        upd_world (fun s => set_waits (<[w := mk_wait f false]> (waits s)) s) ;;
        queue_add_tail f w ;;
        ret (inr w)
  end.

(** From the return of [wait_for] with [err] on; the wait is a local variable and its life ends. *)
Definition futex_wait_end (w err : Z) : T Z :=
  let! x := get_wait w in
  let f := w_futex x in
  queue_remove f w ;;
  upd_world (fun s => set_waits (delete w (waits s)) s) ;;
  futex_put f ;;
  ret err.

(** [wait_for] gives the lock away: [others] is what other threads do, and what it returns. *)
Definition futex_wait (others : Z -> T Z) (uaddr val : Z) : T Z :=
  let! r := futex_wait_begin uaddr val in
  match r with
  | inl err => ret err
  | inr w => let! err := others w in futex_wait_end w err
  end.

(** ** Waking *)

Fixpoint wake_loop (f : Z) (ws : list Z) (woken wake_max : Z) : T Z :=
  match ws with
  | [] => ret woken
  | w :: ws =>
      if wake_max <=? woken then ret woken
      else
        upd_wait w (set_w_notified true) ;;
        queue_remove f w ;;
        wake_loop f ws (u32 (woken + 1)) wake_max
  end.

(** The place after [w] in a queue, [None] is its head. *)
Fixpoint next_in (q : list Z) (w : Z) : option Z :=
  match q with
  | [] => None
  | v :: q => if v =? w then head q else next_in q w
  end.

(** The place after [tmp] is read in the queue as it is then. *)
Fixpoint requeue_loop (fuel : nat) (f f2 : Z) (item tmp : option Z) (requeued requeue_max : Z) : T Z :=
  match item with
  | None => ret requeued
  | Some w =>
      if requeue_max <=? requeued then ret requeued
      else
        match fuel with
        | O => hang
        | S fuel =>
            queue_remove f w ;;
            queue_add_tail f2 w ;;
            let! x := get_futex f in
            assert (1 <? refcount x) ;;
            upd_futex f (fun x => set_refcount (u32 (refcount x - 1)) x) ;;
            upd_futex f2 (fun x => set_refcount (u32 (refcount x + 1)) x) ;;
            upd_wait w (set_w_futex f2) ;;
            let! x := get_futex f in
            let next := match tmp with Some v => next_in (queue x) v | None => head (queue x) end in
            requeue_loop fuel f f2 tmp next (u32 (requeued + 1)) requeue_max
        end
  end.

Definition futex_wakelike (fuel : nat) (op uaddr wake_max requeue_max requeue_addr : Z) : T Z :=
  let! p := futex_get uaddr in
  let! f := deref p in
  let! x := get_futex f in
  let! woken := wake_loop f (queue x) 0 wake_max in
  let! woken :=
    if op =? FUTEX_REQUEUE_ then
      let! p2 := futex_get_unlocked requeue_addr in
      let! f2 := deref p2 in
      let! x := get_futex f in
      let item := head (queue x) in
      let tmp := match item with Some w => next_in (queue x) w | None => None end in
      let! requeued := requeue_loop fuel f f2 item tmp 0 requeue_max in
      futex_put_unlocked f2 ;;
      ret (u32 (woken + requeued))
    else ret woken in
  futex_put f ;;
  ret woken.

Definition futex_wake (fuel : nat) (uaddr wake_max : Z) : T Z := futex_wakelike fuel FUTEX_WAKE_ uaddr wake_max 0 0.

(** ** System calls *)

(** The result is that of the C function as [dword_t]; [others] gets the time of the wait as well. *)
Definition sys_futex (fuel : nat) (others : option (Z * Z) -> Z -> T Z) (uaddr op val timeout_or_val2 uaddr2 val3 : Z) : T Z :=
  let cmd := Z.land op FUTEX_CMD_MASK_ in
  let! w := get_world in
  if (cmd =? FUTEX_WAIT_) && ctrue timeout_or_val2 && bool_decide (times w !! timeout_or_val2 = None) then ret _EFAULT
  else if cmd =? FUTEX_WAIT_ then futex_wait (others (if ctrue timeout_or_val2 then times w !! timeout_or_val2 else None)) uaddr val
  else if cmd =? FUTEX_WAKE_ then futex_wakelike fuel cmd uaddr val 0 0
  else if cmd =? FUTEX_REQUEUE_ then futex_wakelike fuel cmd uaddr val timeout_or_val2 uaddr2
  else ret _ENOSYS.

End Calls.

(** [sizeof(struct robust_list_head_)]. *)
Definition robust_list_head_size : Z := 12.
Definition sys_set_robust_list (list len : Z) : T Z :=
  if negb (len =? robust_list_head_size) then ret _EINVAL
  else upd_world (set_robust_list list) ;; ret 0.

Definition user_put (addr v : Z) : T bool :=
  let! w := get_world in
  if bool_decide (addr ∈ writable w) then upd_world (fun w => set_written (written w ++ [(addr, v)]) w) ;; ret false else ret true.

(** A pid names the current task or another one, or none. *)
Definition sys_get_robust_list (pid robust_list_ptr len_ptr : Z) : T Z :=
  let! w := get_world in
  if negb (pid =? cur_pid w) then ret _EPERM
  else
    let! bad := user_put robust_list_ptr (robust_list w) in
    if bad then ret _EFAULT
    else
      let! bad := user_put len_ptr robust_list_head_size in
      ret (if bad then _EFAULT else 0).

(** ** The invariant *)

Definition key : Type := Z * Z.
Definition key_of (x : futex) : key := (f_mem x, f_addr x).
Definition one_if (b : bool) : Z := if b then 1 else 0.
(** How many threads wait at a futex, queued or not. *)
Definition count (ws : gmap Z struct_futex_wait) (f : Z) : Z := map_fold (fun _ v n => one_if (w_futex v =? f) + n) 0 ws.
Definition bump (f : Z) (d : Z) (ext : Z -> Z) : Z -> Z := fun g => if decide (g = f) then ext g + d else ext g.

(** The addresses of the futexes there are. *)
Definition keys (w : world) : gmap Z key := key_of <$> futexes w.

(** [ext] are the references that running operations hold; [nx] is the next address to be allocated. *)
Record inv (ext : Z -> Z) (nx : Z) (w : world) : Prop := {
  i_ref f x : futexes w !! f = Some x -> refcount x = count (waits w) f + ext f /\ 0 < refcount x;
  i_wait a v : waits w !! a = Some v -> is_Some (futexes w !! w_futex v) /\ a < nx;
  i_queue f x : futexes w !! f = Some x -> NoDup (queue x) /\ forall a, a ∈ queue x -> exists v, waits w !! a = Some v /\ w_futex v = f;
  i_hash f k : keys w !! f = Some k -> f ∈ bucket (hash_of (fst k) (snd k)) w /\ f < nx;
  i_bucket h f : f ∈ bucket h w -> exists k, keys w !! f = Some k /\ hash_of (fst k) (snd k) = h;
  i_key f g k : keys w !! f = Some k -> keys w !! g = Some k -> f = g;
  i_ext f : 0 <= ext f <= 3;
  i_none f : futexes w !! f = None -> ext f = 0 }.

(** The queue of each address. *)
Definition queues : Type := key -> list Z.
Definition shows (w : world) (Q : queues) : Prop :=
  (forall f x, futexes w !! f = Some x -> queue x = Q (key_of x)) /\ (forall k, (forall f, keys w !! f <> Some k) -> Q k = []).
Definition put (Q : queues) (k : key) (l : list Z) : queues := fun k' => if decide (k' = k) then l else Q k'.
(** The threads that wait, and whether each was notified. *)
Definition notes (w : world) : gmap Z bool := w_notified <$> waits w.
(** Threads that are notified. *)
Definition wake_all (l : list Z) (ts : gmap Z bool) : gmap Z bool := foldl (fun ts a => <[a := true]> ts) ts l.
Definition few (w : world) : Prop := Z.of_nat (size (waits w)) + 8 < 2 ^ 32.

Section Counting.
Implicit Types ws : gmap Z struct_futex_wait.

Lemma count_lookup ws a v f : ws !! a = Some v -> count ws f = one_if (w_futex v =? f) + count (delete a ws) f.
Proof.
  intros H. unfold count. apply (map_fold_delete_L (fun (_ : Z) v n => one_if (w_futex v =? f) + n) 0 a v ws); [|done]. intros. lia.
Qed.
Lemma count_insert ws a v f : ws !! a = None -> count (<[a := v]> ws) f = one_if (w_futex v =? f) + count ws f.
Proof. intros H. rewrite (count_lookup _ a v) by apply lookup_insert_eq. by rewrite delete_insert_eq, delete_id. Qed.
Lemma count_update ws a v v' f : ws !! a = Some v -> count (<[a := v']> ws) f = count ws f - one_if (w_futex v =? f) + one_if (w_futex v' =? f).
Proof. intros H. rewrite (count_lookup _ a v') by apply lookup_insert_eq. rewrite delete_insert_eq, (count_lookup ws a v) by done. lia. Qed.
Lemma count_bounds ws f : 0 <= count ws f <= Z.of_nat (size ws).
Proof.
  unfold count. induction ws as [|a v ws Ha IH] using map_ind; [by rewrite map_fold_empty|]. fold (count (<[a := v]> ws) f). rewrite count_insert by done. fold (count ws f) in IH.
  rewrite map_size_insert_None by done. unfold one_if. case_match; lia.
Qed.
Lemma count_same ws ws' f : (forall a, w_futex <$> ws' !! a = w_futex <$> ws !! a) -> count ws' f = count ws f.
Proof.
  revert ws'. induction ws as [|a v ws Ha IH] using map_ind; intros ws' H.
  - assert (ws' = ∅) as ->; [|done]. apply map_empty. intros a. specialize (H a). rewrite lookup_empty in H. by destruct (ws' !! a).
  - rewrite count_insert by done. pose proof (H a) as Hv. rewrite lookup_insert_eq in Hv. destruct (ws' !! a) as [v'|] eqn:E; [|done]. cbn in Hv. injection Hv as Hv.
    rewrite (count_lookup ws' a v') by done. rewrite Hv, (IH (delete a ws')); [done|]. intros b. destruct (decide (a = b)) as [<-|Hne]; [by rewrite lookup_delete_eq, Ha|].
    rewrite lookup_delete_ne by done. rewrite H. by rewrite lookup_insert_ne.
Qed.
Lemma count_pos ws a v : ws !! a = Some v -> 0 < count ws (w_futex v).
Proof. intros H. rewrite (count_lookup ws a v) by done. pose proof (count_bounds (delete a ws) (w_futex v)). unfold one_if. rewrite Z.eqb_refl. lia. Qed.
Lemma count_zero ws f : (forall a v, ws !! a = Some v -> w_futex v <> f) -> count ws f = 0.
Proof.
  induction ws as [|a v ws Ha IH] using map_ind; intros H; [done|]. rewrite count_insert by done. rewrite IH.
  - unfold one_if. rewrite (proj2 (Z.eqb_neq _ _)); [done|]. apply (H a). apply lookup_insert_eq.
  - intros b u Hb. apply (H b). rewrite lookup_insert_ne; [done|]. congruence.
Qed.

End Counting.

Section Steps.
Context {HM : HostMemory}.
Implicit Types s : vfs world.

Lemma get_futex_run f x s : futexes (fsd s) !! f = Some x -> get_futex f s = Ret x s.
Proof. intros H. unfold get_futex. rewrite (bind_step _ _ s (fsd s) s) by done. by rewrite H. Qed.
Definition put_futex (f : Z) (x : futex) (w : world) : world := set_futexes (<[f := x]> (futexes w)) w.
Definition put_wait (a : Z) (v : struct_futex_wait) (w : world) : world := set_waits (<[a := v]> (waits w)) w.
Lemma upd_futex_run f x g s : futexes (fsd s) !! f = Some x -> upd_futex f g s = Ret tt (set_fsd (put_futex f (g x) (fsd s)) s).
Proof. intros H. unfold upd_futex. by rewrite (bind_step _ _ _ _ _ (get_futex_run _ _ _ H)). Qed.
Lemma upd_wait_run a v g s : waits (fsd s) !! a = Some v -> upd_wait a g s = Ret tt (set_fsd (put_wait a (g v) (fsd s)) s).
Proof. intros H. unfold upd_wait, get_wait. rewrite (bind_step _ _ s v s) by (rewrite (bind_step _ _ s (fsd s) s) by done; by rewrite H). done. Qed.

Lemma find_futex_run l mem addr s : (forall f, f ∈ l -> is_Some (futexes (fsd s) !! f)) ->
  exists r, find_futex l mem addr s = Ret r s /\
  match r with
  | Some f => f ∈ l /\ exists x, futexes (fsd s) !! f = Some x /\ key_of x = (mem, addr)
  | None => forall f x, f ∈ l -> futexes (fsd s) !! f = Some x -> key_of x <> (mem, addr)
  end.
Proof.
  induction l as [|f l IH]; intros H; [exists None; split; [done|set_solver]|]. destruct (H f (list_elem_of_here _ _)) as [x Hx]. cbn [find_futex]. rewrite (bind_step _ _ _ _ _ (get_futex_run _ _ _ Hx)).
  destruct ((f_addr x =? addr) && (f_mem x =? mem)) eqn:E.
  - apply andb_prop in E as [E1%Z.eqb_eq E2%Z.eqb_eq]. exists (Some f). split; [done|]. split; [apply list_elem_of_here|]. exists x. unfold key_of. by rewrite E1, E2.
  - destruct IH as (r & Er & Hr); [intros g Hg; apply H; by right|]. exists r. split; [done|]. destruct r as [g|]; [destruct Hr; split; [by right|done]|].
    intros g y Hg Hy. apply elem_of_cons in Hg as [-> |Hg]; [|by eapply Hr]. rewrite Hx in Hy. injection Hy as <-. intros [= E1 E2]. by rewrite E1, E2, !Z.eqb_refl in E.
Qed.

Lemma keys_lookup w f k : keys w !! f = Some k <-> exists x, futexes w !! f = Some x /\ key_of x = k.
Proof. unfold keys. rewrite lookup_fmap_Some. split; intros (x & ? & ?); eauto. Qed.
Lemma key_dec w k : (exists g, keys w !! g = Some k) \/ (forall g, keys w !! g <> Some k).
Proof.
  destruct (decide (map_Exists (fun _ j => j = k) (keys w))) as [(g & j & Hg & ->)|H]; [eauto|]. right. intros g Hg. apply H. exists g, k. done.
Qed.
Lemma keys_put w f x y : futexes w !! f = Some x -> key_of y = key_of x -> keys (put_futex f y w) = keys w.
Proof. intros H E. unfold keys. cbn. rewrite fmap_insert, E. apply insert_id. by rewrite lookup_fmap, H. Qed.

(** A change to one futex that keeps its address. *)
Lemma inv_update ext ext' nx w f x y : inv ext nx w -> futexes w !! f = Some x -> key_of y = key_of x ->
  refcount y = count (waits w) f + ext' f -> 0 < refcount y -> 0 <= ext' f <= 3 -> (forall g, g <> f -> ext' g = ext g) ->
  NoDup (queue y) -> (forall a, a ∈ queue y -> exists v, waits w !! a = Some v /\ w_futex v = f) ->
  inv ext' nx (put_futex f y w).
Proof.
  intros I Hx Hk Hr Hp He Hext Hnd Hq. pose proof (keys_put w f x y Hx Hk) as Ek. split; rewrite ?Ek; try apply I.
  - intros g z Hz. cbn in *. destruct (decide (f = g)) as [<-|Hne]; [rewrite lookup_insert_eq in Hz; by injection Hz as <-|rewrite lookup_insert_ne in Hz by done]. rewrite Hext by done. by apply (i_ref _ _ _ I).
  - intros a v Hv. cbn in *. destruct (i_wait _ _ _ I a v Hv) as [H1 H2]. split; [|done]. destruct (decide (f = w_futex v)) as [<-|Hne]; [rewrite lookup_insert_eq; eauto|by rewrite lookup_insert_ne].
  - intros g z Hz. cbn in *. destruct (decide (f = g)) as [<-|Hne]; [rewrite lookup_insert_eq in Hz; by injection Hz as <-|rewrite lookup_insert_ne in Hz by done]. by apply (i_queue _ _ _ I).
  - intros g. destruct (decide (g = f)) as [->|]; [done|]. rewrite Hext by done. apply I.
  - intros g Hg. cbn in Hg. apply lookup_insert_None in Hg as [Hg Hne]. rewrite Hext by done. by apply (i_none _ _ _ I).
Qed.
Lemma shows_update w f x y Q nx ext : inv ext nx w -> shows w Q -> futexes w !! f = Some x -> key_of y = key_of x -> shows (put_futex f y w) (put Q (key_of x) (queue y)).
Proof.
  intros I [S1 S2] Hx Hk. unfold shows. rewrite (keys_put w f x y Hx Hk). split.
  - intros g z Hz. cbn in Hz. unfold put. destruct (decide (f = g)) as [<-|Hne].
    + rewrite lookup_insert_eq in Hz. injection Hz as <-. by rewrite decide_True by congruence.
    + rewrite lookup_insert_ne in Hz by done. rewrite decide_False; [by apply (S1 g)|]. intros E. apply Hne. apply (i_key _ _ _ I f g (key_of x)); apply keys_lookup; eauto.
  - intros k H. unfold put. case_decide as E; [|by apply S2]. subst k. destruct (H f). apply keys_lookup. eauto.
Qed.
Lemma put_same Q k : forall k', put Q k (Q k) k' = Q k'.
Proof. intros k'. unfold put. case_decide; by subst. Qed.
Lemma shows_ext w Q Q' : (forall k, Q k = Q' k) -> shows w Q -> shows w Q'.
Proof. intros E [S1 S2]. split; intros; rewrite <- E; eauto. Qed.
(** The same when the queue stays. *)
Lemma shows_refcount w f x n Q nx ext : inv ext nx w -> shows w Q -> futexes w !! f = Some x -> shows (put_futex f (set_refcount n x) w) Q.
Proof.
  intros I S Hx. eapply shows_ext; [|by eapply (shows_update _ _ _ (set_refcount n x))]. cbn. rewrite (proj1 S f x Hx). apply put_same.
Qed.
Lemma inv_refcount ext nx w f x d : inv ext nx w -> futexes w !! f = Some x -> 0 < refcount x + d -> 0 <= ext f + d <= 3 ->
  inv (bump f d ext) nx (put_futex f (set_refcount (refcount x + d) x) w).
Proof.
  intros I Hx Hd Hr. destruct (i_ref _ _ _ I f x Hx). destruct (i_queue _ _ _ I f x Hx). unfold bump.
  eapply inv_update; [done|done|done|..]; cbn; rewrite ?decide_True by done; try done; [lia|]. intros g Hg. by rewrite decide_False.
Qed.
(** A change to the threads that wait. *)
Lemma inv_waits ext ext' nx w ws : inv ext nx w -> (forall f, is_Some (futexes w !! f) -> count ws f + ext' f = count (waits w) f + ext f) ->
  (forall a v, ws !! a = Some v -> is_Some (futexes w !! w_futex v) /\ a < nx) ->
  (forall f x a, futexes w !! f = Some x -> a ∈ queue x -> exists v, ws !! a = Some v /\ w_futex v = f) -> (forall f, 0 <= ext' f <= 3) -> (forall f, futexes w !! f = None -> ext' f = 0) ->
  inv ext' nx (set_waits ws w).
Proof.
  intros I Hc Hw Hq He H0. split; try apply I; try done.
  - intros f x Hx. cbn in *. rewrite Hc by eauto. by apply (i_ref _ _ _ I).
  - intros f x Hx. split; [by apply (i_queue _ _ _ I f x)|]. intros a Ha. by eapply Hq.
Qed.
Lemma inv_grow ext nx nx' w : inv ext nx w -> nx <= nx' -> inv ext nx' w.
Proof.
  intros I H. split; try apply I.
  - intros a v Hv. destruct (i_wait _ _ _ I a v Hv). split; [done|lia].
  - intros f k Hk. destruct (i_hash _ _ _ I f k Hk). split; [done|lia].
Qed.


(** A new futex, and one that is freed. *)
Lemma inv_new ext nx w mem addr : inv ext nx w -> (forall f, keys w !! f <> Some (mem, addr)) ->
  let h := hash_of mem addr in
  let w' := set_futex_hash (<[h := nx :: bucket h w]> (futex_hash w)) (put_futex nx (mk_futex 1 mem addr []) w) in
  inv (bump nx 1 ext) (nx + 1) w' /\ forall Q, shows w Q -> shows w' Q.
Proof.
  intros I Hk h w'. assert (futexes w !! nx = None) as Hn.
  { destruct (futexes w !! nx) as [x|] eqn:E; [|done]. destruct (i_hash _ _ _ I nx (key_of x)) as [_ ?]; [apply keys_lookup; eauto|lia]. }
  pose proof (i_none _ _ _ I nx Hn) as He. assert (count (waits w) nx = 0) as Hc.
  { apply count_zero. intros a v Hv E. destruct (i_wait _ _ _ I a v Hv) as [[x Hx] _]. congruence. }
  assert (keys w' = <[nx := (mem, addr)]> (keys w)) as Ek by (unfold keys; cbn; by rewrite fmap_insert).
  assert (forall h', bucket h' w' = if decide (h' = h) then nx :: bucket h w else bucket h' w) as Hb.
  { intros h'. unfold bucket. cbn. case_decide as E; [subst; by rewrite lookup_insert_eq|by rewrite lookup_insert_ne]. }
  split; [split; rewrite ?Ek|].
  - intros f x Hx. cbn in *. unfold bump. destruct (decide (f = nx)) as [->|Hne]; [rewrite lookup_insert_eq in Hx; injection Hx as <-; cbn; lia|].
    rewrite lookup_insert_ne in Hx by done. by apply (i_ref _ _ _ I).
  - intros a v Hv. cbn in *. destruct (i_wait _ _ _ I a v Hv) as [[x Hx] H2]. split; [|lia]. rewrite lookup_insert_ne by congruence. eauto.
  - intros f x Hx. cbn in *. destruct (decide (f = nx)) as [->|Hne]; [rewrite lookup_insert_eq in Hx; injection Hx as <-; split; [constructor|set_solver]|].
    rewrite lookup_insert_ne in Hx by done. by apply (i_queue _ _ _ I).
  - intros f k Hf. rewrite Hb. destruct (decide (f = nx)) as [->|Hne].
    + rewrite lookup_insert_eq in Hf. injection Hf as <-. cbn. rewrite decide_True by done. split; [apply list_elem_of_here|lia].
    + rewrite lookup_insert_ne in Hf by done. destruct (i_hash _ _ _ I f k Hf) as [H1 H2]. split; [|lia]. case_decide as E; [rewrite E in H1; by right|done].
  - intros h' f. rewrite Hb. intros Hf. assert (f = nx /\ h' = h \/ f ∈ bucket h' w) as [[-> ->]|H] by (case_decide; [subst; apply elem_of_cons in Hf as [->|]; auto|auto]).
    + exists (mem, addr). by rewrite lookup_insert_eq.
    + destruct (i_bucket _ _ _ I h' f H) as (k & Hf' & E). exists k. split; [|done]. rewrite lookup_insert_ne; [done|]. intros <-. apply keys_lookup in Hf' as (x & Hx & _). congruence.
  - intros f g k Hf Hg. rewrite lookup_insert_Some in Hf. rewrite lookup_insert_Some in Hg. destruct Hf as [[<- <-]|[Hf1 Hf]], Hg as [[<- Hg]|[Hg1 Hg]]; try done.
    + by destruct (Hk g).
    + subst k. by destruct (Hk f).
    + by apply (i_key _ _ _ I f g k).
  - intros f. unfold bump. case_decide; [subst; lia|apply I].
  - intros f Hf. cbn in Hf. apply lookup_insert_None in Hf as [Hf Hne]. unfold bump. rewrite decide_False by done. by apply (i_none _ _ _ I).
  - intros Q [S1 S2]. split.
    + intros f x Hx. cbn in Hx. destruct (decide (f = nx)) as [->|Hne]; [|rewrite lookup_insert_ne in Hx by done; by apply (S1 f)].
      rewrite lookup_insert_eq in Hx. injection Hx as <-. cbn. symmetry. by apply S2.
    + intros k H. apply S2. intros f Hf. apply (H f). rewrite Ek, lookup_insert_ne; [done|]. intros <-. apply keys_lookup in Hf as (x & Hx & _). congruence.
Qed.

Lemma inv_free ext nx w f x : inv (bump f 1 ext) nx w -> futexes w !! f = Some x -> refcount x = 1 -> 0 <= ext f ->
  let h := hash_of (f_mem x) (f_addr x) in
  let w' := set_futexes (delete f (futexes w)) (set_futex_hash (<[h := filter (fun g => g <> f) (bucket h w)]> (futex_hash w)) w) in
  queue x = [] /\ inv ext nx w' /\ forall Q, shows w Q -> shows w' Q.
Proof.
  intros I Hx Hr He h w'. destruct (i_ref _ _ _ I f x Hx) as [Hc _]. unfold bump in Hc. rewrite decide_True in Hc by done. pose proof (count_bounds (waits w) f) as Hcb.
  assert (forall a v, waits w !! a = Some v -> w_futex v <> f) as Hno.
  { intros a v Hv E. pose proof (count_pos (waits w) a v Hv). rewrite E in *. lia. }
  destruct (i_queue _ _ _ I f x Hx) as [_ Hq]. assert (queue x = []) as Eq.
  { destruct (queue x) as [|a q]; [done|]. destruct (Hq a (list_elem_of_here _ _)) as (v & Hv & E). by destruct (Hno a v Hv). }
  assert (keys w' = delete f (keys w)) as Ek by (unfold keys; cbn; by rewrite fmap_delete).
  assert (forall h' g, g ∈ bucket h' w' <-> g ∈ bucket h' w /\ (g <> f \/ h' <> h)) as Hb.
  { intros h' g. unfold bucket at 1. cbn. destruct (decide (h = h')) as [<-|Hne].
    - rewrite lookup_insert_eq. cbn. rewrite list_elem_of_filter. tauto.
    - rewrite lookup_insert_ne by done. fold (bucket h' w). intuition. }
  split; [done|split; [split; rewrite ?Ek|]].
  - intros g y Hy. cbn in *. apply lookup_delete_Some in Hy as [Hne Hy]. destruct (i_ref _ _ _ I g y Hy). unfold bump in *. by rewrite decide_False in * by done.
  - intros a v Hv. cbn in *. destruct (i_wait _ _ _ I a v Hv). split; [|done]. rewrite lookup_delete_ne; [done|]. intros E. by destruct (Hno a v Hv).
  - intros g y Hy. cbn in *. apply lookup_delete_Some in Hy as [Hne Hy]. by apply (i_queue _ _ _ I).
  - intros g k Hg. apply lookup_delete_Some in Hg as [Hne Hg]. destruct (i_hash _ _ _ I g k Hg). split; [|done]. apply Hb. auto.
  - intros h' g [Hg Hne]%Hb. destruct (i_bucket _ _ _ I h' g Hg) as (k & Hk & E). exists k. split; [|done]. rewrite lookup_delete_ne; [done|]. intros <-. destruct Hne as [|Hne]; [done|]. apply Hne.
    apply keys_lookup in Hk as (y & Hy & <-). rewrite Hx in Hy. injection Hy as <-. done.
  - intros g g' k Hg Hg'. apply lookup_delete_Some in Hg as [_ Hg], Hg' as [_ Hg']. by apply (i_key _ _ _ I g g' k).
  - intros g. pose proof (i_ext _ _ _ I g) as H. unfold bump in H. case_decide; [subst; lia|done].
  - intros g Hg. cbn in Hg. apply lookup_delete_None in Hg as [<-|Hg]; [lia|]. pose proof (i_none _ _ _ I g Hg) as H. unfold bump in H. case_decide; [subst; lia|done].
  - intros Q [S1 S2]. split.
    + intros g y Hy. cbn in Hy. apply lookup_delete_Some in Hy as [_ Hy]. by apply (S1 g).
    + intros k H. rewrite Ek in H. destruct (decide (k = key_of x)) as [->|Hne]; [rewrite <- (S1 f x Hx); done|]. apply S2. intros g Hg. apply (H g). rewrite lookup_delete_ne; [done|].
      intros <-. apply keys_lookup in Hg as (y & Hy & <-). congruence.
Qed.

(** ** Taking and giving up a reference *)

(** What the operations on references leave alone. *)
Definition rest (w : world) : gmap Z struct_futex_wait * gmap (Z * Z) Z * Z := (waits w, words w, cur_mem w).

Lemma get_ok ext Q addr s : inv ext (next s) (fsd s) -> shows (fsd s) Q -> few (fsd s) -> (forall f, ext f <= 2) ->
  (refused (next s) = true /\ futex_get_unlocked addr s = Ret None s /\ forall f, keys (fsd s) !! f <> Some (cur_mem (fsd s), addr)) \/
  exists f s', futex_get_unlocked addr s = Ret (Some f) s' /\ next s <= next s' <= next s + 1 /\ inv (bump f 1 ext) (next s') (fsd s') /\ shows (fsd s') Q /\
    keys (fsd s') !! f = Some (cur_mem (fsd s), addr) /\ rest (fsd s') = rest (fsd s) /\ (forall g k, keys (fsd s) !! g = Some k -> keys (fsd s') !! g = Some k).
Proof.
  intros I S Hf He. unfold futex_get_unlocked. rewrite (bind_step _ _ s (fsd s) s) by done. cbv zeta. set (h := hash_of (cur_mem (fsd s)) addr).
  destruct (find_futex_run (bucket h (fsd s)) (cur_mem (fsd s)) addr s) as (r & Er & Hr).
  { intros f Hb. destruct (i_bucket _ _ _ I h f Hb) as (k & (x & Hx & _)%keys_lookup & _). eauto. }
  rewrite (bind_step _ _ _ _ _ Er). destruct r as [f|].
  - right. destruct Hr as (Hb & x & Hx & Hk). rewrite (bind_step _ _ _ _ _ (upd_futex_run _ _ _ _ Hx)). destruct (i_ref _ _ _ I f x Hx) as [Hc Hp]. pose proof (count_bounds (waits (fsd s)) f). specialize (He f).
    unfold few in Hf. rewrite wrap_small by (unfold in_u; lia). pose proof (i_ext _ _ _ I f). exists f. eexists. split; [done|]. cbn [fsd set_fsd next].
    split; [lia|]. split; [apply inv_refcount; [done|done|lia|lia]|]. split; [by eapply shows_refcount|]. rewrite (keys_put _ _ x) by done. split; [|done]. apply keys_lookup. eauto.
  - assert (forall f, keys (fsd s) !! f <> Some (cur_mem (fsd s), addr)) as Hno.
    { intros f Hk. destruct (i_hash _ _ _ I f _ Hk) as [Hb _]. apply keys_lookup in Hk as (x & Hx & Hk). by apply (Hr f x Hb Hx). }
    rewrite (bind_step _ _ s (next s) s) by done. destruct (refused (next s)) eqn:Eref; [by left|right].
    destruct (inv_new ext (next s) (fsd s) (cur_mem (fsd s)) addr I Hno) as [I' S']. exists (next s). eexists. split; [reflexivity|]. destruct s as [w ? ? ? ? ? ? nx]. cbn in *.
    split; [lia|]. split; [exact I'|]. split; [by apply S'|]. split; [by rewrite lookup_fmap, lookup_insert_eq|split; [done|]]. intros g k Hg. rewrite fmap_insert, lookup_insert_ne; [done|]. intros <-.
    destruct (i_hash _ _ _ I nx k Hg). lia.
Qed.

Lemma futex_put_ok ext Q f s : inv (bump f 1 ext) (next s) (fsd s) -> shows (fsd s) Q -> few (fsd s) -> is_Some (futexes (fsd s) !! f) -> 0 <= ext f ->
  exists s', futex_put_unlocked f s = Ret tt s' /\ inv ext (next s') (fsd s') /\ shows (fsd s') Q /\ rest (fsd s') = rest (fsd s) /\ next s' = next s /\
    (forall g k, g <> f -> keys (fsd s) !! g = Some k -> keys (fsd s') !! g = Some k).
Proof.
  intros I S Hf [x Hx] He. destruct (i_ref _ _ _ I f x Hx) as [Hc Hp]. pose proof (count_bounds (waits (fsd s)) f). unfold few in Hf. pose proof (i_ext _ _ _ I f) as Hb. unfold bump in Hc, Hb.
  rewrite decide_True in Hc, Hb by done. unfold futex_put_unlocked. rewrite (bind_step _ _ _ _ _ (upd_futex_run _ _ _ _ Hx)). rewrite wrap_small by (unfold in_u; lia).
  set (y := set_refcount (refcount x - 1) x). rewrite (bind_step _ _ _ y (set_fsd (put_futex f y (fsd s)) s)) by (apply get_futex_run; cbn; by rewrite lookup_insert_eq).
  change (refcount y) with (refcount x - 1). destruct (Z.eqb_spec (refcount x - 1) 0) as [H1|H1].
  - destruct (inv_free ext (next s) (fsd s) f x I Hx ltac:(lia) He) as (Eq & I' & S'). change (queue y) with (queue x). unfold assert. rewrite Eq, bool_decide_true by done.
    rewrite (bind_step _ _ _ tt (set_fsd (put_futex f y (fsd s)) s)) by done. cbv zeta. eexists. split; [reflexivity|]. destruct s as [w ? ? ? ? ? ? nx]. cbn in *. rewrite delete_insert_eq in *.
    split; [exact I'|]. split; [by apply S'|]. split; [done|split; [done|]]. intros g k Hg Hk. unfold keys in *. cbn. rewrite fmap_delete. by rewrite lookup_delete_ne.
  - eexists. split; [reflexivity|]. cbn [fsd set_fsd next]. pose proof (inv_refcount _ (next s) (fsd s) f x (-1) I Hx ltac:(lia)) as I'. split.
    + assert (inv (bump f (-1) (bump f 1 ext)) (next s) (put_futex f y (fsd s))) as I2 by (apply I'; unfold bump; rewrite decide_True by done; lia). clear I'.
      split; try apply I2; intros g; pose proof (i_ext _ _ _ I2 g) as G1; pose proof (i_none _ _ _ I2 g) as G2; unfold bump in *.
      * intros z Hz. destruct (i_ref _ _ _ I2 g z Hz) as [G3 G4]. unfold bump in G3. split; [|done]. case_decide; lia.
      * case_decide; lia.
      * intros Hg. specialize (G2 Hg). case_decide; lia.
    + split; [by eapply shows_refcount|]. rewrite (keys_put _ _ x) by done. done.
Qed.


(** ** Queues *)

Lemma bind_assoc_step {A B C} (m : T A) (g : A -> T B) (h : B -> T C) s : bind m (fun a => bind (g a) h) s = bind (bind m g) h s.
Proof. unfold bind. by destruct (m s). Qed.

Definition same_waits (w w' : world) : Prop := forall a, w_futex <$> waits w' !! a = w_futex <$> waits w !! a.
Lemma few_same w w' : same_waits w w' -> few w -> few w'.
Proof.
  intros H F. unfold few in *. assert (dom (waits w') = dom (waits w)) as E.
  { apply set_eq. intros a. rewrite !elem_of_dom. specialize (H a). destruct (waits w' !! a), (waits w !! a); cbn in H; try done; split; eauto; by intros []. }
  rewrite <- !size_dom, E. by rewrite size_dom.
Qed.
Lemma notes_dom w : dom (notes w) = dom (waits w).
Proof. unfold notes. apply dom_fmap_L. Qed.
Lemma notes_size w : size (notes w) = size (waits w).
Proof. unfold notes. apply map_size_fmap. Qed.
Lemma few_notes w w' : notes w' = notes w -> few w -> few w'.
Proof. unfold few. by rewrite <- !notes_size; intros ->. Qed.
Lemma wake_all_size l ts : (forall a, a ∈ l -> a ∈ dom ts) -> size (wake_all l ts) = size ts.
Proof.
  revert ts. induction l as [|a l IH]; intros ts H; [done|]. cbn. fold (wake_all l (<[a := true]> ts)).
  assert (is_Some (ts !! a)) as Ha by (apply elem_of_dom, H; apply list_elem_of_here). rewrite IH; [by apply map_size_insert_Some|]. intros b Hb. apply elem_of_dom. apply lookup_insert_is_Some'. right.
  apply elem_of_dom, H. by right.
Qed.
Lemma remove_absent (a : Z) (q : list Z) : a ∉ q -> filter (fun v => v <> a) q = q.
Proof. induction q as [|b q IH]; intros H; [done|]. rewrite filter_cons_True by set_solver. f_equal. apply IH. set_solver. Qed.
Lemma remove_head (a : Z) (q : list Z) : NoDup (a :: q) -> filter (fun v => v <> a) (a :: q) = q.
Proof. intros [Ha _]%NoDup_cons. rewrite filter_cons_False by naive_solver. by apply remove_absent. Qed.

(** The first of a queue is notified and leaves it. *)
Lemma wake_one ext Q f k a q s : inv ext (next s) (fsd s) -> shows (fsd s) Q -> keys (fsd s) !! f = Some k -> Q k = a :: q ->
  exists s', (upd_wait a (set_w_notified true) ;; queue_remove f a) s = Ret tt s' /\ inv ext (next s') (fsd s') /\ shows (fsd s') (put Q k q) /\
    keys (fsd s') = keys (fsd s) /\ same_waits (fsd s) (fsd s') /\ words (fsd s') = words (fsd s) /\ cur_mem (fsd s') = cur_mem (fsd s) /\ next s' = next s /\ notes (fsd s') = <[a := true]> (notes (fsd s)).
Proof.
  intros I S Hk Hq. apply keys_lookup in Hk as (x & Hx & <-). rewrite <- (proj1 S f x Hx) in Hq. destruct (i_queue _ _ _ I f x Hx) as [Hnd Hin]. rewrite Hq in Hnd, Hin.
  destruct (Hin a (list_elem_of_here _ _)) as (v & Hv & Hf). rewrite (bind_step _ _ _ _ _ (upd_wait_run _ _ _ _ Hv)). set (w1 := put_wait a (set_w_notified true v) (fsd s)).
  assert (same_waits (fsd s) w1) as Hs.
  { intros b. cbn. destruct (decide (a = b)) as [<-|]; [by rewrite lookup_insert_eq, Hv|by rewrite lookup_insert_ne]. }
  assert (inv ext (next s) w1) as I1.
  { apply (inv_waits ext); [done|..]; try apply I.
    - intros g _. f_equal. by apply count_same.
    - intros b u Hb. destruct (decide (a = b)) as [<-|]; [rewrite lookup_insert_eq in Hb; injection Hb as <-; exact (i_wait _ _ _ I a v Hv)|rewrite lookup_insert_ne in Hb by done; by apply (i_wait _ _ _ I b)].
    - intros g y b Hy Hb. destruct (i_queue _ _ _ I g y Hy) as [_ H]. destruct (H b Hb) as (u & Hu & E). destruct (decide (a = b)) as [<-|]; [rewrite lookup_insert_eq; eexists; split; [done|]; cbn; congruence|].
      rewrite lookup_insert_ne by done. eauto. }
  unfold queue_remove. rewrite (upd_futex_run f x) by done. rewrite Hq, remove_head by done. eexists. split; [reflexivity|]. cbn [fsd set_fsd next].
  destruct (i_ref _ _ _ I1 f x Hx) as [Hr Hp]. split; [|split; [|]].
  - apply (inv_update ext ext _ _ _ x); [done|done|done|done|done|apply I|done|by apply NoDup_cons in Hnd as [_ ?]|]. intros b Hb. apply (i_queue _ _ _ I1 f x Hx). rewrite Hq. by right.
  - eapply (shows_update w1 f x); [done|done|done|done].
  - change (keys (fsd s)) with (keys w1). rewrite (keys_put w1 f x) by done. split_and!; try done. unfold notes. cbn. by rewrite fmap_insert.
Qed.

Lemma put_put Q k l l' : forall k', put (put Q k l) k l' k' = put Q k l' k'.
Proof. intros k'. unfold put. by case_decide. Qed.
Lemma put_lookup Q k l : put Q k l k = l.
Proof. unfold put. by rewrite decide_True. Qed.

Lemma wake_ok ext f k : forall ws Q s woken max, inv ext (next s) (fsd s) -> shows (fsd s) Q -> keys (fsd s) !! f = Some k -> Q k = ws -> 0 <= woken -> woken + Z.of_nat (length ws) < 2 ^ 32 ->
  let n := Z.to_nat (max - woken) in
  exists s', wake_loop f ws woken max s = Ret (woken + Z.of_nat (n `min` length ws)) s' /\ inv ext (next s') (fsd s') /\ shows (fsd s') (put Q k (drop n ws)) /\
    keys (fsd s') = keys (fsd s) /\ same_waits (fsd s) (fsd s') /\ words (fsd s') = words (fsd s) /\ cur_mem (fsd s') = cur_mem (fsd s) /\ next s' = next s /\ notes (fsd s') = wake_all (take n ws) (notes (fsd s)).
Proof.
  induction ws as [|a ws IH]; intros Q s woken max I S Hk Hq H0 Hb n; cbn [wake_loop].
  - exists s. rewrite drop_nil, take_nil, Nat.min_0_r, Z.add_0_r. split_and!; try done. eapply shows_ext; [|exact S]. intros k'. rewrite <- Hq. symmetry. apply put_same.
  - cbn [length] in *. destruct (Z.leb_spec max woken).
    + exists s. replace n with 0%nat by lia. rewrite Z.add_0_r. split_and!; try done. eapply shows_ext; [|exact S]. intros k'. cbn [drop]. rewrite <- Hq. symmetry. apply put_same.
    + destruct (wake_one ext Q f k a ws s I S Hk Hq) as (s1 & E1 & I1 & S1 & K1 & W1 & R1 & M1 & N1 & T1).
      destruct (IH (put Q k ws) s1 (woken + 1) max I1 S1) as (s2 & E2 & I2 & S2 & K2 & W2 & R2 & M2 & N2 & T2); [by rewrite K1|apply put_lookup|lia|lia|].
      exists s2. rewrite (bind_assoc_step (upd_wait a _)), (bind_step _ _ _ _ _ E1), wrap_small by (unfold in_u; lia). replace n with (Datatypes.S (Z.to_nat (max - (woken + 1)))) by lia. split_and!.
      * rewrite E2. f_equal. cbn. lia.
      * done.
      * eapply shows_ext; [|exact S2]. intros k'. apply put_put.
      * congruence.
      * intros b. by rewrite W2, W1.
      * congruence.
      * congruence.
      * congruence.
      * by rewrite T2, T1.
Qed.


(** ** Moving a wait to another futex *)

Definition moved (f f2 a : Z) (x y : futex) (v : struct_futex_wait) (q : list Z) (w : world) : world :=
  put_wait a (set_w_futex f2 v) (put_futex f2 (set_refcount (refcount y + 1) (set_queue (queue y ++ [a]) y)) (put_futex f (set_refcount (refcount x - 1) (set_queue q x)) w)).

Lemma inv_move ext nx w f f2 x y a v q : inv ext nx w -> f <> f2 -> futexes w !! f = Some x -> futexes w !! f2 = Some y -> waits w !! a = Some v -> queue x = a :: q -> 1 <= ext f ->
  inv ext nx (moved f f2 a x y v q w).
Proof.
  intros I Hne Hx Hy Hv Hq He. destruct (i_queue _ _ _ I f x Hx) as [Nx Ix]. destruct (i_queue _ _ _ I f2 y Hy) as [Ny Iy]. rewrite Hq in Nx, Ix. apply NoDup_cons in Nx as [Na Nx].
  assert (w_futex v = f) as Hf by (destruct (Ix a (list_elem_of_here _ _)) as (u & Hu & E); congruence).
  assert (forall g z, futexes (moved f f2 a x y v q w) !! g = Some z -> g = f /\ z = set_refcount (refcount x - 1) (set_queue q x) \/
    g = f2 /\ z = set_refcount (refcount y + 1) (set_queue (queue y ++ [a]) y) \/ g <> f /\ g <> f2 /\ futexes w !! g = Some z) as Hl.
  { intros g z Hz. cbn in Hz. destruct (decide (f2 = g)) as [<-|H2]; [rewrite lookup_insert_eq in Hz; injection Hz as <-; auto|]. rewrite lookup_insert_ne in Hz by done.
    destruct (decide (f = g)) as [<-|H1]; [rewrite lookup_insert_eq in Hz; injection Hz as <-; auto|]. rewrite lookup_insert_ne in Hz by done. auto 10. }
  assert (forall b, b <> a -> waits (moved f f2 a x y v q w) !! b = waits w !! b) as Hw by (intros b Hb; cbn; by rewrite lookup_insert_ne).
  assert (waits (moved f f2 a x y v q w) !! a = Some (set_w_futex f2 v)) as Ha by (cbn; by rewrite lookup_insert_eq).
  assert (keys (moved f f2 a x y v q w) = keys w) as Ek.
  { change (keys (put_futex f2 (set_refcount (refcount y + 1) (set_queue (queue y ++ [a]) y)) (put_futex f (set_refcount (refcount x - 1) (set_queue q x)) w)) = keys w).
    rewrite (keys_put _ f2 y), (keys_put _ f x) by (done || (cbn; by rewrite lookup_insert_ne)). done. }
  assert (forall g, count (waits (moved f f2 a x y v q w)) g = count (waits w) g - one_if (f =? g) + one_if (f2 =? g)) as Hc.
  { intros g. cbn. rewrite (count_update _ a v) by done. by rewrite Hf. }
  pose proof (i_ref _ _ _ I f x Hx) as Rx. pose proof (i_ref _ _ _ I f2 y Hy) as Ry. pose proof (count_pos _ _ _ Hv) as Hp. rewrite Hf in Hp. unfold one_if in Hc. split; rewrite ?Ek; try apply I.
  - intros g z Hz. rewrite Hc. destruct (Hl g z Hz) as [[-> ->]|[[-> ->]|(H1 & H2 & Hz')]]; cbn.
    + rewrite Z.eqb_refl, (proj2 (Z.eqb_neq f2 f)) by done. lia.
    + rewrite Z.eqb_refl, (proj2 (Z.eqb_neq f f2)) by done. lia.
    + rewrite !(proj2 (Z.eqb_neq _ g)) by done. pose proof (i_ref _ _ _ I g z Hz'). lia.
  - intros b u Hb. assert (forall g, is_Some (futexes w !! g) -> is_Some (futexes (moved f f2 a x y v q w) !! g)) as G.
    { intros g Hg. assert (is_Some (keys (moved f f2 a x y v q w) !! g)) as [k Hk]; [rewrite Ek; unfold keys; rewrite lookup_fmap; by destruct Hg as [? ->]|]. apply keys_lookup in Hk as (z & Hz & _). eauto. }
    destruct (decide (b = a)) as [->|Hba]; [rewrite Ha in Hb; injection Hb as <-; split; [apply G; cbn; eauto|by apply (i_wait _ _ _ I a v)]|].
    rewrite Hw in Hb by done. destruct (i_wait _ _ _ I b u Hb). auto.
  - intros g z Hz. destruct (Hl g z Hz) as [[-> ->]|[[-> ->]|(H1 & H2 & Hz')]]; cbn [queue set_queue set_refcount].
    + split; [done|]. intros b Hb. rewrite Hw by (intros ->; done). apply Ix. by right.
    + split; [apply NoDup_app; split_and!; [done| |apply NoDup_singleton]; intros b Hb ->%list_elem_of_singleton; destruct (Iy a Hb) as (u & Hu & E); congruence|].
      intros b. rewrite elem_of_app, list_elem_of_singleton. intros [Hb| ->]; [|eauto]. destruct (Iy b Hb) as (u & Hu & E). destruct (decide (b = a)) as [->|]; [eauto|]. rewrite Hw by done. eauto.
    + destruct (i_queue _ _ _ I g z Hz') as [Nz Iz]. split; [done|]. intros b Hb. destruct (Iz b Hb) as (u & Hu & E). rewrite Hw; [eauto|]. intros ->. congruence.
  - intros g Hg. apply (i_none _ _ _ I). cbn in Hg. apply lookup_insert_None in Hg as [Hg _]. by apply lookup_insert_None in Hg as [Hg _].
Qed.
Lemma shows_move ext nx w f f2 x y a v q Q : inv ext nx w -> shows w Q -> f <> f2 -> futexes w !! f = Some x -> futexes w !! f2 = Some y ->
  shows (moved f f2 a x y v q w) (put (put Q (key_of x) q) (key_of y) (Q (key_of y) ++ [a])).
Proof.
  intros I S Hne Hx Hy. destruct S as [S1 S2]. assert (key_of x <> key_of y) as Hk.
  { intros E. apply Hne. apply (i_key _ _ _ I f f2 (key_of x)); apply keys_lookup; eauto. }
  split.
  - intros g z Hz. cbn in Hz. unfold put. destruct (decide (f2 = g)) as [<-|H2].
    + rewrite lookup_insert_eq in Hz. injection Hz as <-. rewrite decide_True by done. cbn. by rewrite (S1 f2 y).
    + rewrite lookup_insert_ne in Hz by done. destruct (decide (f = g)) as [<-|H1].
      * rewrite lookup_insert_eq in Hz. injection Hz as <-. rewrite decide_False by done. by rewrite decide_True.
      * rewrite lookup_insert_ne in Hz by done. rewrite !decide_False; [by apply (S1 g)| |]; intros E; [apply H1; apply (i_key _ _ _ I f g (key_of z))|apply H2; apply (i_key _ _ _ I f2 g (key_of z))]; apply keys_lookup; eauto.
  - intros k H. assert (forall h, keys w !! h = Some k -> False) as Hno.
    { intros h Hh. apply keys_lookup in Hh as (z & Hz & <-). destruct (decide (h = f2)) as [->|H2].
      - apply (H f2). apply keys_lookup. eexists. split; [cbn; by rewrite lookup_insert_eq|]. simplify_eq. done.
      - destruct (decide (h = f)) as [->|H1]; [apply (H f)|apply (H h)]; apply keys_lookup; eexists; (split; [cbn; rewrite lookup_insert_ne by done|]); [by rewrite lookup_insert_eq|simplify_eq; done|by rewrite lookup_insert_ne|done]. }
    unfold put. rewrite !decide_False; [by apply S2; intros h Hh; eapply Hno| |]; intros ->; [apply (Hno f)|apply (Hno f2)]; apply keys_lookup; eauto.
Qed.


Lemma set_fsd_twice (w w' : world) s : set_fsd w (set_fsd w' s) = set_fsd w s.
Proof. done. Qed.
Lemma fsd_set (w : world) s : fsd (set_fsd w s) = w.
Proof. done. Qed.
Lemma put_futex_twice f x y w : put_futex f x (put_futex f y w) = put_futex f x w.
Proof. unfold put_futex. cbn. by rewrite insert_insert_eq. Qed.
Lemma put_futex_comm f g x y w : f <> g -> put_futex f x (put_futex g y w) = put_futex g y (put_futex f x w).
Proof. intros H. unfold put_futex. cbn. by rewrite insert_insert_ne. Qed.

(** One round of the loop, up to the next place. *)
Lemma move_run f f2 x y v a q s : f <> f2 -> futexes (fsd s) !! f = Some x -> futexes (fsd s) !! f2 = Some y -> waits (fsd s) !! a = Some v -> queue x = a :: q -> NoDup (a :: q) ->
  1 < refcount x < 2 ^ 32 -> 0 <= refcount y < 2 ^ 32 - 1 -> forall {A} (k : T A),
  (queue_remove f a ;; queue_add_tail f2 a ;; let! x := get_futex f in assert (1 <? refcount x) ;; upd_futex f (fun x => set_refcount (u32 (refcount x - 1)) x) ;;
    upd_futex f2 (fun x => set_refcount (u32 (refcount x + 1)) x) ;; upd_wait a (set_w_futex f2) ;; k) s = k (set_fsd (moved f f2 a x y v q (fsd s)) s).
Proof.
  intros Hne Hx Hy Hv Hq Hnd Rx Ry A k. unfold queue_remove, queue_add_tail. rewrite (bind_step _ _ _ _ _ (upd_futex_run f x _ s Hx)). rewrite Hq, remove_head by done.
  erewrite bind_step by (apply (upd_futex_run f2 y); cbn; by rewrite lookup_insert_ne).
  erewrite bind_step by (apply (get_futex_run f (set_queue q x)); cbn; rewrite lookup_insert_ne by done; by rewrite lookup_insert_eq). cbn [refcount set_queue]. unfold assert.
  rewrite (proj2 (Z.ltb_lt 1 (refcount x))) by lia. rewrite (bind_step _ _ _ tt _ eq_refl).
  erewrite bind_step by (apply (upd_futex_run f (set_queue q x)); cbn; rewrite lookup_insert_ne by done; by rewrite lookup_insert_eq).
  erewrite bind_step by (apply (upd_futex_run f2 (set_queue (queue y ++ [a]) y)); cbn; rewrite lookup_insert_ne by done; by rewrite lookup_insert_eq).
  erewrite bind_step by (by apply (upd_wait_run a v)). cbn [refcount set_queue]. rewrite !wrap_small by (unfold in_u; lia). f_equal. unfold moved.
  rewrite !set_fsd_twice, !fsd_set. f_equal. f_equal. rewrite (put_futex_comm f2 f) by done. rewrite !put_futex_twice. rewrite (put_futex_comm f2 f), put_futex_twice by done.
  by rewrite (put_futex_comm f2 f) by done.
Qed.

Lemma requeue_ok ext f f2 k k2 : f <> f2 -> k <> k2 -> 1 <= ext f -> (forall g, ext g <= 3) -> forall q Q s n max fuel, inv ext (next s) (fsd s) -> shows (fsd s) Q -> few (fsd s) ->
  keys (fsd s) !! f = Some k -> keys (fsd s) !! f2 = Some k2 -> Q k = q -> 0 <= n -> n + Z.of_nat (length q) < 2 ^ 32 -> (length q <= fuel)%nat ->
  let d := Z.to_nat (max - n) in
  exists s', requeue_loop fuel f f2 (head q) (head (tail q)) n max s = Ret (n + Z.of_nat (d `min` length q)) s' /\ inv ext (next s') (fsd s') /\
    shows (fsd s') (put (put Q k (drop d q)) k2 (Q k2 ++ take d q)) /\ keys (fsd s') = keys (fsd s) /\ few (fsd s') /\ notes (fsd s') = notes (fsd s) /\
    words (fsd s') = words (fsd s) /\ cur_mem (fsd s') = cur_mem (fsd s) /\ next s' = next s.
Proof.
  intros Hne Hk12 He He3. induction q as [|a q IH]; intros Q s n max fuel I S F Hk Hk2 Hq H0 Hb Hfuel d.
  - exists s. rewrite drop_nil, take_nil, app_nil_r, Nat.min_0_r, Z.add_0_r. split_and!; try done; [by destruct fuel|]. eapply shows_ext; [|exact S]. intros k'. unfold put. repeat case_decide; congruence.
  - cbn [length] in *. destruct fuel as [|fuel]; [lia|]. cbn [head tail requeue_loop]. destruct (Z.leb_spec max n).
    { exists s. replace d with 0%nat by lia. rewrite Z.add_0_r. split_and!; try done. eapply shows_ext; [|exact S]. intros k'. cbn [drop take]. rewrite app_nil_r. unfold put. repeat case_decide; congruence. }
    pose proof Hk as (x & Hx & Kx)%keys_lookup. pose proof Hk2 as (y & Hy & Ky)%keys_lookup. pose proof (proj1 S f x Hx) as Qx. rewrite Kx, Hq in Qx. destruct (i_queue _ _ _ I f x Hx) as [Nx Ix]. rewrite Qx in Nx, Ix.
    destruct (Ix a (list_elem_of_here _ _)) as (v & Hv & Hvf). pose proof (i_ref _ _ _ I f x Hx) as Rx. pose proof (i_ref _ _ _ I f2 y Hy) as Ry. pose proof (count_pos _ _ _ Hv) as Hp. rewrite Hvf in Hp.
    pose proof (count_bounds (waits (fsd s)) f). pose proof (count_bounds (waits (fsd s)) f2). pose proof (He3 f). pose proof (He3 f2). pose proof (i_ext _ _ _ I f2). unfold few in F.
    rewrite (move_run f f2 x y v a q s Hne Hx Hy Hv Qx Nx) by lia. set (s1 := set_fsd (moved f f2 a x y v q (fsd s)) s).
    assert (inv ext (next s1) (fsd s1)) as I1 by (by apply inv_move). assert (shows (fsd s1) (put (put Q k q) k2 (Q k2 ++ [a]))) as S1 by (rewrite <- Kx, <- Ky; by eapply shows_move).
    assert (futexes (fsd s1) !! f = Some (set_refcount (refcount x - 1) (set_queue q x))) as Hx1 by (cbn; rewrite lookup_insert_ne by done; by rewrite lookup_insert_eq).
    assert (keys (fsd s1) !! f = Some k) as Hk1 by (apply keys_lookup; eexists; by split). assert (keys (fsd s1) = keys (fsd s)) as Ek.
    { change (keys (put_futex f2 (set_refcount (refcount y + 1) (set_queue (queue y ++ [a]) y)) (put_futex f (set_refcount (refcount x - 1) (set_queue q x)) (fsd s))) = keys (fsd s)).
      rewrite (keys_put _ f2 y), (keys_put _ f x) by (done || (cbn; by rewrite lookup_insert_ne)). done. }
    assert (notes (fsd s1) = notes (fsd s)) as Dw by (unfold notes; cbn; rewrite fmap_insert; apply insert_id; by rewrite lookup_fmap, Hv).
    assert (few (fsd s1)) as F1 by (by apply (few_notes (fsd s))).
    rewrite (bind_step _ _ _ _ _ (get_futex_run _ _ _ Hx1)). cbv zeta. cbn [queue set_refcount set_queue]. rewrite wrap_small by (unfold in_u; lia).
    destruct (IH (put (put Q k q) k2 (Q k2 ++ [a])) s1 (n + 1) max fuel I1 S1 F1 Hk1) as (s2 & E2 & I2 & S2 & K2 & F2 & D2 & W2 & M2 & N2); [by rewrite Ek| |lia|lia|lia|].
    { unfold put. rewrite decide_False by done. by rewrite decide_True. }
    exists s2. replace d with (Datatypes.S (Z.to_nat (max - (n + 1)))) by lia. split_and!; [|done| |congruence|done|congruence|by rewrite W2|by rewrite M2|by rewrite N2].
    + assert (match head q with Some v0 => next_in q v0 | None => head q end = head (tail q)) as ->; [|rewrite E2; f_equal; cbn; lia]. destruct q as [|b q]; [done|]. cbn. by rewrite Z.eqb_refl.
    + eapply shows_ext; [|exact S2]. intros k'. cbn [drop take]. unfold put. repeat case_decide; try done. by rewrite <- app_assoc.
Qed.


(** ** The calls *)

Definition none : Z -> Z := fun _ => 0.
Lemma bump_none f g : 0 <= bump f 1 none g <= 1.
Proof. unfold bump, none. case_decide; lia. Qed.

(** What a wait does before it gives up the lock. *)
Lemma begin_ok Q uaddr val s : inv none (next s) (fsd s) -> shows (fsd s) Q -> few (fsd s) ->
  let k := (cur_mem (fsd s), uaddr) in
  (futex_wait_begin uaddr val s = Fault /\ refused (next s) = true) \/
  exists r s', futex_wait_begin uaddr val s = Ret r s' /\ inv none (next s') (fsd s') /\ words (fsd s') = words (fsd s) /\
  match r with
  | inl err => shows (fsd s') Q /\ waits (fsd s') = waits (fsd s) /\ err = match words (fsd s) !! k with None => _EFAULT | Some _ => _EAGAIN end /\ words (fsd s) !! k <> Some val
  | inr a => shows (fsd s') (put Q k (Q k ++ [a])) /\ waits (fsd s) !! a = None /\ notes (fsd s') = <[a := false]> (notes (fsd s)) /\ words (fsd s) !! k = Some val
  end.
Proof.
  intros I S F k. unfold futex_wait_begin, futex_get. destruct (get_ok none Q uaddr s I S F) as [(Href & E1 & _)|(f & s1 & E1 & _ & I1 & S1 & K1 & R1 & _)]; [unfold none; lia|left; by rewrite (bind_step _ _ _ _ _ E1)|right].
  rewrite (bind_step _ _ _ _ _ E1), (bind_step _ _ s1 f s1) by done.
  injection R1 as W1 O1 M1. assert (few (fsd s1)) as F1 by (unfold few; by rewrite W1). pose proof K1 as (x & Hx & [= Kx1 Kx2])%keys_lookup. rewrite (bind_step _ _ s1 (words (fsd s1) !! k) s1).
  2: { unfold futex_load. rewrite (bind_step _ _ _ _ _ (get_futex_run _ _ _ Hx)), (bind_step _ _ s1 (fsd s1) s1), Kx1, M1 by done. unfold assert. rewrite Z.eqb_refl, (bind_step _ _ s1 tt s1) by done.
    rewrite Kx2. done. }
  rewrite O1. assert (exists s', futex_put f s1 = Ret tt s' /\ inv none (next s') (fsd s') /\ shows (fsd s') Q /\ rest (fsd s') = rest (fsd s1)) as (s2 & E2 & I2 & S2 & R2).
  { destruct (futex_put_ok none Q f s1 I1 S1 F1) as (s' & E & I' & S' & R' & _); [by eexists|done|]. by exists s'. }
  injection R2 as W2 O2 _. destruct (words (fsd s) !! k) as [tmp|] eqn:Ew.
  2: { rewrite (bind_step _ _ _ _ _ E2). exists (inl _EFAULT), s2. split_and!; try done; congruence. }
  destruct (Z.eqb_spec tmp val) as [->|Hne]; cbn [negb]; [|rewrite (bind_step _ _ _ _ _ E2); exists (inl _EAGAIN), s2; split_and!; try done; congruence]. clear E2 I2 S2 W2 O2 s2.
  set (a := next s1). assert (waits (fsd s1) !! a = None) as Ha.
  { destruct (waits (fsd s1) !! a) as [v|] eqn:Ev; [|done]. destruct (i_wait _ _ _ I1 a v Ev). unfold a in *. lia. }
  set (w2 := put_wait a (mk_wait f false) (fsd s1)). assert (inv none (next s1 + 1) w2) as I2.
  { apply (inv_waits (bump f 1 none)); [by apply (inv_grow _ (next s1)); [|lia]|..].
    - intros g _. rewrite count_insert by done. cbn [w_futex]. unfold bump, none, one_if. destruct (decide (g = f)) as [->|Hg]; [rewrite Z.eqb_refl; lia|]. rewrite (proj2 (Z.eqb_neq f g)) by done. lia.
    - intros b u Hb. apply lookup_insert_Some in Hb as [[<- <-]|[_ Hb]]; [split; [by eexists|unfold a; lia]|]. destruct (i_wait _ _ _ I1 b u Hb). split; [done|lia].
    - intros g y b Hy Hb. destruct (i_queue _ _ _ I1 g y Hy) as [_ H]. destruct (H b Hb) as (u & Hu & E). exists u. split; [|done]. rewrite lookup_insert_ne; [done|]. congruence.
    - unfold none. lia.
    - done. }
  destruct (i_ref _ _ _ I2 f x Hx) as [Hr Hp]. destruct (i_queue _ _ _ I2 f x Hx) as [Hnd Hin].
  assert (a ∉ queue x) as Hnot. { intros H. destruct (i_queue _ _ _ I1 f x Hx) as [_ Hi]. destruct (Hi a H) as (u & Hu & _). congruence. }
  exists (inr a), (set_fsd (put_futex f (set_queue (queue x ++ [a]) x) w2) (set_next (next s1 + 1) s1)). split; [|split; [|split; [|split; [|split; [|split]]]]].
  - rewrite (bind_step _ _ s1 a (set_next (next s1 + 1) s1)), (bind_step _ _ _ tt (set_fsd w2 (set_next (next s1 + 1) s1))) by done. unfold queue_add_tail.
    erewrite bind_step by (by apply (upd_futex_run f x)). reflexivity.
  - cbn [next set_fsd set_next fsd]. apply (inv_update none none _ _ _ x); try done.
    + apply NoDup_app. split_and!; [done| |apply NoDup_singleton]. intros b Hb ->%list_elem_of_singleton. done.
    + intros b. cbn. rewrite elem_of_app, list_elem_of_singleton. intros [Hb| ->]; [by apply Hin|]. exists (mk_wait f false). split; [|done]. by rewrite lookup_insert_eq.
  - cbn. congruence.
  - cbn [fsd set_fsd set_next]. pose proof (proj1 S1 f x Hx) as Qx. assert (key_of x = k) as Kx by (unfold key_of, k; congruence). rewrite Kx in Qx. rewrite <- Qx, <- Kx.
    eapply (shows_update w2 f x (set_queue (queue x ++ [a]) x)); [exact I2|exact S1|done|done].
  - congruence.
  - unfold notes. cbn. rewrite fmap_insert. by rewrite W1.
  - done.
Qed.


(** What a wait does after it has the lock again. *)
Lemma end_ok Q a v err s : inv none (next s) (fsd s) -> shows (fsd s) Q -> few (fsd s) -> waits (fsd s) !! a = Some v ->
  exists s', futex_wait_end a err s = Ret err s' /\ inv none (next s') (fsd s') /\ shows (fsd s') (fun k => filter (fun b => b <> a) (Q k)) /\
    waits (fsd s') = delete a (waits (fsd s)) /\ words (fsd s') = words (fsd s).
Proof.
  intros I S F Hv. unfold futex_wait_end, get_wait. rewrite (bind_step _ _ s v s) by (rewrite (bind_step _ _ s (fsd s) s) by done; by rewrite Hv). cbv zeta. set (f := w_futex v).
  destruct (i_wait _ _ _ I a v Hv) as [[x Hx] Hfr]. destruct (i_queue _ _ _ I f x Hx) as [Hnd Hin]. destruct (i_ref _ _ _ I f x Hx) as [Hr Hp]. set (y := set_queue (filter (fun b => b <> a) (queue x)) x).
  unfold queue_remove. rewrite (bind_step _ _ _ _ _ (upd_futex_run f x _ s Hx)). fold y. set (w1 := put_futex f y (fsd s)).
  assert (inv none (next s) w1) as I1.
  { apply (inv_update none none _ _ _ x); try done; [by apply NoDup_filter|]. intros b [_ Hb]%list_elem_of_filter. by apply Hin. }
  assert (shows w1 (fun k => filter (fun b => b <> a) (Q k))) as S1.
  { eapply shows_ext; [|eapply (shows_update (fsd s) f x y); done]. intros k. unfold put. cbn [queue y set_queue]. case_decide as E; [subst k; by rewrite (proj1 S f x Hx)|].
    destruct (key_dec (fsd s) k) as [(g & Hg)|Hno].
    - apply keys_lookup in Hg as (z & Hz & <-). rewrite <- (proj1 S g z Hz). symmetry. apply remove_absent. intros Hb. destruct (i_queue _ _ _ I g z Hz) as [_ Hi]. destruct (Hi a Hb) as (u & Hu & Eg).
      rewrite Hv in Hu. injection Hu as <-. subst g. congruence.
    - by rewrite (proj2 S k). }
  assert (forall g z b, futexes w1 !! g = Some z -> b ∈ queue z -> b <> a) as Hgone.
  { intros g z b Hz Hb ->. cbn in Hz. destruct (decide (f = g)) as [<-|Hg]; [rewrite lookup_insert_eq in Hz; injection Hz as <-; cbn in Hb; by apply list_elem_of_filter in Hb as [? _]|].
    rewrite lookup_insert_ne in Hz by done. destruct (i_queue _ _ _ I g z Hz) as [_ Hi]. destruct (Hi a Hb) as (u & Hu & Eg). rewrite Hv in Hu. by injection Hu as <-. }
  set (w2 := set_waits (delete a (waits (fsd s))) w1). assert (inv (bump f 1 none) (next s) w2) as I2.
  { apply (inv_waits none); [done|..].
    - intros g _. change (waits w1) with (waits (fsd s)). rewrite (count_lookup (waits (fsd s)) a v) by done. fold f. unfold bump, none, one_if. destruct (decide (g = f)) as [->|Hg]; [rewrite Z.eqb_refl; lia|].
      rewrite (proj2 (Z.eqb_neq f g)) by done. lia.
    - intros b u [_ Hb]%lookup_delete_Some. by apply (i_wait _ _ _ I1 b u).
    - intros g z b Hz Hb. destruct (i_queue _ _ _ I1 g z Hz) as [_ Hi]. destruct (Hi b Hb) as (u & Hu & E). exists u. split; [|done]. rewrite lookup_delete_ne; [done|]. intros <-. by eapply Hgone.
    - intros g. pose proof (bump_none f g). lia.
    - intros g Hg. unfold bump, none. rewrite decide_False; [done|]. intros ->. cbn in Hg. by rewrite lookup_insert_eq in Hg. }
  rewrite (bind_step _ _ _ tt (set_fsd w2 s)) by done. unfold futex_put.
  destruct (futex_put_ok none (fun k => filter (fun b => b <> a) (Q k)) f (set_fsd w2 s) I2 S1) as (s' & E & I' & S' & R' & _); [|cbn; rewrite lookup_insert_eq; eauto|done|].
  { unfold few in *. cbn. rewrite map_size_delete_Some by done. lia. }
  rewrite (bind_step _ _ _ _ _ E). injection R' as R1 R2 R3. exists s'. split_and!; try done.
Qed.

(** Waking and requeueing. *)
Lemma wakelike_ok Q fuel op uaddr n m uaddr2 s : inv none (next s) (fsd s) -> shows (fsd s) Q -> few (fsd s) ->
  let k := (cur_mem (fsd s), uaddr) in let k2 := (cur_mem (fsd s), uaddr2) in
  let q := drop (Z.to_nat n) (Q k) in let moves := if op =? FUTEX_REQUEUE_ then Z.to_nat m else 0%nat in
  (length q <= fuel)%nat -> ((op =? FUTEX_REQUEUE_) = true -> uaddr <> uaddr2) ->
  (futex_wakelike fuel op uaddr n m uaddr2 s = Fault /\ exists c, next s <= c <= next s + 1 /\ refused c = true) \/
  exists s', futex_wakelike fuel op uaddr n m uaddr2 s = Ret (Z.of_nat (Z.to_nat n `min` length (Q k)) + Z.of_nat (moves `min` length q)) s' /\ inv none (next s') (fsd s') /\
    (forall Q', (forall j, Q' j = put (put Q k (drop moves q)) k2 ((if decide (k2 = k) then drop moves q else Q k2) ++ take moves q) j) -> shows (fsd s') Q') /\
    notes (fsd s') = wake_all (take (Z.to_nat n) (Q k)) (notes (fsd s)) /\ words (fsd s') = words (fsd s).
Proof.
  intros I S F k k2 q moves Hfuel Hne. unfold futex_wakelike, futex_get. destruct (get_ok none Q uaddr s I S F) as [(Href & E1 & _)|(f & s1 & E1 & N1 & I1 & S1 & K1 & R1 & _)]; [unfold none; lia| |].
  { left. rewrite (bind_step _ _ _ _ _ E1). split; [done|]. exists (next s). split; [lia|done]. }
  rewrite (bind_step _ _ _ _ _ E1), (bind_step _ _ s1 f s1) by done.
  injection R1 as W1 O1 M1. assert (few (fsd s1)) as F1 by (unfold few; by rewrite W1). fold k in K1. pose proof K1 as (x & Hx & Kx)%keys_lookup. rewrite (bind_step _ _ _ _ _ (get_futex_run _ _ _ Hx)).
  pose proof (proj1 S1 f x Hx) as Qx. rewrite Kx in Qx. rewrite Qx. assert (Z.of_nat (length (Q k)) <= Z.of_nat (size (waits (fsd s)))) as Hlen.
  { destruct (i_queue _ _ _ I1 f x Hx) as [Nx Ix]. rewrite <- Qx, <- W1, <- size_dom. rewrite <- (size_list_to_set (C := gset Z)) by done. apply Nat2Z.inj_le. apply subseteq_size. intros b Hb%elem_of_list_to_set.
    destruct (Ix b Hb) as (u & Hu & _). apply elem_of_dom. eauto. }
  unfold few in F. destruct (wake_ok _ f k (Q k) Q s1 0 n I1 S1 K1 eq_refl ltac:(lia) ltac:(lia)) as (s2 & E2 & I2 & S2 & K2 & W2 & O2 & M2 & N2 & D2). rewrite Z.sub_0_r, Z.add_0_l in *.
  rewrite (bind_step _ _ _ _ _ E2). fold q in S2. assert (few (fsd s2)) as F2 by (by eapply few_same). set (ts := wake_all (take (Z.to_nat n) (Q k)) (notes (fsd s))).
  assert (notes (fsd s2) = ts) as D2' by (unfold ts, notes in *; by rewrite D2, W1). clear D2. rename D2' into D2.
  match goal with |- (bind ?b ?c s2 = Fault /\ _) \/ _ => set (body := b); set (cont := c) end.
  assert ((body s2 = Fault /\ refused (next s2) = true) \/ exists s3 Q3, (if op =? FUTEX_REQUEUE_ then
      let! p2 := futex_get_unlocked uaddr2 in
      let! f2 := deref p2 in
      let! x := get_futex f in
      let item := head (queue x) in
      let tmp := match item with Some w => next_in (queue x) w | None => None end in
      let! requeued := requeue_loop fuel f f2 item tmp 0 m in
      futex_put_unlocked f2 ;;
      ret (u32 (Z.of_nat (Z.to_nat n `min` length (Q k)) + requeued))
    else ret (Z.of_nat (Z.to_nat n `min` length (Q k)))) s2 = Ret (Z.of_nat (Z.to_nat n `min` length (Q k)) + Z.of_nat (moves `min` length q)) s3 /\
    inv (bump f 1 none) (next s3) (fsd s3) /\ shows (fsd s3) Q3 /\ few (fsd s3) /\ keys (fsd s3) !! f = Some k /\ notes (fsd s3) = ts /\ words (fsd s3) = words (fsd s) /\
    (forall j, Q3 j = put (put Q k (drop moves q)) k2 ((if decide (k2 = k) then drop moves q else Q k2) ++ take moves q) j)) as [[Hf Href]|(s3 & Q3 & E3 & I3 & S3 & F3 & K3 & D3 & O3 & HQ)].
  { unfold moves, body. destruct (op =? FUTEX_REQUEUE_) eqn:Eop.
    2: { right. exists s2, (put Q k q). split_and!; try done; [by rewrite Nat.min_0_l, Z.add_0_r|by rewrite K2|congruence|]. intros j. rewrite drop_0, take_0, app_nil_r. unfold put. repeat case_decide; try done; congruence. }
    assert (k2 <> k) as Hk by (unfold k, k2; specialize (Hne eq_refl); congruence). rewrite decide_False by done.
    destruct (get_ok _ _ uaddr2 s2 I2 S2 F2) as [(Href & E4 & _)|(f2 & s4 & E4 & N4 & I4 & S4 & K4 & R4 & G4)]; [intros g; pose proof (bump_none f g); lia|left; by rewrite (bind_step _ _ _ _ _ E4)|right].
    rewrite (bind_step _ _ _ _ _ E4), (bind_step _ _ s4 f2 s4) by done. injection R4 as W4 O4 M4.
    rewrite M2, M1 in K4. fold k2 in K4. assert (keys (fsd s4) !! f = Some k) as K4f by (apply G4; by rewrite K2). assert (f <> f2) as Hff by (intros <-; congruence).
    pose proof K4f as (x4 & Hx4 & Kx4)%keys_lookup. rewrite (bind_step _ _ _ _ _ (get_futex_run _ _ _ Hx4)). cbv zeta. pose proof (proj1 S4 f x4 Hx4) as Qx4. rewrite Kx4, put_lookup in Qx4. rewrite Qx4.
    assert (few (fsd s4)) as F4 by (unfold few; by rewrite W4). assert (match head q with Some w => next_in q w | None => None end = head (tail q)) as -> by (destruct q; [done|]; cbn; by rewrite Z.eqb_refl).
    assert (forall g, 0 <= bump f2 1 (bump f 1 none) g <= 2) as Hb by (intros g; pose proof (bump_none f g); unfold bump at 1; case_decide; unfold bump, none in *; repeat case_decide; lia).
    assert (Z.to_nat n `min` length (Q k) + length q = length (Q k))%nat as Hql by (unfold q; rewrite length_drop; lia).
    destruct (requeue_ok (bump f2 1 (bump f 1 none)) f f2 k k2 Hff ltac:(done)) with (q := q) (Q := put Q k q) (s := s4) (n := 0) (max := m) (fuel := fuel) as (s5 & E5 & I5 & S5 & K5 & F5 & D5 & O5 & M5 & N5);
      [unfold bump, none; repeat case_decide; lia || done|intros g; specialize (Hb g); lia|done|done|done|done|done|apply put_lookup|lia|lia|done|].
    rewrite Z.sub_0_r, Z.add_0_l in *. rewrite (bind_step _ _ _ _ _ E5).
    destruct (futex_put_ok (bump f 1 none) _ f2 s5 I5 S5 F5) as (s6 & E6 & I6 & S6 & R6 & N6 & G6); [|pose proof (bump_none f f2); lia|].
    { rewrite <- K5 in K4. apply keys_lookup in K4 as (z & Hz & _). by eexists. }
    rewrite (bind_step _ _ _ _ _ E6). injection R6 as W6 O6 M6. exists s6. eexists. rewrite wrap_small by (unfold in_u; lia). split; [done|]. split; [done|]. split; [exact S6|].
    split; [unfold few; by rewrite W6|]. split; [apply G6; [done|by rewrite K5]|]. split; [unfold notes in *; congruence|]. split; [congruence|].
    intros j. unfold put. repeat case_decide; try done; congruence. }
  { left. unfold bind. rewrite Hf. split; [done|]. exists (next s2). split; [lia|done]. }
  right. rewrite (bind_step _ _ _ _ _ E3). unfold cont, futex_put. destruct (futex_put_ok none Q3 f s3 I3 S3 F3) as (s7 & E7 & I7 & S7 & R7 & _); [apply keys_lookup in K3 as (z & Hz & _); by eexists|done|].
  rewrite (bind_step _ _ _ _ _ E7). injection R7 as W7 O7 M7. exists s7. split_and!; [done|done| |unfold notes in *; congruence|congruence]. intros Q' HQ'. eapply shows_ext; [|exact S7]. intros j. by rewrite HQ, HQ'.
Qed.

End Steps.

(** ** A queue of threads for each address

    The threads call one after the other; a wait is two events, its start and its return. *)

Inductive event :=
  | EWait (mem uaddr val : Z)
  | EReturn (w err : Z)
  | EWake (mem uaddr n : Z)
  | ERequeue (mem uaddr n m uaddr2 : Z)
  | EStore (mem addr v : Z).

Definition act {HM : HostMemory} (fuel : nat) (e : event) : T (Z + Z) :=
  match e with
  | EWait mem uaddr val => upd_world (set_cur_mem mem) ;; futex_wait_begin uaddr val
  | EReturn w err => let! r := futex_wait_end w err in ret (inl r)
  | EWake mem uaddr n => upd_world (set_cur_mem mem) ;; let! r := futex_wake fuel uaddr n in ret (inl r)
  | ERequeue mem uaddr n m uaddr2 => upd_world (set_cur_mem mem) ;; let! r := futex_wakelike fuel FUTEX_REQUEUE_ uaddr n m uaddr2 in ret (inl r)
  | EStore mem addr v => upd_world (fun w => set_words (<[(mem, addr) := v]> (words w)) w) ;; ret (inl 0)
  end.

(** What is promised: the queues, the threads that are in a wait with whether each was woken, and the words of memory. *)
Record astate := mk_astate { a_queues : queues; a_threads : gmap Z bool; a_words : gmap key Z }.
Inductive astep : astate -> event -> Z + Z -> astate -> Prop :=
  | a_sleep Q ts W mem uaddr val w : W !! (mem, uaddr) = Some val -> ts !! w = None ->
      astep (mk_astate Q ts W) (EWait mem uaddr val) (inr w) (mk_astate (put Q (mem, uaddr) (Q (mem, uaddr) ++ [w])) (<[w := false]> ts) W)
  | a_again Q ts W mem uaddr val v : W !! (mem, uaddr) = Some v -> v <> val -> astep (mk_astate Q ts W) (EWait mem uaddr val) (inl _EAGAIN) (mk_astate Q ts W)
  | a_fault Q ts W mem uaddr val : W !! (mem, uaddr) = None -> astep (mk_astate Q ts W) (EWait mem uaddr val) (inl _EFAULT) (mk_astate Q ts W)
  | a_return Q ts W w err : is_Some (ts !! w) -> astep (mk_astate Q ts W) (EReturn w err) (inl err) (mk_astate (fun k => filter (fun v => v <> w) (Q k)) (delete w ts) W)
  | a_wake Q ts W mem uaddr n : let q := Q (mem, uaddr) in
      astep (mk_astate Q ts W) (EWake mem uaddr n) (inl (Z.of_nat (Z.to_nat n `min` length q))) (mk_astate (put Q (mem, uaddr) (drop (Z.to_nat n) q)) (wake_all (take (Z.to_nat n) q) ts) W)
  | a_requeue Q ts W mem uaddr n m uaddr2 : let q := Q (mem, uaddr) in let q' := drop (Z.to_nat n) q in
      astep (mk_astate Q ts W) (ERequeue mem uaddr n m uaddr2) (inl (Z.of_nat (Z.to_nat n `min` length q) + Z.of_nat (Z.to_nat m `min` length q')))
        (mk_astate (put (put Q (mem, uaddr) (drop (Z.to_nat m) q')) (mem, uaddr2) (Q (mem, uaddr2) ++ take (Z.to_nat m) q')) (wake_all (take (Z.to_nat n) q) ts) W)
  | a_store Q ts W mem addr v : astep (mk_astate Q ts W) (EStore mem addr v) (inl 0) (mk_astate Q ts (<[(mem, addr) := v]> W)).

Definition represents (s : vfs world) (A : astate) : Prop :=
  inv none (next s) (fsd s) /\ shows (fsd s) (a_queues A) /\ notes (fsd s) = a_threads A /\ words (fsd s) = a_words A.
(** A wait returns once, and the two addresses of a requeue are not the same. *)
Definition enabled (w : world) (e : event) : Prop :=
  match e with EReturn a _ => is_Some (waits w !! a) | ERequeue _ uaddr _ _ uaddr2 => uaddr <> uaddr2 | _ => True end.

(** Runs of the threads, and of the machine that is promised. *)
Inductive reach {HM : HostMemory} (fuel : nat) (s0 : vfs world) : list (event * (Z + Z)) -> vfs world -> Prop :=
  | reach_init : reach fuel s0 [] s0
  | reach_step tr s e r s' : reach fuel s0 tr s -> enabled (fsd s) e -> act fuel e s = Ret r s' -> reach fuel s0 (tr ++ [(e, r)]) s'.
Inductive areach (A0 : astate) : list (event * (Z + Z)) -> astate -> Prop :=
  | areach_init : areach A0 [] A0
  | areach_step tr A e r A' : areach A0 tr A -> astep A e r A' -> areach A0 (tr ++ [(e, r)]) A'.

Section Machine.
Context {HM : HostMemory}.
Implicit Types s : vfs world.

Lemma inv_mem ext nx w mem : inv ext nx w -> inv ext nx (set_cur_mem mem w).
Proof. intros I. split; apply I. Qed.
Lemma queue_few ext nx w Q k : inv ext nx w -> shows w Q -> (length (Q k) <= size (waits w))%nat.
Proof.
  intros I S. destruct (key_dec w k) as [(f & (x & Hx & <-)%keys_lookup)|Hno]; [|rewrite (proj2 S k Hno); cbn; lia]. rewrite <- (proj1 S f x Hx). destruct (i_queue _ _ _ I f x Hx) as [Nx Ix].
  rewrite <- (size_list_to_set (C := gset Z)), <- size_dom by done. apply subseteq_size. intros b Hb%elem_of_list_to_set. destruct (Ix b Hb) as (u & Hu & _). apply elem_of_dom. eauto.
Qed.

(** Waking adds nobody. *)
Lemma woken_size Q k n s s' : inv none (next s) (fsd s) -> shows (fsd s) Q -> notes (fsd s') = wake_all (take (Z.to_nat n) (Q k)) (notes (fsd s)) -> (size (waits (fsd s')) <= S (size (waits (fsd s))))%nat.
Proof.
  intros I S E. rewrite <- (notes_size (fsd s')), E, wake_all_size; [rewrite notes_size; lia|]. intros a Hin. rewrite notes_dom. assert (a ∈ Q k) as Ha by (rewrite <- (take_drop (Z.to_nat n) (Q k)); apply elem_of_app; by left).
  destruct (key_dec (fsd s) k) as [(f & (x & Hx & <-)%keys_lookup)|Hno]; [|rewrite (proj2 S k Hno) in Ha; set_solver]. rewrite <- (proj1 S f x Hx) in Ha.
  destruct (i_queue _ _ _ I f x Hx) as [_ Ix]. destruct (Ix a Ha) as (u & Hu & _). apply elem_of_dom. eauto.
Qed.

(** One event, for the code and the machine. *)
Lemma act_step fuel e s A : represents s A -> few (fsd s) -> (size (waits (fsd s)) <= fuel)%nat -> enabled (fsd s) e ->
  (act fuel e s = Fault /\ exists c, next s <= c <= next s + 1 /\ refused c = true) \/
  exists r s' A', act fuel e s = Ret r s' /\ astep A e r A' /\ represents s' A' /\ (size (waits (fsd s')) <= S (size (waits (fsd s))))%nat.
Proof.
  intros (I & Hs & D & O) F Hfuel En. destruct A as [Q ts W]. cbn in *. subst ts W. destruct e as [mem uaddr val|w err|mem uaddr n|mem uaddr n m uaddr2|mem addr v]; cbn [act].
  - set (s1 := set_fsd (set_cur_mem mem (fsd s)) s). rewrite (bind_step _ _ s tt s1) by done. destruct (begin_ok Q uaddr val s1) as [[E Href]|(r & s' & E & I' & O' & H)]; [by apply inv_mem|done|done|left; split; [done|]; exists (next s); split; [lia|done]|].
    right. exists r, s'.
    change (cur_mem (fsd s1)) with mem in H. change (waits (fsd s1)) with (waits (fsd s)) in H. change (notes (fsd s1)) with (notes (fsd s)) in H. change (words (fsd s1)) with (words (fsd s)) in *. destruct r as [e|a].
    + destruct H as (S' & W' & -> & Hne). exists (mk_astate Q (notes (fsd s)) (words (fsd s))). split; [done|]. rewrite W'.
      split; [|split; [split_and!; cbn; done || (unfold notes; by rewrite W')|lia]]. destruct (words (fsd s) !! (mem, uaddr)) as [v|] eqn:Ew; [eapply a_again; [done|congruence]|by apply a_fault].
    + destruct H as (S' & Ha & D' & Ew). eexists (mk_astate _ _ _). split; [done|]. split; [apply a_sleep; [done|unfold notes; by rewrite lookup_fmap, Ha]|]. split; [by split_and!|].
      rewrite <- (notes_size (fsd s')), D'. rewrite map_size_insert_None by (unfold notes; by rewrite lookup_fmap, Ha). by rewrite notes_size.
  - destruct En as [v Hv]. destruct (end_ok Q w v err s I Hs F Hv) as (s' & E & I' & S' & W' & O'). right. exists (inl err), s'. eexists (mk_astate _ _ _). rewrite (bind_step _ _ _ _ _ E). split; [done|].
    split; [apply a_return; unfold notes; rewrite lookup_fmap, Hv; eauto|]. split; [split_and!; cbn; [done|done|unfold notes; rewrite W'; apply fmap_delete|done]|]. rewrite W', map_size_delete_Some by done. lia.
  - set (s1 := set_fsd (set_cur_mem mem (fsd s)) s). rewrite (bind_step _ _ s tt s1) by done. pose proof (queue_few _ _ _ Q (mem, uaddr) I Hs).
    destruct (wakelike_ok Q fuel FUTEX_WAKE_ uaddr n 0 0 s1) as [[E Href]|(s' & E & I' & S' & D' & O')]; [by apply inv_mem|done|done|rewrite length_drop; cbn; lia|done| |right].
    { left. split; [|done]. unfold bind, futex_wake. by rewrite E. }
    unfold futex_wake. rewrite (bind_step _ _ _ _ _ E).
    eexists _, s', (mk_astate _ _ _). split; [done|]. change (FUTEX_WAKE_ =? FUTEX_REQUEUE_) with false. cbn iota. rewrite Nat.min_0_l, Z.add_0_r. change (cur_mem (fsd s1)) with mem. split; [apply a_wake|].
    split; [|by apply (woken_size Q (mem, uaddr) n s s')]. split_and!; [done| |done|done]. apply S'. intros j. cbn. unfold put. rewrite app_nil_r. repeat case_decide; try done; congruence.
  - set (s1 := set_fsd (set_cur_mem mem (fsd s)) s). rewrite (bind_step _ _ s tt s1) by done. pose proof (queue_few _ _ _ Q (mem, uaddr) I Hs).
    destruct (wakelike_ok Q fuel FUTEX_REQUEUE_ uaddr n m uaddr2 s1) as [[E Href]|(s' & E & I' & S' & D' & O')]; [by apply inv_mem|done|done|rewrite length_drop; cbn; lia|done| |right].
    { left. split; [|done]. unfold bind, futex_wake. by rewrite E. }
    rewrite (bind_step _ _ _ _ _ E).
    eexists _, s', (mk_astate _ _ _). split; [done|]. split; [apply a_requeue|]. split; [|by apply (woken_size Q (mem, uaddr) n s s')]. split_and!; [done| |done|done].
    apply S'. intros j. cbn. rewrite decide_False by (cbn in En; congruence). done.
  - right. eexists _, _, (mk_astate _ _ _). split; [done|]. split; [apply a_store|]. cbn. split; [|lia]. split_and!; try done. split; apply I.
Qed.

(** C5: whatever the threads do, in any order, as long as a requeue names two addresses, the futexes are a queue of threads for each address: every call returns what
    the queues say, a wake notifies the threads that came first and takes them out, a requeue moves the next ones behind those that wait at the other address, and no thread
    is notified that no call woke.  No call fails an assertion or uses a futex that was freed; it uses NULL for a futex only when [malloc] gives
    no memory for it, and returns in all other cases.  A requeue to the same address is [requeue_same_spins] below. *)
Theorem futexes_refine fuel s0 tr s : futexes (fsd s0) = ∅ -> waits (fsd s0) = ∅ -> futex_hash (fsd s0) = ∅ -> reach fuel s0 tr s -> (length tr <= fuel)%nat -> Z.of_nat (length tr) + 8 < 2 ^ 32 ->
  (exists A, areach (mk_astate (fun _ => []) ∅ (words (fsd s0))) tr A /\ represents s A) /\
  forall e, enabled (fsd s) e -> (exists r s', act fuel e s = Ret r s') \/ (act fuel e s = Fault /\ exists c, next s <= c <= next s + 1 /\ refused c = true).
Proof.
  intros Hf Hw Hh R Hfuel Hfew.
  assert ((size (waits (fsd s)) <= length tr)%nat /\ exists A, areach (mk_astate (fun _ => []) ∅ (words (fsd s0))) tr A /\ represents s A) as [Hsize (A & HA & HR)].
  { induction R as [|tr s e r s' R IH En E].
    - rewrite Hw, map_size_empty. split; [cbn; lia|]. eexists. split; [constructor|]. split_and!; cbn; [|split; cbn; [by rewrite Hf|done]|unfold notes; by rewrite Hw|done].
      split; unfold keys, bucket; rewrite ?Hf, ?Hw, ?Hh; try done; try (unfold none; lia). intros h f. rewrite lookup_empty. cbn. set_solver.
    - rewrite length_app in *. cbn in *. destruct IH as (Hsize & A & HA & HR); [lia|lia|]. destruct (act_step fuel e s A HR) as [[E1 _]|(r1 & s1 & A' & E1 & Ha & HR' & Hs)]; [unfold few; lia|lia|done|congruence|].
      rewrite E in E1. injection E1 as <- <-. split; [lia|]. exists A'. split; [by econstructor|done]. }
  split; [eauto|]. intros e En. destruct (act_step fuel e s A HR) as [H|(r1 & s1 & A' & E1 & _)]; [unfold few; lia|lia|done|by right|left; eauto].
Qed.

End Machine.

(** ** Where the code goes wrong *)

Section Wrong.
Context {HM : HostMemory}.
Implicit Types s : vfs world.

(** Each round of the loop takes the first of the queue and puts it last. *)
Lemma spin_run f fuel : forall s x a b q n max, futexes (fsd s) !! f = Some x -> queue x = a :: b :: q -> NoDup (queue x) -> (forall c, c ∈ queue x -> exists v, waits (fsd s) !! c = Some v /\ w_futex v = f) ->
  1 < refcount x < 2 ^ 32 -> 0 <= n -> n + Z.of_nat fuel < max -> max < 2 ^ 32 -> requeue_loop fuel f f (Some a) (Some b) n max s = Hang.
Proof.
  induction fuel as [|fuel IH]; intros s x a b q n max Hx Hq Hnd Hw Hr Hn Hm Hmax; cbn [requeue_loop]; (destruct (Z.leb_spec max n); [lia|]); [done|].
  destruct (Hw a) as (v & Hv & Hvf); [rewrite Hq; apply list_elem_of_here|]. pose proof Hnd as Hnd'. rewrite Hq in Hnd'. set (y := set_queue ((b :: q) ++ [a]) x).
  assert (forall g, set_queue (queue (set_queue (filter (fun u => u <> a) (queue x)) x) ++ [a]) (set_queue (filter (fun u => u <> a) (queue x)) x) = g -> g = y) as Hy.
  { intros g <-. unfold y. rewrite Hq, remove_head by done. done. }
  unfold queue_remove, queue_add_tail. rewrite (bind_step _ _ _ _ _ (upd_futex_run f x _ s Hx)). erewrite bind_step by (apply (upd_futex_run f (set_queue (filter (fun u => u <> a) (queue x)) x)); cbn; by rewrite lookup_insert_eq).
  cbv beta. rewrite (Hy _ eq_refl). erewrite bind_step by (apply (get_futex_run f y); cbn; by rewrite lookup_insert_eq). unfold assert. change (refcount y) with (refcount x). rewrite (proj2 (Z.ltb_lt 1 (refcount x))) by lia.
  rewrite (bind_step _ _ _ tt _ eq_refl). erewrite bind_step by (apply (upd_futex_run f y); cbn; by rewrite lookup_insert_eq). cbv beta. change (refcount y) with (refcount x). rewrite (wrap_small 32 (refcount x - 1)) by (unfold in_u; lia).
  erewrite bind_step by (apply (upd_futex_run f (set_refcount (refcount x - 1) y)); cbn; by rewrite lookup_insert_eq). cbv beta. cbn [refcount set_refcount]. rewrite (wrap_small 32 (refcount x - 1 + 1)) by (unfold in_u; lia).
  replace (refcount x - 1 + 1) with (refcount x) by lia. change (set_refcount (refcount x) (set_refcount (refcount x - 1) y)) with y. erewrite bind_step by (apply (upd_wait_run a v); exact Hv).
  rewrite !set_fsd_twice, !fsd_set, !put_futex_twice. set (w1 := put_wait a (set_w_futex f v) (put_futex f y (fsd s))). assert (futexes w1 !! f = Some y) as Hy1 by (cbn; by rewrite lookup_insert_eq).
  rewrite (bind_step _ _ _ _ _ (get_futex_run f y (set_fsd w1 s) Hy1)). cbv zeta. rewrite wrap_small by (unfold in_u; lia). cbn [queue y set_queue app next_in]. rewrite Z.eqb_refl.
  destruct (q ++ [a]) as [|c r] eqn:Er; [by destruct q|]. cbn [head]. apply (IH _ y b c r); try done; [| | |lia|lia].
  - cbn. by rewrite Er.
  - unfold y. cbn [queue set_queue]. rewrite <- Permutation_cons_append. by rewrite Hq in Hnd.
  - intros d Hd. unfold y in Hd. cbn [queue set_queue] in Hd. rewrite <- Permutation_cons_append in Hd. cbn. destruct (decide (a = d)) as [<-|Hne]; [rewrite lookup_insert_eq; eauto|]. rewrite lookup_insert_ne by done. apply Hw. by rewrite Hq.
Qed.

(** a requeue of two threads or more to the same address does not end with the queue: it goes on for as many rounds as the caller allows. *)
Theorem requeue_same_spins fuel Q uaddr a b q max s : inv none (next s) (fsd s) -> shows (fsd s) Q -> few (fsd s) -> Q (cur_mem (fsd s), uaddr) = a :: b :: q ->
  Z.of_nat fuel < max < 2 ^ 32 -> refused (next s) = false -> futex_wakelike fuel FUTEX_REQUEUE_ uaddr 0 max uaddr s = Hang.
Proof.
  intros I S F HQ Hm Href. unfold futex_wakelike, futex_get. destruct (get_ok none Q uaddr s I S F) as [[? _]|(f & s1 & E1 & N1 & I1 & S1 & K1 & R1 & _)]; [unfold none; lia|congruence|].
  rewrite (bind_step _ _ _ _ _ E1), (bind_step _ _ s1 f s1) by done.
  injection R1 as W1 O1 M1. assert (few (fsd s1)) as F1 by (unfold few; by rewrite W1). pose proof K1 as (x & Hx & Kx)%keys_lookup. rewrite (bind_step _ _ _ _ _ (get_futex_run _ _ _ Hx)).
  pose proof (proj1 S1 f x Hx) as Qx. rewrite Kx, HQ in Qx. rewrite Qx. cbn [wake_loop]. change (0 <=? 0) with true. cbn iota. rewrite (bind_step _ _ s1 0 s1) by done. change (FUTEX_REQUEUE_ =? FUTEX_REQUEUE_) with true. cbn iota.
  destruct (get_ok _ _ uaddr s1 I1 S1 F1) as [(_ & _ & Hno)|(f2 & s2 & E2 & _ & I2 & S2 & K2 & R2 & G2)]; [intros g; pose proof (bump_none f g); lia|destruct (Hno f); by rewrite M1|]. injection R2 as W2 O2 M2. rewrite M1 in K2.
  assert (f2 = f) as -> by (eapply (i_key _ _ _ I2); [exact K2|by apply G2]). pose proof K2 as (y & Hy & Ky)%keys_lookup. pose proof (proj1 S2 f y Hy) as Qy. rewrite Ky, HQ in Qy.
  unfold bind at 1. rewrite (bind_step _ _ _ _ _ E2), (bind_step _ _ s2 f s2), (bind_step _ _ _ _ _ (get_futex_run _ _ _ Hy)) by done. cbv zeta. rewrite Qy. cbn [head next_in]. rewrite Z.eqb_refl. cbn [head].
  destruct (i_queue _ _ _ I2 f y Hy) as [Ny Iy]. destruct (i_ref _ _ _ I2 f y Hy) as [Ry Py]. pose proof (count_bounds (waits (fsd s2)) f). unfold few in F1. pose proof (i_ext _ _ _ I2 f).
  assert (bump f 1 (bump f 1 none) f = 2) as Hb by (unfold bump, none; by rewrite !decide_True). unfold bind at 1. rewrite (spin_run f fuel s2 y a b q 0 max); try done; try lia. rewrite W2, W1 in *. rewrite Hb in *. lia.
Qed.

(** a wait that times out returns the positive number of the host's error, which a program takes for a wait that was woken. *)
Theorem timeout_looks_woken fuel Q uaddr val timeout t uaddr2 val3 s : inv none (next s) (fsd s) -> shows (fsd s) Q -> Z.of_nat (size (waits (fsd s))) + 9 < 2 ^ 32 -> words (fsd s) !! (cur_mem (fsd s), uaddr) = Some val ->
  refused (next s) = false -> timeout <> 0 -> times (fsd s) !! timeout = Some t -> forall ETIMEDOUT, 0 < ETIMEDOUT ->
  exists s', sys_futex fuel (fun _ _ => ret ETIMEDOUT) uaddr FUTEX_WAIT_ val timeout uaddr2 val3 s = Ret ETIMEDOUT s' /\ ETIMEDOUT <> _ETIMEDOUT.
Proof.
  intros I S F Hv Href Ht Htime e He. assert (few (fsd s)) as F0 by (unfold few; lia). unfold sys_futex. cbv zeta. change (Z.land FUTEX_WAIT_ FUTEX_CMD_MASK_) with FUTEX_WAIT_. change (FUTEX_WAIT_ =? FUTEX_WAIT_) with true. rewrite (bind_step _ _ s (fsd s) s) by done.
  rewrite Htime, bool_decide_false, andb_false_r by done. cbn iota. unfold futex_wait. destruct (begin_ok Q uaddr val s I S F0) as [[_ ?]|(r & s1 & E1 & I1 & O1 & H)]; [congruence|]. rewrite (bind_step _ _ _ _ _ E1). destruct r as [err|a]; [by destruct H as (_ & _ & _ & Hne)|].
  destruct H as (S1 & Ha & D1 & _). rewrite (bind_step _ _ s1 e s1) by done. assert (exists v, waits (fsd s1) !! a = Some v) as [v Hv1] by (apply elem_of_dom; rewrite <- notes_dom, D1, dom_insert_L; set_solver).
  destruct (end_ok _ a v e s1 I1 S1) as (s2 & E2 & _); [|done|exists s2; split; [done|by intros ->]]. unfold few in *. rewrite <- notes_size, D1, map_size_insert_None, notes_size by (unfold notes; by rewrite lookup_fmap, Ha). lia.
Qed.

End Wrong.

(** ** On concrete threads *)

Module Demo.

#[local] Instance plenty : HostMemory := fun _ => false.
Definition no_world : world := mk_world ∅ ∅ ∅ ∅ {[ 64 := (1, 0) ]} ∅ [] 5 1 0.
Definition start : vfs world := mk_vfs no_world [] ∅ ∅ ∅ ∅ (mk_task 0 0 0 0 1 0 (mk_fs_info 0 None None) 0) 100.
(** Two threads wait at one address; one is woken, the other is moved to another address and woken there. *)
Definition trace : list (event * (Z + Z)) :=
  [(EStore 5 4096 7, inl 0); (EWait 5 4096 6, inl _EAGAIN); (EWait 5 4096 7, inr 102); (EWait 5 4096 7, inr 103); (ERequeue 5 4096 1 9 8192, inl 2); (EReturn 102 0, inl 0); (EWake 5 8192 9, inl 1); (EReturn 103 0, inl 0)].
Fixpoint play (fuel : nat) (l : list event) (s : vfs world) : list (event * (Z + Z)) * vfs world :=
  match l with [] => ([], s) | e :: l => match act fuel e s with Ret r s' => let '(tr, s'') := play fuel l s' in ((e, r) :: tr, s'') | _ => ([], s) end end.
Example trace_runs : fst (play 8 (fst <$> trace) start) = trace.
Proof. vm_compute. reflexivity. Qed.
(** Without memory for the futex a wait and a wake use NULL. *)
Example null_futex_used : futex_wait_begin (HM := fun _ => true) 4096 7 start = Fault /\ futex_wake (HM := fun _ => true) 8 4096 1 start = Fault.
Proof. split; reflexivity. Qed.
Definition after (n : nat) : vfs world := snd (play 8 (fst <$> take n trace) start).
Lemma reach_trace : reach 8 start trace (after 8).
Proof.
  assert (forall tr s e r s', reach 8 start tr s -> enabled (fsd s) e -> act 8 e s = Ret r s' -> reach 8 start (tr ++ [(e, r)]) s') as R by (intros; by econstructor).
  pose proof (R [] (after 0) (EStore 5 4096 7) (inl 0) (after 1) (reach_init 8 start) I ltac:(vm_compute; reflexivity)) as R1.
  pose proof (R _ (after 1) (EWait 5 4096 6) (inl _EAGAIN) (after 2) R1 I ltac:(vm_compute; reflexivity)) as R2.
  pose proof (R _ (after 2) (EWait 5 4096 7) (inr 102) (after 3) R2 I ltac:(vm_compute; reflexivity)) as R3.
  pose proof (R _ (after 3) (EWait 5 4096 7) (inr 103) (after 4) R3 I ltac:(vm_compute; reflexivity)) as R4.
  pose proof (R _ (after 4) (ERequeue 5 4096 1 9 8192) (inl 2) (after 5) R4 ltac:(done) ltac:(vm_compute; reflexivity)) as R5.
  pose proof (R _ (after 5) (EReturn 102 0) (inl 0) (after 6) R5 ltac:(vm_compute; eauto) ltac:(vm_compute; reflexivity)) as R6.
  pose proof (R _ (after 6) (EWake 5 8192 9) (inl 1) (after 7) R6 I ltac:(vm_compute; reflexivity)) as R7.
  exact (R _ (after 7) (EReturn 103 0) (inl 0) (after 8) R7 ltac:(vm_compute; eauto) ltac:(vm_compute; reflexivity)).
Qed.
Lemma futexes_refine_witness : exists A, areach (mk_astate (fun _ => []) ∅ ∅) trace A /\ represents (after 8) A.
Proof. exact (proj1 (futexes_refine 8 start trace (after 8) eq_refl eq_refl eq_refl reach_trace ltac:(vm_compute; lia) ltac:(vm_compute; reflexivity))). Defined.

(** The state where two threads wait, by the theorem on runs of the events before. *)
Lemma waiting : inv none (next (after 4)) (fsd (after 4)) /\ exists Q, shows (fsd (after 4)) Q /\ Q (5, 4096) = [102; 103].
Proof.
  assert (exists A, represents (after 4) A) as (A & I' & S & _).
  { assert (represents start (mk_astate (fun _ => []) ∅ ∅)) as R0.
    { split_and!; try done. split; unfold keys, bucket; cbn; try done; try (unfold none; lia). intros h f. rewrite lookup_empty. cbn. set_solver. }
    destruct (act_step 8 (EStore 5 4096 7) start _ R0) as [[_ (? & _ & [=])]|(r1 & s1 & A1 & E1 & _ & R1 & _)]; [done|vm_compute; lia|done|]. assert (s1 = after 1) as -> by (vm_compute in E1; vm_compute; congruence).
    destruct (act_step 8 (EWait 5 4096 6) (after 1) _ R1) as [[_ (? & _ & [=])]|(r2 & s2 & A2 & E2 & _ & R2 & _)]; [done|vm_compute; lia|done|]. assert (s2 = after 2) as -> by (vm_compute in E2; vm_compute; congruence).
    destruct (act_step 8 (EWait 5 4096 7) (after 2) _ R2) as [[_ (? & _ & [=])]|(r3 & s3 & A3 & E3 & _ & R3 & _)]; [done|vm_compute; lia|done|]. assert (s3 = after 3) as -> by (vm_compute in E3; vm_compute; congruence).
    destruct (act_step 8 (EWait 5 4096 7) (after 3) _ R3) as [[_ (? & _ & [=])]|(r4 & s4 & A4 & E4 & _ & R4 & _)]; [done|vm_compute; lia|done|]. assert (s4 = after 4) as -> by (vm_compute in E4; vm_compute; congruence). eauto. }
  split; [done|]. exists (a_queues A). split; [done|]. destruct S as [S1 _]. symmetry. exact (S1 101 (mk_futex 2 5 4096 [102; 103]) ltac:(vm_compute; reflexivity)).
Qed.
Lemma requeue_same_spins_witness : futex_wakelike 1000 FUTEX_REQUEUE_ 4096 0 1001 4096 (after 4) = Hang.
Proof. destruct waiting as (I' & Q & S & HQ). apply (requeue_same_spins 1000 Q 4096 102 103 [] 1001 (after 4) I' S); [done|done|split; vm_compute; reflexivity|done]. Defined.
Lemma timeout_looks_woken_witness : exists s', sys_futex 0 (fun _ _ => ret 110) 4096 FUTEX_WAIT_ 7 64 0 0 (after 4) = Ret 110 s' /\ 110 <> _ETIMEDOUT.
Proof. destruct waiting as (I' & Q & S & HQ). apply (timeout_looks_woken 0 Q 4096 7 64 (1, 0) 0 0 (after 4) I' S); vm_compute; done. Defined.

End Demo.
End Futex.
