(* ===== verification/Poll.v ===== *)
(** * Polling (fs/poll.c, kernel/poll.c, kernel/epoll.c)

    A poll is a list of entries, each with an open file, the events asked for, and the events an edge-triggered entry has reported.  An entry is on two
    lists: that of its poll, and that of its file.  Entries that are deleted are kept on a list of the poll, to be used again.

    What an open file is ready for, the answers of the host and the data of the guest are parameters; the host is Linux.  [sockrestart] is part of what
    happens while the lock is released.  A wait is a sequence of rounds; a
    round says what the files are ready for, whether a signal is pending, and what other threads and the host's poll do while the lock is released.  When there
    are no more rounds the call waits forever ([Hang]). *)

From S2P Require Import Prelude Errno FileLock Task Vfs Path Fd Generic Tty.

Module Poll.
Import Errno Vfs Path Fd Generic.
Abbreviation POLL_READ := Tty.POLL_READ.
Abbreviation POLL_PRI := Tty.POLL_PRI.
Abbreviation POLL_WRITE := Tty.POLL_WRITE.
Abbreviation POLL_ERR := Tty.POLL_ERR.
Abbreviation POLL_HUP := Tty.POLL_HUP.

Definition POLL_NVAL : Z := 32.
Definition POLL_ONESHOT : Z := Z.shiftl 1 30.
Definition POLL_EDGETRIGGERED : Z := Z.shiftl 1 31.
Definition SELECT_READ : Z := Z.lor (Z.lor POLL_READ POLL_HUP) POLL_ERR.
Definition SELECT_WRITE : Z := Z.lor POLL_WRITE POLL_ERR.
Definition SELECT_EX : Z := POLL_PRI.
Definition POLL_ALWAYS_LISTENING : Z := Z.lor (Z.lor POLL_ERR POLL_HUP) POLL_NVAL.
Definition EPOLL_CTL_ADD_ : Z := 1.
Definition EPOLL_CTL_DEL_ : Z := 2.
Definition EPOLL_CTL_MOD_ : Z := 3.

(** [struct poll_fd]; the events are 32 bits.  [pf_poll] is null when the entry is free. *)
Record poll_fd := mk_poll_fd {
  pf_fd : Z;
  pf_types : Z;
  pf_info : Z;
  pf_triggered : Z;
  pf_poll : option Z }.
Definition set_pf_fd (v : Z) (x : poll_fd) : poll_fd :=
  mk_poll_fd v (pf_types x) (pf_info x) (pf_triggered x) (pf_poll x).
Definition set_pf_types (v : Z) (x : poll_fd) : poll_fd :=
  mk_poll_fd (pf_fd x) v (pf_info x) (pf_triggered x) (pf_poll x).
Definition set_pf_info (v : Z) (x : poll_fd) : poll_fd :=
  mk_poll_fd (pf_fd x) (pf_types x) v (pf_triggered x) (pf_poll x).
Definition set_pf_triggered (v : Z) (x : poll_fd) : poll_fd :=
  mk_poll_fd (pf_fd x) (pf_types x) (pf_info x) v (pf_poll x).
Definition set_pf_poll (v : option Z) (x : poll_fd) : poll_fd :=
  mk_poll_fd (pf_fd x) (pf_types x) (pf_info x) (pf_triggered x) v.

(** [struct poll]: its entries, the free ones, and whether the pipe is there. *)
Record poll := mk_poll {
  p_fds : list Z;
  p_freelist : list Z;
  p_waiters : Z;
  p_pipe : bool }.
Definition set_p_fds (v : list Z) (x : poll) : poll :=
  mk_poll v (p_freelist x) (p_waiters x) (p_pipe x).
Definition set_p_freelist (v : list Z) (x : poll) : poll :=
  mk_poll (p_fds x) v (p_waiters x) (p_pipe x).
Definition set_p_waiters (v : Z) (x : poll) : poll :=
  mk_poll (p_fds x) (p_freelist x) v (p_pipe x).
Definition set_p_pipe (v : bool) (x : poll) : poll :=
  mk_poll (p_fds x) (p_freelist x) (p_waiters x) v.

(** [struct pollfd_]. *)
Record pollfd := mk_pollfd {
  fd_of : Z;
  events : Z;
  revents : Z }.
Definition set_fd_of (v : Z) (x : pollfd) : pollfd :=
  mk_pollfd v (events x) (revents x).
Definition set_events (v : Z) (x : pollfd) : pollfd :=
  mk_pollfd (fd_of x) v (revents x).
Definition set_revents (v : Z) (x : pollfd) : pollfd :=
  mk_pollfd (fd_of x) (events x) v.

(** The system calls a poll makes on the host; the last argument of [Ctl] is the entry. *)
Inductive call := Epoll_create (p : Z) | Ctl (p op f types : Z) (data : option Z) | Pipe (p : Z) | Close (p : Z).

(** The polls and entries by address, the entries of a file, the poll of an epoll file, the temporary signal mask, the polls whose pipe was written to,
    and the calls made on the host. *)
Record world := mk_world {
  polls : gmap Z poll;
  entries : gmap Z poll_fd;
  fd_polls : gmap Z (list Z);
  epolls : gmap Z Z;
  temp_mask : option Z;
  notified : list Z;
  calls : list call }.
Definition set_polls (v : gmap Z poll) (x : world) : world :=
  mk_world v (entries x) (fd_polls x) (epolls x) (temp_mask x) (notified x) (calls x).
Definition set_entries (v : gmap Z poll_fd) (x : world) : world :=
  mk_world (polls x) v (fd_polls x) (epolls x) (temp_mask x) (notified x) (calls x).
Definition set_fd_polls (v : gmap Z (list Z)) (x : world) : world :=
  mk_world (polls x) (entries x) v (epolls x) (temp_mask x) (notified x) (calls x).
Definition set_epolls (v : gmap Z Z) (x : world) : world :=
  mk_world (polls x) (entries x) (fd_polls x) v (temp_mask x) (notified x) (calls x).
Definition set_temp_mask (v : option Z) (x : world) : world :=
  mk_world (polls x) (entries x) (fd_polls x) (epolls x) v (notified x) (calls x).
Definition set_notified (v : list Z) (x : world) : world :=
  mk_world (polls x) (entries x) (fd_polls x) (epolls x) (temp_mask x) v (calls x).
Definition set_calls (v : list call) (x : world) : world :=
  mk_world (polls x) (entries x) (fd_polls x) (epolls x) (temp_mask x) (notified x) v.

Abbreviation T := (V world).

Definition get_world : T world := gets (fun s => fsd s).
Definition upd_world (g : world -> world) : T unit := modify (fun s => set_fsd (g (fsd s)) s).
Definition get_poll (p : Z) : T poll := let! w := get_world in deref (polls w !! p).
Definition upd_poll (p : Z) (g : poll -> poll) : T unit := let! x := get_poll p in upd_world (fun w => set_polls (<[p := g x]> (polls w)) w).
Definition get_entry (e : Z) : T poll_fd := let! w := get_world in deref (entries w !! e).
Definition upd_entry (e : Z) (g : poll_fd -> poll_fd) : T unit := let! x := get_entry e in upd_world (fun w => set_entries (<[e := g x]> (entries w)) w).
(** [fd->poll_fds]. *)
Definition polls_of (w : world) (f : Z) : list Z := default [] (fd_polls w !! f).
Definition upd_polls_of (f : Z) (g : list Z -> list Z) : T unit := upd_world (fun w => set_fd_polls (<[f := g (polls_of w f)]> (fd_polls w)) w).

(** One round of a wait: what each file is ready for, whether a signal is pending, what is done while the lock is released with what the host's poll
    returns (an error, or pointers and events), and the error of reading from the pipe. *)
Record round := mk_round {
  r_ready : Z -> Z;
  r_signal : bool;
  r_wait : T (Z + list (option Z * Z));
  r_read : option Z }.

(** The host: what it answers to a call, an error number or a result, given the calls before; which files are files of the host
    ([realfs_poll]), with their numbers there; and whether it refuses the memory that would be at an address. *)
Class Host := {
  answer : list call -> call -> Z + Z;
  real_fd : Z -> option Z;
  no_memory : Z -> bool;
}.
Definition CTL_ADD : Z := 1.
Definition CTL_DEL : Z := 2.
Definition CTL_MOD : Z := 3.

Section WithHost.
Context {HS : Host} {SY : System world} {HE : HostErrno}.

(** ** The poll object of the host (Linux) *)

Definition host_call (c : call) : T (Z + Z) :=
  let! w := get_world in
  upd_world (fun w => set_calls (calls w ++ [c]) w) ;;
  ret (answer (calls w) c).

Definition real_poll_update (p f types : Z) (data : option Z) : T (Z + Z) :=
  let types := Z.ldiff types POLL_ONESHOT in
  if types =? 0 then host_call (Ctl p CTL_DEL f 0 None)
  else
    let! err := host_call (Ctl p CTL_MOD f types data) in
    match err with
    | inl e => if e =? host_number ENOENT then host_call (Ctl p CTL_ADD f types data) else ret err
    | inr _ => ret err
    end.

(** [malloc], or NULL. *)
Definition try_malloc : T (option Z) :=
  let! n := gets next in
  if no_memory n then ret None else let! a := malloc in ret (Some a).

Definition poll_create : T (Z + Z) :=
  let! p := try_malloc in
  match p with
  | None => ret (inl _ENOMEM)
  | Some p =>
      let! err := host_call (Epoll_create p) in
      match err with
      | inl e => ret (inl (err_map e))
      | inr _ =>
          upd_world (fun w => set_polls (<[p := mk_poll [] [] 0 false]> (polls w)) w) ;;
          ret (inr p)
      end
  end.

(** ** Entries *)

Fixpoint find_entry (l : list Z) (f : Z) : T (option Z) :=
  match l with
  | [] => ret None
  | e :: l => let! x := get_entry e in if pf_fd x =? f then ret (Some e) else find_entry l f
  end.
Definition poll_find_fd (p f : Z) : T (option Z) := let! x := get_poll p in find_entry (p_fds x) f.
Definition poll_has_fd (p f : Z) : T bool := let! e := poll_find_fd p f in ret (match e with Some _ => true | None => false end).

(** The fields of a free entry are [0xba] bytes, but its poll is null. *)
Definition poll_fd_free (e : Z) : T unit :=
  let! x := get_entry e in
  let! p := deref (pf_poll x) in
  upd_entry e (fun _ => mk_poll_fd 13455272147882261178 3132799674 13455272147882261178 3132799674 None) ;;
  upd_poll p (fun x => set_p_freelist (e :: p_freelist x) x).

(** The update of the host's object for an entry, when its file is one of the host's: the error as the guest sees it. *)
Definition update_entry (p f types : Z) (data : option Z) : T (option Z) :=
  match real_fd f with
  | None => ret None
  | Some r =>
      let! err := real_poll_update p r types data in
      ret (match err with inl e => Some (err_map e) | inr _ => None end)
  end.

Definition poll_add_fd (p f types info : Z) : T Z :=
  let! x := get_poll p in
  let! e :=
    match p_freelist x with
    | e :: _ => upd_poll p (fun x => set_p_freelist (tail (p_freelist x)) x) ;; ret (Some e)
    | [] => try_malloc
    end in
  match e with
  | None => ret _ENOMEM
  | Some e =>
      upd_world (fun w => set_entries (<[e := mk_poll_fd f types info 0 (Some p)]> (entries w)) w) ;;
      let! err := update_entry p f types (Some e) in
      match err with
      | Some err => upd_world (fun w => set_entries (delete e (entries w)) w) ;; ret err
      | None =>
          upd_polls_of f (cons e) ;;
          upd_poll p (fun x => set_p_fds (e :: p_fds x) x) ;;
          ret 0
      end
  end.

(** [list_remove] from both lists. *)
Definition poll_unlink (p f e : Z) : T unit :=
  upd_polls_of f (filter (fun d => d <> e)) ;;
  upd_poll p (fun x => set_p_fds (filter (fun d => d <> e) (p_fds x)) x).

Definition poll_del_fd (p f : Z) : T Z :=
  let! e := poll_find_fd p f in
  match e with
  | None => ret _ENOENT
  | Some e =>
      let! err := update_entry p f 0 (Some e) in
      match err with
      | Some err => ret err
      | None => poll_unlink p f e ;; poll_fd_free e ;; ret 0
      end
  end.

Definition poll_mod_fd (p f types info : Z) : T Z :=
  let! e := poll_find_fd p f in
  match e with
  | None => ret _ENOENT
  | Some e =>
      let! err := update_entry p f types (Some e) in
      match err with
      | Some err => ret err
      | None =>
          upd_entry e (fun x => set_pf_triggered (Z.land (pf_triggered x) types) (set_pf_info info (set_pf_types types x))) ;;
          ret 0
      end
  end.

(** Errors of the host's object are dropped. *)
Definition poll_cleanup_fd (f : Z) : T unit :=
  let! w := get_world in
  for_each (polls_of w f) (fun e =>
    let! x := get_entry e in
    let! p := deref (pf_poll x) in
    let! _ := update_entry p f 0 (Some e) in
    poll_unlink p f e ;;
    poll_fd_free e).

Definition poll_wakeup (f evs : Z) : T unit :=
  let! w := get_world in
  for_each (polls_of w f) (fun e =>
    let! x := get_entry e in
    let! p := deref (pf_poll x) in
    (if has (pf_types x) POLL_EDGETRIGGERED then upd_entry e (fun x => set_pf_triggered (Z.ldiff (pf_triggered x) evs) x) else ret tt) ;;
    let! y := get_poll p in
    if p_pipe y then upd_world (fun w => set_notified (notified w ++ [p]) w) else ret tt).

Definition poll_destroy (p : Z) : T unit :=
  let! x := get_poll p in
  for_each (p_fds x) (fun e =>
    let! y := get_entry e in
    poll_unlink p (pf_fd y) e ;;
    upd_world (fun w => set_entries (delete e (entries w)) w)) ;;
  let! x := get_poll p in
  for_each (p_freelist x) (fun e =>
    upd_poll p (fun x => set_p_freelist (filter (fun d => d <> e) (p_freelist x)) x) ;;
    upd_world (fun w => set_entries (delete e (entries w)) w)) ;;
  let! _ := host_call (Close p) in
  upd_world (fun w => set_polls (delete p (polls w)) w).

(** ** Waiting *)

Section Wait.
(** The callback and its context. *)
Context {C : Type} (callback : C -> Z -> Z -> T (C * Z)).

(** The events an entry reports. *)
Definition report (ready : Z -> Z) (x : poll_fd) : Z :=
  let types := Z.land (ready (pf_fd x)) (Z.lor (Z.lor (pf_types x) POLL_HUP) POLL_ERR) in
  if has (pf_types x) POLL_EDGETRIGGERED then Z.ldiff types (pf_triggered x) else types.

(** A one-shot entry is freed, and then looked at again. *)
Fixpoint scan (p : Z) (ready : Z -> Z) (l : list Z) (c : C) (res : Z) : T (C * Z) :=
  match l with
  | [] => ret (c, res)
  | e :: l =>
      let! x := get_entry e in
      let types := report ready x in
      if types =? 0 then scan p ready l c res
      else
        let! (c, r) := callback c types (pf_info x) in
        let res := if r =? 1 then res + 1 else res in
        (if has (pf_types x) POLL_ONESHOT then
           poll_unlink p (pf_fd x) e ;;
           let! _ := update_entry p (pf_fd x) 0 None in
           upd_world (fun w => set_entries (delete e (entries w)) w)
         else ret tt) ;;
        let! x := get_entry e in
        (if has (pf_types x) POLL_EDGETRIGGERED then upd_entry e (fun x => set_pf_triggered (Z.lor (pf_triggered x) types) x) else ret tt) ;;
        scan p ready l c res
  end.

(** Edge-triggered entries the host reported may report again. *)
Fixpoint retrigger (l : list (option Z * Z)) : T unit :=
  match l with
  | [] => ret tt
  | (data, evs) :: l =>
      match data with
      | None => ret tt
      | Some e =>
          let! x := get_entry e in
          match pf_poll x with
          | None => ret tt
          | Some _ => if has (pf_types x) POLL_EDGETRIGGERED then upd_entry e (fun x => set_pf_triggered (Z.ldiff (pf_triggered x) evs) x) else ret tt
          end
      end ;;
      retrigger l
  end.

(** Looking at all entries. *)
Definition poll_look (p : Z) (ready : Z -> Z) (c : C) : T (C * Z) :=
  let! x := get_poll p in
  scan p ready (p_fds x) c 0.

Fixpoint poll_loop (rounds : list round) (p : Z) (c : C) : T (C * Z) :=
  match rounds with
  | [] => hang
  | r :: rounds =>
      let! (c, res) := poll_look p (r_ready r) c in
      if 0 <? res then ret (c, res)
      else if r_signal r then ret (c, _EINTR)
      else
        let! err := r_wait r in
        match err with
        | inl e => ret (c, err_map e)
        | inr [] => ret (c, 0)
        | inr evs =>
            retrigger evs ;;
            match r_read r with
            | Some e => ret (c, err_map e)
            | None => poll_loop rounds p c
            end
        end
  end.

(** Acquiring the pipe: the error of making it, if there is one. *)
Definition poll_acquire (p : Z) : T (option Z) :=
  let! x := get_poll p in
  upd_poll p (fun x => set_p_waiters (s32 (p_waiters x + 1)) x) ;;
  if p_waiters x =? 0 then
    assert (negb (p_pipe x)) ;;
    let! pipe := host_call (Pipe p) in
    match pipe with
    | inl e => ret (Some (err_map e))
    | inr rd => upd_poll p (set_p_pipe true) ;; let! _ := real_poll_update p rd POLL_READ None in ret None
    end
  else ret None.

(** Releasing the pipe. *)
Definition poll_release (p : Z) : T unit :=
  upd_poll p (fun x => set_p_waiters (s32 (p_waiters x - 1)) x) ;;
  let! x := get_poll p in
  if p_waiters x =? 0 then upd_poll p (set_p_pipe false) else ret tt.

Definition poll_wait (rounds : list round) (p : Z) (c : C) : T (C * Z) :=
  let! err := poll_acquire p in
  match err with
  | Some e => ret (c, e)
  | None =>
      let! (c, res) := poll_loop rounds p c in
      poll_release p ;;
      ret (c, res)
  end.

End Wait.

(** ** select *)

(** The data of the guest: bit maps of a number of bytes, arrays, pairs of numbers ([struct timeval_], [struct timespec_], [struct epoll_event_], and the last argument of pselect)
    and signal masks.  Reading gives nothing at a bad address; writing says whether the address is bad. *)
Class Guest := {
  user_read_bits : Z -> Z -> T (option (list bool));
  user_write_bits : Z -> list bool -> T bool;
  user_read_pollfds : Z -> Z -> T (option (list pollfd));
  user_write_pollfds : Z -> list pollfd -> T bool;
  user_get_pair : Z -> T (option (Z * Z));
  user_write_events : Z -> list (Z * Z) -> T bool;
  user_get_mask : Z -> T (option Z);
}.
Context {GU : Guest}.

Definition user_read_or_zero (addr size : Z) : T (option (list bool)) :=
  if addr =? 0 then ret (Some (replicate (Z.to_nat (8 * size)) false)) else user_read_bits addr size.

Definition select_context : Type := list bool * list bool * list bool.
Definition select_event_callback (c : select_context) (types info : Z) : T (select_context * Z) :=
  let '(r, w, e) := c in
  let! r := if has types SELECT_READ then bit_set info r else ret r in
  let! w := if has types SELECT_WRITE then bit_set info w else ret w in
  let! e := if has types SELECT_EX then bit_set info e else ret e in
  ret ((r, w, e), if has types (Z.lor (Z.lor SELECT_READ SELECT_WRITE) SELECT_EX) then 1 else 0).

(** The events asked for of a descriptor. *)
Definition select_events (r w e : list bool) (i : Z) : T Z :=
  let! br := bit_test i r in
  let! bw := bit_test i w in
  let! be := bit_test i e in
  ret (Z.lor (Z.lor (if br then SELECT_READ else 0) (if bw then SELECT_WRITE else 0)) (if be then SELECT_EX else 0)).

(** An error is a descriptor that is not open; errors of [poll_add_fd] are dropped. *)
Fixpoint select_add (p : Z) (r w e : list bool) (fds : list Z) : T bool :=
  match fds with
  | [] => ret false
  | i :: fds =>
      let! evs := select_events r w e i in
      if evs =? 0 then select_add p r w e fds
      else
        let! fd := f_get i in
        match fd with
        | None => ret true
        | Some fd => let! _ := poll_add_fd p fd evs i in select_add p r w e fds
        end
  end.

(** Storing a result, if it was asked for. *)
Definition select_store (addr : Z) (bits : list bool) : T bool := if addr =? 0 then ret false else user_write_bits addr bits.

Definition select_common (rounds : option (Z * Z) -> list round) (nfds readfds_addr writefds_addr exceptfds_addr : Z) (timeout : option (Z * Z)) : T Z :=
  let size := Z.quot (nfds - 1) 8 + 1 in
  in_bounds (0 <? size) ;;
  let! r := user_read_or_zero readfds_addr size in
  match r with None => ret _EFAULT | Some r =>
  let! w := user_read_or_zero writefds_addr size in
  match w with None => ret _EFAULT | Some w =>
  let! e := user_read_or_zero exceptfds_addr size in
  match e with None => ret _EFAULT | Some e =>
  let! p := poll_create in
  match p with inl err => ret err | inr p =>
  let! bad := select_add p r w e (Z.of_nat <$> seq 0 (Z.to_nat nfds)) in
  if bad then poll_destroy p ;; ret _EBADF
  else
    let zero := replicate (Z.to_nat (8 * size)) false in
    let! (c, err) := poll_wait select_event_callback (rounds timeout) p (zero, zero, zero) in
    poll_destroy p ;;
    if err <? 0 then ret err
    else
      let '(r, w, e) := c in
      let! b := select_store readfds_addr r in
      if b then ret _EFAULT
      else
        let! b := select_store writefds_addr w in
        if b then ret _EFAULT
        else
          let! b := select_store exceptfds_addr e in
          ret (if b then _EFAULT else err)
  end end end end.

(** [convert_timeval]. *)
Definition convert_timeval (t : Z * Z) : Z * Z := (fst t, u32 (snd t * 1000)).
Definition sys_select (rounds : option (Z * Z) -> list round) (nfds readfds_addr writefds_addr exceptfds_addr timeout_addr : Z) : T Z :=
  if timeout_addr =? 0 then select_common rounds nfds readfds_addr writefds_addr exceptfds_addr None
  else
    let! t := user_get_pair timeout_addr in
    match t with
    | None => ret _EFAULT
    | Some t => select_common rounds nfds readfds_addr writefds_addr exceptfds_addr (Some (convert_timeval t))
    end.

(** [sigmask_set_temp], when a mask is given; an error otherwise. *)
Definition sigmask_arg (addr size : Z) : T Z :=
  if addr =? 0 then ret 0
  else if negb (size =? 8) then ret _EINVAL
  else
    let! mask := user_get_mask addr in
    match mask with
    | None => ret _EFAULT
    | Some mask => upd_world (set_temp_mask (Some mask)) ;; ret 0
    end.

Definition sys_pselect (rounds : option (Z * Z) -> list round) (nfds readfds_addr writefds_addr exceptfds_addr timeout_addr sigmask_addr : Z) : T Z :=
  let! t := if timeout_addr =? 0 then ret (Some None) else let! t := user_get_pair timeout_addr in ret (match t with Some t => Some (Some t) | None => None end) in
  match t with
  | None => ret _EFAULT
  | Some timeout =>
      let! sigmask := user_get_pair sigmask_addr in
      match sigmask with
      | None => ret _EFAULT
      | Some (addr, size) =>
          let! err := sigmask_arg addr size in
          if err <? 0 then ret err else select_common rounds nfds readfds_addr writefds_addr exceptfds_addr timeout
      end
  end.

(** ** poll *)

(** [c->polls] with the file of each; [info] is the address of a file. *)
Fixpoint poll_event_callback (c : list (pollfd * option Z)) (types info : Z) : list (pollfd * option Z) * Z :=
  match c with
  | [] => ([], 0)
  | (x, file) :: c =>
      let '(c', res) := poll_event_callback c types info in
      match file with
      | Some f => if f =? info then ((set_revents (u16 (Z.land types (Z.lor (events x) POLL_ALWAYS_LISTENING))) x, file) :: c', 1) else ((x, file) :: c', res)
      | None => ((x, file) :: c', res)
      end
  end.

(** The file of each descriptor, with a reference. *)
Fixpoint poll_files (l : list pollfd) : T (list (pollfd * option Z)) :=
  match l with
  | [] => ret []
  | x :: l =>
      let! fd := f_get (fd_of x) in
      match fd with Some fd => let! _ := fd_retain fd in ret tt | None => ret tt end ;;
      let! l := poll_files l in
      ret ((set_revents 0 x, fd) :: l)
  end.

(** The events of all that name file [f] and are not marked, which are marked. *)
Fixpoint merge (f : Z) (evs : Z) (l : list (pollfd * option Z)) : Z * list (pollfd * option Z) :=
  match l with
  | [] => (evs, [])
  | (x, file) :: l =>
      if negb (revents x =? 0) || negb (bool_decide (file = Some f)) then let '(evs, l) := merge f evs l in (evs, (x, file) :: l)
      else let '(evs, l) := merge f (Z.lor evs (events x)) l in (evs, (set_revents 1 x, file) :: l)
  end.

(** The loop over the array: [before] is done. *)
Fixpoint poll_add (fuel : nat) (p : Z) (before l : list (pollfd * option Z)) : T unit :=
  match fuel, l with
  | S fuel, (x, file) :: l =>
      if (fd_of x <? 0) || negb (revents x =? 0) then poll_add fuel p (before ++ [(x, file)]) l
      else
        let x := set_revents 1 x in
        match file with
        | None => poll_add fuel p (before ++ [(x, file)]) l
        | Some f =>
            let '(evs, before') := merge f (events x) before in
            let '(evs, l') := merge f evs l in
            let! _ := poll_add_fd p f (Z.lor evs POLL_ALWAYS_LISTENING) f in
            poll_add fuel p (before' ++ [(x, file)]) l'
        end
  | _, _ => ret tt
  end.

Definition mark_bad (x : pollfd) (file : option Z) : pollfd :=
  set_revents (match file with None => if 0 <=? fd_of x then POLL_NVAL else 0 | Some _ => 0 end) x.

(** [timeout] in seconds and nanoseconds. *)
Definition millis (timeout : Z) : option (Z * Z) := if 0 <=? timeout then Some (Z.quot timeout 1000, Z.rem timeout 1000 * 1000000) else None.

Definition sys_poll (rounds : option (Z * Z) -> list round) (addr nfds timeout : Z) : T Z :=
  let! l := if (addr =? 0) && (nfds =? 0) then ret (Some []) else user_read_pollfds addr nfds in
  match l with
  | None => ret _EFAULT
  | Some l =>
      let! p := poll_create in
      match p with
      | inl err => ret err
      | inr p =>
          let! c := poll_files l in
          poll_add (length c) p [] c ;;
          let c := (fun '(x, file) => (mark_bad x file, file)) <$> c in
          let! (c, res) := poll_wait (fun c types info => ret (poll_event_callback c types info)) (rounds (millis timeout)) p c in
          poll_destroy p ;;
          for_each c (fun '(_, file) => match file with Some f => let! _ := fd_close f in ret tt | None => ret tt end) ;;
          if res <? 0 then ret res
          else if (addr =? 0) && (nfds =? 0) then ret res
          else let! b := user_write_pollfds addr (fst <$> c) in ret (if b then _EFAULT else res)
      end
  end.

Definition sys_ppoll (rounds : option (Z * Z) -> list round) (addr nfds timeout_addr sigmask_addr sigsetsize : Z) : T Z :=
  let! t := if timeout_addr =? 0 then ret (Some (-1)) else let! t := user_get_pair timeout_addr in ret ((fun t => s32 (fst t * 1000 + Z.quot (snd t) 1000000)) <$> t) in
  match t with
  | None => ret _EFAULT
  | Some timeout =>
      let! err := sigmask_arg sigmask_addr sigsetsize in
      if err <? 0 then ret err else sys_poll rounds addr nfds timeout
  end.

(** ** epoll *)

(** [epoll_ops] and [adhoc_mount] are at these addresses. *)
Variables (epoll_ops adhoc_mount : Z).

Definition adhoc_fd_create (ops : Z) : T Z :=
  let! f := fd_create ops in
  mount_retain adhoc_mount ;;
  upd_fd f (set_fd_mount (Some adhoc_mount)) ;;
  ret f.

Definition sys_epoll_create (flags : Z) : T Z :=
  if negb (Z.ldiff flags O_CLOEXEC_ =? 0) then ret _EINVAL
  else
    let! f := adhoc_fd_create epoll_ops in
    let! p := poll_create in
    match p with
    | inl err => ret err
    | inr p =>
        upd_world (fun w => set_epolls (<[f := p]> (epolls w)) w) ;;
        f_install f flags
    end.

Definition epoll_of (f : Z) : T Z := let! w := get_world in deref (epolls w !! f).

Definition sys_epoll_ctl (epoll_f op f event_addr : Z) : T Z :=
  let! epoll := f_get epoll_f in
  match epoll with
  | None => ret _EBADF
  | Some epoll =>
      let! x := get_fd epoll in
      if negb (fd_ops_of x =? epoll_ops) then ret _EINVAL
      else
        let! fd := f_get f in
        match fd with
        | None => ret _EBADF
        | Some fd =>
            let! p := epoll_of epoll in
            if op =? EPOLL_CTL_DEL_ then poll_del_fd p fd
            else
              let! event := user_get_pair event_addr in
              match event with
              | None => ret _EFAULT
              | Some (evs, data) =>
                  if op =? EPOLL_CTL_ADD_ then
                    let! b := poll_has_fd p fd in
                    if b then ret _EEXIST else poll_add_fd p fd evs data
                  else poll_mod_fd p fd evs data
              end
        end
  end.

Definition epoll_callback (max_events : Z) (c : list (Z * Z)) (types info : Z) : list (Z * Z) * Z :=
  if max_events <=? Z.of_nat (length c) then (c, 0) else (c ++ [(types, info)], 1).

Definition sys_epoll_wait (rounds : option (Z * Z) -> list round) (epoll_f events_addr max_events timeout : Z) : T Z :=
  let! epoll := f_get epoll_f in
  match epoll with
  | None => ret _EBADF
  | Some epoll =>
      let! x := get_fd epoll in
      if negb (fd_ops_of x =? epoll_ops) then ret _EINVAL
      else if max_events <=? 0 then ret _EINVAL
      else
        let! p := epoll_of epoll in
        let! (c, res) := poll_wait (fun c types info => ret (epoll_callback max_events c types info)) (rounds (millis timeout)) p [] in
        if 0 <=? res then
          let! b := user_write_events events_addr (take (Z.to_nat res) c) in
          ret (if b then _EFAULT else res)
        else ret res
  end.

Definition sys_epoll_pwait (rounds : option (Z * Z) -> list round) (epoll_f events_addr max_events timeout sigmask_addr sigsetsize : Z) : T Z :=
  let! err := sigmask_arg sigmask_addr sigsetsize in
  if err <? 0 then ret err else sys_epoll_wait rounds epoll_f events_addr max_events timeout.

Definition epoll_close (f : Z) : T Z := let! p := epoll_of f in poll_destroy p ;; ret 0.


End WithHost.

(** ** What the lists hold *)

(** An entry in use is on the list of its poll and on that of its file, once, and on no other; a free one is on one list of free entries.  Addresses are below [n]. *)
Record inv (n : Z) (w : world) : Prop := mk_inv {
  i_poll : forall p x, polls w !! p = Some x -> p < n;
  i_entry : forall e y, entries w !! e = Some y -> e < n;
  i_live : forall e y p, entries w !! e = Some y -> pf_poll y = Some p -> is_Some (polls w !! p);
  i_fds : forall p x, polls w !! p = Some x -> NoDup (p_fds x) /\ (forall e, e ∈ p_fds x <-> exists y, entries w !! e = Some y /\ pf_poll y = Some p);
  i_free : forall p x, polls w !! p = Some x -> NoDup (p_freelist x) /\ (forall e, e ∈ p_freelist x -> exists y, entries w !! e = Some y /\ pf_poll y = None);
  i_once : forall p q x y e, polls w !! p = Some x -> polls w !! q = Some y -> e ∈ p_freelist x -> e ∈ p_freelist y -> p = q;
  i_kept : forall e y, entries w !! e = Some y -> pf_poll y = None -> exists p x, polls w !! p = Some x /\ e ∈ p_freelist x;
  i_files : forall f, NoDup (polls_of w f) /\ (forall e, e ∈ polls_of w f <-> exists y, entries w !! e = Some y /\ is_Some (pf_poll y) /\ pf_fd y = f) }.

(** *** The changes the operations are made of *)

Definition add_link (p : Z) (x : poll) (e : Z) (y : poll_fd) (w : world) : world :=
  set_polls (<[p := set_p_fds (e :: p_fds x) x]> (polls w))
    (set_fd_polls (<[pf_fd y := e :: polls_of w (pf_fd y)]> (fd_polls w)) (set_entries (<[e := y]> (entries w)) w)).
Definition forget (p : Z) (x : poll) (e f : Z) (w : world) : world :=
  set_polls (<[p := set_p_fds (filter (fun d => d <> e) (p_fds x)) x]> (polls w))
    (set_fd_polls (<[f := filter (fun d => d <> e) (polls_of w f)]> (fd_polls w)) (set_entries (delete e (entries w)) w)).
Definition put_free (p : Z) (x : poll) (e : Z) (y : poll_fd) (w : world) : world :=
  set_polls (<[p := set_p_freelist (e :: p_freelist x) x]> (polls w)) (set_entries (<[e := y]> (entries w)) w).
Definition take_free (p : Z) (x : poll) (e : Z) (w : world) : world :=
  set_polls (<[p := set_p_freelist (filter (fun d => d <> e) (p_freelist x)) x]> (polls w)) (set_entries (delete e (entries w)) w).

Lemma polls_of_insert w f g l P E : polls_of (set_polls P (set_fd_polls (<[f := l]> (fd_polls w)) E)) g = if decide (g = f) then l else polls_of w g.
Proof. unfold polls_of. cbn. case_decide as D; [subst; by rewrite lookup_insert_eq|by rewrite lookup_insert_ne]. Qed.

(** Looks-up in a map that was changed at one key. *)
Ltac at_key H := first [apply lookup_insert_Some in H as [[<- <-]|[? H]] | apply lookup_delete_Some in H as [? H]].

Lemma inv_more n m w : n <= m -> inv n w -> inv m w.
Proof. intros Hn []. split; [intros ? ? ?; eapply Z.lt_le_trans; eauto..|done|done|done|done|done|done]. Qed.

Lemma inv_link n w p x e y : inv n w -> polls w !! p = Some x -> entries w !! e = None -> e < n -> pf_poll y = Some p -> inv n (add_link p x e y w).
Proof.
  intros I Hp He Hn Hy. assert (forall q z, polls w !! q = Some z -> e ∉ p_fds z /\ e ∉ p_freelist z) as Hout.
  { intros q z Hz. split; intros Hin; [apply (proj2 (i_fds _ _ I _ _ Hz)) in Hin|apply (proj2 (i_free _ _ I _ _ Hz)) in Hin]; naive_solver. }
  assert (forall f, e ∉ polls_of w f) as Hof by (intros f Hin; apply (proj2 (i_files _ _ I f)) in Hin; naive_solver).
  split.
  - intros q z. cbn. intros H. at_key H; [by eapply i_poll|by eapply i_poll].
  - intros d z. cbn. intros H. at_key H; [done|by eapply i_entry].
  - intros d z q. cbn. intros H Hq. rewrite lookup_insert_is_Some. destruct (decide (p = q)); [by left|right; split; [done|]]. at_key H; [congruence|by eapply i_live].
  - intros q z. cbn. intros H. at_key H.
    + destruct (i_fds _ _ I _ _ Hp) as [N B]. cbn. split; [constructor; [by apply (Hout p x)|done]|]. intros d. rewrite elem_of_cons, B. destruct (decide (d = e)) as [->|D].
      * rewrite lookup_insert_eq. naive_solver.
      * rewrite lookup_insert_ne by done. naive_solver.
    + destruct (i_fds _ _ I _ _ H) as [N B]. split; [done|]. intros d. rewrite B. destruct (decide (d = e)) as [->|D]; [|by rewrite lookup_insert_ne].
      rewrite lookup_insert_eq, He. naive_solver.
  - intros q z. cbn. intros H. assert (exists z', polls w !! q = Some z' /\ p_freelist z = p_freelist z') as (z' & Hz' & ->) by (at_key H; naive_solver).
    destruct (i_free _ _ I _ _ Hz') as [N B]. split; [done|]. intros d Hd. rewrite lookup_insert_ne; [auto|]. intros <-. by apply (Hout _ _ Hz').
  - intros q r z z' d. cbn. intros H1 H2. at_key H1; at_key H2; cbn; [done|by apply (i_once _ _ I)..].
  - intros d z. cbn. intros H Hz. at_key H; [congruence|]. destruct (i_kept _ _ I _ _ H Hz) as (q & z' & Hq & Hd). destruct (decide (p = q)) as [<-|D].
    + eexists p, _. rewrite lookup_insert_eq. split; [done|]. cbn. congruence.
    + exists q, z'. by rewrite lookup_insert_ne.
  - intros f. unfold add_link. rewrite polls_of_insert. cbn [set_fd_polls entries set_polls set_entries]. destruct (i_files _ _ I f) as [N B]. case_decide as D.
    + rewrite <- D. split; [constructor; [apply Hof|done]|]. intros d. rewrite elem_of_cons, B. destruct (decide (d = e)) as [->|De].
      * rewrite lookup_insert_eq. naive_solver.
      * rewrite lookup_insert_ne by done. naive_solver.
    + split; [done|]. intros d. rewrite B. destruct (decide (d = e)) as [->|De]; [|by rewrite lookup_insert_ne]. rewrite lookup_insert_eq, He. naive_solver.
Qed.

Lemma without_elem (e d : Z) (l : list Z) : d ∈ filter (fun d => d <> e) l <-> d <> e /\ d ∈ l.
Proof. by rewrite list_elem_of_filter. Qed.
Lemma without_NoDup (e : Z) (l : list Z) : NoDup l -> NoDup (filter (fun d => d <> e) l).
Proof. apply NoDup_filter. Qed.
Lemma without_none (e : Z) (l : list Z) : e ∉ l -> filter (fun d => d <> e) l = l.
Proof. induction l as [|d l IH]; [done|]. rewrite not_elem_of_cons. intros [Hd Hl]. rewrite filter_cons_True by congruence. by rewrite IH. Qed.

Lemma inv_forget n w p x e y : inv n w -> polls w !! p = Some x -> entries w !! e = Some y -> pf_poll y = Some p -> inv n (forget p x e (pf_fd y) w).
Proof.
  intros I Hp He Hy. split.
  - intros q z. cbn. intros H. at_key H; by eapply i_poll.
  - intros d z. cbn. intros H. at_key H. by eapply i_entry.
  - intros d z q. cbn. intros H Hq. rewrite lookup_insert_is_Some. destruct (decide (p = q)); [by left|right; split; [done|]]. at_key H. by eapply i_live.
  - intros q z. cbn. intros H. at_key H.
    + destruct (i_fds _ _ I _ _ Hp) as [N B]. cbn. split; [by apply without_NoDup|]. intros d. rewrite without_elem, B. setoid_rewrite lookup_delete_Some. naive_solver.
    + destruct (i_fds _ _ I _ _ H) as [N B]. split; [done|]. intros d. rewrite B. setoid_rewrite lookup_delete_Some. naive_solver.
  - intros q z. cbn. intros H. assert (exists z', polls w !! q = Some z' /\ p_freelist z = p_freelist z') as (z' & Hz' & ->) by (at_key H; naive_solver).
    destruct (i_free _ _ I _ _ Hz') as [N B]. split; [done|]. intros d Hd. destruct (B d Hd) as (u & Hu & Hu'). exists u. rewrite lookup_delete_ne by congruence. done.
  - intros q r z z' d. cbn. intros H1 H2. at_key H1; at_key H2; cbn; [done|by apply (i_once _ _ I)..].
  - intros d z. cbn. intros H Hz. at_key H. destruct (i_kept _ _ I _ _ H Hz) as (q & z' & Hq & Hd). destruct (decide (p = q)) as [<-|D].
    + eexists p, _. rewrite lookup_insert_eq. split; [done|]. cbn. congruence.
    + exists q, z'. by rewrite lookup_insert_ne.
  - intros f. unfold forget. rewrite polls_of_insert. cbn [set_fd_polls entries set_polls set_entries]. setoid_rewrite lookup_delete_Some. case_decide as D.
    + destruct (i_files _ _ I (pf_fd y)) as [N B]. rewrite D. split; [by apply without_NoDup|]. intros d. rewrite without_elem, B. naive_solver.
    + destruct (i_files _ _ I f) as [N B]. split; [done|]. intros d. rewrite B. naive_solver.
Qed.

(** Changes to the entries that are free leave the lists of files alone. *)
Lemma files_same w w' : fd_polls w' = fd_polls w -> (forall d y, pf_poll y <> None -> entries w' !! d = Some y <-> entries w !! d = Some y) ->
  (forall f, NoDup (polls_of w f) /\ (forall e, e ∈ polls_of w f <-> exists y, entries w !! e = Some y /\ is_Some (pf_poll y) /\ pf_fd y = f)) ->
  forall f, NoDup (polls_of w' f) /\ (forall e, e ∈ polls_of w' f <-> exists y, entries w' !! e = Some y /\ is_Some (pf_poll y) /\ pf_fd y = f).
Proof.
  intros E H I f. unfold polls_of in *. rewrite E. destruct (I f) as [N B]. split; [done|]. intros e. rewrite B.
  split; intros (y & Hy & [p Hp] & Hf); exists y; (split; [apply H; [congruence|done]|by rewrite Hp]).
Qed.

Lemma inv_put_free n w p x e y : inv n w -> polls w !! p = Some x -> entries w !! e = None -> e < n -> pf_poll y = None -> inv n (put_free p x e y w).
Proof.
  intros I Hp He Hn Hy. assert (forall q z, polls w !! q = Some z -> e ∉ p_freelist z) as Hout.
  { intros q z Hz Hin. apply (proj2 (i_free _ _ I _ _ Hz)) in Hin. naive_solver. }
  split.
  - intros q z. cbn. intros H. at_key H; by eapply i_poll.
  - intros d z. cbn. intros H. at_key H; [done|by eapply i_entry].
  - intros d z q. cbn. intros H Hq. rewrite lookup_insert_is_Some. destruct (decide (p = q)); [by left|right; split; [done|]]. at_key H; [congruence|by eapply i_live].
  - intros q z. cbn. intros H. assert (exists z', polls w !! q = Some z' /\ p_fds z = p_fds z') as (z' & Hz' & ->) by (at_key H; naive_solver).
    destruct (i_fds _ _ I _ _ Hz') as [N B]. split; [done|]. intros d. rewrite B. setoid_rewrite lookup_insert_Some. naive_solver.
  - intros q z. cbn. intros H. at_key H.
    + destruct (i_free _ _ I _ _ Hp) as [N B]. cbn. split; [constructor; [by eapply Hout|done]|]. intros d. rewrite elem_of_cons. intros [->|Hd]; [exists y; by rewrite lookup_insert_eq|].
      destruct (B d Hd) as (u & Hu & Hu'). exists u. rewrite lookup_insert_ne by congruence. done.
    + destruct (i_free _ _ I _ _ H) as [N B]. split; [done|]. intros d Hd. destruct (B d Hd) as (u & Hu & Hu'). exists u. rewrite lookup_insert_ne by congruence. done.
  - intros q r z z' d. cbn. intros H1 H2. at_key H1; at_key H2; cbn; rewrite ?elem_of_cons.
    + done.
    + intros [->|Hd] Hd'; [by destruct (Hout _ _ H2)|by apply (i_once _ _ I p r x z' d)].
    + intros Hd [->|Hd']; [by destruct (Hout _ _ H1)|by apply (i_once _ _ I q p z x d)].
    + by apply (i_once _ _ I).
  - intros d z. cbn. intros H Hz. at_key H; [exists p; eexists; rewrite lookup_insert_eq; split; [done|cbn; left]|].
    destruct (i_kept _ _ I _ _ H Hz) as (q & z' & Hq & Hd). destruct (decide (p = q)) as [<-|D].
    + eexists p, _. rewrite lookup_insert_eq. split; [done|]. cbn. right. congruence.
    + exists q, z'. by rewrite lookup_insert_ne.
  - apply (files_same w); [done| |apply I]. intros d z Hz. cbn. rewrite lookup_insert_Some. naive_solver.
Qed.

Lemma inv_take_free n w p x e : inv n w -> polls w !! p = Some x -> e ∈ p_freelist x -> inv n (take_free p x e w).
Proof.
  intros I Hp He. destruct (proj2 (i_free _ _ I _ _ Hp) e He) as (y & Hy & Hfree). split.
  - intros q z. cbn. intros H. at_key H; by eapply i_poll.
  - intros d z. cbn. intros H. at_key H. by eapply i_entry.
  - intros d z q. cbn. intros H Hq. rewrite lookup_insert_is_Some. destruct (decide (p = q)); [by left|right; split; [done|]]. at_key H. by eapply i_live.
  - intros q z. cbn. intros H. assert (exists z', polls w !! q = Some z' /\ p_fds z = p_fds z') as (z' & Hz' & ->) by (at_key H; naive_solver).
    destruct (i_fds _ _ I _ _ Hz') as [N B]. split; [done|]. intros d. rewrite B. setoid_rewrite lookup_delete_Some. naive_solver.
  - intros q z. cbn. intros H. at_key H.
    + destruct (i_free _ _ I _ _ Hp) as [N B]. cbn. split; [by apply without_NoDup|]. intros d. rewrite without_elem. intros [Hd Hl].
      destruct (B d Hl) as (u & Hu & Hu'). exists u. rewrite lookup_delete_ne by done. done.
    + destruct (i_free _ _ I _ _ H) as [N B]. split; [done|]. intros d Hd. destruct (B d Hd) as (u & Hu & Hu'). exists u.
      rewrite lookup_delete_ne; [done|]. intros <-. by pose proof (i_once _ _ I p q x z e Hp H He Hd).
  - intros q r z z' d. cbn. intros H1 H2. at_key H1; at_key H2; cbn; rewrite ?without_elem.
    + done.
    + intros [_ Hd] Hd'. by apply (i_once _ _ I p r x z' d).
    + intros Hd [_ Hd']. by apply (i_once _ _ I q p z x d).
    + by apply (i_once _ _ I).
  - intros d z. cbn. intros H Hz. at_key H. destruct (i_kept _ _ I _ _ H Hz) as (q & z' & Hq & Hd). destruct (decide (p = q)) as [<-|D].
    + eexists p, _. rewrite lookup_insert_eq. split; [done|]. cbn. rewrite without_elem. split; [done|congruence].
    + exists q, z'. by rewrite lookup_insert_ne.
  - apply (files_same w); [done| |apply I]. intros d z Hz. cbn. rewrite lookup_delete_Some. naive_solver.
Qed.

(** Changes that leave the lists and the keys of the entries alone. *)
Lemma inv_touch n w e y z : inv n w -> entries w !! e = Some y -> pf_fd z = pf_fd y -> pf_poll z = pf_poll y -> inv n (set_entries (<[e := z]> (entries w)) w).
Proof.
  intros I He Hf Hp. assert (forall (P : poll_fd -> Prop), (forall u v, pf_fd u = pf_fd v -> pf_poll u = pf_poll v -> P u -> P v) ->
    forall d, (exists u, <[e := z]> (entries w) !! d = Some u /\ P u) <-> (exists u, entries w !! d = Some u /\ P u)) as K.
  { intros P HP d. split; intros (u & Hu & HPu); [at_key Hu; eauto|]. destruct (decide (e = d)) as [->|D].
    - exists z. rewrite lookup_insert_eq. split; [done|]. simplify_eq. eauto.
    - exists u. by rewrite lookup_insert_ne. }
  split; cbn; [apply I| | | | |apply I| |].
  - intros d u H. at_key H; by eapply i_entry.
  - intros d u q H Hq. at_key H; [rewrite Hp in Hq|]; by eapply i_live.
  - intros p x H. destruct (i_fds _ _ I _ _ H) as [N B]. split; [done|]. intros d. rewrite B. symmetry. apply K. congruence.
  - intros p x H. destruct (i_free _ _ I _ _ H) as [N B]. split; [done|]. intros d Hd. apply (K (fun y => pf_poll y = None)); [congruence|by apply B].
  - intros d u H Hu. at_key H; [rewrite Hp in Hu|]; by eapply i_kept.
  - intros f. destruct (i_files _ _ I f) as [N B]. split; [done|]. intros d. rewrite (B d). symmetry. apply K. intros u v -> ->. done.
Qed.

Lemma inv_poll_fields n w p x z : inv n w -> polls w !! p = Some x -> p_fds z = p_fds x -> p_freelist z = p_freelist x -> inv n (set_polls (<[p := z]> (polls w)) w).
Proof.
  intros I Hp Hf Hl. assert (forall q u, <[p := z]> (polls w) !! q = Some u -> exists v, polls w !! q = Some v /\ p_fds u = p_fds v /\ p_freelist u = p_freelist v) as K
    by (intros q u H; at_key H; eauto).
  split; cbn; [|apply I| | | | | |apply I].
  - intros q u (v & H & _)%K. by eapply i_poll.
  - intros e y q H Hq. rewrite lookup_insert_is_Some. destruct (decide (p = q)); [by left|right; split; [done|by eapply i_live]].
  - intros q u (v & H & -> & _)%K. by apply I.
  - intros q u (v & H & _ & ->)%K. by eapply (i_free _ _ I q).
  - intros q r u u' e (v & H & _ & ->)%K (v' & H' & _ & ->)%K. by apply (i_once _ _ I).
  - intros e y H Hy. destruct (i_kept _ _ I _ _ H Hy) as (q & u & Hq & Hu). destruct (decide (p = q)) as [<-|D].
    + exists p, z. rewrite lookup_insert_eq. split; [done|]. rewrite Hl. congruence.
    + exists q, u. by rewrite lookup_insert_ne.
Qed.

Lemma inv_new_poll n w p : inv n w -> n <= p -> inv (p + 1) (set_polls (<[p := mk_poll [] [] 0 false]> (polls w)) w).
Proof.
  intros I Hn. assert (polls w !! p = None) as Hp.
  { destruct (polls w !! p) as [x|] eqn:E; [|done]. pose proof (i_poll _ _ I _ _ E). lia. }
  apply (inv_more _ (p + 1)) in I; [|lia]. split; cbn; [|apply I| | | | | |apply I].
  - intros q z H. at_key H; [lia|by eapply i_poll].
  - intros d z q H Hq. rewrite lookup_insert_is_Some. destruct (decide (p = q)); [by left|right; split; [done|by eapply i_live]].
  - intros q z H. at_key H; [|by apply I]. split; [constructor|]. intros d. cbn. split; [by intros ?%not_elem_of_nil|]. intros (y & Hy & E). destruct (i_live _ _ I _ _ _ Hy E). congruence.
  - intros q z H. at_key H; [|by eapply (i_free _ _ I)]. split; [constructor|]. cbn. by intros d ?%not_elem_of_nil.
  - intros q r z z' d H1 H2. at_key H1; at_key H2; cbn; [by intros _ ?%not_elem_of_nil|by intros ?%not_elem_of_nil|by intros _ ?%not_elem_of_nil|by apply (i_once _ _ I)].
  - intros d z H Hz. destruct (i_kept _ _ I _ _ H Hz) as (q & u & Hq & Hu). exists q, u. rewrite lookup_insert_ne by congruence. done.
Qed.

Lemma inv_delete_poll n w p x : inv n w -> polls w !! p = Some x -> p_fds x = [] -> p_freelist x = [] -> inv n (set_polls (delete p (polls w)) w).
Proof.
  intros I Hp Hf Hl. split; cbn; [|apply I| | | | | |apply I].
  - intros q z H. at_key H. by eapply i_poll.
  - intros d z q H Hq. rewrite lookup_delete_is_Some. split; [|by eapply i_live]. intros <-.
    assert (d ∈ p_fds x) as Hd by (apply (proj2 (i_fds _ _ I _ _ Hp)); eauto). rewrite Hf in Hd. by apply not_elem_of_nil in Hd.
  - intros q z H. at_key H. by apply I.
  - intros q z H. at_key H. by eapply (i_free _ _ I q).
  - intros q r z z' d H1 H2. at_key H1. at_key H2. by apply (i_once _ _ I).
  - intros d z H Hz. destruct (i_kept _ _ I _ _ H Hz) as (q & u & Hq & Hu). exists q, u. rewrite lookup_delete_ne; [done|]. intros <-. rewrite Hp in Hq. simplify_eq. rewrite Hl in Hu. by apply not_elem_of_nil in Hu.
Qed.

(** *** What a poll asks for *)

(** Address, file, events, data, and events already reported. *)
Definition item : Type := Z * Z * Z * Z * Z.
Definition item_addr (i : item) : Z := let '(e, _, _, _, _) := i in e.
Definition item_file (i : item) : Z := let '(_, f, _, _, _) := i in f.
Definition item_of (e : Z) (y : poll_fd) : item := (e, pf_fd y, pf_types y, pf_info y, pf_triggered y).
Definition items (w : world) (l : list Z) : list item := omap (fun e => item_of e <$> entries w !! e) l.
(** The polls, each with what it asks for, the last added first. *)
Definition view (w : world) : gmap Z (list item) := (fun x => items w (p_fds x)) <$> polls w.

Lemma items_ext w w' l : (forall e, e ∈ l -> item_of e <$> entries w' !! e = item_of e <$> entries w !! e) -> items w' l = items w l.
Proof.
  induction l as [|e l IH]; [done|]. intros H. unfold items in *. cbn. rewrite H by left. destruct (item_of e <$> entries w !! e); cbn; [f_equal|]; apply IH; intros d Hd; apply H; by right.
Qed.
Lemma items_app w l k : items w (l ++ k) = items w l ++ items w k.
Proof. apply omap_app. Qed.
Lemma items_cons w e y l : entries w !! e = Some y -> items w (e :: l) = item_of e y :: items w l.
Proof. unfold items. intros H. cbn. by rewrite H. Qed.
Lemma shown_lookup w p x : polls w !! p = Some x -> view w !! p = Some (items w (p_fds x)).
Proof. intros H. unfold view. by rewrite lookup_fmap, H. Qed.
Lemma view_is w p l : view w !! p = Some l -> exists x, polls w !! p = Some x /\ l = items w (p_fds x).
Proof. unfold view. rewrite lookup_fmap. intros (x & H & ->)%fmap_Some. eauto. Qed.

(** A change of one poll, where the entries of the others show the same. *)
Lemma view_update n w w' p z : inv n w -> polls w' = <[p := z]> (polls w) ->
  (forall q x e, q <> p -> polls w !! q = Some x -> e ∈ p_fds x -> item_of e <$> entries w' !! e = item_of e <$> entries w !! e) ->
  view w' = <[p := items w' (p_fds z)]> (view w).
Proof.
  intros I E H. unfold view. rewrite E, fmap_insert. apply map_eq. intros q. destruct (decide (p = q)) as [<-|D]; [by rewrite !lookup_insert_eq|].
  rewrite !lookup_insert_ne, !lookup_fmap by done. destruct (polls w !! q) as [x|] eqn:Eq; [|done]. cbn. f_equal. apply items_ext. eauto.
Qed.

Lemma other_poll n w p q x e y : inv n w -> entries w !! e = Some y -> pf_poll y = Some p -> polls w !! q = Some x -> q <> p -> e ∉ p_fds x.
Proof. intros I He Hy Hq D Hin. apply (proj2 (i_fds _ _ I _ _ Hq)) in Hin as (y' & He' & Hy'). congruence. Qed.
Lemma not_listed n w q x e : inv n w -> polls w !! q = Some x -> (forall y, entries w !! e = Some y -> pf_poll y = None) -> e ∉ p_fds x.
Proof. intros I Hq H Hin. apply (proj2 (i_fds _ _ I _ _ Hq)) in Hin as (y & He & Hy). by rewrite (H _ He) in Hy. Qed.

Lemma view_link n w p x e y : inv n w -> polls w !! p = Some x -> entries w !! e = None ->
  view (add_link p x e y w) = <[p := item_of e y :: items w (p_fds x)]> (view w).
Proof.
  intros I Hp He. assert (forall q z, polls w !! q = Some z -> e ∉ p_fds z) as Hout by (intros q z Hz; eapply not_listed; [done..|]; congruence).
  rewrite (view_update n w (add_link p x e y w) p (set_p_fds (e :: p_fds x) x) I eq_refl).
  - f_equal. cbn [p_fds set_p_fds]. rewrite (items_cons _ _ y) by (cbn; by rewrite lookup_insert_eq). f_equal. apply items_ext. intros d Hd. cbn.
    rewrite lookup_insert_ne; [done|]. intros <-. by apply (Hout p x).
  - intros q z d D Hz Hd. cbn. rewrite lookup_insert_ne; [done|]. intros <-. by apply (Hout q z).
Qed.

Lemma view_forget n w p x e y f : inv n w -> polls w !! p = Some x -> entries w !! e = Some y -> pf_poll y = Some p ->
  view (forget p x e f w) = <[p := items w (filter (fun d => d <> e) (p_fds x))]> (view w).
Proof.
  intros I Hp He Hy. rewrite (view_update n w (forget p x e f w) p (set_p_fds (filter (fun d => d <> e) (p_fds x)) x) I eq_refl).
  - f_equal. cbn [p_fds set_p_fds]. apply items_ext. intros d [Hd _]%without_elem. cbn. by rewrite lookup_delete_ne.
  - intros q z d D Hz Hd. cbn. rewrite lookup_delete_ne; [done|]. intros <-. by eapply (other_poll n w p q).
Qed.

Lemma view_entries n w E : inv n w -> (forall q x e, polls w !! q = Some x -> e ∈ p_fds x -> item_of e <$> E !! e = item_of e <$> entries w !! e) -> view (set_entries E w) = view w.
Proof.
  intros I H. unfold view. apply map_eq. intros q. rewrite !lookup_fmap. cbn. destruct (polls w !! q) as [x|] eqn:Eq; [|done]. cbn. f_equal. apply items_ext. cbn. eauto.
Qed.
Lemma view_fields w p x z : polls w !! p = Some x -> p_fds z = p_fds x -> view (set_polls (<[p := z]> (polls w)) w) = view w.
Proof.
  intros Hp E. unfold view. apply map_eq. intros q. rewrite !lookup_fmap. cbn. destruct (decide (p = q)) as [<-|D]; [|by rewrite lookup_insert_ne].
  rewrite lookup_insert_eq, Hp. cbn. f_equal. by rewrite E.
Qed.

Lemma view_put_free n w p x e y : inv n w -> polls w !! p = Some x -> entries w !! e = None -> view (put_free p x e y w) = view w.
Proof.
  intros I Hp He. unfold put_free. rewrite <- (view_entries n w (<[e := y]> (entries w)) I).
  - by apply (view_fields (set_entries (<[e := y]> (entries w)) w) p x (set_p_freelist (e :: p_freelist x) x)).
  - intros q z d Hq Hd. rewrite lookup_insert_ne; [done|]. intros <-. revert Hd. eapply not_listed; [done..|]. congruence.
Qed.
Lemma view_take_free n w p x e : inv n w -> polls w !! p = Some x -> e ∈ p_freelist x -> view (take_free p x e w) = view w.
Proof.
  intros I Hp He. unfold take_free. rewrite <- (view_entries n w (delete e (entries w)) I).
  - by apply (view_fields (set_entries (delete e (entries w)) w) p x (set_p_freelist (filter (fun d => d <> e) (p_freelist x)) x)).
  - intros q z d Hq Hd. rewrite lookup_delete_ne; [done|]. intros <-. revert Hd. eapply not_listed; [done..|].
    destruct (proj2 (i_free _ _ I _ _ Hp) e He) as (y & Hy & Hn). congruence.
Qed.

(** *** The state of the specification *)

(** How many threads wait on a poll, and whether it has a pipe. *)
Definition status (w : world) : gmap Z (Z * bool) := (fun x => (p_waiters x, p_pipe x)) <$> polls w.
(** The items and the threads of each poll, the calls made on the host, the polls whose pipe was written to, and the next address. *)
Record astate := mk_astate {
  a_items : gmap Z (list item);
  a_users : gmap Z (Z * bool);
  a_calls : list call;
  a_woken : list Z;
  a_next : Z }.
Definition abs (s : vfs world) : astate := mk_astate (view (fsd s)) (status (fsd s)) (calls (fsd s)) (notified (fsd s)) (next s).

Lemma status_lookup w p x : polls w !! p = Some x -> status w !! p = Some (p_waiters x, p_pipe x).
Proof. intros H. unfold status. by rewrite lookup_fmap, H. Qed.
Lemma status_upd w w' p x z : polls w !! p = Some x -> polls w' = <[p := z]> (polls w) -> p_waiters z = p_waiters x -> p_pipe z = p_pipe x -> status w' = status w.
Proof. intros H E E1 E2. unfold status. rewrite E, fmap_insert, E1, E2. apply insert_id. by rewrite lookup_fmap, H. Qed.
Lemma status_same w w' : polls w' = polls w -> status w' = status w.
Proof. intros E. unfold status. by rewrite E. Qed.

(** *** Running the steps *)

Section Steps.
Context {HS : Host} {HE : HostErrno}.
Implicit Types s : vfs world.

Lemma twice (w w' : world) s : set_fsd w (set_fsd w' s) = set_fsd w s.
Proof. done. Qed.
Lemma fsd_is (w : world) s : fsd (set_fsd w s) = w.
Proof. done. Qed.
Lemma next_is (w : world) s : next (set_fsd w s) = next s.
Proof. done. Qed.
Lemma set_self s : set_fsd (fsd s) s = s.
Proof. by destruct s. Qed.

Lemma get_poll_run p x s : polls (fsd s) !! p = Some x -> get_poll p s = Ret x s.
Proof. intros H. unfold get_poll. rewrite (bind_step _ _ s (fsd s) s) by done. by rewrite H. Qed.
Lemma get_entry_run e y s : entries (fsd s) !! e = Some y -> get_entry e s = Ret y s.
Proof. intros H. unfold get_entry. rewrite (bind_step _ _ s (fsd s) s) by done. by rewrite H. Qed.
Lemma upd_poll_run p x g s : polls (fsd s) !! p = Some x -> upd_poll p g s = Ret tt (set_fsd (set_polls (<[p := g x]> (polls (fsd s))) (fsd s)) s).
Proof. intros H. unfold upd_poll. by rewrite (bind_step _ _ _ _ _ (get_poll_run _ _ _ H)). Qed.
Lemma upd_entry_run e y g s : entries (fsd s) !! e = Some y -> upd_entry e g s = Ret tt (set_fsd (set_entries (<[e := g y]> (entries (fsd s))) (fsd s)) s).
Proof. intros H. unfold upd_entry. by rewrite (bind_step _ _ _ _ _ (get_entry_run _ _ _ H)). Qed.
Lemma upd_world_run g s : upd_world g s = Ret tt (set_fsd (g (fsd s)) s).
Proof. done. Qed.

Lemma host_call_run c s : host_call c s = Ret (answer (calls (fsd s)) c) (set_fsd (set_calls (calls (fsd s) ++ [c]) (fsd s)) s).
Proof. done. Qed.
(** The calls after the host was asked to change what it watches for a file of its own, and its answer: it is asked to forget it when there is nothing
    to watch for, and else to change it, or to add it if it does not know it. *)
Definition real_told (cs : list call) (p r types : Z) (d : option Z) : list call * (Z + Z) :=
  let types := Z.ldiff types POLL_ONESHOT in
  if types =? 0 then (cs ++ [Ctl p CTL_DEL r 0 None], answer cs (Ctl p CTL_DEL r 0 None))
  else
    let modify := Ctl p CTL_MOD r types d in
    let add := Ctl p CTL_ADD r types d in
    if decide (answer cs modify = inl (host_number ENOENT)) then (cs ++ [modify; add], answer (cs ++ [modify]) add)
    else (cs ++ [modify], answer cs modify).
(** The same for any file, with the error the guest sees. *)
Definition told (cs : list call) (p f types : Z) (d : option Z) : list call * option Z :=
  match real_fd f with
  | None => (cs, None)
  | Some r => let '(cs, a) := real_told cs p r types d in (cs, match a with inl e => Some (err_map e) | inr _ => None end)
  end.

Lemma real_update_run p r t d s : let '(cs, a) := real_told (calls (fsd s)) p r t d in real_poll_update p r t d s = Ret a (set_fsd (set_calls cs (fsd s)) s).
Proof.
  unfold real_told, real_poll_update. cbv zeta. destruct (_ =? 0); [by rewrite host_call_run|]. rewrite (bind_step _ _ _ _ _ (host_call_run _ _)).
  case_decide as E; [rewrite E, Z.eqb_refl, host_call_run, fsd_is; cbn; by rewrite <- app_assoc|]. destruct (answer _ _) as [e|]; [|done]. destruct (Z.eqb_spec e (host_number ENOENT)); [congruence|done].
Qed.
Lemma update_entry_run p f t d s cs a : told (calls (fsd s)) p f t d = (cs, a) -> update_entry p f t d s = Ret a (set_fsd (set_calls cs (fsd s)) s).
Proof.
  unfold told, update_entry. destruct (real_fd f) as [r|].
  - pose proof (real_update_run p r t d s) as E. destruct (real_told _ _ _ _ _) as [cs' a']. intros [= <- <-]. by rewrite (bind_step _ _ _ _ _ E).
  - intros [= <- <-]. by destruct s as [[] ? ? ? ? ? ? ?].
Qed.
Lemma update_entry_ok p f t d s : exists a cs, update_entry p f t d s = Ret a (set_fsd (set_calls cs (fsd s)) s).
Proof. destruct (told (calls (fsd s)) p f t d) as [cs a] eqn:E. exists a, cs. by apply update_entry_run. Qed.

(** The calls made on the host do not matter to the lists. *)
Lemma inv_calls n w cs : inv n (set_calls cs w) <-> inv n w.
Proof. split; intros []; by split. Qed.
Lemma view_calls w cs : view (set_calls cs w) = view w.
Proof. done. Qed.

Lemma find_entry_run l f s : (forall e, e ∈ l -> is_Some (entries (fsd s) !! e)) ->
  (find_entry l f s = Ret None s /\ forall e y, e ∈ l -> entries (fsd s) !! e = Some y -> pf_fd y <> f) \/
  (exists l1 e l2 y, find_entry l f s = Ret (Some e) s /\ l = l1 ++ e :: l2 /\ entries (fsd s) !! e = Some y /\ pf_fd y = f /\
    forall d z, d ∈ l1 -> entries (fsd s) !! d = Some z -> pf_fd z <> f).
Proof.
  induction l as [|e l IH]; intros H; [left; split; [done|]; by intros ? ? ?%not_elem_of_nil|]. destruct (H e (list_elem_of_here _ _)) as [y Hy]. cbn [find_entry].
  rewrite (bind_step _ _ _ _ _ (get_entry_run _ _ _ Hy)). destruct (Z.eqb_spec (pf_fd y) f) as [Ef|Ef].
  - right. exists [], e, l, y. split_and!; try done. by intros ? ? ?%not_elem_of_nil.
  - destruct IH as [[E Hn]|(l1 & d & l2 & z & E & -> & Hz & Hf & Hn)]; [intros d Hd; apply H; by right| |].
    + left. split; [done|]. intros d z [->|Hd]%elem_of_cons Hz; [congruence|eauto].
    + right. exists (e :: l1), d, l2, z. split_and!; try done. intros d' z' [->|Hd]%elem_of_cons Hz'; [congruence|eauto].
Qed.

(** What an operation leaves: the lists are right, and they show [v]. *)
Definition leaves {A} (m : T A) (s : vfs world) (Q : A -> astate -> Prop) : Prop :=
  exists r s', m s = Ret r s' /\ inv (next s') (fsd s') /\ Q r (abs s').
(** The entry for a new item: new memory, or a free entry that is in no list. *)
Definition new_entry (A : astate) (e n : Z) : Prop :=
  (e = a_next A /\ n = a_next A + 1 /\ no_memory (a_next A) = false) \/ (e < a_next A /\ n = a_next A /\ forall p l i, a_items A !! p = Some l -> i ∈ l -> item_addr i <> e).

Lemma add_tail n w p x e y f t s cs a : inv n w -> polls w !! p = Some x -> entries w !! e = None -> fsd s = set_entries (<[e := y]> (entries w)) w -> pf_fd y = f -> told (calls w) p f t (Some e) = (cs, a) ->
  (let! err := update_entry p f t (Some e) in
    match err with
    | Some err => upd_world (fun w => set_entries (delete e (entries w)) w) ;; ret err
    | None => upd_polls_of f (cons e) ;; upd_poll p (fun x => set_p_fds (e :: p_fds x) x) ;; ret 0
    end) s = match a with Some err => Ret err (set_fsd (set_calls cs w) s) | None => Ret 0 (set_fsd (set_calls cs (add_link p x e y w)) s) end.
Proof.
  intros I Hp He Hs Hf Ht. rewrite (bind_step _ _ s a (set_fsd (set_calls cs (fsd s)) s)) by (apply update_entry_run; by rewrite Hs). destruct a as [err|].
  - rewrite (bind_step _ _ _ _ _ (upd_world_run _ _)), Hs. unfold ret. f_equal. rewrite fsd_is, twice. f_equal. destruct w. cbn in *. by rewrite delete_insert_eq, delete_id.
  - unfold upd_polls_of. rewrite (bind_step _ _ _ _ _ (upd_world_run _ _)), Hs, fsd_is, twice.
    erewrite bind_step by (apply upd_poll_run; rewrite fsd_is; exact Hp). unfold ret. f_equal. rewrite fsd_is, twice. f_equal. unfold add_link. by subst f.
Qed.

Lemma items_elem w l i : i ∈ items w l -> exists e y, e ∈ l /\ entries w !! e = Some y /\ i = item_of e y.
Proof. unfold items. rewrite list_elem_of_omap. intros (e & He & (y & Hy & ->)%fmap_Some). eauto. Qed.

(** Taking the entry of an item to add. *)
Lemma take_entry p x s y : inv (next s) (fsd s) -> polls (fsd s) !! p = Some x ->
  (match p_freelist x with e :: _ => upd_poll p (fun x => set_p_freelist (tail (p_freelist x)) x) ;; ret (Some e) | [] => try_malloc end) s = Ret None s /\ no_memory (next s) = true \/
  exists e w s1, (match p_freelist x with e :: _ => upd_poll p (fun x => set_p_freelist (tail (p_freelist x)) x) ;; ret (Some e) | [] => try_malloc end) s = Ret (Some e) s1 /\
    (exists x1, polls w !! p = Some x1 /\ p_fds x1 = p_fds x /\ items w (p_fds x) = items (fsd s) (p_fds x)) /\ inv (next s1) w /\ view w = view (fsd s) /\ entries w !! e = None /\ e < next s1 /\
    set_entries (<[e := y]> (entries (fsd s1))) (fsd s1) = set_entries (<[e := y]> (entries w)) w /\ new_entry (abs s) e (next s1) /\ status w = status (fsd s) /\ calls w = calls (fsd s) /\ notified w = notified (fsd s).
Proof.
  intros I Hp. destruct (p_freelist x) as [|e l] eqn:El.
  - unfold try_malloc. rewrite (bind_step _ _ s (next s) s) by done. destruct (no_memory (next s)) eqn:Em; [by left|right].
    exists (next s), (fsd s), (set_next (next s + 1) s). split_and!; try done; [by exists x|apply (inv_more (next s)); [cbn; lia|done]| |cbn; lia|by left].
    destruct (entries (fsd s) !! next s) as [z|] eqn:Ez; [|done]. pose proof (i_entry _ _ I _ _ Ez). lia.
  - right. destruct (i_free _ _ I _ _ Hp) as [N B]. assert (e ∈ p_freelist x) as He by (rewrite El; left). destruct (B e He) as (z & Hz & Hzf).
    exists e, (take_free p x e (fsd s)), (set_fsd (set_polls (<[p := set_p_freelist (tail (p_freelist x)) x]> (polls (fsd s))) (fsd s)) s). split_and!; try done.
    + by rewrite (bind_step _ _ _ _ _ (upd_poll_run _ _ _ _ Hp)).
    + eexists. cbn. rewrite lookup_insert_eq. split_and!; [done..|]. apply items_ext. intros d Hd. cbn. rewrite lookup_delete_ne; [done|]. intros <-. revert Hd. eapply not_listed; [done..|congruence].
    + by apply inv_take_free.
    + by apply (view_take_free (next s)).
    + cbn. by rewrite lookup_delete_eq.
    + by apply (i_entry _ _ I _ _ Hz).
    + unfold take_free. rewrite El in *. apply NoDup_cons in N as [N _]. rewrite filter_cons_False by auto. rewrite (without_none e l) by done. cbn. by rewrite insert_delete_eq.
    + right. split_and!; [by apply (i_entry _ _ I _ _ Hz)|done|]. intros q k i (u & Hu & ->)%view_is (d & v & Hd & Hv & ->)%items_elem E. cbn in E. subst d. revert Hd. eapply not_listed; [done..|congruence].
    + by apply (status_upd _ _ p x (set_p_freelist (filter (fun d => d <> e) (p_freelist x)) x)).
Qed.

Lemma add_run p x f t i s : inv (next s) (fsd s) -> polls (fsd s) !! p = Some x ->
  leaves (poll_add_fd p f t i) s (fun r A' =>
    r = _ENOMEM /\ no_memory (next s) = true /\ A' = abs s \/
    exists e n cs a, new_entry (abs s) e n /\ told (calls (fsd s)) p f t (Some e) = (cs, a) /\
      match a with
      | Some err => r = err /\ A' = mk_astate (view (fsd s)) (status (fsd s)) cs (notified (fsd s)) n
      | None => r = 0 /\ A' = mk_astate (<[p := (e, f, t, i, 0) :: items (fsd s) (p_fds x)]> (view (fsd s))) (status (fsd s)) cs (notified (fsd s)) n
      end).
Proof.
  intros I Hp. unfold leaves, poll_add_fd. rewrite (bind_step _ _ _ _ _ (get_poll_run _ _ _ Hp)). set (y := mk_poll_fd f t i 0 (Some p)).
  destruct (take_entry p x s y I Hp) as [[E Hm]|(e & w & s1 & E & (x1 & Hx1 & Hfds & Hit) & I1 & V1 & He & Hn & Hw & Hnew & U1 & C1 & N1)]; rewrite (bind_step _ _ _ _ _ E).
  { eexists _, s. split; [reflexivity|]. split; [done|by left]. }
  rewrite (bind_step _ _ _ _ _ (upd_world_run _ _)). set (s2 := set_fsd _ s1). destruct (told (calls (fsd s)) p f t (Some e)) as [cs a] eqn:Et.
  pose proof (add_tail _ w p x1 e y f t s2 cs a I1 Hx1 He Hw eq_refl ltac:(by rewrite C1)) as E2.
  destruct a as [err|]; eexists _, _; (split; [exact E2|]); rewrite fsd_is, inv_calls; (split; [done || by apply inv_link|]); right; exists e, (next s1), cs; eexists; (split; [done|split; [done|split; [done|]]]); unfold abs; rewrite fsd_is.
  - unfold s2. by rewrite view_calls, V1, <- U1, <- N1.
  - rewrite view_calls, (view_link _ _ _ _ _ _ I1 Hx1 He), V1, Hfds, Hit. unfold s2. f_equal; [|done]. rewrite <- U1. by apply (status_upd _ _ p x1 (set_p_fds (e :: p_fds x1) x1)).
Qed.

Lemma free_run w p x e y g s : entries w !! e = Some y -> pf_poll y = Some p -> polls w !! p = Some x -> fsd s = set_polls (<[p := set_p_fds g x]> (polls w)) w ->
  poll_fd_free e s = Ret tt (set_fsd (put_free p (set_p_fds g x) e (mk_poll_fd 13455272147882261178 3132799674 13455272147882261178 3132799674 None) (set_polls (<[p := set_p_fds g x]> (polls w)) w)) s).
Proof.
  intros He Hy Hp Hs. unfold poll_fd_free. rewrite (bind_step _ _ s y s) by (apply get_entry_run; by rewrite Hs). rewrite Hy, (bind_step _ _ s p s) by done.
  erewrite bind_step by (apply upd_entry_run; rewrite Hs; exact He). erewrite upd_poll_run by (rewrite fsd_is, Hs; cbn; apply lookup_insert_eq). by rewrite fsd_is, twice, Hs.
Qed.

(** Taking an entry off both lists and freeing it. *)
Lemma drop_run n p x e y s : inv n (fsd s) -> polls (fsd s) !! p = Some x -> entries (fsd s) !! e = Some y -> pf_poll y = Some p ->
  exists w, (poll_unlink p (pf_fd y) e ;; poll_fd_free e) s = Ret tt (set_fsd w s) /\ inv n w /\ (forall q, is_Some (polls (fsd s) !! q) -> is_Some (polls w !! q)) /\
    (forall d, d <> e -> entries w !! d = entries (fsd s) !! d) /\
    (forall f, polls_of w f = filter (fun d => d <> e) (polls_of (fsd s) f)) /\
    view w = <[p := items (fsd s) (filter (fun d => d <> e) (p_fds x))]> (view (fsd s)) /\
    calls w = calls (fsd s) /\ notified w = notified (fsd s) /\ status w = status (fsd s).
Proof.
  intros I Hp He Hy. pose proof (inv_forget _ _ _ _ _ _ I Hp He Hy) as IF. set (z := set_p_fds (filter (fun d => d <> e) (p_fds x)) x).
  set (w := fsd s) in *. set (u := mk_poll_fd 13455272147882261178 3132799674 13455272147882261178 3132799674 None).
  assert (polls (forget p x e (pf_fd y) w) !! p = Some z) as Hz by (cbn; by rewrite lookup_insert_eq).
  assert (entries (forget p x e (pf_fd y) w) !! e = None) as Hn by (cbn; by rewrite lookup_delete_eq).
  exists (put_free p z e u (forget p x e (pf_fd y) w)). split_and!; try done.
  - unfold poll_unlink, upd_polls_of, bind at 1. rewrite (bind_step _ _ _ _ _ (upd_world_run _ _)). erewrite upd_poll_run by (rewrite fsd_is; exact Hp).
    rewrite fsd_is, twice. erewrite (free_run (set_fd_polls _ w) p x e y); [|exact He|exact Hy|exact Hp|reflexivity]. rewrite twice. unfold put_free, forget, z, u. cbn. rewrite !insert_insert_eq, insert_delete_eq. done.
  - apply (inv_put_free n _ p z e u IF Hz Hn); [by eapply (i_entry _ _ I)|done].
  - intros q Hq. cbn. rewrite !lookup_insert_is_Some. destruct (decide (p = q)); [by left|by right; split; [|right]].
  - intros d Hd. cbn. by rewrite lookup_insert_ne, lookup_delete_ne by done.
  - intros f. transitivity (polls_of (forget p x e (pf_fd y) w) f); [done|]. unfold forget. rewrite polls_of_insert. case_decide as D; [by rewrite D|].
    rewrite without_none; [done|]. intros Hin. apply (proj2 (i_files _ _ I f)) in Hin as (y' & He' & _ & Hf). congruence.
  - rewrite (view_put_free n _ p z e u IF Hz Hn). by apply (view_forget n w p x e y).
  - apply (status_upd _ _ p x (set_p_freelist (e :: p_freelist z) z)); [done| |done|done]. cbn. by rewrite insert_insert_eq.
Qed.

(** *** What the operations do to the entries *)

Fixpoint del_first (f : Z) (l : list item) : list item :=
  match l with
  | [] => []
  | i :: l => if item_file i =? f then l else i :: del_first f l
  end.
Fixpoint mod_first (f t info : Z) (l : list item) : list item :=
  match l with
  | [] => []
  | i :: l => if item_file i =? f then (item_addr i, f, t, info, Z.land (snd i) t) :: l else i :: mod_first f t info l
  end.
Definition has_file (f : Z) (l : list item) : bool := existsb (fun i => item_file i =? f) l.
Definition woken (f evs : Z) (i : item) : item :=
  let '(e, g, t, info, trig) := i in if (g =? f) && has t POLL_EDGETRIGGERED then (e, g, t, info, Z.ldiff trig evs) else i.

Lemma items_files w l f : (forall d z, d ∈ l -> entries w !! d = Some z -> pf_fd z <> f) -> has_file f (items w l) = false.
Proof.
  induction l as [|d l IH]; [done|]. intros H. unfold items in *. cbn. assert (has_file f (omap (fun e => item_of e <$> entries w !! e) l) = false) as E by (apply IH; intros; eapply H; [right|]; done).
  destruct (entries w !! d) as [z|] eqn:Ez; cbn; [|done]. unfold has_file in *. cbn. rewrite E, orb_false_r. apply Z.eqb_neq. by apply (H d); [left|].
Qed.
Lemma del_first_app f l y k : has_file f l = false -> item_file y = f -> del_first f (l ++ y :: k) = l ++ k.
Proof. induction l as [|i l IH]; cbn; [by intros _ ->%Z.eqb_eq|]. intros [-> H]%orb_false_iff Hy. by rewrite IH. Qed.
Lemma mod_first_app f t info l y k : has_file f l = false -> item_file y = f -> mod_first f t info (l ++ y :: k) = l ++ (item_addr y, f, t, info, Z.land (snd y) t) :: k.
Proof. induction l as [|i l IH]; cbn; [by intros _ ->%Z.eqb_eq|]. intros [-> H]%orb_false_iff Hy. by rewrite IH. Qed.
Lemma has_file_app f l y k : item_file y = f -> has_file f (l ++ y :: k) = true.
Proof. intros <-. unfold has_file. rewrite existsb_app. cbn. by rewrite Z.eqb_refl, orb_true_r. Qed.
Lemma without_middle (e : Z) l k : NoDup (l ++ e :: k) -> filter (fun d => d <> e) (l ++ e :: k) = l ++ k.
Proof.
  intros (N1 & N2 & [N3 _]%NoDup_cons)%NoDup_app. rewrite filter_app, filter_cons_False by auto. rewrite (without_none e k) by done. rewrite without_none; [done|].
  intros H. apply (N2 e H). left.
Qed.

(** Finding the entry of a file. *)
Lemma find_run n p x f s : inv n (fsd s) -> polls (fsd s) !! p = Some x ->
  (poll_find_fd p f s = Ret None s /\ has_file f (items (fsd s) (p_fds x)) = false) \/
  (exists l1 e l2 y, poll_find_fd p f s = Ret (Some e) s /\ p_fds x = l1 ++ e :: l2 /\ NoDup (p_fds x) /\ entries (fsd s) !! e = Some y /\ pf_fd y = f /\ pf_poll y = Some p /\
    has_file f (items (fsd s) l1) = false /\ items (fsd s) (p_fds x) = items (fsd s) l1 ++ item_of e y :: items (fsd s) l2).
Proof.
  intros I Hp. destruct (i_fds _ _ I _ _ Hp) as [N B]. unfold poll_find_fd. rewrite (bind_step _ _ _ _ _ (get_poll_run _ _ _ Hp)).
  destruct (find_entry_run (p_fds x) f s) as [[E H]|(l1 & e & l2 & y & E & El & He & Hf & H)]; [intros e (y & Hy & _)%B; eauto| |].
  - left. split; [done|]. by apply items_files.
  - right. exists l1, e, l2, y. assert (e ∈ p_fds x) as (y' & Hy' & Hpp)%B by (rewrite El; set_solver). assert (y' = y) as -> by congruence.
    split_and!; try done; [by apply items_files|]. rewrite El, items_app. by rewrite (items_cons _ _ _ _ He).
Qed.

(** The first item of a file. *)
Fixpoint item_for (f : Z) (l : list item) : option item :=
  match l with
  | [] => None
  | i :: l => if item_file i =? f then Some i else item_for f l
  end.
Lemma item_for_app f l y k : has_file f l = false -> item_file y = f -> item_for f (l ++ y :: k) = Some y.
Proof. induction l as [|i l IH]; cbn; [by intros _ ->%Z.eqb_eq|]. intros [-> H]%orb_false_iff Hy. by rewrite IH. Qed.
Lemma item_for_none f l : has_file f l = false -> item_for f l = None.
Proof. induction l as [|i l IH]; cbn; [done|]. intros [-> H]%orb_false_iff. by apply IH. Qed.

(** Changing what is asked for of a file: there is no item for it, the host has an error, or the items change. *)
Definition changed (s : vfs world) (p f t : Z) (l : list item) (g : list item -> list item) (r : Z) (A' : astate) : Prop :=
  match item_for f l with
  | None => r = _ENOENT /\ A' = abs s
  | Some i =>
      let '(cs, a) := told (calls (fsd s)) p f t (Some (item_addr i)) in
      match a with
      | Some err => r = err /\ A' = mk_astate (view (fsd s)) (status (fsd s)) cs (notified (fsd s)) (next s)
      | None => r = 0 /\ A' = mk_astate (<[p := g l]> (view (fsd s))) (status (fsd s)) cs (notified (fsd s)) (next s)
      end
  end.

Lemma del_run p x f s : inv (next s) (fsd s) -> polls (fsd s) !! p = Some x ->
  leaves (poll_del_fd p f) s (changed s p f 0 (items (fsd s) (p_fds x)) (del_first f)).
Proof.
  intros I Hp. unfold leaves, poll_del_fd, changed. destruct (find_run _ _ _ f _ I Hp) as [[E Hn]|(l1 & e & l2 & y & E & El & N & He & Hf & Hy & Hn & Hi)]; rewrite (bind_step _ _ _ _ _ E).
  - eexists _, _. split; [reflexivity|]. split; [done|]. by rewrite item_for_none.
  - rewrite Hi, item_for_app by done. cbn [item_addr item_of]. destruct (told _ _ _ _ _) as [cs a] eqn:Et. rewrite (bind_step _ _ _ _ _ (update_entry_run _ _ _ _ _ _ _ Et)). destruct a as [err|].
    + eexists _, _. split; [reflexivity|]. by rewrite fsd_is, inv_calls.
    + set (s1 := set_fsd _ s). destruct (drop_run (next s) p x e y s1) as (w & Ed & Iw & _ & _ & _ & Vw & Cw & Nw & Uw); [by apply inv_calls|done..|]. rewrite Hf in Ed.
      unfold bind in Ed |- *. destruct (poll_unlink p f e s1) as [[] s2| | |]; try done. rewrite Ed. eexists _, _. split; [reflexivity|]. rewrite fsd_is. split; [done|]. split; [done|].
      unfold abs. rewrite fsd_is, Vw, Cw, Nw, Uw. unfold s1. rewrite fsd_is, view_calls, El, without_middle by congruence. f_equal. f_equal. rewrite del_first_app by done.
      change (items (set_calls cs (fsd s))) with (items (fsd s)). apply items_app.
Qed.

Lemma mod_run p x f t info s : inv (next s) (fsd s) -> polls (fsd s) !! p = Some x ->
  leaves (poll_mod_fd p f t info) s (changed s p f t (items (fsd s) (p_fds x)) (mod_first f t info)).
Proof.
  intros I Hp. unfold leaves, poll_mod_fd, changed. destruct (find_run _ _ _ f _ I Hp) as [[E Hn]|(l1 & e & l2 & y & E & El & N & He & Hf & Hy & Hn & Hi)]; rewrite (bind_step _ _ _ _ _ E).
  - eexists _, _. split; [reflexivity|]. split; [done|]. by rewrite item_for_none.
  - rewrite Hi, item_for_app by done. cbn [item_addr item_of]. destruct (told _ _ _ _ _) as [cs a] eqn:Et. rewrite (bind_step _ _ _ _ _ (update_entry_run _ _ _ _ _ _ _ Et)). destruct a as [err|].
    + eexists _, _. split; [reflexivity|]. by rewrite fsd_is, inv_calls.
    + erewrite bind_step by (apply upd_entry_run; exact He). eexists _, _. split; [reflexivity|]. rewrite !fsd_is, twice. cbn beta. set (z := set_pf_triggered _ _). set (w1 := set_calls cs (fsd s)).
      assert (inv (next s) w1) as I1 by by apply inv_calls. split; [by apply (inv_touch _ w1 e y)|]. split; [done|]. unfold abs. rewrite fsd_is. f_equal.
      rewrite (view_update _ w1 _ p x I1).
      * rewrite El, items_app, (items_cons _ _ z) by (cbn; apply lookup_insert_eq). rewrite mod_first_app by done. unfold w1. rewrite view_calls. f_equal. rewrite El in N. apply NoDup_app in N as (_ & N1 & [N2 _]%NoDup_cons).
        f_equal; [|f_equal; [by unfold z, item_of; cbn; rewrite Hf|]]; apply items_ext; intros d Hd; cbn; (rewrite lookup_insert_ne; [done|]); intros <-; [apply (N1 e Hd); left|done].
      * cbn. by rewrite insert_id.
      * intros q z' d D Hq Hd. cbn. rewrite lookup_insert_ne; [done|]. intros <-. by eapply (other_poll _ w1 p q).
Qed.

Lemma create_run s : inv (next s) (fsd s) ->
  leaves poll_create s (fun r A' =>
    let cs := calls (fsd s) ++ [Epoll_create (next s)] in
    if no_memory (next s) then r = inl _ENOMEM /\ A' = abs s
    else
      match answer (calls (fsd s)) (Epoll_create (next s)) with
      | inl e => r = inl (err_map e) /\ A' = mk_astate (view (fsd s)) (status (fsd s)) cs (notified (fsd s)) (next s + 1)
      | inr _ => r = inr (next s) /\ A' = mk_astate (<[next s := []]> (view (fsd s))) (<[next s := (0, false)]> (status (fsd s))) cs (notified (fsd s)) (next s + 1)
      end).
Proof.
  intros I. unfold leaves, poll_create, try_malloc, bind at 1. rewrite (bind_step _ _ s (next s) s) by done. cbv zeta. destruct (no_memory (next s)); [eexists _, s; by split|].
  rewrite (bind_step _ _ s (next s) (set_next (next s + 1) s)) by done. unfold ret at 1. rewrite (bind_step _ _ _ _ _ (host_call_run _ _)). change (calls (fsd (set_next (next s + 1) s))) with (calls (fsd s)).
  assert (inv (next s + 1) (fsd s)) as I1 by (apply (inv_more (next s)); [lia|done]). set (cs := calls _ ++ _). destruct (answer _ _) as [err|].
  - eexists _, _. split; [reflexivity|]. by rewrite fsd_is, inv_calls.
  - rewrite (bind_step _ _ _ _ _ (upd_world_run _ _)). eexists _, _. split; [reflexivity|]. rewrite !fsd_is. split.
    + cbn [next set_fsd set_next]. apply (inv_new_poll (next s)); [by apply inv_calls|lia].
    + split; [done|]. unfold abs. rewrite !fsd_is. f_equal; [unfold view|unfold status]; cbn; by rewrite fmap_insert.
Qed.

Definition not_of (f : Z) (i : item) : Prop := item_file i <> f.
#[local] Instance not_of_dec f i : Decision (not_of f i).
Proof. unfold not_of. apply _. Defined.


(** With its entry gone, what is left of the others is the same. *)
Lemma filter_items_without w f e y l : entries w !! e = Some y -> pf_fd y = f -> filter (not_of f) (items w (filter (fun d => d <> e) l)) = filter (not_of f) (items w l).
Proof.
  intros He Hf. induction l as [|d l IH]; [done|]. destruct (decide (d = e)) as [->|D].
  - rewrite filter_cons_False by auto. rewrite (items_cons _ _ _ _ He), filter_cons_False by (intros H; by apply H). done.
  - rewrite filter_cons_True by done. destruct (entries w !! d) as [z|] eqn:Ez; [by rewrite !(items_cons _ _ _ _ Ez), !filter_cons, IH|].
    assert (forall k, items w (d :: k) = items w k) as K by (intros k; unfold items; cbn; by rewrite Ez). by rewrite !K.
Qed.

(** The poll of an entry, and the entries of a file with their polls. *)
Definition owner (w : world) (e : Z) : Z := default 0 (entries w !! e ≫= pf_poll).
Definition watchers (v : gmap Z (list item)) (f : Z) (es : list (Z * Z)) : Prop :=
  NoDup es /\ forall e p, (e, p) ∈ es <-> exists l i, v !! p = Some l /\ i ∈ l /\ item_addr i = e /\ item_file i = f.
(** The host is asked to forget a file, for each of the polls. *)
Definition forgets (f : Z) (ps : list Z) : list call := match real_fd f with Some r => (fun p => Ctl p CTL_DEL r 0 None) <$> ps | None => [] end.

Lemma told_nothing cs p f d : exists a, told cs p f 0 d = (cs ++ forgets f [p], a).
Proof. unfold told, forgets. destruct (real_fd f); [|exists None; by rewrite app_nil_r]. by eexists. Qed.
Lemma forgets_cons f p ps : forgets f (p :: ps) = forgets f [p] ++ forgets f ps.
Proof. unfold forgets. by destruct (real_fd f). Qed.
Lemma watchers_of n w f : inv n w -> watchers (view w) f ((fun e => (e, owner w e)) <$> polls_of w f).
Proof.
  intros I. destruct (i_files _ _ I f) as [N B]. split; [apply NoDup_fmap_2; [by intros ? ? [= -> _]|done]|]. intros e p. rewrite list_elem_of_fmap. split.
  - intros (d & [= -> ->] & (y & Hy & [q Hq] & Hf)%B). unfold owner. rewrite Hy. cbn. rewrite Hq. cbn. destruct (i_live _ _ I _ _ _ Hy Hq) as [x Hx].
    exists (items w (p_fds x)), (item_of d y). split_and!; [by apply shown_lookup| |done|done]. unfold items. rewrite list_elem_of_omap. exists d. split; [apply (i_fds _ _ I _ _ Hx); eauto|by rewrite Hy].
  - intros (l & i & (x & Hx & ->)%view_is & (d & y & Hd & Hy & ->)%items_elem & <- & Hf). cbn in *. apply (i_fds _ _ I _ _ Hx) in Hd as (y' & Hy' & Hp). assert (y' = y) as -> by congruence.
    exists d. split; [unfold owner; rewrite Hy; cbn; by rewrite Hp|]. apply B. exists y. rewrite Hp. eauto.
Qed.

Lemma cleanup_loop l f s : inv (next s) (fsd s) -> polls_of (fsd s) f = l ->
  exists w, for_each l (fun e =>
    let! x := get_entry e in let! p := deref (pf_poll x) in let! _ := update_entry p f 0 (Some e) in poll_unlink p f e ;; poll_fd_free e) s = Ret tt (set_fsd w s) /\
    inv (next s) w /\ view w = filter (not_of f) <$> view (fsd s) /\ calls w = calls (fsd s) ++ forgets f (owner (fsd s) <$> l) /\ notified w = notified (fsd s) /\ status w = status (fsd s).
Proof.
  revert s. induction l as [|e l IH]; intros s I Hl; cbn [for_each].
  - exists (fsd s). rewrite set_self. split_and!; [done..| |unfold forgets; destruct (real_fd f); by rewrite app_nil_r|done|done]. rewrite <- (map_fmap_id (view (fsd s))) at 1. apply map_fmap_ext. intros p k (x & Hx & ->)%view_is. cbn.
    apply eq_sym, filter_all. intros i (e & y & He & Hy & ->)%items_elem Hf. cbn in Hf.
    apply (proj2 (i_fds _ _ I _ _ Hx)) in He as (y' & Hy' & Hp). assert (y' = y) as -> by congruence. assert (e ∈ polls_of (fsd s) f) as He by (apply (proj2 (i_files _ _ I f)); exists y; rewrite Hp; eauto).
    rewrite Hl in He. by apply not_elem_of_nil in He.
  - destruct (i_files _ _ I f) as [N B]. assert (e ∈ polls_of (fsd s) f) as (y & Hy & [p Hp] & Hf)%B by (rewrite Hl; left). destruct (i_live _ _ I _ _ _ Hy Hp) as [x Hx].
    destruct (told_nothing (calls (fsd s)) p f (Some e)) as (a & Et). pose proof (update_entry_run _ _ _ _ s _ _ Et) as Eu. set (cs := calls (fsd s) ++ _) in *. set (s1 := set_fsd (set_calls cs (fsd s)) s) in *.
    destruct (drop_run (next s) p x e y s1) as (w & Ed & Iw & _ & Ew & Pw & Vw & Cw & Nw & Uw); [by apply inv_calls|done..|]. rewrite Hf in Ed.
    erewrite bind_step by (rewrite (bind_step _ _ _ _ _ (get_entry_run _ _ _ Hy)), Hp, (bind_step _ _ s p s), (bind_step _ _ _ _ _ Eu) by done; exact Ed). rewrite Hl in N.
    destruct (IH (set_fsd w s1)) as (w' & E & Iw' & Vw' & Cw' & Nw' & Uw'); [done| |].
    + rewrite fsd_is, Pw. unfold s1. rewrite fsd_is. change (polls_of (set_calls cs (fsd s)) f) with (polls_of (fsd s) f). rewrite Hl. by apply (without_middle e []).
    + exists w'. rewrite E. split_and!; [done..| | |by rewrite Nw', fsd_is, Nw|by rewrite Uw', fsd_is, Uw].
      * rewrite Vw', fsd_is, Vw, fmap_insert. unfold s1. rewrite fsd_is, view_calls. change (items (set_calls cs (fsd s))) with (items (fsd s)).
        rewrite (filter_items_without _ f e y) by done. apply insert_id. by rewrite lookup_fmap, (shown_lookup _ _ _ Hx).
      * rewrite Cw', fsd_is, Cw. unfold s1. rewrite fsd_is. cbn [calls set_calls]. unfold cs. rewrite <- app_assoc. f_equal. rewrite fmap_cons, (forgets_cons f (owner _ _)). unfold owner at 2. rewrite Hy. cbn. rewrite Hp. cbn. f_equal. f_equal.
        apply list_fmap_ext. intros k d Hd. unfold owner. rewrite Ew; [done|]. intros ->. apply NoDup_cons in N as [N _]. apply N. by apply list_elem_of_lookup_2 in Hd.
Qed.

Lemma cleanup_run f s : inv (next s) (fsd s) -> leaves (poll_cleanup_fd f) s (fun _ A' => exists es, watchers (view (fsd s)) f es /\
  A' = mk_astate (filter (not_of f) <$> view (fsd s)) (status (fsd s)) (calls (fsd s) ++ forgets f (snd <$> es)) (notified (fsd s)) (next s)).
Proof.
  intros I. destruct (cleanup_loop _ f s I eq_refl) as (w & E & Iw & Vw & Cw & Nw & Uw). unfold leaves, poll_cleanup_fd. rewrite (bind_step _ _ s (fsd s) s) by done. rewrite E. eexists _, _. split; [done|].
  split; [done|]. eexists. split; [by eapply watchers_of|]. unfold abs. by rewrite fsd_is, Vw, Cw, Nw, Uw, <- list_fmap_compose.
Qed.

(** An edge-triggered entry may report events again. *)
Definition rearmed (evs : Z) (y : poll_fd) : poll_fd := if has (pf_types y) POLL_EDGETRIGGERED then set_pf_triggered (Z.ldiff (pf_triggered y) evs) y else y.

Definition has_pipe (U : gmap Z (Z * bool)) (p : Z) : bool := match U !! p with Some (_, b) => b | None => false end.

Lemma wakeup_loop l evs s : inv (next s) (fsd s) -> NoDup l -> (forall e, e ∈ l -> exists y p, entries (fsd s) !! e = Some y /\ pf_poll y = Some p) ->
  exists w, for_each l (fun e =>
    let! x := get_entry e in let! p := deref (pf_poll x) in
    (if has (pf_types x) POLL_EDGETRIGGERED then upd_entry e (fun x => set_pf_triggered (Z.ldiff (pf_triggered x) evs) x) else ret tt) ;;
    let! y := get_poll p in if p_pipe y then upd_world (fun w => set_notified (notified w ++ [p]) w) else ret tt) s = Ret tt (set_fsd w s) /\
    inv (next s) w /\ polls w = polls (fsd s) /\ (forall e, entries w !! e = if bool_decide (e ∈ l) then rearmed evs <$> entries (fsd s) !! e else entries (fsd s) !! e) /\
    calls w = calls (fsd s) /\ notified w = notified (fsd s) ++ filter (fun p => has_pipe (status (fsd s)) p = true) (owner (fsd s) <$> l).
Proof.
  revert s. induction l as [|e l IH]; intros s I N H; cbn [for_each].
  { exists (fsd s). rewrite set_self. split_and!; try done. cbn. by rewrite app_nil_r. }
  apply NoDup_cons in N as [Ne N]. destruct (H e (list_elem_of_here _ _)) as (y & p & Hy & Hp). destruct (i_live _ _ I _ _ _ Hy Hp) as [x Hx].
  assert (exists nt, let w1 := set_notified nt (set_entries (<[e := rearmed evs y]> (entries (fsd s))) (fsd s)) in (let! x := get_entry e in let! p := deref (pf_poll x) in
    (if has (pf_types x) POLL_EDGETRIGGERED then upd_entry e (fun x => set_pf_triggered (Z.ldiff (pf_triggered x) evs) x) else ret tt) ;;
    let! y := get_poll p in if p_pipe y then upd_world (fun w => set_notified (notified w ++ [p]) w) else ret tt) s = Ret tt (set_fsd w1 s) /\ nt = notified (fsd s) ++ (if p_pipe x then [p] else [])) as (nt & E & Hnt).
  { cbv zeta. rewrite (bind_step _ _ _ _ _ (get_entry_run _ _ _ Hy)), Hp, (bind_step _ _ s p s) by done.
    rewrite (bind_step _ _ s tt (set_fsd (set_entries (<[e := rearmed evs y]> (entries (fsd s))) (fsd s)) s)).
    2: { unfold rearmed. destruct (has _ _); [exact (upd_entry_run e y _ s Hy)|]. rewrite insert_id by done. by destruct s as [[] ? ? ? ? ? ? ?]. }
    erewrite bind_step by (apply get_poll_run; rewrite fsd_is; exact Hx). destruct (p_pipe x); [by eexists|]. exists (notified (fsd s)). rewrite app_nil_r. split; [|done]. by destruct s as [[] ? ? ? ? ? ? ?]. }
  cbv zeta in E. set (w1 := set_notified nt _) in E. rewrite (bind_step _ _ _ _ _ E). assert (inv (next s) w1) as I1.
  { cut (inv (next s) (set_entries (<[e := rearmed evs y]> (entries (fsd s))) (fsd s))); [intros []; by split|]. apply (inv_touch _ _ _ y _ I Hy); unfold rearmed; by destruct (has _ _). }
  destruct (IH (set_fsd w1 s)) as (w & E2 & Iw & Pw & Ew & Cw & Nw); [done..| |].
  - intros d Hd. destruct (H d) as (z & q & Hz & Hq); [by right|]. exists z, q. split; [|done]. cbn. rewrite lookup_insert_ne; [done|]. by intros <-.
  - exists w. rewrite E2. split_and!; [done..| |done|].
    2: { rewrite Nw, fsd_is. cbn [notified w1 set_notified]. rewrite Hnt, <- app_assoc. f_equal. change (status w1) with (status (fsd s)). assert (owner (fsd s) e = p) as Ho by (unfold owner; rewrite Hy; cbn; by rewrite Hp). rewrite fmap_cons, Ho.
      assert (has_pipe (status (fsd s)) p = p_pipe x) as Hb by (unfold has_pipe; by rewrite (status_lookup _ _ _ Hx)). rewrite filter_cons, Hb. assert (owner w1 <$> l = owner (fsd s) <$> l) as ->.
      { apply list_fmap_ext. intros k d Hd. unfold owner. cbn. rewrite lookup_insert_ne; [done|]. intros <-. apply Ne. by apply list_elem_of_lookup_2 in Hd. }
      destruct (p_pipe x); case_decide; done. }
    intros d. rewrite Ew, fsd_is. cbn [w1 entries set_notified set_entries]. destruct (decide (d = e)) as [->|D].
    + rewrite bool_decide_eq_false_2, bool_decide_eq_true_2, lookup_insert_eq, Hy by (done || left). done.
    + rewrite lookup_insert_ne by done. rewrite (bool_decide_ext (d ∈ l) (d ∈ e :: l)); [done|]. rewrite elem_of_cons. naive_solver.
Qed.

Lemma wakeup_run f evs s : inv (next s) (fsd s) -> leaves (poll_wakeup f evs) s (fun _ A' => exists es, watchers (view (fsd s)) f es /\
  A' = mk_astate ((fun l : list item => woken f evs <$> l) <$> view (fsd s)) (status (fsd s)) (calls (fsd s)) (notified (fsd s) ++ filter (fun p => has_pipe (status (fsd s)) p = true) (snd <$> es)) (next s)).
Proof.
  intros I. destruct (i_files _ _ I f) as [N B]. destruct (wakeup_loop (polls_of (fsd s) f) evs s I N) as (w & E & Iw & Pw & Ew & Cw & Nw).
  { intros e (y & Hy & [p Hp] & _)%B. eauto. }
  unfold leaves, poll_wakeup. rewrite (bind_step _ _ s (fsd s) s), E by done. eexists _, _. split; [reflexivity|]. rewrite fsd_is. split; [done|].
  eexists. split; [by eapply watchers_of|]. unfold abs. rewrite fsd_is, Cw, Nw, <- list_fmap_compose, (status_same _ _ Pw). f_equal. unfold view. rewrite Pw, <- map_fmap_compose. apply map_fmap_ext. intros p x Hx. cbn. destruct (i_fds _ _ I _ _ Hx) as [_ C].
  assert (forall e, e ∈ p_fds x -> e ∈ p_fds x) as Hin by done. revert Hin. generalize (p_fds x) at 1 3 4. intros l. induction l as [|e l IH]; [done|]. intros Hin.
  destruct (proj1 (C e) (Hin e (list_elem_of_here _ _))) as (y & Hy & Hp). rewrite (items_cons (fsd s) e y) by done.
  rewrite (items_cons w e (if bool_decide (e ∈ polls_of (fsd s) f) then rearmed evs y else y)) by (rewrite Ew, Hy; by case_bool_decide).
  rewrite fmap_cons. f_equal; [|apply IH; intros d Hd; apply Hin; by right]. unfold woken, rearmed, item_of. destruct (Z.eqb_spec (pf_fd y) f) as [Hf|Hf].
  - rewrite bool_decide_eq_true_2 by (apply B; exists y; rewrite Hp; eauto). cbn. by destruct (has _ _).
  - rewrite bool_decide_eq_false_2; [done|]. intros (y' & Hy' & _ & Hf')%B. congruence.
Qed.

Lemma destroy_entries l p s : forall x, inv (next s) (fsd s) -> polls (fsd s) !! p = Some x -> p_fds x = l ->
  exists w, for_each l (fun e => let! y := get_entry e in poll_unlink p (pf_fd y) e ;; upd_world (fun w => set_entries (delete e (entries w)) w)) s = Ret tt (set_fsd w s) /\
    inv (next s) w /\ (exists z, polls w !! p = Some z /\ p_fds z = [] /\ p_freelist z = p_freelist x) /\ delete p (view w) = delete p (view (fsd s)) /\
    calls w = calls (fsd s) /\ notified w = notified (fsd s) /\ status w = status (fsd s).
Proof.
  revert s. induction l as [|e l IH]; intros s x I Hp El; cbn [for_each]; [exists (fsd s); rewrite set_self; split_and!; try done; by exists x|].
  destruct (i_fds _ _ I _ _ Hp) as [N B]. assert (e ∈ p_fds x) as (y & Hy & Hyp)%B by (rewrite El; left). pose proof (inv_forget _ _ _ _ _ _ I Hp Hy Hyp) as IF.
  assert (filter (fun d => d <> e) (p_fds x) = l) as Hl by (rewrite El in N |- *; by apply (without_middle e [])).
  rewrite (bind_step _ _ s tt (set_fsd (forget p x e (pf_fd y) (fsd s)) s)).
  2: { rewrite (bind_step _ _ _ _ _ (get_entry_run _ _ _ Hy)). unfold poll_unlink, upd_polls_of, bind at 1. rewrite (bind_step _ _ _ _ _ (upd_world_run _ _)). by erewrite upd_poll_run by (rewrite fsd_is; exact Hp). }
  destruct (IH (set_fsd (forget p x e (pf_fd y) (fsd s)) s) (set_p_fds l x)) as (w & E & Iw & Zw & Vw & Cw & Nw & Uw); [done|rewrite fsd_is; cbn; by rewrite lookup_insert_eq, Hl|done|].
  exists w. rewrite E. split_and!; try done; [rewrite Vw, fsd_is, (view_forget _ _ _ _ _ _ _ I Hp Hy Hyp); by rewrite delete_insert_eq|].
  rewrite Uw. by apply (status_upd _ _ p x (set_p_fds (filter (fun d => d <> e) (p_fds x)) x)).
Qed.

Lemma destroy_free l p s : forall x, inv (next s) (fsd s) -> polls (fsd s) !! p = Some x -> p_freelist x = l ->
  exists w, for_each l (fun e => upd_poll p (fun x => set_p_freelist (filter (fun d => d <> e) (p_freelist x)) x) ;; upd_world (fun w => set_entries (delete e (entries w)) w)) s = Ret tt (set_fsd w s) /\
    inv (next s) w /\ (exists z, polls w !! p = Some z /\ p_fds z = p_fds x /\ p_freelist z = []) /\ view w = view (fsd s) /\
    calls w = calls (fsd s) /\ notified w = notified (fsd s) /\ status w = status (fsd s).
Proof.
  revert s. induction l as [|e l IH]; intros s x I Hp El; cbn [for_each]; [exists (fsd s); rewrite set_self; split_and!; try done; by exists x|].
  destruct (i_free _ _ I _ _ Hp) as [N B]. assert (e ∈ p_freelist x) as He by (rewrite El; left). pose proof (inv_take_free _ _ _ _ _ I Hp He) as IF.
  assert (filter (fun d => d <> e) (p_freelist x) = l) as Hl by (rewrite El in N |- *; by apply (without_middle e [])).
  rewrite (bind_step _ _ s tt (set_fsd (take_free p x e (fsd s)) s)) by by rewrite (bind_step _ _ _ _ _ (upd_poll_run _ _ _ _ Hp)).
  destruct (IH (set_fsd (take_free p x e (fsd s)) s) (set_p_freelist l x)) as (w & E & Iw & Zw & Vw & Cw & Nw & Uw); [done|rewrite fsd_is; cbn; by rewrite lookup_insert_eq, Hl|done|].
  exists w. rewrite E. split_and!; try done; [rewrite Vw, fsd_is; by apply (view_take_free (next s))|].
  rewrite Uw. by apply (status_upd _ _ p x (set_p_freelist (filter (fun d => d <> e) (p_freelist x)) x)).
Qed.

Lemma destroy_run p x s : inv (next s) (fsd s) -> polls (fsd s) !! p = Some x ->
  leaves (poll_destroy p) s (fun _ A' => A' = mk_astate (delete p (view (fsd s))) (delete p (status (fsd s))) (calls (fsd s) ++ [Close p]) (notified (fsd s)) (next s)).
Proof.
  intros I Hp. unfold leaves, poll_destroy. rewrite (bind_step _ _ _ _ _ (get_poll_run _ _ _ Hp)).
  destruct (destroy_entries _ p s x I Hp eq_refl) as (w1 & E1 & I1 & (z1 & Hz1 & Hf1 & Hl1) & V1 & C1 & N1 & U1). rewrite (bind_step _ _ _ _ _ E1). clear E1. set (s1 := set_fsd w1 s).
  rewrite (bind_step _ _ s1 z1 s1) by by apply get_poll_run. destruct (destroy_free _ p s1 z1 I1 Hz1 eq_refl) as (w2 & E2 & I2 & (z2 & Hz2 & Hf2 & Hl2) & V2 & C2 & N2 & U2).
  rewrite (bind_step _ _ _ _ _ E2), (bind_step _ _ _ _ _ (host_call_run _ _)), upd_world_run. eexists _, _. split; [reflexivity|]. rewrite !fsd_is. split.
  - apply (inv_delete_poll _ (set_calls _ w2) p z2); [by apply inv_calls|done|by rewrite Hf2|done].
  - unfold s1 in C2, N2, U2. rewrite fsd_is in C2, N2, U2. unfold abs. rewrite !fsd_is. cbn [calls notified set_calls set_polls]. rewrite C2, C1, N2, N1, <- U1, <- U2, <- V1. change w1 with (fsd s1). rewrite <- V2.
    f_equal; [unfold view|unfold status]; cbn; by rewrite fmap_delete.
Qed.

(** ** What a wait reports *)

Section Report.
Context {C : Type} (cb : C -> Z -> Z -> C * Z) (ready : Z -> Z).

Definition reported (i : item) : Z :=
  let '(_, f, t, _, trig) := i in
  let types := Z.land (ready f) (Z.lor (Z.lor t POLL_HUP) POLL_ERR) in
  if has t POLL_EDGETRIGGERED then Z.ldiff types trig else types.
(** The item once it is reported. *)
Definition marked (i : item) : item :=
  let '(e, f, t, info, trig) := i in if has t POLL_EDGETRIGGERED then (e, f, t, info, Z.lor trig (reported i)) else i.
Fixpoint scan_spec (l : list item) (c : C) (res : Z) : C * Z * list item :=
  match l with
  | [] => (c, res, [])
  | i :: l =>
      if reported i =? 0 then let '(c, res, l) := scan_spec l c res in (c, res, i :: l)
      else
        let '(c, r) := cb c (reported i) (snd (fst i)) in
        let '(c, res, l) := scan_spec l c (if r =? 1 then res + 1 else res) in
        (c, res, marked i :: l)
  end.
Definition item_types (i : item) : Z := let '(_, _, t, _, _) := i in t.
Definition lasting (i : item) : Prop := has (item_types i) POLL_ONESHOT = false.
(** Whether a one-shot item reports. *)
Definition fires (i : item) : bool := negb (reported i =? 0) && has (item_types i) POLL_ONESHOT.

(** A look at an entry that reports and is to stay. *)
Lemma report_one p e y l c res s : entries (fsd s) !! e = Some y -> reported (item_of e y) <> 0 -> lasting (item_of e y) ->
  let '(c1, r1) := cb c (reported (item_of e y)) (pf_info y) in
  let z := if has (pf_types y) POLL_EDGETRIGGERED then set_pf_triggered (Z.lor (pf_triggered y) (reported (item_of e y))) y else y in
  scan (fun c t i => ret (cb c t i)) p ready (e :: l) c res s =
    scan (fun c t i => ret (cb c t i)) p ready l c1 (if r1 =? 1 then res + 1 else res) (set_fsd (set_entries (<[e := z]> (entries (fsd s))) (fsd s)) s).
Proof.
  intros Hy E0 Ho. destruct (cb c (reported (item_of e y)) (pf_info y)) as [c1 r1] eqn:Ec. cbv zeta. cbn [scan]. rewrite (bind_step _ _ _ _ _ (get_entry_run _ _ _ Hy)). cbv zeta.
  change (report ready y) with (reported (item_of e y)). rewrite (proj2 (Z.eqb_neq _ _) E0), Ec. rewrite (bind_step _ _ s (c1, r1) s) by done.
  cbn iota beta. unfold lasting in Ho. cbn [item_types item_of] in Ho. rewrite Ho, (bind_step _ _ s tt s), (bind_step _ _ _ _ _ (get_entry_run _ _ _ Hy)) by done.
  erewrite bind_step; [reflexivity|]. destruct (has (pf_types y) POLL_EDGETRIGGERED); [exact (upd_entry_run _ _ _ _ Hy)|]. rewrite insert_id by done. by destruct s as [[] ? ? ? ? ? ? ?].
Qed.

Lemma scan_run p l : forall s c res, inv (next s) (fsd s) -> NoDup l -> (forall e, e ∈ l -> exists y, entries (fsd s) !! e = Some y /\ fires (item_of e y) = false) ->
  exists E, let w := set_entries E (fsd s) in
    scan (fun c t i => ret (cb c t i)) p ready l c res s = Ret (fst (scan_spec (items (fsd s) l) c res)) (set_fsd w s) /\ inv (next s) w /\
    items w l = snd (scan_spec (items (fsd s) l) c res) /\ (forall e, e ∉ l -> E !! e = entries (fsd s) !! e).
Proof.
  induction l as [|e l IH]; intros s c res I N H; [exists (entries (fsd s)); cbv zeta; by destruct s as [[] ? ? ? ? ? ? ?]|]. apply NoDup_cons in N as [Ne N].
  destruct (H e (list_elem_of_here _ _)) as (y & Hy & Ho). rewrite (items_cons _ _ _ _ Hy). cbn [scan_spec]. destruct (Z.eqb_spec (reported (item_of e y)) 0) as [E0|E0].
  - cbn [scan]. rewrite (bind_step _ _ _ _ _ (get_entry_run _ _ _ Hy)). cbv zeta. change (report ready y) with (reported (item_of e y)). rewrite E0. cbn [Z.eqb].
    destruct (IH s c res I N) as (E & Es & Iw & Vw & Ew); [intros d Hd; apply H; by right|]. exists E. rewrite Es. destruct (scan_spec _ _ _) as [[c' r'] l']. cbn [fst snd] in *.
    split_and!; try done; [|intros d Hd; apply Ew; by intros Hd'; apply Hd; right]. rewrite (items_cons _ _ y) by (cbn; by rewrite Ew). by rewrite Vw.
  - assert (lasting (item_of e y)) as Hl by (unfold fires in Ho; by rewrite (proj2 (Z.eqb_neq _ _) E0) in Ho).
    pose proof (report_one p e y l c res s Hy E0 Hl) as Er. change (snd (fst (item_of e y))) with (pf_info y). destruct (cb c (reported (item_of e y)) _) as [c1 r1] eqn:Ec. cbv zeta in Er. rewrite Er. clear Er.
    set (z := if has (pf_types y) POLL_EDGETRIGGERED then _ else y). set (w1 := set_entries (<[e := z]> (entries (fsd s))) (fsd s)).
    assert (inv (next s) w1) as I1 by (apply (inv_touch _ _ _ y _ I Hy); unfold z; by destruct (has (pf_types y) POLL_EDGETRIGGERED)).
    assert (items w1 l = items (fsd s) l) as Hi by (apply items_ext; intros d Hd; cbn; rewrite lookup_insert_ne; [done|]; by intros <-).
    destruct (IH (set_fsd w1 s) c1 (if r1 =? 1 then res + 1 else res) I1 N) as (E & Es & Iw & Vw & Ew).
    { intros d Hd. destruct (H d) as (y' & Hy' & Ho'); [by right|]. exists y'. split; [|done]. cbn. rewrite lookup_insert_ne; [done|]. by intros <-. }
    exists E. cbv zeta in *. change (fsd (set_fsd w1 s)) with w1 in *. rewrite Hi in Es, Vw. rewrite Es. destruct (scan_spec _ _ _) as [[c' r'] l']. cbn [fst snd] in *. split_and!; try done.
    + rewrite (items_cons _ _ z) by (cbn; rewrite Ew by done; cbn; by rewrite lookup_insert_eq). change (set_entries E w1) with (set_entries E (fsd s)) in Vw. rewrite Vw. f_equal.
      unfold z, marked. cbn [item_of]. by destruct (has (pf_types y) POLL_EDGETRIGGERED).
    + intros d Hd. rewrite Ew by (intros Hd'; apply Hd; by right). cbn. rewrite lookup_insert_ne; [done|]. intros <-. apply Hd. left.
Qed.

(** A one-shot entry that reports is read after it is freed. *)
Lemma fires_fault p e y x l c res s : polls (fsd s) !! p = Some x -> entries (fsd s) !! e = Some y -> fires (item_of e y) = true ->
  scan (fun c t i => ret (cb c t i)) p ready (e :: l) c res s = Fault.
Proof.
  intros Hp He [Hr Ho]%andb_prop. cbn [scan]. rewrite (bind_step _ _ _ _ _ (get_entry_run _ _ _ He)). cbv zeta. change (report ready y) with (reported (item_of e y)). rewrite (negb_true_iff _) in Hr. rewrite Hr.
  destruct (cb c (reported (item_of e y)) (pf_info y)) as [c1 r1] eqn:Ec. rewrite (bind_step _ _ s (c1, r1) s) by done. cbn [item_types item_of] in Ho. rewrite Ho. unfold poll_unlink, upd_polls_of.
  set (w1 := set_polls (<[p := set_p_fds (filter (fun d => d <> e) (p_fds x)) x]> (polls (fsd s))) (set_fd_polls (<[pf_fd y := filter (fun d => d <> e) (polls_of (fsd s) (pf_fd y))]> (fd_polls (fsd s))) (fsd s))).
  destruct (update_entry_ok p (pf_fd y) 0 None (set_fsd w1 s)) as (a & cs & Eu).
  rewrite (bind_step _ _ s tt (set_fsd (set_entries (delete e (entries (fsd s))) (set_calls cs w1)) s)).
  2: { erewrite bind_step by (rewrite (bind_step _ _ _ _ _ (upd_world_run _ _)); erewrite upd_poll_run by (rewrite fsd_is; exact Hp); rewrite fsd_is, twice; reflexivity). by rewrite (bind_step _ _ _ _ _ Eu). }
  unfold get_entry, bind, get_world, gets. cbn. by rewrite lookup_delete_eq.
Qed.
Lemma scan_fault p x l : forall s c res, polls (fsd s) !! p = Some x -> NoDup l -> (forall e, e ∈ l -> is_Some (entries (fsd s) !! e)) -> existsb fires (items (fsd s) l) = true ->
  scan (fun c t i => ret (cb c t i)) p ready l c res s = Fault.
Proof.
  induction l as [|e l IH]; intros s c res Hp N H Hf; [done|]. apply NoDup_cons in N as [Ne N]. destruct (H e (list_elem_of_here _ _)) as [y Hy]. rewrite (items_cons _ _ _ _ Hy) in Hf. cbn [existsb] in Hf.
  destruct (fires (item_of e y)) eqn:Ef; [by eapply fires_fault|]. cbn in Hf. destruct (Z.eqb_spec (reported (item_of e y)) 0) as [E0|E0].
  - cbn [scan]. rewrite (bind_step _ _ _ _ _ (get_entry_run _ _ _ Hy)). cbv zeta. change (report ready y) with (reported (item_of e y)). rewrite E0. cbn [Z.eqb]. apply IH; try done. intros d Hd. apply H. by right.
  - assert (lasting (item_of e y)) as Hl by (unfold fires in Ef; by rewrite (proj2 (Z.eqb_neq _ _) E0) in Ef).
    pose proof (report_one p e y l c res s Hy E0 Hl) as Er. destruct (cb c (reported (item_of e y)) _) as [c1 r1]. cbv zeta in Er. rewrite Er. clear Er. apply IH; try done.
    + intros d Hd. cbn. apply lookup_insert_is_Some'. right. apply H. by right.
    + rewrite fsd_is. rewrite (items_ext (fsd s)); [done|]. intros d Hd. cbn. rewrite lookup_insert_ne; [done|]. by intros <-.
Qed.
End Report.

Section Epoll.
Variables (ready : Z -> Z) (max_events : Z).

(** The events that are there to report, and the entries once they are reported. *)
Definition events_of (l : list item) : list (Z * Z) := omap (fun i => if reported ready i =? 0 then None else Some (reported ready i, snd (fst i))) l.
Definition settled (i : item) : item := if reported ready i =? 0 then i else marked ready i.

Lemma epoll_scan l : forall c, 0 < max_events -> Z.of_nat (length c) <= max_events ->
  scan_spec (epoll_callback max_events) ready l c (Z.of_nat (length c)) =
    (take (Z.to_nat max_events) (c ++ events_of l), Z.min max_events (Z.of_nat (length (c ++ events_of l))), settled <$> l).
Proof.
  induction l as [|i l IH]; intros c Hm Hc.
  - cbn. rewrite app_nil_r, take_ge by lia. by rewrite Z.min_r.
  - cbn [scan_spec]. rewrite fmap_cons. unfold events_of, settled at 1. cbn. fold (events_of l). destruct (Z.eqb_spec (reported ready i) 0) as [E|E].
    + by rewrite IH.
    + unfold epoll_callback at 1. destruct (Z.leb_spec max_events (Z.of_nat (length c))).
      * cbn [Z.eqb]. rewrite IH by done. rewrite !take_app_le by lia. rewrite !length_app. cbn [length]. do 2 f_equal. lia.
      * cbn [Z.eqb Pos.eqb]. replace (Z.of_nat (length c) + 1) with (Z.of_nat (length (c ++ [(reported ready i, snd (fst i))]))) by (rewrite length_app; cbn; lia).
        rewrite IH by (rewrite ?length_app; cbn; lia). by rewrite <- app_assoc.
Qed.

(** A reported edge-triggered entry is silent until the file is woken. *)
Lemma settled_silent i : has (item_types i) POLL_EDGETRIGGERED = true -> reported ready (settled i) = 0.
Proof.
  intros H. unfold settled. destruct (Z.eqb_spec (reported ready i) 0) as [E|_]; [done|]. destruct i as [[[[e f] t] info] trig]. cbn in *. rewrite !H. cbn. rewrite H.
  apply Z.bits_inj'. intros n Hn. rewrite Z.ldiff_spec, Z.lor_spec, Z.ldiff_spec, Z.bits_0. by destruct (Z.testbit _ n), (Z.testbit trig n).
Qed.

(** Collecting all events. *)
Lemma collect_scan l : forall (c : list (Z * Z)) res, scan_spec (fun c t i => (c ++ [(t, i)], 1)) ready l c res = (c ++ events_of l, res + Z.of_nat (length (events_of l)), settled <$> l).
Proof.
  induction l as [|i l IH]; intros c res; [cbn; by rewrite app_nil_r, Z.add_0_r|]. cbn [scan_spec]. rewrite fmap_cons. unfold events_of, settled at 1. cbn. fold (events_of l).
  destruct (Z.eqb_spec (reported ready i) 0); rewrite IH; [done|]. cbn [Z.eqb Pos.eqb]. rewrite <- app_assoc. cbn [app length]. do 2 f_equal. lia.
Qed.
End Epoll.

(** *** Events of the host *)

Lemma bind_assoc_fault {A B D} (m : T A) (k : A -> T B) (h : B -> T D) s : bind (bind m k) h s = bind m (fun a => bind (k a) h) s.
Proof. unfold bind. by destruct (m s). Qed.
Lemma s32_small x : - 2 ^ 31 <= x < 2 ^ 31 -> s32 x = x.
Proof. intros H. apply swrap_small; [lia|unfold in_s; lia]. Qed.


(** An event of the host for an item. *)
Definition rearm (i : item) (ev : option Z * Z) : item :=
  let '(e, f, t, info, trig) := i in if bool_decide (fst ev = Some e) && has t POLL_EDGETRIGGERED then (e, f, t, info, Z.ldiff trig (snd ev)) else i.
Definition rearm_all (evs : list (option Z * Z)) (i : item) : item := foldl rearm i evs.

Lemma items_map w E g l : (forall d, d ∈ l -> exists y z, entries w !! d = Some y /\ E !! d = Some z /\ item_of d z = g (item_of d y)) -> items (set_entries E w) l = g <$> items w l.
Proof.
  induction l as [|d l IH]; intros H; [done|]. destruct (H d (list_elem_of_here _ _)) as (y & z & Hy & Hz & Eg). rewrite (items_cons w d y), (items_cons _ d z) by done. rewrite fmap_cons, Eg, IH; [done|].
  intros d' Hd'. apply H. by right.
Qed.
Lemma view_map n w E g : inv n w -> (forall d y p, entries w !! d = Some y -> pf_poll y = Some p -> exists z, E !! d = Some z /\ item_of d z = g (item_of d y)) -> view (set_entries E w) = (fun l : list item => g <$> l) <$> view w.
Proof.
  intros I H. unfold view. cbn [polls set_entries]. rewrite <- map_fmap_compose. apply map_fmap_ext. intros p x Hx. cbn. apply items_map. intros d Hd.
  apply (i_fds _ _ I _ _ Hx) in Hd as (y & Hy & Hp). destruct (H d y p Hy Hp) as (z & Hz & Eg). eauto.
Qed.

Lemma events_run l : forall s, inv (next s) (fsd s) -> (forall e evs, (Some e, evs) ∈ l -> is_Some (entries (fsd s) !! e)) ->
  exists E, let w := set_entries E (fsd s) in retrigger l s = Ret tt (set_fsd w s) /\ inv (next s) w /\ view w = (fun its : list item => rearm_all l <$> its) <$> view (fsd s).
Proof.
  induction l as [|[d evs] l IH]; intros s I H.
  { exists (entries (fsd s)). cbv zeta. assert (set_entries (entries (fsd s)) (fsd s) = fsd s) as -> by (by destruct (fsd s)). rewrite set_self. split_and!; [done..|]. unfold rearm_all. cbn.
    rewrite <- (map_fmap_id (view (fsd s))) at 1. apply map_fmap_ext. intros p its _. cbn. by rewrite list_fmap_id. }
  assert (exists E1, let s1 := set_fsd (set_entries E1 (fsd s)) s in (match d with None => ret tt | Some e => let! x := get_entry e in match pf_poll x with
      | None => ret tt
      | Some _ => if has (pf_types x) POLL_EDGETRIGGERED then upd_entry e (fun x => set_pf_triggered (Z.ldiff (pf_triggered x) evs) x) else ret tt end end) s = Ret tt s1 /\
    inv (next s) (fsd s1) /\ view (fsd s1) = (fun its : list item => (fun i => rearm i (d, evs)) <$> its) <$> view (fsd s) /\ forall e, is_Some (entries (fsd s) !! e) -> is_Some (E1 !! e)) as (E1 & Er & I1 & V1 & G1).
  { assert (forall P : Prop, (set_entries (entries (fsd s)) (fsd s) = fsd s -> P) -> P) as K by (intros P HP; apply HP; by destruct (fsd s)). cbv zeta.
    assert (forall E1, E1 = entries (fsd s) -> (forall i q its, view (fsd s) !! q = Some its -> i ∈ its -> rearm i (d, evs) = i) ->
      inv (next s) (set_entries E1 (fsd s)) /\ view (set_entries E1 (fsd s)) = (fun its : list item => (fun i => rearm i (d, evs)) <$> its) <$> view (fsd s) /\ forall e, is_Some (entries (fsd s) !! e) -> is_Some (E1 !! e)) as Same.
    { intros E1 -> Hi. apply K. intros ->. split_and!; [done| |done]. rewrite <- (map_fmap_id (view (fsd s))) at 1. apply map_fmap_ext. intros q its Hq. cbn. symmetry. rewrite <- (list_fmap_id its) at 2.
      apply list_fmap_ext. intros k i Hk. apply (Hi i q its Hq). by apply list_elem_of_lookup_2 in Hk. }
    destruct d as [e|].
    2: { exists (entries (fsd s)). split; [apply K; intros ->; by rewrite set_self|]. apply Same; [done|]. intros [[[[? ?] ?] ?] ?] _ _ _ _. done. }
    destruct (H e evs (list_elem_of_here _ _)) as [y Hy]. rewrite (bind_step _ _ _ _ _ (get_entry_run _ _ _ Hy)). destruct (pf_poll y) as [p|] eqn:Hp.
    2: { exists (entries (fsd s)). split; [apply K; intros ->; by rewrite set_self|]. apply Same; [done|]. intros i q its (x & Hx & ->)%view_is (d & z & Hd & Hz & ->)%items_elem. cbn.
      rewrite bool_decide_eq_false_2; [done|]. intros [= <-]. revert Hd. eapply not_listed; [done..|congruence]. }
    exists (<[e := rearmed evs y]> (entries (fsd s))). split_and!.
    - unfold rearmed. destruct (has (pf_types y) POLL_EDGETRIGGERED); [exact (upd_entry_run _ _ _ _ Hy)|]. rewrite insert_id by done. apply K. intros ->. by rewrite set_self.
    - apply (inv_touch _ _ _ y _ I Hy); unfold rearmed; by destruct (has _ _).
    - apply (view_map (next s)); [done|]. intros d z q Hz Hq. destruct (decide (d = e)) as [->|D].
      + rewrite lookup_insert_eq. eexists. split; [done|]. assert (z = y) as -> by congruence. unfold rearmed, rearm, item_of. cbn. rewrite bool_decide_eq_true_2 by done. cbn. by destruct (has _ _).
      + rewrite lookup_insert_ne by done. exists z. split; [done|]. cbn. rewrite bool_decide_eq_false_2; [done|]. congruence.
    - intros d Hd. apply lookup_insert_is_Some'. by right. }
  cbv zeta in *. set (s1 := set_fsd (set_entries E1 (fsd s)) s) in *. cbn [retrigger]. rewrite (bind_step _ _ _ _ _ Er). destruct (IH s1 I1) as (E & El & Iw & Vw); [intros e ev He; apply G1, (H e ev); by right|].
  exists E. rewrite El. split_and!; [done..|]. change (set_entries E (fsd s)) with (set_entries E (fsd s1)). rewrite Vw, V1, <- map_fmap_compose. apply map_fmap_ext. intros q its _. cbn. by rewrite <- list_fmap_compose.
Qed.
Lemma events_fault l : forall s, (exists e evs, (Some e, evs) ∈ l /\ entries (fsd s) !! e = None) -> retrigger l s = Fault.
Proof.
  induction l as [|[d evs] l IH]; intros s (e & ev & Hin & He); [by apply not_elem_of_nil in Hin|]. cbn [retrigger].
  assert (forall s1, entries (fsd s1) !! e = None -> (Some e, ev) ∈ l -> retrigger l s1 = Fault) as K by (intros; apply IH; eauto).
  apply elem_of_cons in Hin as [[= <- <-]|Hin]; [apply run_Fault; unfold get_entry, bind, get_world, gets; cbn; by rewrite He|].
  destruct d as [d|]; [|rewrite (bind_step _ _ s tt s) by done; by apply K]. destruct (entries (fsd s) !! d) as [y|] eqn:Hy; [|apply run_Fault; unfold get_entry, bind, get_world, gets; cbn; by rewrite Hy].
  rewrite bind_assoc_fault, (bind_step _ _ _ _ _ (get_entry_run _ _ _ Hy)). destruct (pf_poll y); [destruct (has _ _)|]; [|rewrite (bind_step _ _ s tt s) by done; by apply K..].
  rewrite (bind_step _ _ _ _ _ (upd_entry_run _ _ _ _ Hy)). apply K; [|done]. cbn. rewrite lookup_insert_ne; [done|]. congruence.
Qed.

(** *** The pipe *)

(** What acquiring leaves: the error, the calls, and the poll. *)
Definition acquired (cs : list call) (p : Z) (x : poll) : option Z * list call * poll :=
  if p_waiters x =? 0 then
    match answer cs (Pipe p) with
    | inl e => (Some (err_map e), cs ++ [Pipe p], set_p_waiters 1 x)
    | inr rd => (None, fst (real_told (cs ++ [Pipe p]) p rd POLL_READ None), set_p_pipe true (set_p_waiters 1 x))
    end
  else (None, cs, set_p_waiters (p_waiters x + 1) x).
Definition released (x : poll) : poll := if p_waiters x =? 1 then set_p_pipe false (set_p_waiters 0 x) else set_p_waiters (p_waiters x - 1) x.

Lemma acquire_run p x s : polls (fsd s) !! p = Some x -> (p_waiters x = 0 -> p_pipe x = false) -> - 2 ^ 31 <= p_waiters x < 2 ^ 31 - 1 ->
  let '(a, cs, z) := acquired (calls (fsd s)) p x in
  poll_acquire p s = Ret a (set_fsd (set_calls cs (set_polls (<[p := z]> (polls (fsd s))) (fsd s))) s).
Proof.
  intros Hp Hpi Hw. unfold poll_acquire, acquired. rewrite (bind_step _ _ _ _ _ (get_poll_run _ _ _ Hp)), (bind_step _ _ _ _ _ (upd_poll_run _ _ _ _ Hp)). rewrite s32_small by lia.
  destruct (Z.eqb_spec (p_waiters x) 0) as [E|E]; [|by destruct s as [[] ? ? ? ? ? ? ?]]. rewrite E, Hpi by done. cbn [negb Z.add]. unfold assert. rewrite (bind_step _ _ _ tt _ eq_refl), (bind_step _ _ _ _ _ (host_call_run _ _)).
  rewrite !fsd_is. cbn [calls set_polls]. destruct (answer _ _) as [e|rd]; [done|].
  erewrite bind_step by (apply upd_poll_run; rewrite fsd_is; cbn; apply lookup_insert_eq). rewrite fsd_is, !twice. cbn [polls set_calls set_polls]. rewrite insert_insert_eq.
  set (s1 := set_fsd (set_polls _ _) s). pose proof (real_update_run p rd POLL_READ None s1) as Eu. change (calls (fsd s1)) with (calls (fsd s) ++ [Pipe p]) in Eu. destruct (real_told _ _ _ _ _) as [cs' a].
  by rewrite (bind_step _ _ _ _ _ Eu).
Qed.
Lemma release_run p x s : polls (fsd s) !! p = Some x -> - 2 ^ 31 < p_waiters x < 2 ^ 31 ->
  poll_release p s = Ret tt (set_fsd (set_polls (<[p := released x]> (polls (fsd s))) (fsd s)) s).
Proof.
  intros Hp Hw. unfold poll_release, released. rewrite (bind_step _ _ _ _ _ (upd_poll_run _ _ _ _ Hp)), s32_small by lia.
  erewrite bind_step by (apply get_poll_run; rewrite fsd_is; cbn; apply lookup_insert_eq). cbn [p_waiters set_p_waiters]. destruct (Z.eqb_spec (p_waiters x - 1) 0), (Z.eqb_spec (p_waiters x) 1); try lia; [|done].
  erewrite upd_poll_run by (rewrite fsd_is; cbn; apply lookup_insert_eq). rewrite fsd_is, twice. cbn [polls set_polls]. rewrite insert_insert_eq. by replace (p_waiters x - 1) with 0 by lia.
Qed.
Lemma acquired_keeps cs p x : let '(_, _, z) := acquired cs p x in p_fds z = p_fds x /\ p_freelist z = p_freelist x.
Proof. unfold acquired. destruct (_ =? 0); [destruct (answer _ _)|]; done. Qed.
Lemma released_keeps x : p_fds (released x) = p_fds x /\ p_freelist (released x) = p_freelist x.
Proof. unfold released. by destruct (_ =? 1). Qed.

(** ** The polls as a specification

    Each poll is a list of what it asks for, newest first, with the threads that wait on it.  A wait is a sequence of operations, between which other threads have the lock:
    it acquires the pipe, looks at the entries, takes in the events of the host and looks again, and releases the pipe. *)

Inductive poll_op :=
| Create
| Add (p f types info : Z)
| Del (p f : Z)
| Mod (p f types info : Z)
| Cleanup (f : Z)
| Wakeup (f evs : Z)
| Destroy (p : Z)
| Acquire (p : Z)
| Look (p : Z) (ready : Z -> Z)
| Events (evs : list (option Z * Z))
| Release (p : Z).

(** A result, an error instead of a poll, or the events that were passed to the callback. *)
Inductive reply := Num (r : Z) | Fail (err : Z) | Seen (evs : list (Z * Z)).

(** A callback that keeps all events. *)
Definition collect (c : list (Z * Z)) (types info : Z) : list (Z * Z) * Z := (c ++ [(types, info)], 1).
Definition run_op (o : poll_op) : T reply :=
  match o with
  | Create => let! r := poll_create in ret (match r with inl e => Fail e | inr p => Num p end)
  | Add p f types info => let! r := poll_add_fd p f types info in ret (Num r)
  | Del p f => let! r := poll_del_fd p f in ret (Num r)
  | Mod p f types info => let! r := poll_mod_fd p f types info in ret (Num r)
  | Cleanup f => poll_cleanup_fd f ;; ret (Num 0)
  | Wakeup f evs => poll_wakeup f evs ;; ret (Num 0)
  | Destroy p => poll_destroy p ;; ret (Num 0)
  | Acquire p => let! err := poll_acquire p in ret (match err with Some e => Fail e | None => Num 0 end)
  | Look p ready => let! (c, _) := poll_look (fun c t i => ret (collect c t i)) p ready [] in ret (Seen c)
  | Events evs => retrigger evs ;; ret (Num 0)
  | Release p => poll_release p ;; ret (Num 0)
  end.

(** The poll an operation names. *)
Definition names (o : poll_op) : option Z :=
  match o with Add p _ _ _ | Del p _ | Mod p _ _ _ | Destroy p | Acquire p | Look p _ | Release p => Some p | _ => None end.

(** Changing the items of a poll for a file, where [g] is the change: there is no item for the file, or the host is told about the events of its first item, and either has an error, and
    nothing changes, or has none, and the items change. *)
Inductive change (p f types : Z) (g : list item -> list item) : astate -> Z -> astate -> Prop :=
| change_none V U C N n l : V !! p = Some l -> item_for f l = None -> change p f types g (mk_astate V U C N n) _ENOENT (mk_astate V U C N n)
| change_error V U C N n l i C' err : V !! p = Some l -> item_for f l = Some i -> told C p f types (Some (item_addr i)) = (C', Some err) -> change p f types g (mk_astate V U C N n) err (mk_astate V U C' N n)
| change_done V U C N n l i C' : V !! p = Some l -> item_for f l = Some i -> told C p f types (Some (item_addr i)) = (C', None) -> change p f types g (mk_astate V U C N n) 0 (mk_astate (<[p := g l]> V) U C' N n).

Lemma changed_change s p f t l g r A' : view (fsd s) !! p = Some l -> changed s p f t l g r A' -> change p f t g (abs s) r A'.
Proof.
  intros Hl. unfold changed. destruct (item_for f l) as [i|] eqn:Ei; [|intros [-> ->]; by eapply change_none]. destruct (told _ _ _ _ _) as [cs [err|]] eqn:Et; intros [-> ->]; [by eapply change_error|by eapply change_done].
Qed.

(** One operation on what the polls ask for: [spec o A r A']. *)
Inductive spec : poll_op -> astate -> reply -> astate -> Prop :=
| spec_create_memory A : no_memory (a_next A) = true -> spec Create A (Fail _ENOMEM) A
| spec_create_error V U C N n e : no_memory n = false -> answer C (Epoll_create n) = inl e -> spec Create (mk_astate V U C N n) (Fail (err_map e)) (mk_astate V U (C ++ [Epoll_create n]) N (n + 1))
| spec_create V U C N n v : no_memory n = false -> answer C (Epoll_create n) = inr v ->
    spec Create (mk_astate V U C N n) (Num n) (mk_astate (<[n := []]> V) (<[n := (0, false)]> U) (C ++ [Epoll_create n]) N (n + 1))
| spec_add_memory p f types info A : no_memory (a_next A) = true -> spec (Add p f types info) A (Num _ENOMEM) A
| spec_add_error p f types info V U C N n e n' C' err : new_entry (mk_astate V U C N n) e n' -> told C p f types (Some e) = (C', Some err) ->
    spec (Add p f types info) (mk_astate V U C N n) (Num err) (mk_astate V U C' N n')
| spec_add p f types info V U C N n l e n' C' : V !! p = Some l -> new_entry (mk_astate V U C N n) e n' -> told C p f types (Some e) = (C', None) ->
    spec (Add p f types info) (mk_astate V U C N n) (Num 0) (mk_astate (<[p := (e, f, types, info, 0) :: l]> V) U C' N n')
| spec_del p f A r A' : change p f 0 (del_first f) A r A' -> spec (Del p f) A (Num r) A'
| spec_mod p f types info A r A' : change p f types (mod_first f types info) A r A' -> spec (Mod p f types info) A (Num r) A'
| spec_cleanup f V U C N n es : watchers V f es -> spec (Cleanup f) (mk_astate V U C N n) (Num 0) (mk_astate (filter (not_of f) <$> V) U (C ++ forgets f (snd <$> es)) N n)
| spec_wakeup f evs V U C N n es : watchers V f es ->
    spec (Wakeup f evs) (mk_astate V U C N n) (Num 0) (mk_astate ((fun l : list item => woken f evs <$> l) <$> V) U C (N ++ filter (fun p => has_pipe U p = true) (snd <$> es)) n)
| spec_destroy p V U C N n : is_Some (V !! p) -> spec (Destroy p) (mk_astate V U C N n) (Num 0) (mk_astate (delete p V) (delete p U) (C ++ [Close p]) N n)
| spec_acquire_first p V U C N n rd : U !! p = Some (0, false) -> answer C (Pipe p) = inr rd ->
    spec (Acquire p) (mk_astate V U C N n) (Num 0) (mk_astate V (<[p := (1, true)]> U) (fst (real_told (C ++ [Pipe p]) p rd POLL_READ None)) N n)
| spec_acquire_error p V U C N n e : U !! p = Some (0, false) -> answer C (Pipe p) = inl e ->
    spec (Acquire p) (mk_astate V U C N n) (Fail (err_map e)) (mk_astate V (<[p := (1, false)]> U) (C ++ [Pipe p]) N n)
| spec_acquire p V U C N n k b : U !! p = Some (k, b) -> k <> 0 -> spec (Acquire p) (mk_astate V U C N n) (Num 0) (mk_astate V (<[p := (k + 1, b)]> U) C N n)
| spec_look p ready V U C N n l : V !! p = Some l -> existsb (fires ready) l = false ->
    spec (Look p ready) (mk_astate V U C N n) (Seen (events_of ready l)) (mk_astate (<[p := settled ready <$> l]> V) U C N n)
| spec_events evs V U C N n : spec (Events evs) (mk_astate V U C N n) (Num 0) (mk_astate ((fun l : list item => rearm_all evs <$> l) <$> V) U C N n)
| spec_release p V U C N n k b : U !! p = Some (k, b) -> spec (Release p) (mk_astate V U C N n) (Num 0) (mk_astate V (<[p := (k - 1, if k =? 1 then false else b)]> U) C N n).

(** The pipe of a poll nobody waits on is closed; and how many threads there are. *)
Definition calm (A : astate) : Prop := forall p k b, a_users A !! p = Some (k, b) -> k <= 0 -> b = false.
Definition within (m : Z) (A : astate) : Prop := forall p k b, a_users A !! p = Some (k, b) -> - m <= k <= m.
(** What reads memory that was freed: looking at a one-shot item that reports, and an event of the host for an entry that is gone. *)
Definition crashes (o : poll_op) (w : world) : Prop :=
  match o with
  | Look p ready => exists l, view w !! p = Some l /\ existsb (fires ready) l = true
  | Events evs => exists e ev, (Some e, ev) ∈ evs /\ entries w !! e = None
  | _ => False
  end.

Lemma spec_users o A r A' : spec o A r A' -> calm A -> calm A' /\ forall m, 0 <= m -> within m A -> within (m + 1) A'.
Proof.
  assert (forall (U : gmap Z (Z * bool)) p k b, (forall q j c, U !! q = Some (j, c) -> j <= 0 -> c = false) -> (k <= 0 -> b = false) -> forall q j c, <[p := (k, b)]> U !! q = Some (j, c) -> j <= 0 -> c = false) as K1.
  { intros U p k b H Hk q j c. destruct (decide (p = q)) as [<-|D]; [rewrite lookup_insert_eq; by intros [= <- <-]|rewrite lookup_insert_ne by done; apply H]. }
  assert (forall (U : gmap Z (Z * bool)) m p k b, (forall q j c, U !! q = Some (j, c) -> - m <= j <= m) -> - (m + 1) <= k <= m + 1 -> forall q j c, <[p := (k, b)]> U !! q = Some (j, c) -> - (m + 1) <= j <= m + 1) as K2.
  { intros U m p k b H Hk q j c. destruct (decide (p = q)) as [<-|D]; [rewrite lookup_insert_eq; by intros [= <- <-]|]. rewrite lookup_insert_ne by done. intros Hq. specialize (H _ _ _ Hq). lia. }
  assert (forall B : astate, a_users B = a_users A -> calm A -> calm B /\ forall m, 0 <= m -> within m A -> within (m + 1) B) as Same.
  { unfold calm, within. intros B -> H. split; [done|]. intros m Hm Hw q j c Hq. specialize (Hw _ _ _ Hq). lia. }
  intros S. destruct S; try (apply Same; done); try (destruct H; apply Same; done); unfold calm, within in *; cbn in *; intros HC.
  - split; [apply K1; done|]. intros m Hm Hw. apply K2; [done|lia].
  - split; [intros q j c [_ Hq]%lookup_delete_Some; eauto|]. intros m Hm Hw q j c [_ Hq]%lookup_delete_Some. specialize (Hw _ _ _ Hq). lia.
  - split; [apply K1; [done|lia]|]. intros m Hm Hw. apply K2; [done|lia].
  - split; [apply K1; [done|lia]|]. intros m Hm Hw. apply K2; [done|lia].
  - split; [apply K1; [done|]; intros Hk; apply (HC _ _ _ H); lia|]. intros m Hm Hw. specialize (Hw _ _ _ H) as Hk. apply K2; [done|lia].
  - split; [apply K1; [done|]; intros Hk; destruct (Z.eqb_spec k 1); [done|]; apply (HC _ _ _ H); lia|]. intros m Hm Hw. specialize (Hw _ _ _ H) as Hk. apply K2; [done|lia].
Qed.

(** A change of the counters of a poll. *)
Lemma poll_fields_abs p x z cs s : inv (next s) (fsd s) -> polls (fsd s) !! p = Some x -> p_fds z = p_fds x -> p_freelist z = p_freelist x ->
  let s' := set_fsd (set_calls cs (set_polls (<[p := z]> (polls (fsd s))) (fsd s))) s in
  inv (next s') (fsd s') /\ abs s' = mk_astate (view (fsd s)) (<[p := (p_waiters z, p_pipe z)]> (status (fsd s))) cs (notified (fsd s)) (next s).
Proof.
  intros I Hp H1 H2 s'. unfold s'. rewrite next_is, fsd_is, inv_calls. split; [by apply (inv_poll_fields _ _ p x)|]. unfold abs. rewrite fsd_is, view_calls, (view_fields _ p x) by done. f_equal. unfold status. cbn. by rewrite fmap_insert.
Qed.

Lemma run_op_spec o s m : inv (next s) (fsd s) -> calm (abs s) -> within m (abs s) -> m < 2 ^ 31 - 1 -> (forall p, names o = Some p -> is_Some (view (fsd s) !! p)) ->
  (run_op o s = Fault /\ crashes o (fsd s)) \/ exists r s', run_op o s = Ret r s' /\ inv (next s') (fsd s') /\ spec o (abs s) r (abs s').
Proof.
  intros I HC Hw Hm Hn. assert (forall p, names o = Some p -> exists x, polls (fsd s) !! p = Some x /\ view (fsd s) !! p = Some (items (fsd s) (p_fds x)) /\ status (fsd s) !! p = Some (p_waiters x, p_pipe x)) as K.
  { intros p [l (x & Hx & _)%view_is]%Hn. exists x. split; [done|]. split; [by apply shown_lookup|by apply status_lookup]. }
  destruct o as [|p f t i|p f|p f t i|f|f evs|p|p|p ready|evs|p]; cbn [run_op]; try (destruct (K p eq_refl) as (x & Hx & Hv & Hu)).
  - right. destruct (create_run s I) as (r & s' & E & I' & H). rewrite (bind_step _ _ _ _ _ E). eexists _, _. split; [reflexivity|split; [done|]]. cbv zeta in H. destruct (no_memory (next s)) eqn:Em.
    + destruct H as [-> ->]. by apply spec_create_memory.
    + destruct (answer _ _) eqn:Ea; destruct H as [-> ->]; [by apply spec_create_error|by eapply spec_create].
  - right. destruct (add_run p x f t i s I Hx) as (r & s' & E & I' & H). rewrite (bind_step _ _ _ _ _ E). eexists _, _. split; [reflexivity|split; [done|]].
    destruct H as [(-> & Em & ->)|(e & n & cs & a & Hnew & Et & H)]; [by apply spec_add_memory|]. destruct a as [err|]; destruct H as [-> ->]; [by eapply spec_add_error|by eapply spec_add].
  - right. destruct (del_run p x f s I Hx) as (r & s' & E & I' & H). rewrite (bind_step _ _ _ _ _ E). eexists _, _. split; [reflexivity|split; [done|]]. apply spec_del. by eapply changed_change.
  - right. destruct (mod_run p x f t i s I Hx) as (r & s' & E & I' & H). rewrite (bind_step _ _ _ _ _ E). eexists _, _. split; [reflexivity|split; [done|]]. apply spec_mod. by eapply changed_change.
  - right. destruct (cleanup_run f s I) as (r & s' & E & I' & es & Hes & Hv'). rewrite (bind_step _ _ _ _ _ E). eexists _, _. split; [reflexivity|split; [done|]]. rewrite Hv'. by apply spec_cleanup.
  - right. destruct (wakeup_run f evs s I) as (r & s' & E & I' & es & Hes & Hv'). rewrite (bind_step _ _ _ _ _ E). eexists _, _. split; [reflexivity|split; [done|]]. rewrite Hv'. by apply spec_wakeup.
  - right. destruct (destroy_run p x s I Hx) as (r & s' & E & I' & Hv'). rewrite (bind_step _ _ _ _ _ E). eexists _, _. split; [reflexivity|split; [done|]]. rewrite Hv'. apply spec_destroy. rewrite Hv. eauto.
  - right. pose proof (Hw _ _ _ Hu) as Hk. pose proof (HC _ _ _ Hu) as Hpi. pose proof (acquire_run p x s Hx ltac:(intros E0; apply Hpi; lia) ltac:(lia)) as E. pose proof (acquired_keeps (calls (fsd s)) p x) as Hkeep.
    destruct (acquired (calls (fsd s)) p x) as [[a cs] z] eqn:Ea. destruct Hkeep as [H1 H2]. destruct (poll_fields_abs p x z cs s I Hx H1 H2) as [I' A']. rewrite (bind_step _ _ _ _ _ E). eexists _, _. split; [reflexivity|split; [done|]].
    rewrite A'. unfold acquired in Ea. destruct (Z.eqb_spec (p_waiters x) 0) as [E0|E0]; [|injection Ea as <- <- <-; by apply spec_acquire]. rewrite E0, Hpi in Hu by lia.
    destruct (answer _ _) eqn:Ean; injection Ea as <- <- <-; cbn [p_waiters p_pipe set_p_waiters set_p_pipe]; [rewrite Hpi by lia; by apply spec_acquire_error|by eapply spec_acquire_first].
  - unfold poll_look. destruct (i_fds _ _ I _ _ Hx) as [N B]. destruct (existsb (fires ready) (items (fsd s) (p_fds x))) eqn:Ef.
    + left. split; [|by eexists]. apply run_Fault. rewrite (bind_step _ _ _ _ _ (get_poll_run _ _ _ Hx)). eapply scan_fault; [done..| |done]. intros e (y & Hy & _)%B. eauto.
    + right. destruct (scan_run collect ready p (p_fds x) s [] 0 I N) as (E & Es & Iw & Vw & Ew).
      { intros e He. destruct (proj1 (B e) He) as (y & Hy & _). exists y. split; [done|]. apply not_true_is_false. intros Hfi. apply not_true_iff_false in Ef. apply Ef. apply existsb_exists. exists (item_of e y). split; [|done].
        apply list_elem_of_In, list_elem_of_omap. exists e. by rewrite Hy. }
      unfold collect in Es, Vw. rewrite collect_scan in Es, Vw. cbn [fst snd app] in *. erewrite bind_step by (rewrite (bind_step _ _ _ _ _ (get_poll_run _ _ _ Hx)); exact Es). eexists _, _. split; [reflexivity|]. split; [done|].
      unfold abs. rewrite fsd_is, (view_update _ (fsd s) (set_entries E (fsd s)) p x I), Vw; [by apply spec_look|by cbn; rewrite insert_id|]. intros q z e D Hq He. cbn. rewrite Ew; [done|].
      apply (i_fds _ _ I _ _ Hq) in He as (y & Hy & Hyq). apply (other_poll _ _ q p _ _ _ I Hy Hyq Hx). congruence.
  - destruct (existsb (fun ev => match fst ev with Some e => bool_decide (entries (fsd s) !! e = None) | None => false end) evs) eqn:Ee.
    + left. apply existsb_exists in Ee as ([[e|] ev] & Hin%list_elem_of_In & Hb); [|done]. apply bool_decide_eq_true in Hb. split; [apply run_Fault, events_fault; eauto|by exists e, ev].
    + right. destruct (events_run evs s I) as (E & Er & Iw & Vw).
      { intros e ev Hin. destruct (entries (fsd s) !! e) eqn:Ey; [eauto|]. apply not_true_iff_false in Ee. destruct Ee. apply existsb_exists. exists (Some e, ev). split; [by apply list_elem_of_In|]. by apply bool_decide_eq_true. }
      rewrite (bind_step _ _ _ _ _ Er). eexists _, _. split; [reflexivity|split; [done|]]. unfold abs. rewrite fsd_is, Vw. apply spec_events.
  - right. pose proof (Hw _ _ _ Hu) as Hk. pose proof (release_run p x s Hx ltac:(lia)) as E. rewrite (bind_step _ _ _ _ _ E). destruct (released_keeps x) as [H1 H2].
    destruct (poll_fields_abs p x (released x) (calls (fsd s)) s I Hx H1 H2) as [I' A']. eexists _, _. split; [reflexivity|].
    assert (set_fsd (set_polls (<[p := released x]> (polls (fsd s))) (fsd s)) s = set_fsd (set_calls (calls (fsd s)) (set_polls (<[p := released x]> (polls (fsd s))) (fsd s))) s) as -> by done.
    split; [done|]. rewrite A'. replace (p_waiters (released x), p_pipe (released x)) with (p_waiters x - 1, if p_waiters x =? 1 then false else p_pipe x); [by apply spec_release|].
    unfold released. destruct (Z.eqb_spec (p_waiters x) 1) as [->|]; done.
Qed.

Fixpoint runs (ops : list poll_op) : T (list reply) :=
  match ops with
  | [] => ret []
  | o :: ops => let! r := run_op o in let! rs := runs ops in ret (r :: rs)
  end.

Inductive history : astate -> list poll_op -> list reply -> astate -> Prop :=
| history_nil A : history A [] [] A
| history_cons A o r A1 ops rs A2 : spec o A r A1 -> history A1 ops rs A2 -> history A (o :: ops) (r :: rs) A2.

(** Operations in any order, on any polls, either run, leave the lists right, and do what the specification says, or one names a poll that is not there or reads memory that was freed. *)
Lemma runs_spec ops : forall s m, inv (next s) (fsd s) -> calm (abs s) -> 0 <= m -> within m (abs s) -> m + Z.of_nat (length ops) < 2 ^ 31 ->
  (exists rs s', runs ops s = Ret rs s' /\ inv (next s') (fsd s') /\ history (abs s) ops rs (abs s')) \/
  (exists before o after rs s', ops = before ++ o :: after /\ runs before s = Ret rs s' /\ history (abs s) before rs (abs s') /\
    ((exists p, names o = Some p /\ polls (fsd s') !! p = None) \/ (crashes o (fsd s') /\ runs ops s = Fault))).
Proof.
  induction ops as [|o ops IH]; intros s m I HC Hm0 Hw Hm; [left; eexists _, _; split_and!; [reflexivity|done|constructor]|]. cbn [length] in Hm.
  assert ((forall p, names o = Some p -> is_Some (view (fsd s) !! p)) \/ exists p, names o = Some p /\ polls (fsd s) !! p = None) as [Hn|(p & Eo & Ep)].
  { destruct (names o) as [p|]; [destruct (polls (fsd s) !! p) as [x|] eqn:Ep|]; [left; intros q [= <-]; rewrite (shown_lookup _ _ _ Ep); eauto|right; eauto|by left]. }
  2: { right. exists [], o, ops, [], s. split_and!; [done..|constructor|]. left. eauto. }
  destruct (run_op_spec o s m I HC Hw ltac:(lia) Hn) as [[E Hc]|(r & s1 & E & I1 & S)].
  { right. exists [], o, ops, [], s. split_and!; [done..|constructor|]. right. split; [done|]. cbn [runs]. by apply run_Fault. }
  destruct (spec_users _ _ _ _ S HC) as [HC1 Hw1]. destruct (IH s1 (m + 1) I1 HC1 ltac:(lia) (Hw1 m Hm0 Hw) ltac:(lia)) as [(rs & s2 & E2 & I2 & H)|(before & o' & after & rs & s2 & -> & E2 & H & Hp)].
  - left. exists (r :: rs), s2. cbn [runs]. rewrite (bind_step _ _ _ _ _ E), (bind_step _ _ _ _ _ E2). split_and!; [done..|]. by econstructor.
  - right. exists (o :: before), o', after, (r :: rs), s2. cbn [runs]. rewrite !(bind_step _ _ _ _ _ E), (bind_step _ _ _ _ _ E2). split_and!; [done..|by econstructor|]. destruct Hp as [Hp|[Hc Ef]]; [by left|right]. split; [done|].
    by apply run_Fault.
Qed.

(** *** A wait as a sequence of operations *)

(** A round of a wait in which the other threads do operations while the lock is released. *)
Record wait_round := mk_wait_round {
  t_ready : Z -> Z;
  t_signal : bool;
  t_ops : list poll_op;
  t_result : Z + list (option Z * Z);
  t_read : option Z }.
Definition round_of (t : wait_round) : round := mk_round (t_ready t) (t_signal t) (runs (t_ops t) ;; ret (t_result t)) (t_read t).
(** The operations of the rounds: the wait ends when it has looked, when the host's poll returned nothing, or when the events were taken in. *)
Inductive waiting (p : Z) : list wait_round -> list poll_op -> Prop :=
| waiting_looked t ts : waiting p (t :: ts) [Look p (t_ready t)]
| waiting_slept t ts : waiting p (t :: ts) (Look p (t_ready t) :: t_ops t)
| waiting_taken t ts evs : t_result t = inr evs -> waiting p (t :: ts) (Look p (t_ready t) :: t_ops t ++ [Events evs])
| waiting_again t ts evs ops : t_result t = inr evs -> waiting p ts ops -> waiting p (t :: ts) (Look p (t_ready t) :: t_ops t ++ Events evs :: ops).

Lemma runs_app ops ops' s rs s1 rs' s2 : runs ops s = Ret rs s1 -> runs ops' s1 = Ret rs' s2 -> runs (ops ++ ops') s = Ret (rs ++ rs') s2.
Proof.
  revert s rs. induction ops as [|o ops IH]; intros s rs E E'; [injection E as <- <-; done|]. cbn [app runs] in *. unfold bind in *. destruct (run_op o s) as [r s3| | |]; try done.
  destruct (runs ops s3) as [rs3 s4| | |] eqn:E3; try done. injection E as <- <-. by rewrite (IH _ _ E3 E').
Qed.
Lemma runs_cons o ops s r s1 rs s2 : run_op o s = Ret r s1 -> runs ops s1 = Ret rs s2 -> runs (o :: ops) s = Ret (r :: rs) s2.
Proof. intros E E'. cbn [runs]. by rewrite (bind_step _ _ _ _ _ E), (bind_step _ _ _ _ _ E'). Qed.
Lemma bind_each {A B} (m : T A) (k k' : A -> T B) s : (forall a s', k a s' = k' a s') -> bind m k s = bind m k' s.
Proof. intros H. unfold bind. by destruct (m s). Qed.
Lemma bind_ret {A B} (a : A) (k : A -> T B) s : bind (ret a) k s = k a s.
Proof. done. Qed.
(** What is collected already does not matter. *)
Lemma scan_from p ready l : forall c res s,
  scan (fun c t i => ret (collect c t i)) p ready l c res s = (let! (c', n) := scan (fun c t i => ret (collect c t i)) p ready l [] 0 in ret (c ++ c', res + n)) s.
Proof.
  induction l as [|e l IH]; intros c res s; cbn [scan]; [rewrite bind_ret; cbn; by rewrite app_nil_r, Z.add_0_r|]. rewrite bind_assoc_fault. apply bind_each. intros x s1. cbv zeta. destruct (_ =? 0); [apply IH|].
  rewrite bind_assoc_fault, !bind_ret. unfold collect at 1 3. cbn [Z.eqb Pos.eqb app]. rewrite bind_assoc_fault. apply bind_each. intros _ s2. rewrite bind_assoc_fault. apply bind_each. intros y s3.
  rewrite bind_assoc_fault. apply bind_each. intros _ s4. rewrite (IH (c ++ _)). unfold bind at 2. rewrite (IH [_]). unfold bind. destruct (scan _ p ready l [] 0 s4) as [[c' n] s5| | |]; try done. cbn. rewrite <- app_assoc. cbn. f_equal. f_equal. lia.
Qed.
Lemma loop_is_operations p ts : forall c s r s', poll_loop (fun c t i => ret (collect c t i)) (round_of <$> ts) p c s = Ret r s' -> exists ops rs, waiting p ts ops /\ runs ops s = Ret rs s'.
Proof.
  induction ts as [|t ts IH]; intros c s r s' E; [done|]. rewrite fmap_cons in E. cbn [poll_loop] in E. unfold bind at 1 in E. cbn [r_ready r_signal r_wait r_read round_of] in E.
  destruct (poll_look _ p (t_ready t) c s) as [[c1 n] s1| | |] eqn:E1; try done. assert (exists rl, run_op (Look p (t_ready t)) s = Ret rl s1) as [rl El].
  { cbn [run_op]. unfold poll_look, bind in *. destruct (get_poll p s) as [x s0| | |]; try done. rewrite scan_from in E1. unfold bind in E1. destruct (scan _ p (t_ready t) (p_fds x) [] 0 s0) as [[c0 n0] s2| | |]; try done. injection E1 as <- <- <-. by eexists. }
  assert (runs [Look p (t_ready t)] s = Ret [rl] s1) as E0 by (by eapply runs_cons).
  destruct (0 <? n); [injection E as <- <-; eexists _, _; split; [apply waiting_looked|done]|]. destruct (t_signal t); [injection E as <- <-; eexists _, _; split; [apply waiting_looked|done]|].
  unfold bind at 1 2 in E. destruct (runs (t_ops t) s1) as [rs1 s2| | |] eqn:E2; try done. cbn in E. assert (runs (Look p (t_ready t) :: t_ops t) s = Ret (rl :: rs1) s2) as E3 by (by eapply runs_cons).
  destruct (t_result t) as [e|[|ev evs]] eqn:Er; [injection E as <- <-; eexists _, _; split; [apply waiting_slept|done]|injection E as <- <-; eexists _, _; split; [apply waiting_slept|done]|].
  unfold bind at 1 in E. destruct (retrigger (ev :: evs) s2) as [[] s3| | |] eqn:E4; try done. assert (run_op (Events (ev :: evs)) s2 = Ret (Num 0) s3) as E5 by (cbn [run_op]; by rewrite (bind_step _ _ _ _ _ E4)).
  destruct (t_read t) as [e|].
  - injection E as <- <-. eexists _, _. split; [by apply waiting_taken|]. eapply (runs_app (Look p (t_ready t) :: t_ops t)); [exact E3|]. by eapply runs_cons.
  - destruct (IH _ _ _ _ E) as (ops & rs & Hw & Hr). eexists _, _. split; [by eapply waiting_again|]. eapply (runs_app (Look p (t_ready t) :: t_ops t)); [exact E3|]. by eapply runs_cons.
Qed.
(** A wait that returns did the operations of its rounds, between acquiring and releasing the pipe, or it could not make the pipe. *)
Lemma wait_is_operations ts p s r s' : poll_wait (fun c t i => ret (collect c t i)) (round_of <$> ts) p [] s = Ret r s' ->
  exists ops rs, runs ops s = Ret rs s' /\ (ops = [Acquire p] \/ exists mid, waiting p ts mid /\ ops = Acquire p :: mid ++ [Release p]).
Proof.
  unfold poll_wait. intros E. unfold bind at 1 in E. destruct (poll_acquire p s) as [a s1| | |] eqn:E1; try done.
  assert (exists ra, run_op (Acquire p) s = Ret ra s1) as [ra Ea] by (cbn [run_op]; rewrite (bind_step _ _ _ _ _ E1); by eexists).
  destruct a as [e|]; [injection E as <- <-; exists [Acquire p], [ra]; split; [by eapply runs_cons|by left]|].
  unfold bind at 1 in E. destruct (poll_loop _ _ p [] s1) as [[c n] s2| | |] eqn:E2; try done. destruct (loop_is_operations _ _ _ _ _ _ E2) as (mid & rs & Hw & Hr).
  unfold bind in E. destruct (poll_release p s2) as [[] s3| | |] eqn:E3; try done. injection E as <- <-. eexists (Acquire p :: mid ++ [Release p]), _. split; [|right; eauto].
  eapply runs_cons; [exact Ea|]. eapply runs_app; [exact Hr|]. eapply (runs_cons (Release p) []); [|done]. cbn [run_op]. by rewrite (bind_step _ _ _ _ _ E3).
Qed.

(** ** A wait that finds something ready *)

(** A host that does not fail. *)
Definition willing : Prop := forall cs c e, answer cs c <> inl e.

Lemma wait_ready {C} (cb : C -> Z -> Z -> C * Z) ready p x r rounds c s : inv (next s) (fsd s) -> polls (fsd s) !! p = Some x -> p_waiters x = 0 -> p_pipe x = false -> willing -> Forall lasting (items (fsd s) (p_fds x)) -> r_ready r = ready ->
  0 < snd (fst (scan_spec cb ready (items (fsd s) (p_fds x)) c 0)) ->
  exists w, poll_wait (fun c t i => ret (cb c t i)) (r :: rounds) p c s = Ret (fst (scan_spec cb ready (items (fsd s) (p_fds x)) c 0)) (set_fsd w s) /\ inv (next s) w /\ polls w = polls (fsd s) /\ epolls w = epolls (fsd s) /\
    view w = <[p := snd (scan_spec cb ready (items (fsd s) (p_fds x)) c 0)]> (view (fsd s)).
Proof.
  intros I Hp Hw Hpi W Hl Hr Hres. unfold poll_wait. pose proof (acquire_run p x s Hp ltac:(done) ltac:(rewrite Hw; lia)) as Ea. unfold acquired in Ea. rewrite Hw in Ea. cbn [Z.eqb] in Ea.
  destruct (answer (calls (fsd s)) (Pipe p)) as [?|rd] eqn:En; [by destruct (W _ _ _ En)|]. rewrite (bind_step _ _ _ _ _ Ea). clear Ea. set (cs := fst _). set (x2 := set_p_pipe true (set_p_waiters 1 x)).
  destruct (poll_fields_abs p x x2 cs s I Hp eq_refl eq_refl) as [I2 _]. set (s2 := set_fsd (set_calls cs _) s) in *.
  assert (polls (fsd s2) !! p = Some x2) as Hp2 by (cbn; apply lookup_insert_eq). destruct (i_fds _ _ I _ _ Hp) as [N B].
  destruct (scan_run cb ready p (p_fds x) s2 c 0 I2 N) as (E & E3 & I3 & V3 & F3).
  { intros e He. destruct (proj1 (B e) He) as (y & Hy & _). exists y. split; [done|]. unfold fires. rewrite Forall_elem in Hl. assert (lasting (item_of e y)) as Hy' by (apply Hl, list_elem_of_omap; exists e; by rewrite Hy).
    unfold lasting in Hy'. rewrite Hy'. apply andb_false_r. }
  change (items (fsd s2) (p_fds x)) with (items (fsd s) (p_fds x)) in *. cbv zeta in *. destruct (scan_spec _ _ _ _ _) as [[c' res] l'] eqn:Es. cbn [fst snd] in *. set (s3 := set_fsd (set_entries E (fsd s2)) s2) in *.
  rewrite (bind_step _ _ s2 (c', res) s3).
  2: { cbn [poll_loop]. unfold poll_look. rewrite Hr. erewrite bind_step by (rewrite (bind_step _ _ _ _ _ (get_poll_run _ _ _ Hp2)); exact E3). cbn iota beta. by rewrite (proj2 (Z.ltb_lt 0 res) Hres). }
  cbn iota beta. assert (polls (fsd s3) !! p = Some x2) as Hp3 by exact Hp2. rewrite (bind_step _ _ _ _ _ (release_run p x2 s3 Hp3 ltac:(cbn; lia))). destruct (released_keeps x2) as [Hk1 Hk2].
  destruct (poll_fields_abs p x2 (released x2) cs s3 I3 Hp3 Hk1 Hk2) as [I4 _].
  assert (<[p := released x2]> (polls (fsd s3)) = polls (fsd s)) as P. { cbn. rewrite insert_insert_eq. apply insert_id. rewrite Hp. f_equal. destruct x. cbn in *. by subst. }
  eexists. split; [reflexivity|]. split; [exact I4|]. split; [exact P|]. split; [done|].
  rewrite (view_update _ (fsd s) _ p x I).
  - f_equal. rewrite <- V3. by apply items_ext.
  - cbn [polls set_polls]. by rewrite P, insert_id.
  - intros q z e D Hq He. cbn. rewrite F3; [done|]. apply (i_fds _ _ I _ _ Hq) in He as (y & Hy & Hyq). apply (other_poll _ _ q p _ _ _ I Hy Hyq Hp). congruence.
Qed.

Lemma wait_epoll p x r rounds max_events s : inv (next s) (fsd s) -> polls (fsd s) !! p = Some x -> p_waiters x = 0 -> p_pipe x = false -> willing -> Forall lasting (items (fsd s) (p_fds x)) -> 0 < max_events ->
  events_of (r_ready r) (items (fsd s) (p_fds x)) <> [] ->
  exists w, poll_wait (fun c types info => ret (epoll_callback max_events c types info)) (r :: rounds) p [] s =
      Ret (take (Z.to_nat max_events) (events_of (r_ready r) (items (fsd s) (p_fds x))), Z.min max_events (Z.of_nat (length (events_of (r_ready r) (items (fsd s) (p_fds x)))))) (set_fsd w s) /\
    inv (next s) w /\ view w = <[p := settled (r_ready r) <$> items (fsd s) (p_fds x)]> (view (fsd s)).
Proof.
  intros I Hp Hw Hpi W Hl Hm He. pose proof (epoll_scan (r_ready r) max_events (items (fsd s) (p_fds x)) [] Hm ltac:(cbn; lia)) as Es. cbn [length app] in Es. change (Z.of_nat 0) with 0 in Es.
  destruct (wait_ready (epoll_callback max_events) (r_ready r) p x r rounds [] s I Hp Hw Hpi W Hl eq_refl) as (w & E & Iw & _ & _ & V).
  - rewrite Es. cbn. destruct (events_of _ _); [done|]. cbn. lia.
  - rewrite Es in E, V. by exists w.
Qed.

(** ** Entries are not freed while the host may have events for them *)

(** Every entry there was is still there. *)
Definition grows {A} (m : T A) : Prop := forall s r s', m s = Ret r s' -> forall e, is_Some (entries (fsd s) !! e) -> is_Some (entries (fsd s') !! e).

Lemma grows_bind {A B} (m : T A) (k : A -> T B) : grows m -> (forall a, grows (k a)) -> grows (bind m k).
Proof. intros Hm Hk s r s' E e He. unfold bind in E. destruct (m s) as [a s1| | |] eqn:E1; try done. eapply Hk; [done|]. by eapply Hm. Qed.
Lemma grows_ret {A} (a : A) : grows (ret a).
Proof. by intros s r s' [= _ <-]. Qed.
Lemma grows_gets {A} (f : vfs world -> A) : grows (gets f).
Proof. by intros s r s' [= _ <-]. Qed.
Lemma grows_deref {A} (o : option A) : grows (deref o).
Proof. destruct o; [apply grows_ret|by intros s r s' [=]]. Qed.
Lemma grows_malloc : grows malloc.
Proof. by intros s r s' [= _ <-]. Qed.
Lemma grows_world g : (forall w e, is_Some (entries w !! e) -> is_Some (entries (g w) !! e)) -> grows (upd_world g).
Proof. intros H s r s' [= _ <-] e He. cbn. by apply H. Qed.
Lemma grows_entry e g : grows (upd_entry e g).
Proof.
  unfold upd_entry. apply grows_bind; [apply grows_bind; [apply grows_gets|intros; apply grows_deref]|]. intros y. apply grows_world. intros w d Hd. cbn.
  rewrite lookup_insert_is_Some. destruct (decide (e = d)); [by left|by right].
Qed.
Lemma grows_poll p g : grows (upd_poll p g).
Proof. unfold upd_poll. apply grows_bind; [apply grows_bind; [apply grows_gets|intros; apply grows_deref]|]. intros y. by apply grows_world. Qed.
Lemma grows_each {A} (l : list A) f : (forall a, grows (f a)) -> grows (for_each l f).
Proof. intros H. induction l; [apply grows_ret|]. by apply grows_bind. Qed.
Lemma grows_host c : grows (host_call c).
Proof. apply grows_bind; [apply grows_gets|]. intros w. apply grows_bind; [by apply grows_world|intros; apply grows_ret]. Qed.
Lemma grows_update p f t d : grows (update_entry p f t d).
Proof.
  intros s r s' E e He. destruct (update_entry_ok p f t d s) as (a & cs & E'). rewrite E' in E. by injection E as <- <-.
Qed.
Lemma grows_find p f : grows (poll_find_fd p f).
Proof.
  apply grows_bind; [apply grows_bind; [apply grows_gets|intros; apply grows_deref]|]. intros x. induction (p_fds x) as [|e l IH]; [apply grows_ret|]. cbn.
  apply grows_bind; [apply grows_bind; [apply grows_gets|intros; apply grows_deref]|]. intros y. destruct (_ =? _); [apply grows_ret|done].
Qed.
Ltac grow := repeat first [apply grows_ret | apply grows_gets | apply grows_deref | apply grows_malloc | apply grows_entry | apply grows_poll | apply grows_host | apply grows_update | apply grows_find
  | apply grows_world; intros ? ? ?; cbn; first [done | rewrite lookup_insert_is_Some'; by right] | apply grows_bind; [|intros ?] | apply grows_each; intros ? | case_match].

Lemma update_willing p f t d s : willing -> exists cs, update_entry p f t d s = Ret None (set_fsd (set_calls cs (fsd s)) s).
Proof.
  intros W. unfold update_entry, real_poll_update. destruct (real_fd f) as [r|]; [|exists (calls (fsd s)); by destruct s as [[] ? ? ? ? ? ? ?]]. cbv zeta.
  destruct (_ =? 0).
  - rewrite (bind_step _ _ _ _ _ (host_call_run _ _)). destruct (answer _ _) eqn:E; [by destruct (W _ _ _ E)|eauto].
  - destruct (answer (calls (fsd s)) (Ctl p CTL_MOD r (Z.ldiff t POLL_ONESHOT) d)) as [e|z] eqn:E; [by destruct (W _ _ _ E)|].
    erewrite bind_step by (rewrite (bind_step _ _ _ _ _ (host_call_run _ _)), E; reflexivity). eauto.
Qed.

Lemma grows_try : grows try_malloc.
Proof. unfold try_malloc. grow. Qed.
(** Looking frees one-shot entries, and does not return then. *)
Lemma grows_scan {C} (cb : C -> Z -> Z -> C * Z) p ready l : forall c res, grows (scan (fun c t i => ret (cb c t i)) p ready l c res).
Proof.
  induction l as [|e l IH]; intros c res; cbn [scan]; [apply grows_ret|]. apply grows_bind; [unfold get_entry; grow|]. intros x. cbv zeta. destruct (_ =? 0); [apply IH|].
  apply grows_bind; [apply grows_ret|]. intros [c1 r1]. cbv zeta. destruct (has (pf_types x) POLL_ONESHOT).
  - intros s r s' E. exfalso. revert E. unfold bind at 1. destruct ((poll_unlink p (pf_fd x) e ;; let! _ := update_entry p (pf_fd x) 0 None in upd_world (fun w => set_entries (delete e (entries w)) w)) s) as [[] s1| | |] eqn:E1; try done.
    assert (entries (fsd s1) !! e = None) as Hn.
    { unfold bind in E1. destruct (poll_unlink p (pf_fd x) e s) as [[] s2| | |]; try done. destruct (update_entry p (pf_fd x) 0 None s2) as [a s3| | |]; try done. injection E1 as <-. cbn. apply lookup_delete_eq. }
    unfold get_entry, bind, get_world, gets. cbn. by rewrite Hn.
  - apply grows_bind; [apply grows_ret|]. intros _. apply grows_bind; [unfold get_entry; grow|]. intros y. apply grows_bind; [grow|]. intros _. apply IH.
Qed.
Lemma grows_retrigger l : grows (retrigger l).
Proof. induction l as [|[[e|] evs] l IH]; cbn [retrigger]; [apply grows_ret|apply grows_bind; [unfold get_entry; grow|done]|apply grows_bind; [apply grows_ret|done]]. Qed.
Lemma grows_real p r t d : grows (real_poll_update p r t d).
Proof. unfold real_poll_update. cbv zeta. grow. Qed.

Lemma run_op_grows o : willing -> (forall p, o <> Destroy p) -> grows (run_op o).
Proof.
  intros W Hd. destruct o as [|p f t i|p f|p f t i|f|f evs|p|p|p ready|evs|p]; cbn [run_op].
  - unfold poll_create. apply grows_bind; [apply grows_bind; [apply grows_try|intros ?; grow]|intros ?; apply grows_ret].
  - unfold poll_add_fd. apply grows_bind; [|intros; apply grows_ret]. apply grows_bind; [unfold get_poll; grow|]. intros x. apply grows_bind; [case_match; [apply grows_try|grow]|]. intros [e|]; [|apply grows_ret]. apply grows_bind; [grow|]. intros [].
    intros s r s' E. destruct (update_willing p f t (Some e) s W) as (cs & Eu). rewrite (bind_step _ _ _ _ _ Eu) in E. revert E.
    enough (grows (upd_polls_of f (cons e) ;; upd_poll p (fun x => set_p_fds (e :: p_fds x) x) ;; ret 0)) as G by exact (G _ r s'). unfold upd_polls_of. grow.
  - unfold poll_del_fd, poll_unlink, upd_polls_of, poll_fd_free, get_entry. grow.
  - unfold poll_mod_fd. grow.
  - unfold poll_cleanup_fd, poll_unlink, upd_polls_of, poll_fd_free, get_entry. grow.
  - unfold poll_wakeup, get_entry, get_poll. grow.
  - by destruct (Hd p).
  - unfold poll_acquire, get_poll, assert. apply grows_bind; [|intros; apply grows_ret]. apply grows_bind; [grow|]. intros x. apply grows_bind; [grow|]. intros _. destruct (_ =? 0); [|apply grows_ret].
    apply grows_bind; [destruct (negb _); [apply grows_ret|by intros s r s' [=]]|]. intros _. apply grows_bind; [grow|]. intros [e|rd]; [apply grows_ret|]. apply grows_bind; [grow|]. intros _. apply grows_bind; [apply grows_real|intros; apply grows_ret].
  - unfold poll_look, get_poll. apply grows_bind; [apply grows_bind; [grow|]; intros x; apply grows_scan|]. intros [c n]. apply grows_ret.
  - apply grows_bind; [apply grows_retrigger|intros; apply grows_ret].
  - unfold poll_release, get_poll. grow.
Qed.
Lemma runs_grow ops : willing -> (forall p, Destroy p ∉ ops) -> grows (runs ops).
Proof.
  intros W. induction ops as [|o ops IH]; intros H; cbn [runs]; [apply grows_ret|]. apply grows_bind; [apply run_op_grows; [done|]; intros p ->; apply (H p); left|]. intros r.
  apply grows_bind; [apply IH; intros p Hp; apply (H p); by right|]. intros. apply grows_ret.
Qed.

Lemma retrigger_run l s : (forall e evs, (Some e, evs) ∈ l -> is_Some (entries (fsd s) !! e)) -> exists s', retrigger l s = Ret tt s'.
Proof.
  revert s. induction l as [|[[e|] evs] l IH]; intros s H; [by eexists| |].
  - destruct (H e evs (list_elem_of_here _ _)) as [y Hy]. cbn [retrigger].
    assert (forall s1, (forall d, is_Some (entries (fsd s) !! d) -> is_Some (entries (fsd s1) !! d)) -> exists s', retrigger l s1 = Ret tt s') as K.
    { intros s1 H1. apply IH. intros d ev Hd. eapply H1, H. by right. }
    assert (exists s1, (let! x := get_entry e in match pf_poll x with
      | Some _ => if has (pf_types x) POLL_EDGETRIGGERED then upd_entry e (fun x => set_pf_triggered (Z.ldiff (pf_triggered x) evs) x) else ret tt
      | None => ret tt end) s = Ret tt s1 /\ forall d, is_Some (entries (fsd s) !! d) -> is_Some (entries (fsd s1) !! d)) as (s1 & E & H1).
    { rewrite (bind_step _ _ _ _ _ (get_entry_run _ _ _ Hy)). destruct (pf_poll y); [destruct (has _ _)|]; [rewrite (upd_entry_run _ _ _ _ Hy)|by exists s..].
      eexists. split; [reflexivity|]. intros d Hd. cbn. apply lookup_insert_is_Some'. by right. }
    rewrite (bind_step _ _ _ _ _ E). by apply K.
  - cbn [retrigger]. rewrite (bind_step _ _ s tt s) by done. apply IH. intros e' evs' Hin. apply (H e' evs'). by right.
Qed.

End Steps.

(** ** Properties *)

Section Claims.
Context {HS : Host} {SY : System world} {HE : HostErrno} {GU : Guest}.
Implicit Types s : vfs world.

Lemma inv_empty w n : polls w = ∅ -> entries w = ∅ -> fd_polls w = ∅ -> inv n w.
Proof.
  intros Hp He Hf. split; rewrite ?Hp, ?He; try (intros *; rewrite !lookup_empty; done).
  intros f. unfold polls_of. rewrite Hf, lookup_empty. cbn. split; [constructor|]. intros e. split; [by intros ?%not_elem_of_nil|]. intros (y & H & _). by rewrite lookup_empty in H.
Qed.

(** C27: the lists are well formed: an entry in use is on the list of its poll and on that of its file, once, and on no other; a free one is on one list of free entries and on
    no other; a poll nobody waits on has no pipe.  Each operation on a poll that is there, and each part of a wait that is done with the lock held, returns and leaves the lists well formed, whatever
    the host answers and whether or not it gives memory.  Two of them read memory that was freed, and only when [crashes] says so: looking at the entries when a one-shot entry reports
    ([oneshot_used_after_free]), and taking in an event of the host for an entry that is gone ([refused_entry_freed]).  The number of threads that wait fits an [int]. *)
Theorem poll_lists_wellformed o s m : inv (next s) (fsd s) -> calm (abs s) -> within m (abs s) -> 0 <= m < 2 ^ 31 - 1 -> (forall p, names o = Some p -> is_Some (polls (fsd s) !! p)) ->
  (exists r s', run_op o s = Ret r s' /\ inv (next s') (fsd s') /\ calm (abs s')) \/ (run_op o s = Fault /\ crashes o (fsd s)).
Proof.
  intros I HC Hw Hm Hn. destruct (run_op_spec o s m I HC Hw ltac:(lia)) as [H|(r & s' & E & I' & S)]; [|by right|].
  - intros p [x Hx]%Hn. rewrite (shown_lookup _ _ _ Hx). eauto.
  - left. exists r, s'. split; [done|]. split; [done|]. by destruct (spec_users _ _ _ _ S HC).
Qed.

(** C19: operations in any order, from when there are no polls, do what the specification says, where a poll is a list of what it asks for: adding puts an item first, deleting and changing find
    the first item of the file, closing a file takes it from all polls, waking a file lets edge-triggered items report again and writes to the pipes of the polls, looking reports what
    is ready, and events of the host let items report again.  For a file of the host the result is that of the host, which is asked
    before anything changes.  Or one of the operations names a poll that is not there, or reads memory that was freed as [crashes] says, and those before it did
    what the specification says.  A wait is a sequence of these operations ([wait_is_operations]). *)
Theorem polls_refine ops s : polls (fsd s) = ∅ -> entries (fsd s) = ∅ -> fd_polls (fsd s) = ∅ -> Z.of_nat (length ops) < 2 ^ 31 ->
  let A := mk_astate ∅ ∅ (calls (fsd s)) (notified (fsd s)) (next s) in
  (exists rs s', runs ops s = Ret rs s' /\ history A ops rs (abs s')) \/
  (exists before o after rs s', ops = before ++ o :: after /\ runs before s = Ret rs s' /\ history A before rs (abs s') /\
    ((exists p, names o = Some p /\ polls (fsd s') !! p = None) \/ (crashes o (fsd s') /\ runs ops s = Fault))).
Proof.
  intros Hp He Hf Hl A. pose proof (inv_empty _ (next s) Hp He Hf) as I. assert (abs s = A) as Ea by (unfold abs, A, view, status; by rewrite Hp, !fmap_empty).
  destruct (runs_spec ops s 0 I) as [(rs & s' & E & _ & H)|(before & o & after & rs & s' & E & Er & H & Hc)]; rewrite ?Ea in *; try (unfold calm, within, A; cbn; intros * ?; by rewrite lookup_empty in *); try lia.
  - left. eauto.
  - right. eauto 10.
Qed.

(** an event the host reports late is harmless: when an entry was there before, and the host does not fail, no sequence of operations that destroys no poll frees it,
    and taking the event in uses no memory that was freed. *)
Theorem stale_event_safe ops s rs s' e evs : willing -> (forall p, Destroy p ∉ ops) -> is_Some (entries (fsd s) !! e) -> runs ops s = Ret rs s' ->
  exists s'', retrigger [(Some e, evs)] s' = Ret tt s''.
Proof.
  intros W Hd He E. apply retrigger_run. intros d ev [[= -> ->]| []%not_elem_of_nil]%elem_of_cons. exact (runs_grow ops W Hd _ _ _ E _ He).
Qed.

(** waiting on an epoll file when something is ready writes the events of the entries that are ready, in the order of the list and at most [max_events] of them, and
    returns how many; an entry that is edge-triggered does not report the same events again. *)
Theorem epoll_wait_ready epoll_ops rounds epoll_f f x p y events_addr max_events timeout r more s : inv (next s) (fsd s) -> willing -> f_get epoll_f s = Ret (Some f) s -> fds s !! f = Some x -> fd_ops_of x = epoll_ops ->
  epolls (fsd s) !! f = Some p -> polls (fsd s) !! p = Some y -> p_waiters y = 0 -> p_pipe y = false -> Forall lasting (items (fsd s) (p_fds y)) -> rounds (millis timeout) = r :: more ->
  0 < max_events -> let l := items (fsd s) (p_fds y) in let evs := events_of (r_ready r) l in evs <> [] ->
  exists w, inv (next s) w /\ view w = <[p := settled (r_ready r) <$> l]> (view (fsd s)) /\
    sys_epoll_wait epoll_ops rounds epoll_f events_addr max_events timeout s =
      (let! bad := user_write_events events_addr (take (Z.to_nat max_events) evs) in ret (if bad then _EFAULT else Z.min max_events (Z.of_nat (length evs)))) (set_fsd w s).
Proof.
  intros I W Hf Hx Ho Hep Hp Hw Hpi Hl Hr Hm l evs He. destruct (wait_epoll p y r more max_events s I Hp Hw Hpi W Hl Hm He) as (w & E & Iw & V). exists w. split_and!; [done..|].
  unfold sys_epoll_wait. rewrite (bind_step _ _ _ _ _ Hf), (bind_step _ _ s x s) by (unfold get_fd; rewrite (bind_step _ _ s s s) by done; by rewrite Hx).
  rewrite Ho, Z.eqb_refl. cbn [negb]. destruct (Z.leb_spec max_events 0); [lia|]. rewrite (bind_step _ _ s p s) by (unfold epoll_of; rewrite (bind_step _ _ s (fsd s) s) by done; by rewrite Hep).
  rewrite Hr, (bind_step _ _ _ _ _ E). cbn iota beta. fold l evs. rewrite (proj2 (Z.leb_le 0 (Z.min max_events (Z.of_nat (length evs))))) by lia. by rewrite (take_ge (take (Z.to_nat max_events) evs)) by (rewrite length_take; lia).
Qed.

(** an event can be lost: when more edge-triggered entries are ready than [max_events], the ones that were not written are marked as reported too, and a wait that follows reports nothing. *)
Theorem edge_events_lost p y r more max_events s : inv (next s) (fsd s) -> willing -> polls (fsd s) !! p = Some y -> p_waiters y = 0 -> p_pipe y = false -> Forall lasting (items (fsd s) (p_fds y)) ->
  Forall (fun i => has (item_types i) POLL_EDGETRIGGERED = true) (items (fsd s) (p_fds y)) -> let evs := events_of (r_ready r) (items (fsd s) (p_fds y)) in 0 < max_events < Z.of_nat (length evs) ->
  exists w l, poll_wait (fun c types info => ret (epoll_callback max_events c types info)) (r :: more) p [] s = Ret (take (Z.to_nat max_events) evs, max_events) (set_fsd w s) /\
    view w !! p = Some l /\ events_of (r_ready r) l = [].
Proof.
  intros I W Hp Hw Hpi Hl Hed evs Hm. destruct (wait_epoll p y r more max_events s I Hp Hw Hpi W Hl (proj1 Hm)) as (w & E & _ & V); [fold evs; by destruct evs; cbn in Hm; [lia|]|].
  fold evs in E. rewrite Z.min_l in E by lia. exists w, (settled (r_ready r) <$> items (fsd s) (p_fds y)). split_and!; [done|by rewrite V, lookup_insert_eq|].
  clear -Hed. induction Hed as [|i l H Hed IH]; [done|]. rewrite fmap_cons. unfold events_of in *. cbn. by rewrite settled_silent, IH.
Qed.

(** C40: a one-shot entry is read after it was freed: a wait in which the first entry that reports asks for one event only does not return. *)
Theorem oneshot_used_after_free {C} (cb : C -> Z -> Z -> C * Z) p x l1 e l2 y r more c s : inv (next s) (fsd s) -> willing -> polls (fsd s) !! p = Some x -> p_waiters x = 0 -> p_pipe x = false ->
  p_fds x = l1 ++ e :: l2 -> entries (fsd s) !! e = Some y -> has (pf_types y) POLL_ONESHOT = true -> report (r_ready r) y <> 0 ->
  Forall (fun i => reported (r_ready r) i = 0) (items (fsd s) l1) ->
  poll_wait (fun c t i => ret (cb c t i)) (r :: more) p c s = Fault.
Proof.
  intros I W Hp Hw Hpi El He Ho Hr H1. unfold poll_wait. pose proof (acquire_run p x s Hp ltac:(done) ltac:(rewrite Hw; lia)) as Ea. unfold acquired in Ea. rewrite Hw in Ea. cbn [Z.eqb] in Ea.
  destruct (answer (calls (fsd s)) (Pipe p)) as [?|rd] eqn:En; [by destruct (W _ _ _ En)|]. rewrite (bind_step _ _ _ _ _ Ea). clear Ea. set (s2 := set_fsd (set_calls _ _) s).
  apply run_Fault. cbn [poll_loop]. unfold poll_look. apply run_Fault. erewrite bind_step by (apply get_poll_run; cbn; apply lookup_insert_eq). cbn [p_fds set_p_pipe set_p_waiters].
  destruct (i_fds _ _ I _ _ Hp) as [N B]. eapply (scan_fault cb (r_ready r) p _ (p_fds x)); [cbn; apply lookup_insert_eq|done| |].
  - intros d (y' & Hy' & _)%B. eauto.
  - change (items (fsd s2) (p_fds x)) with (items (fsd s) (p_fds x)). apply existsb_exists. exists (item_of e y). split; [apply list_elem_of_In, list_elem_of_omap; exists e; rewrite He; split; [rewrite El; set_solver|done]|].
    unfold fires. change (reported (r_ready r) (item_of e y)) with (report (r_ready r) y). rewrite (proj2 (Z.eqb_neq _ _) Hr). exact Ho.
Qed.

(** *** Descriptors that are not open *)

(** The host's poll object wakes the thread up, and there is no signal. *)
Definition idle (r : round) : Prop := r_signal r = false /\ r_read r = None /\ forall s, r_wait r s = Ret (inr [(None, POLL_READ)]) s.

Lemma run_Hang {A B} (m : T A) (k : A -> T B) s : m s = Hang -> bind m k s = Hang.
Proof. unfold bind. by intros ->. Qed.

Lemma idle_loop {C} (cb : C -> Z -> Z -> T (C * Z)) p x rounds c s : polls (fsd s) !! p = Some x -> p_fds x = [] -> Forall idle rounds -> poll_loop cb rounds p c s = Hang.
Proof.
  intros Hp Hf H. induction H as [|r rounds (Hs & Hr & Hw) H IH]; [done|]. cbn [poll_loop]. unfold poll_look.
  rewrite (bind_step _ _ s (c, 0) s) by (by rewrite (bind_step _ _ _ _ _ (get_poll_run _ _ _ Hp)), Hf). change (0 <? 0) with false. cbn iota. rewrite Hs, (bind_step _ _ _ _ _ (Hw s)). cbn iota. rewrite (bind_step _ _ s tt s) by done. by rewrite Hr.
Qed.

Lemma bad_fd t f s : tables s !! files (current s) = Some t -> ft_size t <= f < 2 ^ 31 -> 0 <= f -> f_get f s = Ret None s.
Proof.
  intros Ht Hf H0. unfold f_get, fdtable_get, my_files. rewrite (bind_step _ _ s (files (current s)) s), (bind_step _ _ s s s), (bind_step _ _ _ _ _ (get_table_run _ _ _ Ht)) by done.
  rewrite wrap_small by (unfold in_u; lia). destruct (Z.ltb_spec f 0), (Z.geb_spec f (ft_size t)); try lia. done.
Qed.
Lemma bad_files t l s : tables s !! files (current s) = Some t -> Forall (fun x => 0 <= fd_of x /\ ft_size t <= fd_of x < 2 ^ 31) l -> poll_files l s = Ret ((fun x => (set_revents 0 x, None)) <$> l) s.
Proof.
  intros Ht. induction 1 as [|x l [H0 Hx] H IH]; [done|]. cbn [poll_files]. rewrite (bind_step _ _ _ _ _ (bad_fd t _ _ Ht Hx H0)), (bind_step _ _ s tt s) by done. by rewrite (bind_step _ _ _ _ _ IH).
Qed.
Lemma add_nothing fuel p l : forall before s, Forall (fun x : pollfd * option Z => snd x = None) l -> poll_add fuel p before l s = Ret tt s.
Proof.
  induction fuel as [|fuel IH] in l |- *; intros before s H; [by destruct l|]. destruct H as [|[x file] l Hx H]; [done|]. cbn in Hx. subst file. cbn [poll_add]. destruct (_ || _); by apply IH.
Qed.

Lemma create_willing s : willing -> no_memory (next s) = false -> inv (next s) (fsd s) ->
  exists s', poll_create s = Ret (inr (next s)) s' /\ polls (fsd s') !! next s = Some (mk_poll [] [] 0 false) /\ inv (next s') (fsd s') /\ tables s' = tables s /\ current s' = current s.
Proof.
  intros W Hm I. unfold poll_create. rewrite (bind_step _ _ s (Some (next s)) (set_next (next s + 1) s)) by (unfold try_malloc; rewrite (bind_step _ _ s (next s) s) by done; by rewrite Hm). rewrite (bind_step _ _ _ _ _ (host_call_run _ _)).
  destruct (answer _ _) as [e|z] eqn:Ea; [by destruct (W _ _ _ Ea)|]. rewrite (bind_step _ _ _ _ _ (upd_world_run _ _)). eexists. split; [reflexivity|]. rewrite !fsd_is.
  split_and!; [cbn; apply lookup_insert_eq| |done|done]. apply (inv_new_poll (next s)); [by apply inv_calls|lia].
Qed.

(** a poll of descriptors none of which is open, without a time limit, waits until there is a signal: that [POLL_NVAL] is set in the array does not count as a result. *)
Theorem poll_of_bad_waits rounds addr nfds timeout t l s : inv (next s) (fsd s) -> willing -> no_memory (next s) = false -> timeout < 0 -> addr <> 0 -> tables s !! files (current s) = Some t ->
  user_read_pollfds addr nfds s = Ret (Some l) s -> Forall (fun x => 0 <= fd_of x /\ ft_size t <= fd_of x < 2 ^ 31) l -> Forall idle (rounds None) ->
  sys_poll rounds addr nfds timeout s = Hang.
Proof.
  intros I W Hm Ht Ha Htab Hr Hl Hid. unfold sys_poll. rewrite (proj2 (Z.eqb_neq _ _) Ha). cbn [andb]. rewrite (bind_step _ _ _ _ _ Hr).
  destruct (create_willing s W Hm I) as (s1 & E1 & Hp & I1 & Htab1 & Hc1). rewrite (bind_step _ _ _ _ _ E1). set (p := next s) in *. clearbody p. rewrite <- Htab1, <- Hc1 in Htab.
  rewrite (bind_step _ _ _ _ _ (bad_files t l s1 Htab Hl)). rewrite (bind_step _ _ s1 tt s1) by (apply add_nothing, Forall_fmap, Forall_true; done).
  cbv zeta. unfold millis. rewrite (proj2 (Z.leb_gt 0 timeout) Ht). apply run_Hang. unfold poll_wait.
  pose proof (acquire_run p _ s1 Hp ltac:(done) ltac:(cbn; lia)) as Ea. unfold acquired in Ea. cbn [p_waiters Z.eqb] in Ea. destruct (answer (calls (fsd s1)) (Pipe p)) as [?|rd] eqn:En; [by destruct (W _ _ _ En)|].
  rewrite (bind_step _ _ _ _ _ Ea). apply run_Hang. eapply idle_loop; [cbn; apply lookup_insert_eq|done|done].
Qed.

(** when the host refuses a file, the entry that was taken from the list of free entries is freed, although the list is there so that entries are not: an event the host
    reported for it before is then looked up in memory that was freed. *)
Theorem refused_entry_freed p x e l f t info r err evs s : polls (fsd s) !! p = Some x -> p_freelist x = e :: l -> real_fd f = Some r -> Z.ldiff t POLL_ONESHOT <> 0 ->
  answer (calls (fsd s)) (Ctl p CTL_MOD r (Z.ldiff t POLL_ONESHOT) (Some e)) = inl err -> err <> host_number ENOENT ->
  exists s', poll_add_fd p f t info s = Ret (err_map err) s' /\ retrigger [(Some e, evs)] s' = Fault.
Proof.
  intros Hp Hl Hf Ht Ha He. unfold poll_add_fd. rewrite (bind_step _ _ _ _ _ (get_poll_run _ _ _ Hp)), Hl.
  set (s1 := set_fsd (set_polls (<[p := set_p_freelist (tail (p_freelist x)) x]> (polls (fsd s))) (fsd s)) s).
  rewrite (bind_step _ _ s (Some e) s1) by (by rewrite (bind_step _ _ _ _ _ (upd_poll_run _ _ _ _ Hp))). rewrite (bind_step _ _ _ _ _ (upd_world_run _ _)). set (s2 := set_fsd _ s1).
  assert (exists cs, update_entry p f t (Some e) s2 = Ret (Some (err_map err)) (set_fsd (set_calls cs (fsd s2)) s2)) as (cs & E).
  { unfold update_entry, real_poll_update. rewrite Hf. cbv zeta. rewrite (proj2 (Z.eqb_neq _ _) Ht). eexists.
    erewrite bind_step by (rewrite (bind_step _ _ _ _ _ (host_call_run _ _)); change (calls (fsd s2)) with (calls (fsd s)); rewrite Ha, (proj2 (Z.eqb_neq _ _) He); reflexivity). reflexivity. }
  rewrite (bind_step _ _ _ _ _ E). cbn iota. rewrite (bind_step _ _ _ _ _ (upd_world_run _ _)). eexists. split; [reflexivity|].
  cbn [retrigger]. apply run_Fault, run_Fault. unfold get_entry, get_world, gets, bind. cbn. by rewrite lookup_delete_eq.
Qed.

End Claims.

(** ** The properties at work *)

Module Demo.

(** Files 50 and up are files of the host, which refuses nothing. *)
#[local] Instance easy_host : Host := {| answer _ _ := inr 9; real_fd f := if 50 <=? f then Some f else None; no_memory _ := false |}.
#[local] Instance demo_errno : HostErrno := fun e => match e with ENOENT => 2 | EPERM => 1 | _ => 99 end.
#[local] Instance demo_system : System world := {|
  filesystem := fun _ => mk_fs_ops world (cstr "none") None None (fun _ _ _ _ => ret (inl _ENOENT)) None None None None None None None None None
    (fun _ _ _ => Some (inl _ENOENT)) (fun _ _ => Some (inl _ENOENT)) None None (fun _ _ => Some (inr [])) None;
  fdops := fun _ => mk_fd_ops world None None None None; device := fun _ _ => None |}.
#[local] Instance demo_guest : Guest := {|
  user_read_bits _ _ := ret None; user_write_bits _ _ := ret false; user_read_pollfds _ _ := ret (Some [mk_pollfd 9 1 0; mk_pollfd 700 4 0]); user_write_pollfds _ _ := ret false;
  user_get_pair _ := ret None; user_write_events _ _ := ret false; user_get_mask _ := ret None |}.

(** Descriptor 3 is an epoll file, whose poll will be at address 100. *)
Definition start : vfs world := mk_vfs (mk_world ∅ ∅ ∅ {[ 30 := 100 ]} None [] []) [] {[ 30 := mk_fd 1 0 0 5 0 None None None None ]}
  ∅ ∅ {[ 40 := mk_fdtable 1 [None; None; None; Some 30] (replicate 8 false) ]} (mk_task 0 0 0 0 1 40 (mk_fs_info 0 None None) 1024) 100.
Definition state_of {A} (o : outcome world A) : vfs world := match o with Ret _ s => s | _ => start end.
Definition edge_read : Z := Z.lor POLL_EDGETRIGGERED POLL_READ.
Definition s1 : vfs world := state_of (run_op Create start).
Definition s2 : vfs world := state_of (run_op (Add 100 20 edge_read 7) s1).
Definition s3 : vfs world := state_of (run_op (Add 100 50 edge_read 8) s2).
Definition once : vfs world := state_of (run_op (Add 100 20 (Z.lor POLL_ONESHOT POLL_READ) 7) s1).
Definition all_ready : round := mk_round (fun _ => POLL_READ) false (ret (inr [])) None.
Definition nothing : round := mk_round (fun _ => 0) false (ret (inr [(None, POLL_READ)])) None.

Lemma next_inv o s : inv (next s) (fsd s) -> calm (abs s) -> within 3 (abs s) -> (forall p, names o = Some p -> is_Some (view (fsd s) !! p)) -> run_op o s <> Fault -> inv (next (state_of (run_op o s))) (fsd (state_of (run_op o s))).
Proof. intros I HC Hw Hn Hf. by destruct (run_op_spec o s 3 I HC Hw ltac:(lia) Hn) as [[? _]|(r & s' & -> & I' & _)]. Qed.
Lemma quiet A : a_users A = ∅ \/ a_users A = {[ 100 := (0, false) ]} -> calm A /\ within 3 A.
Proof.
  unfold calm, within. intros [->| ->]; (split; intros p k b Hp; [|]); try (by rewrite lookup_empty in Hp); apply lookup_singleton_Some in Hp as [_ [= <- <-]]; done || lia.
Qed.
Lemma start_inv : inv (next start) (fsd start).
Proof. by apply inv_empty. Qed.
Lemma s1_inv : inv (next s1) (fsd s1).
Proof. apply next_inv; [exact start_inv|apply quiet; by left|apply quiet; by left|done|done]. Qed.
Lemma added o s : inv (next s) (fsd s) -> a_users (abs s) = {[ 100 := (0, false) ]} -> names o = Some 100 -> is_Some (view (fsd s) !! 100) -> run_op o s <> Fault -> inv (next (state_of (run_op o s))) (fsd (state_of (run_op o s))).
Proof. intros I U Hn Hv Hf. apply next_inv; [exact I|apply quiet; by right|apply quiet; by right| |exact Hf]. intros p E. rewrite Hn in E. by injection E as <-. Qed.
Lemma s2_inv : inv (next s2) (fsd s2).
Proof. apply added; [exact s1_inv|vm_compute; reflexivity|done|eexists; vm_compute; reflexivity|by vm_compute]. Qed.
Lemma s3_inv : inv (next s3) (fsd s3).
Proof. apply added; [exact s2_inv|vm_compute; reflexivity|done|eexists; vm_compute; reflexivity|by vm_compute]. Qed.
Lemma once_inv : inv (next once) (fsd once).
Proof. apply added; [exact s1_inv|vm_compute; reflexivity|done|eexists; vm_compute; reflexivity|by vm_compute]. Qed.
Lemma easy_willing : willing.
Proof. by intros cs c e [=]. Qed.

Lemma poll_lists_wellformed_witness : exists r s', run_op (Del 100 20) s3 = Ret r s' /\ inv (next s') (fsd s') /\ calm (abs s').
Proof.
  destruct (poll_lists_wellformed (Del 100 20) s3 3 s3_inv) as [H|[_ []]]; [apply quiet; right; vm_compute; reflexivity|apply quiet; right; vm_compute; reflexivity|lia| |exact H].
  intros p [= <-]. eexists. vm_compute. reflexivity.
Defined.
(** Two files are watched, one of them of the host; a wait finds the other ready, and the pipe is there to be written to meanwhile. *)
Definition ops : list poll_op := [Create; Add 100 20 edge_read 7; Add 100 50 edge_read 8; Acquire 100; Look 100 (fun f => if f =? 20 then POLL_READ else 0); Wakeup 20 1; Events [(Some 102, 1); (None, 1)];
  Mod 100 50 POLL_WRITE 9; Del 100 51; Release 100; Cleanup 20; Del 100 50].
Example ops_run : exists s', runs ops start = Ret [Num 100; Num 0; Num 0; Num 0; Seen [(POLL_READ, 7)]; Num 0; Num 0; Num 0; Num _ENOENT; Num 0; Num 0; Num 0] s' /\ notified (fsd s') = [100].
Proof. eexists. split; vm_compute; reflexivity. Qed.
Lemma polls_refine_witness : exists rs s', runs ops start = Ret rs s' /\ history (mk_astate ∅ ∅ [] [] 100) ops rs (abs s').
Proof.
  destruct ops_run as (s' & E & _). destruct (polls_refine ops start eq_refl eq_refl eq_refl ltac:(done)) as [H|(before & o & after & rs & s1 & Eo & Er & _ & Hc)]; [exact H|exfalso]. destruct Hc as [(p & Hn & Hp)|[_ Hc]]; [|congruence]. clear E.
  do 12 (destruct before as [|? before]; [cbn in Eo; injection Eo; intros; subst; cbn in Hn; try done; injection Hn as <-; vm_compute in Er; injection Er as <- <-; by vm_compute in Hp|cbn in Eo; injection Eo as <- Eo]).
  by destruct before.
Defined.
Lemma stale_event_safe_witness : exists s'', retrigger [(Some 102, POLL_READ)] (state_of (runs [Del 100 50; Add 100 21 POLL_READ 5] s3)) = Ret tt s''.
Proof. eapply (stale_event_safe [Del 100 50; Add 100 21 POLL_READ 5] s3 _ _ 102 POLL_READ easy_willing); [|eexists; vm_compute; reflexivity|vm_compute; reflexivity]. intros p. rewrite !elem_of_cons, elem_of_nil. naive_solver. Defined.
Lemma s3_items : items (fsd s3) [102; 101] = [(102, 50, edge_read, 8, 0); (101, 20, edge_read, 7, 0)].
Proof. vm_compute. reflexivity. Qed.
Lemma epoll_wait_ready_witness : exists w, inv (next s3) w /\ sys_epoll_wait 5 (fun _ => [all_ready]) 3 4096 10 (-1) s3 = Ret 2 (set_fsd w s3).
Proof.
  pose proof (epoll_wait_ready 5 (fun _ => [all_ready]) 3 30 (mk_fd 1 0 0 5 0 None None None None) 100 (mk_poll [102; 101] [] 0 false) 4096 10 (-1) all_ready [] s3 s3_inv easy_willing) as H.
  assert (f_get 3 s3 = Ret (Some 30) s3) as H1 by (vm_compute; reflexivity).
  assert (polls (fsd s3) !! 100 = Some (mk_poll [102; 101] [] 0 false)) as H2 by (vm_compute; reflexivity).
  specialize (H H1 eq_refl eq_refl eq_refl H2 eq_refl eq_refl). cbn [p_fds] in H. rewrite s3_items in H.
  destruct (H ltac:(repeat constructor) eq_refl ltac:(done) ltac:(done)) as (w & I & _ & E). exists w. split; [exact I|]. exact E.
Defined.
Lemma edge_events_lost_witness : exists w l, poll_wait (fun c types info => ret (epoll_callback 1 c types info)) [all_ready] 100 [] s3 = Ret ([(POLL_READ, 8)], 1) (set_fsd w s3) /\
  view w !! 100 = Some l /\ events_of (fun _ => POLL_READ) l = [].
Proof.
  pose proof (edge_events_lost 100 (mk_poll [102; 101] [] 0 false) all_ready [] 1 s3 s3_inv easy_willing ltac:(vm_compute; reflexivity) eq_refl eq_refl) as H. cbn [p_fds] in H.
  rewrite s3_items in H. exact (H ltac:(repeat constructor) ltac:(repeat constructor) ltac:(done)).
Defined.
Lemma oneshot_used_after_free_witness : poll_wait (fun c types info => ret (epoll_callback 10 c types info)) [all_ready] 100 [] once = Fault.
Proof.
  exact (oneshot_used_after_free (epoll_callback 10) 100 (mk_poll [101] [] 0 false) [] 101 [] (mk_poll_fd 20 (Z.lor POLL_ONESHOT POLL_READ) 7 0 (Some 100)) all_ready [] [] once once_inv easy_willing
    ltac:(vm_compute; reflexivity) eq_refl eq_refl eq_refl ltac:(vm_compute; reflexivity) eq_refl ltac:(done) ltac:(constructor)).
Defined.
Lemma poll_of_bad_waits_witness : sys_poll (fun _ => [nothing; nothing]) 4096 2 (-1) start = Hang.
Proof.
  assert (idle nothing) as Hi by by split_and!.
  exact (poll_of_bad_waits (fun _ => [nothing; nothing]) 4096 2 (-1) (mk_fdtable 1 [None; None; None; Some 30] (replicate 8 false)) [mk_pollfd 9 1 0; mk_pollfd 700 4 0] start start_inv easy_willing eq_refl
    ltac:(done) ltac:(done) eq_refl eq_refl ltac:(constructor; [by vm_compute|constructor; [by vm_compute|constructor]]) ltac:(constructor; [exact Hi|constructor; [exact Hi|constructor]])).
Defined.

(** The host refuses file 60. *)
#[local] Instance fussy_host : Host := {| answer _ c := match c with Ctl _ _ 60 _ _ => inl 1 | _ => inr 9 end; real_fd f := if 50 <=? f then Some f else None; no_memory _ := false |}.
Definition freed : vfs world := state_of (runs [Create; Add 100 50 edge_read 8; Del 100 50] start).
Lemma refused_entry_freed_witness : exists s', poll_add_fd 100 60 POLL_READ 3 freed = Ret _EPERM s' /\ retrigger [(Some 101, POLL_READ)] s' = Fault.
Proof.
  exact (refused_entry_freed 100 (mk_poll [] [101] 0 false) 101 [] 60 POLL_READ 3 60 1 POLL_READ freed ltac:(vm_compute; reflexivity) eq_refl eq_refl ltac:(done) eq_refl ltac:(done)).
Defined.

End Demo.
End Poll.
