(* ===== verification/Creds.v ===== *)
(** * Credentials and limits (kernel/getset.c, kernel/resource.c)

    The user and group ids of a task, its supplementary groups, and the resource limits of its thread group.  The memory of the guest is a parameter: structures are written
    and read as lists of fields with their sizes, so that what a call takes for a field and what the caller put there can be told apart. *)

From stdpp Require Import sets.
From S2P Require Import Prelude Errno.

Module Creds.
Import Errno.

Definition MAX_GROUPS : Z := 32.
Definition ADDR_NO_RANDOMIZE_ : Z := 0x0040000.
Definition RLIMIT_NLIMITS_ : Z := 16.
Definition RLIM_INFINITY_ : Z := 2 ^ 64 - 1.
Definition RUSAGE_SELF_ : Z := 0.
Definition RUSAGE_CHILDREN_ : Z := -1.
Definition SCHED_OTHER_ : Z := 0.
Definition INT_MAX : Z := 2 ^ 31 - 1.
(** [(uid_t) -1]: leave the id as it is. *)
Definition no_id : Z := 2 ^ 32 - 1.

(** The fields of [struct task]; [groups] has [MAX_GROUPS] places. *)
Record creds := mk_creds {
  uid : Z;
  euid : Z;
  suid : Z;
  gid : Z;
  egid : Z;
  sgid : Z;
  groups : list Z;
  ngroups : Z }.
Definition set_uid (v : Z) (x : creds) : creds :=
  mk_creds v (euid x) (suid x) (gid x) (egid x) (sgid x) (groups x) (ngroups x).
Definition set_euid (v : Z) (x : creds) : creds :=
  mk_creds (uid x) v (suid x) (gid x) (egid x) (sgid x) (groups x) (ngroups x).
Definition set_suid (v : Z) (x : creds) : creds :=
  mk_creds (uid x) (euid x) v (gid x) (egid x) (sgid x) (groups x) (ngroups x).
Definition set_gid (v : Z) (x : creds) : creds :=
  mk_creds (uid x) (euid x) (suid x) v (egid x) (sgid x) (groups x) (ngroups x).
Definition set_egid (v : Z) (x : creds) : creds :=
  mk_creds (uid x) (euid x) (suid x) (gid x) v (sgid x) (groups x) (ngroups x).
Definition set_sgid (v : Z) (x : creds) : creds :=
  mk_creds (uid x) (euid x) (suid x) (gid x) (egid x) v (groups x) (ngroups x).
Definition set_groups (v : list Z) (x : creds) : creds :=
  mk_creds (uid x) (euid x) (suid x) (gid x) (egid x) (sgid x) v (ngroups x).
Definition set_ngroups (v : Z) (x : creds) : creds :=
  mk_creds (uid x) (euid x) (suid x) (gid x) (egid x) (sgid x) (groups x) v.

(** [struct rlimit_] and [struct timeval_]. *)
Record rlimit_ := mk_rlimit {
  cur : Z;
  rmax : Z }.
Definition set_cur (v : Z) (x : rlimit_) : rlimit_ :=
  mk_rlimit v (rmax x).
Definition set_rmax (v : Z) (x : rlimit_) : rlimit_ :=
  mk_rlimit (cur x) v.

Record timeval_ := mk_timeval {
  sec : Z;
  usec : Z }.
Definition set_sec (v : Z) (x : timeval_) : timeval_ :=
  mk_timeval v (usec x).
Definition set_usec (v : Z) (x : timeval_) : timeval_ :=
  mk_timeval (sec x) v.

(** [struct rusage_]: the times, and fourteen fields that nothing fills in. *)
Record rusage_ := mk_rusage {
  utime : timeval_;
  stime : timeval_;
  others : list Z }.
Definition set_utime (v : timeval_) (x : rusage_) : rusage_ :=
  mk_rusage v (stime x) (others x).
Definition set_stime (v : timeval_) (x : rusage_) : rusage_ :=
  mk_rusage (utime x) v (others x).
Definition set_others (v : list Z) (x : rusage_) : rusage_ :=
  mk_rusage (utime x) (stime x) v.

(** The state: ids, limits and the usage of children of the thread group, its personality, process numbers, and the memory of the guest. *)
Section State.
Context {U : Type}.
Record state := mk_state {
  cr : creds;
  limits : list rlimit_;
  children_rusage : rusage_;
  personality : Z;
  pid : Z;
  tgid : Z;
  parent_pid : option Z;
  mem : U }.
Definition set_cr (v : creds) (x : state) : state :=
  mk_state v (limits x) (children_rusage x) (personality x) (pid x) (tgid x) (parent_pid x) (mem x).
Definition set_limits (v : list rlimit_) (x : state) : state :=
  mk_state (cr x) v (children_rusage x) (personality x) (pid x) (tgid x) (parent_pid x) (mem x).
Definition set_children_rusage (v : rusage_) (x : state) : state :=
  mk_state (cr x) (limits x) v (personality x) (pid x) (tgid x) (parent_pid x) (mem x).
Definition set_personality (v : Z) (x : state) : state :=
  mk_state (cr x) (limits x) (children_rusage x) v (pid x) (tgid x) (parent_pid x) (mem x).
Definition set_pid (v : Z) (x : state) : state :=
  mk_state (cr x) (limits x) (children_rusage x) (personality x) v (tgid x) (parent_pid x) (mem x).
Definition set_tgid (v : Z) (x : state) : state :=
  mk_state (cr x) (limits x) (children_rusage x) (personality x) (pid x) v (parent_pid x) (mem x).
Definition set_parent_pid (v : option Z) (x : state) : state :=
  mk_state (cr x) (limits x) (children_rusage x) (personality x) (pid x) (tgid x) v (mem x).
Definition set_mem (v : U) (x : state) : state :=
  mk_state (cr x) (limits x) (children_rusage x) (personality x) (pid x) (tgid x) (parent_pid x) v.

End State.
Arguments state U : clear implicits.

(** Memory of the guest: writing fields of given sizes says whether the address is bad; reading fails at a bad address.  [user_read] copies 32-bit words until an address is
    bad, and gives what was copied, and whether one was. *)
Class UserMemory (U : Type) := {
  user_put : Z -> list (Z * Z) -> U -> bool * U;
  user_get : Z -> list Z -> U -> option (list Z);
  user_write_words : Z -> list Z -> U -> bool * U;
  user_read_words : Z -> Z -> U -> list Z * bool;
}.
(** The host: processors, the time this thread used, which processes there are, and what memory holds that was not written to. *)
Class HostInfo := {
  cpus : Z;
  thread_times : timeval_ * timeval_;
  task_exists : Z -> bool;
  garbage : list Z;
}.

Section Calls.
Context {U : Type} `{UserMemory U}.

(** A call changes the state and returns a number. *)
Definition call : Type := state U -> Z * state U.
Definition just (r : Z) : call := fun s => (r, s).
Definition upd_cr (g : creds -> creds) (s : state U) : state U := set_cr (g (cr s)) s.
(** [user_put], or [_EFAULT]; then the rest. *)
Definition put_or_fault (addr : Z) (fields : list (Z * Z)) (k : call) : call := fun s =>
  let '(bad, u) := user_put addr fields (mem s) in if bad then (_EFAULT, set_mem u s) else k (set_mem u s).

Definition sys_getpid : call := fun s => (tgid s, s).
Definition sys_gettid : call := fun s => (pid s, s).
Definition sys_getppid : call := fun s => (match parent_pid s with Some p => p | None => 0 end, s).

(** *** User ids *)

Definition superuser (c : creds) : bool := euid c =? 0.
Definition sys_getuid32 : call := fun s => (uid (cr s), s).
Definition sys_getuid : call := fun s => (Z.land (uid (cr s)) 0xffff, s).
Definition sys_geteuid32 : call := fun s => (euid (cr s), s).
Definition sys_geteuid : call := fun s => (Z.land (euid (cr s)) 0xffff, s).

Definition sys_setuid (id : Z) : call := fun s =>
  let c := cr s in
  if superuser c then (0, set_cr (set_euid id (set_uid id (set_suid id c))) s)
  else if negb (id =? uid c) && negb (id =? suid c) then (_EPERM, s)
  else (0, set_cr (set_euid id c) s).

(** May an unprivileged task take this user id? *)
Definition allowed_uid (c : creds) (id : Z) : bool := negb (negb (id =? no_id) && negb (id =? uid c) && negb (id =? euid c) && negb (id =? suid c)).
Definition choose (id old : Z) : Z := if id =? no_id then old else id.
Definition sys_setresuid (ruid euid_ suid_ : Z) : call := fun s =>
  let c := cr s in
  if negb (superuser c) && negb (allowed_uid c ruid) then (_EPERM, s)
  else if negb (superuser c) && negb (allowed_uid c euid_) then (_EPERM, s)
  else if negb (superuser c) && negb (allowed_uid c suid_) then (_EPERM, s)
  else (0, set_cr (set_suid (choose suid_ (suid c)) (set_euid (choose euid_ (euid c)) (set_uid (choose ruid (uid c)) c))) s).
Definition sys_getresuid (ruid_addr euid_addr suid_addr : Z) : call := fun s =>
  put_or_fault ruid_addr [(4, uid (cr s))] (fun s => put_or_fault euid_addr [(4, euid (cr s))] (fun s => put_or_fault suid_addr [(4, suid (cr s))] (just 0) s) s) s.
Definition sys_setreuid (ruid euid_ : Z) : call := sys_setresuid ruid euid_ no_id.

(** *** Group ids *)

Definition sys_getgid32 : call := fun s => (gid (cr s), s).
Definition sys_getgid : call := fun s => (Z.land (gid (cr s)) 0xffff, s).
Definition sys_getegid32 : call := fun s => (egid (cr s), s).
Definition sys_getegid : call := fun s => (Z.land (egid (cr s)) 0xffff, s).

Definition sys_setgid (id : Z) : call := fun s =>
  let c := cr s in
  if superuser c then (0, set_cr (set_egid id (set_gid id (set_sgid id c))) s)
  else if negb (id =? gid c) && negb (id =? sgid c) then (_EPERM, s)
  else (0, set_cr (set_egid id c) s).
Definition allowed_gid (c : creds) (id : Z) : bool := negb (negb (id =? no_id) && negb (id =? gid c) && negb (id =? egid c) && negb (id =? sgid c)).
Definition sys_setresgid (rgid egid_ sgid_ : Z) : call := fun s =>
  let c := cr s in
  if negb (superuser c) && negb (allowed_gid c rgid) then (_EPERM, s)
  else if negb (superuser c) && negb (allowed_gid c egid_) then (_EPERM, s)
  else if negb (superuser c) && negb (allowed_gid c sgid_) then (_EPERM, s)
  else (0, set_cr (set_sgid (choose sgid_ (sgid c)) (set_egid (choose egid_ (egid c)) (set_gid (choose rgid (gid c)) c))) s).
Definition sys_getresgid (rgid_addr egid_addr sgid_addr : Z) : call := fun s =>
  put_or_fault rgid_addr [(4, gid (cr s))] (fun s => put_or_fault egid_addr [(4, egid (cr s))] (fun s => put_or_fault sgid_addr [(4, sgid (cr s))] (just 0) s) s) s.
Definition sys_setregid (rgid egid_ : Z) : call := sys_setresgid rgid egid_ no_id.

(** *** Supplementary groups *)

Definition sys_getgroups (size list_addr : Z) : call := fun s =>
  let n := ngroups (cr s) in
  if size =? 0 then (n, s)
  else if size <? n then (_EINVAL, s)
  else
    let '(bad, u) := user_write_words list_addr (take (Z.to_nat n) (groups (cr s))) (mem s) in
    (if bad then _EFAULT else n, set_mem u s).
(** The words are read into the groups of the task, also those before a bad address. *)
Definition sys_setgroups (size list_addr : Z) : call := fun s =>
  if size >? MAX_GROUPS then (_EINVAL, s)
  else
    let '(words, bad) := user_read_words list_addr size (mem s) in
    let s := upd_cr (fun c => set_groups (words ++ drop (length words) (groups c)) c) s in
    if bad then (_EFAULT, s) else (0, upd_cr (set_ngroups size) s).

Definition sys_capget (header_addr data_addr : Z) : call := just 0.
Definition sys_capset (header_addr data_addr : Z) : call := just 0.
Definition sys_personality (persona : Z) : call := fun s =>
  if persona =? 0xffffffff then (personality s, s)
  else if negb (persona =? ADDR_NO_RANDOMIZE_) then (_EINVAL, s)
  else (personality s, s).

(** *** Limits *)

Definition resource_valid (resource : Z) : bool := (0 <=? resource) && (resource <? RLIMIT_NLIMITS_).
Definition rlimit_get (resource : Z) (s : state U) : Z + rlimit_ :=
  if negb (resource_valid resource) then inl _EINVAL else inr (default (mk_rlimit 0 0) (limits s !! Z.to_nat resource)).
Definition rlimit_set (resource : Z) (limit : rlimit_) : call := fun s =>
  if negb (resource_valid resource) then (_EINVAL, s) else (0, set_limits (<[Z.to_nat resource := limit]> (limits s)) s).
(** [None]: the process dies. *)
Definition rlimit (resource : Z) (s : state U) : option Z := match rlimit_get resource s with inl _ => None | inr l => Some (cur l) end.

(** The resource of a call is 32 bits, passed on as an [int]. *)
Definition do_getrlimit32 (resource : Z) (s : state U) : Z + rlimit_ :=
  match rlimit_get (s32 resource) s with inl e => inl e | inr l => inr (mk_rlimit (u32 (cur l)) (u32 (rmax l))) end.
Definition sys_getrlimit32 (resource rlim_addr : Z) : call := fun s =>
  match do_getrlimit32 resource s with inl e => (e, s) | inr l => put_or_fault rlim_addr [(4, cur l); (4, rmax l)] (just 0) s end.
Definition clamp (x : Z) : Z := if x >? INT_MAX then INT_MAX else x.
Definition sys_old_getrlimit32 (resource rlim_addr : Z) : call := fun s =>
  match do_getrlimit32 resource s with inl e => (e, s) | inr l => put_or_fault rlim_addr [(4, clamp (cur l)); (4, clamp (rmax l))] (just 0) s end.
Definition check_setrlimit (resource : Z) (new : rlimit_) (s : state U) : Z :=
  if superuser (cr s) then 0
  else match rlimit_get resource s with inl e => e | inr old => if rmax new >? rmax old then _EPERM else 0 end.
(** Two fields of 64 bits are read. *)
Definition get_rlimit (addr : Z) (s : state U) : option rlimit_ := match user_get addr [8; 8] (mem s) with Some [c; x] => Some (mk_rlimit c x) | _ => None end.
Definition set_checked (resource : Z) (new : rlimit_) : call := fun s =>
  let err := check_setrlimit (s32 resource) new s in if err <? 0 then (err, s) else rlimit_set (s32 resource) new s.
Definition sys_setrlimit32 (resource rlim_addr : Z) : call := fun s =>
  match get_rlimit rlim_addr s with None => (_EFAULT, s) | Some new => set_checked resource new s end.
Definition sys_prlimit64 (pid_ resource new_limit_addr old_limit_addr : Z) : call := fun s =>
  if negb (pid_ =? 0) then (_EINVAL, s)
  else
    let set_new : call := fun s =>
      if new_limit_addr =? 0 then (0, s)
      else match get_rlimit new_limit_addr s with None => (_EFAULT, s) | Some new => set_checked resource new s end in
    if old_limit_addr =? 0 then set_new s
    else match rlimit_get (s32 resource) s with inl e => (e, s) | inr l => put_or_fault old_limit_addr [(8, cur l); (8, rmax l)] set_new s end.

(** *** Usage and scheduling *)

Context {HI : HostInfo}.

Definition rusage_get_current : rusage_ := mk_rusage (fst thread_times) (snd thread_times) garbage.
Definition timeval_add (dst src : timeval_) : timeval_ :=
  let s := u32 (sec dst + sec src) in
  let us := u32 (usec dst + usec src) in
  if us >=? 1000000 then mk_timeval (u32 (s + 1)) (us - 1000000) else mk_timeval s us.
Definition rusage_add (dst src : rusage_) : rusage_ := mk_rusage (timeval_add (utime dst) (utime src)) (timeval_add (stime dst) (stime src)) (others dst).
Definition rusage_fields (r : rusage_) : list (Z * Z) := [(4, sec (utime r)); (4, usec (utime r)); (4, sec (stime r)); (4, usec (stime r))] ++ ((fun v => (4, v)) <$> others r).
Definition sys_getrusage (who rusage_addr : Z) : call := fun s =>
  if who =? RUSAGE_SELF_ then put_or_fault rusage_addr (rusage_fields rusage_get_current) (just 0) s
  else if s32 who =? RUSAGE_CHILDREN_ then put_or_fault rusage_addr (rusage_fields (children_rusage s)) (just 0) s
  else (_EINVAL, s).

(** A byte for every eight processors, and one more. *)
Definition cpu_bytes (n : Z) : list Z := (fun i => if n >=? 8 * (i + 1) then 255 else Z.ones (n - 8 * i)) <$> seqZ 0 (n / 8 + 1).
Definition sys_sched_getaffinity (pid_ cpusetsize cpuset_addr : Z) : call := fun s =>
  if negb (pid_ =? 0) && negb (task_exists pid_) then (_ESRCH, s)
  else if cpusetsize <? cpus / 8 + 1 then (_EINVAL, s)
  else put_or_fault cpuset_addr ((fun b => (1, b)) <$> cpu_bytes cpus) (just (cpus / 8 + 1)) s.
Definition sys_sched_setaffinity (pid_ cpusetsize cpuset_addr : Z) : call := just 0.
Definition sys_getpriority (which who : Z) : call := just 20.
Definition sys_setpriority (which who prio : Z) : call := just 0.
Definition sys_sched_getparam (pid_ param_addr : Z) : call := put_or_fault param_addr [(4, 0)] (just 0).
Definition sys_sched_getscheduler (pid_ : Z) : call := just SCHED_OTHER_.
Definition sys_sched_setscheduler (pid_ policy param_addr : Z) : call := fun s =>
  if negb (policy =? SCHED_OTHER_) then (_EINVAL, s)
  else match user_get param_addr [4] (mem s) with Some [p] => (if p =? 0 then 0 else _EINVAL, s) | _ => (_EFAULT, s) end.
Definition sys_sched_get_priority_max (policy : Z) : call := just (if policy =? 0 then 0 else _EINVAL).
Definition sys_ioprio_get (which who ioprio : Z) : call := just 0.
Definition sys_ioprio_set (which who ioprio : Z) : call := just 0.

End Calls.

(** ** Properties *)

Section Properties.
Context {U : Type} `{UserMemory U}.
Implicit Types s : state U.

(** The calls that change ids and limits. *)
Inductive cred_call :=
| SetUid (u : Z) | SetResUid (r e s : Z) | SetReUid (r e : Z)
| SetGid (g : Z) | SetResGid (r e s : Z) | SetReGid (r e : Z)
| SetGroups (size addr : Z)
| SetRlimit (resource addr : Z) | Prlimit (pid_ resource new old : Z).
Definition run_call (c : cred_call) : call :=
  match c with
  | SetUid u => sys_setuid u | SetResUid r e s => sys_setresuid r e s | SetReUid r e => sys_setreuid r e
  | SetGid g => sys_setgid g | SetResGid r e s => sys_setresgid r e s | SetReGid r e => sys_setregid r e
  | SetGroups size addr => sys_setgroups size addr
  | SetRlimit resource addr => sys_setrlimit32 resource addr | Prlimit p resource new old => sys_prlimit64 p resource new old
  end.
Fixpoint run_calls (l : list cred_call) (s : state U) : state U :=
  match l with [] => s | c :: l => run_calls l (snd (run_call c s)) end.

Definition user_ids (c : creds) : list Z := [uid c; euid c; suid c].
Definition group_ids (c : creds) : list Z := [gid c; egid c; sgid c].
Definition unprivileged (c : creds) : Prop := 0 ∉ user_ids c.

(** One task state that another can come to without privileges: no ids but those it has, and no limit above the one it has. *)
Record below (s s' : state U) : Prop := mk_below {
  below_users : forall u, u ∈ user_ids (cr s') -> u ∈ user_ids (cr s);
  below_groups : forall g, g ∈ group_ids (cr s') -> g ∈ group_ids (cr s);
  below_length : length (limits s') = length (limits s);
  below_limits : forall i l', limits s' !! i = Some l' -> exists l, limits s !! i = Some l /\ rmax l' <= rmax l }.

Lemma below_refl s : below s s.
Proof. split; [done..|]. intros i l E. exists l. split; [done|lia]. Qed.
Lemma below_trans s1 s2 s3 : below s1 s2 -> below s2 s3 -> below s1 s3.
Proof.
  intros [A1 A2 A3 A4] [B1 B2 B3 B4]. split; [by auto..|congruence|]. intros i l (l2 & E2 & L2)%B4. destruct (A4 i l2 E2) as (l1 & E1 & L1). exists l1. split; [done|lia].
Qed.
Lemma below_unprivileged s s' : below s s' -> unprivileged (cr s) -> unprivileged (cr s').
Proof. intros B Hu Hin. apply Hu, (below_users _ _ B), Hin. Qed.
(** Changes elsewhere. *)
Lemma below_mem s u : below s (set_mem u s).
Proof. split; [done..|]. intros i l E. exists l. split; [done|lia]. Qed.
Lemma below_cr s c : (forall u, u ∈ user_ids c -> u ∈ user_ids (cr s)) -> (forall g, g ∈ group_ids c -> g ∈ group_ids (cr s)) -> below s (set_cr c s).
Proof. intros A B. split; [done..|]. intros i l E. exists l. split; [done|lia]. Qed.

Lemma not_super c : unprivileged c -> superuser c = false.
Proof. intros Hu. unfold superuser. apply Z.eqb_neq. intros E. apply Hu. unfold user_ids. rewrite E. set_solver. Qed.

Lemma choose_user c id old : allowed_uid c id = true -> old ∈ user_ids c -> choose id old ∈ user_ids c.
Proof.
  unfold allowed_uid, choose, user_ids. intros A Ho. destruct (Z.eqb_spec id no_id); [done|]. destruct (Z.eqb_spec id (uid c)) as [->|]; [set_solver|].
  destruct (Z.eqb_spec id (euid c)) as [->|]; [set_solver|]. destruct (Z.eqb_spec id (suid c)) as [->|]; [set_solver|done].
Qed.
Lemma choose_group c id old : allowed_gid c id = true -> old ∈ group_ids c -> choose id old ∈ group_ids c.
Proof.
  unfold allowed_gid, choose, group_ids. intros A Ho. destruct (Z.eqb_spec id no_id); [done|]. destruct (Z.eqb_spec id (gid c)) as [->|]; [set_solver|].
  destruct (Z.eqb_spec id (egid c)) as [->|]; [set_solver|]. destruct (Z.eqb_spec id (sgid c)) as [->|]; [set_solver|done].
Qed.

Lemma setuid_below u s : unprivileged (cr s) -> below s (snd (sys_setuid u s)).
Proof.
  intros Hu. unfold sys_setuid. rewrite not_super by done. destruct (Z.eqb_spec u (uid (cr s))) as [->|]; [|destruct (Z.eqb_spec u (suid (cr s))) as [->|]]; cbn -[user_ids group_ids];
    [apply below_cr; unfold user_ids, group_ids; cbn; set_solver..|apply below_refl].
Qed.
Lemma setgid_below g s : unprivileged (cr s) -> below s (snd (sys_setgid g s)).
Proof.
  intros Hu. unfold sys_setgid. rewrite not_super by done. destruct (Z.eqb_spec g (gid (cr s))) as [->|]; [|destruct (Z.eqb_spec g (sgid (cr s))) as [->|]]; cbn -[user_ids group_ids];
    [apply below_cr; unfold user_ids, group_ids; cbn; set_solver..|apply below_refl].
Qed.
Lemma setresuid_below r e v s : unprivileged (cr s) -> below s (snd (sys_setresuid r e v s)).
Proof.
  intros Hu. unfold sys_setresuid. rewrite not_super by done. cbn [negb andb]. destruct (allowed_uid _ r) eqn:Ar; [|apply below_refl]. destruct (allowed_uid _ e) eqn:Ae; [|apply below_refl].
  destruct (allowed_uid _ v) eqn:Av; [|apply below_refl]. cbn [negb]. apply below_cr; [|done]. intros x Hx. unfold user_ids in Hx. cbn in Hx. rewrite !elem_of_cons, elem_of_nil in Hx.
  destruct Hx as [-> | [-> | [-> | []]]]; (apply choose_user; [done|]); unfold user_ids; set_solver.
Qed.
Lemma setresgid_below r e v s : unprivileged (cr s) -> below s (snd (sys_setresgid r e v s)).
Proof.
  intros Hu. unfold sys_setresgid. rewrite not_super by done. cbn [negb andb]. destruct (allowed_gid _ r) eqn:Ar; [|apply below_refl]. destruct (allowed_gid _ e) eqn:Ae; [|apply below_refl].
  destruct (allowed_gid _ v) eqn:Av; [|apply below_refl]. cbn [negb]. apply below_cr; [done|]. intros x Hx. unfold group_ids in Hx. cbn in Hx. rewrite !elem_of_cons, elem_of_nil in Hx.
  destruct Hx as [-> | [-> | [-> | []]]]; (apply choose_group; [done|]); unfold group_ids; set_solver.
Qed.
Lemma setgroups_below n a s : below s (snd (sys_setgroups n a s)).
Proof. unfold sys_setgroups. destruct (_ >? _); [apply below_refl|]. destruct (user_read_words _ _ _) as [words bad]. destruct bad; [by apply (below_cr s (set_groups (words ++ drop (length words) (groups (cr s))) (cr s)))|by apply (below_cr s (set_ngroups n (set_groups (words ++ drop (length words) (groups (cr s))) (cr s))))]. Qed.

Lemma set_checked_below r l s : unprivileged (cr s) -> below s (snd (set_checked r l s)).
Proof.
  intros Hu. unfold set_checked, check_setrlimit. rewrite not_super by done. destruct (rlimit_get (s32 r) s) as [e|old] eqn:Eg; cbv zeta.
  - unfold rlimit_get in Eg. destruct (resource_valid (s32 r)) eqn:Ev; [done|]. injection Eg as <-. change (_EINVAL <? 0) with true. apply below_refl.
  - destruct (rmax l >? rmax old) eqn:El; [change (_EPERM <? 0) with true; apply below_refl|]. change (0 <? 0) with false. cbn iota. rewrite Z.gtb_ltb, Z.ltb_ge in El.
    unfold rlimit_set. destruct (resource_valid (s32 r)) eqn:Ev; [|apply below_refl]. cbn [negb snd]. unfold rlimit_get in Eg. rewrite Ev in Eg. injection Eg as <-.
    split; [done..|by cbn; rewrite length_insert|]. cbn. intros i l' Hi. destruct (decide (i = Z.to_nat (s32 r))) as [->|D]; [|rewrite list_lookup_insert_ne in Hi by done; exists l'; split; [done|lia]].
    apply list_lookup_insert_Some in Hi as [(_ & <- & Hlt)|[? _]]; [|done]. destruct (lookup_lt_is_Some_2 _ _ Hlt) as [o Ho]. rewrite Ho in El. by exists o.
Qed.
Lemma prlimit_below p r n o s : unprivileged (cr s) -> below s (snd (sys_prlimit64 p r n o s)).
Proof.
  intros Hu. unfold sys_prlimit64. destruct (negb (p =? 0)); [apply below_refl|]. cbv zeta.
  assert (forall s1, unprivileged (cr s1) -> below s1 (snd ((if n =? 0 then (0, s1) else match get_rlimit n s1 with Some new => set_checked r new s1 | None => (_EFAULT, s1) end)))) as K.
  { intros s1 Hu1. destruct (n =? 0); [apply below_refl|]. destruct (get_rlimit n s1); [by apply set_checked_below|apply below_refl]. }
  destruct (o =? 0); [by apply K|]. destruct (rlimit_get (s32 r) s) as [e|l]; [apply below_refl|]. unfold put_or_fault. destruct (user_put _ _ _) as [bad u]. destruct bad; [apply below_mem|].
  eapply below_trans; [apply below_mem|]. by apply K.
Qed.

Lemma run_call_below c s : unprivileged (cr s) -> below s (snd (run_call c s)).
Proof.
  intros Hu. destruct c; cbn [run_call]; [by apply setuid_below|by apply setresuid_below|by apply setresuid_below|by apply setgid_below|by apply setresgid_below|by apply setresgid_below
    |apply setgroups_below| |by apply prlimit_below]. unfold sys_setrlimit32. destruct (get_rlimit _ _); [by apply set_checked_below|apply below_refl].
Qed.
Lemma run_calls_below l : forall s, unprivileged (cr s) -> below s (run_calls l s).
Proof.
  induction l as [|c l IH]; intros s Hu; cbn [run_calls]; [apply below_refl|]. pose proof (run_call_below c s Hu) as B. eapply below_trans; [exact B|]. apply IH. by eapply below_unprivileged.
Qed.

(** The supplementary groups, as the task holds them. *)
Definition supplementary (c : creds) : list Z * Z := (groups c, ngroups c).
Definition sets_groups (c : cred_call) : bool := match c with SetGroups _ _ => true | _ => false end.

Lemma prlimit_cr p r n o s : cr (snd (sys_prlimit64 p r n o s)) = cr s.
Proof.
  unfold sys_prlimit64, set_checked, rlimit_set, put_or_fault. cbv zeta. by repeat (match goal with |- context [match ?x with _ => _ end] => destruct x end; try done).
Qed.
Lemma run_call_supplementary c s : sets_groups c = false -> supplementary (cr (snd (run_call c s))) = supplementary (cr s).
Proof.
  destruct c; intros E; try done; cbn [run_call]; rewrite ?prlimit_cr; try done;
    unfold sys_setuid, sys_setreuid, sys_setresuid, sys_setgid, sys_setregid, sys_setresgid, sys_setrlimit32, set_checked, rlimit_set; cbv zeta; by repeat (match goal with |- context [match ?x with _ => _ end] => destruct x end; try done).
Qed.
Lemma run_calls_supplementary l : forall s, existsb sets_groups l = false -> supplementary (cr (run_calls l s)) = supplementary (cr s).
Proof.
  induction l as [|c l IH]; intros s E; [done|]. cbn in E. apply orb_false_iff in E as [Ec El]. cbn [run_calls]. rewrite IH by done. by apply run_call_supplementary.
Qed.

(** C33: privileges are not gained: a task none of whose user ids is 0 has, after any calls that change ids, groups or limits, no user id and no real, effective or saved group id it did not
    have, no user id 0, and no limit whose maximum is higher; its supplementary groups are what they were as long as [setgroups] is not among the calls (which is for everybody: see
    [setgroups_unchecked]). *)
Theorem privileges_not_gained l s : unprivileged (cr s) ->
  below s (run_calls l s) /\ unprivileged (cr (run_calls l s)) /\
  (existsb sets_groups l = false -> supplementary (cr (run_calls l s)) = supplementary (cr s)).
Proof. intros Hu. pose proof (run_calls_below l s Hu) as B. split_and!; [done|by eapply below_unprivileged|apply run_calls_supplementary]. Qed.

(** a privileged task that calls [setuid] gives its privileges up: all its user ids are the new one, and stay so whatever calls follow. *)
Theorem setuid_is_final u l s : superuser (cr s) = true -> u <> 0 ->
  fst (sys_setuid u s) = 0 /\ user_ids (cr (run_calls l (snd (sys_setuid u s)))) = [u; u; u].
Proof.
  intros Hs Hu. unfold sys_setuid at 1. rewrite Hs. split; [done|]. set (s1 := snd (sys_setuid u s)). assert (user_ids (cr s1) = [u; u; u]) as E by (unfold s1, sys_setuid; by rewrite Hs).
  assert (unprivileged (cr s1)) as Hp by (unfold unprivileged; rewrite E; set_solver). pose proof (below_users _ _ (run_calls_below l s1 Hp)) as B. rewrite E in B. unfold user_ids in *.
  assert (forall x, x ∈ [u; u; u] -> x = u) as K by set_solver. f_equal; [apply K, B; set_solver|]. f_equal; [apply K, B; set_solver|]. f_equal. apply K, B. set_solver.
Qed.

(** [setreuid] does not give privileges up: the saved id stays 0, and [setuid] gets them back. *)
Theorem setreuid_keeps_saved u s : superuser (cr s) = true -> suid (cr s) = 0 -> u <> 0 -> u <> no_id ->
  let '(r, s1) := sys_setreuid u u s in
  r = 0 /\ uid (cr s1) = u /\ euid (cr s1) = u /\ superuser (cr s1) = false /\
  let '(r2, s2) := sys_setuid 0 s1 in r2 = 0 /\ superuser (cr s2) = true.
Proof.
  intros Hs Hsv Hu Hn. unfold sys_setreuid, sys_setresuid. rewrite Hs. cbn. unfold choose. rewrite (proj2 (Z.eqb_neq u no_id) Hn). cbn.
  unfold superuser at 1 2. cbn. rewrite (proj2 (Z.eqb_neq u 0) Hu). split_and!; try done. unfold sys_setuid, superuser. cbn. rewrite (proj2 (Z.eqb_neq u 0) Hu). rewrite Hsv. cbn. rewrite andb_false_r. done.
Qed.

(** [setgroups] is for everybody: it takes any groups, whatever the ids of the task are. *)
Theorem setgroups_unchecked addr words s : user_read_words addr (Z.of_nat (length words)) (mem s) = (words, false) -> Z.of_nat (length words) <= MAX_GROUPS -> length (groups (cr s)) = Z.to_nat MAX_GROUPS ->
  let '(r, s') := sys_setgroups (Z.of_nat (length words)) addr s in
  r = 0 /\ take (Z.to_nat (ngroups (cr s'))) (groups (cr s')) = words /\ length (groups (cr s')) = Z.to_nat MAX_GROUPS.
Proof.
  intros Hr Hl Hg. unfold sys_setgroups. rewrite Z.gtb_ltb, (proj2 (Z.ltb_ge _ _) Hl), Hr. cbn. rewrite Nat2Z.id, take_app_length, length_app, length_drop, Hg. split_and!; try done. lia.
Qed.

(** [setrlimit] reads a structure of 64-bit fields where the caller has one of 32-bit fields: of the two limits the caller gives it makes the first, and memory after the
    structure becomes the second. *)
Theorem setrlimit_misreads resource addr c x y z s : superuser (cr s) = true -> resource_valid (s32 resource) = true -> length (limits s) = Z.to_nat RLIMIT_NLIMITS_ ->
  (forall a b d e, user_get addr [4; 4; 4; 4] (mem s) = Some [a; b; d; e] -> user_get addr [8; 8] (mem s) = Some [a + 2 ^ 32 * b; d + 2 ^ 32 * e]) ->
  user_get addr [4; 4; 4; 4] (mem s) = Some [c; x; y; z] ->
  let '(r, s') := sys_setrlimit32 resource addr s in r = 0 /\ limits s' !! Z.to_nat (s32 resource) = Some (mk_rlimit (c + 2 ^ 32 * x) (y + 2 ^ 32 * z)).
Proof.
  intros Hs Hv Hl Hlaw Hm. unfold sys_setrlimit32, get_rlimit. rewrite (Hlaw _ _ _ _ Hm). unfold set_checked, check_setrlimit. rewrite Hs. cbn. unfold rlimit_set. rewrite Hv. cbn. split; [done|].
  apply list_lookup_insert_eq. rewrite Hl. unfold resource_valid in Hv. apply andb_true_iff in Hv as [H0%Z.leb_le H1%Z.ltb_lt]. unfold RLIMIT_NLIMITS_ in *. lia.
Qed.

(** adding times: the sum of two times is their sum in microseconds, normal again, as long as the seconds fit in 32 bits. *)
Theorem timeval_add_spec a b : 0 <= usec a < 1000000 -> 0 <= usec b < 1000000 -> 0 <= sec a -> 0 <= sec b -> sec a + sec b + 1 < 2 ^ 32 ->
  let micros t := sec t * 1000000 + usec t in
  micros (timeval_add a b) = micros a + micros b /\ 0 <= usec (timeval_add a b) < 1000000.
Proof.
  intros Ha Hb Hsa Hsb Hs. unfold timeval_add. rewrite (wrap_small 32 (usec a + usec b)), (wrap_small 32 (sec a + sec b)) by (unfold in_u; lia). rewrite Z.geb_leb.
  destruct (Z.leb_spec 1000000 (usec a + usec b)); cbn; rewrite ?wrap_small by (unfold in_u; lia); lia.
Qed.

End Properties.

(** ** The properties at work *)

Module Demo.

(** Guest memory: a list of 32-bit words, the first at address 4096. *)
Definition words_at (addr n : Z) (u : list Z) : list Z := take (Z.to_nat n) (drop (Z.to_nat ((addr - 4096) / 4)) u).
#[local] Instance demo_memory : UserMemory (list Z) := {|
  user_put _ _ u := (false, u);
  user_get addr sizes u :=
    match sizes with
    | [8; 8] => match words_at addr 4 u with [a; b; c; d] => Some [a + 2 ^ 32 * b; c + 2 ^ 32 * d] | _ => None end
    | _ => Some (words_at addr (Z.of_nat (length sizes)) u)
    end;
  user_write_words _ _ u := (false, u);
  user_read_words addr n u := let w := words_at addr n u in (w, Z.of_nat (length w) <? n) |}.
Definition start (u e v : Z) : state (list Z) :=
  mk_state (mk_creds u e v 100 100 100 (replicate 32 0) 0) (replicate 16 (mk_rlimit 1024 4096)) (mk_rusage (mk_timeval 0 0) (mk_timeval 0 0) []) 0 7 7 (Some 1) [5; 6; 7; 8].

Lemma privileges_not_gained_witness :
  unprivileged (cr (run_calls [SetResUid 501 500 502; SetUid 502; SetGroups 2 4096; SetRlimit 7 4096; SetUid 0] (start 500 501 502))) /\
  supplementary (cr (run_calls [SetUid 502; SetRlimit 7 4096; SetUid 0] (start 500 501 502))) = (replicate 32 0, 0).
Proof.
  split; [apply (privileges_not_gained [SetResUid 501 500 502; SetUid 502; SetGroups 2 4096; SetRlimit 7 4096; SetUid 0] (start 500 501 502))
    |apply (privileges_not_gained [SetUid 502; SetRlimit 7 4096; SetUid 0] (start 500 501 502)); [|reflexivity]]; unfold unprivileged, user_ids; cbn; set_solver.
Defined.
Lemma setuid_is_final_witness : user_ids (cr (run_calls [SetUid 0; SetResUid 0 0 0] (snd (sys_setuid 500 (start 0 0 0))))) = [500; 500; 500].
Proof. apply (setuid_is_final 500 [SetUid 0; SetResUid 0 0 0] (start 0 0 0)); done. Defined.
Lemma setreuid_keeps_saved_witness : superuser (cr (snd (sys_setuid 0 (snd (sys_setreuid 500 500 (start 0 0 0)))))) = true.
Proof. exact (proj2 (proj2 (proj2 (proj2 (proj2 (setreuid_keeps_saved 500 (start 0 0 0) eq_refl eq_refl ltac:(done) ltac:(done))))))). Defined.
Lemma setgroups_unchecked_witness : fst (sys_setgroups 2 4096 (start 500 500 500)) = 0.
Proof. exact (proj1 (setgroups_unchecked 4096 [5; 6] (start 500 500 500) eq_refl ltac:(done) eq_refl)). Defined.
Lemma setrlimit_misreads_witness : limits (snd (sys_setrlimit32 7 4096 (start 0 0 0))) !! 7%nat = Some (mk_rlimit (5 + 2 ^ 32 * 6) (7 + 2 ^ 32 * 8)).
Proof.
  refine (proj2 (setrlimit_misreads 7 4096 5 6 7 8 (start 0 0 0) eq_refl eq_refl eq_refl _ eq_refl)). intros a b d e E. injection E as <- <- <- <-. reflexivity.
Defined.
Lemma timeval_add_spec_witness : timeval_add (mk_timeval 1 600000) (mk_timeval 2 700000) = mk_timeval 4 300000 /\ 0 <= usec (timeval_add (mk_timeval 1 600000) (mk_timeval 2 700000)) < 1000000.
Proof. split; [reflexivity|]. apply (timeval_add_spec (mk_timeval 1 600000) (mk_timeval 2 700000)); cbn; lia. Defined.

End Demo.
End Creds.
