(* ===== verification/Exec.v ===== *)
(** * Running a program (kernel/exec.c, kernel/elf.h, update_thread_name of kernel/task.c)

    [execve] reads the arguments, opens the file, replaces the memory of the task by the segments of an ELF file and of its interpreter, builds the first
    stack, and resets what does not survive.  A file that starts with a [#!] line is run by the interpreter it names.

    A pointer to characters is the list of the bytes from there to the end of what was stored in the buffer; reading past them is a fault.  The address space,
    open files and the host are parameters; what is asked of an address space is in Space.v.  The lock of
    the address space is part of the state: taking it twice hangs, and releasing it when it is not held is a fault.  The [malloc]ed buffers, which are only
    freed, and the file offsets and names of mappings, which only the proc file system shows, are left out. *)

From S2P Require Import Prelude Errno FileLock Memory Cow User Float80 Cpu Fpu Task Signal Vfs Path Fd Generic Space.

Module Exec.
Import Errno Vfs Path Fd Generic Space.
Abbreviation PAGE_BITS := Memory.PAGE_BITS.
Abbreviation PAGE_SIZE := Memory.PAGE_SIZE.
Abbreviation PAGE := Memory.PAGE.
Abbreviation PGOFFSET := Memory.PGOFFSET.
Abbreviation BAD_PAGE := Memory.BAD_PAGE.
Abbreviation P_READ := Memory.P_READ.
Abbreviation P_WRITE := Memory.P_WRITE.
Abbreviation P_GROWSDOWN := Memory.P_GROWSDOWN.
Abbreviation le_bytes := Fpu.le_bytes.
Abbreviation le_value := Fpu.le_value.
Abbreviation NUM_SIGS := Task.NUM_SIGS.
Abbreviation SIG_IGN_ := Signal.SIG_IGN_.
Abbreviation SIG_DFL_ := Signal.SIG_DFL_.

Definition PAGE_ROUND_UP (bytes : Z) : Z := PAGE (u32 (bytes + PAGE_SIZE - 1)).
Definition BYTES_ROUND_UP (bytes : Z) : Z := u32 (Z.shiftl (PAGE_ROUND_UP bytes) PAGE_BITS).
Definition ARGV_MAX : Z := 32 * PAGE_SIZE.
Definition VVAR_PAGES : Z := 4.
Definition VDSO_PAGES : Z := 2.
Abbreviation O_RDONLY_ := FileLock.O_RDONLY_.
Definition S_ISUID : Z := 2048.
Definition S_ISGID : Z := 1024.

(** ** ELF files (kernel/elf.h) *)

Definition ELF_MAGIC : list Z := [127; 69; 76; 70].
Definition ELF_32BIT : Z := 1.
Definition ELF_LITTLEENDIAN : Z := 1.
Definition ELF_EXECUTABLE : Z := 2.
Definition ELF_DYNAMIC : Z := 3.
Definition ELF_X86 : Z := 3.
Definition PT_LOAD : Z := 1.
Definition PT_INTERP : Z := 3.
Definition PH_W : Z := Z.shiftl 1 1.

(** [struct elf_header], 52 bytes; [padding] as a number, and [magic] as its four bytes. *)
Record elf_header := mk_elf_header {
  eh_magic : list Z;
  eh_bitness : Z;
  eh_endian : Z;
  eh_elfversion1 : Z;
  eh_abi : Z;
  eh_abi_version : Z;
  eh_padding : Z;
  eh_type : Z;
  eh_machine : Z;
  eh_elfversion2 : Z;
  eh_entry_point : Z;
  eh_prghead_off : Z;
  eh_secthead_off : Z;
  eh_eflags : Z;
  eh_header_size : Z;
  eh_phent_size : Z;
  eh_phent_count : Z;
  eh_shent_size : Z;
  eh_shent_count : Z;
  eh_sectname_index : Z }.
(** [struct prg_header], 32 bytes. *)
Record prg_header := mk_prg_header {
  ph_type : Z;
  ph_offset : Z;
  ph_vaddr : Z;
  ph_paddr : Z;
  ph_filesize : Z;
  ph_memsize : Z;
  ph_flags : Z;
  ph_alignment : Z }.

(** The little-endian number of [n] bytes at [off]. *)
Definition field (b : list Z) (off n : nat) : Z := le_value (take n (drop off b)).
Definition elf_header_of (b : list Z) : elf_header :=
  mk_elf_header (take 4 b) (field b 4 1) (field b 5 1) (field b 6 1) (field b 7 1) (field b 8 1) (field b 9 7) (field b 16 2) (field b 18 2) (field b 20 4) (field b 24 4) (field b 28 4) (field b 32 4) (field b 36 4) (field b 40 2) (field b 42 2) (field b 44 2) (field b 46 2) (field b 48 2) (field b 50 2).
Definition prg_header_of (b : list Z) : prg_header :=
  mk_prg_header (field b 0 4) (field b 4 4) (field b 8 4) (field b 12 4) (field b 16 4) (field b 20 4) (field b 24 4) (field b 28 4).
Fixpoint prg_headers_of (n : nat) (b : list Z) : list prg_header :=
  match n with O => [] | S n => prg_header_of (take 32 b) :: prg_headers_of n (drop 32 b) end.

Definition AX_PHDR : Z := 3.
Definition AX_PHENT : Z := 4.
Definition AX_PHNUM : Z := 5.
Definition AX_PAGESZ : Z := 6.
Definition AX_BASE : Z := 7.
Definition AX_FLAGS : Z := 8.
Definition AX_ENTRY : Z := 9.
Definition AX_UID : Z := 11.
Definition AX_EUID : Z := 12.
Definition AX_GID : Z := 13.
Definition AX_EGID : Z := 14.
Definition AX_PLATFORM : Z := 15.
Definition AX_HWCAP : Z := 16.
Definition AX_CLKTCK : Z := 17.
Definition AX_SECURE : Z := 23.
Definition AX_RANDOM : Z := 25.
Definition AX_HWCAP2 : Z := 26.
Definition AX_EXECFN : Z := 31.
Definition AX_SYSINFO : Z := 32.
Definition AX_SYSINFO_EHDR : Z := 33.

(** ** State *)

(** [struct mm] without its reference count and page table. *)
Record mm_struct := mk_mm {
  vdso : Z;
  start_brk : Z;
  brk : Z;
  argv_start : Z;
  argv_end : Z;
  env_start : Z;
  env_end : Z;
  auxv_start : Z;
  auxv_end : Z;
  stack_start : Z;
  exefile : option Z }.
Definition set_vdso (v : Z) (x : mm_struct) : mm_struct :=
  mk_mm v (start_brk x) (brk x) (argv_start x) (argv_end x) (env_start x) (env_end x) (auxv_start x) (auxv_end x) (stack_start x) (exefile x).
Definition set_start_brk (v : Z) (x : mm_struct) : mm_struct :=
  mk_mm (vdso x) v (brk x) (argv_start x) (argv_end x) (env_start x) (env_end x) (auxv_start x) (auxv_end x) (stack_start x) (exefile x).
Definition set_brk (v : Z) (x : mm_struct) : mm_struct :=
  mk_mm (vdso x) (start_brk x) v (argv_start x) (argv_end x) (env_start x) (env_end x) (auxv_start x) (auxv_end x) (stack_start x) (exefile x).
Definition set_argv_start (v : Z) (x : mm_struct) : mm_struct :=
  mk_mm (vdso x) (start_brk x) (brk x) v (argv_end x) (env_start x) (env_end x) (auxv_start x) (auxv_end x) (stack_start x) (exefile x).
Definition set_argv_end (v : Z) (x : mm_struct) : mm_struct :=
  mk_mm (vdso x) (start_brk x) (brk x) (argv_start x) v (env_start x) (env_end x) (auxv_start x) (auxv_end x) (stack_start x) (exefile x).
Definition set_env_start (v : Z) (x : mm_struct) : mm_struct :=
  mk_mm (vdso x) (start_brk x) (brk x) (argv_start x) (argv_end x) v (env_end x) (auxv_start x) (auxv_end x) (stack_start x) (exefile x).
Definition set_env_end (v : Z) (x : mm_struct) : mm_struct :=
  mk_mm (vdso x) (start_brk x) (brk x) (argv_start x) (argv_end x) (env_start x) v (auxv_start x) (auxv_end x) (stack_start x) (exefile x).
Definition set_auxv_start (v : Z) (x : mm_struct) : mm_struct :=
  mk_mm (vdso x) (start_brk x) (brk x) (argv_start x) (argv_end x) (env_start x) (env_end x) v (auxv_end x) (stack_start x) (exefile x).
Definition set_auxv_end (v : Z) (x : mm_struct) : mm_struct :=
  mk_mm (vdso x) (start_brk x) (brk x) (argv_start x) (argv_end x) (env_start x) (env_end x) (auxv_start x) v (stack_start x) (exefile x).
Definition set_stack_start (v : Z) (x : mm_struct) : mm_struct :=
  mk_mm (vdso x) (start_brk x) (brk x) (argv_start x) (argv_end x) (env_start x) (env_end x) (auxv_start x) (auxv_end x) v (exefile x).
Definition set_exefile (v : option Z) (x : mm_struct) : mm_struct :=
  mk_mm (vdso x) (start_brk x) (brk x) (argv_start x) (argv_end x) (env_start x) (env_end x) (auxv_start x) (auxv_end x) (stack_start x) v.

(** The registers that a program starts with; [core] has the flags and the control word of the x87. *)
Record registers := mk_registers {
  eax : Z;
  ebx : Z;
  ecx : Z;
  edx : Z;
  esi : Z;
  edi : Z;
  ebp : Z;
  esp : Z;
  eip : Z;
  core : Cpu.cpu_state }.
Definition set_eax (v : Z) (x : registers) : registers :=
  mk_registers v (ebx x) (ecx x) (edx x) (esi x) (edi x) (ebp x) (esp x) (eip x) (core x).
Definition set_ebx (v : Z) (x : registers) : registers :=
  mk_registers (eax x) v (ecx x) (edx x) (esi x) (edi x) (ebp x) (esp x) (eip x) (core x).
Definition set_ecx (v : Z) (x : registers) : registers :=
  mk_registers (eax x) (ebx x) v (edx x) (esi x) (edi x) (ebp x) (esp x) (eip x) (core x).
Definition set_edx (v : Z) (x : registers) : registers :=
  mk_registers (eax x) (ebx x) (ecx x) v (esi x) (edi x) (ebp x) (esp x) (eip x) (core x).
Definition set_esi (v : Z) (x : registers) : registers :=
  mk_registers (eax x) (ebx x) (ecx x) (edx x) v (edi x) (ebp x) (esp x) (eip x) (core x).
Definition set_edi (v : Z) (x : registers) : registers :=
  mk_registers (eax x) (ebx x) (ecx x) (edx x) (esi x) v (ebp x) (esp x) (eip x) (core x).
Definition set_ebp (v : Z) (x : registers) : registers :=
  mk_registers (eax x) (ebx x) (ecx x) (edx x) (esi x) (edi x) v (esp x) (eip x) (core x).
Definition set_esp (v : Z) (x : registers) : registers :=
  mk_registers (eax x) (ebx x) (ecx x) (edx x) (esi x) (edi x) (ebp x) v (eip x) (core x).
Definition set_eip (v : Z) (x : registers) : registers :=
  mk_registers (eax x) (ebx x) (ecx x) (edx x) (esi x) (edi x) (ebp x) (esp x) v (core x).
Definition set_core (v : Cpu.cpu_state) (x : registers) : registers :=
  mk_registers (eax x) (ebx x) (ecx x) (edx x) (esi x) (edi x) (ebp x) (esp x) (eip x) v.

(** The address space, the lock for writing to it, and what the current task has besides its ids and files: [handlers] are those of its signal actions,
    [vfork] is whether a waiting parent was told, and [sent] the signals it sent itself, with code, process and user. *)
Section State.
Context {U : Type}.
Record world := mk_world {
  space : U;
  wlocked : bool;
  mm : mm_struct;
  cpu : registers;
  suid : Z;
  sgid : Z;
  comm : list Z;
  thread_name : list Z;
  handlers : list Z;
  altstack : Z;
  did_exec : bool;
  vfork : option bool;
  traced : bool;
  sent : list (Z * Z * Z * Z) }.
Definition set_space (v : U) (x : world) : world :=
  mk_world v (wlocked x) (mm x) (cpu x) (suid x) (sgid x) (comm x) (thread_name x) (handlers x) (altstack x) (did_exec x) (vfork x) (traced x) (sent x).
Definition set_wlocked (v : bool) (x : world) : world :=
  mk_world (space x) v (mm x) (cpu x) (suid x) (sgid x) (comm x) (thread_name x) (handlers x) (altstack x) (did_exec x) (vfork x) (traced x) (sent x).
Definition set_mm (v : mm_struct) (x : world) : world :=
  mk_world (space x) (wlocked x) v (cpu x) (suid x) (sgid x) (comm x) (thread_name x) (handlers x) (altstack x) (did_exec x) (vfork x) (traced x) (sent x).
Definition set_cpu (v : registers) (x : world) : world :=
  mk_world (space x) (wlocked x) (mm x) v (suid x) (sgid x) (comm x) (thread_name x) (handlers x) (altstack x) (did_exec x) (vfork x) (traced x) (sent x).
Definition set_suid (v : Z) (x : world) : world :=
  mk_world (space x) (wlocked x) (mm x) (cpu x) v (sgid x) (comm x) (thread_name x) (handlers x) (altstack x) (did_exec x) (vfork x) (traced x) (sent x).
Definition set_sgid (v : Z) (x : world) : world :=
  mk_world (space x) (wlocked x) (mm x) (cpu x) (suid x) v (comm x) (thread_name x) (handlers x) (altstack x) (did_exec x) (vfork x) (traced x) (sent x).
Definition set_comm (v : list Z) (x : world) : world :=
  mk_world (space x) (wlocked x) (mm x) (cpu x) (suid x) (sgid x) v (thread_name x) (handlers x) (altstack x) (did_exec x) (vfork x) (traced x) (sent x).
Definition set_thread_name (v : list Z) (x : world) : world :=
  mk_world (space x) (wlocked x) (mm x) (cpu x) (suid x) (sgid x) (comm x) v (handlers x) (altstack x) (did_exec x) (vfork x) (traced x) (sent x).
Definition set_handlers (v : list Z) (x : world) : world :=
  mk_world (space x) (wlocked x) (mm x) (cpu x) (suid x) (sgid x) (comm x) (thread_name x) v (altstack x) (did_exec x) (vfork x) (traced x) (sent x).
Definition set_altstack (v : Z) (x : world) : world :=
  mk_world (space x) (wlocked x) (mm x) (cpu x) (suid x) (sgid x) (comm x) (thread_name x) (handlers x) v (did_exec x) (vfork x) (traced x) (sent x).
Definition set_did_exec (v : bool) (x : world) : world :=
  mk_world (space x) (wlocked x) (mm x) (cpu x) (suid x) (sgid x) (comm x) (thread_name x) (handlers x) (altstack x) v (vfork x) (traced x) (sent x).
Definition set_vfork (v : option bool) (x : world) : world :=
  mk_world (space x) (wlocked x) (mm x) (cpu x) (suid x) (sgid x) (comm x) (thread_name x) (handlers x) (altstack x) (did_exec x) v (traced x) (sent x).
Definition set_traced (v : bool) (x : world) : world :=
  mk_world (space x) (wlocked x) (mm x) (cpu x) (suid x) (sgid x) (comm x) (thread_name x) (handlers x) (altstack x) (did_exec x) (vfork x) v (sent x).
Definition set_sent (v : list (Z * Z * Z * Z)) (x : world) : world :=
  mk_world (space x) (wlocked x) (mm x) (cpu x) (suid x) (sgid x) (comm x) (thread_name x) (handlers x) (altstack x) (did_exec x) (vfork x) (traced x) v.

End State.
Arguments world U : clear implicits.

(** [struct exec_args]. *)
Record exec_args := mk_args {
  count : Z;
  args : list Z }.

(** The calls of [malloc]. *)
Inductive malloc_call := M_HEADERS | M_INTERP | M_ARGV | M_ENVP.

(** Open files, the host and the data that is compiled in.  [file_read] gives an error number or the bytes that were read; [mm_new] is what a new [struct mm]
    holds. *)
Class Host (U : Type) := {
  file_lseek : Z -> Z -> V (world U) Z;
  file_read : Z -> Z -> V (world U) (Z + list Z);
  file_mmap : Z -> Z -> Z -> Z -> Z -> V (world U) Z;
  host_errno : vfs (world U) -> Z;
  malloc_ok : malloc_call -> Z -> bool;
  random_bytes : list Z;
  vdso_data : list Z;
  mm_new : mm_struct;
}.

Section Calls.
Context {U : Type} {SP : Space U} {HO : Host U} {SY : System (world U)}.
Abbreviation T := (V (world U)).

(** ** Helpers *)

Definition get_world : T (world U) := gets (fun s => fsd s).
Definition upd_world (g : world U -> world U) : T unit := modify (fun s => set_fsd (g (fsd s)) s).
Definition upd_mm (g : mm_struct -> mm_struct) : T unit := upd_world (fun w => set_mm (g (mm w)) w).
Definition upd_cpu (g : registers -> registers) : T unit := upd_world (fun w => set_cpu (g (cpu w)) w).

(** The lock for writing to the address space: who holds it and takes it waits for itself. *)
Definition write_wrlock : T unit := let! w := get_world in if wlocked w then hang else upd_world (set_wlocked true).
Definition write_wrunlock : T unit := let! w := get_world in if wlocked w then upd_world (set_wlocked false) else fault.

(** The functions of kernel/user.c take the lock for reading. *)
Definition with_space {A} (f : U -> option (A * U)) : T A :=
  let! w := get_world in
  if wlocked w then hang
  else let! (a, u) := deref (f (space w)) in upd_world (set_space u) ;; ret a.
Definition put (addr : Z) (bytes : list Z) : T bool := let! r := with_space (fun u => user_write u addr bytes) in ret (ctrue r).
(** What a variable of [n] bytes holds after [user_get], if that succeeded. *)
Definition get (addr : Z) (n : nat) : T (option (list Z)) :=
  let! (r, b) := with_space (fun u => user_read u addr (replicate n 0)) in ret (if ctrue r then None else Some b).
(** The functions of kernel/memory.c want the lock for writing. *)
Definition with_mem {A} (f : U -> option (A * U)) : T A :=
  let! w := get_world in let! (a, u) := deref (f (space w)) in upd_world (set_space u) ;; ret a.

(** The string at a pointer, without its terminator. *)
Fixpoint until_nul (b : list Z) : option (list Z) :=
  match b with
  | [] => None
  | c :: b => if c =? 0 then Some [] else s ← until_nul b; Some (c :: s)
  end.
Definition strlen_ (b : list Z) : T Z := let! s := deref (until_nul b) in ret (Z.of_nat (length s)).
Definition path_of (s : list Z) : path := map (fun c => ascii_of_nat (Z.to_nat c)) s.
Definition open_string (b : list Z) : T (Z + Z) := let! s := deref (until_nul b) in generic_open (path_of s) O_RDONLY_ 0.

(** ** Headers *)

Definition read_header (f : Z) : T (Z + elf_header) :=
  let! pos := file_lseek f 0 in
  if ctrue pos then ret (inl _EIO)
  else
    let! r := file_read f 52 in
    match r with
    | inl _ => ret (inl _EIO)
    | inr b =>
        if negb (Z.of_nat (length b) =? 52) then ret (inl _ENOEXEC)
        else
          let h := elf_header_of b in
          if negb (bool_decide (eh_magic h = ELF_MAGIC)) || negb (eh_type h =? ELF_EXECUTABLE) && negb (eh_type h =? ELF_DYNAMIC)
             || negb (eh_bitness h =? ELF_32BIT) || negb (eh_endian h =? ELF_LITTLEENDIAN) || negb (eh_elfversion1 h =? 1) || negb (eh_machine h =? ELF_X86)
          then ret (inl _ENOEXEC)
          else ret (inr h)
    end.

Definition read_prg_headers (f : Z) (h : elf_header) : T (Z + list prg_header) :=
  let ph_size := 32 * eh_phent_count h in
  if negb (malloc_ok M_HEADERS ph_size) then ret (inl _ENOMEM)
  else
    let! pos := file_lseek f (eh_prghead_off h) in
    if pos <? 0 then ret (inl _EIO)
    else
      let! r := file_read f ph_size in
      let! s := gets id in
      let failed := ret (inl (if ctrue (host_errno s) then _EIO else _ENOEXEC)) in
      match r with
      | inl _ => failed
      | inr b => if Z.of_nat (length b) =? ph_size then ret (inr (prg_headers_of (Z.to_nat (eh_phent_count h)) b)) else failed
      end.

(** ** Segments *)

Fixpoint user_memset (n : nat) (start val : Z) : T Z :=
  match n with
  | O => ret 0
  | S n => let! bad := put start [val] in if bad then ret 1 else user_memset n (u32 (start + 1)) val
  end.

(** The size of the tail of the page at the end of the part that comes from the file. *)
Definition tail_of (file_end : Z) : Z := let t := PAGE_SIZE - PGOFFSET file_end in if t =? PAGE_SIZE then 0 else t.

Definition load_entry (ph : prg_header) (bias f : Z) : T Z :=
  let addr := u32 (ph_vaddr ph + bias) in
  let offset := ph_offset ph in
  let memsize := ph_memsize ph in
  let filesize := ph_filesize ph in
  let flags := if ctrue (Z.land (ph_flags ph) PH_W) then Z.lor P_READ P_WRITE else P_READ in
  let! err := file_mmap f (PAGE addr) (PAGE_ROUND_UP (u32 (filesize + PGOFFSET addr))) (u32 (offset - PGOFFSET addr)) flags in
  if err <? 0 then ret err
  else
    let! f := fd_retain f in
    let! w := get_world in
    let! u := deref (tag_file (space w) (PAGE addr) f) in
    upd_world (set_space u) ;;
    if memsize >? filesize then
      let bss_size := memsize - filesize in
      let file_end := u32 (addr + filesize) in
      let tail_size := tail_of file_end in
      (if negb (tail_size =? 0) then write_wrunlock ;; user_memset (Z.to_nat tail_size) file_end 0 ;; write_wrlock else ret tt) ;;
      let tail_size := if tail_size >? bss_size then bss_size else tail_size in
      if negb (bss_size - tail_size =? 0) then
        let! err := with_mem (fun u => map_nothing u (PAGE_ROUND_UP (u32 (addr + filesize))) (PAGE_ROUND_UP (bss_size - tail_size)) flags) in
        if err <? 0 then ret err else ret 0
      else ret 0
    else ret 0.

(** The first and last segments to load give the number of pages to look for. *)
Definition is_load (ph : prg_header) : bool := ph_type ph =? PT_LOAD.
Definition hole_size (ph : list prg_header) : Z :=
  match List.filter is_load ph with
  | [] => 0
  | first :: rest =>
      let l := List.last rest first in
      u32 (PAGE_ROUND_UP (u32 (ph_vaddr l + ph_memsize l)) - PAGE (ph_vaddr first))
  end.
Definition find_hole_for_elf (ph : list prg_header) (u : U) : Z := u32 (Z.shiftl (find_hole u (hole_size ph)) PAGE_BITS).

(** *** The interpreter *)

Record interp := mk_interp {
  in_fd : Z;
  in_header : elf_header;
  in_ph : list prg_header }.

(** The loop that looks for an interpreter.  An error comes with the file to close. *)
Definition lib_error (err : Z) : Z := if err =? _ENOEXEC then _ELIBBAD else err.
Definition open_interp (f : Z) (ph : prg_header) : T ((Z * option Z) + interp) :=
  if negb (malloc_ok M_INTERP (ph_filesize ph)) then ret (inl (_ENOMEM, None))
  else
    let! pos := file_lseek f (ph_offset ph) in
    if pos <? 0 then ret (inl (_EIO, None))
    else
      let! r := file_read f (ph_filesize ph) in
      match r with
      | inl _ => ret (inl (_EIO, None))
      | inr b =>
          if negb (Z.of_nat (length b) =? ph_filesize ph) then ret (inl (_EIO, None))
          else
            let! r := open_string b in
            match r with
            | inl err => ret (inl (err, None))
            | inr g =>
                let! r := read_header g in
                match r with
                | inl err => ret (inl (lib_error err, Some g))
                | inr h =>
                    let! r := read_prg_headers g h in
                    match r with
                    | inl err => ret (inl (lib_error err, Some g))
                    | inr l => ret (inr (mk_interp g h l))
                    end
                end
            end
      end.
Fixpoint find_interp (f : Z) (phs : list prg_header) (found : option interp) : T ((Z * option Z) + option interp) :=
  match phs with
  | [] => ret (inr found)
  | ph :: phs =>
      if negb (ph_type ph =? PT_INTERP) then find_interp f phs found
      else
        match found with
        | Some i => ret (inl (_EINVAL, Some (in_fd i)))
        | None =>
            let! r := open_interp f ph in
            match r with inl e => ret (inl e) | inr i => find_interp f phs (Some i) end
        end
  end.

(** ** Loading the program *)

Record loaded := mk_loaded {
  load_addr : Z;
  load_addr_set : bool;
  bias : Z }.

(** The loop over the program's segments; an error goes to [beyond_hope]. *)
Definition raise_brk (b : Z) : T unit :=
  let! w := get_world in
  if b >? start_brk (mm w) then upd_mm (fun m => set_brk (BYTES_ROUND_UP b) (set_start_brk (BYTES_ROUND_UP b) m)) else ret tt.
Fixpoint load_program (f : Z) (h : elf_header) (has_interp : bool) (all phs : list prg_header) (l : loaded) : T (Z + loaded) :=
  match phs with
  | [] => ret (inr l)
  | ph :: phs =>
      if negb (ph_type ph =? PT_LOAD) then load_program f h has_interp all phs l
      else
        let! w := get_world in
        let bias :=
          if negb (load_addr_set l) && (eh_type h =? ELF_DYNAMIC)
          then if has_interp then 0x56555000 else find_hole_for_elf all (space w)
          else bias l in
        let! err := load_entry ph bias f in
        if err <? 0 then ret (inl err)
        else
          let addr := if load_addr_set l then load_addr l else u32 (bias + ph_vaddr ph - ph_offset ph) in
          raise_brk (u32 (bias + ph_vaddr ph + ph_memsize ph)) ;;
          load_program f h has_interp all phs (mk_loaded addr true bias)
  end.

(** The interpreter's segments, given in the order in which they are loaded: the last first. *)
Fixpoint load_interp (f base : Z) (phs : list prg_header) : T Z :=
  match phs with
  | [] => ret 0
  | ph :: phs =>
      if negb (ph_type ph =? PT_LOAD) then load_interp f base phs
      else let! err := load_entry ph base f in if err <? 0 then ret err else load_interp f base phs
  end.

(** The two pages of the vdso, and the pages after them.  When no hole is found for the latter the error number is that of the last call, which succeeded. *)
Definition map_extras : T (Z + Z) :=
  let! w := get_world in
  let vdso_page := find_hole (space w) (VDSO_PAGES + 1) in
  if vdso_page =? BAD_PAGE then ret (inl _ENOMEM)
  else
    let vdso_page := u32 (vdso_page + 1) in
    let! err := with_mem (fun u => map_vdso u vdso_page VDSO_PAGES) in
    if err <? 0 then ret (inl err)
    else
      let! w := get_world in
      in_bounds (is_mapped (space w) vdso_page) ;;
      upd_mm (set_vdso (u32 (Z.shiftl vdso_page PAGE_BITS))) ;;
      let! w := get_world in
      let vdso_entry := u32 (vdso (mm w) + eh_entry_point (elf_header_of vdso_data)) in
      let vvar_page := find_hole (space w) VVAR_PAGES in
      if vvar_page =? BAD_PAGE then ret (inl err)
      else
        let! err := with_mem (fun u => map_nothing u vvar_page VVAR_PAGES 0) in
        if err <? 0 then ret (inl err)
        else
          let! w := get_world in
          in_bounds (is_mapped (space w) vvar_page) ;;
          ret (inr vdso_entry).

Definition map_stack : T Z := with_mem (fun u => map_nothing u 0xffffd 1 (Z.lor P_WRITE P_GROWSDOWN)).

(** What the stack is built from. *)
Record image := mk_image {
  im_load_addr : Z;
  im_bias : Z;
  im_interp_base : Z;
  im_entry : Z;
  im_vdso_entry : Z }.

(** All mappings, under the lock. *)
Definition map_image (f : Z) (h : elf_header) (ph : list prg_header) (i : option interp) : T (Z + image) :=
  let! r := load_program f h (bool_decide (is_Some i)) ph ph (mk_loaded 0 false 0) in
  match r with
  | inl err => ret (inl err)
  | inr l =>
      let! r :=
        match i with
        | None => ret (inr (0, u32 (bias l + eh_entry_point h)))
        | Some i =>
            let! w := get_world in
            let base := find_hole_for_elf (in_ph i) (space w) in
            let! err := load_interp (in_fd i) base (rev (in_ph i)) in
            ret (if err <? 0 then inl err else inr (base, u32 (base + eh_entry_point (in_header i))))
        end in
      match r with
      | inl err => ret (inl err)
      | inr (base, entry) =>
          let! r := map_extras in
          match r with
          | inl err => ret (inl err)
          | inr vdso_entry =>
              let! err := map_stack in
              if err <? 0 then ret (inl err) else ret (inr (mk_image (load_addr l) (bias l) base entry vdso_entry))
          end
      end
  end.

(** ** The first stack *)

Definition align_stack (sp : Z) : Z := Z.land sp (2 ^ 32 - 16).

(** The bytes from the first character on; a result of 0 is a failure. *)
Definition copy_string (sp : Z) (b : list Z) : T Z :=
  let! n := strlen_ b in
  let sp := u32 (sp - (n + 1)) in
  let! r := with_space (fun u => user_write_string u sp b) in
  ret (if ctrue r then 0 else sp).

(** [n] strings further; each has at least its terminator, so the length of the buffer bounds the number of steps. *)
Fixpoint skip_strings (fuel : nat) (n : Z) (b : list Z) : T (list Z) :=
  if n <=? 0 then ret b
  else
    match fuel with
    | O => fault
    | S fuel => let! k := strlen_ b in skip_strings fuel (n - 1) (drop (Z.to_nat (k + 1)) b)
    end.
Definition args_size (a : exec_args) : T Z :=
  let! rest := skip_strings (S (length (args a))) (count a) (args a) in
  let! c := deref (head rest) in
  assert (c =? 0) ;;
  ret (Z.of_nat (length (args a)) - Z.of_nat (length rest) + 1).
Definition args_copy (sp : Z) (a : exec_args) : T Z :=
  let! size := args_size a in
  let sp := u32 (sp - size) in
  let! bad := put sp (take (Z.to_nat size) (args a)) in
  ret (if bad then 0 else sp).

(** The length of a string of the guest, or [None] for -1.  The fuel bounds the number of characters. *)
Fixpoint user_strlen (fuel : nat) (p i : Z) : T (option Z) :=
  match fuel with
  | O => hang
  | S fuel =>
      let! c := get (u32 (p + i)) 1 in
      match c with
      | None => ret None
      | Some c => if bool_decide (c = [0]) then ret (Some i) else user_strlen fuel p (i + 1)
      end
  end.

(** Pointers to [n] strings from [str] on are stored from [p] on; where that ends. *)
Fixpoint put_pointers (fuel : nat) (n : nat) (p str : Z) : T (option Z) :=
  match n with
  | O => ret (Some p)
  | S n =>
      let! bad := put p (le_bytes 4 str) in
      if bad then ret None
      else
        let! len := user_strlen fuel str 0 in
        put_pointers fuel n (u32 (p + 4)) (u32 (str + (default (-1) len + 1)))
  end.

Definition aux_entries (h : elf_header) (im : image) (vdso_addr random_addr file_addr platform_addr : Z) : list (Z * Z) :=
  [ (AX_SYSINFO, im_vdso_entry im); (AX_SYSINFO_EHDR, vdso_addr); (AX_HWCAP, 0); (AX_PAGESZ, PAGE_SIZE); (AX_CLKTCK, 0x64);
    (AX_PHDR, u32 (im_load_addr im + eh_prghead_off h)); (AX_PHENT, 32); (AX_PHNUM, eh_phent_count h); (AX_BASE, im_interp_base im); (AX_FLAGS, 0);
    (AX_ENTRY, u32 (im_bias im + eh_entry_point h)); (AX_UID, 0); (AX_EUID, 0); (AX_GID, 0); (AX_EGID, 0); (AX_SECURE, 0);
    (AX_RANDOM, random_addr); (AX_HWCAP2, 0); (AX_EXECFN, file_addr); (AX_PLATFORM, platform_addr); (0, 0) ].
Definition aux_bytes (l : list (Z * Z)) : list Z := concat (map (fun '(t, v) => le_bytes 4 t ++ le_bytes 4 v) l).

(** Where the strings are. *)
Record strings := mk_strings {
  file_addr : Z;
  envp_addr : Z;
  argv_addr : Z;
  platform_addr : Z;
  random_addr : Z }.

(** What is pointed to; [None] goes to [beyond_hope]. *)
Definition push_strings (file : list Z) (argv envp : exec_args) : T (option strings) :=
  let sp := 0xffffe000 - 8 in
  let! sp := copy_string sp file in
  if sp =? 0 then ret None
  else
    let file_addr := sp in
    let! sp := args_copy sp envp in
    if sp =? 0 then ret None
    else
      let envp_addr := sp in
      upd_mm (set_argv_end sp) ;;
      let! sp := args_copy sp argv in
      if sp =? 0 then ret None
      else
        let argv_addr := sp in
        upd_mm (set_argv_start sp) ;;
        let sp := align_stack sp in
        let! sp := copy_string sp [105; 54; 56; 54; 0] in
        if sp =? 0 then ret None
        else
          let platform_addr := sp in
          let sp := u32 (sp - 16) in
          let! bad := put sp random_bytes in
          if bad then ret None else ret (Some (mk_strings file_addr envp_addr argv_addr platform_addr sp)).

(** Where the pointers start: there is room for them and the stack is aligned. *)
Definition stack_top (random_addr : Z) (argv envp : exec_args) : Z :=
  Z.land (u32 (u32 (random_addr - (count argv + 1 + (count envp + 1) + 1) * 4) - 168)) (2 ^ 32 - 16).

(** How building the stack ends: at [beyond_hope], at a [return _EFAULT], or with the stack pointer. *)
Inductive built := Hopeless | Leaked | Built (sp : Z).

Definition push_vectors (h : elf_header) (im : image) (st : strings) (argv envp : exec_args) : T built :=
  let sp := stack_top (random_addr st) argv envp in
  let! bad := put sp (le_bytes 8 (count argv)) in
  if bad then ret Leaked
  else
    let! p := put_pointers (S (length (args argv))) (Z.to_nat (count argv)) (u32 (sp + 4)) (argv_addr st) in
    match p with
    | None => ret Leaked
    | Some p =>
        let! p := put_pointers (S (length (args envp))) (Z.to_nat (count envp)) (u32 (p + 4)) (envp_addr st) in
        match p with
        | None => ret Leaked
        | Some p =>
            let p := u32 (p + 4) in
            upd_mm (set_auxv_start p) ;;
            let! w := get_world in
            let! bad := put p (aux_bytes (aux_entries h im (vdso (mm w)) (random_addr st) (file_addr st) (platform_addr st))) in
            if bad then ret Hopeless
            else upd_mm (set_auxv_end (u32 (p + 168))) ;; upd_mm (set_stack_start sp) ;; ret (Built sp)
        end
    end.

Definition build_stack (h : elf_header) (im : image) (file : list Z) (argv envp : exec_args) : T built :=
  let! st := push_strings file argv envp in
  match st with None => ret Hopeless | Some st => push_vectors h im st argv envp end.

(** The registers of a new program. *)
Definition start_registers (sp entry : Z) (r : registers) : registers :=
  let c := Cpu.set_fcw 0x37f (core r) in
  mk_registers 0 0 0 0 0 0 0 sp entry (Cpu.set_eflags 0 (Cpu.collapse_flags c)).

Definition out_free_interp (g : option Z) (err : Z) : T Z :=
  match g with Some g => let! _ := fd_close g in ret err | None => ret err end.

(** The part of [elf_exec] after which the old program is gone. *)
Definition replace_program (f : Z) (file : list Z) (argv envp : exec_args) (h : elf_header) (ph : list prg_header) (i : option interp) : T Z :=
  let beyond_hope err := write_wrunlock ;; out_free_interp (in_fd <$> i) err in
  upd_world (fun w => set_mm mm_new (set_space (fresh_space (space w)) (set_wlocked false w))) ;;
  write_wrlock ;;
  let! f' := fd_retain f in
  upd_mm (set_exefile (Some f')) ;;
  let! r := map_image f h ph i in
  match r with
  | inl err => beyond_hope err
  | inr im =>
      write_wrunlock ;;
      let! b := build_stack h im file argv envp in
      match b with
      | Hopeless => beyond_hope _EFAULT
      | Leaked => ret _EFAULT
      | Built sp => upd_cpu (start_registers sp (im_entry im)) ;; out_free_interp (in_fd <$> i) 0
      end
  end.

Definition elf_exec (f : Z) (file : list Z) (argv envp : exec_args) : T Z :=
  let! r := read_header f in
  match r with
  | inl err => ret err
  | inr h =>
      let! r := read_prg_headers f h in
      match r with
      | inl err => ret err
      | inr ph =>
          let! r := find_interp f ph None in
          match r with
          | inl (err, g) => out_free_interp g err
          | inr i => replace_program f file argv envp h ph i
          end
      end
  end.

Definition format_exec (f : Z) (file : list Z) (argv envp : exec_args) : T Z :=
  let! err := elf_exec f file argv envp in
  if negb (err =? _ENOEXEC) then ret err else ret _ENOEXEC.

(** ** Scripts *)

Definition space_char : Z := 32.
Definition newline : Z := 10.
Fixpoint skip_spaces (b : list Z) : list Z := match b with c :: r => if c =? space_char then skip_spaces r else b | [] => [] end.
Fixpoint word (b : list Z) : list Z := match b with c :: r => if c =? space_char then [] else c :: word r | [] => [] end.
Definition strip_spaces (b : list Z) : list Z := rev (skip_spaces (rev b)).
(** [strchr] for the newline and what is before it, in a string. *)
Fixpoint first_line (s : list Z) : option (list Z) :=
  match s with [] => None | c :: s => if c =? newline then Some [] else l ← first_line s; Some (c :: l) end.

(** The interpreter and its argument in the string that the start of the file is. *)
Definition parse_shebang (header : list Z) : option (list Z * option (list Z)) :=
  match first_line header with
  | Some (35 :: 33 :: p) =>
      let p := skip_spaces p in
      match p with
      | [] => None
      | _ =>
          let interpreter := word p in
          let argument := strip_spaces (skip_spaces (drop (length interpreter) p)) in
          Some (interpreter, match argument with [] => None | _ => Some argument end)
      end
  | _ => None
  end.

Definition shebang_exec (f : Z) (file : list Z) (argv envp : exec_args) : T Z :=
  let! pos := file_lseek f 0 in
  if ctrue pos then ret _EIO
  else
    let! r := file_read f 127 in
    match r with
    | inl _ => ret _EIO
    | inr b =>
        let! header := deref (until_nul (b ++ [0])) in
        match parse_shebang header with
        | None => ret _ENOEXEC
        | Some (interpreter, argument) =>
            let! n := strlen_ (args argv) in
            let argv_rest := mk_args (u64 (count argv - 1)) (drop (Z.to_nat (n + 1)) (args argv)) in
            let! args_rest_size := args_size argv_rest in
            let! file := deref (until_nul file) in
            let extra := match argument with Some a => a ++ [0] | None => [] end in
            let before := interpreter ++ [0] ++ extra ++ file ++ [0] in
            if args_rest_size + Z.of_nat (length before) >=? ARGV_MAX then ret _E2BIG
            else
              let new_argv := mk_args (u64 (2 + (match argument with Some _ => 1 | None => 0 end) + count argv_rest))
                                      (before ++ take (Z.to_nat args_rest_size) (args argv_rest)) in
              let! r := open_string (interpreter ++ [0]) in
              match r with
              | inl err => ret err
              | inr g =>
                  let! err := format_exec g (interpreter ++ [0]) new_argv envp in
                  let! _ := fd_close g in
                  ret err
              end
        end
    end.

(** ** The name of the thread (kernel/task.c) *)

(** [%d] of a positive number; the fuel bounds the number of digits. *)
Fixpoint digits_of (fuel : nat) (n : Z) : list Z :=
  match fuel with
  | O => []
  | S fuel => if n <? 10 then [48 + n] else digits_of fuel (n / 10) ++ [48 + n mod 10]
  end.
Definition percent_d (n : Z) : list Z := if n <? 0 then 45 :: digits_of 10 (- n) else digits_of 10 n.

(** [comm] has no terminator when 16 characters were copied to it. *)
Definition update_thread_name : T unit :=
  let! w := get_world in
  let! s := gets id in
  let suffix := 45 :: percent_d (pid (current s)) in
  let pid_width := Z.of_nat (length (take 15 suffix)) in
  let! name := deref (until_nul (comm w)) in
  let name_width := Z.of_nat (length name) in
  let at_ := if name_width <? 15 - pid_width then name_width else 15 - pid_width in
  in_bounds (at_ + Z.of_nat (length suffix) <=? 15) ;;
  upd_world (set_thread_name (take (Z.to_nat at_) name ++ suffix)).

(** ** The system call *)

(** [strncpy] of a string into [n] bytes. *)
Definition strncpy (n : nat) (s : list Z) : list Z := take n (s ++ replicate n 0).
(** What follows the last slash. *)
Fixpoint basename (s : list Z) (from : list Z) : list Z :=
  match s with [] => from | c :: s => basename s (if c =? 47 then s else from) end.

Definition reset_handlers (l : list Z) : list Z := map (fun h => if negb (h =? SIG_IGN_) then SIG_DFL_ else h) l.

(** What changes once the new program is there. *)
Definition finish_exec (stat : statbuf) (file : list Z) : T Z :=
  (if has (st_mode stat) S_ISUID then
     let! s := gets id in
     upd_world (set_suid (euid (current s))) ;; upd_current (set_euid (st_uid stat))
   else ret tt) ;;
  (if has (st_mode stat) S_ISGID then
     let! s := gets id in
     upd_world (set_sgid (egid (current s))) ;; upd_current (set_egid (st_gid stat))
   else ret tt) ;;
  let! name := deref (until_nul file) in
  upd_world (set_comm (strncpy 16 (basename name name))) ;;
  update_thread_name ;;
  let! s := gets id in
  fdtable_do_cloexec (files (current s)) ;;
  upd_world (fun w => set_altstack 0 (set_handlers (reset_handlers (handlers w)) w)) ;;
  upd_world (set_did_exec true) ;;
  upd_world (fun w => set_vfork ((fun _ => true) <$> vfork w) w) ;;
  let! w := get_world in
  let! s := gets id in
  (if traced w then upd_world (fun w => set_sent ((Task.SIGTRAP_, Task.SI_USER_, pid (current s), uid (current s)) :: sent w) w) else ret tt) ;;
  ret 0.

Definition __do_execve (file : list Z) (argv envp : exec_args) : T Z :=
  let! r := open_string file in
  match r with
  | inl err => ret err
  | inr f =>
      let! x := get_fd f in
      let! a := deref (fd_mount x) in
      let! m := get_mount a in
      let! s := gets id in
      let! r := deref (fs_fstat (filesystem (m_fs m)) f s) in
      match r with
      | inl err => let! _ := fd_close f in ret err
      | inr stat =>
          if negb (ctrue (Z.land (st_mode stat) 73)) then let! _ := fd_close f in ret _EACCES
          else
            let! err := format_exec f file argv envp in
            let! err := if err =? _ENOEXEC then shebang_exec f file argv envp else ret err in
            let! _ := fd_close f in
            if err <? 0 then ret err
            else
              finish_exec stat file
      end
  end.

(** The strings of an environment, up to the first that is empty. *)
Fixpoint count_strings (fuel : nat) (b : list Z) : T Z :=
  match fuel with
  | O => fault
  | S fuel =>
      let! c := deref (head b) in
      if c =? 0 then ret 0
      else let! n := strlen_ b in let! k := count_strings fuel (drop (Z.to_nat (n + 1)) b) in ret (k + 1)
  end.
Definition do_execve (file : list Z) (argc : Z) (argv_p envp_p : list Z) : T Z :=
  let! n := count_strings (S (length envp_p)) envp_p in
  __do_execve file (mk_args argc argv_p) (mk_args n envp_p).

(** A string of the guest is copied to the end of the buffer; [room] bytes are left. *)
Inductive copied := Failed (err : Z) | Copied (buf : list Z) (room : nat).
Fixpoint read_one (room : nat) (str str_p : Z) (buf : list Z) : T copied :=
  match room with
  | O => ret (Failed _E2BIG)
  | S room =>
      let! c := get (u32 (str + str_p)) 1 in
      match c with
      | None => ret (Failed _EFAULT)
      | Some c => if bool_decide (c = [0]) then ret (Copied (buf ++ c) room) else read_one room str (str_p + 1) (buf ++ c)
      end
  end.
Fixpoint read_strings (fuel room : nat) (addr i : Z) (buf : list Z) : T (Z + Z * list Z) :=
  match fuel with
  | O => hang
  | S fuel =>
      let! b := get (u32 (addr + i * 4)) 4 in
      match b with
      | None => ret (inl _EFAULT)
      | Some b =>
          if le_value b =? 0 then match room with O => ret (inl _E2BIG) | S _ => ret (inr (i, buf ++ [0])) end
          else
            let! r := read_one room (le_value b) 0 buf in
            match r with Failed err => ret (inl err) | Copied buf room => read_strings fuel room addr (i + 1) buf end
      end
  end.
Definition user_read_string_array (addr max : Z) : T (Z + Z * list Z) := read_strings (S (Z.to_nat max)) (Z.to_nat max) addr 0 [].

(** The loops that trace the arguments only read them. *)
Definition sys_execve (filename_addr argv_a envp_a : Z) : T Z :=
  let! (bad, filename) := with_space (fun u => user_read_string u filename_addr (replicate (Z.to_nat MAX_PATH) 0)) in
  if ctrue bad then ret _EFAULT
  else if negb (malloc_ok M_ARGV ARGV_MAX) then ret _ENOMEM
  else
    let! r := user_read_string_array argv_a ARGV_MAX in
    match r with
    | inl err => ret err
    | inr (argc, argv) =>
        if negb (malloc_ok M_ENVP ARGV_MAX) then ret _ENOMEM
        else
          let! r := if negb (envp_a =? 0) then user_read_string_array envp_a ARGV_MAX else ret (inr (0, [0; 0])) in
          match r with inl err => ret err | inr (_, envp) => do_execve filename argc argv envp end
    end.

End Calls.

(** ** Strings *)

(** Strings one after the other, each with its terminator. *)
Definition encode (l : list (list Z)) : list Z := concat (map (fun s => s ++ [0]) l).
Definition nonzero (s : list Z) : Prop := Forall (fun c => c <> 0) s.

Lemma encode_cons s l : encode (s :: l) = (s ++ [0]) ++ encode l.
Proof. done. Qed.
Lemma until_nul_string s r : nonzero s -> until_nul (s ++ 0 :: r) = Some s.
Proof.
  induction 1 as [|c s Hc _ IH]; [done|]. cbn [app until_nul]. destruct (Z.eqb_spec c 0) as [->|_]; [done|].
  by rewrite IH.
Qed.
Lemma until_nul_some b s : until_nul b = Some s -> nonzero s /\ exists r, b = s ++ 0 :: r.
Proof.
  revert s. induction b as [|c b IH]; intros s H; [done|]. cbn [until_nul] in H. destruct (Z.eqb_spec c 0) as [->|Hc].
  - injection H as <-. split; [constructor|by exists b].
  - destruct (until_nul b) as [t|]; [|done]. injection H as <-. destruct (IH t eq_refl) as (Ht & r & ->).
    split; [by constructor|by exists r].
Qed.
Lemma length_encode_cons s l : length (encode (s :: l)) = S (length s + length (encode l)).
Proof. rewrite encode_cons, !length_app. cbn [length]. lia. Qed.
Lemma encode_length_ge l : (length l <= length (encode l))%nat.
Proof. induction l as [|s l IH]; [done|]. rewrite length_encode_cons. cbn [length]. lia. Qed.

Section Strings.
Context {U : Type}.
Abbreviation T := (V (world U)).

Lemma strlen_run s r (st : vfs (world U)) : nonzero s -> strlen_ (s ++ 0 :: r) st = Ret (Z.of_nat (length s)) st.
Proof. intros Hs. unfold strlen_. by rewrite until_nul_string. Qed.

Lemma skip_strings_run l fuel r (st : vfs (world U)) : Forall nonzero l -> (length l <= fuel)%nat ->
  skip_strings fuel (Z.of_nat (length l)) (encode l ++ r) st = Ret r st.
Proof.
  revert fuel. induction l as [|s l IH]; intros fuel Hl Hf; [by destruct fuel|].
  destruct fuel as [|fuel]; [cbn in Hf; lia|]. apply Forall_cons in Hl as [Hs Hl]. cbn [skip_strings length].
  rewrite (proj2 (Z.leb_gt _ 0)) by lia. rewrite encode_cons, <- !app_assoc. cbn [app].
  rewrite (bind_step _ _ _ _ _ (strlen_run s _ st Hs)).
  replace (Z.of_nat (S (length l)) - 1) with (Z.of_nat (length l)) by lia.
  replace (drop _ (s ++ 0 :: encode l ++ r)) with (encode l ++ r); [by apply IH; cbn in Hf; [|lia]|].
  replace (s ++ 0 :: encode l ++ r) with ((s ++ [0]) ++ encode l ++ r) by (by rewrite <- app_assoc).
  rewrite drop_app_length'; [done|]. rewrite length_app. cbn [length]. lia.
Qed.

(** The arguments that a list of strings is. *)
Definition args_of (l : list (list Z)) (r : list Z) : exec_args := mk_args (Z.of_nat (length l)) (encode l ++ 0 :: r).

Lemma args_size_run l r (st : vfs (world U)) : Forall nonzero l -> args_size (args_of l r) st = Ret (Z.of_nat (length (encode l)) + 1) st.
Proof.
  intros Hl. unfold args_size, args_of. cbn [args count].
  assert (length l <= S (length (encode l ++ 0%Z :: r)))%nat as Hf by (rewrite length_app; pose proof (encode_length_ge l); lia).
  rewrite (bind_step _ _ _ _ _ (skip_strings_run l _ (0 :: r) st Hl Hf)).
  cbn [head deref]. unfold bind, ret, assert. cbn [Z.eqb]. unfold ret. f_equal. rewrite length_app. cbn [length]. lia.
Qed.
End Strings.

(** ** The first stack of a program *)

Section Stack.
Context {U : Type} {SP : Space U} {SL : SpaceLaws U} {HO : Host U} {SY : System (world U)}.
Abbreviation T := (V (world U)).

(** The state with another address space and another [struct mm]. *)
Definition at_ (u : U) (m : mm_struct) (s : vfs (world U)) : vfs (world U) := set_fsd (set_mm m (set_space u (fsd s))) s.
Lemma at_self s : at_ (space (fsd s)) (mm (fsd s)) s = s.
Proof. unfold at_. destruct s as [w ? ? ? ? ? ? ?]. by destruct w. Qed.

Lemma fsd_at u m s : fsd (at_ u m s) = set_mm m (set_space u (fsd s)).
Proof. done. Qed.
Lemma get_world_at u m s : get_world (at_ u m s) = Ret (set_mm m (set_space u (fsd s))) (at_ u m s).
Proof. done. Qed.
Lemma with_space_at {A} (f : U -> option (A * U)) u m s r u' : wlocked (fsd s) = false -> f u = Some (r, u') ->
  with_space f (at_ u m s) = Ret r (at_ u' m s).
Proof.
  intros Hl Hf. unfold with_space. rewrite (bind_step _ _ _ _ _ (get_world_at u m s)). cbn [wlocked set_mm set_space space]. rewrite Hl, Hf.
  unfold at_. destruct s as [w ? ? ? ? ? ? ?]. by destruct w.
Qed.
Lemma upd_mm_at g u m s : upd_mm g (at_ u m s) = Ret tt (at_ u (g m) s).
Proof. unfold upd_mm, upd_world, modify, at_. destruct s as [w ? ? ? ? ? ? ?]. by destruct w. Qed.

(** The stack ends here, and there is room for it from [lo] on. *)
Definition STACK_TOP : Z := 0xffffe000.
Record room (lo : Z) (u : U) (f : Z -> Z) : Prop := mk_room {
  rm_ok : ok u;
  rm_lo : 0 < lo;
  rm_writable : forall x, lo <= x < STACK_TOP -> writable u x;
  rm_seen : forall x, seen u x = f x }.

Section Steps.
Context (lo : Z) (s : vfs (world U)) (Hs : wlocked (fsd s) = false).

Lemma put_at u m f a bs : room lo u f -> lo <= a -> a + Z.of_nat (length bs) <= STACK_TOP ->
  exists u', put a bs (at_ u m s) = Ret false (at_ u' m s) /\ room lo u' (store f a bs).
Proof.
  intros [Hok Hlo Hw Hf] Ha Hb. unfold STACK_TOP in *.
  destruct (write_law u a bs) as (u' & Hwr & Hok' & Hw' & _ & Hs'); [done|lia|unfold User.LAST_PAGE; lia|intros; apply Hw; lia|].
  exists u'. split.
  - unfold put. by rewrite (bind_step _ _ _ _ _ (with_space_at (fun u => user_write u a bs) u m s _ _ Hs Hwr)).
  - split; [done|done|by auto|]. intros x. rewrite Hs'. by apply store_ext.
Qed.

Lemma get_at u m f a n : room lo u f -> lo <= a -> a + Z.of_nat n <= STACK_TOP ->
  exists bs u', get a n (at_ u m s) = Ret (Some bs) (at_ u' m s) /\ room lo u' f /\ length bs = n /\ bytes_at f a bs.
Proof.
  intros [Hok Hlo Hw Hf] Ha Hb. unfold STACK_TOP in *.
  destruct (read_law u a (replicate n 0)) as (bs & u' & Hrd & Hok' & Hw' & _ & Hs' & Hl & Hat);
    rewrite ?length_replicate in *; [done|lia|unfold User.LAST_PAGE; lia|intros; right; apply Hw; lia|].
  exists bs, u'. split_and!; [| |done|eapply bytes_at_ext; [|exact Hat]; intros; by rewrite Hf].
  - unfold get. by rewrite (bind_step _ _ _ _ _ (with_space_at (fun u => user_read u a (replicate n 0)) u m s (0, bs) _ Hs Hrd)).
  - split; [done|done|by auto|]. intros x. by rewrite Hs'.
Qed.

Lemma copy_string_at u m f sp t r : room lo u f -> nonzero t -> lo + Z.of_nat (length t) + 1 <= sp <= STACK_TOP ->
  exists u', copy_string sp (t ++ 0 :: r) (at_ u m s) = Ret (sp - (Z.of_nat (length t) + 1)) (at_ u' m s) /\
    room lo u' (store f (sp - (Z.of_nat (length t) + 1)) (t ++ [0])).
Proof.
  intros [Hok Hlo Hw Hf] Ht Hsp. unfold STACK_TOP in *. unfold copy_string.
  rewrite (bind_step _ _ _ _ _ (strlen_run t r _ Ht)). rewrite (wrap_small 32) by (unfold in_u; lia).
  destruct (write_string_law u (sp - (Z.of_nat (length t) + 1)) t r) as (u' & Hwr & Hok' & Hw' & _ & Hs');
    [done|lia|unfold User.LAST_PAGE; lia|done|intros; apply Hw; lia|].
  exists u'. split.
  - by rewrite (bind_step _ _ _ _ _ (with_space_at (fun u => user_write_string u _ (t ++ 0 :: r)) u m s _ _ Hs Hwr)).
  - split; [done|done|by auto|]. intros x. rewrite Hs'. by apply store_ext.
Qed.

Lemma args_copy_at u m f sp l r : room lo u f -> Forall nonzero l -> lo + Z.of_nat (length (encode l)) + 1 <= sp <= STACK_TOP ->
  exists u', args_copy sp (args_of l r) (at_ u m s) = Ret (sp - (Z.of_nat (length (encode l)) + 1)) (at_ u' m s) /\
    room lo u' (store f (sp - (Z.of_nat (length (encode l)) + 1)) (encode l ++ [0])).
Proof.
  intros Hr Hl Hsp. pose proof (rm_lo _ _ _ Hr). unfold args_copy, STACK_TOP in *. rewrite (bind_step _ _ _ _ _ (args_size_run l r _ Hl)).
  rewrite (wrap_small 32) by (unfold in_u; lia). cbn [args_of args].
  replace (take _ (encode l ++ 0 :: r)) with (encode l ++ [0]).
  2:{ replace (encode l ++ 0 :: r) with ((encode l ++ [0]) ++ r) by (by rewrite <- app_assoc). rewrite take_app_length'; [done|].
      rewrite length_app. cbn [length]. lia. }
  destruct (put_at u m f (sp - (Z.of_nat (length (encode l)) + 1)) (encode l ++ [0]) Hr) as (u' & Hp & Hr');
    [lia|unfold STACK_TOP; rewrite length_app; cbn [length]; lia|].
  exists u'. split; [|done]. by rewrite (bind_step _ _ _ _ _ Hp).
Qed.

Lemma user_strlen_at fuel t : forall u m f p i r, room lo u f -> nonzero t -> (length t < fuel)%nat -> 0 <= i ->
  lo <= p + i -> p + i + Z.of_nat (length t) + 1 <= STACK_TOP -> bytes_at f (p + i) (t ++ 0 :: r) ->
  exists u', user_strlen fuel p i (at_ u m s) = Ret (Some (i + Z.of_nat (length t))) (at_ u' m s) /\ room lo u' f.
Proof.
  revert t. induction fuel as [|fuel IH]; intros t u m f p i r Hr Ht Hf Hi Hp Hend Hb; [lia|]. pose proof (rm_lo _ _ _ Hr).
  unfold STACK_TOP in *. cbn [user_strlen]. rewrite (wrap_small 32) by (unfold in_u; lia).
  destruct (get_at u m f (p + i) 1 Hr) as (bs & u1 & Hg & Hr1 & Hl & Hat); [lia|unfold STACK_TOP; lia|].
  rewrite (bind_step _ _ _ _ _ Hg). destruct bs as [|c [|? ?]]; try done. pose proof (Hat 0%nat c eq_refl) as Hc.
  destruct t as [|d t].
  - pose proof (Hb 0%nat 0 eq_refl) as H0. assert (c = 0) as -> by congruence. rewrite bool_decide_eq_true_2 by done.
    exists u1. split; [|done]. cbn [length]. by rewrite Z.add_0_r.
  - pose proof (Hb 0%nat d eq_refl) as H0. assert (c = d) as -> by congruence. apply Forall_cons in Ht as [Hd Ht].
    rewrite bool_decide_eq_false_2 by (intros [=]; done). cbn [length] in *.
    destruct (IH t u1 m f p (i + 1) r Hr1 Ht) as (u' & Hu & Hr'); [lia..| |].
    + intros k b Hk. replace (p + (i + 1) + Z.of_nat k) with (p + i + Z.of_nat (S k)) by lia. by apply Hb.
    + exists u'. split; [|done]. rewrite Hu. do 2 f_equal. lia.
Qed.

(** The addresses of strings that lie one after the other. *)
Fixpoint pointers (a : Z) (l : list (list Z)) : list Z :=
  match l with [] => [] | t :: l => a :: pointers (a + Z.of_nat (length t) + 1) l end.
Definition words (l : list Z) : list Z := concat (map (le_bytes 4) l).

Lemma le4_length x : length (le_bytes 4 x) = 4%nat.
Proof. done. Qed.
Lemma words_length l : length (words l) = (4 * length l)%nat.
Proof. induction l as [|x l IH]; [done|]. cbn [words map concat]. fold (words l). rewrite length_app, le4_length, IH. cbn [length]. lia. Qed.
Lemma pointers_length a l : length (pointers a l) = length l.
Proof. revert a. induction l as [|t l IH]; intros a; [done|]. cbn [pointers length]. by rewrite IH. Qed.

Lemma room_ext u f g : room lo u f -> (forall x, g x = f x) -> room lo u g.
Proof. intros [? ? ? Hf] H. split; [done..|]. intros x. by rewrite Hf, H. Qed.
Lemma put_pointers_at fuel l : forall u m f p str r, room lo u f -> Forall nonzero l -> (length (encode l) < fuel)%nat ->
  lo <= p -> p + 4 * Z.of_nat (length l) <= str -> str + Z.of_nat (length (encode l)) + 1 <= STACK_TOP -> bytes_at f str (encode l ++ r) ->
  exists u', put_pointers fuel (length l) p str (at_ u m s) = Ret (Some (p + 4 * Z.of_nat (length l))) (at_ u' m s) /\
    room lo u' (store f p (words (pointers str l))).
Proof.
  induction l as [|t l IH]; intros u m f p str r Hr Hl Hf Hp Hd Hend Hb; pose proof (rm_lo _ _ _ Hr); unfold STACK_TOP in *.
  { exists u. split; [by rewrite Z.add_0_r|]. eapply room_ext; [exact Hr|]. intros x. apply store_out. cbn [words pointers map concat length]. lia. }
  apply Forall_cons in Hl as [Ht Hl]. rewrite length_encode_cons in *. cbn [length put_pointers pointers] in *.
  destruct (put_at u m f p (le_bytes 4 str) Hr) as (u1 & Hp1 & Hr1); [lia|rewrite le4_length; unfold STACK_TOP; lia|].
  rewrite (bind_step _ _ _ _ _ Hp1). rewrite encode_cons, <- !app_assoc in Hb. cbn [app] in Hb.
  assert (bytes_at (store f p (le_bytes 4 str)) str (t ++ 0 :: encode l ++ r)) as Hb1.
  { apply bytes_at_apart; [done|]. right. rewrite le4_length. lia. }
  destruct (user_strlen_at fuel t u1 m _ str 0 (encode l ++ r) Hr1 Ht) as (u2 & Hu2 & Hr2); [lia..|unfold STACK_TOP; lia|by rewrite Z.add_0_r|].
  rewrite (bind_step _ _ _ _ _ Hu2). cbn [default from_option]. unfold id. rewrite !(wrap_small 32) by (unfold in_u; lia).
  replace (str + (0 + Z.of_nat (length t) + 1)) with (str + Z.of_nat (length t) + 1) by lia.
  destruct (IH u2 m (store f p (le_bytes 4 str)) (p + 4) (str + Z.of_nat (length t) + 1) r Hr2 Hl) as (u' & Hu & Hr'); [lia..| |].
  { change (t ++ 0 :: encode l ++ r) with (t ++ [0] ++ encode l ++ r) in Hb1. rewrite app_assoc in Hb1. apply bytes_at_app in Hb1 as [_ Hb1].
    rewrite length_app in Hb1. cbn [length] in Hb1. by replace (str + Z.of_nat (length t) + 1) with (str + Z.of_nat (length t + 1)) by lia. }
  exists u'. split; [rewrite Hu; do 2 f_equal; lia|]. eapply room_ext; [exact Hr'|]. intros x.
  cbn [words map concat]. fold (words (pointers (str + Z.of_nat (length t) + 1) l)). rewrite <- store_app. by rewrite le4_length.
Qed.
End Steps.

(** *** What the program finds *)

(** The word at an address. *)
Definition word_at (f : Z -> Z) (a : Z) : Z := le_value (map f [a; a + 1; a + 2; a + 3]).

(** The System V convention: at the stack pointer, which is a multiple of 16, is the number of arguments, then a pointer to each argument and a null one, a pointer to each
    variable of the environment and a null one, and pairs of words, which end the vector. *)
Record first_stack (f : Z -> Z) (sp : Z) (argv envp : list (list Z)) (aux : list (Z * Z)) : Prop := mk_first_stack {
  fs_aligned : sp mod 16 = 0;
  fs_argc : word_at f sp = Z.of_nat (length argv);
  fs_argv : forall i t, argv !! i = Some t -> bytes_at f (word_at f (sp + 4 * (1 + Z.of_nat i))) (t ++ [0]);
  fs_argv_end : word_at f (sp + 4 * (1 + Z.of_nat (length argv))) = 0;
  fs_envp : forall i t, envp !! i = Some t -> bytes_at f (word_at f (sp + 4 * (2 + Z.of_nat (length argv + i)))) (t ++ [0]);
  fs_envp_end : word_at f (sp + 4 * (2 + Z.of_nat (length argv + length envp))) = 0;
  fs_aux : forall i t v, aux !! i = Some (t, v) ->
    word_at f (sp + 4 * (3 + Z.of_nat (length argv + length envp + 2 * i))) = t /\
    word_at f (sp + 4 * (4 + Z.of_nat (length argv + length envp + 2 * i))) = v }.

Lemma word_at_le f a x : bytes_at f a (le_bytes 4 x) -> in_u 32 x -> word_at f a = x.
Proof.
  intros H Hx. unfold word_at. replace (map f [a; a + 1; a + 2; a + 3]) with (le_bytes 4 x); [by apply Fpu.le_bytes_value|].
  remember (le_bytes 4 x) as l eqn:El. assert (length l = 4%nat) as Hl by (by rewrite El).
  destruct l as [|b0 [|b1 [|b2 [|b3 [|? ?]]]]]; try done. cbn [map].
  rewrite <- (H 0%nat b0 eq_refl), <- (H 1%nat b1 eq_refl), <- (H 2%nat b2 eq_refl), <- (H 3%nat b3 eq_refl). by rewrite Z.add_0_r.
Qed.
Lemma words_app l k : words (l ++ k) = words l ++ words k.
Proof. unfold words. by rewrite map_app, concat_app. Qed.
Lemma words_at f l : forall a i x, bytes_at f a (words l) -> l !! i = Some x -> in_u 32 x -> word_at f (a + 4 * Z.of_nat i) = x.
Proof.
  induction l as [|y l IH]; intros a i x H Hi Hx; [done|]. change (words (y :: l)) with (le_bytes 4 y ++ words l) in H.
  apply bytes_at_app in H as [H1 H2]. rewrite le4_length in H2. destruct i as [|i].
  - injection Hi as ->. rewrite Z.mul_0_r, Z.add_0_r. by apply word_at_le.
  - replace (a + 4 * Z.of_nat (S i)) with (a + Z.of_nat 4 + 4 * Z.of_nat i) by lia. by apply IH.
Qed.
Definition flat (l : list (Z * Z)) : list Z := concat (map (fun '(t, v) => [t; v]) l).
Lemma aux_bytes_words l : aux_bytes l = words (flat l).
Proof.
  induction l as [|[t v] l IH]; [done|]. cbn [aux_bytes flat map concat]. fold (aux_bytes l) (flat l). rewrite words_app, IH.
  unfold words at 1. cbn [map concat]. by rewrite <- !app_assoc.
Qed.
Lemma flat_lookup l : forall i t v, l !! i = Some (t, v) -> flat l !! (2 * i)%nat = Some t /\ flat l !! (2 * i + 1)%nat = Some v.
Proof.
  induction l as [|[t0 v0] l IH]; intros i t v Hi; [done|]. change (flat ((t0, v0) :: l)) with (t0 :: v0 :: flat l).
  destruct i as [|i]; [injection Hi as -> ->; done|]. replace (2 * S i)%nat with (S (S (2 * i))) by lia. cbn [Nat.add]. by apply IH.
Qed.
Lemma flat_length l : length (flat l) = (2 * length l)%nat.
Proof. induction l as [|[t v] l IH]; [done|]. cbn [flat map concat]. fold (flat l). cbn [app length]. lia. Qed.
(** The pointers lead to the strings. *)
Lemma pointers_lookup f l : forall a r i t, bytes_at f a (encode l ++ r) -> l !! i = Some t ->
  exists p, pointers a l !! i = Some p /\ a <= p /\ p + Z.of_nat (length t) < a + Z.of_nat (length (encode l)) /\ bytes_at f p (t ++ [0]).
Proof.
  induction l as [|t0 l IH]; intros a r i t H Hi; [done|]. rewrite encode_cons, <- app_assoc in H. apply bytes_at_app in H as [H1 H2].
  rewrite length_encode_cons. destruct i as [|i].
  - injection Hi as ->. exists a. split_and!; [done|lia|lia|done].
  - rewrite length_app in H2. cbn [length] in H2. replace (a + Z.of_nat (length t0 + 1)) with (a + Z.of_nat (length t0) + 1) in H2 by lia.
    destruct (IH _ _ _ _ H2 Hi) as (p & Hp & ? & ? & Hb). exists p. split_and!; [done|lia|lia|done].
Qed.

(** The image as bytes is the image as words. *)
Lemma first_stack_of f sp ap ep argv envp aux ra re :
  sp mod 16 = 0 -> Z.of_nat (length argv) < 2 ^ 32 ->
  bytes_at f sp (words (Z.of_nat (length argv) :: pointers ap argv ++ 0 :: pointers ep envp ++ 0 :: flat aux)) ->
  0 <= ap -> ap + Z.of_nat (length (encode argv)) < 2 ^ 32 -> bytes_at f ap (encode argv ++ ra) ->
  0 <= ep -> ep + Z.of_nat (length (encode envp)) < 2 ^ 32 -> bytes_at f ep (encode envp ++ re) ->
  Forall (fun '(t, v) => in_u 32 t /\ in_u 32 v) aux -> first_stack f sp argv envp aux.
Proof.
  intros Hal Hc Hw Hap Hap' Ha Hep Hep' He Haux.
  assert (forall (x : Z) l i, (x :: l) !! S i = l !! i) as Hs by done.
  assert (forall i x, (Z.of_nat (length argv) :: pointers ap argv ++ 0 :: pointers ep envp ++ 0 :: flat aux) !! i = Some x -> in_u 32 x ->
    word_at f (sp + 4 * Z.of_nat i) = x) as HW by (intros; by eapply words_at).
  pose proof (pointers_length ap argv) as La. pose proof (pointers_length ep envp) as Le.
  split; [done| | | | | |].
  - pose proof (HW 0%nat _ eq_refl ltac:(unfold in_u; lia)) as E. by rewrite Z.mul_0_r, Z.add_0_r in E.
  - intros i t Hi. destruct (pointers_lookup _ _ _ _ _ _ Ha Hi) as (p & Hp & ? & ? & Hb).
    replace (1 + Z.of_nat i) with (Z.of_nat (S i)) by lia. rewrite (HW (S i) p); [done| |unfold in_u; lia].
    rewrite Hs. by apply lookup_app_l_Some.
  - replace (1 + Z.of_nat (length argv)) with (Z.of_nat (S (length argv))) by lia. apply HW; [|unfold in_u; lia].
    rewrite ?Nat.add_succ_l, Hs. rewrite lookup_app_r by lia. by rewrite La, Nat.sub_diag.
  - intros i t Hi. destruct (pointers_lookup _ _ _ _ _ _ He Hi) as (p & Hp & ? & ? & Hb).
    replace (2 + Z.of_nat (length argv + i)) with (Z.of_nat (S (S (length argv + i)))) by lia.
    rewrite (HW _ p); [done| |unfold in_u; lia]. rewrite ?Nat.add_succ_l, Hs. rewrite lookup_app_r by lia. rewrite La.
    replace (S (length argv + i) - length argv)%nat with (S i) by lia. rewrite Hs. by apply lookup_app_l_Some.
  - replace (2 + Z.of_nat (length argv + length envp)) with (Z.of_nat (S (S (length argv + length envp)))) by lia.
    apply HW; [|unfold in_u; lia]. rewrite ?Nat.add_succ_l, Hs. rewrite lookup_app_r by lia. rewrite La.
    replace (S (length argv + length envp) - length argv)%nat with (S (length envp)) by lia. rewrite ?Nat.add_succ_l, Hs. rewrite lookup_app_r by lia. by rewrite Le, Nat.sub_diag.
  - intros i t v Hi. destruct (flat_lookup _ _ _ _ Hi) as [Ht Hv]. rewrite Forall_lookup in Haux. destruct (Haux _ _ Hi) as [Ht' Hv'].
    assert (forall k x, flat aux !! k = Some x ->
      (Z.of_nat (length argv) :: pointers ap argv ++ 0 :: pointers ep envp ++ 0 :: flat aux) !! (S (S (S (length argv + length envp + k)))) = Some x) as Hk.
    { intros k x Hx. rewrite ?Nat.add_succ_l, Hs. rewrite lookup_app_r by lia. rewrite La.
      replace (S (S (length argv + length envp + k)) - length argv)%nat with (S (S (length envp + k))) by lia. rewrite Hs.
      rewrite lookup_app_r by lia. rewrite Le. by replace (S (length envp + k) - length envp)%nat with (S k) by lia. }
    split.
    + rewrite <- (HW _ _ (Hk _ _ Ht) Ht'). f_equal. lia.
    + rewrite <- (HW _ _ (Hk _ _ Hv) Hv'). f_equal. lia.
Qed.

Lemma align_16 x : in_u 32 x -> Z.land x (2 ^ 32 - 16) = x - x mod 16.
Proof.
  intros Hx. assert (Z.land x (2 ^ 32 - 16) = Z.ldiff x (Z.ones 4)) as ->.
  { rewrite <- (wrap_small 32 x Hx). unfold wrap. rewrite <- Z.land_ones by lia. rewrite <- Z.land_assoc. apply Z.bits_inj'. intros n Hn.
    rewrite Z.ldiff_spec, !Z.land_spec. rewrite !Z.testbit_ones_nonneg by lia. change (2 ^ 32 - 16) with (Z.shiftl (Z.ones 28) 4).
    rewrite Z.shiftl_spec by lia. destruct (Z.ltb_spec n 4).
    - rewrite (Z.testbit_neg_r _ (n - 4)) by lia. by rewrite !andb_false_r.
    - rewrite Z.testbit_ones_nonneg by lia. destruct (Z.ltb_spec (n - 4) 28), (Z.ltb_spec n 32); try lia; by rewrite ?andb_true_r, ?andb_false_r. }
  rewrite Z.ldiff_ones_r by lia. rewrite Z.shiftl_mul_pow2, Z.shiftr_div_pow2 by lia. change (2 ^ 4) with 16. pose proof (Z.div_mod x 16). lia.
Qed.

(** *** Building it *)

(** Where the strings go. *)
Definition layout (file : list Z) (argv envp : list (list Z)) : strings :=
  let fa := STACK_TOP - 8 - (Z.of_nat (length file) + 1) in
  let ea := fa - (Z.of_nat (length (encode envp)) + 1) in
  let aa := ea - (Z.of_nat (length (encode argv)) + 1) in
  let pa := aa - aa mod 16 - 5 in
  mk_strings fa ea aa pa (pa - 16).
Definition i686 : list Z := [105; 54; 56; 54].
(** The strings are where they should be. *)
Record strings_at (f : Z -> Z) (st : strings) (file : list Z) (argv envp : list (list Z)) : Prop := mk_strings_at {
  sa_file : bytes_at f (file_addr st) (file ++ [0]);
  sa_envp : bytes_at f (envp_addr st) (encode envp ++ [0]);
  sa_argv : bytes_at f (argv_addr st) (encode argv ++ [0]);
  sa_platform : bytes_at f (platform_addr st) (i686 ++ [0]);
  sa_random : bytes_at f (random_addr st) random_bytes }.
(** The room that is needed, for the alignment too. *)
Definition stack_need (file : list Z) (argv envp : list (list Z)) : Z :=
  8 + (Z.of_nat (length file) + 1) + (Z.of_nat (length (encode envp)) + 1) + (Z.of_nat (length (encode argv)) + 1) + 15 + 5 + 16 +
  4 * Z.of_nat (length argv + length envp + 3) + 168 + 15.

Lemma layout_order file argv envp lo : 0 < lo -> lo + stack_need file argv envp <= STACK_TOP ->
  let st := layout file argv envp in
  lo + 4 * Z.of_nat (length argv + length envp + 3) + 168 + 15 <= random_addr st /\ random_addr st + 16 = platform_addr st /\
  platform_addr st + 5 <= argv_addr st < platform_addr st + 5 + 16 /\ argv_addr st + Z.of_nat (length (encode argv)) + 1 = envp_addr st /\
  envp_addr st + Z.of_nat (length (encode envp)) + 1 = file_addr st /\ file_addr st + Z.of_nat (length file) + 1 = STACK_TOP - 8 /\
  platform_addr st + 5 = argv_addr st - argv_addr st mod 16.
Proof.
  intros Hlo H st. unfold stack_need in H. pose proof (Z.mod_pos_bound (argv_addr st) 16).
  assert (file_addr st = STACK_TOP - 8 - (Z.of_nat (length file) + 1)) by done.
  assert (envp_addr st = file_addr st - (Z.of_nat (length (encode envp)) + 1)) by done.
  assert (argv_addr st = envp_addr st - (Z.of_nat (length (encode argv)) + 1)) by done.
  assert (platform_addr st = argv_addr st - argv_addr st mod 16 - 5) by done.
  assert (random_addr st = platform_addr st - 16) by done. clearbody st. unfold STACK_TOP in *. lia.
Qed.

Lemma push_strings_at lo s u m f file rf argv ra envp re :
  wlocked (fsd s) = false -> room lo u f -> nonzero file -> Forall nonzero argv -> Forall nonzero envp -> length random_bytes = 16%nat ->
  lo + stack_need file argv envp <= STACK_TOP ->
  let st := layout file argv envp in
  exists u' f', push_strings (file ++ 0 :: rf) (args_of argv ra) (args_of envp re) (at_ u m s) =
      Ret (Some st) (at_ u' (set_argv_start (argv_addr st) (set_argv_end (envp_addr st) m)) s) /\
    room lo u' f' /\ strings_at f' st file argv envp /\ forall x, x < random_addr st \/ STACK_TOP - 8 <= x -> f' x = f x.
Proof.
  intros Hs Hr Hfile Hargv Henvp Hrand Hneed st. pose proof (rm_lo _ _ _ Hr) as Hlo.
  pose proof (layout_order file argv envp lo Hlo Hneed) as (O1 & O2 & O3 & O4 & O5 & O6 & O7). fold st in O1, O2, O3, O4, O5, O6, O7.
  set (fa := file_addr st) in *. set (ea := envp_addr st) in *. set (aa := argv_addr st) in *. set (pa := platform_addr st) in *.
  set (xa := random_addr st) in *. unfold push_strings. change (0xffffe000 - 8) with (STACK_TOP - 8). unfold STACK_TOP in *.
  destruct (copy_string_at lo s Hs u m f (STACK_TOP - 8) file rf Hr Hfile) as (u1 & H1 & R1); [unfold STACK_TOP; lia|].
  rewrite (bind_step _ _ _ _ _ H1). unfold STACK_TOP in *. replace (_ - 8 - (Z.of_nat (length file) + 1)) with fa in * by lia.
  rewrite (proj2 (Z.eqb_neq fa 0)) by lia.
  destruct (args_copy_at lo s Hs u1 m _ fa envp re R1 Henvp) as (u2 & H2 & R2); [unfold STACK_TOP; lia|].
  rewrite (bind_step _ _ _ _ _ H2). replace (fa - (Z.of_nat (length (encode envp)) + 1)) with ea in * by lia.
  rewrite (proj2 (Z.eqb_neq ea 0)) by lia. rewrite (bind_step _ _ _ _ _ (upd_mm_at _ _ _ _)).
  destruct (args_copy_at lo s Hs u2 (set_argv_end ea m) _ ea argv ra R2 Hargv) as (u3 & H3 & R3); [unfold STACK_TOP; lia|].
  rewrite (bind_step _ _ _ _ _ H3). replace (ea - (Z.of_nat (length (encode argv)) + 1)) with aa in * by lia.
  rewrite (proj2 (Z.eqb_neq aa 0)) by lia. rewrite (bind_step _ _ _ _ _ (upd_mm_at _ _ _ _)).
  unfold align_stack. rewrite align_16 by (unfold in_u; lia). rewrite <- O7.
  destruct (copy_string_at lo s Hs u3 (set_argv_start aa (set_argv_end ea m)) _ (pa + 5) i686 [] R3) as (u4 & H4 & R4);
    [repeat constructor; lia|unfold STACK_TOP; cbn [length i686]; lia|].
  cbn [length i686 app] in H4. rewrite (bind_step _ _ _ _ _ H4). cbn [length i686] in R4. replace (pa + 5 - (Z.of_nat 4 + 1)) with pa in * by lia.
  rewrite (proj2 (Z.eqb_neq pa 0)) by lia. rewrite (wrap_small 32) by (unfold in_u; lia). replace (pa - 16) with xa by lia.
  destruct (put_at lo s Hs u4 (set_argv_start aa (set_argv_end ea m)) _ xa random_bytes R4) as (u5 & H5 & R5); [lia|rewrite Hrand; unfold STACK_TOP; lia|].
  rewrite (bind_step _ _ _ _ _ H5). eexists u5, _. split_and!; [by destruct st|exact R5| |].
  - split; fold fa ea aa pa xa; repeat (apply bytes_at_store || apply bytes_at_apart); rewrite ?length_app, ?Hrand; cbn [length i686]; lia.
  - intros x Hx. rewrite !store_out; [done|..]; rewrite ?length_app, ?Hrand; cbn [length i686]; lia.
Qed.

Lemma le8_split x : in_u 32 x -> le_bytes 8 x = le_bytes 4 x ++ [0; 0; 0; 0].
Proof.
  intros Hx. change (le_bytes 8 x) with (le_bytes 4 x ++ map (fun i => Cpu.bits (8 * i) 8 x) [4; 5; 6; 7]). f_equal. cbn [map].
  unfold Cpu.bits. rewrite !Z.land_ones, !Z.shiftr_div_pow2 by lia.
  assert (forall k, 32 <= k -> (x / 2 ^ k) mod 2 ^ 8 = 0) as H; [|by rewrite !H by lia].
  intros k Hk. rewrite Z.div_small; [done|]. split; [apply Hx|]. eapply Z.lt_le_trans; [apply Hx|]. by apply Z.pow_le_mono_r.
Qed.

Lemma push_vectors_at lo s u m f h im st argv ra envp re :
  wlocked (fsd s) = false -> room lo u f -> Forall nonzero argv -> Forall nonzero envp ->
  lo + 4 * Z.of_nat (length argv + length envp + 3) + 168 + 15 <= random_addr st ->
  random_addr st <= argv_addr st -> argv_addr st + Z.of_nat (length (encode argv)) + 1 <= STACK_TOP -> bytes_at f (argv_addr st) (encode argv ++ [0]) ->
  random_addr st <= envp_addr st -> envp_addr st + Z.of_nat (length (encode envp)) + 1 <= STACK_TOP -> bytes_at f (envp_addr st) (encode envp ++ [0]) ->
  (forall x, lo <= x < random_addr st -> f x = 0) ->
  let sp := stack_top (random_addr st) (args_of argv ra) (args_of envp re) in
  let p := sp + 4 * Z.of_nat (length argv + length envp + 3) in
  exists u' f', push_vectors h im st (args_of argv ra) (args_of envp re) (at_ u m s) =
      Ret (Built sp) (at_ u' (set_stack_start sp (set_auxv_end (p + 168) (set_auxv_start p m))) s) /\
    room lo u' f' /\ sp mod 16 = 0 /\ lo <= sp /\ p + 168 <= random_addr st /\
    bytes_at f' sp (words (Z.of_nat (length argv) :: pointers (argv_addr st) argv ++ 0 :: pointers (envp_addr st) envp ++
                           0 :: flat (aux_entries h im (vdso m) (random_addr st) (file_addr st) (platform_addr st)))) /\
    forall x, ~ sp <= x < random_addr st -> f' x = f x.
Proof.
  intros Hs Hr Hargv Henvp Hneed Ha1 Ha2 Ha3 He1 He2 He3 Hz sp p. pose proof (rm_lo _ _ _ Hr) as Hlo. set (xa := random_addr st) in *.
  pose proof (encode_length_ge argv) as Lg. pose proof (encode_length_ge envp) as Lg'. unfold STACK_TOP in *.
  assert (sp = (xa - 4 * Z.of_nat (length argv + length envp + 3) - 168) - (xa - 4 * Z.of_nat (length argv + length envp + 3) - 168) mod 16) as Esp.
  { unfold sp, stack_top. cbn [args_of count].
    replace (xa - (Z.of_nat (length argv) + 1 + (Z.of_nat (length envp) + 1) + 1) * 4) with (xa - 4 * Z.of_nat (length argv + length envp + 3)) by lia.
    rewrite (wrap_small 32 (xa - _)) by (unfold in_u; lia). rewrite (wrap_small 32) by (unfold in_u; lia). by rewrite align_16 by (unfold in_u; lia). }
  pose proof (Z.mod_pos_bound (xa - 4 * Z.of_nat (length argv + length envp + 3) - 168) 16 ltac:(lia)) as Hm.
  assert (sp mod 16 = 0) as Hmod.
  { rewrite Esp. rewrite <- Zminus_mod_idemp_l, Z.sub_diag. done. }
  assert (lo <= sp) as Hsp by (rewrite Esp; lia). assert (p + 168 <= xa) as Hp by (unfold p; lia). unfold push_vectors. fold xa. fold sp. clearbody sp. clear Esp Hm. cbn [args_of count args].
  rewrite !Nat2Z.id. set (na := Z.of_nat (length argv)) in *. set (ne := Z.of_nat (length envp)) in *.
  remember (aux_entries h im (vdso m) xa (file_addr st) (platform_addr st)) as aux eqn:Eaux.
  set (P := words (pointers (argv_addr st) argv)). set (E := words (pointers (envp_addr st) envp)).
  assert (Z.of_nat (length P) = 4 * na) as LP by (unfold P; rewrite words_length, pointers_length; lia).
  assert (Z.of_nat (length E) = 4 * ne) as LE by (unfold E; rewrite words_length, pointers_length; lia).
  assert (Z.of_nat (length (aux_bytes aux)) = 168) as LA by (by rewrite Eaux).
  assert (in_u 32 na) as Hna by (unfold in_u; lia). assert (p = sp + 12 + 4 * na + 4 * ne) as Ep by (unfold p; lia).
  destruct (put_at lo s Hs u m f sp (le_bytes 8 na) Hr Hsp) as (u1 & H1 & R1); [change (length (le_bytes 8 na)) with 8%nat; unfold STACK_TOP; lia|].
  rewrite (bind_step _ _ _ _ _ H1). rewrite le8_split in R1 by done. set (f1 := store f sp _) in R1.
  assert (forall x, sp + 4 <= x < xa -> f1 x = 0) as Z1.
  { intros x Hx. unfold f1, store. rewrite length_app, le4_length. cbn [length]. case_decide; [|apply Hz; lia].
    rewrite app_nth2 by (rewrite le4_length; lia). rewrite le4_length. destruct (Z.to_nat (x - sp) - 4)%nat as [|[|[|[|[|?]]]]]; done. }
  assert (forall x, ~ sp <= x < sp + 8 -> f1 x = f x) as O1 by (intros; apply store_out; rewrite length_app, le4_length; cbn [length]; lia).
  rewrite (wrap_small 32 (sp + 4)) by (unfold in_u; lia).
  destruct (put_pointers_at lo s Hs (S (length (encode argv ++ 0%Z :: ra))) argv u1 m f1 (sp + 4) (argv_addr st) [0] R1 Hargv) as (u2 & H2 & R2);
    [rewrite length_app; lia|lia|fold na; lia|unfold STACK_TOP; lia|eapply bytes_at_ext; [|exact Ha3]; intros; apply O1; lia|].
  rewrite (bind_step _ _ _ _ _ H2). fold P na in R2 |- *. set (f2 := store f1 (sp + 4) P) in R2. rewrite (wrap_small 32 (_ + 4 * na + 4)) by (unfold in_u; lia).
  destruct (put_pointers_at lo s Hs (S (length (encode envp ++ 0%Z :: re))) envp u2 m f2 (sp + 4 + 4 * na + 4) (envp_addr st) [0] R2 Henvp) as (u3 & H3 & R3);
    [rewrite length_app; lia|lia|fold ne; lia|unfold STACK_TOP; lia| |].
  { eapply bytes_at_ext; [|exact He3]. intros x Hx. unfold f2. rewrite store_out by lia. apply O1. lia. }
  rewrite (bind_step _ _ _ _ _ H3). fold E ne in R3 |- *. set (f3 := store f2 (sp + 4 + 4 * na + 4) E) in R3.
  rewrite (wrap_small 32 (_ + 4 * ne + 4)) by (unfold in_u; lia). replace (sp + 4 + 4 * na + 4 + 4 * ne + 4) with p by lia.
  rewrite (bind_step _ _ _ _ _ (upd_mm_at _ _ _ _)). rewrite (bind_step _ _ _ _ _ (get_world_at _ _ _)). cbn [mm set_mm vdso set_auxv_start].
  rewrite <- Eaux.
  destruct (put_at lo s Hs u3 (set_auxv_start p m) f3 p (aux_bytes aux) R3) as (u4 & H4 & R4); [lia|rewrite LA; unfold STACK_TOP; lia|].
  rewrite (bind_step _ _ _ _ _ H4). do 2 rewrite (bind_step _ _ _ _ _ (upd_mm_at _ _ _ _)). rewrite (wrap_small 32 (p + 168)) by (unfold in_u; lia).
  set (f4 := store f3 p (aux_bytes aux)) in R4.
  assert (forall x, sp + 4 + 4 * na <= x < p -> ~ sp + 8 + 4 * na <= x < sp + 8 + 4 * na + 4 * ne -> f4 x = 0) as Z4.
  { intros x Hx Hx'. unfold f4, f3, f2. rewrite !store_out by lia. apply Z1. lia. }
  exists u4, f4. split_and!; [done|exact R4|done|done|done| |].
  - change (words (na :: ?l)) with (le_bytes 4 na ++ words l). rewrite words_app. fold P.
    change (words (0 :: ?l)) with (replicate 4 0 ++ words l). rewrite words_app. fold E.
    change (words (0 :: ?l)) with (replicate 4 0 ++ words l). rewrite <- aux_bytes_words.
    rewrite !bytes_at_app, !le4_length, LP, LE, !length_replicate. unfold f4, f3, f2. split_and!.
    + do 3 (apply bytes_at_apart; [|rewrite le4_length; lia]). apply (bytes_at_app _ _ _ [0; 0; 0; 0]), bytes_at_store.
    + do 2 (apply bytes_at_apart; [|lia]). apply bytes_at_store.
    + apply bytes_at_zero. intros x Hx. apply Z4; lia.
    + apply bytes_at_apart; [|lia]. replace (sp + Z.of_nat 4 + 4 * na + Z.of_nat 4) with (sp + 4 + 4 * na + 4) by lia. apply bytes_at_store.
    + apply bytes_at_zero. intros x Hx. apply Z4; lia.
    + match goal with |- bytes_at _ ?a _ => replace a with p by lia end. apply bytes_at_store.
  - intros x Hx. unfold f4, f3, f2. rewrite !store_out by lia. apply O1. lia.
Qed.

(** The numbers in the auxiliary vector have 32 bits. *)
Record numbers_fit (h : elf_header) (im : image) (m : mm_struct) : Prop := mk_fit {
  nf_count : in_u 32 (eh_phent_count h);
  nf_vdso : in_u 32 (vdso m);
  nf_vdso_entry : in_u 32 (im_vdso_entry im);
  nf_base : in_u 32 (im_interp_base im) }.

(** C15: With room on the stack for the strings and the vector, building the first stack succeeds, without a fault or a hang, and leaves what the System V convention asks for: the
    stack pointer is a multiple of 16; the number of arguments, a pointer to each argument and a null one, a pointer to each variable of the environment and a null one, and the
    auxiliary vector, with the name of the file, the platform and the random bytes where it says.  Nothing outside of the stack, and nothing below the stack pointer, has changed. *)
Theorem first_stack_built (lo : Z) (s : vfs (world U)) h im file rf argv ra envp re :
  let u := space (fsd s) in
  let st := layout file argv envp in
  let aux := aux_entries h im (vdso (mm (fsd s))) (random_addr st) (file_addr st) (platform_addr st) in
  wlocked (fsd s) = false -> ok u -> 0 < lo -> (forall x, lo <= x < STACK_TOP -> writable u x) -> (forall x, lo <= x < STACK_TOP -> seen u x = 0) ->
  nonzero file -> Forall nonzero argv -> Forall nonzero envp -> length random_bytes = 16%nat -> numbers_fit h im (mm (fsd s)) ->
  lo + stack_need file argv envp <= STACK_TOP ->
  exists sp s', build_stack h im (file ++ 0 :: rf) (args_of argv ra) (args_of envp re) s = Ret (Built sp) s' /\ lo <= sp /\
    let f := seen (space (fsd s')) in
    first_stack f sp argv envp aux /\
    bytes_at f (file_addr st) (file ++ [0]) /\ bytes_at f (platform_addr st) (i686 ++ [0]) /\ bytes_at f (random_addr st) random_bytes /\
    (forall x, x < sp \/ STACK_TOP <= x -> f x = seen u x) /\
    stack_start (mm (fsd s')) = sp /\ argv_start (mm (fsd s')) = argv_addr st /\ argv_end (mm (fsd s')) = envp_addr st.
Proof.
  intros u st aux Hs Hok Hlo Hw Hz Hfile Hargv Henvp Hrand [N1 N2 N3 N4] Hneed.
  pose proof (layout_order file argv envp lo Hlo Hneed) as (O1 & O2 & O3 & O4 & O5 & O6 & _). fold st in O1, O2, O3, O4, O5, O6.
  destruct (push_strings_at lo s u (mm (fsd s)) (seen u) file rf argv ra envp re Hs ltac:(by split) Hfile Hargv Henvp Hrand Hneed)
    as (u1 & f1 & H1 & R1 & [S1 S2 S3 S4 S5] & F1). fold st in H1, S1, S2, S3, S4, S5, F1. unfold u in H1. rewrite at_self in H1.
  destruct (push_vectors_at lo s u1 (set_argv_start (argv_addr st) (set_argv_end (envp_addr st) (mm (fsd s)))) f1 h im st argv ra envp re Hs R1 Hargv Henvp O1 ltac:(lia) ltac:(lia) S3 ltac:(lia) ltac:(lia) S2
    ltac:(intros; rewrite F1 by lia; apply Hz; lia)) as (u2 & f2 & H2 & R2 & Hal & Hsp & Hp & Hv & F2).
  set (sp := stack_top _ _ _) in *. unfold build_stack. rewrite (bind_step _ _ _ _ _ H1), H2. clear H1 H2.
  eexists sp, _. split; [done|]. split; [done|]. cbv zeta. rewrite (fsd_at u2). cbn [space set_mm set_space mm].
  assert (forall x, seen u2 x = f2 x) as E2 by apply R2. unfold STACK_TOP in *.
  assert (forall a bs, random_addr st <= a -> bytes_at f1 a bs -> bytes_at (seen u2) a bs) as Hb.
  { intros a bs Ha H. eapply bytes_at_ext; [|exact H]. intros x Hx. rewrite E2. apply F2. lia. }
  split_and!; [|apply Hb; [lia|done]..| |done|done|done].
  - eapply (first_stack_of _ _ (argv_addr st) (envp_addr st) _ _ _ [0] [0]); [done| | |lia|lia| |lia|lia| |].
    + pose proof (encode_length_ge argv). lia.
    + eapply bytes_at_ext; [|exact Hv]. intros x _. apply E2.
    + apply Hb; [lia|done].
    + apply Hb; [lia|done].
    + assert (in_u 32 (random_addr st) /\ in_u 32 (file_addr st) /\ in_u 32 (platform_addr st)) as (? & ? & ?) by (unfold in_u; lia).
      unfold aux, aux_entries. repeat (apply Forall_cons; split; [split|]); try apply Forall_nil; first [assumption|apply wrap_range; lia|done|by vm_compute].
  - intros x Hx. rewrite E2, F2 by lia. apply F1. lia.
Qed.

End Stack.

(** ** Segments *)

Section Load.
Context {U : Type} {SP : Space U} {SL : SpaceLaws U} {HO : Host U} {SY : System (world U)}.

(** What [mmap] of a file does (mmap(2)), for at least one page: it fails, or the pages are mapped, show the bytes of the file as far as it has them, and may be written when the flags say
    so; other memory is as it was.  There is no definition of the operation [mmap] of a file in the sources: the loader calls it, and the file systems name host functions. *)
Definition maps_file (f : Z) (data : list Z) : Prop :=
  forall s page pages off flags, ok (space (fsd s)) -> 0 <= page -> 1 <= pages -> page + pages < Memory.MEM_PAGES -> 0 <= off ->
  (exists err s', file_mmap f page pages off flags s = Ret err s' /\ err < 0) \/
  exists u', file_mmap f page pages off flags s = Ret 0 (at_ u' (mm (fsd s)) s) /\ ok u' /\
    (forall x, page <= PAGE x < page + pages -> off + (x - page * 4096) < Z.of_nat (length data) -> seen u' x = nth (Z.to_nat (off + (x - page * 4096))) data 0) /\
    (forall x, 0 <= x -> ~ page <= PAGE x < page + pages -> seen u' x = seen (space (fsd s)) x) /\
    (forall x, present (space (fsd s)) x -> present u' x) /\ (forall x, page <= PAGE x < page + pages -> present u' x) /\
    (forall x, page <= PAGE x < page + pages -> writable u' x <-> Memory.has flags P_WRITE = true).

(** The state in which the lock is not held. *)
Definition unlocked (s : vfs (world U)) : vfs (world U) := set_fsd (set_wlocked false (fsd s)) s.
Lemma unlock_at u m s : wlocked (fsd s) = true -> write_wrunlock (at_ u m s) = Ret tt (at_ u m (unlocked s)).
Proof.
  intros Hl. unfold write_wrunlock. rewrite (bind_step _ _ _ _ _ (get_world_at _ _ _)). cbn [wlocked set_mm set_space]. rewrite Hl.
  unfold upd_world, modify, at_, unlocked. destruct s as [w ? ? ? ? ? ? ?]. by destruct w.
Qed.
Lemma relock_at u m s : wlocked (fsd s) = true -> write_wrlock (at_ u m (unlocked s)) = Ret tt (at_ u m s).
Proof.
  intros Hl. unfold write_wrlock. rewrite (bind_step _ _ _ _ _ (get_world_at _ _ _)). cbn [wlocked set_mm set_space unlocked fsd set_fsd set_wlocked].
  unfold upd_world, modify, at_, unlocked. destruct s as [w ? ? ? ? ? ? ?]. destruct w. cbn in *. by rewrite Hl.
Qed.
Lemma with_mem_at {A} (g : U -> option (A * U)) u m s r u' : g u = Some (r, u') -> with_mem g (at_ u m s) = Ret r (at_ u' m s).
Proof.
  intros Hg. unfold with_mem. rewrite (bind_step _ _ _ _ _ (get_world_at _ _ _)). cbn [space set_mm set_space]. rewrite Hg.
  unfold at_. destruct s as [w ? ? ? ? ? ? ?]. by destruct w.
Qed.

(** Zeros are stored one by one. *)
Lemma user_memset_at s (Hs : wlocked (fsd s) = false) n : forall u m a, ok u -> 0 <= a -> a + Z.of_nat n <= User.LAST_PAGE ->
  (forall x, a <= x < a + Z.of_nat n -> writable u x) ->
  exists u', user_memset n a 0 (at_ u m s) = Ret 0 (at_ u' m s) /\ ok u' /\ (forall x, writable u x -> writable u' x) /\ (forall x, present u x -> present u' x) /\
    forall x, seen u' x = if decide (a <= x < a + Z.of_nat n) then 0 else seen u x.
Proof.
  induction n as [|n IH]; intros u m a Hok Ha Hend Hw; cbn [user_memset].
  { exists u. split_and!; [done|done|done|done|]. intros x. by rewrite decide_False by lia. }
  destruct (write_law u a [0]) as (u1 & Hwr & Hok1 & Hw1 & Hp1 & Hs1); [done|lia|cbn [length]; lia|intros; apply Hw; cbn [length] in *; lia|].
  unfold put. rewrite (bind_step _ _ _ false (at_ u1 m s)).
  2:{ by rewrite (bind_step _ _ _ _ _ (with_space_at (fun u => user_write u a [0]) u m s _ _ Hs Hwr)). }
  unfold User.LAST_PAGE in Hend. rewrite (wrap_small 32) by (unfold in_u; lia).
  destruct (IH u1 m (a + 1) Hok1) as (u' & Hm & Hok' & Hw' & Hp' & Hs'); [lia|unfold User.LAST_PAGE; lia|intros; apply Hw1, Hw; lia|].
  exists u'. split_and!; [done|done|auto|auto|]. intros x. rewrite Hs', Hs1. unfold store. cbn [length].
  repeat case_decide; try lia; try done. by replace (x - a) with 0 by lia.
Qed.

Lemma ROUND_UP_div n : 0 <= n -> n + 4095 < 2 ^ 32 -> PAGE_ROUND_UP n = (n + 4095) / 4096.
Proof.
  intros H0 H1. unfold PAGE_ROUND_UP. change PAGE_SIZE with 4096. rewrite (wrap_small 32) by (unfold in_u; lia). rewrite User.PAGE_div. f_equal. lia.
Qed.
Lemma tail_of_spec e : 0 <= e -> tail_of e = (4096 - e mod 4096) mod 4096.
Proof.
  intros He. unfold tail_of. change PAGE_SIZE with 4096. rewrite User.PGOFFSET_mod. pose proof (Z.mod_pos_bound e 4096 ltac:(lia)).
  destruct (Z.eqb_spec (4096 - e mod 4096) 4096) as [E|E].
  - rewrite E. done.
  - symmetry. apply Z.mod_small. lia.
Qed.

(** A segment as the format asks for it: its offset in the file and its address agree on the place in the page, and the file has the bytes of the segment.  It ends below the last pages
    of the address space, and the pages that come from the file are one or more. *)
Record segment_fits (ph : prg_header) (bias : Z) (data : list Z) : Prop := mk_fits {
  sf_offset : 0 <= ph_offset ph < 2 ^ 32;
  sf_congruent : ph_offset ph mod 4096 = u32 (ph_vaddr ph + bias) mod 4096;
  sf_filesize : 0 <= ph_filesize ph <= ph_memsize ph;
  sf_in_file : ph_offset ph + ph_filesize ph <= Z.of_nat (length data);
  sf_end : u32 (ph_vaddr ph + bias) + ph_memsize ph + 4096 <= User.LAST_PAGE;
  sf_page : 0 < ph_filesize ph + u32 (ph_vaddr ph + bias) mod 4096 }.
Definition segment_writable (ph : prg_header) : bool := ctrue (Z.land (ph_flags ph) PH_W).

Lemma page_in x lo n : lo <= PAGE x < lo + n <-> lo * 4096 <= x < (lo + n) * 4096.
Proof. pose proof (User.PAGE_split x). lia. Qed.
Lemma retained_at f o u m (s : vfs (world U)) : retained f o (at_ u m s) = at_ u m (retained f o s).
Proof. by destruct s. Qed.

Lemma tail_reaches_page e : 0 <= e -> e + 4095 < 2 ^ 32 -> 0 <= tail_of e < 4096 /\ e + tail_of e = PAGE_ROUND_UP e * 4096.
Proof.
  intros H0 H1. rewrite tail_of_spec, ROUND_UP_div by lia. pose proof (Z.div_mod e 4096 ltac:(lia)). pose proof (Z.mod_pos_bound e 4096 ltac:(lia)).
  pose proof (Z.div_mod (e + 4095) 4096 ltac:(lia)). pose proof (Z.mod_pos_bound (e + 4095) 4096 ltac:(lia)).
  destruct (decide (e mod 4096 = 0)) as [E|E]; [rewrite E, Z.sub_0_r, Z.mod_same by lia|rewrite Z.mod_small by lia]; lia.
Qed.

(** The tail of the last page of the file is cleared, with the lock released meanwhile. *)
Lemma clear_tail_at s u m e (Hs : wlocked (fsd s) = true) : ok u -> 0 <= e -> e + 4096 <= User.LAST_PAGE -> (forall x, e <= x < e + tail_of e -> writable u x) ->
  exists u', (if negb (tail_of e =? 0) then write_wrunlock ;; user_memset (Z.to_nat (tail_of e)) e 0 ;; write_wrlock else ret tt) (at_ u m s) = Ret tt (at_ u' m s) /\ ok u' /\
    (forall x, writable u x -> writable u' x) /\ (forall x, present u x -> present u' x) /\ forall x, seen u' x = if decide (e <= x < e + tail_of e) then 0 else seen u x.
Proof.
  intros Hok He Hend Hw. unfold User.LAST_PAGE in *. destruct (tail_reaches_page e) as [Ht _]; [lia|lia|]. destruct (Z.eqb_spec (tail_of e) 0) as [E|E]; cbn [negb].
  { exists u. split_and!; [done|done|done|done|]. intros x. by rewrite decide_False by lia. }
  rewrite (bind_step _ _ _ _ _ (unlock_at u m s Hs)).
  destruct (user_memset_at (unlocked s) eq_refl (Z.to_nat (tail_of e)) u m e Hok He) as (u' & Hm & Hok' & Hw' & Hp' & Hsn);
    [unfold User.LAST_PAGE; lia|intros; apply Hw; lia|]. rewrite Z2Nat.id in Hsn by lia.
  rewrite (bind_step _ _ _ _ _ Hm). exists u'. split_and!; [by apply relock_at|done|done|done|done].
Qed.

(** In a page that may not be written nothing is cleared, and nobody notices. *)
Lemma clear_tail_refused s u m e (Hs : wlocked (fsd s) = true) : ok u -> 0 <= e -> e + 4096 <= User.LAST_PAGE -> (0 < tail_of e -> ~ writable u e) ->
  (if negb (tail_of e =? 0) then write_wrunlock ;; user_memset (Z.to_nat (tail_of e)) e 0 ;; write_wrlock else ret tt) (at_ u m s) = Ret tt (at_ u m s).
Proof.
  intros Hok He Hend Hw. unfold User.LAST_PAGE in *. destruct (tail_reaches_page e) as [Ht _]; [lia|lia|]. destruct (Z.eqb_spec (tail_of e) 0) as [E|E]; cbn [negb]; [done|].
  rewrite (bind_step _ _ _ _ _ (unlock_at u m s Hs)). replace (Z.to_nat (tail_of e)) with (S (Z.to_nat (tail_of e - 1))) by lia. cbn [user_memset].
  pose proof (write_refused u e 0 [] Hok He ltac:(cbn [length]; unfold User.LAST_PAGE; lia) ltac:(apply Hw; lia)) as Hr.
  assert (put e [0] (at_ u m (unlocked s)) = Ret true (at_ u m (unlocked s))) as Hput.
  { unfold put. by rewrite (bind_step _ _ _ _ _ (with_space_at (fun u => user_write u e [0]) u m (unlocked s) _ _ eq_refl Hr)). }
  rewrite (bind_step (let! bad := put e [0] in if bad then ret 1 else user_memset (Z.to_nat (tail_of e - 1)) (u32 (e + 1)) 0) _ _ 1 (at_ u m (unlocked s))); [by apply relock_at|].
  by rewrite (bind_step _ _ _ _ _ Hput).
Qed.

(** The end of the part from the file, cleared or not. *)
Lemma tail_at s u m e w (Hs : wlocked (fsd s) = true) : ok u -> 0 <= e -> e + 4096 <= User.LAST_PAGE -> (forall x, e <= x < e + tail_of e -> writable u x <-> w = true) ->
  exists u', (if negb (tail_of e =? 0) then write_wrunlock ;; user_memset (Z.to_nat (tail_of e)) e 0 ;; write_wrlock else ret tt) (at_ u m s) = Ret tt (at_ u' m s) /\ ok u' /\
    (forall x, present u x -> present u' x) /\ forall x, seen u' x = if decide (w = true /\ e <= x < e + tail_of e) then 0 else seen u x.
Proof.
  intros Hok He Hend Hw. destruct w.
  - destruct (clear_tail_at s u m e Hs Hok He Hend) as (u' & H & Hok' & _ & Hp & Hsn); [intros x Hx; by apply Hw|]. exists u'. split_and!; [done|done|done|]. intros x. rewrite Hsn.
    destruct (decide (e <= x < e + tail_of e)); [by rewrite decide_True|by rewrite decide_False by lia].
  - exists u. split_and!; [|done|done|intros x; by rewrite decide_False by (intros [? _]; done)]. apply clear_tail_refused; try done. intros Ht Hwr. apply Hw in Hwr; [done|lia].
Qed.

(** C24: Loading a segment of a file, with the lock held: when the file cannot be mapped the error is returned.  Otherwise loading succeeds and leaves the segment in memory: at its
    address are the bytes of the file, then zeros up to its size in memory; all of it is mapped; memory in other pages is as before; the lock is held again, and the file has one more
    reference.  In a segment that may not be written the zeros begin only at the next page: up to there the bytes of the file that follow the segment stay.  This is for segments with a
    page from the file; for the others see [empty_segment_faults]. *)
Theorem segment_loaded (s : vfs (world U)) ph bias f o data :
  let addr := u32 (ph_vaddr ph + bias) in
  wlocked (fsd s) = true -> ok (space (fsd s)) -> fds s !! f = Some o -> 0 < fd_refcount o < 2 ^ 32 - 1 -> maps_file f data -> segment_fits ph bias data ->
  (exists err s', err < 0 /\ load_entry ph bias f s = Ret err s' /\
     file_mmap f (PAGE addr) (PAGE_ROUND_UP (u32 (ph_filesize ph + PGOFFSET addr))) (u32 (ph_offset ph - PGOFFSET addr))
       (if segment_writable ph then Z.lor P_READ P_WRITE else P_READ) s = Ret err s') \/
  exists u', load_entry ph bias f s = Ret 0 (at_ u' (mm (fsd s)) (retained f o s)) /\ ok u' /\
    (forall i, 0 <= i < ph_filesize ph -> seen u' (addr + i) = nth (Z.to_nat (ph_offset ph + i)) data 0) /\
    (forall i, ph_filesize ph <= i < ph_memsize ph ->
       if decide (segment_writable ph = false /\ addr + i < PAGE_ROUND_UP (addr + ph_filesize ph) * 4096)
       then ph_offset ph + i < Z.of_nat (length data) -> seen u' (addr + i) = nth (Z.to_nat (ph_offset ph + i)) data 0
       else seen u' (addr + i) = 0) /\
    (forall i, 0 <= i < ph_memsize ph -> present u' (addr + i)) /\
    (forall x, 0 <= x -> PAGE x < PAGE addr \/ addr + ph_memsize ph <= PAGE x * 4096 -> seen u' x = seen (space (fsd s)) x).
Proof.
  intros addr Hs Hok Ho Hrc Hmap [F1 F2 F3 Fin F4 F5]. fold addr in F2, F4, F5. pose proof (wrap_range 32 (ph_vaddr ph + bias) ltac:(lia)) as Haddr. fold addr in Haddr.
  unfold User.LAST_PAGE, in_u in *. destruct (User.PAGE_split addr) as [Ea Ho']. pose proof (User.PGOFFSET_mod addr) as Emod. rewrite <- Emod in F2, F5.
  pose proof (Z.div_mod (ph_offset ph) 4096 ltac:(lia)) as Eoff. pose proof (Z.div_pos (ph_offset ph) 4096 ltac:(lia) ltac:(lia)) as Hoff.
  set (pg := PAGE addr) in *. set (po := PGOFFSET addr) in *. set (fs := ph_filesize ph) in *. set (ms := ph_memsize ph) in *.
  unfold load_entry. fold addr fs ms po pg. fold (segment_writable ph). rewrite (wrap_small 32 (fs + po)), (wrap_small 32 (ph_offset ph - po)), (wrap_small 32 (addr + fs)) by (unfold in_u; lia).
  set (flags := if segment_writable ph then _ else _). assert (Memory.has flags P_WRITE = segment_writable ph) as Efl by (unfold flags; by destruct (segment_writable ph)).
  rewrite (ROUND_UP_div (fs + po)) by lia. pose proof (Z.div_mod (fs + po + 4095) 4096 ltac:(lia)) as Er. pose proof (Z.mod_pos_bound (fs + po + 4095) 4096 ltac:(lia)) as Er'.
  set (n := (fs + po + 4095) / 4096) in *. assert (Memory.MEM_PAGES = 1048576) as EM by done.
  destruct (Hmap s pg n (ph_offset ph - po) flags Hok) as [(err & s' & Hm & Herr)|(u1 & H1 & Hok1 & S1 & S1' & P1 & P1' & W1)]; [lia..| |].
  { left. exists err, s'. split_and!; [done| |done]. rewrite (bind_step _ _ _ _ _ Hm). by rewrite (proj2 (Z.ltb_lt err 0)). }
  right. rewrite (bind_step _ _ _ _ _ H1). cbn [Z.ltb Z.compare].
  rewrite (bind_step _ _ _ _ _ (fd_retain_run f o (at_ u1 (mm (fsd s)) s) Ho Hrc)), retained_at. set (s1 := retained f o s).
  assert (wlocked (fsd s1) = true) as Hs1 by (by destruct s). rewrite (bind_step _ _ _ _ _ (get_world_at u1 _ s1)). cbn [space set_mm set_space].
  destruct (tag_law u1 pg f Hok1) as (u2 & H2 & Hok2 & W2 & P2 & S2); [apply P1'; rewrite PAGE_of_page; lia|].
  rewrite H2. rewrite (bind_step _ _ (at_ u1 _ s1) u2 (at_ u1 (mm (fsd s)) s1)) by done. rewrite (bind_step _ _ _ tt (at_ u2 (mm (fsd s)) s1)).
  2:{ unfold upd_world, modify, at_. destruct s1 as [w ? ? ? ? ? ? ?]. by destruct w. }
  assert (forall i, 0 <= i -> pg <= PAGE (addr + i) < pg + n -> ph_offset ph + i < Z.of_nat (length data) -> seen u2 (addr + i) = nth (Z.to_nat (ph_offset ph + i)) data 0) as Hfile.
  { intros i Hi Hpi Hli. rewrite S2, S1 by (done || lia). f_equal. lia. }
  rewrite Z.gtb_ltb. destruct (Z.ltb_spec fs ms) as [Hlt|Hge].
  2:{ exists u2. split_and!; [done|done| | | |].
      - intros i Hi. apply Hfile; [lia|apply page_in; lia|lia].
      - intros i Hi. lia.
      - intros i Hi. apply P2, P1'. apply page_in. lia.
      - intros x Hx Hx'. rewrite S2, S1' by lia. done. }
  destruct (tail_reaches_page (addr + fs)) as [Ht Et]; [lia|lia|]. rewrite (ROUND_UP_div (addr + fs)) in * by lia.
  assert ((addr + fs + 4095) / 4096 = pg + n) as ER.
  { replace (addr + fs + 4095) with (pg * 4096 + (fs + po + 4095)) by lia. by rewrite Z.div_add_l. }
  rewrite ER in *. set (t := tail_of (addr + fs)) in *.
  destruct (tail_at s1 u2 (mm (fsd s)) (addr + fs) (segment_writable ph) Hs1 Hok2) as (u3 & H3 & Hok3 & P3 & S3);
    [lia|unfold User.LAST_PAGE; lia|fold t; intros x Hx; rewrite <- W2, W1, Efl by (apply page_in; lia); done|]. fold t in H3, S3.
  rewrite (bind_step _ _ _ _ _ H3). clear H3. rewrite Z.gtb_ltb. set (t' := if ms - fs <? t then ms - fs else t).
  assert (t' = Z.min (ms - fs) t) as Et' by (unfold t'; destruct (Z.ltb_spec (ms - fs) t); lia). clearbody t'.
  assert (forall i, 0 <= i < fs -> seen u3 (addr + i) = nth (Z.to_nat (ph_offset ph + i)) data 0) as Hdata.
  { intros i Hi. rewrite S3, decide_False by lia. apply Hfile; [lia|apply page_in; lia|lia]. }
  assert (forall i, fs <= i < fs + t -> if decide (segment_writable ph = false /\ addr + i < (pg + n) * 4096)
    then ph_offset ph + i < Z.of_nat (length data) -> seen u3 (addr + i) = nth (Z.to_nat (ph_offset ph + i)) data 0 else seen u3 (addr + i) = 0) as Hzero.
  { intros i Hi. rewrite S3. destruct (segment_writable ph).
    - rewrite decide_False by (intros [? _]; done). by rewrite decide_True by lia.
    - rewrite decide_True by lia. rewrite decide_False by (intros [? _]; done). intros Hli. apply Hfile; [lia|apply page_in; lia|done]. }
  assert (forall i, 0 <= i < fs + t -> present u3 (addr + i)) as Hpres by (intros i Hi; apply P3, P2, P1', page_in; lia).
  assert (forall x, 0 <= x -> PAGE x < pg \/ addr + ms <= PAGE x * 4096 -> seen u3 x = seen (space (fsd s)) x) as Hframe.
  { intros x Hx Hx'. pose proof (User.PAGE_split x). rewrite S3, decide_False by lia. rewrite S2, S1' by lia. done. }
  destruct (Z.eqb_spec (ms - fs - t') 0) as [E0|E0]; cbn [negb].
  { exists u3. split_and!; [done|done|done|intros; apply Hzero; lia|intros; apply Hpres; lia|done]. }
  assert (t' = t) as -> by lia. rewrite (ROUND_UP_div (ms - fs - t)) by lia. pose proof (Z.div_mod (ms - fs - t + 4095) 4096 ltac:(lia)) as Ek.
  pose proof (Z.mod_pos_bound (ms - fs - t + 4095) 4096 ltac:(lia)) as Ek'. set (k := (ms - fs - t + 4095) / 4096) in *.
  destruct (map_law u3 (pg + n) k flags Hok3) as (u4 & H4 & Hok4 & S4 & P4 & P4' & _); [lia..|].
  rewrite (bind_step _ _ _ _ _ (with_mem_at (fun u => map_nothing u (pg + n) k flags) u3 (mm (fsd s)) s1 0 u4 H4)).
  exists u4. split_and!; [done|done| | | |].
  - intros i Hi. rewrite S4, decide_False by (rewrite ?page_in; lia). by apply Hdata.
  - intros i Hi. rewrite S4 by lia. destruct (decide (pg + n <= PAGE (addr + i) < pg + n + k)) as [Hd|Hd]; rewrite page_in in Hd; [by rewrite decide_False by lia|]. apply Hzero. lia.
  - intros i Hi. destruct (decide (i < fs + t)); [apply P4, Hpres; lia|]. apply P4', page_in. lia.
  - intros x Hx Hx'. rewrite S4, decide_False by lia. by apply Hframe.
Qed.
End Load.

(** ** Scripts *)

Definition spaces (n : nat) : list Z := replicate n space_char.
(** The first line of a script: the interpreter, and an argument after it, with spaces before, between and after them. *)
Definition shebang_line (n1 n2 n3 : nat) (interpreter : list Z) (argument : option (list Z)) : list Z :=
  [35; 33] ++ spaces n1 ++ interpreter ++ match argument with Some a => spaces (S n2) ++ a ++ spaces n3 | None => spaces n3 end.
(** Words have no space and no newline; an argument may have spaces inside. *)
Definition plain (s : list Z) : Prop := Forall (fun c => c <> newline) s.
Definition is_word (s : list Z) : Prop := s <> [] /\ Forall (fun c => c <> space_char) s.
Definition trimmed (s : list Z) : Prop := s <> [] /\ head s <> Some space_char /\ last s <> Some space_char.

Lemma first_line_run l r : plain l -> first_line (l ++ newline :: r) = Some l.
Proof. induction 1 as [|c l Hc _ IH]; [done|]. cbn [app first_line]. rewrite (proj2 (Z.eqb_neq c newline)) by done. by rewrite IH. Qed.
Lemma skip_spaces_run n l : head l <> Some space_char -> skip_spaces (spaces n ++ l) = l.
Proof.
  intros Hl. induction n as [|n IH]; cbn [spaces replicate app].
  - destruct l as [|c l]; [done|]. cbn [skip_spaces]. rewrite (proj2 (Z.eqb_neq c space_char)); [done|]. intros ->. by apply Hl.
  - cbn [skip_spaces]. by rewrite Z.eqb_refl.
Qed.
Lemma word_run s l : Forall (fun c => c <> space_char) s -> (l = [] \/ head l = Some space_char) -> word (s ++ l) = s.
Proof.
  intros Hs Hl. induction Hs as [|c s Hc _ IH]; cbn [app word].
  - destruct l as [|c l]; [done|]. destruct Hl as [?|[= ->]]; [done|]. cbn [word]. by rewrite Z.eqb_refl.
  - rewrite (proj2 (Z.eqb_neq c space_char)) by done. by rewrite IH.
Qed.
Lemma strip_spaces_run l n : last l <> Some space_char -> strip_spaces (l ++ spaces n) = l.
Proof.
  intros Hl. unfold strip_spaces. rewrite rev_app_distr. replace (rev (spaces n)) with (spaces n).
  2:{ unfold spaces. induction n as [|n IH]; [done|]. cbn [replicate rev]. rewrite <- IH. apply (replicate_S_end n space_char). }
  rewrite skip_spaces_run; [apply rev_involutive|]. destruct l as [|c l _] using rev_ind; [done|]. rewrite rev_app_distr. by rewrite last_snoc in Hl.
Qed.
Lemma plain_spaces n : plain (spaces n).
Proof. apply Forall_replicate. done. Qed.

(** The first line of a script, whatever spaces it has, is read as the interpreter and the argument that were written; an argument keeps the spaces inside of it, and spaces alone
    are no argument. *)
Theorem shebang_round_trip n1 n2 n3 interpreter argument rest :
  is_word interpreter -> plain interpreter -> (forall a, argument = Some a -> trimmed a /\ plain a) ->
  parse_shebang (shebang_line n1 n2 n3 interpreter argument ++ newline :: rest) = Some (interpreter, argument).
Proof.
  intros [Hne Hw] Hp Ha. unfold parse_shebang. rewrite first_line_run.
  2:{ unfold shebang_line. repeat (apply Forall_app; split); [repeat constructor; done|apply plain_spaces|done|].
      destruct argument as [a|]; [|apply plain_spaces]. destruct (Ha a eq_refl) as [_ Hpa]. repeat (apply Forall_app; split); [apply plain_spaces|done|apply plain_spaces]. }
  unfold shebang_line. cbn [app]. set (tl := match argument with Some _ => _ | None => _ end).
  assert (tl = [] \/ head tl = Some space_char) as Htl by (unfold tl; destruct argument as [a|]; [by right|]; destruct n3; [by left|by right]).
  destruct interpreter as [|c i]; [done|]. assert (c <> space_char) as Hc by (by apply Forall_cons_1 in Hw as [? _]).
  rewrite skip_spaces_run by (cbn; congruence). cbn [app]. change (c :: i ++ tl) with ((c :: i) ++ tl). rewrite word_run by done. do 2 f_equal.
  rewrite drop_app_length. unfold tl. destruct argument as [a|].
  - destruct (Ha a eq_refl) as [(Hn & Hh & Hl) _]. rewrite skip_spaces_run, strip_spaces_run by (done || by destruct a). by destruct a.
  - replace (skip_spaces (spaces n3)) with (@nil Z); [done|]. symmetry. rewrite <- (app_nil_r (spaces n3)). by apply skip_spaces_run.
Qed.

Section Scripts.
Context {U : Type} {SP : Space U} {HO : Host U} {SY : System (world U)}.

Definition with_argument (argument : option (list Z)) (l : list (list Z)) : list (list Z) := match argument with Some a => a :: l | None => l end.
(** The size of what the script adds to the arguments that are passed on. *)
Definition script_size (interpreter : list Z) (argument : option (list Z)) (file : list Z) (rest : list (list Z)) : Z :=
  Z.of_nat (length (encode (interpreter :: with_argument argument (file :: rest)))) + 1.

Lemma encode_app l k : encode (l ++ k) = encode l ++ encode k.
Proof. unfold encode. by rewrite map_app, concat_app. Qed.

(** A script is run by its interpreter, with the arguments: the interpreter, the argument of the first line if there is one, the name of the script, and the arguments of the caller but
    the first.  When they take [ARGV_MAX] bytes or more, the call fails. *)
Theorem script_runs_interpreter (s s1 s2 : vfs (world U)) f b header interpreter argument file rf a0 rest ra envp :
  file_lseek f 0 s = Ret 0 s1 -> file_read f 127 s1 = Ret (inr b) s2 -> until_nul (b ++ [0]) = Some header -> parse_shebang header = Some (interpreter, argument) ->
  nonzero file -> nonzero a0 -> Forall nonzero rest -> Z.of_nat (length rest) < 2 ^ 63 ->
  shebang_exec f (file ++ 0 :: rf) (args_of (a0 :: rest) ra) envp s =
    if script_size interpreter argument file rest >=? ARGV_MAX then Ret _E2BIG s2
    else (let! r := open_string (interpreter ++ [0]) in
          match r with
          | inl err => ret err
          | inr g => let! err := format_exec g (interpreter ++ [0]) (args_of (interpreter :: with_argument argument (file :: rest)) []) envp in
                     let! _ := fd_close g in ret err
          end) s2.
Proof.
  intros Hl Hr Hh Hp Hf H0 Hrest Hlen. unfold shebang_exec. rewrite (bind_step _ _ _ _ _ Hl). cbn [ctrue Z.eqb negb]. rewrite (bind_step _ _ _ _ _ Hr), Hh.
  rewrite (bind_step _ _ s2 header s2) by done. rewrite Hp. cbn [args_of args count]. rewrite encode_cons, <- !app_assoc. cbn [app].
  rewrite (bind_step _ _ _ _ _ (strlen_run a0 _ s2 H0)).
  replace (drop _ (a0 ++ 0 :: encode rest ++ 0 :: ra)) with (encode rest ++ 0 :: ra).
  2:{ replace (a0 ++ 0 :: encode rest ++ 0 :: ra) with ((a0 ++ [0]) ++ encode rest ++ 0 :: ra) by (by rewrite <- app_assoc).
      rewrite drop_app_length'; [done|]. rewrite length_app. cbn [length]. lia. }
  cbn [length]. replace (Z.of_nat (S (length rest)) - 1) with (Z.of_nat (length rest)) by lia. rewrite (wrap_small 64) by (unfold in_u; lia).
  change (mk_args (Z.of_nat (length rest)) (encode rest ++ 0 :: ra)) with (args_of rest ra). rewrite (bind_step _ _ _ _ _ (args_size_run rest ra s2 Hrest)).
  rewrite until_nul_string by done. rewrite (bind_step _ _ s2 file s2) by done. cbn [args_of count args].
  set (before := interpreter ++ 0 :: match argument with Some a => a ++ [0] | None => [] end ++ file ++ [0]).
  assert (encode (interpreter :: with_argument argument (file :: rest)) = before ++ encode rest) as Eall.
  { unfold before, encode. destruct argument as [a|]; cbn [with_argument map concat]; repeat (rewrite <- app_assoc; cbn [app]); done. }
  unfold script_size. rewrite Eall.
  replace (Z.of_nat (length (encode rest)) + 1 + Z.of_nat (length before)) with (Z.of_nat (length (before ++ encode rest)) + 1) by (rewrite length_app; lia).
  destruct (_ >=? ARGV_MAX); [done|].
  replace (mk_args _ (before ++ _)) with (args_of (interpreter :: with_argument argument (file :: rest)) []); [done|].
  unfold args_of. rewrite Eall. f_equal.
  - rewrite (wrap_small 64) by (unfold in_u; destruct argument; lia). destruct argument; cbn [with_argument length]; lia.
  - rewrite <- app_assoc. f_equal. replace (encode rest ++ 0 :: ra) with ((encode rest ++ [0]) ++ ra) by (by rewrite <- app_assoc).
    rewrite take_app_length'; [done|]. rewrite length_app. cbn [length]. lia.
Qed.

(** A script that is run with no arguments at all makes the kernel read past the end of them: the number of the arguments that are passed on is one less than none. *)
Theorem script_without_arguments_faults (s s1 s2 : vfs (world U)) f b header interpreter argument file envp :
  file_lseek f 0 s = Ret 0 s1 -> file_read f 127 s1 = Ret (inr b) s2 -> until_nul (b ++ [0]) = Some header -> parse_shebang header = Some (interpreter, argument) ->
  shebang_exec f file (args_of [] []) envp s = Fault.
Proof.
  intros Hl Hr Hh Hp. unfold shebang_exec. rewrite (bind_step _ _ _ _ _ Hl). cbn [ctrue Z.eqb negb]. rewrite (bind_step _ _ _ _ _ Hr), Hh.
  rewrite (bind_step _ _ s2 header s2) by done. by rewrite Hp.
Qed.
End Scripts.

(** ** Reading the arguments *)

Section Arguments.
Context {U : Type} {SP : Space U} {SL : SpaceLaws U} {HO : Host U} {SY : System (world U)}.

(** Memory shows the same, and what was there is there. *)
Record same_view (u u' : U) : Prop := mk_same {
  sv_ok : ok u';
  sv_seen : forall x, seen u' x = seen u x;
  sv_present : forall x, present u x -> present u' x }.
Lemma same_view_trans u u1 u2 : same_view u u1 -> same_view u1 u2 -> same_view u u2.
Proof. intros [? E1 ?] [? E2 ?]. split; [done| |auto]. intros x. by rewrite E2, E1. Qed.

(** These bytes are at this address, in mapped pages. *)
Record holds (u : U) (a : Z) (bs : list Z) : Prop := mk_holds {
  ho_bytes : bytes_at (seen u) a bs;
  ho_present : forall x, a <= x < a + Z.of_nat (length bs) -> present u x;
  ho_low : 0 <= a;
  ho_high : a + Z.of_nat (length bs) <= User.LAST_PAGE }.
Lemma holds_same u u' a bs : same_view u u' -> holds u a bs -> holds u' a bs.
Proof. intros [_ E P] [H1 H2 H3 H4]. split; [|auto|done|done]. eapply bytes_at_ext; [|exact H1]. intros x _. apply E. Qed.
Lemma holds_app u a b1 b2 : holds u a (b1 ++ b2) -> holds u a b1 /\ holds u (a + Z.of_nat (length b1)) b2.
Proof.
  intros [H1 H2 H3 H4]. apply bytes_at_app in H1 as [? ?]. rewrite length_app in *. split; split; try done; try lia; intros; apply H2; lia.
Qed.

Section Steps.
Context (s : vfs (world U)) (Hs : wlocked (fsd s) = false) (m : mm_struct).

Lemma get_holds u a bs : ok u -> holds u a bs ->
  exists u', get a (length bs) (at_ u m s) = Ret (Some bs) (at_ u' m s) /\ same_view u u'.
Proof.
  intros Hok [H1 H2 H3 H4]. destruct (read_law u a (replicate (length bs) 0)) as (bs' & u' & Hrd & Hok' & _ & Hp & Hsn & Hl & Hat);
    rewrite ?length_replicate in *; [done|done|done|by left; apply H2|].
  assert (bs' = bs) as ->.
  { apply list_eq_same_length with (length bs); [done|lia|]. intros i x y Hi Hx Hy. by rewrite <- (H1 i y Hy), <- (Hat i x Hx). }
  exists u'. split; [|by split]. unfold get. by rewrite (bind_step _ _ _ _ _ (with_space_at (fun u => user_read u a (replicate (length bs) 0)) u m s (0, bs) _ Hs Hrd)).
Qed.

(** A string is copied, its terminator included, or there is no room for it. *)
Lemma read_one_holds t : forall room u str i buf, ok u -> nonzero t -> 0 <= i -> 0 <= str -> holds u (str + i) (t ++ [0]) ->
  exists u', read_one room str i buf (at_ u m s) =
    Ret (if decide (S (length t) <= room)%nat then Copied (buf ++ t ++ [0]) (room - S (length t)) else Failed _E2BIG) (at_ u' m s) /\ same_view u u'.
Proof.
  induction t as [|c t IH]; intros room u str i buf Hok Ht Hi Hstr Hh; (destruct room as [|room]; cbn [read_one];
    [exists u; split; [rewrite decide_False by (cbn [length]; lia); done|by split]|]);
    pose proof (ho_high _ _ _ Hh) as Hend; unfold User.LAST_PAGE in Hend; rewrite length_app in Hend; cbn [length] in Hend; rewrite (wrap_small 32) by (unfold in_u; lia).
  - destruct (get_holds u (str + i) [0] Hok Hh) as (u1 & Hg & Hsv). rewrite (bind_step _ _ _ _ _ Hg). rewrite bool_decide_eq_true_2 by done.
    exists u1. split; [|done]. rewrite decide_True by (cbn [length]; lia). cbn [length app]. by replace (S room - 1)%nat with room by lia.
  - apply Forall_cons_1 in Ht as [Hc Ht]. change ((c :: t) ++ [0]) with ([c] ++ (t ++ [0])) in Hh |- *. apply holds_app in Hh as [Hh1 Hh2].
    destruct (get_holds u (str + i) [c] Hok Hh1) as (u1 & Hg & Hsv). rewrite (bind_step _ _ _ _ _ Hg). rewrite bool_decide_eq_false_2 by congruence.
    destruct (IH room u1 str (i + 1) (buf ++ [c]) (sv_ok _ _ Hsv) Ht ltac:(lia) Hstr) as (u2 & Hr & Hsv2).
    { apply (holds_same u); [done|]. cbn [length] in Hh2. by replace (str + (i + 1)) with (str + i + Z.of_nat 1) by lia. }
    exists u2. split; [|by eapply same_view_trans]. rewrite Hr. cbn [length]. destruct (decide (S (length t) <= room)%nat), (decide (S (S (length t)) <= S room)%nat); try lia; [|done].
    by rewrite <- !app_assoc.
Qed.

(** The array of pointers from the [i]th on, and the strings they lead to. *)
Lemma read_strings_holds l : forall ptrs fuel room u addr i buf, ok u -> Forall nonzero l -> (room < fuel)%nat -> 0 <= i -> 0 <= addr ->
  Forall2 (fun p t => 0 < p /\ holds u p (t ++ [0])) ptrs l -> holds u (addr + i * 4) (words (ptrs ++ [0])) ->
  exists u', read_strings fuel room addr i buf (at_ u m s) =
    Ret (if decide (S (length (encode l)) <= room)%nat then inr (i + Z.of_nat (length l), buf ++ encode l ++ [0]) else inl _E2BIG) (at_ u' m s) /\ same_view u u'.
Proof.
  induction l as [|t l IH]; intros ptrs fuel room u addr i buf Hok Hl Hf Hi Ha Hp Hh; (destruct fuel as [|fuel]; [lia|]); cbn [read_strings].
  - apply Forall2_nil_inv_r in Hp as ->. pose proof (ho_high _ _ _ Hh) as Hend. unfold User.LAST_PAGE in Hend. cbn [app] in Hend. rewrite words_length in Hend. cbn [length] in Hend.
    rewrite (wrap_small 32) by (unfold in_u; lia).
    destruct (get_holds u (addr + i * 4) (le_bytes 4 0) Hok Hh) as (u1 & Hg & Hsv). change (length (le_bytes 4 0)) with 4%nat in Hg.
    rewrite (bind_step _ _ _ _ _ Hg). change (le_value (le_bytes 4 0) =? 0) with true. cbn iota. exists u1. split; [|done]. cbn [encode map concat length app].
    destruct room as [|room]; [done|]. rewrite decide_True by lia. by rewrite Z.add_0_r.
  - apply Forall2_cons_inv_r in Hp as (p & ptrs' & (Hp0 & Hpt) & Hps & ->). apply Forall_cons_1 in Hl as [Ht Hl].
    pose proof (ho_high _ _ _ Hh) as Hend. unfold User.LAST_PAGE in Hend. cbn [app] in Hend, Hh. rewrite words_length in Hend. cbn [length] in Hend.
    rewrite (wrap_small 32) by (unfold in_u; lia). change (words (p :: ptrs' ++ [0])) with (le_bytes 4 p ++ words (ptrs' ++ [0])) in Hh.
    apply holds_app in Hh as [Hh1 Hh2]. destruct (get_holds u (addr + i * 4) (le_bytes 4 p) Hok Hh1) as (u1 & Hg & Hsv). change (length (le_bytes 4 p)) with 4%nat in Hg, Hh2.
    rewrite (bind_step _ _ _ _ _ Hg). pose proof (ho_high _ _ _ Hpt) as Hpe. unfold User.LAST_PAGE in Hpe.
    rewrite Fpu.le_bytes_value by (unfold in_u; lia). rewrite (proj2 (Z.eqb_neq p 0)) by lia.
    destruct (read_one_holds t room u1 p 0 buf (sv_ok _ _ Hsv) Ht ltac:(lia) ltac:(lia)) as (u2 & Hr & Hsv2); [rewrite Z.add_0_r; by apply (holds_same u)|].
    rewrite (bind_step _ _ _ _ _ Hr). rewrite length_encode_cons. case_decide as Hroom.
    2:{ exists u2. split; [|by eapply same_view_trans]. by rewrite decide_False by lia. }
    pose proof (same_view_trans _ _ _ Hsv Hsv2) as Hsv3.
    destruct (IH ptrs' fuel (room - S (length t))%nat u2 addr (i + 1) (buf ++ t ++ [0]) (sv_ok _ _ Hsv3) Hl ltac:(lia) ltac:(lia) Ha) as (u3 & Hr3 & Hsv4).
    { eapply Forall2_impl; [exact Hps|]. intros q x [? ?]. split; [done|by apply (holds_same u)]. }
    { apply (holds_same u); [done|]. by replace (addr + (i + 1) * 4) with (addr + i * 4 + Z.of_nat 4) by lia. }
    exists u3. split; [|by eapply same_view_trans]. rewrite Hr3. rewrite encode_cons, <- !app_assoc.
    destruct (decide (S (length (encode l)) <= room - S (length t))%nat), (decide (S (S (length t + length (encode l))) <= room)%nat); try lia; [|done].
    do 3 f_equal. cbn [length]. lia.
Qed.
End Steps.

(** Reading the argument array of [execve] gives the strings one after the other with their terminators and one more, and their number; when that does not fit, the call fails
    with [_E2BIG].  What the memory of the guest shows is as before. *)
Theorem string_array_read (s : vfs (world U)) addr max ptrs l :
  let u := space (fsd s) in
  wlocked (fsd s) = false -> ok u -> Forall nonzero l -> Forall2 (fun p t => 0 < p /\ holds u p (t ++ [0])) ptrs l -> holds u addr (words (ptrs ++ [0])) ->
  exists u', user_read_string_array addr max s =
    Ret (if decide (Z.of_nat (length (encode l)) + 1 <= max) then inr (Z.of_nat (length l), encode l ++ [0]) else inl _E2BIG) (at_ u' (mm (fsd s)) s) /\ same_view u u'.
Proof.
  intros u Hs Hok Hl Hp Hh. unfold user_read_string_array. pose proof (ho_low _ _ _ Hh).
  destruct (read_strings_holds s Hs (mm (fsd s)) l ptrs (S (Z.to_nat max)) (Z.to_nat max) u addr 0 [] Hok Hl ltac:(lia) ltac:(lia) ltac:(done) Hp) as (u' & Hr & Hsv);
    [by rewrite Z.add_0_r|]. unfold u in Hr. rewrite at_self in Hr. exists u'. split; [|done]. rewrite Hr. cbn [app].
  destruct (decide (S (length (encode l)) <= Z.to_nat max)%nat), (decide (Z.of_nat (length (encode l)) + 1 <= max)); try lia; done.
Qed.

(** An environment is cut at the first variable that is empty, and what follows it is lost. *)
Theorem environment_cut_at_empty (s : vfs (world U)) file argc argv l k :
  Forall nonzero l -> Forall (fun t => t <> []) l ->
  do_execve file argc argv (encode (l ++ [] :: k) ++ [0]) s = __do_execve file (mk_args argc argv) (mk_args (Z.of_nat (length l)) (encode (l ++ [] :: k) ++ [0])) s.
Proof.
  intros Hl Hne. unfold do_execve.
  assert (forall fuel r, (length (encode l) < fuel)%nat -> count_strings fuel (encode l ++ 0 :: r) s = Ret (Z.of_nat (length l)) s) as H.
  { clear file argc argv k. induction l as [|t l IH]; intros fuel r Hf; (destruct fuel as [|fuel]; [lia|]); [done|]. apply Forall_cons_1 in Hl as [Ht Hl], Hne as [Hn Hne].
    rewrite length_encode_cons in Hf. rewrite encode_cons, <- !app_assoc. destruct t as [|c t]; [done|]. cbn [count_strings app head].
    rewrite (bind_step _ _ s c s) by done. pose proof Ht as Ht'. apply Forall_cons_1 in Ht' as [Hc _]. rewrite (proj2 (Z.eqb_neq c 0)) by done.
    change (c :: t ++ 0 :: encode l ++ 0 :: r) with ((c :: t) ++ 0 :: encode l ++ 0 :: r). rewrite (bind_step _ _ _ _ _ (strlen_run (c :: t) _ s Ht)).
    replace (drop _ ((c :: t) ++ 0 :: encode l ++ 0 :: r)) with (encode l ++ 0 :: r).
    2:{ replace ((c :: t) ++ 0 :: encode l ++ 0 :: r) with (((c :: t) ++ [0]) ++ encode l ++ 0 :: r) by (by rewrite <- app_assoc).
        rewrite drop_app_length'; [done|]. rewrite length_app. cbn [length]. lia. }
    rewrite (bind_step _ _ _ _ _ (IH Hl Hne fuel r ltac:(lia))). unfold ret. f_equal. cbn [length]. lia. }
  rewrite encode_app, encode_cons, <- !app_assoc. cbn [app].
  erewrite bind_step; [done|]. apply H. rewrite length_app. lia.
Qed.
End Arguments.

(** ** After the new program is there *)

Lemma digits_of_length fuel n : (1 <= fuel)%nat -> (1 <= length (digits_of fuel n) <= fuel)%nat.
Proof.
  revert n. induction fuel as [|fuel IH]; intros n Hf; [lia|]. cbn [digits_of]. destruct (n <? 10); [cbn [length]; lia|]. rewrite length_app. cbn [length].
  destruct fuel as [|fuel]; [cbn; lia|]. pose proof (IH (n / 10) ltac:(lia)). lia.
Qed.
Lemma percent_d_length n : (length (percent_d n) <= 11)%nat.
Proof. unfold percent_d. destruct (n <? 0); cbn [length]; [pose proof (digits_of_length 10 (- n))|pose proof (digits_of_length 10 n)]; lia. Qed.

Section Finish.
Context {U : Type} {SP : Space U} {HO : Host U} {SY : System (world U)}.

Definition thread_name_of (name : list Z) (pid : Z) : list Z := take (15 - S (length (percent_d pid))) name ++ 45 :: percent_d pid.

(** When the name of the task has a terminator, the thread gets as much of that name as fits in 15 characters with a dash and the number of the task after it; nothing is stored past
    the end of the buffer. *)
Theorem thread_name_fits (s : vfs (world U)) name r : nonzero name -> comm (fsd s) = name ++ 0 :: r ->
  update_thread_name s = Ret tt (set_fsd (set_thread_name (thread_name_of name (pid (current s))) (fsd s)) s) /\
  (length (thread_name_of name (pid (current s))) <= 15)%nat.
Proof.
  intros Hn Hc. pose proof (percent_d_length (pid (current s))) as Hl. unfold thread_name_of. split; [|rewrite length_app, length_take; cbn [length]; lia].
  unfold update_thread_name. rewrite (bind_step _ _ s (fsd s) s), (bind_step _ _ s s s) by done. rewrite Hc, until_nul_string by done.
  rewrite (bind_step _ _ s name s) by done. set (suffix := 45 :: percent_d (pid (current s))). assert (length suffix = S (length (percent_d (pid (current s))))) as Ls by done.
  rewrite length_take. replace (Z.of_nat (15 `min` length suffix)) with (Z.of_nat (length suffix)) by lia. set (k := if _ <? _ then _ else _).
  assert (k = Z.min (Z.of_nat (length name)) (15 - Z.of_nat (length suffix))) as Ek by (unfold k; destruct (Z.ltb_spec (Z.of_nat (length name)) (15 - Z.of_nat (length suffix))); lia).
  clearbody k. unfold in_bounds. rewrite (proj2 (Z.leb_le _ 15)) by lia. rewrite (bind_step _ _ s tt s) by done. unfold upd_world, modify. do 3 f_equal.
  rewrite Ek, <- Ls. destruct (decide (length name <= 15 - length suffix)%nat); [rewrite !take_ge by lia; done|]. do 2 f_equal. lia.
Qed.

Lemma basename_nonzero l : forall from, nonzero l -> nonzero from -> nonzero (basename l from).
Proof. induction l as [|c l IH]; intros from Hl Hf; [done|]. apply Forall_cons_1 in Hl as [_ Hl]. cbn [basename]. by destruct (c =? 47); apply IH. Qed.
Lemma until_nul_none l : nonzero l -> until_nul l = None.
Proof. induction 1 as [|c l Hc _ IH]; [done|]. cbn [until_nul]. rewrite (proj2 (Z.eqb_neq c 0)) by done. by rewrite IH. Qed.
(** A program whose name has 16 characters or more leaves the name of the task without a terminator, and the kernel reads past it. *)
Theorem long_name_overruns (s : vfs (world U)) stat name r : nonzero name -> (16 <= length (basename name name))%nat -> finish_exec stat (name ++ 0 :: r) s = Fault.
Proof.
  intros Hn Hlong. unfold finish_exec. set (m1 := if has (st_mode stat) S_ISUID then _ else _). set (m2 := if has (st_mode stat) S_ISGID then _ else _).
  assert (exists s1, m1 s = Ret tt s1) as [s1 E1] by (unfold m1; destruct (has _ _); by eexists).
  assert (exists s2, m2 s1 = Ret tt s2) as [s2 E2] by (unfold m2; destruct (has (st_mode stat) S_ISGID); by eexists).
  rewrite (bind_step _ _ _ _ _ E1), (bind_step _ _ _ _ _ E2). rewrite until_nul_string by done. rewrite (bind_step _ _ s2 name s2) by done.
  rewrite (bind_step _ _ s2 tt (set_fsd (set_comm (strncpy 16 (basename name name)) (fsd s2)) s2)) by done. set (s3 := set_fsd _ _).
  assert (update_thread_name s3 = Fault) as E3; [|unfold bind at 1; by rewrite E3].
  unfold update_thread_name. rewrite (bind_step _ _ s3 (fsd s3) s3), (bind_step _ _ s3 s3 s3) by done. change (comm (fsd s3)) with (strncpy 16 (basename name name)).
  rewrite until_nul_none; [done|]. unfold strncpy. rewrite take_app_le by lia. apply Forall_take. by apply basename_nonzero.
Qed.
End Finish.

(** ** Two faults *)

Section Faults.
Context {U : Type} {SP : Space U} {SL : SpaceLaws U} {HO : Host U} {SY : System (world U)}.

(** A segment that takes nothing from the file and starts at a page makes the kernel crash: no page is mapped for the file, and the file is stored in the object of that page all
    the same. *)
Theorem empty_segment_faults (s : vfs (world U)) ph bias f o :
  let addr := u32 (ph_vaddr ph + bias) in
  ph_filesize ph = 0 -> addr mod 4096 = 0 -> 0 <= ph_offset ph < 2 ^ 32 -> ~ present (space (fsd s)) addr -> fds s !! f = Some o -> 0 < fd_refcount o < 2 ^ 32 - 1 ->
  (forall off flags, file_mmap f (PAGE addr) 0 off flags s = Ret 0 s) -> load_entry ph bias f s = Fault.
Proof.
  intros addr Hf Ha Hoff Hp Ho Hrc Hm. unfold load_entry. fold addr. rewrite Hf. rewrite (User.PGOFFSET_mod addr), Ha.
  change (PAGE_ROUND_UP (u32 (0 + 0))) with 0. rewrite (bind_step _ _ _ _ _ (Hm _ _)). cbn [Z.ltb Z.compare].
  rewrite (bind_step _ _ _ _ _ (fd_retain_run f o s Ho Hrc)). rewrite (bind_step _ _ _ (fsd s) (retained f o s)) by done.
  rewrite tag_absent; [done|]. destruct (User.PAGE_split addr) as [E _]. rewrite User.PGOFFSET_mod, Ha, Z.add_0_r in E. by rewrite <- E.
Qed.

(** When there is no hole for the pages after the vdso, loading stops with the result of the last mapping, which succeeded: the call reports success for a program that has no stack. *)
Theorem no_hole_reported_as_success (s : vfs (world U)) p u1 :
  let u := space (fsd s) in
  find_hole u (VDSO_PAGES + 1) = p -> p <> BAD_PAGE -> 0 <= p < 2 ^ 20 -> map_vdso u (p + 1) VDSO_PAGES = Some (0, u1) -> is_mapped u1 (p + 1) = true -> find_hole u1 VVAR_PAGES = BAD_PAGE ->
  map_extras s = Ret (inl 0) (at_ u1 (set_vdso (u32 (Z.shiftl (p + 1) PAGE_BITS)) (mm (fsd s))) s).
Proof.
  intros u Hh Hne Hp Hm Hi Hv. rewrite <- (at_self s) at 1. unfold map_extras. rewrite (bind_step _ _ _ _ _ (get_world_at _ _ _)). cbn [space set_mm set_space].
  fold u. rewrite Hh, (proj2 (Z.eqb_neq p BAD_PAGE)) by done. rewrite (wrap_small 32 (p + 1)) by (unfold in_u; lia).
  rewrite (bind_step _ _ _ _ _ (with_mem_at (fun u => map_vdso u (p + 1) VDSO_PAGES) u _ s _ _ Hm)). cbn [Z.ltb Z.compare].
  rewrite (bind_step _ _ _ _ _ (get_world_at _ _ _)). cbn [space set_mm set_space]. rewrite Hi. rewrite (bind_step _ _ _ tt (at_ u1 (mm (fsd s)) s)) by done.
  rewrite (bind_step _ _ _ _ _ (upd_mm_at _ _ _ _)). rewrite (bind_step _ _ _ _ _ (get_world_at _ _ _)). cbn [space set_mm set_space]. by rewrite Hv.
Qed.
End Faults.

(** ** Examples *)

Module Demo.
#[local] Existing Instance Memory.small_pages.
Abbreviation guest := (Memory.world * Memory.mem)%type.
#[local] Instance demo_space : Space guest := guest_space 0 Cow.host_mmap Cow.host_malloc.
#[local] Instance demo_laws : SpaceLaws guest := guest_laws 0 Cow.host_mmap Cow.host_malloc (fun _ => 0).

Definition empty : guest := (Memory.mk_world ∅ ∅ [], Memory.mem_init).
Lemma empty_page q : Memory.mem_pt Memory.mem_init q = None.
Proof. unfold Memory.mem_pt, Memory.mem_init. simpl. by rewrite lookup_empty. Qed.
Lemma empty_ok : ok empty.
Proof.
  split; cbn [fst snd empty]; [by apply Memory.mem_init_inv|apply Cow.backed_init|]. intros p q ep eq b op oq _ Hp. by rewrite empty_page in Hp.
Qed.
Lemma empty_absent x : ~ present empty x.
Proof. intros [e He]. cbn [snd empty] in He. by rewrite empty_page in He. Qed.

(** A page of stack. *)
Lemma stack_space : exists u : guest, ok u /\ (forall x, 4096 <= x < STACK_TOP -> writable u x) /\ (forall x, 4096 <= x < STACK_TOP -> seen u x = 0).
Proof.
  destruct (map_law empty 0xffffd 1 (Z.lor P_WRITE P_GROWSDOWN) empty_ok) as (u & _ & Hok & Hs & _ & _ & Hw & Hg); [lia|lia|done|]. exists u. split; [done|].
  assert (forall x, 4096 <= x < STACK_TOP -> x < 0xffffd * 4096 \/ 0xffffd <= PAGE x < 0xffffd + 1) as Hx.
  { intros x Hx. rewrite page_in. unfold STACK_TOP in Hx. lia. }
  split; intros x Hr.
  - destruct (Hx x Hr); [|by apply Hw]. apply (Hg eq_refl eq_refl ltac:(lia) 4096); [intros; apply empty_absent|lia|done].
  - rewrite Hs by lia. case_decide; [done|]. apply (absent_zero empty); [apply empty_ok|apply empty_absent].
Qed.

(** Some pages. *)
Lemma some_pages : exists u : guest, ok u /\ forall x, 0x400 * 4096 <= x < 0x402 * 4096 -> present u x /\ writable u x.
Proof.
  destruct (map_law empty 0x400 2 P_WRITE empty_ok) as (u & _ & Hok & _ & _ & Hp & Hw & _); [lia|lia|done|]. exists u. split; [done|].
  intros x Hx. split; [apply Hp|apply Hw; [done|]]; apply page_in; lia.
Qed.

(** A file whose mapping, for writing only, is a copy of its bytes. *)
Definition mapped_bytes (data : list Z) (off : Z) (n : nat) : list Z := map (fun k => nth (Z.to_nat (off + Z.of_nat k)) data 0) (seq 0 n).
Definition demo_mmap (data : list Z) (f page pages off flags : Z) : V (world guest) Z :=
  if pages =? 0 then ret 0
  else if negb (Memory.has flags P_WRITE) then ret _EACCES
  else with_mem (fun u => '(_, u1) ← map_nothing u page pages flags; '(_, u2) ← user_write u1 (page * 4096) (mapped_bytes data off (Z.to_nat (pages * 4096))); Some (0, u2)).
Definition program : list Z := [11; 22; 33].
Definition script : list Z := [35; 33; 47; 98; 32; 45; 101; 10].
Definition demo_mm : mm_struct := mk_mm 0 0 0 0 0 0 0 0 0 0 None.
#[local] Instance demo_host : Host guest := {|
  file_lseek _ off := ret off;
  file_read _ n := ret (inr (take (Z.to_nat n) script));
  file_mmap := demo_mmap program;
  host_errno _ := 0;
  malloc_ok _ _ := true;
  random_bytes := replicate 16 7;
  vdso_data := replicate 8192 0;
  mm_new := demo_mm |}.
Definition demo_fs : fs_ops (world guest) :=
  mk_fs_ops (world guest) [] None None (fun _ _ _ _ => ret (inl _ENOENT)) None None None None None None None None None (fun _ _ _ => Some (inl _ENOENT)) (fun _ _ => None) None None (fun _ _ => None) None.
#[local] Instance demo_system : System (world guest) :=
  {| filesystem _ := demo_fs; fdops _ := mk_fd_ops (world guest) None None None None; device _ _ := None |}.

Definition cpu0 : Cpu.cpu_state := Cpu.mk_cpu 0 0 0 0 0 0 0 [] [] [] 0 0 Float80.round_to_nearest.
Definition state_with (u : guest) (locked : bool) : vfs (world guest) :=
  mk_vfs (mk_world u locked demo_mm (mk_registers 0 0 0 0 0 0 0 0 0 cpu0) 0 0 (97 :: replicate 15 0) [] [] 0 false None false []) []
    {[ 5 := mk_fd 1 0 S_IFREG 0 0 None None None None ]} ∅ ∅ ∅ (mk_task 0 0 0 0 321 0 (mk_fs_info 0 None None) 100) 100.

Lemma mapped_bytes_length data off n : length (mapped_bytes data off n) = n.
Proof. unfold mapped_bytes. by rewrite length_map, length_seq. Qed.
Lemma mapped_bytes_nth data off n k : (k < n)%nat -> nth k (mapped_bytes data off n) 0 = nth (Z.to_nat (off + Z.of_nat k)) data 0.
Proof. intros Hk. apply nth_lookup_Some. unfold mapped_bytes. rewrite list_lookup_fmap, lookup_seq_lt by done. done. Qed.
Lemma demo_mmap_writable (s : vfs (world guest)) page pages off flags : ok (space (fsd s)) -> 0 <= page -> 1 <= pages -> page + pages < Memory.MEM_PAGES -> Memory.has flags P_WRITE = true ->
  exists u', demo_mmap program 5 page pages off flags s = Ret 0 (at_ u' (mm (fsd s)) s) /\ ok u' /\
    (forall x, page <= PAGE x < page + pages -> seen u' x = nth (Z.to_nat (off + (x - page * 4096))) program 0) /\
    (forall x, 0 <= x -> ~ page <= PAGE x < page + pages -> seen u' x = seen (space (fsd s)) x) /\
    (forall x, present (space (fsd s)) x -> present u' x) /\ (forall x, page <= PAGE x < page + pages -> present u' x) /\
    (forall x, page <= PAGE x < page + pages -> writable u' x).
Proof.
  intros Hok Hp Hn Hend Hf. unfold demo_mmap. rewrite (proj2 (Z.eqb_neq pages 0)) by lia. rewrite Hf. cbn [negb]. assert (Memory.MEM_PAGES = 1048576) as EM by done.
  destruct (map_law (space (fsd s)) page pages flags Hok Hp ltac:(lia) Hend) as (u1 & Hm & Hok1 & S1 & P1 & P1' & W1 & _).
  set (bs := mapped_bytes program off (Z.to_nat (pages * 4096))). assert (Z.of_nat (length bs) = pages * 4096) as Lb by (unfold bs; rewrite mapped_bytes_length; lia).
  destruct (write_law u1 (page * 4096) bs Hok1) as (u2 & Hw & Hok2 & W2 & P2 & S2); [lia|rewrite Lb; unfold User.LAST_PAGE; lia|intros x Hx; apply W1; [done|]; apply page_in; lia|].
  exists u2. split_and!; [|done| | |auto|auto|auto].
  - rewrite <- (at_self s) at 1. apply with_mem_at. rewrite Hm. cbn [mbind option_bind]. fold bs. by rewrite Hw.
  - intros x Hx. rewrite S2. unfold store. rewrite Lb. rewrite page_in in Hx. rewrite decide_True by lia. unfold bs. rewrite mapped_bytes_nth by lia. f_equal. lia.
  - intros x Hx Hd. rewrite S2. unfold store. rewrite Lb. rewrite page_in in Hd. rewrite decide_False by lia. rewrite S1, decide_False by (rewrite ?page_in; lia). done.
Qed.
Lemma demo_maps : maps_file 5 program.
Proof.
  intros s page pages off flags Hok Hp Hn Hend Hoff. cbn [file_mmap demo_host]. destruct (Memory.has flags P_WRITE) eqn:Hf; [right|left].
  - destruct (demo_mmap_writable s page pages off flags Hok Hp Hn Hend Hf) as (u' & H1 & H2 & H3 & H4 & H5 & H6 & H7). exists u'. split_and!; [done|done|auto|done|done|done|].
    intros x Hx. split; [done|auto].
  - exists _EACCES, s. unfold demo_mmap. rewrite (proj2 (Z.eqb_neq pages 0)) by lia. rewrite Hf. done.
Qed.

Definition h0 : elf_header := elf_header_of (replicate 52 0).
Definition im0 : image := mk_image 0 0 0 0x8048000 0.
Lemma first_stack_built_witness :
  exists (u : guest) sp s', build_stack h0 im0 [47; 97; 0] (args_of [[97]; [98; 99]] []) (args_of [[120; 61]] []) (state_with u false) = Ret (Built sp) s' /\
    first_stack (seen (space (fsd s'))) sp [[97]; [98; 99]] [[120; 61]]
      (aux_entries h0 im0 0 (random_addr (layout [47; 97] [[97]; [98; 99]] [[120; 61]])) (file_addr (layout [47; 97] [[97]; [98; 99]] [[120; 61]]))
         (platform_addr (layout [47; 97] [[97]; [98; 99]] [[120; 61]]))).
Proof.
  destruct stack_space as (u & Hok & Hw & Hz). exists u.
  destruct (first_stack_built 4096 (state_with u false) h0 im0 [47; 97] [] [[97]; [98; 99]] [] [[120; 61]] []) as (sp & s' & Hb & _ & Hf & _);
    [done|exact Hok|lia|exact Hw|exact Hz|repeat constructor; done|repeat constructor; done|repeat constructor; done|done| |vm_compute; discriminate|].
  - split; vm_compute; split; congruence.
  - exists sp, s'. split; [exact Hb|exact Hf].
Defined.

Definition segment : prg_header := mk_prg_header PT_LOAD 1 0x8048001 0 2 6000 7 4096.
Lemma segment_loaded_witness :
  exists u', load_entry segment 0 5 (state_with empty true) = Ret 0 (at_ u' demo_mm (retained 5 (mk_fd 1 0 S_IFREG 0 0 None None None None) (state_with empty true))) /\
    seen u' (0x8048001 + 0) = 22 /\ seen u' (0x8048001 + 1) = 33 /\ seen u' (0x8048001 + 4095) = 0 /\ present u' (0x8048001 + 5999).
Proof.
  destruct (segment_loaded (state_with empty true) segment 0 5 (mk_fd 1 0 S_IFREG 0 0 None None None None) program) as [(err & s' & Herr & _ & Hm)|(u' & Hl & _ & H1 & H2 & H3 & _)];
    [done|exact empty_ok|done|done|exact demo_maps| | |].
  - split; vm_compute; (discriminate || (split; congruence) || done || (intros _; discriminate)).
  - exfalso. destruct (demo_mmap_writable (state_with empty true) 0x8048 1 0 (Z.lor P_READ P_WRITE) empty_ok) as (u1 & H1 & _); [lia|lia|reflexivity|reflexivity|].
    change (demo_mmap program 5 0x8048 1 0 (Z.lor P_READ P_WRITE) (state_with empty true) = Ret err s') in Hm. rewrite H1 in Hm. injection Hm as <- _. discriminate Herr.
  - assert (u32 (ph_vaddr segment + 0) = 0x8048001) as Ea by done. rewrite Ea in H1, H2, H3. exists u'. split; [exact Hl|].
    pose proof (H1 0 ltac:(cbn; lia)) as E0. pose proof (H1 1 ltac:(cbn; lia)) as E1. pose proof (H2 4095 ltac:(cbn; lia)) as E2. pose proof (H3 5999 ltac:(cbn; lia)) as E3.
    rewrite E0, E1, E2. split_and!; [reflexivity|reflexivity|reflexivity|exact E3].
Defined.

Lemma shebang_round_trip_witness :
  parse_shebang (shebang_line 1 2 0 [47; 98] (Some [45; 32; 101]) ++ newline :: [1; 2]) = Some ([47; 98], Some [45; 32; 101]).
Proof.
  apply shebang_round_trip; [split; [discriminate|repeat constructor; discriminate]|repeat constructor; discriminate|].
  intros a [= <-]. split; [split_and!; discriminate|repeat constructor; discriminate].
Defined.

Lemma script_runs_interpreter_witness :
  shebang_exec 5 [47; 115; 0] (args_of [[115]; [120]] []) (args_of [] []) (state_with empty false) =
    (let! r := open_string [47; 98; 0] in
     match r with
     | inl err => ret err
     | inr g => let! err := format_exec g [47; 98; 0] (args_of [[47; 98]; [45; 101]; [47; 115]; [120]] []) (args_of [] []) in let! _ := fd_close g in ret err
     end) (state_with empty false).
Proof.
  rewrite (script_runs_interpreter (state_with empty false) (state_with empty false) (state_with empty false) 5 script script [47; 98] (Some [45; 101]) [47; 115] [] [115] [[120]] [] (args_of [] []));
    [done|done|done|done|done|repeat constructor; discriminate..|repeat constructor; discriminate|done].
Defined.

Lemma script_without_arguments_faults_witness : shebang_exec 5 [47; 115; 0] (args_of [] []) (args_of [] []) (state_with empty false) = Fault.
Proof.
  apply (script_without_arguments_faults _ (state_with empty false) (state_with empty false) 5 script script [47; 98] (Some [45; 101])); reflexivity.
Defined.

Lemma string_array_read_witness :
  exists u u' u2 : guest, user_read_string_array 0x400000 100 (state_with u false) = Ret (inr (1, [97; 0; 0])) (at_ u' demo_mm (state_with u false)) /\
    user_read_string_array 0x400000 2 (state_with u false) = Ret (inl _E2BIG) (at_ u2 demo_mm (state_with u false)).
Proof.
  destruct some_pages as (u0 & Hok0 & Hu0). set (bs := words [0x400010; 0] ++ replicate 8 0 ++ [97; 0]). assert (length bs = 18%nat) as Lb by done.
  destruct (write_law u0 0x400000 bs Hok0) as (u & _ & Hok & _ & Hp & Hs); [lia|rewrite Lb; unfold User.LAST_PAGE; lia|intros x Hx; apply Hu0; rewrite Lb in Hx; lia|].
  assert (holds u 0x400000 bs) as Hh.
  { split; [|intros x Hx; apply Hp, Hu0; rewrite Lb in Hx; lia|lia|rewrite Lb; unfold User.LAST_PAGE; lia]. eapply bytes_at_ext; [|apply bytes_at_store]. intros x _. apply Hs. }
  apply holds_app in Hh as [H1 H2]. apply holds_app in H2 as [_ H2]. change (_ + _ + _) with 0x400010 in H2.
  destruct (string_array_read (state_with u false) 0x400000 100 [0x400010] [[97]]) as (u' & Hr & _);
    [done|exact Hok|repeat constructor; discriminate|constructor; [split; [lia|exact H2]|constructor]|exact H1|].
  destruct (string_array_read (state_with u false) 0x400000 2 [0x400010] [[97]]) as (u2 & Hr2 & _);
    [done|exact Hok|repeat constructor; discriminate|constructor; [split; [lia|exact H2]|constructor]|exact H1|].
  exists u, u', u2. split; [exact Hr|exact Hr2].
Defined.

Lemma environment_cut_at_empty_witness :
  do_execve [97; 0] 0 [0] (encode ([[120]] ++ [] :: [[121]]) ++ [0]) (state_with empty false) =
  __do_execve [97; 0] (mk_args 0 [0]) (mk_args 1 [120; 0; 0; 121; 0; 0]) (state_with empty false).
Proof. apply (environment_cut_at_empty (state_with empty false) [97; 0] 0 [0] [[120]] [[121]]); repeat constructor; discriminate. Defined.

Lemma thread_name_fits_witness :
  update_thread_name (state_with empty false) =
    Ret tt (set_fsd (set_thread_name [97; 45; 51; 50; 49] (fsd (state_with empty false))) (state_with empty false)).
Proof. apply (thread_name_fits (state_with empty false) [97] (replicate 14 0)); [repeat constructor; discriminate|reflexivity]. Defined.

Lemma long_name_overruns_witness : finish_exec (mk_statbuf 0 0 493 1 0 0 0 0) (replicate 16 97 ++ [0]) (state_with empty false) = Fault.
Proof. apply (long_name_overruns (state_with empty false) _ (replicate 16 97) []); [repeat constructor; discriminate|cbn; lia]. Defined.

Lemma empty_segment_faults_witness :
  load_entry (mk_prg_header PT_LOAD 0 0x8048000 0 0 100 6 4096) 0 5 (state_with empty true) = Fault.
Proof.
  refine (empty_segment_faults (state_with empty true) (mk_prg_header PT_LOAD 0 0x8048000 0 0 100 6 4096) 0 5 (mk_fd 1 0 S_IFREG 0 0 None None None None) eq_refl eq_refl _ (empty_absent _) eq_refl _ _);
    [cbn; lia|cbn; lia|]. intros off flags. reflexivity.
Defined.
End Demo.

(** An address space with a hole of three pages and no larger one. *)
Module Full.
#[local] Instance full_space : Space bool := {|
  fresh_space u := u;
  user_read u a buf := Some (1, buf, u);
  user_write u a bs := Some (1, u);
  user_read_string u a buf := Some (1, buf, u);
  user_write_string u a b := Some (1, u);
  map_nothing u start pages flags := Some (0, u);
  map_vdso u start pages := Some (0, true);
  find_hole u n := if n <=? 3 then if u then 0x10000 else 5 else 0x10000;
  is_mapped u page := u;
  tag_file u page f := None |}.
#[local] Instance full_host : Host bool := {|
  file_lseek _ off := ret off;
  file_read _ n := ret (inr []);
  file_mmap _ _ _ _ _ := ret 0;
  host_errno _ := 0;
  malloc_ok _ _ := true;
  random_bytes := replicate 16 7;
  vdso_data := replicate 8192 0;
  mm_new := Demo.demo_mm |}.
Definition state : vfs (world bool) :=
  mk_vfs (mk_world false true Demo.demo_mm (mk_registers 0 0 0 0 0 0 0 0 0 Demo.cpu0) 0 0 [] [] [] 0 false None false []) [] ∅ ∅ ∅ ∅ (mk_task 0 0 0 0 1 0 (mk_fs_info 0 None None) 100) 100.
Lemma no_hole_reported_as_success_witness : map_extras state = Ret (inl 0) (at_ true (set_vdso 0x6000 Demo.demo_mm) state).
Proof. apply (no_hole_reported_as_success state 5 true); (reflexivity || discriminate || lia). Defined.
End Full.
End Exec.
