(* ===== verification/Files.v ===== *)
(** * Calls on files (kernel/fs.c)

    The system calls that read their arguments from guest memory, look descriptors up, and go on to the operations of Generic.v, Fd.v and of the open file.
    A call is a step of the monad of [Vfs] that also takes the guest's memory, an instance of [Space], and gives it back.

    A result of type [dword_t] is given as the signed number with the same bits, so that errors are negative.  A path that fills its buffer has no terminator
    and is a fault where it is used; so is a copy that does not fit in its buffer.  The lock of a file and that of the working directory, which no other thread
    holds here, are left out. *)

From S2P Require Import Prelude Errno FileLock Memory User Fpu Vfs Path Fd Generic Space Exec Tmpfs.

Module Files.
Import Errno Vfs Path Fd Generic Space.
Abbreviation le_bytes := Fpu.le_bytes.
Abbreviation le_value := Fpu.le_value.
Abbreviation LSEEK_SET := FileLock.LSEEK_SET.
Abbreviation LSEEK_CUR := FileLock.LSEEK_CUR.
Abbreviation O_RDONLY_ := FileLock.O_RDONLY_.

Definition AT_FDCWD_ : Z := -100.
Definition AT_EACCESS_ : Z := 512.
Definition AT_REMOVEDIR_ : Z := 512.
Definition AT_SYMLINK_NOFOLLOW_ : Z := 256.
Definition FIONBIO_ : Z := 21537.
Definition FIONCLEX_ : Z := 21584.
Definition FIOCLEX_ : Z := 21585.

(** ** Operations of open files and file systems (fs/fd.h, kernel/fs.h) *)

(** The argument of [ioctl]: a number, or a pointer to as many bytes as [ioctl_size] said. *)
Inductive ioctl_arg := arg_value (v : Z) | arg_buffer (bytes : list Z).

(** The members of [struct fd_ops] that are called here, null pointers as [None].  [read] and [pread] are given the size of the buffer, and give what they store at its start;
    [ioctl] gives what it leaves in its buffer. *)
Record file_ops (F : Type) := mk_file_ops {
  op_read : option (Z -> Z -> V F (Z * list Z));
  op_write : option (Z -> list Z -> V F Z);
  op_pread : option (Z -> Z -> Z -> V F (Z * list Z));
  op_pwrite : option (Z -> list Z -> Z -> V F Z);
  op_lseek : option (Z -> Z -> Z -> V F Z);
  op_ioctl_size : option (Z -> Z);
  op_ioctl : option (Z -> Z -> ioctl_arg -> V F (Z * list Z));
  op_fsync : option (Z -> V F Z) }.
Arguments op_read {F}.
Arguments op_write {F}.
Arguments op_pread {F}.
Arguments op_pwrite {F}.
Arguments op_lseek {F}.
Arguments op_ioctl_size {F}.
Arguments op_ioctl {F}.
Arguments op_fsync {F}.

(** [struct statfsbuf], without the words that nothing uses. *)
Record statfsbuf := mk_statfsbuf {
  sf_type : Z;
  sf_bsize : Z;
  sf_blocks : Z;
  sf_bfree : Z;
  sf_bavail : Z;
  sf_files : Z;
  sf_ffree : Z;
  sf_fsid : Z;
  sf_namelen : Z;
  sf_frsize : Z;
  sf_flags : Z }.
Definition set_sf_type (v : Z) (x : statfsbuf) : statfsbuf :=
  mk_statfsbuf v (sf_bsize x) (sf_blocks x) (sf_bfree x) (sf_bavail x) (sf_files x) (sf_ffree x) (sf_fsid x) (sf_namelen x) (sf_frsize x) (sf_flags x).

(** The members of [struct fs_ops] that only these calls use. *)
Record fs_calls (F : Type) := mk_fs_calls {
  fs_magic : Z;
  fs_statfs : option (Z -> statfsbuf -> V F (Z * statfsbuf));
  fs_fsetattr : option (Z -> attr -> V F Z);
  fs_flock : option (Z -> Z -> V F Z) }.
Arguments fs_magic {F}.
Arguments fs_statfs {F}.
Arguments fs_fsetattr {F}.
Arguments fs_flock {F}.

(** The tables the pointers [fd_ops_of] and [m_fs] lead to; what [malloc] finds in a buffer it gives, if it gives one; and the clock of the host. *)
Class Calls (F : Type) := {
  file_ops_of : Z -> file_ops F;
  fs_calls_of : Z -> fs_calls F;
  malloc_bytes : Z -> vfs F -> option (list Z);
  malloc_bytes_length : forall n s b, malloc_bytes n s = Some b -> Z.of_nat (length b) = Z.max 0 n;
  timespec_now : vfs F -> Z * Z;
}.

(** [struct iovec_]. *)
Record iovec := mk_iovec { iov_base : Z; iov_len : Z }.
Fixpoint iovecs_of (n : nat) (b : list Z) : list iovec :=
  match n with O => [] | S n => mk_iovec (le_value (take 4 b)) (le_value (take 4 (drop 4 b))) :: iovecs_of n (drop 8 b) end.

(** The bytes of a string. *)
Definition bytes_of (p : path) : list Z := map (fun c => Z.of_nat (nat_of_ascii c)) p.

(** A 64-bit offset from its halves. *)
Definition off_of (low high : Z) : Z := s64 (Z.lor (u64 (Z.shiftl high 32)) low).

(** A result that is returned as [dword_t]. *)
Definition dword (r : Z) : Z := s32 r.

(** ** The monad of calls *)

Definition call (F U A : Type) := U -> V F (A * U).

Section Monad.
Context {F U : Type}.

Definition cret {A} (a : A) : call F U A := fun u => ret (a, u).
Definition cbind {A B} (m : call F U A) (f : A -> call F U B) : call F U B := fun u => let! (a, u) := m u in f a u.
(** A step that does not look at guest memory. *)
Definition run {A} (m : V F A) : call F U A := fun u => let! a := m in ret (a, u).

End Monad.

Declare Scope call_scope.
Notation "'let*' x := m 'in' f" := (cbind m (fun x => f)) (at level 10, x pattern, m at level 100, f at level 200) : call_scope.
Open Scope call_scope.

(** ** Calls *)

Section Calls.
Context {F U : Type} {SF : System F} {CF : Calls F} {SP : Space U}.
#[local] Abbreviation C := (call F U).

(** *** Guest memory *)

(** Copies [size] bytes between guest memory and a buffer, from [off] on: whether guest memory is not accessible. *)
Definition copy_in (addr : Z) (buf : list Z) (off size : Z) : C (bool * list Z) := fun u =>
  in_bounds (off + size <=? Z.of_nat (length buf)) ;;
  let! (err, part, u) := deref (user_read u addr (take (Z.to_nat size) (drop (Z.to_nat off) buf))) in
  ret ((ctrue err, take (Z.to_nat off) buf ++ part ++ drop (Z.to_nat (off + size)) buf), u).
Definition copy_out (addr : Z) (buf : list Z) (off size : Z) : C bool := fun u =>
  in_bounds (off + size <=? Z.of_nat (length buf)) ;;
  let! (err, u) := deref (user_write u addr (take (Z.to_nat size) (drop (Z.to_nat off) buf))) in
  ret (ctrue err, u).
(** [user_put] of a structure, and [user_get] of one of [size] bytes. *)
Definition put (addr : Z) (bytes : list Z) : C bool := copy_out addr bytes 0 (Z.of_nat (length bytes)).
Definition get (addr size : Z) : C (bool * list Z) := copy_in addr (replicate (Z.to_nat size) 0) 0 size.

(** A path is read into a buffer, or the call fails. *)
Definition with_path (addr : Z) (k : list Z -> C Z) : C Z := fun u =>
  let! (err, buf, u) := deref (user_read_string u addr (replicate (Z.to_nat MAX_PATH) 0)) in
  if ctrue err then ret (_EFAULT, u) else k buf u.
(** The string in the buffer, where it is used. *)
Definition string_in (buf : list Z) : V F path := let! s := deref (Exec.until_nul buf) in ret (Exec.path_of s).

(** A buffer from [malloc]. *)
Definition with_buffer (size : Z) (k : list Z -> C Z) : C Z :=
  let* s := run (gets id) in
  match malloc_bytes size s with None => cret _ENOMEM | Some buf => k buf end.
(** What an operation stores at the start of the buffer it is given. *)
Definition fill (buf bytes : list Z) : V F (list Z) :=
  in_bounds (bool_decide (length bytes <= length buf)%nat) ;; ret (bytes ++ drop (length bytes) buf).

(** *** Descriptors *)

(** The result is null for a descriptor that is not open. *)
Definition at_fd (f : Z) : V F Path.at_fd :=
  if f =? AT_FDCWD_ then ret AT_PWD
  else let! fd := f_get f in ret (match fd with None => AT_NULL | Some fd => AT_FD fd end).
Definition with_at (f : Z) (k : Path.at_fd -> C Z) : C Z :=
  let* at_ := run (at_fd f) in
  match at_ with AT_NULL => cret _EBADF | _ => k at_ end.
Definition with_fd (f : Z) (k : Z -> C Z) : C Z :=
  let* fd := run (f_get f) in
  match fd with None => cret _EBADF | Some fd => k fd end.

(** [mode] has 16 bits. *)
Definition apply_umask (mode : Z) : V F Z := let! s := gets id in ret (Z.ldiff mode (umask (fs (current s)))).

(** *** Paths *)

Definition sys_faccessat (at_f path_addr mode flags : Z) : C Z :=
  with_path path_addr (fun path => with_at at_f (fun at_ =>
    if has flags AT_EACCESS_ then run (let! path := string_in path in generic_accessat at_ path mode)
    else
      let* s := run (gets id) in
      let uid_tmp := euid (current s) in
      let gid_tmp := egid (current s) in
      let* _ := run (upd_current (fun t => set_euid (uid t) t)) in
      let* _ := run (upd_current (fun t => set_egid (gid t) t)) in
      let* err := run (let! path := string_in path in generic_accessat at_ path mode) in
      let* _ := run (upd_current (set_euid uid_tmp)) in
      let* _ := run (upd_current (set_egid gid_tmp)) in
      cret err)).
Definition sys_access (path_addr mode : Z) : C Z := sys_faccessat AT_FDCWD_ path_addr (u16 mode) 0.

Definition sys_openat (at_f path_addr flags mode : Z) : C Z :=
  with_path path_addr (fun path =>
    let* mode := run (if has flags O_CREAT_ then apply_umask mode else ret mode) in
    with_at at_f (fun at_ =>
      run (let! path := string_in path in
           let! fd := generic_openat at_ path flags mode in
           match fd with inl err => ret err | inr fd => f_install fd flags end))).
Definition sys_open (path_addr flags mode : Z) : C Z := sys_openat AT_FDCWD_ path_addr flags mode.

(** The buffer is an array on the stack of the size the guest asks for. *)
Definition sys_readlinkat (at_f path_addr buf_addr bufsize : Z) : C Z :=
  with_path path_addr (fun path => with_at at_f (fun at_ =>
    let* size := run (let! path := string_in path in generic_readlinkat at_ path bufsize) in
    match size with
    | inl err => cret err
    | inr buf =>
        let* err := put buf_addr (bytes_of buf) in
        cret (if err then _EFAULT else dword (strlen buf))
    end)).
Definition sys_readlink (path_addr buf_addr bufsize : Z) : C Z := sys_readlinkat AT_FDCWD_ path_addr buf_addr bufsize.

(** The two paths and the two directories of a call. *)
Definition with_two (src_at_f src_addr dst_at_f dst_addr : Z) (k : Path.at_fd -> path -> Path.at_fd -> path -> V F Z) : C Z :=
  with_path src_addr (fun src => with_path dst_addr (fun dst =>
    with_at src_at_f (fun src_at => with_at dst_at_f (fun dst_at =>
      run (let! src := string_in src in let! dst := string_in dst in k src_at src dst_at dst))))).

Definition sys_linkat (src_at_f src_addr dst_at_f dst_addr : Z) : C Z := with_two src_at_f src_addr dst_at_f dst_addr generic_linkat.
Definition sys_link (src_addr dst_addr : Z) : C Z := sys_linkat AT_FDCWD_ src_addr AT_FDCWD_ dst_addr.

Definition sys_unlinkat (at_f path_addr flags : Z) : C Z :=
  with_path path_addr (fun path => with_at at_f (fun at_ =>
    run (let! path := string_in path in if has flags AT_REMOVEDIR_ then generic_rmdirat at_ path else generic_unlinkat at_ path))).
Definition sys_unlink (path_addr : Z) : C Z := sys_unlinkat AT_FDCWD_ path_addr 0.

Definition sys_renameat2 (src_at_f src_addr dst_at_f dst_addr flags : Z) : C Z :=
  if negb (flags =? 0) then cret _EINVAL else with_two src_at_f src_addr dst_at_f dst_addr generic_renameat.
Definition sys_renameat (src_at_f src_addr dst_at_f dst_addr : Z) : C Z := sys_renameat2 src_at_f src_addr dst_at_f dst_addr 0.
Definition sys_rename (src_addr dst_addr : Z) : C Z := sys_renameat2 AT_FDCWD_ src_addr AT_FDCWD_ dst_addr 0.

Definition sys_symlinkat (target_addr at_f link_addr : Z) : C Z :=
  with_path target_addr (fun target => with_path link_addr (fun link => with_at at_f (fun at_ =>
    run (let! target := string_in target in let! link := string_in link in generic_symlinkat target at_ link)))).
Definition sys_symlink (target_addr link_addr : Z) : C Z := sys_symlinkat target_addr AT_FDCWD_ link_addr.

Definition sys_mknodat (at_f path_addr mode dev : Z) : C Z :=
  with_path path_addr (fun path =>
    let* mode := run (apply_umask mode) in
    with_at at_f (fun at_ => run (let! path := string_in path in generic_mknodat at_ path mode dev))).
Definition sys_mknod (path_addr mode dev : Z) : C Z := sys_mknodat AT_FDCWD_ path_addr mode dev.

(** *** Reading and writing *)

(** The result, and the buffer. *)
Definition sys_read_buf (fd_no : Z) (buf : list Z) (size : Z) : V F (Z * list Z) :=
  let! fd := f_get fd_no in
  match fd with
  | None => ret (_EBADF, buf)
  | Some fd =>
      let! x := get_fd fd in
      let ops := file_ops_of (fd_ops_of x) in
      if S_ISDIR (fd_type x) then ret (_EISDIR, buf)
      else
        match op_read ops, op_pread ops with
        | Some read, _ =>
            let! (res, bytes) := read fd size in
            let! buf := fill buf bytes in
            ret (res, buf)
        | None, Some pread =>
            let! (res, bytes) := pread fd size (s64 (fd_offset x)) in
            let! buf := fill buf bytes in
            (if res >? 0 then let! lseek := deref (op_lseek ops) in let! _ := lseek fd res LSEEK_CUR in ret tt else ret tt) ;;
            ret (res, buf)
        | None, None => ret (_EBADF, buf)
        end
  end.

Definition sys_read (fd_no buf_addr size : Z) : C Z :=
  with_buffer size (fun buf =>
    let* (res, buf) := run (sys_read_buf fd_no buf size) in
    let res := s32 res in
    if res >=? 0 then
      let* err := copy_out buf_addr buf 0 res in
      cret (if err then _EFAULT else res)
    else cret res).

Definition sys_write_buf (fd_no : Z) (buf : list Z) : V F Z :=
  let! fd := f_get fd_no in
  match fd with
  | None => ret _EBADF
  | Some fd =>
      let! x := get_fd fd in
      let ops := file_ops_of (fd_ops_of x) in
      match op_write ops, op_pwrite ops with
      | Some write, _ => write fd buf
      | None, Some pwrite =>
          let! res := pwrite fd buf (s64 (fd_offset x)) in
          (if res >? 0 then let! lseek := deref (op_lseek ops) in let! _ := lseek fd res LSEEK_CUR in ret tt else ret tt) ;;
          ret res
      | None, None => ret _EBADF
      end
  end.

Definition sys_write (fd_no buf_addr size : Z) : C Z :=
  with_buffer size (fun buf =>
    let* (err, buf) := copy_in buf_addr buf 0 size in
    if err then cret _EFAULT
    else
      let* res := run (sys_write_buf fd_no buf) in
      cret (dword res)).

(** The size of the array is cut to 32 bits; what was read is the array. *)
Definition read_iovec (iovec_addr iovec_count : Z) : C (Z + list iovec) :=
  let iovec_size := u32 (8 * iovec_count) in
  let* s := run (gets id) in
  match malloc_bytes iovec_size s with
  | None => cret (inl _ENOMEM)
  | Some buf =>
      let* (err, buf) := copy_in iovec_addr buf 0 iovec_size in
      cret (if err then inl _EFAULT else inr (iovecs_of (Z.to_nat (iovec_size / 8)) buf))
  end.

(** The loop runs over [count] elements from [iovec] on. *)
Fixpoint iovec_size (iovec : list iovec) (count : nat) : V F Z :=
  match count, iovec with
  | O, _ => ret 0
  | S count, v :: iovec => let! size := iovec_size iovec count in ret (u64 (iov_len v + size))
  | S _, [] => fault
  end.

(** The loop of [readv]: whether a copy failed. *)
Fixpoint scatter (iovec : list iovec) (buf : list Z) (offset : Z) : C bool :=
  match iovec with
  | [] => cret false
  | v :: iovec =>
      let* err := copy_out (iov_base v) buf offset (iov_len v) in
      if err then cret true else scatter iovec buf (offset + iov_len v)
  end.

Definition sys_readv (fd_no iovec_addr iovec_count : Z) : C Z :=
  let* iovec := read_iovec iovec_addr iovec_count in
  match iovec with
  | inl err => cret err
  | inr iovec =>
      let* io_size := run (iovec_size iovec (Z.to_nat iovec_count)) in
      with_buffer io_size (fun buf =>
        let* (res, buf) := run (sys_read_buf fd_no buf io_size) in
        if res <? 0 then cret (dword res)
        else
          let* err := scatter iovec buf 0 in
          cret (if err then _EFAULT else dword res))
  end.

(** The loop of [writev]: whether a copy failed, and the buffer. *)
Fixpoint gather (iovec : list iovec) (buf : list Z) (offset : Z) : C (bool * list Z) :=
  match iovec with
  | [] => cret (false, buf)
  | v :: iovec =>
      let* (err, buf) := copy_in (iov_base v) buf offset (iov_len v) in
      if err then cret (true, buf) else gather iovec buf (offset + iov_len v)
  end.

Definition sys_writev (fd_no iovec_addr iovec_count : Z) : C Z :=
  let* iovec := read_iovec iovec_addr iovec_count in
  match iovec with
  | inl err => cret err
  | inr iovec =>
      let* io_size := run (iovec_size iovec (Z.to_nat iovec_count)) in
      with_buffer io_size (fun buf =>
        let* (err, buf) := gather iovec buf 0 in
        if err then cret _EFAULT
        else
          let* res := run (sys_write_buf fd_no buf) in
          cret (dword res))
  end.

Definition sys__llseek (f off_high off_low res_addr whence : Z) : C Z :=
  with_fd f (fun fd =>
    let* x := run (get_fd fd) in
    match op_lseek (file_ops_of (fd_ops_of x)) with
    | None => cret _ESPIPE
    | Some lseek =>
        let* res := run (lseek fd (off_of off_low off_high) (s32 whence)) in
        if res <? 0 then cret (dword res)
        else
          let* err := put res_addr (le_bytes 8 res) in
          cret (if err then _EFAULT else 0)
    end).

Definition sys_lseek (f off whence : Z) : C Z :=
  with_fd f (fun fd =>
    let* x := run (get_fd fd) in
    match op_lseek (file_ops_of (fd_ops_of x)) with
    | None => cret _ESPIPE
    | Some lseek =>
        let* res := run (lseek fd off (s32 whence)) in
        cret (if negb (u32 res =? res) then _EOVERFLOW else dword res)
    end).

(** Seeks to [off], does [m], and seeks back. *)
Definition at_position {A} (lseek : option (Z -> Z -> Z -> V F Z)) (fd off : Z) (m : V F A) : V F (Z + A) :=
  let! lseek := deref lseek in
  let! saved_off := lseek fd 0 LSEEK_CUR in
  let! res := lseek fd off LSEEK_SET in
  if res <? 0 then ret (inl res)
  else
    let! a := m in
    let! lseek_res := lseek fd saved_off LSEEK_SET in
    assert (lseek_res >=? 0) ;;
    ret (inr a).

(** The size of the buffer wraps around. *)
Definition sys_pread (f buf_addr size off : Z) : C Z :=
  with_fd f (fun fd => with_buffer (u32 (size + 1)) (fun buf =>
    let* x := run (get_fd fd) in
    let ops := file_ops_of (fd_ops_of x) in
    let* r := run (match op_pread ops with
                   | Some pread => let! r := pread fd size off in ret (inr r)
                   | None => at_position (op_lseek ops) fd off (let! read := deref (op_read ops) in read fd size)
                   end) in
    match r with
    | inl res => cret (dword res)
    | inr (res, bytes) =>
        let* buf := run (fill buf bytes) in
        if res >=? 0 then
          let* _ := run (in_bounds (res <? Z.of_nat (length buf))) in
          let* err := copy_out buf_addr (<[Z.to_nat res := 0]> buf) 0 res in
          cret (if err then _EFAULT else dword res)
        else cret (dword res)
    end)).

(** The buffer is lost when guest memory is not accessible. *)
Definition sys_pwrite (f buf_addr size off : Z) : C Z :=
  with_fd f (fun fd => with_buffer (u32 (size + 1)) (fun buf =>
    let* (err, buf) := copy_in buf_addr buf 0 size in
    if err then cret _EFAULT
    else
      let* x := run (get_fd fd) in
      let ops := file_ops_of (fd_ops_of x) in
      let bytes := take (Z.to_nat size) buf in
      let* r := run (match op_pwrite ops with
                     | Some pwrite => let! res := pwrite fd bytes off in ret (inr res)
                     | None => at_position (op_lseek ops) fd off (let! write := deref (op_write ops) in write fd bytes)
                     end) in
      cret (dword (match r with inl res => res | inr res => res end)))).

(** *** ioctl *)

Definition fd_ioctl (fd cmd arg : Z) : C Z :=
  let* x := run (get_fd fd) in
  let ops := file_ops_of (fd_ops_of x) in
  let size := match op_ioctl_size ops with Some ioctl_size => ioctl_size (s32 cmd) | None => -1 end in
  if size <? 0 then cret _ENOTTY
  else
    let ioctl a := run (let! ioctl := deref (op_ioctl ops) in ioctl fd (s32 cmd) a) in
    if size =? 0 then let* (res, _) := ioctl (arg_value arg) in cret (s32 res)
    else
      let* (err, buf) := get arg size in
      if err then cret _EFAULT
      else
        let* (res, bytes) := ioctl (arg_buffer buf) in
        let* buf := run (fill buf bytes) in
        let res := s32 res in
        if res <? 0 then cret res
        else
          let* err := put arg buf in
          cret (if err then _EFAULT else res).

Definition set_nonblock (fd nb_addr : Z) : C Z :=
  let* (err, nonblock) := get nb_addr 4 in
  if err then cret _EFAULT
  else
    let* flags := run (fd_getflags fd) in
    run (fd_setflags fd (if ctrue (le_value nonblock) then Z.lor flags O_NONBLOCK_ else Z.ldiff flags O_NONBLOCK_)).

Definition sys_ioctl (f cmd arg : Z) : C Z :=
  with_fd f (fun fd =>
    let* table := run my_files in
    if cmd =? FIONBIO_ then set_nonblock fd arg
    else if cmd =? FIOCLEX_ then let* _ := run (upd_cloexec table (bit_set f)) in cret 0
    else if cmd =? FIONCLEX_ then let* _ := run (upd_cloexec table (bit_clear f)) in cret 0
    else fd_ioctl fd cmd arg).

(** *** Working directory *)

Definition sys_getcwd (buf_addr size : Z) : C Z :=
  let* s := run (gets id) in
  let* err := run (let! wd := deref (pwd (fs (current s))) in generic_getpath wd) in
  match err with
  | inl err => cret err
  | inr pwd =>
      if strlen pwd + 1 >? size then cret _ERANGE
      else
        let size := strlen pwd + 1 in
        with_buffer size (fun buf =>
          let* buf := run (fill buf (bytes_of pwd ++ [0])) in
          let* err := copy_out buf_addr buf 0 size in
          cret (if err then _EFAULT else size))
  end.

Definition open_dir (p : path) : V F (Z + Z) :=
  let! err := generic_statat AT_PWD p true in
  match err with
  | inl err => ret (inl err)
  | inr stat => if negb (has (st_mode stat) S_IFDIR) then ret (inl _ENOTDIR) else generic_open p O_RDONLY_ 0
  end.

Definition fs_chdir (fd : Z) : V F unit :=
  let! s := gets id in
  let! old := deref (pwd (fs (current s))) in
  let! _ := fd_close old in
  upd_current (fun t => set_fs (set_pwd (Some fd) (fs t)) t).

Definition sys_chdir (path_addr : Z) : C Z :=
  with_path path_addr (fun path => run (
    let! path := string_in path in
    let! dir := open_dir path in
    match dir with inl err => ret err | inr dir => fs_chdir dir ;; ret 0 end)).

Definition sys_fchdir (f : Z) : C Z :=
  with_fd f (fun dir => run (
    upd_fd dir (fun x => set_fd_refcount (u32 (fd_refcount x + 1)) x) ;;
    fs_chdir dir ;;
    ret 0)).

Definition sys_chroot (path_addr : Z) : C Z :=
  with_path path_addr (fun path => run (
    let! path := string_in path in
    let! dir := open_dir path in
    match dir with
    | inl err => ret err
    | inr dir =>
        let! s := gets id in
        let! old := deref (root (fs (current s))) in
        let! _ := fd_close old in
        upd_current (fun t => set_fs (set_root (Some dir) (fs t)) t) ;;
        ret 0
    end)).

Definition sys_umask (mask : Z) : C Z := run (
  let! s := gets id in
  let old_umask := umask (fs (current s)) in
  upd_current (fun t => set_fs (set_umask (Z.land (u16 mask) 511) (fs t)) t) ;;
  ret old_umask).

(** *** File systems *)

Definition mount_statfs (m : mount) (stat : statfsbuf) : V F (Z * statfsbuf) :=
  let! (err, stat) := match fs_statfs (fs_calls_of (m_fs m)) with Some statfs => statfs (m_self m) stat | None => ret (0, stat) end in
  ret (err, if sf_type stat =? 0 then set_sf_type (fs_magic (fs_calls_of (m_fs m))) stat else stat).

(** [struct statfs_] and [struct statfs64_]; the spare words are 0. *)
Definition statfs_bytes (b : statfsbuf) : list Z :=
  le_bytes 4 (sf_type b) ++ le_bytes 4 (sf_bsize b) ++ le_bytes 4 (sf_blocks b) ++ le_bytes 4 (sf_bfree b) ++ le_bytes 4 (sf_bavail b) ++
  le_bytes 4 (sf_files b) ++ le_bytes 4 (sf_ffree b) ++ le_bytes 8 (sf_fsid b) ++ le_bytes 4 (sf_namelen b) ++ le_bytes 4 (sf_frsize b) ++
  le_bytes 4 (sf_flags b) ++ replicate 16 0.
Definition statfs64_bytes (b : statfsbuf) : list Z :=
  le_bytes 4 (sf_type b) ++ le_bytes 4 (sf_bsize b) ++ le_bytes 8 (sf_blocks b) ++ le_bytes 8 (sf_bfree b) ++ le_bytes 8 (sf_bavail b) ++
  le_bytes 8 (sf_files b) ++ le_bytes 8 (sf_ffree b) ++ le_bytes 8 (sf_fsid b) ++ le_bytes 4 (sf_namelen b) ++ le_bytes 4 (sf_frsize b) ++
  le_bytes 4 (sf_flags b) ++ replicate 16 0.
Definition STATFS64_SIZE : Z := 84.

Definition no_statfs : statfsbuf := mk_statfsbuf 0 0 0 0 0 0 0 0 0 0 0.
Definition statfs_to (out : statfsbuf -> list Z) (m : mount) (buf_addr : Z) : C Z :=
  let* (err, buf) := run (mount_statfs m no_statfs) in
  if err <? 0 then cret err
  else
    let* err := put buf_addr (out buf) in
    cret (if err then _EFAULT else 0).
Definition statfs_mount : mount -> Z -> C Z := statfs_to statfs_bytes.
Definition statfs64_mount : mount -> Z -> C Z := statfs_to statfs64_bytes.

(** The mount of a path, and its release. *)
Definition statfs_path (statfs : mount -> Z -> C Z) (path_raw : list Z) (buf_addr : Z) : C Z :=
  let* err := run (let! path_raw := string_in path_raw in path_normalize AT_PWD path_raw N_SYMLINK_NOFOLLOW) in
  match err with
  | inl err => cret err
  | inr path =>
      let* mount := run (mount_find path) in
      let* err := statfs mount buf_addr in
      let* _ := run (mount_release (m_self mount)) in
      cret err
  end.
Definition sys_statfs (path_addr buf_addr : Z) : C Z := with_path path_addr (fun path => statfs_path statfs_mount path buf_addr).
Definition sys_statfs64 (path_addr buf_size buf_addr : Z) : C Z :=
  with_path path_addr (fun path => if negb (buf_size =? STATFS64_SIZE) then cret _EINVAL else statfs_path statfs64_mount path buf_addr).

(** The descriptor is not checked. *)
Definition mount_of_fd (f : Z) : V F mount :=
  let! fd := f_get f in
  let! fd := deref fd in
  let! x := get_fd fd in
  let! m := deref (fd_mount x) in
  get_mount m.
Definition sys_fstatfs (f buf_addr : Z) : C Z := let* m := run (mount_of_fd f) in statfs_mount m buf_addr.
Definition sys_fstatfs64 (f buf_addr : Z) : C Z := let* m := run (mount_of_fd f) in statfs64_mount m buf_addr.

(** [fd->mount->fs]. *)
Definition fs_of_fd (fd : Z) : V F (fs_calls F) :=
  let! x := get_fd fd in
  let! m := deref (fd_mount x) in
  let! m := get_mount m in
  ret (fs_calls_of (m_fs m)).

Definition sys_flock (f operation : Z) : C Z :=
  with_fd f (fun fd => run (
    let! fs := fs_of_fd fd in
    match fs_flock fs with None => ret _EBADF | Some flock => flock fd (s32 operation) end)).

(** *** Times *)

Definition sys_utime_common (at_f path_addr : Z) (atime mtime : Z * Z) (flags : Z) : C Z :=
  let go (path : V F path) :=
    with_at at_f (fun at_ => run (let! path := path in generic_utime at_ path atime mtime (negb (has flags AT_SYMLINK_NOFOLLOW_)))) in
  if path_addr =? 0 then go (ret [dot]) else with_path path_addr (fun path => go (string_in path)).

(** [convert_timespec], [convert_timeval] and the members of [struct utimbuf_], from their bytes. *)
Definition timespec_at (b : list Z) : Z * Z := (le_value (take 4 b), le_value (take 4 (drop 4 b))).
Definition timeval_at (b : list Z) : Z * Z := (le_value (take 4 b), u32 (le_value (take 4 (drop 4 b)) * 1000)).
Definition utimbuf_at (b : list Z) : Z * Z := (le_value (take 4 b), 0).

(** The two times of a call: now, or two structures of [size] bytes at [times_addr]. *)
Definition with_times (times_addr size : Z) (convert : list Z -> Z * Z) (k : Z * Z -> Z * Z -> C Z) : C Z :=
  if times_addr =? 0 then let* now := run (gets timespec_now) in k now now
  else
    let* (err, times) := get times_addr (2 * size) in
    if err then cret _EFAULT else k (convert times) (convert (drop (Z.to_nat size) times)).
Definition sys_utimensat (at_f path_addr times_addr flags : Z) : C Z :=
  with_times times_addr 8 timespec_at (fun atime mtime => sys_utime_common at_f path_addr atime mtime flags).
Definition sys_utimes (path_addr times_addr : Z) : C Z :=
  with_times times_addr 8 timeval_at (fun atime mtime => sys_utime_common AT_FDCWD_ path_addr atime mtime 0).
Definition sys_utime (path_addr times_addr : Z) : C Z :=
  with_times times_addr 4 utimbuf_at (fun atime mtime => sys_utime_common AT_FDCWD_ path_addr atime mtime 0).

(** *** Attributes *)

Definition generic_fsetattr (fd : Z) (a : attr) : V F Z :=
  let! fs := fs_of_fd fd in
  match fs_fsetattr fs with None => ret _EPERM | Some fsetattr => fsetattr fd a end.

(** A mode is stored in 16 bits. *)
Definition sys_fchmod (f mode : Z) : C Z :=
  with_fd f (fun fd => run (generic_fsetattr fd (attr_mode (u16 (Z.ldiff mode S_IFMT))))).
Definition sys_fchmodat (at_f path_addr mode : Z) : C Z :=
  with_path path_addr (fun path => with_at at_f (fun at_ =>
    run (let! path := string_in path in generic_setattrat at_ path (attr_mode (u16 (Z.ldiff mode S_IFMT))) true))).
Definition sys_chmod (path_addr mode : Z) : C Z := sys_fchmodat AT_FDCWD_ path_addr mode.

(** The two changes of an owner and a group, of which the number -1 changes nothing. *)
Definition chown_with (set : attr -> V F Z) (owner group : Z) : V F Z :=
  let! err := if negb (owner =? u32 (-1)) then set (attr_uid owner) else ret 0 in
  if err <? 0 then ret err
  else
    let! err := if negb (group =? u32 (-1)) then set (attr_gid group) else ret 0 in
    ret (if err <? 0 then err else 0).
Definition sys_fchown32 (f owner group : Z) : C Z := with_fd f (fun fd => run (chown_with (generic_fsetattr fd) owner group)).
Definition sys_fchownat (at_f path_addr owner group flags : Z) : C Z :=
  with_path path_addr (fun path => with_at at_f (fun at_ =>
    run (let! path := string_in path in
         chown_with (fun a => generic_setattrat at_ path a (negb (has flags AT_SYMLINK_NOFOLLOW_))) owner group))).
Definition sys_chown32 (path_addr owner group : Z) : C Z := sys_fchownat AT_FDCWD_ path_addr owner group 0.
Definition sys_lchown (path_addr owner group : Z) : C Z := sys_fchownat AT_FDCWD_ path_addr owner group AT_SYMLINK_NOFOLLOW_.

(** The directory is a null pointer. *)
Definition sys_truncate64 (path_addr size_low size_high : Z) : C Z :=
  with_path path_addr (fun path =>
    run (let! path := string_in path in generic_setattrat AT_NULL path (attr_size (off_of size_low size_high)) true)).
Definition sys_ftruncate64 (f size_low size_high : Z) : C Z :=
  with_fd f (fun fd => run (generic_fsetattr fd (attr_size (off_of size_low size_high)))).

Definition sys_fallocate (f mode offset_low offset_high len_low len_high : Z) : C Z :=
  let offset := off_of offset_low offset_high in
  let len := off_of len_low len_high in
  with_fd f (fun fd => run (
    let! x := get_fd fd in
    let! a := deref (fd_mount x) in
    let! m := get_mount a in
    let! s := gets id in
    let! err := deref (fs_fstat (filesystem (m_fs m)) fd s) in
    match err with
    | inl err => ret err
    | inr statbuf =>
        if u64 (u64 offset + u64 len) >? st_size statbuf then generic_fsetattr fd (attr_size (s64 (offset + len))) else ret 0
    end)).

(** *** Directories *)

Definition sys_mkdirat (at_f path_addr mode : Z) : C Z :=
  with_path path_addr (fun path => with_at at_f (fun at_ =>
    let* mode := run (apply_umask mode) in
    run (let! path := string_in path in generic_mkdirat at_ path (Z.land mode 511)))).
Definition sys_mkdir (path_addr mode : Z) : C Z := sys_mkdirat AT_FDCWD_ path_addr mode.
Definition sys_rmdir (path_addr : Z) : C Z :=
  with_path path_addr (fun path => run (let! path := string_in path in generic_rmdirat AT_PWD path)).

Definition sys_fsync (f : Z) : C Z :=
  with_fd f (fun fd => run (
    let! x := get_fd fd in
    match op_fsync (file_ops_of (fd_ops_of x)) with Some fsync => fsync fd | None => ret 0 end)).

(** Calls that are not there. *)
Definition sys_sendfile (out_fd in_fd offset_addr count : Z) : C Z := cret _EINVAL.
Definition sys_sendfile64 (out_fd in_fd offset_addr count : Z) : C Z := cret _EINVAL.
Definition sys_splice (in_fd in_off_addr out_fd out_off_addr count flags : Z) : C Z := cret _EINVAL.
Definition sys_copy_file_range (in_fd in_off out_fd out_off len flags : Z) : C Z := cret _EPERM.
Definition sys_xattr_stub (path_addr name_addr value_addr size flags : Z) : C Z := cret _ENOTSUP.

End Calls.

(** ** Copies between buffers and guest memory *)

Section Copies.
Context {F U : Type} {SF : System F} {CF : Calls F} {SP : Space U} {SL : SpaceLaws U}.
Implicit Types (s : vfs F) (u : U).

Lemma cbind_step {A B} (m : call F U A) (f : A -> call F U B) u s a u' s' : m u s = Ret (a, u') s' -> cbind m f u s = f a u' s'.
Proof. intros H. unfold cbind. by rewrite (bind_step _ _ _ _ _ H). Qed.
Lemma run_step {A B} (m : V F A) (f : A -> call F U B) u s a s' : m s = Ret a s' -> cbind (run m) f u s = f a u s'.
Proof. intros H. apply cbind_step. unfold run. by rewrite (bind_step _ _ _ _ _ H). Qed.
(** A step of which nothing is known, before calls that look at memory. *)
Lemma run_bind {A B} (m : V F A) (f : A -> B) u s : cbind (run m) (fun a => cret (f a)) u s = (let! a := m in ret (f a, u)) s.
Proof. unfold cbind, run, cret, bind. by destruct (m s). Qed.

(** What is left alone when the guest's memory is only looked at: pages may be brought in. *)
Record same_memory (u u' : U) : Prop := {
  sm_ok : ok u';
  sm_seen : forall x, seen u' x = seen u x;
  sm_writable : forall x, writable u x -> writable u' x;
  sm_present : forall x, present u x -> present u' x }.
Lemma same_refl u : ok u -> same_memory u u.
Proof. by split. Qed.
Lemma same_trans u u1 u2 : same_memory u u1 -> same_memory u1 u2 -> same_memory u u2.
Proof. intros [? S1 W1 P1] [? S2 W2 P2]. split; [done|intros x; by rewrite S2|auto|auto]. Qed.

(** A range of addresses the guest can read, and one it can write. *)
Definition readable u (a n : Z) : Prop := 0 <= a /\ a + n <= User.LAST_PAGE /\ forall x, a <= x < a + n -> present u x \/ writable u x.
Definition writable_range u (a n : Z) : Prop := 0 <= a /\ a + n <= User.LAST_PAGE /\ forall x, a <= x < a + n -> writable u x.
Lemma readable_same u u' a n : same_memory u u' -> readable u a n -> readable u' a n.
Proof. intros [_ _ W P] (? & ? & H). split_and!; [done..|]. intros x Hx. destruct (H x Hx); auto. Qed.
Lemma writable_same u u' a n : same_memory u u' -> writable_range u a n -> writable_range u' a n.
Proof. intros [_ _ W P] (? & ? & H). split_and!; auto. Qed.

(** There is one list of each length at an address. *)
Lemma bytes_at_unique f a b1 b2 : length b1 = length b2 -> bytes_at f a b1 -> bytes_at f a b2 -> b1 = b2.
Proof.
  intros Hl H1 H2. apply list_eq. intros i. destruct (b1 !! i) as [x|] eqn:E1, (b2 !! i) as [y|] eqn:E2; [|exfalso..|done].
  - f_equal. by rewrite <- (H1 i x E1), <- (H2 i y E2).
  - apply lookup_lt_Some in E1. apply lookup_ge_None in E2. lia.
  - apply lookup_lt_Some in E2. apply lookup_ge_None in E1. lia.
Qed.

Lemma in_bounds_step {A} (b : bool) (k : V F A) s : b = true -> (in_bounds b ;; k) s = k s.
Proof. by intros ->. Qed.

(** Bytes [data] at [addr] are copied to offset [length pre] of a buffer. *)
Lemma copy_in_run addr pre old post data u s : ok u -> readable u addr (Z.of_nat (length data)) -> bytes_at (seen u) addr data -> length old = length data ->
  exists u', same_memory u u' /\
    copy_in addr (pre ++ old ++ post) (Z.of_nat (length pre)) (Z.of_nat (length data)) u s = Ret ((false, pre ++ data ++ post), u') s.
Proof.
  intros Hok (H0 & Hend & Hr) Hd Hl. destruct (read_law u addr old Hok H0) as (bs & u' & E & Hok' & W & P & Hs & Hlen & Hb); [rewrite Hl; done..|].
  assert (bs = data) as -> by (eapply bytes_at_unique; [congruence|exact Hb|exact Hd]).
  exists u'. split; [by split|]. unfold copy_in. rewrite in_bounds_step by (apply Z.leb_le; rewrite !length_app; lia).
  rewrite !Nat2Z.id, drop_app_length, <- Hl, take_app_length, E, (bind_step _ _ s (0, data, u') s) by done.
  rewrite take_app_length. replace (Z.to_nat (Z.of_nat (length pre) + Z.of_nat (length old))) with (length pre + length old)%nat by lia.
  rewrite <- drop_drop, drop_app_length, drop_app_length. done.
Qed.
Lemma copy_in_whole addr buf data size u s : ok u -> readable u addr size -> bytes_at (seen u) addr data -> size = Z.of_nat (length data) -> size = Z.of_nat (length buf) ->
  exists u', same_memory u u' /\ copy_in addr buf 0 size u s = Ret ((false, data), u') s.
Proof.
  intros Hok Hr Hd -> Hb. destruct (copy_in_run addr [] buf [] data u s Hok Hr Hd ltac:(lia)) as (u' & Hs & E). exists u'. split; [done|].
  cbn [app] in E. by rewrite !app_nil_r in E.
Qed.

(** The guest's memory with [bs] stored at [a]. *)
Record wrote (u : U) (a : Z) (bs : list Z) (u' : U) : Prop := {
  wr_ok : ok u';
  wr_seen : forall x, seen u' x = store (seen u) a bs x;
  wr_writable : forall x, writable u x -> writable u' x;
  wr_present : forall x, present u x -> present u' x }.
Lemma wrote_same u u1 a bs u2 : same_memory u u1 -> wrote u1 a bs u2 -> wrote u a bs u2.
Proof. intros [_ S1 W1 P1] [? S2 W2 P2]. split; [done| |auto|auto]. intros x. rewrite S2. by apply store_ext. Qed.

Lemma copy_out_run addr buf size bs u s : ok u -> 0 <= size -> writable_range u addr size -> take (Z.to_nat size) buf = bs -> size = Z.of_nat (length bs) ->
  exists u', wrote u addr bs u' /\ copy_out addr buf 0 size u s = Ret (false, u') s.
Proof.
  intros Hok Hsz (H0 & Hend & Hw) Ht El. assert (size <= Z.of_nat (length buf)) as Hle by (rewrite <- Ht, length_take in El; lia).
  destruct (write_law u addr bs Hok H0) as (u' & E & Hok' & W & P & Hs); [rewrite <- El; done..|].
  exists u'. split; [by split|]. unfold copy_out. rewrite in_bounds_step by (apply Z.leb_le; lia). change (Z.to_nat 0) with 0%nat. rewrite drop_0, Ht, E.
  by rewrite (bind_step _ _ s (0, u') s) by done.
Qed.

(** ** Vectors *)

Definition iovec_bytes (v : Z * list Z) : list Z := le_bytes 4 v.1 ++ le_bytes 4 (Z.of_nat (length v.2)).
Definition vector_bytes (vs : list (Z * list Z)) : list Z := mjoin (iovec_bytes <$> vs).
Definition data_of (vs : list (Z * list Z)) : list Z := mjoin (snd <$> vs).
Definition iovecs (vs : list (Z * list Z)) : list iovec := (fun v => mk_iovec v.1 (Z.of_nat (length v.2))) <$> vs.
(** A piece of a vector that can be read and holds the bytes it comes with. *)
Definition piece_at u (v : Z * list Z) : Prop := in_u 32 v.1 /\ readable u v.1 (Z.of_nat (length v.2)) /\ bytes_at (seen u) v.1 v.2.

Lemma iovec_field_length x : length (le_bytes 4 x) = 4%nat.
Proof. by rewrite Fpu.le_bytes_length by lia. Qed.
Lemma vector_bytes_cons v vs : vector_bytes (v :: vs) = iovec_bytes v ++ vector_bytes vs.
Proof. done. Qed.
Lemma data_of_cons v vs : data_of (v :: vs) = v.2 ++ data_of vs.
Proof. done. Qed.
Lemma vector_bytes_length vs : length (vector_bytes vs) = (8 * length vs)%nat.
Proof. induction vs as [|v vs IH]; [done|]. rewrite vector_bytes_cons. unfold iovec_bytes. rewrite !length_app, !iovec_field_length, IH. cbn [length]. lia. Qed.
Lemma iovecs_of_bytes vs : Forall (fun v => in_u 32 v.1 /\ in_u 32 (Z.of_nat (length v.2))) vs -> iovecs_of (length vs) (vector_bytes vs) = iovecs vs.
Proof.
  induction 1 as [|[b d] vs [Hb Hd] _ IH]; [done|]. cbn [length iovecs_of]. rewrite vector_bytes_cons.
  unfold iovec_bytes. cbn [fst snd] in *. rewrite <- !app_assoc.
  rewrite (take_app_length' (le_bytes 4 b)), (drop_app_length' (le_bytes 4 b)) by (by rewrite iovec_field_length).
  rewrite (take_app_length' (le_bytes 4 (Z.of_nat (length d)))) by (by rewrite iovec_field_length). rewrite !Fpu.le_bytes_value by (done || lia).
  change 8%nat with (4 + 4)%nat. rewrite <- drop_drop, (drop_app_length' (le_bytes 4 b)), (drop_app_length' (le_bytes 4 (Z.of_nat (length d)))) by (by rewrite iovec_field_length). by rewrite IH.
Qed.
Lemma iovec_size_run vs s : Z.of_nat (length (data_of vs)) < 2 ^ 64 -> iovec_size (iovecs vs) (length vs) s = Ret (Z.of_nat (length (data_of vs))) s.
Proof.
  induction vs as [|[b d] vs IH]; [done|]. rewrite data_of_cons, length_app. cbn [snd length]. intros Hl.
  cbn [iovecs fmap list_fmap iovec_size fst snd iov_len]. fold (iovecs vs). rewrite (bind_step _ _ _ _ _ (IH ltac:(lia))). unfold ret. f_equal. rewrite wrap_small by (unfold in_u; lia). lia.
Qed.

Lemma read_iovec_run addr vs u s : ok u -> readable u addr (8 * Z.of_nat (length vs)) -> bytes_at (seen u) addr (vector_bytes vs) -> 8 * Z.of_nat (length vs) < 2 ^ 32 ->
  Forall (fun v => in_u 32 v.1 /\ in_u 32 (Z.of_nat (length v.2))) vs -> malloc_bytes (8 * Z.of_nat (length vs)) s <> None ->
  exists u', same_memory u u' /\ read_iovec addr (Z.of_nat (length vs)) u s = Ret (inr (iovecs vs), u') s.
Proof.
  intros Hok Hr Hb Hn Hvs Hm. unfold read_iovec. rewrite wrap_small by (unfold in_u; lia). rewrite (run_step _ _ _ _ s s) by done. cbv beta.
  destruct (malloc_bytes (8 * Z.of_nat (length vs)) s) as [buf|] eqn:Em; [|done]. apply malloc_bytes_length in Em as Hl. pose proof (vector_bytes_length vs) as Hv.
  destruct (copy_in_whole addr buf (vector_bytes vs) (8 * Z.of_nat (length vs)) u s Hok Hr Hb) as (u' & Hs & E); [lia|lia|]. exists u'. split; [done|].
  rewrite (cbind_step _ _ _ _ _ _ _ E). unfold cret, ret. replace (Z.to_nat (8 * Z.of_nat (length vs) / 8)) with (length vs) by (rewrite Z.mul_comm, Z.div_mul by lia; lia).
  by rewrite iovecs_of_bytes.
Qed.

Lemma gather_run vs : forall pre old u s, ok u -> Forall (piece_at u) vs -> length old = length (data_of vs) ->
  exists u', same_memory u u' /\ gather (iovecs vs) (pre ++ old) (Z.of_nat (length pre)) u s = Ret ((false, pre ++ data_of vs), u') s.
Proof.
  induction vs as [|[b d] vs IH]; intros pre old u s Hok Hp Hl.
  - destruct old; [|done]. exists u. split; [by apply same_refl|]. done.
  - apply Forall_cons_1 in Hp as [(_ & Hr & Hb) Hp]. cbn [fst snd] in *. rewrite data_of_cons in *.
    rewrite length_app in Hl. cbn [snd] in *. destruct (copy_in_run b pre (take (length d) old) (drop (length d) old) d u s Hok Hr Hb ltac:(rewrite length_take; lia)) as (u1 & Hs1 & E1).
    rewrite take_drop in E1. assert (Forall (piece_at u1) vs) as Hp1.
    { eapply Forall_impl; [exact Hp|]. intros v (H1 & H2 & H3). split_and!; [done|by eapply readable_same|]. eapply bytes_at_ext; [|exact H3]. intros; apply Hs1. }
    destruct (IH (pre ++ d) (drop (length d) old) u1 s (sm_ok _ _ Hs1) Hp1 ltac:(rewrite length_drop; lia)) as (u2 & Hs2 & E2). exists u2. split; [by eapply same_trans|].
    cbn [iovecs fmap list_fmap gather fst snd iov_base iov_len]. fold (iovecs vs). rewrite (cbind_step _ _ _ _ _ _ _ E1). cbn iota.
    rewrite length_app, Nat2Z.inj_add, <- !app_assoc in E2. by rewrite E2.
Qed.

(** C34: writing a vector is one write of its pieces put together: [writev] of pieces at any addresses and [write] of the same bytes in one place hand the same
    bytes to the file, in one call, return the same, and leave guest memory as it was. *)
Theorem writev_is_write fd vs addr a u s : ok u ->
  readable u addr (8 * Z.of_nat (length vs)) -> bytes_at (seen u) addr (vector_bytes vs) -> 8 * Z.of_nat (length vs) < 2 ^ 32 -> Forall (piece_at u) vs ->
  readable u a (Z.of_nat (length (data_of vs))) -> bytes_at (seen u) a (data_of vs) -> Z.of_nat (length (data_of vs)) < 2 ^ 32 ->
  malloc_bytes (8 * Z.of_nat (length vs)) s <> None -> malloc_bytes (Z.of_nat (length (data_of vs))) s <> None ->
  exists u1 u2, same_memory u u1 /\ same_memory u u2 /\
    sys_writev fd addr (Z.of_nat (length vs)) u s = (let! res := sys_write_buf fd (data_of vs) in ret (dword res, u1)) s /\
    sys_write fd a (Z.of_nat (length (data_of vs))) u s = (let! res := sys_write_buf fd (data_of vs) in ret (dword res, u2)) s.
Proof.
  intros Hok Hr Hb Hn Hp Ha Hd Hl Hm Hm'. assert (Forall (fun v => in_u 32 v.1 /\ in_u 32 (Z.of_nat (length v.2))) vs) as Hvs.
  { apply Forall_forall. intros v Hv. rewrite Forall_forall in Hp. destruct (Hp v Hv) as [H1 _]. split; [done|].
    assert (length v.2 <= length (data_of vs))%nat; [|unfold in_u; lia]. apply list_elem_of_split in Hv as (l1 & l2 & ->). unfold data_of. rewrite fmap_app, join_app, fmap_cons. cbn. rewrite !length_app. lia. }
  destruct (malloc_bytes (Z.of_nat (length (data_of vs))) s) as [buf|] eqn:Em; [|done]. apply malloc_bytes_length in Em as Hbl.
  destruct (read_iovec_run addr vs u s Hok Hr Hb Hn Hvs Hm) as (u0 & S0 & E0). assert (Forall (piece_at u0) vs) as Hp0.
  { eapply Forall_impl; [exact Hp|]. intros v (H1 & H2 & H3). split_and!; [done|by eapply readable_same|]. eapply bytes_at_ext; [|exact H3]. intros; apply S0. }
  destruct (gather_run vs [] buf u0 s (sm_ok _ _ S0) Hp0 ltac:(lia)) as (u1 & S1 & E1). cbn [app length] in E1. change (Z.of_nat 0) with 0 in E1.
  destruct (copy_in_whole a buf (data_of vs) _ u s Hok Ha Hd eq_refl ltac:(lia)) as (u2 & S2 & E2). exists u1, u2. split_and!; [exact (same_trans _ _ _ S0 S1)|done| |].
  - unfold sys_writev. rewrite (cbind_step _ _ _ _ _ _ _ E0), Nat2Z.id, (run_step _ _ _ _ _ _ (iovec_size_run vs s ltac:(lia))).
    unfold with_buffer. rewrite (run_step _ _ _ _ s s) by done. cbv beta. unfold id. rewrite Em. rewrite (cbind_step _ _ _ _ _ _ _ E1). apply run_bind.
  - unfold sys_write, with_buffer. rewrite (run_step _ _ _ _ s s) by done. cbv beta. unfold id. rewrite Em. rewrite (cbind_step _ _ _ _ _ _ _ E2). apply run_bind.
Qed.

End Copies.

(** ** Files of tmpfs, through guest memory *)

Import Tmpfs.

Section TmpFiles.
Context {F U : Type} {SF : System F} {CF : Calls F} {TF : HasTmp F} {SP : Space U} {SL : SpaceLaws U}.
Implicit Types (s : vfs F) (u : U).

(** The table [tmpfs_fdops]. *)
Definition tmpfs_file_ops : file_ops F :=
  mk_file_ops F
    (Some (fun f size => let! r := tmpfs_read f size in ret (match r with inl err => (err, []) | inr bytes => (Z.of_nat (length bytes), bytes) end)))
    (Some tmpfs_write) None None (Some tmpfs_lseek) None None None.

Context (Htable : file_ops_of tmpfs_fdops = tmpfs_file_ops).

(** A descriptor of a regular file. *)
Record open_file s (fd_no f : Z) (x : fd) (d i : Z) (n : tmp_inode) : Prop := {
  of_get : f_get fd_no s = Ret (Some f) s;
  of_wf : wf (tmp s) (next s);
  of_file : file s f x d i n;
  of_regular : S_ISREG (st_mode (ti_stat n)) = true;
  of_type : S_ISDIR (fd_type x) = false;
  of_ops : fd_ops_of x = tmpfs_fdops;
  of_offset : 0 <= fd_offset x < 2 ^ 63 }.

Lemma f_get_eq fd s t : tables s !! files (current s) = Some t -> f_get fd s = (if (fd <? 0) || (u32 fd >=? ft_size t) then ret None else file_at t fd) s.
Proof.
  intros Ht. unfold f_get, my_files, fdtable_get. rewrite (bind_step _ _ s (files (current s)) s), (bind_step _ _ s s s) by done.
  rewrite (bind_step _ _ _ _ _ (get_table_run _ _ _ Ht)). destruct (_ || _); [done|]. by rewrite (bind_step _ _ _ _ _ (get_table_run _ _ _ Ht)).
Qed.
Lemma f_get_same fd r s s' : tables s' = tables s -> current s' = current s -> f_get fd s = Ret r s -> f_get fd s' = Ret r s'.
Proof.
  intros Ht Hc H. destruct (tables s !! files (current s)) as [t|] eqn:E.
  - rewrite (f_get_eq _ _ t E) in H. rewrite (f_get_eq _ _ t) by (by rewrite Ht, Hc). destruct (_ || _); [by injection H as ->|].
    unfold file_at in *. vbind H as ([] & s1 & E1 & H). vinv E1. unfold in_bounds. subst. destruct (_ && _); [|done]. unfold deref in *. cbn. destruct (ft_files t !! Z.to_nat fd); [|done]. by injection H as ->.
  - unfold f_get, my_files, fdtable_get, get_table, bind, gets, id in H. by rewrite E in H.
Qed.

Lemma moved_self f x s : fds s !! f = Some x -> moved f x (fd_offset x) s = s.
Proof. intros H. unfold moved. replace (set_fd_offset (fd_offset x) x) with x by (by destruct x). rewrite insert_id by done. by destruct s. Qed.
Lemma moved_moved f x o o' s : moved f (set_fd_offset o x) o' (moved f x o s) = moved f x o' s.
Proof. unfold moved. destruct s, x. unfold set_fds, set_fd_offset. cbn. by rewrite insert_insert_eq. Qed.
Lemma moved_stored f x o i n s : moved f x o (stored i n s) = stored i n (moved f x o s).
Proof. by destruct s. Qed.
Lemma moved_fd f x o s : fds (moved f x o s) !! f = Some (set_fd_offset o x).
Proof. unfold moved. destruct s. cbn. by rewrite lookup_insert_eq. Qed.

(** Moving the position keeps the file open. *)
Lemma open_moved s fd_no f x d i n o : open_file s fd_no f x d i n -> 0 <= o < 2 ^ 63 -> open_file (moved f x o s) fd_no f (set_fd_offset o x) d i n.
Proof.
  intros [Hg W [Hx Hd Hi Hn] Hr Ht Ho _] Hoff. split; [by eapply f_get_same; [..|exact Hg]; destruct s|by destruct s| |done|by destruct x..].
  split; [apply moved_fd|by destruct x|by destruct s..].
Qed.
Lemma open_stored s fd_no f x d i n off buf : open_file s fd_no f x d i n -> 0 <= off -> off + Z.of_nat (length buf) < 2 ^ 63 ->
  open_file (stored i (write_node off buf n) s) fd_no f x d i (write_node off buf n).
Proof.
  intros [Hg W [Hx Hd (y & Hy & Hi) Hn] Hr Ht Ho ?] Hoff Hend. split; [by eapply f_get_same; [..|exact Hg]; destruct s| | |done..].
  - unfold stored at 2. rewrite next_set_tmp. apply write_node_wf; (done || lia).
  - split; [by unfold stored; rewrite fds_set_tmp|done| |]; unfold stored; rewrite tmp_set_tmp; cbn; [by exists y|by rewrite lookup_insert_eq].
Qed.

Lemma seek_set s f x off : fds s !! f = Some x -> 0 <= off < 2 ^ 63 -> tmpfs_lseek f off LSEEK_SET s = Ret off (moved f x off s).
Proof.
  intros Hx Ho. unfold tmpfs_lseek. change (LSEEK_SET =? FileLock.LSEEK_END) with false. cbn iota. rewrite (bind_step _ _ _ _ _ (eq_refl : ret 0 _ = Ret 0 _)).
  unfold generic_seek. rewrite (bind_step _ _ s 0 (moved f x off s)).
  - change (0 <? 0) with false. cbn iota. rewrite (bind_step _ _ _ _ _ (get_fd_step _ _ _ (moved_fd _ _ _ _))). unfold ret. destruct x. cbn. by rewrite swrap_small by (unfold in_s; lia).
  - rewrite (bind_step _ _ _ _ _ (get_fd_step _ _ _ Hx)). change (LSEEK_SET =? LSEEK_SET) with true. cbn iota.
    rewrite (bind_step _ _ _ _ _ (upd_fd_runs _ _ _ _ Hx)). rewrite wrap_small by (unfold in_u; lia). done.
Qed.
Lemma seek_tell s f x : fds s !! f = Some x -> 0 <= fd_offset x < 2 ^ 63 -> tmpfs_lseek f 0 LSEEK_CUR s = Ret (fd_offset x) s.
Proof.
  intros Hx Ho. unfold tmpfs_lseek. change (LSEEK_CUR =? FileLock.LSEEK_END) with false. cbn iota. rewrite (bind_step _ _ _ _ _ (eq_refl : ret 0 _ = Ret 0 _)).
  unfold generic_seek. rewrite (bind_step _ _ s 0 s).
  - change (0 <? 0) with false. cbn iota. rewrite (bind_step _ _ _ _ _ (get_fd_step _ _ _ Hx)). unfold ret. by rewrite swrap_small by (unfold in_s; lia).
  - rewrite (bind_step _ _ _ _ _ (get_fd_step _ _ _ Hx)). change (LSEEK_CUR =? LSEEK_SET) with false. change (LSEEK_CUR =? LSEEK_CUR) with true. cbv zeta iota.
    rewrite (swrap_small 64), Z.add_0_r by (unfold in_s; lia). rewrite bool_decide_eq_true_2 by (unfold in_s; lia). destruct (Z.ltb_spec (fd_offset x) 0); [lia|]. cbn [negb orb].
    rewrite (bind_step _ _ _ _ _ (upd_fd_runs _ _ _ _ Hx)). rewrite wrap_small by (unfold in_u; lia). fold (moved f x (fd_offset x) s). by rewrite moved_self.
Qed.

(** The bytes from [off] on, at most [len]. *)
Definition slice (n : tmp_inode) (off len : Z) : list Z := take (Z.to_nat len) (drop (Z.to_nat off) (ti_data n)).
Lemma slice_length s fd_no f x d i n off len : open_file s fd_no f x d i n -> 0 <= off <= st_size (ti_stat n) -> 0 <= len ->
  Z.of_nat (length (slice n off len)) = Z.min len (st_size (ti_stat n) - off) /\ st_size (ti_stat n) < 2 ^ 64.
Proof.
  intros [_ W [_ _ _ Hn] Hr _ _ _] Ho Hl. destruct (wf_node _ _ W i n Hn) as (_ & _ & Hsz & Hd). specialize (Hd Hr). unfold in_u in Hsz. unfold slice. rewrite length_take, length_drop. lia.
Qed.

Lemma op_read_run s fd_no f x d i n len : open_file s fd_no f x d i n -> fd_offset x <= st_size (ti_stat n) -> 0 <= len -> let bytes := slice n (fd_offset x) len in
  (let! r := tmpfs_read f len in ret (match r with inl err => (err, []) | inr bytes => (Z.of_nat (length bytes), bytes) end)) s =
    Ret (Z.of_nat (length bytes), bytes) (moved f x (fd_offset x + Z.of_nat (length bytes)) s).
Proof.
  intros Hf Hle Hl bytes. destruct (slice_length _ _ _ _ _ _ _ (fd_offset x) len Hf) as [El Es]; [destruct (of_offset _ _ _ _ _ _ _ Hf); lia|done|]. fold bytes in El.
  pose proof Hf as [Hg W Hfile Hr Ht Hops Ho]. rewrite (bind_step _ _ _ _ _ (tmpfs_read_run s f x d i n len W Hfile Hr ltac:(lia) Hl)). fold (slice n (fd_offset x) len). fold bytes.
  rewrite wrap_small by (unfold in_u; lia). done.
Qed.

Lemma fill_run buf bytes s : (length bytes <= length buf)%nat -> fill buf bytes s = Ret (bytes ++ drop (length bytes) buf) s.
Proof. intros H. unfold fill. rewrite in_bounds_step by by apply bool_decide_eq_true. done. Qed.

Lemma read_buf_run s fd_no f x d i n buf : open_file s fd_no f x d i n -> fd_offset x <= st_size (ti_stat n) -> let len := Z.of_nat (length buf) in let bytes := slice n (fd_offset x) len in
  sys_read_buf fd_no buf len s = Ret (Z.of_nat (length bytes), bytes ++ drop (length bytes) buf) (moved f x (fd_offset x + Z.of_nat (length bytes)) s).
Proof.
  intros Hf Hle len bytes. pose proof Hf as [Hg W Hfile Hr Ht Hops Ho]. pose proof Hfile as [Hx _ _ _]. unfold sys_read_buf.
  rewrite (bind_step _ _ _ _ _ Hg), (bind_step _ _ _ _ _ (get_fd_step _ _ _ Hx)), Hops, Htable, Ht. cbn [op_read tmpfs_file_ops].
  rewrite (bind_step _ _ _ _ _ (op_read_run s fd_no f x d i n len Hf Hle ltac:(lia))). fold bytes. cbn iota beta.
  rewrite (bind_step _ _ _ _ _ (fill_run buf bytes _ ltac:(unfold bytes, slice, len; rewrite length_take; lia))). done.
Qed.

Lemma with_buffer_step size k u s buf : malloc_bytes size s = Some buf -> with_buffer (U := U) size k u s = k buf u s.
Proof. intros H. unfold with_buffer. rewrite (run_step _ _ _ _ s s) by done. cbv beta. unfold id. by rewrite H. Qed.

Lemma sys_read_run s fd_no f x d i n u b len : ok u -> open_file s fd_no f x d i n -> fd_offset x <= st_size (ti_stat n) -> 0 <= len < 2 ^ 31 -> malloc_bytes len s <> None ->
  writable_range u b len -> let bytes := slice n (fd_offset x) len in
  exists u', wrote u b bytes u' /\ sys_read fd_no b len u s = Ret (Z.of_nat (length bytes), u') (moved f x (fd_offset x + Z.of_nat (length bytes)) s).
Proof.
  intros Hok Hf Hle Hl Hm (W0 & W1 & W2) bytes. destruct (malloc_bytes len s) as [buf|] eqn:Em; [|done]. apply malloc_bytes_length in Em as Hbl. rewrite Z.max_r in Hbl by lia.
  assert (length bytes <= length buf)%nat as Hlb by (unfold bytes, slice; rewrite length_take; lia).
  destruct (copy_out_run b (bytes ++ drop (length bytes) buf) (Z.of_nat (length bytes)) bytes u (moved f x (fd_offset x + Z.of_nat (length bytes)) s) Hok ltac:(lia)) as (u' & Hw & E).
  - split_and!; [done|lia|]. intros y Hy. apply W2. lia.
  - by rewrite Nat2Z.id, take_app_length.
  - done.
  - exists u'. split; [done|]. unfold sys_read. rewrite (with_buffer_step _ _ _ _ _ Em). pose proof (read_buf_run s fd_no f x d i n buf Hf Hle) as R. cbv zeta in R. rewrite Hbl in R. fold bytes in R.
    rewrite (run_step _ _ _ _ _ _ R). cbv zeta beta iota. rewrite swrap_small by (unfold in_s; lia). destruct (Z.geb_spec (Z.of_nat (length bytes)) 0); [|lia].
    by rewrite (cbind_step _ _ _ _ _ _ _ E).
Qed.

Lemma sys_write_run s fd_no f x d i n u a buf : ok u -> open_file s fd_no f x d i n -> let len := Z.of_nat (length buf) in fd_offset x + len < 2 ^ 63 -> len < 2 ^ 31 -> malloc_bytes len s <> None ->
  readable u a len -> bytes_at (seen u) a buf -> realloc_succeeds (fd_offset x + len) = true ->
  exists u', same_memory u u' /\ sys_write fd_no a len u s = Ret (len, u') (moved f x (fd_offset x + len) (stored i (write_node (fd_offset x) buf n) s)).
Proof.
  intros Hok Hf len Hend Hl Hm Hr Hb Hre. destruct (malloc_bytes len s) as [b0|] eqn:Em; [|done]. apply malloc_bytes_length in Em as Hbl. rewrite Z.max_r in Hbl by lia.
  destruct (copy_in_whole a b0 buf len u s Hok Hr Hb eq_refl ltac:(lia)) as (u' & Hs & E). exists u'. split; [done|]. pose proof Hf as [Hg W Hfile Hreg Ht Hops Ho]. pose proof Hfile as [Hx _ _ _].
  unfold sys_write. rewrite (with_buffer_step _ _ _ _ _ Em), (cbind_step _ _ _ _ _ _ _ E). cbv iota beta. rewrite run_bind.
  assert (sys_write_buf fd_no buf s = Ret len (moved f x (fd_offset x + len) (stored i (write_node (fd_offset x) buf n) s))) as Ew.
  { unfold sys_write_buf. rewrite (bind_step _ _ _ _ _ Hg), (bind_step _ _ _ _ _ (get_fd_step _ _ _ Hx)), Hops, Htable. cbn [op_write tmpfs_file_ops].
    rewrite (tmpfs_write_run s f x d i n buf W Hfile Hreg) by lia. fold len. rewrite Hre. cbn [negb]. by rewrite andb_false_r. }
  rewrite (bind_step _ _ _ _ _ Ew). unfold ret, dword. by rewrite swrap_small by (unfold in_s; lia).
Qed.

(** C20: what a program writes to a file it reads back: a [write] from guest memory, a seek back to where it started and a [read] into another place leave the
    bytes there, and nothing else of guest memory changes, whatever pages the two places are on. *)
Theorem file_round_trip s fd_no f x d i n u a b buf : ok u -> open_file s fd_no f x d i n -> let len := Z.of_nat (length buf) in fd_offset x + len < 2 ^ 31 ->
  readable u a len -> bytes_at (seen u) a buf -> writable_range u b len ->
  (forall s, malloc_bytes len s <> None) -> realloc_succeeds (fd_offset x + len) = true ->
  exists u1 u2 s1 s2 s3, sys_write fd_no a len u s = Ret (len, u1) s1 /\ sys_lseek fd_no (fd_offset x) LSEEK_SET u1 s1 = Ret (fd_offset x, u1) s2 /\
    sys_read fd_no b len u1 s2 = Ret (len, u2) s3 /\ wrote u b buf u2.
Proof.
  intros Hok Hf len Hend Hr Hb Hw Hm Hre. pose proof (of_offset _ _ _ _ _ _ _ Hf) as Ho.
  destruct (sys_write_run s fd_no f x d i n u a buf Hok Hf) as (u1 & S1 & E1); [fold len; lia|fold len; lia|done|done|done|done|]. fold len in E1. set (n' := write_node (fd_offset x) buf n) in *.
  set (s0 := stored i n' s) in *. assert (open_file s0 fd_no f x d i n') as Hf0 by (apply open_stored; [done|lia|fold len; lia]).
  set (o := fd_offset x + len) in *. set (s1 := moved f x o s0) in *. assert (open_file s1 fd_no f (set_fd_offset o x) d i n') as Hf1 by (apply open_moved; [done|lia]).
  assert (moved f (set_fd_offset o x) (fd_offset x) s1 = s0) as E0 by (unfold s1; rewrite moved_moved; apply moved_self, Hf0).
  destruct (sys_read_run s0 fd_no f x d i n' u1 b len (sm_ok _ _ S1) Hf0) as (u2 & W2 & E2); [cbn; lia|lia|done|by eapply writable_same|].
  assert (slice n' (fd_offset x) len = buf) as Esl by (unfold slice, len; cbn [n' write_node ti_data]; rewrite Nat2Z.id; apply written_read; lia). rewrite Esl in W2, E2. fold len in E2.
  exists u1, u2, s1, s0. eexists. split_and!; [exact E1| |exact E2|by eapply wrote_same].
  unfold sys_lseek, with_fd. rewrite (run_step _ _ _ _ _ _ (of_get _ _ _ _ _ _ _ Hf1)). pose proof (moved_fd f x o s0) as Hx1. fold s1 in Hx1.
  rewrite (run_step _ _ _ _ _ _ (get_fd_step _ _ _ Hx1)), (of_ops _ _ _ _ _ _ _ Hf1), Htable. cbn [op_lseek tmpfs_file_ops].
  change (s32 LSEEK_SET) with LSEEK_SET. rewrite (run_step _ _ _ _ _ _ (seek_set _ _ _ (fd_offset x) Hx1 Ho)), E0.
  rewrite (wrap_small 32) by (unfold in_u; lia). rewrite Z.eqb_refl. unfold cret, ret, dword. cbn [negb]. by rewrite swrap_small by (unfold in_s; lia).
Qed.

Lemma at_position_run {A} s fd_no f x d i n off (m : V F A) v s1 x1 d1 n1 : open_file s fd_no f x d i n -> 0 <= off < 2 ^ 63 ->
  m (moved f x off s) = Ret v s1 -> open_file s1 fd_no f x1 d1 i n1 ->
  at_position (Some tmpfs_lseek) f off m s = Ret (inr v) (moved f x1 (fd_offset x) s1).
Proof.
  intros Hf Ho Hm Hf1. pose proof Hf as [Hg W Hfile Hreg Ht Hops Hoff]. pose proof Hfile as [Hx _ _ _]. pose proof (file_fd _ _ _ _ _ _ (of_file _ _ _ _ _ _ _ Hf1)) as Hx1.
  unfold at_position. rewrite (bind_step _ _ s tmpfs_lseek s) by done. rewrite (bind_step _ _ _ _ _ (seek_tell _ _ _ Hx Hoff)), (bind_step _ _ _ _ _ (seek_set _ _ _ _ Hx Ho)).
  destruct (Z.ltb_spec off 0); [lia|]. rewrite (bind_step _ _ _ _ _ Hm), (bind_step _ _ _ _ _ (seek_set _ _ _ _ Hx1 Hoff)).
  destruct (Z.geb_spec (fd_offset x) 0); [|lia]. done.
Qed.

(** [pread] and [pwrite] work at the position they are given and leave that of the file alone: reading changes nothing but the guest's buffer, where the bytes
    of the file are, and writing changes the contents of the file and nothing else.  tmpfs has neither, so that they seek there and back. *)
Theorem positional_io s fd_no f x d i n u b off len : ok u -> open_file s fd_no f x d i n -> 0 <= off -> 0 <= len < 2 ^ 31 -> off + len < 2 ^ 63 ->
  (forall s, malloc_bytes (len + 1) s <> None) ->
  (off <= st_size (ti_stat n) -> writable_range u b len -> let bytes := slice n off len in
   exists u', wrote u b bytes u' /\ sys_pread fd_no b len off u s = Ret (Z.of_nat (length bytes), u') s) /\
  (forall buf, len = Z.of_nat (length buf) -> readable u b len -> bytes_at (seen u) b buf -> realloc_succeeds (off + len) = true ->
   exists u', same_memory u u' /\ sys_pwrite fd_no b len off u s = Ret (len, u') (stored i (write_node off buf n) s)).
Proof.
  intros Hok Hf Ho Hl Hend Hm. pose proof Hf as [Hg W Hfile Hreg Ht Hops Hoff]. pose proof Hfile as [Hx _ _ _]. destruct (malloc_bytes (len + 1) s) as [b0|] eqn:Em; [|by apply Hm in Em].
  apply malloc_bytes_length in Em as Hbl. rewrite Z.max_r in Hbl by lia. assert (u32 (len + 1) = len + 1) as Hu by (apply wrap_small; unfold in_u; lia).
  pose proof (open_moved _ _ _ _ _ _ _ off Hf ltac:(lia)) as Hf1. split.
  - intros Hle (W0 & W1 & W2) bytes. destruct (slice_length _ _ _ _ _ _ _ off len Hf ltac:(lia) ltac:(lia)) as [El Es]. fold bytes in El. set (k := Z.of_nat (length bytes)) in *.
    pose proof (op_read_run _ _ _ _ _ _ _ len Hf1 ltac:(destruct x; done) ltac:(lia)) as R. cbv zeta in R. replace (fd_offset (set_fd_offset off x)) with off in R by (by destruct x).
    fold bytes in R. fold k in R. rewrite moved_moved in R.
    pose proof (open_moved _ _ _ _ _ _ _ (off + k) Hf ltac:(lia)) as Hf2. pose proof (at_position_run _ _ _ _ _ _ _ off _ _ _ _ _ _ Hf ltac:(lia) R Hf2) as P.
    rewrite moved_moved, moved_self in P by done.
    destruct (copy_out_run b (<[Z.to_nat k := 0]> (bytes ++ drop (length bytes) b0)) k bytes u s Hok ltac:(lia)) as (u' & Hw & E).
    + split_and!; [done|lia|]. intros y Hy. apply W2. lia.
    + unfold k. rewrite Nat2Z.id. rewrite take_insert_ge by lia. by rewrite take_app_length.
    + done.
    + exists u'. split; [done|]. unfold sys_pread, with_fd. rewrite (run_step _ _ _ _ _ _ Hg), Hu, (with_buffer_step _ _ _ _ _ Em), (run_step _ _ _ _ _ _ (get_fd_step _ _ _ Hx)), Hops, Htable.
      cbn [op_pread op_lseek op_read tmpfs_file_ops]. rewrite (run_step _ _ _ _ _ _ P). cbv iota beta.
      rewrite (run_step _ _ _ _ _ _ (fill_run b0 bytes s ltac:(lia))). destruct (Z.geb_spec k 0); [|lia].
      rewrite (run_step _ _ _ _ tt s). 2:{ unfold in_bounds. replace (k <? _) with true; [done|]. symmetry. apply Z.ltb_lt. rewrite length_app, length_drop. lia. }
      rewrite (cbind_step _ _ _ _ _ _ _ E). unfold cret, ret, dword. by rewrite swrap_small by (unfold in_s; lia).
  - intros buf -> Hr Hb Hre. set (len := Z.of_nat (length buf)) in *.
    destruct (copy_in_run b [] (take (length buf) b0) (drop (length buf) b0) buf u s Hok Hr Hb ltac:(rewrite length_take; lia)) as (u' & Hs & E). cbn [app length] in E. rewrite take_drop in E.
    change (Z.of_nat 0) with 0 in E. fold len in E. exists u'. split; [done|]. pose proof Hf1 as [Hg1 V1 Hfile1 _ _ _ _].
    pose proof (tmpfs_write_run _ _ _ _ _ _ buf V1 Hfile1 Hreg) as R. replace (fd_offset (set_fd_offset off x)) with off in R by (by destruct x). specialize (R Ho ltac:(lia)).
    fold len in R. rewrite Hre in R. cbn [negb] in R. rewrite andb_false_r, <- moved_stored in R. rewrite moved_moved in R.
    pose proof (open_moved _ _ _ _ _ _ _ (off + len) (open_stored _ _ _ _ _ _ _ off buf Hf Ho ltac:(lia)) ltac:(lia)) as Hf2.
    pose proof (at_position_run _ _ _ _ _ _ _ off _ _ _ _ _ _ Hf ltac:(lia) R Hf2) as P. rewrite moved_moved, moved_self in P by (unfold stored; by rewrite fds_set_tmp).
    unfold sys_pwrite, with_fd. rewrite (run_step _ _ _ _ _ _ Hg), Hu, (with_buffer_step _ _ _ _ _ Em), (cbind_step _ _ _ _ _ _ _ E). cbv iota beta.
    rewrite (run_step _ _ _ _ _ _ (get_fd_step _ _ _ Hx)), Hops, Htable. cbn [op_pwrite op_lseek op_write tmpfs_file_ops]. unfold len at 1. rewrite Nat2Z.id, take_app_length.
    rewrite (run_step _ _ _ _ _ _ P). unfold cret, ret, dword. by rewrite swrap_small by (unfold in_s; lia).
Qed.

End TmpFiles.

(** ** Which ids count *)

Section Access.
Context {F U : Type} {SF : System F} {CF : Calls F} {SP : Space U}.
Implicit Types (s : vfs F) (u : U).

Definition with_real_ids s : vfs F := set_current (set_egid (gid (current s)) (set_euid (uid (current s)) (current s))) s.

Lemma with_path_step pa k u s buf u' : user_read_string u pa (replicate (Z.to_nat MAX_PATH) 0) = Some (0, buf, u') -> with_path (F := F) pa k u s = k buf u' s.
Proof. intros H. unfold with_path. rewrite H. by rewrite (bind_step _ _ s (0, buf, u') s) by done. Qed.
Lemma with_at_step at_f k u s at_ : at_fd at_f s = Ret at_ s -> at_ <> AT_NULL -> with_at (U := U) at_f k u s = k at_ u s.
Proof. intros H Hn. unfold with_at. rewrite (run_step _ _ _ _ _ _ H). by destruct at_. Qed.
Lemma string_in_run buf p s : Exec.until_nul buf = Some p -> string_in buf s = Ret (Exec.path_of p) s.
Proof. intros H. unfold string_in. by rewrite H. Qed.

Lemma run_outcome {A B} (m : V F A) (k : A -> call F U B) u s : cbind (run m) k u s =
  match m s with Ret a s' => k a u s' | Abort => Abort | Fault => Fault | Hang => Hang end.
Proof. unfold cbind, run, bind. by destruct (m s). Qed.

Lemma accessat_unchanged at_ p mode : unchanged (F := F) (generic_accessat at_ p mode).
Proof.
  intros s r s' Hok E. unfold generic_accessat in E. apply look_up_unchanged in E as ->; [done|by intros ? ? ? ? ? []%stat_Ret| |done].
  intros [a|a] s2 r2 s2' H2; by vinv H2.
Qed.
(** [access] decides by the real ids of the caller and [faccessat] with [AT_EACCESS_] by the effective ones, in the way opening a file decides; whatever the
    answer, the ids and all other state are as before. *)
Theorem access_checks_ids at_f pa mode flags u s buf u' p at_ : mounts_ok s ->
  user_read_string u pa (replicate (Z.to_nat MAX_PATH) 0) = Some (0, buf, u') -> Exec.until_nul buf = Some p -> at_fd at_f s = Ret at_ s -> at_ <> AT_NULL ->
  sys_faccessat at_f pa mode flags u s =
    match generic_accessat at_ (Exec.path_of p) mode (if has flags AT_EACCESS_ then s else with_real_ids s) with
    | Ret r _ => Ret (r, u') s
    | Abort => Abort
    | Fault => Fault
    | Hang => Hang
    end.
Proof.
  intros Hok Hr Hp Ha Hn. unfold sys_faccessat. rewrite (with_path_step _ _ _ _ _ _ Hr), (with_at_step _ _ _ _ _ Ha Hn).
  assert (forall s, (let! path := string_in buf in generic_accessat at_ path mode) s = generic_accessat at_ (Exec.path_of p) mode s) as Em.
  { intros t. by rewrite (bind_step _ _ _ _ _ (string_in_run _ _ _ Hp)). }
  destruct (has flags AT_EACCESS_).
  - unfold run, bind at 1. rewrite Em. destruct (generic_accessat _ _ _ s) as [r s1| | |] eqn:E; [|done..]. by apply accessat_unchanged in E as ->.
  - rewrite (run_step _ _ _ _ s s), (run_step _ _ _ _ tt (set_current (set_euid (uid (current s)) (current s)) s)) by done.
    rewrite (run_step _ _ _ _ tt (with_real_ids s)) by (unfold with_real_ids; by destruct s, current). rewrite run_outcome, Em.
    destruct (generic_accessat _ _ _ (with_real_ids s)) as [r s1| | |] eqn:E; [|done..].
    apply accessat_unchanged in E as ->; [|unfold mounts_ok, with_real_ids; by destruct s]. unfold with_real_ids, cbind, run, cret, bind, upd_current, modify, ret.
    by destruct s as [? ? ? ? ? ? [] ?].
Qed.

End Access.

(** ** What goes wrong *)

Section Wrong.
Context {F U : Type} {SF : System F} {CF : Calls F} {TF : HasTmp F} {SP : Space U} {SL : SpaceLaws U}.
Implicit Types (s : vfs F) (u : U).
Context (Htable : file_ops_of tmpfs_fdops = tmpfs_file_ops).

(** reading into a vector stores the whole of every piece, however little was read: behind the bytes of the file the guest finds what
    was left in the memory of the emulator, and loses what it had there. *)
Theorem readv_leaks s fd_no f x d i n u addr b len head heap : ok u -> open_file s fd_no f x d i n -> fd_offset x <= st_size (ti_stat n) -> 0 <= len < 2 ^ 31 ->
  readable u addr 8 -> bytes_at (seen u) addr (le_bytes 4 b ++ le_bytes 4 len) -> in_u 32 b -> writable_range u b len ->
  malloc_bytes 8 s = Some head -> malloc_bytes len s = Some heap -> let bytes := slice n (fd_offset x) len in
  exists u', sys_readv fd_no addr 1 u s = Ret (Z.of_nat (length bytes), u') (moved f x (fd_offset x + Z.of_nat (length bytes)) s) /\ wrote u b (bytes ++ drop (length bytes) heap) u'.
Proof.
  intros Hok Hf Hle Hl Hr Hb Hb32 Hw Hm Hm' bytes. apply malloc_bytes_length in Hm' as Hbl. rewrite Z.max_r in Hbl by lia.
  set (vs := [(b, replicate (Z.to_nat len) 0)] : list (Z * list Z)). assert (Z.of_nat (length (replicate (Z.to_nat len) 0)) = len) as El by (rewrite length_replicate; lia).
  assert (vector_bytes vs = le_bytes 4 b ++ le_bytes 4 len) as Ev by (unfold vs; rewrite vector_bytes_cons; unfold iovec_bytes; cbn [fst snd]; rewrite El; apply app_nil_r).
  assert (data_of vs = replicate (Z.to_nat len) 0) as Ed by apply app_nil_r.
  destruct (read_iovec_run addr vs u s Hok Hr) as (u0 & S0 & E0); [by rewrite Ev|done|apply Forall_singleton; split; [done|cbn [snd]; rewrite El; unfold in_u; lia]|change (8 * Z.of_nat (length vs)) with 8; by rewrite Hm|].
  pose proof (iovec_size_run vs s) as Es. rewrite Ed, El in Es. specialize (Es ltac:(lia)).
  pose proof (read_buf_run Htable s fd_no f x d i n heap Hf Hle) as R. cbv zeta in R. rewrite Hbl in R. fold bytes in R.
  set (s1 := moved f x (fd_offset x + Z.of_nat (length bytes)) s) in *. set (buf := bytes ++ drop (length bytes) heap) in *.
  assert (Z.of_nat (length buf) = len) as Lb by (unfold buf, bytes, slice; rewrite length_app, length_drop, length_take; lia).
  destruct (copy_out_run b buf len buf u0 s1 (sm_ok _ _ S0) ltac:(lia)) as (u1 & W1 & E1); [by eapply writable_same|rewrite take_ge by lia; done|done|].
  exists u1. split; [|by eapply wrote_same]. unfold sys_readv. change (Z.of_nat (length vs)) with 1 in E0. rewrite (cbind_step _ _ _ _ _ _ _ E0).
  change (Z.to_nat 1) with (length vs). rewrite (run_step _ _ _ _ _ _ Es), (with_buffer_step _ _ _ _ _ Hm'), (run_step _ _ _ _ _ _ R). cbv iota beta.
  destruct (Z.ltb_spec (Z.of_nat (length bytes)) 0); [lia|]. assert (Z.of_nat (length bytes) <= len) by (unfold bytes, slice; rewrite length_take; lia).
  rewrite (cbind_step _ _ u0 s1 false u1 s1).
  - unfold cret, ret, dword. by rewrite swrap_small by (unfold in_s; lia).
  - unfold vs, iovecs. cbn [fmap list_fmap scatter fst snd iov_base iov_len]. rewrite El. by rewrite (cbind_step _ _ _ _ _ _ _ E1).
Qed.

(** a vector of so many pieces that its size in bytes wraps around to 0 is read outside of the memory that was allocated for it. *)
Theorem vector_count_overflows fd addr count u s : ok u -> 0 <= addr <= User.LAST_PAGE -> 0 < count -> u32 (8 * count) = 0 -> malloc_bytes 0 s <> None -> sys_readv fd addr count u s = Fault.
Proof.
  intros Hok Ha Hc H0 Hm. destruct (malloc_bytes 0 s) as [buf|] eqn:Em; [|done]. apply malloc_bytes_length in Em as Hl. destruct buf; [|cbn in Hl; lia].
  assert (readable u addr 0) as Hr by (split_and!; [lia..|intros; lia]).
  destruct (copy_in_whole addr [] [] 0 u s Hok Hr) as (u' & _ & E); [by intros i b|done|done|]. unfold sys_readv.
  rewrite (cbind_step _ _ u s (inr []) u' s).
  - destruct (Z.to_nat count) eqn:Ec; [lia|]. cbn [iovec_size]. done.
  - unfold read_iovec. rewrite H0, (run_step _ _ _ _ s s) by done. cbv beta. unfold id. rewrite Em. by rewrite (cbind_step _ _ _ _ _ _ _ E).
Qed.

(** [truncate64] passes no directory, which resolving a path asserts that there is: every call with a path that can be read stops the program. *)
Theorem truncate_aborts pa low high u s buf p u' : user_read_string u pa (replicate (Z.to_nat MAX_PATH) 0) = Some (0, buf, u') -> Exec.until_nul buf = Some p ->
  sys_truncate64 pa low high u s = Abort.
Proof.
  intros Hr Hp. unfold sys_truncate64. rewrite (with_path_step _ _ _ _ _ _ Hr). unfold run, bind at 1. by rewrite (bind_step _ _ _ _ _ (string_in_run _ _ _ Hp)).
Qed.

(** [fstatfs] of a descriptor that is not open reads through a null pointer. *)
Theorem fstatfs_closed_faults f buf_addr u s : f_get f s = Ret None s -> sys_fstatfs f buf_addr u s = Fault /\ sys_fstatfs64 f buf_addr u s = Fault.
Proof. intros H. split; unfold sys_fstatfs, sys_fstatfs64, mount_of_fd, cbind, run; unfold bind at 1 2; by rewrite (bind_step _ _ _ _ _ H). Qed.

(** [pread] and [pwrite] of a file that cannot seek, such as an event counter, call a null pointer. *)
Theorem pread_unseekable_faults f fd x buf_addr size off u s : f_get f s = Ret (Some fd) s -> fds s !! fd = Some x ->
  op_pread (file_ops_of (fd_ops_of x)) = None -> op_lseek (file_ops_of (fd_ops_of x)) = None -> malloc_bytes (u32 (size + 1)) s <> None ->
  sys_pread f buf_addr size off u s = Fault.
Proof.
  intros Hg Hx Hp Hl Hm. destruct (malloc_bytes _ s) as [buf|] eqn:Em; [|done]. unfold sys_pread, with_fd.
  rewrite (run_step _ _ _ _ _ _ Hg), (with_buffer_step _ _ _ _ _ Em), (run_step _ _ _ _ _ _ (get_fd_step _ _ _ Hx)), Hp, Hl. done.
Qed.

(** an error of seeking is reported as an overflow, whatever it was. *)
Theorem lseek_error_is_overflow f fd x lseek off whence u s res s' : f_get f s = Ret (Some fd) s -> fds s !! fd = Some x ->
  op_lseek (file_ops_of (fd_ops_of x)) = Some lseek -> lseek fd off (s32 whence) s = Ret res s' -> res < 0 -> sys_lseek f off whence u s = Ret (_EOVERFLOW, u) s'.
Proof.
  intros Hg Hx Hl H Hr. unfold sys_lseek, with_fd. rewrite (run_step _ _ _ _ _ _ Hg), (run_step _ _ _ _ _ _ (get_fd_step _ _ _ Hx)), Hl, (run_step _ _ _ _ _ _ H).
  destruct (Z.eqb_spec (u32 res) res) as [E|]; [|done]. pose proof (wrap_range 32 res ltac:(lia)) as Hw. unfold in_u in Hw. lia.
Qed.

(** [fchdir] makes any open file the working directory. *)
Theorem fchdir_accepts_any_file f fd x o y u s : f_get f s = Ret (Some fd) s -> fds s !! fd = Some x -> pwd (fs (current s)) = Some o -> fds s !! o = Some y -> o <> fd ->
  1 < fd_refcount y < 2 ^ 32 -> exists s', sys_fchdir f u s = Ret (0, u) s' /\ pwd (fs (current s')) = Some fd.
Proof.
  intros Hg Hx Hp Hy Hne Hrc. unfold sys_fchdir, with_fd. rewrite (run_step _ _ _ _ _ _ Hg). unfold run. unfold bind at 1. rewrite (bind_step _ _ _ _ _ (upd_fd_runs _ _ _ _ Hx)).
  set (s1 := set_fds _ s). assert (fds s1 !! o = Some y) as Hy1 by (unfold s1; rewrite fds_set_fds; by rewrite lookup_insert_ne). assert (pwd (fs (current s1)) = Some o) as Hp1 by (by destruct s).
  assert (exists s2, fd_close o s1 = Ret 0 s2) as [s2 E2].
  { unfold fd_close. rewrite (bind_step _ _ _ _ _ (upd_fd_runs _ _ _ _ Hy1)). eexists. rewrite (bind_step _ _ _ _ _ (get_fd_step _ _ _ ltac:(rewrite fds_set_fds; apply lookup_insert_eq))).
    replace (fd_refcount _ =? 0) with false; [done|]. symmetry. apply Z.eqb_neq. destruct y. cbn in *. rewrite wrap_small by (unfold in_u; lia). lia. }
  assert (fs_chdir fd s1 = Ret tt (set_current (set_fs (set_pwd (Some fd) (fs (current s2))) (current s2)) s2)) as E.
  { unfold fs_chdir. rewrite (bind_step _ _ s1 s1 s1), Hp1, (bind_step _ _ s1 o s1), (bind_step _ _ _ _ _ E2) by done. done. }
  rewrite (bind_step _ _ _ _ _ E). eexists. split; [done|]. by destruct s2 as [? ? ? ? ? ? [] ?].
Qed.

(** The test for a directory that [chdir] and [chroot] make also lets block devices and sockets through. *)
Example other_types_pass : has S_IFBLK S_IFDIR = true /\ has S_IFSOCK S_IFDIR = true /\ S_ISDIR S_IFBLK = false /\ S_ISDIR S_IFSOCK = false.
Proof. done. Qed.

End Wrong.

(** ** A file and two pages of memory *)

Module Demo.
Import Tmpfs.Demo.
Abbreviation guest := Exec.Demo.guest.
#[local] Instance guest_calls_space : Space guest := Exec.Demo.demo_space.
#[local] Instance guest_calls_laws : SpaceLaws guest := Exec.Demo.demo_laws.

#[local] Instance demo_calls : Calls tmp_fs.
Proof.
  refine {| file_ops_of _ := tmpfs_file_ops; fs_calls_of _ := mk_fs_calls tmp_fs 0 None None None; malloc_bytes n _ := Some (replicate (Z.to_nat n) 165); timespec_now _ := (0, 0) |}.
  intros n s b [= <-]. rewrite length_replicate. lia.
Defined.

(** Descriptor 0 is the file. *)
Definition opened_at (off : Z) : vfs tmp_fs := set_tables {[ 200 := mk_fdtable 1 [Some 3] (replicate 8 false) ]} (at_tree file_tree 14 13 off).
Lemma opened_ok off : 0 <= off < 2 ^ 63 -> open_file (opened_at off) 0 3 (mk_fd 1 0 0 7 off (Some 5) None (Some 13) None) 13 12 the_file.
Proof. intros H. split; [reflexivity|exact file_wf|split; [done..|by eexists|done]|done|done|done|exact H]. Qed.

(** Two pages at [BASE], with some bytes at their start. *)
Definition BASE : Z := 0x400 * 4096.
Lemma memory_with (bs : list Z) : Z.of_nat (length bs) <= 8192 ->
  exists u : guest, ok u /\ bytes_at (seen u) BASE bs /\ forall a n, BASE <= a -> a + n <= BASE + 8192 -> readable u a n /\ writable_range u a n.
Proof.
  intros Hl. destruct Exec.Demo.some_pages as (u & Hok & Hp). destruct (write_law u BASE bs Hok) as (u' & _ & Hok' & W & P & Hs); [unfold BASE; lia|unfold BASE, User.LAST_PAGE; lia|intros x Hx; apply Hp; unfold BASE in *; lia|].
  exists u'. split; [done|]. split; [eapply bytes_at_ext; [intros x Hx; apply Hs|apply bytes_at_store]|].
  intros a n Ha Hn. unfold BASE in *. split; (split_and!; [lia|unfold User.LAST_PAGE; lia|intros x Hx]); [left; apply P, Hp; lia|apply W, Hp; lia].
Qed.

Definition pieces : list (Z * list Z) := [(BASE + 1, [105]); (BASE, [104])].
Lemma writev_is_write_witness : exists u u1 u2 : guest, same_memory u u1 /\ same_memory u u2 /\
  sys_writev 0 (BASE + 8) 2 u (opened_at 0) = (let! res := sys_write_buf 0 [105; 104] in ret (dword res, u1)) (opened_at 0) /\
  sys_write 0 (BASE + 1) 2 u (opened_at 0) = (let! res := sys_write_buf 0 [105; 104] in ret (dword res, u2)) (opened_at 0).
Proof.
  destruct (memory_with ([104; 105; 104; 0; 0; 0; 0; 0] ++ vector_bytes pieces)) as (u & Hok & Hb & Hm); [rewrite length_app, vector_bytes_length; cbn; lia|]. exists u.
  apply bytes_at_app in Hb as [Hd Hv]. change (Z.of_nat (length [104; 105; 104; 0; 0; 0; 0; 0])) with 8 in Hv.
  assert (bytes_at (seen u) BASE ([104] ++ [105] ++ [104])) as Hd' by (intros i b Hi; apply Hd; destruct i as [|[|[|i]]]; [done..|destruct i; done]).
  pose proof Hd' as [H1 H2]%bytes_at_app. pose proof H2 as [H3 _]%bytes_at_app. change (Z.of_nat (length [104])) with 1 in *.
  apply (writev_is_write 0 pieces (BASE + 8) (BASE + 1) u (opened_at 0) Hok); [apply Hm; cbn; lia|exact Hv|done| |apply Hm; cbn; lia|exact H2|done|discriminate|discriminate].
  constructor; [|constructor; [|constructor]]; (split_and!; [by vm_compute|apply Hm; cbn; lia|done]).
Defined.

Lemma file_round_trip_witness : exists (u u1 u2 : guest) s1 s2 s3, sys_write 0 BASE 2 u (opened_at 3) = Ret (2, u1) s1 /\ sys_lseek 0 3 LSEEK_SET u1 s1 = Ret (3, u1) s2 /\
  sys_read 0 (BASE + 4096) 2 u1 s2 = Ret (2, u2) s3 /\ bytes_at (seen u2) (BASE + 4096) [104; 105].
Proof.
  destruct (memory_with [104; 105]) as (u & Hok & Hb & Hm); [cbn; lia|]. exists u.
  destruct (file_round_trip (CF := demo_calls) (TF := demo_tmp) eq_refl (opened_at 3) 0 3 _ 13 12 the_file u BASE (BASE + 4096) [104; 105] Hok (opened_ok 3 ltac:(lia))) as (u1 & u2 & s1 & s2 & s3 & E1 & E2 & E3 & [_ Hs _ _]);
    [cbn; lia|apply Hm; cbn; lia|done|apply Hm; cbn; lia|discriminate|done|].
  exists u1, u2, s1, s2, s3. split; [exact E1|]. split; [exact E2|]. split; [exact E3|]. eapply bytes_at_ext; [intros x Hx; apply Hs|apply bytes_at_store].
Defined.

Lemma positional_io_witness : exists u u' : guest, same_memory u u' /\ sys_pwrite 0 BASE 2 9 u (opened_at 3) = Ret (2, u') (stored 12 (write_node 9 [104; 105] the_file) (opened_at 3)).
Proof.
  destruct (memory_with [104; 105]) as (u & Hok & Hb & Hm); [cbn; lia|]. exists u.
  apply (positional_io (CF := demo_calls) (TF := demo_tmp) eq_refl (opened_at 3) 0 3 _ 13 12 the_file u BASE 9 2 Hok (opened_ok 3 ltac:(lia))); [lia|lia|lia|discriminate|done|apply Hm; cbn; lia|done|done].
Defined.

Lemma readv_leaks_witness : exists u u' : guest, sys_readv 0 BASE 1 u (opened_at 0) = Ret (0, u') (moved 3 (mk_fd 1 0 0 7 0 (Some 5) None (Some 13) None) 0 (opened_at 0)) /\
  bytes_at (seen u') (BASE + 4096) [165; 165].
Proof.
  destruct (memory_with (le_bytes 4 (BASE + 4096) ++ le_bytes 4 2)) as (u & Hok & Hb & Hm); [rewrite length_app, !iovec_field_length; lia|]. exists u.
  destruct (readv_leaks (CF := demo_calls) (TF := demo_tmp) eq_refl (opened_at 0) 0 3 _ 13 12 the_file u BASE (BASE + 4096) 2 (replicate 8 165) (replicate 2 165) Hok (opened_ok 0 ltac:(lia))) as (u' & E & [_ Hs _ _]);
    [cbn; lia|lia|apply Hm; cbn; lia|done|by vm_compute|apply Hm; cbn; lia|done|done|].
  exists u'. split; [exact E|]. eapply bytes_at_ext; [intros x Hx; apply Hs|apply bytes_at_store].
Defined.

(** A page that starts with the path "/". *)
Definition slash_page : guest :=
  match map_nothing Exec.Demo.empty 0x400 1 Memory.P_WRITE with
  | Some (_, u) => match user_write u BASE [47; 0] with Some (_, u) => u | None => u end
  | None => Exec.Demo.empty
  end.
Lemma read_result_inv (r : option (Z * list Z * guest)) p : match r with Some (0, buf, _) => Exec.until_nul buf = Some p | _ => False end ->
  exists buf u', r = Some (0, buf, u') /\ Exec.until_nul buf = Some p.
Proof. destruct r as [[[[| |] buf] u']|]; [eauto|done..]. Qed.
Lemma access_checks_ids_witness : exists u' : guest, sys_faccessat AT_FDCWD_ BASE 4 0 slash_page (opened_at 0) =
  match generic_accessat AT_PWD [slash] 4 (with_real_ids (opened_at 0)) with Ret r _ => Ret (r, u') (opened_at 0) | Abort => Abort | Fault => Fault | Hang => Hang end.
Proof.
  assert (exists buf u', user_read_string slash_page BASE (replicate (Z.to_nat MAX_PATH) 0) = Some (0, buf, u') /\ Exec.until_nul buf = Some [47]) as (buf & u' & E & H)
    by (apply read_result_inv; vm_compute; reflexivity).
  exists u'. apply (access_checks_ids AT_FDCWD_ BASE 4 0 slash_page (opened_at 0) buf u' [47] AT_PWD); [apply Forall_singleton; unfold in_u; cbn; lia|exact E|exact H|reflexivity|discriminate].
Defined.

End Demo.
End Files.
