(* ===== verification/Dirs.v ===== *)
(** * Listing directories (fs/dir.c)

    [getdents] and [getdents64] take entries from a directory until the guest's buffer is full, and go back to the first one that did not fit.
    What they ask of a directory is the interface [Stream], against which their theorems are proved; the directories of tmpfs satisfy it. *)

From S2P Require Import Prelude Errno FileLock Memory User Fpu Vfs Path Fd Generic Tmpfs Space Exec Files.

Module Dirs.
Import Errno Vfs Path Fd Generic Space Files.

(** The members of [struct fd_ops] for directories.  [readdir] gives the entry when its result is not 0; positions are [unsigned long]. *)
Record dir_ops (F : Type) := mk_dir_ops {
  op_readdir : option (Z -> V F (Z * option (Z * path)));
  op_telldir : option (Z -> V F Z);
  op_seekdir : option (Z -> Z -> V F unit) }.
Arguments op_readdir {F}.
Arguments op_telldir {F}.
Arguments op_seekdir {F}.
Class Directories (F : Type) := dir_ops_of : Z -> dir_ops F.

(** ** Records *)

(** The bytes of [struct linux_dirent_] with the name and the type behind it, and of [struct linux_dirent64_]; the length is kept in 16 bits. *)
Definition fill_dirent_32 (inode offset : Z) (name : path) (type : Z) : list Z :=
  le_bytes 4 inode ++ le_bytes 4 offset ++ le_bytes 2 (10 + strlen name + 2) ++ bytes_of name ++ [0] ++ le_bytes 1 type.
Definition fill_dirent_64 (inode offset : Z) (name : path) (type : Z) : list Z :=
  le_bytes 8 inode ++ le_bytes 8 offset ++ le_bytes 2 (19 + strlen name + 1) ++ le_bytes 1 type ++ bytes_of name ++ [0].

Section Getdents.
Context {F U : Type} {SF : System F} {DF : Directories F} {SP : Space U}.
#[local] Abbreviation C := (call F U).

Definition fd_telldir (fd : Z) : V F Z :=
  let! x := get_fd fd in
  match op_telldir (dir_ops_of (fd_ops_of x)) with Some telldir => telldir fd | None => ret (fd_offset x) end.
Definition fd_seekdir (fd off : Z) : V F unit :=
  upd_fd fd (set_fd_offset off) ;;
  let! x := get_fd fd in
  match op_seekdir (dir_ops_of (fd_ops_of x)) with Some seekdir => seekdir fd off | None => ret tt end.

(** The loop: an error, or the position to go back to and what is left of [count].  The record is built in an array of [max_reclen] bytes. *)
Fixpoint getdents_loop (fuel : nat) (readdir : Z -> V F (Z * option (Z * path))) (fill_dirent : Z -> Z -> path -> Z -> list Z) (fd dirents count : Z) : C (Z + Z * Z) :=
  match fuel with
  | O => run hang
  | S fuel =>
      let* ptr := run (fd_telldir fd) in
      let* (err, entry) := run (readdir fd) in
      if err <? 0 then cret (inl err)
      else if err =? 0 then cret (inr (ptr, count))
      else
        let* (inode, name) := run (deref entry) in
        let max_reclen := 19 + strlen name + 4 in
        let* offset := run (fd_telldir fd) in
        let dirent_data := fill_dirent inode (s64 offset) name 0 in
        let* _ := run (in_bounds (Z.of_nat (length dirent_data) <=? max_reclen)) in
        let reclen := u16 (Z.of_nat (length dirent_data)) in
        if reclen >? count then cret (inr (ptr, count))
        else
          let* err := copy_out dirents dirent_data 0 reclen in
          if err then cret (inl _EFAULT) else getdents_loop fuel readdir fill_dirent fd (u32 (dirents + reclen)) (count - reclen)
  end.

Definition sys_getdents_common (f dirents count : Z) (fill_dirent : Z -> Z -> path -> Z -> list Z) : C Z :=
  with_fd f (fun fd =>
    let* x := run (get_fd fd) in
    match op_readdir (dir_ops_of (fd_ops_of x)) with
    | Some readdir =>
        if negb (S_ISDIR (fd_type x)) then cret _ENOTDIR
        else
          let* r := getdents_loop (S (Z.to_nat count)) readdir fill_dirent fd dirents count in
          match r with
          | inl err => cret (s32 err)
          | inr (ptr, left_) =>
              let* _ := run (fd_seekdir fd ptr) in
              cret (s32 (count - left_))
          end
    | None => cret _ENOTDIR
    end).
Definition sys_getdents (f dirents count : Z) : C Z := sys_getdents_common f dirents count fill_dirent_32.
Definition sys_getdents64 (f dirents count : Z) : C Z := sys_getdents_common f dirents count fill_dirent_64.

End Getdents.

(** ** What a listing asks of a directory *)

Section Interface.
Context {F : Type} {SF : System F} {DF : Directories F}.

(** The descriptors and the task are as before. *)
Definition same_task (s s' : vfs F) : Prop := tables s' = tables s /\ current s' = current s.

(** A directory that is open as [fd], with the entries [all]: [left l] are the states in which the entries [l] are still to come.  Positions are told apart by [tell], and one
    can go to any of them. *)
Class Stream (fd : Z) (readdir : Z -> V F (Z * option (Z * path))) (all : list (Z * path)) := {
  left : list (Z * path) -> vfs F -> Prop;
  tell : list (Z * path) -> Z;
  stream_open : forall l s, left l s -> exists x, fds s !! fd = Some x /\ S_ISDIR (fd_type x) = true /\ op_readdir (dir_ops_of (fd_ops_of x)) = Some readdir;
  stream_suffix : forall l s, left l s -> exists p, all = p ++ l;
  stream_tell : forall l s, left l s -> fd_telldir fd s = Ret (tell l) s;
  stream_next : forall e l s, left (e :: l) s -> exists s', readdir fd s = Ret (1, Some e) s' /\ left l s' /\ same_task s s';
  stream_end : forall s, left [] s -> readdir fd s = Ret (0, None) s;
  stream_seek : forall p l l' s, left l s -> all = p ++ l' -> exists s', fd_seekdir fd (tell l') s = Ret tt s' /\ left l' s' /\ same_task s s';
}.

End Interface.

(** ** Records and what fits *)

Section Records.
Context (fill : Z -> Z -> path -> Z -> list Z) (tell : list (Z * path) -> Z).

(** The record of an entry that is followed by [l]: its offset is the position behind it. *)
Definition record (e : Z * path) (l : list (Z * path)) : list Z := fill e.1 (s64 (tell l)) e.2 0.
(** The records of as many entries as fit in [count] bytes, and the entries that are left. *)
Fixpoint fitting (count : Z) (l : list (Z * path)) : list Z * list (Z * path) :=
  match l with
  | [] => ([], [])
  | e :: l' =>
      let r := record e l' in
      if Z.of_nat (length r) >? count then ([], l) else let '(b, rest) := fitting (count - Z.of_nat (length r)) l' in (r ++ b, rest)
  end.

(** Names fit in [struct dir_entry]. *)
Definition name_fits (e : Z * path) : Prop := strlen e.2 <= 255.
(** The size of a record, which has room in the array it is built in. *)
Definition sized (k : Z) : Prop := 1 <= k <= 23 /\ forall i o n t, Z.of_nat (length (fill i o n t)) = k + strlen n.

Lemma fitting_suffix count l : exists p, l = p ++ (fitting count l).2.
Proof.
  revert count. induction l as [|e l IH]; intros count; cbn [fitting]; [by exists []|]. cbv zeta. case_match; [by exists []|].
  destruct (IH (count - Z.of_nat (length (record e l)))) as [p Hp]. destruct (fitting _ l) as [b rest]. cbn [snd] in *. exists (e :: p). by rewrite Hp.
Qed.
Lemma fitting_length count l : 0 <= count -> Z.of_nat (length (fitting count l).1) <= count.
Proof.
  revert count. induction l as [|e l IH]; intros count Hc; cbn [fitting]; [done|]. cbv zeta. destruct (Z.gtb_spec (Z.of_nat (length (record e l))) count); [done|].
  specialize (IH (count - Z.of_nat (length (record e l))) ltac:(lia)). destruct (fitting _ l) as [b rest]. cbn [fst] in *. rewrite length_app. lia.
Qed.

End Records.

Lemma bytes_of_length p : length (bytes_of p) = length p.
Proof. apply length_map. Qed.
Lemma sized_32 : sized fill_dirent_32 12.
Proof.
  split; [lia|]. intros i o n t. unfold fill_dirent_32, strlen. rewrite !length_app, !Fpu.le_bytes_length, bytes_of_length by lia. cbn [length]. lia.
Qed.
Lemma sized_64 : sized fill_dirent_64 20.
Proof.
  split; [lia|]. intros i o n t. unfold fill_dirent_64, strlen. rewrite !length_app, !Fpu.le_bytes_length, bytes_of_length by lia. cbn [length]. lia.
Qed.

(** ** One call *)

Section OneCall.
Context {F U : Type} {SF : System F} {DF : Directories F} {SP : Space U} {SL : SpaceLaws U}.
Context (fd : Z) (readdir : Z -> V F (Z * option (Z * path))) (all : list (Z * path)) {ST : Stream fd readdir all}.
Context (fill : Z -> Z -> path -> Z -> list Z) (k : Z) (Hfill : sized fill k).
Implicit Types (s : vfs F) (u : U).

Lemma wrote_nil u a : ok u -> wrote u a [] u.
Proof. intros H. split; [done| |auto|auto]. intros x. by rewrite store_out by (cbn; lia). Qed.
Lemma wrote_app u a b1 u1 b2 u2 : wrote u a b1 u1 -> wrote u1 (a + Z.of_nat (length b1)) b2 u2 -> wrote u a (b1 ++ b2) u2.
Proof. intros [? S1 W1 P1] [? S2 W2 P2]. split; [done| |auto|auto]. intros x. rewrite S2. rewrite <- store_app. by apply store_ext. Qed.
Lemma same_task_trans s s1 s2 : same_task s s1 -> same_task s1 s2 -> same_task s s2.
Proof. intros [] []. split; congruence. Qed.

Lemma getdents_loop_run fuel : forall l a count u s, left l s -> ok u -> writable_range u a count -> 0 <= count -> Forall name_fits l -> (Z.to_nat count < fuel)%nat ->
  let '(b, rest) := fitting fill tell count l in
  exists u' s' here, getdents_loop fuel readdir fill fd a count u s = Ret (inr (tell rest, count - Z.of_nat (length b)), u') s' /\ wrote u a b u' /\ left here s' /\ same_task s s'.
Proof.
  induction fuel as [|fuel IH]; intros l a count u s Hl Hok Hw Hc Hn Hf; [lia|]. cbn [getdents_loop]. rewrite (run_step _ _ _ _ _ _ (stream_tell _ _ Hl)).
  destruct l as [|e l]; cbn [fitting]; cbv zeta.
  { rewrite (run_step _ _ _ _ _ _ (stream_end _ Hl)). exists u, s, []. cbn. rewrite Z.sub_0_r. split; [done|]. split; [by apply wrote_nil|]. by split. }
  apply Forall_cons_1 in Hn as [He Hn]. destruct (stream_next _ _ _ Hl) as (s1 & E1 & Hl1 & T1). rewrite (run_step _ _ _ _ _ _ E1). change (1 <? 0) with false. change (1 =? 0) with false. cbn iota.
  destruct e as [ino name]. rewrite (run_step _ _ _ _ (ino, name) s1) by done. cbv beta iota. rewrite (run_step _ _ _ _ _ _ (stream_tell _ _ Hl1)).
  fold (record fill tell (ino, name) l). unfold name_fits in He. cbn [snd] in He. set (r := record fill tell (ino, name) l). destruct Hfill as [Hk Hlen].
  assert (Z.of_nat (length r) = k + strlen name) as Lr by apply Hlen. assert (0 <= strlen name) by (unfold strlen; lia).
  rewrite (run_step _ _ _ _ tt s1) by (unfold in_bounds; change (fill ino _ name 0) with r; by destruct (Z.leb_spec (Z.of_nat (length r)) (19 + strlen name + 4)); [|lia]).
  change (fill ino (s64 (tell l)) name 0) with r. rewrite wrap_small by (unfold in_u; lia).
  destruct (Z.gtb_spec (Z.of_nat (length r)) count) as [Hgt|Hle].
  { exists u, s1, l. cbn [length]. rewrite Z.sub_0_r. split; [done|]. split; [by apply wrote_nil|done]. }
  pose proof Hw as (W0 & W1 & W2). assert (User.LAST_PAGE < 2 ^ 32) by done.
  destruct (copy_out_run a r (Z.of_nat (length r)) r u s1 Hok ltac:(lia)) as (u1 & Wr & E2); [split_and!; [done|lia|intros x Hx; apply W2; lia]|rewrite Nat2Z.id; by apply take_ge|done|].
  rewrite (cbind_step _ _ _ _ _ _ _ E2). cbn iota. rewrite (wrap_small 32) by (unfold in_u; lia).
  specialize (IH l (a + Z.of_nat (length r)) (count - Z.of_nat (length r)) u1 s1 Hl1 (wr_ok _ _ _ _ Wr)). destruct (fitting fill tell (count - _) l) as [b rest].
  destruct IH as (u2 & s2 & here & E3 & Wr2 & Hl2 & T2); [split_and!; [lia|lia|intros x Hx; apply Wr, W2; lia]|lia|done|lia|].
  exists u2, s2, here. split; [rewrite E3, length_app; do 4 f_equal; lia|]. split; [by eapply wrote_app|]. split; [done|by eapply same_task_trans].
Qed.

(** What one call does: the records that fit are stored, and the next call goes on behind them. *)
Lemma getdents_run f l a count u s : f_get f s = Ret (Some fd) s -> left l s -> ok u -> writable_range u a count -> 0 <= count < 2 ^ 31 -> Forall name_fits l ->
  let '(b, rest) := fitting fill tell count l in
  exists u' s', sys_getdents_common f a count fill u s = Ret (Z.of_nat (length b), u') s' /\ wrote u a b u' /\ left rest s' /\ same_task s s'.
Proof.
  intros Hg Hl Hok Hw Hc Hn. pose proof (getdents_loop_run (S (Z.to_nat count)) l a count u s Hl Hok Hw ltac:(lia) Hn ltac:(lia)) as L.
  pose proof (fitting_suffix fill tell count l) as [p Hp]. pose proof (fitting_length fill tell count l ltac:(lia)) as Hb. destruct (fitting fill tell count l) as [b rest]. cbn [fst snd] in *.
  destruct L as (u' & s1 & here & E & Wr & Hl1 & T1). destruct (stream_suffix _ _ Hl) as [q Hq]. destruct (stream_seek (q ++ p) here rest s1 Hl1) as (s2 & E2 & Hl2 & T2); [by rewrite Hq, Hp at 1; rewrite app_assoc|].
  exists u', s2. split; [|split; [done|split; [done|by eapply same_task_trans]]]. destruct (stream_open _ _ Hl) as (x & Hx & Hd & Ho).
  unfold sys_getdents_common, with_fd. rewrite (run_step _ _ _ _ _ _ Hg), (run_step _ _ _ _ _ _ (Tmpfs.get_fd_step _ _ _ Hx)), Ho, Hd. cbn [negb].
  rewrite (cbind_step _ _ _ _ _ _ _ E). cbn iota. rewrite (run_step _ _ _ _ _ _ E2). unfold cret, ret. do 2 f_equal. rewrite swrap_small by (unfold in_s; lia). lia.
Qed.

End OneCall.

(** ** The guest's side *)

(** What the C library of the guest makes of the bytes: inode numbers and names. *)
Fixpoint parse_dirents (fuel : nat) (b : list Z) : option (list (Z * path)) :=
  match fuel, b with
  | _, [] => Some []
  | O, _ => None
  | S fuel, _ =>
      name ← Exec.until_nul (drop 19 b);
      rest ← parse_dirents fuel (drop (Z.to_nat (le_value (take 2 (drop 16 b)))) b);
      Some ((le_value (take 8 b), Exec.path_of name) :: rest)
  end.

(** Entries as a directory has them. *)
Definition entry_ok (e : Z * path) : Prop := in_u 64 e.1 /\ strlen e.2 <= 255 /\ NUL ∉ e.2.

Lemma path_of_bytes p : Exec.path_of (bytes_of p) = p.
Proof. unfold Exec.path_of, bytes_of. rewrite map_map. induction p as [|c p IH]; [done|]. cbn [map]. rewrite Nat2Z.id, ascii_nat_embedding. by f_equal. Qed.
Lemma until_nul_bytes p r : NUL ∉ p -> Exec.until_nul (bytes_of p ++ 0 :: r) = Some (bytes_of p).
Proof.
  intros H. apply Exec.until_nul_string. apply Forall_forall. intros z (c & -> & Hc)%list_elem_of_fmap E. apply H.
  assert (nat_of_ascii c = nat_of_ascii NUL) as Ec by (change (nat_of_ascii NUL) with 0%nat; lia). apply (f_equal ascii_of_nat) in Ec. rewrite !ascii_nat_embedding in Ec. by subst.
Qed.

(** The fields of a record. *)
Lemma record_fields i o n r : strlen n <= 255 -> in_u 64 i -> NUL ∉ n -> let b := fill_dirent_64 i o n 0 in
  le_value (take 8 (b ++ r)) = i /\ Z.to_nat (le_value (take 2 (drop 16 (b ++ r)))) = length b /\ Exec.until_nul (drop 19 (b ++ r)) = Some (bytes_of n).
Proof.
  intros Hl Hi Hn b. assert (Z.of_nat (length b) = 20 + strlen n) as Lb by apply sized_64. assert (0 <= strlen n) by (unfold strlen; lia).
  replace (length b) with (Z.to_nat (20 + strlen n)) by lia. unfold b, fill_dirent_64. rewrite <- !app_assoc. set (tl := le_bytes 1 0 ++ bytes_of n ++ [0] ++ r).
  assert (forall (x y z : list Z) (m : nat), length x = 8%nat -> length y = 8%nat -> drop (16 + m) (x ++ y ++ z) = drop m z) as Hd.
  { intros x y z m Hx Hy. rewrite <- drop_drop, app_assoc, drop_app_length'; [done|]. rewrite length_app. lia. }
  assert (length (le_bytes 8 i) = 8%nat /\ length (le_bytes 8 o) = 8%nat /\ length (le_bytes 2 (19 + strlen n + 1)) = 2%nat /\ length (le_bytes 1 0) = 1%nat) as (L1 & L2 & L3 & L4)
    by (rewrite !Fpu.le_bytes_length by lia; done).
  split_and!.
  - rewrite take_app_length' by done. by apply Fpu.le_bytes_value.
  - change 16%nat with (16 + 0)%nat. rewrite Hd by done. rewrite drop_0, take_app_length' by done. rewrite Fpu.le_bytes_value by (unfold in_u; lia). lia.
  - change 19%nat with (16 + 3)%nat. rewrite Hd by done. change 3%nat with (2 + 1)%nat. rewrite <- drop_drop, drop_app_length' by done. unfold tl. rewrite drop_app_length' by done.
    by apply until_nul_bytes.
Qed.

(** What fits is read back as the entries it was made of. *)
Lemma parse_fitting tell l : forall count fuel b rest, Forall entry_ok l -> fitting fill_dirent_64 tell count l = (b, rest) -> (length b <= fuel)%nat ->
  exists taken, l = taken ++ rest /\ parse_dirents fuel b = Some taken /\ (275 <= count -> l <> [] -> taken <> []).
Proof.
  induction l as [|[i n] l IH]; intros count fuel b rest He E Hf; cbn [fitting] in E; cbv zeta in E.
  { injection E as <- <-. exists []. split_and!; [done|by destruct fuel|done]. }
  apply Forall_cons_1 in He as [(Hi & Hn & Hnul) He]. cbn [fst snd] in *. set (r := record fill_dirent_64 tell (i, n) l) in *.
  assert (Z.of_nat (length r) = 20 + strlen n) as Lr by apply sized_64. assert (0 <= strlen n) by (unfold strlen; lia).
  destruct (Z.gtb_spec (Z.of_nat (length r)) count) as [Hgt|Hle].
  { injection E as <- <-. exists []. split_and!; [done|by destruct fuel|lia]. }
  destruct (fitting fill_dirent_64 tell (count - Z.of_nat (length r)) l) as [b' rest'] eqn:E'. apply pair_equal_spec in E as [<- <-]. rewrite length_app in Hf.
  destruct fuel as [|fuel]; [lia|]. destruct (IH _ fuel b' rest' He E' ltac:(lia)) as (taken & -> & Hp & _). exists ((i, n) :: taken). split_and!; [done| |done].
  destruct (record_fields i (s64 (tell (taken ++ rest'))) n b' Hn Hi Hnul) as (F1 & F2 & F3). change (fill_dirent_64 i (s64 (tell (taken ++ rest'))) n 0) with r in *.
  cbn [parse_dirents]. destruct (r ++ b') as [|z zs] eqn:Er; [apply (f_equal length) in Er; rewrite length_app in Er; cbn in Er; lia|].
  rewrite F3. cbn [mbind option_bind]. rewrite F2, F1, <- Er, drop_app_length, Hp. cbn. by rewrite path_of_bytes.
Qed.

Section Listing.
Context {F U : Type} {SF : System F} {CF : Calls F} {DF : Directories F} {SP : Space U} {SL : SpaceLaws U}.
Implicit Types (s : vfs F) (u : U).

(** A program that lists a directory through a buffer of [count] bytes at [a], until there is nothing more. *)
Fixpoint list_directory (fuel : nat) (f a count : Z) : call F U (option (list (Z * path))) :=
  match fuel with
  | O => cret None
  | S fuel =>
      let* r := sys_getdents64 f a count in
      if r <? 0 then cret None
      else if r =? 0 then cret (Some [])
      else
        let* (err, b) := get a r in
        let* l := list_directory fuel f a count in
        cret (if err then None else l1 ← parse_dirents (length b) b; l2 ← l; Some (l1 ++ l2))
  end.

Context (fd : Z) (readdir : Z -> V F (Z * option (Z * path))) (all : list (Z * path)) {ST : Stream fd readdir all}.

(** C28: a program that lists a directory with [getdents64], through a buffer that has room for one entry of any length, gets every entry with its number and its name,
    once and in order, however many calls it takes, and the last call says so by giving nothing. *)
Theorem directory_listed f l a count u s fuel : f_get f s = Ret (Some fd) s -> left l s -> ok u -> writable_range u a count -> 275 <= count < 2 ^ 31 ->
  Forall entry_ok l -> (length l < fuel)%nat -> exists u' s', list_directory fuel f a count u s = Ret (Some l, u') s'.
Proof.
  revert l u s. induction fuel as [|fuel IH]; intros l u s Hg Hl Hok Hw Hc He Hf; [lia|].
  pose proof (getdents_run fd readdir all fill_dirent_64 20 sized_64 f l a count u s Hg Hl Hok Hw ltac:(lia)) as R.
  destruct (fitting fill_dirent_64 tell count l) as [b rest] eqn:E. destruct R as (u1 & s1 & E1 & Wr & Hl1 & [T1 T2]).
  { eapply Forall_impl; [exact He|]. by intros e (_ & ? & _). }
  pose proof (fitting_length fill_dirent_64 tell count l ltac:(lia)) as Hbl. rewrite E in Hbl. cbn [fst] in Hbl.
  destruct (parse_fitting tell l count (length b) b rest He E ltac:(lia)) as (taken & -> & Hp & Hprog). specialize (Hprog ltac:(lia)).
  cbn [list_directory]. unfold sys_getdents64. rewrite (cbind_step _ _ _ _ _ _ _ E1). destruct (Z.ltb_spec (Z.of_nat (length b)) 0); [lia|].
  destruct (Z.eqb_spec (Z.of_nat (length b)) 0) as [Hz|Hz].
  { destruct b; [|done]. destruct taken as [|t ts]; [|destruct fuel; done]. destruct rest; [by exists u1, s1|by destruct Hprog]. }
  destruct Wr as [Hok1 Hs1 W1 P1]. pose proof Hw as (H0 & Hend & Hwr).
  destruct (copy_in_whole a (replicate (length b) 0) b (Z.of_nat (length b)) u1 s1 Hok1) as (u2 & S2 & E2);
    [split_and!; [done|lia|intros x Hx; right; apply W1, Hwr; lia]|eapply bytes_at_ext; [intros; apply Hs1|apply bytes_at_store]|done|by rewrite length_replicate|].
  unfold get. rewrite Nat2Z.id, (cbind_step _ _ _ _ _ _ _ E2). apply Forall_app in He as [_ He].
  destruct (IH rest u2 s1) as (u3 & s3 & E3).
  - by eapply f_get_same.
  - done.
  - apply S2.
  - eapply writable_same; [exact S2|]. split_and!; [done..|]. intros x Hx. by apply W1, Hwr.
  - done.
  - done.
  - rewrite length_app in Hf. destruct taken; [|cbn in Hf; lia]. cbn [app] in *. destruct rest; [injection E as <-; done|by destruct Hprog].
  - exists u3, s3. rewrite (cbind_step _ _ _ _ _ _ _ E3). rewrite Hp. done.
Qed.

(** A buffer that is too small for the next entry is not an error: the call gives nothing, as at the end of the directory. *)
Theorem small_buffer_ends_listing f e l a count u s : f_get f s = Ret (Some fd) s -> left (e :: l) s -> ok u -> writable_range u a count -> 0 <= count < 20 + strlen e.2 ->
  strlen e.2 <= 255 -> Forall name_fits l -> exists u' s', sys_getdents64 f a count u s = Ret (0, u') s' /\ left (e :: l) s'.
Proof.
  intros Hg Hl Hok Hw Hc He Hn. pose proof (getdents_run fd readdir all fill_dirent_64 20 sized_64 f (e :: l) a count u s Hg Hl Hok Hw ltac:(lia)) as R. cbn [fitting] in R. cbv zeta in R.
  assert (Z.of_nat (length (record fill_dirent_64 tell e l)) = 20 + strlen e.2) as Lr by apply sized_64. rewrite Lr in R. destruct (Z.gtb_spec (20 + strlen e.2) count); [|lia].
  destruct R as (u' & s' & E & _ & Hl' & _); [by constructor|]. by exists u', s'.
Qed.

End Listing.

(** ** Directories of tmpfs *)

Import Tmpfs.

Section TmpDirectories.
Context {F : Type} {SF : System F} {TF : HasTmp F} {DF : Directories F}.
Implicit Types s : vfs F.

Definition tmpfs_dir_ops : dir_ops F := mk_dir_ops F (Some tmpfs_readdir) (Some tmpfs_telldir) (Some tmpfs_seekdir).

Context (Htable : dir_ops_of tmpfs_fdops = tmpfs_dir_ops).
(** The tree [t], without the reference that the open file has to the entry it is at; the directory is the entry [d]. *)
Context (t : tmp_fs) (nx f d : Z) (y : tmp_dirent).
Context (W : wf t nx) (Hroom : forall c z, dirents t !! c = Some z -> td_refcount z + 1 < 2 ^ 32).

Definition entry_of (c : Z) : Z * path := (number_of t c, name_of t c).
Definition entries : list (Z * path) := entry_of <$> td_children y.

(** The open file [x] is at the first of [l2], of which it holds a reference. *)
Record at_entry (l2 : list Z) s : Prop := {
  ae_state : exists s0 x, s = hold_opt (head l2) s0 /\ tmp s0 = t /\ directory s0 f x d y /\ fd_dir_pos x = head l2 /\ S_ISDIR (fd_type x) = true /\ fd_ops_of x = tmpfs_fdops;
  ae_suffix : exists l1, td_children y = l1 ++ l2 }.

Definition position (l2 : list Z) : Z := match head l2 with Some c => match dirents t !! c with Some z => td_index z | None => 0 end | None => u64 (-1) end.

Lemma hold_fds o s : fds (hold_opt o s) = fds s.
Proof. destruct o; [|done]. unfold hold_opt, holding. by rewrite fds_set_tmp. Qed.
Lemma hold_set_fds o m s : set_fds m (hold_opt o s) = hold_opt o (set_fds m s).
Proof. destruct o; [|done]. unfold hold_opt, holding. by rewrite set_fds_set_tmp, tmp_set_fds. Qed.
Lemma hold_task o s : tables (hold_opt o s) = tables s /\ current (hold_opt o s) = current s.
Proof. destruct o; [|done]. unfold hold_opt, holding. by destruct s. Qed.
Lemma hold_index o s c z : tmp s = t -> dirents t !! c = Some z -> exists z', dirents (tmp (hold_opt o s)) !! c = Some z' /\ td_index z' = td_index z /\ (o <> Some c -> z' = z).
Proof.
  intros Ht Hz. destruct o as [e|]; cbn; [|rewrite Ht; eauto]. rewrite tmp_holding, held_lookup, Ht, Hz. cbn. eexists. split; [done|]. case_decide as He; [|done]. split; [done|congruence].
Qed.
Lemma hold_nodes o s : nodes (tmp (hold_opt o s)) = nodes (tmp s).
Proof. destruct o; [|done]. cbn. by rewrite tmp_holding. Qed.

Lemma child_there c : dirents t !! d = Some y -> c ∈ td_children y -> exists z, dirents t !! c = Some z /\ d < c /\ td_index z < u64 (-1).
Proof.
  intros Hy Hc. destruct (wf_child _ _ W d y c Hy Hc) as (Hlt & z & Hz & _ & Hi). destruct (wf_order _ _ W d y Hy) as [Hn _]. exists z. split_and!; [done..|].
  change (u64 (-1)) with (2 ^ 64 - 1). lia.
Qed.

(** Moving the position, from anywhere to anywhere. *)
Lemma move_position s0 x o o' : tmp s0 = t -> fds s0 !! f = Some x -> fd_dir_pos x = o -> (forall c, o = Some c -> is_Some (dirents t !! c)) -> (forall c, o' = Some c -> is_Some (dirents t !! c)) ->
  tmpfs_fd_seekdir f o' (hold_opt o s0) = Ret tt (hold_opt o' (set_fds (<[f := set_fd_dir_pos o' x]> (fds s0)) s0)).
Proof.
  intros Ht Hx Hpos Ho Ho'. destruct o as [c|].
  - destruct (Ho c eq_refl) as [z Hz]. destruct (decide (o' = Some c)) as [->|Hne].
    + unfold tmpfs_fd_seekdir. cbn [hold_opt]. rewrite (bind_step _ _ _ tt (holding c (holding c s0))).
      2:{ rewrite (bind_step _ _ _ _ _ (retain_run _ _ ltac:(rewrite tmp_holding, Ht; by apply held_is_Some))). done. }
      rewrite (bind_step _ _ _ x (holding c (holding c s0))) by (apply get_fd_step; unfold holding; by rewrite !fds_set_tmp). rewrite Hpos.
      assert (dirents (tmp (holding c s0)) !! c = Some (incr z)) as Hz1 by (rewrite tmp_holding, held_lookup, Ht, Hz; cbn; by rewrite decide_True).
      destruct (wf_dirent _ _ W _ _ Hz) as (_ & Hr & _). pose proof (Hroom _ _ Hz) as Hr1. rewrite (bind_step _ _ _ tt (holding c s0)).
      2:{ apply (release_holding c (incr z)); [done|]. cbn. rewrite wrap_small by (unfold in_u; lia). lia. }
      erewrite upd_fd_runs by (unfold holding; rewrite fds_set_tmp; exact Hx). change (holding c s0) with (hold_opt (Some c) s0). by rewrite hold_fds, hold_set_fds.
    + eapply (seekdir_run s0 nx); [by rewrite Ht|done|done|by rewrite Ht|]. intros e He. rewrite Ht. split; [by apply Ho'|congruence].
  - cbn [hold_opt]. unfold tmpfs_fd_seekdir. assert ((match o' with Some e => let! _ := tmp_dirent_retain e in ret tt | None => ret tt end) s0 = Ret tt (hold_opt o' s0)) as E.
    { destruct o' as [e|]; [|done]. by rewrite (bind_step _ _ _ _ _ (retain_run _ _ ltac:(rewrite Ht; by apply Ho'))). }
    rewrite (bind_step _ _ _ _ _ E), (bind_step _ _ _ x (hold_opt o' s0)) by (apply get_fd_step; by rewrite hold_fds). rewrite Hpos, (bind_step _ _ _ tt (hold_opt o' s0)) by done.
    erewrite upd_fd_runs by (rewrite hold_fds; exact Hx). by rewrite hold_fds, hold_set_fds.
Qed.

(** The first child that is not before a position. *)
Lemma child_from_run l2 o s0 : tmp s0 = t -> dirents t !! d = Some y -> forall l1, td_children y = l1 ++ l2 -> child_from (td_children y) (position l2) (hold_opt o s0) = Ret (head l2) (hold_opt o s0).
Proof.
  intros Ht Hy l1 Hch. destruct (wf_order _ _ W d y Hy) as [_ Ho]. rewrite Hch in *.
  assert (forall c, c ∈ l1 ++ l2 -> exists z, dirents t !! c = Some z /\ td_index z < u64 (-1)) as Hk.
  { intros c Hc. destruct (child_there c Hy ltac:(by rewrite Hch)) as (z & ? & _ & ?). eauto. }
  clear Hch. induction l1 as [|c l1 IH]; cbn [app] in *.
  - unfold position. destruct l2 as [|c l2]; [done|]. cbn [head child_from]. destruct (Hk c ltac:(left)) as (z & Hz & _). rewrite Hz.
    destruct (hold_index o s0 c z Ht Hz) as (z' & Hz' & Hi & _). rewrite (bind_step _ _ _ _ _ (get_dirent_run _ _ _ Hz')), Hi, Z.leb_refl. done.
  - cbn [child_from]. destruct (Hk c ltac:(left)) as (z & Hz & Hzi). destruct (hold_index o s0 c z Ht Hz) as (z' & Hz' & Hi & _).
    rewrite (bind_step _ _ _ _ _ (get_dirent_run _ _ _ Hz')), Hi. inversion Ho as [|? ? Ha Ho']; subst. destruct (Z.leb_spec (position l2) (td_index z)) as [Hle|_]; [exfalso|].
    + unfold position in Hle. destruct l2 as [|b l2]; cbn [head] in Hle; [lia|]. destruct (Hk b ltac:(right; apply elem_of_app; right; left)) as (w & Hw & _). rewrite Hw in Hle.
      rewrite Forall_elem in Ha. destruct (Ha b ltac:(apply elem_of_app; right; left) z w Hz Hw). lia.
    + apply IH; [done|]. intros e He. apply Hk. by right.
Qed.

Definition suffix_for (n : nat) : list Z := drop (length (td_children y) - n) (td_children y).
Lemma suffix_for_app l1 l2 : td_children y = l1 ++ l2 -> suffix_for (length l2) = l2.
Proof. intros H. unfold suffix_for. rewrite H, length_app. replace (length l1 + length l2 - length l2)%nat with (length l1) by lia. apply drop_app_length. Qed.

Definition tmp_left (l : list (Z * path)) s : Prop := exists l2, l = entry_of <$> l2 /\ at_entry l2 s.
Definition tmp_tell (l : list (Z * path)) : Z := position (suffix_for (length l)).
Lemma tmp_tell_at l1 l2 : td_children y = l1 ++ l2 -> tmp_tell (entry_of <$> l2) = position l2.
Proof. intros H. unfold tmp_tell. rewrite length_fmap. by rewrite (suffix_for_app l1 l2 H). Qed.

Lemma dir_in_tree s0 x : tmp s0 = t -> directory s0 f x d y -> dirents t !! d = Some y.
Proof. intros <- D. apply D. Qed.
(** The directory as it is found in a state that holds one of its entries. *)
Lemma dir_held s0 x o : tmp s0 = t -> directory s0 f x d y -> (forall c, o = Some c -> c ∈ td_children y) ->
  dirents (tmp (hold_opt o s0)) !! d = Some y /\ exists n, dirent_node y (hold_opt o s0) = Ret n (hold_opt o s0) /\ S_ISDIR (st_mode (ti_stat n)) = true.
Proof.
  intros Ht D Ho. pose proof (dir_in_tree _ _ Ht D) as Hy. destruct D as [Hx Hd Hy0 (i & n & Hi & Hn & Hdir)]. split.
  - destruct (hold_index o s0 d y Ht Hy) as (y' & Hy' & _ & E). rewrite E in Hy'; [done|]. intros ->. destruct (child_there d Hy (Ho d eq_refl)) as (_ & _ & ? & _). lia.
  - exists n. split; [|done]. apply (dirent_node_run _ i); [done|]. by rewrite hold_nodes.
Qed.
Lemma head_in (l1 l2 : list Z) c : head l2 = Some c -> c ∈ l1 ++ l2.
Proof. destruct l2; [done|]. intros [= ->]. apply elem_of_app. right. left. Qed.

Lemma tmp_stream_tell l s : tmp_left l s -> fd_telldir f s = Ret (tmp_tell l) s.
Proof.
  intros (l2 & -> & [(s0 & x & -> & Ht & D & Hpos & _ & Hops) (l1 & Hch)]). rewrite (tmp_tell_at l1 l2 Hch). assert (get_fd f (hold_opt (head l2) s0) = Ret x (hold_opt (head l2) s0)) as Hx
    by (apply get_fd_step; rewrite hold_fds; apply D).
  unfold fd_telldir. rewrite (bind_step _ _ _ _ _ Hx), Hops, Htable. cbn [op_telldir tmpfs_dir_ops]. unfold tmpfs_telldir. rewrite (bind_step _ _ _ _ _ Hx), Hpos. unfold position.
  destruct (head l2) as [c|] eqn:Eh; [|done]. destruct (child_there c (dir_in_tree _ _ Ht D)) as (z & Hz & _); [rewrite Hch; by apply head_in|]. rewrite Hz.
  destruct (hold_index (Some c) s0 c z Ht Hz) as (z' & Hz' & <- & _). by rewrite (bind_step _ _ _ _ _ (get_dirent_run _ _ _ Hz')).
Qed.

Lemma tmp_stream_next e l s : tmp_left (e :: l) s -> exists s', tmpfs_readdir f s = Ret (1, Some e) s' /\ tmp_left l s' /\ same_task s s'.
Proof.
  intros ([|c l2] & E & [(s0 & x & -> & Ht & D & Hpos & Hty & Hops) (l1 & Hch)]); [done|]. injection E as -> ->.
  exists (hold_opt (head l2) (set_fds (<[f:=set_fd_dir_pos (head l2) x]> (fds s0)) s0)).
  split; [cbn [hold_opt head]; rewrite (readdir_step s0 nx f x d y c l1 l2); [unfold entry_of; by rewrite Ht|by rewrite Ht|done|done|done]|]. split.
  - exists l2. split; [done|]. split; [|exists (l1 ++ [c]); by rewrite <- app_assoc]. exists (set_fds (<[f:=set_fd_dir_pos (head l2) x]> (fds s0)) s0), (set_fd_dir_pos (head l2) x). split; [done|]. rewrite tmp_set_fds. split; [done|].
    split; [|by destruct x]. destruct D as [Hx Hd Hy Hi]. split; [by rewrite fds_set_fds, lookup_insert_eq|by destruct x|by rewrite tmp_set_fds..].
  - unfold same_task. destruct (hold_task (head l2) (set_fds (<[f:=set_fd_dir_pos (head l2) x]> (fds s0)) s0)) as [-> ->]. destruct (hold_task (head (c :: l2)) s0) as [-> ->]. by destruct s0.
Qed.

Lemma tmp_stream_end s : tmp_left [] s -> tmpfs_readdir f s = Ret (0, None) s.
Proof.
  intros ([|c l2] & E & [(s0 & x & -> & Ht & [Hx Hd Hy (i & n & Hi & Hn & Hdir)] & Hpos & _ & _) _]); [|done]. cbn [hold_opt head] in *.
  unfold tmpfs_readdir. by rewrite (bind_step _ _ _ _ _ (get_fd_step _ _ _ Hx)), Hd, (bind_step _ _ s0 d s0), (bind_step _ _ _ _ _ (get_dirent_run _ _ _ Hy)),
    (bind_step _ _ _ _ _ (dirent_node_run _ _ _ _ Hi Hn)), Hdir, Hpos by done.
Qed.

Lemma tmp_stream_seek p l l' s : tmp_left l s -> entries = p ++ l' -> exists s', fd_seekdir f (tmp_tell l') s = Ret tt s' /\ tmp_left l' s' /\ same_task s s'.
Proof.
  intros (l2 & -> & [(s0 & x & -> & Ht & D & Hpos & Hty & Hops) (l1 & Hch)]) Hp. unfold entries in Hp. apply fmap_app_inv in Hp as (k1 & k2 & -> & -> & Hk).
  rewrite (tmp_tell_at k1 k2 Hk). set (o := position k2). pose proof (dir_in_tree _ _ Ht D) as Hy. pose proof D as [Hx Hd Hy0 Hn].
  set (x1 := set_fd_offset o x). set (s1 := set_fds (<[f := x1]> (fds s0)) s0). assert (tmp s1 = t) as Ht1 by (unfold s1; by rewrite tmp_set_fds).
  assert (fds s1 !! f = Some x1) as Hx1 by (unfold s1; by rewrite fds_set_fds, lookup_insert_eq). assert (directory s1 f x1 d y) as D1 by (split; [done|by destruct x|by rewrite Ht1|by rewrite Ht1, <- Ht]).
  assert (forall c, head l2 = Some c -> c ∈ td_children y) as Hin by (intros c Hc; rewrite Hch; by apply head_in).
  set (x2 := set_fd_dir_pos (head k2) x1). set (s2 := set_fds (<[f := x2]> (fds s1)) s1).
  assert (tmpfs_seekdir f o (hold_opt (head l2) s1) = Ret tt (hold_opt (head k2) s2)) as Es.
  { destruct (dir_held s1 x1 (head l2) Ht1 D1 Hin) as (Hyh & n & Hnh & Hdir). unfold tmpfs_seekdir.
    rewrite (bind_step _ _ _ x1 (hold_opt (head l2) s1)) by (apply get_fd_step; by rewrite hold_fds). rewrite (bind_step _ _ _ d (hold_opt (head l2) s1)) by (destruct x; cbn in *; by rewrite Hd).
    rewrite (bind_step _ _ _ _ _ (get_dirent_run _ _ _ Hyh)), (bind_step _ _ _ _ _ Hnh), Hdir, (bind_step _ _ _ tt (hold_opt (head l2) s1)) by done.
    rewrite (bind_step _ _ _ _ _ (child_from_run k2 (head l2) s1 Ht1 Hy k1 Hk)). apply move_position; [done|done|by destruct x| |].
    - intros c Hc. destruct (child_there c Hy (Hin c Hc)) as (z & -> & _). eauto.
    - intros c Hc. destruct (child_there c Hy) as (z & -> & _); [rewrite Hk; by apply head_in|eauto]. }
  exists (hold_opt (head k2) s2). split; [|split].
  - unfold fd_seekdir. erewrite bind_step; [|apply upd_fd_runs; rewrite hold_fds; exact Hx]. rewrite hold_fds, hold_set_fds. fold x1 s1.
    rewrite (bind_step _ _ _ x1 (hold_opt (head l2) s1)) by (apply get_fd_step; by rewrite hold_fds). replace (fd_ops_of x1) with tmpfs_fdops by (by destruct x). rewrite Htable. exact Es.
  - exists k2. split; [done|]. split; [|by exists k1]. exists s2, x2. split; [done|]. unfold s2. rewrite tmp_set_fds. split; [done|]. split; [|by destruct x].
    split; [by rewrite fds_set_fds, lookup_insert_eq|by destruct x|by rewrite tmp_set_fds, Ht1|by rewrite tmp_set_fds, Ht1, <- Ht].
  - unfold same_task. destruct (hold_task (head k2) s2) as [-> ->]. destruct (hold_task (head l2) s0) as [-> ->]. by destruct s0.
Qed.

#[global] Instance tmp_stream : Stream f tmpfs_readdir entries.
Proof.
  refine {| left := tmp_left; tell := tmp_tell; stream_tell := tmp_stream_tell; stream_next := tmp_stream_next; stream_end := tmp_stream_end; stream_seek := tmp_stream_seek |}.
  - intros l s (l2 & -> & [(s0 & x & -> & Ht & D & Hpos & Hty & Hops) _]). exists x. rewrite hold_fds, Hops, Htable. split; [apply D|done].
  - intros l s (l2 & -> & [_ (l1 & Hch)]). exists (entry_of <$> l1). unfold entries. by rewrite Hch, fmap_app.
Defined.

End TmpDirectories.

(** ** The directory of a file *)

Module Demo.
Import Tmpfs.Demo Files.Demo.
#[local] Existing Instances guest_calls_space guest_calls_laws demo_calls.
#[local] Instance demo_dirs : Directories tmp_fs := fun _ => tmpfs_dir_ops.

(** The root with one file, open as descriptor 0. *)
Definition dir_fd : fd := mk_fd 1 0 S_IFDIR 7 0 (Some 5) None (Some 11) (Some 13).
Definition dir_state : vfs tmp_fs := set_tables {[ 200 := mk_fdtable 1 [Some 4] (replicate 8 false) ]} (set_fds {[ 4 := dir_fd ]} (at_tree file_tree 14 13 0)).
Definition root_with_file : tmp_dirent := add_child 13 root_entry.

Lemma file_room c z : dirents file_tree !! c = Some z -> td_refcount z + 1 < 2 ^ 32.
Proof.
  intros H%elem_of_map_to_list%list_elem_of_In. assert (forallb (fun p => td_refcount p.2 + 1 <? 2 ^ 32) (map_to_list (dirents file_tree)) = true) as Hall by (vm_compute; reflexivity).
  by apply (proj1 (forallb_forall _ _) Hall), Z.ltb_lt in H.
Qed.
#[local] Instance demo_stream : Stream (F := tmp_fs) 4 tmpfs_readdir (entries file_tree root_with_file) :=
  tmp_stream eq_refl file_tree 14 4 11 root_with_file file_wf file_room.

Lemma demo_left : left (Stream := demo_stream) [(2, cstr "f")] (hold_opt (Some 13) dir_state).
Proof.
  exists [13]. split; [reflexivity|]. split; [|by exists []]. exists dir_state, dir_fd. split_and!; try reflexivity. split; [reflexivity..|]. by exists 10, root_node.
Qed.

Lemma directory_listed_witness : exists (u : guest) u' s', list_directory 2 0 BASE 4096 u (hold_opt (Some 13) dir_state) = Ret (Some [(2, cstr "f")], u') s'.
Proof.
  destruct (memory_with []) as (u & Hok & _ & Hm); [cbn; lia|]. exists u.
  apply (directory_listed 4 tmpfs_readdir (entries file_tree root_with_file) 0 [(2, cstr "f")] BASE 4096 u _ 2); [reflexivity|exact demo_left|exact Hok|apply Hm; lia|lia| |cbn; lia].
  apply Forall_singleton. split_and!; [unfold in_u; cbn; lia|vm_compute; discriminate|]. intros H. apply list_elem_of_singleton in H. discriminate.
Defined.

End Demo.
End Dirs.
