(* ===== verification/Adhoc.v ===== *)
(** * Files without a name, event counters and pipes (fs/adhoc.c, kernel/eventfd.c, fs/pipe.c)

    Files that are on no file system the guest can see: they are made with a table of operations, belong to a mount of their own, and keep their attributes in the open file.
    Event counters are such files with a number that reads take away and writes add to, waiting for each other; pipes are such files around descriptors of the host.

    [adhoc_mount] is the address of that mount, which is found with the other mounts, behind the root, where no search by path gets.  A wait gives the steps other threads take
    meanwhile, so that the loops are functions of these. *)

From S2P Require Import Prelude Errno FileLock Memory User Fpu Tty Vfs Path Fd Generic Space Exec Tmpfs Files.

Module Adhoc.
Import Errno Vfs Path Fd Space Files.
Abbreviation POLL_READ := Tty.POLL_READ.
Abbreviation POLL_WRITE := Tty.POLL_WRITE.

Definition S_IFIFO : Z := 4096. (* 0010000 *)
Definition UINT64_MAX : Z := 2 ^ 64 - 1.

(** Of the open files: the attributes, the number of a counter, the descriptor of the host, and how often the condition of the file was notified. *)
Record adhoc := mk_adhoc {
  stats : gmap Z statbuf;
  counters : gmap Z Z;
  real_fds : gmap Z Z;
  notices : gmap Z Z }.
Definition set_stats v x := mk_adhoc v (counters x) (real_fds x) (notices x).
Definition set_counters v x := mk_adhoc (stats x) v (real_fds x) (notices x).
Definition set_real_fds v x := mk_adhoc (stats x) (counters x) v (notices x).
Definition set_notices v x := mk_adhoc (stats x) (counters x) (real_fds x) v.

(** A state with such files in it; the addresses of the mount and of the tables of operations; [pipe] and [close] of the host; and [poll_wakeup], which is about other state. *)
Class HasAdhoc (F : Type) := {
  get_adhoc : F -> adhoc;
  put_adhoc : adhoc -> F -> F;
  get_put_adhoc x f : get_adhoc (put_adhoc x f) = x;
  adhoc_mount : Z;
  eventfd_ops : Z;
  realfs_fdops : Z;
  host_pipe : V F (Z * (Z * Z));
  host_close : Z -> V F unit;
  wakeup : Z -> Z -> F -> F;
  wakeup_adhoc f evs x : get_adhoc (wakeup f evs x) = get_adhoc x;
}.

Section Operations.
Context {F U : Type} {SF : System F} {HA : HasAdhoc F} {SP : Space U}.
#[local] Abbreviation C := (call F U).

Definition state (s : vfs F) : adhoc := get_adhoc (fsd s).
Definition set_state (x : adhoc) (s : vfs F) : vfs F := set_fsd (put_adhoc x (fsd s)) s.
Definition update (g : adhoc -> adhoc) : V F unit := modify (fun s => set_state (g (state s)) s).
Definition poll_wakeup (f evs : Z) : V F unit := modify (fun s => set_fsd (wakeup f evs (fsd s)) s).

(** ** Files without a name (fs/adhoc.c) *)

Definition no_stat : statbuf := mk_statbuf 0 0 0 0 0 0 0 0.
Definition adhoc_fd_create (ops : Z) : V F Z :=
  let! fd := fd_create ops in
  mount_retain adhoc_mount ;;
  upd_fd fd (set_fd_mount (Some adhoc_mount)) ;;
  update (fun x => set_stats (<[fd := no_stat]> (stats x)) x) ;;
  ret fd.

Definition stat_of (fd : Z) : V F statbuf := let! s := gets id in deref (stats (state s) !! fd).
Definition upd_stat (fd : Z) (g : statbuf -> statbuf) : V F unit :=
  let! st := stat_of fd in update (fun x => set_stats (<[fd := g st]> (stats x)) x).

Definition adhoc_fstat (fd : Z) : V F (Z + statbuf) := let! st := stat_of fd in ret (inr st).
Definition adhoc_fsetattr (fd : Z) (attr : attr) : V F Z :=
  match attr with
  | attr_uid uid => upd_stat fd (set_st_uid uid) ;; ret 0
  | attr_gid gid => upd_stat fd (set_st_gid gid) ;; ret 0
  | attr_mode mode => upd_stat fd (fun st => set_st_mode (Z.lor (Z.land (st_mode st) S_IFMT) (Z.ldiff mode S_IFMT)) st) ;; ret 0
  | attr_size _ => ret _EINVAL
  end.
Definition adhoc_getpath (fd : Z) : V F (Z + path) :=
  let! st := stat_of fd in
  ret (inr (if st_inode st =? 0 then cstr "anon_inode:[unknown]" else cstr "unknown:[" ++ Tty.decimal 20 (st_inode st) ++ cstr "]")).
Definition is_adhoc_fd (fd : Z) : V F bool := let! x := get_fd fd in ret (bool_decide (fd_mount x = Some adhoc_mount)).

(** ** Event counters (kernel/eventfd.c) *)

Definition val_of (fd : Z) : V F Z := let! s := gets id in deref (counters (state s) !! fd).
Definition set_val (fd v : Z) : V F unit := update (fun x => set_counters (<[fd := v]> (counters x)) x).

Definition sys_eventfd2 (initval flags : Z) : V F Z :=
  if ctrue (Z.ldiff flags (Z.lor O_CLOEXEC_ O_NONBLOCK_)) then ret _EINVAL
  else
    let! fd := adhoc_fd_create eventfd_ops in
    set_val fd initval ;;
    f_install fd flags.
Definition sys_eventfd (initval : Z) : V F Z := sys_eventfd2 initval 0.

(** [notify(&fd->cond)], and how often there was one. *)
Definition notify (fd : Z) : V F unit := update (fun x => set_notices (<[fd := default 0 (notices x !! fd) + 1]> (notices x)) x).
Definition noticed (fd : Z) : V F Z := let! s := gets id in ret (default 0 (notices (state s) !! fd)).

(** A stretch of waiting: what the other threads do in it, and the error, not 0 if a signal ends the wait. *)
Definition wait : Type := V F unit * Z.
(** The loops that wait while the number is not as it should be.  [asleep] says that [wait_for] has not returned yet: it returns, with 0, only when the condition was notified, or with the
    error of a signal. *)
Fixpoint eventfd_wait (fd : Z) (blocked : Z -> bool) (asleep : bool) (waits : list wait) : V F Z :=
  let! val := val_of fd in
  if asleep || blocked val then
    let! x := get_fd fd in
    if negb asleep && has (fd_flags x) O_NONBLOCK_ then ret _EAGAIN
    else
      match waits with
      | [] => hang
      | (others, err) :: waits =>
          let! before := noticed fd in
          others ;;
          if ctrue err then ret _EINTR
          else
            let! after := noticed fd in
            eventfd_wait fd blocked (after =? before) waits
      end
  else ret 0.

Definition eventfd_read (fd bufsize : Z) (waits : list wait) : V F (Z * list Z) :=
  if bufsize <? 8 then ret (_EINVAL, [])
  else
    let! err := eventfd_wait fd (fun val => val =? 0) false waits in
    if ctrue err then ret (err, [])
    else
      let! val := val_of fd in
      set_val fd 0 ;;
      notify fd ;;
      poll_wakeup fd POLL_WRITE ;;
      ret (8, le_bytes 8 val).
Definition eventfd_write (fd : Z) (buf : list Z) (waits : list wait) : V F Z :=
  if Z.of_nat (length buf) <? 8 then ret _EINVAL
  else
    let increment := le_value (take 8 buf) in
    if increment =? UINT64_MAX then ret _EINVAL
    else
      let! err := eventfd_wait fd (fun val => val >=? u64 (UINT64_MAX - increment)) false waits in
      if ctrue err then ret err
      else
        let! val := val_of fd in
        set_val fd (u64 (val + increment)) ;;
        notify fd ;;
        poll_wakeup fd POLL_READ ;;
        ret 8.
Definition eventfd_poll (fd : Z) : V F Z :=
  let! val := val_of fd in
  let types := 0 in
  let types := if val >? 0 then Z.lor types POLL_READ else types in
  let types := if val <? UINT64_MAX - 1 then Z.lor types POLL_WRITE else types in
  ret types.

(** ** Pipes (fs/pipe.c) *)

Definition pipe_f_create (pipe_fd flags : Z) : V F Z :=
  let! fd := adhoc_fd_create realfs_fdops in
  update (fun x => set_real_fds (<[fd := pipe_fd]> (real_fds x)) x) ;;
  let! s := gets id in
  upd_stat fd (fun st => set_st_gid (gid (current s)) (set_st_uid (uid (current s)) (set_st_mode (Z.lor S_IFIFO 432) st))) ;;
  f_install fd flags.

(** The ends of the pipe of the host are closed on every error. *)
Definition sys_pipe2 (pipe_addr flags : Z) : C Z :=
  if ctrue (Z.ldiff flags (Z.lor O_CLOEXEC_ O_NONBLOCK_)) then cret _EINVAL
  else
    let* (err, p) := run host_pipe in
    if err <? 0 then cret err
    else
      let close_pipe err := host_close p.1 ;; host_close p.2 ;; ret err in
      let* fp0 := run (pipe_f_create p.1 flags) in
      if fp0 <? 0 then run (close_pipe fp0)
      else
        let* fp1 := run (pipe_f_create p.2 flags) in
        if fp1 <? 0 then run (let! _ := f_close fp0 in close_pipe fp1)
        else
          let* bad := put pipe_addr (le_bytes 4 fp0 ++ le_bytes 4 fp1) in
          if bad then run (let! _ := f_close fp1 in let! _ := f_close fp0 in close_pipe _EFAULT)
          else cret 0.
Definition sys_pipe (pipe_addr : Z) : C Z := sys_pipe2 pipe_addr 0.

End Operations.

(** ** Event counters as numbers *)

(** A counter without machine arithmetic: what a read and a write do to it, and their result; a call that would wait fails. *)
Inductive event := Read (bufsize : Z) | Write (buf : list Z).
Definition ideal (e : event) (c : Z) : Z * list Z * Z :=
  match e with
  | Read bufsize => if bufsize <? 8 then (_EINVAL, [], c) else if c =? 0 then (_EAGAIN, [], c) else (8, le_bytes 8 c, 0)
  | Write buf =>
      let i := le_value (take 8 buf) in
      if (Z.of_nat (length buf) <? 8) || (i =? UINT64_MAX) then (_EINVAL, [], c) else if c + i <? UINT64_MAX then (8, [], c + i) else (_EAGAIN, [], c)
  end.
Fixpoint ideals (l : list event) (c : Z) : list (Z * list Z) * Z :=
  match l with
  | [] => ([], c)
  | e :: l => let '(r, data, c) := ideal e c in let '(rs, c) := ideals l c in ((r, data) :: rs, c)
  end.
(** What a call put in, less what it took out. *)
Definition gain (e : event) (r : Z * list Z) : Z :=
  if r.1 =? 8 then match e with Read _ => - le_value r.2 | Write buf => le_value (take 8 buf) end else 0.
Fixpoint gains (l : list event) (rs : list (Z * list Z)) : Z :=
  match l, rs with e :: l, r :: rs => gain e r + gains l rs | _, _ => 0 end.

Section Counter.
Context {F : Type} {SF : System F} {HA : HasAdhoc F}.
Implicit Types s : vfs F.

Definition call_of (fd : Z) (waits : list wait) (e : event) : V F (Z * list Z) :=
  match e with Read bufsize => eventfd_read fd bufsize waits | Write buf => let! r := eventfd_write fd buf waits in ret (r, []) end.
Fixpoint calls (fd : Z) (l : list event) : V F (list (Z * list Z)) :=
  match l with [] => ret [] | e :: l => let! r := call_of fd [] e in let! rs := calls fd l in ret (r :: rs) end.

(** The file [fd] is open, is not to wait if [nonblock] says so, and counts [c]. *)
Record counts (nonblock : bool) (fd c : Z) s : Prop := {
  co_val : counters (state s) !! fd = Some c;
  co_range : 0 <= c < UINT64_MAX;
  co_fd : exists x, fds s !! fd = Some x /\ has (fd_flags x) O_NONBLOCK_ = nonblock }.

Lemma adhoc_state_set x s : state (set_state x s) = x.
Proof. unfold state, set_state. destruct s. apply get_put_adhoc. Qed.
Lemma val_run nb fd c s : counts nb fd c s -> val_of fd s = Ret c s.
Proof. intros []. unfold val_of. rewrite (bind_step _ _ s s s) by done. unfold id. by rewrite co_val0. Qed.
(** How often the condition was notified. *)
Definition notes (fd : Z) s : Z := default 0 (notices (state s) !! fd).
Lemma noticed_run fd s : noticed fd s = Ret (notes fd s) s.
Proof. done. Qed.

(** Storing a number, notifying those who wait and waking polls up leaves a file that counts the number, and one notification more. *)
Lemma store_bind nb fd c c' evs {A} (a : A) s : counts nb fd c s -> 0 <= c' < UINT64_MAX ->
  exists s', (set_val fd c' ;; notify fd ;; poll_wakeup fd evs ;; ret a) s = Ret a s' /\ counts nb fd c' s' /\ notes fd s' = notes fd s + 1.
Proof.
  intros [Hv Hr (x & Hx & Hn)] Hc. eexists. split; [reflexivity|]. split; [split; [|done|]|].
  - unfold state, set_state. destruct s. cbn. rewrite wakeup_adhoc, !get_put_adhoc. cbn. apply lookup_insert_eq.
  - exists x. split; [|done]. by destruct s.
  - unfold notes, state, set_state. destruct s. cbn. rewrite wakeup_adhoc, !get_put_adhoc. cbn. by rewrite lookup_insert_eq.
Qed.

(** A file that does not wait. *)
Lemma nonblock_run fd blocked c s : counts true fd c s -> eventfd_wait fd blocked false [] s = Ret (if blocked c then _EAGAIN else 0) s.
Proof.
  intros H. cbn [eventfd_wait]. rewrite (bind_step _ _ _ _ _ (val_run _ _ _ _ H)). cbn [orb]. destruct (blocked c); [|done]. destruct H as [_ _ (x & Hx & Hn)].
  rewrite (bind_step _ _ s x s) by (unfold get_fd; rewrite (bind_step _ _ s s s) by done; unfold id; by rewrite Hx). by rewrite Hn.
Qed.
(** Waiting is over when the number is as it should be. *)
Lemma unblocked_run nb fd blocked c waits s : counts nb fd c s -> blocked c = false -> eventfd_wait fd blocked false waits s = Ret 0 s.
Proof. intros H Hb. destruct waits; cbn [eventfd_wait]; rewrite (bind_step _ _ _ _ _ (val_run _ _ _ _ H)), Hb; done. Qed.
(** A stretch of waiting. *)
Lemma asleep_run fd blocked asleep c others err waits s s1 : counts false fd c s -> asleep || blocked c = true -> others s = Ret tt s1 ->
  eventfd_wait fd blocked asleep ((others, err) :: waits) s = if ctrue err then Ret _EINTR s1 else eventfd_wait fd blocked (notes fd s1 =? notes fd s) waits s1.
Proof.
  intros H Hb Ho. cbn [eventfd_wait]. rewrite (bind_step _ _ _ _ _ (val_run _ _ _ _ H)), Hb. destruct H as [_ _ (x & Hx & Hn)].
  rewrite (bind_step _ _ s x s) by (unfold get_fd; rewrite (bind_step _ _ s s s) by done; unfold id; by rewrite Hx). rewrite Hn, andb_false_r.
  rewrite (bind_step _ _ _ _ _ (noticed_run fd s)), (bind_step _ _ _ _ _ Ho). by destruct (ctrue err).
Qed.

Lemma blocked_write i c : 0 <= i < UINT64_MAX -> (c >=? u64 (UINT64_MAX - i)) = negb (c + i <? UINT64_MAX).
Proof. intros Hi. rewrite wrap_small by (unfold in_u, UINT64_MAX in *; lia). zbool; cbn; lia || done. Qed.

(** After the wait, a call does what it does to the number. *)
Lemma read_after nb fd bufsize waits s c s' : (bufsize <? 8) = false -> eventfd_wait fd (fun val => val =? 0) false waits s = Ret 0 s' -> counts nb fd c s' ->
  exists s2, eventfd_read fd bufsize waits s = Ret (8, le_bytes 8 c) s2 /\ counts nb fd 0 s2 /\ notes fd s2 = notes fd s' + 1.
Proof.
  intros Hb E H. unfold eventfd_read. rewrite Hb, (bind_step _ _ _ _ _ E). change (ctrue 0) with false. cbv iota. rewrite (bind_step _ _ _ _ _ (val_run _ _ _ _ H)).
  apply (store_bind nb fd c 0 POLL_WRITE _ _ H). unfold UINT64_MAX. lia.
Qed.
Lemma write_after nb fd buf waits s c s' : let i := le_value (take 8 buf) in (Z.of_nat (length buf) <? 8) = false -> 0 <= i < UINT64_MAX -> (c + i <? UINT64_MAX) = true ->
  eventfd_wait fd (fun val => val >=? u64 (UINT64_MAX - i)) false waits s = Ret 0 s' -> counts nb fd c s' ->
  exists s2, eventfd_write fd buf waits s = Ret 8 s2 /\ counts nb fd (c + i) s2 /\ notes fd s2 = notes fd s' + 1.
Proof.
  intros i Hl Hi Hc E H. unfold eventfd_write. fold i. rewrite Hl. destruct (Z.eqb_spec i UINT64_MAX); [lia|]. rewrite (bind_step _ _ _ _ _ E). change (ctrue 0) with false. cbv iota.
  rewrite (bind_step _ _ _ _ _ (val_run _ _ _ _ H)). pose proof (co_range _ _ _ _ H). rewrite wrap_small by (unfold in_u, UINT64_MAX in *; lia). apply (store_bind nb fd c _ POLL_READ _ _ H). lia.
Qed.

Lemma le_value_range b : Forall (fun x => in_u 8 x) b -> (length b <= 8)%nat -> 0 <= le_value b < 2 ^ 64.
Proof.
  intros Hb Hl. assert (0 <= le_value b < 2 ^ (8 * Z.of_nat (length b))) as H.
  { clear Hl. induction Hb as [|x b Hx Hb IH]; [done|]. unfold Fpu.le_value in *. cbn [fold_right length]. unfold in_u in *. replace (8 * Z.of_nat (S (length b))) with (8 + 8 * Z.of_nat (length b)) by lia. rewrite Z.pow_add_r by lia. change (2 ^ 8) with 256 in *. lia. }
  pose proof (Z.pow_le_mono_r 2 (8 * Z.of_nat (length b)) 64). lia.
Qed.

(** The loop of a call, and the buffer of a write, which has bytes. *)
Definition blocked_by (e : event) : Z -> bool := match e with Read _ => fun val => val =? 0 | Write buf => fun val => val >=? u64 (UINT64_MAX - le_value (take 8 buf)) end.
Definition has_bytes (e : event) : Prop := match e with Write buf => Forall (fun x => in_u 8 x) buf | Read _ => True end.

Lemma write_range buf : Forall (fun x => in_u 8 x) buf -> 0 <= le_value (take 8 buf) < 2 ^ 64.
Proof. intros He. apply le_value_range; [by apply Forall_take|rewrite length_take; lia]. Qed.
(** A call that is refused does not look at the number. *)
Lemma refused_run fd e c waits s : (ideal e c).1.1 = _EINVAL -> call_of fd waits e s = Ret (ideal e c).1 s /\ (ideal e c).2 = c.
Proof.
  destruct e as [bufsize|buf]; cbn [ideal call_of].
  - destruct (bufsize <? 8) eqn:Hb; [intros _; split; [unfold eventfd_read; by rewrite Hb|done]|]. by destruct (c =? 0).
  - destruct (Z.of_nat (length buf) <? 8) eqn:Hl; cbn [orb]; [intros _; split; [unfold eventfd_write; by rewrite Hl|done]|].
    destruct (le_value (take 8 buf) =? UINT64_MAX) eqn:Em; [intros _; split; [unfold eventfd_write; by rewrite Hl, Em|done]|]. by destruct (_ <? UINT64_MAX).
Qed.
(** One that is not waits as long as the number on which it would not succeed. *)
Lemma ideal_blocked e c : has_bytes e -> (ideal e c).1.1 <> _EINVAL -> (ideal e c).1.1 = if blocked_by e c then _EAGAIN else 8.
Proof.
  intros He. destruct e as [bufsize|buf]; cbn [ideal blocked_by].
  - destruct (bufsize <? 8); [done|]. by destruct (c =? 0).
  - destruct (_ || _) eqn:E; [done|]. intros _. apply orb_false_iff in E as [_ Em%Z.eqb_neq]. pose proof (write_range buf He). rewrite blocked_write by (unfold UINT64_MAX in *; lia). by destruct (c + _ <? UINT64_MAX).
Qed.
(** It succeeds once the wait is over, and notifies those who wait. *)
Lemma call_after nb fd e waits s c s' : has_bytes e -> (ideal e c).1.1 = 8 -> eventfd_wait fd (blocked_by e) false waits s = Ret 0 s' -> counts nb fd c s' ->
  exists s2, call_of fd waits e s = Ret (ideal e c).1 s2 /\ counts nb fd (ideal e c).2 s2 /\ notes fd s2 = notes fd s' + 1.
Proof.
  intros He Hr E H. destruct e as [bufsize|buf]; cbn [call_of ideal blocked_by] in *.
  - destruct (bufsize <? 8) eqn:Hs; [done|]. destruct (c =? 0); [done|]. by apply (read_after _ _ _ _ _ _ _ Hs E H).
  - pose proof (write_range buf He) as Hi. set (i := le_value (take 8 buf)) in *. destruct (Z.of_nat (length buf) <? 8) eqn:Hl; [done|]. cbn [orb] in *.
    destruct (i =? UINT64_MAX) eqn:Em; [done|]. apply Z.eqb_neq in Em. assert (0 <= i < UINT64_MAX) as Hi' by (unfold UINT64_MAX in *; lia).
    destruct (c + i <? UINT64_MAX) eqn:Hb; [|done]. destruct (write_after _ _ buf _ _ _ _ Hl Hi' Hb E H) as (s2 & E2 & H2). exists s2. by rewrite (bind_step _ _ _ _ _ E2).
Qed.
(** When the wait fails the call fails and changes nothing more. *)
Lemma call_failed fd e waits s err s' c : (ideal e c).1.1 <> _EINVAL -> ctrue err = true -> eventfd_wait fd (blocked_by e) false waits s = Ret err s' -> call_of fd waits e s = Ret (err, []) s'.
Proof.
  intros Hr Herr E. destruct e as [bufsize|buf]; cbn [call_of ideal blocked_by] in *.
  - destruct (bufsize <? 8) eqn:Hb; [done|]. unfold eventfd_read. by rewrite Hb, (bind_step _ _ _ _ _ E), Herr.
  - destruct (Z.of_nat (length buf) <? 8) eqn:Hl; [done|]. cbn [orb] in Hr. destruct (_ =? UINT64_MAX) eqn:Em; [done|].
    assert (eventfd_write fd buf waits s = Ret err s') as E2 by (unfold eventfd_write; by rewrite Hl, Em, (bind_step _ _ _ _ _ E), Herr). by rewrite (bind_step _ _ _ _ _ E2).
Qed.
Lemma blocked_ideal e c : (ideal e c).1.1 = _EAGAIN -> (ideal e c).1 = (_EAGAIN, []) /\ (ideal e c).2 = c.
Proof. destruct e; cbn [ideal]; [destruct (_ <? 8); [done|]; by destruct (c =? 0)|destruct (_ || _); [done|]; by destruct (_ <? UINT64_MAX)]. Qed.

(** One call on a file that does not wait. *)
Lemma call_ideal fd e c s : counts true fd c s -> match e with Write buf => Forall (fun x => in_u 8 x) buf | Read _ => True end ->
  exists s', call_of fd [] e s = Ret (ideal e c).1 s' /\ counts true fd (ideal e c).2 s'.
Proof.
  intros H He. destruct (decide ((ideal e c).1.1 = _EINVAL)) as [Hr|Hr]; [exists s; destruct (refused_run fd e c [] s Hr) as [-> ->]; done|].
  pose proof (ideal_blocked e c He Hr) as Hb. pose proof (nonblock_run fd (blocked_by e) c s H) as E. destruct (blocked_by e c).
  - destruct (blocked_ideal e c Hb) as [-> ->]. exists s. split; [by apply (call_failed fd e [] s _ s c)|done].
  - destruct (call_after true fd e [] s c s He Hb E H) as (s2 & ? & ? & _). eauto.
Qed.
Lemma ideal_gain e c : 0 <= c < UINT64_MAX -> match e with Write buf => Forall (fun x => in_u 8 x) buf | Read _ => True end ->
  c + gain e (ideal e c).1 = (ideal e c).2.
Proof.
  intros Hc He. unfold gain. destruct e as [bufsize|buf]; cbn [ideal].
  - destruct (bufsize <? 8); [cbn; lia|]. destruct (c =? 0); [cbn; lia|]. cbn [fst snd]. change (8 =? 8) with true. cbv iota. rewrite Fpu.le_bytes_value by (unfold in_u, UINT64_MAX in *; lia). lia.
  - destruct (_ || _); [cbn; lia|]. destruct (_ <? _); cbn; lia.
Qed.

(** C31: an event counter is a number: whatever calls are made on it and in whatever order, reads and writes give what they give on a number without a width, a write that would pass
    2^64 - 2 fails and changes nothing, and what was there and was written is what was read and is still there. *)
Theorem event_counter_refines fd l c s : counts true fd c s -> Forall (fun e => match e with Write buf => Forall (fun x => in_u 8 x) buf | Read _ => True end) l ->
  exists s', calls fd l s = Ret (ideals l c).1 s' /\ counts true fd (ideals l c).2 s' /\ c + gains l (ideals l c).1 = (ideals l c).2.
Proof.
  intros H Hl. revert c s H. induction Hl as [|e l He Hl IH]; intros c s H; [exists s; cbn; split_and!; [done..|lia]|].
  destruct (call_ideal fd e c s H He) as (s1 & E1 & H1). pose proof (ideal_gain e c (co_range _ _ _ _ H) He) as G. cbn [calls ideals]. rewrite (bind_step _ _ _ _ _ E1).
  destruct (ideal e c) as [[r data] c1]. cbn [fst snd] in *. destruct (IH c1 s1 H1) as (s2 & E2 & H2 & G2). exists s2. rewrite (bind_step _ _ _ _ _ E2). destruct (ideals l c1) as [rs c2]. cbn [fst snd gains] in *.
  split; [done|]. split; [done|]. lia.
Qed.

(** What another thread does: a call on the same file, that does not have to wait. *)
Definition other (fd : Z) (e : event) : wait := (let! _ := call_of fd [] e in ret tt, 0).
Definition no_wait (e : event) (c : Z) : Prop := has_bytes e /\ (ideal e c).1.1 <> _EAGAIN.
(** The calls of others, from the number [c] on, as long as [e] has to wait on the number. *)
Fixpoint waits_for (e : event) (l : list event) (c : Z) : Prop :=
  (ideal e c).1.1 = _EAGAIN /\ match l with [] => True | e' :: l => no_wait e' c /\ (l = [] \/ waits_for e l (ideal e' c).2) end.

Lemma other_run fd e c s : counts false fd c s -> no_wait e c ->
  exists s', fst (other fd e) s = Ret tt s' /\ counts false fd (ideal e c).2 s' /\ ((ideal e c).2 = c \/ notes fd s' = notes fd s + 1).
Proof.
  intros H [He Hn]. cbn [fst other]. destruct (decide ((ideal e c).1.1 = _EINVAL)) as [Hr|Hr].
  - destruct (refused_run fd e c [] s Hr) as [E Ec]. exists s. rewrite (bind_step _ _ _ _ _ E). split; [done|]. rewrite Ec. split; [done|by left].
  - pose proof (ideal_blocked e c He Hr) as Hb. destruct (blocked_by e c) eqn:Ebl; [done|].
    destruct (call_after false fd e [] s c s He Hb (unblocked_run _ _ _ _ _ _ H Ebl) H) as (s2 & E & H2 & Hno). exists s2. rewrite (bind_step _ _ _ _ _ E). split; [done|]. split; [done|by right].
Qed.

(** Others take their turns while the thread sleeps; when they made the number what it waits for it is awake. *)
Lemma sleep_run fd e l : forall asleep c s, counts false fd c s -> has_bytes e -> waits_for e l c -> l <> [] ->
  exists s', counts false fd (ideals l c).2 s' /\
    ((ideal e (ideals l c).2).1.1 = 8 -> forall ws, eventfd_wait fd (blocked_by e) asleep ((other fd <$> l) ++ ws) s = Ret 0 s') /\
    (forall err, ctrue err = true -> eventfd_wait fd (blocked_by e) asleep ((other fd <$> l) ++ [(ret tt, err)]) s = Ret _EINTR s' \/ (ideal e (ideals l c).2).1.1 <> _EAGAIN).
Proof.
  induction l as [|e1 l IH]; intros asleep c s H He W Hne; [done|]. cbn [waits_for] in W. destruct W as (Hb & Hn1 & W).
  assert (blocked_by e c = true) as Hbl by (pose proof (ideal_blocked e c He ltac:(by rewrite Hb)) as E; rewrite Hb in E; by destruct (blocked_by e c)).
  destruct (other_run fd e1 c s H Hn1) as (s1 & E1 & H1 & Hno). cbn [fmap list_fmap app ideals].
  assert (forall ws, eventfd_wait fd (blocked_by e) asleep (other fd e1 :: ws) s = eventfd_wait fd (blocked_by e) (notes fd s1 =? notes fd s) ws s1) as Estep.
  { intros ws. unfold other in E1 |- *. cbn [fst] in E1. rewrite (asleep_run fd _ asleep c _ 0 ws s s1 H) by (done || by rewrite Hbl, orb_true_r). done. }
  destruct (ideal e1 c) as [[r d] c1] eqn:Ei. cbn [fst snd] in *. destruct W as [->|W].
  - exists s1. cbn [ideals snd]. split; [done|]. split.
    + intros H8 ws. rewrite Estep. cbn [fmap list_fmap app]. destruct Hno as [->|Hno]; [by rewrite Hb in H8|]. rewrite Hno, (proj2 (Z.eqb_neq _ _)) by lia.
      eapply unblocked_run; [exact H1|]. pose proof (ideal_blocked e c1 He ltac:(by rewrite H8)) as E. rewrite H8 in E. by destruct (blocked_by e c1).
    + intros err Herr. destruct (decide ((ideal e c1).1.1 = _EAGAIN)) as [Ha|Ha]; [left|by right]. rewrite Estep. cbn [fmap list_fmap app].
      assert (blocked_by e c1 = true) as Hb1 by (pose proof (ideal_blocked e c1 He ltac:(by rewrite Ha)) as E; rewrite Ha in E; by destruct (blocked_by e c1)).
      rewrite (asleep_run fd _ _ c1 (ret tt) err [] s1 s1 H1) by (done || by rewrite Hb1, orb_true_r). by rewrite Herr.
  - destruct (decide (l = [])) as [->|Hl].
    { exists s1. cbn [ideals snd waits_for] in *. destruct W as [Ha _]. split; [done|]. split; [intros H8; by rewrite Ha in H8|]. intros err Herr. left. rewrite Estep. cbn [fmap list_fmap app].
      assert (blocked_by e c1 = true) as Hb1 by (pose proof (ideal_blocked e c1 He ltac:(by rewrite Ha)) as E; rewrite Ha in E; by destruct (blocked_by e c1)).
      rewrite (asleep_run fd _ _ c1 (ret tt) err [] s1 s1 H1) by (done || by rewrite Hb1, orb_true_r). by rewrite Herr. }
    destruct (IH (notes fd s1 =? notes fd s) c1 s1 H1 He W Hl) as (s' & Hc & Hend & Hint). destruct (ideals l c1) as [rs c2] eqn:El. cbn [fst snd] in *.
    exists s'. split; [done|]. split; [intros H8 ws; rewrite Estep; by apply Hend|]. intros err Herr. rewrite Estep. by apply Hint.
Qed.


End Counter.

(** ** Making files *)

Section Making.
Context {F : Type} {SF : System F} {HA : HasAdhoc F}.
Implicit Types s : vfs F.

(** The mount is there, and the process has a table with room. *)
Record can_make s (x : fdtable) : Prop := {
  cm_mount : exists m, List.find (fun m => m_self m =? adhoc_mount) (mounts s) = Some m;
  cm_table : tables s !! files (current s) = Some x;
  cm_ok : table_ok x;
  cm_limit : limit_ok s;
  cm_room : lowest_free x 0 < nofile (current s) }.

Lemma adhoc_fd_create_run ops s x : can_make s x ->
  exists s', adhoc_fd_create ops s = Ret (next s) s' /\ fds s' !! next s = Some (mk_fd 1 0 0 ops 0 (Some adhoc_mount) None None None) /\ stats (state s') !! next s = Some no_stat /\
    counters (state s') = counters (state s) /\ tables s' = tables s /\ current s' = current s /\ real_fds (state s') = real_fds (state s).
Proof.
  intros [[m Hm] _ _ _ _]. unfold adhoc_fd_create. set (s1 := set_fds (<[next s := mk_fd 1 0 0 ops 0 None None None None]> (fds (set_next (next s + 1) s))) (set_next (next s + 1) s)).
  assert (fd_create ops s = Ret (next s) s1) as E by done. rewrite (bind_step _ _ _ _ _ E).
  set (up := fun m => set_m_refcount (u32 (m_refcount m + 1)) m). set (s2 := set_mounts ((fun m => if m_self m =? adhoc_mount then up m else m) <$> mounts s1) s1).
  assert (mount_retain adhoc_mount s1 = Ret tt s2) as E2 by (unfold mount_retain, upd_mount; rewrite (bind_step _ _ s1 m s1); [done|]; unfold get_mount; rewrite (bind_step _ _ s1 s1 s1) by done; unfold id; destruct s; cbn in *; by rewrite Hm).
  rewrite (bind_step _ _ _ _ _ E2). assert (fds s2 !! next s = Some (mk_fd 1 0 0 ops 0 None None None None)) as Hx2 by (destruct s; apply lookup_insert_eq).
  set (s3 := set_fds (<[next s := mk_fd 1 0 0 ops 0 (Some adhoc_mount) None None None]> (fds s2)) s2).
  assert (upd_fd (next s) (set_fd_mount (Some adhoc_mount)) s2 = Ret tt s3) as E3 by (unfold upd_fd, get_fd; rewrite (bind_step _ _ s2 (mk_fd 1 0 0 ops 0 None None None None) s2); [done|]; rewrite (bind_step _ _ s2 s2 s2) by done; unfold id; by rewrite Hx2).
  rewrite (bind_step _ _ _ _ _ E3). eexists. split; [reflexivity|]. rewrite adhoc_state_set. destruct s. cbn. split_and!; [apply lookup_insert_eq..|done|done|done|done].
Qed.

(** Putting a file in the table changes neither what is in the files nor the counters; its flags are those asked for. *)
Lemma f_install_run fd flags s x o : tables s !! files (current s) = Some x -> table_ok x -> limit_ok s -> lowest_free x 0 < nofile (current s) ->
  fds s !! fd = Some o -> fd_flags o = 0 -> ops_setflags (fdops (fd_ops_of o)) = None ->
  exists s' y o', f_install fd flags s = Ret (lowest_free x 0) s' /\ fsd s' = fsd s /\ tables s' !! files (current s) = Some y /\ ft_files y !! Z.to_nat (lowest_free x 0) = Some (Some fd) /\
    fds s' !! fd = Some o' /\ has (fd_flags o') O_NONBLOCK_ = has flags O_NONBLOCK_.
Proof.
  intros Hx Hok Hlim Hroom Ho Hfl Hset. set (f := lowest_free x 0) in *. pose proof Hok as [Hsz Hcl]. destruct (lowest_free_spec x 0) as (Hf1 & Hf2 & Hf3); [lia|]. fold f in Hf1, Hf2, Hf3.
  unfold f_install, my_files. rewrite (bind_step _ _ s (files (current s)) s) by done. pose proof (f_install_start_run fd 0 s x Hx Hok Hlim ltac:(lia)) as E. cbv zeta in E. fold f in E.
  destruct (Z.ltb_spec f (nofile (current s))); [|lia]. rewrite (bind_step _ _ _ _ _ E). destruct (Z.geb_spec f 0); [|lia]. clear E.
  unfold limit_ok in Hlim. destruct (grow_ok x (f + 1) Hok ltac:(lia)) as [[Hgs Hgc] Hgm]. set (y := Fd.put fd f (grow x (f + 1))). set (s1 := set_tables (<[files (current s) := y]> (tables s)) s).
  assert (tables s1 !! files (current s) = Some y) as Hy1 by (destruct s; apply lookup_insert_eq). assert (ft_files y !! Z.to_nat f = Some (Some fd)) as Hfy.
  { unfold y, Fd.put, set_ft_cloexec, set_ft_files. cbn. apply list_lookup_insert_eq. unfold ft_size in *. lia. }
  assert (exists s2 y2, (if has flags O_CLOEXEC_ then upd_cloexec (files (current s)) (bit_set f) else ret tt) s1 = Ret tt s2 /\ fsd s2 = fsd s /\ fds s2 = fds s /\ tables s2 !! files (current s) = Some y2 /\ ft_files y2 = ft_files y) as (s2 & y2 & E2 & Hd2 & Hfd2 & Hy2 & Hf2').
  { destruct (has flags O_CLOEXEC_); [|exists s1, y; by destruct s]. unfold upd_cloexec. rewrite (bind_step _ _ _ _ _ (get_table_run _ _ _ Hy1)). unfold bit_set. pose proof (bits_size_enough (ft_size (grow x (f + 1)))).
    assert (length (ft_cloexec y) = length (ft_cloexec (grow x (f + 1)))) as -> by (unfold y, Fd.put, set_ft_cloexec, set_ft_files; cbn; apply length_insert).
    rewrite wrap_small by (unfold in_u; lia). destruct (Z.ltb_spec f (Z.of_nat (length (ft_cloexec (grow x (f + 1)))))); [|lia]. rewrite (bind_step _ _ s1 (<[Z.to_nat f := true]> (ft_cloexec y)) s1) by done.
    rewrite (upd_table_run _ _ _ _ Hy1). eexists _, _. split; [reflexivity|]. split_and!; [by destruct s|by destruct s|destruct s; apply lookup_insert_eq|by destruct y]. }
  rewrite (bind_step _ _ _ _ _ E2). rewrite <- Hfd2 in Ho. destruct (has flags O_NONBLOCK_) eqn:Hn.
  - set (o' := set_fd_flags (Z.lor (Z.ldiff (fd_flags o) FD_ALLOWED_FLAGS) (Z.land O_NONBLOCK_ FD_ALLOWED_FLAGS)) o). set (s3 := set_fds (<[fd := o']> (fds s2)) s2).
    assert (get_fd fd s2 = Ret o s2) as Eg by (unfold get_fd; rewrite (bind_step _ _ s2 s2 s2) by done; unfold id; by rewrite Ho).
    assert (fd_setflags fd O_NONBLOCK_ s2 = Ret 0 s3) as E3 by (unfold fd_setflags; rewrite (bind_step _ _ _ _ _ Eg), Hset; unfold upd_fd; rewrite (bind_step _ _ s2 tt s3); [done|by rewrite (bind_step _ _ _ _ _ Eg)]).
    exists s3, y2, o'. rewrite (bind_step _ _ s2 tt s3) by (by rewrite (bind_step _ _ _ _ _ E3)). split; [done|]. split; [by destruct s2|]. split; [by destruct s2|]. split; [by rewrite Hf2'|]. split; [destruct s2; apply lookup_insert_eq|].
    unfold o'. destruct o. cbn in *. subst. done.
  - exists s2, y2, o. rewrite (bind_step _ _ s2 tt s2) by done. split; [done|]. split_and!; [done|done|by rewrite Hf2'|done|by rewrite Hfl].
Qed.

(** A new event counter is an open file at the lowest free descriptor that counts what was asked for. *)
Theorem eventfd2_counts initval flags s x : can_make s x -> in_u 32 initval -> Z.ldiff flags (Z.lor O_CLOEXEC_ O_NONBLOCK_) = 0 -> ops_setflags (fdops eventfd_ops) = None ->
  exists s' y, sys_eventfd2 initval flags s = Ret (lowest_free x 0) s' /\ tables s' !! files (current s) = Some y /\ ft_files y !! Z.to_nat (lowest_free x 0) = Some (Some (next s)) /\
    counts (has flags O_NONBLOCK_) (next s) initval s'.
Proof.
  intros Hc Hi Hfl Hset. destruct (adhoc_fd_create_run eventfd_ops s x Hc) as (s1 & E1 & Hx1 & _ & _ & Ht1 & Hc1 & _). destruct Hc as [_ Hx Hok Hlim Hroom]. unfold sys_eventfd2. rewrite Hfl. change (ctrue 0) with false. cbv iota.
  rewrite (bind_step _ _ _ _ _ E1). set (s2 := set_state (set_counters (<[next s := initval]> (counters (state s1))) (state s1)) s1). rewrite (bind_step _ _ s1 tt s2) by done.
  destruct (f_install_run (next s) flags s2 x (mk_fd 1 0 0 eventfd_ops 0 (Some adhoc_mount) None None None)) as (s3 & y & o & E3 & Hd & Hy & Hfy & Ho & Hnb);
    [destruct s1; cbn in *; congruence|done|unfold limit_ok in *; destruct s1; cbn in *; congruence|destruct s1; cbn in *; congruence|by destruct s1|done|done|].
  exists s3, y. split; [exact E3|]. split; [rewrite <- Hy; destruct s1; cbn in *; congruence|]. split; [done|]. split; [|unfold in_u, UINT64_MAX in *; lia|eauto]. unfold state. rewrite Hd. unfold s2. change (get_adhoc (fsd ?s)) with (state s). rewrite adhoc_state_set. apply lookup_insert_eq.
Qed.

(** The attributes of such a file can be changed, but not its type or size. *)
Theorem adhoc_attributes fd s st mode : stats (state s) !! fd = Some st -> in_u 32 mode ->
  exists s', adhoc_fsetattr fd (attr_mode mode) s = Ret 0 s' /\ adhoc_fstat fd s' = Ret (inr (set_st_mode (Z.lor (Z.land (st_mode st) S_IFMT) (Z.ldiff mode S_IFMT)) st)) s' /\
    (forall t, S_ISTYPE t (Z.lor (Z.land (st_mode st) S_IFMT) (Z.ldiff mode S_IFMT)) = S_ISTYPE t (st_mode st)).
Proof.
  intros H Hm. assert (stat_of fd s = Ret st s) as E by (unfold stat_of; rewrite (bind_step _ _ s s s) by done; unfold id; by rewrite H). cbn [adhoc_fsetattr]. unfold upd_stat. eexists. split; [|split].
  - erewrite bind_step; [reflexivity|]. by rewrite (bind_step _ _ _ _ _ E).
  - unfold adhoc_fstat, stat_of, bind, gets, id, deref. rewrite adhoc_state_set. cbn [stats set_stats]. by rewrite lookup_insert_eq.
  - intros t. unfold S_ISTYPE. f_equal. rewrite Z.land_lor_distr_l. apply Z.bits_inj'. intros i Hi. rewrite Z.lor_spec, !Z.land_spec, Z.ldiff_spec. destruct (Z.testbit S_IFMT i), (Z.testbit mode i), (Z.testbit (st_mode st) i); done.
Qed.

End Making.

(** ** Two threads and a counter *)

Module Demo.
#[local] Instance demo_adhoc : HasAdhoc adhoc.
Proof.
  refine {| get_adhoc x := x; put_adhoc x _ := x; adhoc_mount := 9; eventfd_ops := 20; realfs_fdops := 21; host_pipe := ret (0, (3, 4)); host_close _ := ret tt; wakeup _ _ x := x |}; done.
Defined.
(** An event counter at 50 with the flags given. *)
Definition counting (flags c : Z) : vfs adhoc :=
  mk_vfs (mk_adhoc ∅ {[ 50 := c ]} ∅ ∅) [] {[ 50 := mk_fd 1 flags 0 20 0 None None None None ]} ∅ ∅ ∅ Tmpfs.Demo.user0 60.
Lemma counting_ok flags c : 0 <= c < UINT64_MAX -> counts (has flags O_NONBLOCK_) 50 c (counting flags c).
Proof. intros H. split; [done|done|by eexists]. Qed.

Lemma five_bytes : Forall (fun x => in_u 8 x) (le_bytes 8 5).
Proof. change (le_bytes 8 5) with [5; 0; 0; 0; 0; 0; 0; 0]. repeat (apply Forall_cons; split; [unfold in_u; lia|]). constructor. Qed.

Lemma event_counter_refines_witness : exists s', calls 50 [Write (le_bytes 8 5); Read 8; Read 8] (counting O_NONBLOCK_ 2) = Ret [(8, []); (8, le_bytes 8 7); (_EAGAIN, [])] s' /\ counts true 50 0 s'.
Proof.
  destruct (event_counter_refines 50 [Write (le_bytes 8 5); Read 8; Read 8] 2 (counting O_NONBLOCK_ 2) (counting_ok O_NONBLOCK_ 2 ltac:(unfold UINT64_MAX; lia))) as (s' & E & H & _);
    [apply Forall_cons; split; [exact five_bytes|by repeat constructor]|]. exists s'. split; [rewrite E; by vm_compute|exact H].
Defined.

End Demo.
End Adhoc.
