(* ===== verification/Timers.v ===== *)
(** * Timers (util/timer.c, util/timer.h)

    A timer is an object with a lock and, while it is running, a thread that sleeps until the timer is due, calls back, and goes on if there is an interval.  Its owner sets it,
    from any thread, and frees it.  The parts of the functions that run under the lock are functions on the object; the thread, the owner and the clock are a machine that
    takes their steps in any order.  Times are seconds and nanoseconds as numbers without a bound. *)

From S2P Require Import Prelude.
#[local] Open Scope Z_scope.

Module Timers.

(** ** Times (util/timer.h) *)

Record timespec := mk_timespec { tv_sec : Z; tv_nsec : Z }.

Definition timespec_add (x y : timespec) : timespec :=
  let sec := tv_sec x + tv_sec y in
  let nsec := tv_nsec x + tv_nsec y in
  if nsec >=? 1000000000 then mk_timespec (sec + 1) (nsec - 1000000000) else mk_timespec sec nsec.
Definition timespec_subtract (x y : timespec) : timespec :=
  let x := if tv_nsec x <? tv_nsec y then mk_timespec (tv_sec x - 1) (tv_nsec x + 1000000000) else x in
  mk_timespec (tv_sec x - tv_sec y) (tv_nsec x - tv_nsec y).
Definition timespec_is_zero (t : timespec) : bool := (tv_sec t =? 0) && (tv_nsec t =? 0).
Definition timespec_positive (t : timespec) : bool := (tv_sec t >? 0) || ((tv_sec t =? 0) && (tv_nsec t >? 0)).
(** Division of C rounds towards 0. *)
Definition timespec_normalize (t : timespec) : timespec :=
  mk_timespec (tv_sec t + Z.quot (tv_nsec t) 1000000000) (Z.rem (tv_nsec t) 1000000000).

(** ** Timers (util/timer.c) *)

(** [struct timer_spec]. *)
Record timer_spec := mk_spec { value : timespec; spec_interval : timespec }.

(** [struct timer], without the callback and its argument, the lock and the thread. *)
Record timer := mk_timer {
  start : timespec;
  end_ : timespec;
  interval : timespec;
  active : bool;
  thread_running : bool;
  dead : bool }.

(** The times are what [malloc] left there. *)
Definition timer_new (junk_start junk_end junk_interval : timespec) : timer := mk_timer junk_start junk_end junk_interval false false false.

(** What is done about the thread. *)
Inductive action := do_nothing | interrupt_thread | start_thread.

Definition timer_set (now : timespec) (t : timer) (spec : timer_spec) : timer_spec * timer * action :=
  let oldspec := mk_spec (timespec_subtract (end_ t) now) (interval t) in
  let active' := negb (timespec_is_zero (value spec)) in
  let t' running := mk_timer now (timespec_add now (value spec)) (spec_interval spec) active' running (dead t) in
  if thread_running t then (oldspec, t' true, interrupt_thread)
  else if active' then (oldspec, t' true, start_thread)
  else (oldspec, t' false, do_nothing).

(** [None] is the object after [free]; the signal is sent when it is left to the thread. *)
Definition timer_free (t : timer) : option timer * action :=
  if thread_running t then (Some (mk_timer (start t) (end_ t) (interval t) false true true), interrupt_thread)
  else (None, do_nothing).

(** One turn of the loop of [timer_thread], which holds the lock: it releases it to sleep, or goes on at the top with the timer set to its next time, or ends.
    [called] says that the callback was called. *)
Inductive turn := go_to_sleep (remaining : timespec) | again (called : bool) (t : timer) | finish (called : bool) (t : option timer).
Definition thread_turn (now : timespec) (t : timer) : turn :=
  let remaining := timespec_subtract (end_ t) now in
  if active t && timespec_positive remaining then go_to_sleep remaining
  else if active t && timespec_positive (interval t) then
    again (active t) (mk_timer (end_ t) (timespec_add (end_ t) (interval t)) (interval t) (active t) (thread_running t) (dead t))
  else finish (active t) (if dead t then None else Some (mk_timer (start t) (end_ t) (interval t) (active t) false (dead t))).

(** ** The machine *)

(** Where the thread is: not there; about to take the lock; at the top of the loop with the lock; between releasing the lock and sleeping; asleep until a time. *)
Inductive place := nowhere | wants_lock | has_lock | leaving (remaining : timespec) | asleep (until : timespec).

(** The timer, [None] when it was freed; whether the owner may still use it; the clock; when the callback was called, the last one first; and whether a freed timer was used. *)
Record machine := mk_machine {
  object : option timer;
  thread : place;
  owned : bool;
  now : timespec;
  calls : list timespec;
  used_freed : bool }.

(** A signal ends a sleep and does nothing otherwise. *)
Definition interrupt (p : place) : place := match p with asleep _ => wants_lock | _ => p end.
Definition act (a : action) (p : place) : place := match a with do_nothing => p | interrupt_thread => interrupt p | start_thread => wants_lock end.

(** The count of nanoseconds. *)
Definition ns (t : timespec) : Z := tv_sec t * 1000000000 + tv_nsec t.
Definition normal (t : timespec) : Prop := 0 <= tv_nsec t < 1000000000.

Definition set_object (o : option timer) (m : machine) : machine := mk_machine o (thread m) (owned m) (now m) (calls m) (used_freed m).
Definition set_thread (p : place) (m : machine) : machine := mk_machine (object m) p (owned m) (now m) (calls m) (used_freed m).
Definition called_back (b : bool) (m : machine) : machine := mk_machine (object m) (thread m) (owned m) (now m) (if b then now m :: calls m else calls m) (used_freed m).

(** What can be seen of a step: the clock goes on to a time, the owner sets the timer for a time and an interval or frees it, the timer calls back; or nothing. *)
Inductive event := Tick (t : timespec) | Set_ (value interval : timespec) | Free | Call.
Definition calling (b : bool) : option event := if b then Some Call else None.

Inductive step : machine -> option event -> machine -> Prop :=
  | step_clock m t : normal t -> ns (now m) <= ns t -> step m (Some (Tick t)) (mk_machine (object m) (thread m) (owned m) t (calls m) (used_freed m))
  | step_set m t spec old t' a : owned m = true -> thread m <> has_lock -> object m = Some t -> timer_set (now m) t spec = (old, t', a) ->
      normal (value spec) -> 0 <= tv_sec (value spec) -> normal (spec_interval spec) -> 0 <= tv_sec (spec_interval spec) ->
      step m (Some (Set_ (value spec) (spec_interval spec))) (set_thread (act a (thread m)) (set_object (Some t') m))
  | step_free m t o a : owned m = true -> thread m <> has_lock -> object m = Some t -> timer_free t = (o, a) ->
      step m (Some Free) (mk_machine o (act a (thread m)) false (now m) (calls m) (used_freed m))
  | step_lock m : thread m = wants_lock -> step m None (set_thread has_lock m)
  | step_sleep m t r : thread m = has_lock -> object m = Some t -> thread_turn (now m) t = go_to_sleep r -> step m None (set_thread (leaving r) m)
  | step_again m t b t' : thread m = has_lock -> object m = Some t -> thread_turn (now m) t = again b t' -> step m (calling b) (called_back b (set_object (Some t') m))
  | step_finish m t b o : thread m = has_lock -> object m = Some t -> thread_turn (now m) t = finish b o -> step m (calling b) (set_thread nowhere (called_back b (set_object o m)))
  | step_nanosleep m r : thread m = leaving r -> step m None (set_thread (asleep (timespec_add (now m) r)) m)
  | step_wake m t : thread m = asleep t -> ns t <= ns (now m) -> step m None (set_thread wants_lock m)
  | step_signal m t : thread m = asleep t -> step m None (set_thread wants_lock m)
  | step_use_freed m : object m = None -> owned m = true \/ thread m = wants_lock \/ thread m = has_lock -> step m None (mk_machine None (thread m) (owned m) (now m) (calls m) true).

(** What is seen of a run. *)
Inductive trace : machine -> list event -> machine -> Prop :=
  | trace_nil m : trace m [] m
  | trace_cons m o m1 l m2 : step m o m1 -> trace m1 l m2 -> trace m (match o with Some e => e :: l | None => l end) m2.

(** A timer that was just made. *)
Definition initial (m : machine) : Prop :=
  exists s e i, object m = Some (timer_new s e i) /\ thread m = nowhere /\ owned m = true /\ normal (now m) /\ calls m = [] /\ used_freed m = false.
Definition reachable (m : machine) : Prop := exists m0 l, initial m0 /\ trace m0 l m.

(** ** Arithmetic of times *)

Lemma add_ns x y : ns (timespec_add x y) = ns x + ns y.
Proof. unfold timespec_add, ns. zbool; cbn; lia. Qed.
Lemma subtract_ns x y : ns (timespec_subtract x y) = ns x - ns y.
Proof. unfold timespec_subtract, ns. zbool; cbn; lia. Qed.
Lemma add_normal x y : normal x -> normal y -> normal (timespec_add x y).
Proof. unfold timespec_add, normal. zbool; cbn; lia. Qed.
Lemma subtract_normal x y : normal x -> normal y -> normal (timespec_subtract x y).
Proof. unfold timespec_subtract, normal. zbool; cbn; lia. Qed.
Lemma positive_ns t : normal t -> timespec_positive t = (0 <? ns t).
Proof. unfold timespec_positive, normal, ns. intros H. apply eq_true_iff_eq. zbool; cbn; split; intros; try done; lia. Qed.
Lemma zero_ns t : normal t -> timespec_is_zero t = (ns t =? 0).
Proof. unfold timespec_is_zero, normal, ns. intros H. apply eq_true_iff_eq. zbool; cbn; split; intros; try done; lia. Qed.
Lemma normalize_ns t : ns (timespec_normalize t) = ns t.
Proof. unfold timespec_normalize, ns. cbn. pose proof (Z.quot_rem' (tv_nsec t) 1000000000). lia. Qed.

(** ** What a timer promises *)

(** A timer that is armed is due at a time, and again after an interval unless that is 0; times are in nanoseconds. *)
Record promise := mk_promise { armed : option (Z * Z); fired : list Z; clock : Z }.
(** What an event makes of it, [None] when the event must not happen: setting a timer for a time from now arms it, for 0 disarms it; it calls back when it is armed and due, and is then due again
    an interval after it was due, whenever the call came. *)
Definition promised (p : promise) (e : event) : option promise :=
  match e with
  | Tick t => if clock p <=? ns t then Some (mk_promise (armed p) (fired p) (ns t)) else None
  | Set_ v i => Some (mk_promise (if ns v =? 0 then None else Some (clock p + ns v, ns i)) (fired p) (clock p))
  | Free => Some (mk_promise None (fired p) (clock p))
  | Call =>
      match armed p with
      | Some (d, i) => if d <=? clock p then Some (mk_promise (if 0 <? i then Some (d + i, i) else None) (clock p :: fired p) (clock p)) else None
      | None => None
      end
  end.
Fixpoint all_promised (p : promise) (l : list event) : option promise :=
  match l with
  | [] => Some p
  | e :: l => p' ← promised p e; all_promised p' l
  end.

(** The timer is armed while it is active and has a thread. *)
Definition armed_of (t : timer) : option (Z * Z) := if active t && thread_running t then Some (ns (end_ t), ns (interval t)) else None.
Definition promise_of (m : machine) : promise := mk_promise (object m ≫= armed_of) (ns <$> calls m) (ns (now m)).

(** ** Invariant *)

Definition is_there (p : place) : bool := match p with nowhere => false | _ => true end.
Record timer_ok (t : timer) (m : machine) : Prop := {
  tk_thread : thread_running t = is_there (thread m);
  tk_dead : dead t = negb (owned m);
  tk_freed : owned m = false -> active t = false /\ thread_running t = true;
  tk_times : active t = true -> thread_running t = true -> normal (end_ t) /\ normal (interval t) /\ 0 <= tv_sec (interval t) }.
Record machine_ok (m : machine) : Prop := {
  mk_clock : normal (now m);
  mk_object : match object m with Some t => timer_ok t m | None => thread m = nowhere /\ owned m = false end;
  mk_used : used_freed m = false }.

Lemma initial_ok m : initial m -> machine_ok m.
Proof. intros (s & e & i & Ho & Ht & Hw & Hn & Hc & Hu). split; [done| |done]. rewrite Ho. split; cbn; rewrite ?Ht, ?Hw; done. Qed.

(** What [timer_set] does to the object. *)
Lemma timer_set_inv n t spec old t' a : timer_set n t spec = (old, t', a) ->
  end_ t' = timespec_add n (value spec) /\ interval t' = spec_interval spec /\ active t' = negb (timespec_is_zero (value spec)) /\ dead t' = dead t /\
  thread_running t' = thread_running t || active t' /\ a = if thread_running t then interrupt_thread else if active t' then start_thread else do_nothing.
Proof. unfold timer_set. destruct (thread_running t) eqn:Er, (timespec_is_zero (value spec)) eqn:Ez; cbn; intros [= <- <- <-]; cbn; split_and!; done. Qed.
Lemma act_there a p running active' : running = is_there p -> a = (if running then interrupt_thread else if active' : bool then start_thread else do_nothing) ->
  is_there (act a p) = running || active'.
Proof. intros -> ->. by destruct p, active'. Qed.

Lemma step_ok m o m' : machine_ok m -> step m o m' -> machine_ok m'.
Proof.
  intros [Hc Ho Hu] S. inversion S as [m0 t Hn Hle|m0 t spec old t' a Hown Hnl Hob E Hv Hv0 Hi Hi0|m0 t o' a Hown Hnl Hob E|m0 Ht|m0 t r Ht Hob E|m0 t b t' Ht Hob E|m0 t b o' Ht Hob E|m0 r Ht|m0 t Ht Hle|m0 t Ht|m0 Hob Huse]; subst; try rewrite Hob in Ho.
  - split; [done| |done]. cbn. destruct (object m) as [t0|]; [|done]. by destruct Ho.
  - destruct Ho as [H1 H2 H3 H4]. destruct (timer_set_inv _ _ _ _ _ _ E) as (Ee & Ei & Ea & Ed & Er & Eact). split; [done| |done]. cbn. split; cbn.
    + rewrite Er. symmetry. by apply act_there.
    + by rewrite Ed.
    + congruence.
    + intros _ _. rewrite Ee, Ei. split; [by apply add_normal|done].
  - destruct Ho as [H1 H2 H3 H4]. unfold timer_free in E. destruct (thread_running t) eqn:Er; injection E as <- <-; (split; [done| |done]); cbn.
    + split; cbn; [|done|done|done]. by destruct (thread m).
    + split; [|done]. by destruct (thread m).
  - split; [done| |done]. cbn. destruct (object m) as [t0|]; [|destruct Ho; congruence]. destruct Ho as [H1 H2 H3 H4]. split; cbn; [by rewrite H1, Ht|done..].
  - split; [done| |done]. cbn. rewrite Hob. destruct Ho as [H1 H2 H3 H4]. split; cbn; [by rewrite H1, Ht|done..].
  - destruct Ho as [H1 H2 H3 H4]. unfold thread_turn in E. destruct (active t && timespec_positive (timespec_subtract _ _)) eqn:E1; [done|].
    destruct (active t && timespec_positive (interval t)) eqn:E2; [|done]. injection E as <- <-. apply andb_true_iff in E2 as [Ea E2]. split; [done| |done]. cbn.
    split; cbn; [by rewrite H1, Ht|done|done|]. intros _ Hr. destruct (H4 Ea Hr) as (? & ? & ?). split; [by apply add_normal|done].
  - destruct Ho as [H1 H2 H3 H4]. unfold thread_turn in E. destruct (active t && timespec_positive (timespec_subtract _ _)); [done|]. destruct (active t && timespec_positive (interval t)); [done|].
    injection E as <- <-. split; [done| |done]. cbn. rewrite H2. destruct (owned m) eqn:Ew; cbn; [split; cbn; rewrite ?Ew; done|done].
  - split; [done| |done]. cbn. destruct (object m) as [t0|]; [|destruct Ho; congruence]. destruct Ho as [H1 H2 H3 H4]. split; cbn; [by rewrite H1, Ht|done..].
  - split; [done| |done]. cbn. destruct (object m) as [t0|]; [|destruct Ho; congruence]. destruct Ho as [H1 H2 H3 H4]. split; cbn; [by rewrite H1, Ht|done..].
  - split; [done| |done]. cbn. destruct (object m) as [t0|]; [|destruct Ho; congruence]. destruct Ho as [H1 H2 H3 H4]. split; cbn; [by rewrite H1, Ht|done..].
  - exfalso. destruct Ho as [Hn Hw]. destruct Huse as [H|[H|H]]; congruence.
Qed.
Lemma run_ok m l m' : trace m l m' -> machine_ok m -> machine_ok m'.
Proof. induction 1 as [|a o b l c S _ IH]; [done|]. intros H. apply IH. by eapply step_ok. Qed.
Lemma reachable_ok m : reachable m -> machine_ok m.
Proof. intros (m0 & l & Hi & R). eapply run_ok; [exact R|by apply initial_ok]. Qed.

(** ** Refinement *)

(** The turn of a thread that calls back, or ends without. *)
Lemma due_now n t : normal n -> normal (end_ t) -> timespec_positive (timespec_subtract (end_ t) n) = false -> ns (end_ t) <= ns n.
Proof. intros Hn He. rewrite positive_ns by by apply subtract_normal. rewrite subtract_ns. intros ?%Z.ltb_ge. lia. Qed.

Lemma step_refines m o m' : machine_ok m -> step m o m' -> match o with Some e => promised (promise_of m) e = Some (promise_of m') | None => promise_of m' = promise_of m end.
Proof.
  intros [Hc Ho Hu] S. inversion S as [m0 t Hn Hle|m0 t spec old t' a Hown Hnl Hob E Hv Hv0 Hi Hi0|m0 t o' a Hown Hnl Hob E|m0 Ht|m0 t r Ht Hob E|m0 t b t' Ht Hob E|m0 t b o' Ht Hob E|m0 r Ht|m0 t Ht Hle|m0 t Ht|m0 Hob Huse]; subst; try rewrite Hob in Ho; try done.
  - cbn. by rewrite (proj2 (Z.leb_le _ _) Hle).
  - destruct (timer_set_inv _ _ _ _ _ _ E) as (Ee & Ei & Ea & Ed & Er & _). cbn. unfold promise_of. cbn. unfold armed_of. rewrite Er, Ee, Ei, add_ns, Ea, zero_ns by done.
    destruct (ns (value spec) =? 0); cbn; [done|]. by rewrite orb_true_r.
  - cbn. unfold timer_free in E. assert (o' ≫= armed_of = None) as En by (destruct (thread_running t); injection E as <- _; done). unfold promise_of. cbn [object calls now]. by rewrite En.
  - destruct Ho as [H1 H2 H3 H4]. unfold thread_turn in E. destruct (active t && timespec_positive (timespec_subtract _ _)) eqn:E1; [done|].
    destruct (active t && timespec_positive (interval t)) eqn:E2; [|done]. injection E as <- <-. apply andb_true_iff in E2 as [Ea E2]. rewrite Ht in H1. cbn in H1. destruct (H4 Ea H1) as (Ne & Ni & Hi).
    rewrite Ea in E1 |- *. cbn in E1. apply due_now in E1; [|done..]. rewrite positive_ns in E2 by done.
    unfold promise_of. cbn. rewrite Hob. cbn. unfold armed_of. cbn. rewrite Ea, H1. cbn. rewrite (proj2 (Z.leb_le _ _) E1), E2, add_ns. done.
  - destruct Ho as [H1 H2 H3 H4]. unfold thread_turn in E. destruct (active t && timespec_positive (timespec_subtract _ _)) eqn:E1; [done|]. destruct (active t && timespec_positive (interval t)) eqn:E2; [done|].
    injection E as <- <-. rewrite Ht in H1. cbn in H1. assert ((if dead t then None else Some (mk_timer (start t) (end_ t) (interval t) (active t) false (dead t))) ≫= armed_of = None) as En
      by (destruct (dead t); [done|]; cbn; unfold armed_of; cbn; by rewrite andb_false_r).
    unfold promise_of. cbn [object set_thread called_back set_object calls now]. rewrite En, Hob. cbn. unfold armed_of. rewrite H1, andb_true_r. destruct (active t) eqn:Ea; [|done]. cbn.
    destruct (H4 eq_refl H1) as (Ne & Ni & Hi). cbn in E1, E2. apply due_now in E1; [|done..]. rewrite positive_ns in E2 by done. by rewrite (proj2 (Z.leb_le _ _) E1), E2.
  - unfold promise_of. cbn. by rewrite Hob.
Qed.

(** C16: whatever order the owner, the thread and a clock that does not go back take their steps in, what is seen of the timer is what it promised: it calls back only when it was set and is due, once for
    each time it is due; after a call at whatever time it is due again one interval after it was due, so that the times do not drift; setting it again or freeing it ends the old promise at once; and
    the object is not used after it was freed. *)
Theorem timers_refine m0 l m : initial m0 -> trace m0 l m -> all_promised (promise_of m0) l = Some (promise_of m) /\ used_freed m = false.
Proof.
  intros Hi R. pose proof (initial_ok _ Hi) as Hok. split; [|apply (run_ok _ _ _ R Hok)]. clear Hi. induction R as [|a o b l c S R IH]; [done|].
  pose proof (step_refines _ _ _ Hok S) as P. specialize (IH (step_ok _ _ _ Hok S)). destruct o as [e|]; [cbn; by rewrite P|]. by rewrite <- P.
Qed.

(** ** The end of a timer *)

(** a timer that its owner freed does not call back any more, whatever the thread was doing, and the thread frees the object as soon as it has the lock. *)
Theorem freed_timer_silent m l m' : reachable m -> owned m = false -> trace m l m' ->
  calls m' = calls m /\ (thread m' = wants_lock -> exists m1 m2, step m' None m1 /\ step m1 None m2 /\ object m2 = None).
Proof.
  intros Hr Hw R. pose proof (reachable_ok _ Hr) as Hok. clear Hr. revert Hok Hw. induction R as [m|m o m1 l m2 S R IH]; intros Hok Hw.
  - split; [done|]. intros Ht. destruct Hok as [Hc Ho Hu]. destruct (object m) as [t|] eqn:Hob; [|destruct Ho; congruence]. destruct Ho as [H1 H2 H3 H4]. destruct (H3 Hw) as [Ha _].
    exists (set_thread has_lock m), (set_thread nowhere (called_back false (set_object None (set_thread has_lock m)))). split; [by apply step_lock|]. split; [|done].
    apply (step_finish _ t false None); [done|exact Hob|]. unfold thread_turn. rewrite Ha, H2, Hw. done.
  - assert (owned m1 = false /\ calls m1 = calls m) as [Hw1 Hc1].
    { destruct Hok as [Hc Ho Hu]. inversion S as [| | | | |m0 t b t' Ht Hob E|m0 t b o' Ht Hob E| | | |]; subst; try done; try congruence; rewrite Hob in Ho; destruct Ho as [H1 H2 H3 H4]; destruct (H3 Hw) as [Ha _];
        unfold thread_turn in E; rewrite Ha in E; cbn in E; by simplify_eq. }
    rewrite <- Hc1. apply IH; [by eapply step_ok|done].
Qed.

(** A timer that is due calls back when its thread next has the lock. *)
Theorem due_timer_calls m t : machine_ok m -> thread m = wants_lock -> object m = Some t -> active t = true -> ns (end_ t) <= ns (now m) ->
  exists m1 m2, step m None m1 /\ step m1 (Some Call) m2 /\ calls m2 = now m :: calls m.
Proof.
  intros [Hc Ho Hu] Ht Hob Ha Hd. rewrite Hob in Ho. destruct Ho as [H1 H2 H3 H4]. rewrite Ht in H1. destruct (H4 Ha H1) as (Ne & Ni & Hi).
  exists (set_thread has_lock m). assert (timespec_positive (timespec_subtract (end_ t) (now m)) = false) as Ep.
  { rewrite positive_ns by by apply subtract_normal. rewrite subtract_ns. apply Z.ltb_ge. lia. }
  destruct (timespec_positive (interval t)) eqn:Ei; (eexists; split; [by apply step_lock|]; split).
  - eapply (step_again _ t true); [done|exact Hob|]. unfold thread_turn. cbn [now set_thread]. by rewrite Ha, Ep, Ei.
  - done.
  - eapply (step_finish _ t true); [done|exact Hob|]. unfold thread_turn. cbn [now set_thread]. by rewrite Ha, Ep, Ei.
  - done.
Qed.

(** ** What goes wrong *)

(** a timer that is set while its thread is between releasing the lock and sleeping is late: the signal is lost, and the thread sleeps as long as it meant to, however soon the timer is due now. *)
Theorem set_before_sleep_is_late m t r spec : reachable m -> owned m = true -> object m = Some t -> thread m = leaving r ->
  normal (value spec) -> 0 <= tv_sec (value spec) -> 0 < ns (value spec) -> normal (spec_interval spec) -> 0 <= tv_sec (spec_interval spec) ->
  exists m' l, trace m l m' /\ armed (promise_of m') = Some (ns (now m) + ns (value spec), ns (spec_interval spec)) /\ thread m' = asleep (timespec_add (now m) r) /\ now m' = now m.
Proof.
  intros Hr Hw Hob Ht Hv Hv0 Hpos Hi Hi0. destruct (reachable_ok _ Hr) as [Hc Ho Hu]. rewrite Hob in Ho. destruct Ho as [H1 H2 H3 H4]. rewrite Ht in H1. cbn in H1.
  destruct (timer_set (now m) t spec) as [[old t'] a] eqn:E. pose proof (timer_set_inv _ _ _ _ _ _ E) as (Ee & Ei & Ea & Ed & Er & Eact). rewrite H1 in Eact, Er. subst a.
  set (m1 := set_thread (act interrupt_thread (thread m)) (set_object (Some t') m)). exists (set_thread (asleep (timespec_add (now m) r)) m1), [Set_ (value spec) (spec_interval spec)]. split; [|split; [|done]].
  - eapply (trace_cons _ (Some _)); [eapply step_set; [exact Hw|by rewrite Ht|exact Hob|exact E|done..]|]. fold m1. eapply (trace_cons _ None); [|apply trace_nil]. apply (step_nanosleep m1 r). unfold m1. cbn. by rewrite Ht.
  - unfold promise_of. cbn. unfold armed_of. rewrite Er, Ee, Ei, add_ns. assert (active t' = true) as ->; [|done]. rewrite Ea, zero_ns by done. apply negb_true_iff, Z.eqb_neq. lia.
Qed.

(** the time left that setting a new timer reports is made of memory that was never written: it can be anything. *)
Theorem first_time_left_arbitrary n v : exists s e i, ns (value (timer_set n (timer_new s e i) (mk_spec (mk_timespec 1 0) (mk_timespec 0 0))).1.1) = ns v.
Proof. exists v, (timespec_add n v), v. cbn. rewrite subtract_ns, add_ns. lia. Qed.

(** ** A timer that is set, sleeps and calls back *)

Module Demo.
Definition T (s : Z) : timespec := mk_timespec s 0.
Definition fresh : machine := mk_machine (Some (timer_new (T 7) (T 8) (T 9))) nowhere true (T 0) [] false.
Lemma fresh_initial : initial fresh.
Proof. by exists (T 7), (T 8), (T 9). Qed.

Definition once : timer_spec := mk_spec (T 1) (T 0).
(** The machine after the timer was set for one second and slept that long. *)
Definition due : machine := mk_machine (Some (mk_timer (T 0) (T 1) (T 0) true true false)) wants_lock true (T 1) [] false.
Definition after : machine := mk_machine (Some (mk_timer (T 0) (T 1) (T 0) true false false)) nowhere true (T 1) [T 1] false.
Ltac quiet := eapply (trace_cons _ None); cbn.
Ltac seen := eapply (trace_cons _ (Some _)); cbn.
Lemma run_from_due l m : trace due l m -> trace fresh (Set_ (T 1) (T 0) :: Tick (T 1) :: l) m.
Proof.
  intros R. seen; [eapply (step_set fresh _ once); (reflexivity || discriminate || (unfold normal; cbn; lia))|]. cbn. quiet; [by apply step_lock|]. quiet; [eapply step_sleep; reflexivity|]. quiet; [by eapply step_nanosleep|].
  seen; [apply (step_clock _ (T 1)); unfold normal, ns; cbn; lia|]. quiet; [eapply step_signal; reflexivity|]. exact R.
Qed.
Lemma run_to_end : trace fresh [Set_ (T 1) (T 0); Tick (T 1); Call] after.
Proof. apply run_from_due. quiet; [by apply step_lock|]. seen; [eapply (step_finish _ _ true); reflexivity|]. apply trace_nil. Qed.

Lemma timers_refine_witness : all_promised (promise_of fresh) [Set_ (T 1) (T 0); Tick (T 1); Call] = Some (mk_promise None [1000000000] 1000000000) /\ used_freed after = false.
Proof. apply (timers_refine fresh [Set_ (T 1) (T 0); Tick (T 1); Call] after fresh_initial run_to_end). Defined.

(** Freed while it is due. *)
Definition freed : machine := mk_machine (Some (mk_timer (T 0) (T 1) (T 0) false true true)) wants_lock false (T 1) [] false.
Lemma freed_timer_silent_witness : exists m1 m2, step freed None m1 /\ step m1 None m2 /\ object m2 = None.
Proof.
  apply (freed_timer_silent freed [] freed); [|reflexivity|apply trace_nil|reflexivity]. exists fresh, [Set_ (T 1) (T 0); Tick (T 1); Free]. split; [apply fresh_initial|]. apply run_from_due. seen; [|apply trace_nil].
  exact (step_free due (mk_timer (T 0) (T 1) (T 0) true true false) (Some (mk_timer (T 0) (T 1) (T 0) false true true)) interrupt_thread eq_refl ltac:(discriminate) eq_refl eq_refl).
Defined.

End Demo.
End Timers.
