(* ===== verification/Clocks.v ===== *)
(** * Clocks and timers of a process (kernel/time.c, kernel/time.h)

    The calls on clocks, the interval timer of a process, its numbered timers, and the operations of timer files.  Calls are steps over guest memory and the file layer as in
    Files.v; the timers themselves are those of Timers.v, and a timer file is a file without a name as in Adhoc.v.  What the host's clocks say, and what [malloc] leaves in a
    new timer, are parameters.  The lock of the process, which no other thread holds here, is left out. *)

From S2P Require Import Prelude Errno FileLock Memory User Fpu Vfs Path Fd Generic Space Exec Tmpfs Files Adhoc Timers.

Module Clocks.
Import Errno Vfs Fd Space Files Timers.
Abbreviation POLL_READ := Adhoc.POLL_READ.
Abbreviation HasAdhoc := Adhoc.HasAdhoc.
Abbreviation wakeup := Adhoc.wakeup.

Definition CLOCK_REALTIME_ : Z := 0.
Definition CLOCK_MONOTONIC_ : Z := 1.
Definition CLOCK_PROCESS_CPUTIME_ID_ : Z := 2.
Definition CLOCK_REALTIME_COARSE_ : Z := 5.
Definition ITIMER_REAL_ : Z := 0.
Definition TIMERS_MAX : Z := 16.
Definition SIGEV_SIGNAL_ : Z := 0.
Definition SIGEV_NONE_ : Z := 1.
Definition SIGEV_THREAD_ID_ : Z := 4.
Definition TIMER_ABSTIME_ : Z := Z.shiftl 1 0.
Definition SIGALRM_ : Z := 14.

(** Clocks of the host. *)
Inductive clockid := CLOCK_REALTIME | CLOCK_MONOTONIC.
Definition clockid_to_real (clock : Z) : Z + clockid :=
  if (clock =? CLOCK_REALTIME_) || (clock =? CLOCK_REALTIME_COARSE_) then inr CLOCK_REALTIME
  else if clock =? CLOCK_MONOTONIC_ then inr CLOCK_MONOTONIC
  else inl _EINVAL.

(** ** State *)

(** [struct posix_timer]; [pt_group] says that the pointer to the group is set. *)
Record posix_timer := mk_posix_timer {
  pt_timer : option Z;
  pt_timer_id : Z;
  pt_group : bool;
  pt_thread_pid : Z;
  pt_signal : Z;
  pt_sig_value : Z }.
Definition set_pt_timer (v : option Z) (x : posix_timer) : posix_timer :=
  mk_posix_timer v (pt_timer_id x) (pt_group x) (pt_thread_pid x) (pt_signal x) (pt_sig_value x).

(** The information that comes with a signal of a timer: its number and the value it was made with. *)
Record timer_info := mk_timer_info { ti_timer : Z; ti_value : Z }.

(** The timer objects with their clocks; what was done about their threads, the last one first; the interval timer and the numbered timers of the process; of the files that
    are timers, the object and the number of times it called back; the lock of the process table; and the signals sent, by task. *)
Record clocks := mk_clocks {
  timers : gmap Z (clockid * timer);
  thread_actions : list (Z * action);
  itimer : option Z;
  posix_timers : list posix_timer;
  timerfds : gmap Z (Z * Z);
  pids_locked : bool;
  sent : list (Z * Z * timer_info) }.
Definition set_timers v x := mk_clocks v (thread_actions x) (itimer x) (posix_timers x) (timerfds x) (pids_locked x) (sent x).
Definition set_thread_actions v x := mk_clocks (timers x) v (itimer x) (posix_timers x) (timerfds x) (pids_locked x) (sent x).
Definition set_itimer v x := mk_clocks (timers x) (thread_actions x) v (posix_timers x) (timerfds x) (pids_locked x) (sent x).
Definition set_posix_timers v x := mk_clocks (timers x) (thread_actions x) (itimer x) v (timerfds x) (pids_locked x) (sent x).
Definition set_timerfds v x := mk_clocks (timers x) (thread_actions x) (itimer x) (posix_timers x) v (pids_locked x) (sent x).
Definition set_pids_locked v x := mk_clocks (timers x) (thread_actions x) (itimer x) (posix_timers x) (timerfds x) v (sent x).
Definition set_sent v x := mk_clocks (timers x) (thread_actions x) (itimer x) (posix_timers x) (timerfds x) (pids_locked x) v.

(** A state with clocks in it, and the host: its clocks, [time], [nanosleep] with what it leaves in the time that remains, [gettimeofday], the time the thread used, the error
    number, and what a new timer holds; [timerfd_ops] is the address of the table of operations.  [pid_get_task] says whether there is a task, [leader] is the process. *)
Class HasClocks (F : Type) {HA : HasAdhoc F} := {
  get_clocks : F -> clocks;
  put_clocks : clocks -> F -> F;
  get_put_clocks x f : get_clocks (put_clocks x f) = x;
  put_put_clocks x y f : put_clocks x (put_clocks y f) = put_clocks x f;
  wakeup_clocks fd evs f : get_clocks (wakeup fd evs f) = get_clocks f;
  timerfd_ops : Z;
  timespec_now_ : clockid -> vfs F -> timespec;
  host_time : vfs F -> Z;
  clock_gettime : clockid -> vfs F -> Z * timespec;
  clock_getres : clockid -> vfs F -> Z * timespec;
  nanosleep : timespec -> V F (Z * timespec);
  gettimeofday : vfs F -> Z * (Z * Z) * (Z * Z);
  rusage_get_current : vfs F -> (Z * Z) * (Z * Z);
  errno_map : vfs F -> Z;
  junk : vfs F -> timespec * timespec * timespec;
  pid_get_task : Z -> F -> bool;
  leader : F -> Z;
}.

Section Operations.
Context {F U : Type} {SF : System F} {HA : HasAdhoc F} {HC : HasClocks F} {SP : Space U}.
#[local] Abbreviation C := (call F U).

Definition state (s : vfs F) : clocks := get_clocks (fsd s).
Definition set_state (x : clocks) (s : vfs F) : vfs F := set_fsd (put_clocks x (fsd s)) s.
Definition update (g : clocks -> clocks) : V F unit := modify (fun s => set_state (g (state s)) s).

(** *** Objects *)

Definition new_timer (clock : clockid) : V F Z :=
  let! a := malloc in
  let! s := gets id in
  let '(js, je, ji) := junk s in
  update (fun x => set_timers (<[a := (clock, timer_new js je ji)]> (timers x)) x) ;;
  ret a.
Definition set_timer (a : Z) (spec : timer_spec) : V F (Z * timer_spec) :=
  let! s := gets id in
  let! (clock, t) := deref (timers (state s) !! a) in
  let '(old, t', act) := timer_set (timespec_now_ clock s) t spec in
  update (fun x => set_thread_actions ((a, act) :: thread_actions x) (set_timers (<[a := (clock, t')]> (timers x)) x)) ;;
  ret (0, old).
Definition free_timer (a : Z) : V F unit :=
  let! s := gets id in
  let! (clock, t) := deref (timers (state s) !! a) in
  let '(o, act) := timer_free t in
  update (fun x => set_thread_actions ((a, act) :: thread_actions x)
    (set_timers (match o with Some t' => <[a := (clock, t')]> (timers x) | None => delete a (timers x) end) x)).

Definition lock_pids : V F unit := let! s := gets id in if pids_locked (state s) then hang else update (set_pids_locked true).
Definition unlock_pids : V F unit := update (set_pids_locked false).
Definition send_signal (task sig : Z) (info : timer_info) : V F unit := update (fun x => set_sent ((task, sig, info) :: sent x) x).

(** *** Structures in guest memory *)

Definition timespec_bytes (t : timespec) : list Z := le_bytes 4 (tv_sec t) ++ le_bytes 4 (tv_nsec t).
(** [struct timespec_] at a position, as it is converted: its members are unsigned. *)
Definition timespec_from (b : list Z) : timespec := mk_timespec (le_value (take 4 b)) (le_value (take 4 (drop 4 b))).
(** [struct itimerspec_] has the interval first. *)
Definition timer_spec_to_real (b : list Z) : timer_spec := mk_spec (timespec_from (drop 8 b)) (timespec_from (take 8 b)).
Definition timer_spec_from_real (spec : timer_spec) : list Z := timespec_bytes (spec_interval spec) ++ timespec_bytes (value spec).

(** *** Clocks *)

Definition sys_time (time_out : Z) : C Z :=
  let* s := run (gets id) in
  let now := u32 (host_time s) in
  if negb (time_out =? 0) then
    let* err := put time_out (le_bytes 4 now) in
    cret (if err then _EFAULT else dword now)
  else cret (dword now).
Definition sys_stime (time : Z) : C Z := cret _EPERM.

Definition sys_clock_gettime (clock tp : Z) : C Z :=
  let* s := run (gets id) in
  let finish ts := let* err := put tp (timespec_bytes ts) in cret (if err then _EFAULT else 0) in
  if clock =? CLOCK_PROCESS_CPUTIME_ID_ then
    let utime := (rusage_get_current s).1 in
    finish (mk_timespec utime.1 (u32 (utime.2 * 1000)))
  else
    match clockid_to_real clock with
    | inl _ => cret _EINVAL
    | inr clock_id =>
        let '(err, ts) := clock_gettime clock_id s in
        if err <? 0 then cret (errno_map s) else finish ts
    end.
Definition sys_clock_getres (clock res_addr : Z) : C Z :=
  let* s := run (gets id) in
  match clockid_to_real clock with
  | inl _ => cret _EINVAL
  | inr clock_id =>
      let '(err, res) := clock_getres clock_id s in
      if err <? 0 then cret (errno_map s)
      else let* err := put res_addr (timespec_bytes res) in cret (if err then _EFAULT else 0)
  end.
Definition sys_clock_settime (clock tp : Z) : C Z := cret _EPERM.

(** *** The interval timer *)

Definition itimer_notify (task : Z) : V F unit := send_signal task SIGALRM_ (mk_timer_info 0 0).

Definition itimer_set (which : Z) (spec : timer_spec) : V F (Z * timer_spec) :=
  if negb (which =? ITIMER_REAL_) then ret (_EINVAL, spec)
  else
    let! s := gets id in
    let! a :=
      match itimer (state s) with
      | Some a => ret a
      | None => let! a := new_timer CLOCK_REALTIME in update (set_itimer (Some a)) ;; ret a
      end in
    set_timer a spec.

(** [struct itimerval_] from its bytes, and back. *)
Definition itimerval_to_real (b : list Z) : timer_spec :=
  let t b := mk_timespec (le_value (take 4 b)) (u32 (le_value (take 4 (drop 4 b)) * 1000)) in mk_spec (t (drop 8 b)) (t (take 8 b)).
Definition itimerval_from_real (spec : timer_spec) : list Z :=
  let t x := le_bytes 4 (tv_sec x) ++ le_bytes 4 (Z.quot (tv_nsec x) 1000) in t (spec_interval spec) ++ t (value spec).

Definition sys_setitimer (which new_val_addr old_val_addr : Z) : C Z :=
  let* (err, val) := get new_val_addr 16 in
  if err then cret _EFAULT
  else
    let* (err, old_spec) := run (itimer_set which (itimerval_to_real val)) in
    if err <? 0 then cret err
    else if negb (old_val_addr =? 0) then
      let* err := put old_val_addr (itimerval_from_real old_spec) in
      cret (if err then _EFAULT else 0)
    else cret 0.

(** The number of seconds of an alarm that was set before. *)
Definition alarm_seconds (old : timespec) : Z :=
  let seconds := u32 (tv_sec old) in
  let seconds := if tv_nsec old >=? 500000000 then u32 (seconds + 1) else seconds in
  if (seconds =? 0) && negb (timespec_is_zero old) then 1 else seconds.
(** The result is of type [uint_t]. *)
Definition sys_alarm (seconds : Z) : V F Z :=
  let! (err, old_spec) := itimer_set ITIMER_REAL_ (mk_spec (mk_timespec seconds 0) (mk_timespec 0 0)) in
  if err <? 0 then ret err else ret (alarm_seconds (value old_spec)).

(** The time that remains is stored when the sleep was not interrupted. *)
Definition sys_nanosleep (req_addr rem_addr : Z) : C Z :=
  let* (err, req) := get req_addr 8 in
  if err then cret _EFAULT
  else
    let* (err, rem) := run (nanosleep (timespec_from req)) in
    let* s := run (gets id) in
    if err <? 0 then cret (errno_map s)
    else if negb (rem_addr =? 0) then
      let* err := put rem_addr (timespec_bytes rem) in
      cret (if err then _EFAULT else 0)
    else cret 0.

(** [clock_from_timeval], in hundredths of a second. *)
Definition clock_from_timeval (t : Z * Z) : Z := u32 (u32 (t.1 * 100) + t.2 / 10000).
Definition sys_times (tbuf : Z) : C Z :=
  if tbuf =? 0 then cret 0
  else
    let* s := run (gets id) in
    let u := le_bytes 4 (clock_from_timeval (rusage_get_current s).1) in
    let k := le_bytes 4 (clock_from_timeval (rusage_get_current s).2) in
    let* err := put tbuf (u ++ k ++ u ++ k) in
    cret (if err then _EFAULT else 0).

Definition sys_gettimeofday (tv tz : Z) : C Z :=
  let* s := run (gets id) in
  let '(err, timeval, timezone) := gettimeofday s in
  if err <? 0 then cret (errno_map s)
  else
    let pair (p : Z * Z) := le_bytes 4 p.1 ++ le_bytes 4 p.2 in
    let* bad := if tv =? 0 then cret false else put tv (pair timeval) in
    if bad then cret _EFAULT
    else
      let* bad := if tz =? 0 then cret false else put tz (pair timezone) in
      cret (if bad then _EFAULT else 0).
Definition sys_settimeofday (tv tz : Z) : C Z := cret _EPERM.

(** *** Numbered timers *)

(** The element of the array; an index outside of it is a fault. *)
Definition posix_timer_at (i : Z) : V F posix_timer :=
  let! s := gets id in in_bounds (0 <=? i) ;; deref (posix_timers (state s) !! Z.to_nat i).
Definition upd_posix_timer (i : Z) (g : posix_timer -> posix_timer) : V F unit :=
  let! x := posix_timer_at i in update (fun c => set_posix_timers (<[Z.to_nat i := g x]> (posix_timers c)) c).

(** [timer] is the number of the timer in the array. *)
Definition posix_timer_callback (timer : Z) : V F unit :=
  let! x := posix_timer_at timer in
  if negb (pt_group x) then ret tt
  else
    let info := mk_timer_info (pt_timer_id x) (pt_sig_value x) in
    lock_pids ;;
    let! s := gets id in
    (if pid_get_task (pt_thread_pid x) (fsd s) then send_signal (pt_thread_pid x) (pt_signal x) info else ret tt) ;;
    unlock_pids.

(** The first element without a timer, up to the end of the array. *)
Fixpoint free_slot (l : list posix_timer) : Z :=
  match l with
  | x :: l => match pt_timer x with None => 0 | Some _ => 1 + free_slot l end
  | [] => 0
  end.

(** [struct sigevent_] has the value first, then the signal, the method and the thread.  When the thread is not there the lock of the process table is not released. *)
Definition sys_timer_create (clock sigevent_addr timer_addr : Z) : C Z :=
  match clockid_to_real clock with
  | inl _ => cret _EINVAL
  | inr real_clockid =>
      let* (err, sigev) := get sigevent_addr 16 in
      if err then cret _EFAULT
      else
        let sig_value := le_value (take 4 sigev) in
        let signo := s32 (le_value (take 4 (drop 4 sigev))) in
        let method := s32 (le_value (take 4 (drop 8 sigev))) in
        let tid := s32 (le_value (take 4 (drop 12 sigev))) in
        if negb (method =? SIGEV_SIGNAL_) && negb (method =? SIGEV_NONE_) && negb (method =? SIGEV_THREAD_ID_) then cret _EINVAL
        else
          let* there := run (
            if method =? SIGEV_THREAD_ID_ then
              lock_pids ;;
              let! s := gets id in
              if negb (pid_get_task tid (fsd s)) then ret false else unlock_pids ;; ret true
            else ret true) in
          if negb there then cret _EINVAL
          else
            let* s := run (gets id) in
            let timer_id := free_slot (posix_timers (state s)) in
            if timer_id >=? TIMERS_MAX then cret _ENOMEM
            else
              let* err := put timer_addr (le_bytes 4 timer_id) in
              if err then cret _EFAULT
              else run (
                let! a := new_timer real_clockid in
                upd_posix_timer timer_id (fun x =>
                  let x := mk_posix_timer (Some a) timer_id false (pt_thread_pid x) signo sig_value in
                  if method =? SIGEV_SIGNAL_ then mk_posix_timer (Some a) timer_id true 0 signo sig_value
                  else if method =? SIGEV_THREAD_ID_ then mk_posix_timer (Some a) timer_id true (leader (fsd s)) signo sig_value
                  else x) ;;
                ret 0)
  end.

(** A time that is absolute is made relative. *)
Definition relative (absolute : bool) (a : Z) (spec : timer_spec) : V F timer_spec :=
  if absolute then
    let! s := gets id in
    let! (clock, _) := deref (timers (state s) !! a) in
    ret (mk_spec (timespec_subtract (value spec) (timespec_now_ clock s)) (spec_interval spec))
  else ret spec.

(** Sets the timer and stores what was set before, if that is asked for. *)
Definition settime (a : V F Z) (absolute : bool) (b : list Z) (old_value_addr : Z) : C Z :=
  let* (err, old_spec) := run (let! a := a in let! spec := relative absolute a (timer_spec_to_real b) in set_timer a spec) in
  if err <? 0 then cret err
  else if negb (old_value_addr =? 0) then
    let* err := put old_value_addr (timer_spec_from_real old_spec) in
    cret (if err then _EFAULT else 0)
  else cret 0.

Definition sys_timer_settime (timer_id flags new_value_addr old_value_addr : Z) : C Z :=
  let* (err, b) := get new_value_addr 16 in
  if err then cret _EFAULT
  else if timer_id >? TIMERS_MAX then cret _EINVAL
  else settime (let! x := posix_timer_at timer_id in deref (pt_timer x)) (has flags TIMER_ABSTIME_) b old_value_addr.

Definition sys_timer_delete (timer_id : Z) : V F Z :=
  let! x := posix_timer_at timer_id in
  match pt_timer x with
  | None => ret _EINVAL
  | Some a => free_timer a ;; upd_posix_timer timer_id (set_pt_timer None) ;; ret 0
  end.

(** *** Files that are timers *)

Definition timerfd_of (fd : Z) : V F (Z * Z) := let! s := gets id in deref (timerfds (state s) !! fd).
Definition upd_timerfd (fd : Z) (g : Z * Z -> Z * Z) : V F unit :=
  let! x := timerfd_of fd in update (fun c => set_timerfds (<[fd := g x]> (timerfds c)) c).

Definition timerfd_callback (fd : Z) : V F unit := upd_timerfd fd (fun x => (x.1, u64 (x.2 + 1))) ;; Adhoc.poll_wakeup fd POLL_READ.

Definition sys_timerfd_create (clockid flags : Z) : V F Z :=
  match clockid_to_real (u32 clockid) with
  | inl _ => ret _EINVAL
  | inr real_clockid =>
      let! fd := Adhoc.adhoc_fd_create timerfd_ops in
      let! a := new_timer real_clockid in
      update (fun x => set_timerfds (<[fd := (a, 0)]> (timerfds x)) x) ;;
      f_install fd flags
  end.

Definition sys_timerfd_settime (f flags new_value_addr old_value_addr : Z) : C Z :=
  if negb (Z.ldiff flags TIMER_ABSTIME_ =? 0) then cret _EINVAL
  else with_fd f (fun fd =>
    let* x := run (get_fd fd) in
    if negb (fd_ops_of x =? timerfd_ops) then cret _EINVAL
    else
      let* (err, b) := get new_value_addr 16 in
      if err then cret _EFAULT
      else settime (let! x := timerfd_of fd in ret x.1) (has flags TIMER_ABSTIME_) b old_value_addr).

(** The loop waits while nothing came; each wait ends with a result and a number of calls that came meanwhile. *)
Fixpoint timerfd_wait (fd : Z) (nonblock : bool) (waits : list (Z * nat)) : V F (Z + Z) :=
  let! x := timerfd_of fd in
  if negb (x.2 =? 0) then upd_timerfd fd (fun x => (x.1, 0)) ;; ret (inr x.2)
  else if nonblock then ret (inl _EAGAIN)
  else
    match waits with
    | [] => hang
    | (err, n) :: waits =>
        for_each (repeat tt n) (fun _ => timerfd_callback fd) ;;
        if err <? 0 then ret (inl err) else timerfd_wait fd nonblock waits
    end.
Definition timerfd_read (fd bufsize : Z) (waits : list (Z * nat)) : V F (Z * list Z) :=
  if bufsize <? 8 then ret (_EINVAL, [])
  else
    let! x := get_fd fd in
    let! r := timerfd_wait fd (has (fd_flags x) O_NONBLOCK_) waits in
    match r with inl err => ret (err, []) | inr n => ret (8, le_bytes 8 n) end.
Definition timerfd_poll (fd : Z) : V F Z := let! x := timerfd_of fd in ret (if negb (x.2 =? 0) then POLL_READ else 0).
Definition timerfd_close (fd : Z) : V F Z := let! x := timerfd_of fd in free_timer x.1 ;; ret 0.

End Operations.

(** ** Steps *)

Section Steps.
Context {F U : Type} {SF : System F} {HA : HasAdhoc F} {HC : HasClocks F} {SP : Space U} {SL : SpaceLaws U}.
Implicit Types (s : vfs F) (u : U).

Lemma state_set x s : state (set_state x s) = x.
Proof. unfold state, set_state. destruct s. apply get_put_clocks. Qed.
Lemma set_set x y s : set_state x (set_state y s) = set_state x s.
Proof. unfold set_state, set_fsd. destruct s. cbn. f_equal. apply put_put_clocks. Qed.
Lemma update_run g s : update g s = Ret tt (set_state (g (state s)) s).
Proof. done. Qed.

(** Setting the timer at [a]. *)
Lemma set_timer_run a clock t spec s : timers (state s) !! a = Some (clock, t) -> let r := timer_set (timespec_now_ clock s) t spec in
  set_timer a spec s = Ret (0, r.1.1) (set_state (set_thread_actions ((a, r.2) :: thread_actions (state s)) (set_timers (<[a := (clock, r.1.2)]> (timers (state s))) (state s))) s).
Proof.
  intros H r. unfold set_timer. rewrite (bind_step _ _ s s s) by done. unfold id. rewrite H, (bind_step _ _ s (clock, t) s) by done. fold r. destruct r as [[old t'] act]. by rewrite (bind_step _ _ _ _ _ (update_run _ _)).
Qed.

(** ** The interval timer *)

(** The process has an interval timer that is the object [t]. *)
Definition has_itimer s (a : Z) (t : timer) : Prop := itimer (state s) = Some a /\ timers (state s) !! a = Some (CLOCK_REALTIME, t).

Lemma itimer_set_run s a t spec : has_itimer s a t -> let n := timespec_now_ CLOCK_REALTIME s in
  exists s' t', itimer_set ITIMER_REAL_ spec s = Ret (0, mk_spec (timespec_subtract (end_ t) n) (interval t)) s' /\ has_itimer s' a t' /\
    end_ t' = timespec_add n (value spec) /\ interval t' = spec_interval spec.
Proof.
  intros [Hi Ht] n. unfold itimer_set. change (ITIMER_REAL_ =? ITIMER_REAL_) with true. cbn [negb]. rewrite (bind_step _ _ s s s) by done. unfold id. rewrite Hi, (bind_step _ _ s a s) by done.
  destruct (timer_set n t spec) as [[old t'] act] eqn:E. pose proof (timer_set_inv _ _ _ _ _ _ E) as (Ee & Ei & _).
  assert (old = mk_spec (timespec_subtract (end_ t) n) (interval t)) as -> by (unfold timer_set in E; repeat case_match; simplify_eq; done).
  rewrite (set_timer_run a _ t spec s Ht). fold n. rewrite E. cbn [fst snd]. eexists _, t'. split; [reflexivity|]. split; [|done]. split; rewrite state_set; [done|]. cbn. by rewrite lookup_insert_eq.
Qed.
Lemma new_timer_run c s : exists t s', new_timer c s = Ret (next s) s' /\ timers (state s') = <[next s := (c, t)]> (timers (state s)) /\ itimer (state s') = itimer (state s) /\
  posix_timers (state s') = posix_timers (state s) /\ next s' = next s + 1.
Proof.
  unfold new_timer. set (s1 := set_next (next s + 1) s). rewrite (bind_step _ _ s (next s) s1), (bind_step _ _ s1 s1 s1) by done. unfold id. destruct (junk s1) as [[js je] ji].
  rewrite (bind_step _ _ _ _ _ (update_run _ _)). eexists (timer_new js je ji), _. split; [reflexivity|]. rewrite !state_set. cbn. unfold s1. by destruct s.
Qed.

(** A pointer to the interval timer that is set leads to one. *)
Definition itimer_ok s : Prop := forall a, itimer (state s) = Some a -> exists t, timers (state s) !! a = Some (CLOCK_REALTIME, t).

(** The first call makes the timer; here the clock of the host stands still. *)
Lemma itimer_set_any s spec n : (forall s, timespec_now_ CLOCK_REALTIME s = n) -> itimer_ok s ->
  exists old s' a t, itimer_set ITIMER_REAL_ spec s = Ret (0, old) s' /\ has_itimer s' a t /\ end_ t = timespec_add n (value spec) /\ interval t = spec_interval spec.
Proof.
  intros Hn Hok. destruct (itimer (state s)) as [a|] eqn:Hi.
  - destruct (Hok a Hi) as [t Ht]. destruct (itimer_set_run s a t spec (conj Hi Ht)) as (s' & t' & E & H & H1 & H2). rewrite Hn in *. eauto 10.
  - destruct (new_timer_run CLOCK_REALTIME s) as (t & s1 & E1 & Ht & _ & _ & _). set (s2 := set_state (set_itimer (Some (next s)) (state s1)) s1).
    assert (timers (state s2) !! next s = Some (CLOCK_REALTIME, t)) as Ht2 by (unfold s2; rewrite state_set; cbn; by rewrite Ht, lookup_insert_eq).
    pose proof (set_timer_run _ _ _ spec s2 Ht2) as R. rewrite Hn in R. destruct (timer_set n t spec) as [[old t'] act] eqn:E. pose proof (timer_set_inv _ _ _ _ _ _ E) as (Ee & Ei & _).
    eexists old, _, (next s), t'. split; [|split; [|done]].
    + unfold itimer_set. change (ITIMER_REAL_ =? ITIMER_REAL_) with true. cbn [negb]. rewrite (bind_step _ _ s s s) by done. unfold id. rewrite Hi.
      rewrite (bind_step _ _ s (next s) s2); [exact R|]. rewrite (bind_step _ _ _ _ _ E1). by rewrite (bind_step _ _ _ _ _ (update_run _ _)).
    + split; rewrite !state_set; cbn; [unfold s2; by rewrite state_set|by rewrite lookup_insert_eq].
Qed.

(** What the guest gives, with microseconds below a million, and what it gets back. *)
Definition itimerval (b : list Z) (isec iusec vsec vusec : Z) : Prop := b = le_bytes 4 isec ++ le_bytes 4 iusec ++ le_bytes 4 vsec ++ le_bytes 4 vusec /\
  in_u 32 isec /\ 0 <= iusec < 1000000 /\ in_u 32 vsec /\ 0 <= vusec < 1000000.
Lemma itimerval_real b isec iusec vsec vusec : itimerval b isec iusec vsec vusec ->
  itimerval_to_real b = mk_spec (mk_timespec vsec (vusec * 1000)) (mk_timespec isec (iusec * 1000)).
Proof.
  intros (-> & H1 & H2 & H3 & H4). unfold itimerval_to_real. pose proof iovec_field_length as L.
  assert (forall (x y z : list Z), length x = 4%nat -> length y = 4%nat -> take 8 (x ++ y ++ z) = x ++ y /\ drop 8 (x ++ y ++ z) = z) as Hs.
  { intros x y z Hx Hy. rewrite !app_assoc. split; [apply take_app_length'|apply drop_app_length']; rewrite length_app; lia. }
  destruct (Hs (le_bytes 4 isec) (le_bytes 4 iusec) (le_bytes 4 vsec ++ le_bytes 4 vusec)) as [-> ->]; [by rewrite L..|].
  rewrite !take_app_length', !drop_app_length' by (by rewrite L). rewrite !(take_ge _ 4) by (rewrite L; lia). rewrite !Fpu.le_bytes_value by (unfold in_u in *; lia).
  rewrite !wrap_small by (unfold in_u; lia). done.
Qed.

(** the interval timer that was set is read back: when the clock stands still, setting it a second time stores the same value and interval as the first call was given, microseconds
    included, and leaves the rest of guest memory alone. *)
Theorem itimer_read_back u s new old b isec iusec vsec vusec n : ok u -> itimer_ok s -> (forall s, timespec_now_ CLOCK_REALTIME s = n) -> normal n ->
  itimerval b isec iusec vsec vusec -> readable u new 16 -> bytes_at (seen u) new b -> old <> 0 -> writable_range u old 16 ->
  exists u1 s1 u2 s2, sys_setitimer ITIMER_REAL_ new 0 u s = Ret (0, u1) s1 /\ sys_setitimer ITIMER_REAL_ new old u1 s1 = Ret (0, u2) s2 /\ wrote u old b u2.
Proof.
  intros Hok Hi Hclk Hn Hb Hr Hby Hold Hw. pose proof (itimerval_real _ _ _ _ _ Hb) as Hreal. destruct Hb as (Eb & B1 & B2 & B3 & B4). pose proof iovec_field_length as L.
  assert (length b = 16%nat) as Lb by (rewrite Eb, !length_app, !L; done).
  destruct (copy_in_whole new (replicate 16 0) b 16 u s Hok Hr Hby) as (u1 & S1 & E1); [by rewrite Lb|done|].
  destruct (itimer_set_any s (itimerval_to_real b) n Hclk Hi) as (o1 & s1 & a & t & I1 & Ht & Ee & Ei).
  destruct (copy_in_whole new (replicate 16 0) b 16 u1 s1 (sm_ok _ _ S1)) as (u2 & S2 & E2); [by eapply readable_same|eapply bytes_at_ext; [intros; apply S1|done]|by rewrite Lb|done|].
  destruct (itimer_set_run s1 a t (itimerval_to_real b) Ht) as (s2 & t2 & I2 & _). rewrite Hclk, Ee, Ei, Hreal in I2. cbn [value spec_interval] in I2.
  assert (timespec_subtract (timespec_add n (mk_timespec vsec (vusec * 1000))) n = mk_timespec vsec (vusec * 1000)) as Et.
  { unfold normal in Hn. unfold timespec_add, timespec_subtract. cbn. zbool; cbn; f_equal; lia. }
  rewrite Et in I2. assert (itimerval_from_real (mk_spec (mk_timespec vsec (vusec * 1000)) (mk_timespec isec (iusec * 1000))) = b) as Ef.
  { unfold itimerval_from_real. cbn. rewrite !Z.quot_mul by lia. rewrite Eb. by rewrite <- app_assoc. }
  destruct (copy_out_run old b 16 b u2 s2 (sm_ok _ _ S2) ltac:(lia)) as (u3 & W3 & E3); [eapply writable_same; [exact S2|]; by eapply writable_same|by rewrite take_ge by (rewrite Lb; lia)|by rewrite Lb|].
  exists u1, s1, u3, s2. split_and!.
  - unfold sys_setitimer, get. change (Z.to_nat 16) with 16%nat. rewrite (cbind_step _ _ _ _ _ _ _ E1). cbv iota beta. by rewrite (run_step _ _ _ _ _ _ I1).
  - unfold sys_setitimer, get. change (Z.to_nat 16) with 16%nat. rewrite (cbind_step _ _ _ _ _ _ _ E2). cbv iota beta. rewrite Hreal, (run_step _ _ _ _ _ _ I2). cbv iota beta. change (0 <? 0) with false. cbn iota.
    destruct (Z.eqb_spec old 0); [done|]. cbn [negb]. rewrite Ef. unfold put. rewrite Lb. change (Z.of_nat 16) with 16. by rewrite (cbind_step _ _ _ _ _ _ _ E3).
  - eapply wrote_same; [exact S1|]. by eapply wrote_same.
Qed.

(** [alarm] gives the seconds that were left, rounded to the nearest number and at least 1. *)
Theorem alarm_gives_rest s a t seconds : has_itimer s a t -> normal (end_ t) -> normal (timespec_now_ CLOCK_REALTIME s) ->
  let left_ := ns (end_ t) - ns (timespec_now_ CLOCK_REALTIME s) in 0 < left_ < (2 ^ 32 - 1) * 1000000000 ->
  exists s', sys_alarm seconds s = Ret (Z.max 1 ((left_ + 500000000) / 1000000000)) s'.
Proof.
  intros Ht Ne Nn left_ Hl. set (n := timespec_now_ CLOCK_REALTIME s) in *. destruct (itimer_set_run s a t (mk_spec (mk_timespec seconds 0) (mk_timespec 0 0)) Ht) as (s' & t' & E & _). fold n in E. exists s'.
  unfold sys_alarm. rewrite (bind_step _ _ _ _ _ E). change (0 <? 0) with false. cbn iota. unfold ret. f_equal. cbn [value]. set (d := timespec_subtract (end_ t) n).
  assert (ns d = left_) as Ed by apply subtract_ns. assert (normal d) as Nd by (by apply subtract_normal). unfold alarm_seconds. rewrite zero_ns by done. unfold ns, normal in *. rewrite (wrap_small 32 (tv_sec d)) by (unfold in_u; lia).
  assert ((left_ + 500000000) / 1000000000 = if tv_nsec d >=? 500000000 then tv_sec d + 1 else tv_sec d) as ->.
  { destruct (Z.geb_spec (tv_nsec d) 500000000); symmetry; [apply (Z.div_unique_pos _ _ _ (tv_nsec d - 500000000))|apply (Z.div_unique_pos _ _ _ (tv_nsec d + 500000000))]; lia. }
  destruct (Z.geb_spec (tv_nsec d) 500000000).
  - rewrite wrap_small by (unfold in_u; lia). zbool; cbn; lia.
  - zbool; cbn; lia.
Qed.

(** ** Timer files *)

Definition has_timerfd s (fd a n : Z) : Prop := timerfds (state s) !! fd = Some (a, n).
Lemma timerfd_of_run fd a n s : has_timerfd s fd a n -> timerfd_of fd s = Ret (a, n) s.
Proof. intros H. unfold timerfd_of. rewrite (bind_step _ _ s s s) by done. unfold id. by rewrite H. Qed.
Lemma upd_timerfd_run fd a n g s : has_timerfd s fd a n -> exists s', upd_timerfd fd g s = Ret tt s' /\ has_timerfd s' fd (g (a, n)).1 (g (a, n)).2 /\ fds s' = fds s.
Proof.
  intros H. unfold upd_timerfd. rewrite (bind_step _ _ _ _ _ (timerfd_of_run _ _ _ _ H)), update_run. eexists. split; [done|]. split; [|by destruct s].
  unfold has_timerfd. rewrite state_set. cbn. rewrite lookup_insert_eq. by destruct (g (a, n)).
Qed.
Lemma timerfd_callback_run fd a n s : has_timerfd s fd a n -> exists s', timerfd_callback fd s = Ret tt s' /\ has_timerfd s' fd a (u64 (n + 1)) /\ fds s' = fds s.
Proof.
  intros H. unfold timerfd_callback. destruct (upd_timerfd_run fd a n (fun x => (x.1, u64 (x.2 + 1))) s H) as (s1 & E & H1 & Hf). rewrite (bind_step _ _ _ _ _ E).
  eexists. split; [reflexivity|]. split; [|by destruct s1]. unfold has_timerfd, state in *. destruct s1. cbn in *. by rewrite wakeup_clocks.
Qed.
Lemma timerfd_callbacks_run k fd a n s : has_timerfd s fd a n -> 0 <= n -> n + Z.of_nat k < 2 ^ 64 ->
  exists s', for_each (repeat tt k) (fun _ => timerfd_callback fd) s = Ret tt s' /\ has_timerfd s' fd a (n + Z.of_nat k) /\ fds s' = fds s.
Proof.
  revert n s. induction k as [|k IH]; intros n s H Hn Hk; [exists s; rewrite Z.add_0_r; done|]. destruct (timerfd_callback_run fd a n s H) as (s1 & E1 & H1 & F1).
  rewrite wrap_small in H1 by (unfold in_u; lia). destruct (IH (n + 1) s1 H1 ltac:(lia) ltac:(lia)) as (s2 & E2 & H2 & F2). exists s2. cbn [repeat for_each]. rewrite (bind_step _ _ _ _ _ E1). split; [done|]. split; [by replace (n + Z.of_nat (S k)) with (n + 1 + Z.of_nat k) by lia|congruence].
Qed.
Lemma timerfd_read_run fd a n size waits s x : has_timerfd s fd a n -> fds s !! fd = Some x -> 0 < n -> 8 <= size ->
  exists s', timerfd_read fd size waits s = Ret (8, le_bytes 8 n) s' /\ has_timerfd s' fd a 0 /\ fds s' = fds s.
Proof.
  intros H Hx Hn Hs. unfold timerfd_read. destruct (Z.ltb_spec size 8); [lia|]. rewrite (bind_step _ _ s x s) by (unfold get_fd; rewrite (bind_step _ _ s s s) by done; unfold id; by rewrite Hx).
  destruct (upd_timerfd_run fd a n (fun x => (x.1, 0)) s H) as (s1 & E1 & H1 & F1). exists s1. split; [|done].
  rewrite (bind_step _ _ s (inr n) s1); [done|]. destruct waits; cbn [timerfd_wait]; rewrite (bind_step _ _ _ _ _ (timerfd_of_run _ _ _ _ H)); cbn [snd]; (destruct (Z.eqb_spec n 0); [lia|]); cbn [negb]; by rewrite (bind_step _ _ _ _ _ E1).
Qed.

(** A timer file counts: after the timer called back [k] times a read gives [k], once; the next one would wait, and a read that waits gets what came meanwhile. *)
Theorem timerfd_counts k fd a size s x : has_timerfd s fd a 0 -> fds s !! fd = Some x -> (0 < k)%nat -> Z.of_nat k < 2 ^ 64 -> 8 <= size ->
  (exists s1 s2, for_each (repeat tt k) (fun _ => timerfd_callback fd) s = Ret tt s1 /\ timerfd_read fd size [] s1 = Ret (8, le_bytes 8 (Z.of_nat k)) s2 /\
    (has (fd_flags x) O_NONBLOCK_ = true -> timerfd_read fd size [] s2 = Ret (_EAGAIN, []) s2)) /\
  (has (fd_flags x) O_NONBLOCK_ = false -> exists s', timerfd_read fd size [(0, k)] s = Ret (8, le_bytes 8 (Z.of_nat k)) s').
Proof.
  intros H Hx Hk Hmax Hs. destruct (timerfd_callbacks_run k fd a 0 s H ltac:(lia) ltac:(lia)) as (s1 & E1 & H1 & F1). cbn [Z.add] in H1. assert (fds s1 !! fd = Some x) as Hx1 by congruence.
  destruct (timerfd_read_run fd a (Z.of_nat k) size [] s1 x H1 Hx1 ltac:(lia) Hs) as (s2 & E2 & H2 & F2). split.
  - exists s1, s2. split; [done|]. split; [done|]. intros Hn. unfold timerfd_read. destruct (Z.ltb_spec size 8); [lia|].
    rewrite (bind_step _ _ s2 x s2) by (unfold get_fd; rewrite (bind_step _ _ s2 s2 s2) by done; unfold id; by rewrite F2, Hx1). rewrite Hn.
    rewrite (bind_step _ _ s2 (inl _EAGAIN) s2); [done|]. cbn [timerfd_wait]. by rewrite (bind_step _ _ _ _ _ (timerfd_of_run _ _ _ _ H2)).
  - intros Hn. exists s2. unfold timerfd_read in *. destruct (Z.ltb_spec size 8); [lia|]. rewrite (bind_step _ _ s x s) by (unfold get_fd; rewrite (bind_step _ _ s s s) by done; unfold id; by rewrite Hx). rewrite Hn.
    rewrite (bind_step _ _ s1 x s1) in E2 by (unfold get_fd; rewrite (bind_step _ _ s1 s1 s1) by done; unfold id; by rewrite Hx1). rewrite Hn in E2.
    assert (timerfd_wait fd false [(0, k)] s = timerfd_wait fd false [] s1) as Ew; [|unfold bind in *; by rewrite Ew].
    cbn [timerfd_wait]. rewrite (bind_step _ _ _ _ _ (timerfd_of_run _ _ _ _ H)). cbn [snd]. change (0 =? 0) with true. cbn [negb]. by rewrite (bind_step _ _ _ _ _ E1).
Qed.

(** ** Numbered timers *)

Definition array_ok s : Prop := Z.of_nat (length (posix_timers (state s))) = TIMERS_MAX.
Lemma free_slot_spec l : 0 <= free_slot l <= Z.of_nat (length l) /\ (forall i, 0 <= i < free_slot l -> exists x a, l !! Z.to_nat i = Some x /\ pt_timer x = Some a) /\
  (free_slot l < Z.of_nat (length l) -> exists x, l !! Z.to_nat (free_slot l) = Some x /\ pt_timer x = None).
Proof.
  induction l as [|x l (IH1 & IH2 & IH3)]; [cbn; split_and!; lia|]. cbn [free_slot length]. destruct (pt_timer x) as [a|] eqn:E.
  - split; [lia|]. split.
    + intros i Hi. destruct (decide (i = 0)) as [->|]; [exists x, a; done|]. replace (Z.to_nat i) with (S (Z.to_nat (i - 1))) by lia. apply IH2. lia.
    + intros Hl. replace (Z.to_nat (1 + free_slot l)) with (S (Z.to_nat (free_slot l))) by lia. apply IH3. lia.
  - split; [lia|]. split; [lia|]. intros _. by exists x.
Qed.
Lemma posix_timer_at_run i x s : 0 <= i -> posix_timers (state s) !! Z.to_nat i = Some x -> posix_timer_at i s = Ret x s.
Proof. intros Hi H. unfold posix_timer_at. rewrite (bind_step _ _ s s s) by done. destruct (Z.leb_spec 0 i); [|lia]. rewrite (bind_step _ _ s tt s) by done. unfold id. by rewrite H. Qed.
Lemma posix_timer_at_outside i s : array_ok s -> TIMERS_MAX <= i -> posix_timer_at i s = Fault.
Proof.
  intros Ha Hi. unfold array_ok in Ha. unfold posix_timer_at. rewrite (bind_step _ _ s s s) by done. change TIMERS_MAX with 16 in *. destruct (Z.leb_spec 0 i); [|lia]. rewrite (bind_step _ _ s tt s) by done. unfold id. rewrite lookup_ge_None_2 by lia. done.
Qed.
Lemma fault_bind {A B} (m : V F A) (f : A -> V F B) s : m s = Fault -> bind m f s = Fault.
Proof. unfold bind. by intros ->. Qed.

(** The number of the last timer passes the check of [timer_settime], and [timer_delete] has none: both go past the end of the array. *)
Theorem timer_number_unchecked u s new old flags b i : ok u -> readable u new 16 -> bytes_at (seen u) new b -> length b = 16%nat -> array_ok s -> TIMERS_MAX <= i ->
  sys_timer_settime TIMERS_MAX flags new old u s = Fault /\ sys_timer_delete i s = Fault.
Proof.
  intros Hok Hr Hb Lb Ha Hi. split; [|unfold sys_timer_delete; by rewrite (fault_bind _ _ _ (posix_timer_at_outside i s Ha Hi))].
  destruct (copy_in_whole new (replicate 16 0) b 16 u s Hok Hr Hb) as (u1 & S1 & E1); [by rewrite Lb|done|].
  unfold sys_timer_settime, get. change (Z.to_nat 16) with 16%nat. rewrite (cbind_step _ _ _ _ _ _ _ E1). cbv iota beta. change (TIMERS_MAX >? TIMERS_MAX) with false. cbv iota.
  unfold settime, cbind at 1. apply fault_bind. unfold run. do 3 apply fault_bind. apply posix_timer_at_outside; done.
Qed.
(** Setting a timer that was deleted, or never made, reads through a null pointer. *)
Theorem timer_settime_deleted_faults u s new old flags b i x : ok u -> readable u new 16 -> bytes_at (seen u) new b -> length b = 16%nat ->
  0 <= i < TIMERS_MAX -> posix_timers (state s) !! Z.to_nat i = Some x -> pt_timer x = None -> sys_timer_settime i flags new old u s = Fault.
Proof.
  intros Hok Hr Hb Lb Hi Hx Hn. destruct (copy_in_whole new (replicate 16 0) b 16 u s Hok Hr Hb) as (u1 & S1 & E1); [by rewrite Lb|done|].
  unfold sys_timer_settime, get. change (Z.to_nat 16) with 16%nat. rewrite (cbind_step _ _ _ _ _ _ _ E1). cbv iota beta. destruct (Z.gtb_spec i TIMERS_MAX); [lia|].
  unfold settime, cbind at 1. apply fault_bind. unfold run. do 2 apply fault_bind. rewrite (bind_step _ _ _ _ _ (posix_timer_at_run i x s (proj1 Hi) Hx)). by rewrite Hn.
Qed.

(** [struct sigevent_] in memory. *)
Definition sigevent (b : list Z) (v signo method tid : Z) : Prop := b = le_bytes 4 v ++ le_bytes 4 signo ++ le_bytes 4 method ++ le_bytes 4 tid /\ in_u 32 v /\ in_u 31 signo /\ in_u 31 method /\ in_u 31 tid.
Lemma sigevent_fields b v signo method tid : sigevent b v signo method tid -> length b = 16%nat /\ le_value (take 4 b) = v /\ s32 (le_value (take 4 (drop 4 b))) = signo /\
  s32 (le_value (take 4 (drop 8 b))) = method /\ s32 (le_value (take 4 (drop 12 b))) = tid.
Proof.
  intros (-> & H1 & H2 & H3 & H4). pose proof iovec_field_length as L. assert (forall x, in_u 31 x -> s32 (le_value (le_bytes 4 x)) = x) as Hs.
  { intros x Hx. unfold in_u in *. rewrite Fpu.le_bytes_value by (unfold in_u; lia). apply swrap_small; [lia|unfold in_s; cbn; lia]. }
  split; [by rewrite !length_app, !L|]. rewrite (take_app_length' _ _ 4) by (by rewrite L). split; [apply Fpu.le_bytes_value; unfold in_u in *; lia|].
  rewrite (drop_app_length' _ _ 4) by (by rewrite L). rewrite (take_app_length' _ _ 4) by (by rewrite L). split; [by apply Hs|].
  replace 12%nat with (4 + (4 + 4))%nat by lia. replace 8%nat with (4 + 4)%nat by lia. rewrite <- !drop_drop. rewrite !(drop_app_length' _ _ 4) by (by rewrite L). rewrite (take_app_length' _ _ 4) by (by rewrite L). rewrite (take_ge _ 4) by (rewrite L; lia). split; by apply Hs.
Qed.

Lemma upd_posix_timer_run i g x s : 0 <= i -> posix_timers (state s) !! Z.to_nat i = Some x ->
  upd_posix_timer i g s = Ret tt (set_state (set_posix_timers (<[Z.to_nat i := g x]> (posix_timers (state s))) (state s)) s).
Proof. intros Hi H. unfold upd_posix_timer. by rewrite (bind_step _ _ _ _ _ (posix_timer_at_run i x s Hi H)). Qed.

(** A timer that is to signal the process is made at the lowest free number, which the caller gets. *)
Theorem timer_created u s clock rc ev out b v signo tid : ok u -> clockid_to_real clock = inr rc -> readable u ev 16 -> bytes_at (seen u) ev b -> sigevent b v signo SIGEV_SIGNAL_ tid ->
  writable_range u out 4 -> array_ok s -> let i := free_slot (posix_timers (state s)) in i < TIMERS_MAX ->
  exists u' s' t, sys_timer_create clock ev out u s = Ret (0, u') s' /\ wrote u out (le_bytes 4 i) u' /\
    posix_timers (state s') = <[Z.to_nat i := mk_posix_timer (Some (next s)) i true 0 signo v]> (posix_timers (state s)) /\ timers (state s') !! next s = Some (rc, t).
Proof.
  intros Hok Hc Hr Hb Hev Hw Ha i Hi. pose proof (sigevent_fields _ _ _ _ _ Hev) as (Lb & E1 & E2 & E3 & E4). destruct (free_slot_spec (posix_timers (state s))) as (Hi0 & _ & Hx). fold i in Hi0, Hx. unfold array_ok in Ha. destruct (Hx ltac:(lia)) as (x & Hx1 & _).
  destruct (copy_in_whole ev (replicate 16 0) b 16 u s Hok Hr Hb) as (u1 & S1 & R1); [by rewrite Lb|done|]. pose proof iovec_field_length as L.
  destruct (copy_out_run out (le_bytes 4 i) 4 (le_bytes 4 i) u1 s (sm_ok _ _ S1) ltac:(lia)) as (u2 & W2 & R2); [by eapply writable_same|by rewrite take_ge by (rewrite L; lia)|by rewrite L|].
  destruct (new_timer_run rc s) as (t & s1 & N1 & Nt & _ & Np & _). set (s2 := set_state (set_posix_timers (<[Z.to_nat i := mk_posix_timer (Some (next s)) i true 0 signo v]> (posix_timers (state s1))) (state s1)) s1). exists u2, s2, t. split; [|split; [by eapply wrote_same|]].
  - unfold sys_timer_create. rewrite Hc. unfold get. change (Z.to_nat 16) with 16%nat. rewrite (cbind_step _ _ _ _ _ _ _ R1). cbv iota beta. rewrite E1, E2, E3, E4. change (negb (SIGEV_SIGNAL_ =? SIGEV_SIGNAL_) && _ && _) with false. cbv iota. change (SIGEV_SIGNAL_ =? SIGEV_THREAD_ID_) with false. cbv iota.
    rewrite (run_step _ _ _ _ true s) by done. cbv iota beta. cbn [negb]. rewrite (run_step _ _ _ _ s s) by done. fold i. destruct (Z.geb_spec i TIMERS_MAX); [lia|]. unfold put. rewrite L. change (Z.of_nat 4) with 4.
    rewrite (cbind_step _ _ _ _ _ _ _ R2). cbv iota. unfold run. rewrite (bind_step _ _ s 0 s2); [reflexivity|]. rewrite (bind_step _ _ _ _ _ N1). rewrite <- Np in Hx1. rewrite (bind_step _ _ _ _ _ (upd_posix_timer_run i _ x s1 (proj1 Hi0) Hx1)). reflexivity.
  - unfold s2. rewrite state_set. cbn. rewrite Np, Nt, lookup_insert_eq. done.
Qed.

(** A timer that is to signal the process never does, as its thread has number 0, which is nobody's. *)
Theorem signal_timer_silent s i x signo v : 0 <= i -> posix_timers (state s) !! Z.to_nat i = Some x -> (exists a, x = mk_posix_timer (Some a) i true 0 signo v) ->
  pid_get_task 0 (fsd s) = false -> (forall f c, pid_get_task 0 (put_clocks c f) = pid_get_task 0 f) -> pids_locked (state s) = false ->
  exists s', posix_timer_callback i s = Ret tt s' /\ sent (state s') = sent (state s).
Proof.
  intros Hi Hx (a & ->) Hn Hp Hl. unfold posix_timer_callback, lock_pids, unlock_pids. rewrite (bind_step _ _ _ _ _ (posix_timer_at_run i _ s Hi Hx)). cbn [pt_group negb pt_thread_pid pt_signal pt_timer_id pt_sig_value].
  set (s1 := set_state (set_pids_locked true (state s)) s). rewrite (bind_step _ _ s tt s1) by (rewrite (bind_step _ _ s s s) by done; unfold id; by rewrite Hl). rewrite (bind_step _ _ s1 s1 s1) by done. unfold id.
  assert (pid_get_task 0 (fsd s1) = false) as -> by (unfold s1, set_state; destruct s; cbn in *; by rewrite Hp). rewrite (bind_step _ _ s1 tt s1) by done. rewrite update_run. eexists. split; [reflexivity|]. rewrite state_set. unfold s1. by rewrite state_set.
Qed.

(** Asking for a thread that is not there leaves the lock of the process table held: the next timer that has somebody to signal waits for it forever. *)
Theorem timer_create_keeps_lock u s clock rc ev out b v signo tid : ok u -> clockid_to_real clock = inr rc -> readable u ev 16 -> bytes_at (seen u) ev b ->
  sigevent b v signo SIGEV_THREAD_ID_ tid -> pids_locked (state s) = false -> pid_get_task tid (fsd s) = false -> (forall f c, pid_get_task tid (put_clocks c f) = pid_get_task tid f) ->
  exists u' s', sys_timer_create clock ev out u s = Ret (_EINVAL, u') s' /\ forall i x, 0 <= i -> posix_timers (state s) !! Z.to_nat i = Some x -> pt_group x = true -> posix_timer_callback i s' = Hang.
Proof.
  intros Hok Hc Hr Hb Hev Hl Hn Hp. pose proof (sigevent_fields _ _ _ _ _ Hev) as (Lb & E1 & E2 & E3 & E4).
  destruct (copy_in_whole ev (replicate 16 0) b 16 u s Hok Hr Hb) as (u1 & S1 & R1); [by rewrite Lb|done|]. set (s1 := set_state (set_pids_locked true (state s)) s). exists u1, s1. split.
  - unfold sys_timer_create. rewrite Hc. unfold get. change (Z.to_nat 16) with 16%nat. rewrite (cbind_step _ _ _ _ _ _ _ R1). cbv iota beta. rewrite E1, E2, E3, E4. change (_ && negb (SIGEV_THREAD_ID_ =? SIGEV_THREAD_ID_)) with false. cbv iota. change (SIGEV_THREAD_ID_ =? SIGEV_THREAD_ID_) with true. cbv iota.
    rewrite (run_step _ _ _ _ false s1); [done|]. rewrite (bind_step _ _ s tt s1) by (unfold lock_pids; rewrite (bind_step _ _ s s s) by done; unfold id; by rewrite Hl). rewrite (bind_step _ _ s1 s1 s1) by done. unfold id.
    assert (pid_get_task tid (fsd s1) = false) as -> by (unfold s1, set_state; destruct s; cbn in *; by rewrite Hp). done.
  - intros i x Hi Hx Hg. assert (posix_timers (state s1) !! Z.to_nat i = Some x) as Hx1 by (unfold s1; by rewrite state_set). unfold posix_timer_callback, lock_pids. rewrite (bind_step _ _ _ _ _ (posix_timer_at_run i x s1 Hi Hx1)), Hg. cbn [negb].
    assert (pids_locked (state s1) = true) as El by (unfold s1; by rewrite state_set). unfold bind at 1, bind at 1, gets, id. by rewrite El.
Qed.

End Steps.

(** ** A process that sets its timer *)

Module Demo.
Abbreviation guest := Files.Demo.guest.
#[local] Instance guest_space : Space guest := Exec.Demo.demo_space.
#[local] Instance guest_laws : SpaceLaws guest := Exec.Demo.demo_laws.
Abbreviation data := (clocks * Adhoc.adhoc)%type.
#[local] Instance demo_adhoc : HasAdhoc data.
Proof.
  refine {| Adhoc.get_adhoc x := x.2; Adhoc.put_adhoc a x := (x.1, a); Adhoc.adhoc_mount := 9; Adhoc.eventfd_ops := 20; Adhoc.realfs_fdops := 21; Adhoc.host_pipe := ret (0, (3, 4));
    Adhoc.host_close _ := ret tt; Adhoc.wakeup _ _ x := x |}; done.
Defined.
#[local] Instance demo_clocks : HasClocks data.
Proof.
  refine {| get_clocks x := x.1; put_clocks c x := (c, x.2); timerfd_ops := 22; timespec_now_ _ _ := mk_timespec 100 999999999; host_time _ := 100; clock_gettime _ _ := (0, mk_timespec 100 999999999);
    clock_getres _ _ := (0, mk_timespec 0 1); nanosleep _ := ret (0, mk_timespec 0 0); gettimeofday _ := (0, (100, 0), (0, 0)); rusage_get_current _ := ((0, 0), (0, 0)); errno_map _ := _EINVAL;
    junk _ := (mk_timespec 1 2, mk_timespec 3 4, mk_timespec 5 6); pid_get_task p _ := p =? 1; leader _ := 1 |}; done.
Defined.
Definition start : vfs data :=
  mk_vfs (mk_clocks ∅ [] None (replicate 16 (mk_posix_timer None 0 false 0 0 0)) ∅ false [], Adhoc.mk_adhoc ∅ ∅ ∅ ∅) [] ∅ ∅ ∅ ∅ Tmpfs.Demo.user0 60.

(** Every 1.5 seconds, after 2.25 seconds. *)
Definition wanted : list Z := le_bytes 4 1 ++ le_bytes 4 500000 ++ le_bytes 4 2 ++ le_bytes 4 250000.
Lemma itimer_read_back_witness : exists (u u1 u2 : guest) s1 s2, sys_setitimer ITIMER_REAL_ Files.Demo.BASE 0 u start = Ret (0, u1) s1 /\
  sys_setitimer ITIMER_REAL_ Files.Demo.BASE (Files.Demo.BASE + 4096) u1 s1 = Ret (0, u2) s2 /\ bytes_at (seen u2) (Files.Demo.BASE + 4096) wanted.
Proof.
  destruct (Files.Demo.memory_with wanted) as (u & Hok & Hb & Hm); [by vm_compute|]. exists u.
  destruct (itimer_read_back u start Files.Demo.BASE (Files.Demo.BASE + 4096) wanted 1 500000 2 250000 (mk_timespec 100 999999999) Hok) as (u1 & s1 & u2 & s2 & E1 & E2 & [_ Hs _ _]);
    [discriminate|reflexivity|unfold normal; cbn; lia|split; [reflexivity|unfold in_u; lia]|apply Hm; lia|exact Hb|discriminate|apply Hm; lia|].
  exists u1, u2, s1, s2. split; [exact E1|]. split; [exact E2|]. eapply bytes_at_ext; [intros x Hx; apply Hs|apply bytes_at_store].
Defined.
End Demo.
End Clocks.
