(* ===== verification/Ptrace.v ===== *)
(** * Tracing (kernel/ptrace.c, kernel/ptrace.h)

    A task looks at and changes its stopped children.  The state is that of the tasks with, beside it, the address spaces, which tasks may share, the locks that guard the tracing of
    each task, what a stopped task was stopped by, and whom a notification went to.  Memory is an instance of [Space] with writes of a debugger.  Each address space stands here for itself:
    host memory that two of them share, as after a fork, is the matter of [Cow] and [User]. *)

From S2P Require Import Prelude Errno Float80 Cpu Fpu Memory Cow User Task Signal Group Exit Space Exec.

Module Ptrace.
Import Errno Task Space.
Abbreviation le_bytes := Fpu.le_bytes.
Abbreviation le_value := Fpu.le_value.

Definition PTRACE_TRACEME_ : Z := 0.
Definition PTRACE_PEEKTEXT_ : Z := 1.
Definition PTRACE_PEEKDATA_ : Z := 2.
Definition PTRACE_PEEKUSER_ : Z := 3.
Definition PTRACE_POKETEXT_ : Z := 4.
Definition PTRACE_POKEDATA_ : Z := 5.
Definition PTRACE_CONT_ : Z := 7.
Definition PTRACE_KILL_ : Z := 8.
Definition PTRACE_SINGLESTEP_ : Z := 9.
Definition PTRACE_GETREGS_ : Z := 12.
Definition PTRACE_SETREGS_ : Z := 13.
Definition PTRACE_GETFPREGS_ : Z := 14.
Definition PTRACE_SETFPREGS_ : Z := 15.
Definition PTRACE_SETOPTIONS_ : Z := 0x4200.
Definition PTRACE_GETSIGINFO_ : Z := 0x4202.

(** Writes of a debugger, which do not ask whether the page may be written. *)
Class Debugged (U : Type) {SP : Space U} := { user_write_ptrace : U -> Z -> list Z -> option (Z * U) }.

(** ** State *)

(** The address space of each task, by its address; the locks that are held; the information about the last stop, as bytes; and who was notified, the last one first. *)
Record tracing (U : Type) := mk_tracing {
  kern : kernel;
  mem_of : gmap Z Z;
  mems : gmap Z U;
  held : gset Z;
  infos : gmap Z (list Z);
  notified : list Z }.
Arguments mk_tracing {U}.
Arguments kern {U}.
Arguments mem_of {U}.
Arguments mems {U}.
Arguments held {U}.
Arguments infos {U}.
Arguments notified {U}.

(** A crash of the emulator, and a thread that waits for a lock it holds. *)
Inductive result (U A : Type) := Done (a : A) (t : tracing U) | Crash | Stuck.
Arguments Done {U A}.
Arguments Crash {U A}.
Arguments Stuck {U A}.
Definition P (U A : Type) := tracing U -> result U A.
Definition pret {U A} (a : A) : P U A := fun t => Done a t.
Definition pbind {U A B} (m : P U A) (f : A -> P U B) : P U B := fun t =>
  match m t with Done a t => f a t | Crash => Crash | Stuck => Stuck end.
Declare Scope ptrace_scope.
Notation "'let+' x := m 'in' f" := (pbind m (fun x => f)) (at level 10, x pattern, m at level 100, f at level 200) : ptrace_scope.
Open Scope ptrace_scope.

Section Operations.
Context {U : Type} {SP : Space U} {DB : Debugged U}.
Implicit Types t : tracing U.

Definition set_kern (k : kernel) t : tracing U := mk_tracing k (mem_of t) (mems t) (held t) (infos t) (notified t).
Definition set_mems (m : gmap Z U) t : tracing U := mk_tracing (kern t) (mem_of t) m (held t) (infos t) (notified t).
Definition set_held (h : gset Z) t : tracing U := mk_tracing (kern t) (mem_of t) (mems t) h (infos t) (notified t).

(** A step of the kernel; none that is used here ends the task. *)
Definition kernel_step {A} (m : M A) : P U A := fun t =>
  match m (kern t) with Ret a k => Done a (set_kern k t) | Deadlock => Stuck | Panic | Exited _ => Crash end.
Definition need {A} (o : option A) : P U A := match o with Some a => pret a | None => fun _ => Crash end.
Definition look {A} (f : tracing U -> A) : P U A := fun t => Done (f t) t.
Definition change (f : tracing U -> tracing U) : P U unit := fun t => Done tt (f t).

Definition lock_ptrace (p : Z) : P U unit := fun t => if decide (p ∈ held t) then Stuck else Done tt (set_held ({[ p ]} ∪ held t) t).
Definition unlock_ptrace (p : Z) : P U unit := change (fun t => set_held (held t ∖ {[ p ]}) t).
Definition notify_ptrace (p : Z) : P U unit := change (fun t => mk_tracing (kern t) (mem_of t) (mems t) (held t) (infos t) (p :: notified t)).

(** ** Memory of a task *)

Definition space_of (p : Z) : P U (Z * U) :=
  let+ a := look (fun t => mem_of t !! p) in
  let+ a := need a in
  let+ u := look (fun t => mems t !! a) in
  let+ u := need u in
  pret (a, u).
Definition store_space (a : Z) (u : U) : P U unit := change (fun t => set_mems (<[a := u]> (mems t)) t).
(** The bytes, or that the memory is not accessible. *)
Definition read_task (p addr : Z) (size : nat) : P U (option (list Z)) :=
  let+ (a, u) := space_of p in
  let+ (err, bytes, u) := need (user_read u addr (replicate size 0)) in
  let+ _ := store_space a u in
  pret (if ctrue err then None else Some bytes).
Definition write_task (write : U -> Z -> list Z -> option (Z * U)) (p addr : Z) (bytes : list Z) : P U bool :=
  let+ (a, u) := space_of p in
  let+ (err, u) := need (write u addr bytes) in
  let+ _ := store_space a u in
  pret (ctrue err).
Definition put_current (addr : Z) (bytes : list Z) : P U bool :=
  let+ c := look (fun t => current (kern t)) in write_task user_write c addr bytes.
Definition get_current (addr : Z) (size : nat) : P U (option (list Z)) :=
  let+ c := look (fun t => current (kern t)) in read_task c addr size.

(** ** Registers *)

(** [struct user_regs_struct_] as it is in memory: the segment registers are 0. *)
Definition get_user_regs (cpu : regs) : list Z :=
  mjoin (le_bytes 4 <$> [ebx cpu; ecx cpu; edx cpu; esi cpu; edi cpu; ebp cpu; eax cpu; 0; 0; 0; 0; eax cpu; eip cpu; 0; Cpu.eflags (fl cpu); esp cpu; 0]).
Definition word (i : nat) (b : list Z) : Z := le_value (take 4 (drop (4 * i) b)).
Definition set_user_regs (b : list Z) (cpu : regs) : regs :=
  mk_regs (word 6 b) (word 0 b) (word 1 b) (word 2 b) (word 3 b) (word 4 b) (word 5 b) (word 15 b) (word 12 b)
    (Cpu.set_eflags (word 14 b) (fl cpu)) (trapno cpu) (segfault_addr cpu).
(** [struct user_], with padding to 288 bytes. *)
Definition SIZEOF_USER : Z := 288.
Definition user_ (cpu : regs) : list Z := get_user_regs cpu ++ replicate (Z.to_nat (SIZEOF_USER - 68)) 0.
Definition SIZEOF_REGS : nat := 68.
Definition SIZEOF_FPREGS : nat := 108.

(** The trap flag. *)
Definition set_tf (v : Z) (r : regs) : regs := set_fl (Cpu.set_eflags (Cpu.set_bits 8 1 v (Cpu.eflags (fl r))) (fl r)) r.

(** ** Children *)

(** Walks the children of the task; the one that is found is locked. *)
Fixpoint find_in (l : list Z) (pid : Z) : P U (option Z) :=
  match l with
  | [] => pret None
  | c :: l =>
      if c =? pid then
        let+ _ := lock_ptrace c in
        let+ x := kernel_step (get_task c) in
        if ptrace_stopped x then pret (Some c)
        else let+ _ := unlock_ptrace c in find_in l pid
      else find_in l pid
  end.
Definition find_child (pid : Z) : P U (option Z) :=
  let+ c := look (fun t => current (kern t)) in
  let+ x := kernel_step (get_task c) in
  find_in (children x) pid.

(** A request about a child; the ones that end by releasing the lock return 0. *)
Definition with_child (pid : Z) (k : Z -> P U Z) : P U Z :=
  let+ c := find_child pid in
  match c with None => pret _EPERM | Some c => k c end.
Definition unlocked (c r : Z) : P U Z := let+ _ := unlock_ptrace c in pret r.
Definition upd (c : Z) (f : task -> task) : P U unit := kernel_step (upd_task c f).

(** The process number of a request is of type [dword_t] and compared as [pid_t_]. *)
Definition sys_ptrace (request pid addr data : Z) : P U Z :=
  let pid := s32 pid in
  if request =? PTRACE_TRACEME_ then
    let+ c := look (fun t => current (kern t)) in
    let+ _ := upd c (set_traced true) in
    pret 0
  else if (request =? PTRACE_PEEKTEXT_) || (request =? PTRACE_PEEKDATA_) then
    with_child pid (fun child =>
      let+ peek := read_task child addr 4 in
      match peek with
      | None => unlocked child _EFAULT
      | Some peek => let+ err := put_current data peek in unlocked child (if err then _EFAULT else 0)
      end)
  else if request =? PTRACE_PEEKUSER_ then
    with_child pid (fun child =>
      let+ x := kernel_step (get_task child) in
      if ctrue (Z.land addr 3) || (addr >=? SIZEOF_USER) then pret _EIO
      else
        let+ err := put_current data (take 4 (drop (Z.to_nat addr) (user_ (cpu x)))) in
        unlocked child (if err then _EFAULT else 0))
  else if (request =? PTRACE_POKETEXT_) || (request =? PTRACE_POKEDATA_) then
    with_child pid (fun child =>
      let+ err := write_task user_write_ptrace child addr (le_bytes 4 data) in
      unlocked child (if err then _EFAULT else 0))
  else if request =? PTRACE_CONT_ then
    with_child pid (fun child =>
      let+ _ := upd child (fun x => set_ptrace_stopped false (set_cpu (set_tf 0 (cpu x)) x)) in
      let+ _ := notify_ptrace child in
      unlocked child 0)
  else if request =? PTRACE_KILL_ then
    with_child pid (fun child =>
      let+ _ := upd child (set_ptrace_stopped false) in
      let+ _ := kernel_step (Signal.send_signal child SIGKILL_ SIGINFO_NIL) in
      unlocked child 0)
  else if request =? PTRACE_SINGLESTEP_ then
    with_child pid (fun child =>
      let+ _ := upd child (fun x => set_ptrace_stopped false (set_cpu (set_tf 1 (cpu x)) x)) in
      let+ _ := notify_ptrace child in
      unlocked child 0)
  else if request =? PTRACE_GETREGS_ then
    with_child pid (fun child =>
      let+ x := kernel_step (get_task child) in
      let+ err := put_current data (get_user_regs (cpu x)) in
      unlocked child (if err then _EFAULT else 0))
  else if request =? PTRACE_SETREGS_ then
    with_child pid (fun child =>
      let+ user_regs := get_current data SIZEOF_REGS in
      match user_regs with
      | None => pret _EFAULT
      | Some b => let+ _ := upd child (fun x => set_cpu (set_user_regs b (cpu x)) x) in unlocked child 0
      end)
  else if request =? PTRACE_GETFPREGS_ then
    with_child pid (fun child =>
      let+ err := put_current data (replicate SIZEOF_FPREGS 0) in
      unlocked child (if err then _EFAULT else 0))
  else if request =? PTRACE_SETFPREGS_ then
    with_child pid (fun child =>
      let+ user_fpregs := get_current data SIZEOF_FPREGS in
      match user_fpregs with None => pret _EFAULT | Some _ => unlocked child 0 end)
  else if request =? PTRACE_SETOPTIONS_ then pret _EINVAL
  else if request =? PTRACE_GETSIGINFO_ then
    with_child pid (fun child =>
      if data =? 0 then unlocked child 0
      else
        let+ info := look (fun t => infos t !! child) in
        let+ info := need info in
        let+ err := put_current data info in
        if err then pret _EFAULT else unlocked child 0)
  else pret _EPERM.

End Operations.

(** ** What a debugger's writes promise *)

(** Pages that are there are written whatever their protection; nothing else that is there changes. *)
Class DebuggedLaws (U : Type) {SP : Space U} {DB : Debugged U} {SL : SpaceLaws U} := {
  ptrace_write_law : forall u a bs, ok u -> 0 <= a -> a + Z.of_nat (length bs) <= User.LAST_PAGE -> (forall x, a <= x < a + Z.of_nat (length bs) -> present u x) ->
    exists u', user_write_ptrace u a bs = Some (0, u') /\ ok u' /\ forall x, present u x -> present u' x /\ seen u' x = store (seen u) a bs x;
}.

(** Guest memory keeps the law. *)
Section GuestMemory.
Context {PS : Memory.PageSize} (vdso : Z) (mmap_at : Memory.world -> Z -> Z + Z) (malloc_data : Memory.world -> option Z) {HA : Cow.HostAlloc mmap_at malloc_data} {HM : Cow.HostHasMemory mmap_at malloc_data} (ext : Z -> Z).
Abbreviation guest := (Memory.world * Memory.mem)%type.
#[local] Existing Instance guest_space.

#[global] Instance guest_debugged : Debugged guest (SP := guest_space vdso mmap_at malloc_data) :=
  {| user_write_ptrace u a bs := write_result (User.user_write_task_ptrace vdso mmap_at malloc_data u.1 u.2 a bs (Z.of_nat (length bs))) |}.

Lemma present_byte u x : guest_ok vdso ext u -> guest_present u x <-> is_Some (User.guest_byte u.1 u.2 x).
Proof.
  intros Hok. unfold guest_present. rewrite User.guest_byte_Some. split.
  - intros [e He]. exists e. split; [done|]. by eapply (User.sp_backed _ _ _ _ Hok).
  - intros (e & He & _). eauto.
Qed.
#[global] Instance guest_debugged_laws : DebuggedLaws guest (DB := guest_debugged) (SL := guest_laws vdso mmap_at malloc_data ext).
Proof.
  constructor. intros u a bs Hok Ha Hend Hp. cbn in Hok, Hp. destruct (User.user_write_task_gen_ok vdso mmap_at malloc_data u.1 u.2 ext a bs (Z.of_nat (length bs)) true Hok Ha ltac:(lia) Hend eq_refl) as (res & w' & m' & E & Hok' & Hres).
  assert (res = 0 /\ User.written a bs u.1 u.2 (a + Z.of_nat (length bs)) w' m') as [-> (W1 & W2 & _)].
  { destruct Hres as [?|(_ & x & Hx & (_ & W2 & _) & Hna)]; [done|]. destruct Hna. pose proof (proj1 (present_byte u x Hok) (Hp x Hx)) as Hs.
    rewrite <- (W2 x ltac:(lia) Hs) in Hs. apply (present_byte (w', m') x Hok') in Hs as [e He]. unfold Cow.accessible. cbn in He. by rewrite He. }
  exists (w', m'). cbn. unfold User.user_write_task_ptrace. rewrite E. split; [done|]. split; [done|]. intros x Hx. apply (present_byte u x Hok) in Hx. destruct (decide (a <= x < a + Z.of_nat (length bs))) as [Hin|Hout].
  - pose proof (W1 x Hin) as Eb. destruct (lookup_lt_is_Some_2 bs (Z.to_nat (x - a)) ltac:(lia)) as [b Hb]. rewrite Hb in Eb. split; [apply (present_byte (w', m') x Hok'); by exists b|].
    unfold guest_seen. cbn. rewrite Eb. cbn. symmetry. eapply store_in; [exact Hb|lia].
  - pose proof (W2 x Hout Hx) as Eb. split; [apply (present_byte (w', m') x Hok'); cbn; by rewrite Eb|]. rewrite store_out by done. unfold guest_seen. cbn. by rewrite Eb.
Qed.
End GuestMemory.

(** ** Steps *)

Section Steps.
Context {U : Type} {SP : Space U} {DB : Debugged U} {SL : SpaceLaws U} {DL : DebuggedLaws U}.
Implicit Types t : tracing U.

Lemma pbind_step {A B} (m : P U A) (f : A -> P U B) t a t' : m t = Done a t' -> pbind m f t = f a t'.
Proof. unfold pbind. by intros ->. Qed.
Lemma set_held_id t : set_held (held t) t = t.
Proof. by destruct t. Qed.
Lemma get_task_step c x t : tasks (kern t) !! c = Some x -> kernel_step (get_task c) t = Done x t.
Proof. intros H. unfold kernel_step, get_task, bind, gets, id, deref. rewrite H. cbn. by destruct t. Qed.
Lemma upd_step c x f t : tasks (kern t) !! c = Some x -> upd c f t = Done tt (set_kern (Task.set_tasks (<[c := f x]> (tasks (kern t))) (kern t)) t).
Proof. intros H. unfold upd, kernel_step, upd_task, get_task, bind, gets, id, deref, modify. by rewrite H. Qed.
Lemma unlock_held p t : p ∉ held t -> set_held (held (set_held ({[ p ]} ∪ held t) t) ∖ {[ p ]}) (set_held ({[ p ]} ∪ held t) t) = t.
Proof. intros H. destruct t. unfold set_held. cbn in *. f_equal. apply set_eq. intros x. rewrite elem_of_difference, elem_of_union, elem_of_singleton. destruct (decide (x = p)) as [->|]; tauto. Qed.

(** [c] is a child of the current task and stopped, and nobody has its lock. *)
Record stopped_child t (c : Z) (x : task) : Prop := {
  sc_parent : exists me, tasks (kern t) !! current (kern t) = Some me /\ c ∈ children me;
  sc_task : tasks (kern t) !! c = Some x;
  sc_stopped : ptrace_stopped x = true;
  sc_free : c ∉ held t }.
(** The state with the lock of [c]. *)
Definition locked (c : Z) t : tracing U := set_held ({[ c ]} ∪ held t) t.

Lemma find_in_stopped l c x t : c ∈ l -> tasks (kern t) !! c = Some x -> ptrace_stopped x = true -> c ∉ held t -> find_in l c t = Done (Some c) (locked c t).
Proof.
  intros Hin Hx Hs Hh. induction l as [|d l IH]; [by apply elem_of_nil in Hin|]. cbn [find_in]. destruct (Z.eqb_spec d c) as [->|Hne]; [|apply IH; apply elem_of_cons in Hin as [->|]; done].
  rewrite (pbind_step _ _ t tt (locked c t)) by (unfold lock_ptrace; by rewrite decide_False). rewrite (pbind_step _ _ (locked c t) x (locked c t)) by (by apply get_task_step). by rewrite Hs.
Qed.
Lemma find_in_other l c t : c ∉ held t -> (c ∈ l -> exists x, tasks (kern t) !! c = Some x /\ ptrace_stopped x = false) -> find_in l c t = Done None t.
Proof.
  intros Hh. induction l as [|d l IH]; intros Hx; [done|]. cbn [find_in]. assert (find_in l c t = Done None t) as E by (apply IH; intros Hl; apply Hx, elem_of_cons; by right).
  destruct (Z.eqb_spec d c) as [->|Hne]; [|done]. destruct (Hx ltac:(apply elem_of_cons; by left)) as (x & Hc & Hs).
  rewrite (pbind_step _ _ t tt (locked c t)) by (unfold lock_ptrace; by rewrite decide_False). rewrite (pbind_step _ _ (locked c t) x (locked c t)) by (by apply get_task_step). rewrite Hs.
  rewrite (pbind_step _ _ (locked c t) tt t); [done|]. unfold unlock_ptrace, change, locked. by rewrite unlock_held.
Qed.
Lemma with_child_step t c x k : stopped_child t c x -> with_child c k t = k c (locked c t).
Proof.
  intros [(me & Hme & Hin) Hx Hs Hh]. unfold with_child. rewrite (pbind_step _ _ t (Some c) (locked c t)); [done|]. unfold find_child. rewrite (pbind_step _ _ t (current (kern t)) t) by done.
  rewrite (pbind_step _ _ _ _ _ (get_task_step _ _ _ Hme)). by apply (find_in_stopped _ c x).
Qed.
Lemma unlocked_step c r t1 t : unlock_ptrace c t1 = Done tt t -> unlocked c r t1 = Done r t.
Proof. intros H. unfold unlocked. by rewrite (pbind_step _ _ _ _ _ H). Qed.

(** nobody is traced who did not stop for it: a request about a process that is not a stopped child of the caller fails and changes nothing, neither memory nor registers. *)
Theorem only_stopped_children t request pid addr data me : in_u 31 pid -> request <> PTRACE_TRACEME_ -> request <> PTRACE_SETOPTIONS_ -> tasks (kern t) !! current (kern t) = Some me ->
  pid ∉ held t -> (pid ∈ children me -> exists x, tasks (kern t) !! pid = Some x /\ ptrace_stopped x = false) -> sys_ptrace request pid addr data t = Done _EPERM t.
Proof.
  intros Hp H0 H1 Hme Hh Hx. assert (forall k, with_child pid k t = Done _EPERM t) as W.
  { intros k. unfold with_child. rewrite (pbind_step _ _ t None t); [done|]. unfold find_child. rewrite (pbind_step _ _ t (current (kern t)) t) by done. rewrite (pbind_step _ _ _ _ _ (get_task_step _ _ _ Hme)). by apply find_in_other. }
  unfold sys_ptrace. rewrite swrap_small by (unfold in_u, in_s in *; cbn; lia). destruct (Z.eqb_spec request PTRACE_TRACEME_); [done|]. destruct (Z.eqb_spec request PTRACE_SETOPTIONS_); [done|]. repeat case_match; (apply W || done).
Qed.

(** ** Memory *)

(** The task has the address space at [a], which is [u]. *)
Definition has_space t (p a : Z) (u : U) : Prop := mem_of t !! p = Some a /\ mems t !! a = Some u.
Lemma space_of_step t p a u : has_space t p a u -> space_of p t = Done (a, u) t.
Proof.
  intros [H1 H2]. unfold space_of. rewrite (pbind_step _ _ t (Some a) t) by (unfold look; by rewrite H1). rewrite (pbind_step _ _ t a t), (pbind_step _ _ t (Some u) t) by (unfold look; rewrite ?H2; done). by rewrite (pbind_step _ _ t u t).
Qed.
Definition with_space (a : Z) (u : U) t : tracing U := set_mems (<[a := u]> (mems t)) t.
Lemma read_task_step t p a u addr bs : has_space t p a u -> ok u -> 0 <= addr -> addr + Z.of_nat (length bs) <= User.LAST_PAGE -> (forall x, addr <= x < addr + Z.of_nat (length bs) -> present u x \/ writable u x) ->
  bytes_at (seen u) addr bs -> exists u', read_task p addr (length bs) t = Done (Some bs) (with_space a u' t) /\ ok u' /\ (forall x, seen u' x = seen u x) /\ (forall x, present u x -> present u' x) /\ (forall x, writable u x -> writable u' x).
Proof.
  intros Hs Hok Ha Hend Hr Hb. destruct (read_law u addr (replicate (length bs) 0) Hok Ha) as (bs' & u' & E & Hok' & Hw & Hp & Hseen & Hlen & Hb'); [by rewrite length_replicate..|]. rewrite length_replicate in Hlen.
  assert (bs' = bs) as -> by (apply (list_eq_same_length bs' bs (length bs) eq_refl Hlen); intros i x y _ Hx Hy; rewrite <- (Hb' i x Hx); by apply Hb).
  exists u'. split; [|done]. unfold read_task. rewrite (pbind_step _ _ _ _ _ (space_of_step _ _ _ _ Hs)), E. by rewrite (pbind_step _ _ t (0, bs, u') t).
Qed.
Lemma write_task_step (write : U -> Z -> list Z -> option (Z * U)) t p a u addr bs u' : has_space t p a u -> write u addr bs = Some (0, u') -> write_task write p addr bs t = Done false (with_space a u' t).
Proof. intros Hs E. unfold write_task. rewrite (pbind_step _ _ _ _ _ (space_of_step _ _ _ _ Hs)), E. by rewrite (pbind_step _ _ t (0, u') t). Qed.

Lemma has_space_held c t p a u : has_space t p a u -> has_space (locked c t) p a u.
Proof. by destruct t. Qed.
Lemma has_space_with t p a u u' : has_space t p a u -> has_space (with_space a u' t) p a u'.
Proof. intros [H _]. split; [by destruct t|]. destruct t. apply lookup_insert_eq. Qed.
Lemma has_space_other t p a u b v : a <> b -> has_space t p a u -> has_space (with_space b v t) p a u.
Proof. intros Hne [H1 H2]. split; [by destruct t|]. destruct t. cbn in *. by rewrite lookup_insert_ne. Qed.
Lemma stopped_with t c x a u : stopped_child t c x -> stopped_child (with_space a u t) c x.
Proof. intros [(me & ? & ?) ? ? ?]. by split; [exists me|..]; destruct t. Qed.
Lemma unlock_with c t a u : c ∉ held t -> unlock_ptrace c (with_space a u (locked c t)) = Done tt (with_space a u t).
Proof. intros H. unfold unlock_ptrace, change. f_equal. pose proof (unlock_held c t H) as E. destruct t. unfold with_space, locked, set_mems, set_held in *. cbn in *. congruence. Qed.

Lemma four_bytes v : length (le_bytes 4 v) = 4%nat.
Proof. by rewrite Fpu.le_bytes_length by lia. Qed.

(** The requests one by one. *)
Lemma poke_is c addr v : sys_ptrace PTRACE_POKEDATA_ c addr v =
  with_child (s32 c) (fun child => let+ err := write_task user_write_ptrace child addr (le_bytes 4 v) in unlocked child (if err then _EFAULT else 0)).
Proof. done. Qed.
Lemma peek_is c addr data : sys_ptrace PTRACE_PEEKDATA_ c addr data = with_child (s32 c) (fun child =>
  let+ peek := read_task child addr 4 in
  match peek with None => unlocked child _EFAULT | Some peek => let+ err := put_current data peek in unlocked child (if err then _EFAULT else 0) end).
Proof. done. Qed.

(** A word is stored in a child, whatever the protection of its pages. *)
Lemma poke_step t c x a u addr v : stopped_child t c x -> in_u 31 c -> has_space t c a u -> ok u -> 0 <= addr -> addr + 4 <= User.LAST_PAGE -> (forall y, addr <= y < addr + 4 -> present u y) ->
  exists u', sys_ptrace PTRACE_POKEDATA_ c addr v t = Done 0 (with_space a u' t) /\ ok u' /\ forall y, present u y -> present u' y /\ seen u' y = store (seen u) addr (le_bytes 4 v) y.
Proof.
  intros Hc Hp Hs Hok Ha Hend Hpr. destruct (ptrace_write_law u addr (le_bytes 4 v) Hok Ha) as (u' & E & Hok' & Hseen); [rewrite four_bytes; done..|]. exists u'. split; [|done].
  rewrite poke_is, swrap_small by (unfold in_u, in_s in *; cbn; lia). rewrite (with_child_step t c x _ Hc). rewrite (pbind_step _ _ _ _ _ (write_task_step user_write_ptrace _ _ _ _ _ _ _ (has_space_held _ _ _ _ _ Hs) E)).
  apply unlocked_step. apply unlock_with, Hc.
Qed.
(** A word of a child is copied to the memory of the caller. *)
Lemma peek_step t c x a u addr b w data bs : stopped_child t c x -> in_u 31 c -> has_space t c a u -> has_space t (current (kern t)) b w -> a <> b -> ok u -> ok w -> length bs = 4%nat ->
  0 <= addr -> addr + 4 <= User.LAST_PAGE -> (forall y, addr <= y < addr + 4 -> present u y) -> bytes_at (seen u) addr bs ->
  0 <= data -> data + 4 <= User.LAST_PAGE -> (forall y, data <= y < data + 4 -> writable w y) ->
  exists u' w', sys_ptrace PTRACE_PEEKDATA_ c addr data t = Done 0 (with_space b w' (with_space a u' t)) /\ (forall y, seen u' y = seen u y) /\ forall y, seen w' y = store (seen w) data bs y.
Proof.
  intros Hc Hp Hs Hm Hne Hok Hokw Hl Ha Hend Hpr Hb Hd Hdend Hw. destruct (read_task_step (locked c t) c a u addr bs (has_space_held _ _ _ _ _ Hs) Hok Ha) as (u' & E & Hok' & Hseen & _ & _); [by rewrite Hl|rewrite Hl; by left; auto|done|].
  destruct (write_law w data bs Hokw Hd) as (w' & E2 & Hokw' & _ & _ & Hsw); [by rewrite Hl..|]. exists u', w'. split; [|done].
  rewrite peek_is, swrap_small by (unfold in_u, in_s in *; cbn; lia). rewrite (with_child_step t c x _ Hc).
  rewrite Hl in E. rewrite (pbind_step _ _ _ _ _ E). cbv iota. rewrite (pbind_step _ _ (with_space a u' (locked c t)) false (with_space b w' (with_space a u' (locked c t)))).
  - apply unlocked_step. exact (unlock_with c (with_space a u' t) b w' (sc_free _ _ _ Hc)).
  - unfold put_current. rewrite (pbind_step _ _ _ (current (kern t)) (with_space a u' (locked c t))) by (by destruct t). apply write_task_step with (u := w); [|done]. by apply has_space_other, has_space_held.
Qed.

(** A debugger that stores a word in a stopped child reads it back from there, whether the child may write the page or not; no other byte of the child's memory or of the caller's changes,
    if the two share none, no task does, and the lock is free again.  (The page is writable and the child's own afterwards.) *)
Theorem poke_peek t c x a u b w addr data v : stopped_child t c x -> in_u 31 c -> has_space t c a u -> has_space t (current (kern t)) b w -> a <> b -> ok u -> ok w -> in_u 32 v ->
  0 <= addr -> addr + 4 <= User.LAST_PAGE -> (forall y, addr <= y < addr + 4 -> present u y) -> 0 <= data -> data + 4 <= User.LAST_PAGE -> (forall y, data <= y < data + 4 -> writable w y) ->
  exists t1 t2 u' w', sys_ptrace PTRACE_POKEDATA_ c addr v t = Done 0 t1 /\ sys_ptrace PTRACE_PEEKDATA_ c addr data t1 = Done 0 t2 /\
    has_space t2 c a u' /\ has_space t2 (current (kern t)) b w' /\ (forall y, present u y -> seen u' y = store (seen u) addr (le_bytes 4 v) y) /\
    (forall y, seen w' y = store (seen w) data (le_bytes 4 v) y) /\ kern t2 = kern t /\ held t2 = held t.
Proof.
  intros Hc Hp Hs Hm Hne Hok Hokw Hv Ha Hend Hpr Hd Hdend Hw. destruct (poke_step t c x a u addr v Hc Hp Hs Hok Ha Hend Hpr) as (u1 & E1 & Hok1 & Hs1).
  assert (bytes_at (seen u1) addr (le_bytes 4 v)) as Hb.
  { intros i z Hi. pose proof (lookup_lt_Some _ _ _ Hi) as Hlt. rewrite four_bytes in Hlt. rewrite (proj2 (Hs1 (addr + Z.of_nat i) (Hpr (addr + Z.of_nat i) ltac:(lia)))). by eapply bytes_at_store. }
  destruct (peek_step (with_space a u1 t) c x a u1 addr b w data (le_bytes 4 v) (stopped_with _ _ _ _ _ Hc) Hp (has_space_with _ _ _ _ _ Hs) (has_space_other _ _ _ _ _ _ (not_eq_sym Hne) Hm) Hne Hok1 Hokw (four_bytes v) Ha Hend
    (fun y Hy => proj1 (Hs1 y (Hpr y Hy))) Hb Hd Hdend Hw) as (u2 & w2 & E2 & Hs2 & Hw2).
  exists (with_space a u1 t), (with_space b w2 (with_space a u2 (with_space a u1 t))), u2, w2. split; [exact E1|]. split; [exact E2|]. split_and!; [|eapply has_space_with, has_space_other; [done|]; by apply has_space_other| |done|by destruct t..].
  - eapply has_space_other; [done|]. eapply has_space_with, has_space_with. exact Hs.
  - intros y Hy. rewrite Hs2. by apply Hs1.
Qed.

End Steps.

(** ** Registers *)

Definition words (ws : list Z) : list Z := mjoin (le_bytes 4 <$> ws).
Lemma reg_words_length ws : length (words ws) = (4 * length ws)%nat.
Proof. induction ws as [|w ws IH]; [done|]. change (words (w :: ws)) with (le_bytes 4 w ++ words ws). rewrite length_app, IH, Fpu.le_bytes_length by lia. cbn [length]. lia. Qed.
Lemma word_words ws i w : ws !! i = Some w -> in_u 32 w -> word i (words ws) = w.
Proof.
  revert i. induction ws as [|v ws IH]; intros [|i]; [done..|intros [= ->] Hw|intros Hi Hw]; change (words (?v :: ws)) with (le_bytes 4 v ++ words ws); unfold word.
  - rewrite Nat.mul_0_r, drop_0, take_app_length' by (by rewrite Fpu.le_bytes_length by lia). by apply Fpu.le_bytes_value.
  - replace (4 * S i)%nat with (4 + 4 * i)%nat by lia. rewrite <- drop_drop, drop_app_length' by (by rewrite Fpu.le_bytes_length by lia). by apply IH.
Qed.
(** What is read back of the words that were stored: the segment registers are 0, and the first word after them repeats [eax]. *)
Definition kept_words (ws : list Z) : list Z :=
  take 7 ws ++ [0; 0; 0; 0; nth 6 ws 0; nth 12 ws 0; 0; nth 14 ws 0; nth 15 ws 0; 0].
Lemma regs_round_trip ws r : length ws = 17%nat -> Forall (in_u 32) ws -> get_user_regs (set_user_regs (words ws) r) = words (kept_words ws).
Proof.
  intros Hl Hf. assert (forall i, (i < 17)%nat -> word i (words ws) = nth i ws 0) as W.
  { intros i Hi. destruct (lookup_lt_is_Some_2 ws i ltac:(lia)) as [w Hw]. rewrite (nth_lookup_Some _ _ _ _ Hw). apply word_words; [done|]. by eapply Forall_lookup_1. }
  unfold get_user_regs, set_user_regs. cbn [ebx ecx edx esi edi ebp eax eip fl esp Cpu.eflags Cpu.set_eflags]. rewrite !W by lia. unfold words, kept_words. do 17 (destruct ws as [|? ws]; [done|]). by destruct ws.
Qed.

Section Registers.
Context {U : Type} {SP : Space U} {DB : Debugged U} {SL : SpaceLaws U} {DL : DebuggedLaws U}.
Implicit Types t : tracing U.

Lemma setregs_is c addr data : sys_ptrace (U := U) PTRACE_SETREGS_ c addr data = with_child (s32 c) (fun child =>
  let+ user_regs := get_current data SIZEOF_REGS in
  match user_regs with None => pret _EFAULT | Some b => let+ _ := upd child (fun x => set_cpu (set_user_regs b (cpu x)) x) in unlocked child 0 end).
Proof. done. Qed.
Lemma getregs_is c addr data : sys_ptrace (U := U) PTRACE_GETREGS_ c addr data = with_child (s32 c) (fun child =>
  let+ x := kernel_step (get_task child) in let+ err := put_current data (get_user_regs (cpu x)) in unlocked child (if err then _EFAULT else 0)).
Proof. done. Qed.

(** The state with other registers in the task [c]. *)
Definition with_regs (c : Z) (x : task) (r : regs) t : tracing U := set_kern (Task.set_tasks (<[c := set_cpu r x]> (tasks (kern t))) (kern t)) t.


(** ** What goes wrong *)

Lemma locked_stuck t c x : stopped_child t c x -> in_u 31 c -> forall k, with_child c k (locked c t) = Stuck.
Proof.
  intros [(me & Hme & Hin) Hx Hs Hh] Hp k. unfold with_child. assert (find_child c (locked c t) = Stuck) as E; [|unfold pbind; by rewrite E].
  unfold find_child. rewrite (pbind_step _ _ _ (current (kern t)) (locked c t)), (pbind_step _ _ _ me (locked c t)) by (by try apply get_task_step). clear Hme.
  induction (children me) as [|d l IH]; [by apply elem_of_nil in Hin|]. cbn [find_in]. destruct (Z.eqb_spec d c) as [->|Hne]; [|apply IH; apply elem_of_cons in Hin as [->|]; done].
  unfold pbind at 1, lock_ptrace. rewrite decide_True; [done|]. destruct t. cbn. by apply elem_of_union_l, elem_of_singleton.
Qed.
(** Asking for a word of the user area at an address that is not one leaves the lock of the child held: the child can not be continued any more. *)
Theorem peekuser_keeps_lock t c x addr data : stopped_child t c x -> in_u 31 c -> addr mod 4 <> 0 \/ SIZEOF_USER <= addr ->
  exists t1, sys_ptrace PTRACE_PEEKUSER_ c addr data t = Done _EIO t1 /\ forall a d, sys_ptrace PTRACE_CONT_ c a d t1 = Stuck.
Proof.
  intros Hc Hp Ha. exists (locked c t). assert (s32 c = c) as Ec by (apply swrap_small; unfold in_u, in_s in *; cbn; lia). split.
  - unfold sys_ptrace. rewrite Ec. change (PTRACE_PEEKUSER_ =? PTRACE_PEEKUSER_) with true. change (PTRACE_PEEKUSER_ =? PTRACE_TRACEME_) with false. change ((PTRACE_PEEKUSER_ =? PTRACE_PEEKTEXT_) || (PTRACE_PEEKUSER_ =? PTRACE_PEEKDATA_)) with false. cbv iota.
    rewrite (with_child_step t c x _ Hc). rewrite (pbind_step _ _ _ _ _ (get_task_step c x (locked c t) (sc_task _ _ _ Hc))). change 3 with (Z.ones 2). rewrite Z.land_ones by lia. change (2 ^ 2) with 4.
    assert (ctrue (addr mod 4) || (addr >=? SIZEOF_USER) = true) as ->; [|done]. apply orb_true_iff. destruct Ha as [H|H]; [left|right; rewrite Z.geb_leb; by apply Z.leb_le]. unfold ctrue. by apply negb_true_iff, Z.eqb_neq.
  - intros a d. unfold sys_ptrace. rewrite Ec. apply (locked_stuck t c x Hc Hp).
Qed.

Lemma pbind_inv {A B} (m : P U A) (f : A -> P U B) t b t' : pbind m f t = Done b t' -> exists a t1, m t = Done a t1 /\ f a t1 = Done b t'.
Proof. unfold pbind. destruct (m t) as [a t1| |]; [eauto|done..]. Qed.
(** A child that is killed is not notified, and so waits on. *)
Theorem kill_does_not_wake t c addr data r t' : sys_ptrace PTRACE_KILL_ c addr data t = Done r t' -> notified t' = notified t.
Proof.
  assert (forall A (m : M A) s a s', kernel_step m s = Done a s' -> notified (U := U) s' = notified s) as Hk by (intros A m s a s'; unfold kernel_step; destruct (m (kern s)); [intros [= <- <-]|done..]; by destruct s).
  assert (forall l s o s', find_in l (s32 c) s = Done o s' -> notified (U := U) s' = notified s) as Hf.
  { induction l as [|d l IH]; intros s o s'; cbn [find_in]; [by intros [= <- <-]|]. destruct (d =? s32 c); [|apply IH]. unfold pbind at 1, lock_ptrace. case_decide; [done|]. unfold pbind at 1. destruct (kernel_step _ _) as [x s1| |] eqn:E; [|done..]. apply Hk in E.
    destruct (ptrace_stopped x); [intros [= <- <-]; by rewrite E; destruct s|]. intros E2. apply IH in E2. rewrite E2. destruct s1, s. exact E. }
  unfold sys_ptrace. cbv iota. unfold with_child. intros E. apply pbind_inv in E as (o & s2 & E1 & E). unfold find_child in E1. apply pbind_inv in E1 as (cur & s0 & E0 & E1). injection E0 as <- <-.
  apply pbind_inv in E1 as (me & s1 & E1 & E2). apply Hk in E1. apply Hf in E2. destruct o as [c'|]; [|injection E as <- <-; congruence].
  apply pbind_inv in E as ([] & s3 & E3 & E). apply pbind_inv in E as ([] & s4 & E4 & E). apply Hk in E3, E4. injection E as <- <-. destruct s4. cbn in *. congruence.
Qed.

(** The zero flag that is stored is not the one the child goes on with while its flags are still to be computed: nothing computes them before, or tells them to be taken from the word. *)
Theorem setregs_flag_ignored b r : Cpu.zf_res (fl r) = 1 -> Cpu.ZF (fl (set_user_regs b r)) = Cpu.ZF (fl r).
Proof. intros H. unfold set_user_regs. cbn [fl]. destruct r as [? ? ? ? ? ? ? ? ? f ? ?]. cbn [fl] in *. destruct f. unfold Cpu.ZF, Cpu.zf_res in *. cbn in *. by rewrite H. Qed.

End Registers.

(** ** A task and its stopped child *)

Module Demo.
Abbreviation guest := Exec.Exec.Demo.guest.
#[local] Instance traced_space : Space guest := Exec.Exec.Demo.demo_space.
#[local] Instance traced_laws : SpaceLaws guest := Exec.Exec.Demo.demo_laws.
#[local] Instance traced_debugged : Debugged guest := guest_debugged 0 Cow.host_mmap Cow.host_malloc.
#[local] Instance traced_debugged_laws : DebuggedLaws guest := guest_debugged_laws 0 Cow.host_mmap Cow.host_malloc (fun _ => 0).

(** Process 3 is a child of process 2. *)
Definition pair (stopped : bool) (u w : guest) : tracing guest :=
  mk_tracing (Exit.Exit.family 2 (set_ptrace_stopped stopped (Exit.Exit.member 3 13 (Some 2) []))) {[ 3 := 100; 2 := 101 ]} {[ 100 := u; 101 := w ]} ∅ ∅ [].
Lemma pair_stopped u w : stopped_child (pair true u w) 3 (set_ptrace_stopped true (Exit.Exit.member 3 13 (Some 2) [])).
Proof. split; [eexists; split; [reflexivity|apply elem_of_cons; by left]|reflexivity|reflexivity|apply not_elem_of_empty]. Qed.

Lemma only_stopped_children_witness : exists u : guest, sys_ptrace PTRACE_POKEDATA_ 3 0 0 (pair false u u) = Done _EPERM (pair false u u).
Proof.
  exists Exec.Exec.Demo.empty. eapply (only_stopped_children (pair false _ _) PTRACE_POKEDATA_ 3 0 0); [unfold in_u; lia|discriminate|discriminate|reflexivity|apply not_elem_of_empty|].
  intros _. eexists. split; reflexivity.
Defined.

Lemma poke_peek_witness : exists (u : guest) t1 t2, sys_ptrace PTRACE_POKEDATA_ 3 0x400000 0x12345678 (pair true u u) = Done 0 t1 /\ sys_ptrace PTRACE_PEEKDATA_ 3 0x400000 0x400100 t1 = Done 0 t2.
Proof.
  destruct Exec.Exec.Demo.some_pages as (u & Hok & Hp). exists u.
  destruct (poke_peek (pair true u u) 3 _ 100 u 101 u 0x400000 0x400100 0x12345678 (pair_stopped u u)) as (t1 & t2 & _ & _ & E1 & E2 & _);
    [unfold in_u; lia|by split|by split|discriminate|exact Hok|exact Hok|unfold in_u; lia|lia|unfold User.LAST_PAGE; lia|intros y Hy; apply Hp; lia|lia|unfold User.LAST_PAGE; lia|intros y Hy; apply Hp; lia|].
  exists t1, t2. split; [exact E1|exact E2].
Defined.


End Demo.
End Ptrace.
