(* ===== verification/Sock.v ===== *)
(** * Sockets (fs/sock.c, fs/sock.h, fs/sockrestart.c)

    Sockets of the guest are files without a name around sockets of the host.  Addresses, options and flags are translated; sockets of the local domain get a path of the host for their
    name, which the guest knows by a path or by an abstract name; the two ends of a connection know each other, and descriptors are passed along it in a queue of the emulator, with one
    descriptor of the host for each message.

    The host's socket calls and its constants are parameters; the layout of its addresses and the options are those of Linux.  A variable array on the stack holds what the host left in it.
    Waits give what other threads do meanwhile.  Adding a socket that is already in the list of listening sockets, which damages the list, and an access outside of an object are faults. *)

From S2P Require Import Prelude Errno FileLock Memory User Fpu Tty Vfs Path Fd Generic Space Exec Tmpfs Files Adhoc.

Module Sock.
Import Errno Vfs Path Fd Generic Space Files.
Abbreviation HasAdhoc := Adhoc.HasAdhoc.

(** ** Numbers of the guest (fs/sock.h) *)

Definition SOCKET_TYPE_MASK : Z := 0xf.
Definition SOCKADDR_DATA_MAX : Z := 108.
Definition SCM_RIGHTS_ : Z := 1.
Definition PF_LOCAL_ : Z := 1.
Definition PF_INET_ : Z := 2.
Definition PF_INET6_ : Z := 10.
Definition AF_LOCAL_ : Z := PF_LOCAL_.
Definition SOCK_STREAM_ : Z := 1.
Definition SOCK_DGRAM_ : Z := 2.
Definition SOCK_RAW_ : Z := 3.
Definition MSG_OOB_ : Z := 0x1.
Definition MSG_PEEK_ : Z := 0x2.
Definition MSG_CTRUNC_ : Z := 0x8.
Definition MSG_TRUNC_ : Z := 0x20.
Definition MSG_DONTWAIT_ : Z := 0x40.
Definition MSG_EOR_ : Z := 0x80.
Definition MSG_WAITALL_ : Z := 0x100.
Definition SOL_SOCKET_ : Z := 1.
Definition SO_REUSEADDR_ : Z := 2.
Definition SO_TYPE_ : Z := 3.
Definition SO_ERROR_ : Z := 4.
Definition SO_BROADCAST_ : Z := 6.
Definition SO_SNDBUF_ : Z := 7.
Definition SO_RCVBUF_ : Z := 8.
Definition SO_KEEPALIVE_ : Z := 9.
Definition SO_LINGER_ : Z := 13.
Definition SO_PEERCRED_ : Z := 17.
Definition SO_TIMESTAMP_ : Z := 29.
Definition SO_PROTOCOL_ : Z := 38.
Definition SO_DOMAIN_ : Z := 39.
Definition SO_RCVTIMEO_ : Z := 66.
Definition SO_SNDTIMEO_ : Z := 67.
Definition IP_TOS_ : Z := 1.
Definition IP_TTL_ : Z := 2.
Definition IP_HDRINCL_ : Z := 3.
Definition IP_RETOPTS_ : Z := 7.
Definition IP_MTU_DISCOVER_ : Z := 10.
Definition IP_RECVTTL_ : Z := 12.
Definition IP_RECVTOS_ : Z := 13.
Definition TCP_NODELAY_ : Z := 1.
Definition TCP_DEFER_ACCEPT_ : Z := 9.
Definition TCP_INFO_ : Z := 11.
Definition TCP_CONGESTION_ : Z := 13.
Definition IPV6_UNICAST_HOPS_ : Z := 16.
Definition IPV6_V6ONLY_ : Z := 26.
Definition IPV6_TCLASS_ : Z := 67.
Definition ICMP6_FILTER_ : Z := 1.
(** Protocols have the same numbers everywhere. *)
Definition IPPROTO_IP : Z := 0.
Definition IPPROTO_ICMP : Z := 1.
Definition IPPROTO_TCP : Z := 6.
Definition IPPROTO_UDP : Z := 17.
Definition IPPROTO_IPV6 : Z := 41.
Definition IPPROTO_ICMPV6 : Z := 58.
Definition IPPROTO_RAW : Z := 255.

(** ** Numbers of the host *)

Inductive host_flag := MSG_OOB | MSG_PEEK | MSG_CTRUNC | MSG_TRUNC | MSG_DONTWAIT | MSG_EOR | MSG_WAITALL.
Inductive host_option := SO_REUSEADDR | SO_TYPE | SO_ERROR | SO_BROADCAST | SO_KEEPALIVE | SO_LINGER | SO_SNDBUF | SO_RCVBUF | SO_TIMESTAMP | SO_RCVTIMEO | SO_SNDTIMEO
  | TCP_NODELAY | TCP_INFO | TCP_CONGESTION | IP_TOS | IP_TTL | IP_HDRINCL | IP_RETOPTS | IP_RECVTTL | IP_RECVTOS | IPV6_UNICAST_HOPS | IPV6_TCLASS | IPV6_V6ONLY.
Class HostNumbers := {
  PF_LOCAL : Z;
  PF_INET : Z;
  PF_INET6 : Z;
  SOCK_STREAM : Z;
  SOCK_DGRAM : Z;
  SOL_SOCKET : Z;
  flag : host_flag -> Z;
  opt : host_option -> Z;
}.

Section Translation.
Context {HN : HostNumbers}.

Definition sock_family_to_real (fake : Z) : Z :=
  if fake =? PF_LOCAL_ then PF_LOCAL else if fake =? PF_INET_ then PF_INET else if fake =? PF_INET6_ then PF_INET6 else -1.
Definition sock_family_from_real (fake : Z) : Z :=
  if fake =? PF_LOCAL then PF_LOCAL_ else if fake =? PF_INET then PF_INET_ else if fake =? PF_INET6 then PF_INET6_ else -1.
Definition sock_type_to_real (type protocol : Z) : Z :=
  let t := Z.land type 0xff in
  if t =? SOCK_STREAM_ then
    if negb (protocol =? 0) && negb (protocol =? IPPROTO_TCP) then -1 else SOCK_STREAM
  else if t =? SOCK_DGRAM_ then
    if (protocol =? 0) || (protocol =? IPPROTO_UDP) || (protocol =? IPPROTO_ICMP) || (protocol =? IPPROTO_ICMPV6) then SOCK_DGRAM else -1
  else if t =? SOCK_RAW_ then
    if (protocol =? IPPROTO_RAW) || (protocol =? IPPROTO_UDP) || (protocol =? IPPROTO_ICMP) || (protocol =? IPPROTO_ICMPV6) then SOCK_DGRAM else -1
  else -1.

(** The flags with what each is on the host. *)
Definition flag_table : list (Z * host_flag) :=
  [(MSG_OOB_, MSG_OOB); (MSG_PEEK_, MSG_PEEK); (MSG_CTRUNC_, MSG_CTRUNC); (MSG_TRUNC_, MSG_TRUNC); (MSG_DONTWAIT_, MSG_DONTWAIT); (MSG_EOR_, MSG_EOR); (MSG_WAITALL_, MSG_WAITALL)].
Definition sock_flags_to_real (fake : Z) : Z := fold_left (fun real x => if has fake x.1 then Z.lor real (flag x.2) else real) flag_table 0.
Definition sock_flags_from_real (real : Z) : Z := fold_left (fun fake x => if has real (flag x.2) then Z.lor fake x.1 else fake) flag_table 0.

Definition opt_table : list (Z * Z * Z) :=
  [(SOL_SOCKET_, SO_REUSEADDR_, opt SO_REUSEADDR); (SOL_SOCKET_, SO_TYPE_, opt SO_TYPE); (SOL_SOCKET_, SO_ERROR_, opt SO_ERROR); (SOL_SOCKET_, SO_BROADCAST_, opt SO_BROADCAST);
   (SOL_SOCKET_, SO_KEEPALIVE_, opt SO_KEEPALIVE); (SOL_SOCKET_, SO_LINGER_, opt SO_LINGER); (SOL_SOCKET_, SO_SNDBUF_, opt SO_SNDBUF); (SOL_SOCKET_, SO_RCVBUF_, opt SO_RCVBUF);
   (SOL_SOCKET_, SO_TIMESTAMP_, opt SO_TIMESTAMP); (SOL_SOCKET_, SO_RCVTIMEO_, opt SO_RCVTIMEO); (SOL_SOCKET_, SO_SNDTIMEO_, opt SO_SNDTIMEO);
   (IPPROTO_TCP, TCP_NODELAY_, opt TCP_NODELAY); (IPPROTO_TCP, TCP_DEFER_ACCEPT_, 0); (IPPROTO_TCP, TCP_INFO_, opt TCP_INFO); (IPPROTO_TCP, TCP_CONGESTION_, opt TCP_CONGESTION);
   (IPPROTO_IP, IP_TOS_, opt IP_TOS); (IPPROTO_IP, IP_TTL_, opt IP_TTL); (IPPROTO_IP, IP_HDRINCL_, opt IP_HDRINCL); (IPPROTO_IP, IP_RETOPTS_, opt IP_RETOPTS); (IPPROTO_IP, IP_RECVTTL_, opt IP_RECVTTL);
   (IPPROTO_IP, IP_RECVTOS_, opt IP_RECVTOS); (IPPROTO_IPV6, IPV6_UNICAST_HOPS_, opt IPV6_UNICAST_HOPS); (IPPROTO_IPV6, IPV6_TCLASS_, opt IPV6_TCLASS); (IPPROTO_IPV6, IPV6_V6ONLY_, opt IPV6_V6ONLY)].
Definition sock_opt_to_real (fake level : Z) : Z :=
  match List.find (fun x => (x.1.1 =? level) && (x.1.2 =? fake)) opt_table with Some x => x.2 | None => -1 end.
Definition sock_level_to_real (fake : Z) : Z := if fake =? SOL_SOCKET_ then SOL_SOCKET else fake.

End Translation.

(** ** State *)

(** The credentials of a process: number, user and group. *)
Record ucred := mk_ucred { cr_pid : Z; cr_uid : Z; cr_gid : Z }.

(** The member [socket] of an open file; [unix_name] with its length.  [unix_scm] is the queue of messages with descriptors. *)
Record socket := mk_socket {
  domain : Z;
  type : Z;
  protocol : Z;
  unix_name_inode : option Z;
  unix_name_abstract : option Z;
  unix_name_len : Z;
  unix_name : list Z;
  unix_peer : option Z;
  unix_scm : list Z;
  unix_cred : ucred }.
Definition set_unix_name_inode v x := mk_socket (domain x) (type x) (protocol x) v (unix_name_abstract x) (unix_name_len x) (unix_name x) (unix_peer x) (unix_scm x) (unix_cred x).
Definition set_unix_name_abstract v x := mk_socket (domain x) (type x) (protocol x) (unix_name_inode x) v (unix_name_len x) (unix_name x) (unix_peer x) (unix_scm x) (unix_cred x).
Definition set_unix_name l v x := mk_socket (domain x) (type x) (protocol x) (unix_name_inode x) (unix_name_abstract x) l v (unix_peer x) (unix_scm x) (unix_cred x).
Definition set_unix_peer v x := mk_socket (domain x) (type x) (protocol x) (unix_name_inode x) (unix_name_abstract x) (unix_name_len x) (unix_name x) v (unix_scm x) (unix_cred x).
Definition set_unix_scm v x := mk_socket (domain x) (type x) (protocol x) (unix_name_inode x) (unix_name_abstract x) (unix_name_len x) (unix_name x) (unix_peer x) v (unix_cred x).
Definition set_unix_cred v x := mk_socket (domain x) (type x) (protocol x) (unix_name_inode x) (unix_name_abstract x) (unix_name_len x) (unix_name x) (unix_peer x) (unix_scm x) v.

(** [struct unix_abstract] without its links. *)
Record unix_abstract := mk_abstract { ab_refcount : Z; ab_hash : Z; ab_socket_id : Z }.
Definition ABSTRACT_HASH_SIZE : Z := 1024.

(** The sockets by the open file they are in; messages with descriptors, that is open files; the abstract names and the chains of their table; the number given last; the listening sockets;
    and of the current task, how often it waits for a listening socket and whether it is to start again. *)
Record net := mk_net {
  sockets : gmap Z socket;
  scms : gmap Z (list Z);
  abstracts : gmap Z unix_abstract;
  abstract_hash : gmap Z (list Z);
  next_id : Z;
  listen_fds : list Z;
  listen_count : Z;
  punt : bool }.
Definition set_sockets v x := mk_net v (scms x) (abstracts x) (abstract_hash x) (next_id x) (listen_fds x) (listen_count x) (punt x).
Definition set_scms v x := mk_net (sockets x) v (abstracts x) (abstract_hash x) (next_id x) (listen_fds x) (listen_count x) (punt x).
Definition set_abstracts v x := mk_net (sockets x) (scms x) v (abstract_hash x) (next_id x) (listen_fds x) (listen_count x) (punt x).
Definition set_abstract_hash v x := mk_net (sockets x) (scms x) (abstracts x) v (next_id x) (listen_fds x) (listen_count x) (punt x).
Definition set_next_id v x := mk_net (sockets x) (scms x) (abstracts x) (abstract_hash x) v (listen_fds x) (listen_count x) (punt x).
Definition set_listen_fds v x := mk_net (sockets x) (scms x) (abstracts x) (abstract_hash x) (next_id x) v (listen_count x) (punt x).
Definition set_listen_count v x := mk_net (sockets x) (scms x) (abstracts x) (abstract_hash x) (next_id x) (listen_fds x) v (punt x).
Definition set_punt v x := mk_net (sockets x) (scms x) (abstracts x) (abstract_hash x) (next_id x) (listen_fds x) (listen_count x) v.

(** What [recvmsg] of the host gives: the result, the name and its length, the contents of the pieces, whether a descriptor came with it, the length of the control data, and flags. *)
Record received := mk_received { rc_res : Z; rc_name : list Z; rc_namelen : Z; rc_iov : list (list Z); rc_scm : bool; rc_controllen : Z; rc_flags : Z }.

(** A state with sockets in it, and the calls of the host.  They are given the descriptor of the host; a buffer is given by its size, and what is in it afterwards comes back.
    [host_write_fd] writes the address of an open file to a socket, [host_read_fd] reads one. *)
Class HasNet (F : Type) {HA : HasAdhoc F} := {
  get_net : F -> net;
  put_net : net -> F -> F;
  get_put_net x f : get_net (put_net x f) = x;
  adhoc_net x f : get_net (Adhoc.put_adhoc x f) = get_net f;
  net_adhoc x f : Adhoc.get_adhoc (put_net x f) = Adhoc.get_adhoc f;
  socket_fdops : Z;
  host_errno : vfs F -> Z;
  host_pid : Z;
  host_socket : Z -> Z -> Z -> V F Z;
  host_bind : Z -> list Z -> V F Z;
  host_connect : Z -> list Z -> V F Z;
  host_listen : Z -> Z -> V F Z;
  host_accept : Z -> option Z -> V F (Z * list Z * Z);
  host_getsockname : Z -> Z -> V F (Z * list Z * Z);
  host_getpeername : Z -> Z -> V F (Z * list Z * Z);
  host_socketpair : Z -> Z -> Z -> V F (Z * (Z * Z));
  host_sendto : Z -> list Z -> Z -> option (list Z) -> V F Z;
  host_recvfrom : Z -> Z -> Z -> option Z -> V F (Z * list Z * list Z * Z);
  host_shutdown : Z -> Z -> V F Z;
  host_setsockopt : Z -> Z -> Z -> list Z -> V F Z;
  host_getsockopt : Z -> Z -> Z -> list Z -> V F (Z * list Z * Z);
  host_sendmsg : Z -> option (list Z) -> list (list Z) -> bool -> Z -> Z -> V F Z;
  host_recvmsg : Z -> option Z -> bool -> list Z -> Z -> V F received;
  host_write_fd : Z -> Z -> V F Z;
  host_read_fd : Z -> V F (Z * Z);
  host_unlink : path -> V F unit;
  control_junk : vfs F -> list Z;
  realfs_close : Z -> V F Z;
  realfs_read : Z -> Z -> V F (Z * list Z);
  realfs_write : Z -> list Z -> V F Z;
}.

Section Operations.
Context {F U : Type} {SF : System F} {HA : HasAdhoc F} {HT : HasNet F} {HN : HostNumbers} {HE : HostErrno} {SP : Space U}.
#[local] Abbreviation C := (call F U).

Definition state (s : vfs F) : net := get_net (fsd s).
Definition set_state (x : net) (s : vfs F) : vfs F := set_fsd (put_net x (fsd s)) s.
Definition update (g : net -> net) : V F unit := modify (fun s => set_state (g (state s)) s).
(** The member of an open file that is there. *)
Definition get_socket (fd : Z) : V F socket := let! _ := get_fd fd in let! s := gets id in deref (sockets (state s) !! fd).
Definition upd_socket (fd : Z) (g : socket -> socket) : V F unit :=
  let! x := get_socket fd in update (fun n => set_sockets (<[fd := g x]> (sockets n)) n).
Definition real_fd (fd : Z) : V F Z := let! s := gets id in deref (Adhoc.real_fds (Adhoc.state s) !! fd).
(** The number of the last error of the host, as the guest has it; the signal of a broken pipe is left out. *)
Definition failed : V F Z := let! s := gets id in ret (errno_map (host_errno s)).1.

(** ** Listening sockets when the application sleeps (fs/sockrestart.c) *)

Definition is_socket (fd : Z) : V F bool := let! x := get_fd fd in ret (fd_ops_of x =? socket_fdops).
Definition sockrestart_begin_listen (sock : Z) : V F unit :=
  let! b := is_socket sock in
  if negb b then ret tt
  else
    let! s := gets id in
    in_bounds (negb (bool_decide (sock ∈ listen_fds (state s)))) ;;
    update (fun n => set_listen_fds (sock :: listen_fds n) n).
Definition sockrestart_end_listen (sock : Z) : V F unit :=
  let! b := is_socket sock in
  if negb b then ret tt else update (fun n => set_listen_fds (filter (fun x => x <> sock) (listen_fds n)) n).
Definition sockrestart_begin_listen_wait (sock : Z) : V F unit :=
  let! b := is_socket sock in
  if negb b then ret tt else update (fun n => set_listen_count (listen_count n + 1) n).
Definition sockrestart_end_listen_wait (sock : Z) : V F unit :=
  let! b := is_socket sock in
  if negb b then ret tt else update (fun n => set_listen_count (listen_count n - 1) n).
Definition sockrestart_should_restart_listen_wait : V F bool :=
  let! s := gets id in update (set_punt false) ;; ret (punt (state s)).

(** ** Making sockets *)

Definition sock_fd_create (sock_fd domain type protocol : Z) : V F Z :=
  let! fd := Adhoc.adhoc_fd_create socket_fdops in
  Adhoc.upd_stat fd (set_st_mode (Z.lor S_IFSOCK 438)) ;;
  Adhoc.update (fun x => Adhoc.set_real_fds (<[fd := sock_fd]> (Adhoc.real_fds x)) x) ;;
  update (fun n => set_sockets (<[fd := mk_socket domain (Z.land type SOCKET_TYPE_MASK) protocol None None 0 (replicate 108 0) None [] (mk_ucred 0 0 0)]> (sockets n)) n) ;;
  f_install fd (Z.ldiff type SOCKET_TYPE_MASK).

Definition sys_socket (domain type protocol : Z) : V F Z :=
  let real_domain := sock_family_to_real domain in
  if real_domain <? 0 then ret _EINVAL
  else
    let real_type := sock_type_to_real type protocol in
    if real_type <? 0 then ret _EINVAL
    else
      let protocol := if (type =? SOCK_RAW_) && (protocol =? IPPROTO_RAW) then IPPROTO_ICMP else protocol in
      let! sock := host_socket real_domain real_type protocol in
      if sock <? 0 then failed
      else
        let! f := sock_fd_create sock domain type protocol in
        (if f <? 0 then Adhoc.host_close sock else ret tt) ;;
        ret f.

Definition inode_release_if_exist (inode : option Z) : V F unit := match inode with Some i => inode_release i | None => ret tt end.
Definition sock_getfd (sock_fd : Z) : V F (option Z) :=
  let! f := f_get sock_fd in
  match f with
  | None => ret None
  | Some sock => let! b := is_socket sock in ret (if b then Some sock else None)
  end.
Definition with_sock (sock_fd : Z) (k : Z -> C Z) : C Z :=
  let* sock := run (sock_getfd sock_fd) in
  match sock with None => cret _EBADF | Some sock => k sock end.

(** ** Names of the local domain *)

Definition unix_socket_next_id : V F Z :=
  let! s := gets id in
  let n := u32 (next_id (state s) + 1) in
  update (set_next_id n) ;; ret n.

(** Leaves the mount, with an error. *)
Definition out {A} (mount : mount) (err : Z) : V F (Z + A) := mount_release (m_self mount) ;; ret (inl err).
Definition unix_socket_get (path_raw : path) (bind_fd : option Z) : V F (Z + Z) :=
  let! err := path_normalize AT_PWD path_raw N_SYMLINK_FOLLOW in
  match err with
  | inl err => ret (inl err)
  | inr path =>
      let! (mount, path) := find_mount_and_trim_path path in
      let! err := stat mount path in
      let! st :=
        match bind_fd, err with
        | Some _, inr _ => ret (inl _EADDRINUSE)
        | Some _, inl _ =>
            let! s := gets id in
            let mode := Z.ldiff 511 (umask (fs (current s))) in
            let! mknod := deref (fs_mknod (filesystem (m_fs mount))) in
            let! err := mknod (m_self mount) path (Z.lor S_IFSOCK mode) 0 in
            if err <? 0 then ret (inl err) else stat mount path
        | None, err => ret err
        end in
      match st with
      | inl err => out mount err
      | inr st =>
          if negb (S_ISSOCK (st_mode st)) then out mount _ENOTSOCK
          else
            let! inode := inode_get (m_self mount) (st_inode st) in
            let! x := get_inode inode in
            (if i_socket_id x =? 0 then let! n := unix_socket_next_id in upd_inode inode (set_i_socket_id n) else ret tt) ;;
            let! x := get_inode inode in
            mount_release (m_self mount) ;;
            match bind_fd with
            | Some fd => upd_socket fd (set_unix_name_inode (Some inode))
            | None => inode_release inode
            end ;;
            ret (inr (i_socket_id x))
      end
  end.

(** A character is signed. *)
Definition str_hash (str : list Z) : Z := fold_left (fun hash c => Z.lxor (u32 (33 * hash)) (u32 (s8 c))) str 5381.

Definition get_abstract (a : Z) : V F unix_abstract := let! s := gets id in deref (abstracts (state s) !! a).
Definition bucket_of (hash : Z) (n : net) : list Z := default [] (abstract_hash n !! (hash mod ABSTRACT_HASH_SIZE)).
(** The first name in the chain with this hash. *)
Fixpoint find_abstract (bucket : list Z) (hash : Z) : V F (option Z) :=
  match bucket with
  | [] => ret None
  | a :: bucket => let! x := get_abstract a in if ab_hash x =? hash then ret (Some a) else find_abstract bucket hash
  end.
Definition unix_abstract_get (name : list Z) (bind_fd : option Z) : V F (Z + Z) :=
  let hash := str_hash name in
  let! s := gets id in
  let! sock := find_abstract (bucket_of hash (state s)) hash in
  match bind_fd, sock with
  | Some _, Some _ => ret (inl _EEXIST)
  | None, None => ret (inl _ENOENT)
  | _, _ =>
      let! a :=
        match sock with
        | Some a => ret a
        | None =>
            let! a := malloc in
            let! n := unix_socket_next_id in
            update (fun x => set_abstract_hash (<[hash mod ABSTRACT_HASH_SIZE := a :: bucket_of hash x]> (abstract_hash x)) (set_abstracts (<[a := mk_abstract 0 hash n]> (abstracts x)) x)) ;;
            ret a
        end in
      let! x := get_abstract a in
      update (fun n => set_abstracts (<[a := mk_abstract (u32 (ab_refcount x + 1)) (ab_hash x) (ab_socket_id x)]> (abstracts n)) n) ;;
      match bind_fd with Some fd => upd_socket fd (set_unix_name_abstract (Some a)) | None => ret tt end ;;
      ret (inr (ab_socket_id x))
  end.
Definition unix_abstract_release (a : Z) : V F unit :=
  let! x := get_abstract a in
  let x := mk_abstract (u32 (ab_refcount x - 1)) (ab_hash x) (ab_socket_id x) in
  if ab_refcount x =? 0 then
    update (fun n => set_abstract_hash (<[ab_hash x mod ABSTRACT_HASH_SIZE := filter (fun b => b <> a) (bucket_of (ab_hash x) n)]> (abstract_hash n)) (set_abstracts (delete a (abstracts n)) n))
  else update (fun n => set_abstracts (<[a := x]> (abstracts n)) n).

Definition sock_tmp_prefix : path := cstr "/tmp/ishsock".
Definition real_path (socket_id : Z) : path := sock_tmp_prefix ++ Tty.decimal 10 host_pid ++ cstr "." ++ Tty.decimal 10 socket_id.

(** The bytes before the first 0. *)
Fixpoint until_zero (b : list Z) : list Z := match b with c :: b => if c =? 0 then [] else c :: until_zero b | [] => [] end.

(** The address for the host, or an error. *)
Definition sockaddr_read_bind (sockaddr_addr sockaddr_len : Z) (bind_fd : option Z) : C (Z + list Z) :=
  if sockaddr_len <? 2 then cret (inl _EINVAL)
  else if sockaddr_len >? 2 + SOCKADDR_DATA_MAX then cret (inl _EINVAL)
  else
    let* (err, sockaddr) := get sockaddr_addr sockaddr_len in
    if err then cret (inl _EFAULT)
    else
      let sa_family := u16 (sock_family_to_real (le_value (take 2 sockaddr))) in
      let real := le_bytes 2 sa_family ++ drop 2 sockaddr in
      if sa_family =? PF_INET then cret (if sockaddr_len <? 16 then inl _EINVAL else inr real)
      else if sa_family =? PF_INET6 then cret (if sockaddr_len <? 28 then inl _EINVAL else inr real)
      else if sa_family =? PF_LOCAL then
        let path := drop 2 sockaddr in
        match path with
        | [] => cret (inl _ENOENT)
        | c :: name =>
            let* err := run (if negb (c =? 0) then unix_socket_get (Exec.path_of (until_zero path)) bind_fd else unix_abstract_get (until_zero name) bind_fd) in
            match err with
            | inl err => cret (inl err)
            | inr socket_id =>
                let* _ := run (match bind_fd with
                  | Some fd => upd_socket fd (fun x => set_unix_name (u8 (Z.of_nat (length path))) (path ++ drop (length path) (unix_name x)) x)
                  | None => ret tt end) in
                let sun_path := real_path socket_id in
                let* _ := run (match bind_fd with Some _ => host_unlink sun_path | None => ret tt end) in
                cret (inr (le_bytes 2 sa_family ++ bytes_of sun_path))
            end
        end
      else cret (inl _EINVAL).
Definition sockaddr_read (sockaddr_addr sockaddr_len : Z) : C (Z + list Z) := sockaddr_read_bind sockaddr_addr sockaddr_len None.

(** [sockaddr] is a buffer of the size the guest gave; the result is an error, or the length of the address. *)
Definition unix_domain_null : list Z := le_bytes 2 PF_LOCAL_ ++ replicate 14 0.
Definition sockaddr_write (sockaddr_addr : Z) (sockaddr : list Z) (sockaddr_len : Z) : C (Z + Z) :=
  let* _ := run (in_bounds (2 <=? Z.of_nat (length sockaddr))) in
  let family := u16 (sock_family_from_real (le_value (take 2 sockaddr))) in
  let fake := le_bytes 2 family ++ drop 2 sockaddr in
  let write data sockaddr_len :=
    let buffer_len := Z.min (Z.of_nat (length sockaddr)) sockaddr_len in
    let* err := copy_out sockaddr_addr data 0 buffer_len in
    cret (if err then inl _EFAULT else inr sockaddr_len) in
  if family =? PF_LOCAL_ then write unix_domain_null 16
  else if (family =? PF_INET_) || (family =? PF_INET6_) then write fake sockaddr_len
  else cret (inl _EINVAL).

(** ** Binding and connecting *)

(** The reference to the inode is forgotten when the host has bound the socket. *)
Definition sys_bind (sock_fd sockaddr_addr sockaddr_len : Z) : C Z :=
  with_sock sock_fd (fun sock =>
    let* r := sockaddr_read_bind sockaddr_addr sockaddr_len (Some sock) in
    match r with
    | inl err => cret err
    | inr sockaddr =>
        let* err := run (let! r := real_fd sock in host_bind r sockaddr) in
        if err <? 0 then
          run (let! x := get_socket sock in
               inode_release_if_exist (unix_name_inode x) ;;
               match unix_name_abstract x with Some a => unix_abstract_release a | None => ret tt end ;;
               failed)
        else run (upd_socket sock (set_unix_name_inode None) ;; ret 0)
    end).

Definition fill_cred (sock : Z) : V F unit :=
  let! s := gets id in upd_socket sock (set_unix_cred (mk_ucred (pid (current s)) (euid (current s)) (egid (current s)))).
(** Waits until the other end says that it knows this one. *)
Fixpoint wait_peer (sock : Z) (waits : list (V F unit)) : V F unit :=
  let! x := get_socket sock in
  match unix_peer x with
  | Some _ => ret tt
  | None => match waits with [] => hang | others :: waits => others ;; wait_peer sock waits end
  end.
Definition sys_connect (sock_fd sockaddr_addr sockaddr_len : Z) (waits : list (V F unit)) : C Z :=
  with_sock sock_fd (fun sock =>
    let* r := sockaddr_read sockaddr_addr sockaddr_len in
    match r with
    | inl err => cret err
    | inr sockaddr =>
        let* err := run (let! r := real_fd sock in host_connect r sockaddr) in
        if err <? 0 then run failed
        else run (
          let! x := get_socket sock in
          (if domain x =? AF_LOCAL_ then
             fill_cred sock ;;
             let! x := get_socket sock in
             assert (bool_decide (unix_peer x = None)) ;;
             let! r := real_fd sock in
             let! res := host_write_fd r sock in
             if res =? 8 then wait_peer sock waits else ret tt
           else ret tt) ;;
          ret err)
    end).

Definition sys_listen (sock_fd backlog : Z) : V F Z :=
  let! sock := sock_getfd sock_fd in
  match sock with
  | None => ret _EBADF
  | Some sock =>
      let! r := real_fd sock in
      let! err := host_listen r backlog in
      if err <? 0 then failed else sockrestart_begin_listen sock ;; ret err
  end.

(** The loop around [accept], which is called with no error; [fuel] bounds how often the application is sent to sleep. *)
Fixpoint accept_loop (fuel : nat) (sock : Z) (len : option Z) : V F (Z * list Z * Z) :=
  match fuel with
  | O => hang
  | S fuel =>
      sockrestart_begin_listen_wait sock ;;
      let! r := real_fd sock in
      let! res := host_accept r len in
      sockrestart_end_listen_wait sock ;;
      let! restart := sockrestart_should_restart_listen_wait in
      let! s := gets id in
      if restart && (host_errno s =? host_number EINTR) then accept_loop fuel sock len else ret res
  end.
Definition sys_accept (fuel : nat) (sock_fd sockaddr_addr sockaddr_len_addr : Z) : C Z :=
  with_sock sock_fd (fun sock =>
    let* (bad, len) := if negb (sockaddr_addr =? 0) then get sockaddr_len_addr 4 else cret (false, replicate 4 0) in
    if bad then cret _EFAULT
    else
      let wanted := negb (sockaddr_addr =? 0) in
      let* (client, sockaddr, sockaddr_len) := run (accept_loop fuel sock (if wanted then Some (le_value len) else None)) in
      if client <? 0 then run failed
      else
        let* done :=
          if wanted then
            let* r := sockaddr_write sockaddr_addr sockaddr sockaddr_len in
            match r with
            | inl _ => cret (Some client)
            | inr sockaddr_len => let* bad := put sockaddr_len_addr (le_bytes 4 sockaddr_len) in cret (if bad then Some _EFAULT else None)
            end
          else cret None in
        match done with
        | Some r => cret r
        | None =>
            run (
              let! x := get_socket sock in
              let! client_f := sock_fd_create client (domain x) (type x) (protocol x) in
              (if client_f <? 0 then Adhoc.host_close client else ret tt) ;;
              (if domain x =? AF_LOCAL_ then
                 let! client_fd := f_get client_f in
                 let! client_fd := deref client_fd in
                 fill_cred client_fd ;;
                 let! (res, peer) := host_read_fd client in
                 if res =? 8 then
                   upd_socket client_fd (set_unix_peer (Some peer)) ;;
                   upd_socket peer (set_unix_peer (Some client_fd))
                 else ret tt
               else ret tt) ;;
              ret client_f)
        end).

(** ** Names *)

(** The name a socket was bound to, cut to the buffer: its contents and its length. *)
Definition copy_unix_name (sockaddr_len : Z) (sock : socket) : V F (list Z * Z) :=
  let data_len := u64 (sockaddr_len - 2) in
  let name_len := if unix_name_len sock >? data_len then data_len else unix_name_len sock in
  in_bounds (2 + data_len <=? sockaddr_len) ;;
  ret (le_bytes 2 PF_LOCAL_ ++ take (Z.to_nat name_len) (unix_name sock) ++ replicate (Z.to_nat (data_len - name_len)) 0, u32 (2 + name_len)).

(** [getsockname] and [getpeername] of the host, with the address written to the guest. *)
Definition host_name_call (host : Z -> Z -> V F (Z * list Z * Z)) (sock sockaddr_addr sockaddr_len_addr sockaddr_len : Z) : C Z :=
  let* (res, sockaddr, sockaddr_len) := run (let! r := real_fd sock in host r sockaddr_len) in
  if res <? 0 then run failed
  else
    let* err := sockaddr_write sockaddr_addr sockaddr sockaddr_len in
    match err with
    | inl err => cret err
    | inr sockaddr_len => let* bad := put sockaddr_len_addr (le_bytes 4 sockaddr_len) in cret (if bad then _EFAULT else res)
    end.
Definition sys_getsockname (sock_fd sockaddr_addr sockaddr_len_addr : Z) : C Z :=
  with_sock sock_fd (fun sock =>
    let* (bad, len) := get sockaddr_len_addr 4 in
    if bad then cret _EFAULT
    else
      let sockaddr_len := le_value len in
      let* x := run (get_socket sock) in
      if domain x =? PF_LOCAL_ then
        let* (sockaddr, sockaddr_len) := run (copy_unix_name sockaddr_len x) in
        let* bad := put sockaddr_addr sockaddr in
        if bad then cret _EFAULT
        else let* bad := put sockaddr_len_addr (le_bytes 4 sockaddr_len) in cret (if bad then _EFAULT else 0)
      else host_name_call host_getsockname sock sockaddr_addr sockaddr_len_addr sockaddr_len).
Definition sys_getpeername (sock_fd sockaddr_addr sockaddr_len_addr : Z) : C Z :=
  with_sock sock_fd (fun sock =>
    let* (bad, len) := get sockaddr_len_addr 4 in
    if bad then cret _EFAULT else host_name_call host_getpeername sock sockaddr_addr sockaddr_len_addr (le_value len)).

(** The numbers of the guest are given to the host as they are. *)
Definition sys_socketpair (domain type protocol sockets_addr : Z) : C Z :=
  if sock_family_to_real domain <? 0 then cret _EINVAL
  else if sock_type_to_real type protocol <? 0 then cret _EINVAL
  else
    let* (err, p) := run (host_socketpair domain type protocol) in
    if err <? 0 then run failed
    else
      let close_sockets err := Adhoc.host_close p.1 ;; Adhoc.host_close p.2 ;; ret err in
      let* f0 := run (sock_fd_create p.1 domain type protocol) in
      if f0 <? 0 then run (close_sockets f0)
      else
        let* f1 := run (sock_fd_create p.2 domain type protocol) in
        if f1 <? 0 then run (let! _ := sys_close f0 in close_sockets f1)
        else
          let* _ := run (
            let! sock1 := f_get f0 in
            let! sock2 := f_get f1 in
            let! a := deref sock1 in
            upd_socket a (set_unix_peer sock2) ;;
            let! b := deref sock2 in
            upd_socket b (set_unix_peer sock1)) in
          let* bad := put sockets_addr (le_bytes 4 f0 ++ le_bytes 4 f1) in
          if bad then run (let! _ := sys_close f1 in let! _ := sys_close f0 in close_sockets _EFAULT) else cret 0.

(** ** Sending and receiving *)

Definition sys_sendto (sock_fd buffer_addr len flags sockaddr_addr sockaddr_len : Z) : C Z :=
  with_sock sock_fd (fun sock =>
    let* _ := run (in_bounds (len <? u32 (len + 1))) in
    let* (bad, buffer) := get buffer_addr len in
    if bad then cret _EFAULT
    else
      let real_flags := sock_flags_to_real flags in
      if real_flags <? 0 then cret _EINVAL
      else
        let* addr := if ctrue sockaddr_addr then let* r := sockaddr_read sockaddr_addr sockaddr_len in cret (match r with inl err => inl err | inr a => inr (Some a) end) else cret (inr None) in
        match addr with
        | inl err => cret err
        | inr addr =>
            let* res := run (let! r := real_fd sock in host_sendto r buffer real_flags addr) in
            if res <? 0 then run failed else cret res
        end).
(** The whole buffer is stored, however little was received. *)
Definition sys_recvfrom (sock_fd buffer_addr len flags sockaddr_addr sockaddr_len_addr : Z) : C Z :=
  with_sock sock_fd (fun sock =>
    let real_flags := sock_flags_to_real flags in
    if real_flags <? 0 then cret _EINVAL
    else
      let* (bad, l) := if negb (sockaddr_len_addr =? 0) then get sockaddr_len_addr 4 else cret (false, replicate 4 0) in
      if bad then cret _EFAULT
      else
        let* (res, buffer, sockaddr, sockaddr_len) := run (let! r := real_fd sock in host_recvfrom r len real_flags (if sockaddr_addr =? 0 then None else Some (le_value l))) in
        let sockaddr_len := if sockaddr_addr =? 0 then le_value l else sockaddr_len in
        if res <? 0 then run failed
        else
          let* bad := put buffer_addr buffer in
          if bad then cret _EFAULT
          else
            let* r := if negb (sockaddr_addr =? 0) then sockaddr_write sockaddr_addr sockaddr sockaddr_len else cret (inr sockaddr_len) in
            match r with
            | inl err => cret err
            | inr sockaddr_len =>
                if negb (sockaddr_len_addr =? 0) then
                  let* bad := put sockaddr_len_addr (le_bytes 4 sockaddr_len) in cret (if bad then _EFAULT else res)
                else cret res
            end).
Definition sys_send (sock_fd buf len flags : Z) : C Z := sys_sendto sock_fd buf len flags 0 0.
Definition sys_recv (sock_fd buf len flags : Z) : C Z := sys_recvfrom sock_fd buf len flags 0 0.

Definition sys_shutdown (sock_fd how : Z) : V F Z :=
  let! sock := sock_getfd sock_fd in
  match sock with
  | None => ret _EBADF
  | Some sock => let! r := real_fd sock in let! err := host_shutdown r how in if err <? 0 then failed else ret 0
  end.

(** ** Options *)

Definition sys_setsockopt (sock_fd level option value_addr value_len : Z) : C Z :=
  with_sock sock_fd (fun sock =>
    let* (bad, value) := get value_addr value_len in
    if bad then cret _EFAULT
    else if (level =? IPPROTO_ICMPV6) && (option =? ICMP6_FILTER_) then cret 0
    else if (level =? IPPROTO_IP) && (option =? IP_MTU_DISCOVER_) then cret 0
    else
      let real_opt := sock_opt_to_real option level in
      if real_opt <? 0 then cret _EINVAL
      else
        let real_level := sock_level_to_real (s32 level) in
        if real_level <? 0 then cret _EINVAL
        else if real_opt =? 0 then cret 0
        else
          let* err := run (let! r := real_fd sock in host_setsockopt r real_level real_opt value) in
          if err <? 0 then run failed else cret 0).

Definition DEFAULT_TCP_CONGESTION : list Z := bytes_of (cstr "cubic").
Definition ucred_bytes (c : ucred) : list Z := le_bytes 4 (cr_pid c) ++ le_bytes 4 (cr_uid c) ++ le_bytes 4 (cr_gid c).
(** The value and its length, which is stored in the place of that of the guest; the buffer keeps its size. *)
Definition getsockopt_value (sock level option : Z) (value : list Z) : V F (Z + list Z * Z) :=
  let value_len := Z.of_nat (length value) in
  let! x := get_socket sock in
  if (level =? SOL_SOCKET_) && ((option =? SO_DOMAIN_) || (option =? SO_TYPE_) || (option =? SO_PROTOCOL_)) then
    ret (if negb (value_len =? 4) then inl _EINVAL
         else inr (le_bytes 4 (if option =? SO_DOMAIN_ then domain x else if option =? SO_TYPE_ then type x else protocol x), value_len))
  else if (level =? SOL_SOCKET_) && (option =? SO_PEERCRED_) then
    if negb (value_len =? 12) then ret (inl _EINVAL)
    else
      match if domain x =? AF_LOCAL_ then unix_peer x else None with
      | None => ret (inr (ucred_bytes (mk_ucred 0 (u32 (-1)) (u32 (-1))), value_len))
      | Some p => let! y := get_socket p in ret (inr (ucred_bytes (unix_cred y), value_len))
      end
  else if (level =? SOL_SOCKET_) && (option =? SO_ERROR_) then
    if negb (value_len =? 4) then ret (inl _EINVAL)
    else
      let! r := real_fd sock in
      let! (err, e, _) := host_getsockopt r SOL_SOCKET (opt SO_ERROR) (replicate 4 0) in
      if err <? 0 then let! e := failed in ret (inl e)
      else
        let real_error := s32 (le_value e) in
        ret (inr (le_bytes 4 (if real_error =? 0 then 0 else - err_map real_error), value_len))
  else if (level =? IPPROTO_TCP) && (option =? TCP_CONGESTION_) then
    in_bounds (5 <=? value_len) ;;
    ret (inr (DEFAULT_TCP_CONGESTION ++ drop 5 value, 5))
  else
    let real_opt := sock_opt_to_real option level in
    if real_opt <? 0 then ret (inl _EINVAL)
    else
      let real_level := sock_level_to_real (s32 level) in
      if real_level <? 0 then ret (inl _EINVAL)
      else
        let! r := real_fd sock in
        let! (err, value, len) := host_getsockopt r real_level real_opt value in
        if err <? 0 then let! e := failed in ret (inl e) else ret (inr (value, len)).
Definition sys_getsockopt (sock_fd level option value_addr len_addr : Z) : C Z :=
  with_sock sock_fd (fun sock =>
    let* (bad, len) := get len_addr 4 in
    if bad then cret _EFAULT
    else
      let* (bad, value) := get value_addr (le_value len) in
      if bad then cret _EFAULT
      else
        let* r := run (getsockopt_value sock level option value) in
        match r with
        | inl err => cret err
        | inr (value, value_len) =>
            let* bad := put len_addr (le_bytes 4 value_len) in
            if bad then cret _EFAULT
            else let* bad := put value_addr value in cret (if bad then _EFAULT else 0)
        end).

(** ** Messages *)

(** [struct msghdr_]. *)
Record msghdr := mk_msghdr { msg_name : Z; msg_namelen : Z; msg_iov : Z; msg_iovlen : Z; msg_control : Z; msg_controllen : Z; msg_flags : Z }.
Definition nth_word (i : nat) (b : list Z) : Z := le_value (take 4 (drop (4 * i) b)).
Definition msghdr_of (b : list Z) : msghdr := mk_msghdr (nth_word 0 b) (nth_word 1 b) (nth_word 2 b) (nth_word 3 b) (nth_word 4 b) (nth_word 5 b) (s32 (nth_word 6 b)).
Definition msghdr_bytes (m : msghdr) : list Z :=
  le_bytes 4 (msg_name m) ++ le_bytes 4 (msg_namelen m) ++ le_bytes 4 (msg_iov m) ++ le_bytes 4 (msg_iovlen m) ++ le_bytes 4 (msg_control m) ++ le_bytes 4 (msg_controllen m) ++ le_bytes 4 (msg_flags m).
Definition MSGHDR_SIZE : Z := 28.

(** [struct cmsghdr_] at an offset of the control data. *)
Record cmsghdr := mk_cmsghdr { cm_at : Z; cm_len : Z; cm_level : Z; cm_type : Z }.
Definition CMSGHDR_SIZE : Z := 12.
Definition cmsg_at (control : list Z) (at_ : Z) : cmsghdr :=
  let b := drop (Z.to_nat at_) control in mk_cmsghdr at_ (nth_word 0 b) (s32 (nth_word 1 b)) (s32 (nth_word 2 b)).
Definition CMSG_LEN_ (c : cmsghdr) : Z := Z.land (u32 (cm_len c + 3)) (u32 (Z.lnot 3)).
Definition CMSG_NXTHDR_ (control : list Z) (controllen : Z) (c : cmsghdr) : option cmsghdr :=
  if (cm_len c <? CMSGHDR_SIZE) || (CMSG_LEN_ c + CMSGHDR_SIZE >=? controllen - cm_at c) then None
  else Some (cmsg_at control (cm_at c + CMSG_LEN_ c)).
(** Enough for the headers of 2048 bytes, of which every one but the last takes at least 12. *)
Definition MAX_CMSGS : nat := 200.
(** The headers one after the other. *)
Fixpoint cmsgs (fuel : nat) (control : list Z) (controllen : Z) (c : option cmsghdr) : list cmsghdr :=
  match fuel, c with
  | S fuel, Some c => c :: cmsgs fuel control controllen (CMSG_NXTHDR_ control controllen c)
  | _, _ => []
  end.
(** The number of descriptors in one, with the arithmetic of [size_t]. *)
Definition cmsg_fds (c : cmsghdr) : Z := u64 (cm_len c - CMSGHDR_SIZE) / 4.

(** The first loop; the sum has 32 bits.  A header that says it has almost 2^32 bytes is followed by itself, and the loop does not end. *)
Fixpoint count_fds (fuel : nat) (control : list Z) (controllen : Z) (c : option cmsghdr) (num_fds : Z) : V F (Z + Z) :=
  match c with
  | None => ret (inr num_fds)
  | Some c =>
      match fuel with
      | O => hang
      | S fuel =>
          let next := CMSG_NXTHDR_ control controllen c in
          if negb (cm_level c =? SOL_SOCKET_) then count_fds fuel control controllen next num_fds
          else if negb (cm_type c =? SCM_RIGHTS_) then ret (inl _EINVAL)
          else count_fds fuel control controllen next (u32 (num_fds + cmsg_fds c))
      end
  end.
(** The descriptors of one header are taken one by one; [scm] has room for [num_fds], and a descriptor that is not open is a null pointer.
    As many are taken as the room allows, with one more that faults. *)
Fixpoint take_fds (n : nat) (control : list Z) (at_ : Z) (num_fds : Z) (fds : list Z) : V F (list Z) :=
  match n with
  | O => ret fds
  | S n =>
      in_bounds (at_ + 4 <=? Z.of_nat (length control)) ;;
      let! f := f_get (s32 (le_value (take 4 (drop (Z.to_nat at_) control)))) in
      let! f := deref f in
      let! f := fd_retain f in
      in_bounds (Z.of_nat (length fds) <? num_fds) ;;
      take_fds n control (at_ + 4) num_fds (fds ++ [f])
  end.
Fixpoint collect_fds (l : list cmsghdr) (control : list Z) (num_fds : Z) (fds : list Z) : V F (list Z) :=
  match l with
  | [] => ret fds
  | c :: l =>
      if negb (cm_level c =? SOL_SOCKET_) then collect_fds l control num_fds fds
      else
        let! fds := take_fds (Z.to_nat (Z.min (cmsg_fds c) (num_fds + 1))) control (cm_at c + CMSGHDR_SIZE) num_fds fds in
        collect_fds l control num_fds fds
  end.

Definition scm_free (scm : Z) : V F unit :=
  let! s := gets id in
  let! fds := deref (scms (state s) !! scm) in
  for_each fds (fun f => let! _ := fd_close f in ret tt) ;;
  update (fun n => set_scms (delete scm (scms n)) n).

(** What is sent along with the message: nothing, an error, or a message with descriptors that is at the end of the queue of the other end; or that it is not there. *)
Definition send_rights (sock : Z) (control : list Z) (controllen : Z) : V F (Z + option (Z * bool)) :=
  let l := cmsgs MAX_CMSGS control controllen (Some (cmsg_at control 0)) in
  let! n := count_fds MAX_CMSGS control controllen (Some (cmsg_at control 0)) 0 in
  match n with
  | inl err => ret (inl err)
  | inr num_fds =>
      if num_fds >? 253 then ret (inl _EINVAL)
      else if num_fds =? 0 then ret (inr None)
      else
        let! scm := malloc in
        let! fds := collect_fds l control num_fds [] in
        update (fun n => set_scms (<[scm := fds]> (scms n)) n) ;;
        let! x := get_socket sock in
        match unix_peer x with
        | None => ret (inr (Some (scm, false)))
        | Some peer => upd_socket peer (fun y => set_unix_scm (unix_scm y ++ [scm]) y) ;; ret (inr (Some (scm, true)))
        end
  end.
(** Takes a message out of the queue again. *)
Definition out_free_scm (sock : Z) (scm : option (Z * bool)) : V F unit :=
  match scm with
  | None => ret tt
  | Some (scm, _) =>
      let! x := get_socket sock in
      match unix_peer x with Some peer => upd_socket peer (fun y => set_unix_scm (filter (fun z => z <> scm) (unix_scm y)) y) | None => ret tt end ;;
      scm_free scm
  end.

(** Reads the pieces. *)
Fixpoint read_pieces (l : list iovec) : C (option (list (list Z))) :=
  match l with
  | [] => cret (Some [])
  | v :: l =>
      let* (bad, b) := get (iov_base v) (iov_len v) in
      if bad then cret None
      else let* r := read_pieces l in cret (match r with Some bs => Some (b :: bs) | None => None end)
  end.

Definition sys_sendmsg (sock_fd msghdr_addr flags : Z) : C Z :=
  with_sock sock_fd (fun sock =>
    let* (bad, b) := get msghdr_addr MSGHDR_SIZE in
    if bad then cret _EFAULT
    else
      let m := msghdr_of b in
      let* name := if negb (msg_name m =? 0) then let* r := sockaddr_read (msg_name m) (msg_namelen m) in cret (match r with inl err => inl err | inr a => inr (Some a) end) else cret (inr None) in
      match name with
      | inl err => cret err
      | inr name =>
          let* (bad, iov) := get (msg_iov m) (8 * msg_iovlen m) in
          if bad then cret _EFAULT
          else
            let* pieces := read_pieces (iovecs_of (Z.to_nat (msg_iovlen m)) iov) in
            match pieces with
            | None => cret _EFAULT
            | Some pieces =>
                if negb (msg_control m =? 0) && (msg_controllen m >? 2048) then cret _EINVAL
                else
                  let* s := run (gets id) in
                  let* (bad, data) := if negb (msg_control m =? 0) then get (msg_control m) (msg_controllen m) else cret (false, []) in
                  if bad then cret _EFAULT
                  else
                    let control := data ++ drop (length data) (control_junk s) in
                    run (
                      let! x := get_socket sock in
                      let! scm := if (domain x =? AF_LOCAL_) && negb (msg_control m =? 0) && (msg_controllen m >=? CMSGHDR_SIZE) then send_rights sock control (msg_controllen m) else ret (inr None) in
                      match scm with
                      | inl err => ret err
                      | inr (Some (scm, false)) => out_free_scm sock (Some (scm, false)) ;; ret _EPIPE
                      | inr scm =>
                          let real_msg_flags := sock_flags_to_real (msg_flags m) in
                          let real_flags := sock_flags_to_real flags in
                          if (real_msg_flags <? 0) || (real_flags <? 0) then out_free_scm sock scm ;; ret _EINVAL
                          else
                            let! r := real_fd sock in
                            let! err := host_sendmsg r name pieces (bool_decide (scm <> None)) real_msg_flags real_flags in
                            if err <? 0 then let! e := failed in out_free_scm sock scm ;; ret e else ret err
                      end)
            end
      end).

(** The pieces that were received are stored, up to the number of bytes. *)
Fixpoint write_pieces (l : list iovec) (data : list (list Z)) (n : Z) : C bool :=
  match l, data with
  | v :: l, b :: data =>
      let chunk_size := Z.min (iov_len v) n in
      let* bad := if chunk_size >? 0 then copy_out (iov_base v) b 0 chunk_size else cret false in
      if bad then cret true else write_pieces l data (n - chunk_size)
  | _, _ => cret false
  end.
(** The descriptors are installed in order; a number below 0 says that there is no room. *)
Fixpoint install_fds (fds : list Z) : V F (list Z) :=
  match fds with [] => ret [] | f :: fds => let! n := f_install f 0 in let! ns := install_fds fds in ret (n :: ns) end.
(** The control data of the message: the header and the descriptors. *)
Definition rights_bytes (ns : list Z) : list Z :=
  le_bytes 4 (CMSGHDR_SIZE + 4 * Z.of_nat (length ns)) ++ le_bytes 4 SOL_SOCKET_ ++ le_bytes 4 SCM_RIGHTS_ ++ mjoin (le_bytes 4 <$> ns).
(** Takes the first message off the queue of the socket. *)
Definition take_scm (sock : Z) : V F (Z * list Z) :=
  let! x := get_socket sock in
  match unix_scm x with
  | [] => abort
  | scm :: rest =>
      upd_socket sock (set_unix_scm rest) ;;
      let! s := gets id in
      let! fds := deref (scms (state s) !! scm) in
      ret (scm, fds)
  end.

Definition sys_recvmsg (sock_fd msghdr_addr flags : Z) : C Z :=
  with_sock sock_fd (fun sock =>
    let* (bad, b) := get msghdr_addr MSGHDR_SIZE in
    if bad then cret _EFAULT
    else
      let m := msghdr_of b in
      let real_flags := sock_flags_to_real flags in
      if real_flags <? 0 then cret _EINVAL
      else
        let* (bad, iov) := get (msg_iov m) (8 * msg_iovlen m) in
        if bad then cret _EFAULT
        else
          let iovecs := iovecs_of (Z.to_nat (msg_iovlen m)) iov in
          let wants_name := negb (msg_name m =? 0) in
          let* rc := run (let! r := real_fd sock in host_recvmsg r (if wants_name then Some (msg_namelen m) else None) (negb (msg_controllen m =? 0)) (iov_len <$> iovecs) real_flags) in
          let* err := run (if rc_res rc <? 0 then failed else ret 0) in
          let* bad := write_pieces iovecs (rc_iov rc) (if rc_res rc <? 0 then 0 else rc_res rc) in
          if bad then cret _EFAULT
          else
            let* x := run (get_socket sock) in
            let* r :=
              if (domain x =? AF_LOCAL_) && rc_scm rc then
                let* (scm, fds) := run (take_scm sock) in
                if rc_res rc <? 0 then let* _ := run (scm_free scm) in cret (inl err)
                else
                  let* ns := run (install_fds fds) in
                  let* bad := put (msg_control m) (rights_bytes ns) in
                  cret (if bad then inl _EFAULT else inr (rc_controllen rc))
              else cret (inr 0) in
            match r with
            | inl err => cret err
            | inr controllen =>
                if rc_res rc <? 0 then cret err
                else
                  let* r := if wants_name then sockaddr_write (msg_name m) (rc_name rc) (rc_namelen rc) else cret (inr (rc_namelen rc)) in
                  match r with
                  | inl err => cret err
                  | inr namelen =>
                      let m := mk_msghdr (msg_name m) namelen (msg_iov m) (msg_iovlen m) (msg_control m) controllen (sock_flags_from_real (rc_flags rc)) in
                      let* bad := put msghdr_addr (msghdr_bytes m) in
                      cret (if bad then _EFAULT else rc_res rc)
                  end
            end).

(** Sends messages one after the other until one fails or sends nothing. *)
Fixpoint sendmmsg_loop (n : nat) (sock_fd msghdr flags num_sent : Z) : C Z :=
  match n with
  | O => cret num_sent
  | S n =>
      let* res := sys_sendmsg sock_fd msghdr flags in
      let* res := if res >=? 0 then let* bad := put (u32 (msghdr + MSGHDR_SIZE)) (le_bytes 4 res) in cret (if bad then _EFAULT else res) else cret res in
      if res <? 0 then cret (if num_sent >? 0 then num_sent else res)
      else if res =? 0 then cret (num_sent + 1)
      else sendmmsg_loop n sock_fd (u32 (msghdr + 32)) flags (num_sent + 1)
  end.
Definition sys_sendmmsg (sock_fd msg_vec vec_len flags : Z) : C Z := sendmmsg_loop (Z.to_nat vec_len) sock_fd msg_vec flags 0.

(** ** Operations of the file *)

Definition sock_translate_err (fd err : Z) : V F Z :=
  if err =? _ENOTCONN then
    let! r := real_fd fd in
    let! (res, _, _) := host_getpeername r 16 in
    let! s := gets id in
    ret (if (res <? 0) && (host_errno s =? host_number EINVAL) then _ECONNRESET else err)
  else ret err.
Definition sock_read (fd size : Z) : V F (Z * list Z) :=
  let! (err, data) := realfs_read fd size in
  let! err := sock_translate_err fd (s32 err) in ret (err, data).
Definition sock_write (fd : Z) (buf : list Z) : V F Z := let! err := realfs_write fd buf in sock_translate_err fd (s32 err).
Definition sock_close (fd : Z) : V F Z :=
  sockrestart_end_listen fd ;;
  let! x := get_socket fd in
  inode_release_if_exist (unix_name_inode x) ;;
  match unix_name_abstract x with Some a => unix_abstract_release a | None => ret tt end ;;
  match unix_peer x with Some peer => upd_socket peer (set_unix_peer None) | None => ret tt end ;;
  (if domain x =? AF_LOCAL_ then for_each (unix_scm x) (fun scm => upd_socket fd (fun y => set_unix_scm (filter (fun z => z <> scm) (unix_scm y)) y) ;; scm_free scm) else ret tt) ;;
  realfs_close fd.

End Operations.

(** ** Steps *)

Section Steps.
Context {F : Type} {SF : System F} {HA : HasAdhoc F} {HT : HasNet F} {HN : HostNumbers} {HE : HostErrno}.
Implicit Types s : vfs F.

Lemma fault_step {A B} (m : V F A) (f : A -> V F B) s : m s = Fault -> bind m f s = Fault.
Proof. unfold bind. by intros ->. Qed.
Lemma net_state_set x s : state (set_state x s) = x.
Proof. unfold state, set_state. destruct s. apply get_put_net. Qed.
(** [x] is the socket in the open file [fd]. *)
Definition has_socket s (fd : Z) (x : socket) : Prop := is_Some (fds s !! fd) /\ sockets (state s) !! fd = Some x.
Lemma get_socket_run fd x s : has_socket s fd x -> get_socket fd s = Ret x s.
Proof.
  intros [[o Ho] Hx]. unfold get_socket. rewrite (bind_step _ _ s o s) by (unfold get_fd; rewrite (bind_step _ _ s s s) by done; unfold id; by rewrite Ho).
  rewrite (bind_step _ _ s s s) by done. unfold id. by rewrite Hx.
Qed.
Definition with_socket (fd : Z) (x : socket) s : vfs F := set_state (set_sockets (<[fd := x]> (sockets (state s))) (state s)) s.
Lemma upd_socket_run fd x g s : has_socket s fd x -> upd_socket fd g s = Ret tt (with_socket fd (g x) s).
Proof. intros H. unfold upd_socket. by rewrite (bind_step _ _ _ _ _ (get_socket_run _ _ _ H)). Qed.
Lemma has_socket_same s fd x : is_Some (fds s !! fd) -> has_socket (with_socket fd x s) fd x.
Proof. intros H. split; [by destruct s|]. unfold with_socket. rewrite net_state_set. apply lookup_insert_eq. Qed.
Lemma has_socket_other s fd x g y : g <> fd -> has_socket s g y -> has_socket (with_socket fd x s) g y.
Proof. intros Hne [H1 H2]. split; [by destruct s|]. unfold with_socket. rewrite net_state_set. cbn. by rewrite lookup_insert_ne. Qed.

(** ** Passing descriptors *)

(** The control data of a message that passes the descriptors [ns], and the descriptors as they are in it. *)
Definition numbers_bytes (ns : list Z) : list Z := mjoin (le_bytes 4 <$> ns).
Lemma numbers_bytes_cons n ns : numbers_bytes (n :: ns) = le_bytes 4 n ++ numbers_bytes ns.
Proof. done. Qed.
Lemma numbers_bytes_length ns : length (numbers_bytes ns) = (4 * length ns)%nat.
Proof. induction ns as [|n ns IH]; [done|]. rewrite numbers_bytes_cons, length_app, IH, iovec_field_length. cbn [length]. lia. Qed.

(** The descriptor [n] of the table leads to the file [f], which is there. *)
Definition opens s (t : fdtable) (n f : Z) : Prop := in_u 31 n /\ n < ft_size t /\ ft_files t !! Z.to_nat n = Some (Some f) /\ is_Some (fds s !! f).
(** The files with one more reference for each time they are passed. *)
Definition retain_one (m : gmap Z fd) (f : Z) : gmap Z fd := match m !! f with Some o => <[f := set_fd_refcount (u32 (fd_refcount o + 1)) o]> m | None => m end.
Definition retain_all (fs : list Z) (m : gmap Z fd) : gmap Z fd := fold_left retain_one fs m.
Lemma retain_one_there m f g : is_Some (m !! g) -> is_Some (retain_one m f !! g).
Proof. intros H. unfold retain_one. destruct (m !! f) eqn:E; [|done]. destruct (decide (f = g)) as [->|]; [by rewrite lookup_insert_eq; eexists|by rewrite lookup_insert_ne]. Qed.
Lemma passed_retain_run f s : is_Some (fds s !! f) -> fd_retain f s = Ret f (set_fds (retain_one (fds s) f) s).
Proof.
  intros [o Ho]. unfold fd_retain, upd_fd. assert (get_fd f s = Ret o s) as E by (unfold get_fd; rewrite (bind_step _ _ s s s) by done; unfold id; by rewrite Ho).
  unfold retain_one. rewrite Ho. unfold bind. by rewrite E.
Qed.

Lemma take_fds_run t : forall ns fs pre junk acc num s, tables s !! files (current s) = Some t -> ft_size t < 2 ^ 31 -> Forall2 (opens s t) ns fs -> Z.of_nat (length acc) + Z.of_nat (length ns) <= num ->
  take_fds (length ns) (pre ++ numbers_bytes ns ++ junk) (Z.of_nat (length pre)) num acc s = Ret (acc ++ fs) (set_fds (retain_all fs (fds s)) s).
Proof.
  induction ns as [|n ns IH]; intros fs pre junk acc num s Ht Hsz Hop Hnum; apply Forall2_cons_inv_l in Hop as (f & fs' & (Hn & Hlt & Hf & Ho) & Hop & ->) || apply Forall2_nil_inv_l in Hop as ->.
  - rewrite app_nil_r. cbn. by destruct s.
  - cbn [take_fds length]. rewrite numbers_bytes_cons. rewrite in_bounds_step by (apply Z.leb_le; rewrite !length_app, iovec_field_length; lia).
    rewrite Nat2Z.id, drop_app_length, <- app_assoc, take_app_length' by (by rewrite iovec_field_length). unfold in_u in Hn. rewrite Fpu.le_bytes_value by (unfold in_u; lia). rewrite swrap_small by (unfold in_s; cbn; lia).
    rewrite (bind_step _ _ s (Some f) s) by (apply (f_get_run n s t (Some f)); [done|done|lia|done]). rewrite (bind_step _ _ s f s) by done. rewrite (bind_step _ _ _ _ _ (passed_retain_run f s Ho)). cbn [length] in Hnum.
    rewrite in_bounds_step by (apply Z.ltb_lt; lia). set (s1 := set_fds (retain_one (fds s) f) s). replace (Z.of_nat (length pre) + 4) with (Z.of_nat (length (pre ++ le_bytes 4 n))) by (rewrite length_app, iovec_field_length; lia).
    rewrite app_assoc. rewrite (IH fs' (pre ++ le_bytes 4 n) junk (acc ++ [f]) num s1); [rewrite <- app_assoc; f_equal; by destruct s|by destruct s|done| |rewrite length_app; cbn; lia].
    eapply Forall2_impl; [exact Hop|]. intros a b (? & ? & ? & ?). split_and!; [done..|]. destruct s. by apply retain_one_there.
Qed.

Lemma align_4 x : in_u 32 x -> Z.land x (2 ^ 32 - 4) = x - x mod 4.
Proof.
  intros Hx. change (2 ^ 32 - 4) with (Z.shiftl (Z.ones 30) 2). unfold in_u in Hx. pose proof (Z.div_mod x 4). pose proof (Z.mod_pos_bound x 4). pose proof (Z.div_lt_upper_bound x 4 (2 ^ 30)).
  replace (Z.land x (Z.shiftl (Z.ones 30) 2)) with (Z.shiftl (Z.land (Z.shiftr x 2) (Z.ones 30)) 2).
  - rewrite Z.land_ones, Z.shiftr_div_pow2, Z.shiftl_mul_pow2 by lia. change (2 ^ 2) with 4. rewrite Z.mod_small by (split; [apply Z.div_pos; lia|apply Z.div_lt_upper_bound; lia]). lia.
  - apply Z.bits_inj'. intros n Hn. rewrite Z.land_spec, !Z.shiftl_spec by lia. destruct (Z.ltb_spec n 2); [rewrite !(Z.testbit_neg_r _ (n - 2)) by lia; by rewrite andb_false_r|].
    rewrite Z.land_spec, Z.shiftr_spec by lia. by replace (n - 2 + 2) with n by lia.
Qed.
Lemma nth_word_at i pre w post : length pre = (4 * i)%nat -> in_u 32 w -> nth_word i (pre ++ le_bytes 4 w ++ post) = w.
Proof. intros Hl Hw. unfold nth_word. rewrite drop_app_length', take_app_length' by (by rewrite ?iovec_field_length). apply Fpu.le_bytes_value; [lia|done]. Qed.
Lemma rights_header ns junk : Z.of_nat (length ns) <= 253 -> let control := rights_bytes ns ++ junk in let len := CMSGHDR_SIZE + 4 * Z.of_nat (length ns) in
  cmsg_at control 0 = mk_cmsghdr 0 len SOL_SOCKET_ SCM_RIGHTS_ /\ CMSG_NXTHDR_ control len (mk_cmsghdr 0 len SOL_SOCKET_ SCM_RIGHTS_) = None.
Proof.
  intros Hl control len. pose proof iovec_field_length as L. assert (in_u 32 len) as Hlen by (unfold len, in_u, CMSGHDR_SIZE; lia). split.
  - unfold cmsg_at, control, rights_bytes. fold len. cbv zeta. change (Z.to_nat 0) with 0%nat. rewrite drop_0, <- !app_assoc. f_equal. by apply (nth_word_at 0 []).
  - unfold CMSG_NXTHDR_, CMSG_LEN_. cbn [cm_len cm_at]. assert (Z.land (u32 (len + 3)) (u32 (Z.lnot 3)) = len) as ->.
    { rewrite wrap_small by (unfold in_u, len, CMSGHDR_SIZE in *; lia). change (u32 (Z.lnot 3)) with (2 ^ 32 - 4). rewrite align_4 by (unfold in_u, len, CMSGHDR_SIZE in *; lia).
      replace (len + 3) with (3 + (3 + Z.of_nat (length ns)) * 4) by (unfold len, CMSGHDR_SIZE; lia). rewrite Z.mod_add by lia. change (3 mod 4) with 3. unfold len, CMSGHDR_SIZE. lia. }
    replace (len + CMSGHDR_SIZE >=? len - 0) with true by (unfold CMSGHDR_SIZE; zbool; lia || done). by rewrite orb_true_r.
Qed.

Lemma count_single fuel control len c n s : CMSG_NXTHDR_ control len c = None -> cm_level c = SOL_SOCKET_ -> cm_type c = SCM_RIGHTS_ ->
  count_fds (S fuel) control len (Some c) n s = Ret (inr (u32 (n + cmsg_fds c))) s.
Proof. intros H H1 H2. cbn [count_fds]. rewrite H1, H2, H. by destruct fuel. Qed.
Lemma cmsgs_single fuel control len c : CMSG_NXTHDR_ control len c = None -> cmsgs (S fuel) control len (Some c) = [c].
Proof. intros H. cbn [cmsgs]. rewrite H. by destruct fuel. Qed.

(** *** The queue of messages *)

(** The files on their way to the socket [p], message by message. *)
Record queued s (p : Z) (q : list (list Z)) : Prop := {
  qu_socket : exists x, has_socket s p x /\ Forall2 (fun a fs => scms (state s) !! a = Some fs) (unix_scm x) q /\ NoDup (unix_scm x);
  qu_fresh : forall a fs, scms (state s) !! a = Some fs -> a < next s }.
(** The sender: a socket of the local domain with its peer, and the table of its process. *)
Record sender s (sock p : Z) (t : fdtable) : Prop := {
  se_socket : exists x, has_socket s sock x /\ unix_peer x = Some p;
  se_apart : sock <> p;
  se_table : tables s !! files (current s) = Some t;
  se_size : ft_size t < 2 ^ 31 }.

(** A message that passes descriptors puts their files, with a reference each, at the end of the queue of the other end. *)
Lemma send_rights_run s sock p t q ns fs junk : sender s sock p t -> queued s p q -> Forall2 (opens s t) ns fs -> 0 < Z.of_nat (length ns) <= 253 ->
  exists s' scm, send_rights sock (rights_bytes ns ++ junk) (CMSGHDR_SIZE + 4 * Z.of_nat (length ns)) s = Ret (inr (Some (scm, true))) s' /\
    sender s' sock p t /\ queued s' p (q ++ [fs]) /\ fds s' = retain_all fs (fds s).
Proof.
  intros [(x & Hx & Hp) Hne Ht Hsz] [(y & Hy & Hq & Hnd) Hfr] Hop Hn. destruct (rights_header ns junk ltac:(lia)) as [Hh Hnx]. set (control := rights_bytes ns ++ junk) in *. set (len := CMSGHDR_SIZE + 4 * Z.of_nat (length ns)) in *. pose proof iovec_field_length as L.
  assert (cmsg_fds (mk_cmsghdr 0 len SOL_SOCKET_ SCM_RIGHTS_) = Z.of_nat (length ns)) as Hc by (unfold cmsg_fds, len, CMSGHDR_SIZE; cbn [cm_len]; rewrite wrap_small by (unfold in_u; lia); replace (12 + 4 * Z.of_nat (length ns) - 12) with (Z.of_nat (length ns) * 4) by lia; apply Z.div_mul; lia).
  unfold send_rights. rewrite Hh. assert (exists n, MAX_CMSGS = S n) as [fuel ->] by (by eexists). rewrite (bind_step _ _ s (inr (Z.of_nat (length ns))) s).
  2: { rewrite count_single by done. rewrite Hc. by rewrite wrap_small by (unfold in_u; lia). }
  destruct (Z.gtb_spec (Z.of_nat (length ns)) 253); [lia|]. destruct (Z.eqb_spec (Z.of_nat (length ns)) 0); [lia|].
  set (s1 := set_next (next s + 1) s). rewrite (bind_step _ _ s (next s) s1) by done. set (s2 := set_fds (retain_all fs (fds s1)) s1).
  assert (Forall2 (opens s1 t) ns fs) as Hop1 by (eapply Forall2_impl; [exact Hop|]; by destruct s).
  rewrite (bind_step _ _ s1 fs s2).
  2: { rewrite cmsgs_single by done. cbn [collect_fds cm_level]. change (negb (SOL_SOCKET_ =? SOL_SOCKET_)) with false. cbv iota. rewrite Hc. rewrite Z.min_l, Nat2Z.id by lia. cbn [cm_at]. unfold control, rights_bytes. fold len. rewrite !(app_assoc _ _ (mjoin _)), <- (app_assoc _ _ junk).
       set (pre := le_bytes 4 len ++ le_bytes 4 SOL_SOCKET_ ++ le_bytes 4 SCM_RIGHTS_). replace ((le_bytes 4 len ++ le_bytes 4 SOL_SOCKET_) ++ le_bytes 4 SCM_RIGHTS_) with pre by (unfold pre; by rewrite app_assoc).
       replace (0 + CMSGHDR_SIZE) with (Z.of_nat (length pre)) by (unfold pre; rewrite !length_app, !L; done). fold (numbers_bytes ns). erewrite bind_step; [reflexivity|].
       rewrite (take_fds_run t ns fs pre junk [] (Z.of_nat (length ns)) s1); [done|by destruct s|done|exact Hop1|cbn; lia]. }
  set (s3 := set_state (set_scms (<[next s := fs]> (scms (state s2))) (state s2)) s2). rewrite (bind_step _ _ s2 tt s3) by done.
  assert (forall g, is_Some (fds s !! g) -> is_Some (fds s3 !! g)) as Hfd.
  { intros g Hg. assert (fds s3 = retain_all fs (fds s)) as -> by (by destruct s). clear -Hg. revert Hg. unfold retain_all. generalize (fds s). induction fs as [|f fs IH]; intros m Hg; [done|]. cbn. by apply IH, retain_one_there. }
  assert (sockets (state s3) = sockets (state s)) as Hso by (unfold s3; rewrite net_state_set; unfold s2, s1, state; by destruct s).
  assert (has_socket s3 sock x) as Hx3 by (destruct Hx; split; [by apply Hfd|by rewrite Hso]). assert (has_socket s3 p y) as Hy3 by (destruct Hy; split; [by apply Hfd|by rewrite Hso]).
  assert (scms (state s3) = <[next s := fs]> (scms (state s))) as Hsc by (unfold s3; rewrite net_state_set; unfold s2, s1, state; by destruct s).
  rewrite (bind_step _ _ _ _ _ (get_socket_run _ _ _ Hx3)), Hp, (bind_step _ _ _ _ _ (upd_socket_run _ _ _ _ Hy3)). eexists _, (next s). split; [reflexivity|].
  assert (forall a fs', scms (state s) !! a = Some fs' -> a <> next s) as Hlt by (intros a fs' Ha; specialize (Hfr a fs' Ha); lia). split_and!; [split|split|].
  - exists x. split; [by apply has_socket_other|done].
  - done.
  - by destruct s.
  - done.
  - eexists. split; [apply has_socket_same; apply Hy3|]. cbn [unix_scm set_unix_scm]. unfold with_socket. rewrite net_state_set. cbn [scms set_sockets]. rewrite Hsc. split.
    + apply Forall2_app; [|constructor; [apply lookup_insert_eq|constructor]]. eapply Forall2_impl; [exact Hq|]. intros a fs' Ha. rewrite lookup_insert_ne; [done|]. intros <-. by eapply Hlt.
    + apply NoDup_app. split_and!; [done| |apply NoDup_singleton]. intros a Ha ->%list_elem_of_singleton. apply list_elem_of_lookup in Ha as [i Hi]. destruct (Forall2_lookup_l _ _ _ _ _ Hq Hi) as (fs' & _ & E). by eapply Hlt.
  - intros a fs'. unfold with_socket. rewrite net_state_set. cbn [scms set_sockets]. rewrite Hsc. intros [[<- <-]|[Hd Ha]]%lookup_insert_Some; [|specialize (Hfr a fs' Ha)]; destruct s; cbn in *; lia.
  - by destruct s.
Qed.

(** The first message is taken off the queue. *)
Lemma take_scm_run s p fs q : queued s p (fs :: q) -> exists s' scm, take_scm p s = Ret (scm, fs) s' /\ queued s' p q /\ fds s' = fds s /\ tables s' = tables s /\ current s' = current s /\
  (forall sock x, sock <> p -> has_socket s sock x -> has_socket s' sock x).
Proof.
  intros [(x & Hx & Hq & Hnd) Hfr]. apply Forall2_cons_inv_r in Hq as (scm & rest & Ha & Hq & E). unfold take_scm. rewrite (bind_step _ _ _ _ _ (get_socket_run _ _ _ Hx)), E. rewrite (bind_step _ _ _ _ _ (upd_socket_run _ _ _ _ Hx)).
  set (s1 := with_socket p (set_unix_scm rest x) s). assert (scms (state s1) = scms (state s)) as Hsc by (unfold s1, with_socket; by rewrite net_state_set). exists s1, scm. rewrite (bind_step _ _ s1 s1 s1) by done. unfold id. rewrite Hsc, Ha. split; [by rewrite (bind_step _ _ s1 fs s1)|].
  split; [split|split_and!; [by destruct s..|]].
  - eexists. split; [apply has_socket_same, Hx|]. cbn [unix_scm set_unix_scm]. rewrite Hsc. split; [done|]. rewrite E in Hnd. by apply NoDup_cons in Hnd as [_ ?].
  - intros a fs'. rewrite Hsc. intros Hl. specialize (Hfr a fs' Hl). by destruct s.
  - intros sock y Hne Hy. by apply has_socket_other.
Qed.

(** Messages as they are sent and received along a connection, and a queue of lists of files. *)
Inductive passing := Pass (ns fs : list Z) (junk : list Z) | Accept.
Fixpoint pass_all (sock p : Z) (l : list passing) : V F (list (list Z)) :=
  match l with
  | [] => ret []
  | Pass ns _ junk :: l => let! _ := send_rights sock (rights_bytes ns ++ junk) (CMSGHDR_SIZE + 4 * Z.of_nat (length ns)) in pass_all sock p l
  | Accept :: l => let! (_, fs) := take_scm p in let! rest := pass_all sock p l in ret (fs :: rest)
  end.
Fixpoint ideal_queue (l : list passing) (q : list (list Z)) : option (list (list Z) * list (list Z)) :=
  match l with
  | [] => Some ([], q)
  | Pass _ fs _ :: l => ideal_queue l (q ++ [fs])
  | Accept :: l => match q with [] => None | fs :: q => match ideal_queue l q with Some (rs, q) => Some (fs :: rs, q) | None => None end end
  end.
(** What is passed are descriptors of open files, as many as a message may have. *)
Definition passable s (t : fdtable) (e : passing) : Prop := match e with Pass ns fs _ => Forall2 (opens s t) ns fs /\ 0 < Z.of_nat (length ns) <= 253 | Accept => True end.

(** the queue of passed descriptors: whatever sequence of [send_rights] and [take_scm], the parts of sendmsg and recvmsg that put open files into the queue of the other end and take them out, the other
    end gets for each message the files that were put in, all of them and in order, first message first, and each file has a reference of its own for each time it was passed.  What the host does with
    the message, and giving the files numbers at the other end, which may not keep all of them, is not part of this. *)
Theorem descriptors_passed l : forall s sock p t q rs q', sender s sock p t -> queued s p q -> Forall (passable s t) l -> ideal_queue l q = Some (rs, q') ->
  exists s', pass_all sock p l s = Ret rs s' /\ queued s' p q' /\ fds s' = retain_all (mjoin ((fun e => match e with Pass _ fs _ => fs | Accept => [] end) <$> l)) (fds s).
Proof.
  induction l as [|e l IH]; intros s sock p t q rs q' Hs Hq Hl Hi; [injection Hi as <- <-; by exists s|]. apply Forall_cons in Hl as [He Hl]. destruct e as [ns fs junk|]; cbn [pass_all ideal_queue] in *.
  - destruct He as [Hop Hn]. destruct (send_rights_run s sock p t q ns fs junk Hs Hq Hop Hn) as (s1 & scm & E1 & Hs1 & Hq1 & Hf1). rewrite (bind_step _ _ _ _ _ E1).
    destruct (IH s1 sock p t (q ++ [fs]) rs q' Hs1 Hq1) as (s' & E & Hq' & Hf'); [|done|].
    + eapply Forall_impl; [exact Hl|]. intros [ns' fs' junk'|] He; [|done]. destruct He as [Hop' Hn']. split; [|done]. eapply Forall2_impl; [exact Hop'|]. intros a b (? & ? & ? & Hb). split_and!; [done..|]. rewrite Hf1. clear -Hb. revert Hb. unfold retain_all. generalize (fds s).
      induction fs as [|f fs IH]; intros m Hb; [done|]. cbn. by apply IH, retain_one_there.
    + exists s'. split; [done|]. split; [done|]. rewrite Hf', Hf1. cbn [fmap list_fmap mjoin list_join]. unfold retain_all. by rewrite fold_left_app.
  - destruct q as [|fs q]; [done|]. destruct (ideal_queue l q) as [[rs0 q0]|] eqn:E0; [|done]. injection Hi as <- <-. destruct (take_scm_run s p fs q Hq) as (s1 & scm & E1 & Hq1 & Hf1 & Ht1 & Hc1 & Hk). rewrite (bind_step _ _ _ _ _ E1).
    destruct Hs as [(x & Hx & Hp) Hne Ht Hsz]. destruct (IH s1 sock p t q rs0 q0) as (s' & E & Hq' & Hf'); [split; [exists x; split; [by apply Hk|done]|done|by rewrite Ht1, Hc1|done]|done| |done|].
    + eapply Forall_impl; [exact Hl|]. intros [ns' fs' junk'|] He'; [|done]. destruct He' as [Hop' Hn']. split; [|done]. eapply Forall2_impl; [exact Hop'|]. intros a b (? & ? & ? & Hb). split_and!; [done..|]. by rewrite Hf1.
    + exists s'. rewrite (bind_step _ _ _ _ _ E). split; [done|]. split; [done|]. by rewrite Hf', Hf1.
Qed.

End Steps.

(** ** Abstract names *)

Section Names.
Context {F : Type} {SF : System F} {HA : HasAdhoc F} {HT : HasNet F} {HN : HostNumbers} {HE : HostErrno}.
Implicit Types s : vfs F.

(** The table of names: what is in a chain is there and belongs there, what is there is in its chain, and there is one name for a hash. *)
Record names_ok s : Prop := {
  no_chain : forall h a, a ∈ bucket_of h (state s) -> exists x, abstracts (state s) !! a = Some x /\ ab_hash x mod ABSTRACT_HASH_SIZE = h mod ABSTRACT_HASH_SIZE;
  no_there : forall a x, abstracts (state s) !! a = Some x -> a ∈ bucket_of (ab_hash x) (state s) /\ a < next s;
  no_unique : forall a b x y, abstracts (state s) !! a = Some x -> abstracts (state s) !! b = Some y -> ab_hash x = ab_hash y -> a = b }.
(** The name with this hash. *)
Definition named s (h a : Z) (x : unix_abstract) : Prop := abstracts (state s) !! a = Some x /\ ab_hash x = h.

Lemma find_abstract_run s h : names_ok s ->
  (exists a x, named s h a x /\ find_abstract (bucket_of h (state s)) h s = Ret (Some a) s) \/ ((forall a x, ~ named s h a x) /\ find_abstract (bucket_of h (state s)) h s = Ret None s).
Proof.
  intros [Hc Ht Hu]. assert (forall l, (forall a, a ∈ l -> exists x, abstracts (state s) !! a = Some x) ->
    (exists a x, named s h a x /\ find_abstract l h s = Ret (Some a) s) \/ ((forall a x, a ∈ l -> ~ named s h a x) /\ find_abstract l h s = Ret None s)) as Hl.
  { induction l as [|a l IH]; intros Hin; [right; split; [intros ? ? []%elem_of_nil|done]|]. destruct (Hin a ltac:(apply elem_of_cons; by left)) as [x Hx]. cbn [find_abstract].
    rewrite (bind_step _ _ s x s) by (unfold get_abstract; rewrite (bind_step _ _ s s s) by done; unfold id; by rewrite Hx). destruct (Z.eqb_spec (ab_hash x) h) as [E|Hne].
    - left. exists a, x. split; [by split|done].
    - destruct IH as [IH|[IH1 IH2]]; [intros b Hb; apply Hin, elem_of_cons; by right|by left|]. right. split; [|done]. intros b y [->|Hb]%elem_of_cons [Hy1 Hy2]; [congruence|]. by apply (IH1 b y Hb). }
  destruct (Hl (bucket_of h (state s))) as [H|[H1 H2]]; [intros a Ha; destruct (Hc h a Ha) as (x & ? & _); eauto|by left|]. right. split; [|done]. intros a x Hn. apply (H1 a x); [|done]. destruct Hn as [Hx <-]. by apply (Ht a x Hx).
Qed.

(** Looking a name up gives the number of the socket, and takes a reference. *)
Lemma abstract_lookup_run s name a x : names_ok s -> named s (str_hash name) a x ->
  exists s', unix_abstract_get name None s = Ret (inr (ab_socket_id x)) s' /\ state s' = set_abstracts (<[a := mk_abstract (u32 (ab_refcount x + 1)) (ab_hash x) (ab_socket_id x)]> (abstracts (state s))) (state s) /\ next s' = next s.
Proof.
  intros Hok Hn. unfold unix_abstract_get. rewrite (bind_step _ _ s s s) by done. unfold id. destruct (find_abstract_run s (str_hash name) Hok) as [(b & y & Hb & E)|[Hno _]]; [|by destruct (Hno a x)].
  assert (b = a) as -> by (destruct Hb, Hn; eapply (no_unique s Hok); [done|done|congruence]). rewrite (bind_step _ _ _ _ _ E). rewrite (bind_step _ _ s a s) by done. destruct Hn as [Hx Hh].
  rewrite (bind_step _ _ s x s) by (unfold get_abstract; rewrite (bind_step _ _ s s s) by done; unfold id; by rewrite Hx). eexists. split; [reflexivity|]. split; [apply net_state_set|by destruct s].
Qed.
(** A name that is taken can not be bound. *)
Lemma abstract_taken_run s name fd a x : names_ok s -> named s (str_hash name) a x -> unix_abstract_get name (Some fd) s = Ret (inl _EEXIST) s.
Proof.
  intros Hok Hn. unfold unix_abstract_get. rewrite (bind_step _ _ s s s) by done. unfold id. destruct (find_abstract_run s (str_hash name) Hok) as [(b & y & Hb & E)|[Hno _]]; [|by destruct (Hno a x)]. by rewrite (bind_step _ _ _ _ _ E).
Qed.
Lemma counted_ok s s' a x n : names_ok s -> abstracts (state s) !! a = Some x -> state s' = set_abstracts (<[a := mk_abstract n (ab_hash x) (ab_socket_id x)]> (abstracts (state s))) (state s) -> next s' = next s -> names_ok s'.
Proof.
  intros [Hc Ht Hu] Hx E En. assert (forall b y, abstracts (state s') !! b = Some y -> exists y', abstracts (state s) !! b = Some y' /\ ab_hash y' = ab_hash y) as Hb.
  { intros b y. rewrite E. cbn. intros [[<- <-]|[_ Hy]]%lookup_insert_Some; eauto. }
  assert (forall h, bucket_of h (state s') = bucket_of h (state s)) as Hbk by (intros h; by rewrite E). split.
  - intros h b. rewrite Hbk. intros (y & Hy & Hh)%Hc. rewrite E. cbn. destruct (decide (a = b)) as [<-|]; [rewrite lookup_insert_eq; eexists; split; [done|]; cbn; congruence|rewrite lookup_insert_ne by done; eauto].
  - intros b y (y' & Hy & Eh)%Hb. rewrite Hbk, <- Eh, En. by apply Ht.
  - intros b c y z (y' & Hy & Ey)%Hb (z' & Hz & Ez)%Hb Hh. eapply Hu; [done|done|congruence].
Qed.

(** an abstract name that is bound is found: binding a name nobody has gives it a number of its own, looking it up then gives that number, other names are found or not as before,
    and binding it again fails. *)
Theorem abstract_name_bound s fd x name : names_ok s -> has_socket s fd x -> (forall a y, ~ named s (str_hash name) a y) ->
  exists s' n, unix_abstract_get name (Some fd) s = Ret (inr n) s' /\ n = u32 (next_id (state s) + 1) /\ names_ok s' /\
    (exists s2, unix_abstract_get name None s' = Ret (inr n) s2) /\ (forall g, unix_abstract_get name (Some g) s' = Ret (inl _EEXIST) s') /\
    (forall h a y, h <> str_hash name -> named s' h a y <-> named s h a y).
Proof.
  intros Hok Hfd Hno. pose proof Hok as [Hc Ht Hu]. set (h := str_hash name) in *. set (n := u32 (next_id (state s) + 1)). unfold unix_abstract_get at 1. fold h. rewrite (bind_step _ _ s s s) by done. unfold id.
  destruct (find_abstract_run s h Hok) as [(b & y & Hb & _)|[_ E]]; [by destruct (Hno b y)|]. rewrite (bind_step _ _ _ _ _ E). set (a := next s). set (s1 := set_next (next s + 1) s). set (s2 := set_state (set_next_id n (state s1)) s1).
  set (s3 := set_state (set_abstract_hash (<[h mod ABSTRACT_HASH_SIZE := a :: bucket_of h (state s2)]> (abstract_hash (state s2))) (set_abstracts (<[a := mk_abstract 0 h n]> (abstracts (state s2))) (state s2))) s2).
  assert (state s1 = state s) as Es1 by (by destruct s). assert (state s2 = set_next_id n (state s)) as Es2 by (unfold s2; by rewrite net_state_set, Es1).
  rewrite (bind_step _ _ s a s3); [|rewrite (bind_step _ _ s a s1) by done; rewrite (bind_step _ _ s1 n s2) by (unfold unix_socket_next_id; rewrite (bind_step _ _ s1 s1 s1) by done; unfold id; by rewrite Es1); done].
  assert (abstracts (state s3) = <[a := mk_abstract 0 h n]> (abstracts (state s))) as Ea3 by (unfold s3; rewrite net_state_set; cbn; by rewrite Es2).
  rewrite (bind_step _ _ s3 (mk_abstract 0 h n) s3) by (unfold get_abstract; rewrite (bind_step _ _ s3 s3 s3) by done; unfold id; by rewrite Ea3, lookup_insert_eq). cbn [ab_refcount ab_hash ab_socket_id].
  set (s4 := set_state (set_abstracts (<[a := mk_abstract (u32 (0 + 1)) h n]> (abstracts (state s3))) (state s3)) s3). rewrite (bind_step _ _ s3 tt s4) by done.
  assert (has_socket s4 fd x) as Hfd4. { destruct Hfd as [Ho Hx]. split; [by destruct s|]. unfold s4. rewrite net_state_set. unfold s3. rewrite net_state_set. cbn. by rewrite Es2. }
  rewrite (bind_step _ _ _ _ _ (upd_socket_run _ _ _ _ Hfd4)). set (s5 := with_socket fd (set_unix_name_abstract (Some a) x) s4). exists s5, n. split; [done|]. split; [done|].
  assert (abstracts (state s5) = <[a := mk_abstract 1 h n]> (abstracts (state s))) as Ea5. { unfold s5, with_socket. rewrite net_state_set. unfold s4. rewrite net_state_set. cbn. rewrite Ea3. by rewrite insert_insert_eq. }
  assert (abstract_hash (state s5) = <[h mod ABSTRACT_HASH_SIZE := a :: bucket_of h (state s)]> (abstract_hash (state s))) as Eb5. { unfold s5, with_socket. rewrite net_state_set. unfold s4. rewrite net_state_set. unfold s3. rewrite net_state_set. cbn. by rewrite Es2. }
  assert (next s5 = next s + 1) as En by (by destruct s). assert (forall g, bucket_of g (state s5) = if decide (g mod ABSTRACT_HASH_SIZE = h mod ABSTRACT_HASH_SIZE) then a :: bucket_of g (state s) else bucket_of g (state s)) as Hb5.
  { intros g. unfold bucket_of. rewrite Eb5. case_decide as Hg; [rewrite Hg; by rewrite lookup_insert_eq|by rewrite lookup_insert_ne]. }
  assert (forall b y, abstracts (state s) !! b = Some y -> b <> a) as Hfresh by (intros b y Hb; destruct (Ht b y Hb); unfold a; lia).
  assert (names_ok s5) as Hok5.
  { split.
    - intros g b. rewrite Hb5. case_decide as Hg; [intros [->|Hb]%elem_of_cons|intros Hb]; [exists (mk_abstract 1 h n); split; [by rewrite Ea5, lookup_insert_eq|done]|destruct (Hc g b Hb) as (y & Hy & Hh); exists y; split; [|done]; rewrite Ea5, lookup_insert_ne; [done|apply not_eq_sym; by eapply Hfresh]..].
    - intros b y. rewrite Ea5, En. intros [[<- <-]|[_ Hy]]%lookup_insert_Some; [split; [|lia]; rewrite Hb5, decide_True by done; apply elem_of_cons; by left|]. destruct (Ht b y Hy) as [Hin Hlt]. split; [|lia]. rewrite Hb5. case_decide; [apply elem_of_cons; by right|done].
    - intros b c y z. rewrite Ea5. intros [[<- <-]|[Hb Hy]]%lookup_insert_Some [[<- <-]|[Hc' Hz]]%lookup_insert_Some Hh; [done|by destruct (Hno c z)|by destruct (Hno b y)|by eapply Hu]. }
  assert (named s5 h a (mk_abstract 1 h n)) as Hn5 by (split; [by rewrite Ea5, lookup_insert_eq|done]). split_and!; [done| | |].
  - destruct (abstract_lookup_run s5 name a _ Hok5 Hn5) as (s6 & E6 & _). by exists s6.
  - intros g. by eapply abstract_taken_run.
  - intros g b y Hg. unfold named. rewrite Ea5. split; [intros [[[<- <-]|[_ Hy]]%lookup_insert_Some Hh]; [done|done]|]. intros [Hy Hh]. split; [|done]. rewrite lookup_insert_ne; [done|apply not_eq_sym; by eapply Hfresh].
Qed.

(** Two names with the same hash are one name: a socket is found under a name nobody bound. *)
Theorem abstract_names_collide s name name' a x : names_ok s -> named s (str_hash name) a x -> str_hash name' = str_hash name -> exists s', unix_abstract_get name' None s = Ret (inr (ab_socket_id x)) s'.
Proof. intros Hok Hn E. destruct (abstract_lookup_run s name' a x Hok) as (s' & E' & _); [by rewrite E|]. by exists s'. Qed.

(** A name that somebody connected to is never free again: the reference the connection took stays when the socket it belongs to is closed. *)
Theorem abstract_name_leaks s name a h n : names_ok s -> named s (str_hash name) a (mk_abstract 1 h n) ->
  exists s1 s2, unix_abstract_get name None s = Ret (inr n) s1 /\ unix_abstract_release a s1 = Ret tt s2 /\ forall fd, unix_abstract_get name (Some fd) s2 = Ret (inl _EEXIST) s2.
Proof.
  intros Hok Hn. destruct (abstract_lookup_run s name a _ Hok Hn) as (s1 & E1 & Es & En). cbn [ab_refcount ab_hash ab_socket_id] in *. destruct Hn as [Hx Hh]. cbn in Hh. pose proof (counted_ok s s1 a _ _ Hok Hx Es En) as Hok1.
  assert (abstracts (state s1) !! a = Some (mk_abstract 2 h n)) as H1 by (rewrite Es; cbn; by rewrite lookup_insert_eq).
  set (s2 := set_state (set_abstracts (<[a := mk_abstract 1 h n]> (abstracts (state s1))) (state s1)) s1). exists s1, s2. split; [done|]. assert (state s2 = set_abstracts (<[a := mk_abstract 1 h n]> (abstracts (state s1))) (state s1)) as Es2 by (unfold s2; by rewrite net_state_set).
  split; [|intros fd; eapply (abstract_taken_run s2 name fd a (mk_abstract 1 h n)); [eapply (counted_ok s1 s2 a _ 1); [done|exact H1|done|by destruct s1]|split; [rewrite Es2; cbn; by rewrite lookup_insert_eq|done]]].
  unfold unix_abstract_release. rewrite (bind_step _ _ s1 (mk_abstract 2 h n) s1) by (unfold get_abstract; rewrite (bind_step _ _ s1 s1 s1) by done; unfold id; by rewrite H1). reflexivity.
Qed.

End Names.

(** ** What goes wrong *)

Section Faults.
Context {F : Type} {SF : System F} {HA : HasAdhoc F} {HT : HasNet F} {HN : HostNumbers} {HE : HostErrno}.
Implicit Types s : vfs F.

(** A header that says it has 2^32 - 1 bytes is followed by itself: the emulator never comes back from sending such a message. *)
Theorem control_never_ends s sock level rest controllen : level <> SOL_SOCKET_ -> in_u 31 level -> CMSGHDR_SIZE < controllen ->
  send_rights sock (le_bytes 4 (2 ^ 32 - 1) ++ le_bytes 4 level ++ rest) controllen s = Hang.
Proof.
  intros Hl Hr Hc. set (control := le_bytes 4 (2 ^ 32 - 1) ++ le_bytes 4 level ++ rest). set (c := cmsg_at control 0). pose proof iovec_field_length as L.
  assert (cm_len c = 2 ^ 32 - 1) as Elen by (unfold c, control; cbn [cmsg_at cm_len]; change (Z.to_nat 0) with 0%nat; rewrite drop_0; by apply (nth_word_at 0 [])).
  assert (cm_level c = level) as Elev. { unfold c, control; cbn [cmsg_at cm_level]; change (Z.to_nat 0) with 0%nat; rewrite drop_0, (nth_word_at 1 (le_bytes 4 (2 ^ 32 - 1))); [|by rewrite L|unfold in_u in *; lia]. apply swrap_small; unfold in_u, in_s in *; cbn; lia. }
  assert (CMSG_NXTHDR_ control controllen c = Some c) as En.
  { unfold CMSG_NXTHDR_, CMSG_LEN_. rewrite Elen. change (Z.land (u32 (2 ^ 32 - 1 + 3)) (u32 (Z.lnot 3))) with 0. change (cm_at c) with 0. change CMSGHDR_SIZE with 12 in *. change (2 ^ 32 - 1 <? 12) with false. destruct (Z.geb_spec (0 + 12) (controllen - 0)); [lia|done]. }
  assert (forall fuel n, count_fds fuel control controllen (Some c) n s = Hang) as Hloop.
  { induction fuel as [|fuel IH]; intros n; [done|]. cbn [count_fds]. rewrite Elev. destruct (Z.eqb_spec level SOL_SOCKET_); [done|]. cbn [negb]. rewrite En. apply IH. }
  unfold send_rights. fold control c. unfold bind at 1. by rewrite Hloop.
Qed.

(** Passing a descriptor that is not open reads through a null pointer. *)
Theorem closed_descriptor_faults s sock t n junk : tables s !! files (current s) = Some t -> ft_size t < 2 ^ 31 -> in_u 31 n -> n < ft_size t -> ft_files t !! Z.to_nat n = Some None ->
  send_rights sock (rights_bytes [n] ++ junk) (CMSGHDR_SIZE + 4) s = Fault.
Proof.
  intros Ht Hsz Hn Hlt Hf. destruct (rights_header [n] junk ltac:(cbn; lia)) as [Hh Hnx]. cbn [length] in Hh, Hnx. change (4 * Z.of_nat 1) with 4 in *. set (control := rights_bytes [n] ++ junk) in *.
  unfold send_rights. rewrite Hh. assert (exists n, MAX_CMSGS = S n) as [fuel ->] by (by eexists). rewrite (bind_step _ _ s (inr 1) s) by (by rewrite count_single). change (1 >? 253) with false. change (1 =? 0) with false. cbv iota.
  set (s1 := set_next (next s + 1) s). rewrite (bind_step _ _ s (next s) s1) by done. rewrite cmsgs_single by done. apply fault_step. cbn [collect_fds cm_level]. change (negb (SOL_SOCKET_ =? SOL_SOCKET_)) with false. cbv iota. apply fault_step.
  change (Z.to_nat (Z.min (cmsg_fds (mk_cmsghdr 0 (CMSGHDR_SIZE + 4) SOL_SOCKET_ SCM_RIGHTS_)) (1 + 1))) with 1%nat. cbn [take_fds cm_at]. unfold in_u in Hn.
  assert (control = (le_bytes 4 16 ++ le_bytes 4 SOL_SOCKET_ ++ le_bytes 4 SCM_RIGHTS_) ++ le_bytes 4 n ++ junk) as -> by (unfold control, rights_bytes; rewrite <- !app_assoc; done). pose proof iovec_field_length as L.
  rewrite in_bounds_step by (apply Z.leb_le; rewrite !length_app, !L; unfold CMSGHDR_SIZE; lia). rewrite drop_app_length', take_app_length' by (by rewrite ?length_app, !L).
  rewrite Fpu.le_bytes_value by (unfold in_u; lia). rewrite swrap_small by (unfold in_s; cbn; lia). rewrite (bind_step _ _ s1 None s1); [done|]. apply (f_get_run n s1 t None); [by destruct s|done|lia|done].
Qed.

(** The count of descriptors wraps around when a header is shorter than itself: room is made for one descriptor and the second is stored behind it. *)
Theorem rights_overflow s sock t a b c d fa fb : tables s !! files (current s) = Some t -> ft_size t < 2 ^ 31 -> opens s t a fa -> opens s t b fb ->
  send_rights sock (rights_bytes [a; b; c; d] ++ le_bytes 4 0 ++ le_bytes 4 SOL_SOCKET_ ++ le_bytes 4 SCM_RIGHTS_ ++ [0]) 41 s = Fault.
Proof.
  intros Ht Hsz Ha Hb. set (junk := le_bytes 4 0 ++ le_bytes 4 SOL_SOCKET_ ++ le_bytes 4 SCM_RIGHTS_ ++ [0]). destruct (rights_header [a; b; c; d] junk ltac:(cbn; lia)) as [Hh _]. cbn [length] in Hh. change (CMSGHDR_SIZE + 4 * Z.of_nat 4) with 28 in Hh. set (control := rights_bytes [a; b; c; d] ++ junk) in *.
  set (h1 := mk_cmsghdr 0 28 SOL_SOCKET_ SCM_RIGHTS_) in *. set (h2 := mk_cmsghdr 28 0 SOL_SOCKET_ SCM_RIGHTS_). assert (CMSG_NXTHDR_ control 41 h1 = Some h2) as N1 by reflexivity. assert (CMSG_NXTHDR_ control 41 h2 = None) as N2 by reflexivity.
  unfold send_rights. rewrite Hh. assert (exists n, MAX_CMSGS = S (S n)) as [fuel ->] by (by eexists). rewrite (bind_step _ _ s (inr 1) s).
  2: { change (count_fds (S (S fuel)) control 41 (Some h1) 0 s) with (count_fds (S fuel) control 41 (CMSG_NXTHDR_ control 41 h1) (u32 (0 + cmsg_fds h1)) s). rewrite N1, count_single by done. reflexivity. }
  change (1 >? 253) with false. change (1 =? 0) with false. cbv iota. set (s1 := set_next (next s + 1) s). rewrite (bind_step _ _ s (next s) s1) by done. apply fault_step.
  change (cmsgs (S (S fuel)) control 41 (Some h1)) with (h1 :: cmsgs (S fuel) control 41 (CMSG_NXTHDR_ control 41 h1)). rewrite N1, cmsgs_single by done. cbn [collect_fds]. change (negb (cm_level h1 =? SOL_SOCKET_)) with false. cbv iota. apply fault_step.
  change (Z.to_nat (Z.min (cmsg_fds h1) (1 + 1))) with 2%nat. destruct Ha as (Ha1 & Ha2 & Ha3 & Ha4), Hb as (Hb1 & Hb2 & Hb3 & Hb4). unfold in_u in Ha1, Hb1. pose proof iovec_field_length as L.
  assert (forall n f (st : vfs F), 0 <= n < 2 ^ 31 -> n < ft_size t -> ft_files t !! Z.to_nat n = Some (Some f) -> tables st !! files (current st) = Some t -> f_get (s32 (le_value (le_bytes 4 n))) st = Ret (Some f) st) as Hg.
  { intros n f st H1 H2 H3 H4. rewrite Fpu.le_bytes_value by (unfold in_u; lia). rewrite swrap_small by (unfold in_s; cbn; lia). apply (f_get_run n st t (Some f)); [done|done|lia|done]. }
  cbn [take_fds]. rewrite in_bounds_step by done. change (take 4 (drop (Z.to_nat (cm_at h1 + CMSGHDR_SIZE)) control)) with (le_bytes 4 a). rewrite (bind_step _ _ s1 (Some fa) s1) by (apply Hg; [done..|by destruct s]). rewrite (bind_step _ _ s1 fa s1) by done.
  rewrite (bind_step _ _ _ _ _ (passed_retain_run fa s1 ltac:(by destruct s))). rewrite in_bounds_step by done. set (s2 := set_fds (retain_one (fds s1) fa) s1). rewrite in_bounds_step by done. change (take 4 (drop (Z.to_nat (cm_at h1 + CMSGHDR_SIZE + 4)) control)) with (le_bytes 4 b).
  rewrite (bind_step _ _ s2 (Some fb) s2) by (apply Hg; [done..|by destruct s]). rewrite (bind_step _ _ s2 fb s2) by done. rewrite (bind_step _ _ _ _ _ (passed_retain_run fb s2 ltac:(destruct s; by apply retain_one_there))). reflexivity.
Qed.

(** Two names that are one. *)
Example names_bC_cb : str_hash [98; 67] = str_hash [99; 98].
Proof. reflexivity. Qed.

End Faults.

(** ** Two ends of a connection *)

Module Demo.
Abbreviation data := (net * Adhoc.adhoc)%type.
#[local] Instance demo_adhoc : HasAdhoc data.
Proof.
  refine {| Adhoc.get_adhoc x := x.2; Adhoc.put_adhoc a x := (x.1, a); Adhoc.adhoc_mount := 9; Adhoc.eventfd_ops := 20; Adhoc.realfs_fdops := 21; Adhoc.host_pipe := ret (0, (3, 4));
    Adhoc.host_close _ := ret tt; Adhoc.wakeup _ _ x := x |}; done.
Defined.
#[local] Instance demo_net : HasNet data.
Proof.
  refine {| get_net x := x.1; put_net n x := (n, x.2); socket_fdops := 30; host_errno _ := 0; host_pid := 1; host_socket _ _ _ := ret 5; host_bind _ _ := ret 0; host_connect _ _ := ret 0; host_listen _ _ := ret 0;
    host_accept _ _ := ret (6, [], 0); host_getsockname _ _ := ret (0, [], 0); host_getpeername _ _ := ret (0, [], 0); host_socketpair _ _ _ := ret (0, (5, 6)); host_sendto _ b _ _ := ret (Z.of_nat (length b));
    host_recvfrom _ _ _ _ := ret (0, [], [], 0); host_shutdown _ _ := ret 0; host_setsockopt _ _ _ _ := ret 0; host_getsockopt _ _ _ v := ret (0, v, Z.of_nat (length v)); host_sendmsg _ _ _ _ _ _ := ret 1;
    host_recvmsg _ _ _ _ _ := ret (mk_received 0 [] 0 [] false 0 0); host_write_fd _ _ := ret 8; host_read_fd _ := ret (0, 0); host_unlink _ := ret tt; control_junk _ := replicate 2048 0;
    realfs_close _ := ret 0; realfs_read _ _ := ret (0, []); realfs_write _ b := ret (Z.of_nat (length b)) |}; done.
Defined.

Definition file (ops : Z) : fd := mk_fd 1 0 0 ops 0 None None None None.
Definition end_of (peer : Z) : socket := mk_socket PF_LOCAL_ 1 0 None None 0 (replicate 108 0) (Some peer) [] (mk_ucred 0 0 0).
(** Descriptors 0 and 1 are two ends of a connection, 2 is a file. *)
Definition table : fdtable := mk_fdtable 1 [Some 40; Some 41; Some 42] (replicate 8 false).
Definition connected : vfs data :=
  mk_vfs (mk_net {[ 40 := end_of 41; 41 := end_of 40 ]} ∅ ∅ ∅ 0 [] 0 false, Adhoc.mk_adhoc ∅ ∅ ∅ ∅) [] {[ 40 := file 30; 41 := file 30; 42 := file 7 ]} ∅ ∅ {[ 200 := table ]} Tmpfs.Demo.user0 60.

Lemma descriptors_passed_witness : exists s', pass_all 40 41 [Pass [2; 0] [42; 40] []; Pass [1] [41] [7]; Accept; Accept] connected = Ret [[42; 40]; [41]] s' /\
  fd_refcount <$> fds s' !! 42 = Some 2.
Proof.
  destruct (descriptors_passed [Pass [2; 0] [42; 40] []; Pass [1] [41] [7]; Accept; Accept] connected 40 41 table [] [[42; 40]; [41]] []) as (s' & E & _ & Hf).
  - split; [eexists; split; [split; [by eexists|reflexivity]|reflexivity]|discriminate|reflexivity|done].
  - split; [eexists; split; [split; [by eexists|reflexivity]|split; constructor]|intros a fs Ha; by vm_compute in Ha].
  - repeat constructor; unfold in_u; cbn; lia || done || by eexists.
  - reflexivity.
  - exists s'. split; [exact E|]. rewrite Hf. reflexivity.
Defined.

Lemma abstract_name_bound_witness : exists s', unix_abstract_get [98; 67] (Some 40) connected = Ret (inr 1) s' /\ (exists s2, unix_abstract_get [98; 67] None s' = Ret (inr 1) s2).
Proof.
  destruct (abstract_name_bound connected 40 (end_of 41) [98; 67]) as (s' & n & E & -> & _ & H & _).
  - split; [intros h a Ha; by apply elem_of_nil in Ha|intros a x Hx; by vm_compute in Hx|intros a b x y Hx; by vm_compute in Hx].
  - split; [by eexists|reflexivity].
  - intros a y [Hy _]. by vm_compute in Hy.
  - exists s'. split; [exact E|exact H].
Defined.
End Demo.
End Sock.
